(* ===== verification/_CoqProject ===== *)
-Q . S2P
Prelude.v
Types.v
Strings.v
Namefix.v
Media.v
CacheApi.v
Links.v
BlockCache.v
BlockCacheProofs.v
BlockCacheRead.v
BlockCacheSpec.v
Charset.v
Timestamp.v
RockRidge.v
RockRidgeProofs.v
RockRidgeTotal.v
RockRidgeTransparent.v
Iso9660.v
Joliet.v
IsoScan.v
IsoReaddir.v
IsoTransparent.v
IsoResume.v
IsoSpec.v
Backend.v
MetaCache.v
MetaCacheProofs.v
MetaCacheSpec.v
IsoListing.v
Session.v
Mount.v
MountProofs.v
MountSpec.v
Ancestry.v
AncestrySpec.v
IsoBackend.v
IsoVolume.v
Cdda.v
CddaBackend.v
CddaRead.v
FileMedia.v
FileMediaProofs.v
FileMediaSpec.v
CddaText.v
CddaSpec.v
Reader.v
Catalog.v
Discs.v
Hfs.v
HfsNodes.v
HfsListing.v
HfsBackend.v
HfsParents.v
HfsSpec.v
HfsPlus.v
HfsPlusNodes.v
HfsPlusListing.v
HfsPlusBackend.v
HfsPlusParents.v
HfsPlusSpec.v
Udf.v
UdfObjects.v
UdfListing.v
UdfReaddir.v
UdfLinks.v
UdfBackend.v
UdfTotal.v
UdfDisc.v
UdfSpec.v
UdfBounds.v
Printf.v
PrintfSpec.v
Freestanding.v
FreestandingSpec.v
AmigaMedia.v
AmigaMediaSpec.v
