(* ===== verification/Prelude.v ===== *)
(** * ODFileSystem: verification development (root file)

    ODFileSystem reads optical discs: ISO 9660 with Rock Ridge and Joliet, UDF, HFS,
    HFS+ and audio CDs.  A front end (the Amiga handler, the host tools) mounts a
    medium and asks for directories, names and file data; the core
    ([core/], [include/odfs/]) keeps two caches and dispatches to format readers
    ([backends/]).  This library models the core, image files, the readers for the ISO
    family, UDF, audio CDs, HFS and HFS+, and of the Amiga handler the drive, the
    formatter and the memory functions, translated from the C code, and proves what makes
    them correct.

    ** Parts and files

    - [Prelude] (this file): outcomes of a C computation, fixed-width integers,
      arrays, buffer accesses that fault, C strings, tactics and hints.
    - [Types]: errors and nodes ([core/error.c], [core/node.c], [include/odfs/node.h]).
    - [Strings]: ASCII case folding, comparison and hash ([include/odfs/string.h]).
    - [Namefix]: names made unique within a directory ([core/namefix.c]).
    - [Media]: the medium as a table of operations ([include/odfs/media.h]), and what
      it promises ([MediaReads], [CleanFailure]).
    - [Links], [BlockCache], [BlockCacheProofs], [BlockCacheRead], [BlockCacheSpec]:
      the block cache ([core/cache_block.c]) with its LRU list, free list and hash
      chains as linked indices, clustered misses and byte reads; its invariant; the
      theorems.  [CacheApi] is the interface the format readers see ([CacheOps],
      [CacheLaws]); [BlockCacheSpec] shows the cache implements it.
    - [Charset], [Timestamp]: encodings, names, link targets, dates
      ([core/charset.c], [core/timestamp.c]).
    - [RockRidge], [RockRidgeProofs], [RockRidgeTotal], [RockRidgeTransparent]: System
      Use entries ([backends/rock_ridge/]): bounds, ends, and what the cache has to do with
      them.
    - [Iso9660], [Joliet], [IsoScan], [IsoReaddir], [IsoTransparent], [IsoResume],
      [IsoSpec]: the ISO 9660 and Joliet readers ([backends/iso9660/],
      [backends/joliet/]), against [CacheApi].
    - [Backend]: the table of operations of a format reader ([include/odfs/backend.h]).
    - [MetaCache], [MetaCacheProofs], [MetaCacheSpec]: the cache of parsed directories
      ([core/cache_meta.c]), against any backend that lists its directories ([Lists]).
    - [Session]: the last session of a disc ([core/session.c]).
    - [Mount], [MountProofs], [MountSpec]: mounted volumes ([core/mount.c]): probing,
      precedence, unmounting, dispatch through the metadata cache, paths; against
      backends with a [Lifecycle] and backends that list and look up ([Serves]); what
      every backend keeps holds throughout a mount.
    - [Ancestry], [AncestrySpec]: the search for a node's parent ([core/ancestry.c]).
    - [IsoListing], [IsoBackend], [IsoVolume]: the two readers as backends.  They
      discharge the interfaces of the mount layer ([Lists],
      [ListsFrom], [Serves], [Lifecycle], [Keeps]) on the block cache, so the
      theorems of [IsoVolume] are about a volume from the medium up.
    - [Cdda], [CddaBackend], [CddaRead], [CddaText], [CddaSpec]: audio tracks
      as WAV and AIFF files ([backends/cdda/]).
    - [FileMedia], [FileMediaProofs], [FileMediaSpec]: raw images and cue
      sheets as media ([platform/host/file_media.c]), over streams with failing calls.
    - [Reader]: readers over the block cache with a context of their own, as backends;
      what one promises ([ReaderLaws], [ReaderLists]) and what a volume mounted by it is.
    - [Catalog]: B-trees of records by directory, the walk over them; [Discs]: small
      discs for examples.
    - [Hfs], [HfsNodes], [HfsListing], [HfsBackend], [HfsParents], [HfsSpec]: HFS
      ([backends/hfs/]); [HfsPlus], [HfsPlusNodes], [HfsPlusListing], [HfsPlusBackend],
      [HfsPlusParents], [HfsPlusSpec]: HFS+ ([backends/hfsplus/]).  The walk
      over the disc is shown to be the walk of [Catalog]; both are lawful readers.
    - [Udf], [UdfObjects], [UdfListing], [UdfReaddir], [UdfLinks], [UdfBackend],
      [UdfTotal], [UdfDisc], [UdfSpec], [UdfBounds]: UDF ([backends/udf/]): descriptors and
      operations; objects as bytes of chained extents; directories as lists of entries; link
      targets and parents; a lawful reader; that every operation ends; a disc for examples;
      the theorems, and those about any bytes.
    - [Printf], [PrintfSpec]: the formatter of the handler
      ([platform/amiga/printf_local.c]) and the text a format stands for.
    - [Freestanding], [FreestandingSpec]: [memmove] and its kin by words
      ([platform/amiga/common/freestanding.c]) over a memory with addresses.
    - [AmigaMedia], [AmigaMediaSpec]: the drive as the handler sees it
      ([platform/amiga/handler_main.c], [amiga_media_ops]) over a device that answers
      requests ([Drive] is what drivers document); a medium for the block cache.

    ** How the code is modelled

    A function of the code is a function on its arguments and the state it reads and
    writes; out parameters are components of the result.  Code that may access memory
    outside an object, or whose loops are not structural, returns an [outcome]:
    [Fault] for such an access, [Diverge] when the fuel of a loop runs out.  Unsigned
    fields are integers in range and wrap around where the code's arithmetic does
    ([u8], [u16], [u32], [u64]).  Strings are the bytes before the NUL.  Allocation is
    an oracle that says which allocations succeed; memory that is only freed is not
    modelled, except for the contexts of backends, which [MountProofs] counts.  A
    pointer to the block cache's data is an index through which one sees what the
    buffer holds at that time, so reuse of a buffer under a held pointer shows.  The
    build is the full profile on a 64-bit host: names have up to [ODFS_NAME_MAX] = 512
    bytes, all features are on, calls of the log are left out, pointer arguments the
    code checks for NULL are not NULL.

    ** What is shown

    - Volumes: on a mounted ISO 9660 or Joliet volume without Rock Ridge, resolving a
      path through all layers is walking the directories as the disc holds them, and
      reading a resolved file gives the bytes of its extent on the disc.
    - Block cache: a successful read returns the disc's sector and keeps every pointer
      intact while the generation stands still; byte reads return the bytes asked
      for; the cached set is that of a bounded LRU list; failing reads change nothing
      on media that fail cleanly, and may corrupt a cached sector on others.
    - ISO 9660, for directories of at most [2 ^ 32 - 2048] bytes: enumeration ends, its
      names are distinct and well formed, lookup finds what a complete enumeration lists,
      all of them with Rock Ridge and without.  When the directory's sectors can be read
      and, with Rock Ridge, no entry of a System Use Area follows a continuation and the
      continuation areas can be read ([rr_areas_ok]), enumeration through any coherent
      cache is enumeration of the disc, and stopping and resuming it loses and repeats
      nothing.  Reads are exact, records in the standard layout parse to their fields.
    - Rock Ridge: parsing ends on any bytes, stays inside its objects but for two
      malformed entries, puts split names together but for one case; what follows a
      continuation in an area may be read from another sector
      ([rr_parse_depends_on_cache]).
    - Metadata cache: enumeration, lookup and path walks through it are those of the
      backend's listings or are refused without effect, and never refused for what is
      cached; with a budget below [2 ^ 31] its bytes are accounted for and within the
      budget, and with a larger one its 32-bit total can wrap around ([total_wraps]).
    - Sessions: the last one is found on well-formed discs; a crafted image makes the
      search loop.
    - Mounting: which backend wins, that no context leaks or is freed twice, which
      sessions are tried; lookup, enumeration, path resolution and the parent search
      of a volume are those of the listings, whatever the metadata cache does.
    - Audio CDs: what a track's file reads as is its header and the samples of the disc,
      in the byte order of the format, whatever the read-ahead holds; enumeration and
      lookup are those of a list of files; titles make the round trip through CD-Text.
    - Image files: an opened image or cue sheet is a medium that shows the file's
      sectors; a disc opened from a sheet plays its audio tracks.
    - HFS and HFS+: on a mounted volume with a well-formed catalog, resolving a path is
      walking the catalog's listings; enumeration can be stopped and resumed; parents are
      found by thread records; forks are read exactly; files are read exactly in their
      first extent, and wrongly behind it.  On any bytes, HFS+ delivers well-typed nodes
      only.  A catalog whose leaves form a cycle is walked forever.
    - UDF: on a mounted volume, resolving a path is walking the listings of its directories,
      and reads are exact for embedded and fragmented data; enumeration resumes where it
      stopped; links read as the path their components spell; on any bytes every operation
      ends, and stays in bounds for sizes below [2 ^ 63] and blocks of at most 2048 bytes.
    - The handler's own routines: formatting writes the text of the format as far as it
      fits; moves and scans by words are those by bytes; reads of the drive show the disc
      whatever path they take, the way to read beyond 4 GiB is found once, and tables of
      contents are understood.
    - Names, encodings, dates: round trips, bounds, uniqueness.

    ** Fuel

    Loops over a buffer, a list or a directory have the number of bytes or elements
    left as fuel, and theorems show it is enough ([rr_parse_terminates],
    [iso_readdir_terminates] for directories up to [2 ^ 32 - 2048] bytes,
    [joliet_find_svd_terminates], [find_last_session_ends], [odfs_resolve_path_correct]).
    Continuation areas nest nine deep, as in the code.  The parent search takes its
    fuel as an argument; [resolve_parent_search_correct] shows that enough exists for
    every finite tree.  [meta_trim] needs two rounds per directory; name ordinals run
    to 999999, as in the code.  A walk over the leaves of a catalog takes its fuel as an
    argument: the number of leaves is enough ([walk_spec]), and none is for cyclic ones
    ([hfs_cyclic_leaf_never_ends], [hfsp_cyclic_leaf_never_ends]).

    ** Not modelled

    The log ([core/log.c], [include/odfs/printf.h]) only writes diagnostics.  Of the Amiga
    handler what works on packets, locks, file handles, volume nodes and file information
    ([handler_main.c] apart from the media adapter: the packet loop, path syntax,
    examination, dates, read-ahead on seek, geometry) is left out, with the AmigaOS 4 port
    ([os4/]): these share their structures with operating-system libraries whose code is
    not in the repository.  The media adapter is modelled as built for classic AmigaOS.  Tools, tests and
    build files are not part of the system. *)
From stdpp Require Export base numbers list sets.
From Stdlib Require Export ZArith Lia.

#[global] Open Scope Z_scope.

(** ** Outcomes of a C computation

    [Ret a]: the function returned [a].  [Fault]: it performed an access outside
    the object it points into (undefined behaviour).  [Diverge]: the fuel of a
    loop ran out; the termination theorems show when this cannot happen. *)
Inductive outcome (A : Type) : Type :=
  | Ret (a : A)
  | Fault
  | Diverge.
Arguments Ret {A} a.
Arguments Fault {A}.
Arguments Diverge {A}.

#[export] Instance outcome_ret : MRet outcome := fun A a => Ret a.
#[export] Instance outcome_bind : MBind outcome := fun A B k m =>
  match m with Ret a => k a | Fault => Fault | Diverge => Diverge end.

#[export] Instance outcome_fmap : FMap outcome := fun A B f m => m ≫= λ a, Ret (f a).

(** The computation stays inside its objects and returns. *)
Definition returns {A} (m : outcome A) : Prop := ∃ a, m = Ret a.
(** The computation stays inside its objects and terminates in a value of [P]. *)
Definition yields {A} (m : outcome A) (P : A → Prop) : Prop := ∃ a, m = Ret a ∧ P a.

(** The computation terminates, and if it stays inside its objects its value is
    in [P]. *)
Definition lands {A} (m : outcome A) (P : A → Prop) : Prop :=
  match m with Ret a => P a | Fault => True | Diverge => False end.

(** If the computation returns, its value is in [P]. *)
Definition after {A} (m : outcome A) (P : A → Prop) : Prop := ∀ a, m = Ret a → P a.

(** Two computations that end the same way, with values related by [R]. *)
Definition outcome_rel {A B} (R : A → B → Prop) (m : outcome A) (m' : outcome B) : Prop :=
  match m, m' with
  | Ret a, Ret b => R a b
  | Fault, Fault => True
  | Diverge, Diverge => True
  | _, _ => False
  end.

(** ** Fixed-width integers *)
Definition u8 (z : Z) : Z := z mod 2 ^ 8.
Definition u16 (z : Z) : Z := z mod 2 ^ 16.
Definition u32 (z : Z) : Z := z mod 2 ^ 32.
Definition u64 (z : Z) : Z := z mod 2 ^ 64.
Definition s8 (z : Z) : Z := let m := u8 z in if m <? 128 then m else m - 256.
Definition s16 (z : Z) : Z := let m := u16 z in if m <? 32768 then m else m - 65536.
Definition UINT32_MAX : Z := 2 ^ 32 - 1.

Definition is_byte (b : Z) : Prop := 0 ≤ b < 256.
Definition is_u32 (z : Z) : Prop := 0 ≤ z < 2 ^ 32.

(** ** Arrays indexed by [Z] *)
Abbreviation zlen l := (Z.of_nat (length l)) (only parsing).

Definition zget {A} (l : list A) (i : Z) : option A :=
  if 0 <=? i then l !! Z.to_nat i else None.
Definition zset {A} (l : list A) (i : Z) (x : A) : list A :=
  if 0 <=? i then <[Z.to_nat i := x]> l else l.
Definition zupd {A} (l : list A) (i : Z) (f : A → A) : list A :=
  if 0 <=? i then alter f (Z.to_nat i) l else l.
(** [n] elements of [l] from index [off] on. *)
Definition slice {A} (l : list A) (off n : Z) : list A :=
  take (Z.to_nat n) (drop (Z.to_nat off) l).
(** [memcpy(l + off, src, len(src))]. *)
Definition splice {A} (l : list A) (off : Z) (src : list A) : list A :=
  take (Z.to_nat off) l ++ src ++ drop (Z.to_nat off + length src) l.

(** The memory of the object [l] from offset [off] on; nothing beyond its end. *)
Definition mem_at {A} (l : list A) (off : Z) : list A :=
  if off <=? zlen l then drop (Z.to_nat off) l else [].

(** ** Buffer accesses that fault outside the buffer *)
Definition rd (buf : list Z) (i : Z) : outcome Z :=
  match zget buf i with Some b => Ret b | None => Fault end.
Definition rd_range (buf : list Z) (off n : Z) : outcome (list Z) :=
  if (0 <=? off) && (0 <=? n) && (off + n <=? zlen buf)
  then Ret (slice buf off n) else Fault.
Definition wr (buf : list Z) (i : Z) (b : Z) : outcome (list Z) :=
  if (0 <=? i) && (i <? zlen buf) then Ret (zset buf i b) else Fault.
Definition wr_range (buf : list Z) (off : Z) (src : list Z) : outcome (list Z) :=
  if (0 <=? off) && (off + zlen src <=? zlen buf)
  then Ret (splice buf off src) else Fault.

(** ** NUL-terminated strings: the bytes before the first NUL *)
Fixpoint c_str (buf : list Z) : list Z :=
  match buf with
  | [] => []
  | b :: rest => if b =? 0 then [] else b :: c_str rest
  end.
Definition strlen (buf : list Z) : Z := zlen (c_str buf).

(** [strlen] of an array that must hold a NUL. *)
Definition strlen_buf (buf : list Z) : outcome Z :=
  if existsb (λ b, b =? 0) buf then Ret (strlen buf) else Fault.

(** ** Little- and big-endian fields *)
Definition le16 (b0 b1 : Z) : Z := Z.lor b0 (Z.shiftl b1 8).
Definition le32 (b0 b1 b2 b3 : Z) : Z :=
  Z.lor (Z.lor (Z.lor b0 (Z.shiftl b1 8)) (Z.shiftl b2 16)) (Z.shiftl b3 24).

(** ** Tactics and hints *)
Create HintDb odfs.

(** Case analysis on the innermost boolean test or match of the goal. *)
Ltac case_test :=
  match goal with
  | |- context [if ?b then _ else _] =>
      lazymatch b with
      | context [if _ then _ else _] => fail
      | _ => let E := fresh "E" in destruct b eqn:E
      end
  end.

(** Boolean comparisons in the context become propositions. *)
Ltac b2p :=
  repeat match goal with
  | H : (_ <? _) = true |- _ => apply Z.ltb_lt in H
  | H : (_ <? _) = false |- _ => apply Z.ltb_ge in H
  | H : (_ <=? _) = true |- _ => apply Z.leb_le in H
  | H : (_ <=? _) = false |- _ => apply Z.leb_gt in H
  | H : (_ =? _) = true |- _ => apply Z.eqb_eq in H
  | H : (_ =? _) = false |- _ => apply Z.eqb_neq in H
  | H : (_ && _)%bool = true |- _ => apply andb_true_iff in H; destruct H
  | H : (_ || _)%bool = false |- _ => apply orb_false_iff in H; destruct H
  | H : (_ && _)%bool = false |- _ => apply andb_false_iff in H
  | H : (_ || _)%bool = true |- _ => apply orb_true_iff in H
  | H : negb _ = true |- _ => apply negb_true_iff in H
  | H : negb _ = false |- _ => apply negb_false_iff in H
  | H : bool_decide _ = true |- _ => apply bool_decide_eq_true_1 in H
  | H : bool_decide _ = false |- _ => apply bool_decide_eq_false_1 in H
  end.

(** [lia] with the equations of [/] and [mod]. *)
Ltac dlia := Z.to_euclidean_division_equations; lia.

(** Split records and pairs met while unfolding a state-passing definition. *)
Ltac pairs :=
  repeat match goal with
  | H : (_, _) = (_, _) |- _ => injection H as H
  | H : Some _ = Some _ |- _ => injection H as H
  | H : Ret _ = Ret _ |- _ => injection H as H
  | p : _ * _ |- _ => destruct p
  end; subst.

(** ** Arrays *)
Section arrays.
Context {A : Type}.
Implicit Types (l : list A) (i j : Z).

Lemma zget_Some_range l i x : zget l i = Some x → 0 ≤ i < zlen l.
Proof.
  unfold zget. case_test; [|done]. intros H%lookup_lt_Some. b2p. lia.
Qed.

Lemma zget_is_Some l i : 0 ≤ i < zlen l → ∃ x, zget l i = Some x.
Proof.
  intros H. unfold zget. rewrite (proj2 (Z.leb_le 0 i)) by lia.
  apply lookup_lt_is_Some_2. lia.
Qed.

Lemma zget_None l i : zget l i = None ↔ i < 0 ∨ zlen l ≤ i.
Proof.
  unfold zget. case_test; b2p; [|split; auto with lia].
  rewrite lookup_ge_None. lia.
Qed.

Lemma zget_nat l (n : nat) : zget l (Z.of_nat n) = l !! n.
Proof. unfold zget. rewrite (proj2 (Z.leb_le _ _)) by lia. by rewrite Nat2Z.id. Qed.

Lemma zlen_zset l i x : length (zset l i x) = length l.
Proof. unfold zset. case_test; [apply length_insert|done]. Qed.
Lemma zlen_zupd l i f : length (zupd l i f) = length l.
Proof. unfold zupd. case_test; [apply length_alter|done]. Qed.

Lemma zget_zset_eq l i x : 0 ≤ i < zlen l → zget (zset l i x) i = Some x.
Proof.
  intros H. unfold zget, zset. rewrite (proj2 (Z.leb_le 0 i)) by lia.
  apply list_lookup_insert_eq. lia.
Qed.
Lemma zget_zset_ne l i j x : i ≠ j → zget (zset l i x) j = zget l j.
Proof.
  intros H. unfold zget, zset. repeat case_test; try done.
  b2p. apply list_lookup_insert_ne. lia.
Qed.
Lemma zget_zupd_eq l i f : zget (zupd l i f) i = f <$> zget l i.
Proof.
  unfold zget, zupd. repeat case_test; try done. apply list_lookup_alter_eq.
Qed.
Lemma zget_zupd_ne l i j f : i ≠ j → zget (zupd l i f) j = zget l j.
Proof.
  intros H. unfold zget, zupd. repeat case_test; try done.
  b2p. apply list_lookup_alter_ne. lia.
Qed.

Lemma length_slice l off n :
  0 ≤ off → 0 ≤ n → off + n ≤ zlen l → length (slice l off n) = Z.to_nat n.
Proof. intros. unfold slice. rewrite length_take, length_drop. lia. Qed.
Lemma slice_lookup l off n (k : nat) :
  0 ≤ off → Z.of_nat k < n → slice l off n !! k = l !! (Z.to_nat off + k)%nat.
Proof.
  intros. unfold slice. rewrite lookup_take_lt by lia. apply lookup_drop.
Qed.
Lemma slice_all l n : n = zlen l → slice l 0 n = l.
Proof. intros ->. unfold slice. rewrite drop_0, take_ge; [done|lia]. Qed.

Lemma slice_add l off a b :
  0 ≤ off → 0 ≤ a → 0 ≤ b → slice l off (a + b) = slice l off a ++ slice l (off + a) b.
Proof.
  intros. unfold slice. rewrite !Z2Nat.inj_add, <- drop_drop by lia. symmetry. apply take_take_drop.
Qed.
Lemma slice_app_l l r off n : 0 ≤ off → 0 ≤ n → off + n ≤ zlen l → slice (l ++ r) off n = slice l off n.
Proof.
  intros. unfold slice. rewrite drop_app_le by lia. apply take_app_le. rewrite length_drop. lia.
Qed.
Lemma slice_app_r l r off n : zlen l ≤ off → slice (l ++ r) off n = slice r (off - zlen l) n.
Proof. intros. unfold slice. rewrite drop_app_ge by lia. do 2 f_equal. lia. Qed.
Lemma slice_app_span (a b : list A) o n : 0 ≤ o ≤ zlen a → zlen a ≤ o + n →
  slice (a ++ b) o n = slice a o (zlen a - o) ++ slice b 0 (n - (zlen a - o)).
Proof.
  intros Ho Hn. replace n with ((zlen a - o) + (n - (zlen a - o))) at 1 by lia. rewrite slice_add by lia.
  rewrite slice_app_l by lia. rewrite slice_app_r by lia. do 2 f_equal; lia.
Qed.
Lemma slice_0 l off : slice l off 0 = [].
Proof. unfold slice. change (Z.to_nat 0) with 0%nat. apply take_0. Qed.
Lemma slice_end l off n : zlen l ≤ off → slice l off n = [].
Proof. intros. unfold slice. by rewrite drop_ge, take_nil by lia. Qed.
Lemma length_slice_le l off n : (length (slice l off n) ≤ Z.to_nat n)%nat.
Proof. unfold slice. rewrite length_take. lia. Qed.
Lemma length_slice_min l o n : 0 ≤ o → 0 ≤ n → zlen (slice l o n) = Z.min n (Z.max 0 (zlen l - o)).
Proof. intros. unfold slice. rewrite length_take, length_drop. lia. Qed.
(** What a range takes of the front, and what is left for the back. *)
Lemma slice_app_both (a b : list A) o n : 0 ≤ o → 0 ≤ n →
  slice (a ++ b) o n = slice a o n ++ slice b (o + zlen (slice a o n) - zlen a) (n - zlen (slice a o n)).
Proof.
  intros Ho Hn. pose proof (length_slice_min a o n Ho Hn) as Hl. destruct (decide (zlen a ≤ o)).
  { rewrite slice_app_r, (slice_end a) by lia. cbn [length app]. f_equal; lia. }
  destruct (decide (o + n ≤ zlen a)).
  { rewrite slice_app_l by lia. replace (n - zlen (slice a o n)) with 0 by lia. by rewrite slice_0, app_nil_r. }
  rewrite slice_app_span by lia. assert (slice a o n = slice a o (zlen a - o)) as Hs.
  { replace n with ((zlen a - o) + (n - (zlen a - o))) by lia. rewrite slice_add by lia. rewrite (slice_end a (o + (zlen a - o))) by lia. by rewrite app_nil_r. }
  rewrite Hs in *. f_equal. f_equal; lia.
Qed.
Lemma slice_slice l a n b m : 0 ≤ a → 0 ≤ b → 0 ≤ m → b + m ≤ n → slice (slice l a n) b m = slice l (a + b) m.
Proof.
  intros. unfold slice. rewrite Z2Nat.inj_add, <- drop_drop, skipn_firstn_comm, take_take by lia. f_equal. lia.
Qed.
Lemma length_splice l off (src : list A) :
  0 ≤ off → off + zlen src ≤ zlen l → length (splice l off src) = length l.
Proof.
  intros. unfold splice. rewrite !length_app, length_take, length_drop. lia.
Qed.
Lemma take_splice l off (src : list A) :
  0 ≤ off ≤ zlen l →
  take (Z.to_nat off + length src) (splice l off src) = take (Z.to_nat off) l ++ src.
Proof.
  intros. unfold splice. rewrite app_assoc.
  replace (Z.to_nat off + length src)%nat
    with (length (take (Z.to_nat off) l ++ src))
    by (rewrite length_app, length_take; lia).
  apply take_app_length.
Qed.
(** The start of a buffer is overwritten piece by piece. *)
Lemma splice_filled (s t buf : list A) :
  splice (s ++ drop (length s) buf) (zlen s) t = (s ++ t) ++ drop (length (s ++ t)) buf.
Proof.
  unfold splice. rewrite Nat2Z.id, take_app_length, <- app_assoc. do 2 f_equal.
  rewrite drop_app_ge by lia. rewrite drop_drop, length_app. f_equal. lia.
Qed.
End arrays.

Lemma alter_as_insert {A} (f : A → A) (l : list A) i x : l !! i = Some x → alter f i l = <[i := f x]> l.
Proof. revert i. induction l as [|y l IH]; intros [|i]; simpl; try done; [by intros [= ->]|]. intros H. by rewrite <- IH. Qed.
Lemma alter_out_of_range {A} (f : A → A) (l : list A) i : l !! i = None → alter f i l = l.
Proof. revert i. induction l as [|y l IH]; intros [|i]; simpl; try done. intros H. f_equal. by apply IH. Qed.
Lemma find_app {A} (f : A → bool) a b : List.find f (a ++ b) = match List.find f a with Some x => Some x | None => List.find f b end.
Proof. induction a as [|x a IH]; [done|]. simpl. by destruct (f x). Qed.
Lemma filter_id {A} (P : A → Prop) `{∀ x, Decision (P x)} (l : list A) :
  (∀ x, x ∈ l → P x) → filter P l = l.
Proof.
  induction l as [|x l IH]; intros Hl; [done|].
  rewrite filter_cons_True by (apply Hl; set_solver). f_equal. apply IH. set_solver.
Qed.

(** ** Faulting accesses *)
Lemma rd_app_l (a b : list Z) i : i < zlen a → rd (a ++ b) i = rd a i.
Proof. intros Hi. unfold rd, zget. case_test; [|done]. b2p. by rewrite lookup_app_l by lia. Qed.
Lemma rd_app_r (a b : list Z) i : 0 ≤ i → rd (a ++ b) (zlen a + i) = rd b i.
Proof. intros Hi. unfold rd, zget. rewrite !(proj2 (Z.leb_le _ _)) by lia. rewrite lookup_app_r by lia. by replace (Z.to_nat (zlen a + i) - length a)%nat with (Z.to_nat i) by lia. Qed.
Lemma rd_ok buf i : 0 ≤ i < zlen buf → returns (rd buf i).
Proof. intros [x H]%zget_is_Some. unfold rd. rewrite H. by exists x. Qed.
Lemma rd_range_ok buf off n :
  0 ≤ off → 0 ≤ n → off + n ≤ zlen buf → rd_range buf off n = Ret (slice buf off n).
Proof.
  intros. unfold rd_range.
  by rewrite !(proj2 (Z.leb_le _ _)) by lia.
Qed.
Lemma wr_range_ok buf off src :
  0 ≤ off → off + zlen src ≤ zlen buf → wr_range buf off src = Ret (splice buf off src).
Proof. intros. unfold wr_range. by rewrite !(proj2 (Z.leb_le _ _)) by lia. Qed.
Lemma wr_ok buf i b : 0 ≤ i < zlen buf → wr buf i b = Ret (zset buf i b).
Proof.
  intros. unfold wr.
  by rewrite (proj2 (Z.leb_le _ _)), (proj2 (Z.ltb_lt _ _)) by lia.
Qed.

Lemma yields_ret {A} (a : A) (P : A → Prop) : P a → yields (Ret a) P.
Proof. intros; exists a; auto. Qed.
Lemma yields_bind {A B} (m : outcome A) (k : A → outcome B) (P : A → Prop) (Q : B → Prop) :
  yields m P → (∀ a, P a → yields (k a) Q) → yields (m ≫= k) Q.
Proof. intros (a & -> & Ha) Hk. apply Hk, Ha. Qed.
Lemma yields_weaken {A} (m : outcome A) (P Q : A → Prop) :
  yields m P → (∀ a, P a → Q a) → yields m Q.
Proof. intros (a & Ha & HP) HQ. exists a; auto. Qed.
Lemma yields_returns {A} (m : outcome A) P : yields m P → returns m.
Proof. intros (a & ? & ?). by exists a. Qed.
Lemma returns_yields {A} (m : outcome A) : returns m → yields m (λ _, True).
Proof. intros (a & ?). by exists a. Qed.
Lemma bind_Ret {A B} (m : outcome A) (k : A → outcome B) b :
  m ≫= k = Ret b → ∃ a, m = Ret a ∧ k a = Ret b.
Proof. destruct m; simpl; try done. eauto. Qed.

(** A computation goes on where [b] holds. *)
Definition guard_ {A} (b : bool) (m : outcome A) : outcome A := if b then m else Fault.
(** Takes a computation that returned apart. *)
Ltac unbind H := repeat
  match type of H with
  | _ ≫= _ = Ret _ => let E := fresh "E" in apply bind_Ret in H as (? & E & H)
  | guard_ ?b _ = Ret _ => let E := fresh "E" in unfold guard_ at 1 in H; destruct b eqn:E; [|discriminate H]
  | (let _ := _ in _) = Ret _ => cbv zeta in H
  end.

Lemma Ret_pair {A B} (a a' : A) (b b' : B) : Ret (a, b) = Ret (a', b') → a = a' ∧ b = b'.
Proof. by intros [= -> ->]. Qed.
Lemma after_ret {A} (a : A) (P : A → Prop) : P a → after (Ret a) P.
Proof. by intros ? ? [= <-]. Qed.
Lemma after_bind {A B} (m : outcome A) (k : A → outcome B) (P : A → Prop) (Q : B → Prop) :
  after m P → (∀ a, P a → after (k a) Q) → after (m ≫= k) Q.
Proof. intros Hm Hk b (a & Ha & Hb)%bind_Ret. by apply (Hk a); [apply Hm|]. Qed.
Lemma after_weaken {A} (m : outcome A) (P Q : A → Prop) : after m P → (∀ a, P a → Q a) → after m Q.
Proof. intros Hm HQ a Ha. by apply HQ, Hm. Qed.
Lemma after_and {A} (m : outcome A) (P Q : A → Prop) : after m P → after m Q → after m (λ a, P a ∧ Q a).
Proof. intros HP HQ a Ha. split; auto. Qed.
Lemma after_any {A} (m : outcome A) : after m (λ _, True).
Proof. done. Qed.
Lemma lands_after {A} (m : outcome A) P : lands m P → after m P.
Proof. by intros Hm a ->. Qed.
Lemma yields_after {A} (m : outcome A) P : yields m P → after m P.
Proof. by intros (a & -> & Ha) b [= <-]. Qed.

Lemma yields_rd (P : Z → Prop) buf i : Forall P buf → 0 ≤ i < zlen buf → yields (rd buf i) P.
Proof.
  intros Hf Hi. destruct (zget_is_Some _ _ Hi) as [x Hx]. unfold rd. rewrite Hx.
  apply yields_ret. unfold zget in Hx. case_match; [|done]. by eapply Forall_lookup_1.
Qed.
Lemma rd_drop s n pos : 0 ≤ pos → rd (drop n s) pos = rd s (Z.of_nat n + pos).
Proof.
  intros. unfold rd, zget. rewrite !(proj2 (Z.leb_le _ _)) by lia. rewrite lookup_drop.
  by replace (Z.to_nat (Z.of_nat n + pos)) with (n + Z.to_nat pos)%nat by lia.
Qed.
Lemma yields_range (P : Z → Prop) buf off n :
  Forall P buf → 0 ≤ off → 0 ≤ n → off + n ≤ zlen buf →
  yields (rd_range buf off n) (λ s, zlen s = n ∧ Forall P s).
Proof.
  intros Hf ? ? ?. rewrite rd_range_ok by done. apply yields_ret. split.
  - rewrite length_slice by done. lia.
  - by apply Forall_take, Forall_drop.
Qed.
Lemma yields_wr buf i b : 0 ≤ i < zlen buf →
  yields (wr buf i b) (λ t, t = zset buf i b).
Proof. intros. rewrite wr_ok by done. by apply yields_ret. Qed.
Lemma yields_wr_range buf off src : 0 ≤ off → off + zlen src ≤ zlen buf →
  yields (wr_range buf off src) (λ t, t = splice buf off src).
Proof. intros. rewrite wr_range_ok by done. by apply yields_ret. Qed.

Lemma lands_ret {A} (a : A) (P : A → Prop) : P a → lands (Ret a) P.
Proof. done. Qed.
Lemma lands_bind {A B} (m : outcome A) (k : A → outcome B) (P : A → Prop) (Q : B → Prop) :
  lands m P → (∀ a, m = Ret a → P a → lands (k a) Q) → lands (m ≫= k) Q.
Proof. destruct m; simpl; auto. Qed.
Lemma lands_weaken {A} (m : outcome A) (P Q : A → Prop) :
  lands m P → (∀ a, P a → Q a) → lands m Q.
Proof. destruct m; simpl; auto. Qed.
Lemma lands_halts {A} (m : outcome A) P : lands m P → m ≠ Diverge.
Proof. by destruct m. Qed.
Lemma yields_lands {A} (m : outcome A) P : yields m P → lands m P.
Proof. by intros (a & -> & ?). Qed.
Lemma outcome_rel_bind {A B A' B'} (R : A → B → Prop) (S : A' → B' → Prop) m m' k k' :
  outcome_rel R m m' → (∀ a b, R a b → outcome_rel S (k a) (k' b)) →
  outcome_rel S (m ≫= k) (m' ≫= k').
Proof. destruct m, m'; simpl; auto; done. Qed.
Lemma outcome_rel_same {A A' B'} (S : A' → B' → Prop) (m : outcome A) k k' :
  (∀ a, m = Ret a → outcome_rel S (k a) (k' a)) → outcome_rel S (m ≫= k) (m ≫= k').
Proof. destruct m; simpl; auto. Qed.
Lemma outcome_rel_weaken {A B} (R S : A → B → Prop) m m' :
  outcome_rel R m m' → (∀ a b, R a b → S a b) → outcome_rel S m m'.
Proof. destruct m, m'; simpl; auto. Qed.
Lemma lands_rd (P : Z → Prop) buf i : Forall P buf → lands (rd buf i) P.
Proof.
  intros Hf. unfold rd. destruct (zget buf i) as [x|] eqn:Hx; [|done].
  unfold zget in Hx. case_match; [|done]. exact (Forall_lookup_1 _ _ _ _ Hf Hx).
Qed.
Lemma lands_range (P : Z → Prop) buf off n :
  Forall P buf → lands (rd_range buf off n) (λ s, zlen s = n ∧ Forall P s).
Proof.
  intros Hf. unfold rd_range. case_test; [|done]. b2p. split.
  - rewrite length_slice by done. lia.
  - by apply Forall_take, Forall_drop.
Qed.
Lemma Forall_mem_at {A} (P : A → Prop) l off : Forall P l → Forall P (mem_at l off).
Proof. intros. unfold mem_at. case_test; [by apply Forall_drop|constructor]. Qed.
Lemma Forall_zset {A} (P : A → Prop) l i x : Forall P l → P x → Forall P (zset l i x).
Proof. intros. unfold zset. case_test; [by apply Forall_insert|done]. Qed.
Lemma Forall_splice {A} (P : A → Prop) l off src :
  Forall P l → Forall P src → Forall P (splice l off src).
Proof. intros. unfold splice. rewrite !Forall_app. split_and!; [by apply Forall_take|done|by apply Forall_drop]. Qed.
#[export] Hint Resolve Forall_mem_at Forall_zset Forall_splice Forall_drop Forall_take : odfs.

(** An array that holds a string. *)
Definition is_cstr (n : Z) (buf : list Z) : Prop := zlen buf = n ∧ 0 ∈ buf.
Lemma strlen_cstr n buf : is_cstr n buf → yields (strlen_buf buf) (λ k, 0 ≤ k < n).
Proof.
  intros [Hn Hz]. unfold strlen_buf.
  assert (existsb (λ b, b =? 0) buf = true) as ->.
  { apply existsb_exists. exists 0. split; [by apply list_elem_of_In|done]. }
  apply yields_ret. unfold strlen. rewrite <- Hn. clear n Hn.
  induction buf as [|b buf IH]; [set_solver|]. simpl. case_test; simpl; b2p; [lia|].
  apply elem_of_cons in Hz as [?|Hz]; [congruence|]. specialize (IH Hz). lia.
Qed.
Lemma cstr_zset n buf i : zlen buf = n → 0 ≤ i < n → is_cstr n (zset buf i 0).
Proof.
  intros <- Hi. split; [by rewrite zlen_zset|]. unfold zset. rewrite (proj2 (Z.leb_le _ _)) by lia.
  apply list_elem_of_lookup. exists (Z.to_nat i). apply list_lookup_insert_eq. lia.
Qed.

(** ** Strings *)
Lemma c_str_no_nul l : Forall (λ b, b ≠ 0) (c_str l).
Proof.
  induction l as [|b l IH]; simpl; [constructor|].
  case_test; [constructor|]. b2p. by constructor.
Qed.
Lemma c_str_id l : Forall (λ b, b ≠ 0) l → c_str l = l.
Proof.
  induction 1 as [|b l Hb _ IH]; simpl; [done|].
  rewrite (proj2 (Z.eqb_neq b 0) Hb). by rewrite IH.
Qed.
Lemma c_str_app_nul l r : Forall (λ b, b ≠ 0) l → c_str (l ++ 0 :: r) = l.
Proof.
  induction 1 as [|b l Hb _ IH]; simpl; [done|].
  rewrite (proj2 (Z.eqb_neq b 0) Hb). by rewrite IH.
Qed.
Lemma length_c_str l : (length (c_str l) ≤ length l)%nat.
Proof. induction l; simpl; [lia|]. case_test; simpl; lia. Qed.
#[export] Hint Resolve c_str_no_nul : odfs.

(** ** Machine integers *)
Lemma u32_range z : is_u32 (u32 z).
Proof. unfold is_u32, u32. apply Z.mod_pos_bound. lia. Qed.
Lemma u32_small z : is_u32 z → u32 z = z.
Proof. apply Z.mod_small. Qed.
Lemma u8_range z : is_byte (u8 z).
Proof. unfold is_byte, u8. apply Z.mod_pos_bound. lia. Qed.
Lemma u8_small z : is_byte z → u8 z = z.
Proof. apply Z.mod_small. Qed.
#[export] Hint Resolve u32_range u8_range : odfs.

Lemma lor_shiftl_add a b n :
  0 ≤ a < 2 ^ n → 0 ≤ b → 0 ≤ n → Z.lor a (Z.shiftl b n) = a + b * 2 ^ n.
Proof.
  intros Ha Hb Hn. rewrite Z.shiftl_mul_pow2 by lia.
  assert (Hand : Z.land a (b * 2 ^ n) = 0).
  { apply Z.bits_inj'; intros k Hk. rewrite Z.bits_0, Z.land_spec.
    destruct (Z.ltb_spec k n).
    - rewrite Z.mul_pow2_bits_low by lia. apply andb_false_r.
    - rewrite (Z.testbit_eqb a k) by lia.
      rewrite Z.div_small; [done|]. pose proof (Z.pow_le_mono_r 2 n k). lia. }
  rewrite (Z.add_nocarry_lxor a _ Hand), Z.lxor_lor; done.
Qed.

Lemma le16_add b0 b1 :
  is_byte b0 → is_byte b1 → le16 b0 b1 = b0 + b1 * 2 ^ 8.
Proof. unfold is_byte, le16. intros. apply lor_shiftl_add; lia. Qed.
Lemma le32_add b0 b1 b2 b3 :
  is_byte b0 → is_byte b1 → is_byte b2 → is_byte b3 →
  le32 b0 b1 b2 b3 = b0 + b1 * 2 ^ 8 + b2 * 2 ^ 16 + b3 * 2 ^ 24.
Proof.
  unfold is_byte, le32. intros.
  by rewrite (lor_shiftl_add b0 b1 8), (lor_shiftl_add _ b2 16), (lor_shiftl_add _ b3 24) by lia.
Qed.
Lemma le32_range b0 b1 b2 b3 :
  is_byte b0 → is_byte b1 → is_byte b2 → is_byte b3 → is_u32 (le32 b0 b1 b2 b3).
Proof.
  intros. rewrite le32_add by done. unfold is_byte, is_u32 in *. lia.
Qed.
#[export] Hint Resolve le32_range : odfs.
