(* ===== verification/Types.v ===== *)
(** * Error codes and the internal node model

    [include/odfs/error.h], [core/error.c], [include/odfs/node.h] and [core/node.c]:
    the error enumeration, the node record every backend produces, the identity
    test the ancestry search uses, and the tables that name errors, backends and
    node kinds.  A [char] buffer that holds a string is the list of its bytes
    before the terminating NUL. *)
From S2P Require Import Prelude.
From Stdlib Require Import String.
From stdpp Require Import strings.
Open Scope Z_scope.

(** ** Errors *)
(* [src: include/odfs/error.h:10-42 odfs_err_t] *)
Inductive odfs_err : Type :=
  | ODFS_OK
  | ODFS_ERR_NOMEM
  | ODFS_ERR_IO
  | ODFS_ERR_INVAL
  | ODFS_ERR_RANGE
  | ODFS_ERR_OVERFLOW
  | ODFS_ERR_NO_MEDIA
  | ODFS_ERR_BAD_SECTOR
  | ODFS_ERR_MEDIA_CHANGED
  | ODFS_ERR_NOT_FOUND
  | ODFS_ERR_BAD_FORMAT
  | ODFS_ERR_UNSUPPORTED
  | ODFS_ERR_CORRUPT
  | ODFS_ERR_LOOP
  | ODFS_ERR_NAME_TOO_LONG
  | ODFS_ERR_NOT_DIR
  | ODFS_ERR_IS_DIR
  | ODFS_ERR_IS_SYMLINK
  | ODFS_ERR_READ_ONLY
  | ODFS_ERR_TOO_MANY_OPEN
  | ODFS_ERR_EOF.

#[export] Instance odfs_err_eq_dec : EqDecision odfs_err.
Proof. solve_decision. Defined.

(** The test [err == ODFS_OK]. *)
Definition err_ok (e : odfs_err) : bool := bool_decide (e = ODFS_OK).

(** The enumerators in order; an error's code is its position. *)
Definition odfs_err_all : list odfs_err :=
  [ODFS_OK; ODFS_ERR_NOMEM; ODFS_ERR_IO; ODFS_ERR_INVAL; ODFS_ERR_RANGE;
   ODFS_ERR_OVERFLOW; ODFS_ERR_NO_MEDIA; ODFS_ERR_BAD_SECTOR;
   ODFS_ERR_MEDIA_CHANGED; ODFS_ERR_NOT_FOUND; ODFS_ERR_BAD_FORMAT;
   ODFS_ERR_UNSUPPORTED; ODFS_ERR_CORRUPT; ODFS_ERR_LOOP;
   ODFS_ERR_NAME_TOO_LONG; ODFS_ERR_NOT_DIR; ODFS_ERR_IS_DIR;
   ODFS_ERR_IS_SYMLINK; ODFS_ERR_READ_ONLY; ODFS_ERR_TOO_MANY_OPEN; ODFS_ERR_EOF].
Definition ODFS_ERR__COUNT : Z := 21.

(* [src: core/error.c:9-31 error_strings] *)
Definition error_strings : list string :=
  ["OK"; "out of memory"; "I/O error"; "invalid argument"; "value out of range";
   "overflow"; "no media"; "bad sector"; "media changed"; "not found";
   "bad format"; "unsupported"; "corrupt"; "loop detected"; "name too long";
   "not a directory"; "is a directory"; "is a symbolic link";
   "read-only filesystem"; "too many open files"; "end of file"]%string.

(* [src: core/error.c:33-38 odfs_err_str] *)
Definition odfs_err_str (err : Z) : string :=
  if (0 <=? err) && (err <? ODFS_ERR__COUNT)
  then default "unknown error"%string (zget error_strings err)
  else "unknown error"%string.

(** ** Backends and node kinds *)
(* [src: include/odfs/node.h:17-28 odfs_backend_type_t] *)
Inductive odfs_backend_type : Type :=
  | ODFS_BACKEND_NONE
  | ODFS_BACKEND_ISO9660
  | ODFS_BACKEND_ROCK_RIDGE
  | ODFS_BACKEND_JOLIET
  | ODFS_BACKEND_UDF
  | ODFS_BACKEND_HFS
  | ODFS_BACKEND_HFSPLUS
  | ODFS_BACKEND_CDDA.
#[export] Instance odfs_backend_type_eq_dec : EqDecision odfs_backend_type.
Proof. solve_decision. Defined.

(** The enumerator's value. *)
Definition backend_code (b : odfs_backend_type) : Z :=
  match b with
  | ODFS_BACKEND_NONE => 0 | ODFS_BACKEND_ISO9660 => 1
  | ODFS_BACKEND_ROCK_RIDGE => 2 | ODFS_BACKEND_JOLIET => 3
  | ODFS_BACKEND_UDF => 4 | ODFS_BACKEND_HFS => 5
  | ODFS_BACKEND_HFSPLUS => 6 | ODFS_BACKEND_CDDA => 7
  end.
Definition ODFS_BACKEND__COUNT : Z := 8.

(* [src: include/odfs/node.h:31-37 odfs_node_kind_t] *)
Inductive odfs_node_kind : Type :=
  | ODFS_NODE_FILE
  | ODFS_NODE_DIR
  | ODFS_NODE_SYMLINK
  | ODFS_NODE_VIRTUAL.
#[export] Instance odfs_node_kind_eq_dec : EqDecision odfs_node_kind.
Proof. solve_decision. Defined.

Definition kind_code (k : odfs_node_kind) : Z :=
  match k with
  | ODFS_NODE_FILE => 0 | ODFS_NODE_DIR => 1
  | ODFS_NODE_SYMLINK => 2 | ODFS_NODE_VIRTUAL => 3
  end.
Definition ODFS_NODE__COUNT : Z := 4.

(* [src: core/node.c:9-18 backend_names] *)
Definition backend_names : list string :=
  ["none"; "iso9660"; "rock_ridge"; "joliet"; "udf"; "hfs"; "hfsplus"; "cdda"]%string.
(* [src: core/node.c:20-25 kind_names] *)
Definition kind_names : list string := ["file"; "dir"; "symlink"; "virtual"]%string.

(* [src: core/node.c:28-33 odfs_backend_type_name] *)
Definition odfs_backend_type_name (type : Z) : string :=
  if (0 <=? type) && (type <? ODFS_BACKEND__COUNT)
  then default "unknown"%string (zget backend_names type) else "unknown"%string.
(* [src: core/node.c:35-40 odfs_node_kind_name] *)
Definition odfs_node_kind_name (kind : Z) : string :=
  if (0 <=? kind) && (kind <? ODFS_NODE__COUNT)
  then default "unknown"%string (zget kind_names kind) else "unknown"%string.

(** ** Nodes *)
(* [src: include/odfs/node.h:40-48 odfs_timestamp_t] *)
Record odfs_timestamp : Type := mk_timestamp {
  year : Z; month : Z; day : Z; hour : Z; minute : Z; second : Z; tz_offset : Z }.
#[export] Instance odfs_timestamp_eq_dec : EqDecision odfs_timestamp.
Proof. solve_decision. Defined.
Definition timestamp_zero : odfs_timestamp := mk_timestamp 0 0 0 0 0 0 0.

(* [src: include/odfs/node.h:51-54 odfs_extent_t] *)
Record odfs_extent : Type := mk_extent { lba : Z; length_ : Z }.
#[export] Instance odfs_extent_eq_dec : EqDecision odfs_extent.
Proof. solve_decision. Defined.

(** The host profile's name limit, and the comment limit. *)
(* [src: include/odfs/node.h:68-80 ODFS_NAME_MAX] *)
Definition ODFS_NAME_MAX : Z := 512.
Definition ODFS_AMIGA_COMMENT_MAX : Z := 80.

(* [src: include/odfs/node.h:82-87 odfs_amiga_as_t] *)
Record odfs_amiga_as : Type := mk_amiga_as {
  has_protection : bool; protection : list Z; has_comment : bool; comment : list Z }.
#[export] Instance odfs_amiga_as_eq_dec : EqDecision odfs_amiga_as.
Proof. solve_decision. Defined.
Definition amiga_as_zero : odfs_amiga_as := mk_amiga_as false [0; 0; 0; 0] false [].

(** [backend_data] is a pointer no backend sets: 0 is NULL. *)
(* [src: include/odfs/node.h:90-109 odfs_node_t] *)
Record odfs_node : Type := mk_node {
  id : Z;
  parent_id : Z;
  backend : odfs_backend_type;
  kind : odfs_node_kind;
  name : list Z;
  size : Z;
  mtime : odfs_timestamp;
  ctime : odfs_timestamp;
  mode : Z;
  amiga_as : odfs_amiga_as;
  extent : odfs_extent;
  backend_data : Z }.
#[export] Instance odfs_node_eq_dec : EqDecision odfs_node.
Proof. solve_decision. Defined.

(** [memset(node, 0, sizeof node)]. *)
Definition node_zero : odfs_node :=
  mk_node 0 0 ODFS_BACKEND_NONE ODFS_NODE_FILE [] 0 timestamp_zero timestamp_zero 0
    amiga_as_zero (mk_extent 0 0) 0.

(** Field assignments [node->f = v]. *)
Definition set_id v n := mk_node v (parent_id n) (backend n) (kind n) (name n) (size n)
  (mtime n) (ctime n) (mode n) (amiga_as n) (extent n) (backend_data n).
Definition set_parent_id v n := mk_node (id n) v (backend n) (kind n) (name n) (size n)
  (mtime n) (ctime n) (mode n) (amiga_as n) (extent n) (backend_data n).
Definition set_backend v n := mk_node (id n) (parent_id n) v (kind n) (name n) (size n)
  (mtime n) (ctime n) (mode n) (amiga_as n) (extent n) (backend_data n).
Definition set_kind v n := mk_node (id n) (parent_id n) (backend n) v (name n) (size n)
  (mtime n) (ctime n) (mode n) (amiga_as n) (extent n) (backend_data n).
Definition set_name v n := mk_node (id n) (parent_id n) (backend n) (kind n) v (size n)
  (mtime n) (ctime n) (mode n) (amiga_as n) (extent n) (backend_data n).
Definition set_size v n := mk_node (id n) (parent_id n) (backend n) (kind n) (name n) v
  (mtime n) (ctime n) (mode n) (amiga_as n) (extent n) (backend_data n).
Definition set_times m c n := mk_node (id n) (parent_id n) (backend n) (kind n) (name n)
  (size n) m c (mode n) (amiga_as n) (extent n) (backend_data n).
Definition set_mode v n := mk_node (id n) (parent_id n) (backend n) (kind n) (name n)
  (size n) (mtime n) (ctime n) v (amiga_as n) (extent n) (backend_data n).
Definition set_amiga_as v n := mk_node (id n) (parent_id n) (backend n) (kind n) (name n)
  (size n) (mtime n) (ctime n) (mode n) v (extent n) (backend_data n).
Definition set_extent v n := mk_node (id n) (parent_id n) (backend n) (kind n) (name n)
  (size n) (mtime n) (ctime n) (mode n) (amiga_as n) v (backend_data n).
Definition set_backend_data v n := mk_node (id n) (parent_id n) (backend n) (kind n)
  (name n) (size n) (mtime n) (ctime n) (mode n) (amiga_as n) (extent n) v.

(** Identity of two nodes; [None] is a NULL argument, [strcmp] of two names is
    equality of their bytes. *)
(* [src: include/odfs/node.h:111-123 odfs_node_matches_identity] *)
Definition odfs_node_matches_identity (a b : option odfs_node) : bool :=
  match a, b with
  | Some a, Some b =>
      bool_decide (backend a = backend b) && bool_decide (kind a = kind b) &&
      (size a =? size b) && (lba (extent a) =? lba (extent b)) &&
      (length_ (extent a) =? length_ (extent b)) && bool_decide (name a = name b)
  | _, _ => false
  end.

(** ** Lemmas *)
Lemma err_ok_true e : err_ok e = true ↔ e = ODFS_OK.
Proof. apply bool_decide_eq_true. Qed.
Lemma err_ok_false e : err_ok e = false ↔ e ≠ ODFS_OK.
Proof. apply bool_decide_eq_false. Qed.

(** The fields the identity test compares. *)
Definition node_ident (n : odfs_node) :=
  (backend n, kind n, size n, lba (extent n), length_ (extent n), name n).

Lemma matches_identity_spec a b :
  odfs_node_matches_identity (Some a) (Some b) = true ↔ node_ident a = node_ident b.
Proof.
  unfold odfs_node_matches_identity, node_ident. rewrite !andb_true_iff.
  rewrite !bool_decide_eq_true, !Z.eqb_eq. split; [|intros [= ]; tauto].
  intros (((((-> & ->) & ->) & ->) & ->) & ->). done.
Qed.

(** Two nodes that stand for the same on-disc object. *)
Definition same_object (a b : odfs_node) : Prop := node_ident a = node_ident b.
#[export] Instance same_object_equiv : Equivalence same_object.
Proof. split; unfold same_object; congruence. Qed.
#[export] Instance matches_identity_proper :
  Proper (same_object ==> same_object ==> eq)
    (λ a b, odfs_node_matches_identity (Some a) (Some b)).
Proof.
  intros a a' Ha b b' Hb. apply Bool.eq_iff_eq_true.
  rewrite !matches_identity_spec. unfold same_object in *. by rewrite Ha, Hb.
Qed.
