(* ===== verification/Strings.v ===== *)
(** * ASCII case folding and the name hash ([include/odfs/string.h])

    Names are compared without regard to ASCII case by [odfs_strcasecmp] and
    hashed by [odfs_strcasehash].  The relation [name_equiv] is what the
    comparison decides; the hash is a morphism for it, which is what makes the
    hash buckets of the namefix table and of the metadata cache sound. *)
From stdpp Require Import strings.
From S2P Require Import Prelude.
Open Scope Z_scope.

(** The bytes of a string literal. *)
Definition str (s : string) : list Z := map (λ a, Z.of_N (Ascii.N_of_ascii a)) (String.list_ascii_of_string s).

(* [src: include/odfs/string.h:12-17 odfs_ascii_tolower] *)
Definition odfs_ascii_tolower (ch : Z) : Z :=
  if (65 <=? ch) && (ch <=? 90) then u8 (ch + (97 - 65)) else ch.

(** One round of the hash: rotate left by 5, xor the character with bit 5 set. *)
(* [src: include/odfs/string.h:34-37 odfs_strcasehash] *)
Definition strcasehash_step (hash c : Z) : Z :=
  Z.lxor (Z.lor (u32 (Z.shiftl hash 5)) (Z.shiftr hash 27)) (Z.lor c 32).
(* [src: include/odfs/string.h:38-40 odfs_strcasehash] *)
Definition strcasehash_final (hash : Z) : Z :=
  let hash := Z.lxor hash (Z.shiftr hash 16) in
  Z.lxor hash (Z.shiftr hash 8).

(** [s] is the string before its NUL. *)
(* [src: include/odfs/string.h:29-41 odfs_strcasehash] *)
Definition odfs_strcasehash (s : list Z) : Z :=
  strcasehash_final (fold_left strcasehash_step s 0).

(** The first [len] bytes at [s], no terminator needed. *)
Fixpoint strcasehash_len_loop (hash : Z) (s : list Z) (len : nat) : Z :=
  match len, s with
  | S len, c :: s => strcasehash_len_loop (strcasehash_step hash c) s len
  | _, _ => hash
  end.
(* [src: include/odfs/string.h:44-55 odfs_strcasehash_len] *)
Definition odfs_strcasehash_len (s : list Z) (len : Z) : Z :=
  strcasehash_final (strcasehash_len_loop 0 s (Z.to_nat len)).

(** The end of a list is the NUL that ends the string. *)
(* [src: include/odfs/string.h:57-68 odfs_strcasecmp] *)
Fixpoint odfs_strcasecmp (a b : list Z) : Z :=
  match a, b with
  | [], [] => 0
  | [], cb :: _ => 0 - odfs_ascii_tolower cb
  | ca :: _, [] => odfs_ascii_tolower ca - 0
  | ca :: a', cb :: b' =>
      let ca := odfs_ascii_tolower ca in
      let cb := odfs_ascii_tolower cb in
      if negb (ca =? cb) || (ca =? 0) then ca - cb else odfs_strcasecmp a' b'
  end.

(** ** Lemmas *)

(** A C string of bytes. *)
Definition is_name (s : list Z) : Prop := Forall (λ b, 0 < b < 256) s.

(** Equality up to ASCII case. *)
Definition name_equiv (a b : list Z) : Prop :=
  map odfs_ascii_tolower a = map odfs_ascii_tolower b.
#[export] Instance name_equiv_equivalence : Equivalence name_equiv.
Proof. split; unfold name_equiv, Reflexive, Symmetric, Transitive; congruence. Qed.
#[export] Instance name_equiv_dec a b : Decision (name_equiv a b).
Proof. unfold name_equiv. apply _. Defined.

Lemma tolower_cases ch :
  (65 ≤ ch ≤ 90 ∧ odfs_ascii_tolower ch = ch + 32) ∨
  (¬ (65 ≤ ch ≤ 90) ∧ odfs_ascii_tolower ch = ch).
Proof.
  unfold odfs_ascii_tolower. case_test; b2p; [left|right; lia].
  split; [lia|]. apply u8_small. unfold is_byte. lia.
Qed.

Lemma tolower_pos ch : 0 < ch → 0 < odfs_ascii_tolower ch.
Proof. destruct (tolower_cases ch) as [[? ->]|[? ->]]; lia. Qed.

Lemma strcasecmp_spec a b :
  is_name a → is_name b → odfs_strcasecmp a b = 0 ↔ name_equiv a b.
Proof.
  unfold name_equiv. intros Ha. revert b.
  induction Ha as [|ca a Hca _ IH]; intros b Hb; destruct Hb as [|cb b Hcb Hb]; simpl.
  - done.
  - pose proof (tolower_pos cb). split; [lia|done].
  - pose proof (tolower_pos ca). split; [lia|done].
  - pose proof (tolower_pos ca). case_test; b2p.
    + destruct E as [E|E]; b2p; [|lia]. split; [lia|congruence].
    + destruct_and?. b2p. rewrite IH by done. split; [|congruence]. intros ->. congruence.
Qed.

(** Setting bit 5 folds the two cases of a letter. *)
Lemma lor32_fold ch : 65 ≤ ch ≤ 90 → Z.lor ch 32 = Z.lor (ch + 32) 32.
Proof.
  intros H.
  assert (Hall : Forall (λ c, Z.lor c 32 = Z.lor (c + 32) 32) (seqZ 65 26)).
  { apply Forall_forall. apply Forall_forall. repeat constructor. }
  rewrite Forall_forall in Hall. apply Hall, elem_of_seqZ. lia.
Qed.

Lemma tolower_lor32 x y :
  odfs_ascii_tolower x = odfs_ascii_tolower y → Z.lor x 32 = Z.lor y 32.
Proof.
  destruct (tolower_cases x) as [[Hx ->]|[Hx ->]],
    (tolower_cases y) as [[Hy ->]|[Hy ->]]; intros E.
  - f_equal; lia.
  - rewrite (lor32_fold x) by done. by f_equal.
  - rewrite (lor32_fold y) by done. by f_equal.
  - by subst.
Qed.

Lemma fold_hash_equiv a b h :
  name_equiv a b → fold_left strcasehash_step a h = fold_left strcasehash_step b h.
Proof.
  unfold name_equiv. revert b h. induction a as [|x a IH]; intros [|y b] h; simpl; try done.
  intros [= Hxy Hab]. unfold strcasehash_step at 2 4.
  rewrite (tolower_lor32 x y) by done. by apply IH.
Qed.

#[export] Instance strcasehash_proper : Proper (name_equiv ==> eq) odfs_strcasehash.
Proof. intros a b H. unfold odfs_strcasehash. by rewrite (fold_hash_equiv a b). Qed.

Lemma strcasehash_len_loop_take s n h :
  strcasehash_len_loop h s n = fold_left strcasehash_step (take n s) h.
Proof. revert s h. induction n; intros [|c s] h; simpl; auto. Qed.

Lemma strcasehash_len_spec s len :
  odfs_strcasehash_len s len = odfs_strcasehash (take (Z.to_nat len) s).
Proof.
  unfold odfs_strcasehash_len, odfs_strcasehash. by rewrite strcasehash_len_loop_take.
Qed.

Lemma name_equiv_length a b : name_equiv a b → length a = length b.
Proof. unfold name_equiv. intros H%(f_equal length). by rewrite !length_map in H. Qed.

(** ** Properties *)

(** Names that [odfs_strcasecmp] calls equal have the same
    [odfs_strcasehash], and the length-bounded hash of a string agrees with the
    hash of its prefix: a hash-bucket search never misses an equal name. *)
Theorem strcasecmp_zero_same_hash a b :
  is_name a → is_name b → odfs_strcasecmp a b = 0 →
  odfs_strcasehash a = odfs_strcasehash b ∧
  ∀ rest, odfs_strcasehash_len (b ++ rest) (zlen b) = odfs_strcasehash a.
Proof.
  intros Ha Hb H%strcasecmp_spec; [|done..]. split; [by rewrite H|].
  intros rest. rewrite strcasehash_len_spec, Nat2Z.id, take_app_length. by rewrite H.
Qed.

Lemma strcasecmp_zero_same_hash_witness :
  odfs_strcasehash [82; 69; 65; 68] = odfs_strcasehash [114; 101; 97; 100] ∧
  ∀ rest, odfs_strcasehash_len ([114; 101; 97; 100] ++ rest) 4
          = odfs_strcasehash [82; 69; 65; 68].
Proof.
  apply (strcasecmp_zero_same_hash [82; 69; 65; 68] [114; 101; 97; 100]);
    [repeat constructor; lia..|reflexivity].
Defined.
