(* ===== verification/Namefix.v ===== *)
(** * Deterministic name-collision handling ([core/namefix.c])

    One [odfs_namefix_state] lives for the enumeration of one directory.  It
    remembers every name delivered so far in 64 hash buckets; a name that
    collides (ignoring ASCII case) with a remembered one is given a [~2], [~3],
    ... suffix.  Records are carved out of an inline buffer and then out of
    malloc'd chunks: [malloc n size] says whether the [n]-th chunk allocation of
    the state succeeds.  Sizes are those of the 64-bit host build. *)
From S2P Require Import Prelude Types Strings.
Open Scope Z_scope.

(** ** Definitions *)

(* [src: include/odfs/namefix.h:13-17 ODFS_NAMEFIX_BUCKETS] *)
Definition ODFS_NAMEFIX_BUCKETS : Z := 64.
Definition ODFS_NAMEFIX_INLINE : Z := 256.
Definition ODFS_NAMEFIX_CHUNK_SIZE : Z := 4096.
Definition SIZEOF_VOIDP : Z := 8.
(** [offsetof(odfs_namefix_entry_t, name)]: a pointer and an [unsigned int]. *)
Definition NAMEFIX_NAME_OFFSET : Z := 12.

(* [src: include/odfs/namefix.h:19-23 odfs_namefix_entry_t] *)
Record odfs_namefix_entry : Type := mk_nfe { nfe_hash : Z; nfe_name : list Z }.

(** A bucket is the list of its entries along [hash_next]; [nf_chunks] holds the
    sizes of the malloc'd chunks, newest first; [nf_avail] is what is left at
    [state->free]. *)
(* [src: include/odfs/namefix.h:25-35 odfs_namefix_state_t] *)
Record odfs_namefix_state : Type := mk_nfs {
  nf_buckets : list (list odfs_namefix_entry);
  nf_chunks : list Z;
  nf_avail : Z }.

(* [src: core/namefix.c:18-24 odfs_namefix_init] *)
Definition odfs_namefix_init : odfs_namefix_state :=
  mk_nfs (replicate (Z.to_nat ODFS_NAMEFIX_BUCKETS) []) [] ODFS_NAMEFIX_INLINE.

(** Frees every chunk, then re-initialises. *)
(* [src: core/namefix.c:26-37 odfs_namefix_destroy] *)
Definition odfs_namefix_destroy (state : odfs_namefix_state) : odfs_namefix_state :=
  odfs_namefix_init.

(* [src: core/namefix.c:64-78 odfs_namefix_hash] *)
Definition odfs_namefix_hash (name : list Z) : Z * Z :=
  (strcasehash_final (fold_left strcasehash_step name 0), zlen name).

Definition bucket_of (state : odfs_namefix_state) (hash : Z) : list odfs_namefix_entry :=
  default [] (zget (nf_buckets state) (hash mod ODFS_NAMEFIX_BUCKETS)).

(* [src: core/namefix.c:81-93 odfs_namefix_contains] *)
Definition odfs_namefix_contains (state : odfs_namefix_state) (name : list Z) (hash : Z) : bool :=
  existsb (λ entry, (nfe_hash entry =? hash) && (odfs_strcasecmp (nfe_name entry) name =? 0))
    (bucket_of state hash).

(** [~<ordinal>] as bytes: at most ten digits, least significant first. *)
(* [src: core/namefix.c:145-148 odfs_namefix_apply] *)
Fixpoint suffix_digits (fuel : nat) (v : Z) : list Z :=
  match fuel with
  | O => []
  | S fuel => (48 + v mod 10) :: (if v / 10 =? 0 then [] else suffix_digits fuel (v / 10))
  end.
(* [src: core/namefix.c:134-152 odfs_namefix_apply] *)
Definition namefix_suffix (ordinal : Z) : list Z :=
  126 :: rev (suffix_digits 10 ordinal).

Section namefix.
Context (malloc : nat → Z → bool).

(* [src: core/namefix.c:39-62 odfs_namefix_alloc] *)
Definition odfs_namefix_alloc (state : odfs_namefix_state) (size : Z)
    : option odfs_namefix_state :=
  let size := (size + SIZEOF_VOIDP - 1) / SIZEOF_VOIDP * SIZEOF_VOIDP in
  if nf_avail state <? size then
    let chunk_size := if ODFS_NAMEFIX_CHUNK_SIZE <? size then size else ODFS_NAMEFIX_CHUNK_SIZE in
    if malloc (length (nf_chunks state)) (SIZEOF_VOIDP + chunk_size)
    then Some (mk_nfs (nf_buckets state) (chunk_size :: nf_chunks state) (chunk_size - size))
    else None
  else Some (mk_nfs (nf_buckets state) (nf_chunks state) (nf_avail state - size)).

(* [src: core/namefix.c:95-113 odfs_namefix_remember] *)
Definition odfs_namefix_remember (state : odfs_namefix_state) (name : list Z) (len hash : Z)
    : odfs_err * odfs_namefix_state :=
  match odfs_namefix_alloc state (NAMEFIX_NAME_OFFSET + len + 1) with
  | None => (ODFS_ERR_NOMEM, state)
  | Some state =>
      let bucket := hash mod ODFS_NAMEFIX_BUCKETS in
      let chain := default [] (zget (nf_buckets state) bucket) in
      (ODFS_OK, mk_nfs (zset (nf_buckets state) bucket (mk_nfe hash name :: chain))
                  (nf_chunks state) (nf_avail state))
  end.

(** The search for a free ordinal from [ordinal] on; the buffer [name] is
    rewritten by every candidate, whatever the outcome. *)
(* [src: core/namefix.c:133-166 odfs_namefix_apply] *)
Fixpoint namefix_search (fuel : nat) (ordinal : Z) (state : odfs_namefix_state)
    (base name : list Z) (name_size : Z) : odfs_err * odfs_namefix_state * list Z :=
  match fuel with
  | O => (ODFS_ERR_OVERFLOW, state, name)
  | S fuel =>
      let suffix := namefix_suffix ordinal in
      let suffix_len := zlen suffix in
      if name_size <=? suffix_len then (ODFS_ERR_NAME_TOO_LONG, state, name)
      else
        let keep := if name_size <=? zlen base + suffix_len
                    then name_size - suffix_len - 1 else zlen base in
        let name := take (Z.to_nat keep) base ++ suffix in
        let '(hash, len) := odfs_namefix_hash name in
        if odfs_namefix_contains state name hash
        then namefix_search fuel (ordinal + 1) state base name name_size
        else let '(err, state) := odfs_namefix_remember state name len hash in
             (err, state, name)
  end.

(** Ordinals run from 2 to 999999. *)
Definition namefix_ordinals : nat := Z.to_nat (1000000 - 2).
#[global] Opaque namefix_ordinals.

(* [src: core/namefix.c:115-169 odfs_namefix_apply] *)
Definition odfs_namefix_apply (state : odfs_namefix_state) (name : list Z) (name_size : Z)
    : odfs_err * odfs_namefix_state * list Z :=
  if name_size =? 0 then (ODFS_ERR_INVAL, state, name)
  else
    let '(hash, len) := odfs_namefix_hash name in
    if negb (odfs_namefix_contains state name hash)
    then let '(err, state) := odfs_namefix_remember state name len hash in (err, state, name)
    else
      let base := take (Z.to_nat (name_size - 1)) name in
      namefix_search namefix_ordinals 2 state base name name_size.
End namefix.

(** ** Invariant and lemmas *)

Lemma namefix_ordinals_Z : Z.of_nat namefix_ordinals = 1000000 - 2.
Proof. Transparent namefix_ordinals. unfold namefix_ordinals. by rewrite Z2Nat.id. Qed.
#[global] Opaque namefix_ordinals.

(** The names a state remembers. *)
Definition nf_names (state : odfs_namefix_state) : list (list Z) :=
  map nfe_name (concat (nf_buckets state)).

(** Every entry sits in its bucket under the hash of its name, and no two
    remembered names are equal up to case. *)
Record namefix_wf (state : odfs_namefix_state) : Prop := {
  nfw_buckets : length (nf_buckets state) = Z.to_nat ODFS_NAMEFIX_BUCKETS;
  nfw_entry : ∀ b e chain, zget (nf_buckets state) b = Some chain → e ∈ chain →
    nfe_hash e = odfs_strcasehash (nfe_name e) ∧
    nfe_hash e mod ODFS_NAMEFIX_BUCKETS = b ∧ is_name (nfe_name e);
  nfw_distinct : ∀ i j a b, nf_names state !! i = Some a → nf_names state !! j = Some b →
    name_equiv a b → i = j }.

(** [n] is not yet taken. *)
Definition fresh_name (state : odfs_namefix_state) (n : list Z) : Prop :=
  ∀ m, m ∈ nf_names state → ¬ name_equiv m n.

Lemma elem_of_nf_names state n :
  n ∈ nf_names state ↔
  ∃ b chain e, zget (nf_buckets state) b = Some chain ∧ e ∈ chain ∧ nfe_name e = n.
Proof.
  unfold nf_names. rewrite list_elem_of_In, in_map_iff. split.
  - intros (e & <- & (chain & Hc & He)%in_concat).
    apply list_elem_of_In, list_elem_of_lookup in Hc as [i Hi].
    exists (Z.of_nat i), chain, e. rewrite zget_nat, list_elem_of_In. auto.
  - intros (b & chain & e & Hb & He & <-). exists e. split; [done|].
    apply in_concat. exists chain. rewrite <- !list_elem_of_In. split; [|done].
    pose proof (zget_Some_range _ _ _ Hb). unfold zget in Hb.
    rewrite (proj2 (Z.leb_le 0 b)) in Hb by lia. by apply list_elem_of_lookup_2 in Hb.
Qed.

Lemma namefix_hash_eq n : odfs_namefix_hash n = (odfs_strcasehash n, zlen n).
Proof. done. Qed.

Lemma strcasehash_mod_range n :
  0 ≤ odfs_strcasehash n mod ODFS_NAMEFIX_BUCKETS < ODFS_NAMEFIX_BUCKETS.
Proof. apply Z.mod_pos_bound. done. Qed.

Lemma bucket_lookup state n :
  namefix_wf state →
  ∃ chain, zget (nf_buckets state) (odfs_strcasehash n mod ODFS_NAMEFIX_BUCKETS) = Some chain
           ∧ bucket_of state (odfs_strcasehash n) = chain.
Proof.
  intros Hwf. unfold bucket_of.
  destruct (zget_is_Some (nf_buckets state) (odfs_strcasehash n mod ODFS_NAMEFIX_BUCKETS))
    as [chain Hc].
  - rewrite (nfw_buckets _ Hwf), Z2Nat.id by done. apply strcasehash_mod_range.
  - exists chain. by rewrite Hc.
Qed.

(** The bucket search decides membership up to case. *)
Lemma contains_spec state n :
  namefix_wf state → is_name n →
  odfs_namefix_contains state n (odfs_strcasehash n) = false ↔ fresh_name state n.
Proof.
  intros Hwf Hn. destruct (bucket_lookup state n Hwf) as (chain & Hc & Hb).
  unfold odfs_namefix_contains. rewrite Hb. split.
  - intros Hfalse m (b & ch & e & Hch & He & <-)%elem_of_nf_names Hequiv.
    destruct (nfw_entry _ Hwf _ _ _ Hch He) as (Hh & Hbk & Hname).
    rewrite Hequiv in Hh. rewrite Hh in Hbk. subst b. rewrite Hc in Hch. simplify_eq.
    rewrite <- Bool.not_true_iff_false in Hfalse. apply Hfalse, existsb_exists.
    exists e. rewrite <- list_elem_of_In. split; [done|].
    rewrite Hh, Z.eqb_refl. apply Z.eqb_eq. by apply strcasecmp_spec.
  - intros Hfresh. rewrite <- Bool.not_true_iff_false.
    intros (e & He & Ht)%existsb_exists. apply list_elem_of_In in He.
    apply andb_true_iff in Ht as [_ Ht]. b2p.
    destruct (nfw_entry _ Hwf _ _ _ Hc He) as (_ & _ & Hname).
    apply (Hfresh (nfe_name e)).
    + apply elem_of_nf_names. eauto 6.
    + by apply strcasecmp_spec.
Qed.

Lemma namefix_alloc_buckets malloc state sz state' :
  odfs_namefix_alloc malloc state sz = Some state' → nf_buckets state' = nf_buckets state.
Proof.
  unfold odfs_namefix_alloc. repeat case_test; intros; simplify_eq; done.
Qed.

(** Inserting at the head of bucket [b] adds one name to the multiset. *)
Lemma concat_zset_cons {A} (bs : list (list A)) b chain (e : A) :
  zget bs b = Some chain → concat (zset bs b (e :: chain)) ≡ₚ e :: concat bs.
Proof.
  intros Hb. pose proof (zget_Some_range _ _ _ Hb).
  unfold zget, zset in *. rewrite (proj2 (Z.leb_le 0 b)) in * by lia.
  assert (Hbs : concat bs
    = concat (take (Z.to_nat b) bs) ++ chain ++ concat (drop (S (Z.to_nat b)) bs)).
  { rewrite <- (take_drop_middle _ _ _ Hb) at 1. by rewrite concat_app. }
  rewrite Hbs, insert_take_drop by (eapply lookup_lt_Some, Hb).
  rewrite concat_app. simpl. by rewrite <- Permutation_middle.
Qed.

Lemma distinct_cons_perm (l l' : list (list Z)) n :
  l' ≡ₚ n :: l →
  (∀ m, m ∈ l → ¬ name_equiv m n) →
  (∀ i j a b, l !! i = Some a → l !! j = Some b → name_equiv a b → i = j) →
  (∀ i j a b, l' !! i = Some a → l' !! j = Some b → name_equiv a b → i = j).
Proof.
  intros Hp Hn Hl.
  assert (Hnd : NoDup (map (map odfs_ascii_tolower) (n :: l))).
  { simpl. constructor.
    - rewrite list_elem_of_In, in_map_iff. intros (m & Hm & Hin).
      apply (Hn m); [by apply list_elem_of_In|done].
    - apply NoDup_alt. intros i j x.
      rewrite !list_lookup_fmap. intros (a & Ha & Hi)%fmap_Some (b & Hb & Hj)%fmap_Some.
      eapply Hl; eauto. unfold name_equiv. congruence. }
  rewrite <- Hp in Hnd. intros i j a b Hi Hj Hab.
  rewrite NoDup_alt in Hnd.
  eapply (Hnd i j (map odfs_ascii_tolower a)); rewrite list_lookup_fmap.
  - by rewrite Hi.
  - rewrite Hj. simpl. by rewrite Hab.
Qed.

Lemma remember_spec malloc state n state' :
  namefix_wf state → is_name n → fresh_name state n →
  odfs_namefix_remember malloc state n (zlen n) (odfs_strcasehash n) = (ODFS_OK, state') →
  namefix_wf state' ∧ nf_names state' ≡ₚ n :: nf_names state.
Proof.
  intros Hwf Hn Hfresh. unfold odfs_namefix_remember.
  destruct (odfs_namefix_alloc _ _ _) as [st|] eqn:Ha; [|done].
  apply namefix_alloc_buckets in Ha. intros [= <-].
  destruct (bucket_lookup state n Hwf) as (chain & Hc & _). rewrite Ha, Hc. simpl.
  set (b := odfs_strcasehash n mod ODFS_NAMEFIX_BUCKETS) in *.
  assert (Hperm : nf_names (mk_nfs (zset (nf_buckets state) b
      (mk_nfe (odfs_strcasehash n) n :: chain)) (nf_chunks st) (nf_avail st))
      ≡ₚ n :: nf_names state).
  { unfold nf_names; simpl. rewrite (concat_zset_cons _ _ _ _ Hc). done. }
  split; [|done]. split; simpl.
  - rewrite zlen_zset. apply Hwf.
  - intros b' e ch Hb' He. destruct (decide (b = b')) as [<-|Hne].
    + rewrite zget_zset_eq in Hb' by (eapply zget_Some_range; eauto).
      simplify_eq. apply elem_of_cons in He as [->|He].
      * simpl. done.
      * eapply Hwf; eauto.
    + rewrite zget_zset_ne in Hb' by done. eapply Hwf; eauto.
  - eapply distinct_cons_perm; [apply Hperm|done|]. apply Hwf.
Qed.

Lemma remember_error malloc state n len hash err state' :
  odfs_namefix_remember malloc state n len hash = (err, state') →
  err = ODFS_OK ∨ err = ODFS_ERR_NOMEM ∧ state' = state.
Proof.
  unfold odfs_namefix_remember. destruct (odfs_namefix_alloc _ _ _); intros [= <- <-]; auto.
Qed.

(** ** The candidate names *)

(** The name tried for [ordinal]: the base cut so that the suffix fits. *)
Definition namefix_candidate (base : list Z) (name_size ordinal : Z) : list Z :=
  let suffix := namefix_suffix ordinal in
  let keep := if name_size <=? zlen base + zlen suffix
              then name_size - zlen suffix - 1 else zlen base in
  take (Z.to_nat keep) base ++ suffix.

(** Value of a digit string, least significant digit first. *)
Fixpoint digits_value (ds : list Z) : Z :=
  match ds with [] => 0 | d :: ds => (d - 48) + 10 * digits_value ds end.

Lemma suffix_digits_value fuel v :
  0 ≤ v < 10 ^ Z.of_nat fuel → digits_value (suffix_digits fuel v) = v.
Proof.
  revert v. induction fuel as [|fuel IH]; intros v Hv.
  - change (10 ^ Z.of_nat 0) with 1 in Hv. simpl. lia.
  - rewrite Nat2Z.inj_succ, Z.pow_succ_r in Hv by lia. simpl. case_test; b2p.
    + simpl. dlia.
    + rewrite IH by dlia. dlia.
Qed.

Lemma suffix_digits_range fuel v : 0 ≤ v → Forall (λ d, 48 ≤ d ≤ 57) (suffix_digits fuel v).
Proof.
  revert v. induction fuel as [|fuel IH]; intros v Hv; simpl; constructor.
  - dlia.
  - case_test; [constructor|]. apply IH. dlia.
Qed.

Lemma length_suffix_digits fuel v :
  (length (suffix_digits fuel v) ≤ fuel)%nat.
Proof. revert v. induction fuel; intros v; simpl; [lia|]. case_test; simpl; [lia|].
  specialize (IHfuel (v / 10)). lia. Qed.

(** A suffix of an ordinal below 10^6 has at most 7 characters. *)
Lemma length_suffix_small fuel v n :
  0 ≤ v < 10 ^ Z.of_nat (S n) → (length (suffix_digits fuel v) ≤ S n)%nat.
Proof.
  revert v n. induction fuel as [|fuel IH]; intros v n Hv; simpl; [lia|].
  case_test; b2p; simpl; [lia|]. destruct n as [|n].
  - change (10 ^ Z.of_nat 1) with 10 in Hv. dlia.
  - enough (length (suffix_digits fuel (v / 10)) ≤ S n)%nat by lia. apply IH.
    rewrite (Nat2Z.inj_succ (S n)), Z.pow_succ_r in Hv by lia. dlia.
Qed.

Lemma namefix_suffix_length k : 0 ≤ k < 1000000 → zlen (namefix_suffix k) ≤ 7.
Proof.
  intros Hk. unfold namefix_suffix. cbn [length]. rewrite length_rev.
  pose proof (length_suffix_small 10 k 5) as H. change (10 ^ Z.of_nat 6) with 1000000 in H.
  lia.
Qed.

Lemma namefix_suffix_is_name k : 0 ≤ k → is_name (namefix_suffix k).
Proof.
  intros Hk. unfold namefix_suffix, is_name. constructor; [lia|]. apply Forall_rev.
  eapply Forall_impl; [by apply suffix_digits_range|]. simpl. lia.
Qed.

Lemma candidate_is_name base ns k : is_name base → 0 ≤ k → is_name (namefix_candidate base ns k).
Proof.
  intros. apply Forall_app. split; [by apply Forall_take|by apply namefix_suffix_is_name].
Qed.

Lemma candidate_length base ns k :
  zlen (namefix_suffix k) < ns → zlen (namefix_candidate base ns k) < ns.
Proof.
  intros. unfold namefix_candidate. rewrite length_app, length_take.
  case_test; b2p; lia.
Qed.

Lemma app_cons_inj_notin {A} (l1 l2 r1 r2 : list A) x :
  l1 ++ x :: r1 = l2 ++ x :: r2 → x ∉ l1 → x ∉ l2 → l1 = l2.
Proof.
  revert l2. induction l1 as [|a l1 IH]; intros [|b l2]; simpl; try done.
  - intros [= <- _] _ []. left.
  - intros [= -> _] [] _. left.
  - intros [= <- H] H1 H2. f_equal. apply IH; [done|set_solver..].
Qed.

Lemma tolower_digits ds :
  Forall (λ d, 48 ≤ d ≤ 57) ds → map odfs_ascii_tolower ds = ds.
Proof.
  induction 1 as [|d ds Hd _ IH]; simpl; [done|]. rewrite IH. f_equal.
  destruct (tolower_cases d) as [[? _]|[_ ->]]; lia.
Qed.

(** Candidates of different ordinals never collide. *)
Lemma candidate_inj base ns j k :
  0 ≤ j < 1000000 → 0 ≤ k < 1000000 →
  name_equiv (namefix_candidate base ns j) (namefix_candidate base ns k) → j = k.
Proof.
  intros Hj Hk. unfold name_equiv, namefix_candidate, namefix_suffix.
  rewrite !map_app. cbn [map]. rewrite !map_rev.
  rewrite (tolower_digits (suffix_digits 10 j)), (tolower_digits (suffix_digits 10 k))
    by (apply suffix_digits_range; lia).
  intros H%(f_equal (@rev Z)). rewrite !rev_app_distr in H. cbn [rev] in H.
  rewrite !rev_involutive, <- !app_assoc in H. cbn [app] in H.
  assert (Hd : ∀ v, 0 ≤ v → odfs_ascii_tolower 126 ∉ suffix_digits 10 v).
  { intros v Hv Hin. pose proof (suffix_digits_range 10 v Hv) as HF.
    rewrite Forall_forall in HF. apply HF in Hin. change (odfs_ascii_tolower 126) with 126 in Hin.
    lia. }
  apply app_cons_inj_notin in H; [|apply Hd; lia..].
  apply (f_equal digits_value) in H.
  rewrite !suffix_digits_value in H; simpl; lia.
Qed.

(** ** The search *)

Lemma namefix_search_ok malloc fuel ord state base nm ns state' n' :
  namefix_wf state → is_name base → 0 ≤ ord →
  namefix_search malloc fuel ord state base nm ns = (ODFS_OK, state', n') →
  ∃ k, ord ≤ k < ord + Z.of_nat fuel ∧ n' = namefix_candidate base ns k ∧
    zlen n' < ns ∧ fresh_name state n' ∧
    (∀ j, ord ≤ j < k → ¬ fresh_name state (namefix_candidate base ns j)) ∧
    namefix_wf state' ∧ nf_names state' ≡ₚ n' :: nf_names state.
Proof.
  intros Hwf Hbase. revert ord nm. induction fuel as [|fuel IH]; intros ord nm Hord;
    cbn [namefix_search]; [done|].
  case_test; [done|]. fold (namefix_candidate base ns ord). rewrite namefix_hash_eq.
  pose proof (candidate_is_name base ns ord Hbase Hord) as Hcn.
  pose proof (contains_spec state _ Hwf Hcn) as Hcs. b2p.
  case_test.
  - intros (k & Hk & -> & Hl & Hf & Hmin & Hres)%IH; [|lia].
    destruct Hres as [Hwf' Hp].
    exists k. split_and!; try done; try lia.
    intros j Hj. destruct (decide (j = ord)) as [->|]; [|apply Hmin; lia].
    intros Hfr. apply Hcs in Hfr. congruence.
  - destruct (odfs_namefix_remember _ _ _ _ _) as [err st] eqn:Hr.
    intros [= -> -> <-]. apply remember_spec in Hr as [Hwf' Hperm]; try tauto.
    exists ord. split_and!; try done; try lia; [|by apply Hcs].
    apply candidate_length. lia.
Qed.

Lemma namefix_search_err malloc fuel ord state base nm ns err state' n' :
  namefix_search malloc fuel ord state base nm ns = (err, state', n') → err ≠ ODFS_OK →
  state' = state ∧
  (err = ODFS_ERR_NOMEM ∨ err = ODFS_ERR_OVERFLOW ∨
   err = ODFS_ERR_NAME_TOO_LONG ∧ ∃ k, ord ≤ k < ord + Z.of_nat fuel ∧ ns ≤ zlen (namefix_suffix k)).
Proof.
  revert ord nm. induction fuel as [|fuel IH]; intros ord nm; cbn [namefix_search].
  - intros [= <- <- <-] _. auto.
  - case_test.
    + intros [= <- <- <-] _. b2p. split; [done|]. right; right. split; [done|].
      exists ord. lia.
    + fold (namefix_candidate base ns ord). rewrite namefix_hash_eq. case_test.
      * intros H Hne. destruct (IH _ _ H Hne) as [-> [?|[?|(? & k & ? & ?)]]]; auto.
        split; [done|]. right; right. split; [done|]. exists k. split; [lia|done].
      * destruct (odfs_namefix_remember _ _ _ _ _) as [e st] eqn:Hr.
        intros [= <- <- <-] Hne. apply remember_error in Hr as [->|[-> ->]]; [done|auto].
Qed.

Lemma namefix_search_overflow malloc fuel ord state base nm ns state' n' :
  namefix_wf state → is_name base → 0 ≤ ord →
  namefix_search malloc fuel ord state base nm ns = (ODFS_ERR_OVERFLOW, state', n') →
  ∀ j, ord ≤ j < ord + Z.of_nat fuel → ¬ fresh_name state (namefix_candidate base ns j).
Proof.
  intros Hwf Hbase. revert ord nm. induction fuel as [|fuel IH]; intros ord nm Hord;
    cbn [namefix_search]; [lia|].
  case_test; [done|]. fold (namefix_candidate base ns ord). rewrite namefix_hash_eq.
  pose proof (contains_spec state _ Hwf (candidate_is_name base ns ord Hbase Hord)) as Hcs.
  case_test.
  - intros H j Hj. destruct (decide (j = ord)) as [->|].
    + intros Hfr. apply Hcs in Hfr. congruence.
    + eapply IH; [|exact H|]; lia.
  - destruct (odfs_namefix_remember _ _ _ _ _) as [e st] eqn:Hr.
    intros [= -> -> <-]. apply remember_error in Hr as [?|[? ?]]; done.
Qed.

(** Pigeonhole: [n] candidates that are all taken need [n] remembered names. *)
Lemma taken_candidates_bound state base ns (n : nat) :
  Z.of_nat n ≤ 1000000 - 2 →
  (∀ j, 2 ≤ j < 2 + Z.of_nat n → ¬ fresh_name state (namefix_candidate base ns j)) →
  (n ≤ length (nf_names state))%nat.
Proof.
  intros Hn Htaken.
  set (cands := map (λ j, map odfs_ascii_tolower (namefix_candidate base ns j)) (seqZ 2 (Z.of_nat n))).
  assert (Hl : length cands = n) by (unfold cands; rewrite length_map, length_seqZ; lia).
  rewrite <- Hl, <- (length_map (map odfs_ascii_tolower) (nf_names state)).
  apply NoDup_incl_length.
  - apply NoDup_ListNoDup. unfold cands. apply NoDup_fmap_2_strong; [|apply NoDup_seqZ].
    intros j k Hj%elem_of_seqZ Hk%elem_of_seqZ Heq. eapply candidate_inj; [lia|lia|exact Heq].
  - intros c (j & <- & Hj)%in_map_iff. apply list_elem_of_In, elem_of_seqZ in Hj.
    destruct (decide (Exists (λ m, name_equiv m (namefix_candidate base ns j)) (nf_names state)))
      as [(m & Hm & Heq)%Exists_exists|Hno].
    + apply in_map_iff. exists m. split; [done|by apply list_elem_of_In].
    + exfalso. apply (Htaken j Hj). intros m Hm Heq. apply Hno, Exists_exists. eauto.
Qed.

Lemma namefix_init_wf : namefix_wf odfs_namefix_init.
Proof.
  split.
  - done.
  - intros b e chain Hb. unfold zget in Hb. destruct (0 <=? b); [|done].
    change (nf_buckets odfs_namefix_init) with (replicate 64 (@nil odfs_namefix_entry)) in Hb.
    apply lookup_replicate in Hb as [-> _]. by intros ?%elem_of_nil.
  - intros i j a b Hi. by compute in Hi.
Qed.
#[export] Hint Resolve namefix_init_wf : odfs.

(** What a successful [odfs_namefix_apply] does, for the callers. *)
Lemma namefix_apply_ok malloc state n ns state' n' :
  namefix_wf state → is_name n → zlen n < ns →
  odfs_namefix_apply malloc state n ns = (ODFS_OK, state', n') →
  namefix_wf state' ∧ nf_names state' ≡ₚ n' :: nf_names state ∧
  fresh_name state n' ∧ is_name n' ∧ zlen n' < ns ∧
  (fresh_name state n → n' = n) ∧
  (¬ fresh_name state n → ∃ k, 2 ≤ k < 1000000 ∧ n' = namefix_candidate n ns k ∧
     ∀ j, 2 ≤ j < k → ¬ fresh_name state (namefix_candidate n ns j)).
Proof.
  intros Hwf Hn Hlen. unfold odfs_namefix_apply. case_test; [done|].
  rewrite namefix_hash_eq. pose proof (contains_spec state n Hwf Hn) as Hcs. b2p.
  destruct (odfs_namefix_contains _ _ _) eqn:Hc; simpl.
  - rewrite (take_ge n) by lia. intros H.
    apply namefix_search_ok in H as (k & Hk & -> & Hl & Hf & Hmin & Hwf' & Hp); [|done..].
    rewrite namefix_ordinals_Z in Hk.
    split_and!; try done.
    + apply candidate_is_name; [done|lia].
    + intros Hfr. apply Hcs in Hfr. done.
    + intros _. exists k. split; [lia|]. split; [done|]. intros j Hj. apply Hmin. lia.
  - destruct (odfs_namefix_remember _ _ _ _ _) as [err st] eqn:Hr.
    intros [= -> -> <-]. apply remember_spec in Hr as [Hwf' Hp]; tauto.
Qed.

Lemma namefix_apply_err malloc state n ns err state' n' :
  odfs_namefix_apply malloc state n ns = (err, state', n') → err ≠ ODFS_OK →
  state' = state ∧
  (err = ODFS_ERR_INVAL ∧ ns = 0 ∨ err = ODFS_ERR_NOMEM ∨ err = ODFS_ERR_OVERFLOW ∨
   err = ODFS_ERR_NAME_TOO_LONG ∧ ∃ k, 2 ≤ k < 1000000 ∧ ns ≤ zlen (namefix_suffix k)).
Proof.
  unfold odfs_namefix_apply. case_test; b2p.
  - intros [= <- <- <-] _. auto.
  - rewrite namefix_hash_eq. case_test.
    + destruct (odfs_namefix_remember _ _ _ _ _) as [e st] eqn:Hr.
      intros [= <- <- <-] Hne. apply remember_error in Hr as [->|[-> ->]]; [done|auto].
    + intros H Hne. destruct (namefix_search_err _ _ _ _ _ _ _ _ _ _ H Hne)
        as [-> [?|[?|(? & k & Hk & ?)]]]; auto 6.
      rewrite namefix_ordinals_Z in Hk.
      split; [done|]. do 3 right. split; [done|]. exists k. split; [lia|done].
Qed.

(** ** Properties *)

(** [C12] A successful [odfs_namefix_apply] delivers a name that no earlier
    delivered name equals up to case, records it, and keeps it inside the
    buffer; a name without a collision is left alone, and a colliding one becomes
    the first free candidate [~2], [~3], ... in order. *)
Theorem namefix_apply_unique malloc state n ns state' n' :
  namefix_wf state → is_name n → zlen n < ns →
  odfs_namefix_apply malloc state n ns = (ODFS_OK, state', n') →
  namefix_wf state' ∧ nf_names state' ≡ₚ n' :: nf_names state ∧
  fresh_name state n' ∧ zlen n' < ns ∧
  (fresh_name state n → n' = n) ∧
  (¬ fresh_name state n → ∃ k, 2 ≤ k < 1000000 ∧ n' = namefix_candidate n ns k ∧
     ∀ j, 2 ≤ j < k → ¬ fresh_name state (namefix_candidate n ns j)).
Proof.
  intros Hwf Hn Hl H.
  destruct (namefix_apply_ok _ _ _ _ _ _ Hwf Hn Hl H) as (? & ? & ? & _ & ? & ? & ?). auto 10.
Qed.

(** A state that has already delivered [README]. *)
Definition namefix_demo : odfs_namefix_state :=
  (odfs_namefix_apply (λ _ _, true) odfs_namefix_init [82; 69; 65; 68; 77; 69] 512).1.2.

Lemma namefix_demo_wf : namefix_wf namefix_demo.
Proof.
  eapply (namefix_apply_ok (λ _ _, true) odfs_namefix_init [82; 69; 65; 68; 77; 69] 512);
    [auto with odfs|repeat constructor; lia|simpl; lia|vm_compute; reflexivity].
Qed.

(** [readme] collides with [README] and becomes [readme~2]. *)
Lemma namefix_apply_unique_witness :
  namefix_wf (odfs_namefix_apply (λ _ _, true) namefix_demo
               [114; 101; 97; 100; 109; 101] 512).1.2 ∧
  (odfs_namefix_apply (λ _ _, true) namefix_demo [114; 101; 97; 100; 109; 101] 512).2
    = [114; 101; 97; 100; 109; 101; 126; 50].
Proof.
  split; [|vm_compute; reflexivity].
  eapply (namefix_apply_unique (λ _ _, true) namefix_demo [114; 101; 97; 100; 109; 101] 512);
    [apply namefix_demo_wf|repeat constructor; lia|simpl; lia|vm_compute; reflexivity].
Defined.

(** With memory available [odfs_namefix_apply] never runs out of it. *)
Lemma namefix_apply_no_nomem malloc state n ns :
  (∀ i sz, malloc i sz = true) →
  (odfs_namefix_apply malloc state n ns).1.1 ≠ ODFS_ERR_NOMEM.
Proof.
  intros Hm.
  assert (Hr : ∀ nm len h, (odfs_namefix_remember malloc state nm len h).1 ≠ ODFS_ERR_NOMEM).
  { intros nm len h. unfold odfs_namefix_remember, odfs_namefix_alloc.
    repeat case_test; simpl; try done; rewrite Hm in *; done. }
  assert (Hs : ∀ fuel ord base nm, (namefix_search malloc fuel ord state base nm ns).1.1
                                   ≠ ODFS_ERR_NOMEM).
  { induction fuel as [|fuel IH]; intros ord base nm; cbn [namefix_search]; [done|].
    case_test; [done|]. fold (namefix_candidate base ns ord). rewrite namefix_hash_eq.
    case_test; [apply IH|]. specialize (Hr (namefix_candidate base ns ord)
      (zlen (namefix_candidate base ns ord)) (odfs_strcasehash (namefix_candidate base ns ord))).
    by destruct (odfs_namefix_remember _ _ _ _ _). }
  unfold odfs_namefix_apply. case_test; [done|]. rewrite namefix_hash_eq.
  case_test; [|apply Hs]. specialize (Hr n (zlen n) (odfs_strcasehash n)).
  by destruct (odfs_namefix_remember _ _ _ _ _).
Qed.

(** Running out of ordinals takes 999998 remembered names. *)
Lemma namefix_apply_overflow malloc state n ns state' n' :
  namefix_wf state → is_name n → zlen n < ns →
  odfs_namefix_apply malloc state n ns = (ODFS_ERR_OVERFLOW, state', n') →
  1000000 - 2 ≤ Z.of_nat (length (nf_names state)).
Proof.
  intros Hwf Hn Hl. unfold odfs_namefix_apply. case_test; [done|].
  rewrite namefix_hash_eq. case_test.
  - destruct (odfs_namefix_remember _ _ _ _ _) eqn:Hr. intros [= -> _ _].
    apply remember_error in Hr as [?|[? ?]]; done.
  - rewrite (take_ge n) by lia. intros Hs.
    enough (namefix_ordinals ≤ length (nf_names state))%nat as Hlen.
    { pose proof namefix_ordinals_Z. lia. }
    apply (taken_candidates_bound state n ns); [by rewrite namefix_ordinals_Z|].
    eapply namefix_search_overflow; [done|done|lia|exact Hs].
Qed.

(** A failing [odfs_namefix_apply] records nothing; it fails for want of
    memory, of buffer room, or, only when at least 999998 names are already
    recorded, of ordinals.  With memory available and a buffer of 8 bytes or more
    it therefore succeeds on every directory of fewer names. *)
Theorem namefix_apply_total malloc state n ns :
  namefix_wf state → is_name n → zlen n < ns → 8 ≤ ns →
  Z.of_nat (length (nf_names state)) < 1000000 - 2 →
  ∃ err state' n', odfs_namefix_apply malloc state n ns = (err, state', n') ∧
    (err = ODFS_OK ∨ err = ODFS_ERR_NOMEM ∧ state' = state) ∧
    ((∀ i sz, malloc i sz = true) → err = ODFS_OK).
Proof.
  intros Hwf Hn Hl Hns Hnames.
  destruct (odfs_namefix_apply malloc state n ns) as [[err st] n'] eqn:H.
  exists err, st, n'. split; [done|].
  destruct (decide (err = ODFS_OK)) as [->|Hne]; [auto|].
  destruct (namefix_apply_err _ _ _ _ _ _ _ H Hne) as [-> Herr].
  destruct Herr as [[_ ?]|[->|[->|(_ & k & Hk & Hbad)]]]; [lia| | |].
  - split; [auto|]. intros Hm%(namefix_apply_no_nomem _ state n ns). by rewrite H in Hm.
  - apply namefix_apply_overflow in H; [lia|done..].
  - pose proof (namefix_suffix_length k). lia.
Qed.

Lemma namefix_apply_total_witness :
  ∃ err state' n', odfs_namefix_apply (λ _ _, true) namefix_demo [82; 69; 65; 68; 77; 69] 8
    = (err, state', n') ∧ err = ODFS_OK.
Proof.
  destruct (namefix_apply_total (λ _ _, true) namefix_demo [82; 69; 65; 68; 77; 69] 8)
    as (err & st & n' & H & He & Hok);
    [apply namefix_demo_wf|repeat constructor; lia|simpl; lia|lia|vm_compute; reflexivity|].
  exists err, st, n'. auto.
Defined.
