(* ===== verification/Media.v ===== *)
(** * The media access layer ([include/odfs/media.h])

    A medium is a table of operations over a private context of type [M]; every
    operation takes the context and returns the new one.  The table itself is
    the interface platform code implements, so it is a parameter of the
    development.  A read is given the buffer it writes to and returns its
    contents, whatever the result: a failing device may have filled part of it. *)
From S2P Require Import Prelude Types.
Open Scope Z_scope.

(* [src: include/odfs/media.h:15-20 odfs_session_t] *)
Record odfs_session : Type := mk_session {
  s_number : Z; s_control : Z; s_start_lba : Z; s_length : Z }.
(* [src: include/odfs/media.h:23-29 odfs_toc_t] *)
Record odfs_toc : Type := mk_toc {
  first_session : Z; last_session : Z; session_count : Z; leadout_lba : Z;
  sessions : list odfs_session }.
Definition session_zero : odfs_session := mk_session 0 0 0 0.
Definition toc_zero : odfs_toc := mk_toc 0 0 0 0 (replicate 99 session_zero).
Definition toc_session (toc : odfs_toc) (i : Z) : odfs_session :=
  default session_zero (zget (sessions toc) i).

(** An operation that may be NULL is an option. *)
(* [src: include/odfs/media.h:32-84 odfs_media_ops_t] *)
Record odfs_media_ops (M : Type) : Type := mk_media_ops {
  read_sectors : M → Z → Z → list Z → odfs_err * list Z * M;
  sector_size_op : M → Z;
  sector_count_op : M → Z;
  read_toc : option (M → odfs_toc → odfs_err * odfs_toc * M);
  read_last_session_lba : option (M → Z → odfs_err * Z * M);
  read_audio : option (M → Z → Z → list Z → odfs_err * list Z * M);
  read_cdtext : option (M → odfs_err * list Z * M);
  media_close : option (M → M) }.
Arguments read_sectors {M}.
Arguments sector_size_op {M}.
Arguments sector_count_op {M}.
Arguments read_toc {M}.
Arguments read_last_session_lba {M}.
Arguments read_audio {M}.
Arguments read_cdtext {M}.
Arguments media_close {M}.

Section media.
Context {M : Type} (ops : odfs_media_ops M).

(* [src: include/odfs/media.h:93-99 odfs_media_read] *)
Definition odfs_media_read (m : M) (lba count : Z) (buf : list Z) : odfs_err * list Z * M :=
  read_sectors ops m lba count buf.
(* [src: include/odfs/media.h:101-104 odfs_media_sector_size] *)
Definition odfs_media_sector_size (m : M) : Z := sector_size_op ops m.
(* [src: include/odfs/media.h:106-109 odfs_media_sector_count] *)
Definition odfs_media_sector_count (m : M) : Z := sector_count_op ops m.
(* [src: include/odfs/media.h:111-116 odfs_media_read_toc] *)
Definition odfs_media_read_toc (m : M) (toc : odfs_toc) : odfs_err * odfs_toc * M :=
  match read_toc ops with
  | None => (ODFS_ERR_UNSUPPORTED, toc, m)
  | Some f => f m toc
  end.
(* [src: include/odfs/media.h:118-124 odfs_media_read_last_session_lba] *)
Definition odfs_media_read_last_session_lba (m : M) (lba_out : Z) : odfs_err * Z * M :=
  match read_last_session_lba ops with
  | None => (ODFS_ERR_UNSUPPORTED, lba_out, m)
  | Some f => f m lba_out
  end.
(* [src: include/odfs/media.h:126-134 odfs_media_read_audio] *)
Definition odfs_media_read_audio (m : M) (lba count : Z) (buf : list Z) : odfs_err * list Z * M :=
  match read_audio ops with
  | None => (ODFS_ERR_UNSUPPORTED, buf, m)
  | Some f => f m lba count buf
  end.
(* [src: include/odfs/media.h:136-143 odfs_media_read_cdtext] *)
Definition odfs_media_read_cdtext (m : M) : odfs_err * list Z * M :=
  match read_cdtext ops with
  | None => (ODFS_ERR_UNSUPPORTED, [], m)
  | Some f => f m
  end.
(* [src: include/odfs/media.h:145-151 odfs_media_close] *)
Definition odfs_media_close (m : M) : M :=
  match media_close ops with None => m | Some f => f m end.
End media.

(** ** What a medium promises

    [img] gives the contents of every sector of the disc in the drive. *)

(** The [count] sectors from [lba] on. *)
Definition disc_sectors (img : Z → list Z) (lba count : Z) : list Z :=
  concat (map img (seqZ lba count)).

(** Reads return the disc's sectors, write inside the buffer they are given, and
    every sector has the sector size; this is the contract of [read_sectors] and
    [sector_size] in [media.h]. *)
Class MediaReads {M} (ops : odfs_media_ops M) (img : Z → list Z) (ss : Z) : Prop := {
  mr_sector_size : ∀ m, sector_size_op ops m = ss;
  mr_sector_length : ∀ lba, zlen (img lba) = ss;
  mr_size_pos : 0 < ss;
  mr_buffer : ∀ m lba count buf err buf' m',
    read_sectors ops m lba count buf = (err, buf', m') → length buf' = length buf;
  mr_read : ∀ m lba count buf buf' m',
    0 ≤ lba → 0 ≤ count → lba + count ≤ 2 ^ 32 → zlen buf = count * ss →
    read_sectors ops m lba count buf = (ODFS_OK, buf', m') →
    buf' = disc_sectors img lba count }.

(** A medium whose failing reads of a sector leave the buffer as it was. *)
Class CleanFailure {M} (ops : odfs_media_ops M) : Prop :=
  clean_failure : ∀ m lba buf err buf' m',
    read_sectors ops m lba 1 buf = (err, buf', m') → err ≠ ODFS_OK → buf' = buf.

(** [aud] gives the audio frame of every sector; this is the contract of [read_audio]. *)
Definition AUDIO_FRAME : Z := 2352.
Class MediaAudio {M} (ops : odfs_media_ops M) (aud : Z → list Z) : Prop := {
  ma_frame_length : ∀ lba, zlen (aud lba) = AUDIO_FRAME;
  ma_buffer : ∀ f m lba count buf err buf' m', read_audio ops = Some f →
    f m lba count buf = (err, buf', m') → length buf' = length buf;
  ma_read : ∀ f m lba count buf buf' m', read_audio ops = Some f →
    0 ≤ lba → 0 ≤ count → lba + count ≤ 2 ^ 32 → zlen buf = count * AUDIO_FRAME →
    f m lba count buf = (ODFS_OK, buf', m') → buf' = disc_sectors aud lba count }.

Lemma length_disc_sectors img ss lba count :
  (∀ l, zlen (img l) = ss) → 0 ≤ count → zlen (disc_sectors img lba count) = count * ss.
Proof.
  intros Hss. unfold disc_sectors. intros Hc. rewrite <- (Z2Nat.id count) by done.
  generalize (Z.to_nat count) as n. clear count Hc. intros n. revert lba.
  induction n as [|n IH]; intros lba; [done|].
  rewrite Nat2Z.inj_succ, seqZ_cons, Z.pred_succ by lia. simpl.
  rewrite length_app, Nat2Z.inj_add, Hss, IH. lia.
Qed.

Lemma disc_sectors_app img lba a b :
  0 ≤ a → 0 ≤ b →
  disc_sectors img lba (a + b) = disc_sectors img lba a ++ disc_sectors img (lba + a) b.
Proof.
  intros. unfold disc_sectors. rewrite seqZ_app by lia. by rewrite map_app, concat_app.
Qed.

Lemma disc_sectors_1 img lba : disc_sectors img lba 1 = img lba.
Proof.
  unfold disc_sectors. rewrite seqZ_cons by lia. simpl. apply app_nil_r.
Qed.

(** ** A concrete medium, for the witnesses: an image of [n] sectors. *)
Definition image_ops (img : Z → list Z) (n ss : Z) : odfs_media_ops unit :=
  mk_media_ops unit
    (λ _ lba count buf,
       if (0 <=? lba) && (lba + count <=? n) && (zlen buf =? count * ss)
       then (ODFS_OK, disc_sectors img lba count, ())
       else (ODFS_ERR_EOF, buf, ()))
    (λ _, ss) (λ _, n) None None None None None.

Lemma image_ops_reads img n ss :
  0 < ss → (∀ l, zlen (img l) = ss) → MediaReads (image_ops img n ss) img ss.
Proof.
  intros Hp Hl. split; try done.
  - intros m lba count buf err buf' m'. simpl. case_test; intros [= <- <- <-]; [|done].
    b2p. apply Nat2Z.inj. rewrite (length_disc_sectors img ss lba count Hl); [lia|nia].
  - intros m lba count buf buf' m' ? ? ? ?. simpl. case_test; intros [=]; done.
Qed.

Lemma image_ops_clean img n ss : CleanFailure (image_ops img n ss).
Proof.
  intros m lba buf err buf' m'. simpl. case_test; intros [= <- <- <-]; done.
Qed.

(** ** The disc as a byte sequence *)
Definition disc_byte (img : Z → list Z) (ss k : Z) : Z := default 0 (zget (img (k / ss)) (k mod ss)).
Definition disc_bytes (img : Z → list Z) (ss base n : Z) : list Z :=
  map (disc_byte img ss) (seqZ base n).

Lemma length_disc_bytes img ss base n : 0 ≤ n → zlen (disc_bytes img ss base n) = n.
Proof. intros. unfold disc_bytes. rewrite length_map, length_seqZ. lia. Qed.
Lemma disc_bytes_bytes img ss base n : (∀ l, Forall is_byte (img l)) → Forall is_byte (disc_bytes img ss base n).
Proof.
  intros Hb. apply Forall_map, Forall_forall. intros k _. unfold disc_byte. destruct (zget (img (k / ss)) (k mod ss)) as [b|] eqn:Hk; [|by simpl].
  simpl. unfold zget in Hk. destruct (0 <=? _); [|done]. exact (Forall_lookup_1 _ _ _ _ (Hb _) Hk).
Qed.
Lemma disc_bytes_app img ss base a b :
  0 ≤ a → 0 ≤ b →
  disc_bytes img ss base (a + b) = disc_bytes img ss base a ++ disc_bytes img ss (base + a) b.
Proof. intros. unfold disc_bytes. by rewrite seqZ_app, map_app. Qed.

Lemma slice_disc_bytes img ss base m off n :
  0 ≤ off → 0 ≤ n → off + n ≤ m → slice (disc_bytes img ss base m) off n = disc_bytes img ss (base + off) n.
Proof.
  intros Ho Hn Hm. pose proof (length_disc_bytes img ss base off). pose proof (length_disc_bytes img ss (base + off) n).
  replace m with (off + (n + (m - off - n))) by lia. rewrite !disc_bytes_app by lia. unfold slice.
  rewrite drop_app_length' by lia. apply take_app_length'. lia.
Qed.
Lemma slice_sector img ss lba off n :
  (∀ l, zlen (img l) = ss) → 0 ≤ off → 0 ≤ n → off + n ≤ ss →
  slice (img lba) off n = disc_bytes img ss (lba * ss + off) n.
Proof.
  intros Hl Ho Hn Hs. apply list_eq. intros k. unfold disc_bytes.
  destruct (decide (Z.of_nat k < n)) as [Hk|Hk].
  - rewrite slice_lookup by lia. rewrite list_lookup_fmap, lookup_seqZ_lt by lia. simpl.
    unfold disc_byte.
    replace (lba * ss + off + Z.of_nat k) with (off + Z.of_nat k + lba * ss) by lia.
    rewrite Z.div_add, Z.mod_add, Z.div_small, Z.mod_small by lia. simpl.
    replace (off + Z.of_nat k) with (Z.of_nat (Z.to_nat off + k)) by lia. rewrite zget_nat.
    destruct (lookup_lt_is_Some_2 (img lba) (Z.to_nat off + k)) as [x Hx]; [|by rewrite Z.add_0_l, Hx].
    specialize (Hl lba). lia.
  - rewrite !lookup_ge_None_2; [done|..].
    + rewrite length_map, length_seqZ. lia.
    + rewrite length_slice; [lia..|]. by rewrite Hl.
Qed.

Lemma disc_sectors_bytes img ss lba n :
  (∀ l, zlen (img l) = ss) → 0 ≤ ss → 0 ≤ n →
  disc_sectors img lba n = disc_bytes img ss (lba * ss) (n * ss).
Proof.
  intros Hl Hs Hn. rewrite <- (Z2Nat.id n) by done.
  generalize (Z.to_nat n) as m. clear n Hn. intros m. induction m as [|m IH]; [done|].
  rewrite Nat2Z.inj_succ, <- Z.add_1_r, disc_sectors_app, disc_sectors_1, IH by lia.
  rewrite Z.mul_add_distr_r, disc_bytes_app by lia. f_equal.
  rewrite <- (slice_all (img (lba + Z.of_nat m)) ss) by (symmetry; apply Hl).
  rewrite (slice_sector img ss _ 0 ss) by (apply Hl || lia). f_equal; lia.
Qed.
