(* ===== verification/CacheApi.v ===== *)
(** * What the backends see of the block cache

    [CacheOps] is the part of [include/odfs/cache.h] the format readers call:
    reading a sector gives a pointer, looking through a pointer shows whatever the
    cache holds there {e at that time}.  [CacheLaws] is what the cache promises
    them.  The readers are proved against the class; [BlockCacheSpec] discharges
    it for [core/cache_block.c]. *)
From S2P Require Import Prelude Types Media.
Open Scope Z_scope.

Class CacheOps (C : Type) : Type := {
  bc_read : C → Z → odfs_err * Z * C;
  bc_read_bytes : C → Z → Z → list Z → Z → odfs_err * list Z * Z * C;
  bc_data : C → Z → list Z;
  bc_generation : C → Z }.

(** [c'] comes from [c] by reads that replaced at most [n] sectors: the
    generation counts them, and as long as it stands still every pointer shows
    what it showed. *)
Definition evolves {C} `{CacheOps C} (ptr : C → Z → Prop) (n : Z) (c c' : C) : Prop :=
  (∀ q, ptr c q → ptr c' q) ∧
  ∃ k, 0 ≤ k ≤ n ∧ bc_generation c' = u32 (bc_generation c + k) ∧
    (k = 0 → ∀ q, ptr c q → bc_data c' q = bc_data c q).

(** The sectors one read may replace. *)
Definition READ_EVICTIONS : Z := 8.

(** [inv] is kept by every read, [ok] (the cache shows the disc [img]) by every
    successful one, and by failing ones if the medium fails cleanly; [ptr c p]
    says that [p] was handed out. *)
Class CacheLaws (C : Type) `{CacheOps C} (img : Z → list Z) (ss : Z)
    (inv ok : C → Prop) (ptr : C → Z → Prop) : Prop := {
  cl_sector : ∀ lba, zlen (img lba) = ss;
  cl_generation : ∀ c, inv c → is_u32 (bc_generation c);
  cl_ok_inv : ∀ c, ok c → inv c;
  cl_ptr : ∀ c p, inv c → ptr c p → zlen (bc_data c p) = ss;
  cl_ptr_shows : ∀ c p, ok c → ptr c p → ∃ lba, bc_data c p = img lba;
  cl_read_inv : ∀ c lba err p c', inv c → is_u32 lba → bc_read c lba = (err, p, c') →
    inv c' ∧ (∀ q, ptr c q → ptr c' q) ∧ (err = ODFS_OK → ptr c' p);
  cl_read_ok : ∀ c lba p c', ok c → is_u32 lba → bc_read c lba = (ODFS_OK, p, c') →
    ok c' ∧ ptr c' p ∧ bc_data c' p = img lba ∧ evolves ptr READ_EVICTIONS c c';
  cl_read_bytes : ∀ c start offset buf len err buf' n c',
    ok c → is_u32 start → 0 ≤ offset < 2 ^ 63 → 0 ≤ len ≤ zlen buf →
    start + offset / ss < 2 ^ 32 →
    bc_read_bytes c start offset buf len = (err, buf', n, c') →
    let base := start * ss + offset in
    inv c' ∧ 0 ≤ n ≤ len ∧ length buf' = length buf ∧
    take (Z.to_nat n) buf' = disc_bytes img ss base n ∧
    (err = ODFS_OK → ok c' ∧ n = len ∧
       buf' = disc_bytes img ss base len ++ drop (Z.to_nat len) buf) }.

(** Failing reads leave the cache showing the disc as well. *)
Class CacheCleanFailure (C : Type) `{CacheOps C} (ok : C → Prop) (ptr : C → Z → Prop) : Prop :=
  cl_read_failed : ∀ c lba err p c', ok c → is_u32 lba → bc_read c lba = (err, p, c') →
    err ≠ ODFS_OK → ok c' ∧ evolves ptr 0 c c'.

(** Reads of the [readable] sectors succeed. *)
Class CacheReadable (C : Type) `{CacheOps C} (ok : C → Prop) (readable : Z → Prop) : Prop :=
  cr_read : ∀ c lba, ok c → is_u32 lba → readable lba → ∃ p c', bc_read c lba = (ODFS_OK, p, c').

(** Reads of the bytes from [a] up to [b] succeed if they [spans a b], and so do those of
    a part of them. *)
Class CacheReadsBytes (C : Type) `{CacheOps C} (ok : C → Prop) (ss : Z) (spans : Z → Z → Prop) : Prop := {
  cb_sub : ∀ a b a' b', spans a b → a ≤ a' → b' ≤ b → spans a' b';
  cb_read : ∀ c start offset buf len, ok c → is_u32 start → 0 ≤ offset < 2 ^ 63 → 0 ≤ len ≤ zlen buf → start + offset / ss < 2 ^ 32 →
    spans (start * ss + offset) (start * ss + offset + len) → ∃ buf' c', bc_read_bytes c start offset buf len = (ODFS_OK, buf', len, c') }.

(** Byte reads that begin beyond the last sector number do no harm either. *)
Class CacheBeyond (C : Type) `{CacheOps C} (ok : C → Prop) (ss : Z) : Prop :=
  cx_beyond : ∀ c start offset buf len err buf' n c', ok c → is_u32 start → 0 ≤ offset < 2 ^ 63 → 0 < len ≤ zlen buf → 2 ^ 32 ≤ start + offset / ss →
    bc_read_bytes c start offset buf len = (err, buf', n, c') → err = ODFS_OK → ok c' ∧ length buf' = length buf ∧ 0 ≤ n ≤ len ∧ (Forall is_byte buf → Forall is_byte buf').

Section evolves.
Context {C : Type} `{CacheOps C} (ptr : C → Z → Prop).

Lemma evolves_refl c n : 0 ≤ n → is_u32 (bc_generation c) → evolves ptr n c c.
Proof. intros. split; [done|]. exists 0. split_and!; [lia..| |done]. by rewrite Z.add_0_r, u32_small. Qed.

Lemma evolves_trans n m c1 c2 c3 :
  evolves ptr n c1 c2 → evolves ptr m c2 c3 → evolves ptr (n + m) c1 c3.
Proof.
  intros [Hp (k & Hk & Hg & Hd)] [Hp' (k' & Hk' & Hg' & Hd')]. split; [by auto|].
  exists (k + k'). split_and!; [lia..| |].
  - rewrite Hg', Hg. unfold u32. rewrite Zplus_mod_idemp_l. f_equal. lia.
  - intros ? q Hq. rewrite Hd' by (lia || auto). apply Hd; [lia|done].
Qed.

Lemma evolves_mono n m c c' : n ≤ m → evolves ptr n c c' → evolves ptr m c c'.
Proof. intros ? [? (k & ? & ?)]. split; [done|]. exists k. split; [lia|done]. Qed.

(** The check the readers make before they reuse a pointer is sound. *)
Lemma evolves_stable n c c' q :
  n < 2 ^ 32 → is_u32 (bc_generation c) → evolves ptr n c c' →
  bc_generation c' = bc_generation c → ptr c q → bc_data c' q = bc_data c q.
Proof.
  intros Hn Hg [_ (k & Hk & Hg' & Hd)] He. apply Hd.
  unfold is_u32, u32 in *. rewrite He in Hg'.
  pose proof (Z.div_mod (bc_generation c + k) (2 ^ 32)). nia.
Qed.
End evolves.

(** ** A cache that holds the whole disc

    The smallest implementation of the interface; a pointer is the sector number.
    The backends' examples run on it. *)
Definition disc_cache (img : Z → list Z) (ss : Z) : CacheOps unit := {|
  bc_read := λ _ lba, (ODFS_OK, lba, tt);
  bc_read_bytes := λ _ start offset buf len,
    (ODFS_OK, disc_bytes img ss (start * ss + offset) len ++ drop (Z.to_nat len) buf, len, tt);
  bc_data := λ _ p, img p;
  bc_generation := λ _, 0 |}.

Lemma disc_cache_laws img ss :
  (∀ lba, zlen (img lba) = ss) →
  CacheLaws unit (H := disc_cache img ss) img ss (λ _, True) (λ _, True) (λ _ _, True).
Proof.
  intros Hss. split; simpl; try done.
  - intros [] p _ _. by exists p.
  - intros [] lba p [] _ _ [= <-]. split_and!; try done. split; [done|].
    exists 0. split_and!; (done || unfold READ_EVICTIONS; lia).
  - intros [] start offset buf len err buf' n [] _ _ _ Hlen _ [= <- <- <-].
    pose proof (length_disc_bytes img ss (start * ss + offset) len).
    split_and!; try done; try lia.
    + rewrite length_app, length_drop. lia.
    + apply take_app_length'. lia.
Qed.
Lemma disc_cache_clean img ss :
  CacheCleanFailure unit (H := disc_cache img ss) (λ _, True) (λ _ _, True).
Proof. by intros [] lba err p c' _ _ [= <- _] ?. Qed.
Lemma disc_cache_beyond img ss : (∀ l, Forall is_byte (img l)) → CacheBeyond unit (H := disc_cache img ss) (λ _, True) ss.
Proof.
  intros Hb [] start offset buf len err buf' n [] _ _ _ Hlen _ [= _ <- <-] _. pose proof (length_disc_bytes img ss (start * ss + offset) len).
  split; [done|]. split; [rewrite length_app, length_drop; lia|]. split; [lia|]. intros Hbuf. apply Forall_app. split; [by apply disc_bytes_bytes|by apply Forall_drop].
Qed.
