(* ===== verification/Links.v ===== *)
(** * Linked lists threaded through arrays

    The C code threads lists through arrays of links: a link is an index, a
    negative one ends the list.  [chain nx h l] says that following [nx] from the
    head [h] visits exactly [l]; [dll pv nx p l n] that [l] is a doubly linked
    segment whose first element points back to [p] and whose last one points
    forward to [n].  Link updates are stated on the link functions, so the lemmas
    serve every array that stores them. *)
From S2P Require Import Prelude.
Open Scope Z_scope.

(** The function [f] changed at [i]. *)
Definition fupd (f : Z → Z) (i v : Z) : Z → Z := λ j, if j =? i then v else f j.

Lemma fupd_eq f i v : fupd f i v i = v.
Proof. unfold fupd. by rewrite Z.eqb_refl. Qed.
Lemma fupd_ne f i j v : i ≠ j → fupd f i v j = f j.
Proof. intros. unfold fupd. case_test; b2p; [congruence|done]. Qed.

(** ** Singly linked lists *)
Fixpoint chain (nx : Z → Z) (h : Z) (l : list Z) : Prop :=
  match l with
  | [] => h < 0
  | i :: l => h = i ∧ 0 ≤ i ∧ chain nx (nx i) l
  end.

Lemma chain_ext nx nx' h l :
  (∀ i, i ∈ l → nx' i = nx i) → chain nx h l → chain nx' h l.
Proof.
  revert h. induction l as [|i l IH]; intros h Hx; simpl; [done|].
  intros (-> & ? & Hl). split_and!; [done..|]. rewrite Hx by set_solver.
  apply IH; [|done]. intros j Hj. apply Hx. set_solver.
Qed.

(** Unlinking [i] from behind [p]. *)
Lemma chain_unlink nx nx' h a p i l :
  chain nx h (a ++ p :: i :: l) → NoDup (a ++ p :: i :: l) →
  nx' p = nx i → (∀ j, j ∈ a ++ l → nx' j = nx j) → chain nx' h (a ++ p :: l).
Proof.
  revert h. induction a as [|x a IH]; intros h; simpl.
  - intros (-> & ? & <- & ? & Hl) _ Hp Hx. split_and!; [done..|].
    rewrite Hp. eapply chain_ext; [|done]. set_solver.
  - intros (-> & ? & Hl) [? Hnd]%NoDup_cons Hp Hx. split_and!; [done..|].
    rewrite Hx by set_solver. apply IH; [done..|]. set_solver.
Qed.

(** ** Doubly linked segments *)
Fixpoint dll (pv nx : Z → Z) (p : Z) (l : list Z) (n : Z) : Prop :=
  match l with
  | [] => True
  | i :: l => pv i = p ∧ nx i = hd n l ∧ dll pv nx i l n
  end.

Lemma dll_ext pv nx pv' nx' p l n :
  (∀ i, i ∈ l → pv' i = pv i ∧ nx' i = nx i) → dll pv nx p l n → dll pv' nx' p l n.
Proof.
  revert p. induction l as [|i l IH]; intros p Hx; simpl; [done|].
  destruct (Hx i) as [-> ->]; [set_solver|]. intros (? & ? & ?). split_and!; [done..|].
  apply IH; [|done]. intros j Hj. apply Hx. set_solver.
Qed.

Lemma hd_app (n : Z) a b : hd n (a ++ b) = hd (hd n b) a.
Proof. by destruct a. Qed.
Lemma last_cons_default (p i : Z) l : default p (last (i :: l)) = default i (last l).
Proof. rewrite last_cons. by destruct (last l). Qed.

Lemma dll_app pv nx p a b n :
  dll pv nx p (a ++ b) n ↔
  dll pv nx p a (hd n b) ∧ dll pv nx (default p (last a)) b n.
Proof.
  revert p. induction a as [|i a IH]; intros p; [simpl; tauto|].
  rewrite last_cons_default. simpl. rewrite IH, hd_app. tauto.
Qed.

(** Redirecting the forward link of the last element of a segment. *)
Lemma dll_set_next pv nx p a i n n' :
  NoDup (a ++ [i]) → dll pv nx p (a ++ [i]) n → dll pv (fupd nx i n') p (a ++ [i]) n'.
Proof.
  intros [_ [Hd _]]%NoDup_app. rewrite !dll_app. simpl. intros [Ha (? & _ & _)].
  split_and!; try done; [|apply fupd_eq]. eapply dll_ext; [|done].
  intros j Hj. split; [done|]. apply fupd_ne. set_solver.
Qed.
(** Redirecting the backward link of the first one. *)
Lemma dll_set_prev pv nx p p' i b n :
  NoDup (i :: b) → dll pv nx p (i :: b) n → dll (fupd pv i p') nx p' (i :: b) n.
Proof.
  intros [Hi _]%NoDup_cons (_ & ? & ?). split_and!; [apply fupd_eq|done|].
  eapply dll_ext; [|done]. intros j Hj. split; [|done]. apply fupd_ne. set_solver.
Qed.

(** Replacing the forward link when there is a predecessor. *)
Lemma dll_close_next pv nx a n n' :
  NoDup a → dll pv nx (-1) a n →
  dll pv (match last a with Some p => fupd nx p n' | None => nx end) (-1) a n'.
Proof.
  destruct (decide (a = [])) as [->|Ha]; [done|].
  destruct (last_is_Some a) as [_ [p Hp]]; [done|].
  rewrite Hp. apply last_Some in Hp as [a' ->]. apply dll_set_next.
Qed.
Lemma dll_close_prev pv nx p p' b n :
  NoDup b → dll pv nx p b n →
  dll (match b with i :: _ => fupd pv i p' | [] => pv end) nx p' b n.
Proof. destruct b; [done|]. apply dll_set_prev. Qed.
