(* ===== verification/BlockCache.v ===== *)
(** * The LRU block cache ([core/cache_block.c], [include/odfs/cache.h])

    The cache is a set of arrays: the entries, the hash buckets, and one
    collision link per entry.  Entry indices thread three linked structures: the
    doubly linked LRU list of valid entries ([lru_prev]/[lru_next]), the free list
    (through [lru_next]) and one chain per bucket (through [next]); -1 ends each.
    A [NULL] array is the empty list: an allocated one is never empty.  A data
    pointer handed to a caller is the index of the entry it points into.

    In C an index outside an array is undefined behaviour; the model reads a
    default entry there and the invariant of [BlockCacheProofs] shows that every
    index the operations use is in range. *)
From S2P Require Import Prelude Types Media.
Open Scope Z_scope.

Definition ODFS_CACHE_STREAM_MIN_SECTORS : Z := 2.
(* [src: core/cache_block.c:22-26 ODFS_CACHE_READAHEAD] *)
Definition ODFS_CACHE_READAHEAD : Z := 8.

(* [src: include/odfs/cache.h:18-24 odfs_cache_stats_t] *)
Record odfs_cache_stats : Type := mk_stats {
  st_reads : Z; st_hits : Z; st_misses : Z; st_evictions : Z; st_max_used : Z }.

(* [src: include/odfs/cache.h:27-34 odfs_cache_entry_t] *)
Record odfs_cache_entry : Type := mk_entry {
  e_lba : Z; e_age : Z; lru_prev : Z; lru_next : Z; valid : bool; data : list Z }.
Definition entry_zero : odfs_cache_entry := mk_entry 0 0 0 0 false [].

Definition set_prev v e := mk_entry (e_lba e) (e_age e) v (lru_next e) (valid e) (data e).
Definition set_next v e := mk_entry (e_lba e) (e_age e) (lru_prev e) v (valid e) (data e).
Definition set_age v e := mk_entry (e_lba e) v (lru_prev e) (lru_next e) (valid e) (data e).
Definition set_valid v e := mk_entry (e_lba e) (e_age e) (lru_prev e) (lru_next e) v (data e).
Definition set_data v e := mk_entry (e_lba e) (e_age e) (lru_prev e) (lru_next e) (valid e) v.
Definition set_tag lba age e := mk_entry lba age (lru_prev e) (lru_next e) true (data e).

(** [media] is the context of the medium the cache reads from. *)
(* [src: include/odfs/cache.h:37-60 odfs_cache_t] *)
Record odfs_cache (M : Type) : Type := mk_cache {
  entries : list odfs_cache_entry;
  buckets : list Z;
  next : list Z;
  capacity : Z;
  hash_size : Z;
  valid_count : Z;
  sector_size : Z;
  sector_shift : Z;
  clock : Z;
  free_head : Z;
  lru_head : Z;
  lru_tail : Z;
  stats : odfs_cache_stats;
  media : M;
  stream_buf : option (list Z);
  last_miss_lba : Z;
  generation : Z }.
Arguments mk_cache {M}.
Arguments entries {M}. Arguments buckets {M}. Arguments next {M}. Arguments capacity {M}.
Arguments hash_size {M}. Arguments valid_count {M}. Arguments sector_size {M}.
Arguments sector_shift {M}. Arguments clock {M}. Arguments free_head {M}.
Arguments lru_head {M}. Arguments lru_tail {M}. Arguments stats {M}. Arguments media {M}.
Arguments stream_buf {M}. Arguments last_miss_lba {M}. Arguments generation {M}.

Section cache.
Context {M : Type} (ops : odfs_media_ops M).
Implicit Types c : odfs_cache M.

(** Field assignments. *)
Definition set_entries v (c : odfs_cache M) : odfs_cache M :=
  mk_cache v (buckets c) (next c) (capacity c) (hash_size c)
  (valid_count c) (sector_size c) (sector_shift c) (clock c) (free_head c) (lru_head c)
  (lru_tail c) (stats c) (media c) (stream_buf c) (last_miss_lba c) (generation c).
Definition set_chains b n (c : odfs_cache M) : odfs_cache M :=
  mk_cache (entries c) b n (capacity c) (hash_size c)
  (valid_count c) (sector_size c) (sector_shift c) (clock c) (free_head c) (lru_head c)
  (lru_tail c) (stats c) (media c) (stream_buf c) (last_miss_lba c) (generation c).
Definition set_lists es fh lh lt (c : odfs_cache M) : odfs_cache M :=
  mk_cache es (buckets c) (next c) (capacity c)
  (hash_size c) (valid_count c) (sector_size c) (sector_shift c) (clock c) fh lh lt (stats c)
  (media c) (stream_buf c) (last_miss_lba c) (generation c).
Definition set_valid_count v (c : odfs_cache M) : odfs_cache M :=
  mk_cache (entries c) (buckets c) (next c) (capacity c)
  (hash_size c) v (sector_size c) (sector_shift c) (clock c) (free_head c) (lru_head c)
  (lru_tail c) (stats c) (media c) (stream_buf c) (last_miss_lba c) (generation c).
Definition set_clock v (c : odfs_cache M) : odfs_cache M :=
  mk_cache (entries c) (buckets c) (next c) (capacity c)
  (hash_size c) (valid_count c) (sector_size c) (sector_shift c) v (free_head c) (lru_head c)
  (lru_tail c) (stats c) (media c) (stream_buf c) (last_miss_lba c) (generation c).
Definition set_stats v (c : odfs_cache M) : odfs_cache M :=
  mk_cache (entries c) (buckets c) (next c) (capacity c)
  (hash_size c) (valid_count c) (sector_size c) (sector_shift c) (clock c) (free_head c)
  (lru_head c) (lru_tail c) v (media c) (stream_buf c) (last_miss_lba c) (generation c).
Definition set_media (v : M) (c : odfs_cache M) : odfs_cache M :=
  mk_cache (entries c) (buckets c) (next c) (capacity c)
  (hash_size c) (valid_count c) (sector_size c) (sector_shift c) (clock c) (free_head c)
  (lru_head c) (lru_tail c) (stats c) v (stream_buf c) (last_miss_lba c) (generation c).
Definition set_stream v (c : odfs_cache M) : odfs_cache M :=
  mk_cache (entries c) (buckets c) (next c) (capacity c)
  (hash_size c) (valid_count c) (sector_size c) (sector_shift c) (clock c) (free_head c)
  (lru_head c) (lru_tail c) (stats c) (media c) v (last_miss_lba c) (generation c).
Definition set_last_miss v (c : odfs_cache M) : odfs_cache M :=
  mk_cache (entries c) (buckets c) (next c) (capacity c)
  (hash_size c) (valid_count c) (sector_size c) (sector_shift c) (clock c) (free_head c)
  (lru_head c) (lru_tail c) (stats c) (media c) (stream_buf c) v (generation c).
Definition set_generation v (c : odfs_cache M) : odfs_cache M :=
  mk_cache (entries c) (buckets c) (next c) (capacity c)
  (hash_size c) (valid_count c) (sector_size c) (sector_shift c) (clock c) (free_head c)
  (lru_head c) (lru_tail c) (stats c) (media c) (stream_buf c) (last_miss_lba c) v.

Definition stat_read s := mk_stats (u32 (st_reads s + 1)) (st_hits s) (st_misses s)
  (st_evictions s) (st_max_used s).
Definition stat_hit s := mk_stats (st_reads s) (u32 (st_hits s + 1)) (st_misses s)
  (st_evictions s) (st_max_used s).
Definition stat_miss s := mk_stats (st_reads s) (st_hits s) (u32 (st_misses s + 1))
  (st_evictions s) (st_max_used s).
Definition stat_evict s := mk_stats (st_reads s) (st_hits s) (st_misses s)
  (u32 (st_evictions s + 1)) (st_max_used s).
Definition stat_used v s := mk_stats (st_reads s) (st_hits s) (st_misses s) (st_evictions s)
  (if st_max_used s <? v then v else st_max_used s).

(** [cache->entries == NULL]. *)
Definition no_entries c : bool := match entries c with [] => true | _ => false end.
Definition no_index c : bool :=
  match buckets c, next c with [], _ => true | _, [] => true | _, _ => false end.

Definition get_entry c (i : Z) : odfs_cache_entry := default entry_zero (zget (entries c) i).
Definition get_link (l : list Z) (i : Z) : Z := default (-1) (zget l i).
(** The sector a data pointer (entry index) currently shows. *)
Definition cache_data c (i : Z) : list Z := data (get_entry c i).

(* [src: core/cache_block.c:28-53 cache_reset_indices] *)
Definition cache_reset_indices c : odfs_cache M :=
  let c := set_chains (map (λ _, -1) (buckets c)) (map (λ _, -1) (next c)) c in
  set_lists
    (imap (λ i e, set_next (if Z.of_nat i + 1 <? capacity c then Z.of_nat i + 1 else -1)
                    (set_prev (-1) e)) (entries c))
    (if capacity c =? 0 then -1 else 0) (-1) (-1) c.

(* [src: core/cache_block.c:55-58 cache_hash_lba] *)
Definition cache_hash_lba c (lba : Z) : Z :=
  if hash_size c =? 0 then 0 else lba mod hash_size c.

(** The chain walk; a chain of a well-formed cache has fewer than [fuel] links. *)
(* [src: core/cache_block.c:67-75 cache_find_index] *)
Fixpoint cache_find_loop (fuel : nat) c (lba idx : Z) : Z :=
  match fuel with
  | O => -1
  | S fuel =>
      if idx <? 0 then -1
      else
        let entry := get_entry c idx in
        if valid entry && (e_lba entry =? lba) then idx
        else cache_find_loop fuel c lba (get_link (next c) idx)
  end.
(* [src: core/cache_block.c:60-76 cache_find_index] *)
Definition cache_find_index c (lba : Z) : Z :=
  if no_index c || (hash_size c =? 0) then -1
  else cache_find_loop (S (length (entries c))) c lba
         (get_link (buckets c) (cache_hash_lba c lba)).

(* [src: core/cache_block.c:78-88 cache_insert_index] *)
Definition cache_insert_index c (idx : Z) : odfs_cache M :=
  if no_index c || (capacity c <=? idx) then c
  else
    let bucket := cache_hash_lba c (e_lba (get_entry c idx)) in
    set_chains (zset (buckets c) bucket idx)
      (zset (next c) idx (get_link (buckets c) bucket)) c.

(* [src: core/cache_block.c:101-112 cache_remove_index] *)
Fixpoint cache_remove_loop (fuel : nat) c (bucket idx prev cur : Z) : odfs_cache M :=
  match fuel with
  | O => c
  | S fuel =>
      if cur <? 0 then c
      else if cur =? idx then
        let after := get_link (next c) cur in
        if 0 <=? prev
        then set_chains (buckets c) (zset (zset (next c) prev after) cur (-1)) c
        else set_chains (zset (buckets c) bucket after) (zset (next c) cur (-1)) c
      else cache_remove_loop fuel c bucket idx cur (get_link (next c) cur)
  end.
(* [src: core/cache_block.c:90-113 cache_remove_index] *)
Definition cache_remove_index c (idx : Z) : odfs_cache M :=
  if no_index c || (capacity c <=? idx) then c
  else
    let bucket := cache_hash_lba c (e_lba (get_entry c idx)) in
    cache_remove_loop (S (length (entries c))) c bucket idx (-1) (get_link (buckets c) bucket).

(* [src: core/cache_block.c:115-140 cache_lru_remove] *)
Definition cache_lru_remove c (idx : Z) : odfs_cache M :=
  if no_entries c || (capacity c <=? idx) then c
  else
    let prev := lru_prev (get_entry c idx) in
    let nxt := lru_next (get_entry c idx) in
    let '(es, lh) :=
      if 0 <=? prev then (zupd (entries c) prev (set_next nxt), lru_head c)
      else (entries c, if lru_head c =? idx then nxt else lru_head c) in
    let '(es, lt) :=
      if 0 <=? nxt then (zupd es nxt (set_prev prev), lru_tail c)
      else (es, if lru_tail c =? idx then prev else lru_tail c) in
    set_lists (zupd es idx (λ e, set_next (-1) (set_prev (-1) e))) (free_head c) lh lt c.

(* [src: core/cache_block.c:142-157 cache_lru_insert_head] *)
Definition cache_lru_insert_head c (idx : Z) : odfs_cache M :=
  if no_entries c || (capacity c <=? idx) then c
  else
    let es := zupd (entries c) idx (λ e, set_next (lru_head c) (set_prev (-1) e)) in
    let '(es, lt) :=
      if 0 <=? lru_head c then (zupd es (lru_head c) (set_prev idx), lru_tail c)
      else (es, idx) in
    set_lists es (free_head c) idx lt c.

(* [src: core/cache_block.c:159-166 cache_lru_make_mru] *)
Definition cache_lru_make_mru c (idx : Z) : odfs_cache M :=
  if lru_head c =? idx then c else cache_lru_insert_head (cache_lru_remove c idx) idx.

(* [src: core/cache_block.c:168-183 cache_pop_free] *)
Definition cache_pop_free c : Z * odfs_cache M :=
  if no_entries c then (-1, c)
  else
    let idx := free_head c in
    if idx <? 0 then (-1, c)
    else (idx, set_lists (zupd (entries c) idx (λ e, set_prev (-1) (set_next (-1) e)))
                 (lru_next (get_entry c idx)) (lru_head c) (lru_tail c) c).

(** An invalid victim comes from the free list, a valid one is the LRU tail. *)
(* [src: core/cache_block.c:306-319 cache_reserve] *)
Definition cache_reserve c : Z :=
  let victim := if valid_count c <? capacity c then free_head c else lru_tail c in
  if (victim <? 0) || (capacity c <=? victim) then -1 else victim.

(* [src: core/cache_block.c:321-350 cache_commit] *)
Definition cache_commit c (victim lba : Z) : Z * odfs_cache M :=
  let '(failed, c) :=
    if valid (get_entry c victim) then
      let c := cache_remove_index c victim in
      let c := cache_lru_remove c victim in
      let c := set_stats (stat_evict (stats c)) c in
      (false, set_generation (u32 (generation c + 1)) c)
    else
      let '(free_idx, c) := cache_pop_free c in
      if free_idx =? victim then (false, set_valid_count (u32 (valid_count c + 1)) c)
      else (true, c) in
  if (failed : bool) then (-1, c)
  else
    let c := set_entries (zupd (entries c) victim (set_tag lba (clock c))) c in
    let c := cache_insert_index c victim in
    let c := cache_lru_insert_head c victim in
    (victim, set_stats (stat_used (valid_count c) (stats c)) c).

(** [src] is copied into the victim's buffer. *)
(* [src: core/cache_block.c:353-363 cache_install] *)
Definition cache_install c (lba : Z) (src : list Z) : Z * odfs_cache M :=
  let victim := cache_reserve c in
  if victim <? 0 then (-1, c)
  else
    let copied := splice (cache_data c victim) 0 src in
    cache_commit (set_entries (zupd (entries c) victim (set_data copied)) c) victim lba.

(* [src: core/cache_block.c:365-368 odfs_cache_contains] *)
Definition odfs_cache_contains c (lba : Z) : bool :=
  negb (no_entries c) && (0 <=? cache_find_index c lba).

(* [src: core/cache_block.c:371-379 odfs_cache_retain] *)
Definition odfs_cache_retain c (lba : Z) (src : list Z) : odfs_err * odfs_cache M :=
  if no_entries c then (ODFS_ERR_INVAL, c)
  else if 0 <=? cache_find_index c lba then (ODFS_OK, c)
  else
    let '(idx, c) := cache_install c lba src in
    (if 0 <=? idx then ODFS_OK else ODFS_ERR_INVAL, c).

(** A hit: age, LRU position and counters of an indexed entry. *)
Definition cache_touch c (hit : Z) : odfs_cache M :=
  cache_lru_make_mru (set_entries (zupd (entries c) hit (set_age (clock c))) c) hit.

(** [None] is the NULL result. *)
(* [src: core/cache_block.c:383-399 odfs_cache_read_cached] *)
Definition odfs_cache_read_cached c (lba : Z) : option Z * odfs_cache M :=
  if no_entries c then (None, c)
  else
    let hit := cache_find_index c lba in
    if hit <? 0 then (None, c)
    else
      let c := set_stats (stat_hit (stat_read (stats c))) c in
      let c := set_clock (u32 (clock c + 1)) c in
      (Some hit, cache_touch c hit).

(** How many uncached sectors from [lba] on a clustered read may fetch. *)
(* [src: core/cache_block.c:431-436 odfs_cache_read] *)
Fixpoint readahead_run (fuel : nat) c (lba run : Z) : Z :=
  match fuel with
  | O => run
  | S fuel =>
      if (run <? ODFS_CACHE_READAHEAD) && (lba <? u32 (lba + run)) &&
         (cache_find_index c (u32 (lba + run)) <? 0)
      then readahead_run fuel c lba (run + 1)
      else run
  end.

(** Installs sectors [lba + n - 1] down to [lba] from the staging buffer. *)
(* [src: core/cache_block.c:446-452 odfs_cache_read] *)
Fixpoint install_run (n : nat) c (lba : Z) (buf : list Z) (idx : Z) : Z * odfs_cache M :=
  match n with
  | O => (idx, c)
  | S n =>
      let '(idx, c) := cache_install c (u32 (lba + Z.of_nat n))
                         (slice buf (Z.of_nat n * sector_size c) (sector_size c)) in
      if idx <? 0 then (idx, c) else install_run n c lba buf idx
  end.

(** The clustered read of a sequential miss; [None] falls back to one sector. *)
(* [src: core/cache_block.c:424-461 odfs_cache_read] *)
Definition cache_read_cluster c (lba : Z) : option Z * odfs_cache M :=
  match stream_buf c with
  | None => (None, c)
  | Some buf =>
      if lba =? u32 (last_miss_lba c + 1) then
        let run := readahead_run (Z.to_nat ODFS_CACHE_READAHEAD) c lba 1 in
        if 1 <? run then
          let '(err, got, m) :=
            odfs_media_read ops (media c) lba run (slice buf 0 (run * sector_size c)) in
          let buf := splice buf 0 got in
          let c := set_media m (set_stream (Some buf) c) in
          if err_ok err then
            let '(idx, c) := install_run (Z.to_nat run) c lba buf (-1) in
            if 0 <=? idx then (Some idx, set_last_miss (u32 (lba + run - 1)) c)
            else (None, c)
          else (None, c)
        else (None, c)
      else (None, c)
  end.

(** The single-sector miss: the medium reads straight into the victim's buffer. *)
(* [src: core/cache_block.c:463-477 odfs_cache_read] *)
Definition cache_read_single c (lba : Z) : odfs_err * Z * odfs_cache M :=
  let c := set_last_miss lba c in
  let victim := cache_reserve c in
  if victim <? 0 then (ODFS_ERR_CORRUPT, -1, c)
  else
    let '(err, got, m) := odfs_media_read ops (media c) lba 1 (cache_data c victim) in
    let c := set_media m (set_entries (zupd (entries c) victim (set_data got)) c) in
    if negb (err_ok err) then (err, -1, c)
    else
      let '(idx, c) := cache_commit c victim lba in
      if idx <? 0 then (ODFS_ERR_CORRUPT, -1, c) else (ODFS_OK, victim, c).

(** The pointer component is meaningful only with [ODFS_OK]. *)
(* [src: core/cache_block.c:401-478 odfs_cache_read] *)
Definition odfs_cache_read c (lba : Z) : odfs_err * Z * odfs_cache M :=
  if no_entries c then (ODFS_ERR_INVAL, -1, c)
  else
    let c := set_stats (stat_read (stats c)) c in
    let c := set_clock (u32 (clock c + 1)) c in
    let hit := cache_find_index c lba in
    if 0 <=? hit then
      let c := cache_touch c hit in
      (ODFS_OK, hit, set_stats (stat_hit (stats c)) c)
    else
      let c := set_stats (stat_miss (stats c)) c in
      match cache_read_cluster c lba with
      | (Some idx, c) => (ODFS_OK, idx, c)
      | (None, c) => cache_read_single c lba
      end.

(** Copies [len] bytes at [offset] of sector [lba] to [buf + done]. *)
(* [src: core/cache_block.c:480-495 cache_copy_sector] *)
Definition cache_copy_sector c (lba offset : Z) (buf : list Z) (done len : Z)
    : odfs_err * list Z * odfs_cache M :=
  let '(err, idx, c) := odfs_cache_read c lba in
  if negb (err_ok err) then (err, buf, c)
  else (ODFS_OK, splice buf done (slice (cache_data c idx) offset len), c).

(** The loops of [odfs_cache_read_bytes] share the position: bytes done and
    next sector; [RdStop] leaves the function with an error. *)
Inductive rd_step : Type :=
  | RdGo (buf : list Z) (done lba : Z) (c : odfs_cache M)
  | RdStop (err : odfs_err) (buf : list Z) (done : Z) (c : odfs_cache M).

(** Runs of two or more whole sectors bypass the cache. *)
(* [src: core/cache_block.c:550-585 odfs_cache_read_bytes] *)
Fixpoint read_stream_loop (fuel : nat) c (buf : list Z) (want done lba : Z) : rd_step :=
  match fuel with
  | O => RdGo buf done lba c
  | S fuel =>
      let ss := sector_size c in
      let full_sectors := (want - done) / ss in
      if (want - done <? ss) || (full_sectors <? ODFS_CACHE_STREAM_MIN_SECTORS)
      then RdGo buf done lba c
      else
        let count := if full_sectors <? UINT32_MAX then full_sectors else UINT32_MAX in
        let count := if UINT32_MAX - lba + 1 <? count then UINT32_MAX - lba + 1 else count in
        let '(err, got, m) :=
          odfs_media_read ops (media c) lba count (slice buf done (count * ss)) in
        let c := set_media m c in
        let buf := splice buf done got in
        if negb (err_ok err) then RdStop err buf done c
        else
          let done := done + count * ss in
          let next_lba := lba + count in
          if (done <? want) && (UINT32_MAX <? next_lba)
          then RdStop ODFS_ERR_RANGE buf done c
          else read_stream_loop fuel c buf want done (u32 next_lba)
  end.

(* [src: core/cache_block.c:587-600 odfs_cache_read_bytes] *)
Fixpoint read_sector_loop (fuel : nat) c (buf : list Z) (want done lba : Z) : rd_step :=
  match fuel with
  | O => RdGo buf done lba c
  | S fuel =>
      let ss := sector_size c in
      if want - done <? ss then RdGo buf done lba c
      else
        let '(err, buf, c) := cache_copy_sector c lba 0 buf done ss in
        if negb (err_ok err) then RdStop err buf done c
        else
          let done := done + ss in
          if (done <? want) && (lba =? UINT32_MAX) then RdStop ODFS_ERR_RANGE buf done c
          else read_sector_loop fuel c buf want done (u32 (lba + 1))
  end.

(** The unaligned head of the request. *)
(* [src: core/cache_block.c:529-548 odfs_cache_read_bytes] *)
Definition read_head c (buf : list Z) (want lba sector_off : Z) : rd_step :=
  if sector_off =? 0 then RdGo buf 0 lba c
  else
    let chunk := sector_size c - sector_off in
    let chunk := if want <? chunk then want else chunk in
    let '(err, buf, c) := cache_copy_sector c lba sector_off buf 0 chunk in
    if negb (err_ok err) then RdStop err buf 0 c
    else if (chunk <? want) && (lba =? UINT32_MAX) then RdStop ODFS_ERR_RANGE buf chunk c
    else RdGo buf chunk (u32 (lba + 1)) c.

(** The partial sector at the end of the request. *)
(* [src: core/cache_block.c:602-614 odfs_cache_read_bytes] *)
Definition read_tail c (buf : list Z) (want done lba : Z) : rd_step :=
  if done <? want then
    let '(err, buf, c) := cache_copy_sector c lba 0 buf done (want - done) in
    if negb (err_ok err) then RdStop err buf done c else RdGo buf want lba c
  else RdGo buf done lba c.

Definition rd_bind (s : rd_step) (k : odfs_cache M → list Z → Z → Z → rd_step)
    : rd_step :=
  match s with RdGo buf done lba c => k c buf done lba | RdStop _ _ _ _ => s end.

(** Result: error, buffer, the updated [*len], cache.  [buf] has at least [len] bytes. *)
(* [src: core/cache_block.c:497-615 odfs_cache_read_bytes] *)
Definition odfs_cache_read_bytes c (start_lba offset : Z) (buf : list Z) (len : Z)
    : odfs_err * list Z * Z * odfs_cache M :=
  if no_entries c || (sector_size c =? 0) then (ODFS_ERR_INVAL, buf, len, c)
  else if len =? 0 then (ODFS_OK, buf, len, c)
  else
    let lba64 := u64 (start_lba + Z.shiftr offset (sector_shift c)) in
    let sector_off := Z.land (u32 offset) (sector_size c - 1) in
    if UINT32_MAX <? lba64 then (ODFS_ERR_RANGE, buf, len, c)
    else
      let fuel := S (Z.to_nat len) in
      match rd_bind (rd_bind (rd_bind (read_head c buf len lba64 sector_off)
              (λ c buf done lba, read_stream_loop fuel c buf len done lba))
              (λ c buf done lba, read_sector_loop fuel c buf len done lba))
              (λ c buf done lba, read_tail c buf len done lba) with
      | RdGo buf done _ c => (ODFS_OK, buf, done, c)
      | RdStop err buf done c => (err, buf, done, c)
      end.

(* [src: core/cache_block.c:293-303 odfs_cache_flush] *)
Definition odfs_cache_flush c : odfs_cache M :=
  if no_entries c then c
  else
    let c := set_entries (map (set_valid false) (entries c)) c in
    let c := set_valid_count 0 c in
    let c := set_generation (u32 (generation c + 1)) c in
    cache_reset_indices c.

(* [src: core/cache_block.c:618-621 odfs_cache_get_stats] *)
Definition odfs_cache_get_stats c : odfs_cache_stats := stats c.

(** [memset(cache, 0, sizeof *cache)]; the medium is not part of the cache. *)
Definition cache_zero (m : M) : odfs_cache M :=
  mk_cache [] [] [] 0 0 0 0 0 0 0 0 0 (mk_stats 0 0 0 0 0) m None 0 0.

(* [src: core/cache_block.c:277-290 odfs_cache_destroy] *)
Definition odfs_cache_destroy c : odfs_cache M :=
  if no_entries c then c else cache_zero (media c).

(** [sector_shift]: the number of halvings down to 1. *)
(* [src: core/cache_block.c:255-263 odfs_cache_init] *)
Fixpoint shift_loop (fuel : nat) (sz shift : Z) : Z :=
  match fuel with
  | O => shift
  | S fuel => if 1 <? sz then shift_loop fuel (Z.shiftr sz 1) (shift + 1) else shift
  end.

(** [malloc k] says whether the [k]-th allocation succeeds: 0 the entries, 1 the
    buckets, 2 the links, 3 + i the data of entry [i], 3 + capacity the staging
    buffer.  Allocated bytes are modelled as zeros; nothing reads them before
    they are written. *)
(* [src: core/cache_block.c:185-275 odfs_cache_init] *)
Definition odfs_cache_init (malloc : Z → bool) (m : M) (cap : Z)
    : odfs_err * odfs_cache M :=
  let c := cache_zero m in
  if cap =? 0 then (ODFS_ERR_INVAL, c)
  else if (UINT32_MAX - 1) / 2 <? cap then (ODFS_ERR_RANGE, c)
  else
    let ss := odfs_media_sector_size ops m in
    if ss =? 0 then (ODFS_ERR_INVAL, c)
    else if negb (malloc 0) then (ODFS_ERR_NOMEM, c)
    else if negb (malloc 1 && malloc 2) then (ODFS_ERR_NOMEM, c)
    else if negb (forallb malloc (seqZ 3 cap)) then (ODFS_ERR_NOMEM, c)
    else
      let hs := u32 (cap * 2 + 1) in
      let buffer := replicate (Z.to_nat ss) 0 in
      let c := mk_cache (replicate (Z.to_nat cap) (set_data buffer entry_zero))
                 (replicate (Z.to_nat hs) 0) (replicate (Z.to_nat cap) 0)
                 cap hs 0 ss 0 0 0 0 0 (mk_stats 0 0 0 0 0) m None 0 0 in
      if negb (Z.land ss (ss - 1) =? 0) then (ODFS_ERR_INVAL, c)
      else
        let c := mk_cache (entries c) (buckets c) (next c) cap hs 0 ss
                   (shift_loop 32 ss 0) 0 0 0 0 (stats c) m
                   (if (4 * ODFS_CACHE_READAHEAD <=? cap) && malloc (3 + cap)
                    then Some (replicate (Z.to_nat (ODFS_CACHE_READAHEAD * ss)) 0) else None)
                   0 0 in
        (ODFS_OK, cache_reset_indices c).
End cache.
Arguments RdGo {M}.
Arguments RdStop {M}.
