(* ===== verification/BlockCacheProofs.v ===== *)
(** * Correctness of the block cache

    [cache_inv c lru free out] is the invariant: [lru] lists the indexed entries
    from the most to the least recently used, [free] the unused ones in the order
    the free list gives them out, and [out] the entry an operation has unlinked
    and not yet linked back ([[]] between operations).  The abstract state is the
    list of cached sectors in LRU order, [cached_lbas]; an operation is described
    by what it does to that list and to the sector data. *)
From S2P Require Import Prelude Types Links Media BlockCache.
Open Scope Z_scope.

Abbreviation gete es i := (default entry_zero (zget es i)).
Abbreviation pvf es := (λ i, lru_prev (gete es i)).
Abbreviation nxf es := (λ i, lru_next (gete es i)).

Lemma gete_zupd es j f i :
  0 ≤ j < zlen es → gete (zupd es j f) i = if i =? j then f (gete es i) else gete es i.
Proof.
  intros Hj. case_test; b2p.
  - subst i. rewrite zget_zupd_eq. by destruct (zget_is_Some _ _ Hj) as [e ->].
  - by rewrite zget_zupd_ne.
Qed.
Lemma get_link_zset l j v i :
  0 ≤ j < zlen l → get_link (zset l j v) i = fupd (get_link l) j v i.
Proof.
  intros Hj. unfold get_link, fupd. case_test; b2p.
  - subst i. by rewrite zget_zset_eq.
  - by rewrite zget_zset_ne.
Qed.

(** ** The LRU list *)
Record lru_ok (es : list odfs_cache_entry) (lh lt : Z) (l : list Z) : Prop := {
  lo_nodup : NoDup l;
  lo_range : ∀ i, i ∈ l → 0 ≤ i < zlen es;
  lo_dll : dll (pvf es) (nxf es) (-1) l (-1);
  lo_head : lh = hd (-1) l;
  lo_tail : lt = default (-1) (last l) }.

(** Only links differ. *)
Definition same_body (es es' : list odfs_cache_entry) : Prop :=
  length es' = length es ∧
  ∀ i, e_lba (gete es' i) = e_lba (gete es i) ∧ valid (gete es' i) = valid (gete es i) ∧
       data (gete es' i) = data (gete es i).
#[export] Instance same_body_preorder : PreOrder same_body.
Proof.
  split; [by intros es|]. intros a b c [H1 H2] [H3 H4]. split; [congruence|].
  intros i. destruct (H2 i) as (? & ? & ?), (H4 i) as (? & ? & ?). split_and!; congruence.
Qed.
Lemma same_body_zupd es j f :
  0 ≤ j < zlen es →
  (∀ e, e_lba (f e) = e_lba e ∧ valid (f e) = valid e ∧ data (f e) = data e) →
  same_body es (zupd es j f).
Proof.
  intros Hj Hf. split; [apply zlen_zupd|]. intros i. rewrite gete_zupd by done.
  case_test; [apply Hf|done].
Qed.
#[export] Hint Extern 1 (∀ e, e_lba _ = e_lba e ∧ _) => done : odfs.

Lemma last_or_nil {A} (l : list A) : l = [] ∨ ∃ l' x, l = l' ++ [x].
Proof. induction l using rev_ind; [by left|right; by eexists _, _]. Qed.

Section lru.
Context {M : Type}.
Implicit Types c : odfs_cache M.


(** Unlinking leaves the two halves joined. *)
Lemma dll_unlink pv nx pv' nx' a i b :
  NoDup (a ++ i :: b) → dll pv nx (-1) (a ++ i :: b) (-1) →
  (∀ j, j ∈ a ++ b →
     nx' j = match last a with Some p => fupd nx p (nx i) j | None => nx j end ∧
     pv' j = match b with n :: _ => fupd pv n (pv i) j | [] => pv j end) →
  dll pv' nx' (-1) (a ++ b) (-1).
Proof.
  intros Hnd. rewrite !dll_app. simpl. intros (Ha & Hp & Hn & Hb) Hx.
  apply NoDup_app in Hnd as (Hna & Hab & [Hib Hnb]%NoDup_cons). rewrite <- Hn. split.
  - eapply dll_ext, (dll_close_next _ _ _ _ (nx i) Hna Ha). intros j Hj.
    destruct (Hx j) as [-> ->]; [set_solver|].
    split; [|by destruct (last a)]. destruct b as [|n b]; [done|].
    apply fupd_ne. intros ->. set_solver.
  - eapply dll_ext, (dll_close_prev _ _ _ (default (-1) (last a)) _ _ Hnb Hb). intros j Hj.
    destruct (Hx j) as [-> ->]; [set_solver|].
    split; [by destruct b; rewrite ?Hp|]. destruct (last a) as [p|] eqn:E; [|done].
    apply fupd_ne. intros ->. apply last_Some in E as [a' ->]. set_solver.
Qed.

(** What [cache_lru_remove] does to entry [j]. *)
Definition unlink_entry (p n : option Z) (prev nxt i j : Z) (e : odfs_cache_entry)
    : odfs_cache_entry :=
  let e := if p is Some p then if j =? p then set_next nxt e else e else e in
  let e := if n is Some n then if j =? n then set_prev prev e else e else e in
  if j =? i then set_next (-1) (set_prev (-1) e) else e.

Lemma lru_unlinked es es' lh lt a i b :
  lru_ok es lh lt (a ++ i :: b) → length es' = length es →
  (∀ j, gete es' j =
     unlink_entry (last a) (head b) (pvf es i) (nxf es i) i j (gete es j)) →
  lru_ok es' (match last a with Some _ => lh | None => nxf es i end)
    (match head b with Some _ => lt | None => pvf es i end) (a ++ b) ∧
  same_body es es' ∧ (∀ j, j ∉ a ++ i :: b → gete es' j = gete es j).
Proof.
  intros [Hnd Hr Hd Hh Ht] Hlen Hj.
  pose proof (proj1 (dll_app _ _ _ _ _ _) Hd) as (_ & Hp & Hn & _).
  assert (Hnd' : NoDup (i :: a ++ b)) by by rewrite Permutation_middle.
  apply NoDup_cons in Hnd' as [Hi Hnd'].
  split_and!; [split| |].
  - done.
  - intros j Hin. rewrite Hlen. apply Hr. set_solver.
  - eapply dll_unlink; [done..|].
    intros j Hin. rewrite Hj. unfold unlink_entry. 
    rewrite (proj2 (Z.eqb_neq j i)) by (intros ->; done).
    unfold fupd. destruct (last a), b; simpl; repeat case_test; done.
  - rewrite Hn. subst lh. destruct a; [done|]. rewrite last_cons. by destruct (last a).
  - subst lt. rewrite Hp, !last_app. destruct b as [|n b]; simpl; [done|].
    rewrite last_cons. by destruct (last b).
  - split; [done|]. intros j. rewrite Hj. unfold unlink_entry.
    by repeat case_match.
  - intros j Hin. rewrite Hj. unfold unlink_entry.
    rewrite (proj2 (Z.eqb_neq j i)) by (intros ->; set_solver).
    destruct (last a) eqn:E; [apply last_Some in E as [a' ->]; rewrite (proj2 (Z.eqb_neq j _)) by (intros ->; set_solver)|].
    all: destruct b; simpl; [done|]; rewrite (proj2 (Z.eqb_neq j _)) by (intros ->; set_solver); done.
Qed.

Lemma lru_remove_ok c a i b :
  zlen (entries c) = capacity c →
  lru_ok (entries c) (lru_head c) (lru_tail c) (a ++ i :: b) →
  ∃ es lh lt,
    cache_lru_remove c i = set_lists es (free_head c) lh lt c ∧
    lru_ok es lh lt (a ++ b) ∧ same_body (entries c) es ∧
    (∀ j, j ∉ a ++ i :: b → gete es j = gete (entries c) j).
Proof.
  intros Hlen Hok.
  pose proof Hok as [Hnd Hr Hd Hh Ht].
  assert (Hi : 0 ≤ i < zlen (entries c)) by (apply Hr; set_solver).
  pose proof (proj1 (dll_app _ _ _ _ _ _) Hd) as (_ & Hp & Hn & _).
  unfold cache_lru_remove.
  replace (no_entries c) with false by (unfold no_entries; destruct (entries c); simpl in *; [lia|done]).
  rewrite (proj2 (Z.leb_gt _ _)) by lia. simpl. unfold get_entry.
  pose proof (lru_unlinked (entries c)) as Hu. simpl in Hp, Hn.
  destruct (if 0 <=? lru_prev (gete (entries c) i) then _ else _) as [es1 lh] eqn:E1.
  destruct (if 0 <=? lru_next (gete (entries c) i) then _ else _) as [es2 lt] eqn:E2.
  eexists _, _, _. split; [done|].
  assert (Hpr : ∀ p, last a = Some p → 0 ≤ p < zlen (entries c)).
  { intros p [a' ->]%last_Some. apply Hr. set_solver. }
  assert (Hnr : ∀ n, head b = Some n → 0 ≤ n < zlen (entries c)).
  { intros n Hb. apply Hr. destruct b; [done|]. injection Hb as ->. set_solver. }
  assert (es1 = match last a with
      Some p => zupd (entries c) p (set_next (nxf (entries c) i)) | None => entries c end ∧
    lh = match last a with Some _ => lru_head c | None => nxf (entries c) i end) as [-> ->].
  { revert E1. rewrite Hp. destruct (last a) as [p|] eqn:E; simpl.
    - rewrite (proj2 (Z.leb_le _ _)) by (by apply Hpr). by intros [= <- <-].
    - apply last_None in E as ->. rewrite Hh. simpl. rewrite Z.eqb_refl. by intros [= <- <-]. }
  set (es1 := match last a with Some _ => _ | None => _ end) in *.
  assert (es2 = match head b with
      Some n => zupd es1 n (set_prev (pvf (entries c) i)) | None => es1 end ∧
    lt = match head b with Some _ => lru_tail c | None => pvf (entries c) i end) as [-> ->].
  { revert E2. rewrite Hn. destruct b as [|n b]; simpl.
    - rewrite Ht, last_app. simpl. rewrite Z.eqb_refl. by intros [= <- <-].
    - rewrite (proj2 (Z.leb_le _ _)) by (by apply Hnr). by intros [= <- <-]. }
  subst es1. apply Hu; [done| |]; clear Hu E1 E2 Hnd Hd Hok.
  - destruct (head b), (last a); by rewrite ?zlen_zupd.
  - intros j. rewrite gete_zupd by (destruct (head b), (last a); rewrite ?zlen_zupd; lia).
    unfold unlink_entry. destruct (last a) as [p|], (head b) as [n|];
      rewrite ?gete_zupd by (rewrite ?zlen_zupd; auto); repeat case_match; done.
Qed.

Lemma lru_insert_head_ok c i l :
  zlen (entries c) = capacity c → 0 ≤ i < capacity c → i ∉ l →
  lru_ok (entries c) (lru_head c) (lru_tail c) l →
  ∃ es lh lt,
    cache_lru_insert_head c i = set_lists es (free_head c) lh lt c ∧
    lru_ok es lh lt (i :: l) ∧ same_body (entries c) es ∧
    (∀ j, j ∉ i :: l → gete es j = gete (entries c) j).
Proof.
  intros Hlen Hi Hil [Hnd Hr Hd Hh Ht]. unfold cache_lru_insert_head.
  replace (no_entries c) with false by (unfold no_entries; destruct (entries c); simpl in *; [lia|done]).
  rewrite (proj2 (Z.leb_gt _ _)) by lia. simpl.
  destruct l as [|h l]; rewrite Hh; cbn [hd].
  - eexists _, _, _. split; [done|].
    assert (Hg := gete_zupd (entries c) i (λ e, set_next (-1) (set_prev (-1) e))).
    split_and!; [split| |]; rewrite ?zlen_zupd.
    + apply NoDup_singleton.
    + intros j ->%list_elem_of_singleton. lia.
    + simpl. rewrite Hg, Z.eqb_refl by lia. done.
    + done.
    + done.
    + apply same_body_zupd; [lia|done].
    + intros j Hj. rewrite Hg by lia. case_test; b2p; [set_solver|done].
  - assert (Hhr : 0 ≤ h < zlen (entries c)) by (apply Hr; set_solver).
    assert (Hhi : i ≠ h) by set_solver.
    rewrite (proj2 (Z.leb_le _ _)) by lia.
    eexists _, _, _. split; [done|].
    set (es := zupd (zupd _ _ _) _ _).
    assert (Hg : ∀ j, gete es j =
      let e := if j =? i then set_next h (set_prev (-1) (gete (entries c) j))
               else gete (entries c) j in
      if j =? h then set_prev i e else e).
    { intros j. subst es. cbn zeta. rewrite !gete_zupd by (rewrite ?zlen_zupd; lia).
      by repeat case_match. }
    assert (Hl : length es = length (entries c)) by (subst es; by rewrite !zlen_zupd).
    clearbody es. split_and!; [split| |].
    + by constructor.
    + intros j [->|?]%elem_of_cons; rewrite Hl; [lia|auto].
    + pose proof (dll_set_prev _ _ _ i _ _ _ Hnd Hd) as Hd'.
      split_and!; [rewrite Hg, (proj2 (Z.eqb_neq i h) Hhi), Z.eqb_refl; done..|].
      eapply dll_ext, Hd'. intros j Hj. rewrite Hg. unfold fupd.
      rewrite (proj2 (Z.eqb_neq j i)) by (intros ->; done). by case_match.
    + done.
    + by rewrite Ht, last_cons_default, (last_cons_default (-1)), last_cons_default.
    + split; [done|]. intros j. rewrite Hg. by repeat case_match.
    + intros j [Hj1 Hj2]%not_elem_of_cons. rewrite Hg.
      rewrite (proj2 (Z.eqb_neq j i)), (proj2 (Z.eqb_neq j h)) by set_solver. done.
Qed.
End lru.

(** ** The invariant *)
Section invariant.
Context {M : Type}.
Implicit Types c : odfs_cache M.

Definition entry_lba c (i : Z) : Z := e_lba (get_entry c i).

(** The bucket chains hold exactly the entries [l], each in its bucket. *)
Definition buckets_ok c (l : list Z) : Prop :=
  ∀ b, 0 ≤ b < hash_size c → ∃ ch,
    chain (get_link (next c)) (get_link (buckets c) b) ch ∧ NoDup ch ∧
    ∀ i, i ∈ ch ↔ i ∈ l ∧ cache_hash_lba c (entry_lba c i) = b.

Record cache_inv c (lru free out : list Z) : Prop := {
  ci_cap : 0 < capacity c < 2 ^ 31;
  ci_entries : zlen (entries c) = capacity c;
  ci_next : zlen (next c) = capacity c;
  ci_hash : 0 < hash_size c;
  ci_buckets : zlen (buckets c) = hash_size c;
  ci_ss : 0 < sector_size c;
  ci_data : ∀ i, 0 ≤ i < capacity c → zlen (cache_data c i) = sector_size c;
  ci_perm : lru ++ free ++ out ≡ₚ seqZ 0 (capacity c);
  ci_valid : ∀ i, i ∈ lru → valid (get_entry c i) = true;
  ci_invalid : ∀ i, i ∈ free → valid (get_entry c i) = false;
  ci_count : valid_count c = zlen lru + zlen out;
  ci_lru : lru_ok (entries c) (lru_head c) (lru_tail c) lru;
  ci_free : chain (nxf (entries c)) (free_head c) free;
  ci_bucket : buckets_ok c lru;
  ci_lbas : NoDup (map (entry_lba c) lru);
  ci_generation : is_u32 (generation c);
  ci_stream : ∀ buf, stream_buf c = Some buf →
    zlen buf = ODFS_CACHE_READAHEAD * sector_size c }.

(** Between operations no entry is detached. *)
Definition cache_wf c : Prop := ∃ lru free, cache_inv c lru free [].

(** The bookkeeping fields play no part in the invariant. *)
Lemma inv_set_stats v c lru free out : cache_inv c lru free out → cache_inv (set_stats v c) lru free out.
Proof. intros []; by split. Qed.
Lemma inv_set_clock v c lru free out : cache_inv c lru free out → cache_inv (set_clock v c) lru free out.
Proof. intros []; by split. Qed.
Lemma inv_set_media v c lru free out : cache_inv c lru free out → cache_inv (set_media v c) lru free out.
Proof. intros []; by split. Qed.
Lemma inv_set_last_miss v c lru free out :
  cache_inv c lru free out → cache_inv (set_last_miss v c) lru free out.
Proof. intros []; by split. Qed.
Lemma inv_set_generation v c lru free out : is_u32 v →
  cache_inv c lru free out → cache_inv (set_generation v c) lru free out.
Proof. intros ? []; by split. Qed.
Lemma inv_set_stream buf c lru free out :
  zlen buf = ODFS_CACHE_READAHEAD * sector_size c →
  cache_inv c lru free out → cache_inv (set_stream (Some buf) c) lru free out.
Proof. intros ? []; split; try done. by intros ? [= <-]. Qed.

Section facts.
Context c lru free out (Hinv : cache_inv c lru free out).

Lemma inv_range i : i ∈ lru ++ free ++ out → 0 ≤ i < capacity c.
Proof. rewrite (ci_perm _ _ _ _ Hinv), elem_of_seqZ. lia. Qed.
Lemma inv_nodup : NoDup (lru ++ free ++ out).
Proof. rewrite (ci_perm _ _ _ _ Hinv). apply NoDup_seqZ. Qed.
Lemma inv_length : (length lru + length free + length out = Z.to_nat (capacity c))%nat.
Proof.
  pose proof (Permutation_length (ci_perm _ _ _ _ Hinv)) as H.
  rewrite !length_app, length_seqZ in H. lia.
Qed.
Lemma inv_no_entries : no_entries c = false.
Proof.
  pose proof (ci_cap _ _ _ _ Hinv). pose proof (ci_entries _ _ _ _ Hinv).
  unfold no_entries. destruct (entries c); simpl in *; [lia|done].
Qed.
Lemma inv_no_index : no_index c = false.
Proof.
  pose proof (ci_cap _ _ _ _ Hinv). pose proof (ci_next _ _ _ _ Hinv).
  pose proof (ci_hash _ _ _ _ Hinv). pose proof (ci_buckets _ _ _ _ Hinv).
  unfold no_index. destruct (buckets c), (next c); simpl in *; [lia..|done].
Qed.
Lemma hash_range lba : 0 ≤ cache_hash_lba c lba < hash_size c.
Proof.
  pose proof (ci_hash _ _ _ _ Hinv). unfold cache_hash_lba.
  rewrite (proj2 (Z.eqb_neq _ _)) by lia. apply Z.mod_pos_bound. lia.
Qed.
Lemma chain_fuel ch : NoDup ch → (∀ i, i ∈ ch → i ∈ lru) → (length ch < S (length (entries c)))%nat.
Proof.
  intros Hnd Hin. pose proof (submseteq_length _ _ (NoDup_submseteq _ lru Hnd Hin)).
  pose proof inv_length. pose proof (ci_entries _ _ _ _ Hinv). pose proof (ci_cap _ _ _ _ Hinv). lia.
Qed.
Lemma lba_inj i j : i ∈ lru → j ∈ lru → entry_lba c i = entry_lba c j → i = j.
Proof.
  intros [ki Hi]%list_elem_of_lookup [kj Hj]%list_elem_of_lookup He.
  assert (ki = kj) as ->; [|congruence].
  apply (NoDup_lookup _ _ _ (entry_lba c i) (ci_lbas _ _ _ _ Hinv));
    rewrite list_lookup_fmap, ?Hi, ?Hj; simpl; congruence.
Qed.

Lemma find_loop_spec fuel lba h ch :
  chain (get_link (next c)) h ch → (length ch < fuel)%nat → (∀ i, i ∈ ch → i ∈ lru) →
  let r := cache_find_loop fuel c lba h in
  (r ∈ ch ∧ 0 ≤ r ∧ entry_lba c r = lba) ∨ (r = -1 ∧ ∀ i, i ∈ ch → entry_lba c i ≠ lba).
Proof.
  revert h ch. induction fuel as [|fuel IH]; intros h ch Hc Hf Hin; [lia|].
  destruct ch as [|i ch]; simpl in Hc |- *.
  - rewrite (proj2 (Z.ltb_lt _ _)) by done. right. split; [done|set_solver].
  - destruct Hc as (-> & Hi & Hc). rewrite (proj2 (Z.ltb_ge _ _)) by done.
    rewrite (ci_valid _ _ _ _ Hinv) by set_solver. simpl. case_test; b2p.
    + left. split_and!; [set_solver|done..].
    + destruct (IH _ _ Hc) as [(? & ? & ?)|[-> Hn]]; [simpl in *; lia|set_solver| |].
      * left. split_and!; [set_solver|done..].
      * right. split; [done|]. intros j [->|?]%elem_of_cons; auto.
Qed.

Lemma find_index_hit i : i ∈ lru → cache_find_index c (entry_lba c i) = i.
Proof.
  intros Hi. unfold cache_find_index. rewrite inv_no_index.
  rewrite (proj2 (Z.eqb_neq (hash_size c) 0)) by (pose proof (ci_hash _ _ _ _ Hinv); lia).
  destruct (ci_bucket _ _ _ _ Hinv _ (hash_range (entry_lba c i))) as (ch & Hc & Hnd & Hm).
  edestruct (find_loop_spec (S (length (entries c))) (entry_lba c i)) as [(Hr & _ & He)|[_ Hn]];
    [exact Hc|apply chain_fuel; [done|]; by intros j [? _]%Hm|by intros j [? _]%Hm| |].
  - apply lba_inj; [by apply Hm in Hr as []|done|done].
  - destruct (Hn i); [|done]. by apply Hm.
Qed.

Lemma find_index_miss lba : lba ∉ map (entry_lba c) lru → cache_find_index c lba = -1.
Proof.
  intros Hi. unfold cache_find_index. rewrite inv_no_index.
  rewrite (proj2 (Z.eqb_neq (hash_size c) 0)) by (pose proof (ci_hash _ _ _ _ Hinv); lia).
  destruct (ci_bucket _ _ _ _ Hinv _ (hash_range lba)) as (ch & Hc & Hnd & Hm).
  edestruct (find_loop_spec (S (length (entries c))) lba) as [(Hr & _ & He)|[? _]];
    [exact Hc|apply chain_fuel; [done|]; by intros j [? _]%Hm|by intros j [? _]%Hm| |done].
  destruct Hi. apply list_elem_of_fmap. eexists. split; [done|]. by apply Hm in Hr as [].
Qed.

(** The lookup decides membership of the cached sectors. *)
Lemma find_index_spec lba :
  (∃ i, cache_find_index c lba = i ∧ 0 ≤ i ∧ i ∈ lru ∧ entry_lba c i = lba) ∨
  (cache_find_index c lba = -1 ∧ lba ∉ map (entry_lba c) lru).
Proof.
  destruct (decide (lba ∈ map (entry_lba c) lru)) as [Hi|Hi].
  - left. apply list_elem_of_fmap in Hi as (i & -> & Hi). exists i.
    split_and!; [by apply find_index_hit| |done|done]. apply inv_range. set_solver.
  - right. split; [by apply find_index_miss|done].
Qed.
End facts.

(** *** The bucket chains *)

(** The walk finds [v] after the links [d]; [prev] is the link before [cur]. *)
Lemma remove_loop_eq fuel c bucket v prev cur d r :
  chain (get_link (next c)) cur (d ++ v :: r) → (length (d ++ v :: r) < fuel)%nat → v ∉ d →
  cache_remove_loop fuel c bucket v prev cur =
  let after := get_link (next c) v in
  if 0 <=? default prev (last d)
  then set_chains (buckets c) (zset (zset (next c) (default prev (last d)) after) v (-1)) c
  else set_chains (zset (buckets c) bucket after) (zset (next c) v (-1)) c.
Proof.
  revert prev cur d. induction fuel as [|fuel IH]; intros prev cur d Hc Hf Hv; [lia|].
  destruct d as [|x d]; simpl in Hc; destruct Hc as (-> & ? & Hc); simpl.
  - rewrite (proj2 (Z.ltb_ge _ _)), Z.eqb_refl by done. done.
  - apply not_elem_of_cons in Hv as [Hx Hv].
    rewrite (proj2 (Z.ltb_ge _ _)), (proj2 (Z.eqb_neq x v)) by congruence.
    rewrite (IH x _ d); [|done|simpl in *; lia|done].
    pose proof (last_cons_default prev x d) as Hl. simpl in Hl. by rewrite Hl.
Qed.

Lemma chain_range c h ch i : zlen (next c) = capacity c →
  chain (get_link (next c)) h ch → i ∈ ch → 0 ≤ i.
Proof.
  intros Hn. revert h. induction ch as [|j ch IH]; intros h; simpl; [set_solver|].
  intros (-> & ? & Hc) [->|?]%elem_of_cons; [done|]. by eapply IH.
Qed.

(** Only the chains differ. *)
Definition rechained c c' : Prop :=
  ∃ bk nx, c' = set_chains bk nx c ∧ length bk = length (buckets c) ∧ length nx = length (next c).

Lemma remove_index_chain c b v d r :
  no_index c = false → 0 ≤ b < zlen (buckets c) → zlen (next c) = capacity c →
  cache_hash_lba c (entry_lba c v) = b →
  chain (get_link (next c)) (get_link (buckets c) b) (d ++ v :: r) → NoDup (d ++ v :: r) →
  (length (d ++ v :: r) ≤ length (entries c))%nat →
  (∀ i, i ∈ d ++ v :: r → 0 ≤ i < capacity c) →
  let c' := cache_remove_index c v in
  rechained c c' ∧
  chain (get_link (next c')) (get_link (buckets c') b) (d ++ r) ∧
  (∀ i, i ∉ d ++ v :: r → get_link (next c') i = get_link (next c) i) ∧
  (∀ b', b' ≠ b → get_link (buckets c') b' = get_link (buckets c) b').
Proof.
  intros Hni Hb Hnl Hh Hc Hnd Hlen Hr.
  apply NoDup_app in Hnd as Hnd'. destruct Hnd' as (_ & Hd & [Hvr _]%NoDup_cons).
  assert (Hvd : v ∉ d) by (intros ?%Hd; set_solver).
  unfold cache_remove_index. rewrite Hni, (proj2 (Z.leb_gt _ _)) by (apply Hr; set_solver).
  cbn [orb]. change (e_lba (get_entry c v)) with (entry_lba c v). cbv zeta. rewrite Hh.
  rewrite (remove_loop_eq _ _ _ _ _ _ d r); [|done|lia|done]. cbv zeta.
  destruct (last_or_nil d) as [->|(d' & p & ->)].
  - simpl in Hc |- *. destruct Hc as (Hh0 & ? & Hc). split_and!.
    + eexists _, _. split; [reflexivity|by rewrite !zlen_zset].
    + rewrite get_link_zset, fupd_eq by done. eapply chain_ext, Hc.
      intros i Hi. rewrite get_link_zset by (rewrite Hnl; apply Hr; set_solver).
      apply fupd_ne. set_solver.
    + intros i Hi. rewrite get_link_zset by (rewrite Hnl; apply Hr; set_solver).
      apply fupd_ne. set_solver.
    + intros b' Hb'. rewrite get_link_zset by done. by apply fupd_ne.
  - rewrite last_snoc. simpl. rewrite (proj2 (Z.leb_le _ _)) by (apply Hr; set_solver).
    assert (Hp : ∀ i, get_link (zset (zset (next c) p (get_link (next c) v)) v (-1)) i =
      fupd (fupd (get_link (next c)) p (get_link (next c) v)) v (-1) i).
    { intros i. rewrite get_link_zset by (rewrite zlen_zset, Hnl; apply Hr; set_solver).
      unfold fupd at 1 2. case_match; [done|].
      apply get_link_zset. rewrite Hnl; apply Hr; set_solver. }
    assert (Hvp : v ≠ p) by set_solver.
    split_and!; simpl.
    + eexists _, _. split; [reflexivity|by rewrite !zlen_zset].
    + rewrite <- app_assoc in Hc, Hnd |- *. simpl in Hc, Hnd |- *.
      eapply chain_unlink; [exact Hc|done| |].
      * by rewrite Hp, fupd_ne, fupd_eq.
      * intros i Hi. rewrite Hp, !fupd_ne; [done| |].
        -- intros <-. apply NoDup_app in Hnd as (_ & ? & [? _]%NoDup_cons). set_solver.
        -- set_solver.
    + intros i Hi. rewrite Hp, !fupd_ne; set_solver.
    + done.
Qed.

Lemma buckets_ok_remove c lru free out v l :
  cache_inv c lru free out → v ∈ lru → (∀ i, i ∈ l ↔ i ∈ lru ∧ i ≠ v) →
  rechained c (cache_remove_index c v) ∧ buckets_ok (cache_remove_index c v) l.
Proof.
  intros Hinv Hv Hl. pose proof (ci_bucket _ _ _ _ Hinv) as Hb.
  set (b0 := cache_hash_lba c (entry_lba c v)).
  assert (Hb0 : 0 ≤ b0 < hash_size c) by (by eapply hash_range).
  destruct (Hb b0 Hb0) as (ch0 & Hc0 & Hnd0 & Hm0).
  destruct (list_elem_of_split ch0 v) as (d & r & ->); [by apply Hm0|].
  destruct (remove_index_chain c b0 v d r) as (Hre & Hch & Hlk & Hbk); try done.
  - by eapply inv_no_index.
  - by rewrite (ci_buckets _ _ _ _ Hinv).
  - by apply (ci_next _ _ _ _ Hinv).
  - apply Nat.lt_succ_r. eapply chain_fuel; [done..|]. by intros i [? _]%Hm0.
  - intros i [? _]%Hm0. eapply inv_range; [done|set_solver].
  - split; [done|]. destruct Hre as (bk & nx & Hre & _). rewrite Hre in *.
    intros b Hbr. destruct (decide (b = b0)) as [->|Hbb].
    + exists (d ++ r). split_and!; [done| |].
      * rewrite <- Permutation_middle in Hnd0. by apply NoDup_cons in Hnd0 as [].
      * intros i. rewrite Hl. specialize (Hm0 i). rewrite elem_of_app, elem_of_cons in Hm0.
        rewrite elem_of_app.
        rewrite <- Permutation_middle in Hnd0. apply NoDup_cons in Hnd0 as [Hnv _].
        rewrite elem_of_app in Hnv. change (entry_lba (set_chains bk nx c) i) with (entry_lba c i).
        change (cache_hash_lba (set_chains bk nx c)) with (cache_hash_lba c).
        split; [|tauto]. intros Hi. assert (i ≠ v) by (intros ->; tauto). tauto.
    + destruct (Hb b Hbr) as (ch & Hc & Hnd & Hm). exists ch. split_and!; [|done|].
      * rewrite Hbk by done. eapply chain_ext, Hc. intros i [_ Hi]%Hm.
        apply Hlk. intros [_ Hi']%Hm0. by rewrite <- Hi in Hbb.
      * intros i. rewrite Hm, Hl. split; [|tauto]. intros [? Hi]. split_and!; [done| |done].
        intros ->. by apply Hbb.
Qed.

Lemma buckets_ok_insert c l v :
  no_index c = false → 0 ≤ v < capacity c → zlen (next c) = capacity c →
  0 < hash_size c → zlen (buckets c) = hash_size c → v ∉ l → buckets_ok c l →
  rechained c (cache_insert_index c v) ∧ buckets_ok (cache_insert_index c v) (v :: l).
Proof.
  intros Hni Hv Hn Hhs Hbl Hvl Hb. unfold cache_insert_index.
  rewrite Hni, (proj2 (Z.leb_gt _ _)) by lia. cbn [orb]. cbv zeta.
  change (e_lba (get_entry c v)) with (entry_lba c v).
  set (b0 := cache_hash_lba c (entry_lba c v)).
  assert (Hb0 : 0 ≤ b0 < hash_size c).
  { subst b0. unfold cache_hash_lba. rewrite (proj2 (Z.eqb_neq _ _)) by lia.
    apply Z.mod_pos_bound. lia. }
  set (c' := set_chains _ _ c). split; [eexists _, _; split; [done|by rewrite !zlen_zset]|].
  assert (Hlk : ∀ ch h, v ∉ ch → chain (get_link (next c)) h ch → chain (get_link (next c')) h ch).
  { intros ch h Hch. apply chain_ext. intros i Hi. simpl. rewrite get_link_zset by lia.
    apply fupd_ne. intros ->. done. }
  intros b Hbr. destruct (Hb b Hbr) as (ch & Hc & Hnd & Hm).
  assert (Hvc : v ∉ ch) by by intros [? _]%Hm.
  destruct (decide (b = b0)) as [->|Hbb].
  - exists (v :: ch). split_and!.
    + simpl. rewrite !get_link_zset, !fupd_eq by lia. split_and!; [done|lia|]. by apply Hlk.
    + by constructor.
    + intros i. rewrite !elem_of_cons, Hm.
      change (entry_lba c' i) with (entry_lba c i).
      change (cache_hash_lba c' (entry_lba c i)) with (cache_hash_lba c (entry_lba c i)).
      split; [intros [->|[? ?]]; tauto|tauto].
  - exists ch. split_and!; [|done|].
    + simpl. rewrite get_link_zset, fupd_ne by (lia || done). by apply Hlk.
    + intros i. rewrite elem_of_cons, Hm. split; [tauto|].
      intros [[->|?] Hi]; [by destruct Hbb|tauto].
Qed.

(** *** Moving entries *)

(** Links and list heads are replaced; the contents stay. *)
Lemma inv_set_lists c lru free out es fh lh lt lru' :
  cache_inv c lru free out → lru' ≡ₚ lru → same_body (entries c) es → lru_ok es lh lt lru' →
  chain (nxf es) fh free → cache_inv (set_lists es fh lh lt c) lru' free out.
Proof.
  intros Hinv Hp [Hl Hsame] Hlru Hfree.
  assert (Hlba : ∀ i, entry_lba (set_lists es fh lh lt c) i = entry_lba c i) by apply Hsame.
  destruct Hinv. split; simpl; try done.
  - congruence.
  - intros i Hi. unfold cache_data, get_entry. simpl.
    destruct (Hsame i) as (_ & _ & ->). by apply ci_data0.
  - by rewrite Hp.
  - intros i Hi. unfold get_entry. simpl. destruct (Hsame i) as (_ & -> & _).
    apply ci_valid0. by rewrite <- Hp.
  - intros i Hi. unfold get_entry. simpl. destruct (Hsame i) as (_ & -> & _). by apply ci_invalid0.
  - by rewrite Hp.
  - intros b Hb. destruct (ci_bucket0 b Hb) as (ch & Hc & Hnd & Hm).
    exists ch. split_and!; [done..|]. intros i. rewrite Hm, Hlba, Hp. done.
  - rewrite (map_ext _ _ Hlba). by rewrite Hp.
Qed.

Lemma chain_same_free c (es : list odfs_cache_entry) lru free out v :
  cache_inv c lru free out → (∀ j, j ∉ v :: lru → gete es j = gete (entries c) j) → v ∉ free →
  chain (nxf es) (free_head c) free.
Proof.
  intros Hinv Hj Hv. eapply chain_ext, (ci_free _ _ _ _ Hinv). intros i Hi.
  rewrite Hj; [done|]. intros [->|Hl]%elem_of_cons; [done|].
  pose proof (inv_nodup _ _ _ _ Hinv) as (_ & Hd & _)%NoDup_app. set_solver.
Qed.

(** A hit moves the entry to the front. *)
Lemma make_mru_ok c a i b free :
  cache_inv c (a ++ i :: b) free [] →
  cache_inv (cache_lru_make_mru c i) (i :: a ++ b) free [] ∧
  ∃ es lh lt, cache_lru_make_mru c i = set_lists es (free_head c) lh lt c ∧
    same_body (entries c) es.
Proof.
  intros Hinv. unfold cache_lru_make_mru. pose proof (ci_lru _ _ _ _ Hinv) as Hlru.
  pose proof (ci_entries _ _ _ _ Hinv) as Hlen.
  assert (Hi : 0 ≤ i < capacity c) by (eapply inv_range; [done|set_solver]).
  pose proof (inv_nodup _ _ _ _ Hinv) as Hnd.
  assert (Hif : i ∉ free).
  { apply NoDup_app in Hnd as (_ & Hd & _). specialize (Hd i). set_solver. }
  case_test; b2p.
  - rewrite (lo_head _ _ _ _ Hlru) in E. destruct a as [|x a]; simpl in *.
    + split; [done|]. exists (entries c), (lru_head c), (lru_tail c). by destruct c.
    + subst x. apply NoDup_cons in Hnd as [? _]. set_solver.
  - destruct (lru_remove_ok c a i b Hlen Hlru) as (es & lh & lt & -> & Hlru' & Hsame & Hj).
    set (c1 := set_lists es (free_head c) lh lt c).
    pose proof (proj1 Hsame) as Hl.
    destruct (lru_insert_head_ok c1 i (a ++ b)) as (es' & lh' & lt' & -> & Hlru'' & Hsame' & Hj').
    + simpl. lia.
    + done.
    + pose proof (lo_nodup _ _ _ _ Hlru) as Hn. rewrite <- Permutation_middle in Hn.
      by apply NoDup_cons in Hn as [].
    + done.
    + simpl in Hsame'. assert (Hs : same_body (entries c) es') by by transitivity es.
      split; [|by eexists _, _, _].
      apply (inv_set_lists c (a ++ i :: b)); [done|apply Permutation_middle|done|done|].
      eapply (chain_same_free c es' _ _ _ i); [done| |done].
      intros j Hjn. rewrite Hj' by set_solver. simpl. apply Hj. set_solver.
Qed.

(** *** Installing a sector *)

(** The fields only [odfs_cache_init] and the readers change. *)
Definition config c :=
  (capacity c, hash_size c, sector_size c, sector_shift c, clock c, stream_buf c, media c,
   last_miss_lba c).

Lemma inv_nodup_lru c lru free out : cache_inv c lru free out → NoDup lru.
Proof. intros H. apply (lo_nodup _ _ _ _ (ci_lru _ _ _ _ H)). Qed.

(** Unlinking an indexed entry from its bucket and from the LRU list. *)
Lemma detach_lru_ok c a v b free :
  cache_inv c (a ++ v :: b) free [] →
  let c1 := cache_lru_remove (cache_remove_index c v) v in
  cache_inv c1 (a ++ b) free [v] ∧ config c1 = config c ∧ same_body (entries c) (entries c1) ∧
  generation c1 = generation c.
Proof.
  intros Hinv. pose proof (inv_nodup_lru _ _ _ _ Hinv) as Hnd.
  assert (Hnd' : NoDup (v :: a ++ b)) by by rewrite Permutation_middle.
  apply NoDup_cons in Hnd' as [Hv Hnd'].
  destruct (buckets_ok_remove c _ _ _ v (a ++ b) Hinv) as [(bk & nx & -> & Hbl & Hnl) Hb];
    [set_solver| |].
  { intros i. rewrite !elem_of_app, elem_of_cons. rewrite elem_of_app in Hv.
    split; [|tauto]. intros Hi. assert (i ≠ v) by (intros ->; tauto). tauto. }
  pose proof (ci_entries _ _ _ _ Hinv) as Hlen.
  destruct (lru_remove_ok (set_chains bk nx c) a v b Hlen (ci_lru _ _ _ _ Hinv))
    as (es & lh & lt & -> & Hlru & Hsame & Hj). simpl.
  split_and!; [|done..].
  set (c1 := set_lists _ _ _ _ _).
  assert (Hlba : ∀ i, entry_lba c1 i = entry_lba c i) by apply Hsame.
  assert (Hfree : chain (nxf es) (free_head c) free).
  { eapply (chain_same_free c es _ _ _ v); [done| |].
    - intros j Hjn. apply Hj. set_solver.
    - pose proof (inv_nodup _ _ _ _ Hinv) as (_ & Hd & _)%NoDup_app.
      intros ?. apply (Hd v); set_solver. }
  destruct Hinv, Hsame as [Hl Hsame]. split; simpl in *; try done.
  - congruence.
  - congruence.
  - congruence.
  - intros i Hi. unfold cache_data, get_entry. simpl.
    destruct (Hsame i) as (_ & _ & ->). by apply ci_data0.
  - rewrite <- ci_perm0. rewrite app_nil_r. rewrite <- !app_assoc. solve_Permutation.
  - intros i Hi. unfold get_entry. simpl. destruct (Hsame i) as (_ & -> & _).
    apply ci_valid0. set_solver.
  - intros i Hi. unfold get_entry. simpl. destruct (Hsame i) as (_ & -> & _). by apply ci_invalid0.
  - rewrite ci_count0, !length_app. simpl. lia.
  - intros b' Hb'. destruct (Hb b' Hb') as (ch & Hc & Hn & Hm). exists ch. split_and!; [done..|].
    intros i. rewrite Hm, Hlba. done.
  - rewrite (map_ext _ _ Hlba). rewrite <- Permutation_middle in ci_lbas0.
    by apply NoDup_cons in ci_lbas0 as [].
Qed.

(** Taking the first free entry. *)
Lemma detach_free_ok c lru v free :
  cache_inv c lru (v :: free) [] →
  ∃ c0, cache_pop_free c = (v, c0) ∧
    let c1 := set_valid_count (u32 (valid_count c0 + 1)) c0 in
    cache_inv c1 lru free [v] ∧ config c1 = config c ∧ same_body (entries c) (entries c1) ∧
    generation c1 = generation c.
Proof.
  intros Hinv. pose proof (inv_nodup _ _ _ _ Hinv) as Hnd.
  assert (Hv : 0 ≤ v < capacity c) by (eapply inv_range; [done|set_solver]).
  pose proof (ci_entries _ _ _ _ Hinv) as Hlen. pose proof (inv_length _ _ _ _ Hinv) as Hl.
  destruct (ci_free _ _ _ _ Hinv) as (Hfh & _ & Hfree).
  unfold cache_pop_free. rewrite (inv_no_entries _ _ _ _ Hinv). cbv zeta.
  rewrite Hfh, (proj2 (Z.ltb_ge _ _)) by lia. eexists. split; [done|].
  set (es := zupd _ _ _). cbn [set_lists valid_count].
  assert (Hsame : same_body (entries c) es) by (apply same_body_zupd; [lia|done]).
  assert (Hx : ∀ i, i ≠ v → gete es i = gete (entries c) i).
  { intros i Hi. subst es. rewrite gete_zupd by lia. by rewrite (proj2 (Z.eqb_neq _ _)). }
  clearbody es. split_and!; [|done..].
  set (c1 := set_valid_count _ _).
  assert (Hlba : ∀ i, entry_lba c1 i = entry_lba c i) by apply Hsame.
  apply NoDup_app in Hnd as (_ & Hd & Hnf). rewrite app_nil_r in Hnf.
  apply NoDup_cons in Hnf as [Hvf Hnf].
  assert (Hvl : v ∉ lru) by (intros ?%Hd; set_solver).
  destruct Hinv, Hsame as [Hle Hsame]. destruct ci_lru0.
  split; simpl in *; try done.
  - congruence.
  - intros i Hi. unfold cache_data, get_entry. simpl.
    destruct (Hsame i) as (_ & _ & ->). by apply ci_data0.
  - rewrite <- ci_perm0. solve_Permutation.
  - intros i Hi. unfold get_entry. simpl. destruct (Hsame i) as (_ & -> & _). by apply ci_valid0.
  - intros i Hi. unfold get_entry. simpl. destruct (Hsame i) as (_ & -> & _).
    apply ci_invalid0. set_solver.
  - rewrite ci_count0, Z.add_0_r, u32_small; [done|]. unfold is_u32. lia.
  - split; simpl; [done| | |done..]; rewrite ?Hle; [done|].
    eapply dll_ext, lo_dll0. intros i Hi. rewrite Hx; [done|]. by intros ->.
  - eapply chain_ext, Hfree. intros i Hi. rewrite Hx; [done|]. by intros ->.
  - intros b Hb. destruct (ci_bucket0 b Hb) as (ch & Hc & Hn & Hm). exists ch. split_and!; [done..|].
    intros i. rewrite Hm, Hlba. done.
  - by rewrite (map_ext _ _ Hlba).
Qed.

Lemma out_not_in c lru free v :
  cache_inv c lru free [v] → 0 ≤ v < capacity c ∧ (v ∉ lru) ∧ (v ∉ free).
Proof.
  intros Hinv. pose proof (inv_nodup _ _ _ _ Hinv) as Hnd.
  split; [eapply inv_range; [done|set_solver]|].
  apply NoDup_app in Hnd as (_ & Hd & Hnd). apply NoDup_app in Hnd as (_ & Hd' & _).
  split; [intros ?%Hd|intros ?%Hd']; set_solver.
Qed.

(** Rewriting an entry that is in no list: its links may not change. *)
Lemma inv_upd_out c lru free v f :
  cache_inv c lru free [v] → (∀ e, zlen (data (f e)) = zlen (data e)) →
  cache_inv (set_entries (zupd (entries c) v f) c) lru free [v].
Proof.
  intros Hinv Hf. destruct (out_not_in _ _ _ _ Hinv) as (Hv & Hvl & Hvf).
  assert (Hlv : 0 ≤ v < zlen (entries c)) by by rewrite (ci_entries _ _ _ _ Hinv).
  assert (Hg : ∀ i, gete (zupd (entries c) v f) i = if i =? v then f (gete (entries c) i) else gete (entries c) i)
    by (intros; by apply gete_zupd).
  assert (Hgn : ∀ i, i ≠ v → gete (zupd (entries c) v f) i = gete (entries c) i).
  { intros i Hi. rewrite Hg. by rewrite (proj2 (Z.eqb_neq _ _)). }
  assert (Hl1 : length (zupd (entries c) v f) = length (entries c)) by apply zlen_zupd.
  set (es := zupd _ _ _) in *. clearbody es.
  assert (Hlba : ∀ i, i ∈ lru → entry_lba (set_entries es c) i = entry_lba c i).
  { intros i Hi. unfold entry_lba, get_entry. simpl. rewrite Hgn; [done|]. by intros ->. }
  destruct Hinv, ci_lru0. split; simpl; try done.
  - congruence.
  - intros i Hi. unfold cache_data, get_entry. simpl. rewrite Hg.
    case_match; [rewrite Hf|]; by apply ci_data0.
  - intros i Hi. unfold get_entry. simpl. rewrite Hgn; [by apply ci_valid0|by intros ->].
  - intros i Hi. unfold get_entry. simpl. rewrite Hgn; [by apply ci_invalid0|by intros ->].
  - split; simpl; rewrite ?Hl1; try done.
    eapply dll_ext, lo_dll0. intros i Hi. rewrite Hgn; [done|]. by intros ->.
  - eapply chain_ext, ci_free0. intros i Hi. rewrite Hgn; [done|]. by intros ->.
  - intros b Hb. destruct (ci_bucket0 b Hb) as (ch & Hc & Hn & Hm). exists ch. split_and!; [done..|].
    intros i. rewrite Hm. split; intros [Hi <-]; (split; [done|]); by rewrite Hlba.
  - erewrite map_ext_in; [done|]. intros i Hi. apply Hlba. by apply list_elem_of_In.
Qed.

(** Linking the detached, tagged entry in front. *)
Lemma attach_ok c lru free v :
  cache_inv c lru free [v] → valid (get_entry c v) = true →
  entry_lba c v ∉ map (entry_lba c) lru →
  let c' := cache_lru_insert_head (cache_insert_index c v) v in
  cache_inv c' (v :: lru) free [] ∧ config c' = config c ∧ generation c' = generation c ∧
  same_body (entries c) (entries c').
Proof.
  intros Hinv Hvalid Hlba. destruct (out_not_in _ _ _ _ Hinv) as (Hv & Hvl & Hvf).
  destruct (buckets_ok_insert c lru v) as [(bk & nx & -> & Hbl & Hnl) Hb];
    [by eapply inv_no_index|done|by destruct Hinv..|].
  pose proof (ci_entries _ _ _ _ Hinv) as Hlen.
  destruct (lru_insert_head_ok (set_chains bk nx c) v lru Hlen Hv Hvl (ci_lru _ _ _ _ Hinv))
    as (es & lh & lt & -> & Hlru & Hsame & Hj). simpl. split_and!; [|done..].
  set (c1 := set_lists _ _ _ _ _).
  assert (Hlba1 : ∀ i, entry_lba c1 i = entry_lba c i) by apply Hsame.
  pose proof (chain_same_free c es _ _ _ v Hinv Hj Hvf) as Hfree.
  destruct Hinv, Hsame as [Hl Hsame]. split; simpl in *; try done.
  - congruence.
  - congruence.
  - congruence.
  - intros i Hi. unfold cache_data, get_entry. simpl.
    destruct (Hsame i) as (_ & _ & ->). by apply ci_data0.
  - rewrite <- ci_perm0. rewrite app_nil_r. rewrite Permutation_middle, app_assoc. solve_Permutation.
  - intros i Hi. unfold get_entry. simpl. destruct (Hsame i) as (_ & -> & _).
    apply elem_of_cons in Hi as [->|Hi]; [done|]. by apply ci_valid0.
  - intros i Hi. unfold get_entry. simpl. destruct (Hsame i) as (_ & -> & _). by apply ci_invalid0.
  - rewrite ci_count0. lia.
  - intros b' Hb'. destruct (Hb b' Hb') as (ch & Hc & Hn & Hm). exists ch. split_and!; [done..|].
    intros i. rewrite Hm, Hlba1. done.
  - rewrite Hlba1, (map_ext _ _ Hlba1). by constructor.
Qed.

(** Updates that keep tag, links and buffer size. *)
Lemma inv_upd_body c lru free out v f :
  cache_inv c lru free out → 0 ≤ v < capacity c →
  (∀ e, e_lba (f e) = e_lba e ∧ valid (f e) = valid e ∧ lru_prev (f e) = lru_prev e ∧
        lru_next (f e) = lru_next e) →
  zlen (data (f (get_entry c v))) = sector_size c →
  cache_inv (set_entries (zupd (entries c) v f) c) lru free out.
Proof.
  intros Hinv Hv Hf Hd.
  assert (Hlv : 0 ≤ v < zlen (entries c)) by by rewrite (ci_entries _ _ _ _ Hinv).
  assert (Hg : ∀ i, gete (zupd (entries c) v f) i = if i =? v then f (gete (entries c) i) else gete (entries c) i)
    by (intros; by apply gete_zupd).
  assert (Hl1 : length (zupd (entries c) v f) = length (entries c)) by apply zlen_zupd.
  assert (Hs : ∀ i, let e := gete (zupd (entries c) v f) i in let e' := gete (entries c) i in
    e_lba e = e_lba e' ∧ valid e = valid e' ∧ lru_prev e = lru_prev e' ∧ lru_next e = lru_next e').
  { intros i. cbn zeta. rewrite Hg. case_match; [apply Hf|done]. }
  destruct Hinv, ci_lru0. split; simpl; try done.
  - congruence.
  - intros i Hi. unfold cache_data, get_entry. simpl. rewrite Hg.
    case_test; b2p; [by subst i|by apply ci_data0].
  - intros i Hi. unfold get_entry. simpl. destruct (Hs i) as (_ & -> & _). by apply ci_valid0.
  - intros i Hi. unfold get_entry. simpl. destruct (Hs i) as (_ & -> & _). by apply ci_invalid0.
  - split; simpl; rewrite ?Hl1; try done. eapply dll_ext, lo_dll0. intros i _.
    destruct (Hs i) as (_ & _ & -> & ->). done.
  - eapply chain_ext, ci_free0. intros i _. by destruct (Hs i) as (_ & _ & _ & ->).
  - intros b Hb. destruct (ci_bucket0 b Hb) as (ch & Hc & Hn & Hm). exists ch. split_and!; [done..|].
    intros i. rewrite Hm. unfold entry_lba, get_entry. simpl. by destruct (Hs i) as (-> & _).
  - erewrite map_ext; [done|]. intros i. unfold entry_lba, get_entry. simpl.
    by destruct (Hs i) as (-> & _).
Qed.

(** Where the next sector goes: the first free entry, or the LRU tail. *)
Definition victim_of (lru free : list Z) (v : Z) (lru1 free1 : list Z) : Prop :=
  (free = v :: free1 ∧ lru1 = lru) ∨ (free = [] ∧ free1 = [] ∧ lru = lru1 ++ [v]).

Lemma reserve_ok c lru free :
  cache_inv c lru free [] →
  ∃ lru1 free1, victim_of lru free (cache_reserve c) lru1 free1 ∧
    lru1 = take (Z.to_nat (capacity c) - 1) lru ∧
    0 ≤ cache_reserve c < capacity c.
Proof.
  intros Hinv. pose proof (inv_length _ _ _ _ Hinv) as Hl. simpl in Hl.
  pose proof (ci_count _ _ _ _ Hinv) as Hn. simpl in Hn. pose proof (ci_cap _ _ _ _ Hinv) as Hcap.
  unfold cache_reserve. destruct free as [|v free]; simpl in Hl.
  - rewrite (proj2 (Z.ltb_ge (valid_count c) _)) by lia.
    destruct (last_or_nil lru) as [->|(l & v & ->)]; [simpl in *; lia|].
    assert (Hv : 0 ≤ v < capacity c) by (eapply inv_range; [done|set_solver]).
    rewrite (lo_tail _ _ _ _ (ci_lru _ _ _ _ Hinv)), last_snoc. simpl.
    rewrite (proj2 (Z.ltb_ge v _)), (proj2 (Z.leb_gt _ v)) by lia. simpl.
    rewrite length_app in Hl. simpl in Hl.
    exists l, []. split_and!; [by right| |lia..]. rewrite take_app_le, take_ge; [done|lia..].
  - assert (Hv : 0 ≤ v < capacity c) by (eapply inv_range; [done|set_solver]).
    rewrite (proj2 (Z.ltb_lt (valid_count c) _)) by lia.
    destruct (ci_free _ _ _ _ Hinv) as (-> & _).
    rewrite (proj2 (Z.ltb_ge v _)), (proj2 (Z.leb_gt _ v)) by lia. simpl.
    exists lru, free. split_and!; [by left| |lia..]. rewrite take_ge; [done|lia].
Qed.

Definition bump_generation (free : list Z) (g : Z) : Z :=
  match free with [] => u32 (g + 1) | _ => g end.

Lemma commit_ok c lru free v lru1 free1 lba :
  cache_inv c lru free [] → victim_of lru free v lru1 free1 →
  lba ∉ map (entry_lba c) lru1 →
  ∃ c', cache_commit c v lba = (v, c') ∧ cache_inv c' (v :: lru1) free1 [] ∧
    config c' = config c ∧ generation c' = bump_generation free (generation c) ∧
    (∀ i, entry_lba c' i = if i =? v then lba else entry_lba c i) ∧
    (∀ i, cache_data c' i = cache_data c i).
Proof.
  intros Hinv Hvic Hlba.
  assert (∃ c1, (let '(failed, c0) := if valid (get_entry c v) then
      let c := cache_remove_index c v in
      let c := cache_lru_remove c v in
      let c := set_stats (stat_evict (stats c)) c in
      (false, set_generation (u32 (generation c + 1)) c)
    else
      let '(free_idx, c) := cache_pop_free c in
      if free_idx =? v then (false, set_valid_count (u32 (valid_count c + 1)) c)
      else (true, c) in (failed, c0)) = (false, c1) ∧
    cache_inv c1 lru1 free1 [v] ∧ config c1 = config c ∧ same_body (entries c) (entries c1) ∧
    generation c1 = bump_generation free (generation c)) as (c1 & E & Hc1 & Hcfg & Hsame & Hgen).
  { destruct Hvic as [[-> ->]|(-> & -> & ->)].
    - rewrite (ci_invalid _ _ _ _ Hinv) by set_solver.
      destruct (detach_free_ok _ _ _ _ Hinv) as (c0 & -> & H1 & H2 & H3 & H4).
      rewrite Z.eqb_refl. by eexists.
    - rewrite (ci_valid _ _ _ _ Hinv) by set_solver.
      destruct (detach_lru_ok _ _ _ _ _ Hinv) as (H1 & H2 & H3 & H4).
      rewrite app_nil_r in H1. eexists. split; [done|].
      split_and!; [by apply inv_set_generation, inv_set_stats; [apply u32_range|]|done|done|]. simpl. by rewrite H4. }
  unfold cache_commit. destruct (if valid (get_entry c v) then _ else _) as [failed c0].
  injection E as -> ->. cbn iota. clear Hinv Hvic.
  destruct (out_not_in _ _ _ _ Hc1) as (Hv & Hvl & Hvf).
  set (c2 := set_entries _ c1).
  assert (Hg : ∀ i, get_entry c2 i =
    if i =? v then set_tag lba (clock c1) (get_entry c1 i) else get_entry c1 i).
  { intros i. apply gete_zupd. by rewrite (ci_entries _ _ _ _ Hc1). }
  assert (Hlba2 : ∀ i, entry_lba c2 i = if i =? v then lba else entry_lba c i).
  { intros i. unfold entry_lba. rewrite Hg. case_match; [done|]. apply Hsame. }
  destruct (attach_ok c2 lru1 free1 v) as (H1 & H2 & H3 & H4).
  - by apply inv_upd_out.
  - by rewrite Hg, Z.eqb_refl.
  - rewrite Hlba2, Z.eqb_refl. erewrite map_ext_in; [exact Hlba|]. intros i Hi. simpl.
    rewrite Hlba2, (proj2 (Z.eqb_neq i v)); [done|]. intros ->. by apply Hvl, list_elem_of_In.
  - eexists. split; [done|]. split_and!.
    + by apply inv_set_stats.
    + transitivity (config c2); [apply H2|apply Hcfg].
    + transitivity (generation c2); [apply H3|apply Hgen].
    + intros i. rewrite <- Hlba2. apply H4.
    + intros i. transitivity (cache_data c2 i); [apply H4|].
      unfold cache_data. rewrite Hg. transitivity (data (get_entry c1 i)); [by case_match|]. apply Hsame.
Qed.

(** Copying a sector in: the cache forgets at most its least recent sector. *)
Lemma install_ok c lru free lba src :
  cache_inv c lru free [] → zlen src = sector_size c →
  lba ∉ map (entry_lba c) lru →
  ∃ v lru1 free1 c', cache_install c lba src = (v, c') ∧ 0 ≤ v < capacity c ∧
    victim_of lru free v lru1 free1 ∧
    lru1 = take (Z.to_nat (capacity c) - 1) lru ∧
    cache_inv c' (v :: lru1) free1 [] ∧
    config c' = config c ∧ generation c' = bump_generation free (generation c) ∧
    (∀ i, entry_lba c' i = if i =? v then lba else entry_lba c i) ∧
    (∀ i, cache_data c' i = if i =? v then src else cache_data c i).
Proof.
  intros Hinv Hsrc Hlba. destruct (reserve_ok _ _ _ Hinv) as (lru1 & free1 & Hvic & Hl1 & Hr).
  unfold cache_install. rewrite (proj2 (Z.ltb_ge _ _)) by lia.
  set (v := cache_reserve c) in *. set (c1 := set_entries _ c).
  pose proof (ci_data _ _ _ _ Hinv v Hr) as Hd.
  assert (Hsp : splice (cache_data c v) 0 src = src).
  { unfold splice. simpl. rewrite drop_ge by lia. by rewrite app_nil_r. }
  assert (Hg : ∀ i, get_entry c1 i = if i =? v then set_data src (get_entry c i) else get_entry c i).
  { intros i. unfold c1. rewrite Hsp. apply gete_zupd. by rewrite (ci_entries _ _ _ _ Hinv). }
  assert (Hlba1 : ∀ i, entry_lba c1 i = entry_lba c i).
  { intros i. unfold entry_lba. rewrite Hg. by case_match. }
  destruct (commit_ok c1 lru free v lru1 free1 lba) as (c' & H1 & H2 & H3 & H4 & H5 & H6).
  - apply inv_upd_body; try done. by rewrite Hsp.
  - done.
  - rewrite (map_ext _ _ Hlba1). intros Hin. apply Hlba.
    rewrite Hl1 in Hin. apply list_elem_of_fmap in Hin as (i & -> & Hi).
    apply list_elem_of_fmap. exists i. split; [done|]. by eapply subseteq_take.
  - exists v, lru1, free1, c'. split_and!; try done; try lia.
    + intros i. by rewrite H5, Hlba1.
    + intros i. rewrite H6. unfold cache_data. rewrite Hg. by case_match.
Qed.

(** ** The abstract state *)

(** The entries in LRU order, and the sectors they hold. *)
Fixpoint lru_walk (fuel : nat) c (i : Z) : list Z :=
  match fuel with
  | O => []
  | S fuel => if i <? 0 then [] else i :: lru_walk fuel c (lru_next (get_entry c i))
  end.
Definition cached_lbas c : list Z :=
  map (entry_lba c) (lru_walk (length (entries c)) c (lru_head c)).

Lemma lru_walk_dll c l p fuel :
  (length l ≤ fuel)%nat → dll (pvf (entries c)) (nxf (entries c)) p l (-1) →
  (∀ i, i ∈ l → 0 ≤ i) → lru_walk fuel c (hd (-1) l) = l.
Proof.
  revert p l. induction fuel as [|fuel IH]; intros p [|i l] Hf Hd Hr; simpl in *; try (done || lia).
  destruct Hd as (_ & Hn & Hd). rewrite (proj2 (Z.ltb_ge _ _)) by (apply Hr; set_solver).
  f_equal. unfold get_entry. rewrite Hn. apply (IH i); [lia|done|]. intros j Hj. apply Hr. set_solver.
Qed.
Lemma lru_walk_eq c lru free out :
  cache_inv c lru free out → lru_walk (length (entries c)) c (lru_head c) = lru.
Proof.
  intros Hinv. pose proof (ci_lru _ _ _ _ Hinv) as [_ Hr Hd -> _].
  pose proof (inv_length _ _ _ _ Hinv) as Hl. pose proof (ci_entries _ _ _ _ Hinv) as He.
  eapply lru_walk_dll; [lia|done|]. intros i Hi. by apply Hr.
Qed.
Lemma cached_lbas_eq c lru free out :
  cache_inv c lru free out → cached_lbas c = map (entry_lba c) lru.
Proof. intros Hinv. unfold cached_lbas. by rewrite (lru_walk_eq _ _ _ _ Hinv). Qed.

(** Every indexed entry shows the sector of the disc it is tagged with, provided
    that [trust] holds: with [False] the lemmas below describe a cache whose
    contents nothing is known about. *)
Definition shows (trust : Prop) (img : Z → list Z) c (lru : list Z) : Prop :=
  trust → ∀ i, i ∈ lru → cache_data c i = img (entry_lba c i).
(** Pointers handed out before stay valid. *)
Definition stable c (lru : list Z) c' (lru' : list Z) : Prop :=
  ∀ i, i ∈ lru → i ∈ lru' ∧ entry_lba c' i = entry_lba c i ∧ cache_data c' i = cache_data c i.
(** At most [n] evictions, each counted by the generation; an evicted entry is
    reused at once, so pointers keep pointing to indexed entries. *)
Definition tracks (n : Z) c (lru : list Z) c' (lru' : list Z) : Prop :=
  lru ⊆ lru' ∧ ∃ k, 0 ≤ k ≤ n ∧ generation c' = u32 (generation c + k) ∧ (k = 0 → stable c lru c' lru').

Lemma tracks_trans n m c l c1 l1 c2 l2 :
  tracks n c l c1 l1 → tracks m c1 l1 c2 l2 → tracks (n + m) c l c2 l2.
Proof.
  intros (Hin & k & Hk & Hg & Hs) (Hin' & k' & Hk' & Hg' & Hs').
  split; [set_solver|]. exists (k + k'). split_and!; [lia..| |].
  - rewrite Hg', Hg. unfold u32. rewrite Zplus_mod_idemp_l. f_equal. lia.
  - intros ?. intros i Hi. destruct (Hs ltac:(lia) i Hi) as (H1 & H2 & H3).
    destruct (Hs' ltac:(lia) i H1) as (H4 & H5 & H6). split_and!; congruence.
Qed.
Lemma tracks_same n c l c' l' :
  0 ≤ n → is_u32 (generation c) → generation c' = generation c → stable c l c' l' → tracks n c l c' l'.
Proof.
  intros ? ? Hg Hs. split; [intros i Hi; by apply Hs|].
  exists 0. split_and!; [lia..| |done]. by rewrite Z.add_0_r, u32_small.
Qed.

Lemma take_app_take {A} (n : nat) (a b : list A) : take n (a ++ take n b) = take n (a ++ b).
Proof.
  rewrite !take_app. f_equal. rewrite take_take. f_equal. lia.
Qed.

(** [cache_install] as an operation on the abstract state. *)
Lemma install_abs trust img c lru free lba :
  cache_inv c lru free [] → zlen (img lba) = sector_size c → lba ∉ map (entry_lba c) lru →
  shows trust img c lru →
  ∃ v l free' c', cache_install c lba (img lba) = (v, c') ∧ 0 ≤ v ∧
    cache_inv c' (v :: l) free' [] ∧ config c' = config c ∧ shows trust img c' (v :: l) ∧
    map (entry_lba c') (v :: l) = take (Z.to_nat (capacity c)) (lba :: map (entry_lba c) lru) ∧
    entry_lba c' v = lba ∧ tracks 1 c lru c' (v :: l).
Proof.
  intros Hinv Hss Hlba Hshow.
  destruct (install_ok c lru free lba (img lba) Hinv Hss Hlba)
    as (v & l & free' & c' & H1 & Hv & Hvic & Hl & Hinv' & Hcfg & Hgen & Hlbas & Hdata).
  assert (Hvl : v ∉ l) by (pose proof (inv_nodup_lru _ _ _ _ Hinv') as [? _]%NoDup_cons; done).
  assert (Hold : ∀ i, i ∈ l → i ∈ lru ∧ entry_lba c' i = entry_lba c i ∧ cache_data c' i = cache_data c i).
  { intros i Hi. rewrite Hlbas, Hdata, (proj2 (Z.eqb_neq i v)) by (intros ->; done).
    split_and!; [|done..]. destruct Hvic as [[_ ->]|(_ & _ & ->)]; set_solver. }
  assert (Hnew : entry_lba c' v = lba) by by rewrite Hlbas, Z.eqb_refl.
  exists v, l, free', c'. split_and!; try done; try lia.
  - intros Ht i [->|Hi]%elem_of_cons; [by rewrite Hnew, Hdata, Z.eqb_refl|].
    destruct (Hold i Hi) as (? & -> & ->). by apply Hshow.
  - pose proof (ci_cap _ _ _ _ Hinv). replace (Z.to_nat (capacity c)) with (S (Z.to_nat (capacity c) - 1)) by lia.
    simpl. rewrite Hnew. f_equal. rewrite <- fmap_take, <- Hl.
    apply map_ext_in. intros i Hi%list_elem_of_In. by apply Hold.
  - destruct Hvic as [[-> ->]|(-> & -> & ->)]; simpl in Hgen.
    + apply tracks_same; [lia|apply (ci_generation _ _ _ _ Hinv)|done|].
      intros i Hi. split; [set_solver|]. by apply Hold.
    + split; [set_solver|]. exists 1. split_and!; [lia..|done|lia].
Qed.
End invariant.
