(* ===== verification/BlockCacheRead.v ===== *)
(** * Reading through the block cache

    [odfs_cache_read] and [odfs_cache_read_bytes] against the disc image: what
    they return, what they leave in the cache, and which pointers survive. *)
From S2P Require Import Prelude Types Media BlockCache BlockCacheProofs.
Open Scope Z_scope.

Section read.
Context {M : Type} (ops : odfs_media_ops M) (img : Z → list Z) (ss : Z).
Context (Hmedium : MediaReads ops img ss) (trust : Prop).
Implicit Types c : odfs_cache M.

(** What no read changes. *)
Definition consts c := (capacity c, hash_size c, sector_size c, sector_shift c).

Lemma consts_config c c' : config c' = config c → consts c' = consts c.
Proof. unfold config, consts. congruence. Qed.

Lemma readahead_run_ok fuel c lru free lba run :
  cache_inv c lru free [] → 0 ≤ lba → 1 ≤ run ≤ ODFS_CACHE_READAHEAD → lba + run ≤ 2 ^ 32 →
  let r := readahead_run fuel c lba run in
  run ≤ r ≤ ODFS_CACHE_READAHEAD ∧ lba + r ≤ 2 ^ 32 ∧
  ∀ k, run ≤ k < r → lba + k ∉ map (entry_lba c) lru.
Proof.
  intros Hinv Hl. revert run. induction fuel as [|fuel IH]; intros run Hr Hm; cbn [readahead_run].
  { split_and!; lia. }
  case_test; [|split_and!; lia]. b2p.
  assert (lba + run < 2 ^ 32).
  { destruct (decide (lba + run = 2 ^ 32)) as [He|]; [|lia]. rewrite He in *.
    change (u32 (2 ^ 32)) with 0 in *. lia. }
  rewrite u32_small in * by (unfold is_u32; lia).
  destruct (IH (run + 1)) as (? & ? & Hk); [lia..|]. split_and!; [lia..|].
  intros k Hkr. destruct (decide (k = run)) as [->|]; [|apply Hk; lia].
  destruct (find_index_spec _ _ _ _ Hinv (lba + run)) as [(i & He & ? & _)|[_ ?]]; [lia|done].
Qed.

Lemma slice_disc lba n k :
  0 ≤ k < n → slice (disc_sectors img lba n) (k * ss) ss = img (lba + k).
Proof.
  intros Hk. pose proof (mr_size_pos (ops := ops)) as Hp. pose proof (mr_sector_length (ops := ops)) as Hl.
  replace n with (k + (1 + (n - k - 1))) by lia.
  rewrite !disc_sectors_app, disc_sectors_1 by lia. unfold slice.
  rewrite drop_app_length'.
  - apply take_app_length'. specialize (Hl (lba + k)). lia.
  - pose proof (length_disc_sectors img ss lba k Hl). nia.
Qed.

Lemma install_run_ok n c lru free lba buf idx :
  cache_inv c lru free [] → shows trust img c lru → sector_size c = ss →
  (∀ k, 0 ≤ k < Z.of_nat n → slice buf (k * ss) ss = img (lba + k)) →
  (∀ k, 0 ≤ k < Z.of_nat n → lba + k ∉ map (entry_lba c) lru) →
  0 ≤ lba → lba + Z.of_nat n ≤ 2 ^ 32 →
  ∃ idx' l' free' c', install_run n c lba buf idx = (idx', c') ∧
    cache_inv c' l' free' [] ∧ shows trust img c' l' ∧ config c' = config c ∧
    map (entry_lba c') l' =
      take (Z.to_nat (capacity c)) (seqZ lba (Z.of_nat n) ++ map (entry_lba c) lru) ∧
    tracks (Z.of_nat n) c lru c' l' ∧
    (n = 0%nat → idx' = idx ∧ l' = lru ∧ c' = c) ∧
    (n ≠ 0%nat → 0 ≤ idx' ∧ idx' ∈ l' ∧ entry_lba c' idx' = lba).
Proof.
  revert c lru free idx. induction n as [|n IH]; intros c lru free idx Hinv Hsh Hss Hbuf Hnew Hl Hm.
  - exists idx, lru, free, c. split_and!; try done.
    + change (seqZ lba _) with (@nil Z). simpl. rewrite take_ge; [done|]. rewrite length_fmap.
      pose proof (inv_length _ _ _ _ Hinv). simpl in *. lia.
    + apply tracks_same; try done. apply (ci_generation _ _ _ _ Hinv).
  - simpl. rewrite Hss, Hbuf by lia.
    rewrite u32_small by (unfold is_u32; lia).
    destruct (install_abs trust img c lru free (lba + Z.of_nat n))
      as (v & l1 & free1 & c1 & -> & Hv & Hinv1 & Hcfg1 & Hsh1 & Hlbas1 & Hv1 & Htr1); try done.
    { rewrite Hss. apply (mr_sector_length (ops := ops)). }
    { apply Hnew. lia. }
    rewrite (proj2 (Z.ltb_ge v 0)) by lia.
    assert (Hsub : ∀ x, x ∈ map (entry_lba c1) (v :: l1) →
      x = lba + Z.of_nat n ∨ x ∈ map (entry_lba c) lru).
    { intros x Hx. rewrite Hlbas1 in Hx. apply subseteq_take in Hx. set_solver. }
    pose proof (consts_config _ _ Hcfg1) as Hc1. injection Hc1 as Hcap1 _ Hss1 _.
    destruct (IH c1 (v :: l1) free1 v)
      as (idx' & l' & free' & c' & -> & Hinv' & Hsh' & Hcfg' & Hlbas' & Htr' & Hidx0 & Hidx); try done.
    { congruence. } { intros k Hk. apply Hbuf. lia. }
    { intros k Hk [?|Hin]%Hsub; [lia|]. apply (Hnew k); [lia|done]. } { lia. }
    exists idx', l', free', c'. split_and!; try done.
    + congruence.
    + rewrite Hlbas', Hlbas1, Hcap1, take_app_take. f_equal.
      rewrite Nat2Z.inj_succ. unfold Z.succ. rewrite seqZ_app, <- app_assoc by lia. f_equal.
    + replace (Z.of_nat (S n)) with (1 + Z.of_nat n) by lia. by eapply tracks_trans.
    + intros _. destruct (decide (n = 0)%nat) as [Hn|Hn]; [|by apply Hidx].
      destruct (Hidx0 Hn) as (-> & -> & ->). subst n.
      split_and!; [done|set_solver|]. rewrite Hv1. lia.
Qed.

Lemma read_cluster_ok c lru free lba r c' :
  cache_inv c lru free [] → shows trust img c lru → sector_size c = ss →
  0 ≤ lba < 2 ^ 32 → lba ∉ map (entry_lba c) lru →
  cache_read_cluster ops c lba = (r, c') →
  match r with
  | None => cache_inv c' lru free [] ∧ consts c' = consts c ∧ entries c' = entries c ∧
            generation c' = generation c
  | Some idx => ∃ l' free' run, cache_inv c' l' free' [] ∧ shows trust img c' l' ∧ consts c' = consts c ∧
      1 < run ≤ ODFS_CACHE_READAHEAD ∧ lba + run ≤ 2 ^ 32 ∧
      map (entry_lba c') l' = take (Z.to_nat (capacity c)) (seqZ lba run ++ map (entry_lba c) lru) ∧
      tracks ODFS_CACHE_READAHEAD c lru c' l' ∧ idx ∈ l' ∧ entry_lba c' idx = lba
  end.
Proof.
  intros Hinv Hsh Hss Hl Hnew. unfold cache_read_cluster.
  destruct (stream_buf c) as [buf|] eqn:Hbuf; [|by intros [= <- <-]].
  case_test; [|by intros [= <- <-]].
  pose proof (ci_stream _ _ _ _ Hinv _ Hbuf) as Hblen.
  destruct (readahead_run_ok (Z.to_nat ODFS_CACHE_READAHEAD) c lru free lba 1)
    as (Hrun & Hmax & Hnews); [done|lia|done|lia|].
  cbv zeta. set (run := readahead_run _ _ _ _) in *. clearbody run.
  case_test; [|by intros [= <- <-]]. b2p.
  destruct (odfs_media_read ops _ _ _ _) as [[err got] m] eqn:Hread.
  pose proof (mr_size_pos (ops := ops)) as Hp. unfold odfs_media_read in Hread.
  assert (Hsl : length (slice buf 0 (run * sector_size c)) = Z.to_nat (run * ss)).
  { rewrite Hss. apply length_slice; [lia|nia|]. rewrite Hblen, Hss. nia. }
  pose proof (mr_buffer (ops := ops) _ _ _ _ _ _ _ Hread) as Hgl.
  set (buf' := splice buf 0 got).
  assert (Hblen' : zlen buf' = ODFS_CACHE_READAHEAD * sector_size c).
  { unfold buf'. rewrite length_splice; [done|lia|]. rewrite Hgl, Hsl, Hblen, Hss. nia. }
  assert (Hinv1 : cache_inv (set_media m (set_stream (Some buf') c)) lru free [])
    by by apply inv_set_media, inv_set_stream.
  destruct (err_ok err) eqn:He; [|by intros [= <- <-]].
  destruct err; try discriminate He.
  apply (mr_read (ops := ops)) in Hread; [|lia|lia|lia|lia].
  destruct (install_run_ok (Z.to_nat run) (set_media m (set_stream (Some buf') c)) lru free lba buf' (-1))
    as (idx' & l' & free' & c1 & -> & Hinv' & Hsh' & Hcfg & Hlbas & Htr & _ & Hidx); try done.
  - rewrite Z2Nat.id by lia. intros k Hk. rewrite <- (slice_disc lba run k Hk). unfold buf', slice, splice.
    simpl. rewrite <- Hread.
    rewrite drop_app_le, take_app_le; [done| |].
    + rewrite length_drop. nia.
    + nia.
  - rewrite Z2Nat.id by lia. intros k Hk. destruct (decide (k = 0)) as [->|]; [by rewrite Z.add_0_r|].
    apply Hnews. lia.
  - lia.
  - lia.
  - destruct Hidx as (Hi & Hin & Hlba); [lia|].
    rewrite (proj2 (Z.leb_le _ _)) by lia. intros [= <- <-].
    rewrite Z2Nat.id in * by lia.
    exists l', free', run. split_and!; try done; try lia.
    + by apply inv_set_last_miss.
    + by apply consts_config in Hcfg.
    + destruct Htr as (Hin' & k & Hk & ?). split; [done|]. exists k. split; [lia|done].
Qed.

(** A failing read leaves the cache's bookkeeping as it was; its buffer may have
    been written to, unless the medium fails cleanly. *)
Definition read_failed c c' lru free : Prop :=
  cache_inv c' lru free [] ∧ consts c' = consts c ∧ generation c' = generation c ∧
  (∀ i, entry_lba c' i = entry_lba c i) ∧
  (CleanFailure ops → ∀ i, cache_data c' i = cache_data c i).

Lemma read_single_ok c lru free lba err p c' :
  cache_inv c lru free [] → shows trust img c lru → sector_size c = ss →
  0 ≤ lba < 2 ^ 32 → lba ∉ map (entry_lba c) lru →
  cache_read_single ops c lba = (err, p, c') →
  if err_ok err then ∃ l' free', cache_inv c' l' free' [] ∧ shows trust img c' l' ∧ consts c' = consts c ∧
      map (entry_lba c') l' = take (Z.to_nat (capacity c)) (lba :: map (entry_lba c) lru) ∧
      tracks 1 c lru c' l' ∧ p ∈ l' ∧ entry_lba c' p = lba
  else read_failed c c' lru free.
Proof.
  intros Hinv Hsh Hss Hl Hnew. unfold cache_read_single.
  set (c1 := set_last_miss lba c).
  assert (Hinv1 : cache_inv c1 lru free []) by by apply inv_set_last_miss.
  destruct (reserve_ok _ _ _ Hinv1) as (l1 & free1 & Hvic & Hl1 & Hr). cbv zeta.
  set (v := cache_reserve c1) in *. rewrite (proj2 (Z.ltb_ge v 0)) by lia.
  destruct (odfs_media_read ops (media c1) lba 1 (cache_data c1 v)) as [[e got] m] eqn:Hread.
  unfold odfs_media_read in Hread.
  pose proof (ci_data _ _ _ _ Hinv1 v Hr) as Hdlen. change (sector_size c1) with (sector_size c) in Hdlen.
  pose proof (mr_buffer (ops := ops) _ _ _ _ _ _ _ Hread) as Hgl.
  set (c2 := set_media m _).
  assert (Hg : ∀ i, get_entry c2 i = if i =? v then set_data got (get_entry c i) else get_entry c i).
  { intros i. apply gete_zupd. simpl. by rewrite (ci_entries _ _ _ _ Hinv). }
  assert (Hlba2 : ∀ i, entry_lba c2 i = entry_lba c i).
  { intros i. unfold entry_lba. rewrite Hg. by case_match. }
  assert (Hinv2 : cache_inv c2 lru free []).
  { apply inv_set_media, inv_upd_body; try done. simpl. by rewrite Hgl. }
  destruct (err_ok e) eqn:He; simpl.
  2:{ intros [= <- <- <-]. rewrite He. split_and!; [done..|]. intros Hclean i.
      unfold cache_data. rewrite Hg. case_test; b2p; [|done]. simpl. subst i.
      eapply Hclean; [exact Hread|]. intros ->. discriminate He. }
  destruct e; try discriminate He.
  apply (mr_read (ops := ops)) in Hread; [|lia..].
  rewrite disc_sectors_1 in Hread. subst got.
  assert (Hcopy : c2 = set_media m (set_entries (zupd (entries c1) v (set_data
     (splice (cache_data c1 v) 0 (img lba)))) c1)).
  { unfold c2, splice. simpl. rewrite drop_ge, app_nil_r; [done|].
    pose proof (mr_sector_length (ops := ops) lba). simpl in *. lia. }
  destruct (install_abs trust img (set_media m c1) lru free lba)
    as (v' & l' & free' & c3 & Hins & Hv' & Hinv' & Hcfg & Hsh' & Hlbas & Hlba' & Htr); try done.
  { by apply inv_set_media. }
  { simpl. rewrite Hss. apply (mr_sector_length (ops := ops)). }
  unfold cache_install in Hins. change (cache_reserve (set_media m c1)) with v in Hins.
  rewrite (proj2 (Z.ltb_ge v 0)) in Hins by lia.
  change (set_entries _ (set_media m c1)) with
    (set_media m (set_entries (zupd (entries c1) v (set_data
     (splice (cache_data c1 v) 0 (img lba)))) c1)) in Hins.
  rewrite <- Hcopy in Hins. rewrite Hins, (proj2 (Z.ltb_ge v' 0)) by lia.
  intros [= <- <- <-]. simpl.
  assert (Hvv : v' = v) by (unfold cache_commit in Hins; repeat case_match; simplify_eq; lia).
  subst v'. exists (v :: l'), free'. split_and!; try done; [by apply consts_config in Hcfg|set_solver].
Qed.

Lemma touch_ok c lru free i :
  cache_inv c lru free [] → shows trust img c lru → i ∈ lru →
  let c' := cache_touch c i in
  ∃ l', cache_inv c' l' free [] ∧ shows trust img c' l' ∧ consts c' = consts c ∧
    generation c' = generation c ∧
    map (entry_lba c') l' =
      entry_lba c i :: filter (.≠ entry_lba c i) (map (entry_lba c) lru) ∧
    stable c lru c' l' ∧ i ∈ l' ∧ entry_lba c' i = entry_lba c i.
Proof.
  intros Hinv Hsh Hi. unfold cache_touch. set (c1 := set_entries _ c).
  assert (Hr : 0 ≤ i < capacity c) by (eapply inv_range; [done|set_solver]).
  assert (Hg : ∀ j, get_entry c1 j = if j =? i then set_age (clock c) (get_entry c j) else get_entry c j).
  { intros j. apply gete_zupd. by rewrite (ci_entries _ _ _ _ Hinv). }
  assert (Hinv1 : cache_inv c1 lru free []).
  { apply inv_upd_body; try done. by apply (ci_data _ _ _ _ Hinv). }
  destruct (list_elem_of_split _ _ Hi) as (a & b & ->).
  destruct (make_mru_ok _ _ _ _ _ Hinv1) as (Hinv' & es & lh & lt & Heq & Hsame).
  set (c' := cache_lru_make_mru c1 i) in *.
  assert (Hlba : ∀ j, entry_lba c' j = entry_lba c j).
  { intros j. rewrite Heq. transitivity (entry_lba c1 j); [apply Hsame|].
    unfold entry_lba. rewrite Hg. by case_match. }
  assert (Hdata : ∀ j, cache_data c' j = cache_data c j).
  { intros j. rewrite Heq. transitivity (cache_data c1 j); [apply Hsame|].
    unfold cache_data. rewrite Hg. by case_match. }
  exists (i :: a ++ b). split_and!; try done.
  - intros Ht j Hj. rewrite Hlba, Hdata. apply Hsh; [done|set_solver].
  - by rewrite Heq.
  - by rewrite Heq.
  - simpl. rewrite (map_ext _ _ Hlba), Hlba. f_equal.
    pose proof (ci_lbas _ _ _ _ Hinv) as Hnd.
    rewrite map_app in Hnd. rewrite (map_app _ a b), (map_app _ a (i :: b)). cbn [map] in Hnd |- *. rewrite <- Permutation_middle in Hnd.
    apply NoDup_cons in Hnd as [Hn _]. rewrite filter_app, filter_cons_False by tauto.
    rewrite elem_of_app in Hn. symmetry.
    f_equal; apply filter_id; intros x Hx ->; tauto.
  - intros j Hj. split_and!; [set_solver|done|done].
  - set_solver.
Qed.

(** Everything one read does. *)
Lemma cache_read_spec c lru free lba err p c' :
  cache_inv c lru free [] → shows trust img c lru → sector_size c = ss → 0 ≤ lba < 2 ^ 32 →
  odfs_cache_read ops c lba = (err, p, c') →
  if err_ok err then ∃ l' free', cache_inv c' l' free' [] ∧ shows trust img c' l' ∧ consts c' = consts c ∧
      (lba ∈ map (entry_lba c) lru →
         map (entry_lba c') l' = lba :: filter (.≠ lba) (map (entry_lba c) lru)) ∧
      (lba ∉ map (entry_lba c) lru →
         ∃ run, 1 ≤ run ≤ ODFS_CACHE_READAHEAD ∧ lba + run ≤ 2 ^ 32 ∧
         map (entry_lba c') l' =
           take (Z.to_nat (capacity c)) (seqZ lba run ++ map (entry_lba c) lru)) ∧
      tracks ODFS_CACHE_READAHEAD c lru c' l' ∧ p ∈ l' ∧ entry_lba c' p = lba
  else (lba ∉ map (entry_lba c) lru) ∧ read_failed c c' lru free.
Proof.
  intros Hinv Hsh Hss Hl. unfold odfs_cache_read. rewrite (inv_no_entries _ _ _ _ Hinv).
  cbv zeta. set (c1 := set_clock _ _).
  assert (Hinv1 : cache_inv c1 lru free []) by by apply inv_set_clock, inv_set_stats.
  pose proof (ci_generation _ _ _ _ Hinv) as Hgen.
  destruct (find_index_spec _ _ _ _ Hinv1 lba) as [(i & -> & Hi0 & Hi & Hlba)|[-> Hmiss]].
  - rewrite (proj2 (Z.leb_le _ _)) by lia. intros [= <- <- <-]. simpl.
    destruct (touch_ok c1 lru free i Hinv1 Hsh Hi)
      as (l' & H1 & H2 & H3 & H4 & H5 & H6 & H7 & H8).
    exists l', free. split_and!; try done; [by apply inv_set_stats| | | |].
    + intros _. by rewrite <- Hlba.
    + intros []. rewrite <- Hlba. by apply list_elem_of_fmap_2.
    + by apply tracks_same.
    + transitivity (entry_lba (cache_touch c1 i) i); [done|congruence].
  - rewrite (proj2 (Z.leb_gt 0 (-1))) by lia.
    set (c2 := set_stats _ c1).
    assert (Hinv2 : cache_inv c2 lru free []) by by apply inv_set_stats.
    destruct (cache_read_cluster ops c2 lba) as [r c3] eqn:Hcl.
    apply (read_cluster_ok _ lru free) in Hcl; try done.
    destruct r as [idx|].
    + intros [= <- <- <-]. simpl.
      destruct Hcl as (l' & free' & run & H1 & H2 & H3 & H4 & H5 & H6 & H7 & H8 & H9).
      exists l', free'. split_and!; try done. intros _. exists run. split_and!; [lia..|done].
    + destruct Hcl as (H1 & H2 & H3 & H4). intros Hs.
      assert (Hent : ∀ i, get_entry c3 i = get_entry c i) by (intros i; unfold get_entry; by rewrite H3).
      assert (Hlba3 : ∀ i, entry_lba c3 i = entry_lba c i) by (intros i; unfold entry_lba; by rewrite Hent).
      assert (Hdat3 : ∀ i, cache_data c3 i = cache_data c i) by (intros i; unfold cache_data; by rewrite Hent).
      assert (Hmap : map (entry_lba c3) lru = map (entry_lba c) lru) by by apply map_ext.
      apply (read_single_ok _ lru free) in Hs; try done.
      2:{ intros Ht i Hi. rewrite Hlba3, Hdat3. by apply Hsh. }
      2:{ unfold consts in H2. simpl in H2. congruence. }
      2:{ by rewrite Hmap. }
      destruct (err_ok err).
      * destruct Hs as (l' & free' & S1 & S2 & S3 & S4 & S5 & S6 & S7).
        exists l', free'. split_and!; try done; [by rewrite S3| |].
        -- intros _. exists 1. unfold ODFS_CACHE_READAHEAD. split_and!; [lia..|].
           rewrite S4, Hmap. f_equal. unfold consts in H2. simpl in H2. congruence.
        -- destruct S5 as (Hin & k & Hk & Hg & Hst). split; [done|]. exists k.
           split_and!; [lia|unfold ODFS_CACHE_READAHEAD; lia|by rewrite Hg, H4|].
           intros Hk0 i Hi. rewrite <- Hlba3, <- Hdat3. by apply Hst.
      * split; [done|]. destruct Hs as (S1 & S2 & S3 & S4 & S5). split_and!; try done.
        -- by rewrite S2.
        -- by rewrite S3.
        -- intros i. by rewrite S4.
        -- intros Hclean i. by rewrite S5.
Qed.
End read.

(** ** Reading a run of bytes *)
Section read_bytes.
Context {M : Type} (ops : odfs_media_ops M) (img : Z → list Z) (ss : Z).
Context (Hmedium : MediaReads ops img ss).
Implicit Types c : odfs_cache M.

(** The cache is well formed, shows the disc, and knows the sector size. *)
Definition cache_ok c : Prop :=
  (∃ lru free, cache_inv c lru free [] ∧ shows True img c lru) ∧
  sector_size c = ss ∧ ss = 2 ^ sector_shift c ∧ 0 ≤ sector_shift c.
(** What is left of it after a failed read. *)
Definition cache_after_failure c : Prop :=
  (cache_wf c ∧ sector_size c = ss) ∧ (CleanFailure ops → cache_ok c).

Lemma cache_read_ok c lba err p c' :
  cache_ok c → 0 ≤ lba < 2 ^ 32 → odfs_cache_read ops c lba = (err, p, c') →
  if err_ok err then cache_ok c' ∧ cache_data c' p = img lba else cache_after_failure c'.
Proof.
  intros ((lru & free & Hinv & Hsh) & Hss & Hpow & Hsft) Hl Hr.
  apply (cache_read_spec ops img ss _ True c lru free) in Hr; try done.
  destruct (err_ok err).
  - destruct Hr as (l' & free' & H1 & H2 & H3 & _ & _ & _ & H6 & H7).
    unfold consts in H3. split; [split_and!|].
    + by exists l', free'.
    + congruence.
    + congruence.
    + congruence.
    + rewrite <- H7. by apply H2.
  - destruct Hr as (_ & H1 & H2 & H3 & H4 & H5). unfold consts in H2.
    split; [split; [by exists lru, free|congruence]|].
    intros Hclean. split_and!; [|congruence..]. exists lru, free. split; [done|].
    intros _ i Hi. rewrite H4, H5 by done. by apply Hsh.
Qed.

Lemma copy_sector_ok c lba off buf done n err buf' c' :
  cache_ok c → 0 ≤ lba < 2 ^ 32 → 0 ≤ off → 0 ≤ n → off + n ≤ ss →
  cache_copy_sector ops c lba off buf done n = (err, buf', c') →
  if err_ok err
  then cache_ok c' ∧ buf' = splice buf done (disc_bytes img ss (lba * ss + off) n)
  else cache_after_failure c' ∧ buf' = buf.
Proof.
  intros Hok Hl Ho Hn Hs. unfold cache_copy_sector.
  destruct (odfs_cache_read ops c lba) as [[e i] c1] eqn:Hr.
  apply (cache_read_ok c lba) in Hr; [|done..].
  destruct (err_ok e) eqn:He; simpl; intros [= <- <- <-]; [|by rewrite He].
  destruct Hr as [Hok' Hd]. simpl. split; [done|].
  rewrite Hd, (slice_sector img ss); [done| |done..]. apply (mr_sector_length (ops := ops)).
Qed.
Context (buf0 : list Z) (want base : Z).
Context (Hwant : 0 ≤ want ≤ zlen buf0).

(** The buffer after [done] bytes. *)
Definition filled (done : Z) : list Z := disc_bytes img ss base done ++ drop (Z.to_nat done) buf0.

Lemma length_filled d : 0 ≤ d ≤ want → length (filled d) = length buf0.
Proof.
  intros. unfold filled. rewrite length_app, length_drop.
  pose proof (length_disc_bytes img ss base d). lia.
Qed.
Lemma take_filled d : 0 ≤ d → take (Z.to_nat d) (filled d) = disc_bytes img ss base d.
Proof.
  intros. unfold filled. apply take_app_length'.
  pose proof (length_disc_bytes img ss base d). lia.
Qed.
Lemma filled_splice d n :
  0 ≤ d → 0 ≤ n → splice (filled d) d (disc_bytes img ss (base + d) n) = filled (d + n).
Proof.
  intros. pose proof (length_disc_bytes img ss base d). pose proof (length_disc_bytes img ss (base + d) n).
  unfold splice. rewrite take_filled by done. unfold filled at 1 2.
  rewrite disc_bytes_app, <- app_assoc by lia. do 2 f_equal.
  rewrite drop_app_ge by lia. rewrite drop_drop. f_equal. lia.
Qed.

Definition go_ok (s : rd_step (M := M)) (left : Z) : Prop :=
  match s with
  | RdGo buf done lba c =>
      cache_ok c ∧ 0 ≤ done ≤ want ∧ buf = filled done ∧ want - done < left ∧
      (done < want → base + done = lba * ss ∧ 0 ≤ lba < 2 ^ 32)
  | RdStop err buf done c =>
      err ≠ ODFS_OK ∧ cache_after_failure c ∧ 0 ≤ done ≤ want ∧ length buf = length buf0 ∧
      take (Z.to_nat done) buf = disc_bytes img ss base done
  end.

Lemma ss_facts : 0 < ss ∧ ∀ l, zlen (img l) = ss.
Proof. split; [apply (mr_size_pos (ops := ops))|apply (mr_sector_length (ops := ops))]. Qed.

(** One cached piece of the request. *)
Lemma piece_ok c lba off done n err buf' c' :
  cache_ok c → 0 ≤ lba < 2 ^ 32 → 0 ≤ off → 0 ≤ n → off + n ≤ ss → 0 ≤ done →
  base + done = lba * ss + off → done + n ≤ want →
  cache_copy_sector ops c lba off (filled done) done n = (err, buf', c') →
  if err_ok err then cache_ok c' ∧ buf' = filled (done + n)
  else cache_after_failure c' ∧ buf' = filled done.
Proof.
  intros Hok Hl Ho Hn Hs Hd Hb Hw Hc. apply copy_sector_ok in Hc; try done.
  destruct (err_ok err); [|done]. destruct Hc as [Hc ->]. split; [done|].
  rewrite <- Hb. by apply filled_splice.
Qed.

Lemma stop_ok err done c left :
  err ≠ ODFS_OK → cache_after_failure c → 0 ≤ done ≤ want →
  go_ok (RdStop err (filled done) done c) left.
Proof.
  intros. split_and!; try done; try lia; [by apply length_filled|apply take_filled; lia].
Qed.
Lemma ok_after_failure c : cache_ok c → cache_after_failure c.
Proof. intros Hok. split; [|done]. destruct Hok as [(lru & free & ? & _) [? _]].
  split; [by exists lru, free|done]. Qed.
Lemma err_ok_neq err : err_ok err = false → err ≠ ODFS_OK.
Proof. by intros ? ->. Qed.

Lemma read_head_ok c lba off left :
  cache_ok c → 0 ≤ lba < 2 ^ 32 → 0 ≤ off < ss → base = lba * ss + off → want < left →
  go_ok (read_head ops c (filled 0) want lba off) left.
Proof.
  intros Hok Hl Ho Hb Hw. destruct ss_facts as [Hp _]. pose proof Hok as (_ & Hss & _).
  unfold read_head. case_test; b2p.
  { split_and!; try done; try lia. }
  cbv zeta. rewrite Hss. set (chunk := if want <? ss - off then want else ss - off).
  assert (Hch : 0 ≤ chunk ≤ want ∧ off + chunk ≤ ss ∧ (chunk < want → chunk = ss - off)).
  { subst chunk. case_test; b2p; lia. }
  destruct (cache_copy_sector ops c lba off (filled 0) 0 chunk) as [[err buf'] c'] eqn:Hc.
  apply piece_ok in Hc; [|done|lia..].
  destruct (err_ok err) eqn:He; simpl.
  - destruct Hc as [Hok' ->]. simpl. case_test; b2p.
    + eapply (stop_ok _ _ _ 0); [done|by apply ok_after_failure|lia].
    + split_and!; [done|lia..|done|lia|]. intros Hlt. unfold UINT32_MAX in *.
      assert (lba < 2 ^ 32 - 1) by (match goal with H : _ ∨ _ |- _ => destruct H; b2p; lia end).
      rewrite u32_small by (unfold is_u32; lia). lia.
  - destruct Hc as [Hf ->]. eapply (stop_ok _ _ _ 0); [by apply err_ok_neq|done|lia].
Qed.

Lemma read_sector_loop_ok fuel c done lba :
  cache_ok c → 0 ≤ done ≤ want → want - done < Z.of_nat fuel →
  (done < want → base + done = lba * ss ∧ 0 ≤ lba < 2 ^ 32) →
  go_ok (read_sector_loop ops fuel c (filled done) want done lba) ss.
Proof.
  destruct ss_facts as [Hp _]. revert c done lba.
  induction fuel as [|fuel IH]; intros c done lba Hok Hd Hf Hpos; [lia|].
  cbn [read_sector_loop]. pose proof Hok as (_ & Hss & _). rewrite Hss. cbv zeta.
  case_test; b2p. { split_and!; try done; lia. }
  destruct Hpos as [Hb Hl]; [lia|].
  destruct (cache_copy_sector ops c lba 0 (filled done) done ss) as [[err buf'] c'] eqn:Hc.
  apply piece_ok in Hc; [|done|lia..].
  destruct (err_ok err) eqn:He; simpl.
  - destruct Hc as [Hok' ->]. case_test; b2p.
    + eapply (stop_ok _ _ _ 0); [done|by apply ok_after_failure|lia].
    + apply IH; [done|lia..|]. intros Hlt. unfold UINT32_MAX in *.
      assert (lba < 2 ^ 32 - 1) by (match goal with H : _ ∨ _ |- _ => destruct H; b2p; lia end).
      rewrite u32_small by (unfold is_u32; lia). lia.
  - destruct Hc as [Hfl ->]. eapply (stop_ok _ _ _ 0); [by apply err_ok_neq|done|lia].
Qed.

Lemma read_tail_ok c done lba :
  cache_ok c → 0 ≤ done ≤ want → want - done < ss →
  (done < want → base + done = lba * ss ∧ 0 ≤ lba < 2 ^ 32) →
  go_ok (read_tail ops c (filled done) want done lba) 1.
Proof.
  intros Hok Hd Hs Hpos. unfold read_tail. case_test; b2p.
  2:{ split_and!; try done; lia. }
  destruct Hpos as [Hb Hl]; [done|].
  destruct (cache_copy_sector ops c lba 0 (filled done) done (want - done)) as [[err buf'] c'] eqn:Hc.
  apply piece_ok in Hc; [|done|lia..].
  destruct (err_ok err) eqn:He; simpl.
  - destruct Hc as [Hok' ->]. replace (done + (want - done)) with want by lia.
    split_and!; try done; lia.
  - destruct Hc as [Hfl ->]. eapply (stop_ok _ _ _ 0); [by apply err_ok_neq|done|lia].
Qed.

Lemma set_media_ok m c : cache_ok c → cache_ok (set_media m c).
Proof.
  intros ((lru & free & Hinv & Hsh) & Hrest). split; [|done].
  exists lru, free. split; [by apply inv_set_media|done].
Qed.

(** One direct transfer of [count] sectors. *)
Lemma direct_ok c done lba count err got m :
  cache_ok c → 0 ≤ done → done + count * ss ≤ want → 0 < count →
  base + done = lba * ss → 0 ≤ lba → lba + count ≤ 2 ^ 32 →
  odfs_media_read ops (media c) lba count (slice (filled done) done (count * ss)) = (err, got, m) →
  (err = ODFS_OK → splice (filled done) done got = filled (done + count * ss)) ∧
  length (splice (filled done) done got) = length buf0 ∧
  take (Z.to_nat done) (splice (filled done) done got) = disc_bytes img ss base done.
Proof.
  destruct ss_facts as [Hp Hl]. intros Hok Hd Hw Hc Hb Hlb Hmax Hr. unfold odfs_media_read in Hr.
  assert (Hlen : length (filled done) = length buf0) by (apply length_filled; nia).
  assert (Hsl : length (slice (filled done) done (count * ss)) = Z.to_nat (count * ss)).
  { apply length_slice; [lia|nia|]. rewrite Hlen. lia. }
  pose proof (mr_buffer (ops := ops) _ _ _ _ _ _ _ Hr) as Hgl.
  split_and!.
  - intros ->. apply (mr_read (ops := ops)) in Hr; [|lia..]. subst got.
    rewrite (disc_sectors_bytes img ss) by (done || lia). rewrite <- Hb. apply filled_splice; nia.
  - rewrite length_splice; [done|lia|]. rewrite Hgl, Hsl, Hlen. nia.
  - unfold splice. rewrite take_app_le by (rewrite length_take; lia).
    rewrite take_take, Nat.min_id. by apply take_filled.
Qed.

Lemma read_stream_loop_ok fuel c done lba :
  cache_ok c → 0 ≤ done ≤ want → want - done < Z.of_nat fuel →
  (done < want → base + done = lba * ss ∧ 0 ≤ lba < 2 ^ 32) →
  go_ok (read_stream_loop ops fuel c (filled done) want done lba) (2 * ss).
Proof.
  destruct ss_facts as [Hp _]. revert c done lba.
  induction fuel as [|fuel IH]; intros c done lba Hok Hd Hf Hpos; [lia|].
  cbn [read_stream_loop]. pose proof Hok as (_ & Hss & _). rewrite Hss. cbv zeta.
  set (full := (want - done) / ss).
  assert (Hfull : full * ss ≤ want - done < (full + 1) * ss) by (subst full; dlia).
  destruct ((want - done <? ss) || (full <? ODFS_CACHE_STREAM_MIN_SECTORS)) eqn:E.
  { unfold ODFS_CACHE_STREAM_MIN_SECTORS in *. split_and!; try done; try lia. b2p.
    destruct E; b2p; nia. }
  b2p. unfold ODFS_CACHE_STREAM_MIN_SECTORS, UINT32_MAX in *.
  destruct Hpos as [Hb Hl]; [nia|].
  set (count0 := if full <? 2 ^ 32 - 1 then full else 2 ^ 32 - 1).
  set (count := if 2 ^ 32 - 1 - lba + 1 <? count0 then 2 ^ 32 - 1 - lba + 1 else count0).
  assert (Hcount : 0 < count ≤ full ∧ lba + count ≤ 2 ^ 32).
  { subst count count0. repeat case_test; b2p; lia. }
  clearbody count. clear count0.
  destruct (odfs_media_read ops (media c) lba count _) as [[err got] m] eqn:Hr.
  apply direct_ok in Hr as (Hgood & Hlen & Hpre); try done; try nia.
  destruct (err_ok err) eqn:He; simpl.
  - rewrite Hgood by (by destruct err). case_test; b2p.
    + eapply (stop_ok _ _ _ 0); [done|by apply ok_after_failure, set_media_ok|nia].
    + apply IH; [by apply set_media_ok|nia|nia|]. intros Hlt.
      assert (lba + count < 2 ^ 32) by (match goal with H : _ ∨ _ |- _ => destruct H; b2p; lia end).
      rewrite u32_small by (unfold is_u32; lia). lia.
  - split_and!; [by apply err_ok_neq|by apply ok_after_failure, set_media_ok..|lia|lia|done|done].
Qed.
End read_bytes.

(** *** The whole request *)
Section request.
Context {M : Type} (ops : odfs_media_ops M) (img : Z → list Z) (ss : Z).
Context (Hmedium : MediaReads ops img ss).
Implicit Types c : odfs_cache M.

Lemma split_offset start offset shift :
  0 ≤ shift → 0 ≤ offset < 2 ^ 63 → 0 ≤ start < 2 ^ 32 → ss = 2 ^ shift → 2 ^ shift < 2 ^ 32 →
  u64 (start + Z.shiftr offset shift) = start + offset / ss ∧
  Z.land (u32 offset) (ss - 1) = offset mod ss.
Proof.
  intros Hs Ho Hst -> Hm. rewrite Z.shiftr_div_pow2 by done.
  assert (0 < 2 ^ shift) by (by apply Z.pow_pos_nonneg).
  split.
  - unfold u64. rewrite Z.mod_small; [done|].
    assert (0 ≤ offset / 2 ^ shift) by (apply Z.div_pos; lia).
    assert (offset / 2 ^ shift ≤ offset) by (apply Z.div_le_upper_bound; nia). lia.
  - replace (2 ^ shift - 1) with (Z.ones shift) by (rewrite Z.ones_equiv; lia).
    rewrite Z.land_ones by done. unfold u32.
    assert (shift < 32) by (by apply (Z.pow_lt_mono_r_iff 2)).
    apply Z.mod_mod_divide.
    exists (2 ^ (32 - shift)). rewrite <- Z.pow_add_r by lia. f_equal. lia.
Qed.

Lemma read_bytes_ok c start offset buf len err buf' n c' :
  cache_ok img ss c → ss < 2 ^ 32 → 0 ≤ start < 2 ^ 32 → 0 ≤ offset < 2 ^ 63 →
  0 ≤ len ≤ zlen buf → start + offset / ss < 2 ^ 32 →
  odfs_cache_read_bytes ops c start offset buf len = (err, buf', n, c') →
  let base := start * ss + offset in
  if err_ok err
  then cache_ok img ss c' ∧ n = len ∧ buf' = disc_bytes img ss base len ++ drop (Z.to_nat len) buf
  else cache_after_failure ops img ss c' ∧ 0 ≤ n ≤ len ∧ length buf' = length buf ∧
       take (Z.to_nat n) buf' = disc_bytes img ss base n.
Proof.
  intros Hok Hss32 Hst Ho Hlen Hin. cbv zeta. unfold odfs_cache_read_bytes.
  pose proof Hok as ((lru & free & Hinv & Hsh) & Hss & Hpow & Hsft).
  pose proof (mr_size_pos (ops := ops)) as Hp.
  rewrite (inv_no_entries _ _ _ _ Hinv), (proj2 (Z.eqb_neq (sector_size c) 0)) by lia. cbn [orb].
  case_test; b2p; [intros [= <- <- <- <-]; subst len; done|].
  destruct (split_offset start offset (sector_shift c)) as [-> Hoff]; [done..|by rewrite <- Hpow|].
  rewrite Hss, Hoff. unfold UINT32_MAX at 1. rewrite (proj2 (Z.ltb_ge _ _)) by lia. cbv zeta.
  set (lba := start + offset / ss). set (off := offset mod ss).
  set (base := start * ss + offset).
  assert (Hoffr : 0 ≤ off < ss) by (apply Z.mod_pos_bound; lia).
  assert (Hbase : base = lba * ss + off) by (subst base lba off; pose proof (Z.div_mod offset ss); nia).
  assert (Hlba : 0 ≤ lba < 2 ^ 32) by (subst lba; pose proof (Z.div_pos offset ss); lia).
  assert (H0 : buf = filled img ss buf base 0) by (unfold filled; simpl; by rewrite drop_0).
  rewrite H0 at 1.
  assert (Hfuel : ∀ d, 0 ≤ d ≤ len → len - d < Z.of_nat (S (Z.to_nat len))) by lia.
  set (fuel := S (Z.to_nat len)) in *. clearbody fuel.
  pose proof (read_head_ok ops img ss Hmedium buf len base Hlen c lba off (len + 1)
    Hok Hlba Hoffr Hbase) as Hh.
  assert (go_ok ops img ss buf len base (rd_bind (rd_bind (rd_bind
    (read_head ops c (filled img ss buf base 0) len lba off)
    (λ c buf done lba, read_stream_loop ops fuel c buf len done lba))
    (λ c buf done lba, read_sector_loop ops fuel c buf len done lba))
    (λ c buf done lba, read_tail ops c buf len done lba)) 1) as Hgo.
  { specialize (Hh ltac:(lia)). destruct (read_head _ _ _ _ _ _) as [b1 d1 l1 c1|]; [|exact Hh].
    destruct Hh as (Hok1 & Hd1 & -> & _ & Hpos1). simpl rd_bind.
    pose proof (read_stream_loop_ok ops img ss Hmedium buf len base Hlen
      fuel c1 d1 l1 Hok1 Hd1 (Hfuel _ Hd1) Hpos1) as Hs.
    destruct (read_stream_loop _ _ _ _ _ _ _) as [b2 d2 l2 c2|]; [|exact Hs].
    destruct Hs as (Hok2 & Hd2 & -> & _ & Hpos2). simpl rd_bind.
    pose proof (read_sector_loop_ok ops img ss Hmedium buf len base Hlen
      fuel c2 d2 l2 Hok2 Hd2 (Hfuel _ Hd2) Hpos2) as Hs.
    destruct (read_sector_loop _ _ _ _ _ _ _) as [b3 d3 l3 c3|]; [|exact Hs].
    destruct Hs as (Hok3 & Hd3 & -> & Hlt3 & Hpos3). by apply read_tail_ok. }
  destruct (rd_bind _ _) as [b d l c1|e b d c1]; intros [= <- <- <- <-]; simpl in Hgo |- *.
  - destruct Hgo as (Hok' & Hd & -> & Hlt & _). assert (d = len) as -> by lia. done.
  - destruct Hgo as (He & Hf & Hd & Hl & Ht). assert (err_ok e = false) as -> by (by destruct e).
    split_and!; (done || lia).
Qed.
End request.
