(* ===== verification/BlockCacheSpec.v ===== *)
(** * The block cache meets its contract

    The theorems on [core/cache_block.c], and the instance of [CacheApi] the
    backends are proved against. *)
From S2P Require Import Prelude Types Media CacheApi Links BlockCache BlockCacheProofs BlockCacheRead.
Open Scope Z_scope.

(** ** Building and emptying the cache *)
Section reset.
Context {M : Type}.
Implicit Types c : odfs_cache M.

Lemma chain_seqZ (f : Z → Z) cap i :
  (∀ j, 0 ≤ j < cap → f j = if j + 1 <? cap then j + 1 else -1) → 0 ≤ i < cap →
  chain f i (seqZ i (cap - i)).
Proof.
  intros Hf Hi. remember (Z.to_nat (cap - i)) as n eqn:Hn. revert i Hi Hn.
  induction n as [|n IH]; intros i Hi Hn; [lia|].
  rewrite seqZ_cons by lia. split_and!; [done|lia|]. rewrite Hf by lia. case_test; b2p.
  - replace (Z.succ i) with (i + 1) by lia. replace (Z.pred (cap - i)) with (cap - (i + 1)) by lia.
    apply IH; lia.
  - replace (Z.pred (cap - i)) with 0 by lia. simpl. lia.
Qed.

Lemma chain_nil (f : Z → Z) : chain f (-1) [].
Proof. simpl. lia. Qed.

Lemma get_link_map_none (l : list Z) i : get_link (map (λ _, -1) l) i = -1.
Proof.
  unfold get_link, zget. case_test; [|done].
  rewrite list_lookup_fmap. by destruct (l !! Z.to_nat i).
Qed.

(** Resetting the links of a cache without valid entries. *)
Lemma reset_indices_ok c :
  0 < capacity c < 2 ^ 31 → zlen (entries c) = capacity c → zlen (next c) = capacity c →
  0 < hash_size c → zlen (buckets c) = hash_size c → 0 < sector_size c →
  (∀ i, 0 ≤ i < capacity c → zlen (cache_data c i) = sector_size c) →
  (∀ i, valid (get_entry c i) = false) → valid_count c = 0 → is_u32 (generation c) →
  (∀ buf, stream_buf c = Some buf → zlen buf = ODFS_CACHE_READAHEAD * sector_size c) →
  cache_inv (cache_reset_indices c) [] (seqZ 0 (capacity c)) [].
Proof.
  intros Hcap He Hn Hh Hb Hss Hd Hv Hcnt Hg Hst. unfold cache_reset_indices. cbv zeta. cbn [capacity set_chains entries].
  set (f := λ i e, set_next (if Z.of_nat i + 1 <? capacity c then Z.of_nat i + 1 else -1) (set_prev (-1) e)).
  assert (Hget : ∀ i, 0 ≤ i < capacity c →
    gete (imap f (entries c)) i = f (Z.to_nat i) (gete (entries c) i)).
  { intros i Hi. unfold zget. rewrite (proj2 (Z.leb_le _ _)) by lia.
    rewrite list_lookup_imap. destruct (lookup_lt_is_Some_2 (entries c) (Z.to_nat i)) as [e ->]; [lia|done]. }
  rewrite (proj2 (Z.eqb_neq (capacity c) 0)) by lia.
  split; simpl; rewrite ?length_map, ?length_imap; try done.
  - intros i Hi. unfold cache_data, get_entry. simpl. rewrite Hget by done. by apply Hd.
  - by rewrite app_nil_r.
  - set_solver.
  - intros i Hi%elem_of_seqZ. unfold get_entry. simpl. rewrite Hget by lia. apply Hv.
  - split; [constructor|set_solver|done|done|done].
  - replace (seqZ 0 (capacity c)) with (seqZ 0 (capacity c - 0)) by (f_equal; lia). apply (chain_seqZ _ (capacity c)); [|lia].
    intros j Hj. rewrite Hget by lia. simpl. by rewrite Z2Nat.id by lia.
  - intros b _. exists []. simpl. rewrite get_link_map_none. split_and!; [lia|constructor|].
    intros i. set_solver.
  - constructor.
Qed.

Lemma cached_lbas_nil c free : cache_inv c [] free [] → cached_lbas c = [].
Proof. intros Hinv. by rewrite (cached_lbas_eq _ _ _ _ Hinv). Qed.

Lemma cache_flush_ok c :
  cache_wf c → cache_wf (odfs_cache_flush c) ∧ cached_lbas (odfs_cache_flush c) = [] ∧
  sector_size (odfs_cache_flush c) = sector_size c ∧
  sector_shift (odfs_cache_flush c) = sector_shift c ∧ capacity (odfs_cache_flush c) = capacity c ∧
  ∃ free, cache_inv (odfs_cache_flush c) [] free [].
Proof.
  intros (lru & free & Hinv). unfold odfs_cache_flush. rewrite (inv_no_entries _ _ _ _ Hinv). cbv zeta.
  set (c1 := set_generation _ _).
  assert (Hg : ∀ i, get_entry c1 i = match zget (entries c) i with
      Some e => set_valid false e | None => entry_zero end).
  { intros i. unfold get_entry. simpl. unfold zget. case_match; [|done].
    rewrite list_lookup_fmap. by destruct (entries c !! Z.to_nat i). }
  assert (H : cache_inv (cache_reset_indices c1) [] (seqZ 0 (capacity c)) []).
  { destruct Hinv. apply (reset_indices_ok c1); simpl; rewrite ?length_map; try done.
    - intros i Hi. unfold cache_data. rewrite Hg. specialize (ci_data i Hi).
      unfold cache_data, get_entry in ci_data. by destruct (zget (entries c) i).
    - intros i. rewrite Hg. by destruct (zget (entries c) i).
    - apply u32_range. }
  split_and!; try done; [by eexists _, _|by eapply cached_lbas_nil|by eexists].
Qed.
End reset.

(** ** [odfs_cache_init] *)
Section init.
Context {M : Type} (ops : odfs_media_ops M).

Lemma shift_loop_pow fuel n shift :
  (n ≤ fuel)%nat → shift_loop fuel (2 ^ Z.of_nat n) shift = shift + Z.of_nat n.
Proof.
  revert fuel shift. induction n as [|n IH]; intros fuel shift Hf.
  - destruct fuel; simpl; lia.
  - destruct fuel as [|fuel]; [lia|]. cbn [shift_loop].
    assert (0 < 2 ^ Z.of_nat n) by (apply Z.pow_pos_nonneg; lia).
    assert (Hp : 2 ^ Z.of_nat (S n) = 2 * 2 ^ Z.of_nat n)
      by (rewrite Nat2Z.inj_succ, Z.pow_succ_r by lia; lia).
    rewrite Hp, (proj2 (Z.ltb_lt _ _)) by lia.
    rewrite Z.shiftr_div_pow2, Z.pow_1_r, Z.mul_comm, Z.div_mul by lia.
    rewrite IH by lia. lia.
Qed.

(** The test of [odfs_cache_init]: only powers of two pass. *)
Lemma land_pred_pow2 s : 0 < s → Z.land s (s - 1) = 0 → ∃ n : nat, s = 2 ^ Z.of_nat n.
Proof.
  intros Hs Hl. set (k := Z.log2 s). assert (Hk : 0 ≤ k) by apply Z.log2_nonneg.
  pose proof (Z.log2_spec s Hs) as [Hlo Hhi]. fold k in Hlo, Hhi.
  exists (Z.to_nat k). rewrite Z2Nat.id by done.
  destruct (decide (s = 2 ^ k)) as [|Hne]; [done|].
  assert (Hb1 : Z.testbit s k = true) by (apply Z.bit_log2; lia).
  assert (Hb2 : Z.testbit (s - 1) k = true).
  { replace k with (Z.log2 (s - 1)); [apply Z.bit_log2; pose proof (Z.pow_pos_nonneg 2 k); lia|].
    apply Z.log2_unique; [done|lia]. }
  assert (Z.testbit (Z.land s (s - 1)) k = true) as Hb by by rewrite Z.land_spec, Hb1, Hb2.
  by rewrite Hl, Z.bits_0 in Hb.
Qed.

Lemma cache_init_inv malloc m cap c :
  0 ≤ cap → 0 ≤ sector_size_op ops m < 2 ^ 32 →
  odfs_cache_init ops malloc m cap = (ODFS_OK, c) →
  cache_inv c [] (seqZ 0 cap) [] ∧ capacity c = cap ∧ sector_size c = sector_size_op ops m ∧
  sector_size c = 2 ^ sector_shift c ∧ 0 ≤ sector_shift c ∧ media c = m.
Proof.
  intros Hc Hs. unfold odfs_cache_init. cbv zeta. unfold odfs_media_sector_size.
  set (ss := sector_size_op ops m) in *.
  do 7 (case_test; [done|]). unfold UINT32_MAX in *. b2p.
  destruct (land_pred_pow2 ss) as [n Hn]; [lia|done|].
  assert (Hn32 : (n ≤ 32)%nat).
  { assert (Z.of_nat n < 32); [|lia]. apply (Z.pow_lt_mono_r_iff 2); lia. }
  assert (Hhs : u32 (cap * 2 + 1) = cap * 2 + 1) by (apply u32_small; unfold is_u32; dlia).
  assert (Hcap : cap ≤ 2147483647) by (change ((2 ^ 32 - 1 - 1) / 2) with 2147483647 in *; lia).
  rewrite Hn, shift_loop_pow, <- Hn, Hhs, Z.add_0_l by done. intros [= <-].
  set (c0 := mk_cache _ _ _ _ _ _ _ _ _ _ _ _ _ _ _ _ _).
  split_and!; try done; try (simpl; lia). apply (reset_indices_ok c0); simpl; try done; try lia.
  - rewrite length_replicate. lia.
  - rewrite length_replicate. lia.
  - rewrite length_replicate. lia.
  - intros i Hi. unfold cache_data, get_entry. simpl. unfold zget.
    rewrite (proj2 (Z.leb_le _ _)) by lia. rewrite lookup_replicate_2 by lia. simpl.
    rewrite length_replicate. lia.
  - intros i. unfold get_entry. simpl. unfold zget. case_match; [|done].
    destruct (replicate _ _ !! Z.to_nat i) as [e|] eqn:He; [|done].
    apply lookup_replicate in He as [-> _]. done.
  - intros buf. case_match; [|done]. intros [= <-]. rewrite length_replicate.
    unfold ODFS_CACHE_READAHEAD. lia.
Qed.
End init.

(** ** The contract *)
#[export] Instance block_cache_ops {M} (ops : odfs_media_ops M) : CacheOps (odfs_cache M) := {
  bc_read := odfs_cache_read ops;
  bc_read_bytes := odfs_cache_read_bytes ops;
  bc_data := cache_data;
  bc_generation := generation }.

(** A pointer that was handed out: an indexed entry. *)
Definition live {M} (c : odfs_cache M) (p : Z) : Prop :=
  0 ≤ p < capacity c ∧ valid (get_entry c p) = true.

Section contract.
Context {M : Type} (ops : odfs_media_ops M) (img : Z → list Z) (ss : Z).
Context (Hmedium : MediaReads ops img ss).
Implicit Types c : odfs_cache M.

Lemma live_lru c lru free p : cache_inv c lru free [] → live c p ↔ p ∈ lru.
Proof.
  intros Hinv. split.
  - intros [Hp Hv]. assert (Hin : p ∈ lru ++ free ++ []) by
      (rewrite (ci_perm _ _ _ _ Hinv), elem_of_seqZ; lia).
    rewrite app_nil_r in Hin. apply elem_of_app in Hin as [?|Hf]; [done|].
    by rewrite (ci_invalid _ _ _ _ Hinv p Hf) in Hv.
  - intros Hp. split; [|by apply (ci_valid _ _ _ _ Hinv)]. eapply inv_range; [done|set_solver].
Qed.

Lemma tracks_evolves n c lru free c' lru' free' :
  cache_inv c lru free [] → cache_inv c' lru' free' [] → tracks n c lru c' lru' →
  evolves (H := block_cache_ops ops) live n c c'.
Proof.
  intros Hinv Hinv' (Hin & k & Hk & Hg & Hst). split.
  - intros q Hq. apply (live_lru _ _ _ _ Hinv'). apply Hin. by apply (live_lru _ _ _ _ Hinv).
  - exists k. split_and!; [lia..|done|]. intros Hk0 q Hq. apply Hst; [done|]. by eapply live_lru.
Qed.

Lemma read_failed_ok c lru free c' :
  cache_inv c lru free [] → read_failed ops c c' lru free → CleanFailure ops →
  evolves (H := block_cache_ops ops) live 0 c c'.
Proof.
  intros Hinv (H1 & H2 & H3 & H4 & H5) Hclean. eapply tracks_evolves; [done..|].
  apply tracks_same; [lia|by eapply ci_generation|done|].
  intros i Hi. split_and!; [done|done|by apply H5].
Qed.

Lemma read_evolves c lba p c' :
  cache_ok img ss c → is_u32 lba → odfs_cache_read ops c lba = (ODFS_OK, p, c') →
  cache_ok img ss c' ∧ cache_data c' p = img lba ∧ live c' p ∧
  evolves (H := block_cache_ops ops) live READ_EVICTIONS c c'.
Proof.
  intros Hok Hl Hr. pose proof Hok as ((lru & free & Hinv & Hsh) & Hss & _).
  pose proof (cache_read_ok ops img ss Hmedium c lba _ _ _ Hok Hl Hr) as [Hok' Hd].
  destruct (cache_read_spec ops img ss Hmedium _ c lru free _ _ _ _ Hinv Hsh Hss Hl Hr) as
    (l' & free' & Hinv' & _ & _ & _ & _ & Htr & Hp & _).
  split_and!; [done|done|by apply (live_lru _ _ _ _ Hinv')|by eapply tracks_evolves].
Qed.

(** Well-formedness survives any read, whatever the contents. *)
Lemma read_wf c lba err p c' :
  cache_wf c → sector_size c = ss → is_u32 lba → odfs_cache_read ops c lba = (err, p, c') →
  cache_wf c' ∧ sector_size c' = ss ∧ (∀ q, live c q → live c' q) ∧ (err = ODFS_OK → live c' p).
Proof.
  intros (lru & free & Hinv) Hss Hl Hr.
  pose proof (cache_read_spec ops img ss Hmedium False c lru free _ _ _ _ Hinv
    (False_ind _) Hss Hl Hr) as Hs.
  destruct (err_ok err) eqn:He.
  - destruct Hs as (l' & free' & Hinv' & _ & Hc & _ & _ & [Hin _] & Hp & _).
    unfold consts in Hc. split_and!; [by eexists _, _|congruence| |].
    + intros q Hq. apply (live_lru _ _ _ _ Hinv'), Hin. by apply (live_lru _ _ _ _ Hinv).
    + intros _. by apply (live_lru _ _ _ _ Hinv').
  - destruct Hs as (_ & Hinv' & Hc & _). unfold consts in Hc.
    split_and!; [by eexists _, _|congruence| |by intros ->].
    intros q Hq. apply (live_lru _ _ _ _ Hinv'). by apply (live_lru _ _ _ _ Hinv).
Qed.

Lemma cache_ok_wf c : cache_ok img ss c → cache_wf c ∧ sector_size c = ss.
Proof. intros ((lru & free & Hinv & _) & ? & _). split; [by exists lru, free|done]. Qed.

(** [core/cache_block.c] keeps the promises of [CacheApi]. *)
#[export] Instance block_cache_laws :
  ss < 2 ^ 32 →
  CacheLaws (odfs_cache M) (H := block_cache_ops ops) img ss
    (λ c, cache_wf c ∧ sector_size c = ss) (cache_ok img ss) live.
Proof.
  intros Hss32. split; simpl.
  - apply (mr_sector_length (ops := ops)).
  - intros c [(lru & free & Hinv) _]. by eapply ci_generation.
  - apply cache_ok_wf.
  - intros c p [(lru & free & Hinv) <-] [Hp _]. by eapply ci_data.
  - intros c p ((lru & free & Hinv & Hsh) & _) Hp. exists (entry_lba c p).
    apply Hsh; [done|]. by apply (live_lru _ _ _ _ Hinv).
  - intros c lba err p c' [Hwf Hss] Hl Hr.
    destruct (read_wf _ _ _ _ _ Hwf Hss Hl Hr) as (? & ? & ? & ?). by split_and!.
  - intros c lba p c' Hok Hl Hr. destruct (read_evolves _ _ _ _ Hok Hl Hr) as (? & ? & ? & ?).
    by split_and!.
  - intros c start offset buf len err buf' n c' Hok Hst Ho Hlen Hin Hr.
    apply (read_bytes_ok ops img ss Hmedium) in Hr; try done.
    destruct (err_ok err) eqn:He.
    + destruct Hr as (Hok' & -> & ->). pose proof (length_disc_bytes img ss (start * ss + offset) len).
      split_and!; try done; try lia; [by apply cache_ok_wf..| |].
      * rewrite length_app, length_drop. lia.
      * apply take_app_length'. lia.
    + destruct Hr as ([[Hwf Hss] _] & Hn & Hl & Ht).
      split_and!; try done; try lia. intros ->. discriminate He.
Qed.

#[export] Instance block_cache_clean :
  CleanFailure ops → CacheCleanFailure (odfs_cache M) (H := block_cache_ops ops) (cache_ok img ss) live.
Proof.
  intros Hclean c lba err p c' Hok Hl Hr He. simpl in Hr.
  pose proof (cache_read_ok ops img ss Hmedium c lba _ _ _ Hok Hl Hr) as H.
  assert (Hf : err_ok err = false) by (by destruct err).
  rewrite Hf in H. destruct H as [_ H]. split; [by apply H|].
  pose proof Hok as ((lru & free & Hinv & Hsh) & Hss & _).
  pose proof (cache_read_spec ops img ss Hmedium True c lru free _ _ _ _ Hinv Hsh Hss Hl Hr) as Hs.
  rewrite Hf in Hs. destruct Hs as [_ Hs]. by eapply read_failed_ok.
Qed.
(** A sector every single-sector transfer of which succeeds can be read. *)
Definition medium_readable (lba : Z) : Prop :=
  ∀ m buf, zlen buf = ss → (read_sectors ops m lba 1 buf).1.1 = ODFS_OK.

Lemma read_single_readable c lru free lba :
  cache_inv c lru free [] → sector_size c = ss → lba ∉ map (entry_lba c) lru → medium_readable lba →
  (cache_read_single ops c lba).1.1 = ODFS_OK.
Proof.
  intros Hinv Hss Hnew Hrd. unfold cache_read_single. set (c1 := set_last_miss lba c).
  assert (Hinv1 : cache_inv c1 lru free []) by by apply inv_set_last_miss.
  destruct (reserve_ok _ _ _ Hinv1) as (l1 & free1 & Hvic & Hl1 & Hr). cbv zeta.
  set (v := cache_reserve c1) in *. rewrite (proj2 (Z.ltb_ge v 0)) by lia.
  pose proof (ci_data _ _ _ _ Hinv1 v Hr) as Hdlen.
  specialize (Hrd (media c1) (cache_data c1 v) ltac:(by rewrite Hdlen)). unfold odfs_media_read.
  destruct (read_sectors ops (media c1) lba 1 (cache_data c1 v)) as [[e got] m] eqn:Hread.
  simpl in Hrd. subst e. pose proof (mr_buffer (ops := ops) _ _ _ _ _ _ _ Hread) as Hgl.
  set (c2 := set_media m _). change (negb (err_ok ODFS_OK)) with false. cbv iota.
  assert (Hinv2 : cache_inv c2 lru free []).
  { apply inv_set_media, inv_upd_body; try done. simpl. by rewrite Hgl. }
  assert (Hge : ∀ i, get_entry c2 i = if i =? v then set_data got (get_entry c i) else get_entry c i).
  { intros i. apply gete_zupd. simpl. by rewrite (ci_entries _ _ _ _ Hinv). }
  assert (Hg : ∀ i, entry_lba c2 i = entry_lba c i).
  { intros i. unfold entry_lba. rewrite Hge. by case_match. }
  destruct (commit_ok c2 lru free v l1 free1 lba Hinv2 Hvic) as (c3 & -> & _).
  - rewrite (map_ext _ _ Hg), Hl1. intros Hin. apply Hnew.
    rewrite <- firstn_map in Hin. by eapply subseteq_take.
  - by rewrite (proj2 (Z.ltb_ge v 0)) by lia.
Qed.

#[export] Instance block_cache_readable :
  CacheReadable (odfs_cache M) (H := block_cache_ops ops) (cache_ok img ss) medium_readable.
Proof.
  intros c lba Hok Hl Hrd. simpl. destruct (odfs_cache_read ops c lba) as [[err p] c'] eqn:Hr.
  exists p, c'. enough (err = ODFS_OK) as -> by done.
  pose proof Hok as ((lru & free & Hinv & Hsh) & Hss & _).
  destruct (decide (err = ODFS_OK)) as [|Hne]; [done|]. exfalso.
  revert Hr. unfold odfs_cache_read. rewrite (inv_no_entries _ _ _ _ Hinv). cbv zeta.
  set (c1 := set_clock _ _).
  assert (Hinv1 : cache_inv c1 lru free []) by by apply inv_set_clock, inv_set_stats.
  destruct (find_index_spec _ _ _ _ Hinv1 lba) as [(i & -> & Hi0 & _)|[-> Hmiss]].
  { rewrite (proj2 (Z.leb_le _ _)) by lia. by intros [= <- _ _]. }
  rewrite (proj2 (Z.leb_gt 0 (-1))) by lia. set (c2 := set_stats _ c1).
  assert (Hinv2 : cache_inv c2 lru free []) by by apply inv_set_stats.
  destruct (cache_read_cluster ops c2 lba) as [r c3] eqn:Hcl.
  apply (read_cluster_ok ops img ss Hmedium True _ lru free) in Hcl; try done.
  destruct r as [idx|]; [by intros [= <- _ _]|]. destruct Hcl as (H1 & H2 & H3 & _).
  intros Hs. apply Hne. rewrite <- (read_single_readable c3 lru free lba); [by rewrite Hs|done| | |done].
  - unfold consts in H2. simpl in H2. congruence.
  - intros Hin. apply Hmiss. rewrite (map_ext (entry_lba c1) (entry_lba c3)); [done|].
    intros i. unfold entry_lba, get_entry. by rewrite H3.
Qed.
End contract.

(** ** Properties *)

(** [C6] A read that returns [ODFS_OK] returns a pointer to the requested sector's
    bytes as they are on the disc, keeps the cache coherent with the disc, and
    leaves every pointer handed out before intact unless the generation moved
    (by at most eight: one clustered miss). *)
Theorem odfs_cache_read_correct {M} (ops : odfs_media_ops M) img ss (c : odfs_cache M) lba p c' :
  MediaReads ops img ss → cache_ok img ss c → is_u32 lba →
  odfs_cache_read ops c lba = (ODFS_OK, p, c') →
  cache_ok img ss c' ∧ cache_data c' p = img lba ∧ live c' p ∧
  (∀ q, live c q → live c' q) ∧
  ∃ k, 0 ≤ k ≤ 8 ∧ generation c' = u32 (generation c + k) ∧
    (k = 0 → ∀ q, live c q → cache_data c' q = cache_data c q).
Proof.
  intros Hm Hok Hl Hr. destruct (read_evolves ops img ss Hm c lba p c' Hok Hl Hr) as (H1 & H2 & H3 & H4 & H5).
  split_and!; done.
Qed.

(** The cache is an LRU list of sectors bounded by its capacity: a hit moves
    the sector to the front, a miss puts the sector (and the at most seven
    successors a clustered read fetched) in front and drops the least recent ones. *)
Theorem odfs_cache_read_lru {M} (ops : odfs_media_ops M) img ss (c : odfs_cache M) lba p c' :
  MediaReads ops img ss → cache_ok img ss c → is_u32 lba →
  odfs_cache_read ops c lba = (ODFS_OK, p, c') →
  (lba ∈ cached_lbas c → cached_lbas c' = lba :: filter (.≠ lba) (cached_lbas c)) ∧
  (lba ∉ cached_lbas c → ∃ run, 1 ≤ run ≤ ODFS_CACHE_READAHEAD ∧ lba + run ≤ 2 ^ 32 ∧
     cached_lbas c' = take (Z.to_nat (capacity c)) (seqZ lba run ++ cached_lbas c)).
Proof.
  intros Hm ((lru & free & Hinv & Hsh) & Hss & _) Hl Hr.
  destruct (cache_read_spec ops img ss Hm _ c lru free _ _ _ _ Hinv Hsh Hss Hl Hr)
    as (l' & free' & Hinv' & _ & _ & Hhit & Hmiss & _).
  rewrite (cached_lbas_eq _ _ _ _ Hinv), (cached_lbas_eq _ _ _ _ Hinv'). done.
Qed.

(** [C40] A failing read only happens on a miss, and changes neither which sectors
    are cached nor their order nor the generation; if the medium leaves the buffer
    of a failed transfer alone, the cache stays coherent. *)
Theorem odfs_cache_read_failure {M} (ops : odfs_media_ops M) img ss (c : odfs_cache M) lba err p c' :
  MediaReads ops img ss → cache_ok img ss c → is_u32 lba →
  odfs_cache_read ops c lba = (err, p, c') → err ≠ ODFS_OK →
  (lba ∉ cached_lbas c) ∧ cached_lbas c' = cached_lbas c ∧ generation c' = generation c ∧
  cache_wf c' ∧ (CleanFailure ops → cache_ok img ss c').
Proof.
  intros Hm Hok Hl Hr He. assert (Hf : err_ok err = false) by (by destruct err).
  pose proof (cache_read_ok ops img ss Hm c lba _ _ _ Hok Hl Hr) as Hok'.
  pose proof Hok as ((lru & free & Hinv & Hsh) & Hss & _).
  pose proof (cache_read_spec ops img ss Hm True c lru free _ _ _ _ Hinv Hsh Hss Hl Hr) as Hs.
  rewrite Hf in Hs, Hok'. destruct Hok' as [[Hwf _] Hclean]. destruct Hs as (Hn & Hinv' & _ & Hg & Hlba & _).
  rewrite (cached_lbas_eq _ _ _ _ Hinv), (cached_lbas_eq _ _ _ _ Hinv').
  split_and!; try done. by apply map_ext.
Qed.

(** [C8] A successful byte read fills exactly the first [len] bytes of the buffer
    with the disc's bytes from sector [start], byte [offset] on, whatever mix of
    cached and direct transfers serves it; a failing one reports a count for which
    that still holds. *)
Theorem odfs_cache_read_bytes_correct {M} (ops : odfs_media_ops M) img ss (c : odfs_cache M)
    start offset buf len err buf' n c' :
  MediaReads ops img ss → cache_ok img ss c → ss < 2 ^ 32 →
  is_u32 start → 0 ≤ offset < 2 ^ 63 → 0 ≤ len ≤ zlen buf → start + offset / ss < 2 ^ 32 →
  odfs_cache_read_bytes ops c start offset buf len = (err, buf', n, c') →
  0 ≤ n ≤ len ∧ take (Z.to_nat n) buf' = disc_bytes img ss (start * ss + offset) n ∧
  (err = ODFS_OK → cache_ok img ss c' ∧ n = len ∧ drop (Z.to_nat len) buf' = drop (Z.to_nat len) buf).
Proof.
  intros Hm Hok Hss Hst Ho Hlen Hin Hr. apply (read_bytes_ok ops img ss Hm) in Hr; try done.
  pose proof (length_disc_bytes img ss (start * ss + offset) len).
  destruct (err_ok err) eqn:He.
  - destruct Hr as (Hok' & -> & ->). split_and!; try done; try lia.
    + apply take_app_length'. lia.
    + intros _. split_and!; [done..|]. apply drop_app_length'. lia.
  - destruct Hr as (_ & Hn & _ & Ht). split_and!; try done; try lia. by intros ->.
Qed.

(** [odfs_cache_init] returns a coherent, empty cache of the requested
    capacity, for every capacity and every medium it accepts. *)
Theorem odfs_cache_init_correct {M} (ops : odfs_media_ops M) img ss malloc m cap (c : odfs_cache M) :
  MediaReads ops img ss → 0 ≤ cap → ss < 2 ^ 32 →
  odfs_cache_init ops malloc m cap = (ODFS_OK, c) →
  cache_ok img ss c ∧ cached_lbas c = [] ∧ capacity c = cap ∧ media c = m.
Proof.
  intros Hm Hc Hs Hi. pose proof (mr_size_pos (ops := ops)).
  apply cache_init_inv in Hi as (Hinv & Hcap & Hss & Hpow & Hsft & Hmed); [|done|].
  - rewrite (mr_sector_size (ops := ops)) in Hss.
    unfold cache_ok.
    split_and!; try done; try congruence; [|by eapply cached_lbas_nil].
    exists [], (seqZ 0 cap). split; [done|]. intros _ i. set_solver.
  - rewrite (mr_sector_size (ops := ops)). lia.
Qed.

(** ** A small cache, for the witnesses: 4-byte sectors, two entries *)
Definition demo_img (lba : Z) : list Z := [lba mod 256; 1; 2; 3].
Definition demo_ops : odfs_media_ops unit := image_ops demo_img 100 4.
Definition demo_cache : odfs_cache unit := (odfs_cache_init demo_ops (λ _, true) tt 2).2.
Definition demo_cache_5 : odfs_cache unit := (odfs_cache_read demo_ops demo_cache 5).2.

#[export] Instance demo_reads : MediaReads demo_ops demo_img 4.
Proof. by apply image_ops_reads. Qed.
#[export] Instance demo_clean : CleanFailure demo_ops.
Proof. apply image_ops_clean. Qed.

Lemma demo_cache_ok : cache_ok demo_img 4 demo_cache.
Proof.
  destruct (cache_init_inv demo_ops (λ _, true) tt 2 demo_cache) as (Hinv & _ & Hss & Hpow & Hsft & _);
    [lia|simpl; lia|vm_compute; reflexivity|].
  unfold cache_ok. split_and!; try done. exists [], (seqZ 0 2). split; [done|]. intros _ i. set_solver.
Qed.

Lemma odfs_cache_read_correct_witness :
  odfs_cache_read demo_ops demo_cache 5 = (ODFS_OK, 0, demo_cache_5) ∧
  cache_data demo_cache_5 0 = [5; 1; 2; 3].
Proof.
  split; [vm_compute; reflexivity|].
  destruct (odfs_cache_read_correct demo_ops demo_img 4 demo_cache 5 0 demo_cache_5) as (_ & H & _);
    [apply demo_reads|apply demo_cache_ok|unfold is_u32; lia|vm_compute; reflexivity|exact H].
Defined.

Lemma odfs_cache_read_lru_witness :
  (5 ∉ cached_lbas demo_cache) ∧ cached_lbas demo_cache_5 = [5].
Proof.
  destruct (odfs_cache_read_lru demo_ops demo_img 4 demo_cache 5 0 demo_cache_5) as (_ & H);
    [apply demo_reads|apply demo_cache_ok|unfold is_u32; lia|vm_compute; reflexivity|].
  assert (Hn : 5 ∉ cached_lbas demo_cache) by (vm_compute; intros ?%elem_of_nil; done).
  split; [exact Hn|]. vm_compute. reflexivity.
Defined.

Lemma odfs_cache_read_failure_witness :
  let '(err, _, c') := odfs_cache_read demo_ops demo_cache_5 200 in
  err = ODFS_ERR_EOF ∧ cached_lbas c' = [5].
Proof.
  destruct (odfs_cache_read_correct demo_ops demo_img 4 demo_cache 5 0 demo_cache_5) as (Hok & _);
    [apply demo_reads|apply demo_cache_ok|unfold is_u32; lia|vm_compute; reflexivity|].
  destruct (odfs_cache_read_failure demo_ops demo_img 4 demo_cache_5 200 ODFS_ERR_EOF (-1)
    (odfs_cache_read demo_ops demo_cache_5 200).2) as (_ & H & _);
    [apply demo_reads|exact Hok|unfold is_u32; lia|vm_compute; reflexivity|done|].
  clear. vm_compute. split; reflexivity.
Defined.

Lemma odfs_cache_read_bytes_correct_witness :
  let '(err, buf, n, _) := odfs_cache_read_bytes demo_ops demo_cache 3 2 (replicate 20 0) 13 in
  err = ODFS_OK ∧ n = 13 ∧ take 13 buf = [2; 3; 4; 1; 2; 3; 5; 1; 2; 3; 6; 1; 2].
Proof.
  destruct (odfs_cache_read_bytes demo_ops demo_cache 3 2 (replicate 20 0) 13)
    as [[[err buf] n] c'] eqn:E.
  pose proof (odfs_cache_read_bytes_correct demo_ops demo_img 4 demo_cache 3 2 (replicate 20 0) 13
    err buf n c' demo_reads demo_cache_ok ltac:(lia) ltac:(unfold is_u32; lia) ltac:(lia)
    ltac:(simpl; lia) ltac:(vm_compute; reflexivity) E) as (_ & Ht & Hok).
  assert (Hn : (err, n) = (ODFS_OK, 13)) by
    (transitivity (let '(e, _, k, _) := odfs_cache_read_bytes demo_ops demo_cache 3 2 (replicate 20 0) 13
       in (e, k)); [by rewrite E|vm_compute; reflexivity]).
  injection Hn as -> ->. split_and!; [done|done|]. exact Ht.
Defined.

Lemma odfs_cache_init_correct_witness :
  capacity demo_cache = 2 ∧ cached_lbas demo_cache = [].
Proof.
  destruct (odfs_cache_init_correct demo_ops demo_img 4 (λ _, true) tt 2 demo_cache) as (_ & H & H' & _);
    [apply demo_reads|lia|lia|vm_compute; reflexivity|by split].
Defined.

(** A medium that fails on sector 9 after it has written zeros. *)
Definition torn_ops : odfs_media_ops unit :=
  mk_media_ops unit
    (λ m lba count buf, if lba =? 9 then (ODFS_ERR_IO, replicate (length buf) 0, m)
                        else read_sectors demo_ops m lba count buf)
    (λ _, 4) (λ _, 100) None None None None None.
(** A medium error during a single-sector miss can leave the cache serving
    wrong data as a hit: the transfer goes straight into the buffer of the least
    recently used sector, which stays indexed.  Here the medium writes zeros before
    it fails on sector 9; sector 5 is then served from the cache, as zeros. *)
Theorem odfs_cache_read_error_clobbers :
  let c := (odfs_cache_init torn_ops (λ _, true) tt 1).2 in
  let '(err5, _, c) := odfs_cache_read torn_ops c 5 in
  let '(err9, _, c) := odfs_cache_read torn_ops c 9 in
  let '(err, p, c') := odfs_cache_read torn_ops c 5 in
  err5 = ODFS_OK ∧ err9 = ODFS_ERR_IO ∧ st_hits (stats c') = st_hits (stats c) + 1 ∧
  err = ODFS_OK ∧ cache_data c' p = [0; 0; 0; 0] ∧ demo_img 5 = [5; 1; 2; 3].
Proof. vm_compute. split_and!; reflexivity. Qed.

(** * Byte reads that succeed

    On a medium whose transfers of a range of sectors succeed, byte reads of that range
    do: [BlockCacheRead] says what they deliver. *)

Section spans.
Context {M : Type} (ops : odfs_media_ops M) (img : Z → list Z) (ss : Z).
Context (Hmedium : MediaReads ops img ss) (H32 : ss < 2 ^ 32).
Implicit Types c : odfs_cache M.

(** Transfers of sectors that hold the bytes from [a] up to [b] succeed. *)
Definition medium_spans (a b : Z) : Prop :=
  b ≤ 2 ^ 32 * ss ∧ ∀ m l count buf, 0 < count → a < (l + 1) * ss → (l + count - 1) * ss < b → zlen buf = count * ss →
    (read_sectors ops m l count buf).1.1 = ODFS_OK.
Lemma spans_readable a b l : medium_spans a b → a < (l + 1) * ss → l * ss < b → medium_readable ops ss l.
Proof. intros [_ H] Ha Hb m buf Hl. apply H; lia. Qed.

Section request.
Context (buf0 : list Z) (want base : Z) (Hwant : 0 ≤ want ≤ zlen buf0) (Hbase : 0 ≤ base) (Hspan : medium_spans base (base + want)).
Abbreviation good := (go_ok ops img ss buf0 want base).
Abbreviation filled := (filled img ss buf0 base).
(** The step did not fail. *)
Definition went (s : rd_step (M := M)) : Prop := match s with RdGo _ _ _ _ => True | RdStop _ _ _ _ => False end.

(** A part of one of the sectors. *)
Lemma copy_goes c lba off done n : cache_ok img ss c → 0 ≤ lba < 2 ^ 32 → 0 ≤ off → 0 < n → off + n ≤ ss → 0 ≤ done → done + n ≤ want →
  base + done = lba * ss + off → ∃ buf c', cache_copy_sector ops c lba off (filled done) done n = (ODFS_OK, buf, c').
Proof.
  intros Hok Hl Ho Hn Hs Hd Hw Hb. pose proof (mr_size_pos (ops := ops)) as Hp. unfold cache_copy_sector.
  destruct (block_cache_readable ops img ss Hmedium c lba Hok) as (p & c' & Hr); [exact Hl|eapply spans_readable; [exact Hspan|nia..]|].
  simpl in Hr. rewrite Hr. by eexists _, _.
Qed.
Lemma read_head_goes c lba off : cache_ok img ss c → 0 < want → 0 ≤ lba < 2 ^ 32 → 0 ≤ off < ss → base = lba * ss + off →
  went (read_head ops c (filled 0) want lba off).
Proof.
  intros Hok Hw Hl Ho Hb. pose proof Hok as (_ & Hss & _). unfold read_head. case_test; [done|]. b2p. cbv zeta. rewrite Hss.
  set (chunk := if want <? ss - off then want else ss - off).
  assert (Hch : 0 < chunk ≤ want ∧ off + chunk ≤ ss ∧ (chunk < want → chunk = ss - off)) by (subst chunk; case_test; b2p; lia).
  destruct (copy_goes c lba off 0 chunk Hok Hl ltac:(lia) ltac:(lia) ltac:(lia) ltac:(lia) ltac:(lia) ltac:(lia)) as (buf & c' & ->).
  change (negb (err_ok ODFS_OK)) with false. cbv iota. case_test; [|done]. b2p. exfalso. destruct Hspan as [Hmax _]. unfold UINT32_MAX in *. nia.
Qed.
Lemma sector_loop_goes fuel : ∀ c dn lba, cache_ok img ss c → 0 ≤ dn ≤ want → (dn < want → base + dn = lba * ss ∧ 0 ≤ lba < 2 ^ 32) →
  want - dn < Z.of_nat fuel → went (read_sector_loop ops fuel c (filled dn) want dn lba).
Proof.
  pose proof (mr_size_pos (ops := ops)) as Hp.
  induction fuel as [|fuel IH]; intros c dn lba Hok Hd Hpos Hf; cbn [read_sector_loop]; [done|]. pose proof Hok as (_ & Hss & _). cbv zeta. rewrite Hss.
  case_test; [done|]. b2p. destruct Hpos as [Hb Hl]; [lia|].
  destruct (copy_goes c lba 0 dn ss Hok Hl ltac:(lia) ltac:(lia) ltac:(lia) ltac:(lia) ltac:(lia) ltac:(lia)) as (buf & c' & Hc).
  rewrite Hc. eapply (piece_ok ops img ss Hmedium buf0 want base) in Hc; [|done|lia..]. change (err_ok ODFS_OK) with true in *. destruct Hc as [Hok' ->]. cbn [negb]. cbv iota.
  destruct Hspan as [Hmax _]. case_test; [b2p; unfold UINT32_MAX in *; nia|].
  apply IH; [done|lia| |lia]. intros Hlt. rewrite u32_small by (unfold is_u32; nia). nia.
Qed.
Lemma tail_goes c dn lba : cache_ok img ss c → 0 ≤ dn ≤ want → want - dn < ss → (dn < want → base + dn = lba * ss ∧ 0 ≤ lba < 2 ^ 32) →
  went (read_tail ops c (filled dn) want dn lba).
Proof.
  intros Hok Hd Hs Hpos. unfold read_tail. case_test; [|done]. b2p. destruct Hpos as [Hb Hl]; [done|].
  destruct (copy_goes c lba 0 dn (want - dn) Hok Hl ltac:(lia) ltac:(lia) ltac:(lia) ltac:(lia) ltac:(lia) ltac:(lia)) as (buf & c' & ->). done.
Qed.
Lemma stream_loop_goes fuel : ∀ c dn lba, cache_ok img ss c → 0 ≤ dn ≤ want → (dn < want → base + dn = lba * ss ∧ 0 ≤ lba < 2 ^ 32) →
  want - dn < Z.of_nat fuel → went (read_stream_loop ops fuel c (filled dn) want dn lba).
Proof.
  pose proof (mr_size_pos (ops := ops)) as Hp.
  induction fuel as [|fuel IH]; intros c dn lba Hok Hd Hpos Hf; cbn [read_stream_loop]; [done|]. pose proof Hok as (_ & Hss & _). rewrite Hss. cbv zeta.
  set (full := (want - dn) / ss). assert (Hfull : full * ss ≤ want - dn < (full + 1) * ss) by (subst full; dlia).
  case_test; [done|]. b2p. unfold ODFS_CACHE_STREAM_MIN_SECTORS, UINT32_MAX in *. destruct Hpos as [Hb Hl]; [nia|].
  set (count0 := if full <? 2 ^ 32 - 1 then full else 2 ^ 32 - 1). set (count := if 2 ^ 32 - 1 - lba + 1 <? count0 then 2 ^ 32 - 1 - lba + 1 else count0).
  assert (Hcount : 0 < count ≤ full ∧ lba + count ≤ 2 ^ 32) by (subst count count0; repeat case_test; b2p; lia). clearbody count. clear count0.
  unfold odfs_media_read.
  assert (Hfl : length (filled dn) = length buf0) by (apply (length_filled img ss buf0 want); lia).
  assert (Hsl : length (slice (filled dn) dn (count * ss)) = Z.to_nat (count * ss)) by (apply length_slice; [lia|nia|rewrite Hfl; nia]).
  pose proof Hspan as [Hmax Hr].
  specialize (Hr (media c) lba count (slice (filled dn) dn (count * ss)) ltac:(lia) ltac:(lia) ltac:(nia) ltac:(nia)).
  destruct (read_sectors ops (media c) lba count _) as [[err got] m] eqn:Hread. simpl in Hr. subst err.
  eapply (direct_ok ops img ss Hmedium buf0 want base Hwant c dn lba count) in Hread as (Hgood & _); [|done|lia|nia|lia|lia|lia|lia].
  change (negb (err_ok ODFS_OK)) with false. cbv iota. rewrite Hgood by done.
  case_test; [b2p; nia|]. apply IH; [by apply set_media_ok|nia| |nia]. intros Hlt. rewrite u32_small by (unfold is_u32; nia). nia.
Qed.
End request.

#[export] Instance block_cache_bytes : CacheReadsBytes (odfs_cache M) (H := block_cache_ops ops) (cache_ok img ss) ss medium_spans.
Proof.
  pose proof (mr_size_pos (ops := ops)) as Hp. split.
  { intros a b a' b' [Hm H] Ha Hb. split; [lia|]. intros m l count buf Hc Hal Hbl Hl. apply H; lia. }
  intros c start offset buf len Hok Hst Ho Hlen Hin Hspan. simpl. unfold odfs_cache_read_bytes.
  pose proof Hok as ((lru & free & Hinv & Hsh) & Hss & Hpow & Hsft).
  rewrite (inv_no_entries _ _ _ _ Hinv), (proj2 (Z.eqb_neq (sector_size c) 0)) by lia. cbn [orb].
  case_test; b2p; [by eexists _, _|].
  destruct (split_offset ops img ss Hmedium start offset (sector_shift c)) as [-> Hoff]; [done..|by rewrite <- Hpow|]. rewrite Hss, Hoff.
  unfold UINT32_MAX at 1. rewrite (proj2 (Z.ltb_ge _ _)) by lia. cbv zeta.
  set (lba := start + offset / ss) in *. set (off := offset mod ss). set (base := start * ss + offset) in *.
  assert (Hoffr : 0 ≤ off < ss) by (apply Z.mod_pos_bound; lia).
  assert (Hbase : base = lba * ss + off) by (subst base lba off; pose proof (Z.div_mod offset ss); nia).
  unfold is_u32 in Hst. assert (Hlba : 0 ≤ lba < 2 ^ 32) by (subst lba; pose proof (Z.div_pos offset ss); lia).
  assert (H0 : buf = filled img ss buf base 0) by (unfold filled; simpl; by rewrite drop_0). replace (read_head ops c buf len lba off) with (read_head ops c (filled img ss buf base 0) len lba off) by (by rewrite <- H0).
  assert (Hb0 : 0 ≤ base) by nia.
  assert (Hfuel : ∀ d, 0 ≤ d ≤ len → len - d < Z.of_nat (S (Z.to_nat len))) by lia. set (fuel := S (Z.to_nat len)) in *. clearbody fuel.
  pose proof (read_head_ok ops img ss Hmedium buf len base Hlen c lba off (len + 1) Hok Hlba Hoffr Hbase ltac:(lia)) as G1.
  pose proof (read_head_goes buf len base Hspan c lba off Hok ltac:(lia) Hlba Hoffr Hbase) as W1.
  destruct (read_head _ _ _ _ _ _) as [b1 d1 l1 c1|]; [|done]. destruct G1 as (Ok1 & D1 & -> & _ & P1). cbn [rd_bind].
  pose proof (read_stream_loop_ok ops img ss Hmedium buf len base Hlen fuel c1 d1 l1 Ok1 D1 (Hfuel _ D1) P1) as G2.
  pose proof (stream_loop_goes buf len base Hlen Hb0 Hspan fuel c1 d1 l1 Ok1 D1 P1 (Hfuel _ D1)) as W2.
  destruct (read_stream_loop _ _ _ _ _ _ _) as [b2 d2 l2 c2|]; [|done]. destruct G2 as (Ok2 & D2 & -> & _ & P2). cbn [rd_bind].
  pose proof (read_sector_loop_ok ops img ss Hmedium buf len base Hlen fuel c2 d2 l2 Ok2 D2 (Hfuel _ D2) P2) as G3.
  pose proof (sector_loop_goes buf len base Hlen Hb0 Hspan fuel c2 d2 l2 Ok2 D2 P2 (Hfuel _ D2)) as W3.
  destruct (read_sector_loop _ _ _ _ _ _ _) as [b3 d3 l3 c3|]; [|done]. destruct G3 as (Ok3 & D3 & -> & L3 & P3). cbn [rd_bind].
  pose proof (read_tail_ok ops img ss Hmedium buf len base Hlen c3 d3 l3 Ok3 D3 L3 P3) as G4.
  pose proof (tail_goes buf len base Hspan c3 d3 l3 Ok3 D3 L3 P3) as W4.
  destruct (read_tail _ _ _ _ _ _) as [b4 d4 l4 c4|]; [|done]. destruct G4 as (_ & D4 & _ & L4 & _).
  assert (d4 = len) as -> by lia. by eexists _, _.
Qed.
#[export] Instance block_cache_beyond : CacheBeyond (odfs_cache M) (H := block_cache_ops ops) (cache_ok img ss) ss.
Proof.
  intros c start offset buf len err buf' n c' Hok Hst Ho Hlen Hout. simpl. unfold odfs_cache_read_bytes.
  pose proof Hok as ((lru & free & Hinv & Hsh) & Hss & Hpow & Hsft). pose proof (mr_size_pos (ops := ops)) as Hp.
  rewrite (inv_no_entries _ _ _ _ Hinv), (proj2 (Z.eqb_neq (sector_size c) 0)), (proj2 (Z.eqb_neq len 0)) by lia. cbn [orb].
  rewrite Z.shiftr_div_pow2, <- Hpow, Hss by lia. unfold is_u32 in Hst. pose proof (Z.div_pos offset ss ltac:(lia) ltac:(lia)).
  assert (u64 (start + offset / ss) = start + offset / ss) as ->.
  { unfold u64. apply Z.mod_small. pose proof (Z.div_le_upper_bound offset ss (2 ^ 63) ltac:(lia) ltac:(nia)). lia. }
  unfold UINT32_MAX at 1. rewrite (proj2 (Z.ltb_lt _ _)) by lia. by intros [= <- _ _ _].
Qed.
End spans.
