(* ===== verification/Charset.v ===== *)
(** * Character conversion ([core/charset.c])

    A destination buffer of [dst_size] bytes is filled from its start and closed
    with a NUL, so the conversions are modelled by the bytes written before the
    NUL; [None] means that the function left without closing the string.  A source is the list of its
    [src_len] bytes.  NULL arguments, which the functions reject, have no
    counterpart. *)
From S2P Require Import Prelude Types Strings.
Open Scope Z_scope.

(** ** UTF-8 *)

(** The bytes [odfs_utf8_append] writes for a code point. *)
(* [src: core/charset.c:12-38 odfs_utf8_append] *)
Definition utf8_bytes (cp : Z) : list Z :=
  if cp <? 0x80 then [cp]
  else if cp <? 0x800 then
    [Z.lor 0xC0 (Z.shiftr cp 6); Z.lor 0x80 (Z.land cp 0x3F)]
  else if cp <? 0x10000 then
    [Z.lor 0xE0 (Z.shiftr cp 12); Z.lor 0x80 (Z.land (Z.shiftr cp 6) 0x3F);
     Z.lor 0x80 (Z.land cp 0x3F)]
  else if cp <=? 0x10FFFF then
    [Z.lor 0xF0 (Z.shiftr cp 18); Z.lor 0x80 (Z.land (Z.shiftr cp 12) 0x3F);
     Z.lor 0x80 (Z.land (Z.shiftr cp 6) 0x3F); Z.lor 0x80 (Z.land cp 0x3F)]
  else [63].

(** [None] is the result 0: the character and the NUL do not fit. *)
(* [src: core/charset.c:10-41 odfs_utf8_append] *)
Definition odfs_utf8_append (cp : Z) (dst : list Z) (dst_size : Z) : option (list Z) :=
  let bytes := utf8_bytes cp in
  if dst_size <=? zlen dst + zlen bytes then None else Some (dst ++ bytes).

(* [src: core/charset.c:57-65 odfs_ucs2be_to_utf8] *)
Fixpoint ucs2be_loop (src : list Z) (dst : list Z) (dst_size : Z) : list Z :=
  match src with
  | hi :: lo :: src =>
      let cp := Z.lor (Z.shiftl hi 8) lo in
      if cp =? 0 then dst
      else match odfs_utf8_append cp dst dst_size with
           | None => dst
           | Some dst => ucs2be_loop src dst dst_size
           end
  | _ => dst
  end.
(* [src: core/charset.c:43-72 odfs_ucs2be_to_utf8] *)
Definition odfs_ucs2be_to_utf8 (src : list Z) (dst_size : Z) : odfs_err * option (list Z) :=
  if dst_size =? 0 then (ODFS_ERR_INVAL, None)
  else if negb (Z.land (zlen src) 1 =? 0) then (ODFS_ERR_INVAL, None)
  else (ODFS_OK, Some (ucs2be_loop src [] dst_size)).

(* [src: core/charset.c:78-95 mac_roman_high] *)
Definition mac_roman_high : list Z := [
  0x00C4; 0x00C5; 0x00C7; 0x00C9; 0x00D1; 0x00D6; 0x00DC; 0x00E1;
  0x00E0; 0x00E2; 0x00E4; 0x00E3; 0x00E5; 0x00E7; 0x00E9; 0x00E8;
  0x00EA; 0x00EB; 0x00ED; 0x00EC; 0x00EE; 0x00EF; 0x00F1; 0x00F3;
  0x00F2; 0x00F4; 0x00F6; 0x00F5; 0x00FA; 0x00F9; 0x00FB; 0x00FC;
  0x2020; 0x00B0; 0x00A2; 0x00A3; 0x00A7; 0x2022; 0x00B6; 0x00DF;
  0x00AE; 0x00A9; 0x2122; 0x00B4; 0x00A8; 0x2260; 0x00C6; 0x00D8;
  0x221E; 0x00B1; 0x2264; 0x2265; 0x00A5; 0x00B5; 0x2202; 0x2211;
  0x220F; 0x03C0; 0x222B; 0x00AA; 0x00BA; 0x03A9; 0x00E6; 0x00F8;
  0x00BF; 0x00A1; 0x00AC; 0x221A; 0x0192; 0x2248; 0x2206; 0x00AB;
  0x00BB; 0x2026; 0x00A0; 0x00C0; 0x00C3; 0x00D5; 0x0152; 0x0153;
  0x2013; 0x2014; 0x201C; 0x201D; 0x2018; 0x2019; 0x00F7; 0x25CA;
  0x00FF; 0x0178; 0x2044; 0x20AC; 0x2039; 0x203A; 0xFB01; 0xFB02;
  0x2021; 0x00B7; 0x201A; 0x201E; 0x2030; 0x00C2; 0x00CA; 0x00C1;
  0x00CB; 0x00C8; 0x00CD; 0x00CE; 0x00CF; 0x00CC; 0x00D3; 0x00D4;
  0xF8FF; 0x00D2; 0x00DA; 0x00DB; 0x00D9; 0x0131; 0x02C6; 0x02DC;
  0x00AF; 0x02D8; 0x02D9; 0x02DA; 0x00B8; 0x02DD; 0x02DB; 0x02C7 ].

(** The code point of a Mac Roman byte. *)
(* [src: core/charset.c:102-112 odfs_mac_roman_to_utf8] *)
Definition mac_roman_cp (c : Z) : Z :=
  if c <? 0x20 then 63
  else if c <? 0x80 then c
  else default 0 (zget mac_roman_high (c - 0x80)).
(* [src: core/charset.c:102-116 odfs_mac_roman_to_utf8] *)
Fixpoint mac_roman_loop (src : list Z) (dst : list Z) (dst_size : Z) : list Z :=
  match src with
  | [] => dst
  | c :: src =>
      match odfs_utf8_append (mac_roman_cp c) dst dst_size with
      | None => dst
      | Some dst => mac_roman_loop src dst dst_size
      end
  end.
(* [src: core/charset.c:74-122 odfs_mac_roman_to_utf8] *)
Definition odfs_mac_roman_to_utf8 (src : list Z) (dst_size : Z) : odfs_err * option (list Z) :=
  if dst_size =? 0 then (ODFS_ERR_INVAL, None)
  else (ODFS_OK, Some (mac_roman_loop src [] dst_size)).

(** ** ISO 9660 names *)

(** The bytes up to the version separator, at most [n]. *)
(* [src: core/charset.c:139-146 odfs_iso_name_to_display] *)
Fixpoint copy_to_semicolon (src : list Z) (n : nat) : list Z :=
  match n, src with
  | S n, c :: src => if c =? 59 then [] else c :: copy_to_semicolon src n
  | _, _ => []
  end.
Definition ascii_lower (c : Z) : Z := if (65 <=? c) && (c <=? 90) then c - 65 + 97 else c.
(* [src: core/charset.c:124-160 odfs_iso_name_to_display] *)
Definition odfs_iso_name_to_display (src : list Z) (dst_size : Z) (lowercase : bool)
    : odfs_err * option (list Z) :=
  if dst_size =? 0 then (ODFS_ERR_INVAL, None)
  else
    let src_len := zlen src in
    let n := if dst_size - 1 <? src_len then dst_size - 1 else src_len in
    let dst := copy_to_semicolon src (Z.to_nat n) in
    let i := zlen dst in
    let i := if (i =? src_len) && (0 <? i) && (default 0 (zget src (i - 1)) =? 46)
             then i - 1 else i in
    let dst := take (Z.to_nat i) dst in
    (ODFS_OK, Some (if lowercase then map ascii_lower dst else dst)).

(** The first [len] bytes of a C string, control characters replaced. *)
(* [src: core/charset.c:163-171 odfs_sanitize_name] *)
Fixpoint odfs_sanitize_name (name : list Z) (len : nat) (replacement : Z) : list Z :=
  match len, name with
  | S len, c :: name =>
      if c =? 0 then c :: name
      else (if (c <? 0x20) || (c =? 47) || (c =? 58) || (c =? 0x7F) then replacement else c)
           :: odfs_sanitize_name name len replacement
  | _, _ => name
  end.

(** ** Symbolic link targets *)
(* [src: core/charset.c:174-174 ODFS_PATH_MAX_COMPONENTS] *)
Definition ODFS_PATH_MAX_COMPONENTS : Z := 32.

(* [src: core/charset.c:191-195 odfs_posix_to_amiga_path] *)
Fixpoint skip_slashes (p : list Z) : list Z :=
  match p with c :: p' => if c =? 47 then skip_slashes p' else p | [] => [] end.
(** The component at the start of [p], and what follows it. *)
(* [src: core/charset.c:201-203 odfs_posix_to_amiga_path] *)
Fixpoint take_component (p : list Z) : list Z * list Z :=
  match p with
  | [] => ([], [])
  | c :: p' => if c =? 47 then ([], p) else let '(w, r) := take_component p' in (c :: w, r)
  end.

(** The components kept so far (last first) and the number of leading [..];
    [None] is too many components. *)
(* [src: core/charset.c:197-221 odfs_posix_to_amiga_path] *)
Fixpoint path_components (fuel : nat) (p : list Z) (absolute : bool)
    (comps : list (list Z)) (ups : Z) : option (list (list Z) * Z) :=
  match fuel with
  | O => None
  | S fuel =>
      match p with
      | [] => Some (comps, ups)
      | _ =>
          let '(w, rest) := take_component p in
          let p := skip_slashes rest in
          if bool_decide (w = [46]) then path_components fuel p absolute comps ups
          else if bool_decide (w = [46; 46]) then
            match comps with
            | _ :: comps => path_components fuel p absolute comps ups
            | [] => path_components fuel p absolute [] (if absolute then ups else ups + 1)
            end
          else if ODFS_PATH_MAX_COMPONENTS <=? zlen comps then None
          else path_components fuel p absolute (w :: comps) ups
      end
  end.

(** Appending to the output; [None] is an output that does not fit. *)
(* [src: core/charset.c:223-232 odfs_posix_to_amiga_path] *)
Definition put_char (out_size c : Z) (out : list Z) : option (list Z) :=
  if out_size <=? zlen out + 1 then None else Some (out ++ [c]).
Fixpoint put_slashes (out_size : Z) (n : nat) (out : list Z) : option (list Z) :=
  match n with
  | O => Some out
  | S n => put_char out_size 47 out ≫= put_slashes out_size n
  end.
(* [src: core/charset.c:233-243 odfs_posix_to_amiga_path] *)
Fixpoint put_components (out_size : Z) (first : bool) (comps : list (list Z)) (out : list Z)
    : option (list Z) :=
  match comps with
  | [] => Some out
  | w :: comps =>
      out ← (if first then Some out else put_char out_size 47 out);
      if out_size <=? zlen out + zlen w then None
      else put_components out_size false comps (out ++ w)
  end.

(** [posix] is the C string before its NUL. *)
(* [src: core/charset.c:176-248 odfs_posix_to_amiga_path] *)
Definition odfs_posix_to_amiga_path (posix : list Z) (out_size : Z)
    : odfs_err * option (list Z) :=
  if out_size =? 0 then (ODFS_ERR_INVAL, None)
  else
    let absolute := match posix with c :: _ => c =? 47 | [] => false end in
    let p := if absolute then skip_slashes posix else posix in
    match path_components (S (length p)) p absolute [] 0 with
    | None => (ODFS_ERR_NAME_TOO_LONG, None)
    | Some (comps, ups) =>
        match (out ← (if absolute then put_char out_size 58 [] else Some []);
               out ← put_slashes out_size (Z.to_nat ups) out;
               put_components out_size true (rev comps) out) with
        | None => (ODFS_ERR_NAME_TOO_LONG, None)
        | Some out => (ODFS_OK, Some out)
        end
    end.

(** ** UTF-8 round trip *)

(** The reference decoder; [None] is a malformed sequence. *)
Fixpoint utf8_decode (l : list Z) : option (list Z) :=
  match l with
  | [] => Some []
  | b :: l1 =>
      if b <? 0x80 then cons b <$> utf8_decode l1
      else if b <? 0xC0 then None
      else match l1 with
      | [] => None
      | b1 :: l2 =>
          if b <? 0xE0 then cons ((b - 0xC0) * 64 + (b1 - 0x80)) <$> utf8_decode l2
          else match l2 with
          | [] => None
          | b2 :: l3 =>
              if b <? 0xF0 then
                cons ((b - 0xE0) * 4096 + (b1 - 0x80) * 64 + (b2 - 0x80)) <$> utf8_decode l3
              else match l3 with
              | [] => None
              | b3 :: l4 =>
                  cons ((b - 0xF0) * 262144 + (b1 - 0x80) * 4096 + (b2 - 0x80) * 64 + (b3 - 0x80))
                    <$> utf8_decode l4
              end
          end
      end
  end.

Lemma lor_tag tag n x : 0 ≤ n → 0 ≤ tag → 0 ≤ x < 2 ^ n → Z.lor (tag * 2 ^ n) x = tag * 2 ^ n + x.
Proof.
  intros. rewrite Z.lor_comm, <- Z.shiftl_mul_pow2 by lia.
  rewrite lor_shiftl_add by lia. rewrite Z.shiftl_mul_pow2 by lia. lia.
Qed.
Lemma low6 x : Z.lor 0x80 (Z.land x 0x3F) = 0x80 + x mod 64.
Proof.
  change 0x3F with (Z.ones 6). rewrite Z.land_ones by lia. change 0x80 with (2 * 2 ^ 6).
  rewrite lor_tag; [done|lia|lia|]. apply Z.mod_pos_bound. lia.
Qed.
Lemma high_tag tag n k x : 0 ≤ tag → 0 ≤ n → 0 ≤ k → 0 ≤ x < 2 ^ (n + k) →
  Z.lor (tag * 2 ^ n) (Z.shiftr x k) = tag * 2 ^ n + x / 2 ^ k.
Proof.
  intros. rewrite Z.shiftr_div_pow2 by done. apply lor_tag; [done..|].
  split; [apply Z.div_pos; lia|]. apply Z.div_lt_upper_bound; [lia|]. rewrite <- Z.pow_add_r by lia.
  rewrite (Z.add_comm k n). lia.
Qed.

Lemma utf8_decode_bytes cp r :
  0 ≤ cp ≤ 0x10FFFF → utf8_decode (utf8_bytes cp ++ r) = cons cp <$> utf8_decode r.
Proof.
  intros Hcp. unfold utf8_bytes. repeat case_test; b2p; [| | | |lia].
  - simpl. by rewrite (proj2 (Z.ltb_lt _ _)) by lia.
  - rewrite low6. change 0xC0 with (6 * 2 ^ 5). rewrite (high_tag 6 5 6) by lia.
    simpl app. cbn [utf8_decode].
    rewrite (proj2 (Z.ltb_ge (_ + _) 0x80)), (proj2 (Z.ltb_ge (_ + _) 0xC0)),
      (proj2 (Z.ltb_lt (_ + _) 0xE0)) by dlia. do 2 f_equal. dlia.
  - rewrite !low6. change 0xE0 with (14 * 2 ^ 4). rewrite (high_tag 14 4 12) by lia.
    rewrite Z.shiftr_div_pow2 by lia. simpl app. cbn [utf8_decode].
    rewrite (proj2 (Z.ltb_ge (_ + _) 0x80)), (proj2 (Z.ltb_ge (_ + _) 0xC0)),
      (proj2 (Z.ltb_ge (_ + _) 0xE0)), (proj2 (Z.ltb_lt (_ + _) 0xF0)) by dlia.
    do 2 f_equal. dlia.
  - rewrite !low6. change 0xF0 with (30 * 2 ^ 3). rewrite (high_tag 30 3 18) by lia.
    rewrite !Z.shiftr_div_pow2 by lia. simpl app. cbn [utf8_decode].
    rewrite (proj2 (Z.ltb_ge (_ + _) 0x80)), (proj2 (Z.ltb_ge (_ + _) 0xC0)),
      (proj2 (Z.ltb_ge (_ + _) 0xE0)), (proj2 (Z.ltb_ge (_ + _) 0xF0)) by dlia.
    do 2 f_equal. dlia.
Qed.

(** Encoding a list of code points into a bounded buffer: as many whole
    characters as fit. *)
Fixpoint encode_loop (cps : list Z) (dst : list Z) (dst_size : Z) : list Z :=
  match cps with
  | [] => dst
  | cp :: cps =>
      match odfs_utf8_append cp dst dst_size with
      | None => dst
      | Some dst => encode_loop cps dst dst_size
      end
  end.

Definition utf8 (cps : list Z) : list Z := concat (map utf8_bytes cps).

Lemma utf8_decode_utf8 cps :
  Forall (λ cp, 0 ≤ cp ≤ 0x10FFFF) cps → utf8_decode (utf8 cps) = Some cps.
Proof.
  induction 1 as [|cp cps Hcp _ IH]; [done|]. unfold utf8 in *. simpl.
  rewrite utf8_decode_bytes by done. by rewrite IH.
Qed.

Lemma encode_loop_spec cps dst dst_size :
  zlen dst < dst_size →
  ∃ k, (k ≤ length cps)%nat ∧ encode_loop cps dst dst_size = dst ++ utf8 (take k cps) ∧
    zlen (dst ++ utf8 (take k cps)) < dst_size ∧
    (k = length cps ∨ ∃ cp, cps !! k = Some cp ∧
       dst_size ≤ zlen (dst ++ utf8 (take k cps)) + zlen (utf8_bytes cp)).
Proof.
  revert dst. induction cps as [|cp cps IH]; intros dst Hd; simpl.
  - exists 0%nat. unfold utf8. simpl. rewrite app_nil_r. auto.
  - unfold odfs_utf8_append. cbv zeta. case_test; b2p.
    + exists 0%nat. unfold utf8. simpl. rewrite app_nil_r. split_and!; [lia|done|done|].
      right. by exists cp.
    + destruct (IH (dst ++ utf8_bytes cp)) as (k & Hk & He & Hl & Hmax); [rewrite length_app; lia|].
      assert (Hsplit : (dst ++ utf8_bytes cp) ++ utf8 (take k cps) =
        dst ++ utf8 (take (S k) (cp :: cps))) by (unfold utf8; simpl; by rewrite app_assoc).
      rewrite Hsplit in *. exists (S k). split_and!; [lia|done|done|].
      destruct Hmax as [->|(c & Hc & Hm)]; [by left|]. right. by exists c.
Qed.

(** The code units before the first NUL. *)
Fixpoint ucs2_units (src : list Z) : list Z :=
  match src with
  | hi :: lo :: src =>
      let cp := Z.lor (Z.shiftl hi 8) lo in if cp =? 0 then [] else cp :: ucs2_units src
  | _ => []
  end.

Lemma ucs2be_loop_encode src dst dst_size :
  ucs2be_loop src dst dst_size = encode_loop (ucs2_units src) dst dst_size.
Proof.
  revert dst. remember (length src) as n eqn:Hn. revert src Hn.
  induction n as [n IH] using (well_founded_induction lt_wf). intros src -> dst.
  destruct src as [|hi [|lo src]]; [done..|]. simpl. case_test; [done|]. simpl.
  destruct (odfs_utf8_append _ _ _); [|done]. by apply (IH (length src)); [simpl; lia|].
Qed.

Lemma ucs2_unit_range hi lo : is_byte hi → is_byte lo → 0 ≤ Z.lor (Z.shiftl hi 8) lo < 65536.
Proof.
  unfold is_byte. intros. rewrite Z.lor_comm, lor_shiftl_add by lia. lia.
Qed.
Lemma ucs2_units_range src : Forall is_byte src → Forall (λ u, 0 < u < 65536) (ucs2_units src).
Proof.
  remember (length src) as n eqn:Hn. revert src Hn.
  induction n as [n IH] using (well_founded_induction lt_wf). intros src -> Hb.
  destruct src as [|hi [|lo src]]; [constructor..|]. simpl.
  apply Forall_cons in Hb as [Hhi Hb]. apply Forall_cons in Hb as [Hlo Hb].
  case_test; b2p; [constructor|]. pose proof (ucs2_unit_range hi lo Hhi Hlo).
  constructor; [lia|]. by apply (IH (length src)); [simpl; lia|done|].
Qed.

Lemma mac_roman_loop_encode src dst dst_size :
  mac_roman_loop src dst dst_size = encode_loop (map mac_roman_cp src) dst dst_size.
Proof.
  revert dst. induction src as [|c src IH]; intros dst; [done|]. simpl.
  by destruct (odfs_utf8_append _ _ _).
Qed.
Lemma mac_roman_high_range : Forall (λ cp, 0x80 ≤ cp ≤ 0x10FFFF) mac_roman_high.
Proof. repeat (constructor; [lia|]). constructor. Qed.
Lemma mac_roman_cp_range c : is_byte c → 0x20 ≤ mac_roman_cp c ≤ 0x10FFFF.
Proof.
  intros Hc. unfold mac_roman_cp. unfold is_byte in Hc. repeat case_test; b2p; [lia..|].
  destruct (zget_is_Some mac_roman_high (c - 0x80)) as [x Hx]; [simpl; lia|].
  rewrite Hx. simpl. unfold zget in Hx. rewrite (proj2 (Z.leb_le _ _)) in Hx by lia.
  pose proof mac_roman_high_range as Hr. rewrite Forall_lookup in Hr. specialize (Hr _ _ Hx). lia.
Qed.

(** ** Converted names *)

(** A name as [odfs_namefix_apply] expects it. *)
Definition node_name_ok (n : list Z) : Prop := is_name n ∧ zlen n < ODFS_NAME_MAX.

Lemma is_name_c_str l : Forall is_byte l → is_name (c_str l).
Proof.
  induction 1 as [|b l Hb _ IH]; simpl; [constructor|]. case_test; [constructor|].
  constructor; [|done]. unfold is_byte in Hb. b2p. lia.
Qed.
Lemma utf8_bytes_name cp : 0 < cp ≤ 0x10FFFF → is_name (utf8_bytes cp).
Proof.
  intros Hcp. unfold utf8_bytes. rewrite !low6. unfold is_name.
  repeat case_test; b2p; repeat constructor; try dlia.
  - change 0xC0 with (3 * 2 ^ 6). rewrite high_tag; [|lia..]. dlia.
  - change 0xC0 with (3 * 2 ^ 6). rewrite high_tag; [|lia..]. dlia.
  - change 0xE0 with (14 * 2 ^ 4). rewrite high_tag; [|lia..]. dlia.
  - change 0xE0 with (14 * 2 ^ 4). rewrite high_tag; [|lia..]. dlia.
  - change 0xF0 with (30 * 2 ^ 3). rewrite high_tag; [|lia..]. dlia.
  - change 0xF0 with (30 * 2 ^ 3). rewrite high_tag; [|lia..]. dlia.
Qed.
Lemma encode_name cps n : Forall (λ cp, 0 < cp ≤ 0x10FFFF) cps → 0 < n →
  is_name (encode_loop cps [] n) ∧ zlen (encode_loop cps [] n) < n.
Proof.
  intros Hu Hn. destruct (encode_loop_spec cps [] n) as (k & _ & -> & Hl & _); [simpl; lia|]. split; [|exact Hl]. clear Hl.
  simpl. apply (Forall_take _ k) in Hu. induction Hu as [|u us Hu _ IH]; [constructor|].
  change (utf8 (u :: us)) with (utf8_bytes u ++ utf8 us). apply Forall_app. split; [|done]. by apply utf8_bytes_name.
Qed.
Lemma ucs2be_name src : Forall is_byte src → node_name_ok (ucs2be_loop src [] ODFS_NAME_MAX).
Proof.
  intros Hs. rewrite ucs2be_loop_encode. apply encode_name; [|unfold ODFS_NAME_MAX; lia].
  eapply Forall_impl; [exact (ucs2_units_range _ Hs)|]. simpl. lia.
Qed.
Lemma mac_roman_name src : Forall is_byte src → node_name_ok (mac_roman_loop src [] ODFS_NAME_MAX).
Proof.
  intros Hs. rewrite mac_roman_loop_encode. apply encode_name; [|unfold ODFS_NAME_MAX; lia].
  apply Forall_map. eapply Forall_impl; [exact Hs|]. intros c Hc. pose proof (mac_roman_cp_range c Hc). simpl. lia.
Qed.


(** ** Symbolic links: what a path means *)

(** The [/]-separated words of a path, empty ones dropped. *)
Fixpoint words (p : list Z) (cur : list Z) : list (list Z) :=
  match p with
  | [] => match cur with [] => [] | _ => [rev cur] end
  | c :: p => if c =? 47 then match cur with [] => words p [] | _ => rev cur :: words p [] end
              else words p (c :: cur)
  end.

(** A directory is the list of its components, innermost first. *)
Definition posix_step (dir : list (list Z)) (w : list Z) : list (list Z) :=
  if bool_decide (w = [46]) then dir
  else if bool_decide (w = [46; 46]) then tail dir else w :: dir.
(** POSIX resolution (textual) of [p] seen from [cwd]. *)
Definition posix_resolve (cwd : list (list Z)) (p : list Z) : list (list Z) :=
  fold_left posix_step (words p [])
    (match p with c :: _ => if c =? 47 then [] else cwd | [] => cwd end).

(** AmigaDOS: a [/] where a name may start is the parent directory, elsewhere a
    separator; [:] starts at the root. *)
Fixpoint amiga_walk (fuel : nat) (dir : list (list Z)) (p : list Z) : list (list Z) :=
  match fuel with
  | O => dir
  | S fuel =>
      match p with
      | [] => dir
      | c :: p' =>
          if c =? 47 then amiga_walk fuel (tail dir) p'
          else let '(w, rest) := take_component p in amiga_walk fuel (w :: dir) (tail rest)
      end
  end.
Definition amiga_resolve (cwd : list (list Z)) (p : list Z) : list (list Z) :=
  match p with
  | c :: p' => if c =? 58 then amiga_walk (S (length p')) [] p' else amiga_walk (S (length p)) cwd p
  | [] => cwd
  end.

(** A word: non-empty, no slash. *)
Definition is_word (w : list Z) : Prop := w ≠ [] ∧ Forall (λ c, c ≠ 47) w.

Lemma take_component_spec p :
  let '(w, rest) := take_component p in
  p = w ++ rest ∧ Forall (λ c, c ≠ 47) w ∧ (rest = [] ∨ ∃ r, rest = 47 :: r).
Proof.
  induction p as [|c p IH]; simpl; [auto|]. case_test; b2p.
  - subst. split_and!; [done|constructor|]. right. eauto.
  - destruct (take_component p) as [w rest]. destruct IH as (-> & Hw & Hr).
    split_and!; [done|by constructor|done].
Qed.
Lemma take_component_word w rest :
  Forall (λ c, c ≠ 47) w → (rest = [] ∨ ∃ r, rest = 47 :: r) → take_component (w ++ rest) = (w, rest).
Proof.
  induction 1 as [|c w Hc _ IH]; intros Hr; simpl.
  - destruct Hr as [->|[r ->]]; done.
  - rewrite (proj2 (Z.eqb_neq c 47)) by done. by rewrite IH.
Qed.

Lemma words_app w rest cur :
  Forall (λ c, c ≠ 47) w → words (w ++ rest) cur = words rest (rev w ++ cur).
Proof.
  intros Hw. revert cur. induction Hw as [|c w Hc _ IH]; intros cur; [done|]. simpl.
  rewrite (proj2 (Z.eqb_neq c 47)) by done. rewrite IH, <- app_assoc. done.
Qed.
Lemma words_skip p : words (skip_slashes p) [] = words p [].
Proof. induction p as [|c p IH]; simpl; [done|]. case_test; [done|]. simpl. by rewrite E. Qed.
Lemma length_skip p : (length (skip_slashes p) ≤ length p)%nat.
Proof. induction p as [|c p IH]; simpl; [lia|]. case_test; simpl; lia. Qed.

Lemma skip_slashes_head p c p' : skip_slashes p = c :: p' → c ≠ 47.
Proof. induction p as [|d p IH]; simpl; [done|]. case_test; b2p; [done|]. by intros [= -> ->]. Qed.
Lemma skip_slashes_suffix p : ∃ a, p = a ++ skip_slashes p.
Proof.
  induction p as [|c p [a IH]]; simpl; [by exists []|]. case_test; [|by exists []].
  exists (c :: a). simpl. congruence.
Qed.

(** The next word of a path that does not start with a slash. *)
Lemma words_cons c p w rest :
  c ≠ 47 → take_component (c :: p) = (w, rest) →
  is_word w ∧ words (c :: p) [] = w :: words (skip_slashes rest) [] ∧
  (length (skip_slashes rest) < length (c :: p))%nat ∧
  ∃ a, c :: p = w ++ a ++ skip_slashes rest.
Proof.
  intros Hc Ht. pose proof (take_component_spec (c :: p)) as Hs. rewrite Ht in Hs.
  destruct Hs as (Hp & Hw & Hr).
  assert (Hne : w ≠ []).
  { intros ->. simpl in Hp. subst rest. destruct Hr as [?|[r [= ?]]]; done. }
  assert (Hrest : words rest (rev w) = w :: words (skip_slashes rest) []).
  { destruct Hr as [->|[r ->]]; simpl.
    - destruct (rev w) eqn:E; [|by rewrite <- E, rev_involutive].
      apply (f_equal (@rev Z)) in E. by rewrite rev_involutive in E.
    - rewrite words_skip. destruct (rev w) eqn:E; [|by rewrite <- E, rev_involutive].
      apply (f_equal (@rev Z)) in E. by rewrite rev_involutive in E. }
  split_and!; [done| | |].
  - by rewrite Hp, words_app, app_nil_r.
  - rewrite Hp, length_app. pose proof (length_skip rest). destruct w; [done|]. simpl. lia.
  - destruct (skip_slashes_suffix rest) as [a Ha]. exists a. by rewrite <- Ha.
Qed.

(** [path_components] computes what the words of the path do to a directory:
    drop [ups] levels, then push [comps]. *)
Definition effect (absolute : bool) (comps : list (list Z)) (ups : Z) (dir : list (list Z)) :=
  comps ++ drop (Z.to_nat ups) (if absolute then [] else dir).

Lemma posix_step_dotdot dir : posix_step dir [46; 46] = tail dir.
Proof. done. Qed.
Lemma posix_step_word dir w : w ≠ [46] → w ≠ [46; 46] → posix_step dir w = w :: dir.
Proof. intros. unfold posix_step. by rewrite !bool_decide_eq_false_2. Qed.

Lemma path_components_ok fuel p absolute comps ups comps' ups' dir :
  (length p < fuel)%nat → (∀ c p', p = c :: p' → c ≠ 47) → 0 ≤ ups → (absolute = true → ups = 0) →
  Forall is_word comps →
  path_components fuel p absolute comps ups = Some (comps', ups') →
  effect absolute comps' ups' dir =
    fold_left posix_step (words p []) (effect absolute comps ups dir) ∧
  0 ≤ ups' ∧ (absolute = true → ups' = 0) ∧ Forall is_word comps' ∧
  (∀ P, Forall P p → Forall (Forall P) comps → Forall (Forall P) comps').
Proof.
  revert p comps ups. induction fuel as [|fuel IH]; intros p comps ups Hf Hp Hu Ha Hc; [lia|].
  cbn [path_components]. destruct p as [|c p]; [intros [= <- <-]; by split_and!|].
  destruct (take_component (c :: p)) as [w rest] eqn:Ht.
  destruct (words_cons c p w rest) as (Hw & -> & Hlen & (a & Ha')); [by eapply Hp|done|].
  assert (Hrec : ∀ comps1 ups1, 0 ≤ ups1 → (absolute = true → ups1 = 0) → Forall is_word comps1 →
    effect absolute comps1 ups1 dir = posix_step (effect absolute comps ups dir) w →
    (∀ P, Forall P (c :: p) → Forall (Forall P) comps → Forall (Forall P) comps1) →
    path_components fuel (skip_slashes rest) absolute comps1 ups1 = Some (comps', ups') →
    effect absolute comps' ups' dir =
      fold_left posix_step (w :: words (skip_slashes rest) []) (effect absolute comps ups dir) ∧
    0 ≤ ups' ∧ (absolute = true → ups' = 0) ∧ Forall is_word comps' ∧
    (∀ P, Forall P (c :: p) → Forall (Forall P) comps → Forall (Forall P) comps')).
  { intros comps1 ups1 Hu1 Ha1 Hc1 He1 HP1 Hr.
    destruct (IH (skip_slashes rest) comps1 ups1 ltac:(simpl in *; lia) (skip_slashes_head rest) Hu1 Ha1 Hc1 Hr) as (H1 & H2 & H3 & H4 & H5).
    simpl. rewrite <- He1. split_and!; [exact H1|exact H2|exact H3|exact H4|].
    intros P HPp HPc. apply H5; [|by apply HP1].
    rewrite Ha' in HPp. apply Forall_app in HPp as [_ HPp]. by apply Forall_app in HPp as [_ HPp]. }
  cbv zeta. case_test; b2p; [subst w|case_test; b2p; [subst w|]].
  - intros Hr. by apply (Hrec comps ups).
  - destruct comps as [|x comps]; intros Hr.
    + apply (Hrec [] (if absolute then ups else ups + 1)); try done.
      * by destruct absolute; lia.
      * by intros ->; auto.
      * unfold effect. rewrite posix_step_dotdot. simpl. destruct absolute; [by rewrite Ha|].
        rewrite Z2Nat.inj_add, <- drop_drop by lia. by destruct (drop _ dir).
    + apply Forall_cons in Hc as [? Hc]. apply (Hrec comps ups); try done.
      by intros P _ [? ?]%Forall_cons.
  - case_test; [done|]. intros Hr. apply (Hrec (w :: comps) ups); try done; [by constructor| |].
    + by rewrite posix_step_word.
    + intros P HP HPc. constructor; [|done]. rewrite Ha' in HP. by apply Forall_app in HP as [? _].
Qed.

(** The rendered components push themselves. *)
Definition join (comps : list (list Z)) : list Z :=
  match comps with [] => [] | w :: ws => w ++ concat (map (cons 47) ws) end.

Lemma put_components_ok out_size first comps out out' :
  put_components out_size first comps out = Some out' → zlen out < out_size →
  out' = out ++ (if first then join comps else concat (map (cons 47) comps)) ∧ zlen out' < out_size.
Proof.
  revert first out. induction comps as [|w comps IH]; intros first out; simpl.
  - intros [= <-]. destruct first; simpl; by rewrite app_nil_r.
  - unfold put_char. destruct first; simpl.
    + case_test; [done|]. b2p. intros Hp Hl. apply IH in Hp as [-> Hl']; [|rewrite length_app; lia].
      split; [by rewrite <- app_assoc|done].
    + case_test; [done|]. simpl. case_test; [done|]. b2p. intros Hp Hl.
      apply IH in Hp as [-> Hl']; [|rewrite length_app; lia]. split; [|done].
      by rewrite <- !app_assoc.
Qed.

Lemma put_slashes_ok out_size n out out' :
  put_slashes out_size n out = Some out' → zlen out < out_size →
  out' = out ++ replicate n 47 ∧ zlen out' < out_size.
Proof.
  revert out. induction n as [|n IH]; intros out; simpl.
  - intros [= <-]. by rewrite app_nil_r.
  - unfold put_char. case_test; [done|]. b2p. simpl. intros Hp Hl.
    apply IH in Hp as [-> Hl']; [|rewrite length_app; simpl; lia].
    split; [by rewrite <- app_assoc|done].
Qed.

Lemma amiga_walk_join fuel dir comps :
  Forall is_word comps → (length (join comps) < fuel)%nat →
  amiga_walk fuel dir (join comps) = rev comps ++ dir.
Proof.
  intros Hc. revert dir fuel. induction Hc as [|w comps [Hne Hw] Hc IH]; intros dir fuel Hf.
  - by destruct fuel.
  - assert (Hj : join (w :: comps) = w ++ match comps with [] => [] | _ => 47 :: join comps end)
      by (simpl; by destruct comps).
    rewrite Hj in Hf |- *. clear Hj. destruct fuel as [|fuel]; [lia|]. cbn [amiga_walk].
    destruct w as [|c w]; [done|]. cbn [app]. pose proof Hw as [Hc47 _]%Forall_cons.
    rewrite (proj2 (Z.eqb_neq c 47)) by done.
    set (rest := match comps with [] => [] | _ => _ end) in *.
    assert (Ht : take_component (c :: w ++ rest) = (c :: w, rest))
      by (apply (take_component_word (c :: w)); [done|subst rest; destruct comps; eauto]).
    rewrite Ht. subst rest.
    rewrite length_app in Hf. simpl in Hf. simpl rev. rewrite <- app_assoc.
    destruct comps as [|w' comps]; simpl tail.
    + by destruct fuel.
    + rewrite IH; [done|]. simpl in *. lia.
Qed.

Lemma amiga_walk_ups fuel dir n p :
  (n < fuel)%nat →
  amiga_walk fuel dir (replicate n 47 ++ p) = amiga_walk (fuel - n) (drop n dir) p.
Proof.
  revert fuel dir. induction n as [|n IH]; intros fuel dir Hf.
  - simpl. by rewrite Nat.sub_0_r, drop_0.
  - destruct fuel as [|fuel]; [lia|]. cbn [replicate app amiga_walk]. simpl (47 =? 47). cbv iota.
    rewrite IH by lia. replace (drop n (tail dir)) with (drop (S n) dir); [done|].
    destruct dir; simpl; by rewrite ?drop_nil.
Qed.

(** *** Properties *)

(** The Joliet name conversion writes the UTF-8 form of the code units before
    the first NUL: decoding its output gives them back, all of them or, when the
    buffer is short, the longest prefix that fits in whole characters. *)
Theorem ucs2be_to_utf8_roundtrip src dst_size err out :
  Forall is_byte src → 0 < dst_size →
  odfs_ucs2be_to_utf8 src dst_size = (err, out) →
  (err = ODFS_OK ↔ Z.even (zlen src) = true) ∧
  (err = ODFS_OK → ∃ s k, out = Some s ∧ utf8_decode s = Some (take k (ucs2_units src)) ∧
     zlen s < dst_size ∧
     (k = length (ucs2_units src) ∨
      ∃ u, ucs2_units src !! k = Some u ∧ dst_size ≤ zlen s + zlen (utf8_bytes u))).
Proof.
  intros Hb Hd. unfold odfs_ucs2be_to_utf8. rewrite (proj2 (Z.eqb_neq _ _)) by lia.
  assert (Heven : (Z.land (zlen src) 1 =? 0) = Z.even (zlen src)).
  { change 1 with (Z.ones 1). rewrite Z.land_ones, Z.pow_1_r, Zmod_even by lia. by destruct (Z.even _). }
  rewrite Heven. destruct (Z.even (zlen src)); simpl; intros [= <- <-]; [|split; [split; done|done]].
  split; [done|]. intros _. rewrite ucs2be_loop_encode.
  destruct (encode_loop_spec (ucs2_units src) [] dst_size) as (k & _ & He & Hl & Hmax); [simpl; lia|].
  simpl in *. exists (utf8 (take k (ucs2_units src))), k. rewrite He. split_and!; try done.
  apply utf8_decode_utf8, Forall_take. eapply Forall_impl; [by apply ucs2_units_range|].
  simpl. lia.
Qed.

(** [Ä;1]: the suffix is not cut here, and a 3-byte buffer holds one character. *)
Lemma ucs2be_to_utf8_roundtrip_witness :
  odfs_ucs2be_to_utf8 [0; 196; 0; 65] 3 = (ODFS_OK, Some [195; 132]) ∧
  utf8_decode [195; 132] = Some [196].
Proof.
  destruct (ucs2be_to_utf8_roundtrip [0; 196; 0; 65] 3 ODFS_OK (Some [195; 132])) as [_ H];
    [repeat constructor; lia|lia|vm_compute; reflexivity|].
  split; [vm_compute; reflexivity|]. destruct (H eq_refl) as (s & k & [= <-] & Hk & _).
  rewrite Hk. by destruct k as [|[|k]]; vm_compute in Hk.
Defined.

(** The AmigaDOS path a symbolic link is translated to names the object the
    POSIX target names, whatever directory it is resolved from, and fits the
    buffer with its NUL; targets with a colon, which AmigaDOS cannot express, are
    excepted. *)
Theorem posix_to_amiga_path_resolves cwd posix out_size out :
  Forall (λ c, c ≠ 58) posix → 0 < out_size →
  odfs_posix_to_amiga_path posix out_size = (ODFS_OK, Some out) →
  amiga_resolve cwd out = posix_resolve cwd posix ∧ zlen out < out_size.
Proof.
  intros Hcolon Hs. unfold odfs_posix_to_amiga_path. rewrite (proj2 (Z.eqb_neq _ _)) by lia. cbv zeta.
  set (absolute := match posix with c :: _ => c =? 47 | [] => false end).
  set (p := if absolute then skip_slashes posix else posix).
  destruct (path_components (S (length p)) p absolute [] 0) as [[comps ups]|] eqn:Hp; [|done].
  assert (Hhead : ∀ c p', p = c :: p' → c ≠ 47).
  { subst p absolute. destruct posix as [|c posix]; [done|].
    destruct (c =? 47) eqn:E; [apply skip_slashes_head|]. b2p. by intros c' p' [= -> _]. }
  destruct (path_components_ok _ _ _ _ _ _ _ cwd (Nat.lt_succ_diag_r _) Hhead
    (Z.le_refl 0) (λ _, eq_refl) (Forall_nil_2 _) Hp) as (He & Hu & Ha & Hc & HP).
  assert (Hcc : Forall (Forall (λ c, c ≠ 58)) comps).
  { apply HP; [|constructor]. subst p. destruct absolute; [|done].
    destruct (skip_slashes_suffix posix) as [a Ha']. rewrite Ha' in Hcolon.
    by apply Forall_app in Hcolon as [_ ?]. }
  assert (Hwords : posix_resolve cwd posix = effect absolute comps ups cwd).
  { rewrite He. unfold posix_resolve, effect. simpl. subst p absolute.
    destruct posix as [|c posix]; [done|]. destruct (c =? 47) eqn:E; [|done].
    by rewrite words_skip. }
  rewrite Hwords. clear He Hwords HP Hhead Hp Hcolon. destruct absolute eqn:Habs.
  - rewrite (Ha eq_refl) in *. unfold put_char. simpl. case_test; [done|]. simpl.
    destruct (put_components _ _ _ _) as [o|] eqn:Hput; [|done]. intros [= <-]. b2p.
    apply put_components_ok in Hput as [-> Hl]; [|simpl; lia]. split; [|done].
    change (amiga_resolve cwd _) with (amiga_walk (S (length (join (rev comps)))) [] (join (rev comps))).
    rewrite amiga_walk_join; [|by apply Forall_rev|lia]. unfold effect. by rewrite rev_involutive.
  - simpl. destruct (put_slashes _ _ _) as [o1|] eqn:Hsl; [|done]. simpl.
    destruct (put_components _ _ _ _) as [o|] eqn:Hput; [|done]. intros [= <-].
    apply put_slashes_ok in Hsl as [-> Hl1]; [|simpl; lia]. simpl in *.
    apply put_components_ok in Hput as [-> Hl]; [|done]. split; [|done].
    set (n := Z.to_nat ups) in *.
    assert (Hwalk : amiga_walk (S (length (replicate n 47 ++ join (rev comps)))) cwd
      (replicate n 47 ++ join (rev comps)) = comps ++ drop n cwd).
    { rewrite amiga_walk_ups by (rewrite length_app, length_replicate; lia).
      rewrite amiga_walk_join; [by rewrite rev_involutive|by apply Forall_rev|].
      rewrite length_app, length_replicate. lia. }
    transitivity (comps ++ drop n cwd); [|done]. rewrite <- Hwalk. unfold amiga_resolve.
    destruct (replicate n 47 ++ join (rev comps)) as [|c o] eqn:Ho.
    { by destruct (length _). }
    rewrite (proj2 (Z.eqb_neq c 58)); [done|]. destruct n; simpl in Ho; [|by injection Ho as <- _].
    destruct (rev comps) as [|w ws] eqn:Hr; [done|]. simpl in Ho.
    assert (Hw : w ∈ comps) by (apply list_elem_of_In, in_rev; rewrite Hr; by left).
    rewrite Forall_forall in Hc, Hcc. destruct (Hc w Hw) as [Hne _]. specialize (Hcc w Hw).
    destruct w as [|d w]; [done|]. injection Ho as <- _. by apply Forall_cons in Hcc as [? _].
Qed.

(** [../lib/./a/../b] from [work/src] is [work/lib/b]; in AmigaDOS [/lib/b]. *)
Lemma posix_to_amiga_path_resolves_witness :
  amiga_resolve [[115]; [119]] [47; 108; 47; 98] = posix_resolve [[115]; [119]]
    [46; 46; 47; 108; 47; 46; 47; 97; 47; 46; 46; 47; 98].
Proof.
  apply (posix_to_amiga_path_resolves [[115]; [119]]
    [46; 46; 47; 108; 47; 46; 47; 97; 47; 46; 46; 47; 98] 80 [47; 108; 47; 98]);
    [repeat constructor; done|lia|vm_compute; reflexivity].
Defined.
