(* ===== verification/Timestamp.v ===== *)
(** * Timestamps ([core/timestamp.c])

    Seconds since 1904 (HFS and HFS+) to calendar fields.  The year loop runs at
    most [(2 ^ 32 - ODFS_MAC_EPOCH) / (365 * 86400) = 70] times; its fuel is 128.
    The reference is the closed formula for the days before a date. *)
From S2P Require Import Prelude Types.
Open Scope Z_scope.

(* [src: core/timestamp.c:11-11 ODFS_MAC_EPOCH] *)
Definition ODFS_MAC_EPOCH : Z := 2082844800.

(* [src: core/timestamp.c:16-18 mdays] *)
Definition mdays : list Z := [31; 28; 31; 30; 31; 30; 31; 31; 30; 31; 30; 31].

(* [src: core/timestamp.c:39-41 odfs_timestamp_from_mac_time] *)
Definition is_leap (year : Z) : bool :=
  (year mod 4 =? 0) && (negb (year mod 100 =? 0) || (year mod 400 =? 0)).
Definition year_days (year : Z) : Z := 365 + (if is_leap year then 1 else 0).
(* [src: core/timestamp.c:53-53 odfs_timestamp_from_mac_time] *)
Definition month_days (leap month : Z) : Z :=
  default 0 (zget mdays month) + (if month =? 1 then leap else 0).

(* [src: core/timestamp.c:38-47 odfs_timestamp_from_mac_time] *)
Fixpoint year_loop (fuel : nat) (year days : Z) : Z * Z :=
  match fuel with
  | O => (year, days)
  | S fuel =>
      if days <? year_days year then (year, days)
      else year_loop fuel (year + 1) (days - year_days year)
  end.
(** [n] months are left to try. *)
(* [src: core/timestamp.c:52-58 odfs_timestamp_from_mac_time] *)
Fixpoint month_loop (n : nat) (leap month days : Z) : Z * Z :=
  match n with
  | O => (month, days)
  | S n =>
      if days <? month_days leap month then (month, days)
      else month_loop n leap (month + 1) (days - month_days leap month)
  end.

(* [src: core/timestamp.c:13-61 odfs_timestamp_from_mac_time] *)
Definition odfs_timestamp_from_mac_time (mac_secs : Z) : odfs_timestamp :=
  if mac_secs <? ODFS_MAC_EPOCH then timestamp_zero
  else
    let unix_secs := mac_secs - ODFS_MAC_EPOCH in
    let days := unix_secs / 86400 in
    let rem := unix_secs mod 86400 in
    let '(year, days) := year_loop 128 1970 days in
    let leap := if is_leap year then 1 else 0 in
    let '(month, days) := month_loop 12 leap 0 days in
    mk_timestamp year (u8 (month + 1)) (u8 (days + 1))
      (u8 (rem / 3600)) (u8 (rem mod 3600 / 60)) (u8 (rem mod 60)) 0.

(** ** The calendar *)

(** Leap days in the years up to and including [y]. *)
Definition leaps (y : Z) : Z := y / 4 - y / 100 + y / 400.
(** Days from 1970-01-01 to the first of January of [y]. *)
Definition days_before_year (y : Z) : Z := 365 * (y - 1970) + (leaps (y - 1) - leaps 1969).
(** Days of the year before the month [m] (0 is January). *)
Definition days_before_month (leap : Z) (m : nat) : Z :=
  fold_right Z.add 0 (map (month_days leap) (seqZ 0 (Z.of_nat m))).
(** Seconds since 1970-01-01 00:00:00 of calendar fields. *)
Definition civil_seconds (t : odfs_timestamp) : Z :=
  86400 * (days_before_year (year t) +
           days_before_month (if is_leap (year t) then 1 else 0) (Z.to_nat (month t - 1)) +
           (day t - 1)) + 3600 * hour t + 60 * minute t + second t.
Definition valid_civil (t : odfs_timestamp) : Prop :=
  1 ≤ month t ≤ 12 ∧
  1 ≤ day t ≤ month_days (if is_leap (year t) then 1 else 0) (month t - 1) ∧
  0 ≤ hour t < 24 ∧ 0 ≤ minute t < 60 ∧ 0 ≤ second t < 60.

Lemma leaps_step y : leaps y = leaps (y - 1) + (if is_leap y then 1 else 0).
Proof. unfold leaps, is_leap. repeat case_test; b2p; dlia. Qed.
Lemma days_before_year_step y : days_before_year (y + 1) = days_before_year y + year_days y.
Proof.
  unfold days_before_year, year_days. replace (y + 1 - 1) with y by lia.
  rewrite (leaps_step y). lia.
Qed.

Lemma year_loop_ok fuel y d y' d' :
  0 ≤ d < 365 * Z.of_nat fuel → year_loop fuel y d = (y', d') →
  y ≤ y' ≤ y + Z.of_nat fuel ∧ 0 ≤ d' < year_days y' ∧
  days_before_year y' + d' = days_before_year y + d.
Proof.
  revert y d. induction fuel as [|fuel IH]; intros y d Hd; [lia|]. cbn [year_loop].
  case_test; b2p; [intros [= <- <-]; split_and!; lia|].
  assert (365 ≤ year_days y) by (unfold year_days; case_test; lia).
  intros H'. apply IH in H' as (? & ? & He); [|lia].
  rewrite days_before_year_step in He. split_and!; lia.
Qed.

Lemma days_before_month_step leap m :
  days_before_month leap (S m) = days_before_month leap m + month_days leap (Z.of_nat m).
Proof.
  unfold days_before_month. rewrite Nat2Z.inj_succ, <- Z.add_1_r, seqZ_app, map_app by lia.
  rewrite Z.add_0_l. assert (seqZ (Z.of_nat m) 1 = [Z.of_nat m]) as -> by by rewrite seqZ_cons.
  cbn [map]. generalize (map (month_days leap) (seqZ 0 (Z.of_nat m))) as l.
  induction l as [|x l IH]; cbn [app fold_right]; [lia|]. rewrite IH. lia.
Qed.

Lemma month_loop_ok n leap m d m' d' :
  0 ≤ d → d < fold_right Z.add 0 (map (month_days leap) (seqZ (Z.of_nat m) (Z.of_nat n))) →
  month_loop n leap (Z.of_nat m) d = (m', d') →
  Z.of_nat m ≤ m' < Z.of_nat (m + n) ∧ 0 ≤ d' < month_days leap m' ∧
  days_before_month leap (Z.to_nat m') + d' = days_before_month leap m + d.
Proof.
  revert m d. induction n as [|n IH]; intros m d Hd; [simpl; lia|].
  rewrite seqZ_cons by lia. cbn [map fold_right month_loop]. intros Hs.
  case_test; b2p; [intros [= <- <-]; rewrite Nat2Z.id; split_and!; lia|].
  replace (Z.of_nat m + 1) with (Z.of_nat (S m)) by lia.
  intros H'. apply IH in H' as (? & ? & He).
  - rewrite days_before_month_step in He. split_and!; lia.
  - lia.
  - replace (Z.pred (Z.of_nat (S n))) with (Z.of_nat n) in Hs by lia.
    replace (Z.succ (Z.of_nat m)) with (Z.of_nat (S m)) in Hs by lia. lia.
Qed.

(** Every 32-bit HFS time from 1970 on becomes a valid calendar date whose
    distance from 1970 is exactly the time it was made from; earlier times become
    the zero timestamp. *)
Theorem timestamp_from_mac_time_exact mac_secs :
  is_u32 mac_secs →
  let t := odfs_timestamp_from_mac_time mac_secs in
  (mac_secs < ODFS_MAC_EPOCH → t = timestamp_zero) ∧
  (ODFS_MAC_EPOCH ≤ mac_secs →
     valid_civil t ∧ civil_seconds t = mac_secs - ODFS_MAC_EPOCH ∧ 1970 ≤ year t ≤ 2040).
Proof.
  intros Hu. cbv zeta. unfold odfs_timestamp_from_mac_time. split; intros Hm.
  { by rewrite (proj2 (Z.ltb_lt _ _)). }
  rewrite (proj2 (Z.ltb_ge _ _)) by done. cbv zeta. unfold is_u32, ODFS_MAC_EPOCH in *.
  set (s := mac_secs - 2082844800).
  destruct (year_loop 128 1970 (s / 86400)) as [y d] eqn:Hy.
  apply year_loop_ok in Hy as (Hyr & Hd & He); [|subst s; dlia].
  set (leap := if is_leap y then 1 else 0).
  destruct (month_loop 12 leap 0 d) as [m dd] eqn:Hml.
  apply (month_loop_ok 12 leap 0) in Hml as (Hmr & Hdd & He'); [|lia|].
  2:{ unfold year_days in Hd. subst leap. destruct (is_leap y); vm_compute fold_right; lia. }
  change (days_before_month leap 0) with 0 in He'. change (days_before_year 1970) with 0 in He.
  assert (Hmd : month_days leap m ≤ 31).
  { assert (Forall (λ m, month_days leap m ≤ 31) (seqZ 0 12)) as Hf.
    { subst leap. destruct (is_leap y); repeat (constructor; [vm_compute; done|]); constructor. }
    rewrite Forall_forall in Hf. apply Hf, elem_of_seqZ. lia. }
  assert (Hsmall : ∀ z, 0 ≤ z < 256 → u8 z = z) by (intros; by apply u8_small).
  rewrite !Hsmall by (subst s; dlia).
  unfold valid_civil, civil_seconds. cbn [month day hour minute second year].
  fold leap. replace (m + 1 - 1) with m by lia. replace (dd + 1 - 1) with dd by lia.
  split_and!; try lia; try (subst s; dlia).
  assert (s / 86400 ≤ 25603) by (subst s; dlia).
  unfold days_before_year, leaps in He. change (1969 / 4 - 1969 / 100 + 1969 / 400) with 477 in He. dlia.
Qed.

(** 2024-02-29 12:34:56. *)
Lemma timestamp_from_mac_time_exact_witness :
  odfs_timestamp_from_mac_time 3792054896 = mk_timestamp 2024 2 29 12 34 56 0 ∧
  civil_seconds (mk_timestamp 2024 2 29 12 34 56 0) = 1709210096.
Proof.
  assert (E : odfs_timestamp_from_mac_time 3792054896 = mk_timestamp 2024 2 29 12 34 56 0)
    by (vm_compute; reflexivity).
  split; [exact E|].
  destruct (timestamp_from_mac_time_exact 3792054896) as [_ H]; [unfold is_u32; lia|].
  destruct H as (_ & H & _); [unfold ODFS_MAC_EPOCH; lia|]. rewrite E in H. exact H.
Defined.
