(* ===== verification/RockRidge.v ===== *)
(** * Rock Ridge ([backends/rock_ridge/])

    The System Use Area of a directory record is a sequence of entries (two
    signature bytes, a length, a version, data).  The parser walks it through a
    pointer into a cache sector and dereferences the pointer afresh for every
    entry: a [CE] entry makes it read another sector, which may replace the one the
    pointer shows.  The record it fills has C character arrays; an access outside
    an array or outside a sector is [Fault].  CE entries nest at most nine deep and
    an area of [n] bytes has at most [n / 4] entries, so the fuels suffice. *)
From S2P Require Import Prelude Types CacheApi.
Open Scope Z_scope.

Definition SUSP_SIG (a b : Z) : Z := Z.lor (Z.shiftl a 8) b.
Definition RR_SIG_SP : Z := 0x5350.
Definition RR_SIG_CE : Z := 0x4345.
Definition RR_SIG_ST : Z := 0x5354.
Definition RR_SIG_AS : Z := 0x4153.
Definition RR_SIG_NM : Z := 0x4E4D.
Definition RR_SIG_PX : Z := 0x5058.
Definition RR_SIG_TF : Z := 0x5446.
Definition RR_SIG_SL : Z := 0x534C.
Definition RR_SIG_CL : Z := 0x434C.
Definition RR_SIG_RE : Z := 0x5245.
Definition RR_SL_MAX_PAYLOAD_LEN : Z := 250.

(** A flag bit is set. *)
Definition has_flag (flags mask : Z) : bool := negb (Z.land flags mask =? 0).

(* [src: backends/rock_ridge/rock_ridge.h:58-78 rr_info_t] *)
Record rr_info : Type := mk_rr {
  rr_has_name : bool; rr_name : list Z;
  rr_has_posix : bool; rr_mode : Z; rr_nlinks : Z; rr_uid : Z; rr_gid : Z;
  rr_has_timestamps : bool; rr_mtime : odfs_timestamp; rr_ctime : odfs_timestamp;
  rr_is_symlink : bool; rr_symlink_target : list Z;
  rr_is_relocated : bool; rr_child_link_lba : Z; rr_has_child_link : bool;
  rr_has_amiga_protection : bool; rr_amiga_protection : list Z;
  rr_has_amiga_comment : bool; rr_amiga_comment : list Z }.
Definition RR_NAME_SIZE : Z := 512.
(** [memset(info, 0, sizeof info)]. *)
Definition rr_zero : rr_info :=
  mk_rr false (replicate 512 0) false 0 0 0 0 false timestamp_zero timestamp_zero
    false (replicate 512 0) false 0 false false (replicate 4 0) false (replicate 80 0).

(** Assignments to the fields. *)
Definition set_rr_name has v i := mk_rr has v (rr_has_posix i) (rr_mode i) (rr_nlinks i)
  (rr_uid i) (rr_gid i) (rr_has_timestamps i) (rr_mtime i) (rr_ctime i) (rr_is_symlink i)
  (rr_symlink_target i) (rr_is_relocated i) (rr_child_link_lba i) (rr_has_child_link i)
  (rr_has_amiga_protection i) (rr_amiga_protection i) (rr_has_amiga_comment i) (rr_amiga_comment i).
Definition set_rr_posix m n u g i := mk_rr (rr_has_name i) (rr_name i) true m n u g
  (rr_has_timestamps i) (rr_mtime i) (rr_ctime i) (rr_is_symlink i)
  (rr_symlink_target i) (rr_is_relocated i) (rr_child_link_lba i) (rr_has_child_link i)
  (rr_has_amiga_protection i) (rr_amiga_protection i) (rr_has_amiga_comment i) (rr_amiga_comment i).
Definition set_rr_times m c i := mk_rr (rr_has_name i) (rr_name i) (rr_has_posix i) (rr_mode i)
  (rr_nlinks i) (rr_uid i) (rr_gid i) true m c (rr_is_symlink i)
  (rr_symlink_target i) (rr_is_relocated i) (rr_child_link_lba i) (rr_has_child_link i)
  (rr_has_amiga_protection i) (rr_amiga_protection i) (rr_has_amiga_comment i) (rr_amiga_comment i).
Definition set_rr_symlink t i := mk_rr (rr_has_name i) (rr_name i) (rr_has_posix i) (rr_mode i)
  (rr_nlinks i) (rr_uid i) (rr_gid i) (rr_has_timestamps i) (rr_mtime i) (rr_ctime i) true t
  (rr_is_relocated i) (rr_child_link_lba i) (rr_has_child_link i)
  (rr_has_amiga_protection i) (rr_amiga_protection i) (rr_has_amiga_comment i) (rr_amiga_comment i).
Definition set_rr_relocated i := mk_rr (rr_has_name i) (rr_name i) (rr_has_posix i) (rr_mode i)
  (rr_nlinks i) (rr_uid i) (rr_gid i) (rr_has_timestamps i) (rr_mtime i) (rr_ctime i)
  (rr_is_symlink i) (rr_symlink_target i) true (rr_child_link_lba i) (rr_has_child_link i)
  (rr_has_amiga_protection i) (rr_amiga_protection i) (rr_has_amiga_comment i) (rr_amiga_comment i).
Definition set_rr_child_link v i := mk_rr (rr_has_name i) (rr_name i) (rr_has_posix i) (rr_mode i)
  (rr_nlinks i) (rr_uid i) (rr_gid i) (rr_has_timestamps i) (rr_mtime i) (rr_ctime i)
  (rr_is_symlink i) (rr_symlink_target i) (rr_is_relocated i) v true
  (rr_has_amiga_protection i) (rr_amiga_protection i) (rr_has_amiga_comment i) (rr_amiga_comment i).
Definition set_rr_protection v i := mk_rr (rr_has_name i) (rr_name i) (rr_has_posix i) (rr_mode i)
  (rr_nlinks i) (rr_uid i) (rr_gid i) (rr_has_timestamps i) (rr_mtime i) (rr_ctime i)
  (rr_is_symlink i) (rr_symlink_target i) (rr_is_relocated i) (rr_child_link_lba i)
  (rr_has_child_link i) true v (rr_has_amiga_comment i) (rr_amiga_comment i).
Definition set_rr_comment v i := mk_rr (rr_has_name i) (rr_name i) (rr_has_posix i) (rr_mode i)
  (rr_nlinks i) (rr_uid i) (rr_gid i) (rr_has_timestamps i) (rr_mtime i) (rr_ctime i)
  (rr_is_symlink i) (rr_symlink_target i) (rr_is_relocated i) (rr_child_link_lba i)
  (rr_has_child_link i) (rr_has_amiga_protection i) (rr_amiga_protection i) true v.

(** ** Helpers; [d] is the memory from a pointer on *)
(* [src: backends/rock_ridge/rock_ridge.c:19-22 rr_sig] *)
Definition rr_sig (d : list Z) (pos : Z) : outcome Z :=
  a ← rd d pos; b ← rd d (pos + 1); Ret (Z.lor (Z.shiftl a 8) b).

(* [src: backends/iso9660/iso9660.h:33-47 iso_read_le32] *)
Definition iso_read_le32 (d : list Z) (pos : Z) : outcome Z :=
  b0 ← rd d pos; b1 ← rd d (pos + 1); b2 ← rd d (pos + 2); b3 ← rd d (pos + 3);
  Ret (le32 b0 b1 b2 b3).
(* [src: backends/rock_ridge/rock_ridge.c:24-27 rr_read_le32] *)
Definition rr_read_le32 (d : list Z) (pos : Z) : outcome Z := iso_read_le32 d pos.

(** The protection bits of an [AS] entry; the result is the position after them. *)
(* [src: backends/rock_ridge/rock_ridge.c:39-47 rr_parse_as] *)
Definition rr_as_protection (entry : list Z) (entry_len flags : Z) (info : rr_info)
    : outcome (option (Z * rr_info)) :=
  if has_flag flags 0x01 then
    if entry_len <? 5 + 4 then Ret None
    else
      info ← (if rr_has_amiga_protection info then Ret info
              else p ← rd_range entry 5 4; Ret (set_rr_protection p info));
      Ret (Some (9, info))
  else Ret (Some (5, info)).
(* [src: backends/rock_ridge/rock_ridge.c:49-75 rr_parse_as] *)
Definition rr_as_comment (entry : list Z) (entry_len flags pos : Z) (info : rr_info)
    : outcome rr_info :=
  if has_flag flags 0x02 then
    if entry_len <? pos + 1 then Ret info
    else
      frag_len ← rd entry pos;
      let pos := pos + 1 in
      if (frag_len =? 0) || (entry_len <? pos + (frag_len - 1)) then Ret info
      else
        comment_pos ← (if rr_has_amiga_comment info then strlen_buf (rr_amiga_comment info) else Ret 0);
        let comment_pos := if ODFS_AMIGA_COMMENT_MAX <=? comment_pos
                           then ODFS_AMIGA_COMMENT_MAX - 1 else comment_pos in
        let copy_len := frag_len - 1 in
        let copy_len := if ODFS_AMIGA_COMMENT_MAX - 1 - comment_pos <? copy_len
                        then ODFS_AMIGA_COMMENT_MAX - 1 - comment_pos else copy_len in
        comment ← (if 0 <? copy_len then
                     src ← rd_range entry pos copy_len;
                     t ← wr_range (rr_amiga_comment info) comment_pos src;
                     wr t (comment_pos + copy_len) 0
                   else Ret (rr_amiga_comment info));
        Ret (set_rr_comment comment info)
  else Ret info.
(* [src: backends/rock_ridge/rock_ridge.c:29-76 rr_parse_as] *)
Definition rr_parse_as (entry : list Z) (entry_len : Z) (info : rr_info) : outcome rr_info :=
  if entry_len <? 5 then Ret info
  else
    flags ← rd entry 4;
    r ← rr_as_protection entry entry_len flags info;
    match r with
    | None => Ret info
    | Some (pos, info) => rr_as_comment entry entry_len flags pos info
    end.

(* [src: backends/rock_ridge/rock_ridge.c:81-90 rr_parse_ts7] *)
Definition rr_parse_ts7 (d : list Z) : outcome odfs_timestamp :=
  d0 ← rd d 0; d1 ← rd d 1; d2 ← rd d 2; d3 ← rd d 3; d4 ← rd d 4; d5 ← rd d 5; d6 ← rd d 6;
  Ret (mk_timestamp (1900 + d0) d1 d2 d3 d4 d5 (s16 (s8 d6 * 15))).

(** Two ASCII digits as a [uint8_t]. *)
Definition digits2 (d : list Z) (i : Z) : outcome Z :=
  a ← rd d i; b ← rd d (i + 1); Ret (u8 ((a - 48) * 10 + (b - 48))).
(* [src: backends/rock_ridge/rock_ridge.c:95-108 rr_parse_ts17] *)
Definition rr_parse_ts17 (d : list Z) : outcome odfs_timestamp :=
  y0 ← rd d 0; y1 ← rd d 1; y2 ← rd d 2; y3 ← rd d 3;
  mo ← digits2 d 4; da ← digits2 d 6; ho ← digits2 d 8; mi ← digits2 d 10; se ← digits2 d 12;
  tz ← rd d 16;
  Ret (mk_timestamp ((((y0 - 48) * 10 + (y1 - 48)) * 10 + (y2 - 48)) * 10 + (y3 - 48))
         mo da ho mi se (s16 (s8 tz * 15))).

(** ** Detection *)

(** [None] is the result 0; [Some skip] is 1 with [*skip_out = skip]. *)
(* [src: backends/rock_ridge/rock_ridge.c:120-136 rr_detect] *)
Fixpoint rr_detect_loop (fuel : nat) (sua : list Z) (sua_len pos : Z) : outcome (option Z) :=
  match fuel with
  | O => Diverge
  | S fuel =>
      if sua_len <? pos + 4 then Ret None
      else
        sig ← rr_sig sua pos;
        len ← rd sua (pos + 2);
        if (len <? 4) || (sua_len <? pos + len) then Ret None
        else if (sig =? RR_SIG_SP) && (7 <=? len) then
          c1 ← rd sua (pos + 4);
          c2 ← rd sua (pos + 5);
          if (c1 =? 0xBE) && (c2 =? 0xEF) then s ← rd sua (pos + 6); Ret (Some s)
          else rr_detect_loop fuel sua sua_len (pos + len)
        else rr_detect_loop fuel sua sua_len (pos + len)
  end.
(* [src: backends/rock_ridge/rock_ridge.c:114-137 rr_detect] *)
Definition rr_detect (sua : list Z) (sua_len : Z) : outcome (option Z) :=
  rr_detect_loop (S (Z.to_nat sua_len)) sua sua_len 0.

(** ** Entries; [d] is the memory from the entry on *)

(** [NM]: a fragment of the name. *)
(* [src: backends/rock_ridge/rock_ridge.c:169-186 rr_parse_entries] *)
Definition rr_nm (d : list Z) (entry_len name_pos : Z) (info : rr_info) : outcome (Z * rr_info) :=
  if 5 <? entry_len then
    flags ← rd d 4;
    if negb (has_flag flags 0x02) && negb (has_flag flags 0x04) then
      let copy_len := entry_len - 5 in
      let name_space := u64 (RR_NAME_SIZE - 1 - name_pos) in
      let copy_len := if name_space <? copy_len then name_space else copy_len in
      r ← (if 0 <? copy_len then
             src ← rd_range d 5 copy_len;
             n ← wr_range (rr_name info) name_pos src;
             let name_pos := name_pos + copy_len in
             n ← wr n name_pos 0;
             Ret (name_pos, set_rr_name (rr_has_name info) n info)
           else Ret (name_pos, info));
      let '(name_pos, info) := r in
      Ret (name_pos, if has_flag flags 0x01 then info else set_rr_name true (rr_name info) info)
    else Ret (name_pos, info)
  else Ret (name_pos, info).

(* [src: backends/rock_ridge/rock_ridge.c:188-196 rr_parse_entries] *)
Definition rr_px (d : list Z) (len : Z) (info : rr_info) : outcome rr_info :=
  if 36 <=? len then
    m ← rr_read_le32 d 4; n ← rr_read_le32 d 12; u ← rr_read_le32 d 20; g ← rr_read_le32 d 28;
    Ret (set_rr_posix m n u g info)
  else Ret info.

(** [TF]: with a length of 4 the remainder [entry_len - 5] wraps around. *)
(* [src: backends/rock_ridge/rock_ridge.c:202-228 rr_parse_entries] *)
Definition rr_tf (d : list Z) (entry_len : Z) (info : rr_info) : outcome rr_info :=
  flags ← rd d 4;
  let tf_rem := u64 (entry_len - 5) in
  let ts_len := if has_flag flags 0x80 then 17 else 7 in
  let parse_ts := if has_flag flags 0x80 then rr_parse_ts17 else rr_parse_ts7 in
  r ← (if has_flag flags 0x01 then
         if tf_rem <? ts_len then Ret None
         else t ← parse_ts (drop 5 d);
              Ret (Some (5 + ts_len, tf_rem - ts_len, set_rr_times (rr_mtime info) t info))
       else Ret (Some (5, tf_rem, info)));
  match r with
  | None => Ret info
  | Some (tp, tf_rem, info) =>
      if has_flag flags 0x02 then
        if tf_rem <? ts_len then Ret info
        else t ← parse_ts (drop (Z.to_nat tp) d); Ret (set_rr_times t (rr_ctime info) info)
      else Ret info
  end.

(** The path separator before a component, where one is needed and fits. *)
(* [src: backends/rock_ridge/rock_ridge.c:265-267 rr_parse_entries] *)
Definition sl_separator (t : list Z) (sl_pos : Z) : outcome (list Z * Z) :=
  if 0 <? sl_pos then
    c ← rd t (sl_pos - 1);
    if negb (c =? 47) && (sl_pos <? RR_NAME_SIZE)
    then t ← wr t sl_pos 47; Ret (t, sl_pos + 1) else Ret (t, sl_pos)
  else Ret (t, sl_pos).
(** One component: flags, data length, the memory its data starts at. *)
(* [src: backends/rock_ridge/rock_ridge.c:263-294 rr_parse_entries] *)
Definition sl_component (t : list Z) (sl_pos cflags comp_len : Z) (comp_data : list Z)
    : outcome (list Z * Z) :=
  if has_flag cflags 0x02 then
    '(t, sl_pos) ← sl_separator t sl_pos;
    if sl_pos + 1 <? RR_NAME_SIZE then t ← wr t sl_pos 46; Ret (t, sl_pos + 1) else Ret (t, sl_pos)
  else if has_flag cflags 0x04 then
    '(t, sl_pos) ← sl_separator t sl_pos;
    if sl_pos + 2 <? RR_NAME_SIZE
    then t ← wr t sl_pos 46; t ← wr t (sl_pos + 1) 46; Ret (t, sl_pos + 2) else Ret (t, sl_pos)
  else if has_flag cflags 0x08 then
    if sl_pos <? RR_NAME_SIZE then t ← wr t sl_pos 47; Ret (t, sl_pos + 1) else Ret (t, sl_pos)
  else if 0 <? comp_len then
    '(t, sl_pos) ← sl_separator t sl_pos;
    if sl_pos + comp_len <? RR_NAME_SIZE then
      src ← rd_range comp_data 0 comp_len;
      t ← wr_range t sl_pos src; Ret (t, sl_pos + comp_len)
    else Ret (t, sl_pos)
  else Ret (t, sl_pos).
Definition clamp_sl (sl_pos : Z) : Z := if RR_NAME_SIZE <=? sl_pos then RR_NAME_SIZE - 1 else sl_pos.
(* [src: backends/rock_ridge/rock_ridge.c:251-298 rr_parse_entries] *)
Fixpoint sl_loop (fuel : nat) (comp : list Z) (comp_area_len comp_pos : Z) (t : list Z) (sl_pos : Z)
    : outcome (list Z) :=
  match fuel with
  | O => Diverge
  | S fuel =>
      if comp_area_len <? comp_pos + 2 then Ret t
      else
        cflags ← rd comp comp_pos;
        comp_len ← rd comp (comp_pos + 1);
        let record_len := 2 + comp_len in
        if RR_SL_MAX_PAYLOAD_LEN <? comp_len then Ret t
        else if comp_area_len - comp_pos <? record_len then Ret t
        else
          '(t, sl_pos) ← sl_component t sl_pos cflags comp_len (drop (Z.to_nat (comp_pos + 2)) comp);
          let sl_pos := clamp_sl sl_pos in
          t ← wr t sl_pos 0;
          sl_loop fuel comp comp_area_len (comp_pos + record_len) t sl_pos
  end.
(* [src: backends/rock_ridge/rock_ridge.c:230-300 rr_parse_entries] *)
Definition rr_sl (d : list Z) (entry_len : Z) (info : rr_info) : outcome rr_info :=
  if 5 <? entry_len then
    let comp_area_len := entry_len - 5 in
    sl_pos ← strlen_buf (rr_symlink_target info);
    if RR_SL_MAX_PAYLOAD_LEN <? comp_area_len then Ret info
    else
      let sl_pos := clamp_sl sl_pos in
      t ← wr (rr_symlink_target info) sl_pos 0;
      t ← sl_loop (S (Z.to_nat comp_area_len)) (drop 5 d) comp_area_len 0 t sl_pos;
      Ret (set_rr_symlink t info)
  else Ret info.

(* [src: backends/rock_ridge/rock_ridge.c:302-307 rr_parse_entries] *)
Definition rr_cl (d : list Z) (len : Z) (info : rr_info) : outcome rr_info :=
  if 12 <=? len then l ← rr_read_le32 d 4; Ret (set_rr_child_link l info) else Ret info.

(** ** The walk *)
Section walk.
Context {C : Type} `{CacheOps C}.

(** A pointer into a cache entry, and the memory from it on, as it is now. *)
Record sua_ptr : Type := mk_ptr { p_entry : Z; p_off : Z }.
Definition view (c : C) (p : sua_ptr) : list Z := mem_at (bc_data c (p_entry p)) (p_off p).

(** [CE]: the parser, one level deeper, is [parse]. *)
(* [src: backends/rock_ridge/rock_ridge.c:313-330 rr_parse_entries] *)
Definition rr_ce (parse : C → sua_ptr → Z → Z → rr_info → outcome (rr_info * C))
    (c : C) (d : list Z) (len : Z) (info : rr_info) : outcome (rr_info * C) :=
  if 28 <=? len then
    ce_lba ← rr_read_le32 d 4; ce_off ← rr_read_le32 d 12; ce_len ← rr_read_le32 d 20;
    if (0 <? ce_len) && (ce_len <=? 2048) then
      let '(err, ce_sector, c) := bc_read c ce_lba in
      if err_ok err && (u32 (ce_off + ce_len) <=? 2048)
      then parse c (mk_ptr ce_sector ce_off) ce_len 0 info
      else Ret (info, c)
    else Ret (info, c)
  else Ret (info, c).

(** One entry; the flag says that [ST] ends the walk. *)
(* [src: backends/rock_ridge/rock_ridge.c:167-339 rr_parse_entries] *)
Definition rr_entry (parse : C → sua_ptr → Z → Z → rr_info → outcome (rr_info * C))
    (c : C) (d : list Z) (sig len name_pos : Z) (info : rr_info)
    : outcome (bool * Z * rr_info * C) :=
  if sig =? RR_SIG_NM then '(np, i) ← rr_nm d len name_pos info; Ret (false, np, i, c)
  else if sig =? RR_SIG_PX then i ← rr_px d len info; Ret (false, name_pos, i, c)
  else if sig =? RR_SIG_AS then i ← rr_parse_as d len info; Ret (false, name_pos, i, c)
  else if sig =? RR_SIG_TF then i ← rr_tf d len info; Ret (false, name_pos, i, c)
  else if sig =? RR_SIG_SL then i ← rr_sl d len info; Ret (false, name_pos, i, c)
  else if sig =? RR_SIG_CL then i ← rr_cl d len info; Ret (false, name_pos, i, c)
  else if sig =? RR_SIG_RE then Ret (false, name_pos, set_rr_relocated info, c)
  else if sig =? RR_SIG_CE then '(i, c) ← rr_ce parse c d len info; Ret (false, name_pos, i, c)
  else if sig =? RR_SIG_ST then Ret (true, name_pos, info, c)
  else Ret (false, name_pos, info, c).

(* [src: backends/rock_ridge/rock_ridge.c:158-342 rr_parse_entries] *)
Fixpoint rr_loop (parse : C → sua_ptr → Z → Z → rr_info → outcome (rr_info * C)) (fuel : nat)
    (c : C) (sua : sua_ptr) (sua_len pos name_pos : Z) (info : rr_info) : outcome (rr_info * C) :=
  match fuel with
  | O => Diverge
  | S fuel =>
      if sua_len <? pos + 4 then Ret (info, c)
      else
        sig ← rr_sig (view c sua) pos;
        len ← rd (view c sua) (pos + 2);
        if (len <? 4) || (sua_len <? pos + len) then Ret (info, c)
        else
          '(stop, name_pos, info, c) ←
            rr_entry parse c (drop (Z.to_nat pos) (view c sua)) sig len name_pos info;
          if (stop : bool) then Ret (info, c)
          else rr_loop parse fuel c sua sua_len (pos + len) name_pos info
  end.

(** [depth] counts down from 9: the C guard is [depth > 8]. *)
(* [src: backends/rock_ridge/rock_ridge.c:147-343 rr_parse_entries] *)
Fixpoint rr_parse_entries (depth : nat) (c : C) (sua : sua_ptr) (sua_len skip : Z) (info : rr_info)
    : outcome (rr_info * C) :=
  name_pos ← (if rr_has_name info then strlen_buf (rr_name info) else Ret 0);
  match depth with
  | O => Ret (info, c)
  | S depth => rr_loop (rr_parse_entries depth) (S (Z.to_nat sua_len)) c sua sua_len skip name_pos info
  end.

(* [src: backends/rock_ridge/rock_ridge.c:345-351 rr_parse] *)
Definition rr_parse (c : C) (sua : sua_ptr) (sua_len skip : Z) : outcome (rr_info * C) :=
  rr_parse_entries 9 c sua sua_len skip rr_zero.
End walk.
