(* ===== verification/RockRidgeProofs.v ===== *)
(** * Memory safety of the Rock Ridge parser

    On a disc whose sectors are [tidy] no access leaves its object, and the parser
    terminates.  [tidy] excludes exactly the two entries the parser does not
    survive: a [TF] entry of length 4 and a [CE] entry whose offset makes
    [ce_off + ce_len] wrap around; both are shown to fault. *)
From S2P Require Import Prelude Types CacheApi RockRidge.
Open Scope Z_scope.

(** ** One entry *)

(** Every array holds a string. *)
Definition info_ok (i : rr_info) : Prop :=
  is_cstr 512 (rr_name i) ∧ is_cstr 512 (rr_symlink_target i) ∧ is_cstr 80 (rr_amiga_comment i).

Lemma rr_zero_ok : info_ok rr_zero.
Proof. split_and!; split; try done; by left. Qed.

Ltac yread := eapply yields_bind; [eapply yields_rd; [eassumption|lia]|intros].
Ltac yret := apply yields_ret.

Lemma le32_ok d pos : Forall is_byte d → 0 ≤ pos → pos + 3 < zlen d → yields (rr_read_le32 d pos) is_u32.
Proof. intros. unfold rr_read_le32, iso_read_le32. repeat yread. yret. by apply le32_range. Qed.

Ltac yle32 := eapply yields_bind; [apply le32_ok; [assumption|lia..]|intros].

Section entry.
Context (d : list Z) (len : Z).
Context (Hd : Forall is_byte d) (Hlen : 4 ≤ len ≤ 255) (Hfit : len ≤ zlen d).

Lemma rr_nm_ok name_pos info :
  info_ok info → 0 ≤ name_pos < 512 →
  yields (rr_nm d len name_pos info) (λ '(np, i), 0 ≤ np < 512 ∧ info_ok i).
Proof.
  intros Hi Hnp. unfold rr_nm. case_test; b2p; [|by yret]. yread.
  case_test; [|by yret]. cbv zeta. unfold RR_NAME_SIZE. unfold u64.
  rewrite (Z.mod_small (512 - 1 - name_pos)) by lia.
  set (n := if 512 - 1 - name_pos <? _ then _ else _).
  assert (Hn : 0 ≤ n ≤ len - 5 ∧ name_pos + n ≤ 511) by (subst n; case_test; b2p; lia).
  clearbody n. eapply (yields_bind _ _ (λ '(np, i), 0 ≤ np < 512 ∧ info_ok i)).
  - case_test; b2p; [|by yret].
    eapply yields_bind; [eapply (yields_range is_byte); [done|lia..]|]. intros src [Hsrc _].
    destruct Hi as ([Hl Hz] & Hs & Hc).
    eapply yields_bind; [apply yields_wr_range; lia|]. intros t ->.
    assert (Ht : zlen (splice (rr_name info) name_pos src) = 512) by (rewrite length_splice; lia).
    eapply yields_bind; [apply yields_wr; lia|]. intros t' ->. yret.
    split; [lia|]. split_and!; [apply cstr_zset; [done|lia]|done|done].
  - intros [np i] [Hnp' Hi']. yret. split; [done|]. by case_test.
Qed.

Lemma rr_px_ok info : info_ok info → yields (rr_px d len info) info_ok.
Proof. intros Hi. unfold rr_px. case_test; b2p; [|by yret]. repeat yle32. by yret. Qed.
Lemma rr_cl_ok info : info_ok info → yields (rr_cl d len info) info_ok.
Proof. intros Hi. unfold rr_cl. case_test; b2p; [|by yret]. yle32. by yret. Qed.

Lemma rr_as_comment_ok flags pos info :
  info_ok info → 0 ≤ pos → yields (rr_as_comment d len flags pos info) info_ok.
Proof.
  intros Hi Hp. unfold rr_as_comment. case_test; [|by yret]. case_test; b2p; [by yret|].
  yread. cbv zeta. case_test; b2p; [by yret|]. unfold is_byte in *.
  destruct Hi as (Hn & Hs & Hc). unfold ODFS_AMIGA_COMMENT_MAX.
  eapply (yields_bind _ _ (λ k, 0 ≤ k < 80)).
  { case_test; [by apply strlen_cstr|]. yret. lia. }
  intros k Hk. rewrite (proj2 (Z.leb_gt 80 k)) by lia.
  set (n := if 80 - 1 - k <? _ then _ else _).
  assert (Hnn : 0 ≤ n ≤ a - 1 ∧ k + n ≤ 79) by (subst n; case_test; b2p; lia).
  clearbody n. eapply (yields_bind _ _ (is_cstr 80)).
  - case_test; b2p; [|by yret].
    eapply yields_bind; [eapply (yields_range is_byte); [done|lia..]|]. intros src [Hsrc _].
    destruct Hc as [Hl Hz]. eapply yields_bind; [apply yields_wr_range; lia|]. intros t ->.
    assert (Ht : zlen (splice (rr_amiga_comment info) k src) = 80) by (rewrite length_splice; lia).
    eapply yields_weaken; [apply yields_wr; lia|]. intros t' ->. apply cstr_zset; [done|lia].
  - intros t Ht. by yret.
Qed.

Lemma rr_as_ok info : info_ok info → yields (rr_parse_as d len info) info_ok.
Proof.
  intros Hi. unfold rr_parse_as. case_test; b2p; [by yret|]. yread.
  eapply (yields_bind _ _ (λ r, match r with None => True | Some (p, i) => 0 ≤ p ∧ info_ok i end)).
  - unfold rr_as_protection. case_test; [|by yret]. case_test; b2p; [by yret|].
    eapply (yields_bind _ _ info_ok).
    + case_test; [by yret|]. eapply yields_bind; [eapply (yields_range is_byte); [done|lia..]|].
      intros p _. by yret.
    + intros i Hi'. by yret.
  - intros [[p i]|] Hr; [|by yret]. destruct Hr. by apply rr_as_comment_ok.
Qed.

Lemma ts7_ok s : Forall is_byte s → 7 ≤ zlen s → yields (rr_parse_ts7 s) (λ _, True).
Proof. intros. unfold rr_parse_ts7. repeat yread. by yret. Qed.
Lemma digits2_ok s i : Forall is_byte s → 0 ≤ i → i + 1 < zlen s → yields (digits2 s i) (λ _, True).
Proof. intros. unfold digits2. repeat yread. by yret. Qed.
Lemma ts17_ok s : Forall is_byte s → 17 ≤ zlen s → yields (rr_parse_ts17 s) (λ _, True).
Proof.
  intros. unfold rr_parse_ts17. do 4 yread.
  do 5 (eapply yields_bind; [apply digits2_ok; [done|lia|lia]|intros]). yread. by yret.
Qed.

Lemma rr_tf_ok info : info_ok info → len ≠ 4 → yields (rr_tf d len info) info_ok.
Proof.
  intros Hi Hne. unfold rr_tf. yread. cbv zeta. unfold u64. rewrite (Z.mod_small (len - 5)) by lia.
  set (n := if has_flag a 0x80 then 17 else 7).
  assert (Hts : ∀ k : nat, Z.of_nat k + n ≤ zlen d →
    yields ((if has_flag a 0x80 then rr_parse_ts17 else rr_parse_ts7) (drop k d)) (λ _, True)).
  { intros k Hk. subst n. case_test.
    - apply ts17_ok; [by apply Forall_drop|rewrite length_drop; lia].
    - apply ts7_ok; [by apply Forall_drop|rewrite length_drop; lia]. }
  assert (Hn : n = 7 ∨ n = 17) by (subst n; case_test; auto). clearbody n.
  eapply (yields_bind _ _ (λ r, match r with None => True
    | Some (tp, rem, i) => info_ok i ∧ 5 ≤ tp ∧ 0 ≤ rem ∧ tp + rem = len end)).
  - case_test; [|yret; split_and!; (done || lia)]. case_test; b2p; [by yret|].
    eapply yields_bind; [apply Hts; lia|]. intros t _. yret. split_and!; (done || lia).
  - intros [[[tp rem] i]|] Hr; [|by yret]. destruct Hr as (Hi' & ? & ? & ?).
    case_test; [|by yret]. case_test; b2p; [by yret|].
    eapply yields_bind; [apply Hts; lia|]. intros t _. by yret.
Qed.

(** *** Symbolic links *)
Definition sl_state (s : list Z * Z) : Prop := zlen s.1 = 512 ∧ 0 ≤ s.2 ≤ 512.

Lemma sl_separator_ok t p : sl_state (t, p) → yields (sl_separator t p) sl_state.
Proof.
  intros [Ht Hp]. simpl in *. unfold sl_separator, RR_NAME_SIZE. case_test; b2p; [|by yret].
  eapply yields_bind; [eapply (yields_rd (λ _, True)); [by apply Forall_true|lia]|]. intros c _.
  case_test; b2p; [|by yret]. eapply yields_bind; [apply yields_wr; lia|]. intros t' ->.
  yret. split; simpl; [by rewrite zlen_zset|lia].
Qed.

Lemma sl_component_ok t p cflags n comp :
  sl_state (t, p) → 0 ≤ n → n ≤ zlen comp → yields (sl_component t p cflags n comp) sl_state.
Proof.
  intros Hs Hn Hc. unfold sl_component.
  repeat case_test; b2p; try by yret.
  - eapply yields_bind; [by apply sl_separator_ok|]. intros [t' p'] [Ht' Hp']. simpl in *.
    case_test; b2p; [|by yret]. unfold RR_NAME_SIZE in *.
    eapply yields_bind; [apply yields_wr; lia|]. intros t1 ->. yret.
    split; simpl; [by rewrite zlen_zset|lia].
  - eapply yields_bind; [by apply sl_separator_ok|]. intros [t' p'] [Ht' Hp']. simpl in *.
    case_test; b2p; [|by yret]. unfold RR_NAME_SIZE in *.
    eapply yields_bind; [apply yields_wr; lia|]. intros t1 ->.
    eapply yields_bind; [apply yields_wr; rewrite zlen_zset; lia|]. intros t2 ->. yret.
    split; simpl; [by rewrite !zlen_zset|lia].
  - destruct Hs as [Ht Hp]. simpl in *. unfold RR_NAME_SIZE in *.
    eapply yields_bind; [apply yields_wr; lia|]. intros t1 ->. yret.
    split; simpl; [by rewrite zlen_zset|lia].
  - eapply yields_bind; [by apply sl_separator_ok|]. intros [t' p'] [Ht' Hp']. simpl in *.
    case_test; b2p; [|by yret]. unfold RR_NAME_SIZE in *.
    eapply yields_bind; [eapply (yields_range (λ _, True)); [by apply Forall_true|lia..]|].
    intros src [Hsrc _]. eapply yields_bind; [apply yields_wr_range; lia|]. intros t1 ->. yret.
    split; simpl; [rewrite length_splice; lia|lia].
Qed.

Lemma clamp_range p : 0 ≤ p ≤ 512 → 0 ≤ clamp_sl p < 512.
Proof. unfold clamp_sl, RR_NAME_SIZE. case_test; b2p; lia. Qed.

Lemma sl_loop_ok fuel comp area pos t p :
  Forall is_byte comp → area ≤ zlen comp → 0 ≤ pos → area - pos < Z.of_nat fuel → 0 < Z.of_nat fuel →
  is_cstr 512 t → 0 ≤ p ≤ 512 → yields (sl_loop fuel comp area pos t p) (is_cstr 512).
Proof.
  intros Hb Ha. revert pos t p. induction fuel as [|fuel IH]; intros pos t p Hp Hf Hf0 Ht Hpp; [lia|].
  cbn [sl_loop]. case_test; b2p; [by yret|]. yread. rename a into cflags. yread. rename a into n.
  unfold is_byte in *. cbv zeta. case_test; b2p; [by yret|]. case_test; b2p; [by yret|].
  eapply yields_bind.
  { apply sl_component_ok; [|lia|].
    - split; [apply Ht|done].
    - rewrite length_drop. lia. }
  intros [t' p'] [Ht' Hp']. simpl in Ht', Hp'. pose proof (clamp_range p' Hp').
  eapply yields_bind; [apply yields_wr; lia|]. intros t2 ->.
  apply IH; try lia. by apply cstr_zset.
Qed.

Lemma rr_sl_ok info : info_ok info → yields (rr_sl d len info) info_ok.
Proof.
  intros Hi. unfold rr_sl. case_test; b2p; [|by yret]. cbv zeta.
  destruct Hi as (Hn & Hs & Hc). eapply yields_bind; [by apply strlen_cstr|]. intros p Hp.
  case_test; b2p; [by yret|]. simpl in Hp. pose proof (clamp_range p ltac:(lia)).
  destruct Hs as [Hl Hz]. eapply yields_bind; [apply yields_wr; lia|]. intros t ->.
  eapply yields_bind.
  { apply sl_loop_ok; [by apply Forall_drop|rewrite length_drop; lia|lia|lia|lia| |lia].
    by apply cstr_zset. }
  intros t Ht. by yret.
Qed.
End entry.

(** ** The walk *)

(** No [TF] entry of length 4 and no [CE] offset near [2 ^ 32], at any byte. *)
Definition tidy_sector (s : list Z) : Prop :=
  ∀ i, 0 ≤ i →
    (rr_sig s i = Ret RR_SIG_TF → rd s (i + 2) ≠ Ret 4) ∧
    (∀ off, rr_sig s i = Ret RR_SIG_CE → rr_read_le32 s (i + 12) = Ret off → off < 2 ^ 32 - 2048).

Lemma rr_sig_drop s n pos : 0 ≤ pos → rr_sig (drop n s) pos = rr_sig s (Z.of_nat n + pos).
Proof. intros. unfold rr_sig. rewrite !rd_drop by lia. by rewrite Z.add_assoc. Qed.
Lemma le32_drop s n pos : 0 ≤ pos → rr_read_le32 (drop n s) pos = rr_read_le32 s (Z.of_nat n + pos).
Proof. intros. unfold rr_read_le32, iso_read_le32. rewrite !rd_drop by lia. by rewrite !Z.add_assoc. Qed.
Lemma yields_keep {A} (m : outcome A) P : yields m P → yields m (λ a, P a ∧ m = Ret a).
Proof. intros (a & Ha & HP). by exists a. Qed.
Lemma yields_bind' {A B} (m : outcome A) (k : A → outcome B) (P : A → Prop) (Q : B → Prop) :
  yields m P → (∀ a, m = Ret a → P a → yields (k a) Q) → yields (m ≫= k) Q.
Proof. intros (a & Ha & HP) Hk. rewrite Ha. by apply Hk. Qed.

Section walk.
Context {C : Type} {HO : CacheOps C} (img : Z → list Z) (inv ok : C → Prop) (ptr : C → Z → Prop).
Context {HL : CacheLaws C img 2048 inv ok ptr} {HF : CacheCleanFailure C ok ptr}.
Context (Hbytes : ∀ lba, Forall is_byte (img lba)) (Htidy : ∀ lba, tidy_sector (img lba)).

(** [n] bytes at the pointer lie in a sector. *)
Definition in_sector (c : C) (p : sua_ptr) (n : Z) : Prop :=
  ptr c (p_entry p) ∧ 0 ≤ p_off p ∧ 0 ≤ n ∧ p_off p + n ≤ 2048.
(** Any later state. *)
Definition later (c c' : C) : Prop := ok c' ∧ ∀ q, ptr c q → ptr c' q.

Lemma later_refl c : ok c → later c c.
Proof. by split. Qed.
Lemma later_trans c1 c2 c3 : later c1 c2 → later c2 c3 → later c1 c3.
Proof. intros [_ H] [? H']. split; auto. Qed.
Lemma in_sector_later c c' p n : later c c' → in_sector c p n → in_sector c' p n.
Proof. intros [_ H] (? & ?). split; auto. Qed.

Lemma read_later c lba err p c' :
  ok c → is_u32 lba → bc_read c lba = (err, p, c') →
  later c c' ∧ (err = ODFS_OK → ptr c' p).
Proof.
  intros Hok Hl Hr. destruct (cl_read_inv _ _ _ _ _ (cl_ok_inv _ Hok) Hl Hr) as (_ & Hp & Hq).
  split; [|done]. split; [|done]. destruct (decide (err = ODFS_OK)) as [->|Hne].
  - by eapply cl_read_ok in Hr as [? _].
  - by eapply cl_read_failed in Hr as [? _].
Qed.

Lemma view_sector c p n :
  ok c → in_sector c p n →
  ∃ s, view c p = drop (Z.to_nat (p_off p)) s ∧ zlen s = 2048 ∧ Forall is_byte s ∧ tidy_sector s.
Proof.
  intros Hok (Hp & Hoff & Hn & Hend). destruct (cl_ptr_shows c (p_entry p) Hok Hp) as [l Hl].
  exists (img l). unfold view, mem_at. rewrite Hl. pose proof (cl_sector l) as Hs.
  rewrite (proj2 (Z.leb_le _ _)) by lia.
  split_and!; [done|apply cl_sector|apply Hbytes|apply Htidy].
Qed.

Definition parse_ok (parse : C → sua_ptr → Z → Z → rr_info → outcome (rr_info * C)) : Prop :=
  ∀ c p n skip info, ok c → in_sector c p n → 0 ≤ skip → info_ok info →
  yields (parse c p n skip info) (λ '(i, c'), info_ok i ∧ later c c').

Lemma rr_ce_ok parse c d len info :
  parse_ok parse → ok c → info_ok info → Forall is_byte d → len ≤ zlen d →
  (∀ off, rr_read_le32 d 12 = Ret off → off < 2 ^ 32 - 2048) →
  yields (rr_ce parse c d len info) (λ '(i, c'), info_ok i ∧ later c c').
Proof.
  intros Hparse Hok Hi Hd Hfit Hoff. unfold rr_ce. pose proof (later_refl c Hok).
  case_test; b2p; [|by yret]. yle32. rename a into ce_lba.
  eapply yields_bind'; [apply le32_ok; [done|lia..]|]. intros ce_off Hco Hcu.
  specialize (Hoff _ Hco). yle32. rename a into ce_len. unfold is_u32 in *.
  case_test; b2p; [|by yret].
  destruct (bc_read c ce_lba) as [[err q] c'] eqn:Hr.
  destruct (read_later _ _ _ _ _ Hok H0 Hr) as [Hlater Hptr].
  case_test; b2p; [|yret; by split].
  rewrite u32_small in * by (unfold is_u32; lia).
  eapply yields_weaken; [apply Hparse; [apply Hlater| |lia|done]|].
  - split_and!; [|simpl; lia..]. apply Hptr. by apply err_ok_true.
  - intros [i c''] [? ?]. split; [done|]. by eapply later_trans.
Qed.

Lemma rr_entry_ok parse c d sig len name_pos info :
  parse_ok parse → ok c → info_ok info → Forall is_byte d → 4 ≤ len ≤ 255 → len ≤ zlen d →
  0 ≤ name_pos < 512 → (sig = RR_SIG_TF → len ≠ 4) →
  (sig = RR_SIG_CE → ∀ off, rr_read_le32 d 12 = Ret off → off < 2 ^ 32 - 2048) →
  yields (rr_entry parse c d sig len name_pos info)
    (λ '(_, np, i, c'), 0 ≤ np < 512 ∧ info_ok i ∧ later c c').
Proof.
  intros Hparse Hok Hi Hd Hlen Hfit Hnp Htf Hce. unfold rr_entry. pose proof (later_refl c Hok).
  repeat case_test; b2p; try (yret; split; [done|split; [exact Hi|done]]).
  - eapply yields_bind; [by apply rr_nm_ok|]. intros [np i] [? ?]. by yret.
  - eapply yields_bind; [by apply rr_px_ok|]. intros i ?. by yret.
  - eapply yields_bind; [by apply rr_as_ok|]. intros i ?. by yret.
  - eapply yields_bind; [apply rr_tf_ok; auto|]. intros i ?. by yret.
  - eapply yields_bind; [by apply rr_sl_ok|]. intros i ?. by yret.
  - eapply yields_bind; [by apply rr_cl_ok|]. intros i ?. by yret.
  - eapply yields_bind; [apply rr_ce_ok; auto|]. intros [i c'] [? ?]. by yret.
Qed.

Lemma rr_loop_ok parse fuel c p n pos name_pos info :
  parse_ok parse → ok c → in_sector c p n → 0 ≤ pos → 0 ≤ name_pos < 512 → info_ok info →
  n - pos < Z.of_nat fuel → 0 < Z.of_nat fuel →
  yields (rr_loop parse fuel c p n pos name_pos info) (λ '(i, c'), info_ok i ∧ later c c').
Proof.
  intros Hparse. revert c pos name_pos info.
  induction fuel as [|fuel IH]; intros c pos name_pos info Hok Hin Hpos Hnp Hi Hf Hf0; [lia|].
  cbn [rr_loop]. pose proof (later_refl c Hok). case_test; b2p; [by yret|].
  destruct (view_sector c p n Hok Hin) as (s & Hv & Hsl & Hsb & Hst). rewrite Hv.
  destruct Hin as (Hp & Hoff & Hn & Hend).
  assert (Hvb : Forall is_byte (drop (Z.to_nat (p_off p)) s)) by by apply Forall_drop.
  assert (Hvl : zlen (drop (Z.to_nat (p_off p)) s) = 2048 - p_off p) by (rewrite length_drop; lia).
  eapply (yields_bind' _ _ (λ _, True)).
  { unfold rr_sig. repeat yread. by yret. }
  intros sig Hsig _. eapply yields_bind'; [eapply yields_rd; [exact Hvb|lia]|].
  intros len Hlen Hlb. unfold is_byte in Hlb. case_test; b2p; [by yret|].
  rewrite rr_sig_drop in Hsig by lia. rewrite rd_drop in Hlen by lia.
  destruct (Hst (p_off p + pos) ltac:(lia)) as [Htf Hce].
  rewrite Z2Nat.id in Hsig, Hlen by lia.
  rewrite drop_drop.
  eapply yields_bind.
  { apply rr_entry_ok; try done.
    - by apply Forall_drop.
    - lia.
    - rewrite length_drop. lia.
    - intros -> ->. apply Htf; [done|]. rewrite <- Hlen. f_equal. lia.
    - intros -> off. rewrite le32_drop by lia.
      replace (Z.of_nat (Z.to_nat (p_off p) + Z.to_nat pos) + 12) with (p_off p + pos + 12) by lia.
      by apply Hce. }
  intros [[[stop np] i] c'] (Hnp' & Hi' & Hlater). destruct stop; [by yret|].
  eapply yields_weaken; [apply IH; try done; try lia|].
  - apply Hlater.
  - eapply in_sector_later; [done|]. by split_and!.
  - intros [i' c''] [? ?]. split; [done|]. by eapply later_trans.
Qed.

Lemma rr_parse_entries_ok depth : parse_ok (rr_parse_entries depth).
Proof.
  induction depth as [|depth IH]; intros c p n skip info Hok Hin Hs Hi; cbn [rr_parse_entries];
    (eapply (yields_bind _ _ (λ k, 0 ≤ k < 512));
      [case_test; [apply strlen_cstr, Hi|yret; lia]|]); intros k Hk.
  - yret. split; [done|by apply later_refl].
  - apply rr_loop_ok; try done; destruct Hin; lia.
Qed.
End walk.

(** ** Names split over several entries *)

(** The [NM] entries of a fragmented name: all but the last say "continues". *)
Definition nm_entry (flags : Z) (frag : list Z) : list Z :=
  [0x4E; 0x4D; 5 + zlen frag; 1; flags] ++ frag.
Fixpoint nm_area (frags : list (list Z)) : list Z :=
  match frags with
  | [] => []
  | [f] => nm_entry 0 f
  | f :: frags => nm_entry 1 f ++ nm_area frags
  end.
Definition good_frag (f : list Z) : Prop := 0 < zlen f ≤ 250 ∧ Forall (λ b, b ≠ 0) f.

Section names.
Context {C : Type} {HO : CacheOps C}.
Implicit Types (c : C) (p : sua_ptr).

(** One fragment is appended to the name. *)
Lemma rr_nm_frag flags f rest np info pre :
  good_frag f → zlen pre = np → zlen (rr_name info) = 512 → take (Z.to_nat np) (rr_name info) = pre →
  np + zlen f ≤ 511 → has_flag flags 0x02 = false → has_flag flags 0x04 = false →
  ∃ n, rr_nm (nm_entry flags f ++ rest) (5 + zlen f) np info =
      Ret (np + zlen f, set_rr_name (if has_flag flags 0x01 then rr_has_name info else true) n info) ∧
    zlen n = 512 ∧ take (Z.to_nat (np + zlen f) + 1) n = pre ++ f ++ [0].
Proof.
  intros [Hf _] Hpre Hl Htake Hfit H2 H4. unfold rr_nm.
  rewrite (proj2 (Z.ltb_lt _ _)) by lia. change (rd (nm_entry flags f ++ rest) 4) with (Ret flags : outcome Z).
  cbn [mbind outcome_bind]. rewrite H2, H4. cbn [negb andb]. unfold RR_NAME_SIZE, u64. cbv zeta.
  rewrite (Z.mod_small (512 - 1 - np)) by lia.
  replace (5 + zlen f - 5) with (zlen f) by lia.
  rewrite (proj2 (Z.ltb_ge _ (zlen f))) by lia. rewrite (proj2 (Z.ltb_lt 0 _)) by lia.
  rewrite rd_range_ok by (rewrite ?length_app; simpl; lia). cbn [mbind outcome_bind].
  assert (Hsrc : slice (nm_entry flags f ++ rest) 5 (zlen f) = f).
  { unfold slice. simpl. rewrite Nat2Z.id. apply take_app_length. }
  rewrite Hsrc, wr_range_ok by lia. cbn [mbind outcome_bind].
  assert (Hn : zlen (splice (rr_name info) np f) = 512) by (rewrite length_splice; lia).
  rewrite wr_ok by lia. cbn [mbind outcome_bind].
  exists (zset (splice (rr_name info) np f) (np + zlen f) 0). split_and!.
  - by destruct (has_flag flags 1).
  - by rewrite zlen_zset.
  - unfold zset. rewrite (proj2 (Z.leb_le _ _)) by lia. rewrite Nat.add_1_r.
    rewrite (take_S_r _ _ 0) by (apply list_lookup_insert_eq; lia).
    rewrite take_insert_ge by lia.
    replace (Z.to_nat (np + zlen f)) with (Z.to_nat np + length f)%nat by lia.
    rewrite take_splice by lia. by rewrite Htake, <- app_assoc.
Qed.

Lemma nm_area_cons f frags :
  nm_area (f :: frags) = nm_entry (match frags with [] => 0 | _ => 1 end) f ++ nm_area frags.
Proof. destruct frags; simpl; [by rewrite app_nil_r|done]. Qed.

Lemma rr_loop_names parse fuel c p n pos frags rest np info pre :
  Forall good_frag frags → frags ≠ [] → (length frags < fuel)%nat → 0 ≤ pos →
  drop (Z.to_nat pos) (view c p) = nm_area frags ++ rest → n - pos = zlen (nm_area frags) →
  zlen pre = np → zlen (rr_name info) = 512 → take (Z.to_nat np) (rr_name info) = pre →
  np + zlen (concat frags) ≤ 511 →
  ∃ info', rr_loop parse fuel c p n pos np info = Ret (info', c) ∧ rr_has_name info' = true ∧
    take (length (pre ++ concat frags) + 1) (rr_name info') = pre ++ concat frags ++ [0].
Proof.
  intros Hg Hne. revert fuel pos np info pre.
  induction Hg as [|f frags Hf Hg IH]; intros fuel pos np info pre Hfuel Hpos Hv Hn Hpre Hl Htake Hfit; [done|].
  destruct fuel as [|fuel]; [lia|]. clear Hne. cbn [rr_loop].
  rewrite nm_area_cons in Hv, Hn. set (flags := match frags with [] => 0 | _ => 1 end) in *.
  pose proof Hf as [Hf1 _]. rewrite length_app in Hn. simpl in Hn, Hfit. rewrite length_app in Hfit.
  rewrite (proj2 (Z.ltb_ge _ _)) by lia.
  assert (Hrd : ∀ i, 0 ≤ i → rd (view c p) (pos + i) = rd (nm_entry flags f ++ nm_area frags ++ rest) i).
  { intros i Hi. rewrite app_assoc, <- Hv, rd_drop by lia. f_equal. lia. }
  assert (Hrd0 : rd (view c p) pos = Ret 0x4E)
    by (rewrite <- (Z.add_0_r pos), Hrd by lia; done).
  unfold rr_sig. rewrite Hrd0, !Hrd by lia.
  change (rd (nm_entry flags f ++ _) 1) with (Ret 0x4D : outcome Z).
  change (rd (nm_entry flags f ++ _) 2) with (Ret (5 + zlen f) : outcome Z).
  cbn [mbind outcome_bind].
  rewrite (proj2 (Z.ltb_ge _ 4)), (proj2 (Z.ltb_ge n _)) by lia. cbn [orb].
  rewrite Hv, <- app_assoc. change (Z.lor (Z.shiftl 78 8) 77) with RR_SIG_NM.
  unfold rr_entry. rewrite Z.eqb_refl.
  destruct (rr_nm_frag flags f (nm_area frags ++ rest) np info pre Hf Hpre Hl Htake) as (nm & -> & Hnl & Hnt);
    [lia|by subst flags; destruct frags|by subst flags; destruct frags|].
  cbn [mbind outcome_bind].
  destruct frags as [|f2 frags].
  - destruct fuel as [|fuel]; [simpl in *; lia|]. cbn [rr_loop]. simpl in Hn.
    rewrite (proj2 (Z.ltb_lt _ _)) by lia. eexists. split; [done|]. split; [done|]. simpl.
    rewrite app_nil_r in *. rewrite <- Hnt. f_equal. rewrite length_app. lia.
  - edestruct (IH ltac:(done) fuel (pos + (5 + zlen f)) (np + zlen f)
      (set_rr_name (if has_flag flags 1 then rr_has_name info else true) nm info) (pre ++ f))
      as (info' & Hr & Hh & Ht); [simpl in *; lia|lia| |lia|rewrite length_app; lia|done| |simpl in *; lia|].
    + replace (Z.to_nat (pos + (5 + zlen f))) with (Z.to_nat pos + length (nm_entry flags f))%nat
        by (simpl; lia).
      rewrite <- drop_drop, Hv, <- app_assoc. apply drop_app_length.
    + cbn [rr_name set_rr_name]. apply (f_equal (take (Z.to_nat (np + zlen f)))) in Hnt.
      rewrite take_take, Nat.min_l in Hnt by lia. rewrite Hnt, app_assoc, take_app_le, take_ge; [done|..];
        rewrite length_app; lia.
    + exists info'. rewrite Hr. split_and!; [done|done|].
      change (concat (f :: f2 :: frags)) with (f ++ concat (f2 :: frags)).
      rewrite <- (app_assoc f _ [0]), !(app_assoc pre f). exact Ht.
Qed.
End names.

(** ** Properties *)

(** [C24] On a disc without the two malformed entries the Rock Ridge parser stays
    inside the cached sectors and inside the arrays it fills, terminates, leaves
    every array a NUL-terminated string, and keeps the cache coherent, however its
    continuation areas nest and whatever they evict. *)
Theorem rr_parse_safe {C} {HO : CacheOps C} img inv ok ptr (c : C) sua n skip :
  CacheLaws C img 2048 inv ok ptr → CacheCleanFailure C ok ptr →
  (∀ lba, Forall is_byte (img lba)) → (∀ lba, tidy_sector (img lba)) →
  ok c → in_sector ptr c sua n → 0 ≤ skip →
  ∃ info c', rr_parse c sua n skip = Ret (info, c') ∧ info_ok info ∧ ok c'.
Proof.
  intros HL HF Hb Ht Hok Hin Hs.
  destruct (rr_parse_entries_ok img inv ok ptr Hb Ht 9 c sua n skip rr_zero Hok Hin Hs rr_zero_ok)
    as ([info c'] & Hr & Hi & Hc & _).
  exists info, c'. by split_and!.
Qed.

(** A sector with one [NM] entry, [README], at offset 10. *)
Definition nm_sector : list Z :=
  replicate 10 0 ++ nm_entry 0 [82; 69; 65; 68; 77; 69] ++ replicate 2027 0.
Definition nm_disc (_ : Z) : list Z := nm_sector.

Lemma nm_sector_tidy : tidy_sector nm_sector.
Proof.
  intros i Hi.
  assert (Hsig : ∀ sig, rr_sig nm_sector i = Ret sig → sig ≠ RR_SIG_TF ∧ sig ≠ RR_SIG_CE).
  { intros sig Hsig. destruct (decide (i < 2047)) as [Hlt|Hge].
    - assert (Hall : forallb (λ j, match rr_sig nm_sector j with
          Ret s => negb (s =? RR_SIG_TF) && negb (s =? RR_SIG_CE) | _ => true end) (seqZ 0 2047) = true)
        by (vm_compute; reflexivity).
      rewrite forallb_forall in Hall. specialize (Hall i).
      rewrite Hsig in Hall. rewrite <- list_elem_of_In, elem_of_seqZ in Hall.
      specialize (Hall ltac:(lia)). by b2p.
    - unfold rr_sig in Hsig. destruct (rd nm_sector i) as [a| |]; try done. simpl in Hsig.
      replace (rd nm_sector (i + 1)) with (@Fault Z) in Hsig; [done|].
      unfold rd. rewrite (proj2 (zget_None _ _)); [done|]. right.
      change (zlen nm_sector) with 2048. lia. }
  split.
  - intros H. by destruct (Hsig _ H).
  - intros off H. by destruct (Hsig _ H).
Qed.

Lemma rr_parse_safe_witness :
  ∃ info c', rr_parse (H := disc_cache nm_disc 2048) tt (mk_ptr 0 10) 20 0 = Ret (info, c') ∧
    info_ok info.
Proof.
  destruct (rr_parse_safe (HO := disc_cache nm_disc 2048) nm_disc (λ _, True) (λ _, True) (λ _ _, True)
    tt (mk_ptr 0 10) 20 0) as (info & c' & H & Hi & _).
  - by apply disc_cache_laws.
  - apply disc_cache_clean.
  - intros lba. apply Forall_forall. intros x Hx. 
    assert (Hall : forallb (λ b, (0 <=? b) && (b <? 256)) nm_sector = true) by (vm_compute; reflexivity).
    rewrite forallb_forall in Hall. apply list_elem_of_In in Hx. specialize (Hall x Hx).
    unfold is_byte. b2p. lia.
  - intros lba. apply nm_sector_tidy.
  - done.
  - split_and!; (done || simpl; lia).
  - lia.
  - exists info, c'. by split.
Defined.

(** A name split over any number of [NM] entries is put together again: if the
    System Use Area starts with the entries of the fragments, the parser reports
    their concatenation. *)
Theorem rr_parse_name_roundtrip {C} {HO : CacheOps C} (c : C) sua frags rest :
  Forall good_frag frags → frags ≠ [] → zlen (concat frags) ≤ 511 →
  view c sua = nm_area frags ++ rest →
  ∃ info, rr_parse c sua (zlen (nm_area frags)) 0 = Ret (info, c) ∧
    rr_has_name info = true ∧ c_str (rr_name info) = concat frags.
Proof.
  intros Hg Hne Hlen Hv. unfold rr_parse. cbn [rr_parse_entries rr_has_name rr_zero].
  cbn [mbind outcome_bind].
  assert (Hfuel : (length frags < S (Z.to_nat (zlen (nm_area frags))))%nat).
  { rewrite Nat2Z.id. clear Hv Hlen Hne. induction Hg as [|f frags Hf Hg IH]; [simpl; lia|].
    rewrite nm_area_cons, length_app. simpl. lia. }
  edestruct (rr_loop_names (rr_parse_entries 8) (S (Z.to_nat (zlen (nm_area frags)))) c sua
    (zlen (nm_area frags)) 0 frags rest 0 rr_zero []) as (info & Hr & Hh & Ht); try done; [lia|].
  exists info. split_and!; [exact Hr|done|].
  assert (Hnz : Forall (λ b, b ≠ 0) (concat frags)).
  { apply Forall_concat. eapply Forall_impl; [exact Hg|]. by intros f [_ ?]. }
  rewrite <- (take_drop (length (concat frags) + 1) (rr_name info)).
  simpl in Ht. rewrite Ht. rewrite <- app_assoc. by apply c_str_app_nul.
Qed.

Lemma rr_parse_name_roundtrip_witness :
  ∃ info, rr_parse (H := disc_cache (λ _, nm_area [[97; 98]; [99]]) 15) tt (mk_ptr 0 0) 13 0 = Ret (info, tt) ∧
    c_str (rr_name info) = [97; 98; 99].
Proof.
  destruct (rr_parse_name_roundtrip (HO := disc_cache (λ _, nm_area [[97; 98]; [99]]) 15) tt
    (mk_ptr 0 0) [[97; 98]; [99]] []) as (info & H & _ & Hn).
  - repeat constructor; simpl; lia.
  - done.
  - simpl. lia.
  - by rewrite app_nil_r.
  - exists info. split; [exact H|exact Hn].
Defined.

(** Discs whose sectors hold the two entries. *)
Definition tf_disc (_ : Z) : list Z := replicate 2044 0 ++ [0x54; 0x46; 4; 1].
Definition ce_disc (_ : Z) : list Z :=
  [0x43; 0x45; 28; 1; 0; 0; 0; 0; 0; 0; 0; 0; 0xFC; 0xFF; 0xFF; 0xFF; 0; 0; 0; 0; 4; 0; 0; 0; 0; 0; 0; 0]
  ++ replicate 2020 0.
(** Two malformed entries make the parser read outside the sector: a [TF] entry
    of length 4 at its end, and a [CE] entry whose offset and length add up to 0
    modulo [2 ^ 32]. *)
Theorem rr_parse_hostile_faults :
  rr_parse (H := disc_cache tf_disc 2048) tt (mk_ptr 0 2044) 4 0 = Fault ∧
  rr_parse (H := disc_cache ce_disc 2048) tt (mk_ptr 0 0) 28 0 = Fault.
Proof. split; vm_compute; reflexivity. Qed.

(** A disc with such a record. *)
Definition split_disc (lba : Z) : list Z :=
  if lba =? 1 then nm_entry 0 [99] ++ replicate 2042 0
  else nm_entry 1 [97; 98] ++
    [0x43; 0x45; 28; 1; 1; 0; 0; 0; 0; 0; 0; 0; 0; 0; 0; 0; 0; 0; 0; 0; 6; 0; 0; 0; 0; 0; 0; 0]
    ++ replicate 2013 0.
(** A name whose first fragment is in the directory record and whose second is
    in the continuation area loses the first: the nested walk starts the name
    over, because [has_name] is not set by a continued [NM] entry.  The record
    holds [ab] (continued) and a [CE] entry for the area with [c]. *)
Theorem rr_parse_split_name_truncated :
  match rr_parse (H := disc_cache split_disc 2048) tt (mk_ptr 0 0) 35 0 with
  | Ret (info, _) => rr_has_name info = true ∧ c_str (rr_name info) = [99]
  | _ => False
  end.
Proof. vm_compute. split; reflexivity. Qed.
