(* ===== verification/RockRidgeTotal.v ===== *)
(** * The Rock Ridge parser terminates on every disc

    Whatever the bytes of the disc are, the walk over the System Use entries, their
    components and their continuation areas ends.  The proofs follow the parser
    with [lands]: accesses outside an object are allowed, endless loops are not. *)
From S2P Require Import Prelude Types CacheApi RockRidge RockRidgeProofs.
Open Scope Z_scope.

(** Follow a bind: bytes read are bytes, other reads are unconstrained. *)
Ltac lstep :=
  eapply lands_bind;
  [first [ apply (lands_rd is_byte); by eauto with odfs
         | apply (lands_range is_byte); by eauto with odfs
         | eassumption ]|];
  let a := fresh "a" in let Ha := fresh "Ha" in intros a _ Ha.

Lemma lands_le32 d pos : Forall is_byte d → lands (iso_read_le32 d pos) is_u32.
Proof. intros. unfold iso_read_le32. do 4 lstep. by apply le32_range. Qed.
Lemma lands_wr buf i b : lands (wr buf i b) (λ t, t = zset buf i b).
Proof. unfold wr. by case_test. Qed.
Lemma lands_wr_range buf i s : lands (wr_range buf i s) (λ t, t = splice buf i s).
Proof. unfold wr_range. by case_test. Qed.
Lemma lands_strlen buf : lands (strlen_buf buf) (λ _, True).
Proof. unfold strlen_buf. by case_test. Qed.
Ltac lle32 := eapply lands_bind; [apply lands_le32; by eauto with odfs|intros ? _ ?].
Ltac lwr := eapply lands_bind; [first [apply lands_wr | apply lands_wr_range]|intros ? _ ->].

(** The name array holds bytes. *)
Definition name_bytes (i : rr_info) : Prop := Forall is_byte (rr_name i).
(** The number of bytes to copy does not matter. *)
Ltac forget_len :=
  match goal with |- context [0 <? ?n] => generalize n; intros k end.
(** Close a leaf. *)
Ltac lret := solve [done | simpl; done | simpl; unfold name_bytes in *; simpl; by auto].

(** ** Entries *)
Section entry.
Context (d : list Z) (len : Z) (Hd : Forall is_byte d).

Lemma rr_nm_lands np info :
  name_bytes info → lands (rr_nm d len np info) (λ '(_, i), name_bytes i).
Proof.
  intros Hi. unfold rr_nm. case_test; [|lret]. lstep. case_test; [|lret]. cbv zeta.
  eapply (lands_bind _ _ (λ '(_, i), name_bytes i)).
  - forget_len.
    case_test; [|lret]. lstep. lwr. lwr. unfold name_bytes. simpl.
    destruct Ha0. apply Forall_zset; [by apply Forall_splice|done].
  - intros [np' i] _ Hi'. by case_test.
Qed.
Lemma rr_px_lands info : name_bytes info → lands (rr_px d len info) name_bytes.
Proof. intros. unfold rr_px. case_test; [|lret]. unfold rr_read_le32. by do 4 lle32. Qed.
Lemma rr_cl_lands info : name_bytes info → lands (rr_cl d len info) name_bytes.
Proof. intros. unfold rr_cl. case_test; [|lret]. unfold rr_read_le32. by lle32. Qed.

Lemma rr_as_lands info : name_bytes info → lands (rr_parse_as d len info) name_bytes.
Proof.
  intros Hi. unfold rr_parse_as. case_test; [lret|]. lstep.
  eapply (lands_bind _ _ (λ r, match r with None => True | Some (_, i) => name_bytes i end)).
  - unfold rr_as_protection. case_test; [|lret]. case_test; [lret|].
    eapply (lands_bind _ _ name_bytes); [case_test; [lret|]; by lstep|by intros].
  - intros [[pos i]|] _ Hp; [|done]. unfold rr_as_comment. repeat (case_test; [|lret]).
    case_test; [lret|]. lstep. cbv zeta. case_test; [lret|].
    eapply lands_bind; [case_test; [apply lands_strlen|exact I]|]. intros cp _ _.
    eapply (lands_bind _ _ (λ _, True)); [|by intros].
    forget_len. case_test; [|lret]. lstep. lwr. eapply lands_weaken; [apply lands_wr|done].
Qed.

Lemma ts7_lands s : Forall is_byte s → lands (rr_parse_ts7 s) (λ _, True).
Proof. intros. unfold rr_parse_ts7. by do 7 lstep. Qed.
Lemma digits2_lands s i : Forall is_byte s → lands (digits2 s i) (λ _, True).
Proof. intros. unfold digits2. by do 2 lstep. Qed.
Lemma ts17_lands s : Forall is_byte s → lands (rr_parse_ts17 s) (λ _, True).
Proof.
  intros. unfold rr_parse_ts17. do 4 lstep.
  do 5 (eapply lands_bind; [by apply digits2_lands|intros ? _ _]). by lstep.
Qed.
Lemma rr_tf_lands info : name_bytes info → lands (rr_tf d len info) name_bytes.
Proof.
  intros Hi. unfold rr_tf. lstep. cbv zeta.
  assert (Hts : ∀ n, lands ((if has_flag a 128 then rr_parse_ts17 else rr_parse_ts7) (drop n d)) (λ _, True)).
  { intros n. case_test; [apply ts17_lands|apply ts7_lands]; by apply Forall_drop. }
  eapply (lands_bind _ _ (λ r, match r with None => True | Some (_, _, i) => name_bytes i end)).
  - repeat (case_test; try done). all: eapply lands_bind; [apply Hts|done].
  - intros [[[tp rem] i]|] _ Hp; [|done]. repeat (case_test; try done).
    all: eapply lands_bind; [apply Hts|done].
Qed.

Lemma sl_separator_lands t p : lands (sl_separator t p) (λ _, True).
Proof.
  unfold sl_separator. case_test; [|lret]. eapply (lands_bind _ _ (λ _, True)).
  - unfold rd. by case_match.
  - intros c _ _. case_test; [|lret]. by lwr.
Qed.
Lemma sl_component_lands t p cf n comp : lands (sl_component t p cf n comp) (λ _, True).
Proof.
  unfold sl_component. repeat case_test; try done; try lwr; try done.
  all: eapply lands_bind; [apply sl_separator_lands|]; intros [t' p'] _ _; case_test; try done.
  - by lwr.
  - lwr. by lwr.
  - eapply (lands_bind _ _ (λ _, True)); [by apply (lands_weaken _ _ _ (lands_range (λ _, True) comp 0 n ltac:(by apply Forall_forall)))|].
    intros src _ _. by lwr.
Qed.
Lemma sl_loop_lands fuel comp area pos t p :
  Forall is_byte comp → area - pos < Z.of_nat fuel → 0 < Z.of_nat fuel →
  lands (sl_loop fuel comp area pos t p) (λ _, True).
Proof.
  intros Hc. revert pos t p. induction fuel as [|fuel IH]; intros pos t p Hf Hf0; [lia|].
  cbn [sl_loop]. case_test; [lret|]. lstep. lstep. cbv zeta. case_test; [lret|]. case_test; [lret|].
  eapply lands_bind; [apply sl_component_lands|]. intros [t' p'] _ _. cbv zeta. lwr.
  unfold is_byte in *. b2p. apply IH; lia.
Qed.
Lemma rr_sl_lands info : name_bytes info → lands (rr_sl d len info) name_bytes.
Proof.
  intros Hi. unfold rr_sl. case_test; [|lret]. cbv zeta. b2p.
  eapply lands_bind; [apply lands_strlen|]. intros p _ _. case_test; [lret|]. lwr.
  eapply lands_bind; [apply sl_loop_lands; [by apply Forall_drop|lia..]|]. by intros t _ _.
Qed.
End entry.

(** ** The walk *)
Section walk.
Context {C : Type} {HO : CacheOps C} (img : Z → list Z) (inv ok : C → Prop) (ptr : C → Z → Prop).
Context {HL : CacheLaws C img 2048 inv ok ptr} {HF : CacheCleanFailure C ok ptr}.
Context (Hbytes : ∀ lba, Forall is_byte (img lba)).
Abbreviation later := (later ok ptr).

Lemma data_bytes c p : ok c → ptr c p → Forall is_byte (bc_data c p).
Proof. intros Hok Hp. destruct (cl_ptr_shows c p Hok Hp) as [l ->]. apply Hbytes. Qed.

Definition parse_lands (parse : C → sua_ptr → Z → Z → rr_info → outcome (rr_info * C)) : Prop :=
  ∀ c p n skip info, ok c → ptr c (p_entry p) → 0 ≤ skip → name_bytes info →
  lands (parse c p n skip info) (λ '(i, c'), name_bytes i ∧ later c c').

Lemma rr_ce_lands parse c d len info :
  parse_lands parse → ok c → name_bytes info → Forall is_byte d →
  lands (rr_ce parse c d len info) (λ '(i, c'), name_bytes i ∧ later c c').
Proof.
  intros Hparse Hok Hi Hd. unfold rr_ce, rr_read_le32.
  pose proof (later_refl ok ptr c Hok). case_test; [|lret]. do 3 lle32.
  case_test; [|lret]. destruct (bc_read c a) as [[err q] c'] eqn:Hr.
  destruct (read_later img inv ok ptr _ _ _ _ _ Hok H0 Hr) as [Hlater Hptr].
  case_test; [|lret]. b2p. eapply lands_weaken.
  - apply Hparse; [apply Hlater|apply Hptr; by apply err_ok_true|lia|done].
  - intros [i c''] [? ?]. split; [done|]. by eapply later_trans.
Qed.

Lemma rr_entry_lands parse c d sig len np info :
  parse_lands parse → ok c → name_bytes info → Forall is_byte d →
  lands (rr_entry parse c d sig len np info) (λ '(_, _, i, c'), name_bytes i ∧ later c c').
Proof.
  intros Hparse Hok Hi Hd. unfold rr_entry. pose proof (later_refl ok ptr c Hok).
  repeat (case_test; try done).
  - eapply lands_bind; [by apply rr_nm_lands|]. by intros [? ?].
  - eapply lands_bind; [by apply rr_px_lands|]. by intros ?.
  - eapply lands_bind; [by apply rr_as_lands|]. by intros ?.
  - eapply lands_bind; [by apply rr_tf_lands|]. by intros ?.
  - eapply lands_bind; [by apply rr_sl_lands|]. by intros ?.
  - eapply lands_bind; [by apply rr_cl_lands|]. by intros ?.
  - eapply lands_bind; [by apply rr_ce_lands|]. by intros [? ?].
Qed.

Lemma rr_loop_lands parse fuel c p n pos np info :
  parse_lands parse → ok c → ptr c (p_entry p) → name_bytes info → 0 ≤ pos →
  n - pos < Z.of_nat fuel → 0 < Z.of_nat fuel →
  lands (rr_loop parse fuel c p n pos np info) (λ '(i, c'), name_bytes i ∧ later c c').
Proof.
  intros Hparse. revert c pos np info.
  induction fuel as [|fuel IH]; intros c pos np info Hok Hp Hi Hpos Hf Hf0; [lia|].
  cbn [rr_loop]. pose proof (later_refl ok ptr c Hok). case_test; [lret|].
  assert (Hv : Forall is_byte (view c p)) by (apply Forall_mem_at, data_bytes; done).
  eapply (lands_bind _ _ (λ _, True)); [unfold rr_sig; by do 2 lstep|]. intros sig _ _. lstep.
  case_test; [lret|]. b2p. eapply lands_bind; [apply rr_entry_lands; try done; by apply Forall_drop|].
  intros [[[stop np'] i] c'] _ (Hi' & Hlater). destruct stop; [done|].
  eapply lands_weaken; [apply IH; try done; try lia; apply Hlater; done|].
  intros [i' c''] [? ?]. split; [done|]. by eapply later_trans.
Qed.

Lemma rr_parse_entries_lands depth : parse_lands (rr_parse_entries depth).
Proof.
  induction depth as [|depth IH]; intros c p n skip info Hok Hp Hs Hi; cbn [rr_parse_entries];
    (eapply (lands_bind _ _ (λ _, True)); [case_test; [apply lands_strlen|done]|]); intros k _ _.
  - split; [done|by apply later_refl].
  - apply rr_loop_lands; try done; lia.
Qed.

Lemma rr_parse_lands c p n skip :
  ok c → ptr c (p_entry p) → 0 ≤ skip →
  lands (rr_parse c p n skip) (λ '(i, c'), name_bytes i ∧ later c c').
Proof.
  intros. apply rr_parse_entries_lands; try done.
  change (Forall is_byte (replicate 512 0)). by apply Forall_replicate.
Qed.
End walk.

(** ** Properties *)

(** Whatever bytes the disc holds, the Rock Ridge parser returns or stops at
    an access outside an object: it never loops, through self-referring
    continuation areas, empty entries or endless link components.  When it returns,
    the cache is still coherent. *)
Theorem rr_parse_terminates {C} {HO : CacheOps C} img inv ok ptr (c : C) sua n skip :
  CacheLaws C img 2048 inv ok ptr → CacheCleanFailure C ok ptr →
  (∀ lba, Forall is_byte (img lba)) → ok c → ptr c (p_entry sua) → 0 ≤ skip →
  rr_parse c sua n skip ≠ Diverge ∧
  ∀ info c', rr_parse c sua n skip = Ret (info, c') → ok c'.
Proof.
  intros HL HF Hb Hok Hp Hs.
  pose proof (rr_parse_lands img inv ok ptr Hb c sua n skip Hok Hp Hs) as H. split.
  - by eapply lands_halts.
  - intros info c' Hr. rewrite Hr in H. apply H.
Qed.

(** A continuation area that continues at itself. *)
Definition loop_disc (_ : Z) : list Z :=
  [0x43; 0x45; 28; 1; 7; 0; 0; 0; 0; 0; 0; 7; 0; 0; 0; 0; 0; 0; 0; 0; 28; 0; 0; 0; 0; 0; 0; 28]
    ++ replicate 2020 0.
Lemma rr_parse_terminates_witness :
  rr_parse (H := disc_cache loop_disc 2048) tt (mk_ptr 0 0) 28 0 ≠ Diverge.
Proof.
  eapply (rr_parse_terminates (HO := disc_cache loop_disc 2048) loop_disc (λ _, True) (λ _, True)
    (λ _ _, True) tt (mk_ptr 0 0) 28 0); try exact I.
  - apply disc_cache_laws. intros. reflexivity.
  - apply disc_cache_clean.
  - intros lba. apply Forall_app. split.
    + repeat (constructor; [unfold is_byte; lia|]). constructor.
    + by apply Forall_replicate.
  - lia.
Defined.
