(* ===== verification/RockRidgeTransparent.v ===== *)
(** * Rock Ridge and the cache

    The parser keeps its pointer into the sector of a System Use Area while it reads
    continuation areas, and those reads may put another sector in that place.  What it
    reads afterwards depends on the cache: [rr_parse_depends_on_cache].  Where nothing
    follows a continuation ([ce_sectors]) it is what the disc holds: [rr_parse_sim]. *)
From S2P Require Import Prelude Types Media CacheApi RockRidge BlockCache BlockCacheSpec.
Open Scope Z_scope.

(** ** Areas in which a continuation comes last *)
Section areas.
Context (img : Z → list Z).

(** Sector, offset and length of the area a [CE] entry of length [len] continues at,
    if it is one the parser follows. *)
Definition ce_target (d : list Z) (len : Z) : outcome (option (Z * Z * Z)) :=
  if 28 <=? len then
    l ← rr_read_le32 d 4; o ← rr_read_le32 d 12; n ← rr_read_le32 d 20;
    Ret (if (0 <? n) && (n <=? 2048) then Some (l, o, n) else None)
  else Ret None.

(** The sectors read for the area of [n] bytes at [d], from [pos] on; [None] if an
    entry follows a continuation.  [nested] is the same for continuation areas. *)
Fixpoint ce_walk (nested : list Z → Z → option (list Z)) (fuel : nat) (d : list Z) (n pos : Z) : option (list Z) :=
  match fuel with
  | O => Some []
  | S fuel =>
      if n <? pos + 4 then Some []
      else match rr_sig d pos, rd d (pos + 2) with
      | Ret sig, Ret len =>
          if (len <? 4) || (n <? pos + len) || (sig =? RR_SIG_ST) then Some []
          else if sig =? RR_SIG_CE then
            match ce_target (drop (Z.to_nat pos) d) len with
            | Ret (Some (l, o, m)) =>
                if pos + len + 4 <=? n then None
                else if u32 (o + m) <=? 2048 then (l ::.) <$> nested (mem_at (img l) o) m else Some [l]
            | _ => ce_walk nested fuel d n (pos + len)
            end
          else ce_walk nested fuel d n (pos + len)
      | _, _ => Some []
      end
  end.
Fixpoint ce_sectors (depth : nat) (d : list Z) (n pos : Z) : option (list Z) :=
  match depth with
  | O => Some []
  | S depth => ce_walk (λ d n, ce_sectors depth d n 0) (S (Z.to_nat n)) d n pos
  end.
End areas.

Section sim.
Context {C : Type} {HO : CacheOps C} (img : Z → list Z) (inv ok : C → Prop) (ptr : C → Z → Prop).
Context (readable : Z → Prop).
Context {HL : CacheLaws C img 2048 inv ok ptr} {HR : CacheReadable C ok readable}.
Context (Hbytes : ∀ l, Forall is_byte (img l)).
#[local] Instance disc : CacheOps unit := disc_cache img 2048.

(** The pointer [p] shows sector [l]. *)
Definition shows (c : C) (p l : Z) : Prop := ptr c p ∧ bc_data c p = img l.
(** What is read for an area can be read. *)
Definition area_ok (r : option (list Z)) : Prop := ∃ ls, r = Some ls ∧ Forall readable ls.

(** Two walks, the first through the cache [c], at most [k] levels deep. *)
Definition parse_rel (k : Z) (c : C) (r : rr_info * C) (r' : rr_info * unit) : Prop :=
  r.1 = r'.1 ∧ ok r.2 ∧ evolves ptr (READ_EVICTIONS * k) c r.2.
Definition parse_sim (k : Z) (parse : C → sua_ptr → Z → Z → rr_info → outcome (rr_info * C))
    (parse' : unit → sua_ptr → Z → Z → rr_info → outcome (rr_info * unit))
    (sectors : list Z → Z → option (list Z)) : Prop :=
  ∀ c p l o n info, ok c → shows c p l → area_ok (sectors (mem_at (img l) o) n) →
    outcome_rel (parse_rel k c) (parse c (mk_ptr p o) n 0 info) (parse' tt (mk_ptr l o) n 0 info).

Lemma ok_generation c : ok c → is_u32 (bc_generation c).
Proof. intros Hok. by eapply cl_generation, cl_ok_inv. Qed.
Lemma parse_rel_same k c info u : 0 ≤ k → ok c → parse_rel k c (info, c) (info, u).
Proof.
  intros Hk Hok. split_and!; [done|done|]. apply evolves_refl; [unfold READ_EVICTIONS; lia|by apply ok_generation].
Qed.

(** Entries other than [CE] do not use the cache. *)
Lemma rr_entry_plain parse parse' c d sig len np info :
  sig ≠ RR_SIG_CE →
  outcome_rel (λ '(s, np, i, c') '(s', np', i', _), (s, np, i) = (s', np', i') ∧ c' = c ∧ s = (sig =? RR_SIG_ST))
    (rr_entry (C := C) parse c d sig len np info) (rr_entry (C := unit) parse' tt d sig len np info).
Proof.
  intros Hce. apply Z.eqb_neq in Hce. unfold rr_entry. rewrite Hce. cbv iota.
  repeat (case_test; [b2p; subst sig; try (apply outcome_rel_same; intros); by repeat case_match|]). done.
Qed.

Lemma le32_is_u32 d i v : Forall is_byte d → rr_read_le32 d i = Ret v → is_u32 v.
Proof.
  intros Hd. unfold rr_read_le32, iso_read_le32.
  assert (Hrd : ∀ j b, rd d j = Ret b → is_byte b).
  { intros j b Hb. pose proof (lands_rd is_byte d j Hd) as H. by rewrite Hb in H. }
  intros (b0 & H0 & (b1 & H1 & (b2 & H2 & (b3 & H3 & [= <-])%bind_Ret)%bind_Ret)%bind_Ret)%bind_Ret.
  apply le32_range; by eapply Hrd.
Qed.
Lemma ce_target_u32 d len l o m : Forall is_byte d → ce_target d len = Ret (Some (l, o, m)) → is_u32 l.
Proof.
  intros Hd. unfold ce_target. case_test; [|done].
  intros (l' & Hl & (o' & _ & (m' & _ & H)%bind_Ret)%bind_Ret)%bind_Ret. revert H. case_test; [|done].
  intros [= <- _ _]. by eapply le32_is_u32.
Qed.

(** What [rr_ce] does with an area it follows. *)
Definition ce_follow {X} {HX : CacheOps X} (parse : X → sua_ptr → Z → Z → rr_info → outcome (rr_info * X))
    (x : X) (info : rr_info) (t : option (Z * Z * Z)) : outcome (rr_info * X) :=
  match t with
  | None => Ret (info, x)
  | Some (l, o, m) =>
      let '(err, s, x) := bc_read x l in
      if err_ok err && (u32 (o + m) <=? 2048) then parse x (mk_ptr s o) m 0 info else Ret (info, x)
  end.
Lemma rr_ce_target {X} {HX : CacheOps X} (parse : X → sua_ptr → Z → Z → rr_info → outcome (rr_info * X)) x d len info :
  rr_ce parse x d len info = t ← ce_target d len; ce_follow parse x info t.
Proof.
  unfold rr_ce, ce_target. case_test; [|done].
  destruct (rr_read_le32 d 4) as [l| |]; [|done..]. destruct (rr_read_le32 d 12) as [o| |]; [|done..].
  destruct (rr_read_le32 d 20) as [m| |]; [|done..]. cbn [mbind outcome_bind]. by case_test.
Qed.
Lemma rr_entry_ce {X} {HX : CacheOps X} (parse : X → sua_ptr → Z → Z → rr_info → outcome (rr_info * X)) x d len np info :
  rr_entry parse x d RR_SIG_CE len np info = '(i, x) ← t ← ce_target d len; ce_follow parse x info t; Ret (false, np, i, x).
Proof. rewrite <- rr_ce_target. done. Qed.

Lemma ce_follow_sim k parse parse' sectors c info l o m :
  0 ≤ k → parse_sim k parse parse' sectors → ok c → is_u32 l →
  area_ok (if u32 (o + m) <=? 2048 then (l ::.) <$> sectors (mem_at (img l) o) m else Some [l]) →
  outcome_rel (parse_rel (k + 1) c) (ce_follow parse c info (Some (l, o, m))) (ce_follow parse' tt info (Some (l, o, m))).
Proof.
  intros Hk Hparse Hok Hl (ls & Hls & Hrd).
  assert (Hl_rd : readable l).
  { destruct (u32 (o + m) <=? 2048); [|by injection Hls as <-; inversion Hrd].
    destruct (sectors _ _); [|done]. injection Hls as <-. by inversion Hrd. }
  destruct (cr_read c l Hok Hl Hl_rd) as (p1 & c1 & Hr). unfold ce_follow. rewrite Hr.
  change (bc_read tt l) with (ODFS_OK, l, tt). cbn [err_ok]. change (err_ok ODFS_OK) with true. cbn [andb].
  destruct (cl_read_ok c _ _ _ Hok Hl Hr) as (Hok1 & Hp1 & Hd1 & He1). case_test.
  - eapply outcome_rel_weaken; [apply (Hparse c1 p1 l o m info Hok1); [by split|]|].
    + destruct (sectors _ _) as [ls'|]; [|done]. injection Hls as <-. exists ls'. split; [done|]. by inversion Hrd.
    + intros [i c2] [i' []] (Hi & Hok2 & He2). split_and!; [done|done|].
      replace (READ_EVICTIONS * (k + 1)) with (READ_EVICTIONS + READ_EVICTIONS * k) by lia. by eapply evolves_trans.
  - split_and!; [done|done|]. eapply evolves_mono; [|exact He1]. unfold READ_EVICTIONS. lia.
Qed.

(** Past the last entry the walk looks at nothing. *)
Lemma rr_loop_past {X} {HX : CacheOps X} (parse : X → sua_ptr → Z → Z → rr_info → outcome (rr_info * X)) fuel x p n pos np info :
  n < pos + 4 → rr_loop parse fuel x p n pos np info = match fuel with O => Diverge | S _ => Ret (info, x) end.
Proof. intros Hn. destruct fuel; [done|]. cbn [rr_loop]. by rewrite (proj2 (Z.ltb_lt _ _)) by lia. Qed.

Lemma rr_loop_sim k parse parse' sectors fuel c p l o n pos np info :
  0 ≤ k → parse_sim k parse parse' sectors → ok c → shows c p l →
  area_ok (ce_walk img sectors fuel (mem_at (img l) o) n pos) →
  outcome_rel (parse_rel (k + 1) c) (rr_loop parse fuel c (mk_ptr p o) n pos np info)
    (rr_loop parse' fuel tt (mk_ptr l o) n pos np info).
Proof.
  intros Hk Hparse Hok Hp. revert pos np info. induction fuel as [|fuel IH]; intros pos np info; [done|].
  cbn [rr_loop ce_walk]. case_test; [by intros _; apply parse_rel_same; [lia|]|].
  assert (Hview : view c (mk_ptr p o) = mem_at (img l) o) by (unfold view; simpl; by rewrite (proj2 Hp)).
  rewrite Hview. change (view tt (mk_ptr l o)) with (mem_at (img l) o). set (d := mem_at (img l) o) in *.
  assert (Hd : Forall is_byte (drop (Z.to_nat pos) d)) by (apply Forall_drop; by apply Forall_mem_at).
  destruct (rr_sig d pos) as [sig| |]; [|done..]. destruct (rd d (pos + 2)) as [len| |]; [|done..].
  cbn [mbind outcome_bind]. destruct ((len <? 4) || (n <? pos + len)) eqn:Hend; [by intros _; apply parse_rel_same; [lia|]|].
  cbn [orb]. destruct (decide (sig = RR_SIG_CE)) as [->|Hce].
  - change (RR_SIG_CE =? RR_SIG_ST) with false. rewrite Z.eqb_refl, !rr_entry_ce. cbv iota.
    destruct (ce_target _ len) as [[[[l1 o1] m1]|]| |] eqn:Ht; [| |done..]; cbn [mbind outcome_bind].
    + destruct (pos + len + 4 <=? n) eqn:Hpast; [by intros (? & ? & _)|]. b2p. intros Ha.
      eapply outcome_rel_bind; [apply (outcome_rel_bind (parse_rel (k + 1) c) (λ '(s, np, i, c') '(s', np', i', _),
        s = false ∧ s' = false ∧ i = i' ∧ ok c' ∧ evolves ptr (READ_EVICTIONS * (k + 1)) c c'));
        [apply (ce_follow_sim k parse parse' sectors); try done; by eapply ce_target_u32|]|].
      * intros [i c2] [i' []] (Hi & Hok2 & He2). by split_and!.
      * intros [[[s np1] i] c2] [[[s' np1'] i'] []] (-> & -> & -> & Hok2 & He2). rewrite !rr_loop_past by lia.
        by destruct fuel.
    + intros Ha. by apply IH.
  - rewrite (proj2 (Z.eqb_neq _ _) Hce). intros Ha.
    eapply outcome_rel_bind; [by apply rr_entry_plain|].
    intros [[[s np1] i] c2] [[[s' np1'] i'] []] ([= <- <- <-] & -> & Hs).
    destruct s; [by apply parse_rel_same; [lia|]|]. rewrite <- Hs in Ha. by apply IH.
Qed.

(** A parse through the cache is a parse of the disc, where no entry follows a
    continuation. *)
Lemma rr_entries_sim depth c p l o n skip info :
  ok c → shows c p l → area_ok (ce_sectors img depth (mem_at (img l) o) n skip) →
  outcome_rel (parse_rel (Z.of_nat depth) c) (rr_parse_entries depth c (mk_ptr p o) n skip info)
    (rr_parse_entries depth tt (mk_ptr l o) n skip info).
Proof.
  revert c p l o n skip info. induction depth as [|depth IH]; intros c p l o n skip info Hok Hp Ha;
    cbn [rr_parse_entries]; apply outcome_rel_same; intros np _; [by apply parse_rel_same|].
  replace (Z.of_nat (S depth)) with (Z.of_nat depth + 1) by lia. cbn [ce_sectors] in Ha.
  eapply rr_loop_sim; [lia| |done|done|exact Ha].
  intros c1 p1 l1 o1 n1 i1 Hok1 Hp1 Ha1. by apply IH.
Qed.
Lemma rr_parse_sim c p l o n skip :
  ok c → shows c p l → area_ok (ce_sectors img 9 (mem_at (img l) o) n skip) →
  outcome_rel (parse_rel 9 c) (rr_parse c (mk_ptr p o) n skip) (rr_parse tt (mk_ptr l o) n skip).
Proof. apply (rr_entries_sim 9). Qed.
End sim.

(** ** Entries after a continuation *)

(** A [CE] entry for [n] bytes at the start of sector [l]. *)
Definition ce_entry (l n : Z) : list Z :=
  [0x43; 0x45; 28; 1] ++ [l; 0; 0; 0] ++ replicate 12 0 ++ [n; 0; 0; 0] ++ replicate 4 0.
(** Sector 0 continues at sector 1, which continues at sector 2, and goes on with the
    name [a]; where that entry lies, sector 2 has one for [b]. *)
Definition nested_disc (l : Z) : list Z :=
  if l =? 0 then ce_entry 1 28 ++ [0x4E; 0x4D; 6; 1; 0; 97] ++ replicate 2014 0
  else if l =? 1 then ce_entry 2 28 ++ replicate 2020 0
  else replicate 28 0 ++ [0x4E; 0x4D; 6; 1; 0; 98] ++ replicate 2014 0.
Definition nested_medium : odfs_media_ops unit := image_ops nested_disc 100 2048.
Definition nested_cache : odfs_cache unit := (odfs_cache_init nested_medium (λ _, true) tt 2).2.
(** The name the System Use Area of sector 0 gives, read through a cache. *)
Definition nested_name {X} {HX : CacheOps X} (x : X) : outcome (list Z) :=
  let '(_, p, x) := bc_read x 0 in (λ '(i, _), c_str (rr_name i)) <$> rr_parse x (mk_ptr p 0) 34 0.
(** With two cached sectors the continuation of the continuation replaces the sector
    the parser is in: the name it then reads is that of another sector. *)
Theorem rr_parse_depends_on_cache :
  nested_name (HX := disc_cache nested_disc 2048) tt = Ret [97] ∧
  nested_name (HX := block_cache_ops nested_medium) nested_cache = Ret [98] ∧
  ce_sectors nested_disc 9 (nested_disc 0) 34 0 = None.
Proof. split_and!; vm_compute; reflexivity. Qed.
