(* ===== verification/Iso9660.v ===== *)
(** * The ISO 9660 backend ([backends/iso9660/])

    A directory extent is scanned record by record through the block cache.  Log
    calls are left out.  The mount context is one mutable object ([next_node_id]
    counts parsed records) and is passed through.  Reading a byte outside a sector
    or an array, and using a name the Joliet converter did not write, is [Fault].
    An offset advances with every round of a directory loop, so a fuel of one more
    than the directory's size is enough unless the offset wraps around. *)
From S2P Require Import Prelude Types Strings Namefix CacheApi Charset RockRidge.
Open Scope Z_scope.

Definition ISO_SECTOR_SIZE : Z := 2048.
Definition ISO_VD_START_LBA : Z := 16.
Definition ISO_VD_TYPE_PRIMARY : Z := 1.
Definition ISO_VD_TYPE_SUPPL : Z := 2.
Definition ISO_VD_TYPE_TERM : Z := 255.
(** "CD001" and "CDROM". *)
Definition ISO_STANDARD_ID : list Z := [67; 68; 48; 48; 49].
Definition HS_STANDARD_ID : list Z := [67; 68; 82; 79; 77].

(* [src: backends/iso9660/iso9660.h:153-162 iso_pvd_info_t] *)
Record iso_pvd_info : Type := mk_pvd {
  system_id : list Z; volume_id : list Z; volume_space_size : Z; logical_block_size : Z;
  path_table_size : Z; root_dir_lba : Z; root_dir_size : Z; root_dir_record : list Z }.

(* [src: backends/iso9660/iso9660.h:173-183 iso_context_t] *)
Record iso_context : Type := mk_iso {
  pvd : iso_pvd_info; session_start : Z; next_node_id : Z; lowercase : bool;
  high_sierra : bool; joliet : bool; has_rock_ridge : bool; rr_skip : Z; root : odfs_node }.
Definition set_next_node_id v (ctx : iso_context) : iso_context :=
  mk_iso (pvd ctx) (session_start ctx) v (lowercase ctx) (high_sierra ctx) (joliet ctx)
    (has_rock_ridge ctx) (rr_skip ctx) (root ctx).

(** ** Helpers *)

(* [src: backends/iso9660/iso9660.h:50-53 iso_read_le16] *)
Definition iso_read_le16 (d : list Z) (pos : Z) : outcome Z :=
  b0 ← rd d pos; b1 ← rd d (pos + 1); Ret (le16 b0 b1).

(** The bytes without the spaces and NULs at their end. *)
(* [src: backends/iso9660/iso9660.h:62-64 iso_copy_strfield] *)
Definition trim_field (src : list Z) : list Z :=
  reverse ((fix go l := match l with
    | c :: l' => if (c =? 32) || (c =? 0) then go l' else l
    | [] => [] end) (reverse src)).
(** The string in [dst] afterwards. *)
(* [src: backends/iso9660/iso9660.h:56-70 iso_copy_strfield] *)
Definition iso_copy_strfield (src : list Z) (dst_size : Z) : list Z :=
  if dst_size =? 0 then []
  else c_str (take (Z.to_nat (dst_size - 1)) (trim_field src)).

(* [src: backends/iso9660/iso9660.c:32-45 iso_parse_dir_date] *)
Definition iso_parse_dir_date (d : list Z) (high_sierra : bool) : outcome odfs_timestamp :=
  d0 ← rd d 0; d1 ← rd d 1; d2 ← rd d 2; d3 ← rd d 3; d4 ← rd d 4; d5 ← rd d 5;
  tz ← (if high_sierra then Ret 0 else d6 ← rd d 6; Ret (s16 (s8 d6 * 15)));
  Ret (mk_timestamp (1900 + d0) d1 d2 d3 d4 d5 tz).

(** [S_IFMT], [S_IFLNK], [S_IFDIR]. *)
Definition rr_kind (mode : Z) : odfs_node_kind :=
  if Z.land mode 61440 =? 40960 then ODFS_NODE_SYMLINK
  else if Z.land mode 61440 =? 16384 then ODFS_NODE_DIR else ODFS_NODE_FILE.
(** The Rock Ridge name replaces a node's name when it is present and not empty. *)
(* [src: backends/iso9660/iso9660.c:51-57 iso_apply_rr] *)
Definition rr_override_name (rr : rr_info) (node : odfs_node) : odfs_node :=
  let nm := c_str (rr_name rr) in
  if rr_has_name rr && negb (bool_decide (nm = []))
  then set_name (take (Z.to_nat (ODFS_NAME_MAX - 1)) nm) node else node.
(* [src: backends/iso9660/iso9660.c:75-88 iso_apply_rr] *)
Definition rr_amiga_as (rr : rr_info) (a : odfs_amiga_as) : odfs_amiga_as :=
  let a := if rr_has_amiga_protection rr
           then mk_amiga_as true (rr_amiga_protection rr) (has_comment a) (comment a) else a in
  if rr_has_amiga_comment rr
  then mk_amiga_as (has_protection a) (protection a) true
         (take (Z.to_nat (ODFS_AMIGA_COMMENT_MAX - 1)) (c_str (rr_amiga_comment rr))) else a.
(* [src: backends/iso9660/iso9660.c:48-92 iso_apply_rr] *)
Definition iso_apply_rr (node : odfs_node) (rr : rr_info) (session_start : Z) (allow_name : bool)
    : odfs_node :=
  let node := if allow_name then rr_override_name rr node else node in
  let node := if rr_has_posix rr then set_kind (rr_kind (rr_mode rr)) (set_mode (rr_mode rr) node)
              else node in
  let node := if rr_has_timestamps rr then set_times (rr_mtime rr) (rr_ctime rr) node else node in
  let node := if rr_has_child_link rr
              then set_extent (mk_extent (u32 (rr_child_link_lba rr + session_start))
                                (length_ (extent node))) node else node in
  let node := set_amiga_as (rr_amiga_as rr (amiga_as node)) node in
  set_backend ODFS_BACKEND_ROCK_RIDGE node.

(** ** Directory records *)

(** The name of a record; [ident] are its identifier bytes. *)
(* [src: backends/iso9660/iso9660.c:154-175 iso_parse_dir_record] *)
Definition iso_record_name (ctx : iso_context) (ident : list Z) : outcome (list Z) :=
  if bool_decide (ident = [0]) then Ret [46]
  else if bool_decide (ident = [1]) then Ret [46; 46]
  else if joliet ctx then
    match odfs_ucs2be_to_utf8 ident ODFS_NAME_MAX with
    | (_, Some out) =>
        let out_len := zlen out in
        Ret (if (2 <=? out_len) && (default 0 (zget out (out_len - 2)) =? 59)
             then take (Z.to_nat (out_len - 2)) out else out)
    | (_, None) => Fault
    end
  else
    match odfs_iso_name_to_display ident ODFS_NAME_MAX (lowercase ctx) with
    | (_, Some out) => Ret (c_str out)
    | (_, None) => Fault
    end.

(** A parsed record: the node, its length, and where its System Use Area starts
    within the record and how long it is. *)
Record dir_record : Type := mk_rec {
  rec_node : odfs_node; rec_consumed : Z; rec_sua : option (Z * Z) }.

(** [data] is the memory at the record; [None] is the result 0. *)
(* [src: backends/iso9660/iso9660.c:103-190 iso_parse_dir_record] *)
Definition iso_parse_dir_record (data : list Z) (avail : Z) (ctx : iso_context)
    : outcome (option dir_record * iso_context) :=
  if avail <? 1 then Ret (None, ctx)
  else
    rec_len ← rd data 0;
    if rec_len =? 0 then Ret (None, ctx)
    else if (rec_len <? 33) || (avail <? rec_len) then Ret (None, ctx)
    else
      name_len ← rd data 32;
      if rec_len <? 33 + name_len then Ret (None, ctx)
      else
        let id := next_node_id ctx in
        let ctx := set_next_node_id (u32 (id + 1)) ctx in
        lba ← iso_read_le32 data 2;
        len ← iso_read_le32 data 10;
        flags ← rd data (if high_sierra ctx then 24 else 25);
        time ← iso_parse_dir_date (mem_at data 18) (high_sierra ctx);
        ident ← rd_range data 33 name_len;
        name ← iso_record_name ctx ident;
        let node := mk_node id 0 (if joliet ctx then ODFS_BACKEND_JOLIET else ODFS_BACKEND_ISO9660)
          (if has_flag flags 0x02 then ODFS_NODE_DIR else ODFS_NODE_FILE)
          name len time time 0 amiga_as_zero
          (mk_extent (u32 (lba + session_start ctx)) len) 0 in
        let name_end := 33 + name_len in
        let name_end := if Z.land name_len 1 =? 0 then name_end + 1 else name_end in
        Ret (Some (mk_rec node rec_len
               (if negb (high_sierra ctx) && (name_end <? rec_len)
                then Some (name_end, rec_len - name_end) else None)), ctx).

(** The offset of the next sector. *)
(* [src: backends/iso9660/iso9660.c:476-480 odfs_iso_readdir] *)
Definition next_sector (offset : Z) : Z := u32 ((offset / ISO_SECTOR_SIZE + 1) * ISO_SECTOR_SIZE).

Section iso.
Context {C : Type} `{CacheOps C} (malloc : nat → Z → bool).

(** *** Multi-extent files *)

(** The walk over the continuation records; [ident] is the identifier of the
    first.  Result: error, offset, merged length. *)
(* [src: backends/iso9660/iso9660.c:891-947 odfs_iso_merge_multi_extent] *)
Fixpoint merge_loop (fuel : nat) (c : C) (session_start dir_lba dir_size : Z) (flags_off : Z)
    (ident : list Z) (extent_lba : Z) (more contiguous : bool) (merged offset : Z)
    : outcome (odfs_err * Z * Z * C) :=
  match fuel with
  | O => Diverge
  | S fuel =>
      if negb (more && (offset <? dir_size)) then Ret (ODFS_OK, offset, merged, c)
      else
        let sector_lba := u32 (dir_lba + offset / ISO_SECTOR_SIZE) in
        let sector_off := offset mod ISO_SECTOR_SIZE in
        let '(err, sector, c) := bc_read c sector_lba in
        if negb (err_ok err) then Ret (err, offset, merged, c)
        else
          let rec := mem_at (bc_data c sector) sector_off in
          rec_len ← rd rec 0;
          if rec_len =? 0 then
            merge_loop fuel c session_start dir_lba dir_size flags_off ident extent_lba
              more contiguous merged (next_sector offset)
          else if (rec_len <? 33) || (ISO_SECTOR_SIZE - sector_off <? rec_len)
          then Ret (ODFS_OK, offset, merged, c)
          else
            name_len ← rd rec 32;
            same ← (if name_len =? zlen ident
                    then n ← rd_range rec 33 (zlen ident); Ret (bool_decide (n = ident))
                    else Ret false);
            if negb same then Ret (ODFS_OK, offset, merged, c)
            else
              l ← iso_read_le32 rec 2;
              part_len ← iso_read_le32 rec 10;
              flags ← rd rec flags_off;
              let part_lba := u32 (l + session_start) in
              let joins := contiguous && (merged mod ISO_SECTOR_SIZE =? 0) &&
                (part_lba =? u32 (extent_lba + merged / ISO_SECTOR_SIZE)) in
              merge_loop fuel c session_start dir_lba dir_size flags_off ident extent_lba
                (has_flag flags 0x80) joins (if joins then merged + part_len else merged)
                (u32 (offset + rec_len))
  end.
(** [first_rec] is the memory at the first record, [offset] the one after it. *)
(* [src: backends/iso9660/iso9660.c:866-953 odfs_iso_merge_multi_extent] *)
Definition odfs_iso_merge_multi_extent (c : C) (session_start dir_lba dir_size offset : Z)
    (high_sierra : bool) (first_rec : list Z) (node : odfs_node)
    : outcome (odfs_err * Z * odfs_node * C) :=
  let flags_off := if high_sierra then 24 else 25 in
  flags ← rd first_rec flags_off;
  if negb (has_flag flags 0x80) then Ret (ODFS_OK, offset, node, c)
  else
    ident_len ← rd first_rec 32;
    ident ← rd_range first_rec 33 ident_len;
    '(err, offset, merged, c) ←
      merge_loop (S (Z.to_nat dir_size)) c session_start dir_lba dir_size flags_off ident
        (lba (extent node)) true true (length_ (extent node)) offset;
    if negb (err_ok err) then Ret (err, offset, node, c)
    else
      let len := if UINT32_MAX <? merged then UINT32_MAX else merged in
      Ret (ODFS_OK, offset,
           set_extent (mk_extent (lba (extent node)) len) (set_size merged node), c).

(** *** Enumeration *)

(** The sector a scan holds: pointer, sector number, generation at the read. *)
Definition held : Type := option (Z * Z * Z).
(** The pointer is kept while it is for the same sector and nothing was evicted. *)
(* [src: backends/iso9660/iso9660.c:460-471 odfs_iso_readdir] *)
Definition iso_hold (c : C) (h : held) (sector_lba : Z) : odfs_err * Z * held * C :=
  let fetch :=
    let '(err, p, c) := bc_read c sector_lba in
    if err_ok err then (ODFS_OK, p, Some (p, sector_lba, bc_generation c), c) else (err, p, h, c) in
  match h with
  | Some (p, l, g) =>
      if (sector_lba =? l) && (bc_generation c =? g) then (ODFS_OK, p, h, c) else fetch
  | None => fetch
  end.

(** What one record comes to. *)
Inductive dir_item : Type :=
  | DirSkip (offset : Z)
  | DirEntry (node : odfs_node) (offset : Z)
  | DirFail (err : odfs_err).
Record scan_state : Type := mk_scan {
  sc_cache : C; sc_ctx : iso_context; sc_namefix : odfs_namefix_state; sc_held : held }.

(** Continuation records are folded in; then, if there is a System Use Area, its
    sector is read again, since the walk may have evicted it. *)
(* [src: backends/iso9660/iso9660.c:493-523 odfs_iso_readdir] *)
Definition dir_merge (c : C) (ctx : iso_context) (dir : odfs_node) (h : held) (p sector_off sector_lba : Z)
    (r : dir_record) (next_offset : Z) : outcome (odfs_err * odfs_node * Z * Z * held * C) :=
  let node := rec_node r in
  let rec := mem_at (bc_data c p) sector_off in
  flags ← (if bool_decide (kind node = ODFS_NODE_FILE)
           then rd rec (if high_sierra ctx then 24 else 25) else Ret 0);
  if has_flag flags 0x80 then
    '(err, next_offset, node, c) ←
      odfs_iso_merge_multi_extent c (session_start ctx) (lba (extent dir)) (length_ (extent dir))
        next_offset (high_sierra ctx) rec node;
    if negb (err_ok err) then Ret (err, node, next_offset, p, h, c)
    else
      match rec_sua r with
      | None => Ret (ODFS_OK, node, next_offset, p, h, c)
      | Some _ =>
          let '(err, p, c) := bc_read c sector_lba in
          if negb (err_ok err) then Ret (err, node, next_offset, p, h, c)
          else Ret (ODFS_OK, node, next_offset, p, Some (p, sector_lba, bc_generation c), c)
      end
  else Ret (ODFS_OK, node, next_offset, p, h, c).

(** [None] is a relocated directory, which is skipped. *)
(* [src: backends/iso9660/iso9660.c:525-538 odfs_iso_readdir] *)
Definition dir_rock_ridge (c : C) (ctx : iso_context) (p sector_off : Z) (r : dir_record) (node : odfs_node)
    : outcome (option odfs_node * C) :=
  match rec_sua r with
  | Some (sua, sua_len) =>
      if has_rock_ridge ctx && (0 <? sua_len) then
        '(rr, c) ← rr_parse c (mk_ptr p (sector_off + sua)) sua_len (rr_skip ctx);
        if rr_is_relocated rr then Ret (None, c)
        else Ret (Some (iso_apply_rr node rr (session_start ctx) true), c)
      else Ret (Some node, c)
  | None => Ret (Some node, c)
  end.

(** One round of the scan, up to the delivery of the entry. *)
(* [src: backends/iso9660/iso9660.c:455-555 odfs_iso_readdir] *)
Definition dir_step (dir : odfs_node) (offset : Z) (s : scan_state) : outcome (dir_item * scan_state) :=
  let 'mk_scan c ctx namefix h := s in
  let sector_lba := u32 (lba (extent dir) + offset / ISO_SECTOR_SIZE) in
  let sector_off := offset mod ISO_SECTOR_SIZE in
  let '(err, p, h, c) := iso_hold c h sector_lba in
  if negb (err_ok err) then Ret (DirFail err, mk_scan c ctx namefix h)
  else
    let rec := mem_at (bc_data c p) sector_off in
    b ← rd rec 0;
    if b =? 0 then Ret (DirSkip (next_sector offset), mk_scan c ctx namefix h)
    else
      '(r, ctx) ← iso_parse_dir_record rec (ISO_SECTOR_SIZE - sector_off) ctx;
      match r with
      | None => Ret (DirSkip (next_sector offset), mk_scan c ctx namefix h)
      | Some r =>
          let r := mk_rec (set_parent_id (id dir) (rec_node r)) (rec_consumed r) (rec_sua r) in
          '(err, node, next_offset, p, h, c) ←
            dir_merge c ctx dir h p sector_off sector_lba r (u32 (offset + rec_consumed r));
          if negb (err_ok err) then Ret (DirFail err, mk_scan c ctx namefix h)
          else
            '(node, c) ← dir_rock_ridge c ctx p sector_off r node;
            match node with
            | None => Ret (DirSkip next_offset, mk_scan c ctx namefix h)
            | Some node =>
                if bool_decide (name node = [46]) || bool_decide (name node = [46; 46])
                then Ret (DirSkip next_offset, mk_scan c ctx namefix h)
                else
                  let '(err, namefix, nm) :=
                    odfs_namefix_apply malloc namefix (name node) ODFS_NAME_MAX in
                  if negb (err_ok err) then Ret (DirFail err, mk_scan c ctx namefix h)
                  else Ret (DirEntry (set_name nm node) next_offset, mk_scan c ctx namefix h)
            end
      end.

Section callback.
Context {T : Type} (callback : odfs_node → T → odfs_err * T).

(** Result: error, the updated [*resume_offset] if it was written. *)
(* [src: backends/iso9660/iso9660.c:454-570 odfs_iso_readdir] *)
Fixpoint readdir_loop (fuel : nat) (dir : odfs_node) (target offset : Z) (s : scan_state) (t : T)
    : outcome (odfs_err * option Z * scan_state * T) :=
  match fuel with
  | O => Diverge
  | S fuel =>
      if length_ (extent dir) <=? offset then Ret (ODFS_OK, Some (length_ (extent dir)), s, t)
      else
        '(item, s) ← dir_step dir offset s;
        match item with
        | DirFail err => Ret (err, None, s, t)
        | DirSkip next => readdir_loop fuel dir target next s t
        | DirEntry node next =>
            if offset <? target then readdir_loop fuel dir target next s t
            else
              let '(err, t) := callback node t in
              if err_ok err then readdir_loop fuel dir target next s t
              else Ret (err, Some next, s, t)
        end
  end.

(** [resume] is [None] for a NULL pointer, else the pointed-to offset; the second
    component of the result is its new contents. *)
(* [src: backends/iso9660/iso9660.c:432-574 odfs_iso_readdir] *)
Definition odfs_iso_readdir (ctx : iso_context) (c : C) (dir : odfs_node) (t : T) (resume : option Z)
    : outcome (odfs_err * option Z * iso_context * C * T) :=
  let target := default 0 resume in
  '(err, res, s, t) ← readdir_loop (S (Z.to_nat (length_ (extent dir)))) dir target 0
      (mk_scan c ctx odfs_namefix_init None) t;
  Ret (err, match resume with None => None | Some r => Some (default r res) end,
       sc_ctx s, sc_cache s, t).
End callback.

(** *** Reading, looking up *)

(** Result: error, buffer, the updated [*len], cache. *)
(* [src: backends/iso9660/iso9660.c:580-601 odfs_iso_read] *)
Definition odfs_iso_read (c : C) (file : odfs_node) (offset : Z) (buf : list Z) (len : Z)
    : odfs_err * list Z * Z * C :=
  if size file <=? offset then (ODFS_OK, buf, 0, c)
  else
    let want := if size file - offset <? len then size file - offset else len in
    bc_read_bytes c (lba (extent file)) offset buf want.

(** The callback state is the node found so far. *)
(* [src: backends/iso9660/iso9660.c:613-626 lookup_cb] *)
Definition lookup_cb (nm : list Z) (entry : odfs_node) (found : option odfs_node)
    : odfs_err * option odfs_node :=
  if odfs_strcasecmp (name entry) nm =? 0 then (ODFS_ERR_EOF, Some entry) else (ODFS_OK, found).

(** Result: error, [*out] if it was written. *)
(* [src: backends/iso9660/iso9660.c:628-653 odfs_iso_lookup] *)
Definition odfs_iso_lookup (ctx : iso_context) (c : C) (dir : odfs_node) (nm : list Z)
    : outcome (odfs_err * option odfs_node * iso_context * C) :=
  '(err, _, ctx, c, found) ← odfs_iso_readdir (lookup_cb nm) ctx c dir None None;
  let err :=
    if bool_decide (err = ODFS_ERR_EOF) && bool_decide (is_Some found) then ODFS_OK
    else if negb (err_ok err) then err
    else if bool_decide (is_Some found) then ODFS_OK else ODFS_ERR_NOT_FOUND in
  Ret (err, found, ctx, c).

(** Result: error, the target string if it was written; the buffer has room for
    [buf_size] bytes. *)
(* [src: backends/iso9660/iso9660.c:686-741 iso_readlink] *)
Fixpoint readlink_loop (fuel : nat) (ctx : iso_context) (c : C) (dir : odfs_node) (nm : list Z)
    (buf_size offset : Z) : outcome (odfs_err * option (list Z) * iso_context * C) :=
  match fuel with
  | O => Diverge
  | S fuel =>
      if length_ (extent dir) <=? offset then Ret (ODFS_ERR_NOT_FOUND, None, ctx, c)
      else
        let sector_lba := u32 (lba (extent dir) + offset / ISO_SECTOR_SIZE) in
        let sector_off := offset mod ISO_SECTOR_SIZE in
        let '(err, p, c) := bc_read c sector_lba in
        if negb (err_ok err) then Ret (err, None, ctx, c)
        else
          let rec := mem_at (bc_data c p) sector_off in
          b ← rd rec 0;
          if b =? 0 then readlink_loop fuel ctx c dir nm buf_size (next_sector offset)
          else
            '(r, ctx) ← iso_parse_dir_record rec (ISO_SECTOR_SIZE - sector_off) ctx;
            match r with
            | None => readlink_loop fuel ctx c dir nm buf_size (next_sector offset)
            | Some r =>
                let offset := u32 (offset + rec_consumed r) in
                '(rr, c) ← match rec_sua r with
                           | Some (sua, sua_len) =>
                               rr_parse c (mk_ptr p (sector_off + sua)) sua_len (rr_skip ctx)
                           | None => Ret (rr_zero, c)
                           end;
                if rr_is_relocated rr then readlink_loop fuel ctx c dir nm buf_size offset
                else
                  let node := rr_override_name rr (rec_node r) in
                  if negb (odfs_strcasecmp (name node) nm =? 0)
                  then readlink_loop fuel ctx c dir nm buf_size offset
                  else
                    let target := c_str (rr_symlink_target rr) in
                    if negb (rr_is_symlink rr) || bool_decide (target = [])
                    then Ret (ODFS_ERR_UNSUPPORTED, None, ctx, c)
                    else if buf_size <=? zlen target then Ret (ODFS_ERR_NAME_TOO_LONG, None, ctx, c)
                    else Ret (ODFS_OK, Some target, ctx, c)
            end
  end.
(* [src: backends/iso9660/iso9660.c:668-745 iso_readlink] *)
Definition iso_readlink (ctx : iso_context) (c : C) (dir : odfs_node) (nm : list Z) (buf_size : Z)
    : outcome (odfs_err * option (list Z) * iso_context * C) :=
  if negb (has_rock_ridge ctx) then Ret (ODFS_ERR_UNSUPPORTED, None, ctx, c)
  else readlink_loop (S (Z.to_nat (length_ (extent dir)))) ctx c dir nm buf_size 0.

(* [src: backends/iso9660/iso9660.c:752-762 odfs_iso_get_volume_name] *)
Definition odfs_iso_get_volume_name (ctx : iso_context) (buf_size : Z) : odfs_err * list Z :=
  (ODFS_OK, take (Z.to_nat (buf_size - 1)) (volume_id (pvd ctx))).
(* [src: backends/iso9660/iso9660.c:768-772 odfs_iso_get_volume_size] *)
Definition odfs_iso_get_volume_size (ctx : iso_context) : Z := volume_space_size (pvd ctx).

(** *** Parents *)

(** The extent in the [..] record of a directory. *)
(* [src: backends/iso9660/iso9660.c:787-819 odfs_iso_read_parent_extent] *)
Definition odfs_iso_read_parent_extent (c : C) (session_start dir_lba : Z)
    : outcome (odfs_err * Z * Z * C) :=
  let '(err, p, c) := bc_read c dir_lba in
  if negb (err_ok err) then Ret (err, 0, 0, c)
  else
    let sector := bc_data c p in
    self_len ← rd sector 0;
    if (self_len <? 34) || (ISO_SECTOR_SIZE <? self_len + 34) then Ret (ODFS_ERR_BAD_FORMAT, 0, 0, c)
    else
      let dotdot := mem_at sector self_len in
      l ← rd dotdot 0; n ← rd dotdot 32; i ← rd dotdot 33;
      if (l <? 34) || negb (n =? 1) || negb (i =? 1) then Ret (ODFS_ERR_BAD_FORMAT, 0, 0, c)
      else
        plba ← iso_read_le32 dotdot 2;
        psize ← iso_read_le32 dotdot 10;
        Ret (ODFS_OK, u32 (plba + session_start), psize, c).

(* [src: backends/iso9660/iso9660.c:827-837 iso_lba_match_cb] *)
Definition iso_lba_match_cb (want_lba : Z) (entry : odfs_node) (found : option odfs_node)
    : odfs_err * option odfs_node :=
  if bool_decide (kind entry = ODFS_NODE_DIR) && (lba (extent entry) =? want_lba)
  then (ODFS_ERR_EOF, Some entry) else (ODFS_OK, found).
(* [src: backends/iso9660/iso9660.c:843-864 iso_find_child_by_lba] *)
Definition iso_find_child_by_lba (ctx : iso_context) (c : C) (parent_dir : odfs_node) (child_lba : Z)
    : outcome (odfs_err * option odfs_node * iso_context * C) :=
  '(err, _, ctx, c, found) ← odfs_iso_readdir (iso_lba_match_cb child_lba) ctx c parent_dir None None;
  let err := if bool_decide (is_Some found) then ODFS_OK
             else if err_ok err || bool_decide (err = ODFS_ERR_EOF) then ODFS_ERR_NOT_FOUND else err in
  Ret (err, found, ctx, c).

(* [src: backends/iso9660/iso9660.c:956-967 odfs_iso_dir_stub] *)
Definition odfs_iso_dir_stub (b : odfs_backend_type) (l sz : Z) : odfs_node :=
  set_size sz (set_extent (mk_extent l sz) (set_kind ODFS_NODE_DIR (set_backend b node_zero))).

(** The directory at [l], to be enumerated: the root as mounted, or a stub. *)
(* [src: backends/iso9660/iso9660.c:1010-1014 odfs_iso_resolve_parent] *)
Definition iso_dir_at (ctx : iso_context) (b : odfs_backend_type) (l sz : Z) : odfs_node :=
  if l =? root_dir_lba (pvd ctx) then root ctx else odfs_iso_dir_stub b l sz.

(** [want_gp] says that [grandparent_out] is not NULL.  Result: error, parent,
    grandparent. *)
(* [src: backends/iso9660/iso9660.c:969-1054 odfs_iso_resolve_parent] *)
Definition odfs_iso_resolve_parent (ctx : iso_context) (c : C) (dir : odfs_node) (want_gp : bool)
    : outcome (odfs_err * option odfs_node * option odfs_node * iso_context * C) :=
  let ss := session_start ctx in
  let root_lba := root_dir_lba (pvd ctx) in
  if negb (bool_decide (kind dir = ODFS_NODE_DIR)) then Ret (ODFS_ERR_NOT_DIR, None, None, ctx, c)
  else
    '(err, parent_lba, _, c) ← odfs_iso_read_parent_extent c ss (lba (extent dir));
    if negb (err_ok err) then Ret (err, None, None, ctx, c)
    else if (parent_lba =? lba (extent dir)) || (lba (extent dir) =? root_lba)
    then Ret (ODFS_ERR_NOT_FOUND, None, None, ctx, c)
    else if parent_lba =? root_lba
    then Ret (ODFS_OK, Some (root ctx), if want_gp then Some (root ctx) else None, ctx, c)
    else
      '(err, gp_lba, gp_size, c) ← odfs_iso_read_parent_extent c ss parent_lba;
      if negb (err_ok err) then Ret (err, None, None, ctx, c)
      else
        '(err, parent, ctx, c) ←
          iso_find_child_by_lba ctx c (iso_dir_at ctx (backend dir) gp_lba gp_size) parent_lba;
        if negb (err_ok err) || negb want_gp then Ret (err, parent, None, ctx, c)
        else if gp_lba =? root_lba then Ret (ODFS_OK, parent, Some (root ctx), ctx, c)
        else
          '(err, ggp_lba, ggp_size, c) ← odfs_iso_read_parent_extent c ss gp_lba;
          if negb (err_ok err) then Ret (err, parent, None, ctx, c)
          else
            '(err, gp, ctx, c) ←
              iso_find_child_by_lba ctx c (iso_dir_at ctx (backend dir) ggp_lba ggp_size) gp_lba;
            Ret (err, parent, gp, ctx, c).

(** *** Probing and mounting *)

(** [memcmp] of a field with an identifier. *)
Definition field_is (sector : list Z) (off : Z) (ident : list Z) : outcome bool :=
  f ← rd_range sector off (zlen ident); Ret (bool_decide (f = ident)).

(* [src: backends/iso9660/iso9660.c:196-237 iso_probe] *)
Definition iso_probe (c : C) (session_start : Z) : outcome (odfs_err * C) :=
  let '(err, p, c) := bc_read c (u32 (session_start + ISO_VD_START_LBA)) in
  if negb (err_ok err) then Ret (err, c)
  else
    let sector := bc_data c p in
    is_iso ← field_is sector 1 ISO_STANDARD_ID;
    if negb (is_iso : bool) then
      is_hs ← field_is sector 9 HS_STANDARD_ID;
      if (is_hs : bool) then
        ty ← rd sector 8;
        Ret (if ty =? ISO_VD_TYPE_PRIMARY then ODFS_OK else ODFS_ERR_BAD_FORMAT, c)
      else Ret (ODFS_ERR_BAD_FORMAT, c)
    else
      ty ← rd sector 0;
      Ret (if ty =? ISO_VD_TYPE_PRIMARY then ODFS_OK else ODFS_ERR_BAD_FORMAT, c).

(** Trailing spaces cut off. *)
(* [src: backends/iso9660/iso9660.c:303-305 odfs_iso_mount_vd] *)
Definition trim_spaces (s : list Z) : list Z :=
  reverse ((fix go l := match l with
    | c :: l' => if c =? 32 then go l' else l | [] => [] end) (reverse s)).
(** The fields of the volume descriptor. *)
(* [src: backends/iso9660/iso9660.c:280-321 odfs_iso_mount_vd] *)
Definition iso_parse_pvd (sector : list Z) (hs joliet : bool) : outcome iso_pvd_info :=
  if hs then
    sysid ← rd_range sector 16 32;
    volid ← rd_range sector 48 32;
    space ← iso_read_le32 sector 88;
    blk ← iso_read_le16 sector 136;
    pt ← iso_read_le32 sector 140;
    root_rec ← rd_range sector 180 34;
    rlba ← iso_read_le32 root_rec 2;
    rsize ← iso_read_le32 root_rec 10;
    Ret (mk_pvd (iso_copy_strfield sysid 33) (iso_copy_strfield volid 33) space blk pt rlba rsize root_rec)
  else
    sysid ← rd_range sector 8 32;
    volid ← rd_range sector 40 32;
    space ← iso_read_le32 sector 80;
    blk ← iso_read_le16 sector 128;
    pt ← iso_read_le32 sector 132;
    root_rec ← rd_range sector 156 34;
    rlba ← iso_read_le32 root_rec 2;
    rsize ← iso_read_le32 root_rec 10;
    let name := if joliet then trim_spaces (default [] (odfs_ucs2be_to_utf8 volid 33).2)
                else iso_copy_strfield volid 33 in
    Ret (mk_pvd (iso_copy_strfield sysid 33) name space blk pt rlba rsize root_rec).

(** Root location and session offset of the context: session-relative descriptors
    are made absolute, absolute ones clear the offset. *)
(* [src: backends/iso9660/iso9660.c:323-338 odfs_iso_mount_vd] *)
Definition iso_locate_root (session_start rlba : Z) : Z * Z :=
  let rlba := if rlba <? session_start then u32 (rlba + session_start) else rlba in
  (rlba, if (0 <? session_start) && (session_start <=? rlba) then 0 else session_start).

(** Rock Ridge is looked for in the "." record of the root; a failing read is
    ignored. *)
(* [src: backends/iso9660/iso9660.c:369-399 odfs_iso_mount_vd] *)
Definition iso_detect_rr (c : C) (ctx : iso_context) (root_out : odfs_node)
    : outcome (iso_context * odfs_node * C) :=
  let '(err, p, c) := bc_read c (root_dir_lba (pvd ctx)) in
  if negb (err_ok err) then Ret (ctx, root_out, c)
  else
    let sector := bc_data c p in
    dot_rec_len ← rd sector 0;
    dot_name_len ← rd sector 32;
    if (34 <=? dot_rec_len) && (dot_name_len =? 1) && (34 <? dot_rec_len) then
      let sua_len := dot_rec_len - 34 in
      found ← rr_detect (mem_at sector 34) sua_len;
      match found with
      | None => Ret (ctx, root_out, c)
      | Some skip =>
          let ctx := mk_iso (pvd ctx) (session_start ctx) (next_node_id ctx) (lowercase ctx)
                       (high_sierra ctx) (joliet ctx) true skip (root ctx) in
          '(rr, c) ← rr_parse c (mk_ptr p 34) sua_len skip;
          Ret (ctx, iso_apply_rr (set_backend ODFS_BACKEND_ROCK_RIDGE root_out) rr (session_start ctx) false, c)
      end
    else Ret (ctx, root_out, c).

(** [alloc] says whether the context can be allocated.  Result: error, and with
    [ODFS_OK] the root node and the context. *)
(* [src: backends/iso9660/iso9660.c:243-406 odfs_iso_mount_vd] *)
Definition odfs_iso_mount_vd (alloc : bool) (c : C) (session_start vd_lba : Z) (joliet : bool)
    : outcome (odfs_err * option (odfs_node * iso_context) * C) :=
  if negb alloc then Ret (ODFS_ERR_NOMEM, None, c)
  else
    let '(err, p, c) := bc_read c vd_lba in
    if negb (err_ok err) then Ret (err, None, c)
    else
      let sector := bc_data c p in
      is_iso ← (if joliet then Ret true else field_is sector 1 ISO_STANDARD_ID);
      hs ← (if negb joliet && negb is_iso then field_is sector 9 HS_STANDARD_ID else Ret false);
      info ← iso_parse_pvd sector hs joliet;
      let '(rlba, ss) := iso_locate_root session_start (root_dir_lba info) in
      let info := mk_pvd (system_id info) (volume_id info) (volume_space_size info)
        (logical_block_size info) (path_table_size info) rlba (root_dir_size info) (root_dir_record info) in
      time ← iso_parse_dir_date (mem_at (root_dir_record info) 18) hs;
      let root_out := mk_node 0 0 (if joliet then ODFS_BACKEND_JOLIET else ODFS_BACKEND_ISO9660)
        ODFS_NODE_DIR [47] (root_dir_size info) time time 0 amiga_as_zero
        (mk_extent rlba (root_dir_size info)) 0 in
      let ctx := mk_iso info ss 1 false hs joliet false 0 node_zero in
      '(ctx, root_out, c) ← (if negb hs && negb joliet then iso_detect_rr c ctx root_out
                             else Ret (ctx, root_out, c));
      let ctx := mk_iso (pvd ctx) (Iso9660.session_start ctx) (next_node_id ctx) (lowercase ctx)
                   (high_sierra ctx) (Iso9660.joliet ctx) (has_rock_ridge ctx) (rr_skip ctx) root_out in
      Ret (ODFS_OK, Some (root_out, ctx), c).

(* [src: backends/iso9660/iso9660.c:408-417 iso_mount] *)
Definition iso_mount (alloc : bool) (c : C) (session_start : Z)
    : outcome (odfs_err * option (odfs_node * iso_context) * C) :=
  odfs_iso_mount_vd alloc c session_start (u32 (session_start + ISO_VD_START_LBA)) false.
End iso.
Arguments scan_state C : clear implicits.
