(* ===== verification/Joliet.v ===== *)
(** * The Joliet backend ([backends/joliet/joliet.c])

    Joliet is the ISO 9660 code on the supplementary volume descriptor, with names
    in UCS-2; this file has what is its own: finding that descriptor. *)
From S2P Require Import Prelude Types CacheApi RockRidge Iso9660.
Open Scope Z_scope.

Section joliet.
Context {C : Type} `{CacheOps C}.

(** Result: error and the descriptor's sector. *)
(* [src: backends/joliet/joliet.c:31-56 joliet_find_svd] *)
Fixpoint find_svd_loop (fuel : nat) (c : C) (session_start l : Z) : outcome (odfs_err * Z * C) :=
  match fuel with
  | O => Diverge
  | S fuel =>
      let '(err, p, c) := bc_read c l in
      if negb (err_ok err) then Ret (err, 0, c)
      else
        let sector := bc_data c p in
        is_iso ← field_is sector 1 ISO_STANDARD_ID;
        if negb is_iso then Ret (ODFS_ERR_BAD_FORMAT, 0, c)
        else
          ty ← rd sector 0;
          if ty =? ISO_VD_TYPE_TERM then Ret (ODFS_ERR_BAD_FORMAT, 0, c)
          else
            esc ← rd_range sector 88 3;
            if (ty =? ISO_VD_TYPE_SUPPL) &&
               bool_decide (esc ∈ [[37; 47; 64]; [37; 47; 67]; [37; 47; 69]])
            then Ret (ODFS_OK, l, c)
            else if u32 (session_start + ISO_VD_START_LBA + 32) <? l
            then Ret (ODFS_ERR_BAD_FORMAT, 0, c)
            else find_svd_loop fuel c session_start (u32 (l + 1))
  end.
(** The scan covers at most 34 sectors, unless its bound is the last sector
    number, which no sector exceeds. *)
Definition SVD_SCAN : nat := 40.
(* [src: backends/joliet/joliet.c:25-59 joliet_find_svd] *)
Definition joliet_find_svd (c : C) (session_start : Z) : outcome (odfs_err * Z * C) :=
  find_svd_loop SVD_SCAN c session_start (u32 (session_start + ISO_VD_START_LBA)).

(* [src: backends/joliet/joliet.c:61-74 joliet_probe] *)
Definition joliet_probe (c : C) (session_start : Z) : outcome (odfs_err * C) :=
  '(err, _, c) ← joliet_find_svd c session_start; Ret (err, c).
(* [src: backends/joliet/joliet.c:76-90 joliet_mount] *)
Definition joliet_mount (alloc : bool) (c : C) (session_start : Z)
    : outcome (odfs_err * option (odfs_node * iso_context) * C) :=
  '(err, l, c) ← joliet_find_svd c session_start;
  if negb (err_ok err) then Ret (err, None, c)
  else odfs_iso_mount_vd alloc c session_start l true.
End joliet.

(** ** Termination *)

Lemma field_is_lands sector off ident : lands (field_is sector off ident) (λ _, True).
Proof. unfold field_is, rd_range. by repeat case_test. Qed.
Lemma lands_any_rd buf i : lands (rd buf i) (λ _, True).
Proof. unfold rd. by case_match. Qed.
Lemma lands_any_range buf off n : lands (rd_range buf off n) (λ _, True).
Proof. unfold rd_range. by case_test. Qed.

Lemma find_svd_lands {C} {HO : CacheOps C} fuel (c : C) ss l :
  0 ≤ l → u32 (ss + ISO_VD_START_LBA + 32) < UINT32_MAX →
  l < 2 ^ 32 → u32 (ss + ISO_VD_START_LBA + 32) + 2 - l < Z.of_nat fuel → 1 < Z.of_nat fuel →
  lands (find_svd_loop fuel c ss l) (λ _, True).
Proof.
  unfold UINT32_MAX. set (bound := u32 (ss + ISO_VD_START_LBA + 32)). intros Hl Hb.
  revert c l Hl. induction fuel as [|fuel IH]; intros c l Hl Hl32 Hf Hf1; [lia|].
  cbn [find_svd_loop]. destruct (bc_read c l) as [[err p] c'].
  case_test; [done|]. eapply lands_bind; [apply field_is_lands|]. intros is_iso _ _.
  case_test; [done|]. eapply lands_bind; [apply lands_any_rd|]. intros ty _ _.
  case_test; [done|]. eapply lands_bind; [apply lands_any_range|]. intros esc _ _.
  case_test; [done|]. fold bound. case_test; [done|]. b2p.
  assert (u32 (l + 1) = l + 1) as -> by (apply u32_small; unfold is_u32; lia).
  apply IH; lia.
Qed.

(** The search for the Joliet descriptor ends, whatever the descriptors say,
    for every session start but the one whose bound is the last sector number. *)
Theorem joliet_find_svd_terminates {C} {HO : CacheOps C} (c : C) ss :
  is_u32 ss → u32 (ss + ISO_VD_START_LBA + 32) ≠ UINT32_MAX → joliet_find_svd c ss ≠ Diverge.
Proof.
  intros Hs Hb. eapply lands_halts. unfold joliet_find_svd.
  pose proof (u32_range (ss + ISO_VD_START_LBA + 32)) as Hr.
  pose proof (u32_range (ss + ISO_VD_START_LBA)) as Hr'.
  assert (u32 (ss + ISO_VD_START_LBA + 32) - u32 (ss + ISO_VD_START_LBA) ≤ 32).
  { unfold u32, is_u32, ISO_VD_START_LBA in *. dlia. }
  unfold is_u32, UINT32_MAX in *. apply find_svd_lands; unfold SVD_SCAN, UINT32_MAX; lia.
Qed.
Lemma joliet_find_svd_terminates_witness :
  joliet_find_svd (H := disc_cache (λ _, 2 :: [67; 68; 48; 48; 49] ++ replicate 2042 0) 2048) tt 0 ≠ Diverge.
Proof.
  apply (joliet_find_svd_terminates (HO := disc_cache (λ _, 2 :: [67; 68; 48; 48; 49] ++ replicate 2042 0) 2048) tt 0).
  - unfold is_u32. lia.
  - vm_compute. discriminate.
Defined.
