(* ===== verification/IsoScan.v ===== *)
(** * What one round of a directory scan does

    Lemmas on the pieces of [dir_step]: records, continuation records, Rock Ridge
    overrides.  Names of nodes are C strings of bytes that fit the name buffer;
    offsets advance. *)
From S2P Require Import Prelude Types Strings Namefix CacheApi Charset RockRidge RockRidgeProofs.
From S2P Require Import RockRidgeTotal Iso9660.
Open Scope Z_scope.

(** ** Names *)

Lemma iso_display_name src lower dst :
  Forall is_byte src → odfs_iso_name_to_display src ODFS_NAME_MAX lower = (ODFS_OK, Some dst) →
  Forall is_byte dst ∧ zlen dst < ODFS_NAME_MAX.
Proof.
  unfold odfs_iso_name_to_display. case_test; [done|]. intros Hs [= <-].
  assert (Hcopy : ∀ l n, Forall is_byte l → Forall is_byte (copy_to_semicolon l n)).
  { intros l n Hl. revert n. induction Hl as [|c l Hc _ IH]; intros [|n]; simpl; try constructor.
    case_test; constructor; auto. }
  assert (Hlen : ∀ l n, (length (copy_to_semicolon l n) ≤ n)%nat).
  { intros l n. revert l. induction n as [|n IH]; intros [|c l]; simpl; try lia.
    case_test; simpl; [lia|]. specialize (IH l). lia. }
  match goal with |- context [copy_to_semicolon src ?n] =>
    specialize (Hcopy src n Hs); specialize (Hlen src n);
    set (dst := copy_to_semicolon src n) in *;
    assert (n ≤ 511)%nat by (unfold ODFS_NAME_MAX; case_test; b2p; lia) end.
  match goal with |- context [take ?k dst] => generalize k end. intros k.
  assert (Ht : Forall is_byte (take k dst)) by by apply Forall_take.
  split.
  - case_test; [|done]. apply Forall_map. eapply Forall_impl; [exact Ht|].
    intros c. simpl. unfold ascii_lower, is_byte. intros. case_test; b2p; lia.
  - assert (length (if lower then map ascii_lower (take k dst) else take k dst) = length (take k dst))
      as -> by (case_test; [apply length_map|done]).
    rewrite length_take. unfold ODFS_NAME_MAX. lia.
Qed.

Lemma record_name_lands ctx ident :
  Forall is_byte ident → lands (iso_record_name ctx ident) node_name_ok.
Proof.
  intros Hi. unfold iso_record_name.
  case_test; [split; [repeat constructor; lia|unfold ODFS_NAME_MAX; simpl; lia]|].
  case_test; [split; [repeat constructor; lia|unfold ODFS_NAME_MAX; simpl; lia]|].
  case_test.
  - destruct (odfs_ucs2be_to_utf8 ident ODFS_NAME_MAX) as [e [out|]] eqn:Ho; [|done].
    revert Ho. unfold odfs_ucs2be_to_utf8. repeat (case_test; [done|]). intros [= <- <-].
    destruct (ucs2be_name ident Hi) as [Hn Hl]. simpl. case_test; [|done]. split.
    + by apply Forall_take.
    + rewrite length_take. lia.
  - destruct (odfs_iso_name_to_display ident ODFS_NAME_MAX (lowercase ctx)) as [e [out|]] eqn:Ho; [|done].
    assert (e = ODFS_OK) as -> by (revert Ho; unfold odfs_iso_name_to_display; case_test; congruence).
    destruct (iso_display_name _ _ _ Hi Ho) as [Hb Hl]. split; [by apply is_name_c_str|].
    pose proof (length_c_str out). lia.
Qed.

(** ** Records *)

Lemma dir_date_lands d hs : Forall is_byte d → lands (iso_parse_dir_date d hs) (λ _, True).
Proof.
  intros Hd. unfold iso_parse_dir_date. do 6 lstep.
  eapply (lands_bind _ _ (λ _, True)); [case_test; [done|by lstep]|by intros].
Qed.

(** What parsing leaves alone in the context, and what it promises of a record. *)
Definition same_mount (ctx ctx' : iso_context) : Prop := ∃ n, ctx' = set_next_node_id n ctx.
Definition record_ok (avail : Z) (r : dir_record) : Prop :=
  33 ≤ rec_consumed r ≤ avail ∧ node_name_ok (name (rec_node r)) ∧
  is_u32 (lba (extent (rec_node r))) ∧ is_u32 (size (rec_node r)) ∧
  ∀ off len, rec_sua r = Some (off, len) → 33 < off ∧ 0 < len ∧ off + len = rec_consumed r.

Lemma set_next_node_id_same ctx : set_next_node_id (next_node_id ctx) ctx = ctx.
Proof. by destruct ctx. Qed.
Lemma same_mount_refl ctx : same_mount ctx ctx.
Proof. exists (next_node_id ctx). by rewrite set_next_node_id_same. Qed.
Lemma same_mount_trans c1 c2 c3 : same_mount c1 c2 → same_mount c2 c3 → same_mount c1 c3.
Proof. intros [n ->] [m ->]. by exists m. Qed.
#[local] Hint Resolve same_mount_refl : core.

Lemma parse_record_lands data avail ctx :
  Forall is_byte data →
  lands (iso_parse_dir_record data avail ctx)
    (λ '(r, ctx'), same_mount ctx ctx' ∧ ∀ r', r = Some r' → record_ok avail r').
Proof.
  intros Hd. unfold iso_parse_dir_record.
  case_test; [by split|]. lstep. rename a into rec_len. do 2 (case_test; [by split|]).
  lstep. rename a into name_len. case_test; [by split|]. cbv zeta.
  lle32. rename a into l. lle32. rename a into n. lstep. rename a into flags.
  eapply lands_bind; [by apply dir_date_lands, Forall_mem_at|]. intros time _ _.
  lstep. rename a into ident. destruct Ha2 as [Hil Hib].
  eapply lands_bind; [by apply record_name_lands|]. intros nm _ Hnm.
  split; [by eexists|]. intros r' [= <-]. unfold is_byte in *. b2p.
  split_and!; simpl; try done; try lia; [apply u32_range|].
  intros off len. do 2 (case_test; try done); b2p; intros [= <- <-]; try lia.
  assert (name_len ≠ 0) by (intros ->; done). lia.
Qed.

(** ** Rock Ridge overrides *)

Lemma override_name_ok rr node :
  name_bytes rr → node_name_ok (name node) → node_name_ok (name (rr_override_name rr node)).
Proof.
  intros Hb Hn. unfold rr_override_name. case_test; [|done]. simpl. split.
  - by apply Forall_take, is_name_c_str.
  - rewrite length_take. unfold ODFS_NAME_MAX. lia.
Qed.
Lemma apply_rr_name node rr ss :
  name (iso_apply_rr node rr ss true) = name (rr_override_name rr node).
Proof. unfold iso_apply_rr. by repeat case_test. Qed.
Lemma apply_rr_parent node rr ss allow : parent_id (iso_apply_rr node rr ss allow) = parent_id node.
Proof. unfold iso_apply_rr, rr_override_name. by repeat case_test. Qed.

(** ** Offsets *)

(** The largest directory whose offsets do not wrap around. *)
Definition MAX_DIR : Z := 2 ^ 32 - ISO_SECTOR_SIZE.

Lemma next_sector_gt offset :
  0 ≤ offset < MAX_DIR → offset < next_sector offset ≤ MAX_DIR.
Proof.
  unfold MAX_DIR, next_sector, ISO_SECTOR_SIZE. intros. rewrite u32_small; [dlia|].
  unfold is_u32. dlia.
Qed.
Lemma record_end offset n :
  0 ≤ offset < MAX_DIR → 0 ≤ n ≤ ISO_SECTOR_SIZE - offset mod ISO_SECTOR_SIZE →
  u32 (offset + n) = offset + n ∧ offset + n ≤ MAX_DIR.
Proof.
  unfold MAX_DIR, ISO_SECTOR_SIZE. intros. split; [|dlia]. apply u32_small. unfold is_u32. dlia.
Qed.

(** ** Scanning through a lawful cache *)
Section scan.
Context {C : Type} {HO : CacheOps C} (img : Z → list Z) (inv ok : C → Prop) (ptr : C → Z → Prop).
Context {HL : CacheLaws C img 2048 inv ok ptr} {HF : CacheCleanFailure C ok ptr}.
Context (Hbytes : ∀ lba, Forall is_byte (img lba)).
Context (malloc : nat → Z → bool).
Abbreviation later := (later ok ptr).

(** A read keeps the cache coherent, and what it returns can be looked through. *)
Lemma read_lands c l err p c' :
  ok c → bc_read c (u32 l) = (err, p, c') →
  later c c' ∧ (err = ODFS_OK → ptr c' p ∧ ∀ off, Forall is_byte (mem_at (bc_data c' p) off)).
Proof.
  intros Hok Hr. destruct (read_later img inv ok ptr _ _ _ _ _ Hok (u32_range l) Hr) as [Hl Hp].
  split; [done|]. intros He. split; [by apply Hp|]. intros off.
  eapply Forall_mem_at, (data_bytes img inv ok ptr Hbytes); [apply Hl|by apply Hp].
Qed.

Lemma merge_loop_lands fuel c ss dl D fo ident el more contiguous merged offset :
  ok c → D ≤ MAX_DIR → 0 ≤ offset ≤ MAX_DIR → D - offset < Z.of_nat fuel → 0 < Z.of_nat fuel →
  lands (merge_loop fuel c ss dl D fo ident el more contiguous merged offset)
    (λ '(_, o, _, c'), offset ≤ o ≤ MAX_DIR ∧ later c c').
Proof.
  intros Hok HD. revert c more contiguous merged offset Hok.
  induction fuel as [|fuel IH]; intros c more contiguous merged offset Hok Ho Hf Hf0; [lia|].
  cbn [merge_loop]. pose proof (later_refl ok ptr c Hok) as Hrefl.
  case_test; [split; [lia|done]|]. apply negb_false_iff, andb_true_iff in E as [_ E]. cbv zeta.
  destruct (bc_read c _) as [[err q] c1] eqn:Hr.
  destruct (read_lands _ _ _ _ _ Hok Hr) as [Hl1 Hp]. b2p.
  case_test; [split; [lia|done]|]. b2p. destruct (Hp (proj1 (err_ok_true _) E0)) as [_ Hb].
  specialize (Hb (offset mod ISO_SECTOR_SIZE)). lstep.
  assert (Hstep : ∀ more contiguous merged o, offset < o ≤ MAX_DIR →
    lands (merge_loop fuel c1 ss dl D fo ident el more contiguous merged o)
      (λ '(_, o', _, c'), offset ≤ o' ≤ MAX_DIR ∧ later c c')).
  { intros m ct mg o Ho'. eapply lands_weaken; [apply IH; [apply Hl1|lia..]|].
    intros [[[e o'] m'] c'] [? ?]. split; [lia|]. by eapply later_trans. }
  case_test; [apply Hstep, next_sector_gt; lia|]. case_test; [split; [lia|done]|].
  lstep. eapply (lands_bind _ _ (λ _, True)); [case_test; [by lstep|done]|]. intros same _ _.
  case_test; [split; [lia|done]|]. lle32. lle32. lstep.
  apply Hstep. b2p. unfold is_byte in Ha.
  destruct (record_end offset a) as [-> ?]; [lia|lia|]. lia.
Qed.

Lemma merge_lands c ss dl D offset hs rec node :
  ok c → D ≤ MAX_DIR → 0 ≤ offset ≤ MAX_DIR → Forall is_byte rec →
  lands (odfs_iso_merge_multi_extent c ss dl D offset hs rec node)
    (λ '(_, o, n, c'), offset ≤ o ≤ MAX_DIR ∧ later c c' ∧ name n = name node ∧
       parent_id n = parent_id node).
Proof.
  intros Hok HD Ho Hb. unfold odfs_iso_merge_multi_extent. pose proof (later_refl ok ptr c Hok).
  lstep. case_test; [simpl; split_and!; (lia || done)|]. lstep. lstep.
  eapply lands_bind; [apply merge_loop_lands; [done|done|done|lia..]|].
  intros [[[err o] m] c'] _ [Ho' Hl]. by case_test.
Qed.
(** A held pointer was handed out. *)
Definition held_ok (c : C) (h : held) : Prop := ∀ p l g, h = Some (p, l, g) → ptr c p.

Lemma held_later c c' h : later c c' → held_ok c h → held_ok c' h.
Proof. intros [_ Hp] Hh p l g Hs. by eapply Hp, Hh. Qed.

Lemma hold_lands c h l err p h' c' :
  ok c → held_ok c h → iso_hold c h (u32 l) = (err, p, h', c') →
  later c c' ∧ held_ok c' h' ∧ (err = ODFS_OK → ptr c' p ∧ ∀ off, Forall is_byte (mem_at (bc_data c' p) off)).
Proof.
  intros Hok Hh. unfold iso_hold.
  assert (Hfetch :
    (let '(err, p, c) := bc_read c (u32 l) in
     if err_ok err then (ODFS_OK, p, Some (p, u32 l, bc_generation c), c) else (err, p, h, c))
      = (err, p, h', c') →
    later c c' ∧ held_ok c' h' ∧
    (err = ODFS_OK → ptr c' p ∧ ∀ off, Forall is_byte (mem_at (bc_data c' p) off))).
  { destruct (bc_read c (u32 l)) as [[e q] c1] eqn:Hr.
    destruct (read_lands _ _ _ _ _ Hok Hr) as [Hl Hp]. case_test; intros [= <- <- <- <-].
    - apply err_ok_true in E. split; [done|]. split; [|auto]. intros ? ? ? [= <- _ _]. by apply Hp.
    - apply err_ok_false in E. split; [done|]. split; [by eapply held_later|done]. }
  destruct h as [[[q l'] g]|]; [|exact Hfetch]. case_test; [|exact Hfetch].
  intros [= <- <- <- <-]. specialize (Hh q l' g eq_refl). split; [by apply later_refl|].
  split; [by intros ? ? ? [= <- _ _]|]. intros _. split; [done|]. intros off.
  by eapply Forall_mem_at, (data_bytes img inv ok ptr Hbytes).
Qed.

(** The invariant of a scan. *)
Record scan_ok (s : scan_state C) : Prop := {
  so_cache : ok (sc_cache s);
  so_held : held_ok (sc_cache s) (sc_held s);
  so_namefix : namefix_wf (sc_namefix s);
  so_skip : 0 ≤ rr_skip (sc_ctx s) }.

Lemma merge_step_lands c ctx dir h p so l r next :
  ok c → held_ok c h → ptr c p → length_ (extent dir) ≤ MAX_DIR → 0 ≤ next ≤ MAX_DIR →
  lands (dir_merge c ctx dir h p so (u32 l) r next)
    (λ '(e, n, o, p', h', c'), next ≤ o ≤ MAX_DIR ∧ later c c' ∧ held_ok c' h' ∧
       (e = ODFS_OK → ptr c' p') ∧
       name n = name (rec_node r) ∧ parent_id n = parent_id (rec_node r)).
Proof.
  intros Hok Hh Hp HD Hn. unfold dir_merge. cbv zeta. pose proof (later_refl ok ptr c Hok) as Hl.
  assert (Hb : Forall is_byte (mem_at (bc_data c p) so)).
  { by eapply Forall_mem_at, (data_bytes img inv ok ptr Hbytes). }
  eapply (lands_bind _ _ (λ _, True)).
  { case_test; [|done]. eapply lands_weaken; [by apply (lands_rd is_byte)|done]. }
  intros flags _ _. case_test; [|simpl; split_and!; (lia || done)].
  eapply lands_bind; [by apply merge_lands|]. intros [[[err o] n] c1] _ (Ho & Hl1 & Hnm & Hpar).
  assert (held_ok c1 h) by by eapply held_later. assert (ptr c1 p) by by apply Hl1.
  case_test; [simpl; split_and!; (lia || done)|].
  destruct (rec_sua r) as [sua|]; [|simpl; split_and!; (lia || done)].
  destruct (bc_read c1 _) as [[e q] c2] eqn:Hr.
  destruct (read_lands _ _ _ _ _ (proj1 Hl1) Hr) as [Hl2 Hq].
  assert (later c c2) by by eapply later_trans.
  assert (held_ok c2 h) by by eapply held_later.
  case_test.
  - simpl. apply negb_true_iff, err_ok_false in E1. split_and!; lia || done.
  - b2p. destruct (Hq (proj1 (err_ok_true _) E1)) as [Hq' _]. simpl. split_and!; try (lia || done).
    by intros ? ? ? [= <- _ _].
Qed.

Lemma rock_ridge_lands c ctx p so r node :
  ok c → ptr c p → 0 ≤ rr_skip ctx → node_name_ok (name node) →
  lands (dir_rock_ridge c ctx p so r node)
    (λ '(n, c'), later c c' ∧ ∀ n', n = Some n' → node_name_ok (name n') ∧ parent_id n' = parent_id node).
Proof.
  intros Hok Hp Hs Hn. unfold dir_rock_ridge. pose proof (later_refl ok ptr c Hok) as Hl.
  assert (Hkeep : ∀ n', Some node = Some n' → node_name_ok (name n') ∧ parent_id n' = parent_id node)
    by (by intros ? [= <-]).
  destruct (rec_sua r) as [[sua n]|]; [|done]. case_test; [|done].
  eapply lands_bind; [by apply (rr_parse_lands img inv ok ptr Hbytes)|].
  intros [rr c'] _ [Hb Hl']. case_test; [done|]. split; [done|]. intros n' [= <-].
  rewrite apply_rr_name, apply_rr_parent. split; [by apply override_name_ok|done].
Qed.
(** What an item says about the scan. *)
Definition item_ok (dir : odfs_node) (offset : Z) (s s' : scan_state C) (item : dir_item) : Prop :=
  match item with
  | DirSkip o => offset < o ≤ MAX_DIR ∧ sc_namefix s' = sc_namefix s
  | DirEntry n o =>
      offset < o ≤ MAX_DIR ∧ node_name_ok (name n) ∧ parent_id n = id dir ∧
      fresh_name (sc_namefix s) (name n) ∧
      nf_names (sc_namefix s') ≡ₚ name n :: nf_names (sc_namefix s)
  | DirFail e => e ≠ ODFS_OK ∧ sc_namefix s' = sc_namefix s
  end.
Definition step_ok (dir : odfs_node) (offset : Z) (s : scan_state C) (r : dir_item * scan_state C) : Prop :=
  scan_ok r.2 ∧ later (sc_cache s) (sc_cache r.2) ∧ same_mount (sc_ctx s) (sc_ctx r.2) ∧
  item_ok dir offset s r.2 r.1.

(** The state is well formed when all its parts are. *)
Lemma step_ok_intro dir offset c0 ctx0 nf0 h0 c ctx nf h item :
  later c0 c → held_ok c h → namefix_wf nf → 0 ≤ rr_skip ctx0 → same_mount ctx0 ctx →
  item_ok dir offset (mk_scan c0 ctx0 nf0 h0) (mk_scan c ctx nf h) item →
  step_ok dir offset (mk_scan c0 ctx0 nf0 h0) (item, mk_scan c ctx nf h).
Proof.
  intros Hl Hh Hnf Hs [k ->] Hi. split; [|split; [done|split; [by exists k|done]]].
  split; [apply Hl|done|done|done].
Qed.

(** Giving the entry its name. *)
Lemma name_entry_ok dir offset c0 ctx0 nf h0 c ctx h node next :
  later c0 c → held_ok c h → namefix_wf nf → 0 ≤ rr_skip ctx0 → same_mount ctx0 ctx →
  offset < next ≤ MAX_DIR → node_name_ok (name node) → parent_id node = id dir →
  step_ok dir offset (mk_scan c0 ctx0 nf h0)
    (let '(err, namefix, nm) := odfs_namefix_apply malloc nf (name node) ODFS_NAME_MAX in
     if negb (err_ok err) then (DirFail err, mk_scan c ctx namefix h)
     else (DirEntry (set_name nm node) next, mk_scan c ctx namefix h)).
Proof.
  intros Hl Hh Hnf Hs Hm Ho [Hn Hlen] Hp.
  destruct (odfs_namefix_apply _ _ _ _) as [[err nf'] nm] eqn:Hap.
  destruct (err_ok err) eqn:He; simpl.
  - apply err_ok_true in He as ->.
    apply namefix_apply_ok in Hap as (Hwf & Hperm & Hfr & Hnm & Hl' & _); [|done..].
    apply step_ok_intro; done.
  - apply err_ok_false in He. destruct (namefix_apply_err _ _ _ _ _ _ _ Hap He) as [-> _].
    by apply step_ok_intro.
Qed.

Lemma dir_step_lands dir offset s :
  scan_ok s → length_ (extent dir) ≤ MAX_DIR → 0 ≤ offset < length_ (extent dir) →
  lands (dir_step malloc dir offset s) (step_ok dir offset s).
Proof.
  intros [Hok Hh Hnf Hs] HD Ho. destruct s as [c ctx nf h]. simpl in *. unfold dir_step. cbv zeta.
  destruct (iso_hold c h _) as [[[err p] h1] c1] eqn:Hhold.
  destruct (hold_lands _ _ _ _ _ _ _ Hok Hh Hhold) as (Hl1 & Hh1 & Hp).
  case_test; [apply step_ok_intro; try done; split; [by apply err_ok_false, negb_true_iff|done]|]. b2p.
  destruct (Hp (proj1 (err_ok_true _) E)) as [Hp1 Hb]. specialize (Hb (offset mod ISO_SECTOR_SIZE)).
  assert (Hnext : offset < next_sector offset ≤ MAX_DIR) by (apply next_sector_gt; lia).
  lstep. case_test; [by apply step_ok_intro|].
  eapply lands_bind; [by apply parse_record_lands|]. intros [[r|] ctx1] _ [Hm Hr];
    [|by apply step_ok_intro]. specialize (Hr r eq_refl). destruct Hr as (Hcons & Hnm & _).
  destruct (record_end offset (rec_consumed r)) as [-> Hend]; [lia|lia|].
  eapply lands_bind; [apply merge_step_lands; try done; [apply Hl1|lia]|].
  intros [[[[[err2 node] next] p2] h2] c2] _ (Hnx & Hl2 & Hh2 & Hp2 & Hnm2 & Hpar2). simpl in Hnm2, Hpar2.
  assert (Hl12 : later c c2) by by eapply later_trans.
  case_test; [apply step_ok_intro; try done; split; [by apply err_ok_false, negb_true_iff|done]|]. b2p.
  specialize (Hp2 (proj1 (err_ok_true _) E1)). rewrite <- Hnm2 in Hnm.
  eapply lands_bind; [apply rock_ridge_lands; try done; [apply Hl2|by destruct Hm as [k ->]]|].
  intros [[n|] c3] _ [Hl3 Hn3]; [|apply step_ok_intro; try done].
  2: by eapply later_trans. 2: exact (held_later _ _ _ Hl3 Hh2). 2: split; [lia|done].
  destruct (Hn3 n eq_refl) as [Hnm3 Hpar3].
  assert (Hl13 : later c c3) by by eapply later_trans. assert (Hh3 : held_ok c3 h2) by exact (held_later _ _ _ Hl3 Hh2).
  case_test; [apply step_ok_intro; try done; split; [lia|done]|].
  pose proof (name_entry_ok dir offset c ctx nf h c3 ctx1 h2 n next) as Hent.
  destruct (odfs_namefix_apply _ _ _ _) as [[err3 nf'] nm3].
  destruct (negb (err_ok err3)); apply Hent; try done; (lia || congruence).
Qed.
End scan.
