(* ===== verification/IsoReaddir.v ===== *)
(** * Enumeration, lookup and reading in the ISO 9660 backend

    [odfs_iso_readdir] is shown to terminate and to deliver every name once, for
    any disc; lookup finds exactly the entries it delivers.  The scan is first
    separated from the callback: [scan_all] is the list of entries a directory yields,
    and [deliver] what a callback makes of that list. *)
From S2P Require Import Prelude Types Strings Namefix Media CacheApi Charset RockRidge RockRidgeProofs.
From S2P Require Import RockRidgeTotal Iso9660 IsoScan.
Open Scope Z_scope.

(** The callback [cb], with a record of the entries it was called for. *)
Definition recording {T} (cb : odfs_node → T → odfs_err * T) (n : odfs_node) (s : T * list odfs_node)
    : odfs_err * (T * list odfs_node) :=
  let '(t, l) := s in let '(err, t) := cb n t in (err, (t, l ++ [n])).
(** The callback that accepts every entry. *)
Definition collect (n : odfs_node) (l : list odfs_node) : odfs_err * list odfs_node :=
  (ODFS_OK, l ++ [n]).

(** No two entries have the same name up to case. *)
Definition distinct_names (l : list odfs_node) : Prop :=
  ∀ i j a b, l !! i = Some a → l !! j = Some b → name_equiv (name a) (name b) → i = j.

Lemma distinct_snoc l n :
  distinct_names l → (∀ m, m ∈ l → ¬ name_equiv (name m) (name n)) → distinct_names (l ++ [n]).
Proof.
  intros Hl Hn i j a b Hi Hj Hab.
  assert (Hlast : ∀ k x, (l ++ [n]) !! k = Some x → l !! k = Some x ∨ k = length l ∧ x = n).
  { intros k x [Hk|[? Hk]]%lookup_app_Some; [by left|right].
    apply list_lookup_singleton_Some in Hk as [? <-]. split; [lia|done]. }
  destruct (Hlast _ _ Hi) as [Hi'|[-> ->]], (Hlast _ _ Hj) as [Hj'|[-> ->]].
  - by eapply Hl.
  - destruct (Hn a); [by eapply list_elem_of_lookup_2|done].
  - destruct (Hn b); [by eapply list_elem_of_lookup_2|done].
  - done.
Qed.

Section readdir.
Context {C : Type} {HO : CacheOps C} (img : Z → list Z) (inv ok : C → Prop) (ptr : C → Z → Prop).
Context {HL : CacheLaws C img 2048 inv ok ptr} {HF : CacheCleanFailure C ok ptr}.
Context (Hbytes : ∀ lba, Forall is_byte (img lba)).
Context (malloc : nat → Z → bool).
Context {T : Type} (cb : odfs_node → T → odfs_err * T).

(** What has been delivered so far. *)
Record delivered (dir : odfs_node) (s : scan_state C) (l : list odfs_node) : Prop := {
  dl_taken : ∀ n, n ∈ l → name n ∈ nf_names (sc_namefix s);
  dl_distinct : distinct_names l;
  dl_entry : ∀ n, n ∈ l → node_name_ok (name n) ∧ parent_id n = id dir }.

Lemma delivered_mono dir s s' l :
  (∀ n, n ∈ nf_names (sc_namefix s) → n ∈ nf_names (sc_namefix s')) →
  delivered dir s l → delivered dir s' l.
Proof. intros Hn [H1 H2 H3]. split; auto. Qed.
Lemma delivered_snoc dir s s' l n :
  node_name_ok (name n) → parent_id n = id dir → fresh_name (sc_namefix s) (name n) →
  nf_names (sc_namefix s') ≡ₚ name n :: nf_names (sc_namefix s) →
  delivered dir s l → delivered dir s' (l ++ [n]).
Proof.
  intros Hn Hp Hf Hperm [H1 H2 H3]. split.
  - intros m Hm. rewrite Hperm. apply elem_of_app in Hm as [Hm|Hm%list_elem_of_singleton].
    + right. by apply H1.
    + subst. by left.
  - apply distinct_snoc; [done|]. intros m Hm. apply Hf. by apply H1.
  - intros m Hm. apply elem_of_app in Hm as [Hm|Hm%list_elem_of_singleton]; subst; auto.
Qed.

Lemma readdir_loop_lands fuel dir target offset s t l :
  scan_ok ok ptr s → length_ (extent dir) ≤ MAX_DIR → 0 ≤ offset →
  length_ (extent dir) - offset < Z.of_nat fuel → 0 < Z.of_nat fuel → delivered dir s l →
  lands (readdir_loop malloc (recording cb) fuel dir target offset s (t, l))
    (λ '(_, _, s', (_, l')), scan_ok ok ptr s' ∧ same_mount (sc_ctx s) (sc_ctx s') ∧ delivered dir s' l').
Proof.
  intros Hs HD. revert offset s t l Hs.
  induction fuel as [|fuel IH]; intros offset s t l Hs Ho Hf Hf0 Hdel; [lia|]. cbn [readdir_loop].
  case_test; b2p; [simpl; split_and!; [done|by exists (next_node_id (sc_ctx s)); rewrite set_next_node_id_same|done]|].
  eapply lands_bind; [by apply (dir_step_lands img inv ok ptr Hbytes)|].
  intros [item s'] _ (Hs' & Hl & Hm & Hit). simpl in *.
  assert (Hgo : ∀ o t' l', offset < o → delivered dir s' l' →
    lands (readdir_loop malloc (recording cb) fuel dir target o s' (t', l'))
      (λ '(_, _, s2, (_, l2)), scan_ok ok ptr s2 ∧ same_mount (sc_ctx s) (sc_ctx s2) ∧ delivered dir s2 l2)).
  { intros o t' l' Ho' Hd'. eapply lands_weaken; [apply (IH o s' t' l'); try done; lia|].
    intros [[[e r] s2] [t2 l2]] (? & ? & ?). split_and!; [done| |done]. by eapply same_mount_trans. }
  destruct item as [o|n o|e]; simpl in Hit.
  - destruct Hit as [[Ho' _] Hnf]. apply Hgo; [done|]. eapply delivered_mono; [|done]. by rewrite Hnf.
  - destruct Hit as ([Ho' _] & Hn & Hp & Hfr & Hperm). case_test.
    + apply Hgo; [done|]. eapply delivered_mono; [|done]. intros m Hm'. rewrite Hperm. by right.
    + assert (Hdel' : delivered dir s' (l ++ [n])) by by eapply delivered_snoc.
      unfold recording at 1. destruct (cb n t) as [err t']. case_test; [by apply Hgo|done].
  - split_and!; [done..|]. eapply delivered_mono; [|done]. destruct Hit as [_ ->]. done.
Qed.

Lemma readdir_lands ctx c dir t resume :
  ok c → 0 ≤ rr_skip ctx → length_ (extent dir) ≤ MAX_DIR →
  lands (odfs_iso_readdir malloc (recording cb) ctx c dir (t, []) resume)
    (λ '(_, _, ctx', c', (_, l)), ok c' ∧ same_mount ctx ctx' ∧ distinct_names l ∧
       ∀ n, n ∈ l → node_name_ok (name n) ∧ parent_id n = id dir).
Proof.
  intros Hok Hs HD. unfold odfs_iso_readdir.
  eapply lands_bind; [apply readdir_loop_lands; [|done|lia|lia|lia|]|].
  - by split; [|intros ? ? ?|apply namefix_init_wf|].
  - split; [by intros n ?%elem_of_nil|by intros i|by intros n ?%elem_of_nil].
  - intros [[[e r] s'] [t' l]] _ ([Hok' _ _ _] & Hm & [_ Hd He]). done.
Qed.
End readdir.

(** ** The entries of a directory, whatever the callback *)
Section listing.
Context {C : Type} {HO : CacheOps C} (malloc : nat → Z → bool).

(** Every entry with the offsets it starts at and ends at, then how the scan ends:
    [Ret ODFS_OK] at the end of the directory. *)
Fixpoint scan_all (fuel : nat) (dir : odfs_node) (offset : Z) (s : scan_state C)
    : list (Z * odfs_node * Z) * outcome odfs_err :=
  match fuel with
  | O => ([], Diverge)
  | S fuel =>
      if length_ (extent dir) <=? offset then ([], Ret ODFS_OK)
      else
        match dir_step malloc dir offset s with
        | Ret (DirSkip o, s) => scan_all fuel dir o s
        | Ret (DirEntry n o, s) => let '(l, e) := scan_all fuel dir o s in ((offset, n, o) :: l, e)
        | Ret (DirFail e, _) => ([], Ret e)
        | Fault => ([], Fault)
        | Diverge => ([], Diverge)
        end
  end.

Context {T : Type} (cb : odfs_node → T → odfs_err * T).

(** The callback on the entries from offset [target] on; result: error, resume
    offset, callback state. *)
Fixpoint deliver (target size : Z) (l : list (Z * odfs_node * Z)) (e : outcome odfs_err) (t : T)
    : outcome (odfs_err * option Z * T) :=
  match l with
  | [] => (λ err, (err, if err_ok err then Some size else None, t)) <$> e
  | (start, n, next) :: l =>
      if start <? target then deliver target size l e t
      else let '(err, t) := cb n t in
           if err_ok err then deliver target size l e t else Ret (err, Some next, t)
  end.
End listing.

Lemma dir_step_fail {C} {HO : CacheOps C} malloc dir offset s e s' :
  dir_step (C := C) malloc dir offset s = Ret (DirFail e, s') → e ≠ ODFS_OK.
Proof.
  destruct s as [c ctx nf h]. unfold dir_step. cbv zeta.
  destruct (iso_hold c h _) as [[[err p] h1] c1].
  case_test; [intros [= <- _]; by apply err_ok_false, negb_true_iff|].
  intros (b & _ & H)%bind_Ret. revert H. case_test; [done|].
  intros ([[r|] ctx1] & _ & H)%bind_Ret; [|done].
  apply bind_Ret in H as ([[[[[err2 node] next] p2] h2] c2] & _ & H). revert H.
  case_test; [intros [= <- _]; by apply err_ok_false, negb_true_iff|].
  intros ([[n|] c3] & _ & H)%bind_Ret; [|done]. revert H. case_test; [done|].
  destruct (odfs_namefix_apply _ _ _ _) as [[err3 nf'] nm]. case_test; [|done].
  intros [= <- _]. by apply err_ok_false, negb_true_iff.
Qed.

Lemma readdir_loop_deliver {C} {HO : CacheOps C} malloc {T} (cb : odfs_node → T → odfs_err * T)
    fuel dir target offset (s : scan_state C) t :
  (λ '(e, r, _, t), (e, r, t)) <$> readdir_loop malloc cb fuel dir target offset s t =
  deliver cb target (length_ (extent dir)) (scan_all malloc fuel dir offset s).1
    (scan_all malloc fuel dir offset s).2 t.
Proof.
  revert offset s t. induction fuel as [|fuel IH]; intros offset s t; [done|].
  cbn [readdir_loop scan_all]. case_test; [done|].
  destruct (dir_step malloc dir offset s) as [[[o|n o|e] s']| |] eqn:Hd; [..|done|done].
  - apply IH.
  - specialize (IH o s'). destruct (scan_all malloc fuel dir o s') as [l e']. simpl.
    case_test; [apply IH|]. destruct (cb n t) as [err t']. by case_test; [apply IH|].
  - apply dir_step_fail in Hd. apply err_ok_false in Hd. simpl. by rewrite Hd.
Qed.

(** ** Lookup follows enumeration *)

Lemma fmap_Ret {A B} (f : A → B) (m : outcome A) b : f <$> m = Ret b → ∃ a, m = Ret a ∧ f a = b.
Proof. intros (a & Ha & [= Hb])%bind_Ret. by exists a. Qed.

(** The entries called for the name [nm], in order. *)
Definition named (nm : list Z) (l : list odfs_node) : list odfs_node :=
  filter (λ n, odfs_strcasecmp (name n) nm = 0) l.

Lemma deliver_collect target size L e l0 r l :
  deliver collect target size L e l0 = Ret (ODFS_OK, r, l) →
  ∃ l1, l = l0 ++ l1 ∧ e = Ret ODFS_OK ∧
    deliver (recording (λ _ u, (ODFS_OK, u))) target size L e (tt, l0) = Ret (ODFS_OK, r, (tt, l)) ∧
    ∀ nm, ∃ next, deliver (lookup_cb nm) target size L e None =
      match named nm l1 with
      | n :: _ => Ret (ODFS_ERR_EOF, next, Some n)
      | [] => Ret (ODFS_OK, r, None)
      end.
Proof.
  revert l0. induction L as [|[[start n] next] L IH]; intros l0; cbn [deliver].
  - destruct e as [err| |]; [|done|done]. intros [= -> <- <-]. exists []. rewrite app_nil_r.
    split_and!; try done. intros nm. by exists None.
  - case_test; [apply IH|]. unfold collect at 1. cbn. intros H.
    destruct (IH _ H) as (l1 & -> & -> & Hrec & Hlook). exists (n :: l1).
    rewrite <- app_assoc. split_and!; [done|done| |].
    + by rewrite <- app_assoc in Hrec.
    + intros nm. specialize (Hlook nm). unfold named. rewrite filter_cons.
      unfold lookup_cb at 1. destruct (odfs_strcasecmp (name n) nm =? 0) eqn:E'; b2p.
      * rewrite decide_True by done. by exists (Some next).
      * rewrite decide_False by done. exact Hlook.
Qed.

Section lookup.
Context {C : Type} {HO : CacheOps C} (malloc : nat → Z → bool).

(** A run of [odfs_iso_readdir], without the states it ends in. *)
Lemma readdir_deliver {T} (cb : odfs_node → T → odfs_err * T) ctx (c : C) dir t resume :
  let L := scan_all malloc (S (Z.to_nat (length_ (extent dir)))) dir 0 (mk_scan c ctx odfs_namefix_init None) in
  (λ '(e, r, _, _, t), (e, r, t)) <$> odfs_iso_readdir malloc cb ctx c dir t resume =
  (λ '(e, r, t), (e, match resume with None => None | Some r0 => Some (default r0 r) end, t)) <$>
    deliver cb (default 0 resume) (length_ (extent dir)) L.1 L.2 t.
Proof.
  cbv zeta. rewrite <- readdir_loop_deliver. unfold odfs_iso_readdir.
  by destruct (readdir_loop _ _ _ _ _ _ _ _) as [[[[e r] s'] t']| |].
Qed.

(** Recording does not change what a run does. *)
Lemma readdir_loop_recording {T} (cb : odfs_node → T → odfs_err * T) fuel dir target offset (s : scan_state C) t l :
  readdir_loop malloc cb fuel dir target offset s t =
  (λ '(e, r, s, (t, _)), (e, r, s, t)) <$> readdir_loop malloc (recording cb) fuel dir target offset s (t, l).
Proof.
  revert offset s t l. induction fuel as [|fuel IH]; intros offset s t l; [done|]. cbn [readdir_loop].
  case_test; [done|]. destruct (dir_step malloc dir offset s) as [[[o|n o|e] s']| |]; [..|done|done]; cbn.
  - apply IH.
  - case_test; [apply IH|]. destruct (cb n t) as [err t']. case_test; [apply IH|done].
  - done.
Qed.
Lemma readdir_recording {T} (cb : odfs_node → T → odfs_err * T) ctx (c : C) dir t resume :
  odfs_iso_readdir malloc cb ctx c dir t resume =
  (λ '(e, r, ctx, c, (t, _)), (e, r, ctx, c, t)) <$> odfs_iso_readdir malloc (recording cb) ctx c dir (t, []) resume.
Proof.
  unfold odfs_iso_readdir. rewrite (readdir_loop_recording cb _ _ _ _ _ t []).
  by destruct (readdir_loop malloc (recording cb) _ _ _ _ _ _) as [[[[e r] s'] [t' l]]| |].
Qed.

(** A run leaves the cache coherent and the mount context as it was, node numbers apart. *)
Lemma readdir_keeps {T} img inv ok ptr (cb : odfs_node → T → odfs_err * T) ctx (c : C) dir t resume :
  CacheLaws C img 2048 inv ok ptr → CacheCleanFailure C ok ptr → (∀ lba, Forall is_byte (img lba)) →
  ok c → 0 ≤ rr_skip ctx → length_ (extent dir) ≤ MAX_DIR →
  lands (odfs_iso_readdir malloc cb ctx c dir t resume) (λ '(_, _, ctx', c', _), ok c' ∧ same_mount ctx ctx').
Proof.
  intros HL HF Hb Hok Hs HD. pose proof (readdir_lands img inv ok ptr Hb malloc cb ctx c dir t resume Hok Hs HD) as Hl.
  rewrite readdir_recording. destruct (odfs_iso_readdir malloc (recording cb) _ _ _ _ _) as [[[[[e r] ctx'] c'] [t' l]]| |]; try done.
  by destruct Hl as (? & ? & _).
Qed.

(** A complete listing determines what lookup finds. *)
Lemma lookup_listing ctx (c : C) dir r ctx' c' l :
  odfs_iso_readdir malloc collect ctx c dir [] None = Ret (ODFS_OK, r, ctx', c', l) →
  (∃ r' ctx2 c2, odfs_iso_readdir malloc (recording (λ _ u, (ODFS_OK, u))) ctx c dir (tt, []) None
     = Ret (ODFS_OK, r', ctx2, c2, (tt, l))) ∧
  ∀ nm, ∃ ctx2 c2, odfs_iso_lookup malloc ctx c dir nm =
    Ret (match named nm l with n :: _ => (ODFS_OK, Some n) | [] => (ODFS_ERR_NOT_FOUND, None) end, ctx2, c2).
Proof.
  intros Hl. pose proof (f_equal (fmap (λ '(e, r, _, _, t), (e, r, t))) Hl) as Hd.
  rewrite readdir_deliver in Hd. apply fmap_Ret in Hd as ([[e r1] l'] & Hd & [= -> _ ->]).
  apply deliver_collect in Hd as (l1 & Hl1 & _ & Hrec & Hlook). simpl in Hl1. subst l1. split.
  - pose proof (readdir_deliver (recording (λ _ u, (ODFS_OK, u))) ctx c dir (tt, []) None) as Hr.
    cbv zeta in Hr. rewrite Hrec in Hr.
    apply fmap_Ret in Hr as ([[[[e r'] ctx2] c2] [u l2]] & Hr & [= -> -> -> ->]). by eexists _, _, _.
  - intros nm. destruct (Hlook nm) as [next Hn].
    pose proof (readdir_deliver (lookup_cb nm) ctx c dir None None) as Hr. cbv zeta in Hr.
    simpl (default 0 None) in *. rewrite Hn in Hr. unfold odfs_iso_lookup.
    destruct (named nm l) as [|n ns].
    + apply fmap_Ret in Hr as ([[[[e r'] ctx2] c2] f] & -> & [= -> -> ->]). by exists ctx2, c2.
    + apply fmap_Ret in Hr as ([[[[e r'] ctx2] c2] f] & -> & [= -> -> ->]). by exists ctx2, c2.
Qed.
End lookup.

(** ** Reading a file *)

Lemma iso_read_ok {C} {HO : CacheOps C} img inv ok ptr (c : C) file offset buf len err buf' n c' :
  CacheLaws C img 2048 inv ok ptr → ok c → is_u32 (lba (extent file)) →
  lba (extent file) + size file / 2048 < 2 ^ 32 → 0 ≤ offset → 0 ≤ len ≤ zlen buf →
  odfs_iso_read c file offset buf len = (err, buf', n, c') →
  0 ≤ n ≤ len ∧
  (err = ODFS_OK →
     n = Z.max 0 (Z.min len (size file - offset)) ∧
     take (Z.to_nat n) buf' = disc_bytes img 2048 (lba (extent file) * 2048 + offset) n ∧
     drop (Z.to_nat n) buf' = drop (Z.to_nat n) buf ∧ ok c').
Proof.
  intros HL Hok Hl Hfit Ho Hlen. unfold odfs_iso_read. case_test; b2p.
  - intros [= <- <- <- <-]. split; [lia|]. intros _.
    replace (Z.max 0 _) with 0 by lia. by split_and!.
  - set (want := if _ <? _ then _ else _). intros Hr.
    assert (Hw : want = Z.min len (size file - offset)) by (subst want; case_test; b2p; lia).
    assert (offset / 2048 ≤ size file / 2048) by (apply Z.div_le_mono; lia).
    assert (size file / 2048 < 2 ^ 32) by (unfold is_u32 in Hl; lia).
    assert (size file < 2 ^ 43) by dlia.
    apply (cl_read_bytes (img := img) (ss := 2048) (ok := ok)) in Hr as (_ & Hn & Hlb & Ht & Hokr);
      [|done|done|lia|lia|lia].
    split; [lia|]. intros He. destruct (Hokr He) as (Hok' & -> & ->).
    pose proof (length_disc_bytes img 2048 (lba (extent file) * 2048 + offset) want).
    split_and!; [lia| | |done].
    + apply take_app_length'. lia.
    + apply drop_app_length'. lia.
Qed.
