(* ===== verification/IsoTransparent.v ===== *)
(** * Enumeration does not depend on the cache

    A scan through a cache that holds few sectors, replaces them while the scan
    keeps a pointer into one, and walks continuation records in between, yields the
    same entries as a scan of the disc itself.  Two runs are related round by round;
    the pointer the scan keeps is valid because at most [EVICTIONS] sectors are
    replaced between two looks at the cache's generation, fewer than it counts. *)
From S2P Require Import Prelude Types Strings Namefix Media CacheApi Charset RockRidge RockRidgeProofs.
From S2P Require Import RockRidgeTransparent Iso9660 IsoScan IsoReaddir.
Open Scope Z_scope.

(** A node without its number. *)
Definition anon (n : odfs_node) : odfs_node := set_id 0 n.

(** ** Node numbers do not matter to a record *)
Definition rec_anon (r r' : option dir_record) : Prop :=
  match r, r' with
  | Some r, Some r' => anon (rec_node r) = anon (rec_node r') ∧ rec_consumed r = rec_consumed r' ∧ rec_sua r = rec_sua r'
  | None, None => True
  | _, _ => False
  end.

Lemma parse_renumbered data avail ctx ctx' :
  same_mount ctx ctx' →
  outcome_rel (λ '(r, c) '(r', c'), rec_anon r r' ∧ same_mount c c' ∧ has_rock_ridge c = has_rock_ridge ctx)
    (iso_parse_dir_record data avail ctx) (iso_parse_dir_record data avail ctx').
Proof.
  intros [k ->]. unfold iso_parse_dir_record. case_test; [by split_and!; [|exists k|]|].
  apply outcome_rel_same. intros rec_len _. do 2 (case_test; [by split_and!; [|exists k|]|]).
  apply outcome_rel_same. intros name_len _. case_test; [by split_and!; [|exists k|]|]. cbv zeta.
  do 2 (apply outcome_rel_same; intros ? _). apply outcome_rel_same. intros flags _.
  apply outcome_rel_same. intros time _. apply outcome_rel_same. intros ident _.
  apply outcome_rel_same. intros nm _. split_and!; [done| |done].
  by exists (u32 (next_node_id (set_next_node_id k ctx) + 1)).
Qed.

(** What a record reads as. *)
Lemma parse_record_consumed data avail ctx r ctx' :
  iso_parse_dir_record data avail ctx = Ret (Some r, ctx') → rd data 0 = Ret (rec_consumed r).
Proof.
  unfold iso_parse_dir_record. case_test; [done|]. intros (rec_len & Hl & H)%bind_Ret. revert H.
  do 2 (case_test; [done|]). intros (name_len & _ & H)%bind_Ret. revert H. case_test; [done|]. cbv zeta.
  do 6 (intros (? & _ & H)%bind_Ret; revert H). by intros [= <- _].
Qed.

(** ** Records and their System Use Areas *)
Section areas.
Context (img : Z → list Z) (dir : odfs_node).
(** The directory's memory from the offset on, to the end of the sector. *)
Definition record_sector (o : Z) : Z := u32 (lba (extent dir) + o / ISO_SECTOR_SIZE).
Definition record_at (o : Z) : list Z := mem_at (img (record_sector o)) (o mod ISO_SECTOR_SIZE).
(** Where records begin: at the start of a sector, and after a record of the sector. *)
Inductive record_offset : Z → Prop :=
  | ro_sector k : 0 ≤ k → record_offset (k * ISO_SECTOR_SIZE)
  | ro_next o n : record_offset o → rd (record_at o) 0 = Ret n → 33 ≤ n ≤ ISO_SECTOR_SIZE - o mod ISO_SECTOR_SIZE →
      record_offset (o + n).
(** On a volume with Rock Ridge, no entry of a System Use Area of the directory follows a
    continuation, and the sectors the areas continue in can be read. *)
Definition rr_areas_ok (readable : Z → Prop) (ctx : iso_context) : Prop :=
  has_rock_ridge ctx = true → ∀ o r ctx' sua n, record_offset o → o < length_ (extent dir) →
    iso_parse_dir_record (record_at o) (ISO_SECTOR_SIZE - o mod ISO_SECTOR_SIZE) ctx = Ret (Some r, ctx') →
    rec_sua r = Some (sua, n) →
    area_ok readable (ce_sectors img 9 (mem_at (img (record_sector o)) (o mod ISO_SECTOR_SIZE + sua)) n (rr_skip ctx)).

Lemma record_offset_sector o : 0 ≤ o < MAX_DIR → record_offset (next_sector o).
Proof.
  intros Ho. assert (Hn : next_sector o = (o / 2048 + 1) * 2048).
  { unfold next_sector, MAX_DIR, ISO_SECTOR_SIZE in *. apply u32_small. unfold is_u32. dlia. }
  rewrite Hn. apply (ro_sector (o / 2048 + 1)). dlia.
Qed.
(** Volumes without Rock Ridge have no such areas. *)
Lemma rr_areas_plain readable ctx : has_rock_ridge ctx = false → rr_areas_ok readable ctx.
Proof. intros H1 H2. congruence. Qed.
Lemma rr_areas_renumbered readable ctx ctx' : same_mount ctx ctx' → rr_areas_ok readable ctx → rr_areas_ok readable ctx'.
Proof.
  intros [k ->] Ha Hrr o r ctx2 sua n Ho Hlt Hp Hs.
  pose proof (parse_renumbered (record_at o) (ISO_SECTOR_SIZE - o mod ISO_SECTOR_SIZE) ctx _ (ex_intro _ k eq_refl)) as H.
  rewrite Hp in H. destruct (iso_parse_dir_record _ _ ctx) as [[[r'|] ctx1]| |] eqn:Hp'; try done; [|by destruct H].
  destruct H as ((_ & _ & Hs') & _). exact (Ha Hrr o r' ctx1 sua n Ho Hlt Hp' (eq_trans Hs' Hs)).
Qed.

(** *** Checking a directory *)

(** [L] holds the places records of the directory begin at. *)
Definition offsets_closed (L : list Z) : bool :=
  forallb (λ k, bool_decide (k * ISO_SECTOR_SIZE ∈ L)) (seqZ 0 ((length_ (extent dir) - 1) / ISO_SECTOR_SIZE + 1)) &&
  forallb (λ o, match rd (record_at o) 0 with
    | Ret n => (n <? 33) || (length_ (extent dir) <=? o + n) || bool_decide (o + n ∈ L) | _ => true end) L.
(** The records at [L] have the areas [rr_areas_ok] asks for. *)
Definition areas_checked (readableb : Z → bool) (ctx : iso_context) (L : list Z) : bool :=
  forallb (λ o, match iso_parse_dir_record (record_at o) (ISO_SECTOR_SIZE - o mod ISO_SECTOR_SIZE) ctx with
    | Ret (Some r, _) =>
        match rec_sua r with
        | Some (sua, n) =>
            match ce_sectors img 9 (mem_at (img (record_sector o)) (o mod ISO_SECTOR_SIZE + sua)) n (rr_skip ctx) with
            | Some ls => forallb readableb ls | None => false end
        | None => true
        end
    | _ => true end) L.

Lemma offsets_closed_spec L o : offsets_closed L = true → record_offset o → o < length_ (extent dir) → o ∈ L.
Proof.
  unfold offsets_closed. rewrite andb_true_iff, !forallb_forall. intros [Hs Hn].
  induction 1 as [k Hk|o n Ho IH Hr Hle]; intros Hlt.
  - apply (bool_decide_eq_true_1 _), Hs, list_elem_of_In, elem_of_seqZ. unfold ISO_SECTOR_SIZE in *. dlia.
  - specialize (Hn o ltac:(apply list_elem_of_In, IH; lia)). rewrite Hr in Hn. b2p.
    destruct Hn as [[Hn|Hn]%orb_true_iff|Hn]; b2p; [lia..|done].
Qed.
Lemma rr_areas_of_check readable readableb ctx L :
  (∀ l, readableb l = true → readable l) → offsets_closed L = true → areas_checked readableb ctx L = true →
  rr_areas_ok readable ctx.
Proof.
  unfold areas_checked. rewrite forallb_forall. intros Hrd HL Ha _ o r ctx' sua n Ho Hlt Hp Hs.
  specialize (Ha o ltac:(apply list_elem_of_In; by apply offsets_closed_spec)). rewrite Hp, Hs in Ha.
  destruct (ce_sectors _ _ _ _ _) as [ls|]; [|done]. exists ls. split; [done|].
  rewrite forallb_forall in Ha. apply Forall_forall. intros l Hl. by apply Hrd, Ha, list_elem_of_In.
Qed.
End areas.

(** Rounds of a walk up to an offset: at most 64 per sector. *)
Definition rounds (o : Z) : Z := 64 * (o / ISO_SECTOR_SIZE) + o mod ISO_SECTOR_SIZE / 33.

Lemma rounds_next o : 0 ≤ o < MAX_DIR → rounds o + 1 ≤ rounds (next_sector o).
Proof.
  intros Ho. assert (Hn : next_sector o = (o / 2048 + 1) * 2048).
  { unfold next_sector, MAX_DIR, ISO_SECTOR_SIZE in *. apply u32_small. unfold is_u32. dlia. }
  unfold rounds. rewrite Hn. unfold ISO_SECTOR_SIZE. rewrite Z.div_mul, Z.mod_mul by lia. simpl. dlia.
Qed.
Lemma rounds_record o n :
  0 ≤ o → 33 ≤ n ≤ ISO_SECTOR_SIZE - o mod ISO_SECTOR_SIZE → rounds o + 1 ≤ rounds (o + n).
Proof. unfold rounds, ISO_SECTOR_SIZE. intros. dlia. Qed.
Lemma rounds_mono_max o : 0 ≤ o ≤ MAX_DIR → 0 ≤ rounds o ≤ 2 ^ 27.
Proof. unfold rounds, MAX_DIR, ISO_SECTOR_SIZE. intros. dlia. Qed.
(** What one round of the scan can replace: the merge of continuation records, then the
    continuation areas. *)
Definition MERGE_EVICTIONS : Z := READ_EVICTIONS * (2 ^ 27 + 2).
Definition EVICTIONS : Z := MERGE_EVICTIONS + READ_EVICTIONS * 9.

Section transparent.
Context {C : Type} {HO : CacheOps C} (img : Z → list Z) (inv ok : C → Prop) (ptr : C → Z → Prop).
Context (readable : Z → Prop).
Context {HL : CacheLaws C img 2048 inv ok ptr} {HR : CacheReadable C ok readable}.
Context (malloc : nat → Z → bool) (dir : odfs_node).
Context (Hsize : length_ (extent dir) ≤ MAX_DIR).
Context (Hreadable : ∀ o, 0 ≤ o < length_ (extent dir) →
  readable (u32 (lba (extent dir) + o / ISO_SECTOR_SIZE))).
Context (ctx0 : iso_context) (Hareas : rr_areas_ok img dir readable ctx0).
Context (Hbytes : ∀ l, Forall is_byte (img l)).
#[local] Instance disc : CacheOps unit := disc_cache img 2048.
Abbreviation record_offset := (record_offset img dir).

Lemma read_sim c o :
  ok c → 0 ≤ o < length_ (extent dir) →
  ∃ p c', bc_read c (u32 (lba (extent dir) + o / ISO_SECTOR_SIZE)) = (ODFS_OK, p, c') ∧
    ok c' ∧ ptr c' p ∧ bc_data c' p = img (u32 (lba (extent dir) + o / ISO_SECTOR_SIZE)) ∧
    evolves ptr READ_EVICTIONS c c'.
Proof.
  intros Hok Ho.
  destruct (cr_read c (u32 (lba (extent dir) + o / ISO_SECTOR_SIZE)) Hok (u32_range _) (Hreadable _ Ho))
    as (p & c' & Hr). exists p, c'. split; [done|].
  destruct (cl_read_ok c _ _ _ Hok (u32_range _) Hr) as (Hok' & Hp & Hd & He).
  by split_and!.
Qed.

Lemma ok_gen c : ok c → is_u32 (bc_generation c).
Proof. apply (ok_generation img inv ok ptr). Qed.

(** Two walks from [o] on, the first through the cache [c]. *)
Definition merge_rel (o : Z) (c : C) (r : odfs_err * Z * Z * C) (r' : odfs_err * Z * Z * unit) : Prop :=
  let '(e, o1, m, c') := r in let '(e', o1', m', _) := r' in
  (e, o1, m) = (e', o1', m') ∧ o ≤ o1 ≤ MAX_DIR ∧ ok c' ∧
  evolves ptr (READ_EVICTIONS * (rounds o1 - rounds o + 1)) c c' ∧ rounds o ≤ rounds o1 ∧ record_offset o1.

Lemma merge_loop_sim fuel c ss fo ident el more contiguous merged o :
  ok c → 0 ≤ o ≤ MAX_DIR → record_offset o →
  outcome_rel (merge_rel o c)
    (merge_loop fuel c ss (lba (extent dir)) (length_ (extent dir)) fo ident el more contiguous merged o)
    (merge_loop fuel tt ss (lba (extent dir)) (length_ (extent dir)) fo ident el more contiguous merged o).
Proof.
  revert c more contiguous merged o. induction fuel as [|fuel IH]; intros c more contiguous merged o Hf Ho Hrec; [done|].
  cbn [merge_loop]. case_test.
  { simpl. split_and!; try done; try lia. apply evolves_refl; [unfold READ_EVICTIONS; lia|by apply ok_gen]. }
  apply negb_false_iff, andb_true_iff in E as [_ E]. b2p. cbv zeta.
  destruct (read_sim c o Hf ltac:(lia)) as (p & c1 & Hr & Hf1 & Hp & Hd & He). rewrite Hr, Hd.
  change (bc_read tt (u32 ?l)) with (ODFS_OK, u32 l, tt). cbn [err_ok negb]. cbv beta iota.
  change (bc_data tt ?l) with (img l).
  assert (Hstop : ∀ e m, outcome_rel (merge_rel o c)
    (Ret (e, o, m, c1)) (Ret (e, o, m, tt))).
  { intros e m. simpl. split_and!; try done; try lia. by replace (rounds o - rounds o + 1) with 1 by lia. }
  assert (Hgo : ∀ more contiguous merged o', o < o' ≤ MAX_DIR → rounds o + 1 ≤ rounds o' → record_offset o' →
    outcome_rel (merge_rel o c)
    (merge_loop fuel c1 ss (lba (extent dir)) (length_ (extent dir)) fo ident el more contiguous merged o')
    (merge_loop fuel tt ss (lba (extent dir)) (length_ (extent dir)) fo ident el more contiguous merged o')).
  { intros m ct mg o' Ho' Hr' Hrec'. eapply outcome_rel_weaken; [apply (IH c1 m ct mg o' Hf1); done || lia|].
    intros [[[e1 o1] m1] c2] [[[e2 o2] m2] []] (Heq & Hb & Hf2 & He2 & Hrr & Hrec1). split_and!; try done; try lia.
    eapply evolves_mono; [|eapply evolves_trans; [exact He|exact He2]]. unfold READ_EVICTIONS. lia. }
  change (negb true) with false. cbv iota.
  apply outcome_rel_same. intros rec_len Hlen.
  case_test; [apply Hgo; [apply next_sector_gt; lia|apply rounds_next; lia|apply record_offset_sector; lia]|].
  case_test; [apply Hstop|]. b2p. apply outcome_rel_same. intros name_len _.
  apply outcome_rel_same. intros same _. case_test; [apply Hstop|].
  do 3 (apply outcome_rel_same; intros ? _).
  destruct (record_end o rec_len) as [-> ?]; [lia|lia|]. apply Hgo; [lia|apply rounds_record; lia|]. by apply ro_next; [|exact Hlen|lia].
Qed.
(** A pointer the scan holds: valid now, or valid when it was taken. *)
Definition held_now (c : C) (h : held) : Prop :=
  ∀ p l g, h = Some (p, l, g) → ptr c p ∧ bc_generation c = g ∧ bc_data c p = img l.
Definition held_since (n : Z) (c : C) (h : held) : Prop :=
  ∀ p l g, h = Some (p, l, g) → ∃ c0, ok c0 ∧ ptr c0 p ∧ bc_generation c0 = g ∧ bc_data c0 p = img l ∧
    evolves ptr n c0 c.
(** On the disc a pointer is its sector. *)
Definition held_disc (h : held) : Prop := ∀ p l g, h = Some (p, l, g) → p = l.

Lemma held_later_since n c c' h :
  ok c → held_now c h → evolves ptr n c c' → held_since n c' h.
Proof. intros Hf Hh He p l g Hs. destruct (Hh p l g Hs) as (? & ? & ?). by exists c. Qed.
Lemma held_since_evolves n m c c' h : held_since n c h → evolves ptr m c c' → held_since (n + m) c' h.
Proof.
  intros Hh He p l g Hs. destruct (Hh p l g Hs) as (c0 & ? & ? & ? & ? & He0). exists c0. split_and!; try done.
  by eapply evolves_trans.
Qed.
Lemma held_now_since n c h : 0 ≤ n → ok c → held_now c h → held_since n c h.
Proof. intros Hn Hf Hh. eapply held_later_since; [done..|]. by apply evolves_refl, ok_gen. Qed.
Lemma held_since_now c h p l g :
  held_since EVICTIONS c h → h = Some (p, l, g) → bc_generation c = g → ptr c p ∧ bc_data c p = img l.
Proof.
  intros Hh Hs Hg. destruct (Hh p l g Hs) as (c0 & Hf0 & Hp0 & Hg0 & Hd0 & He).
  split; [by apply He|]. rewrite <- Hd0.
  eapply evolves_stable; [|by apply ok_gen|exact He|congruence|done].
  unfold EVICTIONS, MERGE_EVICTIONS, READ_EVICTIONS. lia.
Qed.

Lemma hold_sim c h h' o :
  ok c → held_since EVICTIONS c h → held_disc h' → 0 ≤ o < length_ (extent dir) →
  let l := u32 (lba (extent dir) + o / ISO_SECTOR_SIZE) in
  ∃ p h1 c1 h1', iso_hold c h l = (ODFS_OK, p, h1, c1) ∧ iso_hold tt h' l = (ODFS_OK, l, h1', tt) ∧
    ok c1 ∧ ptr c1 p ∧ bc_data c1 p = img l ∧ held_now c1 h1 ∧ held_disc h1'.
Proof.
  intros Hf Hh Hh' Ho l.
  assert (Hdisc : ∃ h1', iso_hold tt h' l = (ODFS_OK, l, h1', tt) ∧ held_disc h1').
  { unfold iso_hold. destruct h' as [[[q l'] g]|]; cbn -[l].
    - case_test; b2p.
      + exists (Some (q, l', g)). rewrite (Hh' q l' g eq_refl), <- H. by split; [|intros ? ? ? [= <- <- <-]].
      + exists (Some (l, l, 0)). by split; [|intros ? ? ? [= <- <- <-]].
    - exists (Some (l, l, 0)). by split; [|intros ? ? ? [= <- <- <-]]. }
  destruct Hdisc as (h1' & Hd & Hd').
  destruct (read_sim c o Hf Ho) as (p & c1 & Hr & Hf1 & Hp & Hdat & He). fold l in Hr, Hdat.
  assert (Hfetch : held_now c1 (Some (p, l, bc_generation c1))) by (by intros ? ? ? [= <- <- <-]).
  unfold iso_hold at 1. rewrite Hr. cbn [err_ok]. change (err_ok ODFS_OK) with true. cbv iota.
  destruct h as [[[q l'] g]|].
  - case_test; b2p.
    + subst l'. destruct (held_since_now c _ q l g Hh eq_refl) as [Hq Hqd]; [done|].
      eexists q, _, c, h1'. split_and!; try done. by intros ? ? ? [= <- <- <-].
    + eexists p, _, c1, h1'. by split_and!.
  - eexists p, _, c1, h1'. by split_and!.
Qed.

(** Two rounds of the scan with the entry's record at hand; the pointer shows the sector
    if there is a System Use Area to look at. *)
Definition merged_rel (l : Z) (r : dir_record) (x : odfs_err * odfs_node * Z * Z * held * C)
    (x' : odfs_err * odfs_node * Z * Z * held * unit) : Prop :=
  let '(e, n, o, p, h, c) := x in let '(e', n', o', p', h', _) := x' in
  (e, n, o) = (e', n', o') ∧ 0 ≤ o ∧ record_offset o ∧ ok c ∧ held_since MERGE_EVICTIONS c h ∧ held_disc h' ∧
  (e = ODFS_OK → rec_sua r ≠ None → shows img ptr c p l ∧ p' = l).

Lemma evictions_bound o o1 :
  0 ≤ o ≤ o1 → o1 ≤ MAX_DIR → READ_EVICTIONS * (rounds o1 - rounds o + 1) + READ_EVICTIONS ≤ MERGE_EVICTIONS.
Proof.
  intros. pose proof (rounds_mono_max o). pose proof (rounds_mono_max o1).
  unfold MERGE_EVICTIONS, READ_EVICTIONS. lia.
Qed.
Lemma evictions_nonneg : 0 ≤ MERGE_EVICTIONS ≤ EVICTIONS.
Proof. unfold EVICTIONS, MERGE_EVICTIONS, READ_EVICTIONS. lia. Qed.

Lemma dir_merge_sim c ctx h h' p o r next :
  ok c → held_now c h → held_disc h' → 0 ≤ o < length_ (extent dir) → 0 ≤ next ≤ MAX_DIR → record_offset next →
  let l := record_sector dir o in
  shows img ptr c p l →
  outcome_rel (merged_rel l r) (dir_merge c ctx dir h p (o mod ISO_SECTOR_SIZE) l r next)
    (dir_merge tt ctx dir h' l (o mod ISO_SECTOR_SIZE) l r next).
Proof.
  intros Hf Hh Hh' Ho Hn Hrec l [Hp Hd]. unfold dir_merge. cbv zeta. rewrite Hd.
  change (bc_data tt l) with (img l). set (rec := mem_at (img l) _).
  pose proof evictions_nonneg as Hev0.
  assert (Hnow : held_since MERGE_EVICTIONS c h) by (apply held_now_since; [lia|done|done]).
  apply outcome_rel_same. intros flags _. case_test; [|by split_and!; try lia].
  eapply (outcome_rel_bind (λ '(e, o1, n, c') '(e', o1', n', _),
    (e, o1, n) = (e', o1', n') ∧ next ≤ o1 ≤ MAX_DIR ∧ ok c' ∧
    evolves ptr (READ_EVICTIONS * (rounds o1 - rounds next + 1)) c c' ∧ record_offset o1)).
  - unfold odfs_iso_merge_multi_extent. apply outcome_rel_same. intros fl _. case_test.
    { simpl. split_and!; try done; try lia. apply evolves_refl; [unfold READ_EVICTIONS; lia|by apply ok_gen]. }
    apply outcome_rel_same. intros il _. apply outcome_rel_same. intros ident _.
    eapply outcome_rel_bind; [by apply merge_loop_sim|].
    intros [[[e o1] m] c2] [[[e' o1'] m'] []] ([= <- <- <-] & Hb & Hf2 & He2 & _ & Hrec1).
    case_test; simpl; split_and!; (done || lia).
  - intros [[[e o1] n] c2] [[[e' o1'] n'] []] ([= <- <- <-] & Hb & Hf2 & He2 & Hrec1).
    pose proof (evictions_bound next o1 ltac:(lia) ltac:(lia)) as Hev.
    assert (Hs2 : held_since MERGE_EVICTIONS c2 h).
    { eapply held_later_since; [exact Hf|done|]. eapply evolves_mono; [|exact He2]. unfold READ_EVICTIONS in *. lia. }
    case_test; [apply negb_true_iff, err_ok_false in E0; by split_and!; try lia|].
    destruct (rec_sua r) eqn:Hsua; [|split_and!; try (done || lia); intros _ Hs; by rewrite Hsua in Hs].
    destruct (read_sim c2 o Hf2 Ho) as (q & c3 & Hr & Hf3 & Hq & Hqd & He3). fold (record_sector dir o) l in Hr, Hqd.
    rewrite Hr. change (bc_read tt l) with (ODFS_OK, l, tt). change (negb (err_ok ODFS_OK)) with false. cbv iota.
    split_and!; [done|lia|done|done| |by intros ? ? ? [= <- <- <-]|by intros _ _].
    apply held_now_since; [lia|exact Hf3|by intros ? ? ? [= <- <- <-]].
Qed.

(** Rock Ridge read through the cache is Rock Ridge read from the disc. *)
Lemma dir_rock_ridge_sim c ctx p o r node k r0 ctx1 :
  same_mount ctx0 ctx → ok c → 0 ≤ o < length_ (extent dir) → record_offset o →
  iso_parse_dir_record (record_at img dir o) (ISO_SECTOR_SIZE - o mod ISO_SECTOR_SIZE) ctx = Ret (Some r0, ctx1) →
  rec_sua r = rec_sua r0 → (rec_sua r ≠ None → shows img ptr c p (record_sector dir o) ∧ k = record_sector dir o) →
  outcome_rel (λ '(n, c') '(n', _), n = n' ∧ ok c' ∧ evolves ptr (READ_EVICTIONS * 9) c c')
    (dir_rock_ridge c ctx1 p (o mod ISO_SECTOR_SIZE) r node)
    (dir_rock_ridge tt ctx1 k (o mod ISO_SECTOR_SIZE) r node).
Proof.
  intros Hc Hf Ho Hrec Hparse Hsua Hshow. unfold dir_rock_ridge.
  assert (Hno : evolves ptr (READ_EVICTIONS * 9) c c)
    by (apply evolves_refl; [unfold READ_EVICTIONS; lia|by apply ok_gen]).
  destruct (rec_sua r) as [[sua n]|]; [|done]. destruct (Hshow ltac:(done)) as [Hp ->].
  pose proof (parse_record_lands (record_at img dir o) (ISO_SECTOR_SIZE - o mod ISO_SECTOR_SIZE) ctx
    ltac:(unfold record_at; auto with odfs)) as Hm.
  rewrite Hparse in Hm. destruct Hm as [[j Hj] _].
  assert (Hrr : has_rock_ridge ctx1 = has_rock_ridge ctx ∧ rr_skip ctx1 = rr_skip ctx) by by rewrite Hj.
  destruct Hrr as [Hrr Hsk]. case_test; [|done]. b2p.
  eapply outcome_rel_bind; [apply (rr_parse_sim img inv ok ptr readable Hbytes c p (record_sector dir o)); [done|done|]|].
  - rewrite Hsk. eapply (rr_areas_renumbered img dir readable ctx0 ctx Hc Hareas); [congruence|done|lia|exact Hparse|by rewrite <- Hsua].
  - intros [i c2] [i' []] (Hi & Hf2 & He2). simpl in Hi, Hf2, He2. subst i'. by case_test.
Qed.

(** Two scans at the same place. *)
Record scan_rel (s : scan_state C) (s' : scan_state unit) : Prop := {
  sr_fine : ok (sc_cache s);
  sr_ctx : sc_ctx s = sc_ctx s';
  sr_namefix : sc_namefix s = sc_namefix s';
  sr_held : held_since EVICTIONS (sc_cache s) (sc_held s);
  sr_disc : held_disc (sc_held s');
  sr_mount : same_mount ctx0 (sc_ctx s) }.
Definition step_rel (r : dir_item * scan_state C) (r' : dir_item * scan_state unit) : Prop :=
  r.1 = r'.1 ∧ scan_rel r.2 r'.2 ∧
  match r.1 with DirSkip o | DirEntry _ o => 0 ≤ o ∧ record_offset o | DirFail _ => True end.

(** A round that came to the same item. *)
Ltac step_tac := split; [done|split; [by split|simpl; first [done|split; [lia|done]]]].
Lemma dir_step_sim o s s' :
  scan_rel s s' → 0 ≤ o < length_ (extent dir) → record_offset o →
  outcome_rel step_rel (dir_step malloc dir o s) (dir_step malloc dir o s').
Proof.
  destruct s as [c ctx nf h], s' as [[] ctx' nf' h'].
  intros [Hf Hctx Hnf Hh Hh' Hmt] Ho Hrec. simpl in *. subst ctx' nf'. unfold dir_step. cbv zeta.
  destruct (hold_sim c h h' o Hf Hh Hh' Ho) as (p & h1 & c1 & h1' & -> & -> & Hf1 & Hp & Hd & Hh1 & Hh1').
  fold (record_sector dir o) in Hd |- *. set (l := record_sector dir o) in *.
  change (negb (err_ok ODFS_OK)) with false. cbv iota. rewrite Hd. change (bc_data tt l) with (img l).
  change (mem_at (img l) (o mod ISO_SECTOR_SIZE)) with (record_at img dir o). pose proof evictions_nonneg as Hev0.
  assert (Hs1 : held_since EVICTIONS c1 h1) by (apply held_now_since; [lia|done|done]).
  pose proof (next_sector_gt o ltac:(lia)) as Hnext.
  pose proof (record_offset_sector img dir o ltac:(lia)) as Hrnext.
  apply outcome_rel_same. intros b _. case_test; [by step_tac|].
  pose proof (parse_record_lands (record_at img dir o) (ISO_SECTOR_SIZE - o mod ISO_SECTOR_SIZE) ctx
    ltac:(unfold record_at; auto with odfs)) as Hok.
  apply outcome_rel_same. intros [[r|] ctx1] Hparse; rewrite Hparse in Hok; destruct Hok as [Hm Hr].
  2: { assert (Hmt1 : same_mount ctx0 ctx1) by (by eapply same_mount_trans). by step_tac. }
  assert (Hmt1 : same_mount ctx0 ctx1) by (by eapply same_mount_trans).
  destruct (Hr r eq_refl) as [Hcons _].
  destruct (record_end o (rec_consumed r)) as [-> Hend]; [lia|lia|].
  assert (Hrec1 : record_offset (o + rec_consumed r))
    by (apply ro_next; [done|by eapply parse_record_consumed|lia]).
  eapply outcome_rel_bind; [apply dir_merge_sim; try done; lia|].
  intros [[[[[e n] o1] q] h2] c2] [[[[[e' n'] o1'] q'] h2'] []] ([= <- <- <-] & Ho1 & Hro1 & Hf2 & Hh2 & Hh2' & Hq).
  assert (Hh2e : held_since EVICTIONS c2 h2).
  { intros x y z Hx. destruct (Hh2 x y z Hx) as (c0 & ? & ? & ? & ? & He). exists c0. split_and!; try done.
    eapply evolves_mono; [|exact He]. lia. }
  case_test; [by step_tac|].
  apply negb_false_iff, err_ok_true in E0. specialize (Hq E0).
  eapply outcome_rel_bind; [eapply (dir_rock_ridge_sim c2 ctx q o _ n q' r ctx1); done|].
  intros [n2 c3] [n2' []] (<- & Hf3 & He3).
  assert (Hh3 : held_since EVICTIONS c3 h2) by (by eapply held_since_evolves).
  destruct n2 as [n2|]; [|by step_tac].
  case_test; [by step_tac|].
  destruct (odfs_namefix_apply _ _ _ _) as [[e3 nf3] nm].
  case_test; by step_tac.
Qed.

Lemma scan_all_sim fuel o s s' :
  scan_rel s s' → 0 ≤ o → record_offset o → scan_all malloc fuel dir o s = scan_all malloc fuel dir o s'.
Proof.
  revert o s s'. induction fuel as [|fuel IH]; intros o s s' Hs Ho Hrec; [done|]. cbn [scan_all].
  case_test; [done|]. b2p. pose proof (dir_step_sim o s s' Hs ltac:(lia) Hrec) as Hstep.
  destruct (dir_step malloc dir o s) as [[item s1]| |], (dir_step malloc dir o s') as [[item' s1']| |];
    try done. destruct Hstep as (Hi & Hs1 & Hit). simpl in Hi, Hs1, Hit. subst item'.
  destruct item as [o'|n o'|e]; [by apply IH; [|apply Hit..]| |done]. by rewrite (IH o' s1 s1') by (done || apply Hit).
Qed.

Lemma readdir_sim {T} (cb : odfs_node → T → odfs_err * T) ctx c t resume :
  ok c → same_mount ctx0 ctx →
  (λ '(e, r, _, _, t), (e, r, t)) <$> odfs_iso_readdir malloc cb ctx c dir t resume =
  (λ '(e, r, _, _, t), (e, r, t)) <$> odfs_iso_readdir malloc cb ctx tt dir t resume.
Proof.
  intros Hf Hrr. rewrite !readdir_deliver. cbv zeta.
  rewrite (scan_all_sim _ 0 (mk_scan c ctx odfs_namefix_init None) (mk_scan tt ctx odfs_namefix_init None));
    [done| |lia|by apply (ro_sector img dir 0)].
  by split.
Qed.
End transparent.
