(* ===== verification/IsoResume.v ===== *)
(** * Resuming an enumeration

    A caller may stop after any entry, keep the offset it is given, and continue
    later: the offset is where the next record starts, the entries that were
    delivered are parsed again but not delivered, and the names come out the same, on
    directories whose enumeration does not depend on the cache. *)
From S2P Require Import Prelude Types Strings Namefix Media CacheApi RockRidge RockRidgeProofs RockRidgeTransparent.
From S2P Require Import Iso9660 IsoScan IsoReaddir IsoTransparent.
Open Scope Z_scope.

Definition anon_entry (x : Z * odfs_node * Z) : Z * odfs_node * Z := let '(s, n, o) := x in (s, anon n, o).
(** Stop after [k] entries. *)
Definition take_first (k : nat) (n : odfs_node) (l : list odfs_node) : odfs_err * list odfs_node :=
  let l := l ++ [n] in (if bool_decide (length l = k) then ODFS_ERR_EOF else ODFS_OK, l).

(** ** Node numbers do not matter *)
Section anonymous.
Context {C : Type} {HO : CacheOps C} (malloc : nat → Z → bool) (dir : odfs_node).

Record anon_rel (s s' : scan_state C) : Prop := {
  ar_cache : sc_cache s = sc_cache s';
  ar_namefix : sc_namefix s = sc_namefix s';
  ar_held : sc_held s = sc_held s';
  ar_ctx : same_mount (sc_ctx s) (sc_ctx s') }.
Definition item_anon (i i' : dir_item) : Prop :=
  match i, i' with
  | DirSkip o, DirSkip o' => o = o'
  | DirEntry n o, DirEntry n' o' => anon n = anon n' ∧ o = o'
  | DirFail e, DirFail e' => e = e'
  | _, _ => False
  end.

Lemma plain_rock_ridge (c : C) ctx p so r node :
  has_rock_ridge ctx = false → dir_rock_ridge c ctx p so r node = Ret (Some node, c).
Proof. intros Hrr. unfold dir_rock_ridge. rewrite Hrr. by destruct (rec_sua r) as [[? ?]|]. Qed.

Lemma apply_rr_anon n rr ss b : anon (iso_apply_rr n rr ss b) = iso_apply_rr (anon n) rr ss b.
Proof. unfold iso_apply_rr, rr_override_name. destruct n. by repeat case_test. Qed.
Lemma rock_ridge_anon (c : C) ctx ctx' p so r r' n n' :
  same_mount ctx ctx' → rec_sua r = rec_sua r' → anon n = anon n' →
  outcome_rel (λ '(n, c) '(n', c'), anon <$> n = anon <$> n' ∧ c = c')
    (dir_rock_ridge c ctx p so r n) (dir_rock_ridge c ctx' p so r' n').
Proof.
  intros [k ->] Hs Hn. unfold dir_rock_ridge. rewrite <- Hs. simpl.
  assert (Hsame : outcome_rel (λ '(n, c) '(n', c'), anon <$> n = anon <$> n' ∧ c = c') (Ret (Some n, c)) (Ret (Some n', c)))
    by (simpl; by rewrite Hn).
  destruct (rec_sua r) as [[sua len]|]; [|exact Hsame]. case_test; [|exact Hsame].
  apply outcome_rel_same. intros [rr c1] _. case_test; [done|]. simpl. by rewrite !apply_rr_anon, Hn.
Qed.

Lemma merge_anon (c : C) ss dl D o hs rec n n' :
  anon n = anon n' →
  outcome_rel (λ '(e, o, m, c) '(e', o', m', c'), (e, o, c) = (e', o', c') ∧ anon m = anon m')
    (odfs_iso_merge_multi_extent c ss dl D o hs rec n) (odfs_iso_merge_multi_extent c ss dl D o hs rec n').
Proof.
  intros Hn. destruct n, n'. injection Hn as -> -> -> -> -> -> -> -> -> -> ->.
  unfold odfs_iso_merge_multi_extent. apply outcome_rel_same. intros fl _. case_test; [done|].
  apply outcome_rel_same. intros il _. apply outcome_rel_same. intros ident _.
  apply outcome_rel_same. intros [[[e o1] m] c1] _. by case_test.
Qed.

Lemma dir_step_anon o s s' :
  anon_rel s s' →
  outcome_rel (λ '(i, s1) '(i', s1'), item_anon i i' ∧ anon_rel s1 s1')
    (dir_step malloc dir o s) (dir_step malloc dir o s').
Proof.
  destruct s as [c ctx nf h], s' as [c0 ctx' nf0 h0].
  intros [Hc Hnf Hh Hctx]. simpl in *. subst c0 nf0 h0. unfold dir_step. cbv zeta.
  destruct (iso_hold c h _) as [[[err p] h1] c1]. case_test; [done|].
  apply outcome_rel_same. intros b _. case_test; [done|].
  eapply outcome_rel_bind; [by apply parse_renumbered|].
  intros [[r|] ctx1] [[r'|] ctx1'] (Hr & Hctx1 & _); try done.
  destruct Hr as (Hn & Hco & Hsua). rewrite Hco, Hsua.
  destruct r as [rn rc rs], r' as [rn' rc' rs']. simpl in Hn, Hco, Hsua |- *. subst rc' rs'.
  eapply (outcome_rel_bind (λ '(e, n, o, p, h, c) '(e', n', o', p', h', c'),
    (e, o, p, h, c) = (e', o', p', h', c') ∧ anon n = anon n')).
  - unfold dir_merge. cbv zeta. cbn [rec_node rec_sua].
    assert (Hk : kind (set_parent_id (id dir) rn) = kind (set_parent_id (id dir) rn'))
      by (exact (f_equal kind Hn)).
    destruct Hctx1 as [k ->]. rewrite Hk. apply outcome_rel_same. intros fl _.
    assert (Hn' : anon (set_parent_id (id dir) rn) = anon (set_parent_id (id dir) rn'))
      by (exact (f_equal (set_parent_id (id dir)) Hn)).
    case_test; [|done].
    eapply outcome_rel_bind; [by apply merge_anon|].
    intros [[[e o1] m] c2] [[[e' o1'] m'] c2'] ([= <- <- <-] & Hm). case_test; [done|].
    destruct rs; [|done]. destruct (bc_read c2 _) as [[e2 q] c3]. by case_test.
  - intros [[[[[e n] o1] q] h2] c2] [[[[[e' n'] o1'] q'] h2'] c2'] ([= <- <- <- <- <-] & Hn2).
    case_test; [by split_and!|].
    eapply outcome_rel_bind; [eapply rock_ridge_anon; [exact Hctx1|done|exact Hn2]|].
    intros [[n3|] c3] [[n3'|] c3'] [Hn3 <-]; try done. apply (inj Some) in Hn3.
    rewrite <- (f_equal name Hn3 : name n3 = name n3'). case_test; [by split_and!|].
    destruct (odfs_namefix_apply _ _ _ _) as [[e3 nf3] nm]. case_test; [by split_and!|].
    split; [|by split]. split; [|done]. exact (f_equal (set_name nm) Hn3).
Qed.

Lemma scan_all_anon fuel o s s' :
  anon_rel s s' →
  map anon_entry (scan_all malloc fuel dir o s).1 = map anon_entry (scan_all malloc fuel dir o s').1 ∧
  (scan_all malloc fuel dir o s).2 = (scan_all malloc fuel dir o s').2.
Proof.
  revert o s s'. induction fuel as [|fuel IH]; intros o s s' Hs; [done|]. cbn [scan_all].
  case_test; [done|]. pose proof (dir_step_anon o s s' Hs) as Hstep.
  destruct (dir_step malloc dir o s) as [[item s1]| |], (dir_step malloc dir o s') as [[item' s1']| |]; try done.
  destruct Hstep as [Hi Hs1]. destruct item as [o1|n o1|e], item' as [o1'|n' o1'|e']; try done; simpl in Hi.
  - subst o1'. by apply IH.
  - destruct Hi as [Hn <-]. destruct (IH o1 s1 s1' Hs1) as [H1 H2].
    destruct (scan_all malloc fuel dir o1 s1), (scan_all malloc fuel dir o1 s1'). simpl in *. split; congruence.
  - by subst.
Qed.
End anonymous.

(** ** Lists of entries *)

(** Entries lie one after the other, from [lo] on. *)
Fixpoint ascending (lo : Z) (L : list (Z * odfs_node * Z)) : Prop :=
  match L with
  | [] => True
  | (s, _, o) :: L => lo ≤ s < o ∧ ascending o L
  end.
Definition entry_node (x : Z * odfs_node * Z) : odfs_node := x.1.2.

Lemma ascending_mono lo lo' L : lo' ≤ lo → ascending lo L → ascending lo' L.
Proof. destruct L as [|[[s n] o] L]; [done|]. simpl. intros ? [? ?]. split; [lia|done]. Qed.

Lemma ascending_lt lo L j s n next : ascending lo L → L !! j = Some (s, n, next) → lo < next.
Proof.
  revert lo j. induction L as [|[[s' n'] o] L IH]; intros lo j; [done|]. intros [Hs HL] Hj.
  destruct j as [|j]; [injection Hj as -> -> ->; lia|]. specialize (IH o j HL Hj). lia.
Qed.

Lemma deliver_collect_all lo target size L l0 :
  ascending lo L → target ≤ lo →
  deliver collect target size L (Ret ODFS_OK) l0 = Ret (ODFS_OK, Some size, l0 ++ map entry_node L).
Proof.
  revert lo l0. induction L as [|[[s n] o] L IH]; intros lo l0; cbn [deliver ascending].
  - intros _ _. by rewrite app_nil_r.
  - intros [Hs HL] Hlo. rewrite (proj2 (Z.ltb_ge s target)) by lia. cbn.
    rewrite (IH o) by (done || lia). by rewrite <- app_assoc.
Qed.

Lemma deliver_take_first lo k size L e l0 :
  ascending lo L → 0 ≤ lo → (length l0 < k ≤ length l0 + length L)%nat →
  ∃ s n next, L !! (k - length l0 - 1)%nat = Some (s, n, next) ∧
    deliver (take_first k) 0 size L e l0 =
      Ret (ODFS_ERR_EOF, Some next, l0 ++ take (k - length l0) (map entry_node L)).
Proof.
  revert lo l0. induction L as [|[[s n] o] L IH]; intros lo l0; cbn [deliver ascending]; [simpl; lia|].
  intros [Hs HL] Hlo Hk. rewrite (proj2 (Z.ltb_ge s 0)) by lia. unfold take_first at 1.
  rewrite length_app. simpl (length [n]). case_bool_decide as Heq.
  - exists s, n, o. replace (k - length l0)%nat with 1%nat by lia. done.
  - change (err_ok ODFS_OK) with true. cbv iota. simpl length in Hk.
    destruct (IH o (l0 ++ [n])) as (s' & n' & next & Hj & Hd); [done|lia|rewrite length_app; simpl; lia|].
    rewrite length_app in Hj, Hd. simpl (length [n]) in Hj, Hd.
    exists s', n', next. split.
    + replace (k - length l0 - 1)%nat with (S (k - (length l0 + 1) - 1))%nat by lia. done.
    + rewrite Hd, <- app_assoc. replace (k - length l0)%nat with (S (k - (length l0 + 1)))%nat by lia. done.
Qed.

(** Resuming at the end of the [j]-th entry delivers the others. *)
Lemma deliver_collect_from lo j s n next size L l0 :
  ascending lo L → L !! j = Some (s, n, next) →
  deliver collect next size L (Ret ODFS_OK) l0 = Ret (ODFS_OK, Some size, l0 ++ map entry_node (drop (S j) L)).
Proof.
  revert lo j l0. induction L as [|[[s' n'] o] L IH]; intros lo j l0; [done|]. cbn [deliver ascending].
  intros [Hs HL] Hj. assert (Hlt : s' < next).
  { destruct j as [|j]; [injection Hj as <- <- <-; lia|].
    pose proof (ascending_lt _ _ _ _ _ _ HL Hj). lia. }
  rewrite (proj2 (Z.ltb_lt s' next)) by done. destruct j as [|j].
  - injection Hj as <- <- <-. simpl drop. rewrite drop_0. by eapply deliver_collect_all.
  - simpl. by eapply IH.
Qed.
Lemma deliver_anon cookie size L L' e l0 l0' r l' :
  map anon_entry L = map anon_entry L' → map anon l0 = map anon l0' →
  deliver collect cookie size L e l0 = Ret (ODFS_OK, r, l') →
  ∃ l2, deliver collect cookie size L' e l0' = Ret (ODFS_OK, r, l2) ∧ map anon l' = map anon l2.
Proof.
  revert L' l0 l0'. induction L as [|[[s n] o] L IH]; intros [|[[s' n'] o'] L'] l0 l0' HL Hl; try done; cbn [deliver].
  - destruct e as [e| |]; try done. intros [= -> <- <-]. by exists l0'.
  - cbn [map] in HL. apply (inj2 cons) in HL as [He HL].
    pose proof (f_equal entry_node He : anon n = anon n') as Hn.
    pose proof (f_equal (λ x, x.1.1) He : s = s') as <-. case_test; [by apply IH|]. cbn. apply IH; [done|].
    rewrite !map_app, Hl. cbn [map]. by rewrite Hn.
Qed.

(** ** Scans of a disc are ascending *)
Section disc_scan.
Context (img : Z → list Z) (Hbytes : ∀ l, Forall is_byte (img l)) (Hsec : ∀ l, zlen (img l) = 2048).
Context (malloc : nat → Z → bool) (dir : odfs_node) (Hsize : length_ (extent dir) ≤ MAX_DIR).
#[local] Existing Instance disc.

Lemma scan_all_ascending fuel o (s : scan_state unit) :
  scan_ok (λ _, True) (λ _ _, True) s → 0 ≤ o → ascending o (scan_all (HO := disc img) malloc fuel dir o s).1.
Proof.
  pose proof (disc_cache_laws img 2048 Hsec) as HL. pose proof (disc_cache_clean img 2048) as HF.
  revert o s. induction fuel as [|fuel IH]; intros o s Hs Ho; [done|]. cbn [scan_all].
  case_test; [done|]. b2p.
  pose proof (dir_step_lands (HO := disc img) img (λ _, True) (λ _, True) (λ _ _, True) Hbytes malloc dir o s
    Hs Hsize ltac:(lia)) as Hstep.
  destruct (dir_step malloc dir o s) as [[item s1]| |]; try done.
  destruct Hstep as (Hs1 & _ & _ & Hit). simpl in Hit. destruct item as [o1|n o1|e]; [| |done].
  - destruct Hit as [Hit _]. apply (ascending_mono o1); [lia|]. apply IH; [done|lia].
  - destruct Hit as [Hit _]. specialize (IH o1 s1 Hs1 ltac:(lia)). destruct (scan_all malloc fuel dir o1 s1). simpl in *.
    split; [lia|done].
Qed.
End disc_scan.

(** ** Stopping and going on *)
Section resume.
Context {C : Type} {HO : CacheOps C} (img : Z → list Z) (inv ok : C → Prop) (ptr : C → Z → Prop) (readable : Z → Prop).
Context {HL : CacheLaws C img 2048 inv ok ptr} {HF : CacheCleanFailure C ok ptr} {HR : CacheReadable C ok readable}.
Context (Hbytes : ∀ l, Forall is_byte (img l)).
Context (malloc : nat → Z → bool) (dir : odfs_node) (Hsize : length_ (extent dir) ≤ MAX_DIR).
Context (Hreadable : ∀ o, 0 ≤ o < length_ (extent dir) → readable (u32 (lba (extent dir) + o / ISO_SECTOR_SIZE))).
(** The scan of the disc itself. *)
Definition disc_scan (ctx : iso_context) : list (Z * odfs_node * Z) * outcome odfs_err :=
  scan_all (HO := disc img) malloc (S (Z.to_nat (length_ (extent dir)))) dir 0 (mk_scan tt ctx odfs_namefix_init None).

(** A run through the cache is the callback on the disc's entries. *)
Lemma readdir_on_disc {T} (cb : odfs_node → T → odfs_err * T) ctx c t r0 :
  ok c → rr_areas_ok img dir readable ctx →
  (λ '(e, r, _, _, t), (e, r, t)) <$> odfs_iso_readdir malloc cb ctx c dir t r0 =
  (λ '(e, r, t), (e, match r0 with None => None | Some r1 => Some (default r1 r) end, t)) <$>
    deliver cb (default 0 r0) (length_ (extent dir)) (disc_scan ctx).1 (disc_scan ctx).2 t.
Proof.
  intros Hok Hp. rewrite (readdir_sim img inv ok ptr readable malloc dir Hsize Hreadable ctx Hp Hbytes cb ctx c t r0 Hok (same_mount_refl _)).
  by rewrite readdir_deliver.
Qed.

Lemma disc_scan_ascending ctx : 0 ≤ rr_skip ctx → ascending 0 (disc_scan ctx).1.
Proof.
  intros. apply scan_all_ascending; [done| |done| |lia].
  - intros l. apply cl_sector.
  - by split; [|intros ? ? ?|apply namefix_init_wf|].
Qed.

Lemma resume_splits ctx c r ctx0 c0 l k :
  rr_areas_ok img dir readable ctx → 0 ≤ rr_skip ctx → ok c → (0 < k ≤ length l)%nat →
  odfs_iso_readdir malloc collect ctx c dir [] None = Ret (ODFS_OK, r, ctx0, c0, l) →
  ∃ cookie ctx1 c1 r2 ctx2 c2 l2,
    odfs_iso_readdir malloc (take_first k) ctx c dir [] (Some 0) =
      Ret (ODFS_ERR_EOF, Some cookie, ctx1, c1, take k l) ∧
    odfs_iso_readdir malloc collect ctx1 c1 dir [] (Some cookie) = Ret (ODFS_OK, r2, ctx2, c2, l2) ∧
    map anon l2 = map anon (drop k l).
Proof.
  intros Hplain Hskip Hok Hk Hl. pose proof (disc_scan_ascending ctx Hskip) as Hasc.
  pose proof (readdir_on_disc collect ctx c [] None Hok Hplain) as H0. rewrite Hl in H0. symmetry in H0.
  apply fmap_Ret in H0 as ([[e0 r0] l0] & H0 & [= -> _ ->]). simpl (default 0 None) in H0.
  assert (He : (disc_scan ctx).2 = Ret ODFS_OK) by (apply deliver_collect in H0 as (? & _ & ? & _); done).
  rewrite He in H0. rewrite (deliver_collect_all 0) in H0 by (done || lia). injection H0 as _ <-.
  destruct (deliver_take_first 0 k (length_ (extent dir)) (disc_scan ctx).1 (Ret ODFS_OK) [] Hasc)
    as (s & n & cookie & Hj & H1); [lia|rewrite length_map in Hk; simpl; lia|].
  simpl in Hj, H1. rewrite Nat.sub_0_r in Hj, H1.
  pose proof (readdir_on_disc (take_first k) ctx c [] (Some 0) Hok Hplain) as R1.
  simpl (default 0 (Some 0)) in R1. rewrite He, H1 in R1.
  apply fmap_Ret in R1 as ([[[[e1 r1] ctx1] c1] l1] & R1 & [= -> -> ->]).
  assert (Hst : ok c1 ∧ same_mount ctx ctx1).
  { pose proof (readdir_keeps malloc img inv ok ptr (take_first k) ctx c dir [] (Some 0) HL HF Hbytes Hok Hskip Hsize) as Hls.
    by rewrite R1 in Hls. }
  destruct Hst as [Hok1 [m Hm]].
  assert (Hp1 : rr_areas_ok img dir readable ctx1) by (eapply rr_areas_renumbered; [by exists m|exact Hplain]).
  assert (Hanon : map anon_entry (disc_scan ctx).1 = map anon_entry (disc_scan ctx1).1 ∧
    (disc_scan ctx).2 = (disc_scan ctx1).2).
  { apply scan_all_anon. split; try done. by exists m. }
  destruct Hanon as [Ha Hb]. rewrite He in Hb.
  pose proof (deliver_collect_from 0 (k - 1) s n cookie (length_ (extent dir)) _ [] Hasc Hj) as H2.
  destruct (deliver_anon cookie _ _ _ _ [] [] _ _ Ha eq_refl H2) as (l2 & H3 & Hl2).
  pose proof (readdir_on_disc collect ctx1 c1 [] (Some cookie) Hok1 Hp1) as R2.
  simpl (default 0 (Some cookie)) in R2. rewrite <- Hb, H3 in R2.
  apply fmap_Ret in R2 as ([[[[e2 r2] ctx2] c2] l2'] & R2 & [= -> -> ->]).
  eexists cookie, ctx1, c1, _, ctx2, c2, l2. split_and!; [exact R1|exact R2|].
  rewrite <- Hl2. simpl app. f_equal. rewrite <- skipn_map. f_equal. lia.
Qed.
End resume.
