(* ===== verification/IsoSpec.v ===== *)
(** * What the ISO 9660 backend guarantees

    The theorems on enumeration, lookup and reads, with a small disc on which they
    apply: a root directory at sector 20 with the files [A.TXT] and [B]. *)
From S2P Require Import Prelude Types Strings Namefix Media CacheApi Charset RockRidge RockRidgeProofs.
From S2P Require Import RockRidgeTotal RockRidgeTransparent Iso9660 IsoScan IsoReaddir IsoTransparent IsoResume.
From S2P Require Import BlockCache BlockCacheProofs BlockCacheRead BlockCacheSpec.
Open Scope Z_scope.

(** ** Directory records as the standard lays them out *)
Definition le32_bytes (v : Z) : list Z := [v mod 256; v / 256 mod 256; v / 65536 mod 256; v / 16777216 mod 256].
Definition pad_bytes (ident : list Z) : list Z := if Z.land (zlen ident) 1 =? 0 then [0] else [].
(** A record: extent, length, date, flags, identifier, no System Use Area. *)
Definition encode_record (l n flags : Z) (d : odfs_timestamp) (ident : list Z) : list Z :=
  [33 + zlen ident + zlen (pad_bytes ident); 0] ++ le32_bytes l ++ rev (le32_bytes l) ++ le32_bytes n ++
  rev (le32_bytes n) ++ [year d - 1900; month d; day d; hour d; minute d; second d; u8 (tz_offset d / 15)] ++
  [flags; 0; 0; 1; 0; 0; 1; zlen ident] ++ ident ++ pad_bytes ident.

Lemma pad_bytes_len ident :
  0 ≤ zlen (pad_bytes ident) ≤ 1 ∧
  (if Z.land (zlen ident) 1 =? 0 then 33 + zlen ident + 1 else 33 + zlen ident)
    = 33 + zlen ident + zlen (pad_bytes ident).
Proof. unfold pad_bytes. case_test; simpl; lia. Qed.

(** A date a record can hold. *)
Definition recordable (d : odfs_timestamp) : Prop :=
  ∃ q, tz_offset d = 15 * q ∧ -128 ≤ q < 128.

Lemma le32_of_bytes v : is_u32 v →
  le32 (v mod 256) (v / 256 mod 256) (v / 65536 mod 256) (v / 16777216 mod 256) = v.
Proof.
  intros Hv. unfold is_u32 in Hv. rewrite le32_add; unfold is_byte; try (apply Z.mod_pos_bound; lia). dlia.
Qed.
Lemma tz_quarter q : -128 ≤ q < 128 → s16 (s8 (u8 q) * 15) = 15 * q.
Proof.
  intros Hq. unfold s16, s8, u8, u16. repeat case_test; b2p; dlia.
Qed.

(** ** A disc *)
Definition demo_date : odfs_timestamp := mk_timestamp 1994 7 20 12 30 59 (-60).
Definition demo_dir : list Z :=
  encode_record 20 2048 2 demo_date [0] ++ encode_record 20 2048 2 demo_date [1] ++
  encode_record 30 5 0 demo_date [65; 46; 84; 88; 84; 59; 49] ++ encode_record 31 3000 0 demo_date [66; 59; 49].
Definition pad_sector (s : list Z) : list Z := take 2048 (s ++ replicate 2048 0).
Definition demo_disc (l : Z) : list Z :=
  if l =? 20 then pad_sector demo_dir
  else if l =? 30 then pad_sector [72; 101; 108; 108; 111] else replicate 2048 7.
Definition demo_ctx : iso_context :=
  mk_iso (mk_pvd [] [] 0 2048 0 20 2048 []) 0 1 false false false false 0 node_zero.
Definition demo_root : odfs_node := odfs_iso_dir_stub ODFS_BACKEND_ISO9660 20 2048.
Definition demo_malloc (_ : nat) (_ : Z) : bool := true.

Example demo_names :
  match odfs_iso_readdir (H := disc_cache demo_disc 2048) demo_malloc collect demo_ctx tt demo_root [] None with
  | Ret (e, _, _, _, l) => (e, map name l) | _ => (ODFS_ERR_IO, []) end
  = (ODFS_OK, [[65; 46; 84; 88; 84]; [66]]).
Proof. vm_compute. reflexivity. Qed.

Lemma demo_disc_bytes l : Forall is_byte (demo_disc l).
Proof.
  assert (Hall : ∀ s, forallb (λ b, (0 <=? b) && (b <? 256)) s = true → Forall is_byte s).
  { intros s Hs. apply Forall_forall. intros b Hb. rewrite forallb_forall in Hs.
    apply list_elem_of_In in Hb. specialize (Hs b Hb). unfold is_byte. b2p. lia. }
  unfold demo_disc. repeat case_test; apply Hall; vm_compute; reflexivity.
Qed.
Lemma demo_disc_laws :
  CacheLaws unit (H := disc_cache demo_disc 2048) demo_disc 2048 (λ _, True) (λ _, True) (λ _ _, True).
Proof.
  apply disc_cache_laws. intros l. unfold demo_disc. repeat case_test; vm_compute; reflexivity.
Qed.

(** ** Enumeration *)

(** [C23] Enumerating a directory ends, on any disc and for any callback, as long as
    the directory is at most [2 ^ 32 - 2048] bytes long: every round moves the
    offset forward and no offset wraps around. *)
Theorem iso_readdir_terminates {C} {HO : CacheOps C} img inv ok ptr malloc {T}
    (cb : odfs_node → T → odfs_err * T) ctx (c : C) dir t resume :
  CacheLaws C img 2048 inv ok ptr → CacheCleanFailure C ok ptr → (∀ l, Forall is_byte (img l)) →
  ok c → 0 ≤ rr_skip ctx → length_ (extent dir) ≤ MAX_DIR →
  odfs_iso_readdir malloc cb ctx c dir t resume ≠ Diverge.
Proof.
  intros HL HF Hb Hok Hs HD Hdiv.
  pose proof (readdir_lands img inv ok ptr Hb malloc cb ctx c dir t resume Hok Hs HD) as H.
  rewrite readdir_recording in Hdiv.
  by destruct (odfs_iso_readdir malloc (recording cb) _ _ _ _ _) as [[[[[? ?] ?] ?] [? ?]]| |].
Qed.
Lemma iso_readdir_terminates_witness :
  odfs_iso_readdir (H := disc_cache demo_disc 2048) demo_malloc collect demo_ctx tt demo_root [] (Some 7)
    ≠ Diverge.
Proof.
  apply (iso_readdir_terminates (HO := disc_cache demo_disc 2048) demo_disc (λ _, True) (λ _, True)
    (λ _ _, True) demo_malloc collect demo_ctx tt demo_root [] (Some 7));
    [apply demo_disc_laws|apply disc_cache_clean|apply demo_disc_bytes|exact I|simpl; lia|].
  unfold MAX_DIR, ISO_SECTOR_SIZE. simpl. lia.
Defined.

(** Beyond that size it need not end: on a directory of zeros the offset wraps
    around at [2 ^ 32], and no number of rounds is enough. *)
Theorem iso_readdir_wraps malloc {T} (cb : odfs_node → T → odfs_err * T) fuel ctx dir t :
  MAX_DIR < length_ (extent dir) →
  readdir_loop (H := disc_cache (λ _, replicate 2048 0) 2048) malloc cb fuel dir 0 0
    (mk_scan tt ctx odfs_namefix_init None) t = Diverge.
Proof.
  intros HD.
  enough (Hall : ∀ offset h, 0 ≤ offset ≤ MAX_DIR → offset mod 2048 = 0 →
    (∀ p l g, h = Some (p, l, g) → True) →
    readdir_loop (H := disc_cache (λ _, replicate 2048 0) 2048) malloc cb fuel dir 0 offset
      (mk_scan tt ctx odfs_namefix_init h) t = Diverge).
  { by apply Hall; [unfold MAX_DIR, ISO_SECTOR_SIZE; lia|..]. }
  induction fuel as [|fuel IH]; intros offset h Ho Hm _; [done|]. cbn [readdir_loop].
  rewrite (proj2 (Z.leb_gt _ _)) by lia.
  assert (Hstep : ∃ h', dir_step (H := disc_cache (λ _, replicate 2048 0) 2048) malloc dir offset
    (mk_scan tt ctx odfs_namefix_init h) = Ret (DirSkip (next_sector offset), mk_scan tt ctx odfs_namefix_init h')).
  { unfold dir_step. cbv zeta.
    destruct (iso_hold (H := disc_cache (λ _, replicate 2048 0) 2048) tt h _) as [[[err p] h'] []] eqn:Hh.
    assert (err = ODFS_OK) as ->.
    { revert Hh. unfold iso_hold. destruct h as [[[q l] g]|]; cbn; [case_test|]; by intros [= <- _ _]. }
    exists h'. change ISO_SECTOR_SIZE with 2048. rewrite Hm. reflexivity. }
  destruct Hstep as [h' ->]. cbn. apply IH; [| |done].
  - unfold next_sector, MAX_DIR, ISO_SECTOR_SIZE, u32 in *. dlia.
  - unfold next_sector, ISO_SECTOR_SIZE, u32. dlia.
Qed.
Lemma iso_readdir_wraps_witness :
  readdir_loop (H := disc_cache (λ _, replicate 2048 0) 2048) demo_malloc collect 5000
    (odfs_iso_dir_stub ODFS_BACKEND_ISO9660 20 UINT32_MAX) 0 0
    (mk_scan tt demo_ctx odfs_namefix_init None) [] = Diverge.
Proof. apply iso_readdir_wraps. vm_compute. reflexivity. Defined.

(** [C9] Whatever the disc holds, the entries a callback receives from one
    enumeration have pairwise different names up to case, names that are C strings
    within the name buffer, and the directory as their parent; the mount context
    only counts nodes, and the cache stays coherent. *)
Theorem iso_readdir_entries {C} {HO : CacheOps C} img inv ok ptr malloc {T}
    (cb : odfs_node → T → odfs_err * T) ctx (c : C) dir t resume e r ctx' c' t' l :
  CacheLaws C img 2048 inv ok ptr → CacheCleanFailure C ok ptr → (∀ l, Forall is_byte (img l)) →
  ok c → 0 ≤ rr_skip ctx → length_ (extent dir) ≤ MAX_DIR →
  odfs_iso_readdir malloc (recording cb) ctx c dir (t, []) resume = Ret (e, r, ctx', c', (t', l)) →
  distinct_names l ∧
  (∀ n, n ∈ l → is_name (name n) ∧ zlen (name n) < ODFS_NAME_MAX ∧ parent_id n = id dir) ∧
  (∃ k, ctx' = set_next_node_id k ctx) ∧ ok c'.
Proof.
  intros HL HF Hb Hok Hs HD Hr.
  pose proof (readdir_lands img inv ok ptr Hb malloc cb ctx c dir t resume Hok Hs HD) as H.
  rewrite Hr in H. destruct H as (Hok' & Hm & Hd & He). split_and!; try done.
  intros n [[? ?] ?]%He. done.
Qed.
Lemma iso_readdir_entries_witness :
  ∃ e r ctx' c' l,
    odfs_iso_readdir (H := disc_cache demo_disc 2048) demo_malloc (recording (λ _ u, (ODFS_OK, u)))
      demo_ctx tt demo_root (tt, []) None = Ret (e, r, ctx', c', (tt, l)) ∧
    map name l = [[65; 46; 84; 88; 84]; [66]] ∧ distinct_names l.
Proof.
  destruct (odfs_iso_readdir (H := disc_cache demo_disc 2048) demo_malloc (recording (λ _ u, (ODFS_OK, u)))
      demo_ctx tt demo_root (tt, []) None) as [[[[[e r] ctx'] []] [[] l]]| |] eqn:Hr.
  - exists e, r, ctx', tt, l. split; [done|]. split.
    + transitivity (match odfs_iso_readdir (H := disc_cache demo_disc 2048) demo_malloc
          (recording (λ _ u, (ODFS_OK, u))) demo_ctx tt demo_root (tt, []) None with
        | Ret (_, _, _, _, (_, l)) => map name l | _ => [] end); [by rewrite Hr|vm_compute; reflexivity].
    + eapply (iso_readdir_entries (HO := disc_cache demo_disc 2048) demo_disc (λ _, True) (λ _, True)
        (λ _ _, True)); [apply demo_disc_laws|apply disc_cache_clean|apply demo_disc_bytes|exact I| | |exact Hr].
      * simpl. lia.
      * unfold MAX_DIR, ISO_SECTOR_SIZE. simpl. lia.
  - exfalso. revert Hr. vm_compute. discriminate.
  - exfalso. revert Hr. vm_compute. discriminate.
Defined.

(** [C11] Lookup and enumeration agree: when a directory lists completely, looking
    up a name, in any case, finds exactly the entry listed under it, with all its
    fields, and a name that is not listed is [ODFS_ERR_NOT_FOUND]. *)
Theorem iso_lookup_roundtrip {C} {HO : CacheOps C} img inv ok ptr malloc ctx (c : C) dir r ctx' c' l nm :
  CacheLaws C img 2048 inv ok ptr → CacheCleanFailure C ok ptr → (∀ l, Forall is_byte (img l)) →
  ok c → 0 ≤ rr_skip ctx → length_ (extent dir) ≤ MAX_DIR → is_name nm →
  odfs_iso_readdir malloc collect ctx c dir [] None = Ret (ODFS_OK, r, ctx', c', l) →
  (∀ n, n ∈ l → name_equiv (name n) nm →
     ∃ ctx2 c2, odfs_iso_lookup malloc ctx c dir nm = Ret (ODFS_OK, Some n, ctx2, c2)) ∧
  ((∀ n, n ∈ l → ¬ name_equiv (name n) nm) →
     ∃ ctx2 c2, odfs_iso_lookup malloc ctx c dir nm = Ret (ODFS_ERR_NOT_FOUND, None, ctx2, c2)).
Proof.
  intros HL HF Hb Hok Hs HD Hnm Hl.
  destruct (lookup_listing malloc ctx c dir r ctx' c' l Hl) as [(r' & ctx2 & c2 & Hrec) Hlook].
  pose proof (readdir_lands img inv ok ptr Hb malloc (λ _ u, (ODFS_OK, u)) ctx c dir tt None Hok Hs HD) as H.
  rewrite Hrec in H. destruct H as (_ & _ & Hd & He). destruct (Hlook nm) as (ctx3 & c3 & Hfind).
  assert (Hmem : ∀ n, n ∈ named nm l ↔ n ∈ l ∧ name_equiv (name n) nm).
  { intros n. unfold named. rewrite list_elem_of_filter. split.
    - intros [Hc Hin]. split; [done|]. apply strcasecmp_spec; [by apply He|done|done].
    - intros [Hin Hc]. split; [|done]. apply strcasecmp_spec; [by apply He|done|done]. }
  split.
  - intros n Hin Heq. exists ctx3, c3. rewrite Hfind.
    destruct (named nm l) as [|m ms] eqn:Hms.
    { assert (n ∈ []) as []%elem_of_nil by by apply Hmem. }
    assert (Hm : m ∈ l ∧ name_equiv (name m) nm) by (apply Hmem; by left).
    destruct Hm as [Hm Hmeq]. apply list_elem_of_lookup in Hm as [i Hi], Hin as [j Hj].
    assert (i = j) as <- by (eapply Hd; [done..|]; by rewrite Hmeq, Heq). congruence.
  - intros Hno. exists ctx3, c3. rewrite Hfind. destruct (named nm l) as [|m ms] eqn:Hms; [done|].
    assert (m ∈ l ∧ name_equiv (name m) nm) as [Hm1 Hm2] by (apply Hmem; by left). by destruct (Hno m).
Qed.
Lemma iso_lookup_roundtrip_witness :
  ∃ n ctx2 c2, odfs_iso_lookup (H := disc_cache demo_disc 2048) demo_malloc demo_ctx tt demo_root
    [97; 46; 116; 120; 116] = Ret (ODFS_OK, Some n, ctx2, c2) ∧ lba (extent n) = 30 ∧ size n = 5.
Proof.
  destruct (odfs_iso_readdir (H := disc_cache demo_disc 2048) demo_malloc collect demo_ctx tt demo_root [] None)
    as [[[[[e r] ctx'] []] l]| |] eqn:Hr; [|exfalso; revert Hr; vm_compute; discriminate..].
  assert (He : e = ODFS_OK ∧ map (λ n, (name n, lba (extent n), size n)) l
    = [([65; 46; 84; 88; 84], 30, 5); ([66], 31, 3000)]).
  { change (match @Ret (odfs_err * option Z * iso_context * unit * list odfs_node) (e, r, ctx', tt, l) with
      | Ret (e, _, _, _, l) => e = ODFS_OK ∧ map (λ n, (name n, lba (extent n), size n)) l
          = [([65; 46; 84; 88; 84], 30, 5); ([66], 31, 3000)] | _ => False end).
    rewrite <- Hr. vm_compute. by split. }
  destruct He as [-> Hl]. destruct l as [|a [|b [|]]]; try discriminate Hl. injection Hl as Hn Hb Hs _ _ _.
  destruct (iso_lookup_roundtrip (HO := disc_cache demo_disc 2048) demo_disc (λ _, True) (λ _, True)
    (λ _ _, True) demo_malloc demo_ctx tt demo_root r ctx' tt [a; b] [97; 46; 116; 120; 116]) as [Hfound _];
    [apply demo_disc_laws|apply disc_cache_clean|apply demo_disc_bytes|exact I|simpl; lia| | |exact Hr|].
  - unfold MAX_DIR, ISO_SECTOR_SIZE. simpl. lia.
  - repeat constructor; lia.
  - destruct (Hfound a) as (ctx2 & c2 & H); [by left|by rewrite Hn|]. exists a, ctx2, c2. exact (conj H (conj Hb Hs)).
Defined.

(** ** Reading a file *)

(** A successful read of a file returns as many bytes as were asked for and
    the file still has from the offset on, namely those the disc holds in the
    file's extent, leaves the rest of the buffer alone and the cache coherent;
    whatever happens, it claims no more bytes than asked for. *)
Theorem odfs_iso_read_exact {C} {HO : CacheOps C} img inv ok ptr (c : C) file offset buf len err buf' n c' :
  CacheLaws C img 2048 inv ok ptr → ok c → is_u32 (lba (extent file)) →
  lba (extent file) + size file / 2048 < 2 ^ 32 → 0 ≤ offset → 0 ≤ len ≤ zlen buf →
  odfs_iso_read c file offset buf len = (err, buf', n, c') →
  0 ≤ n ≤ len ∧
  (err = ODFS_OK →
     n = Z.max 0 (Z.min len (size file - offset)) ∧
     take (Z.to_nat n) buf' = disc_bytes img 2048 (lba (extent file) * 2048 + offset) n ∧
     drop (Z.to_nat n) buf' = drop (Z.to_nat n) buf ∧ ok c').
Proof. apply iso_read_ok. Qed.
Lemma odfs_iso_read_exact_witness :
  let '(err, buf, n, _) := odfs_iso_read (H := disc_cache demo_disc 2048) tt
    (set_size 5 (set_extent (mk_extent 30 5) node_zero)) 1 (replicate 10 0) 10 in
  err = ODFS_OK ∧ n = 4 ∧ take 4 buf = [101; 108; 108; 111].
Proof.
  set (file := set_size 5 (set_extent (mk_extent 30 5) node_zero)).
  destruct (odfs_iso_read (H := disc_cache demo_disc 2048) tt file 1 (replicate 10 0) 10)
    as [[[err buf] n] c'] eqn:Hr.
  assert (Hn : (err, n) = (ODFS_OK, 4)) by
    (transitivity (let '(e, _, k, _) := odfs_iso_read (H := disc_cache demo_disc 2048) tt file 1 (replicate 10 0) 10
       in (e, k)); [by rewrite Hr|vm_compute; reflexivity]).
  injection Hn as -> ->.
  destruct (odfs_iso_read_exact (HO := disc_cache demo_disc 2048) demo_disc (λ _, True) (λ _, True)
    (λ _ _, True) tt file 1 (replicate 10 0) 10 ODFS_OK buf 4 c') as [_ H];
    [apply demo_disc_laws|exact I|unfold is_u32, file; simpl; lia|vm_compute; reflexivity|lia|simpl; lia|exact Hr|].
  destruct (H eq_refl) as (_ & Ht & _). split_and!; [done|done|].
  change (take 4 buf) with (take (Z.to_nat 4) buf). rewrite Ht. vm_compute. reflexivity.
Defined.

(** ** Records *)

(** A directory record laid out as the standard says parses to its fields:
    extent (made absolute with the session's start), length, kind, recording date,
    and the name its identifier stands for; the whole record is consumed, one node
    number is taken, and no System Use Area is reported. *)
Theorem iso_record_roundtrip ctx l n flags d ident rest nm avail :
  is_u32 l → is_u32 n → is_byte flags → recordable d → high_sierra ctx = false → zlen ident ≤ 220 →
  iso_record_name ctx ident = Ret nm → zlen (encode_record l n flags d ident) ≤ avail →
  iso_parse_dir_record (encode_record l n flags d ident ++ rest) avail ctx =
    Ret (Some (mk_rec
      (mk_node (next_node_id ctx) 0 (if joliet ctx then ODFS_BACKEND_JOLIET else ODFS_BACKEND_ISO9660)
         (if has_flag flags 2 then ODFS_NODE_DIR else ODFS_NODE_FILE) nm n d d 0 amiga_as_zero
         (mk_extent (u32 (l + session_start ctx)) n) 0)
      (zlen (encode_record l n flags d ident)) None), set_next_node_id (u32 (next_node_id ctx + 1)) ctx).
Proof.
  intros Hl Hn Hf (q & Htz & Hq) Hhs Hid Hnm Hav.
  assert (Hlen : zlen (encode_record l n flags d ident) = 33 + zlen ident + zlen (pad_bytes ident)).
  { unfold encode_record. rewrite !length_app. simpl. lia. }
  rewrite Hlen in *. pose proof (pad_bytes_len ident) as Hpad.
  unfold encode_record. rewrite <- !app_assoc. fold (pad_bytes ident).
  set (N := 33 + zlen ident + zlen (pad_bytes ident)) in *.
  set (tail := ident ++ pad_bytes ident ++ rest). cbn [app rev le32_bytes].
  match goal with |- iso_parse_dir_record ?D _ _ = _ => set (data := D) end.
  assert (Htail : zlen data = 33 + zlen tail) by (subst data; simpl; lia).
  assert (Htl : zlen tail = zlen ident + zlen (pad_bytes ident) + zlen rest)
    by (subst tail; rewrite !length_app; lia).
  unfold iso_parse_dir_record. rewrite (proj2 (Z.ltb_ge avail 1)) by lia.
  change (rd data 0) with (Ret N). cbn [mbind outcome_bind].
  rewrite (proj2 (Z.eqb_neq N 0)), (proj2 (Z.ltb_ge N 33)), (proj2 (Z.ltb_ge avail N)) by lia.
  change (rd data 32) with (Ret (zlen ident)). cbn [mbind outcome_bind orb].
  rewrite (proj2 (Z.ltb_ge N _)) by lia.
  assert (Hlba : iso_read_le32 data 2 = Ret l)
    by (transitivity (Ret (le32 (l mod 256) (l / 256 mod 256) (l / 65536 mod 256) (l / 16777216 mod 256)));
        [reflexivity|by rewrite le32_of_bytes]).
  assert (Hsize : iso_read_le32 data 10 = Ret n)
    by (transitivity (Ret (le32 (n mod 256) (n / 256 mod 256) (n / 65536 mod 256) (n / 16777216 mod 256)));
        [reflexivity|by rewrite le32_of_bytes]).
  assert (Hdate : iso_parse_dir_date (mem_at data 18) false = Ret d).
  { unfold mem_at. rewrite (proj2 (Z.leb_le _ _)) by lia.
    transitivity (Ret (mk_timestamp (1900 + (year d - 1900)) (month d) (day d) (hour d) (minute d) (second d)
      (s16 (s8 (u8 (tz_offset d / 15)) * 15)))); [reflexivity|]. f_equal.
    replace (tz_offset d / 15) with q by dlia. rewrite tz_quarter by done. rewrite <- Htz.
    replace (1900 + (year d - 1900)) with (year d) by lia. by destruct d. }
  assert (Hident : rd_range data 33 (zlen ident) = Ret ident).
  { rewrite rd_range_ok by lia. unfold slice. change (drop (Z.to_nat 33) data) with tail.
    subst tail. by rewrite take_app_length' by lia. }
  cbv zeta. rewrite Hlba. cbn [mbind outcome_bind]. rewrite Hsize. cbn [mbind outcome_bind].
  change (high_sierra (set_next_node_id _ ctx)) with (high_sierra ctx). rewrite Hhs.
  change (rd data 25) with (Ret flags). cbn [mbind outcome_bind]. rewrite Hdate. cbn [mbind outcome_bind].
  rewrite Hident. cbn [mbind outcome_bind].
  change (iso_record_name (set_next_node_id _ ctx) ident) with (iso_record_name ctx ident). rewrite Hnm.
  cbn [mbind outcome_bind negb andb joliet session_start set_next_node_id]. destruct Hpad as [_ ->].
  by rewrite (proj2 (Z.ltb_ge _ N)) by (subst N; lia).
Qed.
Lemma iso_record_roundtrip_witness :
  ∃ r ctx', iso_parse_dir_record (encode_record 30 5 0 demo_date [65; 46; 84; 88; 84; 59; 49] ++ [9; 9]) 100 demo_ctx
    = Ret (Some r, ctx') ∧ name (rec_node r) = [65; 46; 84; 88; 84] ∧ lba (extent (rec_node r)) = 30.
Proof.
  eexists _, _. split.
  - apply (iso_record_roundtrip demo_ctx 30 5 0 demo_date [65; 46; 84; 88; 84; 59; 49] [9; 9] [65; 46; 84; 88; 84] 100);
      [unfold is_u32; lia|unfold is_u32; lia|unfold is_byte; lia| |reflexivity|simpl; lia|reflexivity|
       vm_compute; discriminate].
    exists (-4). split; [reflexivity|lia].
  - split; reflexivity.
Defined.

(** ** Through the block cache, with Rock Ridge *)

(** A record with a System Use Area. *)
Definition rr_record (l n flags : Z) (ident sua : list Z) : list Z :=
  let r := encode_record l n flags demo_date ident in zset r 0 (zlen r + zlen sua) ++ sua.
(** [PX]: a regular file that its owner may write. *)
Definition px_entry : list Z := [0x50; 0x58; 36; 1; 0xA4; 0x81; 0; 0] ++ replicate 28 0.
(** [A] is called [alpha] and has its mode in a continuation area in sector 40; [B] is
    called [beta]. *)
Definition rr_dir : list Z :=
  encode_record 20 2048 2 demo_date [0] ++ encode_record 20 2048 2 demo_date [1] ++
  rr_record 30 5 0 [65; 59; 49] (nm_entry 0 [97; 108; 112; 104; 97] ++ ce_entry 40 36) ++
  rr_record 31 3000 0 [66; 59; 49] (nm_entry 0 [98; 101; 116; 97]).
Definition rr_disc (l : Z) : list Z :=
  if l =? 20 then pad_sector rr_dir else if l =? 40 then pad_sector px_entry else replicate 2048 7.
Definition rr_ctx : iso_context :=
  mk_iso (mk_pvd [] [] 0 2048 0 20 2048 []) 0 1 false false false true 0 node_zero.
(** The disc in a drive, and a cache of two sectors in front of it. *)
Definition rr_medium : odfs_media_ops unit := image_ops rr_disc 100 2048.
Definition rr_two_sectors : odfs_cache unit := (odfs_cache_init rr_medium (λ _, true) tt 2).2.
Example rr_names :
  match odfs_iso_readdir (H := block_cache_ops rr_medium) demo_malloc collect rr_ctx rr_two_sectors demo_root [] None with
  | Ret (e, _, _, _, l) => (e, map (λ n, (name n, mode n)) l) | _ => (ODFS_ERR_IO, []) end
  = (ODFS_OK, [([97; 108; 112; 104; 97], 33188); ([98; 101; 116; 97], 0)]).
Proof. vm_compute. reflexivity. Qed.

Lemma rr_disc_sectors l : Forall is_byte (rr_disc l) ∧ zlen (rr_disc l) = 2048.
Proof.
  assert (Hall : ∀ s, forallb (λ b, (0 <=? b) && (b <? 256)) s && (zlen s =? 2048) = true → Forall is_byte s ∧ zlen s = 2048).
  { intros s [Hs Hz]%andb_true_iff. apply Z.eqb_eq in Hz. split; [|done]. apply Forall_forall. intros b Hb.
    rewrite forallb_forall in Hs. apply list_elem_of_In in Hb. specialize (Hs b Hb). unfold is_byte. b2p. lia. }
  unfold rr_disc. repeat case_test; apply Hall; vm_compute; reflexivity.
Qed.
Lemma rr_medium_reads : MediaReads rr_medium rr_disc 2048.
Proof. apply image_ops_reads; [lia|]. intros l. apply rr_disc_sectors. Qed.
Lemma rr_two_sectors_ok : cache_ok rr_disc 2048 rr_two_sectors.
Proof.
  destruct (cache_init_inv rr_medium (λ _, true) tt 2 rr_two_sectors) as (Hinv & _ & Hss & Hpow & Hsft & _);
    [lia|simpl; lia|vm_compute; reflexivity|].
  unfold cache_ok. split_and!; try done. exists [], (seqZ 0 2). split; [done|]. intros _ i. set_solver.
Qed.
Lemma rr_medium_readable l : (0 <=? l) && (l <? 100) = true → medium_readable rr_medium 2048 l.
Proof.
  intros [H1 H2]%andb_true_iff [] buf Hb. b2p. unfold rr_medium, image_ops. cbn [read_sectors].
  rewrite Hb, (proj2 (Z.leb_le 0 l)), (proj2 (Z.leb_le (l + 1) 100)) by lia. reflexivity.
Qed.
Lemma rr_root_readable o : 0 ≤ o < length_ (extent demo_root) →
  medium_readable rr_medium 2048 (u32 (lba (extent demo_root) + o / ISO_SECTOR_SIZE)).
Proof.
  intros Ho. simpl in Ho. unfold ISO_SECTOR_SIZE. rewrite Z.div_small by lia. by apply rr_medium_readable.
Qed.
Lemma rr_areas : rr_areas_ok rr_disc demo_root (medium_readable rr_medium 2048) rr_ctx.
Proof.
  apply (rr_areas_of_check _ _ _ (λ l, (0 <=? l) && (l <? 100)) _ [0; 34; 68; 142; 187]); [apply rr_medium_readable|vm_compute; reflexivity..].
Qed.

(** [C7] Enumeration through the cache is enumeration of the disc: with a directory of at
    most [MAX_DIR] bytes whose sectors can be read and, on a volume with Rock Ridge,
    System Use Areas in which no entry follows a continuation and whose continuation
    areas can be read ([rr_areas_ok]), a run through any coherent cache, however small,
    gives the callback the same entries in the same order and ends with the same error
    and resume offset as a run that has the whole disc in memory.  Where an entry
    follows a continuation this fails ([rr_parse_depends_on_cache]). *)
Theorem iso_readdir_transparent {C} {HO : CacheOps C} img inv ok ptr readable malloc {T}
    (cb : odfs_node → T → odfs_err * T) ctx (c : C) dir t resume :
  CacheLaws C img 2048 inv ok ptr → CacheReadable C ok readable → (∀ l, Forall is_byte (img l)) →
  (∀ o, 0 ≤ o < length_ (extent dir) → readable (u32 (lba (extent dir) + o / ISO_SECTOR_SIZE))) →
  ok c → rr_areas_ok img dir readable ctx → length_ (extent dir) ≤ MAX_DIR →
  (λ '(e, r, _, _, t), (e, r, t)) <$> odfs_iso_readdir malloc cb ctx c dir t resume =
  (λ '(e, r, _, _, t), (e, r, t)) <$> odfs_iso_readdir (H := disc_cache img 2048) malloc cb ctx tt dir t resume.
Proof.
  intros HL HR Hb Hrd Hok Ha HD.
  by apply (readdir_sim img inv ok ptr readable malloc dir HD Hrd ctx Ha Hb); [|apply same_mount_refl].
Qed.
Lemma iso_readdir_transparent_witness :
  (λ '(e, r, _, _, t), (e, r, t)) <$>
    odfs_iso_readdir (H := block_cache_ops rr_medium) demo_malloc collect rr_ctx rr_two_sectors demo_root [] None =
  (λ '(e, r, _, _, t), (e, r, t)) <$>
    odfs_iso_readdir (H := disc_cache rr_disc 2048) demo_malloc collect rr_ctx tt demo_root [] None.
Proof.
  apply (iso_readdir_transparent (HO := block_cache_ops rr_medium) rr_disc
    (λ c, cache_wf c ∧ sector_size c = 2048) (cache_ok rr_disc 2048) live (medium_readable rr_medium 2048)).
  - apply block_cache_laws; [apply rr_medium_reads|lia].
  - apply block_cache_readable, rr_medium_reads.
  - intros l. apply rr_disc_sectors.
  - apply rr_root_readable.
  - apply rr_two_sectors_ok.
  - apply rr_areas.
  - unfold MAX_DIR, ISO_SECTOR_SIZE. simpl. lia.
Defined.

(** [C10] An enumeration can be stopped and resumed, under the conditions of
    [iso_readdir_transparent], Rock Ridge included: stopped after [k] entries it has
    delivered the first [k] of the listing, and going on from the offset it returned
    delivers the rest, under the same names, though the directory is scanned again
    from its start; only the node numbers differ. *)
Theorem iso_readdir_resume {C} {HO : CacheOps C} img inv ok ptr readable malloc ctx (c : C) dir r ctx0 c0 l k :
  CacheLaws C img 2048 inv ok ptr → CacheCleanFailure C ok ptr → CacheReadable C ok readable →
  (∀ l, Forall is_byte (img l)) →
  (∀ o, 0 ≤ o < length_ (extent dir) → readable (u32 (lba (extent dir) + o / ISO_SECTOR_SIZE))) →
  ok c → rr_areas_ok img dir readable ctx → 0 ≤ rr_skip ctx → length_ (extent dir) ≤ MAX_DIR →
  odfs_iso_readdir malloc collect ctx c dir [] None = Ret (ODFS_OK, r, ctx0, c0, l) →
  (0 < k ≤ length l)%nat →
  ∃ cookie ctx1 c1 r2 ctx2 c2 l2,
    odfs_iso_readdir malloc (take_first k) ctx c dir [] (Some 0) =
      Ret (ODFS_ERR_EOF, Some cookie, ctx1, c1, take k l) ∧
    odfs_iso_readdir malloc collect ctx1 c1 dir [] (Some cookie) = Ret (ODFS_OK, r2, ctx2, c2, l2) ∧
    map anon l2 = map anon (drop k l).
Proof.
  intros HL HF HR Hb Hrd Hok Hp Hs HD Hl Hk.
  by apply (resume_splits img inv ok ptr readable Hb malloc dir HD Hrd ctx c r ctx0 c0).
Qed.
Lemma iso_readdir_resume_witness :
  ∃ cookie ctx1 c1 l1 r2 ctx2 c2 l2,
    odfs_iso_readdir (H := block_cache_ops rr_medium) demo_malloc (take_first 1) rr_ctx rr_two_sectors demo_root [] (Some 0)
      = Ret (ODFS_ERR_EOF, Some cookie, ctx1, c1, l1) ∧
    odfs_iso_readdir (H := block_cache_ops rr_medium) demo_malloc collect ctx1 c1 demo_root [] (Some cookie)
      = Ret (ODFS_OK, r2, ctx2, c2, l2) ∧
    map name l1 = [[97; 108; 112; 104; 97]] ∧ map name l2 = [[98; 101; 116; 97]].
Proof.
  destruct (odfs_iso_readdir (H := block_cache_ops rr_medium) demo_malloc collect rr_ctx rr_two_sectors demo_root [] None)
    as [[[[[e r] ctx'] c'] l]| |] eqn:Hr; [|exfalso; revert Hr; vm_compute; discriminate..].
  assert (He : e = ODFS_OK ∧ map name l = [[97; 108; 112; 104; 97]; [98; 101; 116; 97]]).
  { change (match @Ret (odfs_err * option Z * iso_context * odfs_cache unit * list odfs_node) (e, r, ctx', c', l) with
      | Ret (e, _, _, _, l) => e = ODFS_OK ∧ map name l = [[97; 108; 112; 104; 97]; [98; 101; 116; 97]] | _ => False end).
    rewrite <- Hr. vm_compute. by split. }
  destruct He as [-> Hl]. destruct l as [|a [|b [|]]]; try discriminate Hl. injection Hl as Ha Hb.
  destruct (iso_readdir_resume (HO := block_cache_ops rr_medium) rr_disc (λ c, cache_wf c ∧ sector_size c = 2048)
    (cache_ok rr_disc 2048) live (medium_readable rr_medium 2048) demo_malloc rr_ctx rr_two_sectors demo_root r ctx' c' [a; b] 1)
    as (cookie & ctx1 & c1 & r2 & ctx2 & c2 & l2 & H1 & H2 & H3).
  - apply block_cache_laws; [apply rr_medium_reads|lia].
  - eapply block_cache_clean; [apply rr_medium_reads|apply image_ops_clean].
  - apply block_cache_readable, rr_medium_reads.
  - intros l. apply rr_disc_sectors.
  - apply rr_root_readable.
  - apply rr_two_sectors_ok.
  - apply rr_areas.
  - simpl. lia.
  - unfold MAX_DIR, ISO_SECTOR_SIZE. simpl. lia.
  - exact Hr.
  - simpl. lia.
  - exists cookie, ctx1, c1, [a], r2, ctx2, c2, l2. split; [exact H1|]. split; [exact H2|]. split; [simpl; by rewrite Ha|].
    apply (f_equal (map name)) in H3. rewrite !map_map in H3. simpl in H3. rewrite Hb in H3. exact H3.
Defined.
