(* ===== verification/Backend.v ===== *)
(** * The interface of a format reader ([include/odfs/backend.h])

    A backend is a table of operations over a world [W]: the block cache and the
    heap its private contexts live in.  A context is a pointer, 0 is NULL; an
    operation that may be NULL is an option.  The callback of an enumeration works
    on a state of its own. *)
From S2P Require Import Prelude Types.
Open Scope Z_scope.

(* [src: include/odfs/backend.h:20-21 odfs_dir_iter_fn] *)
Definition odfs_dir_iter_fn (T : Type) : Type := odfs_node → T → odfs_err * T.
(* [src: include/odfs/backend.h:24-28 ODFS_BACKEND_F_CONTIGUOUS] *)
Definition ODFS_BACKEND_F_CONTIGUOUS : Z := 1.

(** An out parameter that need not be written is an option in the result. *)
(* [src: include/odfs/backend.h:30-135 odfs_backend_ops_t] *)
Record odfs_backend_ops (W : Type) : Type := mk_backend {
  backend_type : odfs_backend_type;
  flags : Z;
  (* session start *)
  probe : W → Z → outcome (odfs_err * W);
  (* session start, [*root_out] and [*backend_ctx] before and after *)
  be_mount : W → Z → odfs_node → Z → outcome (odfs_err * odfs_node * Z * W);
  be_unmount : option (W → Z → outcome W);
  (* context, directory, callback and its state, [*resume_offset] unless NULL *)
  be_readdir : option (∀ T, W → Z → odfs_node → odfs_dir_iter_fn T → T → option Z →
    outcome (odfs_err * option Z * W * T));
  (* context, file, offset, buffer, length; the length read *)
  be_read : option (W → Z → odfs_node → Z → list Z → Z → outcome (odfs_err * list Z * Z * W));
  (* context, directory, name *)
  be_lookup : option (W → Z → odfs_node → list Z → outcome (odfs_err * option odfs_node * W));
  (* context, directory, name, buffer size *)
  be_readlink : option (W → Z → odfs_node → list Z → Z → outcome (odfs_err * option (list Z) * W));
  (* context, directory, whether the grandparent is wanted; parent, grandparent *)
  be_resolve_parent : option (W → Z → odfs_node → bool →
    outcome (odfs_err * option odfs_node * option odfs_node * W));
  (* context, buffer size *)
  be_get_volume_name : option (W → Z → Z → outcome (odfs_err * list Z * W));
  be_get_volume_size : option (W → Z → outcome Z) }.
Arguments mk_backend {W}.
Arguments backend_type {W}.
Arguments flags {W}.
Arguments probe {W}.
Arguments be_mount {W}.
Arguments be_unmount {W}.
Arguments be_readdir {W}.
Arguments be_read {W}.
Arguments be_lookup {W}.
Arguments be_readlink {W}.
Arguments be_resolve_parent {W}.
Arguments be_get_volume_name {W}.
Arguments be_get_volume_size {W}.
