(* ===== verification/MetaCache.v ===== *)
(** * The parsed-directory cache ([core/cache_meta.c])

    A cached directory is the list of its entries and a pool of strings they point
    into.  The directories on the LRU list, which the code links through
    [lru_prev] and [lru_next], are the list of them from head to tail, and a pointer
    to one of them is its position.  [malloc n size] says whether the [n]-th
    allocation succeeds; [mc_allocs] counts them.  Sizes are those of a 64-bit
    host.  The byte total of the cache is a [uint32_t] and wraps around; the sizes of
    the arrays one directory is built in do not, for budgets below [2 ^ 31]. *)
From S2P Require Import Prelude Types Strings Backend.
Open Scope Z_scope.

(* [src: include/odfs/cache_meta.h:31-31 ODFS_META_COOKIE_TAG] *)
Definition ODFS_META_COOKIE_TAG : Z := 0x80000000.
(* [src: core/cache_meta.c:24-29 META_NO_COMMENT] *)
Definition META_NO_COMMENT : Z := 0xffffffff.
Definition META_LOOKUP_HASH_MIN : Z := 8.
Definition META_LRU_FRONT : Z := 8.
Definition ODFS_META_OVERSIZE_SLOTS : Z := 4.
Definition SIZEOF_META_ENTRY : Z := 72.
Definition SIZEOF_META_DIR : Z := 56.

(* [src: include/odfs/cache_meta.h:33-51 odfs_meta_entry_t] *)
Record odfs_meta_entry : Type := mk_me {
  me_id : Z; me_lba : Z; me_length : Z; me_size : Z; me_mtime : odfs_timestamp; me_ctime : odfs_timestamp;
  me_mode : Z; me_name_off : Z; me_name_hash : Z; me_comment_off : Z; me_kind : odfs_node_kind;
  me_backend : odfs_backend_type; me_has_protection : bool; me_has_comment : bool; me_protection : list Z }.
(* [src: include/odfs/cache_meta.h:53-68 odfs_meta_dir_t] *)
Record odfs_meta_dir : Type := mk_md {
  dir_lba : Z; dir_length : Z; dir_backend : odfs_backend_type; hashed : bool; referenced : bool;
  dir_id : Z; bytes : Z; md_entries : list odfs_meta_entry; pool : list Z }.
(* [src: include/odfs/cache_meta.h:70-76 odfs_meta_cache_stats_t] *)
Record odfs_meta_cache_stats : Type := mk_mstats {
  ms_hits : Z; ms_misses : Z; ms_builds : Z; ms_build_fails : Z; ms_evictions : Z }.
(* [src: include/odfs/cache_meta.h:81-92 odfs_meta_cache_t] *)
Record odfs_meta_cache : Type := mk_mc {
  mc_lru : list odfs_meta_dir; budget : Z; total : Z; mc_stats : odfs_meta_cache_stats;
  oversize_lba : list Z; oversize_len : list Z; oversize_next : Z; mc_allocs : nat }.

Definition meta_count (d : odfs_meta_dir) : Z := zlen (md_entries d).

(** Assignments. *)
Definition set_mc_lru l (mc : odfs_meta_cache) := mk_mc l (budget mc) (total mc) (mc_stats mc)
  (oversize_lba mc) (oversize_len mc) (oversize_next mc) (mc_allocs mc).
Definition set_total v (mc : odfs_meta_cache) := mk_mc (mc_lru mc) (budget mc) v (mc_stats mc)
  (oversize_lba mc) (oversize_len mc) (oversize_next mc) (mc_allocs mc).
Definition set_mc_stats v (mc : odfs_meta_cache) := mk_mc (mc_lru mc) (budget mc) (total mc) v
  (oversize_lba mc) (oversize_len mc) (oversize_next mc) (mc_allocs mc).
Definition set_oversize l n k (mc : odfs_meta_cache) := mk_mc (mc_lru mc) (budget mc) (total mc) (mc_stats mc)
  l n k (mc_allocs mc).
Definition set_mc_allocs v (mc : odfs_meta_cache) := mk_mc (mc_lru mc) (budget mc) (total mc) (mc_stats mc)
  (oversize_lba mc) (oversize_len mc) (oversize_next mc) v.
Definition set_referenced v (d : odfs_meta_dir) := mk_md (dir_lba d) (dir_length d) (dir_backend d) (hashed d) v
  (dir_id d) (bytes d) (md_entries d) (pool d).
Definition set_hashed es (d : odfs_meta_dir) := mk_md (dir_lba d) (dir_length d) (dir_backend d) true (referenced d)
  (dir_id d) (bytes d) es (pool d).
Definition set_name_hash v (e : odfs_meta_entry) := mk_me (me_id e) (me_lba e) (me_length e) (me_size e)
  (me_mtime e) (me_ctime e) (me_mode e) (me_name_off e) v (me_comment_off e) (me_kind e) (me_backend e)
  (me_has_protection e) (me_has_comment e) (me_protection e).
Definition add_hits n s := mk_mstats (u32 (ms_hits s + n)) (ms_misses s) (ms_builds s) (ms_build_fails s) (ms_evictions s).
Definition add_miss s := mk_mstats (ms_hits s) (u32 (ms_misses s + 1)) (ms_builds s) (ms_build_fails s) (ms_evictions s).
Definition add_build s := mk_mstats (ms_hits s) (ms_misses s) (u32 (ms_builds s + 1)) (ms_build_fails s) (ms_evictions s).
Definition add_build_fail s := mk_mstats (ms_hits s) (ms_misses s) (ms_builds s) (u32 (ms_build_fails s + 1)) (ms_evictions s).
Definition add_eviction s := mk_mstats (ms_hits s) (ms_misses s) (ms_builds s) (ms_build_fails s) (u32 (ms_evictions s + 1)).

(** ** The LRU list *)

(** The directory at position [i] leaves the list. *)
(* [src: core/cache_meta.c:35-47 meta_unlink] *)
Definition meta_unlink (mc : odfs_meta_cache) (i : nat) : odfs_meta_cache :=
  set_mc_lru (delete i (mc_lru mc)) mc.
(* [src: core/cache_meta.c:49-58 meta_push_head] *)
Definition meta_push_head (mc : odfs_meta_cache) (d : odfs_meta_dir) : odfs_meta_cache :=
  set_mc_lru (d :: mc_lru mc) mc.
(* [src: core/cache_meta.c:60-66 meta_evict] *)
Definition meta_evict (mc : odfs_meta_cache) (i : nat) : odfs_meta_cache :=
  match mc_lru mc !! i with
  | None => mc
  | Some d =>
      let mc := meta_unlink mc i in
      let mc := set_total (u32 (total mc - bytes d)) mc in
      set_mc_stats (add_eviction (mc_stats mc)) mc
  end.
Definition mc_tail (mc : odfs_meta_cache) : nat := pred (length (mc_lru mc)).
(** A directory is given a second chance at most once, so twice as many rounds as
    there are directories are enough. *)
(* [src: core/cache_meta.c:77-85 meta_trim] *)
Fixpoint meta_trim_loop (fuel : nat) (mc : odfs_meta_cache) : odfs_meta_cache :=
  match fuel with
  | O => mc
  | S fuel =>
      if budget mc <? total mc then
        match mc_lru mc !! mc_tail mc with
        | None => mc
        | Some t =>
            if referenced t
            then meta_trim_loop fuel (meta_push_head (meta_unlink mc (mc_tail mc)) (set_referenced false t))
            else meta_trim_loop fuel (meta_evict mc (mc_tail mc))
        end
      else mc
  end.
(* [src: core/cache_meta.c:73-86 meta_trim] *)
Definition meta_trim (mc : odfs_meta_cache) : odfs_meta_cache :=
  meta_trim_loop (S (2 * length (mc_lru mc))) mc.

Definition stats_zero : odfs_meta_cache_stats := mk_mstats 0 0 0 0 0.
(* [src: core/cache_meta.c:88-92 odfs_meta_cache_init] *)
Definition odfs_meta_cache_init (budget_bytes : Z) : odfs_meta_cache :=
  mk_mc [] budget_bytes 0 stats_zero (replicate 4 0) (replicate 4 0) 0 0.
(* [src: core/cache_meta.c:96-97 odfs_meta_cache_flush] *)
Fixpoint meta_flush_loop (fuel : nat) (mc : odfs_meta_cache) : odfs_meta_cache :=
  match fuel with
  | O => mc
  | S fuel => if bool_decide (mc_lru mc = []) then mc else meta_flush_loop fuel (meta_evict mc (mc_tail mc))
  end.
(* [src: core/cache_meta.c:94-99 odfs_meta_cache_flush] *)
Definition odfs_meta_cache_flush (mc : odfs_meta_cache) : odfs_meta_cache :=
  let mc := meta_flush_loop (length (mc_lru mc)) mc in
  set_oversize (oversize_lba mc) (replicate 4 0) (oversize_next mc) mc.
(* [src: core/cache_meta.c:101-105 odfs_meta_cache_destroy] *)
Definition odfs_meta_cache_destroy (mc : odfs_meta_cache) : odfs_meta_cache :=
  odfs_meta_cache_init 0.

(** ** Finding directories and names *)

(* [src: core/cache_meta.c:111-123 meta_dir_cacheable] *)
Definition meta_dir_cacheable (mc : odfs_meta_cache) (dir : odfs_node) : bool :=
  if budget mc =? 0 then false
  else if negb (bool_decide (kind dir = ODFS_NODE_DIR)) then false
  else if bool_decide (backend dir = ODFS_BACKEND_CDDA) then false
  else negb (length_ (extent dir) =? 0).

Definition key_matches (l len : Z) (b : odfs_backend_type) (d : odfs_meta_dir) : bool :=
  (dir_lba d =? l) && (dir_length d =? len) && bool_decide (dir_backend d = b).
(** Position of the first directory with the key. *)
(* [src: core/cache_meta.c:133-135 meta_find_extent] *)
Fixpoint meta_position (l len : Z) (b : odfs_backend_type) (ds : list odfs_meta_dir) : option nat :=
  match ds with
  | [] => None
  | d :: ds => if key_matches l len b d then Some 0%nat else S <$> meta_position l len b ds
  end.
(** The result is the position of the directory afterwards. *)
(* [src: core/cache_meta.c:125-149 meta_find_extent] *)
Definition meta_find_extent (mc : odfs_meta_cache) (l len : Z) (b : odfs_backend_type)
    : option nat * odfs_meta_cache :=
  match meta_position l len b (mc_lru mc) with
  | None => (None, mc)
  | Some i =>
      if META_LRU_FRONT <=? Z.of_nat i then
        match mc_lru mc !! i with
        | None => (None, mc)
        | Some d => (Some 0%nat, meta_push_head (meta_unlink mc i) d)
        end
      else (Some i, set_mc_lru (alter (set_referenced true) i (mc_lru mc)) mc)
  end.
(* [src: core/cache_meta.c:151-156 meta_find] *)
Definition meta_find (mc : odfs_meta_cache) (dir : odfs_node) : option nat * odfs_meta_cache :=
  meta_find_extent mc (lba (extent dir)) (length_ (extent dir)) (backend dir).

(** [a] is the pool from the name on; [b] the [len] bytes looked for. *)
(* [src: core/cache_meta.c:163-176 meta_name_eq] *)
Fixpoint meta_name_eq (a b : list Z) : bool :=
  match b, a with
  | [], x :: _ => x =? 0
  | [], [] => false
  | y :: b, x :: a =>
      if negb (x =? y) then
        let x := Z.lor x 32 in
        if negb (x =? Z.lor y 32) || (x <? 97) || (122 <? x) then false else meta_name_eq a b
      else meta_name_eq a b
  | _, [] => false
  end.
Definition name_at (d : odfs_meta_dir) (e : odfs_meta_entry) : list Z :=
  drop (Z.to_nat (me_name_off e)) (pool d).

(** The first bytes differ by more than the case bit. *)
(* [src: core/cache_meta.c:196-201 meta_find_name] *)
Definition first_differs (x c0 : Z) : bool := negb (x =? c0) && negb (Z.lxor x c0 =? 32).
(** Hashes are computed at the first lookup.  Result: the entry and the directory. *)
(* [src: core/cache_meta.c:183-223 meta_find_name] *)
Definition meta_find_name (d : odfs_meta_dir) (name : list Z) : option odfs_meta_entry * odfs_meta_dir :=
  if meta_count d <? META_LOOKUP_HASH_MIN then
    (List.find (λ e, negb (first_differs (default 0 (head (name_at d e))) (default 0 (head name)))
                     && meta_name_eq (name_at d e) name) (md_entries d), d)
  else
    let d := if hashed d then d
             else set_hashed (map (λ e, set_name_hash (odfs_strcasehash (c_str (name_at d e))) e) (md_entries d)) d in
    let hash := odfs_strcasehash_len name (zlen name) in
    (List.find (λ e, (me_name_hash e =? hash) && meta_name_eq (name_at d e) name) (md_entries d), d).

(** [out] is the node afterwards; the protection bytes are copied only if there
    are any. *)
(* [src: core/cache_meta.c:225-263 meta_entry_to_node] *)
Definition meta_entry_to_node (d : odfs_meta_dir) (e : odfs_meta_entry) : odfs_node :=
  mk_node (me_id e) (dir_id d) (me_backend e) (me_kind e) (c_str (name_at d e)) (me_size e)
    (me_mtime e) (me_ctime e) (me_mode e)
    (mk_amiga_as (me_has_protection e) (if me_has_protection e then me_protection e else [0; 0; 0; 0])
       (me_has_comment e)
       (if me_has_comment e
        then take (Z.to_nat (ODFS_AMIGA_COMMENT_MAX - 1)) (c_str (drop (Z.to_nat (me_comment_off e)) (pool d)))
        else []))
    (mk_extent (me_lba e) (me_length e)) 0.

(** ** Building *)

(** The arrays are the entries and the pool bytes so far; their capacities matter
    only for when they grow.  The allocation count is threaded through. *)
(* [src: core/cache_meta.c:270-279 meta_build_ctx_t] *)
Record meta_build_ctx : Type := mk_bc {
  bc_entries : list odfs_meta_entry; bc_cap : Z; bc_pool : list Z; pool_cap : Z; bc_budget : Z;
  bc_failed : bool; bc_too_big : bool; bc_allocs : nat }.
Definition set_bc_pool p cap a (bc : meta_build_ctx) :=
  mk_bc (bc_entries bc) (bc_cap bc) p cap (bc_budget bc) (bc_failed bc) (bc_too_big bc) a.
Definition set_bc_entries es cap a (bc : meta_build_ctx) :=
  mk_bc es cap (bc_pool bc) (pool_cap bc) (bc_budget bc) (bc_failed bc) (bc_too_big bc) a.
(** [goto fail] *)
Definition bc_fail (too_big : bool) (bc : meta_build_ctx) :=
  mk_bc (bc_entries bc) (bc_cap bc) (bc_pool bc) (pool_cap bc) (bc_budget bc) true (bc_too_big bc || too_big)
    (bc_allocs bc).

(* [src: core/cache_meta.c:301-304 meta_pool_add_len] *)
Fixpoint double_cap (fuel : nat) (cap need : Z) : Z :=
  match fuel with
  | O => cap
  | S fuel => if cap <? need then double_cap fuel (cap * 2) need else cap
  end.

Section build.
Context (malloc : nat → Z → bool).

(** [None]: out of memory; the old array is lost then. *)
(* [src: core/cache_meta.c:281-292 meta_grow] *)
Definition meta_grow {A} (allocs : nat) (old : list A) (new_bytes : Z) : option (list A) * nat :=
  (if malloc allocs new_bytes then Some old else None, S allocs).

(* [src: core/cache_meta.c:294-314 meta_pool_add_len] *)
Definition meta_pool_add_len (bc : meta_build_ctx) (s : list Z) : Z * meta_build_ctx :=
  let len := zlen s + 1 in
  let '(ok, bc) :=
    if pool_cap bc <? zlen (bc_pool bc) + len then
      let new_cap := if pool_cap bc =? 0 then 1024 else pool_cap bc * 2 in
      let new_cap := double_cap 32 new_cap (zlen (bc_pool bc) + len) in
      let '(p, a) := meta_grow (bc_allocs bc) (bc_pool bc) new_cap in
      match p with
      | None => (false, set_bc_pool [] (pool_cap bc) a bc)
      | Some p => (true, set_bc_pool p new_cap a bc)
      end
    else (true, bc) in
  if negb ok then (META_NO_COMMENT, bc)
  else (zlen (bc_pool bc), set_bc_pool (bc_pool bc ++ s ++ [0]) (pool_cap bc) (bc_allocs bc) bc).
(* [src: core/cache_meta.c:316-319 meta_pool_add] *)
Definition meta_pool_add (bc : meta_build_ctx) (s : list Z) : Z * meta_build_ctx := meta_pool_add_len bc s.
(* [src: core/cache_meta.c:326-339 meta_pool_add_name] *)
Definition meta_pool_add_name (bc : meta_build_ctx) (s : list Z) : Z * meta_build_ctx :=
  if pool_cap bc <? zlen (bc_pool bc) + ODFS_NAME_MAX then meta_pool_add bc s
  else (zlen (bc_pool bc), set_bc_pool (bc_pool bc ++ s ++ [0]) (pool_cap bc) (bc_allocs bc) bc).

(** Room for one more entry; [None]: out of memory. *)
(* [src: core/cache_meta.c:347-356 meta_build_cb] *)
Definition meta_reserve_entry (bc : meta_build_ctx) : bool * meta_build_ctx :=
  if bc_cap bc <=? zlen (bc_entries bc) then
    let new_cap := if bc_cap bc =? 0 then 32 else bc_cap bc * 2 in
    let '(es, a) := meta_grow (bc_allocs bc) (bc_entries bc) (new_cap * SIZEOF_META_ENTRY) in
    match es with
    | None => (false, set_bc_entries [] (bc_cap bc) a bc)
    | Some es => (true, set_bc_entries es new_cap a bc)
    end
  else (true, bc).
(* [src: core/cache_meta.c:358-380 meta_build_cb] *)
Definition meta_entry_of (entry : odfs_node) (name_off comment_off : Z) : odfs_meta_entry :=
  mk_me (id entry) (lba (extent entry)) (length_ (extent entry)) (size entry) (mtime entry) (ctime entry)
    (mode entry) name_off 0 comment_off (kind entry) (backend entry) (has_protection (amiga_as entry))
    (has_comment (amiga_as entry))
    (if has_protection (amiga_as entry) then protection (amiga_as entry) else [0; 0; 0; 0]).
(** What the entries and the pool take, with the header. *)
Definition built_bytes (bc : meta_build_ctx) : Z :=
  SIZEOF_META_DIR + zlen (bc_entries bc) * SIZEOF_META_ENTRY + zlen (bc_pool bc).
(* [src: core/cache_meta.c:341-400 meta_build_cb] *)
Definition meta_build_cb (entry : odfs_node) (bc : meta_build_ctx) : odfs_err * meta_build_ctx :=
  let '(ok, bc) := meta_reserve_entry bc in
  if negb ok then (ODFS_ERR_NOMEM, bc_fail false bc)
  else
    let '(off, bc) := meta_pool_add_name bc (name entry) in
    if off =? META_NO_COMMENT then (ODFS_ERR_NOMEM, bc_fail false bc)
    else
      let '(coff, failed, bc) :=
        if has_comment (amiga_as entry) then
          let '(coff, bc) := meta_pool_add bc (comment (amiga_as entry)) in
          (coff, coff =? META_NO_COMMENT, bc)
        else (META_NO_COMMENT, false, bc) in
      if (failed : bool) then (ODFS_ERR_NOMEM, bc_fail false bc)
      else
        let bc := set_bc_entries (bc_entries bc ++ [meta_entry_of entry off coff]) (bc_cap bc) (bc_allocs bc) bc in
        if bc_budget bc <? built_bytes bc then (ODFS_ERR_NOMEM, bc_fail true bc) else (ODFS_OK, bc).

(** The arrays as sized from the directory's extent. *)
(* [src: core/cache_meta.c:424-440 meta_build] *)
Definition meta_build_init (mc : odfs_meta_cache) (dir : odfs_node) : meta_build_ctx :=
  let est := length_ (extent dir) / 34 + 2 in
  let est := if est <? 16 then 16 else est in
  let est := if 1024 <? est then 1024 else est in
  let e := malloc (mc_allocs mc) (est * SIZEOF_META_ENTRY) in
  let p := malloc (S (mc_allocs mc)) (est * 16) in
  mk_bc [] (if e then est else 0) [] (if p then est * 16 else 0) (budget mc) false false
    (S (S (mc_allocs mc))).

Context {W : Type} (ops : odfs_backend_ops W) (backend_ctx : Z).

(** Result: the directory, whether it was too big. *)
(* [src: core/cache_meta.c:406-474 meta_build] *)
Definition meta_build (w : W) (mc : odfs_meta_cache) (dir : odfs_node)
    : outcome (option odfs_meta_dir * bool * odfs_meta_cache * W) :=
  match be_readdir ops with
  | None => Fault
  | Some readdir =>
      '(err, _, w, bc) ← readdir meta_build_ctx w backend_ctx dir meta_build_cb (meta_build_init mc dir) None;
      let mc := set_mc_allocs (bc_allocs bc) mc in
      if bc_failed bc || negb (err_ok err)
      then Ret (None, bc_too_big bc, set_mc_stats (add_build_fail (mc_stats mc)) mc, w)
      else
        let total := built_bytes bc in
        let ok := malloc (mc_allocs mc) total in
        let mc := set_mc_allocs (S (mc_allocs mc)) mc in
        if negb ok then Ret (None, bc_too_big bc, set_mc_stats (add_build_fail (mc_stats mc)) mc, w)
        else
          let d := mk_md (lba (extent dir)) (length_ (extent dir)) (backend dir) false false (id dir)
                     (u32 total) (bc_entries bc) (bc_pool bc) in
          Ret (Some d, bc_too_big bc, set_mc_stats (add_build (mc_stats mc)) mc, w)
  end.

(** Whether the directory is remembered as too big. *)
(* [src: core/cache_meta.c:500-504 meta_get] *)
Definition meta_oversize (mc : odfs_meta_cache) (dir : odfs_node) : bool :=
  existsb (λ '(l, n), (n =? length_ (extent dir)) && (l =? lba (extent dir)))
    (zip (oversize_lba mc) (oversize_len mc)).
(* [src: core/cache_meta.c:508-512 meta_get] *)
Definition meta_note_oversize (mc : odfs_meta_cache) (dir : odfs_node) : odfs_meta_cache :=
  let i := oversize_next mc mod ODFS_META_OVERSIZE_SLOTS in
  set_oversize (zset (oversize_lba mc) i (lba (extent dir))) (zset (oversize_len mc) i (length_ (extent dir)))
    (u32 (oversize_next mc + 1)) mc.

(** A directory of the cache is named by its position; one that did not fit the
    budget is an orphan, which the caller frees. *)
Inductive meta_dir_ref : Type :=
  | MetaListed (i : nat)
  | MetaOrphan (d : odfs_meta_dir).
(* [src: core/cache_meta.c:481-527 meta_get] *)
Definition meta_get (w : W) (mc : odfs_meta_cache) (dir : odfs_node)
    : outcome (option meta_dir_ref * odfs_meta_cache * W) :=
  let '(found, mc) := meta_find mc dir in
  match found with
  | Some i => Ret (Some (MetaListed i), set_mc_stats (add_hits 1 (mc_stats mc)) mc, w)
  | None =>
      let mc := set_mc_stats (add_miss (mc_stats mc)) mc in
      if meta_oversize mc dir then Ret (None, mc, w)
      else
        '(d, too_big, mc, w) ← meta_build w mc dir;
        match d with
        | None => Ret (None, if (too_big : bool) then meta_note_oversize mc dir else mc, w)
        | Some d =>
            if budget mc <? bytes d then Ret (Some (MetaOrphan d), mc, w)
            else
              let mc := set_total (u32 (total mc + bytes d)) mc in
              Ret (Some (MetaListed 0), meta_push_head (meta_trim mc) d, w)
        end
  end.
Definition meta_deref (mc : odfs_meta_cache) (r : meta_dir_ref) : option odfs_meta_dir :=
  match r with MetaListed i => mc_lru mc !! i | MetaOrphan d => Some d end.
(** Changes made through the pointer are seen in the list. *)
Definition meta_store (mc : odfs_meta_cache) (r : meta_dir_ref) (d : odfs_meta_dir) : odfs_meta_cache :=
  match r with MetaListed i => set_mc_lru (<[i := d]> (mc_lru mc)) mc | MetaOrphan _ => mc end.

(** ** Serving *)
Section serve.
Context {T : Type} (callback : odfs_dir_iter_fn T).

(** The entries from the [i]-th on. *)
(* [src: core/cache_meta.c:544-555 meta_replay] *)
Fixpoint meta_replay_loop (d : odfs_meta_dir) (es : list odfs_meta_entry) (i : Z) (t : T)
    : odfs_err * Z * T :=
  match es with
  | [] => (ODFS_OK, Z.lor ODFS_META_COOKIE_TAG (meta_count d), t)
  | e :: es =>
      let '(err, t) := callback (meta_entry_to_node d e) t in
      if negb (err_ok err) then (err, Z.lor ODFS_META_COOKIE_TAG (u32 (i + 1)), t)
      else meta_replay_loop d es (i + 1) t
  end.
(** A cookie without its tag. *)
Definition untag (cookie : Z) : Z := Z.ldiff cookie ODFS_META_COOKIE_TAG.
(* [src: core/cache_meta.c:533-559 meta_replay] *)
Definition meta_replay (d : odfs_meta_dir) (t : T) (resume : option Z) : odfs_err * option Z * T :=
  let i := untag (default 0 resume) in
  let '(err, cookie, t) := meta_replay_loop d (drop (Z.to_nat i) (md_entries d)) i t in
  (err, match resume with None => None | Some _ => Some cookie end, t).

(* [src: core/cache_meta.c:562-570 meta_skip_ctx_t] *)
Record meta_skip_ctx : Type := mk_skip {
  sk_skip : Z; sk_index : Z; sk_state : T; sk_err : odfs_err; sk_stopped : bool }.
(* [src: core/cache_meta.c:571-585 meta_skip_cb] *)
Definition meta_skip_cb (entry : odfs_node) (sc : meta_skip_ctx) : odfs_err * meta_skip_ctx :=
  let index := sk_index sc in
  let sc := mk_skip (sk_skip sc) (u32 (index + 1)) (sk_state sc) (sk_err sc) (sk_stopped sc) in
  if index <? sk_skip sc then (ODFS_OK, sc)
  else
    let '(err, t) := callback entry (sk_state sc) in
    (err, if negb (err_ok err) then mk_skip (sk_skip sc) (sk_index sc) t err true
          else mk_skip (sk_skip sc) (sk_index sc) t (sk_err sc) (sk_stopped sc)).

(* [src: core/cache_meta.c:587-649 odfs_meta_readdir] *)
Definition odfs_meta_readdir (w : W) (mc : odfs_meta_cache) (dir : odfs_node) (t : T) (resume_offset : option Z)
    : outcome (odfs_err * option Z * odfs_meta_cache * W * T) :=
  let resume := default 0 resume_offset in
  let tagged := negb (Z.land resume ODFS_META_COOKIE_TAG =? 0) in
  if negb (resume =? 0) && negb tagged then Ret (ODFS_ERR_UNSUPPORTED, resume_offset, mc, w, t)
  else if negb (meta_dir_cacheable mc dir) && negb tagged
  then Ret (ODFS_ERR_UNSUPPORTED, resume_offset, mc, w, t)
  else
    '(d, mc, w) ← (if negb (meta_dir_cacheable mc dir) then Ret (None, mc, w) else meta_get w mc dir);
    match d with
    | Some r =>
        match meta_deref mc r with
        | None => Fault
        | Some d => let '(err, resume_offset, t) := meta_replay d t resume_offset in
                    Ret (err, resume_offset, mc, w, t)
        end
    | None =>
        if negb tagged then Ret (ODFS_ERR_UNSUPPORTED, resume_offset, mc, w, t)
        else
          match be_readdir ops with
          | None => Fault
          | Some readdir =>
              '(err, _, w, sc) ← readdir meta_skip_ctx w backend_ctx dir meta_skip_cb
                                   (mk_skip (untag resume) 0 t ODFS_OK false) None;
              Ret (if sk_stopped sc then sk_err sc else err,
                   match resume_offset with None => None
                   | Some _ => Some (Z.lor ODFS_META_COOKIE_TAG (sk_index sc)) end,
                   mc, w, sk_state sc)
          end
    end.
End serve.

(* [src: core/cache_meta.c:651-681 odfs_meta_lookup] *)
Definition odfs_meta_lookup (w : W) (mc : odfs_meta_cache) (dir : odfs_node) (name : list Z)
    : outcome (odfs_err * option odfs_node * odfs_meta_cache * W) :=
  if negb (meta_dir_cacheable mc dir) then Ret (ODFS_ERR_UNSUPPORTED, None, mc, w)
  else
    '(r, mc, w) ← meta_get w mc dir;
    match r with
    | None => Ret (ODFS_ERR_UNSUPPORTED, None, mc, w)
    | Some r =>
        match meta_deref mc r with
        | None => Fault
        | Some d =>
            let '(e, d) := meta_find_name d name in
            let mc := meta_store mc r d in
            match e with
            | Some e => Ret (ODFS_OK, Some (meta_entry_to_node d e), mc, w)
            | None => Ret (ODFS_ERR_NOT_FOUND, None, mc, w)
            end
        end
    end.
End build.

(** ** Paths *)

(** The name at the start of a path, and what follows it. *)
(* [src: core/cache_meta.c:709-710 odfs_meta_lookup_path] *)
Fixpoint path_name (p : list Z) : list Z * list Z :=
  match p with
  | [] => ([], [])
  | c :: p' => if c =? 47 then ([], p) else let '(w, r) := path_name p' in (c :: w, r)
  end.
(** The nodes of the names walked so far, the last first.  (The code keeps the last
    three as pointers and makes them nodes at the end; nothing is built or evicted
    in between, and hashing does not change a node.)  The result [None] is success. *)
(* [src: core/cache_meta.c:708-737 odfs_meta_lookup_path] *)
Fixpoint lookup_path_loop (fuel : nat) (mc : odfs_meta_cache) (pos : nat) (p : list Z) (walked : list odfs_node)
    : outcome (option odfs_err * list odfs_node * odfs_meta_cache) :=
  match fuel with
  | O => Diverge
  | S fuel =>
      let '(w, rest) := path_name p in
      if bool_decide (w = []) || (ODFS_NAME_MAX <=? zlen w)
      then Ret (Some ODFS_ERR_UNSUPPORTED, walked, mc)
      else
        match mc_lru mc !! pos with
        | None => Fault
        | Some d =>
            let '(e, d) := meta_find_name d w in
            let mc := set_mc_lru (<[pos := d]> (mc_lru mc)) mc in
            match e with
            | None => Ret (Some ODFS_ERR_NOT_FOUND, walked, mc)
            | Some e =>
                if bool_decide (me_kind e = ODFS_NODE_SYMLINK) then Ret (Some ODFS_ERR_UNSUPPORTED, walked, mc)
                else
                  let walked := meta_entry_to_node d e :: walked in
                  match rest with
                  | [] | [_] => Ret (None, walked, mc)
                  | _ :: p =>
                      if default 0 (head p) =? 47 then Ret (Some ODFS_ERR_UNSUPPORTED, walked, mc)
                      else if negb (bool_decide (me_kind e = ODFS_NODE_DIR))
                      then Ret (Some ODFS_ERR_NOT_DIR, walked, mc)
                      else
                        let '(found, mc) := meta_find_extent mc (me_lba e) (me_length e) (me_backend e) in
                        match found with
                        | None => Ret (Some ODFS_ERR_UNSUPPORTED, walked, mc)
                        | Some pos => lookup_path_loop fuel mc pos p walked
                        end
                  end
            end
        end
  end.
(** Result: error; and with [ODFS_OK] the nodes, the last first, of which the code
    returns three, and their number. *)
(* [src: core/cache_meta.c:683-748 odfs_meta_lookup_path] *)
Definition odfs_meta_lookup_path (mc : odfs_meta_cache) (dir : odfs_node) (path : list Z)
    : outcome (odfs_err * list odfs_node * Z * odfs_meta_cache) :=
  let '(found, mc) := meta_find mc dir in
  match found with
  | None => Ret (ODFS_ERR_UNSUPPORTED, [], 0, mc)
  | Some pos =>
      '(err, walked, mc) ← lookup_path_loop (S (length path)) mc pos path [];
      match err with
      | Some err => Ret (err, [], 0, mc)
      | None =>
          Ret (ODFS_OK, take 3 walked, zlen walked,
               set_mc_stats (add_hits (zlen walked) (mc_stats mc)) mc)
      end
  end.
