(* ===== verification/MetaCacheProofs.v ===== *)
(** * Invariant of the parsed-directory cache

    Every cached directory stands for the listing of the extent it is keyed by; the
    bytes held are accounted for and stay within the budget; no extent is cached
    twice.  What a listing is comes from the backend, through [Lists]. *)
From S2P Require Import Prelude Types Strings Backend MetaCache.
Open Scope Z_scope.

(** ** What a backend promises about its directories *)

(** A callback over a list of entries, until it stops. *)
Fixpoint run {T} (cb : odfs_dir_iter_fn T) (L : list odfs_node) (t : T) : odfs_err * T :=
  match L with
  | [] => (ODFS_OK, t)
  | n :: L => let '(err, t) := cb n t in if err_ok err then run cb L t else (err, t)
  end.

(** The Amiga attributes that are present. *)
Definition normal_as (a : odfs_amiga_as) : odfs_amiga_as :=
  mk_amiga_as (has_protection a) (if has_protection a then protection a else [0; 0; 0; 0])
    (has_comment a) (if has_comment a then comment a else []).
(** What a node says of an object, apart from the numbers a parse gives it. *)
Definition face (n : odfs_node) : odfs_node :=
  mk_node 0 0 (backend n) (kind n) (name n) (size n) (mtime n) (ctime n) (mode n) (normal_as (amiga_as n))
    (extent n) 0.
(** A node as the backends make them. *)
Definition node_wf (n : odfs_node) : Prop :=
  is_name (name n) ∧ zlen (name n) < ODFS_NAME_MAX ∧
  (has_comment (amiga_as n) = true → is_name (comment (amiga_as n)) ∧
     zlen (comment (amiga_as n)) < ODFS_AMIGA_COMMENT_MAX).

(** A [dir] that is [listable] has the entries [listing] gives for its extent,
    whatever the callback, in every world that is [good]. *)
Class Lists {W} (ops : odfs_backend_ops W) (ctx : Z) (good : W → Prop) (listable : odfs_node → Prop)
    (listing : Z → Z → odfs_backend_type → list odfs_node) : Prop :=
  lists : ∃ readdir, be_readdir ops = Some readdir ∧
    ∀ T w dir (cb : odfs_dir_iter_fn T) t, good w → listable dir →
    ∃ L r w', readdir T w ctx dir cb t None = Ret ((run cb L t).1, r, w', (run cb L t).2) ∧ good w' ∧
      map face L = listing (lba (extent dir)) (length_ (extent dir)) (backend dir) ∧ Forall node_wf L.

(** ** Entries and nodes *)

(** [p] holds the string [s] at [off]. *)
Definition pool_has (p : list Z) (off : Z) (s : list Z) : Prop :=
  0 ≤ off ∧ Forall (λ b, b ≠ 0) s ∧ ∃ rest, drop (Z.to_nat off) p = s ++ 0 :: rest.
Definition entry_rep (p : list Z) (e : odfs_meta_entry) (n : odfs_node) : Prop :=
  e = set_name_hash (me_name_hash e) (meta_entry_of n (me_name_off e) (me_comment_off e)) ∧
  node_wf n ∧ pool_has p (me_name_off e) (name n) ∧
  (has_comment (amiga_as n) = true → pool_has p (me_comment_off e) (comment (amiga_as n))).
Definition dir_rep (d : odfs_meta_dir) (L : list odfs_node) : Prop :=
  Forall2 (entry_rep (pool d)) (md_entries d) L.

Lemma is_name_no_nul s : is_name s → Forall (λ b, b ≠ 0) s.
Proof. intros H. eapply Forall_impl; [exact H|]. simpl. lia. Qed.
Lemma pool_has_str p off s : pool_has p off s → c_str (drop (Z.to_nat off) p) = s.
Proof. intros (_ & Hs & rest & ->). by apply c_str_app_nul. Qed.
Lemma pool_has_app p q off s : pool_has p off s → pool_has (p ++ q) off s.
Proof.
  intros (Ho & Hs & rest & Hr). split; [done|]. split; [done|]. exists (rest ++ q).
  assert (Hlt : (Z.to_nat off < length p)%nat).
  { apply (f_equal length) in Hr. rewrite length_drop, length_app in Hr. simpl in Hr. lia. }
  rewrite drop_app_le by lia. by rewrite Hr, <- app_assoc.
Qed.
Lemma pool_has_new p s : Forall (λ b, b ≠ 0) s → pool_has (p ++ s ++ [0]) (zlen p) s.
Proof.
  intros Hs. split; [lia|]. split; [done|]. exists []. rewrite Nat2Z.id. by rewrite drop_app_length.
Qed.
Lemma entry_rep_app p q e n : entry_rep p e n → entry_rep (p ++ q) e n.
Proof. intros (He & Hw & Hn & Hc). split_and!; try done; [by apply pool_has_app|]. intros H. by apply pool_has_app, Hc. Qed.
#[export] Hint Resolve is_name_no_nul pool_has_app entry_rep_app : odfs.

(** A cached entry is the node it was made from. *)
Lemma entry_to_node_face d e n : entry_rep (pool d) e n → face (meta_entry_to_node d e) = face n.
Proof.
  intros (He & (Hn & Hnl & Hcm) & Hname & Hcom). unfold meta_entry_to_node, name_at.
  rewrite (pool_has_str _ _ _ Hname), He. destruct n as [? ? ? ? nm ? ? ? ? [hp pr hc cm] [? ?] ?]. simpl in *.
  unfold face. simpl. f_equal. unfold normal_as. simpl. destruct hp, hc; f_equal.
  - rewrite (pool_has_str _ _ _ (Hcom eq_refl)). apply take_ge. destruct (Hcm eq_refl) as [_ Hl].
    unfold ODFS_AMIGA_COMMENT_MAX in *. lia.
  - rewrite (pool_has_str _ _ _ (Hcom eq_refl)). apply take_ge. destruct (Hcm eq_refl) as [_ Hl].
    unfold ODFS_AMIGA_COMMENT_MAX in *. lia.
Qed.
Lemma entry_to_node_name d e n : entry_rep (pool d) e n → name (meta_entry_to_node d e) = name n.
Proof. intros He. exact (f_equal name (entry_to_node_face d e n He)). Qed.

(** ** Building *)
#[local] Opaque double_cap.
Section build.
Context (malloc : nat → Z → bool).

Definition bc_rep (bc : meta_build_ctx) (L : list odfs_node) : Prop :=
  Forall2 (entry_rep (bc_pool bc)) (bc_entries bc) L.

Lemma pool_add_ok bc s off bc' :
  Forall (λ b, b ≠ 0) s → meta_pool_add malloc bc s = (off, bc') → off ≠ META_NO_COMMENT →
  pool_has (bc_pool bc') off s ∧ bc_pool bc' = bc_pool bc ++ s ++ [0] ∧ bc_entries bc' = bc_entries bc ∧
  bc_failed bc' = bc_failed bc ∧ bc_budget bc' = bc_budget bc.
Proof.
  intros Hs. unfold meta_pool_add, meta_pool_add_len, meta_grow. repeat case_test; try done; intros [= <- <-] Hne.
  all: split_and!; try done; by apply pool_has_new.
Qed.
Lemma pool_add_name_ok bc s off bc' :
  Forall (λ b, b ≠ 0) s → meta_pool_add_name malloc bc s = (off, bc') → off ≠ META_NO_COMMENT →
  pool_has (bc_pool bc') off s ∧ bc_pool bc' = bc_pool bc ++ s ++ [0] ∧ bc_entries bc' = bc_entries bc ∧
  bc_failed bc' = bc_failed bc ∧ bc_budget bc' = bc_budget bc.
Proof.
  intros Hs. unfold meta_pool_add_name. case_test; [by apply pool_add_ok|].
  intros [= <- <-] Hne. split_and!; try done. by apply pool_has_new.
Qed.

Lemma build_cb_ok n bc L err bc' :
  node_wf n → bc_rep bc L → meta_build_cb malloc n bc = (err, bc') →
  if err_ok err then bc_rep bc' (L ++ [n]) ∧ bc_failed bc' = bc_failed bc ∧ built_bytes bc' ≤ bc_budget bc' ∧
    bc_budget bc' = bc_budget bc
  else bc_failed bc' = true.
Proof.
  intros Hn Hrep. unfold meta_build_cb, meta_reserve_entry, meta_grow.
  assert (Hgo : ∀ bc1, bc_entries bc1 = bc_entries bc → bc_pool bc1 = bc_pool bc →
    bc_failed bc1 = bc_failed bc → bc_budget bc1 = bc_budget bc → 
    (let '(off, bc) := meta_pool_add_name malloc bc1 (name n) in
     if off =? META_NO_COMMENT then (ODFS_ERR_NOMEM, bc_fail false bc)
     else
       let '(coff, failed, bc) :=
         if has_comment (amiga_as n) then
           let '(coff, bc) := meta_pool_add malloc bc (comment (amiga_as n)) in
           (coff, coff =? META_NO_COMMENT, bc)
         else (META_NO_COMMENT, false, bc) in
       if (failed : bool) then (ODFS_ERR_NOMEM, bc_fail false bc)
       else
         let bc := set_bc_entries (bc_entries bc ++ [meta_entry_of n off coff]) (bc_cap bc) (bc_allocs bc) bc in
         if bc_budget bc <? built_bytes bc then (ODFS_ERR_NOMEM, bc_fail true bc) else (ODFS_OK, bc)) = (err, bc') →
    if err_ok err then bc_rep bc' (L ++ [n]) ∧ bc_failed bc' = bc_failed bc ∧ built_bytes bc' ≤ bc_budget bc' ∧
      bc_budget bc' = bc_budget bc
    else bc_failed bc' = true).
  { intros bc1 He1 Hp1 Hf1 Hb1. pose proof Hn as (Hname & Hnl & Hcm).
    destruct (meta_pool_add_name malloc bc1 (name n)) as [off bc2] eqn:H2.
    case_test; [by intros [= <- <-]|]. b2p.
    destruct (pool_add_name_ok _ _ _ _ (is_name_no_nul _ Hname) H2 E) as (Hhas & Hpool & He2 & Hf2 & Hb2).
    destruct (has_comment (amiga_as n)) eqn:Hc.
    - destruct (meta_pool_add malloc bc2 (comment (amiga_as n))) as [coff bc3] eqn:H3.
      case_test; [by intros [= <- <-]|]. b2p.
      destruct (pool_add_ok _ _ _ _ (is_name_no_nul _ (proj1 (Hcm eq_refl))) H3 E0) as (Hhas3 & Hpool3 & He3 & Hf3 & Hb3).
      cbv zeta. destruct (bc_budget _ <? built_bytes _) eqn:E1; intros [= <- <-]; simpl; [done|]. b2p. split_and!; try congruence; [|exact E1].
      unfold bc_rep. simpl. rewrite He3, He2, He1. apply Forall2_app.
      + eapply Forall2_impl; [exact Hrep|]. intros e m He. rewrite Hpool3, Hpool, Hp1. auto with odfs.
      + constructor; [|constructor]. split; [done|]. split_and!; simpl; try done.
        rewrite Hpool3. by apply pool_has_app.
    - cbv zeta. destruct (bc_budget _ <? built_bytes _) eqn:E1; intros [= <- <-]; simpl; [done|]. b2p. split_and!; try congruence; [|exact E1].
      unfold bc_rep. simpl. rewrite He2, He1. apply Forall2_app.
      + eapply Forall2_impl; [exact Hrep|]. intros e m He. rewrite Hpool, Hp1. auto with odfs.
      + constructor; [|constructor]. split; [done|]. split_and!; simpl; try done. by rewrite Hc. }
  destruct (bc_cap bc <=? _); [|by apply Hgo].
  destruct (malloc _ _); [by apply Hgo|]. simpl. by intros [= <- <-].
Qed.

Lemma run_build_ok L : ∀ L0 bc err bc',
  Forall node_wf L → bc_rep bc L0 → built_bytes bc ≤ bc_budget bc → run (meta_build_cb malloc) L bc = (err, bc') →
  bc_failed bc' = true ∨
  err = ODFS_OK ∧ bc_rep bc' (L0 ++ L) ∧ built_bytes bc' ≤ bc_budget bc' ∧ bc_budget bc' = bc_budget bc.
Proof.
  induction L as [|n L IH]; intros L0 bc err bc' HL Hrep Hbytes; cbn [run].
  - intros [= <- <-]. right. by rewrite app_nil_r.
  - inversion_clear HL as [|? ? Hn HL']. destruct (meta_build_cb malloc n bc) as [e bc1] eqn:Hcb.
    apply (build_cb_ok n bc L0) in Hcb; [|done..]. destruct (err_ok e) eqn:He.
    + destruct Hcb as (Hrep1 & _ & Hb1 & Hbud). intros Hrun.
      destruct (IH (L0 ++ [n]) bc1 err bc' HL' Hrep1 Hb1 Hrun) as [?|(-> & Hr & Hb & Hbb)]; [by left|right].
      rewrite <- app_assoc in Hr. split_and!; try done. congruence.
    + intros [= <- <-]. by left.
Qed.
Lemma run_build_nonempty n L bc err bc' :
  Forall node_wf (n :: L) → bc_rep bc [] → run (meta_build_cb malloc) (n :: L) bc = (err, bc') →
  bc_failed bc' = true ∨ err = ODFS_OK ∧ bc_rep bc' (n :: L) ∧ built_bytes bc' ≤ bc_budget bc.
Proof.
  intros HL Hrep. inversion_clear HL as [|? ? Hn HL']. cbn [run].
  destruct (meta_build_cb malloc n bc) as [e bc1] eqn:Hcb.
  apply (build_cb_ok n bc []) in Hcb; [|done..]. destruct (err_ok e) eqn:He; [|intros [= <- <-]; by left].
  destruct Hcb as (Hrep1 & _ & Hb1 & Hbud). intros Hrun.
  destruct (run_build_ok L [n] bc1 err bc' HL' Hrep1 Hb1 Hrun) as [?|(-> & Hr & Hb & Hbb)]; [by left|right].
  split_and!; try done. lia.
Qed.
End build.

(** ** The cache *)

Definition md_key (d : odfs_meta_dir) : Z * Z * odfs_backend_type := (dir_lba d, dir_length d, dir_backend d).
Definition node_key (n : odfs_node) : Z * Z * odfs_backend_type :=
  (lba (extent n), length_ (extent n), backend n).
(** The bytes of the directories. *)
Definition held_bytes (ds : list odfs_meta_dir) : Z := foldr (λ d s, bytes d + s) 0 ds.

#[export] Instance held_bytes_perm : Proper ((≡ₚ) ==> eq) held_bytes.
Proof. intros l l' H. induction H; simpl; lia. Qed.

Lemma key_matches_spec l n b d : key_matches l n b d = true ↔ md_key d = (l, n, b).
Proof.
  unfold key_matches, md_key. rewrite !andb_true_iff, !Z.eqb_eq, bool_decide_eq_true.
  split; [by intros [[-> ->] ->]|by intros [= -> -> ->]].
Qed.

Section inv.
Context (listing : Z → Z → odfs_backend_type → list odfs_node).

(** What a directory takes in memory. *)
Definition dir_size (d : odfs_meta_dir) : Z :=
  SIZEOF_META_DIR + meta_count d * SIZEOF_META_ENTRY + zlen (pool d).
Lemma dir_size_nonneg d : 0 ≤ dir_size d.
Proof. unfold dir_size, meta_count, SIZEOF_META_DIR, SIZEOF_META_ENTRY. lia. Qed.

Record dir_ok (d : odfs_meta_dir) : Prop := {
  do_rep : ∃ L, dir_rep d L ∧ map face L = listing (dir_lba d) (dir_length d) (dir_backend d);
  do_bytes : bytes d = dir_size d;
  do_hashed : hashed d = true → ∀ e, e ∈ md_entries d → me_name_hash e = odfs_strcasehash (c_str (name_at d e)) }.

Definition dirs_ok (ds : list odfs_meta_dir) : Prop := Forall dir_ok ds ∧ NoDup (map md_key ds).
(** The byte total is that of the directories modulo [2 ^ 32]; below [2 ^ 31] a
    budget bounds what they take, so that the total is exact. *)
Record mc_inv (mc : odfs_meta_cache) : Prop := {
  mi_dirs : dirs_ok (mc_lru mc);
  mi_total : total mc = u32 (held_bytes (mc_lru mc));
  mi_budget : budget mc < 2 ^ 31 → held_bytes (mc_lru mc) ≤ budget mc;
  mi_u32 : is_u32 (budget mc) }.

#[export] Instance dirs_ok_perm : Proper ((≡ₚ) ==> iff) dirs_ok.
Proof. intros l l' H. unfold dirs_ok. by rewrite H. Qed.

Lemma dir_ok_referenced v d : dir_ok d → dir_ok (set_referenced v d).
Proof. intros [H1 H2 H3]. by split. Qed.

Lemma held_nonneg ds : Forall dir_ok ds → 0 ≤ held_bytes ds.
Proof. induction 1 as [|d ds [_ Hb _] _ IH]; simpl; [lia|]. pose proof (dir_size_nonneg d). lia. Qed.

(** One directory replaced by one with the same key and size. *)
Lemma dirs_ok_insert ds i d d' :
  ds !! i = Some d → dir_ok d' → md_key d' = md_key d → bytes d' = bytes d → dirs_ok ds →
  dirs_ok (<[i := d']> ds) ∧ held_bytes (<[i := d']> ds) = held_bytes ds ∧ map md_key (<[i := d']> ds) = map md_key ds.
Proof.
  intros Hi Hd Hk Hb [Hf Hn].
  assert (Hkeys : map md_key (<[i := d']> ds) = map md_key ds).
  { change (md_key <$> <[i := d']> ds = md_key <$> ds). rewrite list_fmap_insert, Hk.
    apply list_insert_id. by rewrite list_lookup_fmap, Hi. }
  split; [|split; [|done]].
  - split; [by apply Forall_insert|by rewrite Hkeys].
  - clear -Hi Hb. revert i Hi. induction ds as [|x ds IH]; intros [|i]; simpl; try done.
    + intros [= ->]. lia.
    + intros Hi. by rewrite IH.
Qed.
Lemma dirs_ok_mark ds i :
  dirs_ok ds → dirs_ok (alter (set_referenced true) i ds) ∧ held_bytes (alter (set_referenced true) i ds) = held_bytes ds.
Proof.
  intros Hok. destruct (ds !! i) as [d|] eqn:Hi.
  - rewrite (alter_as_insert _ _ _ d) by done.
    destruct (dirs_ok_insert ds i d (set_referenced true d) Hi) as (? & ? & _); try done.
    apply dir_ok_referenced. by eapply (Forall_lookup_1 _ _ _ _ (proj1 Hok)).
  - by rewrite alter_out_of_range.
Qed.

Lemma mark_keys ds i : map md_key (alter (set_referenced true) i ds) = map md_key ds.
Proof. revert i. induction ds as [|d ds IH]; intros [|i]; simpl; [done..|]. f_equal. apply IH. Qed.

Lemma delete_perm (ds : list odfs_meta_dir) i d : ds !! i = Some d → ds ≡ₚ d :: delete i ds.
Proof. apply delete_Permutation. Qed.

(** Trimming makes room for [extra] bytes. *)
Definition referenced_count (ds : list odfs_meta_dir) : nat := length (filter (λ d, referenced d = true) ds).
Lemma trim_loop_ok fuel mc extra :
  Forall dir_ok (mc_lru mc) → total mc = u32 (held_bytes (mc_lru mc) + extra) → 0 ≤ extra ≤ budget mc → is_u32 (budget mc) →
  (length (mc_lru mc) + referenced_count (mc_lru mc) < fuel)%nat →
  let mc' := meta_trim_loop fuel mc in
  Forall dir_ok (mc_lru mc') ∧ total mc' = u32 (held_bytes (mc_lru mc') + extra) ∧ total mc' ≤ budget mc' ∧
  budget mc' = budget mc ∧ map md_key (mc_lru mc') ⊆+ map md_key (mc_lru mc) ∧ held_bytes (mc_lru mc') ≤ held_bytes (mc_lru mc).
Proof.
  revert mc. induction fuel as [|fuel IH]; intros mc Hf Ht He Hu Hfuel; [lia|]. cbn [meta_trim_loop].
  case_test; b2p; [|by split_and!].
  destruct (mc_lru mc !! mc_tail mc) as [t|] eqn:Htail.
  2: { assert (mc_lru mc = []) as Hnil.
       { apply lookup_ge_None in Htail. unfold mc_tail in Htail. destruct (mc_lru mc); [done|simpl in Htail; lia]. }
       rewrite Hnil in Ht. simpl in Ht. rewrite u32_small in Ht; [lia|unfold is_u32 in *; lia]. }
  pose proof (delete_perm _ _ _ Htail) as Hperm. rewrite Hperm in Hf, Ht.
  assert (Hlen : length (mc_lru mc) = S (length (delete (mc_tail mc) (mc_lru mc)))) by (by rewrite Hperm at 1).
  assert (Hheld : held_bytes (mc_lru mc) = bytes t + held_bytes (delete (mc_tail mc) (mc_lru mc))) by (by rewrite Hperm at 1).
  assert (Hcount : referenced_count (mc_lru mc) =
    ((if referenced t then 1 else 0) + referenced_count (delete (mc_tail mc) (mc_lru mc)))%nat).
  { unfold referenced_count. rewrite Hperm at 1. rewrite filter_cons.
    destruct (referenced t); [by rewrite decide_True|by rewrite decide_False]. }
  inversion_clear Hf as [|? ? Hdt Hfd]. simpl in Ht. rewrite Hlen, Hcount in Hfuel.
  assert (Hkeys : map md_key (mc_lru mc) ≡ₚ md_key t :: map md_key (delete (mc_tail mc) (mc_lru mc)))
    by (by rewrite Hperm at 1).
  destruct (referenced t).
  - destruct (IH (meta_push_head (meta_unlink mc (mc_tail mc)) (set_referenced false t))) as (H1 & H2 & H3 & H4 & H5 & H6); [| |done|done| |].
    + simpl. constructor; [by apply dir_ok_referenced|done].
    + exact Ht.
    + simpl. unfold referenced_count in *. rewrite filter_cons_False by done. simpl in Hfuel. lia.
    + split_and!; try done; [by rewrite Hkeys|by rewrite Hheld].
  - unfold meta_evict. rewrite Htail.
    match goal with |- context [meta_trim_loop fuel ?m] => destruct (IH m) as (H1 & H2 & H3 & H4 & H5 & H6) end; [done| |done|done| |].
    + simpl. rewrite Ht. unfold u32. rewrite Zminus_mod_idemp_l. f_equal. lia.
    + simpl. simpl in Hfuel. lia.
    + split_and!; try done.
      * etrans; [exact H5|]. simpl. rewrite Hkeys. by apply submseteq_cons.
      * pose proof (do_bytes _ Hdt). pose proof (dir_size_nonneg t). simpl in H6 |- *. lia.
Qed.

Lemma NoDup_sub {A} (l k : list A) : l ⊆+ k → NoDup k → NoDup l.
Proof. intros [k' Hk]%submseteq_Permutation. rewrite Hk. by intros [? _]%NoDup_app. Qed.
Lemma referenced_count_le ds : (referenced_count ds ≤ length ds)%nat.
Proof. apply length_filter. Qed.

(** A new directory enters the cache. *)
Lemma insert_dir_ok mc d :
  mc_inv mc → dir_ok d → bytes d ≤ budget mc → (md_key d ∉ map md_key (mc_lru mc)) →
  mc_inv (meta_push_head (meta_trim (set_total (u32 (total mc + bytes d)) mc)) d).
Proof.
  intros [[Hf Hn] Ht Hb Hu] Hd Hbd Hk. pose proof (dir_size_nonneg d) as Hnn. rewrite <- (do_bytes _ Hd) in Hnn.
  destruct (trim_loop_ok (S (2 * length (mc_lru mc))) (set_total (u32 (total mc + bytes d)) mc) (bytes d))
    as (H1 & H2 & H3 & H4 & H5 & H6); [done| |done|done| |].
  { simpl. rewrite Ht. unfold u32. apply Zplus_mod_idemp_l. }
  { simpl. pose proof (referenced_count_le (mc_lru mc)). lia. }
  unfold meta_trim. cbn [mc_lru set_total]. cbn [budget mc_lru set_total] in H4, H5, H6.
  set (mc' := meta_trim_loop _ _) in *. split; simpl.
  - split; [by constructor|]. simpl. apply NoDup_cons. split; [|exact (NoDup_sub _ _ H5 Hn)].
    intros Hin. apply Hk. exact (elem_of_submseteq _ _ _ Hin H5).
  - rewrite H2. f_equal. lia.
  - rewrite H4 in *. intros Hsmall. specialize (Hb Hsmall). pose proof (held_nonneg _ H1).
    rewrite u32_small in H2; [lia|unfold is_u32; lia].
  - by rewrite H4.
Qed.
(** Without the bound on the budget the total can wrap around, and nothing is trimmed. *)
Lemma total_wraps mc d :
  2 ^ 32 ≤ total mc + bytes d ≤ 2 ^ 32 + budget mc → budget mc < 2 ^ 32 →
  mc_lru (meta_trim (set_total (u32 (total mc + bytes d)) mc)) = mc_lru mc ∧
  total (meta_trim (set_total (u32 (total mc + bytes d)) mc)) = total mc + bytes d - 2 ^ 32.
Proof.
  intros Hr Hu. assert (Hw : u32 (total mc + bytes d) = total mc + bytes d - 2 ^ 32).
  { unfold u32. symmetry. apply (Z.mod_unique_pos _ _ 1); lia. }
  unfold meta_trim. cbn [mc_lru set_total]. cbn [meta_trim_loop budget total set_total].
  rewrite Hw, (proj2 (Z.ltb_ge _ _)) by lia. done.
Qed.

Lemma trim_loop_budget fuel : ∀ mc, budget (meta_trim_loop fuel mc) = budget mc.
Proof.
  induction fuel as [|fuel IH]; intros mc; cbn [meta_trim_loop]; [done|].
  destruct (budget mc <? total mc); [|done]. destruct (mc_lru mc !! mc_tail mc) as [t|] eqn:Ht; [|done].
  destruct (referenced t); rewrite IH; [done|]. unfold meta_evict. by rewrite Ht.
Qed.
Lemma trim_budget mc v : budget (meta_trim (set_total v mc)) = budget mc.
Proof. unfold meta_trim. by rewrite trim_loop_budget. Qed.

(** Finding a directory. *)
Lemma meta_position_spec l n b ds :
  match meta_position l n b ds with
  | Some i => ∃ d, ds !! i = Some d ∧ md_key d = (l, n, b)
  | None => (l, n, b) ∉ map md_key ds
  end.
Proof.
  induction ds as [|d ds IH]; simpl; [by intros ?%elem_of_nil|].
  destruct (key_matches l n b d) eqn:E.
  - apply key_matches_spec in E. by exists d.
  - assert (md_key d ≠ (l, n, b)) by (intros H; apply key_matches_spec in H; congruence).
    destruct (meta_position l n b ds) as [i|]; simpl; [done|].
    apply not_elem_of_cons. split; [done|exact IH].
Qed.

Lemma find_extent_ok mc l n b found mc' :
  mc_inv mc → meta_find_extent mc l n b = (found, mc') →
  mc_inv mc' ∧ budget mc' = budget mc ∧
  match found with
  | Some i => (∃ d, mc_lru mc' !! i = Some d ∧ md_key d = (l, n, b) ∧ dir_ok d) ∧
      map md_key (mc_lru mc') ≡ₚ map md_key (mc_lru mc) ∧ (l, n, b) ∈ map md_key (mc_lru mc)
  | None => mc' = mc ∧ (l, n, b) ∉ map md_key (mc_lru mc)
  end.
Proof.
  intros [Hd Ht Hb Hu]. unfold meta_find_extent. pose proof (meta_position_spec l n b (mc_lru mc)) as Hpos.
  destruct (meta_position l n b (mc_lru mc)) as [i|]; [|intros [= <- <-]; by split].
  destruct Hpos as (d & Hi & Hk). pose proof (Forall_lookup_1 _ _ _ _ (proj1 Hd) Hi) as Hdok.
  pose proof (delete_perm _ _ _ Hi) as Hperm.
  assert (Hin : (l, n, b) ∈ map md_key (mc_lru mc)).
  { rewrite <- Hk. apply list_elem_of_fmap_2. by eapply list_elem_of_lookup_2. }
  case_test.
  - rewrite Hi. intros [= <- <-]. split; [|split; [done|split; [by exists d|split; [exact (Permutation_sym (Permutation_map md_key Hperm))|done]]]].
    split; simpl; [by rewrite <- Hperm| | |done]; [rewrite Ht; by rewrite Hperm at 1|intros Hs; specialize (Hb Hs); by rewrite Hperm in Hb].
  - intros [= <- <-]. destruct (dirs_ok_mark _ i Hd) as [H1 H2]. split; [|split; [done|]].
    + split; simpl; [done|by rewrite H2|by rewrite H2|done].
    + split; [|split; [simpl; by rewrite mark_keys|done]].
      exists (set_referenced true d). split_and!; [|done|by apply dir_ok_referenced].
      simpl. rewrite list_lookup_alter_eq, Hi. done.
Qed.
Lemma store_ok mc i d d' :
  mc_inv mc → mc_lru mc !! i = Some d → dir_ok d' → md_key d' = md_key d → bytes d' = bytes d →
  mc_inv (set_mc_lru (<[i := d']> (mc_lru mc)) mc) ∧ map md_key (<[i := d']> (mc_lru mc)) = map md_key (mc_lru mc).
Proof.
  intros [Hd Ht Hb Hu] Hi Hd' Hk Hby. destruct (dirs_ok_insert _ i d d' Hi Hd' Hk Hby Hd) as (H1 & H2 & H3).
  split; [|exact H3]. split; simpl; [done|by rewrite H2|by rewrite H2|done].
Qed.
End inv.
