(* ===== verification/MetaCacheSpec.v ===== *)
(** * What the parsed-directory cache serves

    Enumeration, lookup and path walks through the cache against the listings of the
    backend: the entries delivered, the entry found, and the nodes walked are those
    of the listings, except for the numbers a parse gives them ([face]); when the
    cache does not serve a directory it says so and has no effect. *)
From stdpp Require Import relations.
From S2P Require Import Prelude Types Strings Backend MetaCache MetaCacheProofs.
Open Scope Z_scope.

(** ** Names *)

Definition pairs_below (n : nat) : list (Z * Z) := x ← seqZ 0 (Z.of_nat n); y ← seqZ 0 (Z.of_nat n); [(x, y)].
Definition same_char (x y : Z) : bool :=
  (x =? y) || negb (negb (Z.lor x 32 =? Z.lor y 32) || (Z.lor x 32 <? 97) || (122 <? Z.lor x 32)).
Lemma same_char_all :
  Forall (λ '(x, y), same_char x y = (odfs_ascii_tolower x =? odfs_ascii_tolower y) ∧
    (same_char x y = true → first_differs x y = false)) (pairs_below 256).
Proof.
  assert (H : forallb (λ '(x, y), Bool.eqb (same_char x y) (odfs_ascii_tolower x =? odfs_ascii_tolower y)
    && implb (same_char x y) (negb (first_differs x y))) (pairs_below 256) = true) by (vm_compute; reflexivity).
  apply Forall_forall. intros [x y] Hin. apply list_elem_of_In in Hin.
  rewrite forallb_forall in H. specialize (H _ Hin). simpl in H. apply andb_true_iff in H as [H1 H2].
  apply Bool.eqb_prop in H1. split; [done|]. intros Hs. rewrite Hs in H2. simpl in H2. by apply negb_true_iff in H2.
Qed.
Lemma same_char_spec x y : is_byte x → is_byte y →
  same_char x y = (odfs_ascii_tolower x =? odfs_ascii_tolower y) ∧ (same_char x y = true → first_differs x y = false).
Proof.
  intros Hx Hy. pose proof same_char_all as H. rewrite Forall_forall in H. apply (H (x, y)).
  unfold pairs_below. apply list_elem_of_bind. exists x. split; [|apply elem_of_seqZ; unfold is_byte in *; lia].
  apply list_elem_of_bind. exists y. split; [set_solver|apply elem_of_seqZ; unfold is_byte in *; lia].
Qed.

Lemma meta_name_eq_spec a b rest : is_name a → is_name b →
  meta_name_eq (a ++ 0 :: rest) b = bool_decide (name_equiv a b).
Proof.
  intros Ha. revert b. induction Ha as [|x a Hx Ha IH]; intros b Hb; destruct Hb as [|y b Hy Hb].
  - by rewrite bool_decide_true.
  - cbn [app meta_name_eq]. rewrite bool_decide_false by done.
    rewrite (proj2 (Z.eqb_neq 0 y)) by lia. simpl. by rewrite orb_true_r.
  - cbn [app meta_name_eq]. rewrite bool_decide_false by done. apply Z.eqb_neq. lia.
  - cbn [app meta_name_eq]. destruct (same_char_spec x y) as [Hs _]; [unfold is_byte; lia..|].
    assert (Hc : bool_decide (name_equiv (x :: a) (y :: b)) = same_char x y && bool_decide (name_equiv a b)).
    { rewrite Hs. unfold name_equiv. simpl. destruct (Z.eqb_spec (odfs_ascii_tolower x) (odfs_ascii_tolower y)); simpl.
      - apply bool_decide_ext. split; [by intros [= _ ?]|congruence].
      - apply bool_decide_false. congruence. }
    rewrite Hc, <- IH by done. unfold same_char.
    destruct (x =? y); simpl; [done|]. by destruct (_ || _).
Qed.

Lemma same_first a b rest : is_name a → is_name b → name_equiv a b →
  first_differs (default 0 (head (a ++ 0 :: rest))) (default 0 (head b)) = false.
Proof.
  intros Ha Hb Hab. destruct Ha as [|x a Hx Ha], Hb as [|y b Hy Hb]; try done. simpl.
  destruct (same_char_spec x y) as [Hs Hd]; [unfold is_byte; lia..|]. apply Hd. rewrite Hs.
  injection Hab as -> _. apply Z.eqb_refl.
Qed.

(** ** One directory *)

(** The entry of a listing that [nm] names. *)
Definition listed (L : list odfs_node) (nm : list Z) : option odfs_node :=
  List.find (λ n, bool_decide (name_equiv (name n) nm)) L.

Lemma face_face n : face (face n) = face n.
Proof. unfold face, normal_as. destruct n as [? ? ? ? ? ? ? ? ? [[] ? [] ?] ? ?]; done. Qed.

Lemma find_rep d (f : odfs_meta_entry → bool) nm es L :
  Forall2 (entry_rep (pool d)) es L →
  (∀ e n, e ∈ es → entry_rep (pool d) e n → f e = bool_decide (name_equiv (name n) nm)) →
  face <$> (meta_entry_to_node d <$> List.find f es) = listed (map face L) nm.
Proof.
  induction 1 as [|e n es L He _ IH]; intros Hf; [done|]. unfold listed. cbn [List.find map].
  rewrite (Hf e n) by (done || set_solver). change (name (face n)) with (name n).
  destruct (bool_decide (name_equiv (name n) nm)).
  - simpl. by rewrite (entry_to_node_face d e n).
  - apply IH. intros e' n' Hin. apply Hf. set_solver.
Qed.

Section dir.
Context (listing : Z → Z → odfs_backend_type → list odfs_node).
Abbreviation listing_of k := (listing k.1.1 k.1.2 k.2).

Lemma find_name_ok d nm e d' :
  dir_ok listing d → is_name nm → meta_find_name d nm = (e, d') →
  dir_ok listing d' ∧ md_key d' = md_key d ∧ bytes d' = bytes d ∧
  face <$> (meta_entry_to_node d' <$> e) = listed (listing_of (md_key d)) nm.
Proof.
  intros Hd Hnm. pose proof Hd as [(L & Hrep & HL) Hb Hh]. unfold meta_find_name. simpl. rewrite <- HL.
  assert (Hname : ∀ d' e n, pool d' = pool d → entry_rep (pool d) e n →
    ∃ rest, name_at d' e = name n ++ 0 :: rest ∧ is_name (name n)).
  { intros d0 e0 n Hp (_ & (Hn & _) & (_ & _ & rest & Hr) & _). exists rest. unfold name_at. by rewrite Hp. }
  destruct (meta_count d <? META_LOOKUP_HASH_MIN).
  - intros [= <- <-]. split_and!; try done. apply find_rep; [done|].
    intros e0 n _ He. destruct (Hname d e0 n eq_refl He) as (rest & Hr & Hn).
    rewrite Hr, (meta_name_eq_spec _ _ _ Hn Hnm).
    destruct (bool_decide_reflect (name_equiv (name n) nm)) as [Heq|]; [|by rewrite andb_false_r].
    by rewrite (same_first _ _ _ Hn Hnm Heq).
  - set (d1 := if hashed d then d else _).
    assert (Hd1 : dir_ok listing d1 ∧ md_key d1 = md_key d ∧ bytes d1 = bytes d ∧ pool d1 = pool d ∧
      Forall2 (entry_rep (pool d)) (md_entries d1) L ∧
      ∀ e, e ∈ md_entries d1 → me_name_hash e = odfs_strcasehash (c_str (name_at d e))).
    { unfold d1. destruct (hashed d) eqn:Hhd; [by split_and!; try apply Hh|].
      set (h e := set_name_hash (odfs_strcasehash (c_str (name_at d e))) e).
      assert (Hrep1 : Forall2 (entry_rep (pool d)) (map h (md_entries d)) L).
      { change (map h (md_entries d)) with (h <$> md_entries d). apply Forall2_fmap_l.
        eapply Forall2_impl; [exact Hrep|]. intros e0 n (He & Hrest). split; [|exact Hrest].
        unfold h. rewrite He. done. }
      assert (Hhash : ∀ e0, e0 ∈ map h (md_entries d) → me_name_hash e0 = odfs_strcasehash (c_str (name_at d e0))).
      { intros e0 (e1 & -> & _)%list_elem_of_fmap. done. }
      split_and!; try done. split; simpl; [by exists L| |done].
      rewrite Hb. unfold dir_size, meta_count. simpl. by rewrite length_map. }
    destruct Hd1 as (Hok & Hk & Hby & Hp & Hrep1 & Hhash). intros [= <- <-]. split_and!; try done.
    apply find_rep; [by rewrite Hp|]. rewrite Hp. intros e0 n Hin He.
    destruct (Hname d1 e0 n Hp He) as (rest & Hr & Hn).
    rewrite Hr, (meta_name_eq_spec _ _ _ Hn Hnm).
    destruct (bool_decide_reflect (name_equiv (name n) nm)) as [Heq|]; [|by rewrite andb_false_r].
    rewrite andb_true_r. apply Z.eqb_eq. rewrite (Hhash e0 Hin), strcasehash_len_spec, Nat2Z.id, take_ge by lia.
    destruct (Hname d e0 n eq_refl He) as (rest' & Hr' & _).
    rewrite Hr', c_str_app_nul by (by apply is_name_no_nul). by rewrite Heq.
Qed.

Lemma mc_inv_same mc mc' :
  mc_lru mc' = mc_lru mc → total mc' = total mc → budget mc' = budget mc → mc_inv listing mc → mc_inv listing mc'.
Proof. intros Hl Ht Hb [H1 H2 H3 H4]. split; rewrite ?Hl, ?Ht, ?Hb; done. Qed.

(** ** Paths *)

(** [c] is a component of a path the cache takes. *)
Definition component (c : list Z) : Prop := c ≠ [] ∧ (47 ∉ c) ∧ zlen c < ODFS_NAME_MAX.
(** Walking the path [p] from the directory [k] through the listings of the
    directories with the keys [cached]: the error, and the nodes walked if there is
    none.  [ODFS_ERR_UNSUPPORTED] stands for a directory that is not cached, a symbolic
    link, and a component that is empty or too long. *)
Inductive finds (cached : list (Z * Z * odfs_backend_type)) :
    Z * Z * odfs_backend_type → list Z → odfs_err → list odfs_node → Prop :=
  | finds_last k c n rest :
      k ∈ cached → component c → listed (listing_of k) c = Some n → kind n ≠ ODFS_NODE_SYMLINK → rest = [] ∨ rest = [47] →
      finds cached k (c ++ rest) ODFS_OK [n]
  | finds_nothing k c rest :
      k ∈ cached → component c → listed (listing_of k) c = None → rest = [] ∨ head rest = Some 47 →
      finds cached k (c ++ rest) ODFS_ERR_NOT_FOUND []
  | finds_no_dir k c n x p :
      k ∈ cached → component c → listed (listing_of k) c = Some n → kind n ≠ ODFS_NODE_SYMLINK → kind n ≠ ODFS_NODE_DIR →
      x ≠ 47 → finds cached k (c ++ 47 :: x :: p) ODFS_ERR_NOT_DIR []
  | finds_in k c n x p err ns :
      k ∈ cached → component c → listed (listing_of k) c = Some n → kind n = ODFS_NODE_DIR → x ≠ 47 →
      finds cached (node_key n) (x :: p) err ns →
      finds cached k (c ++ 47 :: x :: p) err (if err_ok err then n :: ns else [])
  | finds_uncached k p : (k ∉ cached) → finds cached k p ODFS_ERR_UNSUPPORTED []
  | finds_bad_name k c rest :
      k ∈ cached → c = [] ∨ ODFS_NAME_MAX ≤ zlen c → (47 ∉ c) → rest = [] ∨ head rest = Some 47 →
      finds cached k (c ++ rest) ODFS_ERR_UNSUPPORTED []
  | finds_link k c n rest :
      k ∈ cached → component c → listed (listing_of k) c = Some n → kind n = ODFS_NODE_SYMLINK →
      rest = [] ∨ head rest = Some 47 → finds cached k (c ++ rest) ODFS_ERR_UNSUPPORTED []
  | finds_two_slashes k c n p :
      k ∈ cached → component c → listed (listing_of k) c = Some n → kind n ≠ ODFS_NODE_SYMLINK →
      finds cached k (c ++ 47 :: 47 :: p) ODFS_ERR_UNSUPPORTED [].

Lemma path_name_spec p : let '(c, rest) := path_name p in
  p = c ++ rest ∧ (47 ∉ c) ∧ (rest = [] ∨ head rest = Some 47).
Proof.
  induction p as [|x p IH]; simpl; [split_and!; [done|set_solver|by left]|].
  destruct (Z.eqb_spec x 47) as [->|Hx]; [split_and!; [done|set_solver|by right]|].
  destruct (path_name p) as [c rest]. destruct IH as (-> & Hc & Hr). split_and!; [done| |done].
  apply not_elem_of_cons. done.
Qed.

Lemma walk_ok cached fuel : ∀ mc pos p walked d,
  (length p < fuel)%nat → mc_inv listing mc → map md_key (mc_lru mc) ≡ₚ cached → mc_lru mc !! pos = Some d → is_name p →
  yields (lookup_path_loop fuel mc pos p walked) (λ '(r, walked', mc'), mc_inv listing mc' ∧ budget mc' = budget mc ∧
    match r with
    | None => ∃ ns, finds cached (md_key d) p ODFS_OK ns ∧ map face walked' = rev ns ++ map face walked ∧ ns ≠ []
    | Some err => err_ok err = false ∧ finds cached (md_key d) p err []
    end).
Proof.
  induction fuel as [|fuel IH]; intros mc pos p walked d Hfuel Hinv Hcached Hpos Hp; [lia|]. cbn [lookup_path_loop].
  pose proof (path_name_spec p) as Hpn. destruct (path_name p) as [c rest]. destruct Hpn as (-> & Hc & Hrest).
  assert (Hk0 : md_key d ∈ cached).
  { rewrite <- Hcached. apply list_elem_of_fmap_2. by eapply list_elem_of_lookup_2. }
  assert (Hsome : ∀ err walked0 mc', mc_inv listing mc' → budget mc' = budget mc → err_ok err = false →
    finds cached (md_key d) (c ++ rest) err [] →
    yields (Ret (Some err, walked0, mc')) (λ '(r, walked', mc'), mc_inv listing mc' ∧ budget mc' = budget mc ∧
      match r with
      | None => ∃ ns, finds cached (md_key d) (c ++ rest) ODFS_OK ns ∧ map face walked' = rev ns ++ map face walked ∧ ns ≠ []
      | Some err => err_ok err = false ∧ finds cached (md_key d) (c ++ rest) err []
      end)).
  { intros err walked0 mc' ? ? ? ?. by apply yields_ret. }
  destruct (bool_decide (c = []) || (ODFS_NAME_MAX <=? zlen c)) eqn:Hbad.
  { apply Hsome; [done..|]. apply finds_bad_name; try done. apply orb_true_iff in Hbad as [H|H]; b2p; [by left|by right]. }
  apply orb_false_iff in Hbad as [Hne Hlen]. b2p.
  assert (Hcomp : component c) by done. apply Forall_app in Hp as [Hpc Hpr]. rewrite Hpos.
  destruct (meta_find_name d c) as [e d'] eqn:Hfind.
  pose proof (Forall_lookup_1 _ _ _ _ (proj1 (mi_dirs _ _ Hinv)) Hpos) as Hd.
  destruct (find_name_ok d c e d' Hd Hpc Hfind) as (Hd' & Hk & Hby & Hface).
  destruct (store_ok listing mc pos d d' Hinv Hpos Hd' Hk Hby) as [Hinv' Hkeys'].
  destruct e as [e|].
  2: { apply Hsome; [done..|]. by apply finds_nothing. }
  simpl in Hface. symmetry in Hface.
  destruct (bool_decide_reflect (me_kind e = ODFS_NODE_SYMLINK)) as [|Hlink].
  { apply Hsome; [done..|]. by eapply finds_link. }
  destruct (decide (rest = [] ∨ rest = [47])) as [Hlast|Hmore].
  { assert (yields (Ret (None, meta_entry_to_node d' e :: walked, set_mc_lru (<[pos := d']> (mc_lru mc)) mc))
      (λ '(r, walked', mc'), mc_inv listing mc' ∧ budget mc' = budget mc ∧
      match r with
      | None => ∃ ns, finds cached (md_key d) (c ++ rest) ODFS_OK ns ∧ map face walked' = rev ns ++ map face walked ∧ ns ≠ []
      | Some err => err_ok err = false ∧ finds cached (md_key d) (c ++ rest) err []
      end)) as Hy.
    { apply yields_ret. split_and!; [done|done|]. exists [face (meta_entry_to_node d' e)].
      split_and!; [by apply finds_last|done|done]. }
    by destruct Hlast as [-> | ->]. }
  destruct rest as [|x [|y q]]; [tauto| |].
  { destruct Hrest as [|[= ->]]; tauto. }
  destruct Hrest as [|[= ->]]; [done|].
  match goal with |- context [if (?b =? 47) then _ else _] => destruct (b =? 47) eqn:Hy end; simpl in Hy; b2p.
  { subst y. apply Hsome; [done..|]. by eapply finds_two_slashes. }
  destruct (bool_decide_reflect (me_kind e = ODFS_NODE_DIR)) as [Hdir|Hdir]; cbn [negb].
  2: { apply Hsome; [done..|]. by eapply finds_no_dir. }
  destruct (meta_find_extent _ _ _ _) as [found mc2] eqn:Hext.
  apply (find_extent_ok listing _ _ _ _ _ _ Hinv') in Hext as (Hinv2 & Hb2 & Hfound).
  change (mc_lru (set_mc_lru ?l mc)) with l in Hfound. rewrite Hkeys' in Hfound.
  set (n := meta_entry_to_node d' e) in *.
  destruct found as [pos'|].
  2: { destruct Hfound as [-> Hnot]. apply Hsome; [done..|]. rewrite Hcached in Hnot.
    exact (finds_in cached _ c (face n) y q _ _ Hk0 Hcomp Hface Hdir Hy (finds_uncached _ _ _ Hnot)). }
  destruct Hfound as ((d2 & Hpos2 & Hk2 & Hd2) & Hperm2 & _).
  eapply yields_weaken.
  { apply (IH mc2 pos' (y :: q) (n :: walked) d2); try done.
    - rewrite length_app in Hfuel. simpl in *. lia.
    - by rewrite Hperm2.
    - by inversion Hpr. }
  intros [[r walked'] mc'] (Hinv3 & Hb3 & Hr). split_and!; [done|by rewrite Hb3|].
  assert (Hkey : md_key d2 = node_key (face n)) by done. rewrite Hkey in Hr.
  destruct r as [err|].
  - destruct Hr as [Herr Hr]. split; [done|].
    pose proof (finds_in cached (md_key d) c (face n) y q err [] Hk0 Hcomp Hface Hdir Hy Hr) as H. by rewrite Herr in H.
  - destruct Hr as (ns & Hr & Hw & _). exists (face n :: ns). split_and!; [|simpl; rewrite Hw; by rewrite <- app_assoc|done].
    exact (finds_in cached (md_key d) c (face n) y q ODFS_OK ns Hk0 Hcomp Hface Hdir Hy Hr).
Qed.

(** ** Bookkeeping *)
Lemma flush_ok mc : mc_inv listing mc → mc_inv listing (odfs_meta_cache_flush mc).
Proof.
  intros Hinv. unfold odfs_meta_cache_flush. cbv zeta.
  apply (mc_inv_same (meta_flush_loop (length (mc_lru mc)) mc)); [done..|].
  generalize (length (mc_lru mc)) as fuel. intros fuel. revert mc Hinv.
  induction fuel as [|fuel IH]; intros mc Hinv; cbn [meta_flush_loop]; [done|].
  destruct (bool_decide (mc_lru mc = [])); [done|]. apply IH. unfold meta_evict.
  destruct (mc_lru mc !! mc_tail mc) as [t|] eqn:Ht; [|done].
  pose proof (delete_perm _ _ _ Ht) as Hperm. destruct Hinv as [[Hf Hn] Htot Hb Hu].
  rewrite Hperm in Hf, Hn, Htot. inversion_clear Hf as [|? ? Hdt Hfd]. simpl in Hn, Htot. apply NoDup_cons in Hn as [_ Hn].
  pose proof (dir_size_nonneg t). pose proof (do_bytes _ _ Hdt). split; simpl; [done| | |done].
  - rewrite Htot. unfold u32. rewrite Zminus_mod_idemp_l. f_equal. lia.
  - intros Hs. specialize (Hb Hs). rewrite Hperm in Hb. simpl in Hb. lia.
Qed.
Lemma flush_budget mc : budget (odfs_meta_cache_flush mc) = budget mc.
Proof.
  unfold odfs_meta_cache_flush. simpl. generalize (length (mc_lru mc)) as fuel. intros fuel. revert mc.
  induction fuel as [|fuel IH]; intros mc; cbn [meta_flush_loop]; [done|].
  destruct (bool_decide (mc_lru mc = [])); [done|]. rewrite IH. unfold meta_evict. by destruct (mc_lru mc !! _).
Qed.
Lemma init_ok b : is_u32 b → mc_inv listing (odfs_meta_cache_init b).
Proof. intros Hb. split; simpl; [split; constructor|done|unfold is_u32 in Hb; lia|done]. Qed.
Lemma path_ok mc dir p :
  mc_inv listing mc → is_name p →
  ∃ err out count mc' ns, odfs_meta_lookup_path mc dir p = Ret (err, out, count, mc') ∧ mc_inv listing mc' ∧
    budget mc' = budget mc ∧ finds (map md_key (mc_lru mc)) (node_key dir) p err ns ∧
    map face out = take 3 (rev ns) ∧ count = zlen ns.
Proof.
  intros Hinv Hp. unfold odfs_meta_lookup_path. destruct (meta_find mc dir) as [found mc1] eqn:Hfind.
  apply (find_extent_ok listing _ _ _ _ _ _ Hinv) in Hfind as (Hinv1 & Hb1 & Hfound). fold (node_key dir) in Hfound.
  destruct found as [pos|].
  2: { eexists _, _, _, _, []. split; [reflexivity|]. destruct Hfound as [-> Hnot].
    split_and!; [done|done|by apply finds_uncached|done|done]. }
  destruct Hfound as ((d & Hpos & Hk & _) & Hperm & _).
  destruct (walk_ok (map md_key (mc_lru mc)) (S (length p)) mc1 pos p [] d) as ([[r walked] mc2] & -> & Hinv2 & Hb2 & Hr);
    [lia|done..|].
  cbn [mbind outcome_bind]. rewrite Hk in Hr. destruct r as [err|].
  - destruct Hr as [Herr Hr]. eexists _, _, _, _, []. split; [reflexivity|]. split_and!; [done|congruence|done|done|done].
  - destruct Hr as (ns & Hr & Hw & Hne). rewrite app_nil_r in Hw. eexists _, _, _, _, ns. split; [reflexivity|].
    split_and!; [by apply (mc_inv_same mc2)|simpl; congruence|done| |].
    + rewrite <- Hw. change (map face) with (fmap (M := list) face). by rewrite fmap_take.
    + apply (f_equal length) in Hw. rewrite length_map, length_rev in Hw. lia.
Qed.
End dir.

(** ** The cache over a backend *)
Section backend.
Context (malloc : nat → Z → bool) {W : Type} (ops : odfs_backend_ops W) (ctx : Z).
Context (good : W → Prop) (listable : odfs_node → Prop) (listing : Z → Z → odfs_backend_type → list odfs_node).
Context `{HL : !Lists ops ctx good listable listing}.
Abbreviation listing_of k := (listing k.1.1 k.1.2 k.2).

Lemma build_init_rep mc dir : bc_rep (meta_build_init malloc mc dir) [].
Proof. unfold bc_rep, meta_build_init. simpl. constructor. Qed.
Lemma build_ok w mc dir :
  mc_inv listing mc → good w → listable dir →
  ∃ r big mc' w', meta_build malloc ops ctx w mc dir = Ret (r, big, mc', w') ∧ good w' ∧
    mc_lru mc' = mc_lru mc ∧ total mc' = total mc ∧ budget mc' = budget mc ∧
    ∀ d, r = Some d → dir_ok listing d ∧ md_key d = node_key dir.
Proof.
  intros Hinv Hw Hdir. destruct HL as (readdir & Hops & Hlist). unfold meta_build. rewrite Hops.
  destruct (Hlist meta_build_ctx w dir (meta_build_cb malloc) (meta_build_init malloc mc dir) Hw Hdir)
    as (L & r & w' & -> & Hw' & HLL & Hwf). cbn [mbind outcome_bind].
  destruct (run (meta_build_cb malloc) L (meta_build_init malloc mc dir)) as [err bc] eqn:Hrun. cbn [fst snd].
  assert (Hb : bc_failed bc = true ∨ err = ODFS_OK ∧ bc_rep bc L ∧ built_bytes bc < 2 ^ 32).
  { destruct L as [|n L].
    - cbn [run] in Hrun. apply (f_equal fst) in Hrun as He. apply (f_equal snd) in Hrun. simpl in He, Hrun. subst err bc. right. split_and!; [done|apply build_init_rep|]. unfold built_bytes. simpl.
      unfold SIZEOF_META_DIR, SIZEOF_META_ENTRY. lia.
    - destruct (run_build_nonempty malloc n L (meta_build_init malloc mc dir) err bc Hwf (build_init_rep _ _) Hrun)
        as [?|(? & ? & Hle)]; [by left|right]. split_and!; try done.
      pose proof (mi_u32 _ _ Hinv). unfold is_u32 in *. simpl in Hle. lia. }
  destruct (bc_failed bc || negb (err_ok err)) eqn:Hfail.
  { eexists _, _, _, _. split; [reflexivity|]. by split_and!. }
  destruct Hb as [Hb|(-> & Hrep & Hlt)]; [by rewrite Hb in Hfail|].
  cbn [mc_allocs set_mc_allocs]. destruct (malloc _ _); cbn [negb].
  2: { eexists _, _, _, _. split; [reflexivity|]. by split_and!. }
  eexists _, _, _, _. split; [reflexivity|]. split_and!; try done.
  intros d [= <-]. split; [|done]. split; simpl; [by exists L| |done].
  unfold dir_size, meta_count. simpl. apply u32_small. unfold is_u32. split; [|exact Hlt].
  unfold built_bytes, SIZEOF_META_DIR, SIZEOF_META_ENTRY. lia.
Qed.

(** A directory that is found or made stands for the listing of [dir]. *)
Lemma get_ok w mc dir :
  mc_inv listing mc → good w → listable dir →
  ∃ r mc' w', meta_get malloc ops ctx w mc dir = Ret (r, mc', w') ∧ mc_inv listing mc' ∧
    budget mc' = budget mc ∧ good w' ∧ (r = None → node_key dir ∉ map md_key (mc_lru mc)) ∧
    ∀ r', r = Some r' → ∃ d, meta_deref mc' r' = Some d ∧ dir_ok listing d ∧ md_key d = node_key dir.
Proof.
  intros Hinv Hw Hdir. unfold meta_get. destruct (meta_find mc dir) as [found mc1] eqn:Hfind.
  apply (find_extent_ok listing _ _ _ _ _ _ Hinv) in Hfind as (Hinv1 & Hb1 & Hfound).
  destruct found as [i|].
  - eexists _, _, _. split; [reflexivity|]. split_and!; try done; [by apply (mc_inv_same listing mc1)|].
    intros r' [= <-]. destruct Hfound as ((d & Hi & Hk & Hd) & _). by exists d.
  - destruct Hfound as [-> Hnew]. clear Hinv1 Hb1.
    set (mc1 := set_mc_stats _ mc). assert (Hinv1 : mc_inv listing mc1) by (by apply (mc_inv_same listing mc)).
    destruct (meta_oversize mc1 dir).
    { eexists _, _, _. split; [reflexivity|]. by split_and!. }
    destruct (build_ok w mc1 dir Hinv1 Hw Hdir) as (r & big & mc2 & w' & -> & Hw' & Hl2 & Ht2 & Hb2 & Hd).
    assert (Hinv2 : mc_inv listing mc2) by (by apply (mc_inv_same listing mc1)).
    cbn [mbind outcome_bind]. destruct r as [d|].
    + destruct (Hd d eq_refl) as [Hdok Hk]. destruct (budget mc2 <? bytes d) eqn:Hbig.
      * eexists _, _, _. split; [reflexivity|]. split_and!; try done. intros r' [= <-]. by exists d.
      * b2p. eexists _, _, _. split; [reflexivity|]. split.
        { apply insert_dir_ok; try done. rewrite Hk, Hl2. exact Hnew. }
        split_and!; [|done|done|intros r' [= <-]; by exists d].
        transitivity (budget mc2); [|done]. by apply trim_budget.
    + eexists _, _, _. split; [reflexivity|]. destruct big; split_and!; try done; by apply (mc_inv_same listing mc2).
Qed.

(** [dir] is in the cache, which serves it. *)
Definition cached (mc : odfs_meta_cache) (dir : odfs_node) : Prop :=
  meta_dir_cacheable mc dir = true ∧ node_key dir ∈ map md_key (mc_lru mc).
(** The cookies the cache did not give out are refused; with an initial cookie, only
    directories that are not in the cache. *)
Definition refusable (mc : odfs_meta_cache) (dir : odfs_node) (resume : option Z) : Prop :=
  Z.land (default 0 resume) ODFS_META_COOKIE_TAG = 0 ∧ (default 0 resume = 0 → ¬ cached mc dir).

(** *** Enumeration *)

(** How many entries [run] delivers, the one it stops at included. *)
Fixpoint delivered {T} (cb : odfs_dir_iter_fn T) (L : list odfs_node) (t : T) : Z :=
  match L with
  | [] => 0
  | n :: L => let '(err, t) := cb n t in if err_ok err then 1 + delivered cb L t else 1
  end.
Lemma delivered_le {T} (cb : odfs_dir_iter_fn T) L t : 0 ≤ delivered cb L t ≤ zlen L.
Proof.
  revert t. induction L as [|n L IH]; intros t; simpl; [lia|]. destruct (cb n t) as [err t'].
  specialize (IH t'). destruct (err_ok err); lia.
Qed.

(** Offsets below [2 ^ 31] are not taken for the cache's. *)
Lemma untagged c : 0 ≤ c < 2 ^ 31 → Z.land c ODFS_META_COOKIE_TAG = 0.
Proof.
  intros Hc. change ODFS_META_COOKIE_TAG with (2 ^ 31). apply Z.bits_inj'. intros k Hk. rewrite Z.land_spec, Z.bits_0.
  destruct (decide (k = 31)) as [->|Hne]; [|by rewrite Z.pow2_bits_false, andb_false_r by lia].
  rewrite Z.testbit_eqb by lia. by rewrite Z.div_small by lia.
Qed.
Lemma err_ok_eq e : err_ok e = true → e = ODFS_OK.
Proof. by destruct e. Qed.

(** A replay delivers the entries of the listing from [i] on. *)
Lemma replay_loop_ok {T} (cb : odfs_dir_iter_fn T) d L0 : ∀ es i t,
  Forall2 (λ e n, face (meta_entry_to_node d e) = face n) es L0 → 0 ≤ i → i + zlen es = meta_count d → meta_count d < 2 ^ 32 →
  ∃ L, map face L = map face L0 ∧
    meta_replay_loop cb d es i t =
      ((run cb L t).1, Z.lor ODFS_META_COOKIE_TAG (i + delivered cb L t), (run cb L t).2).
Proof.
  intros es i t Hes. revert i t. induction Hes as [|e n es L0 He _ IH]; intros i t Hi Hlen Hmax.
  - exists []. simpl. split; [done|]. simpl in Hlen. by replace (i + 0) with (meta_count d) by lia.
  - cbn [meta_replay_loop]. destruct (cb (meta_entry_to_node d e) t) as [err t'] eqn:Hcb. simpl in Hlen.
    destruct (err_ok err) eqn:Herr; cbn [negb].
    + destruct (IH (i + 1) t') as (L & HLL & ->); [lia..|].
      exists (meta_entry_to_node d e :: L). cbn [map run delivered]. rewrite He, HLL, Hcb, Herr.
      by rewrite Z.add_assoc.
    + exists (meta_entry_to_node d e :: L0). cbn [map run delivered]. rewrite He, Hcb, Herr.
      rewrite u32_small by (unfold is_u32; lia). done.
Qed.

(** Skipping [k] entries and delivering the rest. *)
Lemma skip_run {T} (cb : odfs_dir_iter_fn T) k L : ∀ i t,
  0 ≤ i → i + zlen L < 2 ^ 32 →
  let R := drop (Z.to_nat (k - i)) L in let r := run cb R t in
  run (meta_skip_cb cb) L (mk_skip k i t ODFS_OK false) =
    (r.1, mk_skip k (i + zlen L - zlen R + delivered cb R t) r.2 r.1 (negb (err_ok r.1))).
Proof.
  induction L as [|n L IH]; intros i t Hi Hmax; cbn zeta.
  - rewrite drop_nil. cbn [run delivered length fst snd]. do 2 f_equal. lia.
  - simpl in Hmax. cbn [run]. unfold meta_skip_cb at 1. cbn [sk_index sk_skip sk_state sk_err sk_stopped].
    rewrite (u32_small (i + 1)) by (unfold is_u32; lia). destruct (Z.ltb_spec i k).
    + cbn [err_ok]. rewrite (IH (i + 1) t) by lia.
      replace (Z.to_nat (k - i)) with (S (Z.to_nat (k - (i + 1)))) by lia. cbn [drop length].
      do 2 f_equal. lia.
    + replace (Z.to_nat (k - i)) with 0%nat by lia. rewrite drop_0. cbn [run delivered].
      destruct (cb n t) as [err t'] eqn:Hcb. destruct (err_ok err) eqn:Herr; cbn [negb].
      * apply err_ok_eq in Herr as ->. rewrite (IH (i + 1) t') by lia.
        replace (Z.to_nat (k - (i + 1))) with 0%nat by lia. rewrite drop_0. cbn [length]. do 2 f_equal. lia.
      * cbn [fst snd]. rewrite Herr. do 2 f_equal. lia.
Qed.

(** What an enumeration from [resume] on does to the callback's state. *)
Definition serves {T} (cb : odfs_dir_iter_fn T) (Ls : list odfs_node) (t : T) (resume : option Z)
    (err : odfs_err) (c : option Z) (t' : T) : Prop :=
  ∃ L, map face L = Ls ∧
    let R := drop (Z.to_nat (untag (default 0 resume))) L in
    run cb R t = (err, t') ∧
    c = (λ _, Z.lor ODFS_META_COOKIE_TAG (zlen L - zlen R + delivered cb R t)) <$> resume.

Lemma untag_nonneg z : 0 ≤ z → 0 ≤ untag z.
Proof. intros. unfold untag. apply Z.ldiff_nonneg. by left. Qed.

Lemma replay_ok {T} (cb : odfs_dir_iter_fn T) d t resume :
  dir_ok listing d → 0 ≤ default 0 resume → zlen (listing_of (md_key d)) < 2 ^ 31 →
  let '(err, c, t') := meta_replay cb d t resume in serves cb (listing_of (md_key d)) t resume err c t'.
Proof.
  intros [(L & Hrep & HLL) _ _] Hres Hmax. unfold meta_replay. set (i := untag (default 0 resume)).
  pose proof (untag_nonneg _ Hres) as Hi. fold i in Hi. cbn [md_key fst snd] in *.
  pose proof (Forall2_length _ _ _ Hrep) as Hlen. assert (HlenL : zlen L < 2 ^ 31).
  { rewrite <- HLL, length_map in Hmax. exact Hmax. }
  assert (Hf : Forall2 (λ e n, face (meta_entry_to_node d e) = face n) (md_entries d) L).
  { eapply Forall2_impl; [exact Hrep|]. intros e n He. by apply entry_to_node_face. }
  destruct (decide (i ≤ zlen L)) as [Hle|Hgt].
  - destruct (replay_loop_ok cb d (drop (Z.to_nat i) L) (drop (Z.to_nat i) (md_entries d)) i t) as (R & HR & ->).
    + by apply Forall2_drop.
    + done.
    + unfold meta_count. rewrite length_drop. lia.
    + unfold meta_count. lia.
    + exists (take (Z.to_nat i) L ++ R). rewrite map_app, HR, <- map_app, take_drop. split; [done|].
      fold i. rewrite drop_app_length' by (rewrite length_take; lia). cbn zeta.
      destruct (run cb R t) as [err t'] eqn:Hrun. split; [done|]. destruct resume; [|done]. simpl.
      do 2 f_equal. rewrite length_app, length_take. lia.
  - rewrite drop_ge by lia. cbn [meta_replay_loop]. exists L. split; [done|]. fold i. rewrite drop_ge by lia.
    split; [done|]. destruct resume; [|done]. simpl. do 2 f_equal. unfold meta_count. lia.
Qed.

Lemma readdir_ok {T} (cb : odfs_dir_iter_fn T) w mc dir t resume :
  mc_inv listing mc → good w → listable dir → 0 ≤ default 0 resume → zlen (listing_of (node_key dir)) < 2 ^ 31 →
  ∃ err c mc' w' t', odfs_meta_readdir malloc ops ctx cb w mc dir t resume = Ret (err, c, mc', w', t') ∧
    mc_inv listing mc' ∧ budget mc' = budget mc ∧ good w' ∧
    (err = ODFS_ERR_UNSUPPORTED ∧ c = resume ∧ t' = t ∧ refusable mc dir resume ∨ serves cb (listing_of (node_key dir)) t resume err c t').
Proof.
  intros Hinv Hw Hdir Hres Hmax. unfold odfs_meta_readdir.
  set (tagged := negb (Z.land (default 0 resume) ODFS_META_COOKIE_TAG =? 0)).
  destruct (negb (default 0 resume =? 0) && negb tagged) eqn:Hrefuse.
  { eexists _, _, _, _, _. split; [reflexivity|]. split_and!; try done. left. split_and!; try done.
    unfold tagged in Hrefuse. b2p. by split. }
  destruct (negb (meta_dir_cacheable mc dir) && negb tagged) eqn:Hnot.
  { eexists _, _, _, _, _. split; [reflexivity|]. split_and!; try done. left. split_and!; try done.
    unfold tagged in Hnot. b2p. split; [done|]. intros _ [Hc _]. congruence. }
  assert (Hget : ∃ r mc' w', (if negb (meta_dir_cacheable mc dir) then Ret (None, mc, w) else meta_get malloc ops ctx w mc dir)
    = Ret (r, mc', w') ∧ mc_inv listing mc' ∧ budget mc' = budget mc ∧ good w' ∧
    (r = None → negb tagged = true → ¬ cached mc dir) ∧ ∀ r', r = Some r' → ∃ d, meta_deref mc' r' = Some d ∧ dir_ok listing d ∧ md_key d = node_key dir).
  { destruct (negb (meta_dir_cacheable mc dir)).
    - eexists _, _, _. split; [reflexivity|]. split_and!; try done. intros _ Ht. by rewrite Ht in Hnot.
    - destruct (get_ok w mc dir Hinv Hw Hdir) as (r & mc' & w' & -> & ? & ? & ? & Hnone & Hr).
      exists r, mc', w'. split_and!; try done. intros Hn _ [_ Hc]. by apply Hnone. }
  destruct Hget as (r & mc' & w' & -> & Hinv' & Hb' & Hw' & Hnone & Hr). cbn [mbind outcome_bind].
  destruct r as [r|].
  - destruct (Hr r eq_refl) as (d & -> & Hd & Hk).
    pose proof (replay_ok cb d t resume Hd Hres) as Hrep. rewrite Hk in Hrep. specialize (Hrep Hmax).
    destruct (meta_replay cb d t resume) as [[err c] t'].
    eexists _, _, _, _, _. split; [reflexivity|]. split_and!; try done. by right.
  - destruct (negb tagged) eqn:Ht.
    { eexists _, _, _, _, _. split; [reflexivity|]. split_and!; try done. left. split_and!; try done.
      split; [unfold tagged in Ht; by b2p|]. intros _. by apply Hnone. }
    destruct HL as (readdir & -> & Hlist).
    destruct (Hlist _ w' dir (meta_skip_cb cb) (mk_skip (untag (default 0 resume)) 0 t ODFS_OK false) Hw' Hdir)
      as (L & rr & w2 & -> & Hw2 & HLL & _). cbn [mbind outcome_bind].
    assert (HlenL : zlen L < 2 ^ 31) by (unfold node_key in Hmax; simpl in Hmax; rewrite <- HLL, length_map in Hmax; exact Hmax).
    rewrite (skip_run cb _ L 0 t) by lia. cbn zeta. rewrite Z.sub_0_r, Z.add_0_l. cbn [fst snd sk_stopped sk_err sk_state sk_index].
    eexists _, _, _, _, _. split; [reflexivity|]. split_and!; try done. right.
    exists L. split; [done|]. cbn zeta. split; [|by destruct resume].
    destruct (run _ _ _) as [err t']. simpl. destruct (err_ok err) eqn:He; [|done]. done.
Qed.

(** *** Lookup *)
Lemma lookup_ok w mc dir nm :
  mc_inv listing mc → good w → listable dir → is_name nm →
  ∃ err out mc' w', odfs_meta_lookup malloc ops ctx w mc dir nm = Ret (err, out, mc', w') ∧
    mc_inv listing mc' ∧ budget mc' = budget mc ∧ good w' ∧
    (err = ODFS_ERR_UNSUPPORTED ∧ out = None ∧ ¬ cached mc dir ∨
     face <$> out = listed (listing_of (node_key dir)) nm ∧ err = (if out then ODFS_OK else ODFS_ERR_NOT_FOUND)).
Proof.
  intros Hinv Hw Hdir Hnm. unfold odfs_meta_lookup. destruct (negb (meta_dir_cacheable mc dir)) eqn:Hnot.
  { eexists _, _, _, _. split; [reflexivity|]. split_and!; try done. left. split_and!; try done.
    intros [Hc _]. b2p. congruence. }
  destruct (get_ok w mc dir Hinv Hw Hdir) as (r & mc' & w' & -> & Hinv' & Hb' & Hw' & Hnone & Hr). cbn [mbind outcome_bind].
  destruct r as [r|].
  2: { eexists _, _, _, _. split; [reflexivity|]. split_and!; try done. left. split_and!; try done.
    intros [_ Hc]. by apply Hnone. }
  destruct (Hr r eq_refl) as (d & Hdr & Hd & Hk). rewrite Hdr.
  destruct (meta_find_name d nm) as [e d'] eqn:Hfind.
  destruct (find_name_ok listing d nm e d' Hd Hnm Hfind) as (Hd' & Hk' & Hby' & Hface).
  assert (Hst : mc_inv listing (meta_store mc' r d') ∧ budget (meta_store mc' r d') = budget mc').
  { destruct r as [i|]; [|done]. split; [|done]. by apply (store_ok listing mc' i d d'). }
  rewrite Hk in Hface. destruct Hst as [Hst1 Hst2].
  destruct e as [e|]; eexists _, _, _, _; (split; [reflexivity|]); (split_and!; [done|congruence|done|right; done]).
Qed.

End backend.

(** ** Properties *)
Section claims.
Context (malloc : nat → Z → bool) {W : Type} (ops : odfs_backend_ops W) (ctx : Z).
Context (good : W → Prop) (listable : odfs_node → Prop) (listing : Z → Z → odfs_backend_type → list odfs_node).
Context `{HL : !Lists ops ctx good listable listing}.
Abbreviation listing_of k := (listing k.1.1 k.1.2 k.2).


(** A lookup through the metadata cache answers [ODFS_ERR_UNSUPPORTED] (never for
    a directory that is cached), or finds
    the first entry of the backend's listing whose name is the given one up to ASCII
    case, and says [ODFS_ERR_NOT_FOUND] exactly when there is none: the first-byte
    test of small directories and the hashes of large ones lose no entry. *)
Theorem meta_lookup_correct w mc dir nm :
  mc_inv listing mc → good w → listable dir → is_name nm →
  ∃ err out mc' w', odfs_meta_lookup malloc ops ctx w mc dir nm = Ret (err, out, mc', w') ∧
    mc_inv listing mc' ∧ good w' ∧
    (err = ODFS_ERR_UNSUPPORTED ∧ out = None ∧ ¬ cached mc dir ∨
     face <$> out = listed (listing_of (node_key dir)) nm ∧ err = (if out then ODFS_OK else ODFS_ERR_NOT_FOUND)).
Proof.
  intros Hinv Hw Hdir Hnm.
  destruct (lookup_ok malloc ops ctx good listable listing w mc dir nm Hinv Hw Hdir Hnm)
    as (err & out & mc' & w' & H & H1 & _ & H2 & H3). by exists err, out, mc', w'.
Qed.

(** [C14] A path walked through the metadata cache ends the way walking it through the
    listings of the cached directories does ([finds]): the same error, or the same
    nodes, of which the last three are returned, the last first, and their number.
    The walk always ends. *)
Theorem meta_lookup_path_correct mc dir p :
  mc_inv listing mc → is_name p →
  ∃ err out count mc' ns, odfs_meta_lookup_path mc dir p = Ret (err, out, count, mc') ∧ mc_inv listing mc' ∧
    finds listing (map md_key (mc_lru mc)) (node_key dir) p err ns ∧
    map face out = take 3 (rev ns) ∧ count = zlen ns.
Proof.
  intros Hinv Hp. destruct (path_ok listing mc dir p Hinv Hp) as (err & out & count & mc' & ns & H & H1 & _ & H2).
  by exists err, out, count, mc', ns.
Qed.

(** The operations on a cache, over a world. *)
Inductive mc_step : odfs_meta_cache * W → odfs_meta_cache * W → Prop :=
  | step_readdir T (cb : odfs_dir_iter_fn T) mc w dir t resume err c mc' w' t' :
      listable dir → 0 ≤ default 0 resume → zlen (listing_of (node_key dir)) < 2 ^ 31 →
      odfs_meta_readdir malloc ops ctx cb w mc dir t resume = Ret (err, c, mc', w', t') →
      mc_step (mc, w) (mc', w')
  | step_lookup mc w dir nm err out mc' w' :
      listable dir → is_name nm → odfs_meta_lookup malloc ops ctx w mc dir nm = Ret (err, out, mc', w') →
      mc_step (mc, w) (mc', w')
  | step_path mc w dir p err out count mc' :
      is_name p → odfs_meta_lookup_path mc dir p = Ret (err, out, count, mc') → mc_step (mc, w) (mc', w)
  | step_flush mc w : mc_step (mc, w) (odfs_meta_cache_flush mc, w).

(** [C15] Whatever sequence of enumerations, lookups, path walks and flushes a cache
    goes through, on directories the backend lists, with a budget below [2 ^ 31] bytes:
    the bytes it accounts for in its 32-bit total are the bytes its directories take,
    they never exceed the budget it was initialised with, and no extent is cached twice.
    With a larger budget the total can wrap around ([total_wraps]). *)
Theorem meta_cache_within_budget b w mc w' :
  0 ≤ b < 2 ^ 31 → good w → rtc mc_step (odfs_meta_cache_init b, w) (mc, w') →
  total mc = foldr (λ d s, dir_size d + s) 0 (mc_lru mc) ∧ total mc ≤ b ∧ NoDup (map md_key (mc_lru mc)).
Proof.
  intros Hb Hw Hsteps.
  assert (Hall : ∀ x, rtc mc_step x (mc, w') → mc_inv listing x.1 ∧ good x.2 ∧ budget x.1 = b →
    mc_inv listing mc ∧ good w' ∧ budget mc = b).
  { intros x Hx. remember (mc, w') as y eqn:Hy. revert Hy.
    induction Hx as [x|x y z Hxy _ IH]; intros ->; [done|]. intros (Hinv & Hg & Hbud). refine (IH Hsteps eq_refl _).
    destruct Hxy as [? cb ? ? ? ? ? ? ? ? ? ? Hl Hr Hm Hop|? ? ? ? ? ? ? ? Hl Hn Hop|? ? ? ? ? ? ? ? Hp Hop|? ?]; simpl in *.
    - destruct (readdir_ok malloc ops ctx good listable listing cb _ _ _ t _ Hinv Hg Hl Hr Hm) as (? & ? & ? & ? & ? & Hq & ? & ? & ? & _).
      rewrite Hop in Hq. injection Hq as -> -> -> -> ->. split_and!; [done|done|congruence].
    - destruct (lookup_ok malloc ops ctx good listable listing _ _ _ _ Hinv Hg Hl Hn) as (? & ? & ? & ? & Hq & ? & ? & ? & _).
      rewrite Hop in Hq. injection Hq as -> -> -> ->. split_and!; [done|done|congruence].
    - destruct (path_ok listing _ dir _ Hinv Hp) as (? & ? & ? & ? & ? & Hq & ? & ? & _).
      rewrite Hop in Hq. injection Hq as -> -> -> ->. split_and!; [done|done|congruence].
    - split_and!; [by apply flush_ok|done|exact (eq_trans (flush_budget _) Hbud)]. }
  destruct (Hall _ Hsteps) as ([[Hf Hn] Ht Hbb _] & _ & Hbud);
    [split_and!; [apply init_ok; unfold is_u32; lia|done|done]|].
  specialize (Hbb ltac:(lia)). rewrite Hbud in Hbb. pose proof (held_nonneg _ _ Hf).
  rewrite u32_small in Ht by (unfold is_u32; lia).
  split_and!; [|lia|done]. rewrite Ht. clear -Hf. induction Hf as [|d ds [_ Hd _] _ IH]; simpl; [done|]. by rewrite Hd, IH.
Qed.
End claims.

(** ** A backend with two directories *)
Definition demo_node (n : list Z) (k : odfs_node_kind) (l len : Z) : odfs_node :=
  mk_node 7 0 ODFS_BACKEND_ISO9660 k n 100 timestamp_zero timestamp_zero 0 amiga_as_zero (mk_extent l len) 0.
(* "Readme", "SRC"; and "main.c" in the second *)
Definition demo_list (l _ : Z) (_ : odfs_backend_type) : list odfs_node :=
  if l =? 20 then [face (demo_node [82; 101; 97; 100; 109; 101] ODFS_NODE_FILE 30 100); face (demo_node [83; 82; 67] ODFS_NODE_DIR 21 2048)]
  else if l =? 21 then [face (demo_node [109; 97; 105; 110; 46; 99] ODFS_NODE_FILE 31 100)]
  else [].
Definition demo_readdir : ∀ T, unit → Z → odfs_node → odfs_dir_iter_fn T → T → option Z → outcome (odfs_err * option Z * unit * T) :=
  λ T w _ dir cb t _, let '(err, t) := run cb (demo_list (lba (extent dir)) 0 ODFS_BACKEND_ISO9660) t in Ret (err, None, w, t).
Definition demo_ops : odfs_backend_ops unit :=
  mk_backend ODFS_BACKEND_ISO9660 0 (λ w _, Ret (ODFS_OK, w)) (λ w _ r _, Ret (ODFS_OK, r, 1, w)) None (Some demo_readdir)
    None None None None None None.
#[export] Instance demo_lists : Lists demo_ops 1 (λ _, True) (λ _, True) demo_list.
Proof.
  exists demo_readdir. split; [done|]. intros T w dir cb t _ _. unfold demo_readdir.
  exists (demo_list (lba (extent dir)) 0 ODFS_BACKEND_ISO9660), None, w.
  destruct (run cb _ t) as [err t'] eqn:Hrun. split_and!; [done|done| |].
  - unfold demo_list. by repeat case_test.
  - unfold demo_list. repeat case_test; repeat constructor; simpl; unfold ODFS_NAME_MAX; done || lia.
Qed.
Definition demo_dir : odfs_node := demo_node [] ODFS_NODE_DIR 20 2048.
Definition demo_cache : odfs_meta_cache := odfs_meta_cache_init 65536.
(** Names collected by a callback. *)
Definition demo_cb : odfs_dir_iter_fn (list (list Z)) := λ n t, (ODFS_OK, t ++ [name n]).
Abbreviation demo_list_dir mc dir := (odfs_meta_readdir (λ _ _, true) demo_ops 1 demo_cb tt mc dir [] None).
(** The cache after the directories were listed. *)
Definition cache_after (m : outcome (odfs_err * option Z * odfs_meta_cache * unit * list (list Z))) : odfs_meta_cache :=
  match m with Ret (_, _, mc, _, _) => mc | _ => demo_cache end.
Definition demo_warm1 : odfs_meta_cache := cache_after (demo_list_dir demo_cache demo_dir).
Definition demo_src : odfs_node := demo_node [] ODFS_NODE_DIR 21 2048.
Definition demo_warm : odfs_meta_cache := cache_after (demo_list_dir demo_warm1 demo_src).
Lemma demo_after_inv mc dir : mc_inv demo_list mc → dir = demo_dir ∨ dir = demo_src →
  mc_inv demo_list (cache_after (demo_list_dir mc dir)).
Proof.
  intros Hmc Hdir.
  destruct (readdir_ok (λ _ _, true) demo_ops 1 (λ _, True) (λ _, True) demo_list demo_cb tt mc dir [] None)
    as (? & ? & ? & ? & ? & -> & Hinv & _); [done|done|done|done| |exact Hinv].
  by destruct Hdir as [-> | ->].
Qed.
Lemma demo_cache_inv : mc_inv demo_list demo_cache.
Proof. by apply init_ok. Qed.
Lemma demo_warm_inv : mc_inv demo_list demo_warm.
Proof. apply demo_after_inv; [apply demo_after_inv; [exact demo_cache_inv|by left]|by right]. Qed.
(* SRC/MAIN.C/ *)
Definition demo_path : list Z := [83; 82; 67; 47; 77; 65; 73; 78; 46; 67; 47].

Example demo_resumes :
  match odfs_meta_readdir (λ _ _, true) demo_ops 1 demo_cb tt demo_warm demo_dir [] (Some 0x80000001) with
  | Ret (err, c, mc, _, t) => (err, c, ms_hits (mc_stats mc), t) = (ODFS_OK, Some 0x80000002, 1, [[83; 82; 67]])
  | _ => False
  end.
Proof. vm_compute. reflexivity. Qed.

Lemma meta_lookup_correct_witness :
  ∃ err out mc' w', odfs_meta_lookup (λ _ _, true) demo_ops 1 tt demo_warm demo_dir [115; 114; 99] = Ret (err, out, mc', w') ∧
    mc_inv demo_list mc' ∧ True ∧
    (err = ODFS_ERR_UNSUPPORTED ∧ out = None ∧ ¬ cached demo_warm demo_dir ∨
     face <$> out = listed (demo_list 20 2048 ODFS_BACKEND_ISO9660) [115; 114; 99] ∧
     err = (if out then ODFS_OK else ODFS_ERR_NOT_FOUND)).
Proof.
  apply (meta_lookup_correct (λ _ _, true) demo_ops 1 (λ _, True) (λ _, True) demo_list tt demo_warm demo_dir [115; 114; 99]);
    [exact demo_warm_inv|exact I|exact I|repeat constructor; lia].
Defined.
Example demo_finds :
  match odfs_meta_lookup (λ _ _, true) demo_ops 1 tt demo_warm demo_dir [115; 114; 99] with
  | Ret (err, out, _, _) => (err, name <$> out) = (ODFS_OK, Some [83; 82; 67])
  | _ => False
  end.
Proof. vm_compute. reflexivity. Qed.

Lemma meta_lookup_path_correct_witness :
  ∃ err out count mc' ns, odfs_meta_lookup_path demo_warm demo_dir demo_path = Ret (err, out, count, mc') ∧
    mc_inv demo_list mc' ∧
    finds demo_list [(21, 2048, ODFS_BACKEND_ISO9660); (20, 2048, ODFS_BACKEND_ISO9660)] (20, 2048, ODFS_BACKEND_ISO9660) demo_path err ns ∧
    map face out = take 3 (rev ns) ∧ count = zlen ns.
Proof.
  apply (meta_lookup_path_correct demo_list demo_warm demo_dir demo_path); [exact demo_warm_inv|repeat constructor; lia].
Defined.
Example demo_walks :
  match odfs_meta_lookup_path demo_warm demo_dir demo_path with
  | Ret (err, out, count, _) => (err, map name out, count) = (ODFS_OK, [[109; 97; 105; 110; 46; 99]; [83; 82; 67]], 2)
  | _ => False
  end.
Proof. vm_compute. reflexivity. Qed.

Lemma meta_cache_within_budget_witness :
  total demo_warm1 = foldr (λ d s, dir_size d + s) 0 (mc_lru demo_warm1) ∧ total demo_warm1 ≤ 65536 ∧
  NoDup (map md_key (mc_lru demo_warm1)).
Proof.
  apply (meta_cache_within_budget (λ _ _, true) demo_ops 1 (λ _, True) (λ _, True) demo_list 65536 tt demo_warm1 tt);
    [lia|exact I|].
  apply rtc_once. apply (step_readdir (λ _ _, true) demo_ops 1 (λ _, True) demo_list _ demo_cb _ _ demo_dir [] None
    ODFS_OK None _ _ [[82; 101; 97; 100; 109; 101]; [83; 82; 67]]); [exact I|simpl; lia|vm_compute; reflexivity|vm_compute; reflexivity].
Defined.
