(* ===== verification/IsoListing.v ===== *)
(** * The listing of a directory

    What a scan yields depends on the extent of the directory only, apart from the
    numbers of the nodes; for plain names it is a list of well-formed nodes, and a
    run of [odfs_iso_readdir] from a resume offset is the callback on a suffix of it. *)
From S2P Require Import Prelude Types Strings Namefix Media CacheApi RockRidge RockRidgeProofs.
From S2P Require Import Iso9660 IsoScan IsoReaddir IsoTransparent IsoResume Backend MetaCache MetaCacheProofs MetaCacheSpec.
Open Scope Z_scope.

(** ** The number of the directory does not matter *)
Section reparent.
Context {C : Type} {HO : CacheOps C} (malloc : nat → Z → bool).

Definition item_in (j : Z) (i : dir_item) : dir_item :=
  match i with DirEntry n o => DirEntry (set_parent_id j n) o | _ => i end.
Definition entry_in (j : Z) (x : Z * odfs_node * Z) : Z * odfs_node * Z := let '(s, n, o) := x in (s, set_parent_id j n, o).

Lemma bind_fmap {A B D} (f : A → B) (m : outcome A) (k : B → outcome D) : (f <$> m) ≫= k = m ≫= (k ∘ f).
Proof. by destruct m. Qed.
Lemma fmap_bind {A B D} (f : B → D) (m : outcome A) (k : A → outcome B) : f <$> (m ≫= k) = m ≫= λ a, f <$> k a.
Proof. by destruct m. Qed.
Lemma bind_same {A B} (m : outcome A) (k k' : A → outcome B) : (∀ a, k a = k' a) → m ≫= k = m ≫= k'.
Proof. intros Hk. destruct m; simpl; auto. Qed.

Lemma merge_in j (c : C) ss dl D o hs rec n :
  odfs_iso_merge_multi_extent c ss dl D o hs rec (set_parent_id j n) =
  (λ '(e, o, m, c), (e, o, set_parent_id j m, c)) <$> odfs_iso_merge_multi_extent c ss dl D o hs rec n.
Proof.
  unfold odfs_iso_merge_multi_extent. rewrite fmap_bind. apply bind_same. intros fl. case_test; [done|].
  rewrite fmap_bind. apply bind_same. intros il. rewrite fmap_bind. apply bind_same. intros ident.
  rewrite fmap_bind. apply bind_same. intros [[[e o1] m] c1]. by case_test.
Qed.
Lemma dir_merge_in j (c : C) ctx dir h p so l n k sua o :
  dir_merge c ctx (set_id j dir) h p so l (mk_rec (set_parent_id j n) k sua) o =
  (λ '(e, m, o, p, h, c), (e, set_parent_id j m, o, p, h, c)) <$>
    dir_merge c ctx dir h p so l (mk_rec (set_parent_id (id dir) n) k sua) o.
Proof.
  unfold dir_merge. cbv zeta. cbn [rec_node rec_sua].
  rewrite fmap_bind. apply bind_same. intros fl. case_test; [|done].
  change (extent (set_id j dir)) with (extent dir).
  rewrite !merge_in, !bind_fmap, fmap_bind. apply bind_same. intros [[[e o1] m] c1]. simpl.
  case_test; [done|]. destruct sua; [|done]. destruct (bc_read c1 _) as [[e2 q] c3]. by case_test.
Qed.
Lemma iso_apply_rr_in j n rr ss b : iso_apply_rr (set_parent_id j n) rr ss b = set_parent_id j (iso_apply_rr n rr ss b).
Proof.
  unfold iso_apply_rr, rr_override_name. cbv zeta.
  destruct b, (rr_has_name rr && negb (bool_decide (c_str (rr_name rr) = []))), (rr_has_posix rr), (rr_has_timestamps rr),
    (rr_has_child_link rr); done.
Qed.
Lemma rock_ridge_in j (c : C) ctx p so k sua n n1 n2 :
  dir_rock_ridge c ctx p so (mk_rec n1 k sua) (set_parent_id j n) =
  (λ '((m, c) : option odfs_node * C), (option_map (set_parent_id j) m, c)) <$> dir_rock_ridge c ctx p so (mk_rec n2 k sua) n.
Proof.
  unfold dir_rock_ridge. cbn [rec_sua]. destruct sua as [[sua len]|]; [|done]. case_test; [|done].
  rewrite fmap_bind. apply bind_same. intros [rr c1]. case_test; [done|]. by rewrite iso_apply_rr_in.
Qed.

Lemma dir_step_in j dir o (s : scan_state C) :
  dir_step malloc (set_id j dir) o s = (λ '(i, s), (item_in j i, s)) <$> dir_step malloc dir o s.
Proof.
  destruct s as [c ctx nf h]. unfold dir_step. cbv zeta. change (extent (set_id j dir)) with (extent dir).
  change (id (set_id j dir)) with j.
  destruct (iso_hold c h _) as [[[err p] h1] c1]. case_test; [done|].
  rewrite fmap_bind. apply bind_same. intros b. case_test; [done|].
  rewrite fmap_bind. apply bind_same. intros [[r|] ctx1]; [|done]. cbn [rec_consumed].
  rewrite dir_merge_in, bind_fmap, fmap_bind. apply bind_same. intros [[[[[e n] o1] q] h2] c2]. simpl.
  case_test; [done|].
  rewrite (rock_ridge_in j c2 ctx1 q _ (rec_consumed r) (rec_sua r) n _ (set_parent_id (id dir) (rec_node r))).
  rewrite bind_fmap, fmap_bind. apply bind_same. intros [[m|] c3]; [|done]. simpl.
  change (name (set_parent_id j m)) with (name m). case_test; [done|].
  destruct (odfs_namefix_apply _ _ _ _) as [[e3 nf3] nm]. by case_test.
Qed.
Lemma scan_all_in j fuel dir o (s : scan_state C) :
  scan_all malloc fuel (set_id j dir) o s =
  (map (entry_in j) (scan_all malloc fuel dir o s).1, (scan_all malloc fuel dir o s).2).
Proof.
  revert o s. induction fuel as [|fuel IH]; intros o s; [done|]. cbn [scan_all].
  change (extent (set_id j dir)) with (extent dir). case_test; [done|]. rewrite dir_step_in.
  destruct (dir_step malloc dir o s) as [[[o1|n o1|e] s1]| |]; try done; simpl; [apply IH|].
  rewrite IH. by destruct (scan_all malloc fuel dir o1 s1).
Qed.

(** Two directories with the same extent. *)
Lemma scan_all_extent fuel dir dir' o (s : scan_state C) :
  extent dir = extent dir' → id dir = id dir' → scan_all malloc fuel dir o s = scan_all malloc fuel dir' o s.
Proof.
  intros He Hi. revert o s. induction fuel as [|fuel IH]; intros o s; [done|]. cbn [scan_all]. rewrite He.
  case_test; [done|]. assert (Hstep : dir_step malloc dir o s = dir_step malloc dir' o s).
  { unfold dir_step, dir_merge. by rewrite He, Hi. }
  rewrite Hstep. destruct (dir_step malloc dir' o s) as [[[o1|n o1|e] s1]| |]; try done. by rewrite IH.
Qed.
End reparent.

(** ** Callbacks over lists of entries *)

Section deliver.
Context {T : Type} (cb : odfs_dir_iter_fn T).

(** Where an enumeration stands after the first [i] entries, out of a directory of
    [size] bytes whose entries end at [E]. *)
Definition before_entry (size : Z) (E : list Z) (c : Z) (i : nat) : Prop :=
  i = 0%nat ∧ c = 0 ∨ E !! pred i = Some c ∧ i ≠ 0%nat ∨ i = length E ∧ c = size.

Lemma delivered_all L t : err_ok (run cb L t).1 = true → delivered cb L t = zlen L.
Proof.
  revert t. induction L as [|n L IH]; intros t; cbn [run delivered]; [done|]. destruct (cb n t) as [e t1].
  destruct (err_ok e) eqn:He; simpl; [|by rewrite He]. intros Hr. rewrite (IH _ Hr). lia.
Qed.
Lemma delivered_stopped L t : err_ok (run cb L t).1 = false → delivered cb L t ≠ 0.
Proof.
  destruct L as [|n L]; cbn [run delivered]; [done|]. destruct (cb n t) as [e t1]. pose proof (delivered_le cb L t1).
  destruct (err_ok e); [lia|done].
Qed.

(** From an offset at or below the first entry. *)
Lemma deliver_run lo target size L t :
  ascending lo L → target ≤ lo →
  deliver cb target size L (Ret ODFS_OK) t =
    (let r := run cb (map entry_node L) t in
     Ret (r.1, Some (if err_ok r.1 then size
                     else default size (snd <$> L !! pred (Z.to_nat (delivered cb (map entry_node L) t)))), r.2)).
Proof.
  revert lo t. induction L as [|[[s n] o] L IH]; intros lo t; cbn [deliver ascending map run delivered]; [done|].
  intros [Hs HL] Hlo. rewrite (proj2 (Z.ltb_ge s target)) by lia. change (entry_node (s, n, o)) with n.
  destruct (cb n t) as [err t1]. destruct (err_ok err) eqn:He.
  - rewrite (IH o) by (done || lia). cbv zeta. do 3 f_equal.
    destruct (err_ok (run cb (map entry_node L) t1).1) eqn:Hr; [done|].
    pose proof (delivered_le cb (map entry_node L) t1).
    pose proof (delivered_stopped _ _ Hr).
    do 3 f_equal. replace (pred (Z.to_nat (1 + _))) with (S (pred (Z.to_nat (delivered cb (map entry_node L) t1)))) by lia.
    done.
  - simpl. by rewrite He.
Qed.

Lemma ascending_drop lo i L : ascending lo L → 0 ≤ lo → ascending 0 (drop i L).
Proof.
  revert lo L. induction i as [|i IH]; intros lo [|[[s n] o] L]; try done.
  - intros HL ?. by apply (ascending_mono lo).
  - simpl. intros [? HL] ?. apply (IH o); [done|lia].
Qed.
(** Resuming where an enumeration stands delivers the rest. *)
Lemma deliver_from lo size L c i t :
  ascending lo L → 0 ≤ lo → Forall (λ x, x.1.1 < size) L → before_entry size (map snd L) c i →
  deliver cb c size L (Ret ODFS_OK) t =
    deliver cb 0 size (drop i L) (Ret ODFS_OK) t.
Proof.
  intros Hasc Hlo Hsz [[-> ->]|[(Hi & Hne)|[-> ->]]].
  - by rewrite drop_0.
  - apply list_lookup_fmap_Some in Hi as ([[s n] e] & -> & Hi). cbn [snd]. rename e into c. destruct i as [|i]; [done|]. simpl in Hi. clear Hne. revert lo i t Hasc Hlo Hi.
    induction L as [|[[s' n'] o] L IH]; intros lo i t; [done|]. cbn [deliver ascending]. intros [Hs HL] Hlo Hi.
    apply Forall_cons in Hsz as [_ Hsz].
    assert (Hlt : s' < c).
    { destruct i as [|i]; [injection Hi as -> -> ->; lia|]. pose proof (ascending_lt _ _ _ _ _ _ HL Hi). lia. }
    rewrite (proj2 (Z.ltb_lt s' c)) by done. destruct i as [|i].
    + injection Hi as -> -> ->. simpl. rewrite drop_0. rewrite !(deliver_run c) by (done || lia). done.
    + simpl in Hi. rewrite (IH Hsz o i t HL ltac:(lia) Hi). done.
  - rewrite length_map, drop_all. simpl. clear Hasc. revert t. induction L as [|[[s n] o] L IH]; intros t; [done|].
    apply Forall_cons in Hsz as [Hs Hsz]. simpl in Hs. cbn [deliver]. rewrite (proj2 (Z.ltb_lt s size)) by done.
    by apply IH.
Qed.

(** Where it stands afterwards. *)
Lemma before_entry_after size L c i t :
  before_entry size (map snd L) c i →
  let L' := map entry_node (drop i L) in let r := run cb L' t in
  before_entry size (map snd L) (if err_ok r.1 then size else default size (snd <$> drop i L !! pred (Z.to_nat (delivered cb L' t))))
    (i + Z.to_nat (delivered cb L' t)).
Proof.
  intros Hb L' r. assert (Hi : (i ≤ length L)%nat).
  { rewrite <- (length_map snd). destruct Hb as [[-> _]|[[Hi Hne]|[-> _]]]; [lia| |lia]. apply lookup_lt_Some in Hi. lia. }
  pose proof (delivered_le cb L' t) as Hd. assert (HL' : length L' = (length L - i)%nat) by (unfold L'; by rewrite length_map, length_drop).
  destruct (err_ok r.1) eqn:Hr.
  - apply delivered_all in Hr. right. right. rewrite length_map. split; [lia|done].
  - apply delivered_stopped in Hr. right. left. rewrite lookup_drop.
    replace (i + pred (Z.to_nat (delivered cb L' t)))%nat with (pred (i + Z.to_nat (delivered cb L' t))) by lia.
    destruct (L !! pred (i + Z.to_nat (delivered cb L' t))) as [x|] eqn:Hl; [|apply lookup_ge_None in Hl; lia].
    split; [|lia]. apply list_lookup_fmap_Some. exists x. split; [by simpl|done].
Qed.
End deliver.

(** ** Plain nodes are well formed *)
Section plain.
Context {C : Type} {HO : CacheOps C} (malloc : nat → Z → bool).

Lemma parse_amiga data avail ctx :
  after (iso_parse_dir_record data avail ctx) (λ '(r, _), ∀ x, r = Some x → amiga_as (rec_node x) = amiga_as_zero).
Proof.
  unfold iso_parse_dir_record. case_test; [by apply after_ret|]. eapply after_bind; [apply after_any|]. intros rec_len _.
  do 2 (case_test; [by apply after_ret|]). eapply after_bind; [apply after_any|]. intros name_len _.
  case_test; [by apply after_ret|]. cbv zeta. do 6 (eapply after_bind; [apply after_any|]; intros ? _).
  apply after_ret. by intros x [= <-].
Qed.
Lemma merge_amiga (c : C) ss dl D o hs rec n :
  after (odfs_iso_merge_multi_extent c ss dl D o hs rec n) (λ '(_, _, m, _), amiga_as m = amiga_as n).
Proof.
  unfold odfs_iso_merge_multi_extent. eapply after_bind; [apply after_any|]. intros fl _. case_test; [by apply after_ret|].
  do 2 (eapply after_bind; [apply after_any|]; intros ? _). eapply after_bind; [apply after_any|].
  intros [[[e o1] m] c1] _. case_test; by apply after_ret.
Qed.
Lemma dir_merge_amiga (c : C) ctx dir h p so l r o :
  after (dir_merge c ctx dir h p so l r o) (λ '(_, m, _, _, _, _), amiga_as m = amiga_as (rec_node r)).
Proof.
  unfold dir_merge. eapply after_bind; [apply after_any|]. intros fl _. case_test; [|by apply after_ret].
  eapply after_bind; [apply merge_amiga|]. intros [[[e o1] m] c1] Hm. case_test; [by apply after_ret|].
  destruct (rec_sua r); [|by apply after_ret]. destruct (bc_read c1 _) as [[e2 q] c2]. case_test; by apply after_ret.
Qed.
Lemma dir_step_amiga dir o (s : scan_state C) :
  has_rock_ridge (sc_ctx s) = false →
  after (dir_step malloc dir o s) (λ '(i, _), match i with DirEntry n _ => amiga_as n = amiga_as_zero | _ => True end).
Proof.
  destruct s as [c ctx nf h]. intros Hrr. simpl in Hrr. unfold dir_step. cbv zeta.
  destruct (iso_hold c h _) as [[[err p] h1] c1]. case_test; [by apply after_ret|].
  eapply after_bind; [apply after_any|]. intros b _. case_test; [by apply after_ret|].
  eapply (after_bind _ _ (λ '(r, ctx1), has_rock_ridge ctx1 = false ∧ ∀ x, r = Some x → amiga_as (rec_node x) = amiga_as_zero)).
  { intros [r ctx1] Hp. split; [|by apply (parse_amiga _ _ _ _ Hp)].
    pose proof (parse_renumbered (mem_at (bc_data c1 p) (o mod ISO_SECTOR_SIZE)) (ISO_SECTOR_SIZE - o mod ISO_SECTOR_SIZE)
      ctx ctx ltac:(exists (next_node_id ctx); by destruct ctx)) as Hr. rewrite Hp in Hr. destruct Hr as (_ & _ & ->). done. }
  intros [[r|] ctx1] [Hrr1 Hr]; [|by apply after_ret]. specialize (Hr r eq_refl).
  eapply after_bind; [apply dir_merge_amiga|]. intros [[[[[e n] o1] q] h2] c2] Hn. simpl in Hn.
  case_test; [by apply after_ret|]. rewrite plain_rock_ridge by done. cbn [mbind outcome_bind].
  case_test; [by apply after_ret|]. destruct (odfs_namefix_apply _ _ _ _) as [[e3 nf3] nm].
  case_test; apply after_ret; [done|]. simpl. congruence.
Qed.
End plain.

(** ** Listings *)
Section listing.
Context (img : Z → list Z) (Hbytes : ∀ l, Forall is_byte (img l)) (Hsec : ∀ l, zlen (img l) = 2048).
Context (malloc : nat → Z → bool).
Abbreviation iso_scan := (disc_scan img malloc).
(** The entries of the directory at [l], as the mount with context [ctx] shows them. *)
Definition iso_listing (ctx : iso_context) (l n : Z) (b : odfs_backend_type) : list odfs_node :=
  map (λ x, face (entry_node x)) (iso_scan (odfs_iso_dir_stub b l n) ctx).1.
(** A directory that can be enumerated to its end. *)
Definition iso_listable (readable : Z → Prop) (ctx : iso_context) (dir : odfs_node) : Prop :=
  length_ (extent dir) ≤ MAX_DIR ∧
  (∀ o, 0 ≤ o < length_ (extent dir) → readable (u32 (lba (extent dir) + o / ISO_SECTOR_SIZE))) ∧
  (iso_scan dir ctx).2 = Ret ODFS_OK.

Lemma scan_dirs dir dir' ctx :
  extent dir = extent dir' →
  (iso_scan dir ctx).2 = (iso_scan dir' ctx).2 ∧ map snd (iso_scan dir ctx).1 = map snd (iso_scan dir' ctx).1 ∧
  map (λ x, face (entry_node x)) (iso_scan dir ctx).1 = map (λ x, face (entry_node x)) (iso_scan dir' ctx).1.
Proof.
  intros He. unfold disc_scan. rewrite <- He.
  rewrite (scan_all_extent malloc _ dir (set_id (id dir) dir')) by done. rewrite scan_all_in. cbn [fst snd].
  rewrite !map_map. split_and!; [done| |]; apply map_ext; by intros [[s n] o].
Qed.
Lemma scan_renumbered dir ctx ctx' :
  has_rock_ridge ctx = false → same_mount ctx ctx' →
  (iso_scan dir ctx).2 = (iso_scan dir ctx').2 ∧ map snd (iso_scan dir ctx).1 = map snd (iso_scan dir ctx').1 ∧
  map (λ x, face (entry_node x)) (iso_scan dir ctx).1 = map (λ x, face (entry_node x)) (iso_scan dir ctx').1.
Proof.
  intros Hp [k ->]. unfold disc_scan.
  destruct (scan_all_anon (HO := disc img) malloc dir (S (Z.to_nat (length_ (extent dir)))) 0
    (mk_scan tt ctx odfs_namefix_init None) (mk_scan tt (set_next_node_id k ctx) odfs_namefix_init None)) as [Ha Hb].
  { split; try done. by exists k. }
  split_and!; [done| |].
  - apply (f_equal (map snd)) in Ha. rewrite !map_map in Ha.
    rewrite !(map_ext (λ x, snd (anon_entry x)) snd) in Ha by (by intros [[s n] o]). exact Ha.
  - apply (f_equal (map (λ x, face (entry_node x)))) in Ha. rewrite !map_map in Ha.
    rewrite !(map_ext (λ x, face (entry_node (anon_entry x))) (λ x, face (entry_node x))) in Ha by (by intros [[s n] o]). exact Ha.
Qed.

(** Every entry of a scan. *)
Definition entry_ok (size : Z) (x : Z * odfs_node * Z) : Prop :=
  0 ≤ x.1.1 < size ∧ x.1.1 < x.2 ≤ MAX_DIR ∧ node_wf (entry_node x).
Lemma scan_all_entries fuel dir o (s : scan_state unit) :
  scan_ok (λ _, True) (λ _ _, True) s → has_rock_ridge (sc_ctx s) = false → length_ (extent dir) ≤ MAX_DIR → 0 ≤ o →
  Forall (entry_ok (length_ (extent dir))) (scan_all (HO := disc img) malloc fuel dir o s).1.
Proof.
  pose proof (disc_cache_laws img 2048 Hsec) as HL. pose proof (disc_cache_clean img 2048) as HF.
  intros Hs Hp HD. revert o s Hs Hp. induction fuel as [|fuel IH]; intros o s Hs Hp Ho; [constructor|]. cbn [scan_all].
  case_test; [constructor|]. b2p.
  pose proof (dir_step_lands (HO := disc img) img (λ _, True) (λ _, True) (λ _ _, True) Hbytes malloc dir o s
    Hs HD ltac:(lia)) as Hstep. pose proof (dir_step_amiga (HO := disc img) malloc dir o s Hp) as Ham.
  destruct (dir_step (H := disc img) malloc dir o s) as [[item s1]| |]; [|constructor..].
  specialize (Ham _ eq_refl). destruct Hstep as (Hs1 & _ & [k Hm] & Hit). simpl in Hit, Ham, Hm, Hs1.
  assert (Hp1 : has_rock_ridge (sc_ctx s1) = false) by (by rewrite Hm).
  destruct item as [o1|n o1|e]; [| |constructor].
  - destruct Hit as [Hit _]. apply IH; (done || lia).
  - destruct Hit as (Ho1 & [Hn Hnl] & _). specialize (IH o1 s1 Hs1 Hp1 ltac:(lia)).
    destruct (scan_all (HO := disc img) malloc fuel dir o1 s1). constructor; [|done]. split; [simpl; lia|]. split; [done|].
    split; [done|]. split; [done|]. change (entry_node _) with n. rewrite Ham. done.
Qed.
Lemma scan_entries dir ctx :
  has_rock_ridge ctx = false → 0 ≤ rr_skip ctx → length_ (extent dir) ≤ MAX_DIR →
  Forall (entry_ok (length_ (extent dir))) (iso_scan dir ctx).1.
Proof.
  intros Hp Hs HD. apply scan_all_entries; try done; try lia. by split; [|intros ? ? ?|apply namefix_init_wf|].
Qed.

(** *** Through a cache *)
Context {C : Type} {HO : CacheOps C} (inv ok : C → Prop) (ptr : C → Z → Prop) (readable : Z → Prop).
Context {HL : CacheLaws C img 2048 inv ok ptr} {HF : CacheCleanFailure C ok ptr} {HR : CacheReadable C ok readable}.
Context (ctx0 : iso_context) (Hplain : has_rock_ridge ctx0 = false) (Hskip : 0 ≤ rr_skip ctx0).

Abbreviation listing_of dir := (iso_listing ctx0 (lba (extent dir)) (length_ (extent dir)) (backend dir)).
(** Where the entries of a directory end. *)
Definition iso_ends (l n : Z) (b : odfs_backend_type) : list Z := map snd (iso_scan (odfs_iso_dir_stub b l n) ctx0).1.
Abbreviation ends_of dir := (iso_ends (lba (extent dir)) (length_ (extent dir)) (backend dir)).

(** An enumeration that goes on where one stood delivers the entries that are left and
    says where it stands then. *)
Lemma iso_readdir_run {T} (cb : odfs_dir_iter_fn T) ctx c dir t r0 i :
  ok c → same_mount ctx0 ctx → iso_listable readable ctx0 dir →
  before_entry (length_ (extent dir)) (ends_of dir) (default 0 r0) i →
  ∃ L c1 ctx' c', odfs_iso_readdir malloc cb ctx c dir t r0 =
      Ret ((run cb (drop i L) t).1, (λ _, c1) <$> r0, ctx', c', (run cb (drop i L) t).2) ∧
    ok c' ∧ same_mount ctx ctx' ∧ map face L = listing_of dir ∧ Forall node_wf L ∧
    before_entry (length_ (extent dir)) (ends_of dir) c1 (i + Z.to_nat (delivered cb (drop i L) t)).
Proof.
  intros Hok Hm (HD & Hrd & Hend) Hb. pose proof Hm as [k Hk].
  assert (Hp1 : has_rock_ridge ctx = false) by (by rewrite Hk). assert (Hs1 : 0 ≤ rr_skip ctx) by (by rewrite Hk).
  pose proof (readdir_on_disc img inv ok ptr readable Hbytes malloc dir HD Hrd cb ctx c t r0 Hok (rr_areas_plain _ _ _ _ Hp1)) as Hrun.
  pose proof (readdir_keeps malloc img inv ok ptr cb ctx c dir t r0 HL HF Hbytes Hok Hs1 HD) as Hkeep.
  destruct (scan_renumbered dir ctx0 ctx Hplain Hm) as (He1 & Hn1 & Hf1).
  destruct (scan_dirs dir (odfs_iso_dir_stub (backend dir) (lba (extent dir)) (length_ (extent dir))) ctx0) as (_ & Hn2 & Hf2);
    [by destruct dir as [? ? ? ? ? ? ? ? ? ? [? ?] ?]|].
  unfold iso_ends in *. rewrite <- Hn2, Hn1 in Hb |- *. unfold iso_listing. rewrite <- Hf2, Hf1.
  pose proof (scan_entries dir ctx Hp1 Hs1 HD) as Hall. rewrite Hend in He1.
  rewrite <- He1 in Hrun. set (S := (iso_scan dir ctx).1) in *.
  pose proof (disc_scan_ascending img inv ok ptr Hbytes malloc dir HD ctx Hs1) as Hasc. fold S in Hasc.
  rewrite (deliver_from cb 0 _ S _ i) in Hrun; [|done|lia| |done].
  2: { eapply Forall_impl; [exact Hall|]. intros x [? _]. lia. }
  rewrite (deliver_run cb 0) in Hrun; [|by apply (ascending_drop 0)|lia]. cbv zeta in Hrun.
  apply fmap_Ret in Hrun as ([[[[e r] ctx'] c'] t'] & Hret & [= -> -> ->]). rewrite Hret in Hkeep.
  pose proof (before_entry_after cb _ S _ i t Hb) as Hafter. cbv zeta in Hafter.
  match type of Hafter with before_entry _ _ ?c1 _ => exists (map entry_node S), c1, ctx', c' end.
  rewrite Hret, skipn_map. split; [by destruct r0|].
  destruct Hkeep. split_and!; try done; [by rewrite map_map|].
  apply Forall_map. eapply Forall_impl; [exact Hall|]. by intros x (_ & _ & ?).
Qed.

Lemma run_lookup nm L :
  is_name nm → Forall node_wf L →
  run (lookup_cb nm) L None = match listed L nm with Some n => (ODFS_ERR_EOF, Some n) | None => (ODFS_OK, None) end.
Proof.
  intros Hnm. induction 1 as [|n L [Hn _] _ IH]; [done|]. cbn [run]. unfold lookup_cb at 1, listed. cbn [List.find].
  destruct (Z.eqb_spec (odfs_strcasecmp (name n) nm) 0) as [Heq|Hne].
  - by rewrite bool_decide_true by (by apply strcasecmp_spec).
  - rewrite bool_decide_false by (intros Heq; by apply Hne, strcasecmp_spec). exact IH.
Qed.
Lemma listed_face nm L : face <$> listed L nm = listed (map face L) nm.
Proof.
  induction L as [|n L IH]; [done|]. unfold listed. cbn [map List.find]. change (name (face n)) with (name n).
  by case_match.
Qed.

(** Lookup finds the entry the listing has. *)
Lemma iso_lookup_run ctx c dir nm :
  ok c → same_mount ctx0 ctx → iso_listable readable ctx0 dir → is_name nm →
  ∃ err out ctx' c', odfs_iso_lookup malloc ctx c dir nm = Ret (err, out, ctx', c') ∧ ok c' ∧ same_mount ctx ctx' ∧
    face <$> out = listed (listing_of dir) nm ∧ err = match out with Some _ => ODFS_OK | None => ODFS_ERR_NOT_FOUND end.
Proof.
  intros Hok Hm Hd Hnm.
  destruct (iso_readdir_run (lookup_cb nm) ctx c dir None None 0 Hok Hm Hd) as (L & c1 & ctx' & c' & Hr & Hok' & Hm' & HLL & Hwf & _).
  { by left. }
  unfold odfs_iso_lookup. rewrite Hr, drop_0, run_lookup, <- HLL, <- listed_face by done. cbn [mbind outcome_bind].
  destruct (listed L nm) as [n|]; by eexists _, _, ctx', c'.
Qed.
End listing.
