(* ===== verification/Session.v ===== *)
(** * Multisession discovery ([core/session.c])

    Where the last session of a disc starts: from the drive's explicit answer and its
    TOC, from the TOC alone, or from the volume descriptors of an image.  The volume
    descriptors are scanned with fuel; [scan_steps] bounds it for well-formed images,
    and [pvd_scan_loops] is an image for which no fuel is enough. *)
From S2P Require Import Prelude Types Media.
Open Scope Z_scope.

(* [src: core/session.c:20-21 ISO_VD_START_OFFSET] *)
Definition ISO_VD_START_OFFSET : Z := 16.
Definition ISO_SECTOR_SIZE : Z := 2048.

(** An entry of the TOC; the array holds 99. *)
Definition toc_entry (toc : odfs_toc) (i : Z) : outcome odfs_session :=
  match zget (sessions toc) i with Some s => Ret s | None => Fault end.
Definition is_data (s : odfs_session) : bool := negb (Z.land (s_control s) 4 =? 0).

(** The first data track from [explicit_lba] on, of the [n] from the [i]-th. *)
(* [src: core/session.c:65-70 odfs_find_last_session] *)
Fixpoint explicit_loop (toc : odfs_toc) (explicit_lba : Z) (n : nat) (i : Z) : outcome (option Z) :=
  match n with
  | O => Ret None
  | S n =>
      s ← toc_entry toc i;
      if negb (is_data s) then explicit_loop toc explicit_lba n (i + 1)
      else if s_start_lba s <? explicit_lba then explicit_loop toc explicit_lba n (i + 1)
      else Ret (Some (s_start_lba s))
  end.
(** The last data track. *)
(* [src: core/session.c:106-111 odfs_find_last_session] *)
Fixpoint last_data_loop (toc : odfs_toc) (n : nat) (i : Z) (last : option Z) : outcome (option Z) :=
  match n with
  | O => Ret last
  | S n =>
      s ← toc_entry toc i;
      last_data_loop toc n (i + 1) (if is_data s then Some i else last)
  end.

Section session.
Context {M : Type} (ops : odfs_media_ops M).

(* CD001 *)
Definition cd001 : list Z := [67; 68; 48; 48; 49].

(** [best] is [best_lba].  The buffer is on the stack and keeps what was read. *)
(* [src: core/session.c:143-167 odfs_find_last_session] *)
Fixpoint pvd_scan (fuel : nat) (m : M) (buf : list Z) (total lba best : Z) : outcome (Z * M) :=
  match fuel with
  | O => Diverge
  | S fuel =>
      if negb (u32 (lba + ISO_VD_START_OFFSET) <? total) then Ret (best, m)
      else
        let '(err, buf, m) := odfs_media_read ops m lba 1 buf in
        if negb (err_ok err) then Ret (best, m)
        else
          type ← rd buf 0;
          sig ← rd_range buf 1 5;
          if (type =? 1) && bool_decide (sig = cd001) then
            let session_start := u32 (lba - ISO_VD_START_OFFSET) in
            let best := if (best <? session_start) || (best =? 0) then session_start else best in
            b0 ← rd buf 80; b1 ← rd buf 81; b2 ← rd buf 82; b3 ← rd buf 83;
            let vol_size := le32 b0 b1 b2 b3 in
            if (0 <? vol_size) && (u32 (session_start + vol_size + ISO_VD_START_OFFSET) <? total)
            then pvd_scan fuel m buf total (u32 (session_start + vol_size + ISO_VD_START_OFFSET)) best
            else Ret (best, m)
          else Ret (best, m)
  end.

(** [stack] is what the sector buffer holds before the first read. *)
(* [src: core/session.c:130-175 odfs_find_last_session] *)
Definition scan_strategy (fuel : nat) (stack : list Z) (m : M) (last_lba : Z) : outcome (odfs_err * Z * M) :=
  let total := odfs_media_sector_count ops m in
  if total =? 0 then Ret (ODFS_OK, last_lba, m)
  else
    '(best, m) ← pvd_scan fuel m stack total ISO_VD_START_OFFSET 0;
    Ret (ODFS_OK, if 0 <? best then best else last_lba, m).
(* [src: core/session.c:98-127 odfs_find_last_session] *)
Definition toc_strategy (fuel : nat) (stack : list Z) (m : M) (last_lba : Z) : outcome (odfs_err * Z * M) :=
  let '(err, toc, m) := odfs_media_read_toc ops m toc_zero in
  if err_ok err && (0 <? session_count toc) then
    last ← last_data_loop toc (Z.to_nat (session_count toc)) 0 None;
    match last with
    | None => Ret (ODFS_OK, last_lba, m)
    | Some i => s ← toc_entry toc i; Ret (ODFS_OK, s_start_lba s, m)
    end
  else scan_strategy fuel stack m last_lba.
(** Result: error, [*last_lba_out]. *)
(* [src: core/session.c:37-178 odfs_find_last_session] *)
Definition odfs_find_last_session (fuel : nat) (stack : list Z) (m : M) : outcome (odfs_err * Z * M) :=
  let '(err, last_lba, m) := odfs_media_read_last_session_lba ops m 0 in
  if err_ok err then
    let explicit_lba := last_lba in
    let '(err, toc, m) := odfs_media_read_toc ops m toc_zero in
    if err_ok err && (0 <? session_count toc) then
      r ← explicit_loop toc explicit_lba (Z.to_nat (session_count toc)) 0;
      Ret (ODFS_OK, default last_lba r, m)
    else Ret (ODFS_OK, last_lba, m)
  else toc_strategy fuel stack m last_lba.
End session.

(** ** The TOC *)

(** The tracks the TOC counts. *)
Definition tracks (toc : odfs_toc) : list odfs_session := take (Z.to_nat (session_count toc)) (sessions toc).
Definition data_from (lba : Z) (s : odfs_session) : bool := is_data s && (lba <=? s_start_lba s).

Lemma toc_entry_nat toc (i : nat) s : sessions toc !! i = Some s → toc_entry toc (Z.of_nat i) = Ret s.
Proof. intros H. unfold toc_entry. by rewrite zget_nat, H. Qed.
Lemma explicit_loop_spec toc lba n : ∀ i : nat, (i + n ≤ length (sessions toc))%nat →
  explicit_loop toc lba n (Z.of_nat i) =
    Ret (s_start_lba <$> List.find (data_from lba) (take n (drop i (sessions toc)))).
Proof.
  induction n as [|n IH]; intros i Hn; cbn [explicit_loop]; [done|].
  destruct (lookup_lt_is_Some_2 (sessions toc) i) as [s Hs]; [lia|].
  rewrite (toc_entry_nat _ _ _ Hs). cbn [mbind outcome_bind]. rewrite (drop_S _ s) by done. cbn [take List.find].
  unfold data_from at 1. specialize (IH (S i)). rewrite Nat2Z.inj_succ, <- Z.add_1_r in IH.
  destruct (is_data s); cbn [negb andb]; [|apply IH; lia].
  destruct (Z.leb_spec lba (s_start_lba s)).
  - by rewrite (proj2 (Z.ltb_ge _ _)).
  - rewrite (proj2 (Z.ltb_lt _ _)) by done. apply IH. lia.
Qed.
Lemma last_data_loop_spec toc n : ∀ (i : nat) acc, (i + n ≤ length (sessions toc))%nat →
  (∀ k, acc = Some k → ∃ s, toc_entry toc k = Ret s) →
  yields (last_data_loop toc n (Z.of_nat i) acc) (λ r,
    match last (filter is_data (take n (drop i (sessions toc)))) with
    | Some s => ∃ k, r = Some k ∧ toc_entry toc k = Ret s
    | None => r = acc
    end).
Proof.
  induction n as [|n IH]; intros i acc Hn Hacc; cbn [last_data_loop]; [by apply yields_ret|].
  destruct (lookup_lt_is_Some_2 (sessions toc) i) as [s Hs]; [lia|].
  pose proof (toc_entry_nat _ _ _ Hs) as Hti. rewrite Hti. cbn [mbind outcome_bind].
  rewrite (drop_S _ s) by done. cbn [take].
  destruct (IH (S i) (if is_data s then Some (Z.of_nat i) else acc)) as (r & Hr & Hspec); [lia| |].
  { destruct (is_data s); [|done]. intros k [= <-]. by exists s. }
  rewrite Nat2Z.inj_succ, <- Z.add_1_r in Hr. rewrite Hr. apply yields_ret.
  destruct (is_data s) eqn:Hd.
  - rewrite filter_cons_True by (by apply Is_true_true). rewrite last_cons.
    destruct (last (filter is_data (take n (drop (S i) (sessions toc))))); [done|]. by exists (Z.of_nat i).
  - rewrite filter_cons_False by (rewrite Hd; by intros []). done.
Qed.

(** ** The volume descriptors *)
Section scan.
Context {M : Type} (ops : odfs_media_ops M) (img : Z → list Z).
Context `{Hmedia : !MediaReads ops img ISO_SECTOR_SIZE}.

Definition byte_at (sector : list Z) (i : Z) : Z := default 0 (zget sector i).
(** A primary volume descriptor, and the size of the volume it gives. *)
Definition is_pvd (sector : list Z) : bool := (byte_at sector 0 =? 1) && bool_decide (slice sector 1 5 = cd001).
Definition volume_size (sector : list Z) : Z :=
  le32 (byte_at sector 80) (byte_at sector 81) (byte_at sector 82) (byte_at sector 83).

Lemma rd_byte_at sector i : 0 ≤ i < zlen sector → rd sector i = Ret (byte_at sector i).
Proof. intros Hi. destruct (zget_is_Some _ _ Hi) as [x Hx]. unfold rd, byte_at. by rewrite Hx. Qed.

(** One round of the scan. *)
Lemma scan_step fuel m buf total lba best :
  zlen buf = ISO_SECTOR_SIZE → 0 ≤ lba < 2 ^ 32 →
  pvd_scan ops (S fuel) m buf total lba best =
    if negb (u32 (lba + 16) <? total) then Ret (best, m)
    else
      let '(err, _, m') := odfs_media_read ops m lba 1 buf in
      if negb (err_ok err) then Ret (best, m')
      else if is_pvd (img lba) then
        let s := u32 (lba - 16) in
        let best := if (best <? s) || (best =? 0) then s else best in
        if (0 <? volume_size (img lba)) && (u32 (s + volume_size (img lba) + 16) <? total)
        then pvd_scan ops fuel m' (img lba) total (u32 (s + volume_size (img lba) + 16)) best
        else Ret (best, m')
      else Ret (best, m').
Proof.
  intros Hbuf Hlba. cbn [pvd_scan]. unfold ISO_VD_START_OFFSET. destruct (negb (u32 (lba + 16) <? total)); [done|].
  destruct (odfs_media_read ops m lba 1 buf) as [[err buf'] m'] eqn:Hread. destruct (err_ok err) eqn:Herr; [|done].
  apply err_ok_true in Herr as ->. cbn [negb].
  apply (mr_read (MediaReads := Hmedia)) in Hread; [|lia..|rewrite Hbuf; unfold ISO_SECTOR_SIZE; lia].
  rewrite disc_sectors_1 in Hread. subst buf'. pose proof (mr_sector_length (MediaReads := Hmedia) lba) as Hlen.
  unfold ISO_SECTOR_SIZE in Hlen. rewrite !rd_byte_at by lia. rewrite rd_range_ok by lia. done.
Qed.

(** Sector [lba] holds no descriptor whose size leads the scan past 32 bits. *)
Definition no_wrap (lba : Z) : Prop := is_pvd (img lba) = true → 0 ≤ volume_size (img lba) ∧ lba + volume_size (img lba) < 2 ^ 32.

Lemma scan_ends fuel : ∀ m buf total lba best,
  zlen buf = ISO_SECTOR_SIZE → 16 ≤ lba → total ≤ 2 ^ 32 - 16 → (∀ l, 16 ≤ l < total → no_wrap l) → lba < total →
  total - lba < Z.of_nat fuel → ∃ r, pvd_scan ops fuel m buf total lba best = Ret r.
Proof.
  induction fuel as [|fuel IH]; intros m buf total lba best Hbuf Hlba Htot Hwrap Hlt Hfuel; [lia|].
  rewrite scan_step by (done || lia). destruct (negb _); [by eexists|].
  destruct (odfs_media_read ops m lba 1 buf) as [[err ?] m']. destruct (negb (err_ok err)); [by eexists|].
  destruct (is_pvd (img lba)) eqn:Hp; [|by eexists]. destruct (Hwrap lba ltac:(lia) Hp) as [Hv0 Hv]. cbn zeta.
  rewrite (u32_small (lba - 16)) by (unfold is_u32; lia).
  replace (lba - 16 + volume_size (img lba) + 16) with (lba + volume_size (img lba)) by lia.
  rewrite (u32_small (lba + volume_size (img lba))) by (unfold is_u32; lia).
  case_test; b2p; [|by eexists]. destruct_and?. b2p. apply IH; try done; [apply (mr_sector_length (MediaReads := Hmedia))|lia..].
Qed.

(** The sessions of an image from the one at [s] on end with the one at [l]: each has a
    primary volume descriptor whose size leads to the next. *)
Inductive volumes (total : Z) : Z → Z → Prop :=
  | volumes_last s :
      is_pvd (img (s + 16)) = true → s + 32 < total → 0 ≤ volume_size (img (s + 16)) →
      s + volume_size (img (s + 16)) + 16 < 2 ^ 32 →
      volume_size (img (s + 16)) = 0 ∨ total ≤ s + volume_size (img (s + 16)) + 32 ∨
        is_pvd (img (s + volume_size (img (s + 16)) + 16)) = false →
      volumes total s s
  | volumes_next s l :
      is_pvd (img (s + 16)) = true → s + 32 < total → 0 < volume_size (img (s + 16)) →
      volumes total (s + volume_size (img (s + 16))) l → volumes total s l.

Lemma volumes_bound total s l : volumes total s l → s + 32 < total.
Proof. by destruct 1. Qed.

Lemma scan_finds total s l : volumes total s l → 0 ≤ s → total ≤ 2 ^ 32 - 16 →
  (∀ m lba buf, 0 ≤ lba < total → zlen buf = ISO_SECTOR_SIZE → (odfs_media_read ops m lba 1 buf).1.1 = ODFS_OK) →
  ∀ fuel m buf best, zlen buf = ISO_SECTOR_SIZE → best < s ∨ best = 0 → total - (s + 16) < Z.of_nat fuel →
  ∃ m', pvd_scan ops fuel m buf total (s + 16) best = Ret (l, m').
Proof.
  intros Hv Hs Htot Hread. revert Hs. induction Hv as [s Hp Hb Hv0 Hw Hend|s l Hp Hb Hv0 Hv IH];
    intros Hs [|fuel] m buf best Hbuf Hbest Hfuel; try lia.
  all: rewrite scan_step by (done || lia); rewrite (u32_small (s + 16 + 16)) by (unfold is_u32; lia);
    rewrite (proj2 (Z.ltb_lt (s + 16 + 16) total)) by lia; cbn [negb];
    specialize (Hread m (s + 16) buf ltac:(lia) Hbuf) as Hok;
    destruct (odfs_media_read ops m (s + 16) 1 buf) as [[err ?] m']; simpl in Hok; subst err; change (negb (err_ok ODFS_OK)) with false; cbv iota;
    rewrite Hp; cbn zeta; replace (s + 16 - 16) with s by lia; rewrite (u32_small s) by (unfold is_u32; lia);
    assert ((if (best <? s) || (best =? 0) then s else best) = s) as -> by (case_test; b2p; lia).
  - rewrite (u32_small (s + volume_size (img (s + 16)) + 16)) by (unfold is_u32; lia).
    destruct ((0 <? volume_size (img (s + 16))) && _) eqn:Hgo; [|by eexists]. b2p.
    destruct Hend as [?|[?|Hnp]]; [lia| |].
    + destruct fuel as [|fuel]; [lia|]. rewrite scan_step; [|apply (mr_sector_length (MediaReads := Hmedia))|lia].
      rewrite (u32_small (s + volume_size (img (s + 16)) + 16 + 16)) by (unfold is_u32; lia).
      rewrite (proj2 (Z.ltb_ge (s + volume_size (img (s + 16)) + 16 + 16) total)) by lia. by eexists.
    + destruct fuel as [|fuel]; [lia|]. rewrite scan_step; [|apply (mr_sector_length (MediaReads := Hmedia))|lia].
      destruct (negb (u32 _ <? total)); [eauto|]. destruct (odfs_media_read ops m' _ _ _) as [[err ?] m2].
      destruct (negb (err_ok err)); [eauto|]. rewrite Hnp. eauto.
  - pose proof (volumes_bound _ _ _ Hv) as Hb2.
    rewrite (u32_small (s + volume_size (img (s + 16)) + 16)) by (unfold is_u32; lia).
    rewrite (proj2 (Z.ltb_lt 0 _)) by lia. rewrite (proj2 (Z.ltb_lt (s + volume_size (img (s + 16)) + 16) total)) by lia.
    cbn [andb]. apply IH; [lia|apply (mr_sector_length (MediaReads := Hmedia))|lia|lia].
Qed.
End scan.

(** ** Properties *)

(** What the drive's answers choose: the first data track of the session it names,
    or the last data track; [None] leaves it to the scan. *)
Definition chosen_session (query : option Z) (toc : option odfs_toc) : option Z :=
  match query, toc with
  | Some lba, Some toc => Some (default lba (s_start_lba <$> List.find (data_from lba) (tracks toc)))
  | Some lba, None => Some lba
  | None, Some toc => Some (default 0 (s_start_lba <$> last (filter is_data (tracks toc))))
  | None, None => None
  end.
Definition answer {A} (err : odfs_err) (a : A) : option A := if err_ok err then Some a else None.

(** With a drive that names its last session or has a TOC, the session chosen is
    the one [chosen_session] describes: the first data track, in TOC order, that does
    not start before the session named, or the session itself when there is none;
    without such an answer the last data track of the TOC, or 0 when all are audio. *)
Theorem find_last_session_drive {M} (ops : odfs_media_ops M) fuel stack m err lba m1 err' toc m2 start :
  odfs_media_read_last_session_lba ops m 0 = (err, lba, m1) → (err_ok err = false → lba = 0) →
  odfs_media_read_toc ops m1 toc_zero = (err', toc, m2) →
  0 ≤ session_count toc ≤ zlen (sessions toc) →
  chosen_session (answer err lba) (answer (if 0 <? session_count toc then err' else ODFS_ERR_IO) toc) = Some start →
  odfs_find_last_session ops fuel stack m = Ret (ODFS_OK, start, m2).
Proof.
  intros Hq Hlba Htoc Hcount. unfold odfs_find_last_session, toc_strategy, answer. rewrite Hq.
  destruct (err_ok err) eqn:He; rewrite Htoc.
  - destruct (Z.ltb_spec 0 (session_count toc)).
    + rewrite andb_true_r. destruct (err_ok err') eqn:He'; [|by intros [= ->]]. intros [= <-].
      pose proof (explicit_loop_spec toc lba (Z.to_nat (session_count toc)) 0) as Hl.
      change (Z.of_nat 0) with 0 in Hl. rewrite Hl by lia. by rewrite drop_0.
    + rewrite andb_false_r. by intros [= ->].
  - rewrite (Hlba eq_refl). destruct (Z.ltb_spec 0 (session_count toc)); [|by intros ?].
    rewrite andb_true_r. destruct (err_ok err') eqn:He'; [|by intros ?]. intros [= <-].
    destruct (last_data_loop_spec toc (Z.to_nat (session_count toc)) 0 None) as (r & Hloop & Hr); [lia|done|].
    change (Z.of_nat 0) with 0 in Hloop. rewrite Hloop, drop_0 in *. cbn [mbind outcome_bind]. unfold tracks.
    destruct (last (filter is_data _)) as [s|]; [|by rewrite Hr]. by destruct Hr as (k & -> & ->).
Qed.

(** On an image whose sessions follow each other, the scan ends within as many
    rounds as the image has sectors and finds the start of the last one. *)
Theorem find_last_session_image {M} (ops : odfs_media_ops M) img l fuel stack m :
  MediaReads ops img ISO_SECTOR_SIZE → read_last_session_lba ops = None → read_toc ops = None →
  let total := odfs_media_sector_count ops m in
  total ≤ 2 ^ 32 - 16 →
  (∀ m lba buf, 0 ≤ lba < total → zlen buf = ISO_SECTOR_SIZE → (odfs_media_read ops m lba 1 buf).1.1 = ODFS_OK) →
  volumes img total 0 l → 0 ≤ l → zlen stack = ISO_SECTOR_SIZE → total ≤ Z.of_nat fuel →
  ∃ m', odfs_find_last_session ops fuel stack m = Ret (ODFS_OK, l, m').
Proof.
  intros Hm Hq Ht total Htot Hread Hv Hl Hst Hfuel. unfold odfs_find_last_session, odfs_media_read_last_session_lba.
  rewrite Hq. cbn [err_ok]. unfold toc_strategy, odfs_media_read_toc. rewrite Ht. cbn [err_ok andb].
  unfold scan_strategy. fold total. pose proof (volumes_bound _ _ _ _ Hv) as Hb.
  rewrite (proj2 (Z.eqb_neq total 0)) by lia.
  destruct (scan_finds ops img total 0 l Hv ltac:(lia) Htot Hread fuel m stack 0) as (m' & Hs); [done|by right|lia|].
  change (0 + 16) with ISO_VD_START_OFFSET in Hs. rewrite Hs. cbn [mbind outcome_bind]. exists m'.
  destruct (Z.ltb_spec 0 l); [done|]. by replace l with 0 by lia.
Qed.

(** Discovery ends and answers [ODFS_OK] whatever an image holds, as long as no
    volume size leads the scan past 32 bits: it never reports that there is no
    session. *)
Theorem find_last_session_ends {M} (ops : odfs_media_ops M) img fuel stack m :
  MediaReads ops img ISO_SECTOR_SIZE → read_last_session_lba ops = None → read_toc ops = None →
  let total := odfs_media_sector_count ops m in
  0 ≤ total ≤ 2 ^ 32 - 16 → (∀ lba, 16 ≤ lba < total → no_wrap img lba) →
  zlen stack = ISO_SECTOR_SIZE → total ≤ Z.of_nat fuel →
  ∃ lba m', odfs_find_last_session ops fuel stack m = Ret (ODFS_OK, lba, m').
Proof.
  intros Hm Hq Ht total Htot Hwrap Hst Hfuel. unfold odfs_find_last_session, odfs_media_read_last_session_lba.
  rewrite Hq. cbn [err_ok]. unfold toc_strategy, odfs_media_read_toc. rewrite Ht. cbn [err_ok andb].
  unfold scan_strategy. fold total. destruct (Z.eqb_spec total 0) as [|Hne]; [by eexists _, _|].
  assert (Hgo : ∃ r, pvd_scan ops fuel m stack total ISO_VD_START_OFFSET 0 = Ret r).
  { unfold ISO_VD_START_OFFSET. destruct (Z.ltb_spec 16 total).
    - destruct fuel as [|fuel]; [lia|]. apply (scan_ends ops img); try done; lia.
    - destruct fuel as [|fuel]; [lia|]. rewrite (scan_step ops img) by (done || lia).
      rewrite (u32_small (16 + 16)) by (unfold is_u32; lia). rewrite (proj2 (Z.ltb_ge (16 + 16) total)) by lia. by eexists. }
  destruct Hgo as ([best m'] & ->). by eexists _, _.
Qed.

(** ** Images *)

Definition demo_pvd (b0 b1 b2 b3 : Z) : list Z := [1] ++ cd001 ++ replicate 74 0 ++ [b0; b1; b2; b3] ++ replicate 1964 0.
Definition blank_sector : list Z := replicate 2048 0.
(** Two sessions, at 0 and 100, on 300 sectors. *)
Definition demo_img (lba : Z) : list Z :=
  if lba =? 16 then demo_pvd 100 0 0 0 else if lba =? 116 then demo_pvd 50 0 0 0 else blank_sector.
(** The volume at 16 has [2 ^ 32 - 16] sectors. *)
Definition loop_img (lba : Z) : list Z :=
  if lba =? 16 then demo_pvd 16 0 0 0 else if lba =? 32 then demo_pvd 240 255 255 255 else blank_sector.
#[export] Instance demo_img_reads n : MediaReads (image_ops demo_img n ISO_SECTOR_SIZE) demo_img ISO_SECTOR_SIZE.
Proof. apply image_ops_reads; [done|]. intros l. unfold demo_img. by repeat case_test. Qed.
#[export] Instance loop_img_reads n : MediaReads (image_ops loop_img n ISO_SECTOR_SIZE) loop_img ISO_SECTOR_SIZE.
Proof. apply image_ops_reads; [done|]. intros l. unfold loop_img. by repeat case_test. Qed.

Lemma image_read img n m lba buf : 0 ≤ lba < n → zlen buf = ISO_SECTOR_SIZE →
  odfs_media_read (image_ops img n ISO_SECTOR_SIZE) m lba 1 buf = (ODFS_OK, img lba, tt).
Proof.
  intros Hl Hb. unfold odfs_media_read. simpl. rewrite Hb, (proj2 (Z.leb_le 0 lba)), (proj2 (Z.leb_le (lba + 1) n)) by lia.
  by rewrite disc_sectors_1.
Qed.

(** Volume sizes near [2 ^ 32] wrap around, so descriptors can lead the scan back
    to where it was: on this image of 64 sectors discovery never ends, whatever the
    fuel. *)
Theorem find_last_session_loops fuel :
  odfs_find_last_session (image_ops loop_img 64 ISO_SECTOR_SIZE) fuel blank_sector tt = Diverge.
Proof.
  assert (Hscan : ∀ fuel buf lba best, zlen buf = ISO_SECTOR_SIZE → lba = 16 ∨ lba = 32 →
    pvd_scan (image_ops loop_img 64 ISO_SECTOR_SIZE) fuel tt buf 64 lba best = Diverge).
  { clear fuel. intros fuel. induction fuel as [|fuel IH]; intros buf lba best Hbuf Hlba; [done|].
    rewrite (scan_step _ loop_img) by (done || lia). rewrite image_read by (done || lia).
    destruct Hlba as [-> | ->].
    - change (negb (u32 (16 + 16) <? 64)) with false. change (is_pvd (loop_img 16)) with true.
      change (volume_size (loop_img 16)) with 16. apply IH; [done|by right].
    - change (negb (u32 (32 + 16) <? 64)) with false. change (is_pvd (loop_img 32)) with true.
      change (volume_size (loop_img 32)) with 4294967280. apply IH; [done|by left]. }
  unfold odfs_find_last_session, toc_strategy, scan_strategy. simpl. unfold ISO_VD_START_OFFSET.
  rewrite (Hscan fuel blank_sector 16 0); [done|done|by left].
Qed.

Lemma find_last_session_image_witness :
  ∃ m', odfs_find_last_session (image_ops demo_img 300 ISO_SECTOR_SIZE) 300 blank_sector tt = Ret (ODFS_OK, 100, m').
Proof.
  apply (find_last_session_image (image_ops demo_img 300 ISO_SECTOR_SIZE) demo_img 100 300 blank_sector tt);
    [apply demo_img_reads|reflexivity|reflexivity|simpl; lia| | |lia|reflexivity|simpl; lia].
  - intros m lba buf Hl Hb. rewrite image_read by done. reflexivity.
  - apply volumes_next; [vm_compute; reflexivity|simpl; lia|vm_compute; reflexivity|].
    change (volume_size (demo_img (0 + 16))) with 100.
    apply volumes_last; [vm_compute; reflexivity|simpl; lia|vm_compute; congruence|vm_compute; reflexivity|].
    right. right. vm_compute. reflexivity.
Defined.
Lemma find_last_session_ends_witness :
  ∃ lba m', odfs_find_last_session (image_ops demo_img 300 ISO_SECTOR_SIZE) 300 blank_sector tt = Ret (ODFS_OK, lba, m').
Proof.
  apply (find_last_session_ends (image_ops demo_img 300 ISO_SECTOR_SIZE) demo_img 300 blank_sector tt);
    [apply demo_img_reads|reflexivity|reflexivity|simpl; lia| |reflexivity|simpl; lia].
  intros lba [Hl Hl2]. unfold no_wrap, demo_img. simpl in Hl2.
  destruct (Z.eqb_spec lba 16) as [->|]; [intros _; vm_compute; split; congruence|].
  destruct (Z.eqb_spec lba 116) as [->|]; [intros _; vm_compute; split; congruence|].
  intros H. vm_compute in H. discriminate H.
Defined.

(** A mixed disc: an audio track and two data tracks. *)
Definition demo_toc : odfs_toc :=
  mk_toc 1 1 3 5000 ([mk_session 1 0 0 1000; mk_session 2 4 1000 1000; mk_session 3 4 2500 0] ++ replicate 96 session_zero).
Definition demo_drive : odfs_media_ops unit :=
  mk_media_ops unit (λ _ _ _ b, (ODFS_ERR_IO, b, tt)) (λ _, 2048) (λ _, 5000) (Some (λ _ _, (ODFS_OK, demo_toc, tt)))
    (Some (λ _ _, (ODFS_OK, 2000, tt))) None None None.
Lemma find_last_session_drive_witness :
  odfs_find_last_session demo_drive 1 blank_sector tt = Ret (ODFS_OK, 2500, tt).
Proof.
  apply (find_last_session_drive demo_drive 1 blank_sector tt ODFS_OK 2000 tt ODFS_OK demo_toc tt 2500);
    [reflexivity|discriminate|reflexivity|simpl; lia|vm_compute; reflexivity].
Defined.
