(* ===== verification/Mount.v ===== *)
(** * Mounted volumes ([core/mount.c], [include/odfs/api.h])

    A volume lives in a world: the block cache, which holds the medium, and the heap
    of the backends' private contexts.  A backend is a pointer, 0 is NULL; [be] gives
    the operations it points to.  Requests go to the backend of the node's type,
    enumeration and lookup through the metadata cache. *)
From S2P Require Import Prelude Types Strings Media BlockCache Backend MetaCache Session.
Open Scope Z_scope.

(* [src: include/odfs/config.h:156-158 ODFS_BLOCK_CACHE_SIZE] *)
Definition ODFS_BLOCK_CACHE_SIZE : Z := 128.
Definition ODFS_META_CACHE_KIB : Z := 96.
Definition MAX_SESSION_CANDIDATES : Z := 100.

(* [src: include/odfs/api.h:20-32 odfs_mount_opts_t] *)
Record odfs_mount_opts : Type := mk_opts {
  force_backend : Z; force_session : Z; disable_rr : bool; disable_joliet : bool; prefer_udf : bool;
  prefer_hfs : bool; lowercase_iso : bool; prefer_aiff : bool; cache_blocks : Z; meta_cache_kib : Z }.
(* [src: core/mount.c:295-308 odfs_mount_opts_default] *)
Definition odfs_mount_opts_default : odfs_mount_opts :=
  mk_opts 0 (-1) false false false false false false 0 ODFS_META_CACHE_KIB.

(** The maps are indexed by backend type; their pointers and nodes are those the code
    keeps in arrays.  The block cache and the medium are in the world; the log is not
    modelled. *)
(* [src: include/odfs/api.h:35-56 odfs_mount_t] *)
Record odfs_mount_t : Type := mk_mount {
  meta : odfs_meta_cache; opts : odfs_mount_opts; active_backend : odfs_backend_type;
  mnt_ops : Z; mnt_ctx : Z; backend_map : list Z; backend_ctx_map : list Z;
  virtual_root_map : list odfs_node; has_virtual_root : list bool; mnt_root : odfs_node;
  total_blocks : Z; volume_name : list Z }.
(** [memset(mnt, 0, sizeof *mnt)] *)
Definition mount_zero : odfs_mount_t :=
  mk_mount (odfs_meta_cache_init 0) (mk_opts 0 0 false false false false false false 0 0) ODFS_BACKEND_NONE 0 0
    (replicate 8 0) (replicate 8 0) (replicate 8 node_zero) (replicate 8 false) node_zero 0 [].
Definition set_meta v mnt := mk_mount v (opts mnt) (active_backend mnt) (mnt_ops mnt) (mnt_ctx mnt)
  (backend_map mnt) (backend_ctx_map mnt) (virtual_root_map mnt) (has_virtual_root mnt) (mnt_root mnt)
  (total_blocks mnt) (volume_name mnt).
Definition set_opts v mnt := mk_mount (meta mnt) v (active_backend mnt) (mnt_ops mnt) (mnt_ctx mnt)
  (backend_map mnt) (backend_ctx_map mnt) (virtual_root_map mnt) (has_virtual_root mnt) (mnt_root mnt)
  (total_blocks mnt) (volume_name mnt).
(** The backend a volume is mounted with. *)
Definition set_active a o c r mnt := mk_mount (meta mnt) (opts mnt) a o c
  (backend_map mnt) (backend_ctx_map mnt) (virtual_root_map mnt) (has_virtual_root mnt) r
  (total_blocks mnt) (volume_name mnt).
Definition set_maps m c v h mnt := mk_mount (meta mnt) (opts mnt) (active_backend mnt) (mnt_ops mnt) (mnt_ctx mnt)
  m c v h (mnt_root mnt) (total_blocks mnt) (volume_name mnt).
Definition set_volume b v mnt := mk_mount (meta mnt) (opts mnt) (active_backend mnt) (mnt_ops mnt) (mnt_ctx mnt)
  (backend_map mnt) (backend_ctx_map mnt) (virtual_root_map mnt) (has_virtual_root mnt) (mnt_root mnt) b v.

(** ** The world *)
Record world (M H : Type) : Type := mk_world { w_cache : odfs_cache M; w_heap : H }.
Arguments mk_world {M H}.
Arguments w_cache {M H}.
Arguments w_heap {M H}.

(** ** Registered backends *)

(* [src: core/mount.c:310-328 odfs_mount_register_backend] *)
Definition odfs_mount_register_backend (mnt : odfs_mount_t) (node_backend ops ctx : Z) (virtual_root : option odfs_node)
    : odfs_mount_t :=
  if (node_backend <=? 0) || (ODFS_BACKEND__COUNT <=? node_backend) then mnt
  else
    let mnt := set_maps (zset (backend_map mnt) node_backend ops) (zset (backend_ctx_map mnt) node_backend ctx)
                 (virtual_root_map mnt) (zset (has_virtual_root mnt) node_backend false) mnt in
    match virtual_root with
    | None => mnt
    | Some r => set_maps (backend_map mnt) (backend_ctx_map mnt) (zset (virtual_root_map mnt) node_backend r)
                  (zset (has_virtual_root mnt) node_backend true) mnt
    end.
(* [src: core/mount.c:235-241 mount_is_root] *)
Definition mount_is_root (mnt : odfs_mount_t) (node : odfs_node) : bool :=
  odfs_node_matches_identity (Some node) (Some (mnt_root mnt)).

(** The virtual roots are tried by type. *)
(* [src: core/mount.c:282-289 mount_virtual_root_by_name] *)
Fixpoint virtual_root_loop (mnt : odfs_mount_t) (n : nat) (i : Z) (name : list Z) : option odfs_node :=
  match n with
  | O => None
  | S n =>
      let r := default node_zero (zget (virtual_root_map mnt) i) in
      if negb (default false (zget (has_virtual_root mnt) i)) then virtual_root_loop mnt n (i + 1) name
      else if negb (odfs_strcasecmp name (Types.name r) =? 0) then virtual_root_loop mnt n (i + 1) name
      else Some r
  end.
(* [src: core/mount.c:272-292 mount_virtual_root_by_name] *)
Definition mount_virtual_root_by_name (mnt : odfs_mount_t) (dir : odfs_node) (name : list Z) : option odfs_node :=
  if negb (mount_is_root mnt dir) then None
  else virtual_root_loop mnt (Z.to_nat (ODFS_BACKEND__COUNT - 1)) 1 name.

(** ** Mounting *)

(** The tracks from the [n]-th back to the first, until [starts] is full. *)
(* [src: core/mount.c:78-94 mount_build_session_candidates] *)
Fixpoint candidates_loop (toc : odfs_toc) (n : nat) (starts : list Z) : outcome (list Z) :=
  match n with
  | O => Ret starts
  | S n =>
      if MAX_SESSION_CANDIDATES <=? zlen starts then Ret starts
      else
        s ← toc_entry toc (Z.of_nat n);
        candidates_loop toc n
          (if negb (is_data s) then starts
           else if existsb (λ x, x =? s_start_lba s) starts then starts
           else starts ++ [s_start_lba s])
  end.

Section mount.
Context {M H : Type} (mops : odfs_media_ops M) (be : Z → odfs_backend_ops (world M H)).
Implicit Types (mnt : odfs_mount_t) (w : world M H).

(** What the medium operations see and leave. *)
Definition w_medium w : M := media (w_cache w).
Definition with_medium (m : M) w : world M H := mk_world (set_media m (w_cache w)) (w_heap w).

(** [&iso9660_backend_ops], [&joliet_backend_ops], [&udf_backend_ops],
    [&hfs_backend_ops], [&hfsplus_backend_ops]. *)
(* [src: core/mount.c:37-54 backend_table] *)
Definition backend_table : list Z := [1; 2; 3; 4; 5].

(** [stack] is what the code's [toc] holds before it is filled in. *)
(* [src: core/mount.c:56-102 mount_build_session_candidates] *)
Definition mount_build_session_candidates (stack : odfs_toc) mnt w (preferred : Z) : outcome (list Z * world M H) :=
  let starts := [preferred] in
  if 0 <=? force_session (opts mnt) then Ret (starts, w)
  else
    let '(err, toc, m) := odfs_media_read_toc mops (w_medium w) stack in
    let w := with_medium m w in
    starts ← (if err_ok err then candidates_loop toc (Z.to_nat (session_count toc)) starts else Ret starts);
    Ret (if negb (preferred =? 0) && (zlen starts <? MAX_SESSION_CANDIDATES) then starts ++ [0] else starts, w).

(** The backends that recognise the disc. *)
Record candidates : Type := mk_cand {
  iso_candidate : option Z; joliet_candidate : option Z; udf_candidate : option Z; hfs_candidate : option Z;
  cand_chosen : option Z }.
Definition add_candidate (c : candidates) (p : Z) : candidates :=
  match backend_type (be p) with
  | ODFS_BACKEND_ISO9660 => mk_cand (Some p) (joliet_candidate c) (udf_candidate c) (hfs_candidate c) (cand_chosen c)
  | ODFS_BACKEND_JOLIET => mk_cand (iso_candidate c) (Some p) (udf_candidate c) (hfs_candidate c) (cand_chosen c)
  | ODFS_BACKEND_UDF => mk_cand (iso_candidate c) (joliet_candidate c) (Some p) (hfs_candidate c) (cand_chosen c)
  | ODFS_BACKEND_HFS => mk_cand (iso_candidate c) (joliet_candidate c) (udf_candidate c) (Some p) (cand_chosen c)
  | _ => mk_cand (iso_candidate c) (joliet_candidate c) (udf_candidate c) (hfs_candidate c) (Some p)
  end.
(* [src: core/mount.c:129-154 mount_try_session_start] *)
Fixpoint probe_loop (force : Z) (session_start : Z) (table : list Z) w (c : candidates)
    : outcome (candidates * world M H) :=
  match table with
  | [] => Ret (c, w)
  | p :: table =>
      if negb (force =? 0) && negb (force =? backend_code (backend_type (be p)))
      then probe_loop force session_start table w c
      else
        '(err, w) ← probe (be p) w session_start;
        if err_ok err then
          let c := add_candidate c p in
          match cand_chosen c with
          | Some _ => Ret (c, w)
          | None => probe_loop force session_start table w c
          end
        else probe_loop force session_start table w c
  end.

(** [chosen], [mnt->root], [mnt->backend_ctx] and the world. *)
Record attempt : Type := mk_att { at_chosen : option Z; at_root : odfs_node; at_ctx : Z; at_w : world M H }.
(** [if (!chosen && candidate && cond) ... mount ...] *)
(* [src: core/mount.c:156-161 mount_try_session_start] *)
Definition try_candidate (session_start : Z) (candidate : option Z) (cond : bool) (a : attempt) : outcome attempt :=
  match at_chosen a, candidate, cond with
  | None, Some p, true =>
      '(err, root, ctx, w) ← be_mount (be p) (at_w a) session_start (at_root a) (at_ctx a);
      Ret (mk_att (if err_ok err then Some p else None) root ctx w)
  | _, _, _ => Ret a
  end.
(** ISO 9660 gives way to Joliet unless it finds Rock Ridge. *)
(* [src: core/mount.c:169-181 mount_try_session_start] *)
Definition try_iso (session_start : Z) (mo : odfs_mount_opts) (c : candidates) (a : attempt) : outcome attempt :=
  match at_chosen a, iso_candidate c with
  | None, Some p =>
      '(err, root, ctx, w) ← be_mount (be p) (at_w a) session_start (at_root a) (at_ctx a);
      if err_ok err then
        if bool_decide (backend root = ODFS_BACKEND_ROCK_RIDGE) || disable_joliet mo ||
           bool_decide (joliet_candidate c = None)
        then Ret (mk_att (Some p) root ctx w)
        else
          match be_unmount (be p) with
          | None => Fault
          | Some unmount => w ← unmount w ctx; Ret (mk_att None root 0 w)
          end
      else Ret (mk_att None root ctx w)
  | _, _ => Ret a
  end.
(* [src: core/mount.c:104-233 mount_try_session_start] *)
Definition mount_try_session_start mnt w (session_start : Z) : outcome (odfs_err * odfs_mount_t * world M H) :=
  let mo := opts mnt in
  let mnt := set_active ODFS_BACKEND_NONE 0 0 node_zero mnt in
  '(c, w) ← probe_loop (force_backend mo) session_start backend_table w (mk_cand None None None None None);
  let a := mk_att (cand_chosen c) (mnt_root mnt) (mnt_ctx mnt) w in
  a ← try_candidate session_start (udf_candidate c) (prefer_udf mo) a;
  a ← try_candidate session_start (hfs_candidate c) (prefer_hfs mo) a;
  a ← try_iso session_start mo c a;
  a ← try_candidate session_start (joliet_candidate c) true a;
  a ← try_candidate session_start (udf_candidate c) true a;
  a ← try_candidate session_start (hfs_candidate c) true a;
  a ← try_candidate session_start (iso_candidate c) (at_ctx a =? 0) a;
  match at_chosen a with
  | None => Ret (ODFS_ERR_BAD_FORMAT, mnt, at_w a)
  | Some p =>
      '(err, root, ctx, w) ←
        (if at_ctx a =? 0 then be_mount (be p) (at_w a) session_start (at_root a) (at_ctx a)
         else Ret (ODFS_OK, at_root a, at_ctx a, at_w a));
      if err_ok err then Ret (ODFS_OK, set_active (backend root) p ctx root mnt, w)
      else Ret (err, mnt, w)
  end.

(** The candidates in order, until one mounts. *)
(* [src: core/mount.c:407-424 odfs_mount] *)
Fixpoint try_sessions mnt w (starts : list Z) (err : odfs_err) : outcome (odfs_err * odfs_mount_t * world M H) :=
  match starts with
  | [] => Ret (err, mnt, w)
  | start :: starts =>
      '(err, mnt, w) ← mount_try_session_start mnt w start;
      if err_ok err then Ret (ODFS_OK, mnt, w) else try_sessions mnt w starts err
  end.
(* [src: core/mount.c:384-400 odfs_mount] *)
Definition mount_session_start (fuel : nat) (toc_stack : odfs_toc) (sector_stack : list Z) mnt w
    : outcome (Z * world M H) :=
  let force := force_session (opts mnt) in
  if 0 <=? force then
    let '(err, toc, m) := odfs_media_read_toc mops (w_medium w) toc_stack in
    if err_ok err && (force <? session_count toc)
    then s ← toc_entry toc force; Ret (s_start_lba s, with_medium m w)
    else Ret (0, with_medium m w)
  else
    '(_, start, m) ← odfs_find_last_session mops fuel sector_stack (w_medium w);
    Ret (start, with_medium m w).
(** The volume's name and size, and the backend under its own type and the root's. *)
(* [src: core/mount.c:436-450 odfs_mount] *)
Definition mount_finish mnt w : outcome (odfs_mount_t * world M H) :=
  let own := backend_type (be (mnt_ops mnt)) in
  let mnt := odfs_mount_register_backend mnt (backend_code (backend (mnt_root mnt))) (mnt_ops mnt) (mnt_ctx mnt)
               (Some (mnt_root mnt)) in
  let mnt := if negb (bool_decide (own = backend (mnt_root mnt)))
             then odfs_mount_register_backend mnt (backend_code own) (mnt_ops mnt) (mnt_ctx mnt) None else mnt in
  '(mnt, w) ← match be_get_volume_name (be (mnt_ops mnt)) with
              | None => Ret (mnt, w)
              | Some f => '(_, vname, w) ← f w (mnt_ctx mnt) 128; Ret (set_volume (total_blocks mnt) vname mnt, w)
              end;
  match be_get_volume_size (be (mnt_ops mnt)) with
  | None => Ret (mnt, w)
  | Some f => n ← f w (mnt_ctx mnt); Ret (set_volume n (volume_name mnt) mnt, w)
  end.
(** [malloc] is for the block cache.  [m] is the medium; the heap is that of the
    caller.  When the cache cannot be made the code returns at once. *)
(* [src: core/mount.c:330-453 odfs_mount] *)
Definition odfs_mount (malloc : Z → bool) (fuel : nat) (toc_stack : odfs_toc) (sector_stack : list Z)
    (m : M) (heap : H) (o : option odfs_mount_opts) : outcome (odfs_err * odfs_mount_t * world M H) :=
  let mnt := set_opts (default odfs_mount_opts_default o) mount_zero in
  let cache_size := if cache_blocks (opts mnt) =? 0 then ODFS_BLOCK_CACHE_SIZE else cache_blocks (opts mnt) in
  let '(err, c) := odfs_cache_init mops malloc m cache_size in
  let w := mk_world c heap in
  if negb (err_ok err) then Ret (err, mnt, w)
  else
    let meta_kib := if 2 ^ 20 <? meta_cache_kib (opts mnt) then 2 ^ 20 else meta_cache_kib (opts mnt) in
    let mnt := set_meta (odfs_meta_cache_init (u32 (Z.shiftl meta_kib 10))) mnt in
    '(session_start, w) ← mount_session_start fuel toc_stack sector_stack mnt w;
    '(starts, w) ← mount_build_session_candidates toc_stack mnt w session_start;
    '(err, mnt, w) ← try_sessions mnt w starts ODFS_ERR_BAD_FORMAT;
    if negb (err_ok err)
    then Ret (ODFS_ERR_BAD_FORMAT, set_meta (odfs_meta_cache_destroy (meta mnt)) mnt,
              mk_world (odfs_cache_destroy (w_cache w)) (w_heap w))
    else '(mnt, w) ← mount_finish mnt w; Ret (ODFS_OK, mnt, w).

(** ** Unmounting *)

Definition map_ops mnt (i : Z) : Z := default 0 (zget (backend_map mnt) i).
Definition map_ctx mnt (i : Z) : Z := default 0 (zget (backend_ctx_map mnt) i).
(** An entry below [i] with the same backend and context. *)
(* [src: core/mount.c:472-479 odfs_unmount] *)
Definition unmount_duplicate mnt (i : Z) : bool :=
  existsb (λ j, (map_ops mnt j =? map_ops mnt i) && (map_ctx mnt j =? map_ctx mnt i)) (seqZ 1 (i - 1)).
(** The entries from [i] on; the result says whether the mounted one was seen. *)
(* [src: core/mount.c:463-484 odfs_unmount] *)
Fixpoint unmount_loop mnt (n : nat) (i : Z) w (primary_seen : bool) : outcome (bool * world M H) :=
  match n with
  | O => Ret (primary_seen, w)
  | S n =>
      let ops := map_ops mnt i in
      let ctx := map_ctx mnt i in
      match (if ops =? 0 then None else be_unmount (be ops)) with
      | None => unmount_loop mnt n (i + 1) w primary_seen
      | Some unmount =>
          if unmount_duplicate mnt i then unmount_loop mnt n (i + 1) w primary_seen
          else
            let primary_seen := primary_seen || ((ops =? mnt_ops mnt) && (ctx =? mnt_ctx mnt)) in
            w ← unmount w ctx;
            unmount_loop mnt n (i + 1) w primary_seen
      end
  end.
(* [src: core/mount.c:455-496 odfs_unmount] *)
Definition odfs_unmount mnt w : outcome (odfs_mount_t * world M H) :=
  '(primary_seen, w) ← unmount_loop mnt (Z.to_nat (ODFS_BACKEND__COUNT - 1)) 1 w false;
  w ← match (if (primary_seen : bool) || (mnt_ops mnt =? 0) then None else be_unmount (be (mnt_ops mnt))) with
      | None => Ret w
      | Some unmount => unmount w (mnt_ctx mnt)
      end;
  let w := mk_world (odfs_cache_destroy (w_cache w)) (w_heap w) in
  Ret (mount_zero, with_medium (odfs_media_close mops (w_medium w)) w).

(** ** Requests *)

(** The backend and the context that serve nodes of a type. *)
(* [src: core/mount.c:243-269 mount_backend_for_type] *)
Definition mount_backend_for_type mnt (type : odfs_backend_type) : option (Z * Z) :=
  let t := backend_code type in
  if t <=? 0 then None
  else if negb (map_ops mnt t =? 0) then Some (map_ops mnt t, map_ctx mnt t)
  else if negb (mnt_ops mnt =? 0) &&
          (bool_decide (type = backend (mnt_root mnt)) || bool_decide (type = backend_type (be (mnt_ops mnt))))
  then Some (mnt_ops mnt, mnt_ctx mnt)
  else None.
(** Its operations, if it has the one that [f] selects. *)
Definition backend_with {A} (f : odfs_backend_ops (world M H) → option A) mnt (type : odfs_backend_type)
    : option (odfs_backend_ops (world M H) * Z * A) :=
  match mount_backend_for_type mnt type with
  | None => None
  | Some (p, ctx) => match f (be p) with None => None | Some op => Some (be p, ctx, op) end
  end.

(** [malloc] is for the metadata cache. *)
Context (malloc : nat → Z → bool).

(* [src: core/mount.c:498-529 odfs_readdir] *)
Definition odfs_readdir {T} (cb : odfs_dir_iter_fn T) mnt w (dir : odfs_node) (t : T) (resume : option Z)
    : outcome (odfs_err * option Z * odfs_mount_t * world M H * T) :=
  if negb (bool_decide (kind dir = ODFS_NODE_DIR)) then Ret (ODFS_ERR_NOT_DIR, resume, mnt, w, t)
  else
    match backend_with be_readdir mnt (backend dir) with
    | None => Ret (ODFS_ERR_UNSUPPORTED, resume, mnt, w, t)
    | Some (ops, ctx, readdir) =>
        '(err, resume, mc, w, t) ← odfs_meta_readdir malloc ops ctx cb w (meta mnt) dir t resume;
        let mnt := set_meta mc mnt in
        if negb (bool_decide (err = ODFS_ERR_UNSUPPORTED)) then Ret (err, resume, mnt, w, t)
        else
          '(err, resume, w, t) ← readdir T w ctx dir cb t resume;
          Ret (err, resume, mnt, w, t)
    end.
(* [src: core/mount.c:531-552 odfs_read] *)
Definition odfs_read mnt w (file : odfs_node) (offset : Z) (buf : list Z) (len : Z)
    : outcome (odfs_err * list Z * Z * world M H) :=
  if bool_decide (kind file = ODFS_NODE_DIR) then Ret (ODFS_ERR_IS_DIR, buf, len, w)
  else
    match backend_with be_read mnt (backend file) with
    | None => Ret (ODFS_ERR_UNSUPPORTED, buf, len, w)
    | Some (_, ctx, read) => read w ctx file offset buf len
    end.
(** The first sector of a file that is one run of sectors. *)
(* [src: core/mount.c:554-568 odfs_file_is_contiguous] *)
Definition odfs_file_is_contiguous mnt (file : odfs_node) : option Z :=
  if negb (bool_decide (kind file = ODFS_NODE_FILE)) then None
  else
    match mount_backend_for_type mnt (backend file) with
    | None => None
    | Some (p, _) => if Z.land (flags (be p)) ODFS_BACKEND_F_CONTIGUOUS =? 0 then None else Some (lba (extent file))
    end.
(* [src: core/mount.c:570-599 odfs_lookup] *)
Definition odfs_lookup mnt w (dir : odfs_node) (name : list Z)
    : outcome (odfs_err * option odfs_node * odfs_mount_t * world M H) :=
  if negb (bool_decide (kind dir = ODFS_NODE_DIR)) then Ret (ODFS_ERR_NOT_DIR, None, mnt, w)
  else
    match backend_with be_lookup mnt (backend dir) with
    | None => Ret (ODFS_ERR_UNSUPPORTED, None, mnt, w)
    | Some (ops, ctx, lookup) =>
        '(err, out, mc, w) ← odfs_meta_lookup malloc ops ctx w (meta mnt) dir name;
        let mnt := set_meta mc mnt in
        if negb (bool_decide (err = ODFS_ERR_UNSUPPORTED)) then Ret (err, out, mnt, w)
        else '(err, out, w) ← lookup w ctx dir name; Ret (err, out, mnt, w)
    end.
(* [src: core/mount.c:601-624 odfs_lookup_path] *)
Definition odfs_lookup_path mnt (dir : odfs_node) (path : list Z)
    : outcome (odfs_err * list odfs_node * Z * odfs_mount_t) :=
  if negb (bool_decide (kind dir = ODFS_NODE_DIR)) then Ret (ODFS_ERR_UNSUPPORTED, [], 0, mnt)
  else '(err, out, n, mc) ← odfs_meta_lookup_path (meta mnt) dir path; Ret (err, out, n, set_meta mc mnt).
(* [src: core/mount.c:626-647 odfs_readlink] *)
Definition odfs_readlink mnt w (dir : odfs_node) (name : list Z) (buf_size : Z)
    : outcome (odfs_err * option (list Z) * world M H) :=
  if buf_size =? 0 then Ret (ODFS_ERR_INVAL, None, w)
  else if negb (bool_decide (kind dir = ODFS_NODE_DIR)) then Ret (ODFS_ERR_NOT_DIR, None, w)
  else
    match backend_with be_readlink mnt (backend dir) with
    | None => Ret (ODFS_ERR_UNSUPPORTED, None, w)
    | Some (_, ctx, readlink) => readlink w ctx dir name buf_size
    end.

(** ** Paths *)

(** The path without its leading separators. *)
Fixpoint skip_slashes (p : list Z) : list Z :=
  match p with [] => [] | c :: p' => if c =? 47 then skip_slashes p' else p end.
(** [p] has no leading separator; every round takes a component off it. *)
(* [src: core/mount.c:703-733 odfs_resolve_path] *)
Fixpoint resolve_loop (fuel : nat) mnt w (current : odfs_node) (p : list Z)
    : outcome (odfs_err * option odfs_node * odfs_mount_t * world M H) :=
  match fuel with
  | O => Diverge
  | S fuel =>
      match p with
      | [] => Ret (ODFS_OK, Some current, mnt, w)
      | _ =>
          let '(component, rest) := path_name p in
          if bool_decide (component = []) then resolve_loop fuel mnt w current (drop 1 rest)
          else if ODFS_NAME_MAX <=? zlen component then Ret (ODFS_ERR_NAME_TOO_LONG, None, mnt, w)
          else
            match mount_virtual_root_by_name mnt current component with
            | Some r => resolve_loop fuel mnt w r (skip_slashes rest)
            | None =>
                '(err, out, mnt, w) ← odfs_lookup mnt w current component;
                match err_ok err, out with
                | true, Some n => resolve_loop fuel mnt w n (skip_slashes rest)
                | true, None => Fault
                | false, _ => Ret (err, None, mnt, w)
                end
            end
      end
  end.
(* [src: core/mount.c:678-737 odfs_resolve_path] *)
Definition odfs_resolve_path mnt w (path : list Z) : outcome (odfs_err * option odfs_node * odfs_mount_t * world M H) :=
  resolve_loop (S (length path)) mnt w (mnt_root mnt) (skip_slashes path).
End mount.
