(* ===== verification/MountProofs.v ===== *)
(** * Which backends stay mounted

    A backend's contexts are live from the mount that made them to the unmount that
    frees them ([Lifecycle]).  Trying a session leaves the chosen backend's context
    live and no other, unmounting a volume frees each registered context once. *)
From S2P Require Import Prelude Types Strings Media BlockCache Backend MetaCache Session Mount.
Open Scope Z_scope.

(** [live h] are the contexts in use, each with its backend.  Operations that do not
    return (a reader may leave its objects on a hostile disc) are not constrained. *)
Class Lifecycle {M H} (be : Z → odfs_backend_ops (world M H)) (live : H → list (Z * Z)) : Prop := {
  lc_probe : ∀ p w s, after (probe (be p) w s) (λ '(_, w'), live (w_heap w') ≡ₚ live (w_heap w));
  lc_mount : ∀ p w s r c, after (be_mount (be p) w s r c) (λ '(err, _, c', w'),
    if err_ok err then c' ≠ 0 ∧ live (w_heap w') ≡ₚ (p, c') :: live (w_heap w)
    else c' = c ∧ live (w_heap w') ≡ₚ live (w_heap w));
  lc_has_unmount : ∀ p, p ∈ backend_table → be_unmount (be p) ≠ None;
  lc_unmount : ∀ p w c f, be_unmount (be p) = Some f → (p, c) ∈ live (w_heap w) →
    yields (f w c) (λ w', live (w_heap w) ≡ₚ (p, c) :: live (w_heap w'));
  lc_volume_name : ∀ p w c n f, be_get_volume_name (be p) = Some f →
    after (f w c n) (λ '(_, _, w'), live (w_heap w') ≡ₚ live (w_heap w)) }.

Section lifecycle.
Context {M H : Type} (mops : odfs_media_ops M) (be : Z → odfs_backend_ops (world M H)) (live : H → list (Z * Z)).
Context `{HL : !Lifecycle be live}.
Implicit Types (mnt : odfs_mount_t) (w : world M H).
Abbreviation live_w w := (live (w_heap w)).

(** ** Trying a session *)

Definition same_maps mnt mnt' : Prop := backend_map mnt' = backend_map mnt ∧ backend_ctx_map mnt' = backend_ctx_map mnt.

Definition table_cand (c : candidates) : Prop :=
  (∀ p, cand_chosen c = Some p → p ∈ backend_table) ∧ (∀ p, iso_candidate c = Some p → p ∈ backend_table) ∧
  (∀ p, joliet_candidate c = Some p → p ∈ backend_table) ∧ (∀ p, udf_candidate c = Some p → p ∈ backend_table) ∧
  (∀ p, hfs_candidate c = Some p → p ∈ backend_table).
Lemma add_candidate_table c p : p ∈ backend_table → table_cand c → table_cand (add_candidate be c p).
Proof.
  intros Hp (H1 & H2 & H3 & H4 & H5). unfold add_candidate, table_cand.
  destruct (backend_type (be p)); simpl; split_and!; try done; by intros ? [= <-].
Qed.

Lemma probe_loop_ok force s table : ∀ w c, (∀ p, p ∈ table → p ∈ backend_table) → table_cand c →
  after (probe_loop be force s table w c) (λ '(c', w'), table_cand c' ∧ live_w w' ≡ₚ live_w w).
Proof.
  induction table as [|p table IH]; intros w c Ht Hc; cbn [probe_loop]; [by apply after_ret|].
  assert (Ht' : ∀ q, q ∈ table → q ∈ backend_table) by set_solver.
  destruct (_ && _); [by apply IH|].
  eapply after_bind; [apply lc_probe|]. intros [err w'] Hw'. destruct (err_ok err).
  - assert (table_cand (add_candidate be c p)) by (apply add_candidate_table; [set_solver|done]).
    destruct (cand_chosen _); [by apply after_ret|]. eapply after_weaken; [by apply IH|].
    intros [c' w''] [? Hl]. split; [done|]. by rewrite Hl.
  - eapply after_weaken; [by apply IH|]. intros [c' w''] [? Hl]. split; [done|]. by rewrite Hl.
Qed.

(** What the attempts have left: the chosen backend's context and nothing else. *)
Definition attempt_ok (L : list (Z * Z)) (a : @attempt M H) : Prop :=
  match at_chosen a with
  | None => at_ctx a = 0 ∧ live_w (at_w a) ≡ₚ L
  | Some p => p ∈ backend_table ∧
      (at_ctx a = 0 ∧ live_w (at_w a) ≡ₚ L ∨ at_ctx a ≠ 0 ∧ live_w (at_w a) ≡ₚ (p, at_ctx a) :: L)
  end.

Lemma try_candidate_ok s cand cond a L :
  (∀ p, cand = Some p → p ∈ backend_table) → attempt_ok L a → after (try_candidate be s cand cond a) (attempt_ok L).
Proof.
  intros Hcand Ha. unfold try_candidate. destruct (at_chosen a) as [q|] eqn:Hq; [by apply after_ret|].
  destruct cand as [p|]; [|by apply after_ret]. destruct cond; [|by apply after_ret].
  unfold attempt_ok in Ha. rewrite Hq in Ha. destruct Ha as [Hctx Hlive].
  eapply after_bind; [apply lc_mount|]. intros [[[err root] ctx] w'] Hm. apply after_ret.
  unfold attempt_ok. simpl. destruct (err_ok err).
  - destruct Hm as [Hne Hl]. split; [by apply Hcand|]. right. split; [done|]. by rewrite Hl, Hlive.
  - destruct Hm as [-> Hl]. split; [done|]. by rewrite Hl.
Qed.
Lemma try_iso_ok s mo c a L : table_cand c → attempt_ok L a → after (try_iso be s mo c a) (attempt_ok L).
Proof.
  intros Hc Ha. unfold try_iso. destruct (at_chosen a) as [q|] eqn:Hq; [by apply after_ret|].
  destruct (iso_candidate c) as [p|] eqn:Hp; [|by apply after_ret].
  assert (Hpt : p ∈ backend_table) by (destruct Hc as (_ & Hiso & _); by apply Hiso).
  unfold attempt_ok in Ha. rewrite Hq in Ha. destruct Ha as [Hctx Hlive].
  eapply after_bind; [apply lc_mount|]. intros [[[err root] ctx] w'] Hm. destruct (err_ok err).
  - destruct Hm as [Hne Hl]. destruct (_ || _).
    + apply after_ret. unfold attempt_ok. simpl. split; [done|]. right. split; [done|]. by rewrite Hl, Hlive.
    + destruct (be_unmount (be p)) as [f|] eqn:Hf; [|by apply lc_has_unmount in Hf].
      assert (Hin : (p, ctx) ∈ live_w w') by (rewrite Hl; left).
      eapply after_bind; [exact (yields_after _ _ (lc_unmount p w' ctx f Hf Hin))|].
      intros w'' Hu. apply after_ret. unfold attempt_ok. simpl. split; [done|].
      simpl in Hu. rewrite Hl in Hu. apply (Permutation_cons_inv (a := (p, ctx))). by rewrite <- Hu, Hlive.
  - destruct Hm as [-> Hl]. apply after_ret. unfold attempt_ok. simpl. split; [done|]. by rewrite Hl.
Qed.

Lemma try_session_ok mnt w s :
  after (mount_try_session_start be mnt w s) (λ '(err, mnt', w'), same_maps mnt mnt' ∧
    if err_ok err then mnt_ops mnt' ∈ backend_table ∧ mnt_ctx mnt' ≠ 0 ∧
      live_w w' ≡ₚ (mnt_ops mnt', mnt_ctx mnt') :: live_w w
    else mnt_ops mnt' = 0 ∧ live_w w' ≡ₚ live_w w).
Proof.
  unfold mount_try_session_start. cbv zeta.
  eapply after_bind; [apply probe_loop_ok; [done|by split_and!]|]. intros [c w1] [Hc Hw1].
  pose proof Hc as (H1 & H2 & H3 & H4 & H5).
  eapply (after_bind _ _ (attempt_ok (live_w w))).
  { apply try_candidate_ok; [done|]. unfold attempt_ok. simpl. destruct (cand_chosen c); [|done].
    split; [by apply H1|by left]. }
  intros a1 Ha1. eapply after_bind; [by apply try_candidate_ok|]. intros a2 Ha2.
  eapply after_bind; [by apply try_iso_ok|]. intros a3 Ha3.
  eapply after_bind; [by apply try_candidate_ok|]. intros a4 Ha4.
  eapply after_bind; [by apply try_candidate_ok|]. intros a5 Ha5.
  eapply after_bind; [by apply try_candidate_ok|]. intros a6 Ha6.
  eapply after_bind; [by apply try_candidate_ok|]. intros a Ha.
  unfold attempt_ok in Ha. destruct (at_chosen a) as [p|]; [|destruct Ha; apply after_ret; split; [done|by split]].
  destruct Ha as [Hp Ha].
  eapply (after_bind _ _ (λ '(err, _, ctx, w'), if err_ok err then ctx ≠ 0 ∧ live_w w' ≡ₚ (p, ctx) :: live_w w
    else live_w w' ≡ₚ live_w w)).
  - destruct (Z.eqb_spec (at_ctx a) 0) as [Hz|Hz].
    + destruct Ha as [[_ Hl]|[? _]]; [|done]. eapply after_weaken; [apply lc_mount|].
      intros [[[err r] ctx] w'] Hm. destruct (err_ok err); [|destruct Hm as [_ Hm]; by rewrite Hm, Hl].
      destruct Hm as [? Hm]. split; [done|]. by rewrite Hm, Hl.
    + destruct Ha as [[? _]|[? Hl]]; [done|]. by apply after_ret.
  - intros [[[err r] ctx] w'] Hm. destruct (err_ok err) eqn:He; apply after_ret; (split; [done|]).
    + change (err_ok ODFS_OK) with true. destruct Hm. by split_and!.
    + rewrite He. by split.
Qed.

Lemma try_sessions_ok starts : ∀ mnt w err, err ≠ ODFS_OK →
  after (try_sessions be mnt w starts err) (λ '(err, mnt', w'), same_maps mnt mnt' ∧
    if err_ok err then mnt_ops mnt' ∈ backend_table ∧ mnt_ctx mnt' ≠ 0 ∧
      live_w w' ≡ₚ (mnt_ops mnt', mnt_ctx mnt') :: live_w w
    else live_w w' ≡ₚ live_w w).
Proof.
  induction starts as [|s starts IH]; intros mnt w err Herr; cbn [try_sessions].
  - apply after_ret. apply err_ok_false in Herr. by rewrite Herr.
  - eapply after_bind; [apply try_session_ok|]. intros [[err1 mnt1] w1] [[Hm Hc] H1]. destruct (err_ok err1) eqn:He.
    + apply after_ret. split; [by split|done].
    + destruct H1 as [_ Hl]. eapply after_weaken; [apply IH; by apply err_ok_false|].
      intros [[err2 mnt2] w2] [[Hm2 Hc2] H2]. split; [split; congruence|]. destruct (err_ok err2); by rewrite <- Hl.
Qed.

(** ** Unmounting *)

(** A context that unmounting has to free: a backend's that is registered under some
    type, or the one the volume is mounted with. *)
Definition registered mnt (x : Z * Z) : Prop :=
  x.1 ≠ 0 ∧ be_unmount (be x.1) ≠ None ∧
  (x = (mnt_ops mnt, mnt_ctx mnt) ∨ ∃ i, 1 ≤ i < ODFS_BACKEND__COUNT ∧ x = (map_ops mnt i, map_ctx mnt i)).
(** Seen before position [i]. *)
Definition seen_before mnt (i : Z) (x : Z * Z) : Prop := ∃ j, 1 ≤ j < i ∧ x = (map_ops mnt j, map_ctx mnt j).

Lemma unmount_duplicate_spec mnt i :
  unmount_duplicate mnt i = true ↔ seen_before mnt i (map_ops mnt i, map_ctx mnt i).
Proof.
  unfold unmount_duplicate, seen_before. rewrite existsb_exists. split.
  - intros (j & Hj & Heq). apply list_elem_of_In, elem_of_seqZ in Hj. b2p. exists j. split; [lia|congruence].
  - intros (j & Hj & [= Ho Hc]). exists j. split; [apply list_elem_of_In, elem_of_seqZ; lia|].
    by rewrite Ho, Hc, !Z.eqb_refl.
Qed.
Lemma seen_before_succ mnt i x : 1 ≤ i → seen_before mnt (i + 1) x ↔ seen_before mnt i x ∨ x = (map_ops mnt i, map_ctx mnt i).
Proof.
  intros Hi. split.
  - intros (j & Hj & ->). destruct (decide (j = i)) as [->|]; [by right|left]. exists j. split; [lia|done].
  - intros [(j & Hj & ->)| ->]; [exists j|exists i]; split; (lia || done).
Qed.

(** What is left to free when the loop has come to [i]. *)
Definition left_at mnt (i : Z) (hs : list (Z * Z)) : Prop :=
  NoDup hs ∧ ∀ x, x ∈ hs ↔ registered mnt x ∧ ¬ seen_before mnt i x.

Lemma unmount_loop_ok mnt rest n : ∀ i w seen hs,
  1 ≤ i → i + Z.of_nat n = ODFS_BACKEND__COUNT → left_at mnt i hs → live_w w ≡ₚ hs ++ rest →
  (seen = true ↔ seen_before mnt i (mnt_ops mnt, mnt_ctx mnt) ∧ registered mnt (mnt_ops mnt, mnt_ctx mnt)) →
  yields (unmount_loop be mnt n i w seen) (λ '(seen', w'), ∃ hs', left_at mnt ODFS_BACKEND__COUNT hs' ∧ live_w w' ≡ₚ hs' ++ rest ∧
    (seen' = true ↔ seen_before mnt ODFS_BACKEND__COUNT (mnt_ops mnt, mnt_ctx mnt) ∧ registered mnt (mnt_ops mnt, mnt_ctx mnt))).
Proof.
  induction n as [|n IH]; intros i w seen hs Hi Hn Hleft Hlive Hseen; cbn [unmount_loop].
  - replace i with ODFS_BACKEND__COUNT in * by lia. apply yields_ret. by exists hs.
  - set (x := (map_ops mnt i, map_ctx mnt i)).
    assert (Hskip : ¬ registered mnt x ∨ seen_before mnt i x →
      yields (unmount_loop be mnt n (i + 1) w seen) (λ '(seen', w'), ∃ hs', left_at mnt ODFS_BACKEND__COUNT hs' ∧ live_w w' ≡ₚ hs' ++ rest ∧
        (seen' = true ↔ seen_before mnt ODFS_BACKEND__COUNT (mnt_ops mnt, mnt_ctx mnt) ∧ registered mnt (mnt_ops mnt, mnt_ctx mnt)))).
    { intros Hx. assert (Hsame : ∀ y, registered mnt y → seen_before mnt (i + 1) y ↔ seen_before mnt i y).
      { intros y Hy. rewrite seen_before_succ by done. fold x. split; [|by left]. intros [?| ->]; [done|]. by destruct Hx. }
      apply (IH (i + 1) w seen hs); [lia|lia| |done|].
      - destruct Hleft as [Hnd Hin]. split; [done|]. intros y. rewrite Hin. split; intros [Hr Hs]; (split; [done|]);
          by rewrite Hsame in *.
      - rewrite Hseen. split; intros [Hs Hr]; (split; [|done]); by apply Hsame. }
    assert (Hreg : registered mnt x ↔ map_ops mnt i ≠ 0 ∧ be_unmount (be (map_ops mnt i)) ≠ None).
    { unfold registered, x. simpl. split; [tauto|]. intros [? ?]. split_and!; try done. right. exists i. split; [lia|done]. }
    destruct (Z.eqb_spec (map_ops mnt i) 0) as [Hz|Hz]; [apply Hskip; left; tauto|].
    destruct (be_unmount (be (map_ops mnt i))) as [f|] eqn:Hf; [|apply Hskip; left; tauto].
    destruct (unmount_duplicate mnt i) eqn:Hdup; [apply Hskip; right; by apply unmount_duplicate_spec|].
    assert (Hns : ¬ seen_before mnt i x) by (intros Hs; apply unmount_duplicate_spec in Hs; congruence).
    assert (Hrx : registered mnt x) by (apply Hreg; by split).
    destruct Hleft as [Hnd Hin]. assert (Hxin : x ∈ hs) by (by apply Hin).
    apply list_elem_of_split in Hxin as (hs1 & hs2 & ->). rewrite <- Permutation_middle in Hlive.
    eapply yields_bind; [apply (lc_unmount (map_ops mnt i) w (map_ctx mnt i) f Hf); rewrite Hlive; left|].
    intros w' Hw'. simpl in Hw'. rewrite Hlive in Hw'. simpl in Hw'. apply Permutation_cons_inv in Hw'.
    apply (IH (i + 1) w' _ (hs1 ++ hs2)); [lia|lia| |by rewrite Hw'|].
    + rewrite <- Permutation_middle in Hnd. apply NoDup_cons in Hnd as [Hxn Hnd]. split; [done|]. intros y.
      specialize (Hin y). rewrite seen_before_succ by done. fold x.
      rewrite elem_of_app, elem_of_cons, <- elem_of_app in Hin || rewrite elem_of_app, elem_of_cons in Hin.
      rewrite elem_of_app in *. split.
      * intros Hy. assert (registered mnt y ∧ ¬ seen_before mnt i y) as [? ?] by (apply Hin; tauto).
        split; [done|]. intros [?| ->]; [done|]. apply Hxn. tauto.
      * intros [Hr Hs]. assert (y ∈ hs1 ∨ y = x ∨ y ∈ hs2) as [?|[->|?]] by (apply Hin; tauto); [by left|tauto|by right].
    + rewrite orb_true_iff, andb_true_iff, !Z.eqb_eq, Hseen, seen_before_succ by done. fold x. split.
      * intros [[? ?]|[Ho Hc]]; [tauto|]. assert (x = (mnt_ops mnt, mnt_ctx mnt)) as Hx by (unfold x; congruence).
        rewrite <- Hx. tauto.
      * intros [[?|Hx] ?]; [tauto|]. right. unfold x in Hx. by injection Hx as -> ->.
Qed.

Lemma unmount_ok mnt w hs rest :
  NoDup hs → (∀ x, x ∈ hs ↔ registered mnt x) → live_w w ≡ₚ hs ++ rest →
  yields (odfs_unmount mops be mnt w) (λ '(mnt', w'), mnt' = mount_zero ∧ live_w w' ≡ₚ rest).
Proof.
  intros Hnd Hin Hlive. unfold odfs_unmount.
  eapply yields_bind.
  { apply (unmount_loop_ok mnt rest (Z.to_nat (ODFS_BACKEND__COUNT - 1)) 1 w false hs); [lia|reflexivity| |done|].
    - split; [done|]. intros x. rewrite Hin. split; [|tauto]. intros Hr. split; [done|]. intros (j & Hj & _). lia.
    - split; [done|]. intros [(j & Hj & _) _]. lia. }
  intros [seen w1] (hs' & [Hnd' Hin'] & Hlive1 & Hseen). set (x := (mnt_ops mnt, mnt_ctx mnt)) in *.
  assert (Hall : ∀ y, y ∈ hs' → y = x).
  { intros y Hy. apply Hin' in Hy as [(_ & _ & [->|Hi]) Hns]; [done|]. by destruct Hns. }
  eapply (yields_bind _ _ (λ w2, live_w w2 ≡ₚ rest)).
  2: { intros w2 Hw2. apply yields_ret. done. }
  destruct (seen || (mnt_ops mnt =? 0)) eqn:Hskip.
  - apply yields_ret. assert (hs' = []) as ->; [|done]. destruct hs' as [|y hs']; [done|].
    assert (Hy : y ∈ y :: hs') by left. pose proof (proj1 (Hin' y) Hy) as [Hr Hns]. rewrite (Hall y Hy) in Hr, Hns.
    apply orb_true_iff in Hskip as [->|Hz]; [by destruct (proj1 Hseen eq_refl)|]. b2p. by destruct Hr.
  - apply orb_false_iff in Hskip as [-> Hz]. b2p. destruct (be_unmount (be (mnt_ops mnt))) as [f|] eqn:Hf.
    + assert (Hr : registered mnt x) by (split_and!; [done|simpl; congruence|by left]).
      assert (Hx : x ∈ hs').
      { apply Hin'. split; [done|]. intros Hs. assert (false = true) by (apply Hseen; done). done. }
      assert (hs' = [x]) as ->.
      { destruct hs' as [|y [|z hs']]; [by apply elem_of_nil in Hx| |].
        - by rewrite (Hall y) by left.
        - exfalso. apply NoDup_cons in Hnd' as [Hn _]. apply Hn. rewrite (Hall y), (Hall z) by set_solver. left. }
      eapply yields_weaken; [apply (lc_unmount (mnt_ops mnt) w1 (mnt_ctx mnt) f Hf); rewrite Hlive1; left|].
      intros w2 Hw2. simpl in Hw2. rewrite Hlive1 in Hw2. simpl in Hw2. by apply Permutation_cons_inv in Hw2.
    + apply yields_ret. assert (hs' = []) as ->; [|done]. destruct hs' as [|y hs']; [done|].
      assert (Hy : y ∈ y :: hs') by left. pose proof (proj1 (Hin' y) Hy) as [(_ & Hu & _) _]. by rewrite (Hall y Hy) in Hu.
Qed.

(** ** Mounting a volume *)

(** Only the mounted backend is registered. *)
Definition own_maps mnt : Prop :=
  length (backend_map mnt) = 8%nat ∧ length (backend_ctx_map mnt) = 8%nat ∧
  ∀ i, map_ops mnt i = 0 ∨ (map_ops mnt i, map_ctx mnt i) = (mnt_ops mnt, mnt_ctx mnt).

Lemma register_own mnt t r : own_maps mnt → own_maps (odfs_mount_register_backend mnt t (mnt_ops mnt) (mnt_ctx mnt) r).
Proof.
  intros (Hl1 & Hl2 & Hm). unfold odfs_mount_register_backend. destruct (_ || _) eqn:Ht; [done|]. b2p.
  unfold ODFS_BACKEND__COUNT in *.
  assert (Hset : ∀ v h, own_maps (set_maps (zset (backend_map mnt) t (mnt_ops mnt)) (zset (backend_ctx_map mnt) t (mnt_ctx mnt)) v h mnt)).
  { intros v h. split_and!; [simpl; by rewrite zlen_zset|simpl; by rewrite zlen_zset|]. intros i. unfold map_ops, map_ctx. simpl.
    destruct (decide (t = i)) as [<-|].
    - right. by rewrite !zget_zset_eq by (rewrite ?Hl1, ?Hl2; lia).
    - rewrite !zget_zset_ne by done. apply Hm. }
  destruct r; apply Hset.
Qed.
Lemma register_fields mnt t o c r : let mnt' := odfs_mount_register_backend mnt t o c r in
  mnt_ops mnt' = mnt_ops mnt ∧ mnt_ctx mnt' = mnt_ctx mnt.
Proof. unfold odfs_mount_register_backend. destruct (_ || _); [done|]. by destruct r. Qed.

Lemma finish_ok mnt w : own_maps mnt →
  after (mount_finish be mnt w) (λ '(mnt', w'), own_maps mnt' ∧ mnt_ops mnt' = mnt_ops mnt ∧ mnt_ctx mnt' = mnt_ctx mnt ∧
    live_w w' ≡ₚ live_w w).
Proof.
  intros Hown. unfold mount_finish. cbv zeta.
  set (mnt1 := odfs_mount_register_backend mnt _ _ _ (Some _)).
  assert (H1 : own_maps mnt1 ∧ mnt_ops mnt1 = mnt_ops mnt ∧ mnt_ctx mnt1 = mnt_ctx mnt).
  { split; [by apply register_own|apply register_fields]. }
  set (mnt2 := if negb _ then _ else mnt1).
  assert (H2 : own_maps mnt2 ∧ mnt_ops mnt2 = mnt_ops mnt ∧ mnt_ctx mnt2 = mnt_ctx mnt).
  { unfold mnt2. destruct H1 as (Ho & He & Hc). destruct (negb _); [|done].
    split; [by apply register_own|]. split; [rewrite <- He|rewrite <- Hc]; apply register_fields. }
  clearbody mnt2. clear mnt1 H1. destruct H2 as (Ho & He & Hc).
  eapply (after_bind _ _ (λ '(mnt', w'), own_maps mnt' ∧ mnt_ops mnt' = mnt_ops mnt ∧ mnt_ctx mnt' = mnt_ctx mnt ∧
    live_w w' ≡ₚ live_w w)).
  - destruct (be_get_volume_name (be (mnt_ops mnt2))) as [f|] eqn:Hf; [|by apply after_ret].
    eapply after_bind; [by apply (lc_volume_name (mnt_ops mnt2))|]. intros [[e v] w'] Hw'. by apply after_ret.
  - intros [mnt3 w3] (Ho3 & He3 & Hc3 & Hl3).
    destruct (be_get_volume_size (be (mnt_ops mnt3))) as [f|] eqn:Hf; [|by apply after_ret].
    eapply after_bind; [apply after_any|]. intros n _. by apply after_ret.
Qed.

Lemma registered_own mnt x : own_maps mnt → mnt_ops mnt ∈ backend_table →
  x ∈ [(mnt_ops mnt, mnt_ctx mnt)] ↔ registered mnt x.
Proof.
  intros (_ & _ & Hm) Ht. rewrite list_elem_of_singleton. split.
  - intros ->. split_and!; [|by apply lc_has_unmount|by left]. simpl. intros Hz. rewrite Hz in Ht.
    unfold backend_table in Ht. set_solver.
  - intros (Hx & _ & [->|(i & _ & ->)]); [done|]. simpl in Hx. by destruct (Hm i).
Qed.

Lemma session_start_heap fuel ts ss mnt w r w' :
  mount_session_start mops fuel ts ss mnt w = Ret (r, w') → w_heap w' = w_heap w.
Proof.
  unfold mount_session_start. destruct (_ <=? _).
  - destruct (odfs_media_read_toc _ _ _) as [[err toc] m]. destruct (_ && _).
    + intros (s & _ & Hr)%bind_Ret. by injection Hr as _ <-.
    + by intros [= _ <-].
  - intros ([[? ?] ?] & _ & Hr)%bind_Ret. by injection Hr as _ <-.
Qed.
Lemma candidates_heap ts mnt w p r w' :
  mount_build_session_candidates mops ts mnt w p = Ret (r, w') → w_heap w' = w_heap w.
Proof.
  unfold mount_build_session_candidates. destruct (_ <=? _); [by intros [= _ <-]|].
  destruct (odfs_media_read_toc _ _ _) as [[err toc] m]. intros (s & _ & Hr)%bind_Ret. by injection Hr as _ <-.
Qed.

Lemma mount_ok malloc fuel ts ss m heap o err mnt w :
  odfs_mount mops be malloc fuel ts ss m heap o = Ret (err, mnt, w) →
  if err_ok err then own_maps mnt ∧ mnt_ops mnt ∈ backend_table ∧ live_w w ≡ₚ (mnt_ops mnt, mnt_ctx mnt) :: live heap
  else live_w w ≡ₚ live heap.
Proof.
  unfold odfs_mount. cbv zeta. destruct (odfs_cache_init mops malloc m _) as [err0 c].
  destruct (err_ok err0) eqn:He0; cbn [negb]; [|intros [= <- <- <-]; by rewrite He0].
  set (mnt0 := set_meta _ _).
  intros ([start w1] & H1 & Hr)%bind_Ret. apply session_start_heap in H1.
  apply bind_Ret in Hr as ([starts w2] & H2 & Hr). apply candidates_heap in H2.
  apply bind_Ret in Hr as ([[err3 mnt3] w3] & H3 & Hr).
  destruct (try_sessions_ok starts mnt0 w2 ODFS_ERR_BAD_FORMAT ltac:(done) _ H3) as [[Hm3 Hc3] Hok].
  rewrite H2, H1 in Hok. simpl in Hok.
  destruct (err_ok err3) eqn:He3; cbn [negb] in Hr.
  - apply bind_Ret in Hr as ([mnt4 w4] & H4 & Hr). injection Hr as <- <- <-. change (err_ok ODFS_OK) with true.
    destruct Hok as (Ht & Hctx & Hl).
    destruct (finish_ok mnt3 w3) with (a := (mnt4, w4)) as (Hown & Ho & Hc & Hl4); [|done|].
    { unfold own_maps, map_ops, map_ctx. rewrite Hm3, Hc3. split_and!; [done|done|]. intros i. left.
      destruct (zget (backend_map mnt0) i) as [z|] eqn:Hi; [|done]. unfold zget in Hi. destruct (0 <=? i); [|done].
      change (backend_map mnt0) with (replicate 8 0) in Hi. apply lookup_replicate in Hi as [-> _]. done. }
    rewrite Ho, Hc. split_and!; [done|done|]. by rewrite Hl4.
  - injection Hr as <- <- <-. done.
Qed.
End lifecycle.

(** * What mounting keeps and what it establishes

    An invariant of the world that every backend keeps holds throughout a mount, and
    what the chosen backend's mount says of its context and root ([P]) holds of the
    mounted volume. *)

Class Keeps {M H} (be : Z → odfs_backend_ops (world M H)) (I : world M H → Prop)
    (P : Z → Z → odfs_node → world M H → Prop) : Prop := {
  kp_probe : ∀ p w s, I w → after (probe (be p) w s) (λ '(_, w'), I w');
  kp_mount : ∀ p w s r c, I w → after (be_mount (be p) w s r c) (λ '(err, r', c', w'),
    I w' ∧ (err_ok err = true → P p c' r' w'));
  kp_unmount : ∀ p w c f, be_unmount (be p) = Some f → I w → after (f w c) I;
  kp_volume_name : ∀ p w c r n f, be_get_volume_name (be p) = Some f → P p c r w →
    after (f w c n) (λ '(_, _, w'), P p c r w');
  kp_medium : ∀ m w, I w → I (with_medium m w) }.

(** The virtual roots are the volume's root. *)
Definition own_roots (mnt : odfs_mount_t) : Prop :=
  length (virtual_root_map mnt) = 8%nat ∧ length (has_virtual_root mnt) = 8%nat ∧
  ∀ i r, zget (has_virtual_root mnt) i = Some true → zget (virtual_root_map mnt) i = Some r → r = mnt_root mnt.

Lemma register_roots mnt t o c r : own_roots mnt → (∀ x, r = Some x → x = mnt_root mnt) →
  let mnt' := odfs_mount_register_backend mnt t o c r in own_roots mnt' ∧ mnt_root mnt' = mnt_root mnt.
Proof.
  intros (H1 & H2 & Hr) Hx. unfold odfs_mount_register_backend. destruct (_ || _) eqn:Ht; [done|]. b2p.
  unfold ODFS_BACKEND__COUNT in *.
  assert (Hh : ∀ b i, zget (zset (has_virtual_root mnt) t b) i = Some true → i = t ∧ b = true ∨ i ≠ t ∧ zget (has_virtual_root mnt) i = Some true).
  { intros b i. destruct (decide (t = i)) as [<-|]; [rewrite zget_zset_eq by lia; intros [= ->]; by left|].
    rewrite zget_zset_ne by done. by right. }
  destruct r as [x|]; simpl; (split; [|done]); (split; [simpl; rewrite ?zlen_zset; lia|split; [simpl; rewrite !zlen_zset; lia|]]).
  - intros i y. simpl. intros Hi Hy. destruct (decide (t = i)) as [<-|Hne].
    + rewrite zget_zset_eq in Hy by lia. injection Hy as <-. by apply Hx.
    + rewrite zget_zset_ne in Hy by done. rewrite !zget_zset_ne in Hi by done. by apply (Hr i).
  - intros i y. simpl. intros Hi Hy. apply Hh in Hi as [[_ ?]|[_ Hi]]; [done|]. by apply (Hr i).
Qed.

Section keeps.
Context {M H : Type} (mops : odfs_media_ops M) (be : Z → odfs_backend_ops (world M H)).
Context (I : world M H → Prop) (P : Z → Z → odfs_node → world M H → Prop).
Context `{HK : !Keeps be I P}.
Implicit Types (mnt : odfs_mount_t) (w : world M H).

Lemma probe_loop_keeps force s table : ∀ w c, I w → after (probe_loop be force s table w c) (λ '(_, w'), I w').
Proof.
  induction table as [|p table IH]; intros w c Hw; cbn [probe_loop]; [by apply after_ret|].
  case_test; [by apply IH|]. eapply after_bind; [by apply kp_probe|]. intros [err w'] Hw'.
  case_test; [|by apply IH]. destruct (cand_chosen _); [by apply after_ret|by apply IH].
Qed.

(** The backend chosen so far, once it is mounted. *)
Definition attempt_keeps (a : @attempt M H) : Prop :=
  I (at_w a) ∧ ∀ p, at_chosen a = Some p → at_ctx a ≠ 0 → P p (at_ctx a) (at_root a) (at_w a).
Lemma try_candidate_keeps s cand cond a : attempt_keeps a → after (try_candidate be s cand cond a) attempt_keeps.
Proof.
  intros Ha. unfold try_candidate. destruct (at_chosen a) eqn:Hq; [by apply after_ret|].
  destruct cand as [p|]; [|by apply after_ret]. destruct cond; [|by apply after_ret].
  eapply after_bind; [apply kp_mount, Ha|]. intros [[[err root] ctx] w'] [Hw' Hp]. apply after_ret.
  split; [done|]. simpl. intros q Hc _. destruct (err_ok err); [|done]. injection Hc as <-. by apply Hp.
Qed.
Lemma try_iso_keeps s mo c a : attempt_keeps a → after (try_iso be s mo c a) attempt_keeps.
Proof.
  intros Ha. unfold try_iso. destruct (at_chosen a) eqn:Hq; [by apply after_ret|].
  destruct (iso_candidate c) as [p|]; [|by apply after_ret].
  eapply after_bind; [apply kp_mount, Ha|]. intros [[[err root] ctx] w'] [Hw' Hp].
  destruct (err_ok err); [|by apply after_ret]. case_test.
  - apply after_ret. split; [done|]. simpl. intros q [= <-] _. by apply Hp.
  - destruct (be_unmount (be p)) as [f|] eqn:Hf; [|done].
    eapply after_bind; [by eapply kp_unmount|]. intros w'' Hw''. by apply after_ret.
Qed.
(** Only the active backend differs. *)
Definition activated mnt mnt' : Prop := ∃ a o c r, mnt' = set_active a o c r mnt.
Lemma try_session_keeps mnt w s : I w →
  after (mount_try_session_start be mnt w s) (λ '(err, mnt', w'), I w' ∧ activated mnt mnt' ∧
    (err = ODFS_OK → P (mnt_ops mnt') (mnt_ctx mnt') (mnt_root mnt') w')).
Proof.
  intros Hw. unfold mount_try_session_start. cbv zeta.
  eapply after_bind; [by apply probe_loop_keeps|]. intros [c w1] Hw1.
  eapply (after_bind _ _ attempt_keeps); [apply try_candidate_keeps; by split|]. intros a1 Ha1.
  eapply after_bind; [by apply try_candidate_keeps|]. intros a2 Ha2.
  eapply after_bind; [by apply try_iso_keeps|]. intros a3 Ha3.
  do 4 (eapply after_bind; [by apply try_candidate_keeps|]; clear - HK Hw; intros a Ha; rename a into b, Ha into Hb).
  destruct Hb as [Hb Hp]. destruct (at_chosen b) as [p|]; [|apply after_ret; split_and!; [done|by eexists _, _, _, _|done]].
  eapply (after_bind _ _ (λ '(err, r, ctx, w'), I w' ∧ (err_ok err = true → P p ctx r w'))).
  - destruct (Z.eqb_spec (at_ctx b) 0) as [Hz|Hz]; [by apply kp_mount|]. apply after_ret. split; [done|]. intros _. by apply Hp.
  - intros [[[err r] ctx] w'] [Hw' Hr].
    case_test; apply after_ret; (split_and!; [done|by eexists _, _, _, _|]); [intros _; by apply Hr|by intros ->].
Qed.
Lemma try_sessions_keeps starts : ∀ mnt w err, I w → err ≠ ODFS_OK →
  after (try_sessions be mnt w starts err) (λ '(err, mnt', w'), I w' ∧ activated mnt mnt' ∧
    (err = ODFS_OK → P (mnt_ops mnt') (mnt_ctx mnt') (mnt_root mnt') w')).
Proof.
  induction starts as [|s starts IH]; intros mnt w err Hw He; cbn [try_sessions].
  { apply after_ret. split_and!; [done| |done]. exists (active_backend mnt), (mnt_ops mnt), (mnt_ctx mnt), (mnt_root mnt). by destruct mnt. }
  eapply after_bind; [by apply try_session_keeps|]. intros [[e mnt1] w1] (Hw1 & (a & o & c & r & ->) & Hp).
  case_test; [apply err_ok_true in E; subst; apply after_ret; split_and!; [done|by eexists _, _, _, _|done]|].
  eapply after_weaken; [apply IH; [done|by apply err_ok_false]|].
  intros [[e2 mnt2] w2] (? & (a2 & o2 & c2 & r2 & ->) & ?). split_and!; [done|by eexists _, _, _, _|done].
Qed.

Lemma finish_keeps mnt w : own_maps mnt → own_roots mnt → P (mnt_ops mnt) (mnt_ctx mnt) (mnt_root mnt) w →
  after (mount_finish be mnt w) (λ '(mnt', w'), own_maps mnt' ∧ own_roots mnt' ∧ meta mnt' = meta mnt ∧
    P (mnt_ops mnt') (mnt_ctx mnt') (mnt_root mnt') w').
Proof.
  intros Hown Hroots HP. unfold mount_finish. cbv zeta.
  assert (Hreg : ∀ mnt t r, own_maps mnt → own_roots mnt → P (mnt_ops mnt) (mnt_ctx mnt) (mnt_root mnt) w →
    (∀ x, r = Some x → x = mnt_root mnt) →
    let mnt' := odfs_mount_register_backend mnt t (mnt_ops mnt) (mnt_ctx mnt) r in
    own_maps mnt' ∧ own_roots mnt' ∧ meta mnt' = meta mnt ∧ P (mnt_ops mnt') (mnt_ctx mnt') (mnt_root mnt') w).
  { intros m t r H1 H2 H3 Hx m'. destruct (register_roots m t (mnt_ops m) (mnt_ctx m) r H2 Hx) as [H4 H5].
    destruct (register_fields m t (mnt_ops m) (mnt_ctx m) r) as [H6 H7]. fold m' in H4, H5, H6, H7.
    split_and!; [by apply register_own|done| |congruence].
    subst m'. unfold odfs_mount_register_backend. destruct (_ || _); [done|]. by destruct r. }
  match goal with |- context [odfs_mount_register_backend mnt ?t _ _ (Some ?r)] =>
    destruct (Hreg mnt t (Some r) Hown Hroots HP ltac:(by intros ? [= <-])) as (H1 & H2 & H3 & H4) end.
  set (mnt1 := odfs_mount_register_backend mnt _ _ _ (Some _)) in *. clearbody mnt1.
  match goal with |- context [if ?b then ?x else mnt1] => set (mnt2 := if b then x else mnt1) end.
  assert (H5 : own_maps mnt2 ∧ own_roots mnt2 ∧ meta mnt2 = meta mnt ∧ P (mnt_ops mnt2) (mnt_ctx mnt2) (mnt_root mnt2) w).
  { subst mnt2. case_match; [|done]. rewrite <- H3. by apply (Hreg mnt1 _ None). }
  clearbody mnt2. clear - H5 HK. destruct H5 as (H1 & H2 & H3 & H4).
  eapply (after_bind _ _ (λ '(mnt', w'), own_maps mnt' ∧ own_roots mnt' ∧ meta mnt' = meta mnt ∧
    P (mnt_ops mnt') (mnt_ctx mnt') (mnt_root mnt') w')).
  - destruct (be_get_volume_name _) as [f|] eqn:Hf; [|by apply after_ret].
    eapply after_bind; [by eapply kp_volume_name|]. intros [[e v] w'] Hw'. by apply after_ret.
  - intros [mnt3 w3] (? & ? & ? & ?). destruct (be_get_volume_size _) as [f|]; [|by apply after_ret].
    eapply after_bind; [apply after_any|]. intros n _. by apply after_ret.
Qed.

Lemma session_start_keeps fuel ts ss mnt w : I w → after (mount_session_start mops fuel ts ss mnt w) (λ '(_, w'), I w').
Proof.
  intros Hw. unfold mount_session_start. case_test.
  - destruct (odfs_media_read_toc _ _ _) as [[err toc] m]. case_test; [|by apply after_ret, kp_medium].
    eapply after_bind; [apply after_any|]. intros s _. by apply after_ret, kp_medium.
  - eapply after_bind; [apply after_any|]. intros [[? ?] ?] _. by apply after_ret, kp_medium.
Qed.
Lemma candidates_keeps ts mnt w p : I w → after (mount_build_session_candidates mops ts mnt w p) (λ '(_, w'), I w').
Proof.
  intros Hw. unfold mount_build_session_candidates. case_test; [by apply after_ret|].
  destruct (odfs_media_read_toc _ _ _) as [[err toc] m]. eapply after_bind; [apply after_any|]. intros s _.
  by apply after_ret, kp_medium.
Qed.

(** A mounted volume has one backend, registered under the types it serves, and what
    its mount said holds. *)
Lemma mount_establishes malloc fuel ts ss m heap o mnt w :
  0 ≤ cache_blocks (default odfs_mount_opts_default o) →
  (∀ n c, 0 ≤ n → odfs_cache_init mops malloc m n = (ODFS_OK, c) → I (mk_world c heap)) →
  odfs_mount mops be malloc fuel ts ss m heap o = Ret (ODFS_OK, mnt, w) →
  own_maps mnt ∧ own_roots mnt ∧ (∃ n, meta mnt = odfs_meta_cache_init (u32 n)) ∧ P (mnt_ops mnt) (mnt_ctx mnt) (mnt_root mnt) w.
Proof.
  intros Hcap Hinit. unfold odfs_mount. cbv zeta. change (opts (set_opts _ mount_zero)) with (default odfs_mount_opts_default o).
  destruct (odfs_cache_init mops malloc m _) as [err0 c] eqn:Hc.
  case_test; [intros [= -> _ _]; discriminate E|]. apply negb_false_iff, err_ok_true in E as ->.
  apply Hinit in Hc; [|case_test; unfold ODFS_BLOCK_CACHE_SIZE; lia].
  set (mnt0 := set_meta _ _). intros ([start w1] & H1 & Hr)%bind_Ret. apply session_start_keeps in H1; [|done].
  apply bind_Ret in Hr as ([starts w2] & H2 & Hr). apply candidates_keeps in H2; [|done].
  apply bind_Ret in Hr as ([[err3 mnt3] w3] & H3 & Hr). apply try_sessions_keeps in H3; [|done|done].
  destruct H3 as (Hw3 & (a & op & ct & rt & ->) & Hp). revert Hr. case_test; [done|]. intros Hr.
  apply negb_false_iff, err_ok_true in E as ->. specialize (Hp eq_refl).
  apply bind_Ret in Hr as ([mnt4 w4] & H4 & [= <- <-]). apply finish_keeps in H4; [| | |done].
  - destruct H4 as (? & ? & -> & ?). split_and!; try done. by eexists.
  - split_and!; [done|done|]. intros i. left. change (map_ops (set_active a op ct rt mnt0) i) with (default 0 (zget (replicate 8 0) i)).
    destruct (zget (replicate 8 0) i) as [z|] eqn:Hi; [|done]. unfold zget in Hi.
    destruct (0 <=? i); [|done]. by apply lookup_replicate in Hi as [-> _].
  - split_and!; [done|done|]. intros i r Hi. change (has_virtual_root (set_active a op ct rt mnt0)) with (replicate 8 false) in Hi. unfold zget in Hi. destruct (0 <=? i); [|done].
    by apply lookup_replicate in Hi as [? _].
Qed.
End keeps.
