(* ===== verification/MountSpec.v ===== *)
(** * What mounting promises

    Which backend a volume is mounted with, that backends' contexts are neither
    leaked nor freed twice, which sessions are tried, and that lookup and
    enumeration through the caches are those of the backend's listings. *)
From S2P Require Import Prelude Types Strings Media BlockCache Backend MetaCache MetaCacheProofs MetaCacheSpec.
From S2P Require Import Session Mount MountProofs.
Open Scope Z_scope.

(** ** Precedence *)

(** How the backends of the table answer for a session: whether they recognise it,
    whether they can mount it, and whether the ISO 9660 mount finds Rock Ridge. *)
Record Answers {M H} (be : Z → odfs_backend_ops (world M H)) (s : Z) (probes mounts : Z → bool) (rr : bool) : Prop := {
  an_types : map (λ p, backend_type (be p)) backend_table =
    [ODFS_BACKEND_ISO9660; ODFS_BACKEND_JOLIET; ODFS_BACKEND_UDF; ODFS_BACKEND_HFS; ODFS_BACKEND_HFSPLUS];
  an_probe : ∀ p w, yields (probe (be p) w s) (λ '(err, _), err_ok err = probes p);
  an_mount : ∀ p w r c, yields (be_mount (be p) w s r c) (λ '(err, r', c', _), err_ok err = mounts p ∧
    if mounts p then c' ≠ 0 ∧ (p = 1 → bool_decide (backend r' = ODFS_BACKEND_ROCK_RIDGE) = rr) else c' = c);
  an_unmount : ∀ w c, ∃ f w', be_unmount (be 1) = Some f ∧ f w c = Ret w' }.

(** The backends that are allowed and recognise the session. *)
Definition recognised (o : odfs_mount_opts) (probes : Z → bool) (p : Z) : bool :=
  probes p && ((force_backend o =? 0) ||
    (force_backend o =? match p with 1 => 1 | 2 => 3 | 3 => 4 | 4 => 5 | _ => 6 end)).
Definition only_if (b : bool) (p : Z) : list Z := if b then [p] else [].
(** The order in which mounting is tried: ISO 9660 is 1, Joliet 2, UDF 3, HFS 4 and
    HFS+ 5, which excludes all others. *)
Definition precedence (o : odfs_mount_opts) (probes : Z → bool) (rr : bool) : list Z :=
  let r := recognised o probes in
  if r 5 then [5]
  else only_if (r 3 && prefer_udf o) 3 ++ only_if (r 4 && prefer_hfs o) 4 ++
       only_if (r 1 && (rr || disable_joliet o || negb (r 2))) 1 ++ only_if (r 2) 2 ++ only_if (r 3) 3 ++
       only_if (r 4) 4 ++ only_if (r 1) 1.

Section precedence.
Context {M H : Type} (be : Z → odfs_backend_ops (world M H)) (s : Z) (probes mounts : Z → bool) (rr : bool).
Context (Han : Answers be s probes mounts rr).
Implicit Types (w : world M H).

Definition cand_if (b : bool) (p : Z) : option Z := if b then Some p else None.
Lemma types_of : backend_type (be 1) = ODFS_BACKEND_ISO9660 ∧ backend_type (be 2) = ODFS_BACKEND_JOLIET ∧
  backend_type (be 3) = ODFS_BACKEND_UDF ∧ backend_type (be 4) = ODFS_BACKEND_HFS ∧ backend_type (be 5) = ODFS_BACKEND_HFSPLUS.
Proof. pose proof (an_types _ _ _ _ _ Han) as Ht. simpl in Ht. by injection Ht as -> -> -> -> ->. Qed.

(** One backend is probed. *)
Definition add_if (b : bool) (c : candidates) (p : Z) : candidates := if b then add_candidate be c p else c.
Lemma probe_step force p table w c (P : candidates * world M H → Prop) :
  let r := probes p && ((force =? 0) || (force =? backend_code (backend_type (be p)))) in
  let c' := add_if r c p in
  (∀ w', if r && bool_decide (cand_chosen c' ≠ None) then P (c', w') else yields (probe_loop be force s table w' c') P) →
  yields (probe_loop be force s (p :: table) w c) P.
Proof.
  intros r c' HP. cbn [probe_loop].
  destruct (negb (force =? 0) && negb (force =? backend_code (backend_type (be p)))) eqn:Hforce.
  { specialize (HP w). assert (r = false) as Hr.
    { unfold r. apply andb_false_iff. right. apply andb_true_iff in Hforce as [H1 H2]. b2p. apply orb_false_iff. split; by apply Z.eqb_neq. }
    unfold c', add_if in HP. by rewrite Hr in HP. }
  assert (r = probes p) as Hr.
  { unfold r. rewrite <- negb_orb in Hforce. apply negb_false_iff in Hforce. by rewrite Hforce, andb_true_r. }
  destruct (an_probe _ _ _ _ _ Han p w) as ([err w'] & -> & Herr). cbn [mbind outcome_bind]. rewrite Herr, <- Hr.
  specialize (HP w'). unfold c', add_if in *. destruct r; cbn [andb] in HP; [|exact HP].
  destruct (cand_chosen (add_candidate be c p)) as [q|] eqn:Hq.
  - rewrite bool_decide_true in HP by done. by apply yields_ret.
  - rewrite bool_decide_false in HP by (intros Hne; by apply Hne). exact HP.
Qed.
Lemma add_if_types b i j u h ch :
  add_if b (mk_cand i j u h ch) 1 = mk_cand (if b then Some 1 else i) j u h ch ∧
  add_if b (mk_cand i j u h ch) 2 = mk_cand i (if b then Some 2 else j) u h ch ∧
  add_if b (mk_cand i j u h ch) 3 = mk_cand i j (if b then Some 3 else u) h ch ∧
  add_if b (mk_cand i j u h ch) 4 = mk_cand i j u (if b then Some 4 else h) ch ∧
  add_if b (mk_cand i j u h ch) 5 = mk_cand i j u h (if b then Some 5 else ch).
Proof.
  destruct types_of as (T1 & T2 & T3 & T4 & T5). unfold add_if, add_candidate. rewrite T1, T2, T3, T4, T5. by destruct b.
Qed.
Lemma probe_table o w :
  let r := recognised o probes in
  yields (probe_loop be (force_backend o) s backend_table w (mk_cand None None None None None)) (λ '(c, _),
    c = mk_cand (cand_if (r 1) 1) (cand_if (r 2) 2) (cand_if (r 3) 3) (cand_if (r 4) 4) (cand_if (r 5) 5)).
Proof.
  intros r. destruct types_of as (T1 & T2 & T3 & T4 & T5). unfold backend_table.
  assert (Hnone : ∀ b i j u h, b && bool_decide (cand_chosen (mk_cand i j u h None) ≠ None) = false)
    by (intros; rewrite bool_decide_false by (intros Hne; by apply Hne); apply andb_false_r).
  apply probe_step. rewrite T1. change (probes 1 && ((force_backend o =? 0) || (force_backend o =? backend_code ODFS_BACKEND_ISO9660))) with (r 1). rewrite (proj1 (add_if_types _ _ _ _ _ _)), Hnone. intros w1.
  apply probe_step. rewrite T2. change (probes 2 && ((force_backend o =? 0) || (force_backend o =? backend_code ODFS_BACKEND_JOLIET))) with (r 2).
  rewrite (proj1 (proj2 (add_if_types _ _ _ _ _ _))), Hnone. intros w2.
  apply probe_step. rewrite T3. change (probes 3 && ((force_backend o =? 0) || (force_backend o =? backend_code ODFS_BACKEND_UDF))) with (r 3).
  rewrite (proj1 (proj2 (proj2 (add_if_types _ _ _ _ _ _)))), Hnone. intros w3.
  apply probe_step. rewrite T4. change (probes 4 && ((force_backend o =? 0) || (force_backend o =? backend_code ODFS_BACKEND_HFS))) with (r 4).
  rewrite (proj1 (proj2 (proj2 (proj2 (add_if_types _ _ _ _ _ _))))), Hnone. intros w4.
  apply probe_step. rewrite T5. change (probes 5 && ((force_backend o =? 0) || (force_backend o =? backend_code ODFS_BACKEND_HFSPLUS))) with (r 5).
  rewrite (proj2 (proj2 (proj2 (proj2 (add_if_types _ _ _ _ _ _))))). intros w5.
  destruct (r 5); cbn [andb]; [by rewrite bool_decide_true|]. by apply yields_ret.
Qed.

(** After the attempts [tried], in this order. *)
Definition tried (l : list Z) (a : @attempt M H) : Prop :=
  at_chosen a = List.find mounts l ∧ (at_ctx a = 0 ↔ at_chosen a = None).
Lemma try_candidate_tried l b cond p a : tried l a →
  yields (try_candidate be s (cand_if b p) cond a) (tried (l ++ only_if (b && cond) p)).
Proof.
  intros [Hc Hctx]. unfold try_candidate, tried. rewrite find_app, <- Hc. destruct (at_chosen a) as [q|] eqn:Hq.
  { apply yields_ret. by rewrite Hq. }
  destruct b, cond; cbn [cand_if only_if andb]; try (apply yields_ret; by rewrite Hq).
  destruct (an_mount _ _ _ _ _ Han p (at_w a) (at_root a) (at_ctx a)) as ([[[err r] c] w'] & -> & Herr & Hm).
  apply yields_ret. simpl. rewrite Herr. destruct (mounts p); simpl; [|by rewrite Hm].
  destruct Hm as [Hm _]. split; [done|]. by split.
Qed.
Lemma try_iso_tried l b mo c a : iso_candidate c = cand_if b 1 → tried l a →
  yields (try_iso be s mo c a)
    (tried (l ++ only_if (b && (rr || disable_joliet mo || bool_decide (joliet_candidate c = None))) 1)).
Proof.
  intros Hiso [Hc Hctx]. unfold try_iso, tried. rewrite find_app, <- Hc, Hiso. destruct (at_chosen a) as [q|] eqn:Hq.
  { apply yields_ret. by rewrite Hq. }
  destruct b; cbn [cand_if andb]; [|apply yields_ret; by rewrite Hq].
  destruct (an_mount _ _ _ _ _ Han 1 (at_w a) (at_root a) (at_ctx a)) as ([[[err r] ctx] w'] & -> & Herr & Hm).
  cbn [mbind outcome_bind]. rewrite Herr. destruct (mounts 1) eqn:Hm1.
  - destruct Hm as [Hne Hrr]. rewrite (Hrr eq_refl). destruct (_ || _); cbn [only_if List.find].
    + apply yields_ret. simpl. rewrite Hm1. by split.
    + destruct (an_unmount _ _ _ _ _ Han w' ctx) as (f & w'' & -> & ->). by apply yields_ret.
  - apply yields_ret. simpl. rewrite Hm. destruct (_ || _); simpl; [rewrite Hm1|]; by rewrite (proj2 Hctx).
Qed.

Lemma try_session_precedence mnt w :
  yields (mount_try_session_start be mnt w s) (λ '(err, mnt', _),
    match List.find mounts (precedence (opts mnt) probes rr) with
    | Some p => err = ODFS_OK ∧ mnt_ops mnt' = p
    | None => err ≠ ODFS_OK ∧ mnt_ops mnt' = 0
    end).
Proof.
  unfold mount_try_session_start. cbv zeta. set (mnt1 := set_active _ _ _ _ _). change (mnt_ctx mnt1) with 0.
  set (r := recognised (opts mnt) probes). change (opts mnt1) with (opts mnt).
  eapply yields_bind; [apply (probe_table (opts mnt))|]. intros [c w1] ->. fold r. cbn [udf_candidate hfs_candidate iso_candidate joliet_candidate cand_chosen].
  unfold precedence. fold r. destruct (r 5) eqn:H5.
  - (* HFS+: nothing else is tried *)
    set (a := mk_att _ _ _ _).
    assert (Hskip : ∀ s c b, try_candidate be s c b a = Ret a) by done.
    assert (Hiso : ∀ s mo c, try_iso be s mo c a = Ret a) by done.
    rewrite !Hskip. cbn [mbind outcome_bind]. rewrite Hskip. cbn [mbind outcome_bind]. rewrite Hiso. cbn [mbind outcome_bind].
    do 4 (rewrite Hskip; cbn [mbind outcome_bind]). cbn [at_chosen a cand_if at_ctx]. simpl.
    destruct (an_mount _ _ _ _ _ Han 5 w1 node_zero 0) as ([[[err rt] ctx] w'] & Hmount & Herr & Hm).
    cbn [mnt_root mnt1 set_active]. rewrite Hmount. cbn [mbind outcome_bind]. rewrite Herr. destruct (mounts 5).
    + by apply yields_ret.
    + apply yields_ret. split; [|done]. by apply err_ok_false.
  - set (a := mk_att _ _ _ _).
    eapply yields_bind; [by apply (try_candidate_tried [])|]. intros a1 Ha1.
    eapply yields_bind; [by apply try_candidate_tried|]. intros a2 Ha2.
    eapply yields_bind; [eapply (try_iso_tried _ (r 1)); [reflexivity|exact Ha2]|]. intros a3 Ha3.
    eapply yields_bind; [by apply try_candidate_tried|]. intros a4 Ha4.
    eapply yields_bind; [by apply try_candidate_tried|]. intros a5 Ha5.
    eapply yields_bind; [by apply try_candidate_tried|]. intros a6 Ha6.
    cbn [joliet_candidate app] in Ha6. rewrite !andb_true_r in Ha6.
    match type of Ha6 with tried ?l _ => set (l6 := l) in Ha6; assert (Hp : l6 ++ only_if (r 1) 1 = precedence (opts mnt) probes rr) end.
    { unfold l6, precedence. fold r. rewrite H5, <- !app_assoc. do 4 f_equal. by destruct (r 2). }
    unfold precedence in Hp. fold r in Hp. rewrite H5 in Hp. rewrite <- Hp. clear Hp. destruct Ha6 as [Hc6 Hx6].
    eapply (yields_bind _ _ (tried (l6 ++ only_if (r 1) 1))).
    + eapply yields_weaken; [by apply try_candidate_tried|]. intros a7 [Hc7 Hx7]. split; [|done]. rewrite Hc7, !find_app.
      destruct (List.find mounts l6) as [q|] eqn:Hq; [done|]. rewrite (proj2 Hx6) by done. by rewrite andb_true_r.
    + intros a7 [Hc7 Hx7]. rewrite <- Hc7. destruct (at_chosen a7) as [p|]; [|by apply yields_ret].
      destruct (Z.eqb_spec (at_ctx a7) 0) as [Hz|]; [by apply Hx7 in Hz|]. by apply yields_ret.
Qed.
End precedence.

(** ** Requests *)

(** The backends that serve a volume's nodes: they list directories ([Lists]) and look
    names up in those listings. *)
Record Serves {M H} (be : Z → odfs_backend_ops (world M H)) (good : world M H → Prop) (listable : odfs_node → Prop)
    (listing : Z → Z → odfs_backend_type → list odfs_node) (mnt : odfs_mount_t) : Prop := {
  sv_lists : ∀ t p ctx, mount_backend_for_type be mnt t = Some (p, ctx) → Lists (be p) ctx good listable listing;
  sv_lookup : ∀ t p ctx lookup w dir nm, mount_backend_for_type be mnt t = Some (p, ctx) →
    be_lookup (be p) = Some lookup → good w → listable dir → is_name nm →
    yields (lookup w ctx dir nm) (λ '(err, out, w'), good w' ∧
      face <$> out = listed (listing (lba (extent dir)) (length_ (extent dir)) (backend dir)) nm ∧
      err = match out with Some _ => ODFS_OK | None => ODFS_ERR_NOT_FOUND end) }.

(** The directories a path can come to are listable: the root, the virtual roots, and
    the directories in a listing; whether a node is listable is seen from its face. *)
Record Listable (listable : odfs_node → Prop) (listing : Z → Z → odfs_backend_type → list odfs_node)
    (mnt : odfs_mount_t) : Prop := {
  ls_root : kind (mnt_root mnt) = ODFS_NODE_DIR → listable (mnt_root mnt);
  ls_virtual : ∀ i r, zget (has_virtual_root mnt) i = Some true → zget (virtual_root_map mnt) i = Some r →
    kind r = ODFS_NODE_DIR → listable r;
  ls_entry : ∀ n m, listable n → m ∈ listing (lba (extent n)) (length_ (extent n)) (backend n) →
    kind m = ODFS_NODE_DIR → listable m;
  ls_face : ∀ n, listable (face n) → listable n }.

Section requests.
Context {M H : Type} (be : Z → odfs_backend_ops (world M H)) (malloc : nat → Z → bool).
Context (good : world M H → Prop) (listable : odfs_node → Prop) (listing : Z → Z → odfs_backend_type → list odfs_node).
Implicit Types (mnt : odfs_mount_t) (w : world M H).
Abbreviation listing_of k := (listing k.1.1 k.1.2 k.2).

(** Volumes that differ in their metadata cache only. *)
Definition same_volume mnt mnt' : Prop := ∃ mc, mnt' = set_meta mc mnt.
Lemma set_meta_meta mc mc' mnt : set_meta mc (set_meta mc' mnt) = set_meta mc mnt.
Proof. done. Qed.
Lemma serves_set_meta mc mnt : Serves be good listable listing mnt → Serves be good listable listing (set_meta mc mnt).
Proof. intros [H1 H2]. by split. Qed.

Lemma listable_set_meta mc mnt : Listable listable listing mnt → Listable listable listing (set_meta mc mnt).
Proof. intros [H1 H2 H3 H4]. by split. Qed.

Lemma mount_lookup_ok mnt w dir nm p ctx lookup :
  Serves be good listable listing mnt → mc_inv listing (meta mnt) → good w → listable dir → is_name nm →
  kind dir = ODFS_NODE_DIR → backend_with be be_lookup mnt (backend dir) = Some (be p, ctx, lookup) →
  mount_backend_for_type be mnt (backend dir) = Some (p, ctx) →
  ∃ err out mnt' w', odfs_lookup be malloc mnt w dir nm = Ret (err, out, mnt', w') ∧
    same_volume mnt mnt' ∧ mc_inv listing (meta mnt') ∧ good w' ∧
    face <$> out = listed (listing_of (node_key dir)) nm ∧
    err = match out with Some _ => ODFS_OK | None => ODFS_ERR_NOT_FOUND end.
Proof.
  intros Hsv Hinv Hw Hdir Hnm Hkind Hwith Hbe. unfold odfs_lookup. rewrite Hkind, bool_decide_true, Hwith by done.
  cbn [negb]. pose proof (sv_lists _ _ _ _ _ Hsv _ _ _ Hbe) as HL.
  destruct (lookup_ok malloc (be p) ctx good listable listing w (meta mnt) dir nm Hinv Hw Hdir Hnm)
    as (err & out & mc & w' & -> & Hinv' & _ & Hw' & Hres). cbn [mbind outcome_bind].
  destruct (bool_decide_reflect (err = ODFS_ERR_UNSUPPORTED)) as [->|Hne]; cbn [negb].
  - assert (be_lookup (be p) = Some lookup) as Hlk.
    { unfold backend_with in Hwith. rewrite Hbe in Hwith. destruct (be_lookup (be p)); [|done]. by injection Hwith as ->. }
    destruct (sv_lookup _ _ _ _ _ Hsv _ _ _ _ w' dir nm Hbe Hlk Hw' Hdir Hnm) as ([[err out'] w''] & -> & Hg & Hf & He).
    eexists err, out', _, w''. split; [reflexivity|]. split_and!; try done. by exists mc.
  - destruct Hres as [[? _]|[Hf He]]; [done|]. eexists err, out, _, w'. split; [reflexivity|].
    split_and!; try done. by exists mc.
Qed.

Lemma mount_readdir_ok {T} (cb : odfs_dir_iter_fn T) mnt w dir t p ctx readdir :
  Serves be good listable listing mnt → mc_inv listing (meta mnt) → good w → listable dir →
  (∀ n t, (cb n t).1 ≠ ODFS_ERR_UNSUPPORTED) → zlen (listing_of (node_key dir)) < 2 ^ 31 →
  kind dir = ODFS_NODE_DIR → backend_with be be_readdir mnt (backend dir) = Some (be p, ctx, readdir) →
  mount_backend_for_type be mnt (backend dir) = Some (p, ctx) →
  ∃ L err c mnt' w' t', odfs_readdir be malloc cb mnt w dir t None = Ret (err, c, mnt', w', t') ∧
    same_volume mnt mnt' ∧ mc_inv listing (meta mnt') ∧ good w' ∧
    map face L = listing_of (node_key dir) ∧ run cb L t = (err, t').
Proof.
  intros Hsv Hinv Hw Hdir Hcb Hmax Hkind Hwith Hbe. unfold odfs_readdir. rewrite Hkind, bool_decide_true, Hwith by done.
  cbn [negb]. pose proof (sv_lists _ _ _ _ _ Hsv _ _ _ Hbe) as HL.
  assert (Hrun : ∀ L t, (run cb L t).1 ≠ ODFS_ERR_UNSUPPORTED).
  { induction L as [|n L IH]; intros t0; simpl; [done|]. specialize (Hcb n t0). destruct (cb n t0) as [e t1].
    destruct (err_ok e); [apply IH|done]. }
  destruct (readdir_ok malloc (be p) ctx good listable listing cb w (meta mnt) dir t None Hinv Hw Hdir)
    as (err & c & mc & w' & t' & -> & Hinv' & _ & Hw' & Hres); [simpl; lia|done|]. cbn [mbind outcome_bind].
  destruct (bool_decide_reflect (err = ODFS_ERR_UNSUPPORTED)) as [->|Hne]; cbn [negb].
  - destruct Hres as [(_ & -> & -> & _)|(L & _ & Hr & _)].
    2: { exfalso. apply (Hrun (drop (Z.to_nat (untag (default 0 None))) L) t). by rewrite Hr. }
    destruct HL as (readdir' & Hrd & Hlist).
    assert (readdir' = readdir) as ->.
    { unfold backend_with in Hwith. rewrite Hbe, Hrd in Hwith. by injection Hwith as ->. }
    destruct (Hlist T w' dir cb t Hw' Hdir) as (L & r & w'' & -> & Hw'' & HLL & _).
    eexists L, _, _, _, w'', _. split; [reflexivity|]. split_and!; try done; first [by exists mc|by destruct (run cb L t)].
  - destruct Hres as [[? _]|(L & HLL & Hr & _)]; [done|]. eexists L, err, c, _, w', t'. split; [reflexivity|].
    split_and!; try done. by exists mc.
Qed.

(** *** Paths *)

(** The components of a path: the maximal runs without a separator. *)
Fixpoint components (p : list Z) (c : list Z) : list (list Z) :=
  match p with
  | [] => match c with [] => [] | _ => [c] end
  | x :: p => if x =? 47 then match c with [] => components p [] | _ => c :: components p [] end
              else components p (c ++ [x])
  end.
(** Walking components through virtual roots and listings. *)
Fixpoint walk mnt (n : odfs_node) (cs : list (list Z)) : odfs_err * option odfs_node :=
  match cs with
  | [] => (ODFS_OK, Some (face n))
  | c :: cs =>
      if ODFS_NAME_MAX <=? zlen c then (ODFS_ERR_NAME_TOO_LONG, None)
      else
        match mount_virtual_root_by_name mnt n c with
        | Some r => walk mnt r cs
        | None =>
            if negb (bool_decide (kind n = ODFS_NODE_DIR)) then (ODFS_ERR_NOT_DIR, None)
            else
              match backend_with be be_lookup mnt (backend n) with
              | None => (ODFS_ERR_UNSUPPORTED, None)
              | Some _ => match listed (listing_of (node_key n)) c with
                          | Some m => walk mnt m cs
                          | None => (ODFS_ERR_NOT_FOUND, None)
                          end
              end
        end
  end.

Lemma skip_slashes_components p : components (skip_slashes p) [] = components p [].
Proof. induction p as [|x p IH]; [done|]. cbn [skip_slashes]. destruct (x =? 47) eqn:E; [|done]. cbn [components]. by rewrite E. Qed.
Lemma components_name p : ∀ c rest acc, path_name p = (c, rest) → acc ++ c ≠ [] →
  components p acc = (acc ++ c) :: components (skip_slashes rest) [].
Proof.
  induction p as [|x p IH]; intros c rest acc; cbn [path_name].
  - intros [= <- <-]. rewrite app_nil_r. by destruct acc.
  - destruct (x =? 47) eqn:E.
    + intros [= <- <-]. rewrite app_nil_r. intros Hne. cbn [components]. rewrite E.
      rewrite skip_slashes_components. cbn [components]. rewrite E. by destruct acc.
    + destruct (path_name p) as [c' rest'] eqn:Hp. intros [= <- <-] Hne. cbn [components]. rewrite E.
      rewrite (IH c' rest' (acc ++ [x]) eq_refl); [by rewrite <- app_assoc|]. by destruct acc.
Qed.
Lemma slashes_skipped_head p : head (skip_slashes p) ≠ Some 47.
Proof. induction p as [|x p IH]; [done|]. cbn [skip_slashes]. destruct (Z.eqb_spec x 47); [done|]. simpl. congruence. Qed.
Lemma skip_slashes_length p : (length (skip_slashes p) ≤ length p)%nat.
Proof. induction p as [|x p IH]; [done|]. simpl. destruct (x =? 47); simpl; lia. Qed.
Lemma skip_slashes_name p : is_name p → is_name (skip_slashes p).
Proof. induction 1 as [|x p Hx Hp IH]; [constructor|]. simpl. destruct (x =? 47); [done|]. by constructor. Qed.

(** [walk] looks at the faces only. *)
Lemma walk_face mnt n cs : walk mnt (face n) cs = walk mnt n cs.
Proof. destruct cs as [|c cs]; cbn [walk]; [by rewrite face_face|]. done. Qed.
Lemma walk_set_meta mc mnt n cs : walk (set_meta mc mnt) n cs = walk mnt n cs.
Proof.
  revert n. induction cs as [|c cs IH]; intros n; cbn [walk]; [done|].
  change (mount_virtual_root_by_name (set_meta mc mnt) n c) with (mount_virtual_root_by_name mnt n c).
  change (backend_with be be_lookup (set_meta mc mnt)) with (backend_with be be_lookup mnt).
  destruct (ODFS_NAME_MAX <=? zlen c); [done|]. destruct (mount_virtual_root_by_name mnt n c); [apply IH|].
  destruct (negb _); [done|]. destruct (backend_with _ _ _ _); [|done].
  destruct (listed _ c); [apply IH|done].
Qed.

Lemma virtual_root_loop_in mnt nm r n : ∀ i, virtual_root_loop mnt n i nm = Some r →
  length (virtual_root_map mnt) = length (has_virtual_root mnt) →
  ∃ i, zget (has_virtual_root mnt) i = Some true ∧ zget (virtual_root_map mnt) i = Some r.
Proof.
  induction n as [|n IH]; intros i; cbn [virtual_root_loop]; [done|]. intros Hr Hl. revert Hr.
  destruct (zget (has_virtual_root mnt) i) as [[|]|] eqn:Hh; simpl; [|by intros ?%IH..].
  case_test; [by intros ?%IH|]. intros [= <-]. exists i. split; [done|].
  apply zget_Some_range in Hh. destruct (zget_is_Some (virtual_root_map mnt) i) as [x Hx]; [by rewrite Hl|]. by rewrite Hx.
Qed.
Lemma virtual_root_in mnt dir nm r : mount_virtual_root_by_name mnt dir nm = Some r →
  length (virtual_root_map mnt) = length (has_virtual_root mnt) →
  ∃ i, zget (has_virtual_root mnt) i = Some true ∧ zget (virtual_root_map mnt) i = Some r.
Proof. unfold mount_virtual_root_by_name. case_test; [done|]. apply virtual_root_loop_in. Qed.
Lemma listed_in L nm m : listed L nm = Some m → m ∈ L.
Proof. intros Hm. by apply List.find_some in Hm as [?%list_elem_of_In _]. Qed.

Lemma resolve_loop_ok fuel : ∀ mnt w n p,
  Serves be good listable listing mnt → mc_inv listing (meta mnt) → good w → Listable listable listing mnt →
  length (virtual_root_map mnt) = length (has_virtual_root mnt) → (kind n = ODFS_NODE_DIR → listable n) →
  is_name p → head p ≠ Some 47 → (length p < fuel)%nat →
  ∃ err out mnt' w', resolve_loop be malloc fuel mnt w n p = Ret (err, out, mnt', w') ∧
    same_volume mnt mnt' ∧ mc_inv listing (meta mnt') ∧ good w' ∧ (err, face <$> out) = walk mnt n (components p []).
Proof.
  induction fuel as [|fuel IH]; intros mnt w n p Hsv Hinv Hw Hls Hvl Hn Hp Hhead Hfuel; [lia|]. cbn [resolve_loop].
  assert (Hself : same_volume mnt mnt) by (exists (meta mnt); by destruct mnt).
  destruct p as [|x p]; [by eexists _, _, _, _|].
  pose proof (path_name_spec (x :: p)) as Hpn. destruct (path_name (x :: p)) as [c rest] eqn:Hpe.
  destruct Hpn as (Hxp & Hc & Hrest).
  assert (Hcne : c ≠ []). { intros ->. simpl in Hxp. subst rest. by destruct Hrest. }
  rewrite bool_decide_false by done.
  rewrite (components_name (x :: p) c rest [] Hpe) by done. cbn [app walk].
  destruct (ODFS_NAME_MAX <=? zlen c); [by eexists _, _, _, _|].
  assert (Hlen : (length (skip_slashes rest) < fuel)%nat).
  { pose proof (skip_slashes_length rest). apply (f_equal length) in Hxp. rewrite length_app in Hxp.
    destruct c; [done|]. simpl in *. lia. }
  assert (Hpc : is_name c ∧ is_name (skip_slashes rest)).
  { rewrite Hxp in Hp. apply Forall_app in Hp as [? ?]. split; [done|by apply skip_slashes_name]. }
  destruct Hpc as [Hpc Hpr].
  destruct (mount_virtual_root_by_name mnt n c) as [r|] eqn:Hvr.
  { destruct (virtual_root_in _ _ _ _ Hvr Hvl) as (i & Hi1 & Hi2).
    apply IH; try done; [by eapply ls_virtual|apply slashes_skipped_head]. }
  destruct (bool_decide_reflect (kind n = ODFS_NODE_DIR)) as [Hk|Hk]; cbn [negb].
  2: { unfold odfs_lookup. rewrite bool_decide_false by done. cbn [negb mbind outcome_bind]. by eexists _, _, _, _. }
  destruct (backend_with be be_lookup mnt (backend n)) as [[[ops ctx] lookup]|] eqn:Hwith.
  2: { unfold odfs_lookup. rewrite bool_decide_true, Hwith by done. cbn [negb mbind outcome_bind]. by eexists _, _, _, _. }
  assert (∃ p', ops = be p' ∧ mount_backend_for_type be mnt (backend n) = Some (p', ctx)) as (p' & -> & Hbe).
  { unfold backend_with in Hwith. destruct (mount_backend_for_type be mnt (backend n)) as [[p' ctx']|]; [|done].
    destruct (be_lookup (be p')); [|done]. injection Hwith as <- <- <-. by exists p'. }
  destruct (mount_lookup_ok mnt w n c p' ctx lookup Hsv Hinv Hw (Hn Hk) Hpc Hk Hwith Hbe)
    as (err & out & mnt1 & w1 & -> & [mc ->] & Hinv1 & Hw1 & Hf & He). cbn [mbind outcome_bind].
  rewrite <- Hf. destruct out as [m|]; subst err; cbn [fmap option_fmap option_map].
  - change (err_ok ODFS_OK) with true. cbv iota. simpl in Hf. symmetry in Hf. apply listed_in in Hf.
    destruct (IH (set_meta mc mnt) w1 m (skip_slashes rest)) as (err & out & mnt2 & w2 & -> & [mc2 ->] & ? & ? & Heq);
      try done; [by apply serves_set_meta|by apply listable_set_meta| |by apply slashes_skipped_head|].
    { intros Hkm. eapply ls_face, (ls_entry _ _ _ Hls n); [done|by apply Hn|exact Hf|done]. }
    eexists _, _, _, w2. split; [reflexivity|]. split_and!; try done; [by exists mc2|].
    by rewrite Heq, walk_set_meta, walk_face.
  - change (err_ok ODFS_ERR_NOT_FOUND) with false. cbv iota. eexists _, _, _, w1. split; [reflexivity|].
    split_and!; try done. by exists mc.
Qed.
Lemma resolve_path_ok mnt w path :
  Serves be good listable listing mnt → mc_inv listing (meta mnt) → good w → Listable listable listing mnt →
  length (virtual_root_map mnt) = length (has_virtual_root mnt) → is_name path →
  ∃ err out mnt' w', odfs_resolve_path be malloc mnt w path = Ret (err, out, mnt', w') ∧
    same_volume mnt mnt' ∧ mc_inv listing (meta mnt') ∧ good w' ∧ (err, face <$> out) = walk mnt (mnt_root mnt) (components path []).
Proof.
  intros Hsv Hinv Hw Hls Hvl Hp. unfold odfs_resolve_path.
  destruct (resolve_loop_ok (S (length path)) mnt w (mnt_root mnt) (skip_slashes path)
    Hsv Hinv Hw Hls Hvl (ls_root _ _ _ Hls) (skip_slashes_name _ Hp) (slashes_skipped_head _)) as (err & out & mnt' & w' & He & Hs & Hi & Hg & Hr).
  { pose proof (skip_slashes_length path). lia. }
  rewrite skip_slashes_components in Hr. by exists err, out, mnt', w'.
Qed.
End requests.

(** ** Sessions *)

(** The starts of the data tracks among the first [n]. *)
Definition data_starts (toc : odfs_toc) (n : nat) : list Z := map s_start_lba (filter is_data (take n (sessions toc))).

Lemma data_starts_S toc n s : sessions toc !! n = Some s →
  data_starts toc (S n) = data_starts toc n ++ (if is_data s then [s_start_lba s] else []).
Proof.
  intros Hs. unfold data_starts. rewrite (take_S_r _ _ s) by done. rewrite filter_app, map_app. f_equal.
  destruct (is_data s) eqn:Hd.
  - by rewrite filter_cons_True by (by apply Is_true_true).
  - by rewrite filter_cons_False by (rewrite Hd; by intros []).
Qed.
Lemma candidates_loop_ok toc n : ∀ starts,
  (n ≤ length (sessions toc))%nat → NoDup starts → zlen starts + Z.of_nat n ≤ MAX_SESSION_CANDIDATES →
  yields (candidates_loop toc n starts) (λ r, ∃ extra, r = starts ++ extra ∧ NoDup r ∧ zlen extra ≤ Z.of_nat n ∧
    ∀ x, x ∈ r ↔ x ∈ starts ∨ x ∈ data_starts toc n).
Proof.
  induction n as [|n IH]; intros starts Hn Hnd Hmax; cbn [candidates_loop].
  { apply yields_ret. exists []. rewrite app_nil_r. split_and!; [done|done|done|]. unfold data_starts. set_solver. }
  rewrite (proj2 (Z.leb_gt _ _)) by lia.
  destruct (lookup_lt_is_Some_2 (sessions toc) n) as [s Hs]; [lia|]. rewrite (toc_entry_nat _ _ _ Hs). cbn [mbind outcome_bind].
  assert (Hgo : ∀ new, NoDup (starts ++ new) → zlen new ≤ 1 → (∀ x, x ∈ starts ∨ x ∈ new ↔ x ∈ starts ∨ x ∈ (if is_data s then [s_start_lba s] else [])) →
    yields (candidates_loop toc n (starts ++ new)) (λ r, ∃ extra, r = starts ++ extra ∧ NoDup r ∧ zlen extra ≤ Z.of_nat (S n) ∧
      ∀ x, x ∈ r ↔ x ∈ starts ∨ x ∈ data_starts toc (S n))).
  { intros new Hnd' Hlen Hnew. destruct (IH (starts ++ new)) as (r & -> & extra & -> & Hndr & Hle & Hin); [lia|done|rewrite length_app; lia|].
    apply yields_ret. exists (new ++ extra). rewrite <- app_assoc. split_and!; [done|by rewrite app_assoc|rewrite length_app; lia|].
    intros x. rewrite app_assoc, Hin, (data_starts_S _ _ _ Hs), !elem_of_app. specialize (Hnew x). tauto. }
  destruct (is_data s) eqn:Hd; cbn [negb].
  - destruct (existsb (λ x, x =? s_start_lba s) starts) eqn:Hdup.
    + rewrite <- (app_nil_r starts) at 1. apply Hgo; [by rewrite app_nil_r|simpl; lia|]. intros x.
      apply existsb_exists in Hdup as (y & Hy & Heq). apply list_elem_of_In in Hy. b2p. subst y.
      rewrite list_elem_of_singleton. split; [intros [?|[]%elem_of_nil]; by left|intros [?| ->]; by left].
    + apply Hgo; [|simpl; lia|done]. apply NoDup_app. split_and!; [done| |apply NoDup_singleton].
      intros x Hx Hs'. apply list_elem_of_singleton in Hs' as ->. apply not_true_iff_false in Hdup. apply Hdup, existsb_exists.
      exists (s_start_lba s). split; [by apply list_elem_of_In|apply Z.eqb_refl].
  - rewrite <- (app_nil_r starts) at 1. apply Hgo; [by rewrite app_nil_r|simpl; lia|done].
Qed.

(** ** Properties *)

(** Which backend a session is mounted with: the first one, in the order
    [precedence] gives, that recognises the session, is allowed, and mounts.  Rock
    Ridge and plain ISO 9660 come before UDF and HFS, Joliet before an ISO 9660 tree
    without Rock Ridge; [prefer_udf] and [prefer_hfs] move those two to the front; HFS+,
    where it is recognised, excludes all others. *)
Theorem mount_precedence {M H} (be : Z → odfs_backend_ops (world M H)) s probes mounts rr mnt w :
  Answers be s probes mounts rr →
  yields (mount_try_session_start be mnt w s) (λ '(err, mnt', _),
    match List.find mounts (precedence (opts mnt) probes rr) with
    | Some p => err = ODFS_OK ∧ mnt_ops mnt' = p
    | None => err ≠ ODFS_OK ∧ mnt_ops mnt' = 0
    end).
Proof. intros Han. by apply try_session_precedence. Qed.

(** A session that the HFS+ backend recognises but cannot mount is not mounted at
    all under the default options, whatever the ISO 9660, Joliet, UDF and HFS backends
    find on it. *)
Theorem hfsplus_shadows_iso {M H} (be : Z → odfs_backend_ops (world M H)) s probes mounts rr mnt w :
  Answers be s probes mounts rr → opts mnt = odfs_mount_opts_default → probes 5 = true → mounts 5 = false →
  yields (mount_try_session_start be mnt w s) (λ '(err, _, _), err ≠ ODFS_OK).
Proof.
  intros Han Ho Hp Hm. eapply yields_weaken; [by eapply try_session_precedence|]. intros [[err mnt'] w'].
  unfold precedence, recognised. rewrite Ho, Hp. simpl. rewrite Hm. by intros [? _].
Qed.

(** [C16] Mounting leaks no backend context: after a failed mount the live contexts are
    those from before, and unmounting a mounted volume frees what mounting made, no
    more and no less, and clears the volume. *)
Theorem mount_unmount_frees {M H} (mops : odfs_media_ops M) (be : Z → odfs_backend_ops (world M H)) live
    malloc fuel ts ss m heap o err mnt w :
  Lifecycle be live → odfs_mount mops be malloc fuel ts ss m heap o = Ret (err, mnt, w) →
  if err_ok err
  then yields (odfs_unmount mops be mnt w) (λ '(mnt', w'), mnt' = mount_zero ∧ live (w_heap w') ≡ₚ live heap)
  else live (w_heap w) ≡ₚ live heap.
Proof.
  intros Hlc Hm. pose proof (mount_ok mops be live malloc fuel ts ss m heap o err mnt w Hm) as Hok.
  destruct (err_ok err); [|done]. destruct Hok as (Hown & Ht & Hl).
  apply (unmount_ok mops be live mnt w [(mnt_ops mnt, mnt_ctx mnt)]); [apply NoDup_singleton| |done].
  intros x. by apply (registered_own be live).
Qed.

(** Unmounting frees every context that is registered, under one type or several,
    and the mounted one, exactly once each, whatever else is live. *)
Theorem unmount_frees_each_once {M H} (mops : odfs_media_ops M) (be : Z → odfs_backend_ops (world M H)) live mnt w hs rest :
  Lifecycle be live → NoDup hs → (∀ x, x ∈ hs ↔ registered be mnt x) → live (w_heap w) ≡ₚ hs ++ rest →
  yields (odfs_unmount mops be mnt w) (λ '(mnt', w'), mnt' = mount_zero ∧ live (w_heap w') ≡ₚ rest).
Proof. intros Hlc. by apply unmount_ok. Qed.

(** Lookup in a mounted volume finds the first entry of the backend's listing with
    the name, up to ASCII case, or says [ODFS_ERR_NOT_FOUND]: what the metadata cache
    holds, and whether it can hold more, makes no difference. *)
Theorem odfs_lookup_correct {M H} (be : Z → odfs_backend_ops (world M H)) malloc good listable listing mnt w dir nm p ctx lookup :
  Serves be good listable listing mnt → mc_inv listing (meta mnt) → good w → listable dir → is_name nm →
  kind dir = ODFS_NODE_DIR → backend_with be be_lookup mnt (backend dir) = Some (be p, ctx, lookup) →
  mount_backend_for_type be mnt (backend dir) = Some (p, ctx) →
  ∃ err out mnt' w', odfs_lookup be malloc mnt w dir nm = Ret (err, out, mnt', w') ∧
    mc_inv listing (meta mnt') ∧ good w' ∧
    face <$> out = listed (listing (lba (extent dir)) (length_ (extent dir)) (backend dir)) nm ∧
    err = match out with Some _ => ODFS_OK | None => ODFS_ERR_NOT_FOUND end.
Proof.
  intros Hsv Hinv Hw Hd Hn Hk Hwith Hbe.
  destruct (mount_lookup_ok be malloc good listable listing mnt w dir nm p ctx lookup Hsv Hinv Hw Hd Hn Hk Hwith Hbe)
    as (err & out & mnt' & w' & He & _ & Hi & Hg & Hf & Hr). by exists err, out, mnt', w'.
Qed.

(** Enumerating a directory of a mounted volume from its start runs the callback
    over the backend's listing, through the cache or not, as long as the callback does
    not itself answer [ODFS_ERR_UNSUPPORTED]. *)
Theorem odfs_readdir_correct {M H} (be : Z → odfs_backend_ops (world M H)) malloc good listable listing {T}
    (cb : odfs_dir_iter_fn T) mnt w dir t p ctx readdir :
  Serves be good listable listing mnt → mc_inv listing (meta mnt) → good w → listable dir →
  (∀ n t, (cb n t).1 ≠ ODFS_ERR_UNSUPPORTED) →
  zlen (listing (lba (extent dir)) (length_ (extent dir)) (backend dir)) < 2 ^ 31 →
  kind dir = ODFS_NODE_DIR → backend_with be be_readdir mnt (backend dir) = Some (be p, ctx, readdir) →
  mount_backend_for_type be mnt (backend dir) = Some (p, ctx) →
  ∃ L err c mnt' w' t', odfs_readdir be malloc cb mnt w dir t None = Ret (err, c, mnt', w', t') ∧
    mc_inv listing (meta mnt') ∧ good w' ∧
    map face L = listing (lba (extent dir)) (length_ (extent dir)) (backend dir) ∧ run cb L t = (err, t').
Proof.
  intros Hsv Hinv Hw Hd Hcb Hmax Hk Hwith Hbe.
  destruct (mount_readdir_ok be malloc good listable listing cb mnt w dir t p ctx readdir Hsv Hinv Hw Hd Hcb Hmax Hk Hwith Hbe)
    as (L & err & c & mnt' & w' & t' & He & _ & Hi & Hg & Hf & Hr). by exists L, err, c, mnt', w', t'.
Qed.

(** Resolving a path walks its components, the runs of bytes between separators,
    from the root through the virtual roots and the listings, and always ends, when the
    directories it can come to are listable. *)
Theorem odfs_resolve_path_correct {M H} (be : Z → odfs_backend_ops (world M H)) malloc good listable listing mnt w path :
  Serves be good listable listing mnt → mc_inv listing (meta mnt) → good w → Listable listable listing mnt →
  length (virtual_root_map mnt) = length (has_virtual_root mnt) → is_name path →
  ∃ err out mnt' w', odfs_resolve_path be malloc mnt w path = Ret (err, out, mnt', w') ∧
    mc_inv listing (meta mnt') ∧ good w' ∧ (err, face <$> out) = walk be listing mnt (mnt_root mnt) (components path []).
Proof.
  intros Hsv Hinv Hw Hls Hvl Hp.
  destruct (resolve_path_ok be malloc good listable listing mnt w path Hsv Hinv Hw Hls Hvl Hp)
    as (err & out & mnt' & w' & He & _ & ? & ? & ?). by exists err, out, mnt', w'.
Qed.

(** The sessions tried start with the preferred one and are, with a TOC of at most
    98 tracks, exactly that one, the data tracks and the start of the disc; their
    number fits the array of the caller. *)
Theorem session_candidates_complete {M H} (mops : odfs_media_ops M) stack mnt (w : world M H) preferred toc m :
  force_session (opts mnt) < 0 → odfs_media_read_toc mops (w_medium w) stack = (ODFS_OK, toc, m) →
  0 ≤ session_count toc ≤ 98 → session_count toc ≤ zlen (sessions toc) →
  yields (mount_build_session_candidates mops stack mnt w preferred) (λ '(starts, _),
    head starts = Some preferred ∧ zlen starts ≤ MAX_SESSION_CANDIDATES ∧
    ∀ x, x ∈ starts ↔ x = preferred ∨ x ∈ data_starts toc (Z.to_nat (session_count toc)) ∨ x = 0).
Proof.
  intros Hf Htoc Hc Hl. unfold mount_build_session_candidates, MAX_SESSION_CANDIDATES. rewrite (proj2 (Z.leb_gt _ _)) by done.
  rewrite Htoc. change (err_ok ODFS_OK) with true. cbv iota.
  destruct (candidates_loop_ok toc (Z.to_nat (session_count toc)) [preferred]) as (r & -> & extra & -> & _ & Hle & Hin);
    [lia|apply NoDup_singleton|simpl; unfold MAX_SESSION_CANDIDATES; lia|].
  cbn [mbind outcome_bind]. apply yields_ret.
  assert (Hp : ∀ x, x ∈ [preferred] ++ extra ↔ x = preferred ∨ x ∈ data_starts toc (Z.to_nat (session_count toc)))
    by (intros x; by rewrite Hin, list_elem_of_singleton).
  destruct (Z.eqb_spec preferred 0) as [->|Hne]; cbn [negb andb].
  - split_and!; [done|rewrite length_app; simpl; lia|]. intros x. rewrite Hp. tauto.
  - rewrite (proj2 (Z.ltb_lt _ _)) by (rewrite length_app; simpl; lia).
    split_and!; [done|rewrite !length_app; simpl; lia|]. intros x. rewrite elem_of_app, Hp, list_elem_of_singleton. tauto.
Qed.

(** ** Small backends

    They recognise and mount what [probes] and [mounts] say; the heap is the list of
    live contexts, and a new context is one more than their number. *)
Definition demo_type (p : Z) : odfs_backend_type :=
  match p with
  | 1 => ODFS_BACKEND_ISO9660 | 2 => ODFS_BACKEND_JOLIET | 3 => ODFS_BACKEND_UDF | 4 => ODFS_BACKEND_HFS
  | _ => ODFS_BACKEND_HFSPLUS
  end.
Fixpoint remove_one (x : Z * Z) (l : list (Z * Z)) : list (Z * Z) :=
  match l with [] => [] | y :: l => if decide (x = y) then l else y :: remove_one x l end.
Lemma remove_one_perm x l : x ∈ l → l ≡ₚ x :: remove_one x l.
Proof.
  induction l as [|y l IH]; [by intros ?%elem_of_nil|]. simpl. destruct (decide (x = y)) as [<-|Hne]; [done|].
  intros [?|Hx]%elem_of_cons; [done|]. rewrite (IH Hx) at 1. apply Permutation_swap.
Qed.

Section demo.
Context (probes mounts : Z → bool) (rr : bool).
Abbreviation W := (world unit (list (Z * Z))).
Definition demo_be (p : Z) : odfs_backend_ops W :=
  mk_backend (demo_type p) 0
    (λ w _, Ret (if probes p then ODFS_OK else ODFS_ERR_BAD_FORMAT, w))
    (λ w _ root ctx,
       if mounts p then
         let c := 1 + zlen (w_heap w) in
         Ret (ODFS_OK, set_backend (if (p =? 1) && rr then ODFS_BACKEND_ROCK_RIDGE else demo_type p)
                         (demo_node [] ODFS_NODE_DIR 20 2048), c, mk_world (w_cache w) ((p, c) :: w_heap w))
       else Ret (ODFS_ERR_BAD_FORMAT, root, ctx, w))
    (Some (λ w c, Ret (mk_world (w_cache w) (remove_one (p, c) (w_heap w)))))
    (Some (λ T w _ dir cb t _,
       let '(err, t) := run cb (demo_list (lba (extent dir)) 0 ODFS_BACKEND_ISO9660) t in Ret (err, None, w, t)))
    None
    (Some (λ w _ dir nm,
       let r := listed (demo_list (lba (extent dir)) 0 ODFS_BACKEND_ISO9660) nm in
       Ret (match r with Some _ => ODFS_OK | None => ODFS_ERR_NOT_FOUND end, r, w)))
    None None None None.

Lemma demo_lifecycle : Lifecycle demo_be (λ h, h).
Proof.
  split.
  - intros p w s. by apply after_ret.
  - intros p w s r c. simpl. destruct (mounts p); apply after_ret; [split; [lia|done]|done].
  - done.
  - intros p w c f [= <-] Hin. apply yields_ret. simpl. by apply remove_one_perm.
  - done.
Qed.
Lemma demo_answers s : Answers demo_be s probes mounts rr.
Proof.
  split; [done| | |].
  - intros p w. apply yields_ret. by destruct (probes p).
  - intros p w r c. simpl. destruct (mounts p); apply yields_ret; [|done]. split; [done|]. split; [lia|].
    intros ->. simpl. by destruct rr.
  - intros w c. eexists _, _. done.
Qed.
Lemma demo_list_face l : map face (demo_list l 0 ODFS_BACKEND_ISO9660) = demo_list l 0 ODFS_BACKEND_ISO9660.
Proof. unfold demo_list. by repeat case_test. Qed.
Lemma demo_serves mnt : Serves demo_be (λ _, True) (λ _, True) demo_list mnt.
Proof.
  split.
  - intros t p ctx _. eexists. split; [done|]. intros T w dir cb t' _ _.
    exists (demo_list (lba (extent dir)) 0 ODFS_BACKEND_ISO9660), None, w.
    destruct (run cb _ t') as [err t''] eqn:Hrun. split_and!; [done|done|apply demo_list_face|].
    unfold demo_list. repeat case_test; repeat constructor; simpl; unfold ODFS_NAME_MAX; done || lia.
  - intros t p ctx lookup w dir nm _ [= <-] _ _ _. apply yields_ret. split_and!; [done| |by destruct (listed _ nm)].
    change (demo_list (lba (extent dir)) (length_ (extent dir)) (backend dir)) with (demo_list (lba (extent dir)) 0 ODFS_BACKEND_ISO9660).
    rewrite <- (demo_list_face (lba (extent dir))) at 2. unfold listed.
    induction (demo_list (lba (extent dir)) 0 ODFS_BACKEND_ISO9660) as [|n L IH]; [done|]. cbn [map List.find].
    change (name (face n)) with (name n). destruct (bool_decide (name_equiv (name n) nm)); [done|exact IH].
Qed.
End demo.

Definition demo_opts : odfs_mount_opts := mk_opts 0 (-1) false false false false false false 1 64.
(** A disc with ISO 9660 and Joliet trees, without Rock Ridge. *)
Definition demo_probes (p : Z) : bool := (p =? 1) || (p =? 2).
Definition demo_medium : odfs_media_ops unit := image_ops demo_img 300 ISO_SECTOR_SIZE.
Definition demo_mounted : outcome (odfs_err * odfs_mount_t * world unit (list (Z * Z))) :=
  odfs_mount demo_medium (demo_be demo_probes demo_probes false) (λ _, true) 300 toc_zero blank_sector tt [(9, 9)] (Some demo_opts).
Definition demo_world : world unit (list (Z * Z)) := mk_world (cache_zero tt) [(9, 9)].
Definition demo_volume : odfs_mount_t :=
  match demo_mounted with Ret (_, mnt, _) => mnt | _ => mount_zero end.

Lemma mount_precedence_witness :
  yields (mount_try_session_start (demo_be demo_probes demo_probes false) (set_opts demo_opts mount_zero) demo_world 0)
    (λ '(err, mnt', _), err = ODFS_OK ∧ mnt_ops mnt' = 2).
Proof.
  exact (mount_precedence (demo_be demo_probes demo_probes false) 0 demo_probes demo_probes false
    (set_opts demo_opts mount_zero) demo_world (demo_answers demo_probes demo_probes false 0)).
Defined.
Lemma hfsplus_shadows_iso_witness :
  yields (mount_try_session_start (demo_be (λ _, true) demo_probes true) (set_opts odfs_mount_opts_default mount_zero) demo_world 0)
    (λ '(err, _, _), err ≠ ODFS_OK).
Proof.
  apply (hfsplus_shadows_iso (demo_be (λ _, true) demo_probes true) 0 (λ _, true) demo_probes true);
    [exact (demo_answers (λ _, true) demo_probes true 0)|reflexivity..].
Defined.
Example demo_mounts :
  match demo_mounted with
  | Ret (err, mnt, w) => (err, mnt_ops mnt, active_backend mnt, w_heap w) = (ODFS_OK, 2, ODFS_BACKEND_JOLIET, [(2, 2); (9, 9)])
  | _ => False
  end.
Proof. vm_compute. reflexivity. Qed.

Lemma mount_unmount_frees_witness :
  ∃ err mnt w, demo_mounted = Ret (err, mnt, w) ∧
    if err_ok err
    then yields (odfs_unmount demo_medium (demo_be demo_probes demo_probes false) mnt w)
           (λ '(mnt', w'), mnt' = mount_zero ∧ w_heap w' ≡ₚ [(9, 9)])
    else w_heap w ≡ₚ [(9, 9)].
Proof.
  destruct demo_mounted as [[[err mnt] w]| |] eqn:Hm; [|vm_compute in Hm; discriminate Hm|vm_compute in Hm; discriminate Hm].
  exists err, mnt, w. split; [reflexivity|].
  apply (mount_unmount_frees demo_medium (demo_be demo_probes demo_probes false) (λ h, h) (λ _, true) 300 toc_zero blank_sector
    tt [(9, 9)] (Some demo_opts) err mnt w (demo_lifecycle demo_probes demo_probes false)).
  exact Hm.
Defined.

(** The volume with a second context registered under two types. *)
Definition demo_two : odfs_mount_t :=
  odfs_mount_register_backend (odfs_mount_register_backend (set_active ODFS_BACKEND_ISO9660 1 7 node_zero mount_zero) 6 5 8 None) 7 5 8 None.
Lemma unmount_frees_each_once_witness :
  yields (odfs_unmount demo_medium (demo_be demo_probes demo_probes false) demo_two (mk_world (cache_zero tt) [(9, 9); (5, 8); (1, 7)]))
    (λ '(mnt', w'), mnt' = mount_zero ∧ w_heap w' ≡ₚ [(9, 9)]).
Proof.
  apply (unmount_frees_each_once demo_medium (demo_be demo_probes demo_probes false) (λ h, h) demo_two
    (mk_world (cache_zero tt) [(9, 9); (5, 8); (1, 7)]) [(5, 8); (1, 7)] [(9, 9)] (demo_lifecycle demo_probes demo_probes false)).
  - apply (bool_decide_eq_true_1 _). vm_compute. reflexivity.
  - intros x. split.
    + intros [->|[->|[]%elem_of_nil]%elem_of_cons]%elem_of_cons; (split_and!; [discriminate|discriminate|]).
      * right. exists 6. split; [unfold ODFS_BACKEND__COUNT; lia|reflexivity].
      * left. reflexivity.
    + intros (Hx & _ & [->|(i & Hi & ->)]); [right; left|].
      unfold ODFS_BACKEND__COUNT in Hi. assert (Hc : i = 1 ∨ i = 2 ∨ i = 3 ∨ i = 4 ∨ i = 5 ∨ i = 6 ∨ i = 7) by lia.
      destruct Hc as [->|[->|[->|[->|[->|[->| ->]]]]]]; try (exfalso; apply Hx; reflexivity); left.
  - simpl. change [(9, 9); (5, 8); (1, 7)] with ([(9, 9)] ++ [(5, 8); (1, 7)]). apply Permutation_app_comm.
Defined.

Lemma demo_volume_meta : mc_inv demo_list (meta demo_volume).
Proof.
  assert (Hm : meta demo_volume = odfs_meta_cache_init 65536) by (vm_compute; reflexivity).
  rewrite Hm. by apply init_ok.
Qed.
Definition demo_jdir : odfs_node := set_backend ODFS_BACKEND_JOLIET demo_dir.
Lemma odfs_lookup_correct_witness :
  ∃ err out mnt' w', odfs_lookup (demo_be demo_probes demo_probes false) (λ _ _, true) demo_volume demo_world demo_jdir [115; 114; 99] = Ret (err, out, mnt', w') ∧
    mc_inv demo_list (meta mnt') ∧ True ∧
    face <$> out = listed (demo_list 20 2048 ODFS_BACKEND_JOLIET) [115; 114; 99] ∧
    err = match out with Some _ => ODFS_OK | None => ODFS_ERR_NOT_FOUND end.
Proof.
  eapply (odfs_lookup_correct (demo_be demo_probes demo_probes false) (λ _ _, true) (λ _, True) (λ _, True) demo_list
    demo_volume demo_world demo_jdir [115; 114; 99] 2 2);
    [apply demo_serves|exact demo_volume_meta|exact I|exact I|repeat constructor; lia|reflexivity| |].
  - assert (Hb : mount_backend_for_type (demo_be demo_probes demo_probes false) demo_volume (backend demo_jdir) = Some (2, 2))
      by (vm_compute; reflexivity).
    unfold backend_with. rewrite Hb. reflexivity.
  - vm_compute. reflexivity.
Defined.
Lemma odfs_readdir_correct_witness :
  ∃ L err c mnt' w' t', odfs_readdir (demo_be demo_probes demo_probes false) (λ _ _, true) demo_cb demo_volume demo_world demo_jdir [] None = Ret (err, c, mnt', w', t') ∧
    mc_inv demo_list (meta mnt') ∧ True ∧
    map face L = demo_list 20 2048 ODFS_BACKEND_JOLIET ∧ run demo_cb L [] = (err, t').
Proof.
  eapply (odfs_readdir_correct (demo_be demo_probes demo_probes false) (λ _ _, true) (λ _, True) (λ _, True) demo_list
    demo_cb demo_volume demo_world demo_jdir [] 2 2);
    [apply demo_serves|exact demo_volume_meta|exact I|exact I|intros n t; discriminate|vm_compute; reflexivity|reflexivity| |].
  - assert (Hb : mount_backend_for_type (demo_be demo_probes demo_probes false) demo_volume (backend demo_jdir) = Some (2, 2))
      by (vm_compute; reflexivity).
    unfold backend_with. rewrite Hb. reflexivity.
  - vm_compute. reflexivity.
Defined.
(* //src//Main.c *)
Definition demo_full_path : list Z := [47; 47; 115; 114; 99; 47; 47; 77; 97; 105; 110; 46; 99].
Lemma odfs_resolve_path_correct_witness :
  ∃ err out mnt' w', odfs_resolve_path (demo_be demo_probes demo_probes false) (λ _ _, true) demo_volume demo_world demo_full_path = Ret (err, out, mnt', w') ∧
    mc_inv demo_list (meta mnt') ∧ True ∧
    (err, face <$> out) = walk (demo_be demo_probes demo_probes false) demo_list demo_volume (mnt_root demo_volume) (components demo_full_path []).
Proof.
  apply (odfs_resolve_path_correct (demo_be demo_probes demo_probes false) (λ _ _, true) (λ _, True) (λ _, True) demo_list
    demo_volume demo_world demo_full_path);
    [apply demo_serves|exact demo_volume_meta|exact I|split; intros; exact I|vm_compute; reflexivity|repeat constructor; lia].
Defined.
Lemma session_candidates_complete_witness :
  yields (mount_build_session_candidates demo_drive toc_zero (set_opts demo_opts mount_zero) demo_world 2500) (λ '(starts, _),
    head starts = Some 2500 ∧ zlen starts ≤ MAX_SESSION_CANDIDATES ∧
    ∀ x, x ∈ starts ↔ x = 2500 ∨ x ∈ data_starts demo_toc 3 ∨ x = 0).
Proof.
  apply (session_candidates_complete demo_drive toc_zero (set_opts demo_opts mount_zero) demo_world 2500 demo_toc tt);
    [reflexivity|reflexivity|simpl; lia|simpl; lia].
Defined.
