(* ===== verification/Ancestry.v ===== *)
(** * Parents by search ([core/ancestry.c]) and by the backend ([core/mount.c])

    The stack of frames is a list, the innermost directory first; the frame of a
    child that the callback fills in becomes part of it when the search descends.
    The search has fuel for its rounds; [malloc n] says whether the [n]-th
    allocation succeeds. *)
From S2P Require Import Prelude Types Backend MetaCache Mount.
Open Scope Z_scope.

(* [src: core/ancestry.c:14-17 ancestry_frame_t] *)
Record ancestry_frame : Type := mk_frame { fr_dir : odfs_node; fr_resume : Z }.
(** The target is an argument of the callback. *)
(* [src: core/ancestry.c:19-24 ancestry_search_ctx_t] *)
Record ancestry_search_ctx : Type := mk_asc { child_frame : ancestry_frame; found : bool; descend : bool }.

(* [src: core/ancestry.c:26-43 ancestry_search_cb] *)
Definition ancestry_search_cb (target entry : odfs_node) (asc : ancestry_search_ctx) : odfs_err * ancestry_search_ctx :=
  if odfs_node_matches_identity (Some entry) (Some target) then (ODFS_ERR_EOF, mk_asc (child_frame asc) true (descend asc))
  else if negb (descend asc) && bool_decide (kind entry = ODFS_NODE_DIR)
  then (ODFS_ERR_EOF, mk_asc (mk_frame entry 0) (found asc) true)
  else (ODFS_OK, asc).

Section ancestry.
Context {M H : Type} (be : Z → odfs_backend_ops (world M H)) (meta_malloc : nat → Z → bool) (malloc : nat → bool).
Implicit Types (mnt : odfs_mount_t) (w : world M H).

(** Result: the error, and the parent and the grandparent if they were written. *)
(* [src: core/ancestry.c:66-115 odfs_resolve_parent_search] *)
Fixpoint search_loop (fuel : nat) (node : odfs_node) mnt w (frames : list ancestry_frame) (cap : Z) (allocs : nat)
    (err : odfs_err) : outcome (odfs_err * option (odfs_node * odfs_node) * odfs_mount_t * world M H) :=
  match fuel with
  | O => Diverge
  | S fuel =>
      match frames with
      | [] => Ret (err, None, mnt, w)
      | top :: below =>
          let grow := zlen frames =? cap in
          if grow && negb (malloc allocs) then Ret (ODFS_ERR_NOMEM, None, mnt, w)
          else
            let allocs := if grow then S allocs else allocs in
            let cap := if grow then cap * 2 else cap in
            '(err, resume, mnt, w, asc) ← odfs_readdir be meta_malloc (ancestry_search_cb node) mnt w (fr_dir top)
                                            (mk_asc (mk_frame node_zero 0) false false) (Some (fr_resume top));
            let top := mk_frame (fr_dir top) (default (fr_resume top) resume) in
            if found asc then
              Ret (ODFS_OK, Some (fr_dir top, match below with f :: _ => fr_dir f | [] => mnt_root mnt end), mnt, w)
            else if descend asc then search_loop fuel node mnt w (child_frame asc :: top :: below) cap allocs err
            else if negb (err_ok err)
            then Ret (if bool_decide (err = ODFS_ERR_EOF) then ODFS_ERR_NOT_FOUND else err, None, mnt, w)
            else search_loop fuel node mnt w below cap allocs err
      end
  end.
(* [src: core/ancestry.c:50-120 odfs_resolve_parent_search] *)
Definition odfs_resolve_parent_search (fuel : nat) mnt w (node : odfs_node)
    : outcome (odfs_err * option (odfs_node * odfs_node) * odfs_mount_t * world M H) :=
  if negb (malloc 0%nat) then Ret (ODFS_ERR_NOMEM, None, mnt, w)
  else search_loop fuel node mnt w [mk_frame (mnt_root mnt) 0] 8 1 ODFS_ERR_NOT_FOUND.

(** A backend's resolver reports the parent and, when it is asked to, the
    grandparent; here it is always asked. *)
(* [src: core/mount.c:649-675 odfs_resolve_parent_node] *)
Definition odfs_resolve_parent_node (fuel : nat) mnt w (node : odfs_node)
    : outcome (odfs_err * option (odfs_node * odfs_node) * odfs_mount_t * world M H) :=
  if mount_is_root mnt node then Ret (ODFS_ERR_NOT_FOUND, None, mnt, w)
  else
    match backend_with be be_resolve_parent mnt (backend node) with
    | None => odfs_resolve_parent_search fuel mnt w node
    | Some (_, ctx, resolve) =>
        '(err, parent, grandparent, w) ← resolve w ctx node true;
        if negb (bool_decide (err = ODFS_ERR_UNSUPPORTED))
        then Ret (err, match parent, grandparent with Some p, Some g => Some (p, g) | _, _ => None end, mnt, w)
        else odfs_resolve_parent_search fuel mnt w node
    end.
End ancestry.

(** ** The search on listings *)

(** The first directory, in preorder, whose listing has the target, and the directory
    above it; [h] bounds the depth. *)
Section reference.
Context (target : odfs_node) (entries : odfs_node → list odfs_node).

Fixpoint first_parent (below : odfs_node → odfs_node → option (odfs_node * odfs_node)) (d gp : odfs_node)
    (es : list odfs_node) : option (odfs_node * odfs_node) :=
  match es with
  | [] => None
  | e :: es =>
      if odfs_node_matches_identity (Some e) (Some target) then Some (d, gp)
      else if bool_decide (kind e = ODFS_NODE_DIR) then
        match below e d with Some r => Some r | None => first_parent below d gp es end
      else first_parent below d gp es
  end.
Fixpoint find_parent (h : nat) (d gp : odfs_node) : option (odfs_node * odfs_node) :=
  match h with O => None | S h => first_parent (find_parent h) d gp (entries d) end.

(** Directories nest less than [h] deep under [d]. *)
Fixpoint nests (h : nat) (d : odfs_node) : Prop :=
  match h with O => False | S h => ∀ e, e ∈ entries d → kind e = ODFS_NODE_DIR → nests h e end.
End reference.
