(* ===== verification/AncestrySpec.v ===== *)
(** * The search for a parent finds it

    On a volume whose directories nest finitely, enumeration in portions, through
    whatever the metadata cache does, makes the search visit the tree in preorder. *)
From S2P Require Import Prelude Types Strings Media BlockCache Backend MetaCache MetaCacheProofs MetaCacheSpec.
From S2P Require Import Mount MountSpec Ancestry.
Open Scope Z_scope.

(** ** Cookies *)

Lemma tag_spec n : 0 ≤ n < 2 ^ 31 →
  untag (Z.lor ODFS_META_COOKIE_TAG n) = n ∧ Z.land (Z.lor ODFS_META_COOKIE_TAG n) ODFS_META_COOKIE_TAG ≠ 0 ∧
  0 ≤ Z.lor ODFS_META_COOKIE_TAG n.
Proof.
  intros Hn. change ODFS_META_COOKIE_TAG with (2 ^ 31). split_and!.
  - unfold untag. change ODFS_META_COOKIE_TAG with (2 ^ 31). apply Z.bits_inj'. intros k Hk.
    rewrite Z.ldiff_spec, Z.lor_spec. destruct (decide (k = 31)) as [->|Hne].
    + rewrite Z.pow2_bits_true by lia. rewrite andb_false_r. symmetry.
      rewrite Z.testbit_eqb by lia. by rewrite Z.div_small by lia.
    + rewrite Z.pow2_bits_false by lia. by rewrite andb_true_r.
  - intros H. apply (f_equal (λ z, Z.testbit z 31)) in H.
    rewrite Z.land_spec, Z.lor_spec, Z.pow2_bits_true, Z.bits_0 in H by lia. done.
  - apply Z.lor_nonneg. lia.
Qed.

(** ** Enumeration in portions *)

(** A backend enumerates a directory from wherever a cookie it gave out stands:
    [stands k c i] says that in the directory with key [k], [c] stands before the
    [i]-th entry. *)
Record ListsFrom {W} (ops : odfs_backend_ops W) (ctx : Z) (good : W → Prop) (listable : odfs_node → Prop)
    (listing : Z → Z → odfs_backend_type → list odfs_node) (stands : Z * Z * odfs_backend_type → Z → nat → Prop) : Prop := {
  lf_readdir : ∃ readdir, be_readdir ops = Some readdir ∧
    ∀ T w dir (cb : odfs_dir_iter_fn T) t c i, good w → listable dir → stands (node_key dir) c i →
    ∃ L c' w', let r := run cb (drop i L) t in
      readdir T w ctx dir cb t (Some c) = Ret (r.1, Some c', w', r.2) ∧ good w' ∧
      map face L = listing (lba (extent dir)) (length_ (extent dir)) (backend dir) ∧
      stands (node_key dir) c' (i + Z.to_nat (delivered cb (drop i L) t))%nat;
  lf_start : ∀ k, stands k 0 0%nat;
  lf_cookie : ∀ k c i, stands k c i → 0 ≤ c ∧ Z.land c ODFS_META_COOKIE_TAG = 0 ∧ (c = 0 → i = 0%nat) }.

Section portions.
Context {M H : Type} (be : Z → odfs_backend_ops (world M H)) (meta_malloc : nat → Z → bool).
Context (good : world M H → Prop) (listable : odfs_node → Prop) (listing : Z → Z → odfs_backend_type → list odfs_node).
Context (stands : Z * Z * odfs_backend_type → Z → nat → Prop).
Implicit Types (mnt : odfs_mount_t) (w : world M H).
Abbreviation listing_of k := (listing k.1.1 k.1.2 k.2).

(** Nodes of a type can be enumerated. *)
Definition enumerable mnt (t : odfs_backend_type) : Prop :=
  ∃ p ctx, mount_backend_for_type be mnt t = Some (p, ctx) ∧ ListsFrom (be p) ctx good listable listing stands.
(** A cookie of the volume: the cache's or the backend's. *)
Definition at_index (k : Z * Z * odfs_backend_type) (c : Z) (i : nat) : Prop :=
  stands k c i ∨
  0 ≤ c ∧ Z.land c ODFS_META_COOKIE_TAG ≠ 0 ∧ untag c = Z.of_nat i ∧ (i ≤ length (listing_of k))%nat.

Lemma foreign_cookie {T} (cb : odfs_dir_iter_fn T) ops ctx w mc dir t c :
  Z.land c ODFS_META_COOKIE_TAG = 0 → c ≠ 0 →
  odfs_meta_readdir meta_malloc ops ctx cb w mc dir t (Some c) = Ret (ODFS_ERR_UNSUPPORTED, Some c, mc, w, t).
Proof. intros Ht Hc. unfold odfs_meta_readdir. simpl. rewrite Ht. by rewrite (proj2 (Z.eqb_neq c 0)). Qed.

Lemma run_not_unsupported {T} (cb : odfs_dir_iter_fn T) L t :
  (∀ n t, (cb n t).1 ≠ ODFS_ERR_UNSUPPORTED) → (run cb L t).1 ≠ ODFS_ERR_UNSUPPORTED.
Proof.
  intros Hcb. revert t. induction L as [|n L IH]; intros t; simpl; [done|]. specialize (Hcb n t).
  destruct (cb n t) as [e t1]. destruct (err_ok e); [apply IH|done].
Qed.

Lemma readdir_from {T} (cb : odfs_dir_iter_fn T) mnt w dir t c i :
  Serves be good listable listing mnt → mc_inv listing (meta mnt) → good w → listable dir → enumerable mnt (backend dir) →
  (∀ n t, (cb n t).1 ≠ ODFS_ERR_UNSUPPORTED) → zlen (listing_of (node_key dir)) < 2 ^ 31 →
  kind dir = ODFS_NODE_DIR → at_index (node_key dir) c i →
  ∃ L err c' mnt' w' t', odfs_readdir be meta_malloc cb mnt w dir t (Some c) = Ret (err, Some c', mnt', w', t') ∧
    same_volume mnt mnt' ∧ mc_inv listing (meta mnt') ∧ good w' ∧ map face L = listing_of (node_key dir) ∧
    run cb (drop i L) t = (err, t') ∧ at_index (node_key dir) c' (i + Z.to_nat (delivered cb (drop i L) t))%nat.
Proof.
  intros Hsv Hinv Hw Hdir (p & ctx & Hbe & HLF) Hcb Hmax Hkind Hat.
  destruct (lf_readdir _ _ _ _ _ _ HLF) as (readdir & Hrd & Hlist).
  unfold odfs_readdir, backend_with. rewrite Hkind, bool_decide_true, Hbe, Hrd by done. cbn [negb].
  assert (Hback : ∀ mnt1 w1, same_volume mnt mnt1 → mc_inv listing (meta mnt1) → good w1 → stands (node_key dir) c i →
    ∃ L err c' mnt' w' t',
      ('(err, resume, w, t) ← readdir T w1 ctx dir cb t (Some c); Ret (err, resume, mnt1, w, t)) = Ret (err, Some c', mnt', w', t') ∧
      same_volume mnt mnt' ∧ mc_inv listing (meta mnt') ∧ good w' ∧ map face L = listing_of (node_key dir) ∧
      run cb (drop i L) t = (err, t') ∧ at_index (node_key dir) c' (i + Z.to_nat (delivered cb (drop i L) t))%nat).
  { intros mnt1 w1 Hs1 Hi1 Hw1 Hst. destruct (Hlist T w1 dir cb t c i Hw1 Hdir Hst) as (L & c' & w2 & -> & Hw2 & HL & Hst').
    eexists L, _, c', mnt1, w2, _. split; [reflexivity|]. split_and!; try done; [by destruct (run cb _ t)|by left]. }
  destruct (decide (Z.land c ODFS_META_COOKIE_TAG = 0)) as [Htag|Htag].
  - assert (Hst : stands (node_key dir) c i) by (destruct Hat as [?|(_ & ? & _)]; done).
    destruct (decide (c = 0)) as [->|Hne].
    + pose proof (sv_lists _ _ _ _ _ Hsv _ _ _ Hbe) as HL0.
      destruct (readdir_ok meta_malloc (be p) ctx good listable listing cb w (meta mnt) dir t (Some 0) Hinv Hw Hdir)
        as (err & c1 & mc & w1 & t1 & -> & Hinv1 & _ & Hw1 & Hres); [simpl; lia|done|]. cbn [mbind outcome_bind].
      destruct (bool_decide_reflect (err = ODFS_ERR_UNSUPPORTED)) as [->|Hok]; cbn [negb].
      * destruct Hres as [(_ & -> & -> & _)|(L & _ & Hr & _)].
        -- apply Hback; [by exists mc|done|done|done].
        -- exfalso. change (untag (default 0 (Some 0))) with 0 in Hr. change (Z.to_nat 0) with 0%nat in Hr. apply (run_not_unsupported cb (drop 0 L) t Hcb). by rewrite Hr.
      * destruct Hres as [[? _]|(L & HLL & Hr & Hc1)]; [done|].
        destruct (lf_cookie _ _ _ _ _ _ HLF _ _ _ Hst) as (_ & _ & Hi). rewrite (Hi eq_refl).
        change (untag (default 0 (Some 0))) with 0 in *. change (Z.to_nat 0) with 0%nat in *.
        assert (HlenL : zlen L < 2 ^ 31) by (rewrite <- HLL, length_map in Hmax; exact Hmax).
        rewrite drop_0 in *. simpl in Hc1. pose proof (delivered_le cb L t).
        destruct (tag_spec (zlen L - zlen L + delivered cb L t)) as (H1 & H2 & H3); [lia|].
        eexists L, err, _, _, w1, t1. rewrite Hc1, drop_0. split; [reflexivity|]. split_and!; try done; [by exists mc|].
        right. split_and!; [done|done|rewrite H1; lia|]. rewrite <- HLL, length_map. lia.
    + rewrite foreign_cookie by done. cbn [mbind outcome_bind]. rewrite bool_decide_true by done. cbn [negb].
      apply Hback; [exists (meta mnt); by destruct mnt|done|done|done].
  - destruct Hat as [Hst|(Hc & _ & Hu & Hile)]; [by apply (lf_cookie _ _ _ _ _ _ HLF) in Hst as (_ & ? & _)|].
    pose proof (sv_lists _ _ _ _ _ Hsv _ _ _ Hbe) as HL0.
    destruct (readdir_ok meta_malloc (be p) ctx good listable listing cb w (meta mnt) dir t (Some c) Hinv Hw Hdir)
      as (err & c1 & mc & w1 & t1 & -> & Hinv1 & _ & Hw1 & Hres); [done|done|]. cbn [mbind outcome_bind].
    destruct Hres as [(_ & _ & _ & Hz & _)|(L & HLL & Hr & Hc1)]; [done|].
    change (default 0 (Some c)) with c in *. rewrite Hu in *. rewrite Nat2Z.id in *.
    assert (Hne : err ≠ ODFS_ERR_UNSUPPORTED).
    { intros ->. apply (run_not_unsupported cb (drop i L) t Hcb). by rewrite Hr. }
    rewrite bool_decide_false by done. cbn [negb].
    assert (HlenL : length L = length (listing_of (node_key dir))) by (by rewrite <- HLL, length_map).
    simpl in Hc1. pose proof (delivered_le cb (drop i L) t) as Hd. rewrite length_drop in *.
    destruct (tag_spec (zlen L - Z.of_nat (length L - i) + delivered cb (drop i L) t)) as (H1 & H2 & H3); [lia|].
    eexists L, err, _, _, w1, t1. rewrite Hc1. split; [reflexivity|]. split_and!; try done; [by exists mc|].
    right. split_and!; [done|done|rewrite H1; lia|]. lia.
Qed.
End portions.

(** ** The callback *)
Section callback.
Context (target : odfs_node).

Definition matches (e : odfs_node) : bool := odfs_node_matches_identity (Some e) (Some target).
(** Entries the search passes over. *)
Definition passed (e : odfs_node) : Prop := matches e = false ∧ kind e ≠ ODFS_NODE_DIR.
Definition asc_none : ancestry_search_ctx := mk_asc (mk_frame node_zero 0) false false.
Definition asc_found : ancestry_search_ctx := mk_asc (mk_frame node_zero 0) true false.
Definition asc_child (e : odfs_node) : ancestry_search_ctx := mk_asc (mk_frame e 0) false true.

Lemma matches_face e : matches (face e) = matches e.
Proof. done. Qed.

(** An enumeration stops at the first entry that is not passed over. *)
Lemma run_search es :
  (Forall passed es ∧ run (ancestry_search_cb target) es asc_none = (ODFS_OK, asc_none) ∧
     delivered (ancestry_search_cb target) es asc_none = zlen es) ∨
  ∃ pre e post, es = pre ++ e :: post ∧ Forall passed pre ∧
    delivered (ancestry_search_cb target) es asc_none = zlen pre + 1 ∧
    (matches e = true ∧ run (ancestry_search_cb target) es asc_none = (ODFS_ERR_EOF, asc_found) ∨
     matches e = false ∧ kind e = ODFS_NODE_DIR ∧ run (ancestry_search_cb target) es asc_none = (ODFS_ERR_EOF, asc_child e)).
Proof.
  induction es as [|e es IH]; [left; by split_and!|].
  assert (Hcb : ancestry_search_cb target e asc_none =
    if matches e then (ODFS_ERR_EOF, asc_found) else if bool_decide (kind e = ODFS_NODE_DIR) then (ODFS_ERR_EOF, asc_child e)
    else (ODFS_OK, asc_none)) by done.
  cbn [run delivered]. rewrite Hcb. destruct (matches e) eqn:Hm.
  { right. exists [], e, es. split_and!; try done. by left. }
  destruct (bool_decide_reflect (kind e = ODFS_NODE_DIR)) as [Hk|Hk].
  { right. exists [], e, es. split_and!; try done. by right. }
  change (err_ok ODFS_OK) with true. cbv iota.
  destruct IH as [(Hp & Hr & Hd)|(pre & e' & post & -> & Hp & Hd & Hr)].
  - left. rewrite Hr, Hd. split_and!; [by constructor|done|simpl; lia].
  - right. exists (e :: pre), e', post. split_and!; [done|by constructor|rewrite Hd; simpl; lia|done].
Qed.

Lemma first_parent_passed below d gp pre es :
  Forall passed pre → first_parent target below d gp (map face pre ++ es) = first_parent target below d gp es.
Proof.
  induction 1 as [|e pre [Hm Hk] _ IH]; [done|]. cbn [map app first_parent].
  change (odfs_node_matches_identity (Some (face e)) (Some target)) with (matches (face e)). rewrite matches_face, Hm.
  rewrite bool_decide_false by done. exact IH.
Qed.
End callback.

(** ** The search *)
Section search.
Context {M H : Type} (be : Z → odfs_backend_ops (world M H)) (meta_malloc : nat → Z → bool) (malloc : nat → bool).
Context (good : world M H → Prop) (listing : Z → Z → odfs_backend_type → list odfs_node).
Context (stands : Z * Z * odfs_backend_type → Z → nat → Prop) (target : odfs_node).
Context (Hmalloc : ∀ n, malloc n = true).
Implicit Types (mnt : odfs_mount_t) (w : world M H).
Abbreviation listing_of k := (listing k.1.1 k.1.2 k.2).
Definition entries_of (d : odfs_node) : list odfs_node := listing_of (node_key d).

(** Every directory of the volume can be enumerated. *)
Record Searchable mnt : Prop := {
  se_serves : Serves be good (λ _, True) listing mnt;
  se_root : enumerable be good (λ _, True) listing stands mnt (backend (mnt_root mnt));
  se_entries : ∀ k e, e ∈ listing_of k → kind e = ODFS_NODE_DIR → enumerable be good (λ _, True) listing stands mnt (backend e);
  se_sizes : ∀ k, zlen (listing_of k) < 2 ^ 31 }.

Lemma searchable_same mnt mnt' : same_volume mnt mnt' → Searchable mnt → Searchable mnt'.
Proof. intros [mc ->] [H1 H2 H3 H4]. split; [by apply serves_set_meta|done|done|done]. Qed.
Lemma same_volume_trans mnt1 mnt2 mnt3 : same_volume mnt1 mnt2 → same_volume mnt2 mnt3 → same_volume mnt1 mnt3.
Proof. intros [m1 ->] [m2 ->]. by exists m2. Qed.
Lemma same_volume_root mnt mnt' : same_volume mnt mnt' → mnt_root mnt' = mnt_root mnt.
Proof. by intros [m ->]. Qed.

Lemma nests_face h d : nests entries_of h (face d) ↔ nests entries_of h d.
Proof. by destruct h. Qed.
Lemma find_parent_face h d gp : find_parent target entries_of h (face d) gp =
  match h with O => None | S h => first_parent target (find_parent target entries_of h) (face d) gp (entries_of d) end.
Proof. by destruct h. Qed.

Definition above mnt (below : list ancestry_frame) : odfs_node :=
  match below with f :: _ => fr_dir f | [] => mnt_root mnt end.
(** The search from a stack, in enough rounds, ends with the parent [r], or comes to the
    frames below the first. *)
Definition comes_to mnt w (top : ancestry_frame) (below : list ancestry_frame) (r : option (odfs_node * odfs_node)) : Prop :=
  ∀ cap allocs err, ∃ n,
  match r with
  | Some (p, g) => ∃ p' g' mnt' w', face p' = p ∧ face g' = g ∧
      ∀ fuel, search_loop be meta_malloc malloc (n + fuel) target mnt w (top :: below) cap allocs err =
        Ret (ODFS_OK, Some (p', g'), mnt', w')
  | None => ∃ mnt' w' cap' allocs', same_volume mnt mnt' ∧ mc_inv listing (meta mnt') ∧ good w' ∧
      ∀ fuel, search_loop be meta_malloc malloc (n + fuel) target mnt w (top :: below) cap allocs err =
        search_loop be meta_malloc malloc fuel target mnt' w' below cap' allocs' ODFS_OK
  end.

(** One round. *)
Lemma round mnt w d c i below cap allocs err :
  Searchable mnt → mc_inv listing (meta mnt) → good w → kind d = ODFS_NODE_DIR →
  enumerable be good (λ _, True) listing stands mnt (backend d) → at_index listing stands (node_key d) c i →
  ∃ L c' mnt' w' cap' allocs', same_volume mnt mnt' ∧ mc_inv listing (meta mnt') ∧ good w' ∧ map face L = entries_of d ∧
  ((Forall (passed target) (drop i L) ∧
    ∀ fuel, search_loop be meta_malloc malloc (S fuel) target mnt w (mk_frame d c :: below) cap allocs err =
      search_loop be meta_malloc malloc fuel target mnt' w' below cap' allocs' ODFS_OK) ∨
   ∃ pre e post, drop i L = pre ++ e :: post ∧ Forall (passed target) pre ∧
     at_index listing stands (node_key d) c' (i + length pre + 1)%nat ∧
     (matches target e = true ∧
      (∀ fuel, search_loop be meta_malloc malloc (S fuel) target mnt w (mk_frame d c :: below) cap allocs err =
        Ret (ODFS_OK, Some (d, above mnt' below), mnt', w')) ∨
      matches target e = false ∧ kind e = ODFS_NODE_DIR ∧
      (∀ fuel, search_loop be meta_malloc malloc (S fuel) target mnt w (mk_frame d c :: below) cap allocs err =
        search_loop be meta_malloc malloc fuel target mnt' w' (mk_frame e 0 :: mk_frame d c' :: below) cap' allocs' ODFS_ERR_EOF))).
Proof.
  intros Hse Hinv Hw Hk Hen Hat.
  destruct (readdir_from be meta_malloc good (λ _, True) listing stands (ancestry_search_cb target) mnt w d asc_none c i)
    as (L & e1 & c' & mnt' & w' & t' & Hrd & Hs & Hinv' & Hw' & HL & Hrun & Hat'); try done.
  { exact (se_serves _ Hse). }
  { intros n t. unfold ancestry_search_cb. by repeat case_test. }
  { exact (se_sizes _ Hse _). }
  exists L, c', mnt', w'. exists (if zlen (mk_frame d c :: below) =? cap then cap * 2 else cap).
  exists (if zlen (mk_frame d c :: below) =? cap then S allocs else allocs).
  split_and!; [done..|].
  assert (Hround : ∀ fuel, search_loop be meta_malloc malloc (S fuel) target mnt w (mk_frame d c :: below) cap allocs err =
    if found t' then Ret (ODFS_OK, Some (d, above mnt' below), mnt', w')
    else if descend t' then search_loop be meta_malloc malloc fuel target mnt' w' (child_frame t' :: mk_frame d c' :: below)
           (if zlen (mk_frame d c :: below) =? cap then cap * 2 else cap) (if zlen (mk_frame d c :: below) =? cap then S allocs else allocs) e1
    else if negb (err_ok e1) then Ret (if bool_decide (e1 = ODFS_ERR_EOF) then ODFS_ERR_NOT_FOUND else e1, None, mnt', w')
    else search_loop be meta_malloc malloc fuel target mnt' w' below
           (if zlen (mk_frame d c :: below) =? cap then cap * 2 else cap) (if zlen (mk_frame d c :: below) =? cap then S allocs else allocs) e1).
  { intros fuel. cbn [search_loop]. rewrite Hmalloc, andb_false_r. fold asc_none. cbn [fr_dir fr_resume]. rewrite Hrd. reflexivity. }
  destruct (run_search target (drop i L)) as [(Hp & Hr & Hd)|(pre & e & post & Heq & Hp & Hd & Hr)].
  - left. split; [done|]. rewrite Hr in Hrun. injection Hrun as <- <-. exact Hround.
  - right. exists pre, e, post. split_and!; [done|done| |].
    + rewrite Hd in Hat'. replace (i + length pre + 1)%nat with (i + Z.to_nat (zlen pre + 1))%nat by lia. done.
    + destruct Hr as [[Hm Hr]|(Hm & Hke & Hr)]; rewrite Hr in Hrun; injection Hrun as <- <-; [by left|by right].
Qed.

Lemma above_same mnt mnt' below : same_volume mnt mnt' → above mnt' below = above mnt below.
Proof. intros Hs. destruct below; [|done]. by apply same_volume_root. Qed.

Lemma search_comes h : ∀ d, nests entries_of h d → ∀ rem i c mnt w below,
  Searchable mnt → mc_inv listing (meta mnt) → good w → kind d = ODFS_NODE_DIR →
  enumerable be good (λ _, True) listing stands mnt (backend d) → at_index listing stands (node_key d) c i →
  (length (drop i (entries_of d)) ≤ rem)%nat →
  comes_to mnt w (mk_frame d c) below
    (first_parent target (find_parent target entries_of (pred h)) (face d) (face (above mnt below)) (drop i (entries_of d))).
Proof.
  induction h as [|h IHh]; intros d Hnest; [done|]. induction rem as [|rem IHrem];
    intros i c mnt w below Hse Hinv Hw Hk Hen Hat Hrem cap allocs err;
    destruct (round mnt w d c i below cap allocs err Hse Hinv Hw Hk Hen Hat)
      as (L & c' & mnt1 & w1 & cap1 & allocs1 & Hs1 & Hinv1 & Hw1 & HL & Hcase);
    assert (Hdrop : drop i (entries_of d) = map face (drop i L)) by (rewrite <- HL; symmetry; apply (fmap_drop face));
    rewrite Hdrop in Hrem |- *; cbn [pred].
  all: destruct Hcase as [[Hp Hround]|(pre & e & post & Heq & Hp & Hat' & Hcase)].
  1, 3: rewrite <- (app_nil_r (map face _)), first_parent_passed by done; exists 1%nat, mnt1, w1, cap1, allocs1;
    split_and!; try done; exact Hround.
  { exfalso. rewrite Heq, length_map, length_app in Hrem. simpl in Hrem. lia. }
  rewrite Heq, map_app, first_parent_passed by done. cbn [map first_parent].
  change (odfs_node_matches_identity (Some (face e)) (Some target)) with (matches target e).
  destruct Hcase as [[Hm Hround]|(Hm & Hke & Hround)]; rewrite Hm.
  { exists 1%nat, d, (above mnt1 below), mnt1, w1. split_and!; [done|by rewrite (above_same mnt)|exact Hround]. }
  rewrite (bool_decide_true (kind (face e) = ODFS_NODE_DIR)) by done.
  assert (Hin : face e ∈ entries_of d).
  { rewrite <- HL. apply list_elem_of_fmap_2. apply list_elem_of_In.
    rewrite <- (take_drop i L), Heq. apply in_or_app. right. apply in_or_app. right. by left. }
  assert (Hnest' : nests entries_of h e) by (apply nests_face, Hnest; done).
  pose proof (searchable_same _ _ Hs1 Hse) as Hse1.
  destruct (se_entries _ Hse1 (node_key d) (face e) Hin Hke) as (p & ctx & Hbe & HLF).
  assert (Hen' : enumerable be good (λ _, True) listing stands mnt1 (backend e)) by (by exists p, ctx).
  assert (Hstart : at_index listing stands (node_key e) 0 0%nat) by (left; apply (lf_start _ _ _ _ _ _ HLF)).
  destruct h as [|h]; [done|].
  destruct (IHh e Hnest' (length (entries_of e)) 0%nat 0 mnt1 w1 (mk_frame d c' :: below) Hse1 Hinv1 Hw1 Hke
    Hen' Hstart (le_n _) cap1 allocs1 ODFS_ERR_EOF) as (n & Hn).
  rewrite drop_0 in Hn. cbn [pred above fr_dir] in Hn. rewrite find_parent_face.
  destruct (first_parent target (find_parent target entries_of h) (face e) (face d) (entries_of e)) as [[p1 g1]|].
  - destruct Hn as (p' & g' & mnt' & w' & Hp' & Hg' & Hn). exists (S n), p', g', mnt', w'. split_and!; [done|done|].
    intros fuel. cbn [Nat.add]. by rewrite Hround, Hn.
  - destruct Hn as (mnt2 & w2 & cap2 & allocs2 & Hs2 & Hinv2 & Hw2 & Hn).
    pose proof (searchable_same _ _ Hs2 Hse1) as Hse2.
    assert (Hpost : map face post = drop (i + length pre + 1) (entries_of d)).
    { rewrite <- HL. change (map face) with (fmap (M := list) face). rewrite <- fmap_drop, <- !drop_drop, Heq. f_equal.
      rewrite drop_app_length. done. }
    destruct (IHrem (i + length pre + 1)%nat c' mnt2 w2 below Hse2 Hinv2 Hw2 Hk) with (cap := cap2) (allocs := allocs2) (err := ODFS_OK)
      as (n2 & Hn2).
    + destruct Hs1 as [? ->]. destruct Hs2 as [? ->]. done.
    + done.
    + rewrite <- Hpost. rewrite Heq, length_map, length_app in Hrem. rewrite length_map. simpl in Hrem. lia.
    + rewrite <- Hpost in Hn2. rewrite (above_same mnt mnt2) in Hn2 by (by eapply same_volume_trans).
      cbn [pred] in Hn2.
      destruct (first_parent _ _ (face d) _ (map face post)) as [[p1 g1]|].
      * destruct Hn2 as (p' & g' & mnt' & w' & Hp' & Hg' & Hn2). exists (S (n + n2)), p', g', mnt', w'. split_and!; [done|done|].
        intros fuel. cbn [Nat.add]. by rewrite Hround, <- Nat.add_assoc, Hn, Hn2.
      * destruct Hn2 as (mnt' & w' & cap' & allocs' & Hs3 & ? & ? & Hn2). exists (S (n + n2)), mnt', w', cap', allocs'.
        split_and!; [exact (same_volume_trans _ _ _ Hs1 (same_volume_trans _ _ _ Hs2 Hs3))|done|done|].
        intros fuel. cbn [Nat.add]. by rewrite Hround, <- Nat.add_assoc, Hn, Hn2.
Qed.
End search.

(** ** Properties *)

(** The search for a parent ends, and answers [ODFS_OK] with the first directory in
    preorder that lists the node, and the directory above it, whatever the metadata
    cache does to the enumerations it is made of.  It answers [ODFS_OK] as well, without
    writing its results, when no directory lists the node. *)
Theorem resolve_parent_search_correct {M H} (be : Z → odfs_backend_ops (world M H)) meta_malloc malloc good listing stands
    target mnt w h :
  (∀ n, malloc n = true) → Searchable be good listing stands mnt → mc_inv listing (meta mnt) → good w →
  kind (mnt_root mnt) = ODFS_NODE_DIR → nests (entries_of listing) h (mnt_root mnt) →
  ∃ n r mnt' w', (∀ fuel, (n ≤ fuel)%nat → odfs_resolve_parent_search be meta_malloc malloc fuel mnt w target = Ret (ODFS_OK, r, mnt', w')) ∧
    (λ '(p, g), (face p, face g)) <$> r = find_parent target (entries_of listing) h (face (mnt_root mnt)) (face (mnt_root mnt)).
Proof.
  intros Hmalloc Hse Hinv Hw Hk Hnest. destruct h as [|h]; [done|].
  destruct (se_root _ _ _ _ _ Hse) as (p & ctx & Hbe & HLF).
  assert (Hstart : at_index listing stands (node_key (mnt_root mnt)) 0 0%nat) by (left; apply (lf_start _ _ _ _ _ _ HLF)).
  destruct (search_comes be meta_malloc malloc good listing stands target Hmalloc (S h) (mnt_root mnt) Hnest _ 0%nat 0 mnt w []
    Hse Hinv Hw Hk (ex_intro _ p (ex_intro _ ctx (conj Hbe HLF))) Hstart (le_n _) 8 1%nat ODFS_ERR_NOT_FOUND) as (n & Hn).
  unfold odfs_resolve_parent_search. rewrite Hmalloc. cbn [negb]. rewrite drop_0 in Hn. cbn [pred above] in Hn.
  rewrite find_parent_face. destruct (first_parent _ _ _ _ _) as [[p1 g1]|].
  - destruct Hn as (p' & g' & mnt' & w' & <- & <- & Hn). exists n, (Some (p', g')), mnt', w'. split; [|done].
    intros fuel Hf. specialize (Hn (fuel - n)%nat). by replace (n + (fuel - n))%nat with fuel in Hn by lia.
  - destruct Hn as (mnt' & w' & cap' & allocs' & _ & _ & _ & Hn). exists (S n), None, mnt', w'. split; [|done].
    intros fuel Hf. specialize (Hn (fuel - n)%nat). replace (n + (fuel - n))%nat with fuel in Hn by lia. rewrite Hn.
    by replace (fuel - n)%nat with (S (fuel - S n)) by lia.
Qed.

(** ** A volume with a directory in a directory

    The backend's cookies are positions. *)
Definition demo_from_readdir : ∀ T, world unit unit → Z → odfs_node → odfs_dir_iter_fn T → T → option Z →
    outcome (odfs_err * option Z * world unit unit * T) :=
  λ T w _ dir cb t resume,
    let i := Z.to_nat (default 0 resume) in
    let es := drop i (demo_list (lba (extent dir)) 0 ODFS_BACKEND_ISO9660) in
    let '(err, t') := run cb es t in
    Ret (err, match resume with None => None | Some _ => Some (Z.of_nat i + delivered cb es t) end, w, t').
Definition demo_from_be (_ : Z) : odfs_backend_ops (world unit unit) :=
  mk_backend ODFS_BACKEND_ISO9660 0 (λ w _, Ret (ODFS_OK, w)) (λ w _ r _, Ret (ODFS_OK, r, 7, w)) None (Some demo_from_readdir)
    None None None None None None.
Definition demo_stands (_ : Z * Z * odfs_backend_type) (c : Z) (i : nat) : Prop := c = Z.of_nat i ∧ (i ≤ 10)%nat.
Definition demo_from_volume : odfs_mount_t :=
  set_meta (odfs_meta_cache_init 65536) (set_active ODFS_BACKEND_ISO9660 1 7 demo_dir mount_zero).

Lemma demo_list_length l : (length (demo_list l 0 ODFS_BACKEND_ISO9660) ≤ 2)%nat.
Proof. unfold demo_list. repeat case_test; simpl; lia. Qed.
Lemma demo_from_lists p ctx : ListsFrom (demo_from_be p) ctx (λ _, True) (λ _, True) demo_list demo_stands.
Proof.
  split.
  - exists demo_from_readdir. split; [done|]. intros T w dir cb t c i _ _ [-> Hi].
    exists (demo_list (lba (extent dir)) 0 ODFS_BACKEND_ISO9660). unfold demo_from_readdir.
    change (default 0 (Some (Z.of_nat i))) with (Z.of_nat i).
    eexists _, w. cbv zeta. rewrite Nat2Z.id. destruct (run cb _ t) as [err t'] eqn:Hrun. split_and!; [reflexivity|done| |].
    + apply demo_list_face.
    + pose proof (delivered_le cb (drop i (demo_list (lba (extent dir)) 0 ODFS_BACKEND_ISO9660)) t) as Hd.
      pose proof (demo_list_length (lba (extent dir))). rewrite length_drop in Hd. split; lia.
  - intros k. split; [done|lia].
  - intros k c i [-> Hi]. split_and!; [lia| |lia].
    destruct i as [|[|[|[|[|[|[|[|[|[|[|i]]]]]]]]]]]; [reflexivity..|lia].
Qed.
Lemma demo_from_searchable : Searchable demo_from_be (λ _, True) demo_list demo_stands demo_from_volume.
Proof.
  assert (Hen : ∀ p ctx, mount_backend_for_type demo_from_be demo_from_volume ODFS_BACKEND_ISO9660 = Some (p, ctx) →
    enumerable demo_from_be (λ _, True) (λ _, True) demo_list demo_stands demo_from_volume ODFS_BACKEND_ISO9660).
  { intros p ctx Hp. exists p, ctx. split; [done|apply demo_from_lists]. }
  split.
  - split; [|done]. intros t p ctx _. eexists. split; [done|]. intros T w dir cb t' _ _.
    exists (demo_list (lba (extent dir)) 0 ODFS_BACKEND_ISO9660), None, w. cbn [demo_from_readdir default].
    unfold demo_from_readdir. cbn. destruct (run cb _ t') as [err t''] eqn:Hrun. split_and!; [done|done|apply demo_list_face|].
    unfold demo_list. repeat case_test; repeat constructor; simpl; unfold ODFS_NAME_MAX; done || lia.
  - apply (Hen 1 7). reflexivity.
  - intros k e He _. assert (Hb : backend e = ODFS_BACKEND_ISO9660).
    { unfold demo_list in He. revert He. repeat case_test; set_unfold; intros; destruct_or?; subst; done. }
    rewrite Hb. apply (Hen 1 7). reflexivity.
  - intros k. change (demo_list k.1.1 k.1.2 k.2) with (demo_list k.1.1 0 ODFS_BACKEND_ISO9660).
    pose proof (demo_list_length k.1.1). lia.
Qed.
Definition demo_main : odfs_node := demo_node [109; 97; 105; 110; 46; 99] ODFS_NODE_FILE 31 100.

Lemma resolve_parent_search_correct_witness :
  ∃ n r mnt' w', (∀ fuel, (n ≤ fuel)%nat → odfs_resolve_parent_search demo_from_be (λ _ _, true) (λ _, true) fuel demo_from_volume
      (mk_world (cache_zero tt) tt) demo_main = Ret (ODFS_OK, r, mnt', w')) ∧
    (λ '(p, g), (face p, face g)) <$> r =
      Some (face (demo_node [83; 82; 67] ODFS_NODE_DIR 21 2048), face demo_dir).
Proof.
  apply (resolve_parent_search_correct demo_from_be (λ _ _, true) (λ _, true) (λ _, True) demo_list demo_stands demo_main
    demo_from_volume (mk_world (cache_zero tt) tt) 2);
    [reflexivity|exact demo_from_searchable|apply init_ok; unfold is_u32; lia|exact I|reflexivity|].
  intros e He Hk e' He' Hk'. exfalso.
  apply elem_of_cons in He as [->|He]; [discriminate Hk|]. apply elem_of_cons in He as [->|He]; [|by apply elem_of_nil in He].
  apply elem_of_cons in He' as [->|He']; [discriminate Hk'|by apply elem_of_nil in He'].
Defined.
