(* ===== verification/IsoBackend.v ===== *)
(** * The ISO 9660 and Joliet readers as backends

    The operation tables of [backends/iso9660/iso9660.c] and
    [backends/joliet/joliet.c]: the readers' functions over the block cache, with
    their contexts in the heap.  Contexts of other backends ([X]) live in the same
    heap; using a pointer that is not a live context of these readers is [Fault]. *)
From stdpp Require Import gmap.
From S2P Require Import Prelude Types Media BlockCache BlockCacheSpec CacheApi Iso9660 Joliet Backend Mount MountProofs.
Open Scope Z_scope.

(** Nothing lives at NULL, which [free] accepts. *)
Abbreviation heap X := (gmap Z (iso_context + X)).

Section backends.
Context {M X : Type} (mops : odfs_media_ops M).
(** [nf_malloc] is for the table of names of an enumeration; [calloc] gives the
    address of a new context, 0 for none. *)
Context (nf_malloc : nat → Z → bool) (calloc : heap X → Z).
Abbreviation W := (world M (heap X)).
#[local] Hint Extern 0 (CacheOps (odfs_cache M)) => exact (block_cache_ops mops) : typeclass_instances.
Abbreviation reader A := (iso_context → odfs_cache M → outcome (A * iso_context * odfs_cache M)).

(** A function of the readers, on the context that [ctx] points to. *)
Definition with_context {A} (w : W) (ctx : Z) (f : reader A) : outcome (A * W) :=
  match w_heap w !! ctx with
  | Some (inl c) => '(a, c, cache) ← f c (w_cache w); Ret (a, mk_world cache (<[ctx := inl c]> (w_heap w)))
  | _ => Fault
  end.
(** [mount] makes a context; [root] and [ctx] are written when it succeeds. *)
Definition mount_context (w : W) (root : odfs_node) (ctx : Z)
    (mount : bool → odfs_cache M → outcome (odfs_err * option (odfs_node * iso_context) * odfs_cache M))
    : outcome (odfs_err * odfs_node * Z * W) :=
  let a := calloc (w_heap w) in
  '(err, r, cache) ← mount (negb (a =? 0)) (w_cache w);
  match r with
  | Some (root, c) => Ret (err, root, a, mk_world cache (<[a := inl c]> (w_heap w)))
  | None => Ret (err, root, ctx, mk_world cache (w_heap w))
  end.

(* [src: backends/iso9660/iso9660.c:423-426 odfs_iso_unmount] *)
Definition odfs_iso_unmount (w : W) (ctx : Z) : outcome W :=
  match w_heap w !! ctx with
  | Some _ => Ret (mk_world (w_cache w) (delete ctx (w_heap w)))
  | None => if ctx =? 0 then Ret w else Fault
  end.

Definition iso_op_readdir (T : Type) (w : W) (ctx : Z) (dir : odfs_node) (cb : odfs_dir_iter_fn T) (t : T) (r : option Z)
    : outcome (odfs_err * option Z * W * T) :=
  '(err, r, t, w) ← with_context w ctx (λ c cache,
     '(err, r, c, cache, t) ← odfs_iso_readdir nf_malloc cb c cache dir t r; Ret (err, r, t, c, cache));
  Ret (err, r, w, t).
Definition iso_op_read (w : W) (_ : Z) (file : odfs_node) (offset : Z) (buf : list Z) (len : Z)
    : outcome (odfs_err * list Z * Z * W) :=
  let '(err, buf, n, cache) := odfs_iso_read (w_cache w) file offset buf len in
  Ret (err, buf, n, mk_world cache (w_heap w)).
Definition iso_op_lookup (w : W) (ctx : Z) (dir : odfs_node) (nm : list Z) : outcome (odfs_err * option odfs_node * W) :=
  with_context w ctx (λ c cache,
    '(err, out, c, cache) ← odfs_iso_lookup nf_malloc c cache dir nm; Ret (err, out, c, cache)).
Definition iso_op_readlink (w : W) (ctx : Z) (dir : odfs_node) (nm : list Z) (n : Z)
    : outcome (odfs_err * option (list Z) * W) :=
  with_context w ctx (λ c cache, '(err, out, c, cache) ← iso_readlink c cache dir nm n; Ret (err, out, c, cache)).
Definition iso_op_resolve_parent (w : W) (ctx : Z) (dir : odfs_node) (want_gp : bool)
    : outcome (odfs_err * option odfs_node * option odfs_node * W) :=
  with_context w ctx (λ c cache,
    '(err, p, g, c, cache) ← odfs_iso_resolve_parent nf_malloc c cache dir want_gp; Ret (err, p, g, c, cache)).
Definition iso_op_volume_name (w : W) (ctx n : Z) : outcome (odfs_err * list Z * W) :=
  with_context w ctx (λ c cache, Ret (odfs_iso_get_volume_name c n, c, cache)).
Definition iso_op_volume_size (w : W) (ctx : Z) : outcome Z :=
  '(n, _) ← with_context w ctx (λ c cache, Ret (odfs_iso_get_volume_size c, c, cache)); Ret n.

(* [src: backends/iso9660/iso9660.c:1060-1076 iso9660_backend_ops] *)
Definition iso9660_backend_ops : odfs_backend_ops W :=
  mk_backend ODFS_BACKEND_ISO9660 ODFS_BACKEND_F_CONTIGUOUS
    (λ w s, '(err, cache) ← iso_probe (w_cache w) s; Ret (err, mk_world cache (w_heap w)))
    (λ w s root ctx, mount_context w root ctx (λ alloc cache, iso_mount alloc cache s))
    (Some odfs_iso_unmount) (Some iso_op_readdir) (Some iso_op_read) (Some iso_op_lookup) (Some iso_op_readlink)
    (Some iso_op_resolve_parent) (Some iso_op_volume_name) (Some iso_op_volume_size).
(* [src: backends/joliet/joliet.c:94-107 joliet_backend_ops] *)
Definition joliet_backend_ops : odfs_backend_ops W :=
  mk_backend ODFS_BACKEND_JOLIET ODFS_BACKEND_F_CONTIGUOUS
    (λ w s, '(err, cache) ← joliet_probe (w_cache w) s; Ret (err, mk_world cache (w_heap w)))
    (λ w s root ctx, mount_context w root ctx (λ alloc cache, joliet_mount alloc cache s))
    (Some odfs_iso_unmount) (Some iso_op_readdir) (Some iso_op_read) (Some iso_op_lookup) None
    (Some iso_op_resolve_parent) (Some iso_op_volume_name) (Some iso_op_volume_size).
(** The table of [core/mount.c] with these two, and [others] for the rest. *)
Definition iso_backends (others : Z → odfs_backend_ops W) (p : Z) : odfs_backend_ops W :=
  match p with 1 => iso9660_backend_ops | 2 => joliet_backend_ops | _ => others p end.
End backends.

(** ** Contexts are made and freed *)

(** The backend a context belongs to: ISO 9660 is 1, Joliet 2. *)
Definition context_owner {X} (owner : X → Z) (c : iso_context + X) : Z :=
  match c with inl c => if joliet c then 2 else 1 | inr x => owner x end.
(** The live contexts of a heap, each with its backend. *)
Definition live_contexts {X} (owner : X → Z) (h : heap X) : list (Z * Z) :=
  map prod_swap (map_to_list (context_owner owner <$> h)).

Section lifecycle.
Context {M X : Type} (mops : odfs_media_ops M) (nf_malloc : nat → Z → bool) (calloc : heap X → Z) (owner : X → Z).
Context (Hcalloc : ∀ h, h !! calloc h = None).
Abbreviation W := (world M (heap X)).
Abbreviation live := (live_contexts owner).
Implicit Types (w : W) (h : heap X).

Lemma live_insert h a c : h !! a = None → live (<[a := c]> h) ≡ₚ (context_owner owner c, a) :: live h.
Proof.
  intros Ha. unfold live_contexts. rewrite fmap_insert.
  rewrite map_to_list_insert by (by rewrite lookup_fmap, Ha). done.
Qed.
Lemma live_delete h a c : h !! a = Some c → live h ≡ₚ (context_owner owner c, a) :: live (delete a h).
Proof. intros Ha. rewrite <- (insert_delete_id h a c) at 1 by done. apply live_insert, lookup_delete_eq. Qed.
Lemma live_lookup h p a : (p, a) ∈ live h → ∃ c, h !! a = Some c ∧ context_owner owner c = p.
Proof.
  unfold live_contexts. intros ([a' p'] & [= -> ->] & Hin)%list_elem_of_fmap.
  apply elem_of_map_to_list in Hin. rewrite lookup_fmap in Hin. by apply fmap_Some in Hin as (c & ? & ->); exists c.
Qed.

(** What the readers' mounts return. *)
Definition mounts_as {C} (alloc j : bool) (r : odfs_err * option (odfs_node * iso_context) * C) : Prop :=
  match r with
  | (err, Some (root, ctx), _) => err = ODFS_OK ∧ alloc = true ∧ joliet ctx = j
  | (err, None, _) => err ≠ ODFS_OK
  end.
Lemma mount_vd_context {C} {HO : CacheOps C} alloc (c : C) s vd j :
  after (odfs_iso_mount_vd alloc c s vd j) (mounts_as alloc j).
Proof.
  unfold odfs_iso_mount_vd. destruct alloc; [|by apply after_ret]. cbn [negb].
  destruct (bc_read c vd) as [[err p] c1]. case_test; [apply after_ret; simpl; by apply err_ok_false, negb_true_iff|].
  do 3 (eapply after_bind; [apply after_any|]; intros ? _). destruct (iso_locate_root _ _) as [rlba ss].
  eapply after_bind; [apply after_any|]. intros time _.
  eapply (after_bind _ _ (λ '(ctx, _, _), joliet ctx = j)).
  - case_test; [|by apply after_ret]. unfold iso_detect_rr. destruct (bc_read c1 _) as [[e2 q] c2].
    case_test; [by apply after_ret|]. do 2 (eapply after_bind; [apply after_any|]; intros ? _).
    case_test; [|by apply after_ret]. eapply after_bind; [apply after_any|]. intros [skip|] _; [|by apply after_ret].
    eapply after_bind; [apply after_any|]. intros [rr c3] _. by apply after_ret.
  - intros [[ctx root] c2] Hj. by apply after_ret.
Qed.
Lemma joliet_mount_context {C} {HO : CacheOps C} alloc (c : C) s : after (joliet_mount alloc c s) (mounts_as alloc true).
Proof.
  unfold joliet_mount. eapply after_bind; [apply after_any|]. intros [[err l] c1] _.
  case_test; [apply after_ret; simpl; by apply err_ok_false, negb_true_iff|]. apply mount_vd_context.
Qed.

Lemma mount_context_live (p : Z) w root ctx mount :
  (∀ alloc cache, after (mount alloc cache) (mounts_as alloc (p =? 2))) → p = 1 ∨ p = 2 →
  after (mount_context (M := M) calloc w root ctx mount) (λ '(err, _, ctx', w'),
    if err_ok err then ctx' ≠ 0 ∧ live (w_heap w') ≡ₚ (p, ctx') :: live (w_heap w)
    else ctx' = ctx ∧ live (w_heap w') ≡ₚ live (w_heap w)).
Proof.
  intros Hm Hp. unfold mount_context. eapply after_bind; [apply Hm|]. intros [[err [[r c]|]] cache]; simpl.
  - intros (-> & Ha & Hj). apply after_ret. change (err_ok ODFS_OK) with true. cbv iota. b2p. split; [done|]. simpl.
    rewrite live_insert by done. simpl. rewrite Hj. by destruct Hp as [-> | ->].
  - intros He%err_ok_false. apply after_ret. by rewrite He.
Qed.
Lemma unmount_context_live (p : Z) w ctx :
  (p, ctx) ∈ live (w_heap w) → yields (odfs_iso_unmount w ctx) (λ w', live (w_heap w) ≡ₚ (p, ctx) :: live (w_heap w')).
Proof.
  intros Hin. apply live_lookup in Hin as (c & Hc & <-). unfold odfs_iso_unmount. rewrite Hc. apply yields_ret. simpl. by apply live_delete.
Qed.

Lemma with_context_live {A} w ctx (f : iso_context → odfs_cache M → outcome (A * iso_context * odfs_cache M)) :
  (∀ c cache, after (f c cache) (λ '(_, c', _), joliet c' = joliet c)) →
  after (with_context w ctx f) (λ '(_, w'), live (w_heap w') = live (w_heap w)).
Proof.
  intros Hf. unfold with_context. destruct (w_heap w !! ctx) as [[c|x]|] eqn:Hc; [|done|done].
  eapply after_bind; [apply Hf|]. intros [[a c'] cache] Hj. apply after_ret. simpl. unfold live_contexts.
  rewrite fmap_insert, insert_id; [done|]. rewrite lookup_fmap, Hc. simpl. by rewrite Hj.
Qed.

(** The lifecycle of the two backends, next to any others'. *)
Context (others : Z → odfs_backend_ops W) `{Ho : !Lifecycle others live}.
#[export] Instance iso_lifecycle : Lifecycle (iso_backends mops nf_malloc calloc others) live.
Proof.
  split.
  - intros p w s. unfold iso_backends. repeat case_match; subst; try apply Ho.
    all: eapply after_bind; [apply after_any|]; intros [err cache] _; by apply after_ret.
  - intros p w s r c. unfold iso_backends. repeat case_match; subst; try apply Ho.
    + apply (mount_context_live 2); [|by right]. intros alloc cache. apply joliet_mount_context.
    + apply (mount_context_live 1); [|by left]. intros alloc cache. apply mount_vd_context.
  - intros p Hp. unfold iso_backends. repeat case_match; subst; try done; by apply Ho.
  - intros p w c f. unfold iso_backends. repeat case_match; subst; try apply Ho.
    all: intros [= <-]; apply unmount_context_live.
  - intros p w c n f. unfold iso_backends. repeat case_match; subst; try apply Ho.
    all: intros [= <-]; unfold iso_op_volume_name; eapply after_weaken;
      [apply with_context_live; intros c' cache; by apply after_ret|intros [[e v] w'] Hw; by rewrite Hw].
Qed.
End lifecycle.
