(* ===== verification/IsoVolume.v ===== *)
(** * Probing and mounting through the cache

    Probing and mounting an ISO 9660 or Joliet tree leave the cache coherent,
    whatever the disc holds, and a mounted tree without Rock Ridge has a directory
    for its root. *)
From stdpp Require Import gmap.
From S2P Require Import Prelude Types Strings Media CacheApi BlockCache BlockCacheProofs BlockCacheRead BlockCacheSpec RockRidge RockRidgeProofs RockRidgeTotal.
From S2P Require Import Iso9660 Joliet IsoScan IsoReaddir IsoTransparent IsoResume IsoSpec Backend MetaCache MetaCacheProofs MetaCacheSpec IsoListing.
From S2P Require Import Session Mount MountProofs MountSpec Ancestry AncestrySpec IsoBackend.
Open Scope Z_scope.

(** What a mount says of its context and root. *)
Definition mounted_tree (root : odfs_node) (ctx : iso_context) : Prop :=
  0 ≤ rr_skip ctx ∧
  (has_rock_ridge ctx = false → kind root = ODFS_NODE_DIR ∧
     backend root = (if joliet ctx then ODFS_BACKEND_JOLIET else ODFS_BACKEND_ISO9660)).

Lemma rr_detect_skip fuel sua n pos : Forall is_byte sua →
  after (rr_detect_loop fuel sua n pos) (λ r, ∀ s, r = Some s → 0 ≤ s).
Proof.
  intros Hb. revert pos. induction fuel as [|fuel IH]; intros pos; cbn [rr_detect_loop]; [done|].
  case_test; [by apply after_ret|]. do 2 (eapply after_bind; [apply after_any|]; intros ? _).
  case_test; [by apply after_ret|]. case_test; [|apply IH]. do 2 (eapply after_bind; [apply after_any|]; intros ? _).
  case_test; [|apply IH]. eapply after_bind; [apply lands_after; by apply (lands_rd is_byte)|]. intros s Hs.
  apply after_ret. intros ? [= <-]. unfold is_byte in Hs. lia.
Qed.

Section mounted.
Context {C : Type} {HO : CacheOps C} (img : Z → list Z) (inv ok : C → Prop) (ptr : C → Z → Prop).
Context {HL : CacheLaws C img 2048 inv ok ptr} {HF : CacheCleanFailure C ok ptr}.
Context (Hbytes : ∀ lba, Forall is_byte (img lba)).
Abbreviation read_ok := (read_later img inv ok ptr).

Lemma iso_probe_keeps c s : ok c → after (iso_probe c s) (λ '(_, c'), ok c').
Proof.
  intros Hok. unfold iso_probe. destruct (bc_read c _) as [[err p] c1] eqn:Hr.
  destruct (read_ok _ _ _ _ _ Hok (u32_range _) Hr) as [[Hok1 _] _]. case_test; [by apply after_ret|].
  eapply after_bind; [apply after_any|]. intros is_iso _. case_test.
  - eapply after_bind; [apply after_any|]. intros is_hs _. case_test; [|by apply after_ret].
    eapply after_bind; [apply after_any|]. intros ty _. by apply after_ret.
  - eapply after_bind; [apply after_any|]. intros ty _. by apply after_ret.
Qed.
Lemma find_svd_keeps fuel s : ∀ c l, ok c → is_u32 l →
  after (find_svd_loop fuel c s l) (λ '(_, l', c'), ok c' ∧ is_u32 l').
Proof.
  induction fuel as [|fuel IH]; intros c l Hok Hl; cbn [find_svd_loop]; [done|].
  destruct (bc_read c l) as [[err p] c1] eqn:Hr. destruct (read_ok _ _ _ _ _ Hok Hl Hr) as [[Hok1 _] _].
  assert (is_u32 0) by done. case_test; [by apply after_ret|].
  eapply after_bind; [apply after_any|]. intros is_iso _. case_test; [by apply after_ret|].
  eapply after_bind; [apply after_any|]. intros ty _. case_test; [by apply after_ret|].
  eapply after_bind; [apply after_any|]. intros esc _. case_test; [by apply after_ret|].
  case_test; [by apply after_ret|]. apply IH; [done|apply u32_range].
Qed.
Lemma joliet_probe_keeps c s : ok c → after (joliet_probe c s) (λ '(_, c'), ok c').
Proof.
  intros Hok. unfold joliet_probe. eapply after_bind; [apply find_svd_keeps; [done|apply u32_range]|].
  intros [[err l] c1] [Hok1 _]. by apply after_ret.
Qed.

Lemma parse_pvd_root sector hs j : Forall is_byte sector →
  after (iso_parse_pvd sector hs j) (λ i, is_u32 (root_dir_lba i) ∧ Forall is_byte (root_dir_record i)).
Proof.
  intros Hb. unfold iso_parse_pvd.
  case_test; do 5 (eapply after_bind; [apply after_any|]; intros ? _);
    (eapply after_bind; [apply lands_after; by apply (lands_range is_byte)|]; intros rec [_ Hrec]);
    (eapply after_bind; [apply lands_after; by apply lands_le32|]; intros l Hl);
    (eapply after_bind; [apply after_any|]; intros ? _); by apply after_ret.
Qed.
Lemma locate_root_range s l : is_u32 l → is_u32 (iso_locate_root s l).1.
Proof. unfold iso_locate_root. intros Hl. case_test; [apply u32_range|done]. Qed.

Lemma detect_rr_keeps c ctx root :
  ok c → is_u32 (root_dir_lba (pvd ctx)) → rr_skip ctx = 0 → has_rock_ridge ctx = false →
  after (iso_detect_rr c ctx root) (λ '(ctx', root', c'), ok c' ∧ 0 ≤ rr_skip ctx' ∧ joliet ctx' = joliet ctx ∧
    (has_rock_ridge ctx' = false → root' = root)).
Proof.
  intros Hok Hl Hs Hp. unfold iso_detect_rr. destruct (bc_read c _) as [[err p] c1] eqn:Hr.
  destruct (read_ok _ _ _ _ _ Hok Hl Hr) as [[Hok1 _] Hp1].
  assert (Hno : after (Ret (ctx, root, c1)) (λ '(ctx', root', c'), ok c' ∧ 0 ≤ rr_skip ctx' ∧ joliet ctx' = joliet ctx ∧
    (has_rock_ridge ctx' = false → root' = root))) by (apply after_ret; rewrite Hs; by split_and!).
  case_test; [done|]. b2p. specialize (Hp1 (proj1 (err_ok_true _) E)).
  assert (Hb : Forall is_byte (bc_data c1 p)) by by eapply data_bytes.
  do 2 (eapply after_bind; [apply after_any|]; intros ? _). case_test; [|done].
  eapply after_bind; [apply rr_detect_skip; by apply Forall_mem_at|]. intros [skip|] Hskip; [|done].
  specialize (Hskip skip eq_refl).
  eapply after_bind; [apply lands_after; by apply (rr_parse_lands img inv ok ptr Hbytes)|]. intros [rr c2] [_ [Hok2 _]].
  apply after_ret. by split_and!.
Qed.
Lemma mount_vd_keeps alloc c s vd j : ok c → is_u32 vd →
  after (odfs_iso_mount_vd alloc c s vd j) (λ '(err, r, c'), ok c' ∧ ∀ root ctx, r = Some (root, ctx) → mounted_tree root ctx).
Proof.
  intros Hok Hvd. unfold odfs_iso_mount_vd. case_test; [by apply after_ret|].
  destruct (bc_read c vd) as [[err p] c1] eqn:Hr. destruct (read_ok _ _ _ _ _ Hok Hvd Hr) as [[Hok1 _] Hp1].
  case_test; [by apply after_ret|]. b2p. specialize (Hp1 (proj1 (err_ok_true _) E0)).
  assert (Hb : Forall is_byte (bc_data c1 p)) by by eapply data_bytes.
  do 2 (eapply after_bind; [apply after_any|]; intros ? _).
  eapply after_bind; [by apply parse_pvd_root|]. intros info [Hl _].
  pose proof (locate_root_range s _ Hl) as Hl'. destruct (iso_locate_root s _) as [rlba ss]. simpl in Hl'.
  eapply after_bind; [apply after_any|]. intros time _. set (root := mk_node _ _ _ _ _ _ _ _ _ _ _ _).
  set (ctx := mk_iso _ _ _ _ _ _ _ _ _).
  eapply (after_bind _ _ (λ '(ctx', root', c'), ok c' ∧ 0 ≤ rr_skip ctx' ∧ joliet ctx' = joliet ctx ∧
    (has_rock_ridge ctx' = false → root' = root))).
  - case_test; [by apply detect_rr_keeps|]. by apply after_ret.
  - intros [[ctx' root'] c2] (Hok2 & Hs & Hj & Hroot). apply after_ret. split; [done|].
    intros ? ? [= <- <-]. split; [done|]. simpl. intros Hp. by rewrite (Hroot Hp), Hj.
Qed.
Lemma joliet_mount_keeps alloc c s : ok c →
  after (joliet_mount alloc c s) (λ '(err, r, c'), ok c' ∧ ∀ root ctx, r = Some (root, ctx) → mounted_tree root ctx).
Proof.
  intros Hok. unfold joliet_mount. eapply after_bind; [apply find_svd_keeps; [done|apply u32_range]|].
  intros [[err l] c1] [Hok1 Hl]. case_test; [by apply after_ret|]. by apply mount_vd_keeps.
Qed.
End mounted.

(** * A mounted ISO 9660 or Joliet volume, end to end

    The two backends keep the interfaces the mount layer is proved against:
    enumeration and lookup are those of the disc's listings ([Serves], [ListsFrom]),
    mounting establishes what they need ([Keeps]).  So path resolution and reading on
    a mounted volume, through both caches, are about the disc. *)

Section volume.
Context {M X : Type} (mops : odfs_media_ops M) (img : Z → list Z).
Context {Hmedia : MediaReads mops img 2048} (Hclean : CleanFailure mops) (Hbytes : ∀ l, Forall is_byte (img l)).
Context (nf_malloc : nat → Z → bool) (calloc : heap X → Z) (Hcalloc : ∀ h : heap X, h !! calloc h = None).
Context (others : Z → odfs_backend_ops (world M (heap X))).
Abbreviation W := (world M (heap X)).
Abbreviation be := (iso_backends mops nf_malloc calloc others).
Abbreviation readable := (medium_readable mops 2048).
#[local] Hint Extern 0 (CacheOps (odfs_cache M)) => exact (block_cache_ops mops) : typeclass_instances.
#[local] Instance sectors_laws : CacheLaws (odfs_cache M) img 2048 (λ c, cache_wf c ∧ sector_size c = 2048) (cache_ok img 2048) live :=
  block_cache_laws mops img 2048 Hmedia eq_refl.
#[local] Instance sectors_clean : CacheCleanFailure (odfs_cache M) (cache_ok img 2048) live :=
  block_cache_clean mops img 2048 Hmedia Hclean.
#[local] Instance sectors_readable : CacheReadable (odfs_cache M) (cache_ok img 2048) readable :=
  block_cache_readable mops img 2048 Hmedia.
Implicit Types (w : W).

(** ** Mounting *)

(** The cache shows the disc. *)
Definition cached w : Prop := cache_ok img 2048 (w_cache w).
(** A tree of these backends has a live context. *)
Definition iso_mounted (p c : Z) (r : odfs_node) w : Prop :=
  cached w ∧ (p = 1 ∨ p = 2 → ∃ ctx, w_heap w !! c = Some (inl ctx) ∧ mounted_tree r ctx).

Lemma mount_context_keeps p j w root ctx mount :
  (∀ alloc c, cache_ok img 2048 c → after (mount alloc c) (λ '(err, r, c'), cache_ok img 2048 c' ∧
    ∀ root ctx, r = Some (root, ctx) → mounted_tree root ctx)) →
  (∀ alloc c, after (mount alloc c) (mounts_as alloc j)) →
  cached w → after (mount_context (M := M) calloc w root ctx mount) (λ '(err, r', c', w'),
    cached w' ∧ (err_ok err = true → iso_mounted p c' r' w')).
Proof.
  intros Hm Ha Hw. unfold mount_context. eapply after_bind; [by apply after_and; [apply Hm|apply Ha]|].
  intros [[err [[r c]|]] cache] [[Hok Ht] Hr].
  - apply after_ret. split; [done|]. intros _. split; [done|]. intros _. exists c. split; [apply lookup_insert_eq|by apply Ht].
  - apply after_ret. split; [done|]. intros ->%err_ok_true. by destruct Hr.
Qed.
#[export] Instance iso_keeps : Keeps others cached (λ _ _ _, cached) → Keeps be cached iso_mounted.
Proof.
  intros Ho. split.
  - intros p w s Hw. unfold iso_backends. repeat case_match; subst; try (by apply kp_probe).
    + eapply after_bind; [by apply (joliet_probe_keeps img _ _ live)|]. intros [err c] Hc. by apply after_ret.
    + eapply after_bind; [by apply (iso_probe_keeps img _ _ live)|]. intros [err c] Hc. by apply after_ret.
  - intros p w s r c Hw.
    pose proof (kp_mount (be := others) (P := λ _ _ _, cached) p w s r c Hw) as Hother.
    unfold iso_backends. repeat case_match; subst;
      try (eapply after_weaken; [exact Hother|]; intros [[[e r'] c'] w'] [? _]; split; [done|]; intros _; split; [done|]; intros [?|?]; lia).
    + eapply (mount_context_keeps 2 true); [|by intros; apply joliet_mount_context|done].
      intros alloc cache Hc. by apply (joliet_mount_keeps img _ _ live).
    + eapply (mount_context_keeps 1 false); [|by intros; apply mount_vd_context|done].
      intros alloc cache Hc. apply (mount_vd_keeps img _ _ live); [done|done|apply u32_range].
  - intros p w c f. unfold iso_backends. repeat case_match; subst; try (by apply kp_unmount);
      intros [= <-] Hw; unfold odfs_iso_unmount; (destruct (w_heap w !! c); [by apply after_ret|]); case_test; [by apply after_ret|done|by apply after_ret|done].
  - intros p w c r n f Hf [Hw Hc].
    assert (Hiso : p = 1 ∨ p = 2 → after (iso_op_volume_name w c n) (λ '(_, _, w'), iso_mounted p c r w')).
    { intros Hp. destruct (Hc Hp) as (ctx & Hl & Ht). unfold iso_op_volume_name, with_context. rewrite Hl.
      apply after_ret. split; [done|]. intros _. exists ctx. split; [apply lookup_insert_eq|done]. }
    revert Hf. unfold iso_backends. repeat case_match; subst;
      try (intros Hf; eapply after_weaken; [by eapply (kp_volume_name _ w c r n f Hf)|]; intros [[e v] w'] Hw'; split; [exact Hw'|]; intros [?|?]; lia).
    + intros [= <-]. apply Hiso. by right.
    + intros [= <-]. apply Hiso. by left.
  - intros m w Hw. by apply (set_media_ok img 2048).
Qed.

(** ** Requests *)
Context (ctx0 : iso_context) (Hplain : has_rock_ridge ctx0 = false) (Hskip : 0 ≤ rr_skip ctx0).
Context (mnt : odfs_mount_t) (Hmaps : own_maps mnt) (Hops : mnt_ops mnt = 1 ∨ mnt_ops mnt = 2).
Abbreviation listable := (iso_listable img nf_malloc readable ctx0).
Abbreviation listing := (iso_listing img nf_malloc ctx0).

(** The volume's context is [ctx0], node numbers apart. *)
Definition volume_good w : Prop :=
  cached w ∧ ∃ c, w_heap w !! mnt_ctx mnt = Some (inl c) ∧ same_mount ctx0 c.

(** A reader's function on that context. *)
Lemma with_context_good {A} w (f : iso_context → odfs_cache M → outcome (A * iso_context * odfs_cache M)) (Q : A → Prop) :
  volume_good w →
  (∀ c cache, same_mount ctx0 c → cache_ok img 2048 cache →
     yields (f c cache) (λ '(a, c', cache'), cache_ok img 2048 cache' ∧ same_mount c c' ∧ Q a)) →
  yields (with_context w (mnt_ctx mnt) f) (λ '(a, w'), volume_good w' ∧ Q a).
Proof.
  intros [Hw (c & Hc & Hs)] Hf. unfold with_context. rewrite Hc.
  eapply yields_bind; [by apply Hf|]. intros [[a c'] cache'] (Hok & Hs' & HQ). apply yields_ret.
  split; [|done]. split; [done|]. exists c'. split; [apply lookup_insert_eq|]. by eapply same_mount_trans.
Qed.
(** What a run of the callback over the rest of a directory comes to. *)
Definition ran {T} (cb : odfs_dir_iter_fn T) dir t (r0 : option Z) (i : nat) (r : odfs_err * option Z * T) : Prop :=
  ∃ L c1, r = ((run cb (drop i L) t).1, (λ _, c1) <$> r0, (run cb (drop i L) t).2) ∧
    map face L = listing (lba (extent dir)) (length_ (extent dir)) (backend dir) ∧ Forall node_wf L ∧
    before_entry (length_ (extent dir)) (iso_ends img nf_malloc ctx0 (lba (extent dir)) (length_ (extent dir)) (backend dir))
      c1 (i + Z.to_nat (delivered cb (drop i L) t)).
Lemma op_readdir_good {T} (cb : odfs_dir_iter_fn T) w dir t r0 i :
  volume_good w → listable dir →
  before_entry (length_ (extent dir)) (iso_ends img nf_malloc ctx0 (lba (extent dir)) (length_ (extent dir)) (backend dir)) (default 0 r0) i →
  yields (iso_op_readdir mops nf_malloc T w (mnt_ctx mnt) dir cb t r0)
    (λ '(e, r, w', t'), volume_good w' ∧ ran cb dir t r0 i (e, r, t')).
Proof.
  intros Hw Hd Hb. unfold iso_op_readdir.
  eapply yields_bind; [apply (with_context_good w _ (ran cb dir t r0 i) Hw)|].
  - intros c cache Hs Hok.
    destruct (iso_readdir_run img Hbytes (mr_sector_length (ops := mops)) nf_malloc _ _ live readable ctx0 Hplain Hskip cb c cache dir t r0 i Hok Hs Hd Hb)
      as (L & c1 & c' & cache' & -> & Hok' & Hs' & HL & Hwf & Hb'). cbn [mbind outcome_bind]. apply yields_ret.
    split_and!; try done. by exists L, c1.
  - intros [[[e r] t'] w'] Hr. by apply yields_ret.
Qed.
Lemma op_lookup_good w dir nm : volume_good w → listable dir → is_name nm →
  yields (iso_op_lookup mops nf_malloc w (mnt_ctx mnt) dir nm) (λ '(err, out, w'), volume_good w' ∧
    face <$> out = listed (listing (lba (extent dir)) (length_ (extent dir)) (backend dir)) nm ∧
    err = match out with Some _ => ODFS_OK | None => ODFS_ERR_NOT_FOUND end).
Proof.
  intros Hw Hd Hnm. unfold iso_op_lookup.
  eapply yields_weaken; [apply (with_context_good w _ (λ '(err, out),
    face <$> out = listed (listing (lba (extent dir)) (length_ (extent dir)) (backend dir)) nm ∧
    err = match out with Some _ => ODFS_OK | None => ODFS_ERR_NOT_FOUND end) Hw)|by intros [[err out] w']].
  intros c cache Hs Hok.
  destruct (iso_lookup_run img Hbytes (mr_sector_length (ops := mops)) nf_malloc _ _ live readable ctx0 Hplain Hskip c cache dir nm Hok Hs Hd Hnm)
    as (err & out & c' & cache' & -> & Hok' & Hs' & Hq). cbn [mbind outcome_bind]. by apply yields_ret.
Qed.

Lemma own_backend t p c : mount_backend_for_type be mnt t = Some (p, c) → p = mnt_ops mnt ∧ c = mnt_ctx mnt.
Proof.
  destruct Hmaps as (_ & _ & Hm). unfold mount_backend_for_type. repeat case_test; try done; intros [= <- <-]; [|done].
  b2p. by destruct (Hm (backend_code t)) as [?|[= -> ->]].
Qed.
(** The operations the two backends share. *)
Lemma own_operations : be_readdir (be (mnt_ops mnt)) = Some (iso_op_readdir mops nf_malloc) ∧
  be_lookup (be (mnt_ops mnt)) = Some (iso_op_lookup mops nf_malloc) ∧ be_read (be (mnt_ops mnt)) = Some (iso_op_read mops).
Proof. by destruct Hops as [-> | ->]. Qed.

Lemma iso_serves : Serves be volume_good listable listing mnt.
Proof.
  destruct own_operations as (Hrd & Hlk & _). split.
  - intros t p c [-> ->]%own_backend. eexists. split; [exact Hrd|]. intros T w dir cb t' Hw Hd.
    destruct (op_readdir_good cb w dir t' None 0 Hw Hd) as ([[[e r] w'] t''] & -> & Hw' & L & c1 & [= -> -> ->] & HL & Hwf & _);
      [by left|]. rewrite drop_0. by eexists L, _, w'.
  - intros t p c lookup w dir nm [-> ->]%own_backend Hl Hw Hd Hnm. rewrite Hlk in Hl. injection Hl as <-.
    by apply op_lookup_good.
Qed.

(** Cookies are offsets; below [2 ^ 31] they are not taken for the metadata cache's. *)
Definition resumable (dir : odfs_node) : Prop :=
  listable dir ∧ 0 ≤ length_ (extent dir) < 2 ^ 31 ∧
  Forall (λ e, e < 2 ^ 31) (iso_ends img nf_malloc ctx0 (lba (extent dir)) (length_ (extent dir)) (backend dir)).
Definition iso_stands (k : Z * Z * odfs_backend_type) (c : Z) (i : nat) : Prop :=
  before_entry k.1.2 (iso_ends img nf_malloc ctx0 k.1.1 k.1.2 k.2) c i ∧
  0 ≤ c ∧ Z.land c ODFS_META_COOKIE_TAG = 0 ∧ (c = 0 → i = 0%nat).
Lemma stands_after dir c i : resumable dir →
  before_entry (length_ (extent dir)) (iso_ends img nf_malloc ctx0 (lba (extent dir)) (length_ (extent dir)) (backend dir)) c i →
  iso_stands (node_key dir) c i.
Proof.
  intros ((HD & _) & Hsz & Hends) Hb. split; [exact Hb|].
  pose proof (scan_entries img Hbytes (mr_sector_length (ops := mops)) nf_malloc
    (odfs_iso_dir_stub (backend dir) (lba (extent dir)) (length_ (extent dir))) ctx0 Hplain Hskip HD) as Hall.
  unfold iso_ends in *. set (S := (disc_scan _ _ _ _).1) in *. rewrite Forall_map in Hends.
  assert (Hc : 0 ≤ c < 2 ^ 31 ∧ (c = 0 → i = 0%nat)).
  { destruct Hb as [[-> ->]|[[Hi Hne]|[-> ->]]]; [done| |].
    - apply list_lookup_fmap_Some in Hi as (x & -> & Hx).
      pose proof (Forall_lookup_1 _ _ _ _ Hends Hx) as H1. destruct (Forall_lookup_1 _ _ _ _ Hall Hx) as (H2 & H3 & _).
      simpl in H1. lia.
    - rewrite length_map. destruct S as [|x S]; [done|].
      apply Forall_cons in Hall as [(H1 & _) _]. change (length_ (extent (odfs_iso_dir_stub _ _ _))) with (length_ (extent dir)) in H1. lia. }
  destruct Hc as [Hc Hz]. split_and!; [lia|by apply untagged|done].
Qed.
Lemma iso_lists_from t p c : mount_backend_for_type be mnt t = Some (p, c) →
  ListsFrom (be p) c volume_good resumable listing iso_stands.
Proof.
  intros [-> ->]%own_backend. destruct own_operations as (Hrd & _ & _). split.
  - eexists. split; [exact Hrd|]. intros T w dir cb t' c i Hw Hd [Hb _].
    destruct (op_readdir_good cb w dir t' (Some c) i Hw (proj1 Hd) Hb)
      as ([[[e r] w'] t''] & -> & Hw' & L & c1 & [= -> -> ->] & HL & Hwf & Hb').
    exists L, c1, w'. split_and!; try done. by apply stands_after.
  - intros k. split_and!; try done. by left.
  - intros k c i (_ & ? & ? & ?). done.
Qed.

(** Reading a file gives the disc's bytes. *)
Lemma iso_read_good w file offset buf len err buf' n w' :
  cached w → is_u32 (lba (extent file)) → lba (extent file) + size file / 2048 < 2 ^ 32 → 0 ≤ offset → 0 ≤ len ≤ zlen buf →
  odfs_read be mnt w file offset buf len = Ret (err, buf', n, w') →
  0 ≤ n ≤ len ∧ (err = ODFS_OK →
     n = Z.max 0 (Z.min len (size file - offset)) ∧
     take (Z.to_nat n) buf' = disc_bytes img 2048 (lba (extent file) * 2048 + offset) n ∧
     drop (Z.to_nat n) buf' = drop (Z.to_nat n) buf).
Proof.
  intros Hw Hl Hfit Ho Hlen. unfold odfs_read, backend_with. case_test; [intros [= <- <- <- <-]; split; [lia|done]|].
  destruct (mount_backend_for_type be mnt (backend file)) as [[p c]|] eqn:Hbe; [|intros [= <- <- <- <-]; split; [lia|done]].
  apply own_backend in Hbe as [-> ->]. destruct own_operations as (_ & _ & ->). unfold iso_op_read.
  destruct (odfs_iso_read (w_cache w) file offset buf len) as [[[e b] k] cache] eqn:Hr. intros [= <- <- <- <-].
  destruct (iso_read_ok img _ (cache_ok img 2048) live (w_cache w) file offset buf len e b k cache _ Hw Hl Hfit Ho Hlen Hr) as [Hn Hok].
  split; [done|]. intros He. by destruct (Hok He) as (? & ? & ? & _).
Qed.
End volume.

(** ** Trees *)

(** [dirs] are the directories of a tree on the disc: each can be enumerated, and has
    its subdirectories among them. *)
Record disc_tree (img : Z → list Z) (nf_malloc : nat → Z → bool) (readable : Z → Prop) (ctx : iso_context)
    (root : odfs_node) (dirs : odfs_node → Prop) : Prop := {
  dt_listable : ∀ n, dirs n → iso_listable img nf_malloc readable ctx n;
  dt_root : dirs root;
  dt_entry : ∀ n m, dirs n → m ∈ iso_listing img nf_malloc ctx (lba (extent n)) (length_ (extent n)) (backend n) →
    kind m = ODFS_NODE_DIR → dirs m;
  dt_face : ∀ n, dirs (face n) → dirs n }.

Lemma serves_mono {M H} (be : Z → odfs_backend_ops (world M H)) good (l l' : odfs_node → Prop) listing mnt :
  (∀ n, l' n → l n) → Serves be good l listing mnt → Serves be good l' listing mnt.
Proof.
  intros Hll [H1 H2]. split.
  - intros t p c Hb. destruct (H1 t p c Hb) as (readdir & Hr & Hlist). exists readdir. split; [done|].
    intros T w dir cb t' Hw Hd. by apply Hlist; [|apply Hll].
  - intros. by apply (H2 t p ctx); [..|apply Hll|].
Qed.
Lemma tree_listable img nf_malloc readable ctx dirs mnt :
  disc_tree img nf_malloc readable ctx (mnt_root mnt) dirs → own_roots mnt → Listable dirs (iso_listing img nf_malloc ctx) mnt.
Proof.
  intros [H1 H2 H3 H4] (_ & _ & Hr). split; [done| |done|done]. intros i r Hh Hv _. by rewrite (Hr i r Hh Hv).
Qed.

(** ** Properties *)
Section properties.
Context {M X : Type} (mops : odfs_media_ops M) (img : Z → list Z) (nf_malloc : nat → Z → bool) (calloc : heap X → Z)
  (others : Z → odfs_backend_ops (world M (heap X))).
Abbreviation be := (iso_backends mops nf_malloc calloc others).

(** A volume mounted from the medium [m], by one of the two backends, without Rock
    Ridge; the other backends leave the cache showing the disc. *)
Record iso_mount_of (m : M) (mnt : odfs_mount_t) (w : world M (heap X)) (ctx : iso_context) : Prop := {
  im_others : Keeps others (cached img) (λ _ _ _, cached img);
  im_mounted : ∃ malloc fuel ts ss h o, 0 ≤ cache_blocks (default odfs_mount_opts_default o) ∧
    odfs_mount mops be malloc fuel ts ss m h o = Ret (ODFS_OK, mnt, w);
  im_backend : mnt_ops mnt = 1 ∨ mnt_ops mnt = 2;
  im_context : w_heap w !! mnt_ctx mnt = Some (inl ctx);
  im_plain : has_rock_ridge ctx = false }.

Context (Hmedia : MediaReads mops img 2048) (Hclean : CleanFailure mops) (Hbytes : ∀ l, Forall is_byte (img l)).

Lemma mounted_facts m mnt w ctx : iso_mount_of m mnt w ctx →
  own_maps mnt ∧ own_roots mnt ∧ (∃ n, meta mnt = odfs_meta_cache_init (u32 n)) ∧ cached img w ∧ 0 ≤ rr_skip ctx.
Proof.
  intros [Ho (malloc & fuel & ts & ss & h & o & Hcap & Hm) Hb Hc Hp].
  pose proof (iso_keeps mops img Hclean Hbytes nf_malloc calloc others Ho) as HK.
  apply (mount_establishes mops be _ _) in Hm as (H1 & H2 & H3 & Hcd & Hctx).
  - destruct (Hctx Hb) as (c & Hl & Hs & _). rewrite Hc in Hl. injection Hl as <-. by split_and!.
  - done.
  - intros n c Hn Hi. by apply (odfs_cache_init_correct mops img 2048 malloc m n c Hmedia Hn eq_refl Hi).
Qed.

Lemma mounted_serves m mnt w ctx dirs : iso_mount_of m mnt w ctx →
  disc_tree img nf_malloc (medium_readable mops 2048) ctx (mnt_root mnt) dirs →
  Serves be (volume_good img ctx mnt) dirs (iso_listing img nf_malloc ctx) mnt ∧
  mc_inv (iso_listing img nf_malloc ctx) (meta mnt) ∧ volume_good img ctx mnt w ∧
  Listable dirs (iso_listing img nf_malloc ctx) mnt ∧ length (virtual_root_map mnt) = length (has_virtual_root mnt).
Proof.
  intros Hm Ht. destruct (mounted_facts m mnt w ctx Hm) as (Hmaps & Hroots & [n ->] & Hcd & Hs).
  split_and!.
  - eapply serves_mono; [apply (dt_listable _ _ _ _ _ _ Ht)|]. apply iso_serves; try done; apply Hm.
  - apply init_ok, u32_range.
  - split; [done|]. exists ctx. split; [apply Hm|apply same_mount_refl].
  - by eapply tree_listable.
  - destruct Hroots as (-> & -> & _). done.
Qed.
End properties.

(** [C1] Resolving a path on a mounted ISO 9660 or Joliet volume is walking the
    directories as they are on the disc: the answer, error or node, is that of the walk
    through the listings of the disc's extents, whatever the block cache and the
    metadata cache hold or have dropped. *)
Theorem iso_volume_resolves {M X} (mops : odfs_media_ops M) img nf_malloc (calloc : heap X → Z) others m mnt w ctx dirs meta_malloc path :
  let be := iso_backends mops nf_malloc calloc others in
  MediaReads mops img 2048 → CleanFailure mops → (∀ l, Forall is_byte (img l)) →
  iso_mount_of mops img nf_malloc calloc others m mnt w ctx →
  disc_tree img nf_malloc (medium_readable mops 2048) ctx (mnt_root mnt) dirs → is_name path →
  ∃ err out mnt' w', odfs_resolve_path be meta_malloc mnt w path = Ret (err, out, mnt', w') ∧ cached img w' ∧
    (err, face <$> out) = walk be (iso_listing img nf_malloc ctx) mnt (mnt_root mnt) (components path []).
Proof.
  intros be Hmedia Hclean Hb Hm Ht Hp.
  destruct (mounted_serves mops img nf_malloc calloc others Hmedia Hclean Hb m mnt w ctx dirs Hm Ht) as (Hsv & Hmc & Hw & Hls & Hvl).
  destruct (resolve_path_ok be meta_malloc _ dirs _ mnt w path Hsv Hmc Hw Hls Hvl Hp)
    as (err & out & mnt' & w' & He & _ & _ & [Hw' _] & Hr). by exists err, out, mnt', w'.
Qed.

(** [C2] Reading a file that a path was resolved to returns the bytes the disc holds in
    the extent the walk found, as many as were asked for and the file has from the
    offset on; a failing read claims no more bytes than were asked for. *)
Theorem iso_volume_reads {M X} (mops : odfs_media_ops M) img nf_malloc (calloc : heap X → Z) others m mnt w ctx dirs meta_malloc path
    file mnt' w' offset buf len err buf' n w2 :
  let be := iso_backends mops nf_malloc calloc others in
  MediaReads mops img 2048 → CleanFailure mops → (∀ l, Forall is_byte (img l)) →
  iso_mount_of mops img nf_malloc calloc others m mnt w ctx →
  disc_tree img nf_malloc (medium_readable mops 2048) ctx (mnt_root mnt) dirs → is_name path →
  odfs_resolve_path be meta_malloc mnt w path = Ret (ODFS_OK, Some file, mnt', w') →
  is_u32 (lba (extent file)) → lba (extent file) + size file / 2048 < 2 ^ 32 → 0 ≤ offset → 0 ≤ len ≤ zlen buf →
  odfs_read be mnt' w' file offset buf len = Ret (err, buf', n, w2) →
  walk be (iso_listing img nf_malloc ctx) mnt (mnt_root mnt) (components path []) = (ODFS_OK, Some (face file)) ∧
  0 ≤ n ≤ len ∧ (err = ODFS_OK →
    n = Z.max 0 (Z.min len (size file - offset)) ∧
    take (Z.to_nat n) buf' = disc_bytes img 2048 (lba (extent file) * 2048 + offset) n ∧
    drop (Z.to_nat n) buf' = drop (Z.to_nat n) buf).
Proof.
  intros be Hmedia Hclean Hb Hm Ht Hp Hres Hl Hfit Ho Hlen Hr.
  destruct (mounted_serves mops img nf_malloc calloc others Hmedia Hclean Hb m mnt w ctx dirs Hm Ht) as (Hsv & Hmc & Hw & Hls & Hvl).
  destruct (resolve_path_ok be meta_malloc _ dirs _ mnt w path Hsv Hmc Hw Hls Hvl Hp)
    as (err0 & out & mnt0 & w0 & He & [mc Hmc'] & _ & [Hw' _] & Hwalk).
  rewrite Hres in He. injection He as <- <- <- <-. subst mnt'.
  split; [by rewrite <- Hwalk|]. destruct (mounted_facts mops img nf_malloc calloc others Hmedia Hclean Hb m mnt w ctx Hm) as (Hmaps & _).
  by apply (iso_read_good mops img nf_malloc calloc others (set_meta mc mnt) Hmaps (im_backend _ _ _ _ _ _ _ _ _ Hm) w' file offset buf len err buf' n w2).
Qed.

(** ** A disc *)
Definition volume_pvd : list Z :=
  [1] ++ ISO_STANDARD_ID ++ [1; 0] ++ replicate 32 32 ++ [68; 69; 77; 79] ++ replicate 28 32 ++ replicate 8 0 ++
  le32_bytes 100 ++ rev (le32_bytes 100) ++ replicate 40 0 ++ [0; 8; 8; 0] ++ replicate 24 0 ++
  encode_record 20 2048 2 demo_date [0].
(** The disc of [IsoSpec] with a volume descriptor. *)
Definition volume_disc (l : Z) : list Z := if l =? 16 then pad_sector volume_pvd else demo_disc l.
Definition volume_medium : odfs_media_ops unit := image_ops volume_disc 100 2048.
(** Backends that recognise nothing. *)
Definition no_backend (p : Z) : odfs_backend_ops (world unit (heap Empty_set)) :=
  mk_backend (demo_type p) 0 (λ w _, Ret (ODFS_ERR_BAD_FORMAT, w)) (λ w _ root ctx, Ret (ODFS_ERR_BAD_FORMAT, root, ctx, w))
    (Some (λ w _, Ret w)) None None None None None None None.
Definition one_context (h : heap Empty_set) : Z := match h !! 1 with None => 1 | Some _ => 0 end.
Definition volume_backends : Z → odfs_backend_ops (world unit (heap Empty_set)) :=
  iso_backends volume_medium demo_malloc one_context no_backend.
Definition volume_mounted := odfs_mount volume_medium volume_backends (λ _, true) 300 toc_zero blank_sector tt ∅ (Some demo_opts).
(* /a.txt *)
Definition volume_path : list Z := [47; 97; 46; 116; 120; 116].
Example volume_file :
  match volume_mounted with
  | Ret (ODFS_OK, mnt, w) =>
      match odfs_resolve_path volume_backends (λ _ _, true) mnt w volume_path with
      | Ret (ODFS_OK, Some file, mnt, w) =>
          match odfs_read volume_backends mnt w file 0 (replicate 8 0) 8 with
          | Ret (ODFS_OK, buf, n, _) => (volume_name mnt, name file, n, buf) =
              ([68; 69; 77; 79], [65; 46; 84; 88; 84], 5, [72; 101; 108; 108; 111; 0; 0; 0])
          | _ => False
          end
      | _ => False
      end
  | _ => False
  end.
Proof. vm_compute. reflexivity. Qed.

Definition volume_mnt : odfs_mount_t := match volume_mounted with Ret (_, mnt, _) => mnt | _ => mount_zero end.
Definition volume_world : world unit (heap Empty_set) :=
  match volume_mounted with Ret (_, _, w) => w | _ => mk_world (cache_zero tt) ∅ end.
Definition volume_ctx : iso_context := match w_heap volume_world !! 1 with Some (inl c) => c | _ => demo_ctx end.
Definition volume_dirs (n : odfs_node) : Prop := extent n = mk_extent 20 2048.

Lemma volume_sector l : zlen (volume_disc l) = 2048.
Proof. unfold volume_disc, demo_disc. repeat case_test; vm_compute; reflexivity. Qed.
Lemma volume_bytes l : Forall is_byte (volume_disc l).
Proof.
  unfold volume_disc. case_test; [|apply demo_disc_bytes]. apply Forall_forall. intros b Hb.
  assert (Hall : forallb (λ b, (0 <=? b) && (b <? 256)) (pad_sector volume_pvd) = true) by (vm_compute; reflexivity).
  rewrite forallb_forall in Hall. apply list_elem_of_In in Hb. specialize (Hall b Hb). unfold is_byte. b2p. lia.
Qed.
Lemma volume_reads : MediaReads volume_medium volume_disc 2048.
Proof. apply image_ops_reads; [lia|apply volume_sector]. Qed.
Lemma no_backend_keeps (img : Z → list Z) : Keeps no_backend (cached img) (λ _ _ _, cached img).
Proof.
  split.
  - intros p w s Hw. by apply after_ret.
  - intros p w s r c Hw. by apply after_ret.
  - intros p w c f [= <-] Hw. by apply after_ret.
  - done.
  - intros m w Hw. by apply (set_media_ok img 2048).
Qed.
Lemma volume_mount_of : iso_mount_of volume_medium volume_disc demo_malloc one_context no_backend tt volume_mnt volume_world volume_ctx.
Proof.
  split.
  - apply no_backend_keeps.
  - exists (λ _, true), 300%nat, toc_zero, blank_sector, ∅, (Some demo_opts). split; [by simpl|]. vm_compute. reflexivity.
  - left. vm_compute. reflexivity.
  - vm_compute. reflexivity.
  - vm_compute. reflexivity.
Qed.
Lemma volume_tree : disc_tree volume_disc demo_malloc (medium_readable volume_medium 2048) volume_ctx (mnt_root volume_mnt) volume_dirs.
Proof.
  split.
  - intros n Hn. unfold volume_dirs in Hn. unfold iso_listable. rewrite Hn. split_and!.
    + vm_compute. discriminate.
    + intros o Ho. change (0 ≤ o < 2048) in Ho. unfold Iso9660.ISO_SECTOR_SIZE. rewrite Z.div_small by lia. change (u32 _) with 20.
      intros [] buf Hb. unfold volume_medium, image_ops. cbn [read_sectors]. rewrite Hb. reflexivity.
    + rewrite (proj1 (scan_dirs volume_disc demo_malloc n (odfs_iso_dir_stub ODFS_BACKEND_ISO9660 20 2048) volume_ctx Hn)).
      vm_compute. reflexivity.
  - vm_compute. reflexivity.
  - intros n m Hn Hm Hk. exfalso. revert Hm. unfold volume_dirs in Hn. rewrite Hn. unfold iso_listing. cbn [lba length_].
    rewrite (proj2 (proj2 (scan_dirs volume_disc demo_malloc (odfs_iso_dir_stub (backend n) 20 2048) (odfs_iso_dir_stub ODFS_BACKEND_ISO9660 20 2048) volume_ctx eq_refl))).
    assert (Hall : forallb (λ x, negb (bool_decide (kind x = ODFS_NODE_DIR)))
      (map (λ x, face (entry_node x)) (disc_scan volume_disc demo_malloc (odfs_iso_dir_stub ODFS_BACKEND_ISO9660 20 2048) volume_ctx).1) = true)
      by (vm_compute; reflexivity).
    intros Hm. rewrite forallb_forall in Hall. apply list_elem_of_In in Hm. specialize (Hall m Hm). clear Hm.
    rewrite bool_decide_true in Hall by exact Hk. discriminate Hall.
  - done.
Qed.
Lemma volume_path_name : is_name volume_path.
Proof. repeat constructor; lia. Qed.

Lemma iso_volume_resolves_witness :
  ∃ err out mnt' w', odfs_resolve_path volume_backends (λ _ _, true) volume_mnt volume_world volume_path = Ret (err, out, mnt', w') ∧
    cached volume_disc w' ∧
    (err, face <$> out) = walk volume_backends (iso_listing volume_disc demo_malloc volume_ctx) volume_mnt (mnt_root volume_mnt) [[97; 46; 116; 120; 116]].
Proof.
  exact (iso_volume_resolves volume_medium volume_disc demo_malloc one_context no_backend tt volume_mnt volume_world volume_ctx
    volume_dirs (λ _ _, true) volume_path volume_reads (image_ops_clean volume_disc 100 2048) volume_bytes volume_mount_of volume_tree volume_path_name).
Defined.

Definition volume_resolved := odfs_resolve_path volume_backends (λ _ _, true) volume_mnt volume_world volume_path.
Definition volume_file_node : odfs_node := match volume_resolved with Ret (_, Some f, _, _) => f | _ => node_zero end.
Definition volume_mnt2 : odfs_mount_t := match volume_resolved with Ret (_, _, mnt, _) => mnt | _ => mount_zero end.
Definition volume_world2 : world unit (heap Empty_set) := match volume_resolved with Ret (_, _, _, w) => w | _ => volume_world end.
Definition volume_world3 : world unit (heap Empty_set) :=
  match odfs_read volume_backends volume_mnt2 volume_world2 volume_file_node 1 (replicate 10 0) 10 with Ret (_, _, _, w) => w | _ => volume_world2 end.
Lemma volume_file_extent : lba (extent volume_file_node) = 30.
Proof. vm_compute. reflexivity. Qed.
Lemma volume_file_fits : is_u32 (lba (extent volume_file_node)) ∧ lba (extent volume_file_node) + size volume_file_node / 2048 < 2 ^ 32.
Proof.
  assert (Hs : size volume_file_node = 5) by (vm_compute; reflexivity). rewrite volume_file_extent, Hs. clear Hs. unfold is_u32. done.
Qed.
Lemma iso_volume_reads_witness :
  odfs_read volume_backends volume_mnt2 volume_world2 volume_file_node 1 (replicate 10 0) 10 =
    Ret (ODFS_OK, [101; 108; 108; 111; 0; 0; 0; 0; 0; 0], 4, volume_world3) ∧
  [101; 108; 108; 111] = disc_bytes volume_disc 2048 (30 * 2048 + 1) 4.
Proof.
  assert (Hread : odfs_read volume_backends volume_mnt2 volume_world2 volume_file_node 1 (replicate 10 0) 10 =
    Ret (ODFS_OK, [101; 108; 108; 111; 0; 0; 0; 0; 0; 0], 4, volume_world3)) by (vm_compute; reflexivity).
  split; [exact Hread|].
  destruct (iso_volume_reads volume_medium volume_disc demo_malloc one_context no_backend tt volume_mnt volume_world volume_ctx
    volume_dirs (λ _ _, true) volume_path volume_file_node volume_mnt2 volume_world2 1 (replicate 10 0) 10 ODFS_OK
    [101; 108; 108; 111; 0; 0; 0; 0; 0; 0] 4 volume_world3
    volume_reads (image_ops_clean volume_disc 100 2048) volume_bytes volume_mount_of volume_tree volume_path_name) as (_ & _ & H).
  - vm_compute. reflexivity.
  - apply volume_file_fits.
  - apply volume_file_fits.
  - clear Hread. lia.
  - clear Hread. simpl. lia.
  - exact Hread.
  - destruct (H eq_refl) as (_ & Ht & _). rewrite volume_file_extent in Ht. exact Ht.
Defined.
