(* ===== verification/Cdda.v ===== *)
(** * Audio CDs as files ([backends/cdda/cdda.c], [backends/cdda/cdda.h])

    The tracks of an audio CD as WAV or AIFF files: headers made on the fly, audio
    frames read ahead from the medium, the texts [CDDB.txt] and [CD-TEXT.txt] made
    when the disc is mounted.  A text under construction is the bytes written so far;
    [buf_size] is the buffer it is in, and appending to a full buffer fails. *)
From stdpp Require Import strings.
From S2P Require Import Prelude Types Strings Media Backend Session.
Open Scope Z_scope.

(* [src: backends/cdda/cdda.h:17-27 CDDA_SAMPLE_RATE] *)
Definition CDDA_SAMPLE_RATE : Z := 44100.
Definition CDDA_CHANNELS : Z := 2.
Definition CDDA_BITS_PER_SAMPLE : Z := 16.
Definition CDDA_FRAME_SIZE : Z := 2352.
Definition CDDA_FRAMES_PER_SEC : Z := 75.
Definition CDDA_WAV_HEADER_SIZE : Z := 44.
Definition CDDA_AIFF_HEADER_SIZE : Z := 54.
Definition CDDA_READAHEAD_FRAMES : Z := 75.
Definition CDDA_MAX_TRACKS : Z := 99.
(* [src: backends/cdda/cdda.c:28-36 CDDA_CDDB_NAME] *)
Definition CDDA_CDDB_NAME : list Z := str "CDDB.txt".
Definition CDDA_CDDB_NODE_ID : Z := 0x43444442.
Definition CDDA_CDDB_LBA : Z := 0xfffffffe.
Definition CDDA_CDTEXT_NAME : list Z := str "CD-TEXT.txt".
Definition CDDA_CDTEXT_NODE_ID : Z := 0x43445458.
Definition CDDA_CDTEXT_LBA : Z := 0xfffffffd.
Definition CDDA_DISK_ICON_NAME : list Z := str "Disk.info".
Definition CDDA_DISK_ICON_NODE_ID : Z := 0x44494e46.
Definition CDDA_DISK_ICON_LBA : Z := 0xfffffffc.

(* [src: backends/cdda/cdda.h:29-32 cdda_file_format_t] *)
Inductive cdda_file_format : Type := CDDA_FILE_FORMAT_WAV | CDDA_FILE_FORMAT_AIFF.
#[export] Instance cdda_file_format_eq_dec : EqDecision cdda_file_format.
Proof. solve_decision. Defined.

(* [src: backends/cdda/cdda.h:34-42 cdda_track_t] *)
Record cdda_track : Type := mk_track {
  number : Z; start_lba : Z; length_frames : Z; data_size : Z; file_size : Z; title : list Z }.
Definition set_title v t := mk_track (number t) (start_lba t) (length_frames t) (data_size t) (file_size t) v.

(** [tracks] are those in use.  A text or buffer that is not there is [None]; its size
    is its length.  [has_media] says whether the pointer to the medium is set. *)
(* [src: backends/cdda/cdda.h:44-62 cdda_context_t] *)
Record cdda_context : Type := mk_cdda {
  tracks : list cdda_track; is_mixed_mode : bool; file_format : cdda_file_format;
  volume_name : list Z; album_title : list Z;
  cddb_text : option (list Z); cdtext_text : option (list Z); disk_icon : option (list Z);
  has_media : bool; audio_cache : option (list Z); audio_cache_lba : Z; audio_cache_frames : Z }.
Definition set_tracks v c := mk_cdda v (is_mixed_mode c) (file_format c) (volume_name c) (album_title c)
  (cddb_text c) (cdtext_text c) (disk_icon c) (has_media c) (audio_cache c) (audio_cache_lba c) (audio_cache_frames c).
Definition set_volume_name v c := mk_cdda (tracks c) (is_mixed_mode c) (file_format c) v (album_title c)
  (cddb_text c) (cdtext_text c) (disk_icon c) (has_media c) (audio_cache c) (audio_cache_lba c) (audio_cache_frames c).
Definition set_album_title v c := mk_cdda (tracks c) (is_mixed_mode c) (file_format c) (volume_name c) v
  (cddb_text c) (cdtext_text c) (disk_icon c) (has_media c) (audio_cache c) (audio_cache_lba c) (audio_cache_frames c).
Definition set_cddb_text v c := mk_cdda (tracks c) (is_mixed_mode c) (file_format c) (volume_name c) (album_title c)
  v (cdtext_text c) (disk_icon c) (has_media c) (audio_cache c) (audio_cache_lba c) (audio_cache_frames c).
Definition set_cdtext_text v c := mk_cdda (tracks c) (is_mixed_mode c) (file_format c) (volume_name c) (album_title c)
  (cddb_text c) v (disk_icon c) (has_media c) (audio_cache c) (audio_cache_lba c) (audio_cache_frames c).
Definition set_audio_cache b l n c := mk_cdda (tracks c) (is_mixed_mode c) (file_format c) (volume_name c) (album_title c)
  (cddb_text c) (cdtext_text c) (disk_icon c) (has_media c) b l n.

(** ** Headers *)

(* [src: backends/cdda/cdda.c:42-46 cdda_write_le16] *)
Definition cdda_write_le16 (v : Z) : list Z := [u8 v; u8 (Z.shiftr v 8)].
(* [src: backends/cdda/cdda.c:48-54 cdda_write_le32] *)
Definition cdda_write_le32 (v : Z) : list Z := [u8 v; u8 (Z.shiftr v 8); u8 (Z.shiftr v 16); u8 (Z.shiftr v 24)].
(* [src: backends/cdda/cdda.c:56-60 cdda_write_be16] *)
Definition cdda_write_be16 (v : Z) : list Z := [u8 (Z.shiftr v 8); u8 v].
(* [src: backends/cdda/cdda.c:62-68 cdda_write_be32] *)
Definition cdda_write_be32 (v : Z) : list Z := [u8 (Z.shiftr v 24); u8 (Z.shiftr v 16); u8 (Z.shiftr v 8); u8 v].
(* [src: backends/cdda/cdda.c:70-75 cdda_header_size] *)
Definition cdda_header_size (format : cdda_file_format) : Z :=
  if bool_decide (format = CDDA_FILE_FORMAT_AIFF) then CDDA_AIFF_HEADER_SIZE else CDDA_WAV_HEADER_SIZE.

(* [src: backends/cdda/cdda.c:880-898 cdda_build_wav_header] *)
Definition cdda_build_wav_header (hdr : list Z) (data_size : Z) : list Z :=
  let byte_rate := CDDA_SAMPLE_RATE * CDDA_CHANNELS * (CDDA_BITS_PER_SAMPLE / 8) in
  let block_align := CDDA_CHANNELS * (CDDA_BITS_PER_SAMPLE / 8) in
  let hdr := splice hdr 0 (str "RIFF") in
  let hdr := splice hdr 4 (cdda_write_le32 (u32 (36 + data_size))) in
  let hdr := splice hdr 8 (str "WAVE") in
  let hdr := splice hdr 12 (str "fmt ") in
  let hdr := splice hdr 16 (cdda_write_le32 16) in
  let hdr := splice hdr 20 (cdda_write_le16 1) in
  let hdr := splice hdr 22 (cdda_write_le16 CDDA_CHANNELS) in
  let hdr := splice hdr 24 (cdda_write_le32 CDDA_SAMPLE_RATE) in
  let hdr := splice hdr 28 (cdda_write_le32 byte_rate) in
  let hdr := splice hdr 32 (cdda_write_le16 block_align) in
  let hdr := splice hdr 34 (cdda_write_le16 CDDA_BITS_PER_SAMPLE) in
  let hdr := splice hdr 36 (str "data") in
  splice hdr 40 (cdda_write_le32 data_size).
Definition rate_44100 : list Z := [0x40; 0x0e; 0xac; 0x44; 0; 0; 0; 0; 0; 0].
(* [src: backends/cdda/cdda.c:900-921 cdda_build_aiff_header] *)
Definition cdda_build_aiff_header (hdr : list Z) (data_size : Z) : list Z :=
  let sample_frames := data_size / (CDDA_CHANNELS * (CDDA_BITS_PER_SAMPLE / 8)) in
  let hdr := splice hdr 0 (str "FORM") in
  let hdr := splice hdr 4 (cdda_write_be32 (u32 (46 + data_size))) in
  let hdr := splice hdr 8 (str "AIFF") in
  let hdr := splice hdr 12 (str "COMM") in
  let hdr := splice hdr 16 (cdda_write_be32 18) in
  let hdr := splice hdr 20 (cdda_write_be16 CDDA_CHANNELS) in
  let hdr := splice hdr 22 (cdda_write_be32 sample_frames) in
  let hdr := splice hdr 26 (cdda_write_be16 CDDA_BITS_PER_SAMPLE) in
  let hdr := splice hdr 28 rate_44100 in
  let hdr := splice hdr 38 (str "SSND") in
  let hdr := splice hdr 42 (cdda_write_be32 (u32 (8 + data_size))) in
  let hdr := splice hdr 46 (cdda_write_be32 0) in
  splice hdr 50 (cdda_write_be32 0).
(* [src: backends/cdda/cdda.c:923-931 cdda_build_header] *)
Definition cdda_build_header (format : cdda_file_format) (hdr : list Z) (data_size : Z) : list Z :=
  if bool_decide (format = CDDA_FILE_FORMAT_AIFF) then cdda_build_aiff_header hdr data_size
  else cdda_build_wav_header hdr data_size.

(** ** The disc id *)

(** A 32-bit number has ten digits at most. *)
(* [src: backends/cdda/cdda.c:81-84 cdda_sum_digits] *)
Fixpoint sum_digits_loop (n : nat) (value sum : Z) : Z :=
  match n with
  | O => sum
  | S n =>
      let sum := u32 (sum + value mod 10) in
      let value := value / 10 in
      if value =? 0 then sum else sum_digits_loop n value sum
  end.
(* [src: backends/cdda/cdda.c:77-87 cdda_sum_digits] *)
Definition cdda_sum_digits (value : Z) : Z := sum_digits_loop 10 value 0.
(* [src: backends/cdda/cdda.c:89-92 cdda_track_offset_frames] *)
Definition cdda_track_offset_frames (t : cdda_track) : Z := u32 (start_lba t + 150).
(* [src: backends/cdda/cdda.c:94-108 cdda_total_seconds] *)
Definition cdda_total_seconds (c : cdda_context) : Z :=
  match head (tracks c), last (tracks c) with
  | Some first, Some last =>
      let leadout_frames := u32 (cdda_track_offset_frames last + length_frames last) in
      u32 (leadout_frames / CDDA_FRAMES_PER_SEC - cdda_track_offset_frames first / CDDA_FRAMES_PER_SEC)
  | _, _ => 0
  end.
(* [src: backends/cdda/cdda.c:110-121 cdda_disc_id] *)
Definition cdda_disc_id (c : cdda_context) : Z :=
  let sum := fold_left (λ sum t, u32 (sum + cdda_sum_digits (cdda_track_offset_frames t / CDDA_FRAMES_PER_SEC)))
               (tracks c) 0 in
  Z.lor (Z.lor (u32 (Z.shiftl (sum mod 255) 24)) (u32 (Z.shiftl (cdda_total_seconds c) 8))) (zlen (tracks c)).
Definition hex_digit (digits : list Z) (v : Z) : Z := default 0 (zget digits v).
Definition hex_lower : list Z := str "0123456789abcdef".
Definition hex_upper : list Z := str "0123456789ABCDEF".
(** [n] digits, the last first. *)
(* [src: backends/cdda/cdda.c:127-130 cdda_format_hex32] *)
Fixpoint format_hex_loop (n : nat) (value : Z) : list Z :=
  match n with
  | O => []
  | S n => format_hex_loop n (Z.shiftr value 4) ++ [hex_digit hex_lower (Z.land value 0x0f)]
  end.
(* [src: backends/cdda/cdda.c:123-132 cdda_format_hex32] *)
Definition cdda_format_hex32 (value : Z) : list Z := format_hex_loop 8 value.
(* [src: backends/cdda/cdda.c:134-149 cdda_set_volume_name] *)
Definition cdda_set_volume_name (c : cdda_context) : cdda_context :=
  if is_mixed_mode c then set_volume_name (str "CDDA") c
  else set_volume_name (str "Audio CD (" ++ cdda_format_hex32 (cdda_disc_id c) ++ str ")") c.
(** ':' and '/' become '-'; the field holds 31 characters. *)
(* [src: backends/cdda/cdda.c:156-167 cdda_set_album_volume_name] *)
Definition cdda_set_album_volume_name (c : cdda_context) : cdda_context :=
  set_volume_name (map (λ ch, if (ch =? 58) || (ch =? 47) then 45 else ch) (take 31 (album_title c))) c.

(** ** Appending to a text *)
Definition nl : list Z := [10].

(* [src: backends/cdda/cdda.c:169-180 cdda_append_bytes] *)
Definition cdda_append_bytes (buf_size : Z) (text src : list Z) : option (list Z) :=
  if (buf_size <=? zlen text) || (buf_size - zlen text <=? zlen src) then None else Some (text ++ src).
(* [src: backends/cdda/cdda.c:182-190 cdda_append_string] *)
Definition cdda_append_string (buf_size : Z) (text s : list Z) : option (list Z) := cdda_append_bytes buf_size text s.
(* [src: backends/cdda/cdda.c:192-197 cdda_append_line] *)
Definition cdda_append_line (buf_size : Z) (text value : list Z) : option (list Z) :=
  text ← cdda_append_string buf_size text value; cdda_append_string buf_size text nl.
(** The digits of a 32-bit number, the last first. *)
(* [src: backends/cdda/cdda.c:206-209 cdda_append_u32] *)
Fixpoint digits_loop (n : nat) (value : Z) : list Z :=
  match n with
  | O => []
  | S n => (48 + value mod 10) :: (if value / 10 =? 0 then [] else digits_loop n (value / 10))
  end.
Fixpoint append_each (buf_size : Z) (text src : list Z) : option (list Z) :=
  match src with
  | [] => Some text
  | ch :: src => text ← cdda_append_bytes buf_size text [ch]; append_each buf_size text src
  end.
(* [src: backends/cdda/cdda.c:199-223 cdda_append_u32] *)
Definition cdda_append_u32 (buf_size : Z) (text : list Z) (value min_width : Z) : option (list Z) :=
  let digits := digits_loop 10 value in
  text ← append_each buf_size text (replicate (Z.to_nat (min_width - zlen digits)) 48);
  append_each buf_size text (rev digits).
(* [src: backends/cdda/cdda.c:226-233 cdda_append_u32_field] *)
Definition cdda_append_u32_field (buf_size : Z) (text key : list Z) (value : Z) : option (list Z) :=
  text ← cdda_append_string buf_size text key;
  text ← cdda_append_string buf_size text (str "=");
  text ← cdda_append_u32 buf_size text value 0;
  cdda_append_string buf_size text nl.
(* [src: backends/cdda/cdda.c:235-242 cdda_append_hex32] *)
Definition cdda_append_hex32 (buf_size : Z) (text : list Z) (value : Z) : option (list Z) :=
  cdda_append_bytes buf_size text (cdda_format_hex32 value).

(** ** CDDB.txt *)

(* [src: backends/cdda/cdda.c:278-288 cdda_generate_cddb] *)
Fixpoint cddb_offsets (buf_size : Z) (text : list Z) (i : Z) (ts : list cdda_track) : option (list Z) :=
  match ts with
  | [] => Some text
  | t :: ts =>
      text ← cdda_append_string buf_size text (str "OFFSET");
      text ← cdda_append_u32 buf_size text (i + 1) 2;
      text ← cdda_append_string buf_size text (str "=");
      text ← cdda_append_u32 buf_size text (cdda_track_offset_frames t) 0;
      text ← cdda_append_string buf_size text nl;
      cddb_offsets buf_size text (i + 1) ts
  end.
(* [src: backends/cdda/cdda.c:299-306 cdda_generate_cddb] *)
Fixpoint cddb_query (buf_size : Z) (text : list Z) (ts : list cdda_track) : option (list Z) :=
  match ts with
  | [] => Some text
  | t :: ts =>
      text ← cdda_append_string buf_size text (str " ");
      text ← cdda_append_u32 buf_size text (cdda_track_offset_frames t) 0;
      cddb_query buf_size text ts
  end.
Definition cddb_header : list Z := str "# Generated by ODFileSystem from disc TOC" ++ nl ++ str "DISCID=".
(** The text, [None] when it does not fit. *)
(* [src: backends/cdda/cdda.c:260-313 cdda_generate_cddb] *)
Definition cddb_generate (buf_size : Z) (c : cdda_context) : option (list Z) :=
  let disc_id := cdda_disc_id c in
  let total_seconds := cdda_total_seconds c in
  text ← cdda_append_string buf_size [] cddb_header;
  text ← cdda_append_hex32 buf_size text disc_id;
  text ← cdda_append_string buf_size text nl;
  text ← cdda_append_u32_field buf_size text (str "TRACKS") (zlen (tracks c));
  text ← cdda_append_u32_field buf_size text (str "TOTAL_SECONDS") total_seconds;
  text ← cdda_append_u32_field buf_size text (str "TOTAL_FRAMES") (u32 (total_seconds * CDDA_FRAMES_PER_SEC));
  text ← cddb_offsets buf_size text 0 (tracks c);
  text ← cdda_append_string buf_size text (str "QUERY=cddb query ");
  text ← cdda_append_hex32 buf_size text disc_id;
  text ← cdda_append_string buf_size text (str " ");
  text ← cdda_append_u32 buf_size text (zlen (tracks c)) 0;
  text ← cddb_query buf_size text (tracks c);
  text ← cdda_append_string buf_size text (str " ");
  text ← cdda_append_u32 buf_size text total_seconds 0;
  cdda_append_string buf_size text nl.
(** [alloc] says whether the buffer can be allocated. *)
(* [src: backends/cdda/cdda.c:244-317 cdda_generate_cddb] *)
Definition cdda_generate_cddb (alloc : bool) (c : cdda_context) : cdda_context :=
  if zlen (tracks c) =? 0 then c
  else if negb alloc then c
  else
    match cddb_generate (256 + zlen (tracks c) * 48) c with
    | None => c
    | Some text => set_cddb_text (Some text) c
    end.

(** ** CD-Text *)

(* [src: backends/cdda/cdda.c:350-367 cdda_cdtext_type_name] *)
Definition cdda_cdtext_type_name (type track : Z) : list Z :=
  match type with
  | 0x80 => str "TITLE"
  | 0x81 => str "PERFORMER"
  | 0x82 => str "SONGWRITER"
  | 0x83 => str "COMPOSER"
  | 0x84 => str "ARRANGER"
  | 0x85 => str "MESSAGE"
  | 0x86 => str "DISC_ID"
  | 0x87 => str "GENRE"
  | 0x88 => str "TOC_INFO"
  | 0x89 => str "TOC_INFO2"
  | 0x8e => if track =? 0 then str "UPC_EAN" else str "ISRC"
  | 0x8f => str "SIZE_INFO"
  | _ => str "UNKNOWN"
  end.
Definition sanitize_char (ch : Z) : Z :=
  let ch := if (ch =? 13) || (ch =? 10) || (ch =? 9) then 32 else ch in
  if (ch <? 0x20) || (0x7e <? ch) then 63 else ch.
(* [src: backends/cdda/cdda.c:369-389 cdda_sanitize_ascii] *)
Definition cdda_sanitize_ascii (dst_size : Z) (src : list Z) : list Z :=
  if dst_size =? 0 then [] else map sanitize_char (take (Z.to_nat (dst_size - 1)) src).
(** A byte is written while two more characters fit. *)
(* [src: backends/cdda/cdda.c:400-403 cdda_hex_encode] *)
Fixpoint hex_encode_loop (dst_size used : Z) (src : list Z) : list Z :=
  match src with
  | [] => []
  | b :: src =>
      if used + 2 <? dst_size
      then hex_digit hex_upper (Z.shiftr b 4) :: hex_digit hex_upper (Z.land b 0x0f) :: hex_encode_loop dst_size (used + 2) src
      else []
  end.
(* [src: backends/cdda/cdda.c:391-407 cdda_hex_encode] *)
Definition cdda_hex_encode (dst_size : Z) (src : list Z) : list Z :=
  if dst_size =? 0 then [] else hex_encode_loop dst_size 0 src.
(* [src: backends/cdda/cdda.c:410-432 cdda_append_cdtext_key] *)
Definition cdda_append_cdtext_key (buf_size : Z) (text : list Z) (type track block : Z) : option (list Z) :=
  text ← (if negb (block =? 0) then
            text ← cdda_append_string buf_size text (str "BLOCK");
            text ← cdda_append_u32 buf_size text block 2;
            cdda_append_string buf_size text (str ".")
          else Some text);
  text ← (if track =? 0 then cdda_append_string buf_size text (str "DISC.")
          else
            text ← cdda_append_string buf_size text (str "TRACK");
            text ← cdda_append_u32 buf_size text track 2;
            cdda_append_string buf_size text (str "."));
  text ← cdda_append_string buf_size text (cdda_cdtext_type_name type (u8 track));
  cdda_append_string buf_size text (str "=").
(** The strings of [data], separated by "; ". *)
(* [src: backends/cdda/cdda.c:450-466 cdda_append_cdtext_record] *)
Fixpoint append_values (buf_size : Z) (fuel : nat) (text data : list Z) (value_count : Z) : option (list Z) :=
  match fuel, data with
  | S fuel, _ :: _ =>
      let s := c_str data in
      let rest := drop (S (length s)) data in
      if 0 <? zlen s then
        text ← (if 0 <? value_count then cdda_append_string buf_size text (str "; ") else Some text);
        text ← cdda_append_string buf_size text (cdda_sanitize_ascii 256 s);
        append_values buf_size fuel text rest (value_count + 1)
      else append_values buf_size fuel text rest value_count
  | _, _ => Some text
  end.
(* [src: backends/cdda/cdda.c:434-477 cdda_append_cdtext_record] *)
Definition cdda_append_cdtext_record (buf_size : Z) (text : list Z) (type track block : Z) (is_dbcs : bool) (data : list Z)
    : option (list Z) :=
  text ← cdda_append_cdtext_key buf_size text type track block;
  if is_dbcs then cdda_append_string buf_size text (str "<DBCS>" ++ nl)
  else if (0x80 <=? type) && (type <=? 0x85) then
    text ← append_values buf_size (length data) text data 0;
    cdda_append_string buf_size text nl
  else if type =? 0x8e then cdda_append_line buf_size text (cdda_sanitize_ascii 256 data)
  else cdda_append_line buf_size text (cdda_hex_encode 256 data).

(** The first track with a number. *)
Definition track_numbered (n : Z) (c : cdda_context) : option (Z * cdda_track) :=
  match list_find (λ t, number t = n) (tracks c) with Some (i, t) => Some (Z.of_nat i, t) | None => None end.
(** A tab alone stands for the title of the track before. *)
(* [src: backends/cdda/cdda.c:479-518 cdda_store_track_title] *)
Definition cdda_store_track_title (c : cdda_context) (track : Z) (t : list Z) : cdda_context :=
  if (track <? 0) || (zlen t =? 0) then c
  else if track =? 0 then
    if negb (bool_decide (t = [9])) then set_album_title (cdda_sanitize_ascii 32 t) c else c
  else
    match track_numbered track c with
    | None => c
    | Some (i, _) =>
        if bool_decide (t = [9]) then
          match track_numbered (track - 1) c with
          | None => c
          | Some (_, p) => set_tracks (zupd (tracks c) i (set_title (title p))) c
          end
        else set_tracks (zupd (tracks c) i (set_title (cdda_sanitize_ascii ODFS_AMIGA_COMMENT_MAX t))) c
    end.

(** The packs of a CD-Text response: 18 bytes each after a header of four. *)
Definition cdtext_pack (raw : list Z) (i : Z) : list Z := slice raw (4 + i * 18) 18.
Definition cdtext_packs (raw : list Z) : list (list Z) := map (cdtext_pack raw) (seqZ 0 ((zlen raw - 4) / 18)).
Definition pack_byte (pack : list Z) (k : Z) : Z := default 0 (zget pack k).
Definition pack_type (pack : list Z) : Z := pack_byte pack 0.
Definition pack_track (pack : list Z) : Z := pack_byte pack 1.
Definition pack_block (pack : list Z) : Z := Z.land (Z.shiftr (pack_byte pack 3) 4) 0x07.
Definition pack_dbcs (pack : list Z) : bool := negb (Z.land (pack_byte pack 3) 0x80 =? 0).
Definition pack_pos (pack : list Z) : Z := Z.land (pack_byte pack 3) 0x0f.
Definition pack_data (pack : list Z) : list Z := slice pack 4 12.

(** A walk over the strings of the packs: the string read so far, the track it belongs
    to, whether its head is missing. *)
Record walk_state : Type := mk_walk { cur : list Z; cur_track : Z; skip_current : bool }.
Definition walk_start : walk_state := mk_walk [] (-1) false.
(** A pack that begins a string, or the first one, sets the track. *)
(* [src: backends/cdda/cdda.c:549-559 cdda_extract_track_titles] *)
Definition walk_sync (pack : list Z) (s : walk_state) : walk_state :=
  if pack_pos pack =? 0 then mk_walk [] (pack_track pack) false
  else if cur_track s <? 0 then mk_walk [] (pack_track pack) true
  else s.
(** [char cur[cap]] keeps what fits. *)
Definition walk_char (cap ch : Z) (s : walk_state) : walk_state :=
  if zlen (cur s) + 1 <? cap then mk_walk (cur s ++ [ch]) (cur_track s) (skip_current s) else s.
Definition walk_next (s : walk_state) : walk_state := mk_walk [] (cur_track s + 1) false.
(* [src: backends/cdda/cdda.c:561-573 cdda_extract_track_titles] *)
Fixpoint extract_chars (c : cdda_context) (data : list Z) (s : walk_state) : cdda_context * walk_state :=
  match data with
  | [] => (c, s)
  | ch :: data =>
      if ch =? 0
      then extract_chars (if skip_current s then c else cdda_store_track_title c (cur_track s) (cur s)) data (walk_next s)
      else extract_chars c data (walk_char (ODFS_AMIGA_COMMENT_MAX * 2) ch s)
  end.
(* [src: backends/cdda/cdda.c:536-574 cdda_extract_track_titles] *)
Fixpoint extract_packs (c : cdda_context) (packs : list (list Z)) (s : walk_state) : cdda_context * walk_state :=
  match packs with
  | [] => (c, s)
  | pack :: packs =>
      if negb (pack_type pack =? 0x80) || negb (pack_block pack =? 0) || pack_dbcs pack then extract_packs c packs s
      else
        let '(c, s) := extract_chars c (pack_data pack) (walk_sync pack s) in
        extract_packs c packs s
  end.
(* [src: backends/cdda/cdda.c:528-577 cdda_extract_track_titles] *)
Definition cdda_extract_track_titles (c : cdda_context) (packs : list (list Z)) : cdda_context :=
  (extract_packs c packs walk_start).1.

(* [src: backends/cdda/cdda.c:620-640 cdda_render_cdtext_strings] *)
Fixpoint render_chars (buf_size type block : Z) (text data : list Z) (s : walk_state) : option (list Z * walk_state) :=
  match data with
  | [] => Some (text, s)
  | ch :: data =>
      if negb (ch =? 0) then render_chars buf_size type block text data (walk_char 256 ch s)
      else
        text ← (if negb (skip_current s) && negb (zlen (cur s) =? 0) then
                  text ← cdda_append_cdtext_key buf_size text type (u32 (cur_track s)) block;
                  cdda_append_line buf_size text (cdda_sanitize_ascii 256 (cur s))
                else Some text);
        render_chars buf_size type block text data (walk_next s)
  end.
(* [src: backends/cdda/cdda.c:597-641 cdda_render_cdtext_strings] *)
Fixpoint render_packs (buf_size type block : Z) (text : list Z) (packs : list (list Z)) (s : walk_state) : option (list Z) :=
  match packs with
  | [] => Some text
  | pack :: packs =>
      if negb (pack_type pack =? type) || negb (pack_block pack =? block) || pack_dbcs pack
      then render_packs buf_size type block text packs s
      else
        '(text, s) ← render_chars buf_size type block text (pack_data pack) (walk_sync pack s);
        render_packs buf_size type block text packs s
  end.
(* [src: backends/cdda/cdda.c:586-643 cdda_render_cdtext_strings] *)
Definition cdda_render_cdtext_strings (buf_size type block : Z) (packs : list (list Z)) (text : list Z) : option (list Z) :=
  render_packs buf_size type block text packs walk_start.
(** The string types in order, each with its eight blocks. *)
(* [src: backends/cdda/cdda.c:696-707 cdda_generate_cdtext] *)
Fixpoint render_all (buf_size : Z) (packs : list (list Z)) (text : list Z) (tbs : list (Z * Z)) : option (list Z) :=
  match tbs with
  | [] => Some text
  | (type, block) :: tbs =>
      text ← cdda_render_cdtext_strings buf_size type block packs text;
      render_all buf_size packs text tbs
  end.
Definition string_types : list (Z * Z) := type ← seqZ 0x80 6; (λ block, (type, block)) <$> seqZ 0 8.

(** A run of packs of one type, track, block and encoding, with its data. *)
Record field_run : Type := mk_run {
  run_type : Z; run_track : Z; run_block : Z; run_dbcs : bool; run_data : list Z }.
Definition append_run (buf_size : Z) (text : list Z) (r : option field_run) : option (list Z) :=
  match r with
  | None => Some text
  | Some r => cdda_append_cdtext_record buf_size text (run_type r) (run_track r) (run_block r) (run_dbcs r) (run_data r)
  end.
(** [field_cap] is the size of the buffer for a run's data. *)
(* [src: backends/cdda/cdda.c:709-759 cdda_generate_cdtext] *)
Fixpoint render_runs (buf_size field_cap : Z) (text : list Z) (packs : list (list Z)) (current : option field_run)
    : option (list Z) :=
  match packs with
  | [] => append_run buf_size text current
  | pack :: packs =>
      let type := pack_type pack in
      let track := pack_track pack in
      let block := pack_block pack in
      let is_dbcs := pack_dbcs pack in
      if (0x80 <=? type) && (type <=? 0x85) && negb is_dbcs
      then render_runs buf_size field_cap text packs current
      else
        '(text, r) ← match current with
                     | Some r =>
                         if (run_type r =? type) && (run_track r =? track) && (run_block r =? block) && eqb (run_dbcs r) is_dbcs
                         then Some (text, r)
                         else text ← append_run buf_size text (Some r); Some (text, mk_run type track block is_dbcs [])
                     | None => Some (text, mk_run type track block is_dbcs [])
                     end;
        let data := if zlen (run_data r) + 12 <=? field_cap then run_data r ++ pack_data pack else run_data r in
        render_runs buf_size field_cap text packs (Some (mk_run (run_type r) (run_track r) (run_block r) (run_dbcs r) data))
  end.
Definition cdtext_header : list Z := str "# Generated by ODFileSystem from CD-Text packs" ++ nl.
(** The text, [None] when it does not fit. *)
(* [src: backends/cdda/cdda.c:687-759 cdda_generate_cdtext] *)
Definition cdtext_generate (raw : list Z) : option (list Z) :=
  let packs := cdtext_packs raw in
  let buf_size := 128 + zlen raw * 4 in
  text ← cdda_append_string buf_size [] cdtext_header;
  text ← render_all buf_size packs text string_types;
  render_runs buf_size (zlen packs * 12) text packs None.

(** ** Nodes *)

(** [fill] functions that refuse are [None]. *)
(* [src: backends/cdda/cdda.c:319-340 cdda_fill_virtual_node] *)
Definition cdda_fill_virtual_node (data : option (list Z)) (id lba : Z) (name : list Z) : option odfs_node :=
  match data with
  | None => None
  | Some data =>
      if zlen data =? 0 then None
      else if ODFS_NAME_MAX <? zlen name + 1 then None
      else Some (mk_node id 0 ODFS_BACKEND_CDDA ODFS_NODE_VIRTUAL name (zlen data) timestamp_zero timestamp_zero 0
             amiga_as_zero (mk_extent lba (u32 (zlen data))) 0)
  end.
(* [src: backends/cdda/cdda.c:342-348 cdda_fill_cddb_node] *)
Definition cdda_fill_cddb_node (c : cdda_context) : option odfs_node :=
  cdda_fill_virtual_node (cddb_text c) CDDA_CDDB_NODE_ID CDDA_CDDB_LBA CDDA_CDDB_NAME.
(* [src: backends/cdda/cdda.c:768-774 cdda_fill_cdtext_node] *)
Definition cdda_fill_cdtext_node (c : cdda_context) : option odfs_node :=
  cdda_fill_virtual_node (cdtext_text c) CDDA_CDTEXT_NODE_ID CDDA_CDTEXT_LBA CDDA_CDTEXT_NAME.
(** The icon is there and not empty, on a disc without data tracks. *)
Definition has_text (text : option (list Z)) : bool := match text with Some t => negb (zlen t =? 0) | None => false end.
Definition has_icon (c : cdda_context) : bool := negb (is_mixed_mode c) && has_text (disk_icon c).
(* [src: backends/cdda/cdda.c:776-787 cdda_fill_disk_icon_node] *)
Definition cdda_fill_disk_icon_node (c : cdda_context) : option odfs_node :=
  if negb (has_icon c) then None
  else cdda_fill_virtual_node (disk_icon c) CDDA_DISK_ICON_NODE_ID CDDA_DISK_ICON_LBA CDDA_DISK_ICON_NAME.
(* [src: backends/cdda/cdda.c:789-801 cdda_metadata_count] *)
Definition cdda_metadata_count (c : cdda_context) : Z :=
  (if has_icon c then 1 else 0) + (if has_text (cddb_text c) then 1 else 0) + (if has_text (cdtext_text c) then 1 else 0).
(* [src: backends/cdda/cdda.c:803-822 cdda_fill_metadata_node] *)
Definition cdda_fill_metadata_node (c : cdda_context) (index : Z) : option odfs_node :=
  if has_icon c && (index =? 0) then cdda_fill_disk_icon_node c
  else
    let index := if has_icon c then index - 1 else index in
    if has_text (cddb_text c) && (index =? 0) then cdda_fill_cddb_node c
    else
      let index := if has_text (cddb_text c) then index - 1 else index in
      if has_text (cdtext_text c) && (index =? 0) then cdda_fill_cdtext_node c else None.
Definition cdda_ext (format : cdda_file_format) : list Z :=
  if bool_decide (format = CDDA_FILE_FORMAT_AIFF) then str "aiff" else str "wav".
(* [src: backends/cdda/cdda.c:944-965 cdda_track_name] *)
Definition cdda_track_name (track_num : Z) (format : cdda_file_format) : list Z :=
  str "Track" ++ [u8 (48 + track_num / 10); u8 (48 + track_num mod 10)] ++ str "." ++ cdda_ext format.
(* [src: backends/cdda/cdda.c:1119-1140 cdda_fill_track_node] *)
Definition cdda_fill_track_node (c : cdda_context) (i : Z) (t : cdda_track) : odfs_node :=
  mk_node (number t) 0 ODFS_BACKEND_CDDA ODFS_NODE_VIRTUAL (cdda_track_name (number t) (file_format c)) (file_size t)
    timestamp_zero timestamp_zero 0
    (if bool_decide (title t = []) then amiga_as_zero else mk_amiga_as false [0; 0; 0; 0] true (title t))
    (mk_extent (i + 2) (u32 (file_size t))) 0.

(** ** Enumeration *)

(** A callback that answers an error stops it; the cookie is the entry's number. *)
Definition s32 (z : Z) : Z := let m := u32 z in if m <? 2 ^ 31 then m else m - 2 ^ 32.
Section readdir.
Context {T : Type} (cb : odfs_dir_iter_fn T) (c : cdda_context) (resume : option Z).
(* [src: backends/cdda/cdda.c:1158-1170 cdda_readdir] *)
Fixpoint readdir_metadata (n : nat) (i : Z) (t : T) : option (odfs_err * option Z) * T :=
  match n with
  | O => (None, t)
  | S n =>
      match cdda_fill_metadata_node c i with
      | None => readdir_metadata n (i + 1) t
      | Some node =>
          let '(err, t) := cb node t in
          if negb (err_ok err) then (Some (err, (λ _, u32 i) <$> resume), t) else readdir_metadata n (i + 1) t
      end
  end.
(* [src: backends/cdda/cdda.c:1172-1185 cdda_readdir] *)
Fixpoint readdir_tracks (i : Z) (ts : list cdda_track) (t : T) : option (odfs_err * option Z) * T :=
  match ts with
  | [] => (None, t)
  | trk :: ts =>
      let '(err, t) := cb (cdda_fill_track_node c i trk) t in
      if negb (err_ok err) then (Some (err, (λ _, u32 (cdda_metadata_count c + i)) <$> resume), t)
      else readdir_tracks (i + 1) ts t
  end.
(** Negative indices are passed over; an [int] below its range is an overflow. *)
(* [src: backends/cdda/cdda.c:1142-1190 cdda_readdir] *)
Definition cdda_readdir (t : T) : outcome (odfs_err * option Z * T) :=
  let start := s32 (default 0 resume) in
  let metadata_count := cdda_metadata_count c in
  let '(stop, t) := readdir_metadata (Z.to_nat (metadata_count - start)) start t in
  match stop with
  | Some (err, resume) => Ret (err, resume, t)
  | None =>
      if start - metadata_count <? - 2 ^ 31 then Fault
      else
        let i := Z.max 0 (start - metadata_count) in
        let '(stop, t) := readdir_tracks i (drop (Z.to_nat i) (tracks c)) t in
        match stop with
        | Some (err, resume) => Ret (err, resume, t)
        | None => Ret (ODFS_OK, (λ _, u32 (metadata_count + zlen (tracks c))) <$> resume, t)
        end
  end.
End readdir.

(* [src: backends/cdda/cdda.c:1402-1410 cdda_lookup] *)
Fixpoint lookup_track (c : cdda_context) (name : list Z) (i : Z) (ts : list cdda_track) : option odfs_node :=
  match ts with
  | [] => None
  | t :: ts =>
      if odfs_strcasecmp name (cdda_track_name (number t) (file_format c)) =? 0
      then Some (cdda_fill_track_node c i t) else lookup_track c name (i + 1) ts
  end.
Definition found (out : option odfs_node) : odfs_err * option odfs_node :=
  match out with Some n => (ODFS_OK, Some n) | None => (ODFS_ERR_NOT_FOUND, None) end.
(* [src: backends/cdda/cdda.c:1372-1413 cdda_lookup] *)
Definition cdda_lookup (c : cdda_context) (name : list Z) : odfs_err * option odfs_node :=
  if odfs_strcasecmp name CDDA_CDDB_NAME =? 0 then found (cdda_fill_cddb_node c)
  else if odfs_strcasecmp name CDDA_CDTEXT_NAME =? 0 then found (cdda_fill_cdtext_node c)
  else if odfs_strcasecmp name CDDA_DISK_ICON_NAME =? 0 then found (cdda_fill_disk_icon_node c)
  else found (lookup_track c name 0 (tracks c)).
(* [src: backends/cdda/cdda.c:1419-1435 cdda_get_volume_name] *)
Definition cdda_get_volume_name (c : cdda_context) (buf_size : Z) : odfs_err * list Z :=
  if buf_size =? 0 then (ODFS_ERR_RANGE, [])
  else (ODFS_OK, if buf_size <=? zlen (volume_name c) then take (Z.to_nat (buf_size - 1)) (volume_name c) else volume_name c).
Definition text_size (text : option (list Z)) : Z := match text with Some t => zlen t | None => 0 end.
(* [src: backends/cdda/cdda.c:1441-1453 cdda_get_volume_size] *)
Definition cdda_get_volume_size (c : cdda_context) : Z :=
  let bytes := fold_left (λ bytes t, u64 (bytes + file_size t)) (tracks c)
                 (u64 (u64 (0 + text_size (cddb_text c)) + text_size (cdtext_text c))) in
  let blocks := u64 (bytes + 2047) / 2048 in
  if UINT32_MAX <? blocks then UINT32_MAX else blocks.

(** ** Reading *)

(** Every second byte changes places with the one before. *)
(* [src: backends/cdda/cdda.c:824-833 cdda_byteswap_samples] *)
Fixpoint cdda_byteswap_samples (buf : list Z) : list Z :=
  match buf with a :: b :: buf => b :: a :: cdda_byteswap_samples buf | _ => buf end.
(** From [offset] on, as much as there is of what is wanted. *)
(* [src: backends/cdda/cdda.c:1209-1220 cdda_read] *)
Definition read_text (text : option (list Z)) (offset : Z) (buf : list Z) (len : Z) : odfs_err * list Z * Z :=
  match text with
  | None => (ODFS_OK, buf, 0)
  | Some text =>
      if zlen text <=? offset then (ODFS_OK, buf, 0)
      else
        let want := if zlen text <? u64 (offset + len) then zlen text - offset else len in
        (ODFS_OK, splice buf 0 (slice text offset want), want)
  end.
(* [src: backends/cdda/cdda.c:835-841 cdda_audio_cache_contains] *)
Definition cdda_audio_cache_contains (c : cdda_context) (lba : Z) : bool :=
  negb (bool_decide (audio_cache c = None)) && negb (audio_cache_frames c =? 0) && (audio_cache_lba c <=? lba) &&
  (lba <? u32 (audio_cache_lba c + audio_cache_frames c)).

Section read.
Context {M : Type} (mops : odfs_media_ops M).
Definition has_read_audio (c : cdda_context) : bool :=
  has_media c && match read_audio mops with Some _ => true | None => false end.
Definition samples (format : cdda_file_format) (buf : list Z) : list Z :=
  if bool_decide (format = CDDA_FILE_FORMAT_AIFF) then cdda_byteswap_samples buf else buf.

(** The read overwrites the start of the buffer; the rest stays. *)
(* [src: backends/cdda/cdda.c:843-875 cdda_fill_audio_cache] *)
Definition cdda_fill_audio_cache (c : cdda_context) (t : cdda_track) (frame_num : Z) (m : M) : odfs_err * cdda_context * M :=
  match audio_cache c with
  | None => (ODFS_ERR_UNSUPPORTED, c, m)
  | Some cache =>
      if negb (has_read_audio c) then (ODFS_ERR_UNSUPPORTED, c, m)
      else if length_frames t <=? frame_num then (ODFS_ERR_RANGE, c, m)
      else
        let frames := length_frames t - frame_num in
        let frames := if CDDA_READAHEAD_FRAMES <? frames then CDDA_READAHEAD_FRAMES else frames in
        let start_lba := u32 (start_lba t + frame_num) in
        let size := frames * CDDA_FRAME_SIZE in
        let '(err, b, m) := odfs_media_read_audio mops m start_lba frames (slice cache 0 size) in
        if negb (err_ok err)
        then (err, set_audio_cache (Some (splice cache 0 b)) (audio_cache_lba c) 0 c, m)
        else (ODFS_OK, set_audio_cache (Some (splice cache 0 (samples (file_format c) b))) start_lba frames c, m)
  end.
(** [cur] is the data read so far, [want] what is wanted in all; every round adds a
    byte at least. *)
(* [src: backends/cdda/cdda.c:1287-1362 cdda_read] *)
Fixpoint read_audio_loop (fuel : nat) (c : cdda_context) (t : cdda_track) (offset want : Z) (buf : list Z) (done_ : Z) (m : M)
    : outcome (odfs_err * list Z * Z * cdda_context * M) :=
  if want <=? done_ then Ret (ODFS_OK, buf, done_, c, m)
  else
    match fuel with
    | O => Diverge
    | S fuel =>
        let audio_pos := u64 (offset + done_ - cdda_header_size (file_format c)) in
        if 0xffffffff <? audio_pos then Ret (ODFS_ERR_RANGE, buf, 0, c, m)
        else
          let frame_num := audio_pos / CDDA_FRAME_SIZE in
          let frame_off := audio_pos mod CDDA_FRAME_SIZE in
          let start_frame := u32 (start_lba t + frame_num) in
          if negb (has_read_audio c) then Ret (ODFS_ERR_UNSUPPORTED, buf, 0, c, m)
          else
            match audio_cache c with
            | Some _ =>
                let '(err, c, m) := if negb (cdda_audio_cache_contains c start_frame)
                                    then cdda_fill_audio_cache c t frame_num m else (ODFS_OK, c, m) in
                if negb (err_ok err) then Ret (err, buf, 0, c, m)
                else
                  let cache_off := u32 (start_frame - audio_cache_lba c) * CDDA_FRAME_SIZE + frame_off in
                  let avail := audio_cache_frames c * CDDA_FRAME_SIZE - cache_off in
                  let chunk := if avail <? want - done_ then avail else want - done_ in
                  data ← rd_range (default [] (audio_cache c)) cache_off chunk;
                  buf ← wr_range buf done_ data;
                  read_audio_loop fuel c t offset want buf (done_ + chunk) m
            | None =>
                let '(err, b, m) := odfs_media_read_audio mops m start_frame 1 (replicate (Z.to_nat CDDA_FRAME_SIZE) 0) in
                if negb (err_ok err) then Ret (err, buf, 0, c, m)
                else
                  let b := samples (file_format c) b in
                  let avail := CDDA_FRAME_SIZE - frame_off in
                  let chunk := if avail <? want - done_ then avail else want - done_ in
                  data ← rd_range b frame_off chunk;
                  buf ← wr_range buf done_ data;
                  read_audio_loop fuel c t offset want buf (done_ + chunk) m
            end
    end.
(** The header buffer, before it is filled in, is of the larger format. *)
(* [src: backends/cdda/cdda.c:1272-1281 cdda_read] *)
Definition read_header (c : cdda_context) (t : cdda_track) (offset want : Z) (buf : list Z) : outcome (list Z * Z) :=
  let header_size := cdda_header_size (file_format c) in
  if offset <? header_size then
    let hdr := cdda_build_header (file_format c) (replicate (Z.to_nat CDDA_AIFF_HEADER_SIZE) 0) (u32 (data_size t)) in
    let hdr_avail := header_size - offset in
    let chunk := if hdr_avail <? want then hdr_avail else want in
    data ← rd_range hdr offset chunk;
    buf ← wr_range buf 0 data;
    Ret (buf, chunk)
  else Ret (buf, 0).
(* [src: backends/cdda/cdda.c:1196-1366 cdda_read] *)
Definition cdda_read (c : cdda_context) (m : M) (file : odfs_node) (offset : Z) (buf : list Z) (len : Z)
    : outcome (odfs_err * list Z * Z * cdda_context * M) :=
  if id file =? CDDA_CDDB_NODE_ID then Ret (read_text (cddb_text c) offset buf len, c, m)
  else if id file =? CDDA_CDTEXT_NODE_ID then Ret (read_text (cdtext_text c) offset buf len, c, m)
  else if id file =? CDDA_DISK_ICON_NODE_ID then Ret (read_text (disk_icon c) offset buf len, c, m)
  else
    match zget (tracks c) (s32 (lba (extent file)) - 2) with
    | None => Ret (ODFS_ERR_NOT_FOUND, buf, 0, c, m)
    | Some t =>
        if file_size t <=? offset then Ret (ODFS_OK, buf, 0, c, m)
        else
          let want := if file_size t <? u64 (offset + len) then file_size t - offset else len in
          '(buf, done_) ← read_header c t offset want buf;
          read_audio_loop (Z.to_nat want) c t offset want buf done_ m
    end.
End read.
