(* ===== verification/CddaBackend.v ===== *)
(** * Mounting an audio CD, and the backend ([backends/cdda/cdda.c])

    A CDDA context is made from the disc's table of contents, not by the search for
    file systems.  It lives in the heap of contexts, next to those of other backends
    ([X]), and reads its audio from the medium under the block cache. *)
From stdpp Require Import gmap strings.
From S2P Require Import Prelude Types Strings Media BlockCache Backend Session Mount Cdda.
Open Scope Z_scope.

Section mount.
Context {M : Type} (mops : odfs_media_ops M).

(** The audio tracks from entry [i] on; [ts] are those found before. *)
(* [src: backends/cdda/cdda.c:1026-1048 cdda_mount_from_toc] *)
Fixpoint toc_tracks (toc : odfs_toc) (header_size : Z) (n : nat) (i : Z) (ts : list cdda_track) : outcome (list cdda_track) :=
  match n with
  | O => Ret ts
  | S n =>
      if CDDA_MAX_TRACKS <=? zlen ts then Ret ts
      else
        s ← toc_entry toc i;
        let start := s_start_lba s in
        let length := s_length s in
        if negb (Z.land (s_control s) 0x04 =? 0) then toc_tracks toc header_size n (i + 1) ts
        else
          length ← (if (length =? 0) && (i + 1 <? session_count toc)
                    then next ← toc_entry toc (i + 1); Ret (u32 (s_start_lba next - start)) else Ret length);
          let length := if (length =? 0) && (start <? leadout_lba toc) then u32 (leadout_lba toc - start) else length in
          if length =? 0 then toc_tracks toc header_size n (i + 1) ts
          else
            let data_size := u64 (length * CDDA_FRAME_SIZE) in
            toc_tracks toc header_size n (i + 1)
              (ts ++ [mk_track (s_number s) start length data_size (u64 (data_size + header_size)) []])
  end.

(** [malloc] answers the allocations in order: the context, the audio cache, the text
    of the TOC, and two for CD-Text.  The response is the medium's. *)
(* [src: backends/cdda/cdda.c:645-766 cdda_generate_cdtext] *)
Definition cdda_generate_cdtext (malloc : nat → bool) (c : cdda_context) (m : M) : cdda_context * M :=
  if negb (has_media c) then (c, m)
  else
    let '(err, raw, m) := odfs_media_read_cdtext mops m in
    if negb (err_ok err) || (zlen raw <=? 4) then (c, m)
    else if (zlen raw - 4) / 18 =? 0 then (c, m)
    else
      let c := cdda_extract_track_titles c (cdtext_packs raw) in
      if negb (malloc 3%nat && malloc 4%nat) then (c, m)
      else
        match cdtext_generate raw with
        | None => (c, m)
        | Some text => (set_cdtext_text (Some text) c, m)
        end.
Definition cdda_root (is_mixed_mode : bool) : odfs_node :=
  mk_node 0 0 ODFS_BACKEND_CDDA ODFS_NODE_DIR (if is_mixed_mode then str "CDDA" else str "/") 0
    timestamp_zero timestamp_zero 0 amiga_as_zero (mk_extent 0 0) 0.
(** [has_media] says whether the pointer to the medium is given; the audio cache is
    not initialised. *)
(* [src: backends/cdda/cdda.c:1004-1085 cdda_mount_from_toc] *)
Definition cdda_mount_from_toc (malloc : nat → bool) (toc : odfs_toc) (has_data_session : bool)
    (opts : option odfs_mount_opts) (has_media : bool) (m : M)
    : outcome (odfs_err * option (odfs_node * cdda_context) * M) :=
  if negb (malloc 0%nat) then Ret (ODFS_ERR_NOMEM, None, m)
  else
    let format := match opts with
                  | Some o => if prefer_aiff o then CDDA_FILE_FORMAT_AIFF else CDDA_FILE_FORMAT_WAV
                  | None => CDDA_FILE_FORMAT_WAV
                  end in
    ts ← toc_tracks toc (cdda_header_size format) (Z.to_nat (session_count toc)) 0 [];
    if zlen ts =? 0 then Ret (ODFS_ERR_BAD_FORMAT, None, m)
    else
      let c := mk_cdda ts has_data_session format [] [] None None None has_media None 0 0 in
      let c := cdda_set_volume_name c in
      let c := set_audio_cache
                 (if malloc 1%nat then Some (replicate (Z.to_nat (CDDA_READAHEAD_FRAMES * CDDA_FRAME_SIZE)) 0) else None) 0 0 c in
      let c := cdda_generate_cddb (malloc 2%nat) c in
      let '(c, m) := cdda_generate_cdtext malloc c m in
      let c := if negb (is_mixed_mode c) && negb (bool_decide (album_title c = [])) then cdda_set_album_volume_name c else c in
      Ret (ODFS_OK, Some (cdda_root (is_mixed_mode c), c), m).
End mount.

(** ** The backend *)

Section backend.
Context {M X : Type} (mops : odfs_media_ops M).
(** The heap of contexts, one kind of which is [cdda_context]. *)
Context (inj : cdda_context → X) (prj : X → option cdda_context).
Abbreviation heap := (gmap Z X).
Abbreviation W := (world M heap).

(** The context that [ctx] points to. *)
Definition cdda_at (w : W) (ctx : Z) : option cdda_context := w_heap w !! ctx ≫= prj.

(* [src: backends/cdda/cdda.c:1102-1113 cdda_unmount] *)
Definition cdda_unmount (w : W) (ctx : Z) : outcome W :=
  match w_heap w !! ctx with
  | Some _ => Ret (mk_world (w_cache w) (delete ctx (w_heap w)))
  | None => if ctx =? 0 then Ret w else Fault
  end.
Definition cdda_op_readdir (T : Type) (w : W) (ctx : Z) (_ : odfs_node) (cb : odfs_dir_iter_fn T) (t : T) (r : option Z)
    : outcome (odfs_err * option Z * W * T) :=
  match cdda_at w ctx with
  | Some c => '(err, r, t) ← cdda_readdir cb c r t; Ret (err, r, w, t)
  | None => Fault
  end.
Definition cdda_op_read (w : W) (ctx : Z) (file : odfs_node) (offset : Z) (buf : list Z) (len : Z)
    : outcome (odfs_err * list Z * Z * W) :=
  match cdda_at w ctx with
  | Some c =>
      '(err, buf, n, c, m) ← cdda_read mops c (w_medium w) file offset buf len;
      let w := with_medium m w in
      Ret (err, buf, n, mk_world (w_cache w) (<[ctx := inj c]> (w_heap w)))
  | None => Fault
  end.
Definition cdda_op_lookup (w : W) (ctx : Z) (_ : odfs_node) (name : list Z) : outcome (odfs_err * option odfs_node * W) :=
  match cdda_at w ctx with
  | Some c => Ret (cdda_lookup c name, w)
  | None => Fault
  end.
Definition cdda_op_volume_name (w : W) (ctx n : Z) : outcome (odfs_err * list Z * W) :=
  match cdda_at w ctx with
  | Some c => Ret (cdda_get_volume_name c n, w)
  | None => Fault
  end.
Definition cdda_op_volume_size (w : W) (ctx : Z) : outcome Z :=
  match cdda_at w ctx with
  | Some c => Ret (cdda_get_volume_size c)
  | None => Fault
  end.
(** The table of contents is not to be had from the cache, so neither probing nor
    mounting through the table succeeds. *)
(* [src: backends/cdda/cdda.c:971-991 cdda_probe] *)
Definition cdda_probe (w : W) (_ : Z) : outcome (odfs_err * W) := Ret (ODFS_ERR_BAD_FORMAT, w).
(* [src: backends/cdda/cdda.c:1087-1100 cdda_mount] *)
Definition cdda_mount (w : W) (_ : Z) (root : odfs_node) (ctx : Z) : outcome (odfs_err * odfs_node * Z * W) :=
  Ret (ODFS_ERR_UNSUPPORTED, root, ctx, w).
(* [src: backends/cdda/cdda.c:1459-1470 cdda_backend_ops] *)
Definition cdda_backend_ops : odfs_backend_ops W :=
  mk_backend ODFS_BACKEND_CDDA 0 cdda_probe cdda_mount (Some cdda_unmount) (Some cdda_op_readdir) (Some cdda_op_read)
    (Some cdda_op_lookup) None None (Some cdda_op_volume_name) (Some cdda_op_volume_size).
End backend.
