(* ===== verification/CddaRead.v ===== *)
(** * Reading audio tracks

    A track's file is a header followed by the frames of the track as the medium gives
    them, in the byte order of the format.  [cdda_read] returns the bytes of that file
    through the read-ahead cache. *)
From stdpp Require Import strings.
From S2P Require Import Prelude Types Strings Media Cdda.
Open Scope Z_scope.

(** ** Byte order *)

Lemma byteswap_app (n : nat) : ∀ a b, length a = (2 * n)%nat →
  cdda_byteswap_samples (a ++ b) = cdda_byteswap_samples a ++ cdda_byteswap_samples b.
Proof.
  induction n as [|n IH]; intros [|x [|y a]] b Ha; simpl in *; try done; try lia.
  by rewrite IH by lia.
Qed.
Lemma length_byteswap (n : nat) : ∀ a, (length a ≤ n)%nat → length (cdda_byteswap_samples a) = length a.
Proof.
  induction n as [|n IH]; intros [|x [|y a]] Ha; simpl in *; try done; try lia. rewrite IH by lia. done.
Qed.
Lemma length_samples f a : length (samples f a) = length a.
Proof. unfold samples. case_test; [|done]. by apply (length_byteswap (length a)). Qed.
(** The samples of a frame in the order of the format. *)
Definition frame_of (f : cdda_file_format) (aud : Z → list Z) (l : Z) : list Z := samples f (aud l).
Lemma samples_sectors f aud lba n : (∀ l, zlen (aud l) = AUDIO_FRAME) → 0 ≤ n →
  samples f (disc_sectors aud lba n) = disc_sectors (frame_of f aud) lba n.
Proof.
  intros Ha Hn. rewrite <- (Z2Nat.id n) by done. generalize (Z.to_nat n) as k. clear n Hn. intros k. revert lba.
  unfold frame_of, samples. case_test; [|done]. clear E. induction k as [|k IH]; intros lba; [done|].
  rewrite Nat2Z.inj_succ, <- Z.add_1_l, !disc_sectors_app, !disc_sectors_1 by lia.
  rewrite (byteswap_app 1176); [by rewrite IH|]. specialize (Ha lba). unfold AUDIO_FRAME in Ha. lia.
Qed.

(** ** Headers *)

Lemma header_size_cases f : cdda_header_size f = 44 ∨ cdda_header_size f = 54.
Proof. destruct f; [left|right]; reflexivity. Qed.
Lemma length_splice_ge {A} (l : list A) off src n :
  0 ≤ off → off + zlen src ≤ n → zlen l = n → zlen (splice l off src) = n.
Proof. intros. rewrite length_splice; lia. Qed.
Lemma length_header f hdr n : zlen hdr = 54 → zlen (cdda_build_header f hdr n) = 54.
Proof.
  intros H. unfold cdda_build_header. case_test; unfold cdda_build_aiff_header, cdda_build_wav_header;
    repeat (apply length_splice_ge; [lia|vm_compute; done|]); done.
Qed.

(** ** What a track's file holds *)

Section contents.
Context (aud : Z → list Z) (Haud : ∀ l, zlen (aud l) = AUDIO_FRAME).

Definition track_contents (f : cdda_file_format) (t : cdda_track) : list Z :=
  slice (cdda_build_header f (replicate (Z.to_nat CDDA_AIFF_HEADER_SIZE) 0) (u32 (data_size t))) 0 (cdda_header_size f) ++
  disc_sectors (frame_of f aud) (start_lba t) (length_frames t).

(** What mounting makes sure of. *)
Definition track_ok (f : cdda_file_format) (t : cdda_track) : Prop :=
  0 ≤ start_lba t ∧ 0 < length_frames t ∧ start_lba t + length_frames t ≤ 2 ^ 32 ∧
  data_size t = length_frames t * CDDA_FRAME_SIZE ∧ file_size t = data_size t + cdda_header_size f.
(** The audio cache shows frames of the disc. *)
Definition audio_shows (c : cdda_context) : Prop :=
  match audio_cache c with
  | None => True
  | Some b => zlen b = CDDA_READAHEAD_FRAMES * CDDA_FRAME_SIZE ∧
      (audio_cache_frames c = 0 ∨
       0 < audio_cache_frames c ≤ CDDA_READAHEAD_FRAMES ∧ 0 ≤ audio_cache_lba c ∧
       audio_cache_lba c + audio_cache_frames c ≤ 2 ^ 32 ∧
       slice b 0 (audio_cache_frames c * CDDA_FRAME_SIZE) =
         disc_bytes (frame_of (file_format c) aud) CDDA_FRAME_SIZE (audio_cache_lba c * CDDA_FRAME_SIZE)
           (audio_cache_frames c * CDDA_FRAME_SIZE))
  end.

Lemma frame_length f l : zlen (frame_of f aud l) = CDDA_FRAME_SIZE.
Proof. unfold frame_of. rewrite length_samples. apply Haud. Qed.
Lemma track_header f t : zlen (slice (cdda_build_header f (replicate (Z.to_nat CDDA_AIFF_HEADER_SIZE) 0) (u32 (data_size t))) 0 (cdda_header_size f)) = cdda_header_size f.
Proof.
  rewrite length_slice; [|done|..].
  1,2: destruct (header_size_cases f) as [-> | ->]; lia.
  rewrite (length_header f _ (u32 (data_size t))) by done. destruct (header_size_cases f) as [-> | ->]; lia.
Qed.
Lemma length_contents f t : track_ok f t → zlen (track_contents f t) = file_size t.
Proof.
  intros (? & ? & ? & Hd & Hf). unfold track_contents. rewrite length_app, Nat2Z.inj_add, track_header.
  rewrite (length_disc_sectors _ CDDA_FRAME_SIZE) by (apply frame_length || lia). lia.
Qed.
Lemma contents_audio f t o n : track_ok f t → cdda_header_size f ≤ o → 0 ≤ n → o + n ≤ file_size t →
  slice (track_contents f t) o n =
    disc_bytes (frame_of f aud) CDDA_FRAME_SIZE (start_lba t * CDDA_FRAME_SIZE + (o - cdda_header_size f)) n.
Proof.
  intros (? & ? & ? & Hd & Hf) Ho Hn Hfit. unfold track_contents. rewrite slice_app_r by (rewrite track_header; lia).
  rewrite track_header, (disc_sectors_bytes _ CDDA_FRAME_SIZE) by (apply frame_length || (unfold CDDA_FRAME_SIZE; lia)).
  apply slice_disc_bytes; lia.
Qed.

(** The next piece of a file goes behind what the buffer has of it. *)
Lemma put_piece (K buf0 : list Z) offset d n : 0 ≤ offset → 0 ≤ d → 0 ≤ n → offset + d + n ≤ zlen K → d + n ≤ zlen buf0 →
  wr_range (slice K offset d ++ drop (Z.to_nat d) buf0) d (slice K (offset + d) n) =
    Ret (slice K offset (d + n) ++ drop (Z.to_nat (d + n)) buf0).
Proof.
  intros Ho Hd Hn HK Hb. pose proof (length_slice K offset d). pose proof (length_slice K (offset + d) n).
  rewrite wr_range_ok by (try rewrite length_app, length_drop; lia). f_equal.
  pose proof (splice_filled (slice K offset d) (slice K (offset + d) n) buf0) as Hs.
  replace (length (slice K offset d)) with (Z.to_nat d) in Hs by lia. rewrite Z2Nat.id in Hs by lia.
  rewrite Hs, <- slice_add by lia. do 2 f_equal. rewrite length_slice; lia.
Qed.
End contents.

(** ** The read loop *)

Section read.
Context {M : Type} (mops : odfs_media_ops M) (aud : Z → list Z) (Hma : MediaAudio mops aud).
Implicit Types (c : cdda_context) (t : cdda_track) (m : M).

(** Reading the track's frames succeeds. *)
Definition audio_readable (t : cdda_track) : Prop := ∃ f, read_audio mops = Some f ∧ ∀ m lba count buf,
  start_lba t ≤ lba → 0 < count → lba + count ≤ start_lba t + length_frames t → zlen buf = count * AUDIO_FRAME →
  (f m lba count buf).1.1 = ODFS_OK.
(** Only the cache differs. *)
Definition same_disc c c' : Prop := c' = set_audio_cache (audio_cache c') (audio_cache_lba c') (audio_cache_frames c') c.
Lemma same_disc_refl c : same_disc c c.
Proof. by destruct c. Qed.
Lemma same_disc_trans c1 c2 c3 : same_disc c1 c2 → same_disc c2 c3 → same_disc c1 c3.
Proof. unfold same_disc. intros H1 H2. rewrite H2, H1. by destruct c1. Qed.
Lemma same_disc_facts c c' : same_disc c c' → file_format c' = file_format c ∧ has_media c' = has_media c ∧ tracks c' = tracks c.
Proof. unfold same_disc. by intros ->. Qed.

(** The cache after a fill shows the frames from the one wanted on. *)
Definition holds_frame c (lba : Z) : Prop :=
  0 < audio_cache_frames c ∧ audio_cache_lba c ≤ lba < audio_cache_lba c + audio_cache_frames c.
Lemma fill_ok c t k m :
  audio_shows aud c → track_ok (file_format c) t → audio_cache c ≠ None → has_read_audio mops c = true → 0 ≤ k < length_frames t →
  match cdda_fill_audio_cache mops c t k m with (err, c', m') =>
    audio_shows aud c' ∧ same_disc c c' ∧ audio_cache c' ≠ None ∧ (audio_readable t → err = ODFS_OK) ∧
    (err = ODFS_OK → holds_frame c' (start_lba t + k)) end.
Proof.
  intros Hs Ht Hc Hra Hk. unfold cdda_fill_audio_cache. unfold audio_shows in Hs.
  destruct (audio_cache c) as [cache|] eqn:Hcache; [|done]. destruct Hs as [Hlen _]. rewrite Hra. cbn [negb].
  destruct Ht as (H1 & H2 & H3 & Hd & Hf). rewrite (proj2 (Z.leb_gt _ _)) by lia. cbv zeta.
  set (frames := if CDDA_READAHEAD_FRAMES <? length_frames t - k then CDDA_READAHEAD_FRAMES else length_frames t - k).
  assert (Hfr : 0 < frames ≤ CDDA_READAHEAD_FRAMES ∧ frames ≤ length_frames t - k) by (unfold frames, CDDA_READAHEAD_FRAMES; case_test; b2p; lia).
  rewrite (u32_small (start_lba t + k)) by (unfold is_u32; lia).
  unfold CDDA_READAHEAD_FRAMES, CDDA_FRAME_SIZE in Hlen, Hfr |- *.
  unfold has_read_audio in Hra. unfold odfs_media_read_audio. destruct (read_audio mops) as [f|] eqn:Hf'; [|by rewrite andb_false_r in Hra].
  assert (Hsl : zlen (slice cache 0 (frames * 2352)) = frames * 2352) by (rewrite length_slice by lia; lia).
  destruct (f m (start_lba t + k) frames (slice cache 0 (frames * 2352))) as [[err b] m'] eqn:Hr.
  pose proof (ma_buffer f m _ _ _ _ _ _ Hf' Hr) as Hb.
  assert (Hread : audio_readable t → err = ODFS_OK).
  { intros (f' & Hf'' & Hok). rewrite Hf' in Hf''. injection Hf'' as <-.
    specialize (Hok m (start_lba t + k) frames (slice cache 0 (frames * 2352))). rewrite Hr in Hok. apply Hok; unfold AUDIO_FRAME; lia. }
  assert (Hsp : ∀ x : list Z, zlen x = frames * 2352 → zlen (splice cache 0 x) = 75 * 2352).
  { intros x Hx. rewrite length_splice; lia. }
  destruct (err_ok err) eqn:He; cbn [negb]; unfold audio_shows, CDDA_READAHEAD_FRAMES, CDDA_FRAME_SIZE; cbn [audio_cache audio_cache_lba audio_cache_frames set_audio_cache file_format].
  - apply err_ok_true in He as ->.
    apply (ma_read f m _ _ _ _ _ Hf') in Hr; [|unfold AUDIO_FRAME; lia..]. subst b.
    assert (Hfl : zlen (samples (file_format c) (disc_sectors aud (start_lba t + k) frames)) = frames * 2352).
    { rewrite length_samples. lia. }
    split_and!; try done; [by apply Hsp| |unfold holds_frame; simpl; lia]. right. split_and!; try lia.
    unfold splice. change (Z.to_nat 0) with 0%nat. rewrite take_0, app_nil_l. rewrite slice_app_l by lia.
    rewrite slice_all by lia. rewrite samples_sectors by (apply (ma_frame_length (ops := mops)) || lia).
    rewrite (disc_sectors_bytes _ 2352); [done| |lia..]. intros l. apply frame_length, (ma_frame_length (ops := mops)).
  - split_and!; try done; [apply Hsp; lia|by left|]. intros ->. discriminate He.
Qed.

(** A loop's result: the bytes of the file, or an error and nothing. *)
Definition read_result c t (K buf0 : list Z) offset want : odfs_err * list Z * Z * cdda_context * M → Prop := λ '(err, buf', n, c', _),
  audio_shows aud c' ∧ same_disc c c' ∧ length buf' = length buf0 ∧
  (audio_readable t → has_media c = true → data_size t ≤ 2 ^ 32 → err = ODFS_OK) ∧
  if err_ok err then n = want ∧ buf' = slice K offset want ++ drop (Z.to_nat want) buf0 else n = 0.
Lemma read_stop c t K buf0 offset want err buf' m :
  audio_shows aud c → length buf' = length buf0 → err ≠ ODFS_OK →
  (audio_readable t → has_media c = true → data_size t ≤ 2 ^ 32 → False) →
  yields (Ret (err, buf', 0, c, m)) (read_result c t K buf0 offset want).
Proof.
  intros Hs Hl He Hno. apply yields_ret. unfold read_result. split_and!; try done; [by apply same_disc_refl| |].
  - intros ? ? ?. exfalso. by apply Hno.
  - apply err_ok_false in He. by rewrite He.
Qed.
Lemma read_result_same c c' t K buf0 offset want r : same_disc c c' →
  read_result c' t K buf0 offset want r → read_result c t K buf0 offset want r.
Proof.
  destruct r as [[[[err b] n] c2] m]. intros Hsd (H1 & H2 & H3 & H4 & H5). pose proof (same_disc_facts _ _ Hsd) as (_ & Hm & _).
  unfold read_result. split_and!; try done; [by eapply same_disc_trans|by rewrite <- Hm].
Qed.
Lemma length_filled_buf (K buf0 : list Z) offset d :
  0 ≤ offset → 0 ≤ d → offset + d ≤ zlen K → d ≤ zlen buf0 → length (slice K offset d ++ drop (Z.to_nat d) buf0) = length buf0.
Proof. intros. rewrite length_app, length_drop, length_slice by lia. lia. Qed.
End read.

Section loop.
Context {M : Type} (mops : odfs_media_ops M) (aud : Z → list Z) (Hma : MediaAudio mops aud).
Context (t : cdda_track) (offset want : Z) (buf0 : list Z) (Ho : 0 ≤ offset) (Hbuf : want ≤ zlen buf0).
Context (Hwant : offset + want ≤ file_size t).
Implicit Types (c : cdda_context) (m : M).
Abbreviation filled K d := (slice K offset d ++ drop (Z.to_nat d) buf0).

(** A piece that shows the file is copied and the loop goes on. *)
Lemma audio_piece_ok {B} (src : list Z) K off chunk d (k : list Z → outcome B) :
  0 ≤ off → 0 ≤ chunk → off + chunk ≤ zlen src → 0 ≤ d → d + chunk ≤ want → zlen K = file_size t →
  slice src off chunk = slice K (offset + d) chunk →
  (data ← rd_range src off chunk; buf ← wr_range (filled K d) d data; k buf) = k (filled K (d + chunk)).
Proof.
  intros H1 H2 H3 H4 H5 HK Hsl. rewrite rd_range_ok by lia. cbn [mbind outcome_bind]. rewrite Hsl.
  rewrite put_piece by lia. done.
Qed.

(** A cache that contains a frame shows it; a fill makes it so. *)
Lemma contains_holds c lba : audio_shows aud c → cdda_audio_cache_contains c lba = true → holds_frame c lba.
Proof.
  unfold audio_shows, cdda_audio_cache_contains. rewrite !andb_true_iff. intros Hs (((Hc & Hf) & Hl) & Hu). b2p.
  destruct (audio_cache c); [|done]. destruct Hs as [_ [?|(? & ? & Hend & _)]]; [done|]. split; [lia|].
  unfold u32 in Hu. pose proof (Z.mod_le (audio_cache_lba c + audio_cache_frames c) (2 ^ 32)). lia.
Qed.
Lemma cached_frame c k m : audio_shows aud c → track_ok (file_format c) t → audio_cache c ≠ None → has_read_audio mops c = true →
  0 ≤ k < length_frames t →
  match (if negb (cdda_audio_cache_contains c (start_lba t + k)) then cdda_fill_audio_cache mops c t k m else (ODFS_OK, c, m)) with
  | (err, c', m') => audio_shows aud c' ∧ same_disc c c' ∧ audio_cache c' ≠ None ∧ (audio_readable mops t → err = ODFS_OK) ∧
      (err = ODFS_OK → holds_frame c' (start_lba t + k))
  end.
Proof.
  intros Hs Ht Hc Hra Hk. destruct (cdda_audio_cache_contains c (start_lba t + k)) eqn:Hin; cbn [negb].
  - split_and!; try done; [apply same_disc_refl|]. intros _. by apply contains_holds.
  - by apply fill_ok.
Qed.
(** What the cache has of a frame it holds, from a byte of it on. *)
Lemma held_slice c lba r n : audio_shows aud c → audio_cache c ≠ None → holds_frame c lba → 0 ≤ r →
  let off := u32 (lba - audio_cache_lba c) * CDDA_FRAME_SIZE + r in
  0 ≤ n → off + n ≤ audio_cache_frames c * CDDA_FRAME_SIZE →
  0 ≤ off ∧ off + n ≤ zlen (default [] (audio_cache c)) ∧
  slice (default [] (audio_cache c)) off n = disc_bytes (frame_of (file_format c) aud) CDDA_FRAME_SIZE (lba * CDDA_FRAME_SIZE + r) n.
Proof.
  intros Hs Hc (Hf & Hl) Hr off Hn Hfit. unfold audio_shows in Hs. destruct (audio_cache c) as [b|]; [|done].
  destruct Hs as [Hb [?|(H1 & H2 & H3 & Hsl)]]; [lia|]. unfold off in *. change (default [] (Some b)) with b.
  rewrite u32_small in * by (unfold is_u32; lia). unfold CDDA_READAHEAD_FRAMES, CDDA_FRAME_SIZE in *. split_and!; [lia|lia|].
  replace ((lba - audio_cache_lba c) * 2352 + r) with (0 + ((lba - audio_cache_lba c) * 2352 + r)) by lia.
  rewrite <- (slice_slice b 0 (audio_cache_frames c * 2352)) by lia. rewrite Hsl, slice_disc_bytes by lia. f_equal. lia.
Qed.

Lemma read_loop_ok fuel : ∀ c d m,
  let K := track_contents aud (file_format c) t in
  track_ok (file_format c) t → audio_shows aud c →
  cdda_header_size (file_format c) ≤ offset + d ∨ want ≤ d → 0 ≤ d ≤ want → want - d ≤ Z.of_nat fuel →
  yields (read_audio_loop mops fuel c t offset want (filled K d) d m) (read_result mops aud c t K buf0 offset want).
Proof.
  induction fuel as [|fuel IH]; intros c d m K Ht Hs Hh Hd Hfuel;
    assert (HK : zlen K = file_size t) by (apply length_contents; [apply (ma_frame_length (ops := mops))|done]);
    cbn [read_audio_loop]; destruct (Z.leb_spec want d) as [Hdone|Hmore].
  1,3: replace d with want by lia; apply yields_ret; unfold read_result;
    (split_and!; try done; [by apply same_disc_refl|by apply length_filled_buf; lia]).
  { exfalso. lia. }
  destruct Hh as [Hh|]; [|lia]. pose proof Ht as (Hst & Hln & Hend & Hds & Hfs).
  assert (Hfl : length (filled K d) = length buf0) by (apply length_filled_buf; lia).
  unfold CDDA_FRAME_SIZE in Hds. pose proof (header_size_cases (file_format c)) as Hhs.
  set (p := offset + d - cdda_header_size (file_format c)). assert (Hp : 0 ≤ p < length_frames t * 2352) by lia.
  replace (u64 p) with p by (symmetry; apply Z.mod_small; lia).
  case_test; b2p; [by apply read_stop; [..|lia]|]. cbv zeta. unfold CDDA_FRAME_SIZE.
  assert (Hk : 0 ≤ p / 2352 < length_frames t) by dlia. assert (Hoff : 0 ≤ p mod 2352 < 2352) by dlia.
  assert (Hdm : p = p / 2352 * 2352 + p mod 2352) by dlia.
  rewrite (u32_small (start_lba t + p / 2352)) by (unfold is_u32; lia).
  destruct (has_read_audio mops c) eqn:Hra; cbn [negb].
  2:{ apply read_stop; try done. intros (f & Hf & _) Hm _. unfold has_read_audio in Hra. by rewrite Hm, Hf in Hra. }
  assert (Hpiece : ∀ n, 0 ≤ n → d + n ≤ want → slice K (offset + d) n =
    disc_bytes (frame_of (file_format c) aud) 2352 ((start_lba t + p / 2352) * 2352 + p mod 2352) n).
  { intros n Hn Hnw. unfold K. rewrite contents_audio by (apply (ma_frame_length (ops := mops)) || done || lia).
    unfold CDDA_FRAME_SIZE. f_equal. fold p. lia. }
  destruct (audio_cache c) as [cache|] eqn:Hcache.
  - pose proof (cached_frame c (p / 2352) m Hs Ht ltac:(by rewrite Hcache) Hra Hk) as Hfill.
    destruct (if negb _ then _ else _) as [[err c1] m1]. destruct Hfill as (Hs1 & Hsd & Hc1 & Hrd & Hh1).
    pose proof (same_disc_facts _ _ Hsd) as (Hff & _ & _). destruct (err_ok err) eqn:He; cbn [negb].
    2:{ eapply yields_weaken; [apply read_stop; [done|done|by apply err_ok_false|]|intros r; by apply read_result_same].
        intros Hr _ _. by rewrite (Hrd Hr) in He. }
    apply err_ok_true in He as ->. specialize (Hh1 eq_refl).
    set (off := u32 _ * 2352 + _). set (chunk := if _ <? _ then _ else _).
    assert (Hoffs : off = (start_lba t + p / 2352 - audio_cache_lba c1) * 2352 + p mod 2352).
    { unfold off. rewrite u32_small; [done|]. destruct Hh1. unfold is_u32, audio_shows in *. destruct (audio_cache c1); [|done].
      destruct Hs1 as [_ [?|(? & ? & ? & _)]]; lia. }
    assert (Hchunk : 0 < chunk ∧ chunk ≤ want - d ∧ off + chunk ≤ audio_cache_frames c1 * 2352).
    { unfold chunk. destruct Hh1 as [? ?]. case_test; b2p; nia. }
    destruct (held_slice c1 (start_lba t + p / 2352) (p mod 2352) chunk Hs1 Hc1 Hh1 ltac:(lia) ltac:(lia) ltac:(apply Hchunk)) as (Ho1 & Ho2 & Hsl).
    change (u32 (start_lba t + p / 2352 - audio_cache_lba c1) * CDDA_FRAME_SIZE + p mod 2352) with off in Ho1, Ho2, Hsl.
    rewrite (audio_piece_ok _ K off chunk d); [|lia|lia|done|lia|lia|done|rewrite Hsl, Hff; symmetry; apply Hpiece; lia].
    unfold K. rewrite <- Hff. eapply yields_weaken; [apply IH|intros r; by apply read_result_same]; rewrite ?Hff; try done; lia.
  - unfold has_read_audio in Hra. apply andb_true_iff in Hra as [Hm Hra]. unfold odfs_media_read_audio.
    destruct (read_audio mops) as [f|] eqn:Hf; [|done]. destruct (f m _ 1 _) as [[err b] m1] eqn:Hr.
    pose proof (ma_buffer f m _ _ _ _ _ _ Hf Hr) as Hb. rewrite length_replicate in Hb.
    destruct (err_ok err) eqn:He; cbn [negb].
    2:{ apply read_stop; [done|done|by apply err_ok_false|]. intros (f' & Hf' & Hok) _ _. rewrite Hf in Hf'. injection Hf' as <-.
        specialize (Hok m (start_lba t + p / 2352) 1 (replicate (Z.to_nat 2352) 0)). rewrite Hr in Hok.
        simpl in Hok; rewrite Hok in He; [done|lia|lia|lia|done]. }
    apply err_ok_true in He as ->. apply (ma_read f m _ _ _ _ _ Hf) in Hr; [|lia|lia|lia|done]. subst b.
    rewrite disc_sectors_1. set (chunk := if _ <? _ then _ else _).
    assert (Hchunk : 0 < chunk ∧ chunk ≤ want - d ∧ p mod 2352 + chunk ≤ 2352) by (unfold chunk; case_test; b2p; lia).
    fold (frame_of (file_format c) aud (start_lba t + p / 2352)).
    pose proof (frame_length aud (ma_frame_length (ops := mops)) (file_format c)) as Hfr. unfold CDDA_FRAME_SIZE in Hfr.
    rewrite (audio_piece_ok _ K (p mod 2352) chunk d); [|lia|lia|rewrite Hfr; lia|lia|lia|done|].
    + apply IH; try done; lia.
    + rewrite (slice_sector _ 2352) by (done || lia). symmetry. apply Hpiece; lia.
Qed.
End loop.

(** ** Reading a track's file *)

Definition cdda_good (aud : Z → list Z) (c : cdda_context) : Prop :=
  Forall (track_ok (file_format c)) (tracks c) ∧ audio_shows aud c.
(** The node stands for a track, not for one of the texts. *)
Definition track_node (c : cdda_context) (file : odfs_node) (t : cdda_track) : Prop :=
  id file ≠ CDDA_CDDB_NODE_ID ∧ id file ≠ CDDA_CDTEXT_NODE_ID ∧ id file ≠ CDDA_DISK_ICON_NODE_ID ∧
  0 ≤ lba (extent file) < 2 ^ 31 ∧ zget (tracks c) (lba (extent file) - 2) = Some t.

Lemma read_track_ok {M} (mops : odfs_media_ops M) aud c m file t offset buf len :
  MediaAudio mops aud → cdda_good aud c → track_node c file t → 0 ≤ offset → 0 ≤ len ≤ zlen buf → zlen buf < 2 ^ 63 →
  yields (cdda_read mops c m file offset buf len) (λ '(err, buf', n, c', m'),
    cdda_good aud c' ∧ same_disc c c' ∧ length buf' = length buf ∧
    (audio_readable mops t → has_media c = true → data_size t ≤ 2 ^ 32 → err = ODFS_OK) ∧
    if err_ok err then n = Z.max 0 (Z.min len (file_size t - offset)) ∧
      buf' = slice (track_contents aud (file_format c) t) offset n ++ drop (Z.to_nat n) buf
    else n = 0).
Proof.
  intros Hma [Hts Hs] (Hi1 & Hi2 & Hi3 & Hlba & Ht) Ho Hlen Hbuf. unfold cdda_read.
  rewrite !(proj2 (Z.eqb_neq _ _)) by done.
  assert (s32 (lba (extent file)) = lba (extent file)) as ->.
  { unfold s32. rewrite u32_small by (unfold is_u32; lia). by rewrite (proj2 (Z.ltb_lt _ _)) by lia. }
  rewrite Ht. assert (Hok : track_ok (file_format c) t).
  { unfold zget in Ht. destruct (0 <=? _); [|done]. by eapply Forall_lookup_1. }
  destruct (Z.leb_spec (file_size t) offset) as [Hend|Hin].
  { apply yields_ret. split_and!; try done; [apply same_disc_refl|]. rewrite Z.max_l by lia. split; [done|]. by rewrite drop_0. }
  pose proof Hok as (? & ? & ? & Hds & Hfs). unfold CDDA_FRAME_SIZE in Hds. pose proof (header_size_cases (file_format c)) as Hhs.
  cbv zeta. set (want := if file_size t <? u64 (offset + len) then file_size t - offset else len).
  assert (Hw : want = Z.min len (file_size t - offset)).
  { unfold want, u64. rewrite Z.mod_small by lia. case_test; b2p; lia. }
  set (K := track_contents aud (file_format c) t).
  assert (HK : zlen K = file_size t) by (apply length_contents; [apply (ma_frame_length (ops := mops))|done]).
  assert (Hh : yields (read_header c t offset want buf) (λ '(b, d), 0 ≤ d ≤ want ∧
    (cdda_header_size (file_format c) ≤ offset + d ∨ want ≤ d) ∧ b = slice K offset d ++ drop (Z.to_nat d) buf)).
  { unfold read_header. cbv zeta. case_test; b2p.
    2:{ apply yields_ret. split_and!; [lia|lia|left; lia|]. by rewrite drop_0. }
    set (chunk := if _ <? _ then _ else _).
    assert (Hchunk : 0 ≤ chunk ≤ want ∧ offset + chunk ≤ cdda_header_size (file_format c) ∧
      (cdda_header_size (file_format c) ≤ offset + chunk ∨ want ≤ chunk)) by (unfold chunk; case_test; b2p; lia).
    set (hdr := cdda_build_header _ _ _). assert (Hhdr : zlen hdr = 54) by (by apply length_header).
    rewrite rd_range_ok by lia. cbn [mbind outcome_bind].
    assert (slice hdr offset chunk = slice K (offset + 0) chunk) as ->.
    { unfold K, track_contents. rewrite slice_app_l by (rewrite ?track_header; lia). rewrite slice_slice by lia. f_equal. lia. }
    assert (buf = slice K offset 0 ++ drop (Z.to_nat 0) buf) as Hb by (by rewrite drop_0).
    rewrite Hb at 1. rewrite put_piece by lia. cbn [mbind outcome_bind]. apply yields_ret. split_and!; [lia|lia|lia|done]. }
  eapply yields_bind; [exact Hh|]. intros [b d] (Hd & Hhd & ->).
  eapply yields_weaken; [apply (read_loop_ok mops aud Hma t offset want buf); try done; lia|].
  intros [[[[err buf'] n] c'] m'] (G1 & Hsd & G3 & G4 & G5). pose proof (same_disc_facts _ _ Hsd) as (Hff & _ & Hts').
  split_and!; try done; [split; [by rewrite Hff, Hts'|done]|]. destruct (err_ok err); [|done].
  destruct G5 as [-> ->]. split; [lia|done].
Qed.
