(* ===== verification/FileMedia.v ===== *)
(** * Image files as media ([platform/host/file_media.c])

    A disc image on the host's file system, raw or described by a cue sheet.  An open
    file is its contents and a stream: the position, the end-of-file indicator and the
    number of calls made on it.  [io] says which calls fail: a failing seek moves
    nothing, a failing read transfers at most the bytes given.  What the open file and
    the tracks are does not change while a medium is in use, so the medium's state is
    the stream. *)
From stdpp Require Import strings.
From S2P Require Import Prelude Types Strings Media.
Open Scope Z_scope.

(* [src: platform/host/file_media.c:13-16 HOST_SECTOR_SIZE] *)
Definition HOST_SECTOR_SIZE : Z := 2048.
Definition HOST_MAX_CUE_TRACKS : Z := 99.
Definition HOST_CUE_TEXT_MAX : Z := 128.
Definition HOST_AUDIO_FRAME_SIZE : Z := 2352.

(** ** Streams *)
Record stream : Type := mk_stream { st_pos : Z; st_eof : bool; st_calls : nat }.
Definition stream_start : stream := mk_stream 0 false 0.

Section stdio.
Context (io : nat → option Z) (data : list Z).

(** [fseek] to an absolute position. *)
Definition fseek (st : stream) (pos : Z) : bool * stream :=
  match io (st_calls st) with
  | Some _ => (false, mk_stream (st_pos st) (st_eof st) (S (st_calls st)))
  | None => if pos <? 0 then (false, mk_stream (st_pos st) (st_eof st) (S (st_calls st)))
            else (true, mk_stream pos false (S (st_calls st)))
  end.
Definition ftell (st : stream) : option Z * stream :=
  (match io (st_calls st) with Some _ => None | None => Some (st_pos st) end,
   mk_stream (st_pos st) (st_eof st) (S (st_calls st))).
Definition rewind (st : stream) : stream := (fseek st 0).2.
(** [fread] of [n] bytes: the bytes transferred; the end of the file is noticed when
    the call does not fail before. *)
Definition fread (st : stream) (n : Z) : list Z * stream :=
  let bytes := slice data (st_pos st) n in
  let got := match io (st_calls st) with Some k => take (Z.to_nat k) bytes | None => bytes end in
  (got, mk_stream (st_pos st + zlen got) (st_eof st || ((zlen got =? zlen bytes) && (zlen bytes <? n))) (S (st_calls st))).
(** A line with its end, or as much of it as [n] bytes hold. *)
Fixpoint take_line (n : nat) (l : list Z) : list Z :=
  match n, l with
  | S n, b :: l => b :: (if b =? 10 then [] else take_line n l)
  | _, _ => []
  end.
Definition fgets (st : stream) (size : Z) : option (list Z) * stream :=
  let line := take_line (Z.to_nat (size - 1)) (drop (Z.to_nat (st_pos st)) data) in
  match io (st_calls st) with
  | Some _ => (None, mk_stream (st_pos st) (st_eof st) (S (st_calls st)))
  | None => match line with
            | [] => (None, mk_stream (st_pos st) true (S (st_calls st)))
            | _ => (Some line, mk_stream (st_pos st + zlen line) (st_eof st) (S (st_calls st)))
            end
  end.
End stdio.

(** ** Characters and numbers *)

(** [isspace] of the C locale. *)
Definition isspace (ch : Z) : bool := (ch =? 32) || ((9 <=? ch) && (ch <=? 13)).
Fixpoint skip_spaces (s : list Z) : list Z :=
  match s with [] => [] | ch :: r => if isspace ch then skip_spaces r else s end.
(* [src: platform/host/file_media.c:126-138 host_trim] *)
Definition host_trim (s : list Z) : list Z := rev (skip_spaces (rev (skip_spaces s))).
(* [src: platform/host/file_media.c:54-59 host_ascii_tolower] *)
Definition host_ascii_tolower (ch : Z) : Z := if (65 <=? ch) && (ch <=? 90) then ch + (97 - 65) else ch.
(* [src: platform/host/file_media.c:61-81 host_ext_eq] *)
Definition host_ext_eq (path ext : list Z) : bool :=
  if zlen path <? zlen ext then false
  else bool_decide (map host_ascii_tolower (drop (length path - length ext) path) = map host_ascii_tolower ext).
(** The part of a path up to its last slash. *)
Fixpoint from_slash (rpath : list Z) : list Z :=
  match rpath with [] => [] | ch :: r => if ch =? 47 then rpath else from_slash r end.
(** [alloc] says whether memory can be had. *)
(* [src: platform/host/file_media.c:83-97 host_strdup] *)
Definition host_strdup (alloc : bool) (s : list Z) : option (list Z) := if alloc then Some s else None.
(* [src: platform/host/file_media.c:99-124 host_join_relative_path] *)
Definition host_join_relative_path (alloc : bool) (base_path name : list Z) : option (list Z) :=
  if bool_decide (head name = Some 47) then host_strdup alloc name
  else if negb alloc then None
  else Some (rev (from_slash (rev base_path)) ++ name).

(** The conversions of [sscanf] the parser uses.  [%u] skips spaces and takes an
    optional sign and digits, of at most [width] characters; the value wraps around. *)
Fixpoint scan_digits (n : nat) (value : Z) (s : list Z) : Z * list Z :=
  match n, s with
  | S n, ch :: r => if (48 <=? ch) && (ch <=? 57) then scan_digits n (value * 10 + (ch - 48)) r else (value, s)
  | _, _ => (value, s)
  end.
Definition is_digit (s : list Z) : bool := match s with ch :: _ => (48 <=? ch) && (ch <=? 57) | [] => false end.
Definition scan_uint (width : nat) (s : list Z) : option (Z * list Z) :=
  let s := skip_spaces s in
  match width, s with
  | S w, ch :: r =>
      if (ch =? 43) || (ch =? 45) then
        if negb (Nat.eqb w 0) && is_digit r then
          let '(v, r) := scan_digits w 0 r in Some (u32 (if ch =? 45 then - v else v), r)
        else None
      else if is_digit s then let '(v, r) := scan_digits width 0 s in Some (u32 v, r) else None
  | _, _ => None
  end.
(** A literal character. *)
Definition scan_char (ch : Z) (s : list Z) : option (list Z) :=
  match s with c :: r => if c =? ch then Some r else None | [] => None end.
(** [%ns]: a word of at most [n] characters. *)
Fixpoint take_word (n : nat) (s : list Z) : list Z :=
  match n, s with
  | S n, ch :: r => if isspace ch then [] else ch :: take_word n r
  | _, _ => []
  end.
Definition scan_word (n : nat) (s : list Z) : option (list Z) :=
  match take_word n (skip_spaces s) with [] => None | w => Some w end.
(** [strchr]: from the character on. *)
Fixpoint strchr (s : list Z) (ch : Z) : option (list Z) :=
  match s with [] => None | c :: r => if c =? ch then Some s else strchr r ch end.
Fixpoint before_char (s : list Z) (ch : Z) : list Z :=
  match s with [] => [] | c :: r => if c =? ch then [] else c :: before_char r ch end.

(** ** Cue sheets *)

(* [src: platform/host/file_media.c:18-28 cue_track_t] *)
Record cue_track : Type := mk_cue_track {
  ct_start_lba : Z; ct_sector_count : Z; ct_raw_sector_size : Z; ct_data_offset : Z; ct_file_offset : Z;
  ct_number : Z; ct_is_audio : bool; ct_title : list Z; ct_performer : list Z }.
(** [fm_data] are the contents of the open file. *)
(* [src: platform/host/file_media.c:30-39 file_media_ctx_t] *)
Record file_media_ctx : Type := mk_fm {
  fm_data : list Z; fm_sector_count : Z; fm_is_cue : bool; fm_has_audio : bool;
  fm_disc_title : list Z; fm_disc_performer : list Z; fm_tracks : list cue_track }.
(* [src: platform/host/file_media.c:41-50 cue_track_spec_t] *)
Record cue_track_spec : Type := mk_spec {
  cs_start_lba : Z; cs_raw_sector_size : Z; cs_data_offset : Z; cs_have_index : bool; cs_number : Z;
  cs_is_audio : bool; cs_title : list Z; cs_performer : list Z }.
Definition spec_set_index v s := mk_spec v (cs_raw_sector_size s) (cs_data_offset s) true (cs_number s) (cs_is_audio s) (cs_title s) (cs_performer s).
Definition spec_set_title v s := mk_spec (cs_start_lba s) (cs_raw_sector_size s) (cs_data_offset s) (cs_have_index s) (cs_number s) (cs_is_audio s) v (cs_performer s).
Definition spec_set_performer v s := mk_spec (cs_start_lba s) (cs_raw_sector_size s) (cs_data_offset s) (cs_have_index s) (cs_number s) (cs_is_audio s) (cs_title s) v.

(* [src: platform/host/file_media.c:140-148 cue_parse_msf] *)
Definition cue_parse_msf (s : list Z) : option Z :=
  '(mm, s) ← scan_uint 2 s; s ← scan_char 58 s;
  '(ss, s) ← scan_uint 2 s; s ← scan_char 58 s;
  '(ff, _) ← scan_uint 2 s;
  Some (u32 ((mm * 60 + ss) * 75 + ff)).
(** The sector size, the offset of the data in a sector, and whether it is audio. *)
(* [src: platform/host/file_media.c:150-178 cue_parse_track_layout] *)
Definition cue_parse_track_layout (mode : list Z) : option (Z * Z * bool) :=
  if bool_decide (mode = str "MODE1/2048") then Some (2048, 0, false)
  else if bool_decide (mode = str "MODE1/2352") then Some (2352, 16, false)
  else if bool_decide (mode = str "MODE2/2352") then Some (2352, 24, false)
  else if bool_decide (mode = str "AUDIO") then Some (HOST_AUDIO_FRAME_SIZE, 0, true)
  else None.
(* [src: platform/host/file_media.c:180-202 cue_parse_file_line] *)
Definition cue_parse_file_line (line : list Z) (file_name_size : Z) : option (list Z) :=
  start ← strchr line 34;
  let start := drop 1 start in
  _ ← strchr start 34;
  let name := before_char start 34 in
  if file_name_size <? zlen name + 1 then None else Some name.
(* [src: platform/host/file_media.c:208-232 cue_parse_text_value] *)
Definition cue_parse_text_value (s : list Z) (dst_size : Z) : list Z :=
  let s := skip_spaces s in
  let value := match s with ch :: r => if ch =? 34 then before_char r 34 else s | [] => [] end in
  if dst_size <=? zlen value then take (Z.to_nat (dst_size - 1)) value else value.

(** What the parser has gathered; [cue_specs] are the tracks so far. *)
Record cue_state : Type := mk_cue {
  current_file : list Z; first_file : list Z; cue_disc_title : list Z; cue_disc_performer : list Z;
  cue_specs : list cue_track_spec }.
Definition cue_start : cue_state := mk_cue [] [] [] [] [].
(** Change the track the sheet is at. *)
Definition set_last_spec (f : cue_track_spec → cue_track_spec) (cs : cue_state) : cue_state :=
  mk_cue (current_file cs) (first_file cs) (cue_disc_title cs) (cue_disc_performer cs)
    (zupd (cue_specs cs) (zlen (cue_specs cs) - 1) f).
(** The line begins with a keyword and a space. *)
Definition keyword (kw line : list Z) : bool :=
  bool_decide (take (length kw) line = kw) && isspace (default 0 (zget line (zlen kw))).
Definition has_track (cs : cue_state) : bool := negb (zlen (cue_specs cs) =? 0).

(** One line, trimmed and not empty. *)
(* [src: platform/host/file_media.c:308-381 cue_media_open] *)
Definition cue_line (line : list Z) (cs : cue_state) : odfs_err + cue_state :=
  if keyword (str "FILE") line then
    match cue_parse_file_line line 512 with
    | None => inl ODFS_ERR_BAD_FORMAT
    | Some name =>
        let cs := mk_cue name (first_file cs) (cue_disc_title cs) (cue_disc_performer cs) (cue_specs cs) in
        if bool_decide (first_file cs = [])
        then inr (mk_cue name name (cue_disc_title cs) (cue_disc_performer cs) (cue_specs cs))
        else if negb (bool_decide (first_file cs = name)) then inl ODFS_ERR_UNSUPPORTED
        else inr cs
    end
  else if keyword (str "TRACK") line then
    if HOST_MAX_CUE_TRACKS <=? zlen (cue_specs cs) then inl ODFS_ERR_RANGE
    else if bool_decide (current_file cs = []) then inl ODFS_ERR_BAD_FORMAT
    else
      match ('(track_num, r) ← scan_uint (length line) (drop 5 line);
             mode ← scan_word 31 r;
             if (track_num =? 0) || (99 <? track_num) then None
             else '(raw, off, audio) ← cue_parse_track_layout mode; Some (mk_spec 0 raw off false track_num audio [] [])) with
      | None => inl ODFS_ERR_UNSUPPORTED
      | Some spec =>
          inr (mk_cue (current_file cs) (first_file cs) (cue_disc_title cs) (cue_disc_performer cs) (cue_specs cs ++ [spec]))
      end
  else if keyword (str "TITLE") line then
    let v := cue_parse_text_value (drop 6 line) HOST_CUE_TEXT_MAX in
    inr (if has_track cs then set_last_spec (spec_set_title v) cs
         else mk_cue (current_file cs) (first_file cs) v (cue_disc_performer cs) (cue_specs cs))
  else if keyword (str "PERFORMER") line then
    let v := cue_parse_text_value (drop 10 line) HOST_CUE_TEXT_MAX in
    inr (if has_track cs then set_last_spec (spec_set_performer v) cs
         else mk_cue (current_file cs) (first_file cs) (cue_disc_title cs) v (cue_specs cs))
  else if bool_decide (take 8 line = str "INDEX 01") && ((zlen line =? 8) || isspace (default 0 (zget line 8))) then
    if negb (has_track cs) then inl ODFS_ERR_BAD_FORMAT
    else match cue_parse_msf (drop 8 line) with
         | None => inl ODFS_ERR_BAD_FORMAT
         | Some frames => inr (set_last_spec (spec_set_index frames) cs)
         end
  else inr cs.
(** Lines of up to 511 bytes, each up to a NUL in it. *)
(* [src: platform/host/file_media.c:301-382 cue_media_open] *)
Fixpoint cue_lines (io : nat → option Z) (data : list Z) (fuel : nat) (st : stream) (cs : cue_state)
    : outcome (odfs_err + cue_state) :=
  match fuel with
  | O => Diverge
  | S fuel =>
      let '(line, st) := fgets io data st 512 in
      match line with
      | None => Ret (inr cs)
      | Some line =>
          let trimmed := host_trim (c_str line) in
          if bool_decide (trimmed = []) then cue_lines io data fuel st cs
          else match cue_line trimmed cs with
               | inl err => Ret (inl err)
               | inr cs => cue_lines io data fuel st cs
               end
      end
  end.

(** ** The data in a RIFF file *)

(** The chunks from the position on; every round reads eight bytes. *)
(* [src: platform/host/file_media.c:251-270 host_riff_data_range] *)
Fixpoint riff_chunks (io : nat → option Z) (data : list Z) (fuel : nat) (st : stream) : outcome (option (Z * Z) * stream) :=
  match fuel with
  | O => Diverge
  | S fuel =>
      let '(chdr, st) := fread io data st 8 in
      match chdr with
      | [b0; b1; b2; b3; b4; b5; b6; b7] =>
          let csize := le32 b4 b5 b6 b7 in
          if bool_decide ([b0; b1; b2; b3] = str "data") then
            let '(pos, st) := ftell io st in
            match pos with
            | None => Ret (None, st)
            | Some pos => Ret (if pos <? 0 then None else Some (pos, csize), st)
            end
          else
            let '(ok, st) := fseek io st (st_pos st + u32 (csize + Z.land csize 1)) in
            if (ok : bool) then riff_chunks io data fuel st else Ret (None, st)
      | _ => Ret (None, st)
      end
  end.
(** The start and size of the data chunk, if this is a RIFF/WAVE file. *)
(* [src: platform/host/file_media.c:240-271 host_riff_data_range] *)
Definition host_riff_data_range (io : nat → option Z) (data : list Z) (st : stream) : outcome (option (Z * Z) * stream) :=
  let st := rewind io st in
  let '(hdr, st) := fread io data st 12 in
  if negb (zlen hdr =? 12) then Ret (None, st)
  else if negb (bool_decide (take 4 hdr = str "RIFF")) || negb (bool_decide (slice hdr 8 4 = str "WAVE")) then Ret (None, st)
  else riff_chunks io data (S (length data)) st.

(** ** Opening *)

(** The tracks' places in the payload; every track ends where the next begins. *)
(* [src: platform/host/file_media.c:437-480 cue_media_open] *)
Fixpoint lay_tracks (payload_base payload_size : Z) (specs : list cue_track_spec) (ts : list cue_track) (has_audio : bool)
    (sector_count : Z) : odfs_err + list cue_track * bool * Z :=
  match specs with
  | [] => inr (ts, has_audio, sector_count)
  | s :: rest =>
      let start_offset := payload_base + cs_start_lba s * cs_raw_sector_size s in
      let next := head rest in
      if match next with Some n => negb (cs_raw_sector_size n =? cs_raw_sector_size s) | None => false end
      then inl ODFS_ERR_UNSUPPORTED
      else
        let end_offset := match next with
                          | Some n => payload_base + cs_start_lba n * cs_raw_sector_size s
                          | None => payload_base + payload_size
                          end in
        if (end_offset <? start_offset) || negb ((end_offset - start_offset) mod cs_raw_sector_size s =? 0)
        then inl ODFS_ERR_BAD_FORMAT
        else
          let n := u32 ((end_offset - start_offset) / cs_raw_sector_size s) in
          let t := mk_cue_track (cs_start_lba s) n (cs_raw_sector_size s) (cs_data_offset s) start_offset (cs_number s)
                     (cs_is_audio s) (cs_title s) (cs_performer s) in
          let track_end := u32 (cs_start_lba s + n) in
          lay_tracks payload_base payload_size rest (ts ++ [t]) (cs_is_audio s || has_audio)
            (if sector_count <? track_end then track_end else sector_count)
  end.

Section open.
(** The files there are; [io] is for the first stream, [io'] for the payload of a cue
    sheet; [malloc] for the name of the payload and the context. *)
Context (fs : list Z → option (list Z)) (io io' : nat → option Z) (malloc : nat → bool).

(** The size of an open file, found by seeking to its end. *)
(* [src: platform/host/file_media.c:410-420 cue_media_open] *)
Definition file_length (io : nat → option Z) (data : list Z) (st : stream) : option Z * stream :=
  let '(ok, st) := fseek io st (zlen data) in
  if (ok : bool) then ftell io st else (None, st).
(* [src: platform/host/file_media.c:273-486 cue_media_open] *)
Definition cue_media_open (path : list Z) : outcome (odfs_err * option (file_media_ctx * stream)) :=
  match fs path with
  | None => Ret (ODFS_ERR_IO, None)
  | Some sheet =>
      r ← cue_lines io sheet (S (length sheet)) stream_start cue_start;
      match r with
      | inl err => Ret (err, None)
      | inr cs =>
          if negb (has_track cs) || bool_decide (first_file cs = []) then Ret (ODFS_ERR_BAD_FORMAT, None)
          else if negb (forallb cs_have_index (cue_specs cs)) then Ret (ODFS_ERR_BAD_FORMAT, None)
          else
            match host_join_relative_path (malloc 0%nat) path (first_file cs) with
            | None => Ret (ODFS_ERR_NOMEM, None)
            | Some bin_path =>
                if negb (malloc 1%nat) then Ret (ODFS_ERR_NOMEM, None)
                else
                  match fs bin_path with
                  | None => Ret (ODFS_ERR_IO, None)
                  | Some data =>
                      let '(file_size, st) := file_length io' data stream_start in
                      match file_size with
                      | None => Ret (ODFS_ERR_IO, None)
                      | Some file_size =>
                          '(range, st) ← host_riff_data_range io' data st;
                          let '(payload_base, payload_size) :=
                            match range with
                            | Some (base, size) => (base, if file_size <? base + size then file_size - base else size)
                            | None => (0, file_size)
                            end in
                          let st := rewind io' st in
                          match lay_tracks payload_base payload_size (cue_specs cs) [] false 0 with
                          | inl err => Ret (err, None)
                          | inr (ts, has_audio, sector_count) =>
                              Ret (ODFS_OK, Some (mk_fm data sector_count true has_audio (cue_disc_title cs)
                                                    (cue_disc_performer cs) ts, st))
                          end
                      end
                  end
            end
      end
  end.
(* [src: platform/host/file_media.c:801-841 odfs_media_open_image] *)
Definition odfs_media_open_image (path : list Z) : outcome (odfs_err * option (file_media_ctx * stream)) :=
  if host_ext_eq path (str ".cue") then cue_media_open path
  else if negb (malloc 1%nat) then Ret (ODFS_ERR_NOMEM, None)
  else
    match fs path with
    | None => Ret (ODFS_ERR_IO, None)
    | Some data =>
        let '(file_size, st) := file_length io data stream_start in
        match file_size with
        | None => Ret (ODFS_ERR_IO, None)
        | Some file_size =>
            let st := rewind io st in
            Ret (ODFS_OK, Some (mk_fm data (u32 (file_size / HOST_SECTOR_SIZE)) false false [] [] [], st))
        end
    end.
End open.

(** ** CD-Text *)

(** The bits of a byte, shifted through the register. *)
(* [src: platform/host/file_media.c:640-642 cdtext_crc16] *)
Fixpoint crc_bits (n : nat) (crc : Z) : Z :=
  match n with
  | O => crc
  | S n => crc_bits n (if negb (Z.land crc 0x8000 =? 0) then u16 (Z.lxor (Z.shiftl crc 1) 0x1021) else u16 (Z.shiftl crc 1))
  end.
(* [src: platform/host/file_media.c:632-645 cdtext_crc16] *)
Definition cdtext_crc16 (p : list Z) : Z :=
  u16 (Z.lnot (fold_left (λ crc b, crc_bits 8 (Z.lxor crc (u16 (Z.shiftl b 8)))) p 0)).
(** [w_buf] are the packs written behind the header of the response; [w_data] is as
    long as it is filled. *)
(* [src: platform/host/file_media.c:647-656 cdtext_writer_t] *)
Record cdtext_writer : Type := mk_writer {
  w_buf : list Z; w_packs : Z; w_seq : Z; w_type : Z; w_first_track : Z; w_first_pos : Z; w_data : list Z }.
Definition writer_zero : cdtext_writer := mk_writer [] 0 0 0 0 0 [].
(* [src: platform/host/file_media.c:658-679 cdtext_writer_flush] *)
Definition cdtext_writer_flush (w : cdtext_writer) : cdtext_writer :=
  if zlen (w_data w) =? 0 then w
  else
    let data := w_data w ++ replicate (12 - length (w_data w)) 0 in
    let pack := [w_type w; w_first_track w; w_seq w; w_first_pos w] ++ data in
    let crc := cdtext_crc16 pack in
    mk_writer (w_buf w ++ pack ++ [u8 (Z.shiftr crc 8); u8 crc]) (w_packs w + 1) (u8 (w_seq w + 1))
      (w_type w) (w_first_track w) (w_first_pos w) [].
(** The characters of a string and its NUL, from position [pos] on. *)
(* [src: platform/host/file_media.c:688-697 cdtext_writer_put] *)
Fixpoint put_chars (type track : Z) (pos : Z) (s : list Z) (w : cdtext_writer) : cdtext_writer :=
  match s with
  | [] => w
  | ch :: s =>
      let w := if zlen (w_data w) =? 0
               then mk_writer (w_buf w) (w_packs w) (w_seq w) type track (u8 (if pos <? 15 then pos else 15)) []
               else w in
      let w := mk_writer (w_buf w) (w_packs w) (w_seq w) (w_type w) (w_first_track w) (w_first_pos w) (w_data w ++ [u8 ch]) in
      put_chars type track (pos + 1) s (if zlen (w_data w) =? 12 then cdtext_writer_flush w else w)
  end.
(* [src: platform/host/file_media.c:681-698 cdtext_writer_put] *)
Definition cdtext_writer_put (type track : Z) (s : list Z) (w : cdtext_writer) : cdtext_writer :=
  put_chars type track 0 (s ++ [0]) w.
(** A string of the disc and one of every track. *)
(* [src: platform/host/file_media.c:742-748 file_read_cdtext] *)
Definition put_strings (type : Z) (disc : list Z) (ts : list (Z * list Z)) (w : cdtext_writer) : cdtext_writer :=
  cdtext_writer_flush (fold_left (λ w t, cdtext_writer_put type t.1 t.2 w) ts (cdtext_writer_put type 0 disc w)).

(** ** The operations of the medium *)

Section ops.
Context (io : nat → option Z) (fm : file_media_ctx).
(** What is read into a buffer; the caller's buffer holds what it asks for. *)
Definition store (buf : list Z) (off : Z) (src : list Z) : list Z := take (length buf) (splice buf off src).
(** The error of a read that came short. *)
Definition short_read (st : stream) : odfs_err := if st_eof st then ODFS_ERR_EOF else ODFS_ERR_IO.
(* [src: platform/host/file_media.c:522-528 file_read_sectors] *)
Definition find_track (lba : Z) : option cue_track :=
  match list_find (λ t, ct_start_lba t ≤ lba ∧ lba < u32 (ct_start_lba t + ct_sector_count t)) (fm_tracks fm) with
  | Some (_, t) => Some t
  | None => None
  end.
(** [pos] is where the next sector goes. *)
(* [src: platform/host/file_media.c:511-555 file_read_sectors] *)
Fixpoint cue_read_loop (n : nat) (lba : Z) (buf : list Z) (pos : Z) (st : stream) : odfs_err * list Z * stream :=
  match n with
  | O => (ODFS_OK, buf, st)
  | S n =>
      if fm_sector_count fm <=? lba then (ODFS_ERR_EOF, buf, st)
      else
        match find_track lba with
        | None => (ODFS_ERR_EOF, buf, st)
        | Some track =>
            let raw_offset := ct_file_offset track + (lba - ct_start_lba track) * ct_raw_sector_size track in
            if (ct_raw_sector_size track =? HOST_SECTOR_SIZE) && (ct_data_offset track =? 0) then
              let '(ok, st) := fseek io st raw_offset in
              if negb ok then (ODFS_ERR_IO, buf, st)
              else
                let '(got, st) := fread io (fm_data fm) st HOST_SECTOR_SIZE in
                let buf := store buf pos got in
                if negb (zlen got =? HOST_SECTOR_SIZE) then (short_read st, buf, st)
                else cue_read_loop n (u32 (lba + 1)) buf (pos + HOST_SECTOR_SIZE) st
            else if 2352 <? ct_raw_sector_size track then (ODFS_ERR_UNSUPPORTED, buf, st)
            else
              let '(ok, st) := fseek io st raw_offset in
              if negb ok then (ODFS_ERR_IO, buf, st)
              else
                let '(got, st) := fread io (fm_data fm) st (ct_raw_sector_size track) in
                if negb (zlen got =? ct_raw_sector_size track) then (short_read st, buf, st)
                else cue_read_loop n (u32 (lba + 1)) (store buf pos (slice got (ct_data_offset track) HOST_SECTOR_SIZE))
                       (pos + HOST_SECTOR_SIZE) st
        end
  end.
(* [src: platform/host/file_media.c:488-558 file_read_sectors] *)
Definition file_read_sectors (st : stream) (lba count : Z) (buf : list Z) : odfs_err * list Z * stream :=
  if negb (fm_is_cue fm) then
    let total := count * HOST_SECTOR_SIZE in
    let '(ok, st) := fseek io st (lba * HOST_SECTOR_SIZE) in
    if negb ok then (ODFS_ERR_IO, buf, st)
    else
      let '(got, st) := fread io (fm_data fm) st total in
      let buf := store buf 0 got in
      if negb (zlen got =? total) then (short_read st, buf, st) else (ODFS_OK, buf, st)
  else cue_read_loop (Z.to_nat count) lba buf 0 st.
(* [src: platform/host/file_media.c:560-581 file_read_toc] *)
Definition file_read_toc (st : stream) (toc : odfs_toc) : odfs_err * odfs_toc * stream :=
  if negb (fm_is_cue fm) || (zlen (fm_tracks fm) =? 0) then (ODFS_ERR_UNSUPPORTED, toc, st)
  else
    (ODFS_OK, mk_toc 1 1 (u8 (zlen (fm_tracks fm))) (fm_sector_count fm)
       (splice (replicate 99 session_zero) 0
          (map (λ t, mk_session (ct_number t) (if ct_is_audio t then 0x00 else 0x04) (ct_start_lba t) (ct_sector_count t))
             (fm_tracks fm))), st).
(* [src: platform/host/file_media.c:592-622 file_read_audio] *)
Fixpoint audio_read_loop (n : nat) (lba : Z) (buf : list Z) (pos : Z) (st : stream) : odfs_err * list Z * stream :=
  match n with
  | O => (ODFS_OK, buf, st)
  | S n =>
      match find_track lba with
      | None => (ODFS_ERR_EOF, buf, st)
      | Some track =>
          if negb (ct_raw_sector_size track =? HOST_AUDIO_FRAME_SIZE) then (ODFS_ERR_UNSUPPORTED, buf, st)
          else
            let raw_offset := ct_file_offset track + (lba - ct_start_lba track) * HOST_AUDIO_FRAME_SIZE in
            let '(ok, st) := fseek io st raw_offset in
            if negb ok then (ODFS_ERR_IO, buf, st)
            else
              let '(got, st) := fread io (fm_data fm) st HOST_AUDIO_FRAME_SIZE in
              let buf := store buf pos got in
              if negb (zlen got =? HOST_AUDIO_FRAME_SIZE) then (short_read st, buf, st)
              else audio_read_loop n (u32 (lba + 1)) buf (pos + HOST_AUDIO_FRAME_SIZE) st
      end
  end.
(* [src: platform/host/file_media.c:583-624 file_read_audio] *)
Definition file_read_audio (st : stream) (lba count : Z) (buf : list Z) : odfs_err * list Z * stream :=
  if negb (fm_is_cue fm) then (ODFS_ERR_UNSUPPORTED, buf, st)
  else audio_read_loop (Z.to_nat count) lba buf 0 st.

Definition have_strings (disc : list Z) (ss : list (list Z)) : bool :=
  existsb (λ s, negb (bool_decide (s = []))) (disc :: ss).
Definition numbered (f : cue_track → list Z) : list (Z * list Z) := map (λ t, (ct_number t, f t)) (fm_tracks fm).
(** The packs a set of strings takes. *)
Definition packs_for (disc : list Z) (ss : list (list Z)) : Z :=
  (fold_left (λ n s, n + (zlen s + 1)) ss (zlen disc + 1) + 11) / 12.
Definition pack_cap : Z :=
  (if have_strings (fm_disc_title fm) (map ct_title (fm_tracks fm)) then packs_for (fm_disc_title fm) (map ct_title (fm_tracks fm)) else 0) +
  (if have_strings (fm_disc_performer fm) (map ct_performer (fm_tracks fm))
   then packs_for (fm_disc_performer fm) (map ct_performer (fm_tracks fm)) else 0).
(** [alloc] says whether the response, of [4 + 18 * pack_cap] bytes, can be had. *)
(* [src: platform/host/file_media.c:700-766 file_read_cdtext] *)
Definition file_read_cdtext (alloc : bool) (st : stream) : odfs_err * list Z * stream :=
  let have_title := have_strings (fm_disc_title fm) (map ct_title (fm_tracks fm)) in
  let have_performer := have_strings (fm_disc_performer fm) (map ct_performer (fm_tracks fm)) in
  if negb (fm_is_cue fm) then (ODFS_ERR_UNSUPPORTED, [], st)
  else if negb have_title && negb have_performer then (ODFS_ERR_UNSUPPORTED, [], st)
  else if negb alloc then (ODFS_ERR_NOMEM, [], st)
  else
    let w := writer_zero in
    let w := if have_title then put_strings 0x80 (fm_disc_title fm) (numbered ct_title) w else w in
    let w := if have_performer then put_strings 0x81 (fm_disc_performer fm) (numbered ct_performer) w else w in
    let total := 4 + w_packs w * 18 in
    (ODFS_OK, [u8 (Z.shiftr (total - 2) 8); u8 (total - 2); 0; 0] ++ w_buf w, st).
(** [file_sector_size], [file_sector_count], [file_close]. *)
(* [src: platform/host/file_media.c:790-799 file_media_ops] *)
Definition file_media_ops (alloc : bool) : odfs_media_ops stream :=
  mk_media_ops stream file_read_sectors (λ _, HOST_SECTOR_SIZE) (λ _, fm_sector_count fm) (Some file_read_toc) None
    (Some file_read_audio) (Some (file_read_cdtext alloc)) (Some (λ st, st)).
End ops.
