(* ===== verification/FileMediaProofs.v ===== *)
(** * Image files show a disc

    What the operations of [FileMedia] read: the sectors of a raw image, the sectors
    and audio frames of the tracks of a cue sheet.  An open image is a medium as the
    rest of the development expects it ([MediaReads], [CleanFailure], [MediaAudio]). *)
From stdpp Require Import strings.
From S2P Require Import Prelude Types Strings Media FileMedia.
Open Scope Z_scope.

(** ** Streams *)

Section streams.
Context (io : nat → option Z) (data : list Z).

Lemma fseek_true st p st' : fseek io st p = (true, st') → st_pos st' = p ∧ 0 ≤ p.
Proof. unfold fseek. destruct (io _); [done|]. case_test; [done|]. intros [= <-]. b2p. done. Qed.
Lemma fseek_false st p st' : fseek io st p = (false, st') → st_pos st' = st_pos st.
Proof. unfold fseek. destruct (io _); [by intros [= <-]|]. case_test; by intros [= <-]. Qed.
Lemma fread_pos st n got st' : fread io data st n = (got, st') → st_pos st' = st_pos st + zlen got.
Proof. unfold fread. by intros [= <- <-]. Qed.
Lemma fread_prefix st n got st' : 0 ≤ st_pos st → fread io data st n = (got, st') →
  zlen got = n → got = slice data (st_pos st) n ∧ (0 < n → st_pos st' = st_pos st + n ∧ st_pos st' ≤ zlen data).
Proof.
  intros Hp Hr Hg. rewrite (fread_pos _ _ _ _ Hr), Hg. revert Hr Hg. unfold fread. set (b := slice data (st_pos st) n).
  assert (Hb : zlen b ≤ Z.max 0 n ∧ (zlen b = n → 0 < n → st_pos st + n ≤ zlen data)).
  { unfold b, slice. rewrite length_take, length_drop. lia. }
  destruct (io _) as [k|]; intros [= <- _] Hg; [|tauto].
  rewrite length_take in Hg. rewrite take_ge; [split; [done|]; intros; split; [done|]; apply Hb; lia|]. lia.
Qed.
(** Without failing calls everything there is is read. *)
Lemma fread_all st n : (∀ k, io k = None) → (fread io data st n).1 = slice data (st_pos st) n.
Proof. intros H. unfold fread. by rewrite H. Qed.
Lemma fseek_all st p : (∀ k, io k = None) → 0 ≤ p → fseek io st p = (true, mk_stream p false (S (st_calls st))).
Proof. intros H Hp. unfold fseek. rewrite H. by rewrite (proj2 (Z.ltb_ge _ _)). Qed.
End streams.

Lemma length_store buf off src : length (store buf off src) = length buf.
Proof.
  unfold store, splice. rewrite length_take, !length_app, length_take, length_drop. lia.
Qed.
Lemma store_fits buf off src : 0 ≤ off → off + zlen src ≤ zlen buf → store buf off src = splice buf off src.
Proof. intros. unfold store. apply take_ge. rewrite length_splice; lia. Qed.

(** ** Sectors of a file *)

(** [n] bytes from [off] on, zeros beyond the end. *)
Definition file_bytes (data : list Z) (off n : Z) : list Z :=
  let b := slice data off n in b ++ replicate (Z.to_nat n - length b) 0.
Lemma length_file_bytes data off n : zlen (file_bytes data off n) = Z.max 0 n.
Proof.
  unfold file_bytes. rewrite length_app, length_replicate. unfold slice. rewrite length_take. lia.
Qed.
Lemma file_bytes_inside data off n : 0 ≤ off → 0 ≤ n → off + n ≤ zlen data → file_bytes data off n = slice data off n.
Proof.
  intros. unfold file_bytes. rewrite length_slice by lia. rewrite Nat.sub_diag. apply app_nil_r.
Qed.
Lemma file_bytes_bytes data off n : Forall is_byte data → Forall is_byte (file_bytes data off n).
Proof.
  intros. unfold file_bytes. apply Forall_app. split; [by apply Forall_take, Forall_drop|].
  apply Forall_replicate. unfold is_byte. lia.
Qed.
Lemma sectors_of_file data ss lba n : 0 ≤ ss → 0 ≤ lba → 0 ≤ n → (lba + n) * ss ≤ zlen data →
  slice data (lba * ss) (n * ss) = disc_sectors (λ l, file_bytes data (l * ss) ss) lba n.
Proof.
  intros Hs Hl Hn. rewrite <- (Z2Nat.id n) by done. generalize (Z.to_nat n) as k. clear n Hn. intros k.
  induction k as [|k IH]; intros Hfit; [done|].
  rewrite Nat2Z.inj_succ, <- Z.add_1_r, disc_sectors_app, disc_sectors_1, <- IH by lia.
  rewrite Z.mul_add_distr_r, slice_add by lia. f_equal. rewrite file_bytes_inside by lia. f_equal; lia.
Qed.

(** ** What an open image shows *)

(** The layout of a track in its sectors. *)
Definition track_laid (t : cue_track) : Prop :=
  0 ≤ ct_file_offset t ∧ 0 ≤ ct_start_lba t ∧ 0 ≤ ct_sector_count t ∧
  (ct_raw_sector_size t = 2048 ∧ ct_data_offset t = 0 ∨ ct_raw_sector_size t = 2352 ∧ 0 ≤ ct_data_offset t ≤ 24).
Definition raw_offset (t : cue_track) (lba : Z) : Z := ct_file_offset t + (lba - ct_start_lba t) * ct_raw_sector_size t.
Definition file_sector (fm : file_media_ctx) (lba : Z) : list Z :=
  if fm_is_cue fm then
    match find_track fm lba with
    | Some t => file_bytes (fm_data fm) (raw_offset t lba + ct_data_offset t) HOST_SECTOR_SIZE
    | None => file_bytes [] 0 HOST_SECTOR_SIZE
    end
  else file_bytes (fm_data fm) (lba * HOST_SECTOR_SIZE) HOST_SECTOR_SIZE.
Definition file_frame (fm : file_media_ctx) (lba : Z) : list Z :=
  match find_track fm lba with
  | Some t => file_bytes (fm_data fm) (raw_offset t lba) AUDIO_FRAME
  | None => file_bytes [] 0 AUDIO_FRAME
  end.
Lemma length_file_sector fm l : zlen (file_sector fm l) = 2048.
Proof. unfold file_sector. repeat case_match; apply length_file_bytes. Qed.
Lemma length_file_frame fm l : zlen (file_frame fm l) = AUDIO_FRAME.
Proof. unfold file_frame. case_match; apply length_file_bytes. Qed.
Lemma file_sector_bytes fm l : Forall is_byte (fm_data fm) → Forall is_byte (file_sector fm l).
Proof. intros. unfold file_sector. repeat case_match; by apply file_bytes_bytes. Qed.

Lemma find_track_spec fm lba t : find_track fm lba = Some t →
  t ∈ fm_tracks fm ∧ ct_start_lba t ≤ lba < u32 (ct_start_lba t + ct_sector_count t).
Proof.
  unfold find_track. destruct (list_find _ _) as [[i t']|] eqn:Hf; [|done]. intros [= <-].
  apply list_find_Some in Hf as (Hi & H & _). split; [by eapply list_elem_of_lookup_2|lia].
Qed.

Section reads.
Context (io : nat → option Z) (fm : file_media_ctx) (Hlaid : Forall track_laid (fm_tracks fm)).

(** A whole read gives the bytes of the file. *)
Lemma whole_read st off n got st1 st2 : 0 ≤ n → fseek io st off = (true, st1) → fread io (fm_data fm) st1 n = (got, st2) →
  zlen got = n → got = slice (fm_data fm) off n ∧ got = file_bytes (fm_data fm) off n ∧ (0 < n → off + n ≤ zlen (fm_data fm)).
Proof.
  intros Hn [Hp Hoff]%fseek_true Hr Hg. destruct (fread_prefix io _ st1 n got st2 ltac:(lia) Hr Hg) as [-> Hin]. rewrite Hp in *.
  split_and!; [done| |intros H; destruct (Hin H); lia].
  unfold file_bytes. replace (Z.to_nat n - _)%nat with 0%nat by lia. symmetry. apply app_nil_r.
Qed.
(** The sectors read so far, and one more. *)
Lemma store_sector (img : Z → list Z) ss lba k buf0 : (∀ l, zlen (img l) = ss) → 0 ≤ ss → 0 ≤ k → (k + 1) * ss ≤ zlen buf0 →
  store (disc_sectors img lba k ++ drop (Z.to_nat (k * ss)) buf0) (k * ss) (img (lba + k)) =
    disc_sectors img lba (k + 1) ++ drop (Z.to_nat ((k + 1) * ss)) buf0.
Proof.
  intros Hl Hs Hk Hfit. pose proof (length_disc_sectors img ss lba k Hl Hk) as Hd. specialize (Hl (lba + k)) as Hi.
  rewrite store_fits by (rewrite ?length_app, ?length_drop; nia).
  pose proof (splice_filled (disc_sectors img lba k) (img (lba + k)) buf0) as Hsp.
  rewrite length_app in Hsp. replace (length (disc_sectors img lba k)) with (Z.to_nat (k * ss)) in Hsp by lia.
  rewrite Z2Nat.id in Hsp by nia. rewrite Hsp, disc_sectors_app, disc_sectors_1 by lia. do 2 f_equal. nia.
Qed.

Lemma cue_read_loop_ok lba0 buf0 n : ∀ lba k st buf' st', fm_is_cue fm = true →
  0 ≤ k → 0 ≤ lba0 → lba0 + k + Z.of_nat n ≤ 2 ^ 32 → (k + Z.of_nat n) * 2048 ≤ zlen buf0 → (n ≠ 0%nat → lba = lba0 + k) →
  cue_read_loop io fm n lba (disc_sectors (file_sector fm) lba0 k ++ drop (Z.to_nat (k * 2048)) buf0) (k * 2048) st = (ODFS_OK, buf', st') →
  buf' = disc_sectors (file_sector fm) lba0 (k + Z.of_nat n) ++ drop (Z.to_nat ((k + Z.of_nat n) * 2048)) buf0.
Proof.
  induction n as [|n IH]; intros lba k st buf' st' Hcue Hk Hl0 Hend Hfit Hlba; cbn [cue_read_loop].
  { intros [= <- _]. by rewrite Z.add_0_r. }
  rewrite (Hlba ltac:(done)). case_test; [done|]. destruct (find_track fm (lba0 + k)) as [t|] eqn:Ht; [|done].
  assert (Hlt : track_laid t) by (apply find_track_spec in Ht as [Ht _]; by eapply Forall_forall).
  destruct Hlt as (Ho & Hst & _ & Hlay). fold (raw_offset t (lba0 + k)). unfold HOST_SECTOR_SIZE.
  assert (Hsec : file_sector fm (lba0 + k) = file_bytes (fm_data fm) (raw_offset t (lba0 + k) + ct_data_offset t) 2048).
  { unfold file_sector. by rewrite Hcue, Ht. }
  assert (Hnext : ∀ st2, cue_read_loop io fm n (u32 (lba0 + k + 1))
      (store (disc_sectors (file_sector fm) lba0 k ++ drop (Z.to_nat (k * 2048)) buf0) (k * 2048) (file_sector fm (lba0 + k)))
      (k * 2048 + 2048) st2 = (ODFS_OK, buf', st') →
    buf' = disc_sectors (file_sector fm) lba0 (k + Z.of_nat (S n)) ++ drop (Z.to_nat ((k + Z.of_nat (S n)) * 2048)) buf0).
  { intros st2 H. rewrite store_sector in H by (apply length_file_sector || lia).
    replace (k * 2048 + 2048) with ((k + 1) * 2048) in H by lia.
    apply IH in H; [|done|lia|lia|lia|lia|].
    - replace (k + Z.of_nat (S n)) with (k + 1 + Z.of_nat n) by lia. exact H.
    - intros Hn. rewrite u32_small by (unfold is_u32; lia). lia. }
  destruct Hlay as [[-> Hdo]|[Hraw Hdo]].
  - rewrite Hdo, Z.eqb_refl. cbn [andb Z.eqb]. destruct (fseek _ _ _) as [[] st1] eqn:Hs; [|done]. cbn [negb].
    destruct (fread _ _ _ _) as [got st2] eqn:Hr. destruct (zlen got =? _) eqn:Hg; cbn [negb]; [|unfold short_read; by destruct (st_eof st2)].
    apply Z.eqb_eq in Hg. destruct (whole_read _ _ 2048 _ _ _ ltac:(lia) Hs Hr Hg) as (_ & -> & _). rewrite Hsec, Hdo, Z.add_0_r in Hnext. apply Hnext.
  - rewrite Hraw. change (2352 =? 2048) with false. change (2352 <? 2352) with false. cbn [andb]. cbv iota.
    destruct (fseek _ _ _) as [[] st1] eqn:Hs; [|done]. cbn [negb].
    destruct (fread _ _ _ _) as [got st2] eqn:Hr. destruct (zlen got =? _) eqn:Hg; cbn [negb]; [|unfold short_read; by destruct (st_eof st2)].
    apply Z.eqb_eq in Hg. pose proof (proj2 (fseek_true _ _ _ _ Hs)) as Hpos.
    destruct (whole_read _ _ 2352 _ _ _ ltac:(lia) Hs Hr Hg) as (-> & _ & Hin). specialize (Hin ltac:(lia)).
    rewrite slice_slice by lia. rewrite <- (file_bytes_inside _ _ 2048), <- Hsec by lia. apply Hnext.
Qed.

Lemma audio_read_loop_ok lba0 buf0 n : ∀ lba k st buf' st',
  0 ≤ k → 0 ≤ lba0 → lba0 + k + Z.of_nat n ≤ 2 ^ 32 → (k + Z.of_nat n) * AUDIO_FRAME ≤ zlen buf0 → (n ≠ 0%nat → lba = lba0 + k) →
  audio_read_loop io fm n lba (disc_sectors (file_frame fm) lba0 k ++ drop (Z.to_nat (k * AUDIO_FRAME)) buf0) (k * AUDIO_FRAME) st = (ODFS_OK, buf', st') →
  buf' = disc_sectors (file_frame fm) lba0 (k + Z.of_nat n) ++ drop (Z.to_nat ((k + Z.of_nat n) * AUDIO_FRAME)) buf0.
Proof.
  unfold AUDIO_FRAME. induction n as [|n IH]; intros lba k st buf' st' Hk Hl0 Hend Hfit Hlba; cbn [audio_read_loop].
  { intros [= <- _]. by rewrite Z.add_0_r. }
  rewrite (Hlba ltac:(done)). destruct (find_track fm (lba0 + k)) as [t|] eqn:Ht; [|done].
  unfold HOST_AUDIO_FRAME_SIZE. case_test; [done|]. b2p.
  destruct (fseek _ _ _) as [[] st1] eqn:Hs; [|done]. cbn [negb].
  destruct (fread _ _ _ _) as [got st2] eqn:Hr. destruct (zlen got =? _) eqn:Hg; cbn [negb]; [|unfold short_read; by destruct (st_eof st2)].
  apply Z.eqb_eq in Hg. destruct (whole_read _ _ 2352 _ _ _ ltac:(lia) Hs Hr Hg) as (_ & Hgot & _).
  assert (got = file_frame fm (lba0 + k)) as ->.
  { unfold file_frame, raw_offset. rewrite Ht. unfold AUDIO_FRAME. rewrite Hgot. do 2 f_equal. by rewrite E. }
  rewrite store_sector by (apply length_file_frame || lia). replace (k * 2352 + 2352) with ((k + 1) * 2352) by lia. intros H.
  apply IH in H; [|lia|lia|lia|lia|].
  - replace (k + Z.of_nat (S n)) with (k + 1 + Z.of_nat n) by lia. exact H.
  - intros Hn. rewrite u32_small by (unfold is_u32; lia). lia.
Qed.

(** No read changes the size of the buffer. *)
Lemma length_cue_read n : ∀ lba buf pos st, length (cue_read_loop io fm n lba buf pos st).1.2 = length buf.
Proof.
  induction n as [|n IH]; intros lba buf pos st; cbn [cue_read_loop]; [done|].
  repeat (case_match; try done); simpl; rewrite ?IH, ?length_store; done.
Qed.
Lemma length_audio_read n : ∀ lba buf pos st, length (audio_read_loop io fm n lba buf pos st).1.2 = length buf.
Proof.
  induction n as [|n IH]; intros lba buf pos st; cbn [audio_read_loop]; [done|].
  repeat (case_match; try done); simpl; rewrite ?IH, ?length_store; done.
Qed.

Lemma file_reads alloc : MediaReads (file_media_ops io fm alloc) (file_sector fm) 2048.
Proof.
  split; [done|apply length_file_sector|done| |].
  - intros st lba count buf err buf' st'. cbn [read_sectors file_media_ops]. unfold file_read_sectors. destruct (fm_is_cue fm); cbn [negb].
    + intros H. pose proof (length_cue_read (Z.to_nat count) lba buf 0 st) as Hl. by rewrite H in Hl.
    + repeat case_match; intros [= <- <- <-]; rewrite ?length_store; done.
  - intros st lba count buf buf' st' Hl Hc Hend Hb. cbn [read_sectors file_media_ops]. unfold file_read_sectors.
    destruct (fm_is_cue fm) eqn:Hcue; cbn [negb].
    + intros H. apply (cue_read_loop_ok lba buf _ _ 0) in H; [|done|lia|lia|lia|lia|lia].
      rewrite Z2Nat.id, Z.add_0_l in H by done. rewrite H. rewrite drop_ge by lia. apply app_nil_r.
    + unfold HOST_SECTOR_SIZE. destruct (fseek _ _ _) as [[] st1] eqn:Hs; [|done]. cbn [negb].
      destruct (fread _ _ _ _) as [got st2] eqn:Hr. destruct (zlen got =? _) eqn:Hg; cbn [negb]; [|unfold short_read; by destruct (st_eof st2)].
      apply Z.eqb_eq in Hg. destruct (whole_read _ _ (count * 2048) _ _ _ ltac:(lia) Hs Hr Hg) as (-> & _ & Hin). intros [= <- _].
      destruct (decide (count = 0)) as [->|]; [by apply nil_length_inv; rewrite length_store; lia|].
      rewrite store_fits, <- (app_nil_r (splice _ _ _)) by lia. unfold splice. rewrite drop_ge, take_0, !app_nil_r, app_nil_l by lia.
      rewrite (sectors_of_file _ 2048) by lia. unfold disc_sectors. f_equal. apply map_ext. intros l. unfold file_sector. by rewrite Hcue.
Qed.
Lemma file_audio alloc : MediaAudio (file_media_ops io fm alloc) (file_frame fm).
Proof.
  split; [apply length_file_frame| |].
  - intros f st lba count buf err buf' st' [= <-]. unfold file_read_audio. destruct (fm_is_cue fm); cbn [negb]; [|by intros [= _ <- _]].
    intros H. pose proof (length_audio_read (Z.to_nat count) lba buf 0 st) as Hl. by rewrite H in Hl.
  - intros f st lba count buf buf' st' [= <-] Hl Hc Hend Hb. unfold file_read_audio. destruct (fm_is_cue fm); cbn [negb]; [|done].
    intros H. apply (audio_read_loop_ok lba buf _ _ 0) in H; [|lia..].
    rewrite Z2Nat.id, Z.add_0_l in H by done. rewrite H. rewrite drop_ge by lia. apply app_nil_r.
Qed.
End reads.

(** ** Failing reads *)

(** Every track lies in the file; a raw image consists of whole sectors. *)
Definition track_inside (data : list Z) (t : cue_track) : Prop :=
  ct_file_offset t + ct_sector_count t * ct_raw_sector_size t ≤ zlen data.
Definition image_whole (fm : file_media_ctx) : Prop :=
  if fm_is_cue fm then Forall (track_inside (fm_data fm)) (fm_tracks fm) else zlen (fm_data fm) mod HOST_SECTOR_SIZE = 0.
(** A failing call transfers nothing. *)
Definition io_clean (io : nat → option Z) : Prop := ∀ n k, io n = Some k → k ≤ 0.

Lemma store_nil buf off : store buf off [] = buf.
Proof.
  unfold store, splice. rewrite app_nil_l, Nat.add_0_r, take_drop. by apply take_ge.
Qed.
Lemma fread_clean io data st n got st' : io_clean io → fread io data st n = (got, st') → got = slice data (st_pos st) n ∨ got = [].
Proof.
  intros Hio. unfold fread. destruct (io _) as [k|] eqn:Hk; [|intros [= <- _]; by left]. apply Hio in Hk.
  intros [= <- _]. right. by replace (Z.to_nat k) with 0%nat by lia.
Qed.
Lemma find_track_inside fm lba t : image_whole fm → fm_is_cue fm = true → Forall track_laid (fm_tracks fm) → find_track fm lba = Some t →
  raw_offset t lba + ct_raw_sector_size t ≤ zlen (fm_data fm).
Proof.
  unfold image_whole. intros Hw Hc Hl Ht. rewrite Hc in Hw. apply find_track_spec in Ht as (Ht & Hlo & Hhi).
  rewrite Forall_forall in Hw, Hl. specialize (Hw t Ht). destruct (Hl t Ht) as (Ho & Hs & Hn & Hlay). unfold track_inside in Hw. unfold raw_offset.
  assert (lba < ct_start_lba t + ct_sector_count t).
  { unfold u32 in Hhi. pose proof (Z.mod_le (ct_start_lba t + ct_sector_count t) (2 ^ 32)). lia. }
  nia.
Qed.
Lemma file_clean io fm alloc : io_clean io → Forall track_laid (fm_tracks fm) → image_whole fm → CleanFailure (file_media_ops io fm alloc).
Proof.
  intros Hio Hlaid Hw st lba buf err buf' st'. cbn [read_sectors file_media_ops]. unfold file_read_sectors. unfold HOST_SECTOR_SIZE.
  destruct (fm_is_cue fm) eqn:Hcue; cbn [negb].
  - change (Z.to_nat 1) with 1%nat. cbn [cue_read_loop]. case_test; [by intros [= _ <- _]|].
    destruct (find_track fm lba) as [t|] eqn:Ht; [|by intros [= _ <- _]].
    pose proof (find_track_inside fm lba t Hw Hcue Hlaid Ht) as Hin. fold (raw_offset t lba). unfold HOST_SECTOR_SIZE.
    destruct (_ && _) eqn:Hraw.
    + apply andb_true_iff in Hraw as [Hraw%Z.eqb_eq _]. destruct (fseek _ _ _) as [[] st1] eqn:Hs; cbn [negb]; [|by intros [= _ <- _]].
      apply fseek_true in Hs as [Hp Hp0]. destruct (fread _ _ _ _) as [got st2] eqn:Hr.
      apply fread_clean in Hr; [|done]. destruct (zlen got =? _) eqn:Hg; cbn [negb]; [by intros [= <- _ _]|]. intros [= _ <- _] _.
      apply Z.eqb_neq in Hg. destruct Hr as [->| ->]; [|by apply store_nil]. rewrite length_slice in Hg by lia. lia.
    + case_test; [by intros [= _ <- _]|]. destruct (fseek _ _ _) as [[] st1] eqn:Hs; cbn [negb]; [|by intros [= _ <- _]].
      destruct (fread _ _ _ _) as [got st2] eqn:Hr. destruct (zlen got =? _); cbn [negb]; [by intros [= <- _ _]|by intros [= _ <- _]].
  - destruct (fseek _ _ _) as [[] st1] eqn:Hs; cbn [negb]; [|by intros [= _ <- _]]. apply fseek_true in Hs as [Hp Hp0].
    destruct (fread _ _ _ _) as [got st2] eqn:Hr. apply fread_clean in Hr; [|done].
    destruct (zlen got =? _) eqn:Hg; cbn [negb]; [by intros [= <- _ _]|]. intros [= _ <- _] _. apply Z.eqb_neq in Hg.
    destruct Hr as [->| ->]; [|by apply store_nil]. unfold image_whole in Hw. rewrite Hcue in Hw. unfold HOST_SECTOR_SIZE in Hw.
    destruct (decide (st_pos st1 + 2048 ≤ zlen (fm_data fm))); [rewrite length_slice in Hg by lia; lia|].
    assert (slice (fm_data fm) (st_pos st1) (1 * 2048) = []) as ->; [|by apply store_nil]. unfold slice. rewrite drop_ge; [apply take_nil|].
    rewrite Hp in *. assert (zlen (fm_data fm) ≤ lba * 2048); [dlia|lia].
Qed.

(** * Opening an image

    Parsing a cue sheet ends and gives well-formed tracks; the search for the data of a
    RIFF file ends inside the file; the tracks follow each other in the payload and
    none reaches beyond the file. *)

(** ** Parsing *)

Definition is_text (s : list Z) : Prop := is_name s ∧ zlen s < HOST_CUE_TEXT_MAX.
Definition spec_ok (s : cue_track_spec) : Prop :=
  (cs_raw_sector_size s = 2048 ∧ cs_data_offset s = 0 ∧ cs_is_audio s = false ∨ cs_raw_sector_size s = 2352 ∧ 0 ≤ cs_data_offset s ≤ 24) ∧
  is_u32 (cs_start_lba s) ∧ 1 ≤ cs_number s ≤ 99 ∧ is_text (cs_title s) ∧ is_text (cs_performer s).
Definition cue_ok (cs : cue_state) : Prop :=
  zlen (cue_specs cs) ≤ HOST_MAX_CUE_TRACKS ∧ Forall spec_ok (cue_specs cs) ∧
  is_text (cue_disc_title cs) ∧ is_text (cue_disc_performer cs).

Lemma skip_spaces_name s : is_name s → is_name (skip_spaces s).
Proof. induction 1 as [|b s Hb Hs IH]; simpl; [constructor|]. case_test; [done|by constructor]. Qed.
Lemma before_char_name s ch : is_name s → is_name (before_char s ch).
Proof. induction 1 as [|b s Hb Hs IH]; simpl; [constructor|]. case_test; [constructor|by constructor]. Qed.
Lemma drop_name n s : is_name s → is_name (drop n s).
Proof. apply Forall_drop. Qed.
Lemma take_name n s : is_name s → is_name (take n s).
Proof. apply Forall_take. Qed.
Lemma is_text_nil : is_text [].
Proof. split; [constructor|done]. Qed.
Lemma text_value_ok s : is_name s → is_text (cue_parse_text_value s HOST_CUE_TEXT_MAX).
Proof.
  intros Hs%skip_spaces_name. unfold cue_parse_text_value. cbv zeta.
  set (v := match skip_spaces s with [] => [] | ch :: r => if ch =? 34 then before_char r 34 else skip_spaces s end).
  assert (Hv : is_name v).
  { unfold v. destruct (skip_spaces s) as [|ch r]; [constructor|]. case_test; [|done]. apply before_char_name. by inversion Hs. }
  unfold HOST_CUE_TEXT_MAX. case_test; b2p; (split; [|rewrite ?length_take; unfold HOST_CUE_TEXT_MAX; lia]); [by apply take_name|done].
Qed.
Lemma scan_uint_range w s v r : scan_uint w s = Some (v, r) → is_u32 v.
Proof.
  unfold scan_uint. intros H. repeat case_match; simplify_eq; apply u32_range.
Qed.
Lemma track_layout_ok mode raw off audio : cue_parse_track_layout mode = Some (raw, off, audio) →
  raw = 2048 ∧ off = 0 ∧ audio = false ∨ raw = 2352 ∧ 0 ≤ off ≤ 24.
Proof. unfold cue_parse_track_layout. repeat case_test; intros [= <- <- <-]; unfold HOST_AUDIO_FRAME_SIZE; [by left|right; lia..]. Qed.
Lemma msf_range s v : cue_parse_msf s = Some v → is_u32 v.
Proof.
  unfold cue_parse_msf. intros H. repeat (apply bind_Some in H as (? & _ & H); try destruct x as [? ?]; try case_match).
  all: simplify_eq; apply u32_range.
Qed.

Lemma set_last_ok f cs : cue_ok cs → (∀ s, spec_ok s → spec_ok (f s)) → cue_ok (set_last_spec f cs).
Proof.
  intros (Hn & Hs & Ht & Hp) Hf. split_and!; try done; simpl; [by rewrite zlen_zupd|]. unfold zupd. case_test; [|done].
  apply Forall_alter; [done|]. intros x _. apply Hf.
Qed.
Lemma cue_line_ok line cs cs' : is_name line → cue_ok cs → cue_line line cs = inr cs' → cue_ok cs'.
Proof.
  intros Hl Hcs. pose proof Hcs as (Hn & Hs & Ht & Hp). unfold cue_line.
  destruct (keyword (str "FILE") line); [|destruct (keyword (str "TRACK") line); [|destruct (keyword (str "TITLE") line);
    [|destruct (keyword (str "PERFORMER") line); [|destruct (_ && _); [|by intros [= <-]]]]]].
  - destruct (cue_parse_file_line _ _); [|done]. repeat case_test; by intros [= <-].
  - case_test; [done|]. case_test; [done|]. b2p. destruct (scan_uint _ _) as [[num r]|] eqn:Hu; [|done]. cbn [mbind option_bind].
    destruct (scan_word 31 r) as [mode|]; [|done]. cbn [mbind option_bind]. destruct (_ || _) eqn:Hr; [done|]. b2p.
    destruct (cue_parse_track_layout mode) as [[[raw off] audio]|] eqn:Hm; [|done]. cbn [mbind option_bind]. intros [= <-].
    unfold cue_ok. cbn [cue_specs cue_disc_title cue_disc_performer]. split_and!; try done; [rewrite length_app; simpl; lia|].
    apply Forall_app. split; [done|]. constructor; [|constructor]. apply track_layout_ok in Hm.
    apply scan_uint_range in Hu. unfold is_u32 in Hu.
    split; [done|]. split; [done|]. simpl. split; [lia|]. by split; apply is_text_nil.
  - intros [= <-]. pose proof (text_value_ok (drop 6 line) (drop_name _ _ Hl)) as Hv.
    destruct (has_track cs); [|unfold cue_ok, spec_ok; simpl; by split_and!]. apply set_last_ok; [done|]. intros s (? & ? & [? ?] & ? & ?). unfold cue_ok, spec_ok; simpl; by split_and!.
  - intros [= <-]. pose proof (text_value_ok (drop 10 line) (drop_name _ _ Hl)) as Hv.
    destruct (has_track cs); [|unfold cue_ok, spec_ok; simpl; by split_and!]. apply set_last_ok; [done|]. intros s (? & ? & [? ?] & ? & ?). unfold cue_ok, spec_ok; simpl; by split_and!.
  - case_test; [done|]. destruct (cue_parse_msf _) as [v|] eqn:Hv; [|done]. intros [= <-]. apply msf_range in Hv.
    apply set_last_ok; [done|]. intros s (? & ? & [? ?] & ? & ?). unfold cue_ok, spec_ok; simpl; by split_and!.
Qed.
Lemma cue_line_error line cs err : cue_line line cs = inl err → err ≠ ODFS_OK.
Proof. unfold cue_line. repeat case_match; by intros [= <-]. Qed.

Lemma c_str_name s : Forall is_byte s → is_name (c_str s).
Proof.
  induction 1 as [|b s Hb Hs IH]; simpl; [constructor|]. case_test; [constructor|]. b2p.
  constructor; [unfold is_byte in Hb; lia|done].
Qed.
Lemma trim_name s : is_name s → is_name (host_trim s).
Proof. intros H. unfold host_trim. by apply Forall_rev, skip_spaces_name, Forall_rev, skip_spaces_name. Qed.
Lemma take_line_sub n s : ∃ r, s = take_line n s ++ r.
Proof.
  revert s. induction n as [|n IH]; intros [|b s]; simpl; [by exists []|by exists (b :: s)|by exists []|]. case_test; [by exists s|].
  destruct (IH s) as [r Hr]. exists r. simpl. by rewrite <- Hr.
Qed.
Lemma fgets_some io data st size line st' : 0 ≤ st_pos st → fgets io data st size = (Some line, st') →
  line ≠ [] ∧ st_pos st' = st_pos st + zlen line ∧ st_pos st' ≤ zlen data ∧ (Forall is_byte data → Forall is_byte line).
Proof.
  intros Hp. unfold fgets. destruct (io _); [done|].
  destruct (take_line_sub (Z.to_nat (size - 1)) (drop (Z.to_nat (st_pos st)) data)) as [r Hr].
  set (l := take_line _ _) in *. clearbody l. intros Hg. assert (Hl : l ≠ [] ∧ line = l ∧ st_pos st' = st_pos st + zlen l).
  { destruct l; [done|]. by injection Hg as <- <-. }
  destruct Hl as (Hl & -> & ->). split_and!; [done|done| |].
  - apply (f_equal length) in Hr. rewrite length_drop, length_app in Hr. destruct l; [done|]. simpl in *. lia.
  - intros Hb. apply (Forall_drop _ (Z.to_nat (st_pos st))) in Hb. rewrite Hr in Hb. by apply Forall_app in Hb as [? _].
Qed.

(** Parsing a sheet ends, with an error or with well-formed tracks. *)
Lemma cue_lines_ok io data fuel : ∀ st cs, Forall is_byte data → 0 ≤ st_pos st ≤ zlen data → zlen data - st_pos st < Z.of_nat fuel → cue_ok cs →
  yields (cue_lines io data fuel st cs) (λ r, match r with inl err => err ≠ ODFS_OK | inr cs => cue_ok cs end).
Proof.
  induction fuel as [|fuel IH]; intros st cs Hb Hp Hf Hcs; cbn [cue_lines].
  { exfalso. lia. }
  destruct (fgets io data st 512) as [[line|] st'] eqn:Hg; [|by apply yields_ret].
  apply fgets_some in Hg as (Hne & Hp' & Hend & Hbl); [|lia]. specialize (Hbl Hb).
  assert (Hlen : 0 < zlen line) by (destruct line; [done|simpl; lia]). cbv zeta.
  destruct (bool_decide _); [apply IH; (done || lia)|].
  destruct (cue_line _ cs) as [err|cs'] eqn:Hl; [apply yields_ret; by eapply cue_line_error|].
  apply IH; [done|lia|lia|]. eapply cue_line_ok; [|exact Hcs|exact Hl]. by apply trim_name, c_str_name.
Qed.

(** ** The data of a RIFF file *)

(** Wherever the data chunk is found, it begins inside the file. *)
Definition riff_range (data : list Z) (r : option (Z * Z) * stream) : Prop :=
  0 ≤ st_pos r.2 ∧ ∀ base size, r.1 = Some (base, size) → 0 ≤ base ≤ zlen data ∧ 0 ≤ size.
Lemma riff_chunks_ok io data fuel : ∀ st, Forall is_byte data → 0 ≤ st_pos st → Z.max 0 (zlen data - st_pos st) < Z.of_nat fuel →
  yields (riff_chunks io data fuel st) (riff_range data).
Proof.
  induction fuel as [|fuel IH]; intros st Hb Hp Hf; cbn [riff_chunks]; [exfalso; lia|].
  destruct (fread io data st 8) as [got st1] eqn:Hr.
  assert (Hstop : 0 ≤ st_pos st1) by (rewrite (fread_pos _ _ _ _ _ _ Hr); lia).
  destruct (decide (zlen got = 8)) as [Hg|Hg].
  - destruct (fread_prefix _ _ _ _ _ _ Hp Hr Hg) as [Hgot Hp1]. destruct (Hp1 ltac:(lia)) as [Hp1' Hend].
    assert (Hgb : Forall is_byte got) by (rewrite Hgot; by apply Forall_take, Forall_drop).
    destruct got as [|b0 [|b1 [|b2 [|b3 [|b4 [|b5 [|b6 [|b7 [|? ?]]]]]]]]]; simpl in Hg; try lia.
    decompose_Forall. pose proof (le32_range b4 b5 b6 b7) as Hsz. unfold is_u32 in Hsz. cbv zeta.
    case_test.
    + unfold ftell. destruct (io _); apply yields_ret; unfold riff_range; simpl; [split; [lia|done]|].
      case_test; b2p; [split; [lia|done]|]. split; [lia|]. intros base size [= <- <-]. split; [lia|]. by apply Hsz.
    + set (n := u32 _). pose proof (u32_range (le32 b4 b5 b6 b7 + Z.land (le32 b4 b5 b6 b7) 1)) as Hn. fold n in Hn. unfold is_u32 in Hn.
      destruct (fseek io st1 (st_pos st1 + n)) as [[] st2] eqn:Hs.
      * apply fseek_true in Hs as [Hp2 _]. apply IH; [done|lia|lia].
      * apply yields_ret. split; [simpl; by rewrite (fseek_false _ _ _ _ Hs)|done].
  - destruct got as [|b0 [|b1 [|b2 [|b3 [|b4 [|b5 [|b6 [|b7 [|? ?]]]]]]]]]; try (by apply yields_ret; split). done.
Qed.
Lemma riff_data_ok io data st : Forall is_byte data → 0 ≤ st_pos st → yields (host_riff_data_range io data st) (riff_range data).
Proof.
  intros Hb Hp. unfold host_riff_data_range, rewind.
  assert (H0 : 0 ≤ st_pos (fseek io st 0).2).
  { destruct (fseek io st 0) as [[] st1] eqn:Hs; simpl; [by apply fseek_true in Hs as [-> _]|by rewrite (fseek_false _ _ _ _ Hs)]. }
  destruct (fread io data _ 12) as [hdr st1] eqn:Hr. assert (H1 : 0 ≤ st_pos st1) by (rewrite (fread_pos _ _ _ _ _ _ Hr); lia).
  case_test; [by apply yields_ret|]. case_test; [by apply yields_ret|]. apply riff_chunks_ok; [done|done|lia].
Qed.

(** ** The tracks in the payload *)

(** A track is where its sheet says. *)
Definition placed (base : Z) (s : cue_track_spec) (t : cue_track) : Prop :=
  ct_start_lba t = cs_start_lba s ∧ ct_raw_sector_size t = cs_raw_sector_size s ∧ ct_data_offset t = cs_data_offset s ∧
  ct_number t = cs_number s ∧ ct_is_audio t = cs_is_audio s ∧ ct_title t = cs_title s ∧ ct_performer t = cs_performer s ∧
  ct_file_offset t = base + ct_start_lba t * ct_raw_sector_size t ∧ 0 ≤ ct_sector_count t.
(** Every track begins where the one before ends; the last ends at [e] at the latest. *)
Fixpoint chained (e : Z) (ts : list cue_track) : Prop :=
  match ts with
  | [] => True
  | t :: rest =>
      match rest with
      | n :: _ => ct_raw_sector_size n = ct_raw_sector_size t ∧ ct_start_lba n = ct_start_lba t + ct_sector_count t ∧
          ct_file_offset n = ct_file_offset t + ct_sector_count t * ct_raw_sector_size t
      | [] => ct_file_offset t + ct_sector_count t * ct_raw_sector_size t ≤ e
      end ∧ chained e rest
  end.
Lemma spec_raw s : spec_ok s → 2048 ≤ cs_raw_sector_size s ≤ 2352.
Proof. intros (H & _). lia. Qed.
Lemma u32_le z : 0 ≤ z → 0 ≤ u32 z ≤ z.
Proof. intros. unfold u32. split; [apply Z.mod_pos_bound; lia|apply Z.mod_le; lia]. Qed.

Lemma lay_tracks_ok base size specs : ∀ ts ha sc ts' ha' sc', Forall spec_ok specs → 0 ≤ base →
  lay_tracks base size specs ts ha sc = inr (ts', ha', sc') →
  ∃ new, ts' = ts ++ new ∧ Forall2 (placed base) specs new ∧ chained (base + size) new ∧ sc ≤ sc' ∧
    Forall (λ t, u32 (ct_start_lba t + ct_sector_count t) ≤ sc') new.
Proof.
  induction specs as [|s rest IH]; intros ts ha sc ts' ha' sc' Hs Hbase; cbn [lay_tracks].
  { intros [= <- _ <-]. exists []. rewrite app_nil_r. split_and!; try done; constructor. }
  apply Forall_cons in Hs as [Hs Hrest]. pose proof (spec_raw s Hs) as Hraw. pose proof Hs as (_ & Hst & _).
  cbv zeta.
  set (end_offset := match head rest with Some n => base + cs_start_lba n * cs_raw_sector_size s | None => base + size end).
  set (start := base + cs_start_lba s * cs_raw_sector_size s). 
  match goal with |- (if ?b then _ else _) = _ → _ => destruct b eqn:E; [done|] end.
  destruct ((end_offset <? start) || _) eqn:Hend; [done|]. apply orb_false_iff in Hend as [He Hm]. b2p.
  set (n := u32 _) in *. set (t := mk_cue_track _ _ _ _ _ _ _ _ _). set (sc1 := if sc <? _ then _ else _). intros Hlay.
  apply IH in Hlay as (new & -> & Hplaced & Hchain & Hsc & Hall); [|done|done].
  pose proof (u32_le ((end_offset - start) / cs_raw_sector_size s) ltac:(apply Z.div_pos; lia)) as Hn. fold n in Hn.
  assert (Hsc1 : sc ≤ sc1 ∧ u32 (ct_start_lba t + ct_sector_count t) ≤ sc1) by (unfold sc1; simpl; case_test; b2p; lia).
  exists (t :: new). split_and!; [by rewrite <- app_assoc| | |lia|constructor; [lia|done]].
  - constructor; [|done]. unfold placed. simpl. split_and!; try done; lia.
  - split; [|done]. destruct Hplaced as [|n' tn rest' new' (P1 & P2 & P3 & P4 & P5 & P6 & P7 & P8 & _) _].
    + pose proof (Z.mul_div_le (end_offset - start) (cs_raw_sector_size s) ltac:(lia)) as Hq.
      assert (n * cs_raw_sector_size s ≤ (end_offset - start) / cs_raw_sector_size s * cs_raw_sector_size s) by (apply Z.mul_le_mono_nonneg_r; lia).
      simpl. fold start. simpl in end_offset. lia.
    + simpl in E, end_offset. apply negb_false_iff, Z.eqb_eq in E. apply Forall_cons in Hrest as [(_ & Hst' & _) _].
      assert (Hq : (end_offset - start) / cs_raw_sector_size s = cs_start_lba n' - cs_start_lba s).
      { unfold end_offset, start. replace (_ - _) with ((cs_start_lba n' - cs_start_lba s) * cs_raw_sector_size s) by lia. apply Z.div_mul. lia. }
      assert (Hle : cs_start_lba s ≤ cs_start_lba n') by (unfold end_offset, start in He; nia).
      assert (Hnn : n = cs_start_lba n' - cs_start_lba s) by (unfold n; rewrite Hq; apply u32_small; unfold is_u32 in *; lia).
      rewrite P8, P1, P2. simpl. rewrite Hnn, E. unfold start. split_and!; [done|lia|lia].
Qed.
Lemma lay_tracks_error base size specs : ∀ ts ha sc err, lay_tracks base size specs ts ha sc = inl err → err ≠ ODFS_OK.
Proof.
  induction specs as [|s rest IH]; intros ts ha sc err; cbn [lay_tracks]; [done|]. cbv zeta.
  match goal with |- (if ?b then _ else _) = _ → _ => destruct b; [by intros [= <-]|] end.
  destruct (_ || _); [by intros [= <-]|]. apply IH.
Qed.
Lemma chained_inside e ts : chained e ts → Forall (λ t, 0 ≤ ct_sector_count t ∧ 0 ≤ ct_raw_sector_size t) ts →
  Forall (λ t, ct_file_offset t + ct_sector_count t * ct_raw_sector_size t ≤ e) ts.
Proof.
  intros Hc Hp. induction Hp as [|t ts [Hn Hr] Hp IH]; [constructor|]. destruct Hc as [Ht Hc]. specialize (IH Hc).
  constructor; [|done]. destruct ts as [|t' ts]; [done|]. destruct Ht as (H1 & H2 & H3).
  inversion IH as [|? ? H4 _]; subst. inversion Hp as [|? ? [H5 H6] _]; subst. nia.
Qed.

(** ** Open images *)

(** What is known of an image described by a cue sheet. *)
Record cue_image (fm : file_media_ctx) : Prop := {
  cu_cue : fm_is_cue fm = true;
  cu_bytes : Forall is_byte (fm_data fm);
  cu_laid : Forall track_laid (fm_tracks fm);
  cu_chained : chained (zlen (fm_data fm)) (fm_tracks fm);
  cu_count : 0 < zlen (fm_tracks fm) ≤ HOST_MAX_CUE_TRACKS;
  cu_sectors : Forall (λ t, u32 (ct_start_lba t + ct_sector_count t) ≤ fm_sector_count fm) (fm_tracks fm);
  cu_texts : Forall (λ t, 1 ≤ ct_number t ≤ 99 ∧ is_u32 (ct_start_lba t) ∧ (ct_is_audio t = true → ct_raw_sector_size t = 2352) ∧ is_text (ct_title t) ∧ is_text (ct_performer t)) (fm_tracks fm);
  cu_disc : is_text (fm_disc_title fm) ∧ is_text (fm_disc_performer fm) }.
Lemma chained_mono e e' ts : e ≤ e' → chained e ts → chained e' ts.
Proof.
  intros He. induction ts as [|t ts IH]; [done|]. intros [Ht Hc]. split; [|by apply IH]. destruct ts; [lia|done].
Qed.
Lemma cue_image_whole fm : cue_image fm → image_whole fm.
Proof.
  intros [Hc _ Hl Hch _ _ _]. unfold image_whole. rewrite Hc. apply chained_inside; [done|].
  eapply Forall_impl; [exact Hl|]. intros t (_ & _ & ? & ?). lia.
Qed.
Lemma file_length_ok io data st : 0 ≤ st_pos st → match file_length io data st with (r, st') => (∀ n, r = Some n → n = zlen data) ∧ 0 ≤ st_pos st' end.
Proof.
  intros Hp. unfold file_length. destruct (fseek io st (zlen data)) as [[] st1] eqn:Hs.
  - apply fseek_true in Hs as [Hp1 _]. unfold ftell. destruct (io _); simpl; (split; [|lia]); [done|]. intros n [= <-]. lia.
  - split; [done|]. by rewrite (fseek_false _ _ _ _ Hs).
Qed.
Lemma placed_facts base s t : 0 ≤ base → spec_ok s → placed base s t →
  track_laid t ∧ 1 ≤ ct_number t ≤ 99 ∧ is_u32 (ct_start_lba t) ∧ (ct_is_audio t = true → ct_raw_sector_size t = 2352) ∧
  is_text (ct_title t) ∧ is_text (ct_performer t).
Proof.
  intros Hb (Hl & Hs & Hn & Ht & Hp) (P1 & P2 & P3 & P4 & P5 & P6 & P7 & P8 & P9). unfold is_u32 in Hs.
  rewrite P4, P6, P7, P1, P2, P5. split; [|split_and!; try apply Hn; try done; intros Ha; destruct Hl as [(_ & _ & Hl)|[? _]]; [congruence|done]].
  unfold track_laid. rewrite P8, P1, P2, P3. split_and!; [nia|lia|lia|]. destruct Hl as [(? & ? & _)|?]; [by left|by right].
Qed.
Lemma placed_all base ss ts : 0 ≤ base → Forall spec_ok ss → Forall2 (placed base) ss ts →
  Forall (λ t, track_laid t ∧ 1 ≤ ct_number t ≤ 99 ∧ is_u32 (ct_start_lba t) ∧ (ct_is_audio t = true → ct_raw_sector_size t = 2352) ∧
    is_text (ct_title t) ∧ is_text (ct_performer t)) ts.
Proof.
  intros Hb Hs Hpl. induction Hpl as [|s t ss ts Hst Hpl IH]; [constructor|]. apply Forall_cons in Hs as [Hs Hss].
  constructor; [by apply (placed_facts base s)|by apply IH].
Qed.
Lemma cue_open_ok fs io io' malloc path : (∀ p d, fs p = Some d → Forall is_byte d) →
  yields (cue_media_open fs io io' malloc path) (λ '(err, r),
    match r with Some (fm, _) => err = ODFS_OK ∧ cue_image fm | None => err ≠ ODFS_OK end).
Proof.
  intros Hfs. unfold cue_media_open. destruct (fs path) as [sheet|] eqn:Hp; [|by apply yields_ret].
  eapply yields_bind; [apply (cue_lines_ok io sheet); [by eapply Hfs|simpl; lia|simpl; lia|]|].
  { split_and!; simpl; [done|constructor|apply is_text_nil..]. }
  intros [err|cs] Hr; [by apply yields_ret|]. destruct Hr as (Hn & Hs & Hdt & Hdp).
  destruct (negb (has_track cs) || _) eqn:Ht; [by apply yields_ret|]. apply orb_false_iff in Ht as [Ht _].
  case_test; [by apply yields_ret|]. destruct (host_join_relative_path _ _ _) as [bin|]; [|by apply yields_ret].
  case_test; [by apply yields_ret|]. destruct (fs bin) as [data|] eqn:Hbin; [|by apply yields_ret]. apply Hfs in Hbin.
  pose proof (file_length_ok io' data stream_start ltac:(done)) as Hlen. destruct (file_length _ _ _) as [[size|] st1]; [|by apply yields_ret].
  destruct Hlen as [Hlen Hp1]. specialize (Hlen size eq_refl) as ->.
  eapply yields_bind; [by apply riff_data_ok|]. intros [range st2] [_ Hrange]. simpl in Hrange.
  set (payload := match range with Some (base, size) => _ | None => _ end).
  assert (Hpay : 0 ≤ payload.1 ∧ payload.1 + payload.2 ≤ zlen data).
  { unfold payload. destruct range as [[base size]|]; simpl; [|lia]. specialize (Hrange base size eq_refl). case_test; b2p; lia. }
  destruct payload as [base size]. simpl in Hpay.
  destruct (lay_tracks base size (cue_specs cs) [] false 0) as [err|[[ts ha] sc]] eqn:Hlay.
  { apply yields_ret. by eapply lay_tracks_error. }
  apply lay_tracks_ok in Hlay as (new & -> & Hpl & Hch & _ & Hsc); [|done|lia]. apply yields_ret. split; [done|].
  pose proof (placed_all base _ _ ltac:(lia) Hs Hpl) as Hall.
  apply Forall_and in Hall as [Hl Ht']. pose proof (Forall2_length _ _ _ Hpl) as Hlen.
  split; try done; cbn [fm_data fm_tracks]; [eapply chained_mono; [|done]; lia|].
  unfold has_track in Ht. b2p. simpl. lia.
Qed.
