(* ===== verification/FileMediaSpec.v ===== *)
(** * Image files: the theorems

    Opening an image gives a medium, and every sector and audio frame of a cue sheet's
    tracks can be read where the sheet says it is. *)
From stdpp Require Import strings.
From S2P Require Import Prelude Types Strings Media FileMedia FileMediaProofs.
Open Scope Z_scope.

(** ** Finding a sector's track *)

Lemma chained_before e t ts u : chained e (t :: ts) → Forall (λ t, 0 ≤ ct_sector_count t) (t :: ts) → u ∈ ts →
  ct_start_lba t + ct_sector_count t ≤ ct_start_lba u.
Proof.
  revert t. induction ts as [|n ts IH]; intros t [Hn Hc] Hp Hu; [by apply not_elem_of_nil in Hu|].
  destruct Hn as (_ & Hs & _). apply Forall_cons in Hp as [Ht Hp]. apply elem_of_cons in Hu as [->|Hu]; [lia|].
  specialize (IH n Hc Hp Hu). apply Forall_cons in Hp as [? _]. lia.
Qed.
Lemma list_find_first {A} (P : A → Prop) `{∀ x, Decision (P x)} l x :
  x ∈ l → P x → (∀ y, y ∈ l → P y → y = x) → ∃ i, list_find P l = Some (i, x).
Proof.
  intros Hx HP Hu. destruct (list_find_elem_of P l x Hx HP) as [[i y] Hf]. pose proof Hf as (Hi & Hy & _)%list_find_Some.
  exists i. rewrite Hf. do 2 f_equal. by apply Hu; [eapply list_elem_of_lookup_2|].
Qed.
Lemma find_track_complete fm t lba : cue_image fm → t ∈ fm_tracks fm → ct_start_lba t ≤ lba < ct_start_lba t + ct_sector_count t →
  ct_start_lba t + ct_sector_count t < 2 ^ 32 → find_track fm lba = Some t.
Proof.
  intros Hcue Ht Hl Hw. unfold find_track.
  assert (Hpos : Forall (λ t, 0 ≤ ct_sector_count t ∧ 0 ≤ ct_start_lba t) (fm_tracks fm)).
  { eapply Forall_impl; [exact (cu_laid _ Hcue)|]. intros u (_ & ? & ? & _). done. }
  assert (Hu : ∀ u, u ∈ fm_tracks fm → ct_start_lba u ≤ lba ∧ lba < u32 (ct_start_lba u + ct_sector_count u) → u = t).
  { intros u Hin [Hlo Hhi]. pose proof (cu_chained _ Hcue) as Hch.
    assert (Hhi' : lba < ct_start_lba u + ct_sector_count u).
    { rewrite Forall_forall in Hpos. specialize (Hpos u Hin). pose proof (u32_le (ct_start_lba u + ct_sector_count u)). lia. }
    clear Hhi Hcue. revert Hch. generalize (zlen (fm_data fm)) as e. intros e Hch.
    induction (fm_tracks fm) as [|v ts IH]; [by apply not_elem_of_nil in Ht|].
    assert (Hp' : Forall (λ t, 0 ≤ ct_sector_count t) (v :: ts)) by (eapply Forall_impl; [exact Hpos|]; intros ? [? _]; done).
    apply elem_of_cons in Ht as [->|Ht], Hin as [->|Hin]; [done| | |].
    - pose proof (chained_before _ _ _ _ Hch Hp' Hin). lia.
    - pose proof (chained_before _ _ _ _ Hch Hp' Ht). lia.
    - apply Forall_cons in Hpos as [_ Hpos]. destruct Hch as [_ Hch]. by apply IH. }
  destruct (list_find_first (λ t, ct_start_lba t ≤ lba ∧ lba < u32 (ct_start_lba t + ct_sector_count t)) (fm_tracks fm) t Ht) as [i ->]; [|exact Hu|done].
  rewrite Forall_forall in Hpos. specialize (Hpos t Ht). rewrite u32_small by (unfold is_u32; lia). lia.
Qed.

(** ** Reading without failing calls *)

Section faultless.
Context (io : nat → option Z) (Hio : ∀ k, io k = None) (fm : file_media_ctx) (Hcue : cue_image fm).
Context (t : cue_track) (Ht : t ∈ fm_tracks fm) (Hend : ct_start_lba t + ct_sector_count t < 2 ^ 32).

Lemma track_of : track_laid t ∧ u32 (ct_start_lba t + ct_sector_count t) ≤ fm_sector_count fm ∧ track_inside (fm_data fm) t.
Proof.
  pose proof (cue_image_whole fm Hcue) as Hw. unfold image_whole in Hw. rewrite (cu_cue _ Hcue) in Hw.
  pose proof (cu_laid _ Hcue) as Hl. pose proof (cu_sectors _ Hcue) as Hs. rewrite Forall_forall in Hl, Hs, Hw. by split_and!; auto.
Qed.
Lemma track_read lba n : ct_start_lba t ≤ lba < ct_start_lba t + ct_sector_count t → n = ct_raw_sector_size t →
  0 ≤ raw_offset t lba ∧ raw_offset t lba + n ≤ zlen (fm_data fm) ∧
  ∀ st, ∃ st1, fseek io st (raw_offset t lba) = (true, st1) ∧ fread io (fm_data fm) st1 n = (slice (fm_data fm) (raw_offset t lba) n, (fread io (fm_data fm) st1 n).2).
Proof.
  intros Hl ->. destruct track_of as ((Ho & Hs & Hn & Hlay) & _ & Hin). unfold track_inside in Hin. unfold raw_offset.
  split_and!; [nia|nia|]. intros st. eexists. rewrite fseek_all; [|done|nia]. split; [done|].
  rewrite (surjective_pairing (fread _ _ _ _)). f_equal. by rewrite fread_all.
Qed.
Lemma sector_read_ok st lba buf : ct_start_lba t ≤ lba < ct_start_lba t + ct_sector_count t →
  (file_read_sectors io fm st lba 1 buf).1.1 = ODFS_OK.
Proof.
  intros Hl. destruct track_of as ((_ & Hs & Hn & Hlay) & Hsc & _). unfold file_read_sectors. rewrite (cu_cue _ Hcue). cbn [negb].
  change (Z.to_nat 1) with 1%nat. cbn [cue_read_loop]. rewrite u32_small in Hsc by (unfold is_u32; lia).
  rewrite (proj2 (Z.leb_gt _ _)) by lia. rewrite (find_track_complete fm t) by done. fold (raw_offset t lba). unfold HOST_SECTOR_SIZE.
  destruct (track_read lba _ Hl eq_refl) as (H0 & Hin & Hr). destruct (Hr st) as (st1 & -> & Hrd). cbn [negb].
  destruct Hlay as [[Hraw Hdo]|[Hraw Hdo]]; rewrite Hraw in *.
  - rewrite Hdo. cbn [andb Z.eqb]. change (2048 =? 2048) with true. cbn [andb]. rewrite Hrd.
    rewrite length_slice by lia. by rewrite (proj2 (Z.eqb_eq _ _)) by lia.
  - change (2352 =? 2048) with false. change (2352 <? 2352) with false. cbn [andb]. cbv iota. rewrite Hrd.
    rewrite length_slice by lia. by rewrite (proj2 (Z.eqb_eq _ _)) by lia.
Qed.
Lemma audio_read_ok n : ∀ st lba buf pos, ct_raw_sector_size t = 2352 → ct_start_lba t ≤ lba → lba + Z.of_nat n ≤ ct_start_lba t + ct_sector_count t →
  (audio_read_loop io fm n lba buf pos st).1.1 = ODFS_OK.
Proof.
  induction n as [|n IH]; intros st lba buf pos Hraw Hlo Hhi; cbn [audio_read_loop]; [done|].
  destruct track_of as ((_ & Hs & _) & _). rewrite (find_track_complete fm t) by (done || lia). rewrite Hraw. unfold HOST_AUDIO_FRAME_SIZE.
  change (2352 =? 2352) with true. cbn [negb].
  destruct (track_read lba 2352 ltac:(lia) (eq_sym Hraw)) as (H0 & Hin & Hr). unfold raw_offset in *. rewrite Hraw in *.
  destruct (Hr st) as (st1 & -> & Hrd). cbn [negb]. rewrite Hrd. rewrite length_slice by lia. rewrite (proj2 (Z.eqb_eq _ _)) by lia. cbn [negb].
  destruct n as [|n]; [done|]. rewrite u32_small by (unfold is_u32; lia). apply IH; [done|lia|lia].
Qed.
End faultless.

(** ** Properties *)

(** [C32] Opening an image ends, whatever the files hold; an image that opens is a medium:
    its sectors are bytes, successful reads return its sectors and audio frames, and if
    failing calls transfer nothing (and a raw image is whole sectors) a failing read
    leaves the buffer alone.  A raw image shows the file, 2048 bytes a sector; the
    tracks of a cue sheet follow each other inside the payload. *)
Theorem open_image_medium fs io io' malloc path :
  (∀ p d, fs p = Some d → Forall is_byte d) →
  yields (odfs_media_open_image fs io io' malloc path) (λ '(err, r), match r with
    | None => err ≠ ODFS_OK
    | Some (fm, _) => err = ODFS_OK ∧
        (if fm_is_cue fm then cue_image fm
         else fs path = Some (fm_data fm) ∧ fm_sector_count fm = u32 (zlen (fm_data fm) / 2048) ∧
           ∀ l, 0 ≤ l → (l + 1) * 2048 ≤ zlen (fm_data fm) → file_sector fm l = slice (fm_data fm) (l * 2048) 2048) ∧
        (∀ l, Forall is_byte (file_sector fm l)) ∧
        ∀ io2 alloc, MediaReads (file_media_ops io2 fm alloc) (file_sector fm) 2048 ∧
          MediaAudio (file_media_ops io2 fm alloc) (file_frame fm) ∧
          (io_clean io2 → (fm_is_cue fm = false → zlen (fm_data fm) mod 2048 = 0) → CleanFailure (file_media_ops io2 fm alloc))
    end).
Proof.
  intros Hfs. unfold odfs_media_open_image. case_test.
  - eapply yields_weaken; [by apply cue_open_ok|]. intros [err [[fm st]|]]; [|done]. intros [-> Hcue].
    pose proof (cu_laid _ Hcue) as Hl. pose proof (cue_image_whole _ Hcue) as Hw. rewrite (cu_cue _ Hcue).
    split_and!; [done|done|intros l; apply file_sector_bytes, Hcue|]. intros io2 alloc.
    split_and!; [by apply file_reads|by apply file_audio|by intros; apply file_clean].
  - case_test; [by apply yields_ret|]. destruct (fs path) as [data|] eqn:Hp; [|by apply yields_ret].
    pose proof (file_length_ok io data stream_start ltac:(done)) as Hlen. destruct (file_length _ _ _) as [[n|] st]; [|by apply yields_ret].
    destruct Hlen as [Hlen _]. specialize (Hlen n eq_refl) as ->. apply yields_ret. cbn [fm_is_cue fm_data fm_sector_count].
    set (fm := mk_fm _ _ _ _ _ _ _). assert (Hl : Forall track_laid (fm_tracks fm)) by constructor.
    split_and!; try done; [|intros l; by apply file_sector_bytes; eapply Hfs|].
    + intros l Hl0 Hfit. unfold file_sector. cbn [fm_is_cue fm fm_data]. unfold HOST_SECTOR_SIZE. apply file_bytes_inside; lia.
    + intros io2 alloc. split_and!; [by apply file_reads|by apply file_audio|]. intros Hc Hm. by apply file_clean; [..|apply Hm].
Qed.

(** Every sector of every track of an opened cue sheet lies in the file and, when no
    call fails, is read as the user data of the sector the sheet puts there; so are the
    audio frames of tracks of 2352-byte sectors. *)
Theorem cue_tracks_readable fs io io' malloc path fm st io2 t lba buf st1 :
  (∀ p d, fs p = Some d → Forall is_byte d) →
  cue_media_open fs io io' malloc path = Ret (ODFS_OK, Some (fm, st)) → (∀ k, io2 k = None) →
  t ∈ fm_tracks fm → ct_start_lba t ≤ lba < ct_start_lba t + ct_sector_count t → ct_start_lba t + ct_sector_count t < 2 ^ 32 →
  zlen buf = 2048 →
  let off := ct_file_offset t + (lba - ct_start_lba t) * ct_raw_sector_size t in
  0 ≤ off ∧ off + ct_raw_sector_size t ≤ zlen (fm_data fm) ∧
  (∃ st2, file_read_sectors io2 fm st1 lba 1 buf = (ODFS_OK, slice (fm_data fm) (off + ct_data_offset t) 2048, st2)) ∧
  (ct_raw_sector_size t = 2352 → ∀ abuf, zlen abuf = 2352 →
     ∃ st2, file_read_audio io2 fm st1 lba 1 abuf = (ODFS_OK, slice (fm_data fm) off 2352, st2)).
Proof.
  intros Hfs Hopen Hio Ht Hl Hend Hbuf off. destruct (cue_open_ok fs io io' malloc path Hfs) as ([err r] & Hr & Hok).
  rewrite Hopen in Hr. injection Hr as <- <-. destruct Hok as [_ Hcue]. pose proof (cu_laid _ Hcue) as Hlaid.
  destruct (track_read io2 Hio fm Hcue t Ht lba _ Hl eq_refl) as (H0 & Hin & _). fold (raw_offset t lba) in off. fold off in H0, Hin.
  assert (Hpos : 0 ≤ lba < 2 ^ 32) by (rewrite Forall_forall in Hlaid; destruct (Hlaid t Ht) as (_ & ? & _); lia).
  pose proof (find_track_complete fm t lba Hcue Ht Hl Hend) as Hf. split_and!; [done|done| |].
  - pose proof (sector_read_ok io2 Hio fm Hcue t Ht Hend st1 lba buf Hl) as He.
    destruct (file_read_sectors io2 fm st1 lba 1 buf) as [[e b] st2] eqn:Hrd. simpl in He. subst e.
    apply (mr_read (MediaReads := file_reads io2 fm Hlaid true)) in Hrd; [|lia|lia|lia|lia]. rewrite disc_sectors_1 in Hrd. subst b.
    eexists. do 2 f_equal. unfold file_sector. rewrite (cu_cue _ Hcue), Hf. fold off. unfold HOST_SECTOR_SIZE.
    rewrite Forall_forall in Hlaid. destruct (Hlaid t Ht) as (_ & _ & _ & Hlay). apply file_bytes_inside; lia.
  - intros Hraw abuf Hab. pose proof (audio_read_ok io2 Hio fm Hcue t Ht Hend 1 st1 lba abuf 0 Hraw ltac:(lia) ltac:(lia)) as He.
    destruct (file_read_audio io2 fm st1 lba 1 abuf) as [[e b] st2] eqn:Hrd. pose proof Hrd as Hrd'. unfold file_read_audio in Hrd'.
    rewrite (cu_cue _ Hcue) in Hrd'. cbn [negb] in Hrd'. change (Z.to_nat 1) with 1%nat in Hrd'. rewrite Hrd' in He. simpl in He. subst e.
    apply (ma_read (MediaAudio := file_audio io2 fm true) (file_read_audio io2 fm)) in Hrd; [|done|lia|lia|lia|unfold AUDIO_FRAME; lia].
    rewrite disc_sectors_1 in Hrd. subst b. eexists. do 2 f_equal. unfold file_frame. rewrite Hf. fold off. unfold AUDIO_FRAME.
    apply file_bytes_inside; lia.
Qed.

(** ** A cue sheet over a WAV file *)
Definition quoted (s : list Z) : list Z := [34] ++ s ++ [34].
Definition audio_sheet : list Z :=
  str "TITLE " ++ quoted (str "Demo disc") ++ [10] ++ str "FILE " ++ quoted (str "t.wav") ++ str " WAVE" ++ [10] ++
  str "  TRACK 01 AUDIO" ++ [10] ++ str "    TITLE " ++ quoted (str "One") ++ [10] ++ str "    INDEX 01 00:00:00" ++ [10] ++
  str "  TRACK 02 AUDIO" ++ [10] ++ str "    TITLE Second song" ++ [10] ++ str "    INDEX 01 00:00:01" ++ [10].
Definition audio_frame_1 : list Z := map (λ k, k mod 251) (seqZ 0 2352).
Definition audio_frame_2 : list Z := map (λ k, k mod 241) (seqZ 0 2352).
Definition audio_payload : list Z :=
  str "RIFF" ++ [0; 0; 0; 0] ++ str "WAVE" ++ str "LIST" ++ [3; 0; 0; 0; 1; 2; 3; 0] ++
  str "data" ++ [96; 18; 0; 0] ++ audio_frame_1 ++ audio_frame_2.
Definition audio_files (path : list Z) : option (list Z) :=
  if bool_decide (path = str "cds/d.cue") then Some audio_sheet
  else if bool_decide (path = str "cds/t.wav") then Some audio_payload else None.
Definition no_faults (_ : nat) : option Z := None.
Definition audio_opened := cue_media_open audio_files no_faults no_faults (λ _, true) (str "cds/d.cue").
Definition audio_fm : file_media_ctx := match audio_opened with Ret (_, Some (fm, _)) => fm | _ => mk_fm [] 0 false false [] [] [] end.
Example audio_disc : map (λ t, (ct_start_lba t, ct_sector_count t, ct_file_offset t, ct_number t, ct_title t)) (fm_tracks audio_fm) =
  [(0, 1, 32, 1, str "One"); (1, 1, 2384, 2, str "Second song")] ∧ fm_sector_count audio_fm = 2 ∧ fm_disc_title audio_fm = str "Demo disc".
Proof. vm_compute. done. Qed.

Lemma forallb_bytes l : forallb (λ b, (0 <=? b) && (b <? 256)) l = true → Forall is_byte l.
Proof.
  rewrite forallb_forall. intros H. apply Forall_forall. intros b Hb%list_elem_of_In. specialize (H b Hb). unfold is_byte. b2p. lia.
Qed.
Lemma audio_files_bytes p d : audio_files p = Some d → Forall is_byte d.
Proof.
  unfold audio_files. repeat case_test; intros [= <-]; apply forallb_bytes; vm_compute; reflexivity.
Qed.
Lemma open_image_medium_witness :
  yields (odfs_media_open_image audio_files no_faults no_faults (λ _, true) (str "cds/d.cue")) (λ '(err, r), err = ODFS_OK ∧
    ∃ fm st, r = Some (fm, st) ∧ fm = audio_fm ∧ MediaReads (file_media_ops no_faults fm true) (file_sector fm) 2048).
Proof.
  destruct (open_image_medium audio_files no_faults no_faults (λ _, true) (str "cds/d.cue") audio_files_bytes) as ([err r] & He & H).
  exists (err, r). split; [exact He|]. destruct r as [[fm st]|].
  - destruct H as (-> & _ & _ & H). split; [reflexivity|]. exists fm, st. split; [reflexivity|].
    split; [|apply (H no_faults true)]. unfold audio_fm, audio_opened. change (odfs_media_open_image audio_files no_faults no_faults (λ _, true) (str "cds/d.cue"))
      with (cue_media_open audio_files no_faults no_faults (λ _, true) (str "cds/d.cue")) in He. rewrite He. reflexivity.
  - exfalso. assert (Hc : match odfs_media_open_image audio_files no_faults no_faults (λ _, true) (str "cds/d.cue") with Ret (_, Some _) => True | _ => False end)
      by (vm_compute; exact I). rewrite He in Hc. exact Hc.
Defined.
Definition audio_track_2 : cue_track := default (mk_cue_track 0 0 0 0 0 0 false [] []) (fm_tracks audio_fm !! 1%nat).
Lemma cue_tracks_readable_witness :
  ∃ st2, file_read_audio no_faults audio_fm stream_start 1 1 (replicate 2352 0) = (ODFS_OK, audio_frame_2, st2).
Proof.
  destruct (cue_tracks_readable audio_files no_faults no_faults (λ _, true) (str "cds/d.cue") audio_fm
    (match audio_opened with Ret (_, Some (_, st)) => st | _ => stream_start end) no_faults audio_track_2 1 (replicate 2048 0) stream_start
    audio_files_bytes) as (_ & _ & _ & H).
  - vm_compute. reflexivity.
  - reflexivity.
  - apply list_elem_of_lookup. exists 1%nat. vm_compute. reflexivity.
  - vm_compute. split; [discriminate|reflexivity].
  - vm_compute. reflexivity.
  - reflexivity.
  - destruct (H ltac:(vm_compute; reflexivity) (replicate 2352 0) eq_refl) as [st2 H2]. exists st2. rewrite H2.
    reflexivity.
Defined.
