(* ===== verification/CddaText.v ===== *)
(** * The texts of an audio CD

    [CDDB.txt] always fits the buffer made for it and is a reference text; the titles
    that [platform/host/file_media.c] encodes as CD-Text packs are those the CDDA
    backend reads from them. *)
From stdpp Require Import strings.
From S2P Require Import Prelude Types Strings Media Backend MetaCache MetaCacheProofs MetaCacheSpec Session Cdda FileMedia FileMediaProofs.
Open Scope Z_scope.

(** ** Numbers in decimal *)

Definition decimal (v : Z) : list Z := rev (digits_loop 10 v).
Definition decimal_value (s : list Z) : Z := fold_left (λ v ch, v * 10 + (ch - 48)) s 0.
(** At least two digits. *)
Definition decimal2 (v : Z) : list Z := replicate (Z.to_nat (2 - zlen (decimal v))) 48 ++ decimal v.

Lemma digits_value n v : 0 ≤ v < 10 ^ Z.of_nat n → fold_right (λ ch v, v * 10 + (ch - 48)) 0 (digits_loop n v) = v.
Proof.
  revert v. induction n as [|n IH]; intros v Hv; [simpl in *; lia|]. cbn [digits_loop].
  rewrite Nat2Z.inj_succ, Z.pow_succ_r in Hv by lia. case_test; b2p; cbn [fold_right]; [|rewrite IH by dlia]; dlia.
Qed.
Lemma decimal_value_of v : is_u32 v → decimal_value (decimal v) = v.
Proof.
  intros Hv. unfold decimal_value, decimal. unfold is_u32 in Hv.
  rewrite <- fold_left_rev_right, rev_involutive. apply digits_value. simpl. lia.
Qed.
Lemma length_digits n v : (length (digits_loop n v) ≤ n)%nat.
Proof. revert v. induction n as [|n IH]; intros v; cbn [digits_loop length]; [lia|]. case_test; simpl; [lia|]. specialize (IH (v / 10)). lia. Qed.
Lemma length_decimal v : zlen (decimal v) ≤ 10.
Proof. unfold decimal. rewrite length_rev. pose proof (length_digits 10 v). lia. Qed.
Lemma length_digits_small (k n : nat) v : (0 < n)%nat → 0 ≤ v < 10 ^ Z.of_nat (S k) → (length (digits_loop n v) ≤ S k)%nat.
Proof.
  revert n v. induction k as [|k IH]; intros [|n] v Hn Hv; cbn [digits_loop length]; try lia.
  - rewrite (proj2 (Z.eqb_eq _ _)); [simpl; lia|]. change (10 ^ Z.of_nat 1) with 10 in Hv. dlia.
  - case_test; [simpl; lia|]. destruct n as [|n]; [simpl; lia|]. rewrite Nat2Z.inj_succ, Z.pow_succ_r in Hv by lia.
    specialize (IH (S n) (v / 10) ltac:(lia)). apply le_n_S, IH. dlia.
Qed.
Lemma length_decimal_100 v : 0 ≤ v < 100 → zlen (decimal v) ≤ 2 ∧ zlen (decimal2 v) = 2.
Proof.
  intros Hv. assert (H : zlen (decimal v) ≤ 2).
  { unfold decimal. rewrite length_rev. pose proof (length_digits_small 1 10 v ltac:(lia) ltac:(done)). lia. }
  split; [done|]. unfold decimal2. rewrite length_app, length_replicate. lia.
Qed.

(** ** Appending *)

(** [f] appends [s] if it fits, the end of the buffer left free. *)
Definition appends (b : Z) (f : list Z → option (list Z)) (s : list Z) : Prop :=
  ∀ text, zlen text + zlen s < b → f text = Some (text ++ s).
Lemma appends_bytes b s : appends b (λ t, cdda_append_bytes b t s) s.
Proof.
  intros text H. unfold cdda_append_bytes. rewrite !(proj2 (Z.leb_gt _ _)) by lia. done.
Qed.
Lemma appends_then b f g s s' : appends b f s → appends b g s' → appends b (λ t, f t ≫= g) (s ++ s').
Proof.
  intros Hf Hg text Hb. rewrite length_app in Hb. rewrite Hf by lia. simpl. rewrite Hg by (rewrite length_app; lia). by rewrite app_assoc.
Qed.
Lemma appends_none b : appends b Some [].
Proof. intros text _. by rewrite app_nil_r. Qed.
Lemma appends_each b s : appends b (λ t, append_each b t s) s.
Proof.
  induction s as [|ch s IH]; [apply appends_none|].
  apply (appends_then b (λ t, cdda_append_bytes b t [ch]) (λ t, append_each b t s) [ch] s); [apply appends_bytes|done].
Qed.
Lemma appends_u32 b v w : appends b (λ t, cdda_append_u32 b t v w) (replicate (Z.to_nat (w - zlen (decimal v))) 48 ++ decimal v).
Proof.
  unfold cdda_append_u32, decimal. rewrite length_rev.
  apply (appends_then b (λ t, append_each b t _) (λ t, append_each b t _)); apply appends_each.
Qed.
Lemma appends_decimal b v : appends b (λ t, cdda_append_u32 b t v 0) (decimal v).
Proof.
  intros text H. rewrite appends_u32; rewrite Z2Nat.nonpos by lia; done.
Qed.
Lemma appends_decimal2 b v : appends b (λ t, cdda_append_u32 b t v 2) (decimal2 v).
Proof. apply appends_u32. Qed.
Lemma appends_field b k v : appends b (λ t, cdda_append_u32_field b t k v) (k ++ str "=" ++ decimal v ++ nl).
Proof.
  unfold cdda_append_u32_field. apply (appends_then b (λ t, cdda_append_string b t k)); [apply appends_bytes|].
  apply (appends_then b (λ t, cdda_append_string b t (str "="))); [apply appends_bytes|].
  apply (appends_then b (λ t, cdda_append_u32 b t v 0)); [apply appends_decimal|apply appends_bytes].
Qed.

(** ** CDDB.txt *)

Definition cddb_offset_line (i : Z) (t : cdda_track) : list Z :=
  str "OFFSET" ++ decimal2 (i + 1) ++ str "=" ++ decimal (cdda_track_offset_frames t) ++ nl.
Definition cddb_reference (c : cdda_context) : list Z :=
  let id := cdda_format_hex32 (cdda_disc_id c) in
  cddb_header ++ id ++ nl ++ (str "TRACKS" ++ str "=" ++ decimal (zlen (tracks c)) ++ nl) ++
  (str "TOTAL_SECONDS" ++ str "=" ++ decimal (cdda_total_seconds c) ++ nl) ++
  (str "TOTAL_FRAMES" ++ str "=" ++ decimal (u32 (cdda_total_seconds c * CDDA_FRAMES_PER_SEC)) ++ nl) ++
  concat (imap (λ i, cddb_offset_line (Z.of_nat i)) (tracks c)) ++
  str "QUERY=cddb query " ++ id ++ str " " ++ decimal (zlen (tracks c)) ++
  concat (map (λ t, str " " ++ decimal (cdda_track_offset_frames t)) (tracks c)) ++
  str " " ++ decimal (cdda_total_seconds c) ++ nl.

Lemma appends_offsets b ts : ∀ i, appends b (λ t, cddb_offsets b t (Z.of_nat i) ts) (concat (imap (λ k, cddb_offset_line (Z.of_nat (i + k))) ts)).
Proof.
  induction ts as [|t ts IH]; intros i; [apply appends_none|]. cbn [cddb_offsets imap concat].
  rewrite Nat.add_0_r. unfold cddb_offset_line at 1. rewrite <- !app_assoc.
  apply (appends_then b (λ t, cdda_append_string b t (str "OFFSET"))); [apply appends_bytes|].
  apply (appends_then b (λ t, cdda_append_u32 b t (Z.of_nat i + 1) 2)); [apply appends_decimal2|].
  apply (appends_then b (λ t, cdda_append_string b t (str "="))); [apply appends_bytes|].
  apply (appends_then b (λ t', cdda_append_u32 b t' (cdda_track_offset_frames t) 0)); [apply appends_decimal|].
  apply (appends_then b (λ t, cdda_append_string b t nl)); [apply appends_bytes|].
  intros text H. replace (Z.of_nat i + 1) with (Z.of_nat (S i)) by lia. revert text H.
  erewrite imap_ext; [apply (IH (S i))|]. intros k x _. simpl. do 2 f_equal. lia.
Qed.
Lemma appends_query b ts : appends b (λ t, cddb_query b t ts) (concat (map (λ t, str " " ++ decimal (cdda_track_offset_frames t)) ts)).
Proof.
  induction ts as [|t ts IH]; [apply appends_none|]. cbn [cddb_query map concat]. rewrite <- app_assoc.
  apply (appends_then b (λ t, cdda_append_string b t (str " "))); [apply appends_bytes|].
  apply (appends_then b (λ t', cdda_append_u32 b t' (cdda_track_offset_frames t) 0)); [apply appends_decimal|done].
Qed.
Lemma appends_cddb b c : zlen (cddb_reference c) < b → cddb_generate b c = Some (cddb_reference c).
Proof.
  intros Hb. unfold cddb_generate, cddb_reference in *. cbv zeta in *.
  match goal with |- cdda_append_string b [] cddb_header ≫= ?k = Some ?s =>
    enough (H : appends b (λ t, cdda_append_string b t cddb_header ≫= k) s) by exact (H [] Hb) end.
  repeat ((apply (appends_then b (λ t, cdda_append_string b t _)); [apply appends_bytes|]) ||
    (apply (appends_then b (λ t, cdda_append_hex32 b t _)); [apply appends_bytes|]) ||
    (apply (appends_then b (λ t, cdda_append_u32_field b t _ _)); [apply appends_field|]) ||
    (apply (appends_then b (λ t, cdda_append_u32 b t _ 0)); [apply appends_decimal|]) ||
    (apply (appends_then b (λ t, cddb_query b t _)); [apply appends_query|]) ||
    (apply (appends_then b (λ t, cddb_offsets b t 0 _)); [apply (appends_offsets b _ 0)|])).
  apply appends_bytes.
Qed.
Lemma length_hex v : zlen (cdda_format_hex32 v) = 8.
Proof. reflexivity. Qed.
Lemma length_offset_lines ts : ∀ (k : nat), Z.of_nat k + zlen ts ≤ 99 →
  zlen (concat (imap (λ i, cddb_offset_line (Z.of_nat (k + i))) ts)) ≤ 20 * zlen ts.
Proof.
  induction ts as [|t ts IH]; intros k Hk; [done|]. cbn [imap concat length] in *. rewrite Nat.add_0_r, length_app.
  assert (Hl : zlen (cddb_offset_line (Z.of_nat k) t) ≤ 20).
  { unfold cddb_offset_line. rewrite !length_app. pose proof (length_decimal (cdda_track_offset_frames t)).
    destruct (length_decimal_100 (Z.of_nat k + 1)) as [_ H2]; [lia|]. simpl (length (str _)). simpl (length nl). lia. }
  specialize (IH (S k) ltac:(lia)).
  rewrite (imap_ext (λ i, cddb_offset_line (Z.of_nat (S k + i))) ((λ i, cddb_offset_line (Z.of_nat (k + i))) ∘ S)) in IH
    by (intros i x _; simpl; do 2 f_equal; lia). lia.
Qed.
Lemma length_query ts : zlen (concat (map (λ t, str " " ++ decimal (cdda_track_offset_frames t)) ts)) ≤ 11 * zlen ts.
Proof.
  induction ts as [|t ts IH]; [done|]. cbn [map concat length]. rewrite !length_app. pose proof (length_decimal (cdda_track_offset_frames t)).
  simpl (length (str _)). lia.
Qed.
Lemma cddb_reference_fits c : zlen (tracks c) ≤ 99 → zlen (cddb_reference c) < 256 + zlen (tracks c) * 48.
Proof.
  intros Hn. unfold cddb_reference. cbv zeta. rewrite !length_app.
  pose proof (length_decimal (cdda_total_seconds c)). pose proof (length_decimal (u32 (cdda_total_seconds c * CDDA_FRAMES_PER_SEC))).
  destruct (length_decimal_100 (zlen (tracks c))) as [H1 _]; [lia|].
  pose proof (length_offset_lines (tracks c) 0 Hn) as H2. cbn [Nat.add] in H2. pose proof (length_query (tracks c)).
  pose proof (length_hex (cdda_disc_id c)). change (length cddb_header) with 49%nat.
  repeat match goal with |- context [length (str ?s)] => let n := eval vm_compute in (length (str s)) in change (length (str s)) with n end.
  change (length nl) with 1%nat. lia.
Qed.

(** ** CD-Text titles *)

(** A reader of packs that have been written so far, and of the bytes of the next. *)
Definition buffered (w : cdtext_writer) : list (list Z) := map (λ i, slice (w_buf w) (i * 18) 18) (seqZ 0 (w_packs w)).
Definition read_pack (type : Z) (pack : list Z) (cs : cdda_context * walk_state) : cdda_context * walk_state :=
  if negb (pack_type pack =? 0x80) || negb (pack_block pack =? 0) || pack_dbcs pack then cs
  else extract_chars cs.1 (pack_data pack) (walk_sync pack cs.2).
Lemma extract_packs_fold packs : ∀ c s, extract_packs c packs s = fold_left (λ cs p, read_pack 0x80 p cs) packs (c, s).
Proof.
  induction packs as [|p packs IH]; intros c s; [done|]. cbn [extract_packs fold_left]. unfold read_pack at 2. cbn [fst snd].
  destruct (_ || pack_dbcs p); [apply IH|]. destruct (extract_chars _ _ _) as [c' s']. apply IH.
Qed.
Lemma extract_chars_app c a b s : extract_chars c (a ++ b) s =
  extract_chars (extract_chars c a s).1 b (extract_chars c a s).2.
Proof. revert c s. induction a as [|ch a IH]; intros c s; [done|]. simpl. case_test; apply IH. Qed.

(** The header of a pack that begins with the [pos]-th character of a track's string. *)
Definition walk_at (track pos : Z) (s : walk_state) : Prop :=
  pos = 0 ∨ (0 < pos ∧ 0 ≤ track ∧ cur_track s = track ∧ skip_current s = false ∧ zlen (cur s) = pos).
Definition synced (track pos : Z) (s : walk_state) : walk_state := if pos =? 0 then mk_walk [] track false else s.
Lemma first_pos pos : 0 ≤ pos → let p := u8 (if pos <? 15 then pos else 15) in
  Z.land (Z.shiftr p 4) 0x07 = 0 ∧ Z.land p 0x80 = 0 ∧ Z.land p 0x0f = (if pos <? 15 then pos else 15).
Proof.
  intros Hp. cbv zeta. set (q := if _ <? _ then _ else _). assert (Hq : 0 ≤ q < 16) by (unfold q; case_test; b2p; lia).
  clearbody q. clear - Hq. assert (H : Forall (λ q, Z.land (Z.shiftr (u8 q) 4) 0x07 = 0 ∧ Z.land (u8 q) 0x80 = 0 ∧ Z.land (u8 q) 0x0f = q) (seqZ 0 16)).
  { change (seqZ 0 16) with [0; 1; 2; 3; 4; 5; 6; 7; 8; 9; 10; 11; 12; 13; 14; 15]. repeat (constructor; [done|]). constructor. }
  rewrite Forall_forall in H. apply H, elem_of_seqZ. lia.
Qed.
(** A pack of titles is read from where the string is. *)
Lemma read_title_pack pack track pos seq data crc cs :
  pack = [0x80; track; seq; u8 (if pos <? 15 then pos else 15)] ++ data ++ crc → length data = 12%nat → 0 ≤ pos →
  walk_at track pos cs.2 → 0 ≤ track → read_pack 0x80 pack cs = extract_chars cs.1 data (synced track pos cs.2).
Proof.
  intros -> Hd Hp Hw Ht. unfold read_pack, pack_type, pack_block, pack_dbcs, walk_sync, pack_pos, pack_track, pack_byte.
  cbn [app zget Z.leb Z.compare Z.to_nat Pos.to_nat lookup list_lookup default].
  destruct (first_pos pos Hp) as (H1 & H2 & H3). 
  change (zget (0x80 :: track :: seq :: u8 (if pos <? 15 then pos else 15) :: data ++ crc) 0) with (Some 0x80).
  change (zget (0x80 :: track :: seq :: u8 (if pos <? 15 then pos else 15) :: data ++ crc) 1) with (Some track).
  change (zget (0x80 :: track :: seq :: u8 (if pos <? 15 then pos else 15) :: data ++ crc) 3) with (Some (u8 (if pos <? 15 then pos else 15))).
  cbn [default option_map]. simpl default. rewrite H1, H2, H3. cbn [negb orb Z.eqb].
  assert (Hdata : pack_data (0x80 :: track :: seq :: u8 (if pos <? 15 then pos else 15) :: data ++ crc) = data).
  { unfold pack_data, slice. change (drop _ _) with (data ++ crc). by rewrite take_app_length' by lia. }
  rewrite Hdata. unfold synced. f_equal. destruct Hw as [->|(H4 & H5 & H6 & H7 & H8)]; [done|].
  assert (Hq : (if pos <? 15 then pos else 15) ≠ 0) by (case_test; lia). apply Z.eqb_neq in Hq as ->.
  rewrite (proj2 (Z.eqb_neq pos 0)), (proj2 (Z.ltb_ge _ _)) by lia. done.
Qed.

(** What reading the packs of [w] makes of [c0]. *)
Definition read_packs (c0 : cdda_context) (w : cdtext_writer) : cdda_context * walk_state :=
  fold_left (λ cs p, read_pack 0x80 p cs) (buffered w) (c0, walk_start).
Definition writer_ok (w : cdtext_writer) : Prop := 0 ≤ w_packs w ∧ zlen (w_buf w) = w_packs w * 18 ∧ zlen (w_data w) ≤ 12.

Lemma buffered_snoc w w' pack : writer_ok w → w_buf w' = w_buf w ++ pack → length pack = 18%nat → w_packs w' = w_packs w + 1 →
  buffered w' = buffered w ++ [pack].
Proof.
  intros (Hp & Hb & _) Hb' Hl Hp'. unfold buffered. rewrite Hp', seqZ_app, map_app by lia. change (seqZ (0 + w_packs w) 1) with [0 + w_packs w].
  f_equal.
  - apply map_ext_in. intros i Hi%list_elem_of_In%elem_of_seqZ. rewrite Hb'. apply slice_app_l; lia.
  - simpl. rewrite Hb', slice_app_r, Hb by lia. rewrite Z.sub_diag, slice_all by lia. done.
Qed.
(** The pack that a full writer writes. *)
Lemma flush_full w : writer_ok w → w_data w ≠ [] → let w' := cdtext_writer_flush w in
  writer_ok w' ∧ w_data w' = [] ∧ ∃ crc, length crc = 2%nat ∧
  buffered w' = buffered w ++ [[w_type w; w_first_track w; w_seq w; w_first_pos w] ++ (w_data w ++ replicate (12 - length (w_data w)) 0) ++ crc].
Proof.
  intros Hw Hd. cbv zeta. pose proof Hw as (Hp & Hb & Hl). unfold cdtext_writer_flush.
  rewrite (proj2 (Z.eqb_neq _ _)) by (destruct (w_data w); [done|simpl; lia]).
  set (data := _ ++ replicate _ _). assert (Hdata : length data = 12%nat) by (unfold data; rewrite length_app, length_replicate; lia).
  set (pack := [_; _; _; _] ++ data). set (crc := [_; _]).
  assert (Hpk : length (pack ++ crc) = 18%nat) by (unfold pack; rewrite !length_app; simpl; lia).
  split_and!; [|done|exists crc; split; [done|]].
  - split_and!; cbn [w_packs w_buf w_data]; [lia|rewrite length_app; lia|simpl; lia].
  - unfold pack in *. rewrite <- app_assoc in *. by apply buffered_snoc.
Qed.

(** The reader of the titles written so far is at [cs]. *)
Definition reader_at (c0 : cdda_context) (w : cdtext_writer) (cs : cdda_context * walk_state) : Prop :=
  writer_ok w ∧
  ((w_data w = [] ∧ cs = read_packs c0 w) ∨
   (w_data w ≠ [] ∧ w_type w = 0x80 ∧ ∃ pos, 0 ≤ pos ∧ w_first_pos w = u8 (if pos <? 15 then pos else 15) ∧ 0 ≤ w_first_track w ∧
      walk_at (w_first_track w) pos (read_packs c0 w).2 ∧
      cs = extract_chars (read_packs c0 w).1 (w_data w) (synced (w_first_track w) pos (read_packs c0 w).2))).
(** It is at the [pos]-th character of a track's string. *)
Definition at_char (track pos : Z) (s : walk_state) : Prop := cur_track s = track ∧ skip_current s = false ∧ zlen (cur s) = pos.
Lemma at_char_synced track pos s : at_char track pos s → synced track pos s = s.
Proof.
  intros (H1 & H2 & H3). unfold synced. case_test; [|done]. b2p. destruct s as [cu tr sk]; simpl in *. subst. by destruct cu.
Qed.
Lemma at_char_walk track pos s : 0 ≤ track → 0 ≤ pos → at_char track pos s → walk_at track pos s.
Proof. intros Ht Hp (H1 & H2 & H3). destruct (decide (pos = 0)); [by left|right]. by split_and!; [lia|..]. Qed.

Lemma flush_reader c0 w c s : reader_at c0 w (c, s) → w_data w ≠ [] → reader_at c0 (cdtext_writer_flush w)
  (extract_chars c (replicate (12 - length (w_data w)) 0) s).
Proof.
  intros (Hw & Hr) Hd. destruct Hr as [[? _]|(_ & Ht & pos & Hp & Hfp & Htr & Hwa & Hcs)]; [done|].
  destruct (flush_full w Hw Hd) as (Hw' & Hd' & crc & Hcrc & Hbuf). split; [done|]. left. split; [done|].
  unfold read_packs at 1. rewrite Hbuf, fold_left_app. cbn [fold_left].
  erewrite read_title_pack; [|rewrite Ht, Hfp; reflexivity|rewrite length_app, length_replicate; destruct Hw; lia|done|exact Hwa|done].
  rewrite extract_chars_app. fold (read_packs c0 w). by rewrite <- Hcs.
Qed.
(** One character more. *)
Definition put_char (type track pos ch : Z) (w : cdtext_writer) : cdtext_writer :=
  let w := if zlen (w_data w) =? 0
           then mk_writer (w_buf w) (w_packs w) (w_seq w) type track (u8 (if pos <? 15 then pos else 15)) [] else w in
  let w := mk_writer (w_buf w) (w_packs w) (w_seq w) (w_type w) (w_first_track w) (w_first_pos w) (w_data w ++ [u8 ch]) in
  if zlen (w_data w) =? 12 then cdtext_writer_flush w else w.
Lemma put_chars_cons type track pos ch s w : put_chars type track pos (ch :: s) w = put_chars type track (pos + 1) s (put_char type track pos ch w).
Proof. reflexivity. Qed.
Lemma put_char_reader c0 w c s track pos ch : reader_at c0 w (c, s) → zlen (w_data w) < 12 → is_byte ch → 0 ≤ track → 0 ≤ pos →
  at_char track pos s ∨ (w_data w = [] ∧ pos = 0) →
  reader_at c0 (put_char 0x80 track pos ch w) (extract_chars c [ch] (synced track pos s)) ∧ zlen (w_data (put_char 0x80 track pos ch w)) < 12.
Proof.
  intros (Hw & Hr) Hl Hch Ht Hp Hs. unfold put_char. cbv zeta.
  set (w1 := if _ =? 0 then _ else w). set (w2 := mk_writer _ _ _ _ _ _ _).
  assert (Hu : u8 ch = ch) by (by apply u8_small). 
  assert (H2 : reader_at c0 w2 (extract_chars c [ch] (synced track pos s))).
  { destruct Hr as [[Hd Hcs]|(Hd & Hty & pos0 & Hp0 & Hfp & Htr & Hwa & Hcs)].
    - assert (w1 = mk_writer (w_buf w) (w_packs w) (w_seq w) 0x80 track (u8 (if pos <? 15 then pos else 15)) []) as Hw1 by (unfold w1; by rewrite Hd).
      unfold w2. rewrite Hw1, Hu. split; [destruct Hw as (? & ? & _); by split_and!|]. right. split; [done|]. split; [done|]. exists pos.
      change (read_packs c0 _) with (read_packs c0 w). rewrite <- Hcs. cbn [w_first_pos w_first_track w_data fst snd app].
      split_and!; try done. destruct Hs as [?|[_ ?]]; [by apply at_char_walk|by left].
    - assert (w1 = w) as Hw1 by (unfold w1; rewrite (proj2 (Z.eqb_neq _ _)); [done|destruct (w_data w); [done|simpl; lia]]).
      unfold w2. rewrite Hw1, Hu. destruct Hs as [Hs|[? _]]; [|done]. rewrite (at_char_synced _ _ _ Hs).
      split; [destruct Hw as (? & ? & _); split_and!; try done; simpl; rewrite length_app; simpl; lia|].
      right. split; [by destruct (w_data w)|]. split; [done|]. exists pos0. change (read_packs c0 _) with (read_packs c0 w).
      cbn [w_first_pos w_first_track w_data]. split_and!; try done. rewrite extract_chars_app, <- Hcs. done. }
  assert (Hl2 : zlen (w_data w2) ≤ 12) by (apply H2). case_test; b2p; [|split; [done|]; lia].
  destruct (extract_chars c [ch] _) as [c2 s2]. pose proof (flush_reader c0 w2 c2 s2 H2) as Hf.
  assert (Hd2 : w_data w2 ≠ []) by (intros Hd2; by rewrite Hd2 in E). specialize (Hf Hd2).
  destruct (flush_full w2 (proj1 H2) Hd2) as (_ & -> & _). split; [|done].
  replace (12 - length (w_data w2))%nat with 0%nat in Hf by lia. exact Hf.
Qed.
Lemma put_chars_reader c0 track t : ∀ pos w c s, reader_at c0 w (c, s) → zlen (w_data w) < 12 → is_name t → 0 ≤ track → 0 ≤ pos →
  pos + zlen t < ODFS_AMIGA_COMMENT_MAX * 2 → at_char track pos s ∨ (w_data w = [] ∧ pos = 0) →
  reader_at c0 (put_chars 0x80 track pos (t ++ [0]) w) (extract_chars c (t ++ [0]) (synced track pos s)) ∧
  zlen (w_data (put_chars 0x80 track pos (t ++ [0]) w)) < 12.
Proof.
  induction t as [|ch t IH]; intros pos w c s Hr Hl Ht Htr Hp Hfit Hs.
  { cbn [app]. rewrite put_chars_cons. cbn [put_chars]. by apply put_char_reader. }
  apply Forall_cons in Ht as [Hch Ht]. cbn [app length] in *. rewrite put_chars_cons.
  destruct (put_char_reader c0 w c s track pos ch Hr Hl) as [Hr' Hl']; [unfold is_byte; lia|done..|].
  assert (Hsync : at_char track pos (synced track pos s)).
  { destruct Hs as [Hs|[_ ->]]; [by rewrite (at_char_synced _ _ _ Hs)|done]. }
  cbn [extract_chars] in Hr' |- *. rewrite (proj2 (Z.eqb_neq ch 0)) in * by lia.
  set (s1 := walk_char _ ch _) in *.
  assert (Hs1 : at_char track (pos + 1) s1).
  { destruct Hsync as (H1 & H2 & H3). unfold s1, walk_char. rewrite (proj2 (Z.ltb_lt _ _)) by lia.
    split_and!; [done..|]. simpl. rewrite length_app. simpl. lia. }
  destruct (IH (pos + 1) (put_char 0x80 track pos ch w) c s1) as [H1 H2]; [done|done|done|done|lia|lia|by left|].
  by rewrite (at_char_synced _ _ _ Hs1) in H1.
Qed.
Lemma extract_string t : ∀ c s, is_name t → skip_current s = false → zlen (cur s) + zlen t < ODFS_AMIGA_COMMENT_MAX * 2 →
  extract_chars c (t ++ [0]) s = (cdda_store_track_title c (cur_track s) (cur s ++ t), mk_walk [] (cur_track s + 1) false).
Proof.
  induction t as [|ch t IH]; intros c s Ht Hs Hl.
  - simpl. by rewrite Hs, app_nil_r.
  - apply Forall_cons in Ht as [Hch Ht]. cbn [app extract_chars length] in *. rewrite (proj2 (Z.eqb_neq ch 0)) by lia.
    unfold walk_char. rewrite (proj2 (Z.ltb_lt _ _)) by lia. rewrite IH; cbn [cur cur_track skip_current]; [|done|done|rewrite length_app; simpl; lia].
    by rewrite <- app_assoc.
Qed.

(** The strings of a disc and its tracks, numbered from 0 on. *)
Definition numbered_from (k : Z) (ts : list (Z * list Z)) : Prop := imap (λ i _, k + Z.of_nat i) ts = map fst ts.
Definition storable (t : list Z) : Prop := is_name t ∧ zlen t < ODFS_AMIGA_COMMENT_MAX * 2.
Definition store_all (c : cdda_context) (ts : list (Z * list Z)) : cdda_context :=
  fold_left (λ c t, cdda_store_track_title c t.1 t.2) ts c.
Lemma put_all_reader c0 ts : ∀ k w c s, reader_at c0 w (c, s) → zlen (w_data w) < 12 → 0 ≤ k → numbered_from k ts →
  Forall (λ t, storable t.2) ts → cur s = [] → s = mk_walk [] k false ∨ w_data w = [] →
  let w' := fold_left (λ w t, cdtext_writer_put 0x80 t.1 t.2 w) ts w in
  (∃ s', reader_at c0 w' (store_all c ts, s') ∧ cur s' = []) ∧ zlen (w_data w') < 12.
Proof.
  induction ts as [|[n t] ts IH]; intros k w c s Hr Hl Hk Hn Hts Hc Hs; cbv zeta; [split; [by exists s|done]|].
  apply Forall_cons in Hts as [[Ht Htl] Hts]. unfold numbered_from in Hn. simpl in Hn. injection Hn as Hn0 Hn. rewrite Z.add_0_r in Hn0. subst n.
  cbn [fold_left store_all fst snd] in *. unfold cdtext_writer_put at 2 4.
  destruct (put_chars_reader c0 k t 0 w c s Hr Hl Ht Hk) as [H1 H2]; [lia|lia|destruct Hs as [->|?]; [by left|by right]|].
  change (synced k 0 s) with (mk_walk [] k false) in H1. rewrite extract_string in H1 by done. cbn [cur cur_track app] in H1.
  apply (IH (k + 1) _ _ _ H1 H2); [lia| |done|done|by left].
  unfold numbered_from. rewrite <- Hn. apply imap_ext. intros i x _. simpl. lia.
Qed.
Lemma extract_zeros n : ∀ c s, cur s = [] → (extract_chars c (replicate n 0) s).1 = c.
Proof.
  induction n as [|n IH]; intros c s Hs; [done|]. cbn [replicate extract_chars]. change (0 =? 0) with true. cbv iota.
  rewrite IH by done. case_test; [done|]. unfold cdda_store_track_title. rewrite Hs. by rewrite orb_true_r.
Qed.
Lemma put_titles c0 disc ts : numbered_from 1 ts → storable disc → Forall (λ t, storable t.2) ts →
  let w := put_strings 0x80 disc ts writer_zero in
  writer_ok w ∧ w_data w = [] ∧ (read_packs c0 w).1 = store_all c0 ((0, disc) :: ts).
Proof.
  intros Hn Hd Hts w. 
  assert (Hn' : numbered_from 0 ((0, disc) :: ts)).
  { unfold numbered_from in *. simpl. f_equal. rewrite <- Hn. apply imap_ext. intros. simpl. lia. }
  destruct (put_all_reader c0 ((0, disc) :: ts) 0 writer_zero c0 walk_start) as [(s & Hr & Hs) Hl];
    [split; [by split_and!|by left]|done|done|done|by constructor|done|by right|].
  unfold w, put_strings. cbn [fold_left fst snd] in Hr, Hl. set (w1 := fold_left _ ts _) in *.
  destruct (decide (w_data w1 = [])) as [Hd1|Hd1].
  - assert (cdtext_writer_flush w1 = w1) as -> by (unfold cdtext_writer_flush; by rewrite Hd1).
    destruct Hr as [Hw [[_ Hr]|[? _]]]; [|done]. split_and!; [done|done|by rewrite <- Hr].
  - pose proof (flush_reader c0 w1 _ s Hr Hd1) as [Hw [[Hd2 Hf]|[Hf _]]].
    + split_and!; [done|done|]. rewrite <- Hf. by apply extract_zeros.
    + destruct (flush_full w1 (proj1 Hr) Hd1) as (_ & Hd2 & _). done.
Qed.

(** Packs of other types do not matter. *)
Definition ignores (c0 : cdda_context) (w0 w : cdtext_writer) : Prop :=
  writer_ok w ∧ zlen (w_data w) < 12 ∧ (w_data w ≠ [] → w_type w = 0x81) ∧ read_packs c0 w = read_packs c0 w0.
Lemma flush_ignores c0 w0 w : writer_ok w → w_type w = 0x81 → w_data w ≠ [] → read_packs c0 w = read_packs c0 w0 →
  ignores c0 w0 (cdtext_writer_flush w).
Proof.
  intros Hw Ht Hd Hr. destruct (flush_full w Hw Hd) as (Hw' & Hd' & crc & Hcrc & Hbuf). split_and!; [done|by rewrite Hd'|by rewrite Hd'|].
  unfold read_packs. rewrite Hbuf, fold_left_app, Ht. exact Hr.
Qed.
Lemma put_chars_ignores c0 w0 track t : ∀ pos w, ignores c0 w0 w → ignores c0 w0 (put_chars 0x81 track pos t w).
Proof.
  induction t as [|ch t IH]; intros pos w Hw; [done|]. rewrite put_chars_cons. apply IH. destruct Hw as (Hw & Hl & Ht & Hr).
  unfold put_char. cbv zeta. set (w1 := if _ =? 0 then _ else w). set (w2 := mk_writer _ _ _ _ _ _ _).
  assert (H1 : w_type w1 = 0x81 ∧ w_buf w1 = w_buf w ∧ w_packs w1 = w_packs w ∧ zlen (w_data w1) < 12).
  { unfold w1. case_test; b2p; [by split_and!|]. split_and!; try done. apply Ht. by destruct (w_data w). }
  destruct H1 as (H1 & H2 & H3 & H4). assert (Hr2 : read_packs c0 w2 = read_packs c0 w0).
  { rewrite <- Hr. unfold read_packs, buffered. simpl. by rewrite H2, H3. }
  assert (Hw2 : writer_ok w2 ∧ w_data w2 ≠ []).
  { destruct Hw as (? & ? & ?). unfold w2, writer_ok. simpl. rewrite H2, H3, length_app. simpl. split_and!; try done; [lia|by destruct (w_data w1)]. }
  destruct Hw2 as [Hw2 Hd2]. case_test; b2p; [by apply flush_ignores|]. split_and!; try done. destruct Hw2 as (_ & _ & ?). lia.
Qed.
Lemma put_performers c0 disc ts w0 : writer_ok w0 → w_data w0 = [] → let w := put_strings 0x81 disc ts w0 in
  writer_ok w ∧ read_packs c0 w = read_packs c0 w0.
Proof.
  intros Hw Hd w. unfold w, put_strings.
  assert (H0 : ignores c0 w0 w0) by (split_and!; try done; by rewrite Hd).
  assert (H1 : ∀ ts w, ignores c0 w0 w → ignores c0 w0 (fold_left (λ w t, cdtext_writer_put 0x81 t.1 t.2 w) ts w)).
  { clear. intros ts. induction ts as [|t ts IH]; intros w Hw; [done|]. apply IH. by apply put_chars_ignores. }
  specialize (H1 ts _ (put_chars_ignores c0 w0 0 (disc ++ [0]) 0 w0 H0)). fold (cdtext_writer_put 0x81 0 disc w0) in H1.
  set (w1 := fold_left _ ts _) in *. destruct H1 as (H1 & H2 & H3 & H4). destruct (decide (w_data w1 = [])) as [Hd1|Hd1].
  - assert (cdtext_writer_flush w1 = w1) as -> by (unfold cdtext_writer_flush; by rewrite Hd1). done.
  - destruct (flush_ignores c0 w0 w1 H1 (H3 Hd1) Hd1 H4) as (? & _ & _ & ?). done.
Qed.

(** The response's packs are those written. *)
Lemma response_packs c w hdr : writer_ok w → length hdr = 4%nat →
  cdda_extract_track_titles c (cdtext_packs (hdr ++ w_buf w)) = (read_packs c w).1.
Proof.
  intros (Hp & Hb & _) Hh. unfold cdda_extract_track_titles. rewrite extract_packs_fold. unfold read_packs. do 2 f_equal.
  unfold cdtext_packs, buffered. rewrite length_app. replace (Z.of_nat (length hdr + length (w_buf w)) - 4) with (w_packs w * 18) by lia.
  rewrite Z.div_mul by lia. apply map_ext_in. intros i Hi%list_elem_of_In%elem_of_seqZ. unfold cdtext_pack.
  rewrite slice_app_r by lia. f_equal. lia.
Qed.

(** ** Where the titles go *)

(** A track with the title that a list of numbered titles has for it; 79 characters
    are kept, control characters and bytes above 126 are replaced. *)
Definition titled (ts : list (Z * list Z)) (t : cdda_track) : cdda_track :=
  match list_find (λ p, p.1 = number t) ts with
  | Some (_, (_, s)) => if bool_decide (s = []) then t else set_title (cdda_sanitize_ascii ODFS_AMIGA_COMMENT_MAX s) t
  | None => t
  end.
Lemma store_title c n s : NoDup (number <$> tracks c) → 0 < n → s ≠ [9] →
  cdda_store_track_title c n s = set_tracks (map (titled [(n, s)]) (tracks c)) c.
Proof.
  intros Hnd Hn Hs. unfold cdda_store_track_title.
  assert (Hid : map (λ t, t) (tracks c) = tracks c) by apply map_id.
  assert (Hself : set_tracks (tracks c) c = c) by by destruct c.
  destruct (decide (s = [])) as [->|Hs0].
  { rewrite orb_true_r. rewrite (map_ext _ (λ t, t)), Hid, Hself; [done|]. intros t. unfold titled. simpl. by case_decide. }
  rewrite (proj2 (Z.ltb_ge _ _)), (proj2 (Z.eqb_neq n 0)) by lia. rewrite (proj2 (Z.eqb_neq _ _)) by (destruct s; [done|simpl; lia]).
  cbn [orb]. rewrite (bool_decide_eq_false_2 (s = [9])) by done. unfold track_numbered.
  assert (Ht : ∀ t, titled [(n, s)] t = if decide (n = number t) then set_title (cdda_sanitize_ascii ODFS_AMIGA_COMMENT_MAX s) t else t).
  { intros t. unfold titled. simpl. case_decide; [|done]. by rewrite bool_decide_eq_false_2. }
  destruct (list_find _ (tracks c)) as [[i x]|] eqn:Hf.
  - apply list_find_Some in Hf as (Hi & Hx & _). f_equal. apply list_eq. intros k. unfold zupd. rewrite (proj2 (Z.leb_le _ _)), Nat2Z.id by lia.
    rewrite list_lookup_fmap. destruct (decide (k = i)) as [->|Hk].
    + rewrite list_lookup_alter_eq, Hi. simpl. rewrite Ht, decide_True by done. done.
    + rewrite list_lookup_alter_ne by done. destruct (tracks c !! k) as [y|] eqn:Hy; [|done]. simpl. rewrite Ht. rewrite decide_False; [done|].
      intros Hny. apply Hk. eapply (NoDup_lookup _ _ _ (number y) Hnd); rewrite list_lookup_fmap; [by rewrite Hy|rewrite Hi; simpl; congruence].
  - apply list_find_None in Hf. rewrite <- Hself at 1. f_equal. rewrite <- Hid at 1. apply map_ext_in. intros t Hin%list_elem_of_In.
    rewrite Ht, decide_False; [done|]. intros ->. rewrite Forall_forall in Hf. by apply (Hf t).
Qed.
Lemma titled_number ts t : number (titled ts t) = number t.
Proof. unfold titled. destruct (list_find _ _) as [[i [n s]]|]; [|done]. by case_test. Qed.
Lemma numbers_titled ts l : number <$> map (titled ts) l = number <$> l.
Proof. rewrite <- list_fmap_compose. apply list_fmap_ext. intros i t _. apply titled_number. Qed.
Lemma titled_cons n s ts t : Forall (λ p, p.1 ≠ n) ts → titled ts (titled [(n, s)] t) = titled ((n, s) :: ts) t.
Proof.
  intros Hn. destruct (decide (n = number t)) as [->|Hne].
  - assert (Hno : ∀ u, number u = number t → titled ts u = u).
    { intros u Hu. unfold titled. rewrite (proj2 (list_find_None _ _)); [done|]. by rewrite Hu. }
    rewrite Hno by apply titled_number. unfold titled. simpl. rewrite !decide_True by done. done.
  - assert (titled [(n, s)] t = t) as -> by (unfold titled; simpl; by rewrite decide_False).
    unfold titled. simpl. rewrite decide_False by done. destruct (list_find _ ts) as [[i [m u]]|]; done.
Qed.
Lemma store_all_titles ts : ∀ k c, NoDup (number <$> tracks c) → 0 < k → numbered_from k ts → Forall (λ p, p.2 ≠ [9]) ts →
  store_all c ts = set_tracks (map (titled ts) (tracks c)) c.
Proof.
  induction ts as [|[n s] ts IH]; intros k c Hnd Hk Hn Htab.
  { simpl. rewrite (map_ext _ (λ t, t)), map_id by done. by destruct c. }
  apply Forall_cons in Htab as [Hs Htab]. unfold numbered_from in Hn. simpl in Hn. injection Hn as Hk' Hn. rewrite Z.add_0_r in Hk'. subst n.
  assert (Hts : numbered_from (k + 1) ts) by (unfold numbered_from; rewrite <- Hn; apply imap_ext; intros; simpl; lia).
  assert (Hlt : Forall (λ p, p.1 ≠ k) ts).
  { apply Forall_forall. intros p Hp. apply list_elem_of_lookup in Hp as [i Hi].
    assert (Hp : (p.1 : Z) = k + 1 + Z.of_nat i); [|lia].
    assert (H : map fst ts !! i = Some p.1) by (by rewrite list_lookup_fmap, Hi). unfold numbered_from in Hts. rewrite <- Hts in H.
    rewrite list_lookup_imap, Hi in H. simpl in H. congruence. }
  cbn [store_all fold_left fst snd]. fold (store_all (cdda_store_track_title c k s) ts).
  rewrite store_title by done. rewrite (IH (k + 1)); [|by cbn [tracks set_tracks]; rewrite numbers_titled|lia|done|done].
  destruct c as [trk ? ? ? ? ? ? ? ? ? ? ?]. unfold set_tracks. simpl. f_equal. rewrite map_map. apply map_ext. intros t. by apply titled_cons.
Qed.

(** * What an audio CD's directory lists

    The texts that are there and a file for every track; enumeration runs the callback
    over them, lookup finds the first with the name. *)

Definition cdda_metadata (c : cdda_context) : list odfs_node :=
  option_list (cdda_fill_disk_icon_node c) ++ option_list (cdda_fill_cddb_node c) ++ option_list (cdda_fill_cdtext_node c).
Definition cdda_listing (c : cdda_context) : list odfs_node :=
  cdda_metadata c ++ imap (λ i t, cdda_fill_track_node c (Z.of_nat i) t) (tracks c).

Lemma virtual_node text id lba name : zlen name < ODFS_NAME_MAX →
  is_Some (cdda_fill_virtual_node text id lba name) ↔ has_text text = true.
Proof.
  intros Hn. unfold cdda_fill_virtual_node, has_text. destruct text as [t|]; [|by split; [intros [? ?]|]].
  case_test; [by split; [intros [? ?]|]|]. rewrite (proj2 (Z.ltb_ge _ _)) by lia. by split; [|eexists].
Qed.
(** The metadata nodes in order are those the directory begins with. *)
Lemma metadata_nodes c : zlen (cdda_metadata c) = cdda_metadata_count c ∧
  ∀ i : nat, cdda_fill_metadata_node c (Z.of_nat i) = cdda_metadata c !! i.
Proof.
  pose proof (virtual_node (cddb_text c) CDDA_CDDB_NODE_ID CDDA_CDDB_LBA CDDA_CDDB_NAME eq_refl) as H1.
  pose proof (virtual_node (cdtext_text c) CDDA_CDTEXT_NODE_ID CDDA_CDTEXT_LBA CDDA_CDTEXT_NAME eq_refl) as H2.
  pose proof (virtual_node (disk_icon c) CDDA_DISK_ICON_NODE_ID CDDA_DISK_ICON_LBA CDDA_DISK_ICON_NAME eq_refl) as H3.
  unfold cdda_metadata_count, cdda_fill_metadata_node, cdda_metadata, cdda_fill_cddb_node, cdda_fill_cdtext_node, cdda_fill_disk_icon_node.
  assert (H4 : has_icon c = true → has_text (disk_icon c) = true) by (unfold has_icon; rewrite andb_true_iff; tauto).
  destruct (cdda_fill_virtual_node (cddb_text c) _ _ _) as [n1|], (cdda_fill_virtual_node (cdtext_text c) _ _ _) as [n2|],
    (cdda_fill_virtual_node (disk_icon c) _ _ _) as [n3|], (has_text (cddb_text c)), (has_text (cdtext_text c)), (has_icon c), (has_text (disk_icon c));
    try (exfalso; clear - H1 H2 H3 H4; try (by destruct (proj2 H1 eq_refl)); try (by destruct (proj2 H2 eq_refl)); try (by destruct (proj2 H3 eq_refl));
      try (discriminate (proj1 H1 ltac:(done))); try (discriminate (proj1 H2 ltac:(done))); try (discriminate (proj1 H3 ltac:(done))); discriminate (H4 eq_refl)).
  all: clear; split; [done|]; intros [|[|[|i]]]; try done.
  all: cbn [negb andb app option_list lookup list_lookup]; rewrite ?(proj2 (Z.eqb_neq _ _)) by lia; done.
Qed.

(** ** Enumeration *)

Lemma run_app {T} (cb : odfs_dir_iter_fn T) a b t :
  run cb (a ++ b) t = if err_ok (run cb a t).1 then run cb b (run cb a t).2 else run cb a t.
Proof.
  revert t. induction a as [|n a IH]; intros t; [done|]. simpl. destruct (cb n t) as [err t'] eqn:Hc.
  destruct (err_ok err) eqn:He; [apply IH|]. simpl. by rewrite He.
Qed.
Section enumeration.
Context {T : Type} (cb : odfs_dir_iter_fn T) (c : cdda_context) (resume : option Z).

(** A stop gives the number of the entry the callback stopped at. *)
Lemma metadata_run n : ∀ (i : nat) t, (i + n)%nat = length (cdda_metadata c) → Z.of_nat (i + n) < 2 ^ 31 →
  readdir_metadata cb c resume n (Z.of_nat i) t =
    (if err_ok (run cb (drop i (cdda_metadata c)) t).1 then None
     else Some ((run cb (drop i (cdda_metadata c)) t).1, (λ _, Z.of_nat i + delivered cb (drop i (cdda_metadata c)) t - 1) <$> resume),
     (run cb (drop i (cdda_metadata c)) t).2).
Proof.
  induction n as [|n IH]; intros i t Hi Hb; cbn [readdir_metadata].
  - rewrite drop_ge by lia. done.
  - rewrite (proj2 (metadata_nodes c)). destruct (cdda_metadata c !! i) as [node|] eqn:Hn.
    2:{ apply lookup_ge_None in Hn. lia. }
    rewrite (drop_S _ _ _ Hn). cbn [run delivered]. destruct (cb node t) as [err t']. destruct (err_ok err) eqn:He; cbn [negb].
    + replace (Z.of_nat i + 1) with (Z.of_nat (S i)) by lia. rewrite IH by lia. f_equal.
      destruct (err_ok (run _ _ _).1); [done|]. do 2 f_equal. destruct resume; [|done]. simpl. f_equal. lia.
    + simpl. rewrite He. do 3 f_equal. destruct resume; [|done]. simpl. f_equal. rewrite u32_small by (unfold is_u32; lia). lia.
Qed.
Lemma tracks_run ts : ∀ (i : nat) t, let L := imap (λ k t, cdda_fill_track_node c (Z.of_nat (i + k)) t) ts in
  cdda_metadata_count c + Z.of_nat i + zlen ts < 2 ^ 31 →
  readdir_tracks cb c resume (Z.of_nat i) ts t =
    (if err_ok (run cb L t).1 then None
     else Some ((run cb L t).1, (λ _, cdda_metadata_count c + Z.of_nat i + delivered cb L t - 1) <$> resume), (run cb L t).2).
Proof.
  pose proof (proj1 (metadata_nodes c)) as Hm.
  induction ts as [|trk ts IH]; intros i t L Hb; unfold L; clear L; cbn [readdir_tracks imap]; [done|]. rewrite Nat.add_0_r.
  cbn [run delivered length] in *. destruct (cb _ t) as [err t']. destruct (err_ok err) eqn:He; cbn [negb].
  - replace (Z.of_nat i + 1) with (Z.of_nat (S i)) by lia. rewrite IH by lia.
    assert (HL : imap (λ k t, cdda_fill_track_node c (Z.of_nat (S i + k)) t) ts = imap ((λ k t, cdda_fill_track_node c (Z.of_nat (i + k)) t) ∘ S) ts).
    { apply imap_ext. intros k x _. simpl. do 2 f_equal. lia. }
    rewrite HL. f_equal. destruct (err_ok (run _ _ _).1); [done|]. do 2 f_equal. destruct resume; [|done]. simpl. f_equal. lia.
  - simpl. rewrite He. do 3 f_equal. destruct resume; [|done]. simpl. f_equal. rewrite u32_small by (unfold is_u32; lia). lia.
Qed.
Lemma delivered_app (a b : list odfs_node) : ∀ t, err_ok (run cb a t).1 = true → delivered cb (a ++ b) t = zlen a + delivered cb b (run cb a t).2.
Proof.
  induction a as [|n a IH]; intros t H; [done|]. simpl in *. destruct (cb n t) as [err t']. destruct (err_ok err) eqn:He.
  - simpl. rewrite IH by done. lia.
  - simpl in H. congruence.
Qed.
Lemma delivered_app_stop (a b : list odfs_node) : ∀ t, err_ok (run cb a t).1 = false → delivered cb (a ++ b) t = delivered cb a t.
Proof.
  induction a as [|n a IH]; intros t H; [done|]. simpl in *. destruct (cb n t) as [err t']. destruct (err_ok err) eqn:He; [|done].
  simpl. by rewrite IH.
Qed.
Lemma cdda_delivered_all (a : list odfs_node) t : err_ok (run cb a t).1 = true → delivered cb a t = zlen a.
Proof. intros H. rewrite <- (app_nil_r a) at 1. rewrite delivered_app by done. simpl. lia. Qed.

Lemma readdir_listing (k : nat) t : (k ≤ length (cdda_listing c))%nat → zlen (cdda_listing c) < 2 ^ 31 → default 0 resume = Z.of_nat k →
  let L := drop k (cdda_listing c) in
  cdda_readdir cb c resume t = Ret ((run cb L t).1,
    (λ _, Z.of_nat k + delivered cb L t - (if err_ok (run cb L t).1 then 0 else 1)) <$> resume, (run cb L t).2).
Proof.
  intros Hk Hb Hr L. unfold cdda_readdir. rewrite Hr. pose proof (proj1 (metadata_nodes c)) as Hm.
  assert (Hlen : length (cdda_listing c) = (length (cdda_metadata c) + length (tracks c))%nat).
  { unfold cdda_listing. by rewrite length_app, length_imap. }
  assert (s32 (Z.of_nat k) = Z.of_nat k) as ->.
  { unfold s32. rewrite u32_small by (unfold is_u32; lia). by rewrite (proj2 (Z.ltb_lt _ _)) by lia. }
  cbv zeta. destruct (decide (k ≤ length (cdda_metadata c))%nat) as [Hle|Hgt].
  - rewrite metadata_run by lia. set (m := drop k (cdda_metadata c)).
    set (tl := imap (λ i t, cdda_fill_track_node c (Z.of_nat i) t) (tracks c)).
    assert (L = m ++ tl) as -> by (unfold L, m, tl, cdda_listing; by rewrite drop_app_le). rewrite run_app.
    destruct (err_ok (run cb m t).1) eqn:He.
    + rewrite (proj2 (Z.ltb_ge _ _)) by lia. rewrite Z.max_l by lia. change (Z.to_nat 0) with 0%nat. rewrite drop_0.
      pose proof (tracks_run (tracks c) 0 (run cb m t).2 ltac:(lia)) as Ht. cbv zeta in Ht. cbn [Nat.add] in Ht. fold tl in Ht.
      change (Z.of_nat 0) with 0 in Ht. rewrite Ht. rewrite delivered_app by done.
      assert (Hml : zlen m = zlen (cdda_metadata c) - Z.of_nat k) by (unfold m; rewrite length_drop; lia).
      destruct (err_ok (run cb tl _).1) eqn:He2.
      * pose proof (err_ok_eq _ He2) as He3. rewrite He3. do 2 f_equal. destruct resume; [|done]. simpl. do 2 f_equal.
        rewrite cdda_delivered_all by done. unfold tl. rewrite length_imap. rewrite u32_small by (unfold is_u32; lia). lia.
      * do 2 f_equal. destruct resume; [|done]. simpl. do 2 f_equal. lia.
    + rewrite He, delivered_app_stop by done. done.
  - rewrite Z2Nat.nonpos by lia. cbn [readdir_metadata]. rewrite (proj2 (Z.ltb_ge _ _)) by lia.
    set (i := (k - length (cdda_metadata c))%nat). replace (Z.max 0 (Z.of_nat k - cdda_metadata_count c)) with (Z.of_nat i) by lia.
    rewrite Nat2Z.id. pose proof (tracks_run (drop i (tracks c)) i t ltac:(rewrite length_drop; lia)) as Ht. cbv zeta in Ht.
    assert (HL : imap (λ j t, cdda_fill_track_node c (Z.of_nat (i + j)) t) (drop i (tracks c)) = L).
    { unfold L, cdda_listing. rewrite drop_app_ge by lia. fold i. apply list_eq. intros j. rewrite lookup_drop, !list_lookup_imap, lookup_drop. done. }
    rewrite HL in Ht. rewrite Ht. destruct (err_ok (run cb L t).1) eqn:He.
    + pose proof (err_ok_eq _ He) as He'. rewrite He'. do 2 f_equal. destruct resume; [|done]. simpl. do 2 f_equal.
      rewrite cdda_delivered_all by done. unfold L. rewrite length_drop, u32_small by (unfold is_u32; lia). lia.
    + do 2 f_equal. destruct resume; [|done]. simpl. do 2 f_equal. lia.
Qed.
End enumeration.

(** ** Lookup *)

Lemma track_name_ok n f : is_byte n → is_name (cdda_track_name n f).
Proof.
  intros Hn. unfold cdda_track_name, is_byte in *. assert (0 ≤ n / 10 ≤ 25 ∧ 0 ≤ n mod 10 < 10) by dlia.
  rewrite !u8_small by (unfold is_byte; lia). repeat (apply Forall_app; split); try (destruct f; repeat constructor; lia).
Qed.
Lemma track_name_other n f nm : is_byte n → is_name nm → odfs_strcasecmp nm (cdda_track_name n f) = 0 →
  odfs_strcasecmp nm CDDA_CDDB_NAME ≠ 0 ∧ odfs_strcasecmp nm CDDA_CDTEXT_NAME ≠ 0 ∧ odfs_strcasecmp nm CDDA_DISK_ICON_NAME ≠ 0.
Proof.
  intros Hn Hnm Ht. apply strcasecmp_spec in Ht; [|done|by apply track_name_ok].
  assert (Hno : ∀ s, is_name s → match s with ch :: _ => odfs_ascii_tolower ch ≠ 116 | [] => True end → s ≠ [] → odfs_strcasecmp nm s ≠ 0).
  { intros s Hs Hd Hne H. apply strcasecmp_spec in H; [|done..]. unfold name_equiv in *. rewrite H in Ht. destruct s as [|ch s]; [done|].
    simpl in Ht. injection Ht as Ht _. done. }
  split_and!; apply Hno; try done; repeat constructor; lia.
Qed.
Lemma find_track_node c nm ts : ∀ (i : nat), is_name nm → Forall (λ t, is_byte (number t)) ts →
  lookup_track c nm (Z.of_nat i) ts = List.find (λ n, bool_decide (name_equiv (name n) nm)) (imap (λ k t, cdda_fill_track_node c (Z.of_nat (i + k)) t) ts).
Proof.
  induction ts as [|t ts IH]; intros i Hnm Hts; [done|]. apply Forall_cons in Hts as [Ht Hts]. cbn [lookup_track imap List.find]. rewrite Nat.add_0_r.
  cbn [name cdda_fill_track_node]. pose proof (strcasecmp_spec nm (cdda_track_name (number t) (file_format c)) Hnm (track_name_ok _ _ Ht)) as Hs.
  case_test; b2p.
  - rewrite bool_decide_eq_true_2; [done|]. symmetry. by apply Hs.
  - rewrite bool_decide_eq_false_2 by (intros He; apply E, Hs; by symmetry). replace (Z.of_nat i + 1) with (Z.of_nat (S i)) by lia.
    rewrite IH by done. f_equal. apply imap_ext. intros k x _. simpl. do 2 f_equal. lia.
Qed.
Lemma find_virtual nm text id lba nam : is_name nm → is_name nam →
  List.find (λ n, bool_decide (name_equiv (name n) nm)) (option_list (cdda_fill_virtual_node text id lba nam)) =
  if odfs_strcasecmp nm nam =? 0 then cdda_fill_virtual_node text id lba nam else None.
Proof.
  intros Hnm Hnam. pose proof (strcasecmp_spec nm nam Hnm Hnam) as Hs.
  assert (Hn : ∀ n, cdda_fill_virtual_node text id lba nam = Some n → name n = nam).
  { intros n. unfold cdda_fill_virtual_node. destruct text; [|done]. repeat case_test; by intros [= <-]. }
  destruct (cdda_fill_virtual_node text id lba nam) as [n|]; [|by case_test]. change (option_list (Some n)) with [n]. cbn [List.find]. rewrite (Hn n eq_refl).
  destruct (odfs_strcasecmp nm nam =? 0) eqn:E; b2p; [rewrite bool_decide_eq_true_2; [done|symmetry; by apply Hs]|].
  rewrite bool_decide_eq_false_2; [done|]. intros He. by apply E, Hs.
Qed.
Lemma cdda_lookup_listing c nm : is_name nm → Forall (λ t, is_byte (number t)) (tracks c) →
  cdda_lookup c nm = found (listed (cdda_listing c) nm).
Proof.
  intros Hnm Hts. unfold listed, cdda_listing, cdda_metadata, cdda_lookup. rewrite !find_app.
  pose proof (find_track_node c nm (tracks c) 0 Hnm Hts) as Ht. cbn [Nat.add] in Ht. rewrite <- Ht. clear Ht.
  assert (Htrk : ∀ i, lookup_track c nm i (tracks c) = None ∨ odfs_strcasecmp nm CDDA_CDDB_NAME ≠ 0 ∧ odfs_strcasecmp nm CDDA_CDTEXT_NAME ≠ 0 ∧ odfs_strcasecmp nm CDDA_DISK_ICON_NAME ≠ 0).
  { induction Hts as [|t ts Ht Hts IH]; intros i; [by left|]. cbn [lookup_track]. case_test; b2p; [right; by eapply track_name_other|apply IH]. }
  assert (Hicon : List.find (λ n, bool_decide (name_equiv (name n) nm)) (option_list (cdda_fill_disk_icon_node c)) =
    if odfs_strcasecmp nm CDDA_DISK_ICON_NAME =? 0 then cdda_fill_disk_icon_node c else None).
  { unfold cdda_fill_disk_icon_node. case_test; [by case_test|]. apply find_virtual; [done|repeat constructor; lia]. }
  rewrite Hicon. unfold cdda_fill_cddb_node, cdda_fill_cdtext_node. rewrite !find_virtual by (done || (repeat constructor; lia)). clear Hicon.
  assert (Hd1 : odfs_strcasecmp nm CDDA_CDDB_NAME = 0 → odfs_strcasecmp nm CDDA_CDTEXT_NAME ≠ 0 ∧ odfs_strcasecmp nm CDDA_DISK_ICON_NAME ≠ 0).
  { intros H. apply strcasecmp_spec in H; [|done|repeat constructor; lia].
    split; intros H'; (apply strcasecmp_spec in H'; [|done|repeat constructor; lia]); rewrite H in H'; discriminate H'. }
  assert (Hd2 : odfs_strcasecmp nm CDDA_CDTEXT_NAME = 0 → odfs_strcasecmp nm CDDA_DISK_ICON_NAME ≠ 0).
  { intros H. apply strcasecmp_spec in H; [|done|repeat constructor; lia].
    intros H'; (apply strcasecmp_spec in H'; [|done|repeat constructor; lia]); rewrite H in H'; discriminate H'. }
  destruct (odfs_strcasecmp nm CDDA_CDDB_NAME =? 0) eqn:E1, (odfs_strcasecmp nm CDDA_CDTEXT_NAME =? 0) eqn:E2,
    (odfs_strcasecmp nm CDDA_DISK_ICON_NAME =? 0) eqn:E3; b2p; try (exfalso; tauto); try done.
  all: destruct (Htrk 0) as [Hl|(H1 & H2 & H3)]; [|exfalso; tauto]; change (Z.of_nat 0) with 0; rewrite Hl.
  - by destruct (cdda_fill_virtual_node (cddb_text c) _ _ _).
  - by destruct (cdda_fill_virtual_node (cdtext_text c) _ _ _).
  - by destruct (cdda_fill_disk_icon_node c).
Qed.
