(* ===== verification/CddaSpec.v ===== *)
(** * An audio CD from its table of contents

    Mounting gives every audio track of the table a file; the texts and titles read on
    the way change nothing of what the tracks play.  For the table that
    [platform/host/file_media.c] makes from a cue sheet the tracks are the sheet's. *)
From stdpp Require Import gmap strings.
From S2P Require Import Prelude Types Strings Media BlockCache Backend MetaCache MetaCacheProofs MetaCacheSpec Session Mount Cdda.
From S2P Require Import CddaBackend CddaRead FileMedia FileMediaProofs FileMediaSpec CddaText.
Open Scope Z_scope.

(** ** What titles do not change *)

Definition untitled (t : cdda_track) : cdda_track := set_title [] t.
(** What the tracks play, and from where. *)
Definition plays (c : cdda_context) :=
  (map untitled (tracks c), is_mixed_mode c, file_format c, has_media c, (audio_cache c, audio_cache_lba c, audio_cache_frames c)).
Lemma store_title_plays c n s : plays (cdda_store_track_title c n s) = plays c.
Proof.
  unfold cdda_store_track_title. case_test; [done|]. case_test; [by case_test|].
  assert (Hu : ∀ i v, map untitled (zupd (tracks c) i (set_title v)) = map untitled (tracks c)).
  { intros i v. unfold zupd. case_test; [|done]. apply list_eq. intros k. rewrite !list_lookup_fmap.
    destruct (decide (k = Z.to_nat i)) as [->|]; [rewrite list_lookup_alter_eq|by rewrite list_lookup_alter_ne].
    by destruct (tracks c !! Z.to_nat i). }
  destruct (track_numbered n c) as [[i ?]|]; [|done].
  case_test; [destruct (track_numbered (n - 1) c) as [[? p]|]; [|done]|]; unfold plays; cbn [tracks set_tracks]; by rewrite Hu.
Qed.
Lemma extract_chars_plays data : ∀ c s, plays (extract_chars c data s).1 = plays c.
Proof.
  induction data as [|ch data IH]; intros c s; [done|]. simpl. case_test; rewrite IH; [|done]. case_test; [done|]. apply store_title_plays.
Qed.
Lemma extract_packs_plays packs : ∀ c s, plays (extract_packs c packs s).1 = plays c.
Proof.
  induction packs as [|p packs IH]; intros c s; [done|]. cbn [extract_packs]. case_test; [apply IH|].
  destruct (extract_chars _ _ _) as [c' s'] eqn:He. rewrite IH. change c' with (c', s').1. rewrite <- He. apply extract_chars_plays.
Qed.
Lemma generate_cddb_plays a c : plays (cdda_generate_cddb a c) = plays c.
Proof. unfold cdda_generate_cddb. repeat case_test; try done. by destruct (cddb_generate _ c). Qed.
Lemma generate_cdtext_plays {M} (mops : odfs_media_ops M) malloc c m : plays (cdda_generate_cdtext mops malloc c m).1 = plays c.
Proof.
  unfold cdda_generate_cdtext. case_test; [done|]. destruct (odfs_media_read_cdtext mops m) as [[err raw] m'].
  case_test; [done|]. case_test; [done|]. case_test; [apply extract_packs_plays|].
  destruct (cdtext_generate raw); apply extract_packs_plays.
Qed.

(** ** Mounting *)

Definition format_of (opts : option odfs_mount_opts) : cdda_file_format :=
  match opts with Some o => if prefer_aiff o then CDDA_FILE_FORMAT_AIFF else CDDA_FILE_FORMAT_WAV | None => CDDA_FILE_FORMAT_WAV end.
Lemma plays_good aud c ts : plays c = (ts, is_mixed_mode c, file_format c, true, (audio_cache c, audio_cache_lba c, 0)) →
  Forall (track_ok (file_format c)) ts →
  match audio_cache c with Some b => zlen b = CDDA_READAHEAD_FRAMES * CDDA_FRAME_SIZE | None => True end → cdda_good aud c.
Proof.
  unfold plays. intros [= <- _ Hf] Hts Hc. split.
  - rewrite Forall_map in Hts. eapply Forall_impl; [exact Hts|]. intros t Ht. exact Ht.
  - unfold audio_shows. destruct (audio_cache c); [|done]. split; [done|]. by left.
Qed.
Lemma mount_plays {M} (mops : odfs_media_ops M) aud malloc toc mixed opts ts m :
  malloc 0%nat = true → toc_tracks toc (cdda_header_size (format_of opts)) (Z.to_nat (session_count toc)) 0 [] = Ret ts → ts ≠ [] →
  map untitled ts = ts → Forall (track_ok (format_of opts)) ts →
  yields (cdda_mount_from_toc mops malloc toc mixed opts true m) (λ '(err, r, _), err = ODFS_OK ∧
    ∃ c, r = Some (cdda_root mixed, c) ∧ map untitled (tracks c) = ts ∧ file_format c = format_of opts ∧ has_media c = true ∧ cdda_good aud c).
Proof.
  intros Hm Htoc Hne Hun Hok. unfold cdda_mount_from_toc. rewrite Hm. cbn [negb]. cbv zeta. fold (format_of opts). rewrite Htoc.
  cbn [mbind outcome_bind]. rewrite (proj2 (Z.eqb_neq _ _)) by (destruct ts; [done|simpl; lia]).
  set (b := if malloc 1%nat then Some _ else None).
  assert (Hbuf : match b with Some b => zlen b = CDDA_READAHEAD_FRAMES * CDDA_FRAME_SIZE | None => True end).
  { unfold b. case_test; [|done]. rewrite length_replicate. apply Z2Nat.id. done. }
  clearbody b. set (c1 := set_audio_cache _ _ _ _).
  assert (H1 : plays c1 = (ts, mixed, format_of opts, true, (audio_cache c1, 0, 0))).
  { unfold c1, plays, set_audio_cache, cdda_set_volume_name. cbn [is_mixed_mode]. destruct mixed; simpl; by rewrite Hun. }
  set (c2 := cdda_generate_cddb _ c1). pose proof (generate_cddb_plays (malloc 2%nat) c1) as H2. fold c2 in H2.
  pose proof (generate_cdtext_plays mops malloc c2 m) as H3. destruct (cdda_generate_cdtext mops malloc c2 m) as [c3 m'].
  cbn [fst] in H3. apply yields_ret. split; [done|].
  set (c4 := if _ && _ then _ else c3). assert (H4 : plays c4 = plays c3) by (unfold c4; by case_test).
  rewrite H3, H2, H1 in H4. clearbody c4. assert (Hroot : is_mixed_mode c4 = mixed) by (unfold plays in H4; congruence).
  exists c4. rewrite Hroot. split; [done|]. pose proof H4 as H5. unfold plays in H5. injection H5 as Htr _ Hff Hmd Hac Hlb Hfr.
  split_and!; try done. apply (plays_good aud c4 ts); [|by rewrite Hff|by rewrite Hac].
  rewrite H4, Hff, Hroot, Hac, Hlb. done.
Qed.

(** ** The table of contents of a cue sheet *)

Definition cue_session (t : cue_track) : odfs_session :=
  mk_session (ct_number t) (if ct_is_audio t then 0x00 else 0x04) (ct_start_lba t) (ct_sector_count t).
Definition cue_toc (fm : file_media_ctx) : odfs_toc :=
  mk_toc 1 1 (zlen (fm_tracks fm)) (fm_sector_count fm) (splice (replicate 99 session_zero) 0 (map cue_session (fm_tracks fm))).
(** The file of a track of the sheet. *)
Definition cue_file (f : cdda_file_format) (t : cue_track) : cdda_track :=
  mk_track (ct_number t) (ct_start_lba t) (ct_sector_count t) (ct_sector_count t * CDDA_FRAME_SIZE)
    (ct_sector_count t * CDDA_FRAME_SIZE + cdda_header_size f) [].
Definition audio_tracks (fm : file_media_ctx) : list cue_track := filter (λ t, ct_is_audio t = true) (fm_tracks fm).

Lemma cue_toc_read fm st toc : cue_image fm → file_read_toc fm st toc = (ODFS_OK, cue_toc fm, st).
Proof.
  intros Hcue. unfold file_read_toc, cue_toc. rewrite (cu_cue _ Hcue). pose proof (cu_count _ Hcue) as Hn. unfold HOST_MAX_CUE_TRACKS in Hn.
  rewrite (proj2 (Z.eqb_neq _ _)) by lia. cbn [negb orb]. rewrite u8_small by (unfold is_byte; lia). done.
Qed.
Lemma cue_toc_entry fm (i : nat) t : cue_image fm → fm_tracks fm !! i = Some t → toc_entry (cue_toc fm) (Z.of_nat i) = Ret (cue_session t).
Proof.
  intros Hcue Hi. unfold toc_entry, cue_toc. cbn [sessions]. rewrite zget_nat. unfold splice. change (Z.to_nat 0) with 0%nat.
  rewrite take_0, app_nil_l. rewrite lookup_app_l by (rewrite length_map; by apply lookup_lt_Some in Hi). by rewrite list_lookup_fmap, Hi.
Qed.
Lemma cue_toc_tracks fm f n : ∀ (i : nat) ts, cue_image fm → (i + n)%nat = length (fm_tracks fm) → zlen ts ≤ Z.of_nat i →
  Forall (λ t, 0 < ct_sector_count t ∧ ct_start_lba t + ct_sector_count t < 2 ^ 32) (fm_tracks fm) →
  toc_tracks (cue_toc fm) (cdda_header_size f) n (Z.of_nat i) ts =
    Ret (ts ++ map (cue_file f) (filter (λ t, ct_is_audio t = true) (drop i (fm_tracks fm)))).
Proof.
  induction n as [|n IH]; intros i ts Hcue Hi Hts Hpos; cbn [toc_tracks].
  { rewrite drop_ge by lia. by rewrite app_nil_r. }
  pose proof (cu_count _ Hcue) as Hn. unfold HOST_MAX_CUE_TRACKS in Hn. unfold CDDA_MAX_TRACKS. rewrite (proj2 (Z.leb_gt _ _)) by lia.
  destruct (fm_tracks fm !! i) as [t|] eqn:Ht; [|apply lookup_ge_None in Ht; lia].
  rewrite (cue_toc_entry fm i t Hcue Ht). cbn [mbind outcome_bind]. rewrite (drop_S _ _ _ Ht), filter_cons.
  pose proof (Forall_lookup_1 _ _ _ _ Hpos Ht) as [Hp Hend]. cbn [s_control s_start_lba s_length s_number cue_session].
  replace (Z.of_nat i + 1) with (Z.of_nat (S i)) by lia.
  assert (Hlaid : 0 ≤ ct_start_lba t) by (pose proof (Forall_lookup_1 _ _ _ _ (cu_laid _ Hcue) Ht) as (_ & ? & _); done).
  destruct (ct_is_audio t); [rewrite decide_True by done|rewrite decide_False by done].
  - change (negb (Z.land 0 4 =? 0)) with false. cbv iota. rewrite (proj2 (Z.eqb_neq _ _)) by lia. cbn [andb mbind outcome_bind].
    rewrite (proj2 (Z.eqb_neq (ct_sector_count t) 0)) by lia. cbn [andb]. rewrite ?(proj2 (Z.eqb_neq (ct_sector_count t) 0)) by lia. rewrite (IH (S i)) by (done || lia || (rewrite length_app; simpl; lia)).
    rewrite <- app_assoc. cbn [map app]. do 4 f_equal. unfold cue_file, CDDA_FRAME_SIZE. unfold u64.
    pose proof (header_size_cases f). rewrite (Z.mod_small (ct_sector_count t * 2352)) by lia. rewrite Z.mod_small by lia. done.
  - change (negb (Z.land 4 4 =? 0)) with true. cbv iota. apply (IH (S i)); (done || lia).
Qed.

(** ** What the files of a sheet's tracks hold *)

(** The audio of a track in the payload. *)
Definition cue_audio (fm : file_media_ctx) (t : cue_track) : list Z :=
  slice (fm_data fm) (ct_file_offset t) (ct_sector_count t * AUDIO_FRAME).
Definition cue_header (f : cdda_file_format) (t : cue_track) : list Z :=
  slice (cdda_build_header f (replicate (Z.to_nat CDDA_AIFF_HEADER_SIZE) 0) (u32 (ct_sector_count t * CDDA_FRAME_SIZE))) 0 (cdda_header_size f).

Section contents.
Context (fm : file_media_ctx) (Hcue : cue_image fm) (t : cue_track) (Ht : t ∈ fm_tracks fm) (Haudio : ct_is_audio t = true).
Context (Hpos : 0 < ct_sector_count t) (Hend : ct_start_lba t + ct_sector_count t < 2 ^ 32).

Lemma audio_raw : ct_raw_sector_size t = AUDIO_FRAME.
Proof. pose proof (cu_texts _ Hcue) as Hx. rewrite Forall_forall in Hx. by apply (Hx t Ht). Qed.
Lemma audio_frame l : ct_start_lba t ≤ l < ct_start_lba t + ct_sector_count t →
  file_frame fm l = slice (fm_data fm) (ct_file_offset t + (l - ct_start_lba t) * AUDIO_FRAME) AUDIO_FRAME.
Proof.
  intros Hl. unfold file_frame. rewrite (find_track_complete fm t l Hcue Ht Hl Hend).
  destruct (track_of fm Hcue t Ht) as ((Ho & _) & _ & Hin). unfold track_inside in Hin. pose proof audio_raw as Hr. unfold AUDIO_FRAME in *.
  unfold raw_offset. rewrite Hr in *. apply file_bytes_inside; nia.
Qed.
Lemma audio_frames (n : nat) : Z.of_nat n ≤ ct_sector_count t →
  disc_sectors (file_frame fm) (ct_start_lba t) (Z.of_nat n) = slice (fm_data fm) (ct_file_offset t) (Z.of_nat n * AUDIO_FRAME).
Proof.
  destruct (track_of fm Hcue t Ht) as ((Ho & _) & _ & Hin). unfold track_inside in Hin. pose proof audio_raw as Hr.
  induction n as [|n IH]; intros Hn; [done|]. rewrite Nat2Z.inj_succ, <- Z.add_1_r, disc_sectors_app, disc_sectors_1, IH by lia.
  rewrite audio_frame by lia. rewrite Z.mul_add_distr_r, slice_add by (unfold AUDIO_FRAME; lia). do 2 f_equal; lia.
Qed.
Lemma cue_contents f trk : untitled trk = cue_file f t → track_contents (file_frame fm) f trk = cue_header f t ++ samples f (cue_audio fm t).
Proof.
  intros Hu. assert (Hf : start_lba trk = ct_start_lba t ∧ length_frames trk = ct_sector_count t ∧ data_size trk = ct_sector_count t * CDDA_FRAME_SIZE).
  { unfold untitled, cue_file, set_title in Hu. by injection Hu as _ -> -> -> _. }
  destruct Hf as (H1 & H2 & H3). unfold track_contents. rewrite H1, H2, H3. f_equal.
  rewrite <- samples_sectors by (apply length_file_frame || lia). f_equal. unfold cue_audio.
  rewrite <- (Z2Nat.id (ct_sector_count t)) by lia. apply audio_frames. lia.
Qed.
Lemma cue_track_readable io alloc f trk : (∀ k, io k = None) → untitled trk = cue_file f t → audio_readable (file_media_ops io fm alloc) trk.
Proof.
  intros Hio Hu. assert (Hf : start_lba trk = ct_start_lba t ∧ length_frames trk = ct_sector_count t).
  { unfold untitled, cue_file, set_title in Hu. by injection Hu as _ -> -> _. }
  destruct Hf as (H1 & H2). exists (file_read_audio io fm). split; [done|]. intros m lba count buf. rewrite H1, H2. intros Hlo Hc Hhi _.
  unfold file_read_audio. rewrite (cu_cue _ Hcue). cbn [negb]. apply (audio_read_ok io Hio fm Hcue t Ht Hend); [apply audio_raw|lia|lia].
Qed.
Lemma cue_file_ok f : track_ok f (cue_file f t).
Proof.
  destruct (track_of fm Hcue t Ht) as ((_ & Hs & _) & _). unfold track_ok, cue_file. cbn [start_lba length_frames data_size file_size]. split_and!; lia.
Qed.
End contents.

(** * Audio CDs: the theorems

    Reading a track gives the bytes of its file; from the cue sheet to the file nothing
    is lost; the texts and titles of a disc; what its directory lists. *)

(** ** Reading *)

(** [C31] Reading a track's file ends and keeps the context; it returns the bytes of the
    file, header and audio frames in the format's byte order, clamped to its size,
    through the read-ahead cache or without, or an error and no bytes; it succeeds when
    the medium can read the track. *)
Theorem cdda_read_exact {M} (mops : odfs_media_ops M) aud c m file t offset buf len :
  MediaAudio mops aud → cdda_good aud c → track_node c file t → 0 ≤ offset → 0 ≤ len ≤ zlen buf → zlen buf < 2 ^ 63 →
  let K := track_contents aud (file_format c) t in
  yields (cdda_read mops c m file offset buf len) (λ '(err, buf', n, c', m'),
    cdda_good aud c' ∧ same_disc c c' ∧ length buf' = length buf ∧ zlen K = file_size t ∧
    (audio_readable mops t → has_media c = true → data_size t ≤ 2 ^ 32 → err = ODFS_OK) ∧
    if err_ok err then n = Z.max 0 (Z.min len (file_size t - offset)) ∧
      buf' = slice K offset n ++ drop (Z.to_nat n) buf
    else n = 0).
Proof.
  intros Hma Hg Ht Ho Hlen Hbuf K. eapply yields_weaken; [by apply (read_track_ok mops aud c m file t)|].
  intros [[[[err b] n] c'] m'] (H1 & H2 & H3 & H4 & H5). split_and!; try done.
  apply length_contents; [apply (ma_frame_length (ops := mops))|]. destruct Hg as [Hts _], Ht as (_ & _ & _ & _ & Ht).
  unfold zget in Ht. destruct (0 <=? _); [|done]. by eapply Forall_lookup_1.
Qed.

(** [C30] From the cue sheet to the files: the drive's table of contents is the sheet's,
    mounting it makes one file per audio track in order, and reading a file returns the
    header and the bytes the payload has for the track. *)
Theorem cue_disc_plays fs io io' malloc path fm st io2 alloc malloc2 mixed opts st1 :
  (∀ p d, fs p = Some d → Forall is_byte d) →
  cue_media_open fs io io' malloc path = Ret (ODFS_OK, Some (fm, st)) →
  (∀ k, io2 k = None) → malloc2 0%nat = true →
  Forall (λ t, 0 < ct_sector_count t ∧ ct_start_lba t + ct_sector_count t < 2 ^ 32) (fm_tracks fm) → audio_tracks fm ≠ [] →
  let mops := file_media_ops io2 fm alloc in let f := format_of opts in
  odfs_media_read_toc mops st1 toc_zero = (ODFS_OK, cue_toc fm, st1) ∧
  yields (cdda_mount_from_toc mops malloc2 (cue_toc fm) mixed opts true st1) (λ '(err, r, _), err = ODFS_OK ∧
    ∃ c, r = Some (cdda_root mixed, c) ∧ map untitled (tracks c) = map (cue_file f) (audio_tracks fm) ∧
    ∀ (i : nat) t trk offset buf len st2,
      audio_tracks fm !! i = Some t → tracks c !! i = Some trk → ct_sector_count t * AUDIO_FRAME ≤ 2 ^ 32 →
      0 ≤ offset → 0 ≤ len ≤ zlen buf → zlen buf < 2 ^ 63 →
      let K := cue_header f t ++ samples f (cue_audio fm t) in
      yields (cdda_read mops c st2 (cdda_fill_track_node c (Z.of_nat i) trk) offset buf len) (λ '(err, buf', n, _, _),
        err = ODFS_OK ∧ n = Z.max 0 (Z.min len (zlen K - offset)) ∧ buf' = slice K offset n ++ drop (Z.to_nat n) buf)).
Proof.
  intros Hfs Hopen Hio Hm Hpos Hne mops f.
  destruct (cue_open_ok fs io io' malloc path Hfs) as ([err r] & Hr & Hok).
  rewrite Hopen in Hr. injection Hr as <- <-. destruct Hok as [_ Hcue]. split; [by apply cue_toc_read|].
  pose proof (file_audio io2 fm alloc) as Hma. pose proof (cu_count _ Hcue) as Hcount. unfold HOST_MAX_CUE_TRACKS in Hcount.
  assert (Hat : ∀ i t, audio_tracks fm !! i = Some t → t ∈ fm_tracks fm ∧ ct_is_audio t = true ∧ 0 < ct_sector_count t ∧ ct_start_lba t + ct_sector_count t < 2 ^ 32).
  { intros i t Hi%list_elem_of_lookup_2. apply list_elem_of_filter in Hi as [Ha Hi]. rewrite Forall_forall in Hpos. by destruct (Hpos t Hi). }
  pose proof (cue_toc_tracks fm f (length (fm_tracks fm)) 0 [] Hcue eq_refl ltac:(done) Hpos) as Htoc. rewrite drop_0, app_nil_l in Htoc.
  eapply yields_weaken.
  { apply (mount_plays mops (file_frame fm) malloc2 (cue_toc fm) mixed opts (map (cue_file f) (audio_tracks fm))); [done| | | |].
    - cbn [session_count cue_toc]. rewrite Nat2Z.id. exact Htoc.
    - by destruct (audio_tracks fm).
    - rewrite map_map. by apply map_ext.
    - apply Forall_map, Forall_forall. intros t Ht. apply list_elem_of_lookup in Ht as [i Hi]. apply Hat in Hi as (H1 & H2 & H3 & H4).
      by apply (cue_file_ok fm). }
  intros [[err r] m'] [-> (c & -> & Hun & Hff & Hmd & Hgood)]. split; [done|]. exists c. split_and!; [done|done|].
  intros i t trk offset buf len st2 Hi Htrk Hsz Ho Hlen Hbuf K. destruct (Hat i t Hi) as (H1 & H2 & H3 & H4).
  assert (Hut : untitled trk = cue_file f t).
  { assert (H : map untitled (tracks c) !! i = Some (untitled trk)) by (by rewrite list_lookup_fmap, Htrk).
    rewrite Hun, list_lookup_fmap, Hi in H. simpl in H. congruence. }
  assert (Hnum : number trk = ct_number t ∧ data_size trk = ct_sector_count t * 2352 ∧ file_size trk = ct_sector_count t * 2352 + cdda_header_size f).
  { unfold untitled, cue_file, set_title in Hut. injection Hut as -> _ _ -> ->.  done. }
  destruct Hnum as (Hn1 & Hn2 & Hn3). pose proof (cu_texts _ Hcue) as Htx. rewrite Forall_forall in Htx. destruct (Htx t H1) as (Hnb & _).
  assert (Hil : Z.of_nat i < 100).
  { apply lookup_lt_Some in Hi. pose proof (length_filter (λ t, ct_is_audio t = true) (fm_tracks fm)). unfold audio_tracks in Hi. lia. }
  eapply yields_weaken; [apply (read_track_ok mops (file_frame fm) c st2 _ trk offset buf len Hma Hgood)|].
  - unfold track_node. cbn [id cdda_fill_track_node extent lba]. rewrite Hn1. unfold CDDA_CDDB_NODE_ID, CDDA_CDTEXT_NODE_ID, CDDA_DISK_ICON_NODE_ID.
    split_and!; try lia. replace (Z.of_nat i + 2 - 2) with (Z.of_nat i) by lia. by rewrite zget_nat.
  - done.
  - done.
  - done.
  - intros [[[[err b] n] c'] m2] (_ & _ & _ & Hok & Hres).
    specialize (Hok (cue_track_readable fm Hcue t H1 H2 H4 io2 alloc f trk Hio Hut) Hmd ltac:(unfold AUDIO_FRAME in *; lia)). subst err.
    change (err_ok ODFS_OK) with true in Hres. cbv iota in Hres. destruct Hres as [Hn Hb].
    rewrite Hff in Hb. fold f in Hb. rewrite (cue_contents fm Hcue t H1 H2 H3 H4 f trk Hut) in Hb. fold K in Hb. split; [done|]. split; [|done].
    rewrite Hn. do 2 f_equal. unfold K. rewrite <- (cue_contents fm Hcue t H1 H2 H3 H4 f trk Hut), Hn3.
    rewrite (length_contents _ (length_file_frame fm)); [lia|]. pose proof (cue_file_ok fm Hcue t H1 H3 H4 f) as Hfo.
    rewrite <- Hut in Hfo. exact Hfo.
Qed.

(** ** Texts and titles *)

(** [C34] On a disc of up to 99 tracks the text of CDDB.txt always fits its buffer; it is
    the reference text, whose numbers are in decimal. *)
Theorem cddb_text_complete c : 0 < zlen (tracks c) ≤ 99 →
  cddb_text (cdda_generate_cddb true c) = Some (cddb_reference c) ∧
  zlen (cddb_reference c) < 256 + zlen (tracks c) * 48 ∧
  (∀ v, is_u32 v → decimal_value (decimal v) = v).
Proof.
  intros Hn. pose proof (cddb_reference_fits c ltac:(lia)) as Hfit. split_and!; [|done|apply decimal_value_of].
  unfold cdda_generate_cddb. rewrite (proj2 (Z.eqb_neq _ _)) by lia. cbn [negb]. by rewrite appends_cddb.
Qed.

(** [C33] The titles of a cue sheet with tracks 1, 2, 3 and so on survive the CD-Text
    encoding of the image and the decoding of the CDDA backend: every track has the
    sheet's title, cut to what a comment holds, and the album the disc's. *)
Theorem cdtext_titles_roundtrip fm alloc st c :
  cue_image fm → alloc = true → map ct_number (fm_tracks fm) = seqZ 1 (zlen (fm_tracks fm)) →
  Forall (λ t, ct_title t ≠ [9]) (fm_tracks fm) → fm_disc_title fm ≠ [9] → NoDup (number <$> tracks c) →
  match file_read_cdtext fm alloc st with
  | (err, raw, _) =>
      if err_ok err then cdda_extract_track_titles c (cdtext_packs raw) =
        set_tracks (map (titled (numbered fm ct_title)) (tracks c))
          (if bool_decide (fm_disc_title fm = []) then c else set_album_title (cdda_sanitize_ascii 32 (fm_disc_title fm)) c)
      else have_strings (fm_disc_title fm) (map ct_title (fm_tracks fm)) = false
  end.
Proof.
  intros Hcue -> Hnum Htab Hdt Hnd. unfold file_read_cdtext. rewrite (cu_cue _ Hcue). cbn [negb].
  set (have_title := have_strings _ _). set (have_performer := have_strings (fm_disc_performer fm) _).
  destruct (negb have_title && negb have_performer) eqn:Hh.
  { apply andb_true_iff in Hh as [Hh _]. by apply negb_true_iff in Hh. }
  set (w1 := if have_title then _ else writer_zero). set (w2 := if have_performer then _ else w1). change (err_ok ODFS_OK) with true. cbv iota.
  assert (Hst : ∀ s, is_text s → storable s).
  { intros s [H1 H2]. split; [done|]. unfold HOST_CUE_TEXT_MAX, ODFS_AMIGA_COMMENT_MAX in *. lia. }
  assert (Hfrom : numbered_from 1 (numbered fm ct_title)).
  { unfold numbered_from, numbered. rewrite map_map. change (map (λ x, (ct_number x, ct_title x).1) (fm_tracks fm)) with (map ct_number (fm_tracks fm)). rewrite Hnum. apply list_eq. intros i. rewrite list_lookup_imap, list_lookup_fmap.
    destruct (fm_tracks fm !! i) as [t|] eqn:Hi; simpl.
    - rewrite lookup_seqZ_lt; [done|]. apply lookup_lt_Some in Hi. lia.
    - symmetry. apply lookup_seqZ_ge. apply lookup_ge_None in Hi. lia. }
  pose proof (cu_texts _ Hcue) as Htx. destruct (cu_disc _ Hcue) as [Hdisc _].
  assert (Hw1 : writer_ok w1 ∧ w_data w1 = [] ∧ (read_packs c w1).1 = store_all c ((0, fm_disc_title fm) :: numbered fm ct_title)).
  { unfold w1. destruct have_title eqn:Ht.
    - apply put_titles; [done|by apply Hst|]. unfold numbered. apply Forall_map. eapply Forall_impl; [exact Htx|].
      intros t (_ & _ & _ & H & _). by apply Hst.
    - split_and!; [by split_and!|done|]. unfold have_title, have_strings in Ht. simpl in Ht. apply orb_false_iff in Ht as [Hd Hall].
      apply negb_false_iff, bool_decide_eq_true_1 in Hd. simpl. rewrite Hd. unfold cdda_store_track_title at 1. simpl.
      assert (Hskip : ∀ ts c, Forall (λ p, p.2 = []) ts → store_all c ts = c).
      { clear. intros ts c Hts. revert c. induction Hts as [|[n s] ts Hs Hts IH]; intros c; [done|]. simpl in Hs. subst s. simpl. rewrite IH.
        unfold cdda_store_track_title. simpl. by rewrite orb_true_r. }
      change (fold_left _ _ ?x) with (store_all x (numbered fm ct_title)). rewrite Hskip; [done|]. unfold numbered. apply Forall_map, Forall_forall. simpl.
      intros t Hin. rewrite <- not_true_iff_false, existsb_exists in Hall. destruct (decide (ct_title t = [])) as [|Hne]; [done|]. exfalso. apply Hall.
      exists (ct_title t). split; [by apply in_map, list_elem_of_In|]. by rewrite bool_decide_eq_false_2. }
  destruct Hw1 as (Hok1 & Hd1 & Hr1).
  assert (Hw2 : writer_ok w2 ∧ read_packs c w2 = read_packs c w1).
  { unfold w2. destruct have_performer; [|done]. by apply put_performers. }
  destruct Hw2 as [Hok2 Hr2]. rewrite response_packs by done. rewrite Hr2, Hr1. cbn [store_all fold_left fst snd].
  fold (store_all (cdda_store_track_title c 0 (fm_disc_title fm)) (numbered fm ct_title)).
  set (c1 := cdda_store_track_title c 0 (fm_disc_title fm)).
  assert (Hc1 : c1 = if bool_decide (fm_disc_title fm = []) then c else set_album_title (cdda_sanitize_ascii 32 (fm_disc_title fm)) c).
  { unfold c1, cdda_store_track_title. destruct (decide (fm_disc_title fm = [])) as [->|Hne]; [done|].
    rewrite (proj2 (Z.eqb_neq _ _)) by (destruct (fm_disc_title fm); [done|simpl; lia]). simpl. by rewrite !bool_decide_eq_false_2. }
  rewrite <- Hc1. assert (Htr : tracks c1 = tracks c) by (rewrite Hc1; by case_test). rewrite <- Htr in *.
  apply (store_all_titles _ 1); [done|lia|done|]. unfold numbered. apply Forall_map. done.
Qed.

(** ** The directory *)

(** The directory of an audio CD lists the texts that are there and the tracks;
    enumeration from any cookie runs the callback over the rest, and lookup finds the
    first entry with the name.  A stop returns the cookie of the entry the callback
    stopped at, not the one after it. *)
Theorem cdda_directory c : zlen (cdda_listing c) < 2 ^ 31 → Forall (λ t, is_byte (number t)) (tracks c) →
  (∀ T (cb : odfs_dir_iter_fn T) (k : nat) t, (k ≤ length (cdda_listing c))%nat →
     let L := drop k (cdda_listing c) in
     cdda_readdir cb c (Some (Z.of_nat k)) t = Ret ((run cb L t).1,
       Some (Z.of_nat k + delivered cb L t - (if err_ok (run cb L t).1 then 0 else 1)), (run cb L t).2)) ∧
  ∀ nm, is_name nm → cdda_lookup c nm = match listed (cdda_listing c) nm with
    | Some n => (ODFS_OK, Some n) | None => (ODFS_ERR_NOT_FOUND, None) end.
Proof.
  intros Hl Hts. split.
  - intros T cb k t Hk L. by apply (readdir_listing cb c (Some (Z.of_nat k)) k t).
  - intros nm Hnm. by apply cdda_lookup_listing.
Qed.

(** ** The disc of [FileMediaSpec] *)

Definition audio_ops : odfs_media_ops stream := file_media_ops no_faults audio_fm true.
(** Everything but the audio cache can be allocated. *)
Definition no_cache (k : nat) : bool := negb (Nat.eqb k 1).
Definition audio_mount := cdda_mount_from_toc audio_ops no_cache (cue_toc audio_fm) false None true stream_start.
Definition audio_cdda : cdda_context :=
  match audio_mount with Ret (_, Some (_, c), _) => c | _ => mk_cdda [] false CDDA_FILE_FORMAT_WAV [] [] None None None false None 0 0 end.
Definition audio_file (i : nat) : odfs_node :=
  match tracks audio_cdda !! i with Some t => cdda_fill_track_node audio_cdda (Z.of_nat i) t | None => node_zero end.
Example audio_names : map (λ n, (name n, size n)) (cdda_listing audio_cdda) =
    [(str "CDDB.txt", 162); (str "CD-TEXT.txt", 112); (str "Track01.wav", 2396); (str "Track02.wav", 2396)] ∧
  map title (tracks audio_cdda) = [str "One"; str "Second song"] ∧ volume_name audio_cdda = str "Demo disc".
Proof. vm_compute. done. Qed.
Lemma audio_cue : cue_image audio_fm.
Proof.
  destruct (cue_open_ok audio_files no_faults no_faults (λ _, true) (str "cds/d.cue") audio_files_bytes) as ([err [[fm st]|]] & He & H).
  - destruct H as [_ H]. assert (fm = audio_fm) as <-; [|done]. unfold audio_fm, audio_opened. by rewrite He.
  - exfalso. assert (Hc : match audio_opened with Ret (_, Some _) => True | _ => False end) by (vm_compute; exact I).
    unfold audio_opened in Hc. by rewrite He in Hc.
Qed.
Lemma audio_tracks_are : file_format audio_cdda = CDDA_FILE_FORMAT_WAV ∧ audio_cache audio_cdda = None ∧
  tracks audio_cdda = [mk_track 1 0 1 2352 2396 (str "One"); mk_track 2 1 1 2352 2396 (str "Second song")].
Proof. split_and!; vm_compute; reflexivity. Qed.
Lemma audio_sheet_tracks : fm_tracks audio_fm =
  [mk_cue_track 0 1 2352 0 32 1 true (str "One") []; mk_cue_track 1 1 2352 0 2384 2 true (str "Second song") []].
Proof. vm_compute. reflexivity. Qed.
Lemma audio_good : cdda_good (file_frame audio_fm) audio_cdda.
Proof.
  destruct audio_tracks_are as (Hf & Hc & Ht). split; [|unfold audio_shows; by rewrite Hc].
  rewrite Hf, Ht. repeat (constructor; [by split_and!|]). constructor.
Qed.
Definition audio_track (i : nat) : cdda_track := default (mk_track 0 0 0 0 0 []) (tracks audio_cdda !! i).
Lemma audio_file_node : track_node audio_cdda (audio_file 1) (audio_track 1).
Proof.
  assert (Hid : id (audio_file 1) = 2 ∧ lba (extent (audio_file 1)) = 3) by (vm_compute; done).
  unfold track_node. destruct Hid as [-> ->]. split_and!; try done; vm_compute; reflexivity.
Qed.
(** The end of the header and the first samples of the second track. *)
Lemma cdda_read_exact_witness :
  yields (cdda_read audio_ops audio_cdda stream_start (audio_file 1) 40 (replicate 10 7) 8) (λ '(err, buf, n, _, _),
    err_ok err = true → n = 8 ∧ buf = [48; 9; 0; 0; 0; 1; 2; 3; 7; 7]).
Proof.
  eapply yields_weaken; [apply (cdda_read_exact audio_ops (file_frame audio_fm) audio_cdda stream_start (audio_file 1) (audio_track 1) 40 (replicate 10 7) 8)|].
  - apply (file_audio no_faults audio_fm true).
  - apply audio_good.
  - apply audio_file_node.
  - lia.
  - simpl. lia.
  - simpl. lia.
  - intros [[[[err b] n] c'] m'] (_ & _ & _ & _ & _ & H) He. rewrite He in H. destruct H as [Hn Hb].
    assert (H1 : n = 8) by (rewrite Hn; vm_compute; reflexivity). split; [exact H1|]. rewrite Hb, H1. vm_compute. reflexivity.
Defined.
Lemma cue_disc_plays_witness :
  yields audio_mount (λ '(err, r, _), err = ODFS_OK ∧ ∃ c, r = Some (cdda_root false, c) ∧ zlen (tracks c) = 2).
Proof.
  destruct (cue_disc_plays audio_files no_faults no_faults (λ _, true) (str "cds/d.cue") audio_fm
    (match audio_opened with Ret (_, Some (_, st)) => st | _ => stream_start end) no_faults true no_cache false None stream_start audio_files_bytes) as [_ H].
  - vm_compute. reflexivity.
  - reflexivity.
  - reflexivity.
  - rewrite audio_sheet_tracks. repeat (constructor; [done|]). constructor.
  - vm_compute. discriminate.
  - eapply yields_weaken; [exact H|]. intros [[err r] m'] [He (c & Hr & Ht & _)]. split; [exact He|]. exists c. split; [exact Hr|].
    apply (f_equal length) in Ht. rewrite !length_map in Ht. rewrite Ht. vm_compute. reflexivity.
Defined.
Lemma cddb_text_complete_witness : cddb_text (cdda_generate_cddb true audio_cdda) = Some (cddb_reference audio_cdda) ∧
  drop 49 (cddb_reference audio_cdda) = str "04000002" ++ nl ++ str "TRACKS=2" ++ nl ++ str "TOTAL_SECONDS=0" ++ nl ++ str "TOTAL_FRAMES=0" ++ nl ++
    str "OFFSET01=150" ++ nl ++ str "OFFSET02=151" ++ nl ++ str "QUERY=cddb query 04000002 2 150 151 0" ++ nl.
Proof.
  destruct (cddb_text_complete audio_cdda) as (H & _).
  - vm_compute. split; [reflexivity|discriminate].
  - split; [exact H|]. vm_compute. reflexivity.
Defined.
Lemma cdtext_titles_roundtrip_witness :
  match file_read_cdtext audio_fm true stream_start with
  | (err, raw, _) => err = ODFS_OK ∧ map title (tracks (cdda_extract_track_titles audio_cdda (cdtext_packs raw))) = [str "One"; str "Second song"]
  end.
Proof.
  pose proof (cdtext_titles_roundtrip audio_fm true stream_start audio_cdda audio_cue eq_refl) as H.
  destruct (file_read_cdtext audio_fm true stream_start) as [[err raw] st] eqn:Hr.
  assert (He : err = ODFS_OK).
  { assert (Hc : (file_read_cdtext audio_fm true stream_start).1.1 = ODFS_OK) by (vm_compute; reflexivity). rewrite Hr in Hc. exact Hc. }
  split; [exact He|]. rewrite He in H. change (err_ok ODFS_OK) with true in H. cbv iota in H. rewrite H.
  - vm_compute. reflexivity.
  - vm_compute. reflexivity.
  - rewrite audio_sheet_tracks. repeat (constructor; [discriminate|]). constructor.
  - vm_compute. discriminate.
  - apply (bool_decide_unpack _). vm_compute. exact I.
Defined.
Lemma cdda_directory_witness : cdda_lookup audio_cdda (str "track02.WAV") = (ODFS_OK, Some (audio_file 1)).
Proof.
  destruct (cdda_directory audio_cdda) as [_ H].
  - vm_compute. reflexivity.
  - rewrite (proj2 (proj2 audio_tracks_are)). repeat (constructor; [done|]). constructor.
  - rewrite H; [vm_compute; reflexivity|]. repeat constructor; lia.
Defined.
