(* ===== verification/Reader.v ===== *)
(** * Listings with numbers

    The readers give the entries of a directory numbers as they come to them.  What two
    enumerations deliver agrees up to these. *)
From stdpp Require Import gmap.
From S2P Require Import Prelude Types Strings Media CacheApi BlockCache BlockCacheProofs BlockCacheRead BlockCacheSpec Backend MetaCache MetaCacheProofs.
From S2P Require Import MetaCacheSpec Mount MountProofs MountSpec AncestrySpec.
Open Scope Z_scope.

Definition numbered (i p : Z) (n : odfs_node) : odfs_node := set_id i (set_parent_id p n).
(** Entries with numbers, in the directory [p]. *)
Definition renumbered (p : Z) (L N : list odfs_node) : Prop := Forall2 (λ n m, ∃ i, m = numbered i p n) L N.
Lemma renumbered_face p L N : renumbered p L N → map face N = map face L.
Proof. induction 1 as [|n m L N [i ->] _ IH]; [done|]. simpl. by rewrite IH. Qed.
Lemma renumbered_length p L N : renumbered p L N → length N = length L.
Proof. intros H. symmetry. by eapply Forall2_length. Qed.
Lemma renumbered_wf p L N : renumbered p L N → Forall node_wf L → Forall node_wf N.
Proof. induction 1 as [|n m L N [i ->] _ IH]; [done|]. intros [? ?]%Forall_cons. constructor; auto. Qed.
(** The entry that is the directory with a number. *)
Definition by_number (L : list odfs_node) (d : Z) : option odfs_node :=
  List.find (λ n, bool_decide (kind n = ODFS_NODE_DIR) && (lba (extent n) =? d)) L.
Lemma by_number_face L d : face <$> by_number L d = by_number (map face L) d.
Proof. induction L as [|n L IH]; [done|]. unfold by_number. cbn [map List.find]. change (kind (face n)) with (kind n). change (extent (face n)) with (extent n). by case_match. Qed.

(** * A format reader as a backend

    Several readers have the same shape: functions over the block cache and a context
    of their own, allocated by a mount and freed by [unmount].  [reader_ops] makes the
    operation table of [include/odfs/backend.h] out of one; contexts live in a heap
    with those of other backends, and using a pointer that is not a live context of
    the reader is [Fault].  [ReaderLaws] is what a reader promises; a volume mounted by
    a lawful reader is what its listings say, whatever the caches do. *)

(** A session's start is a [uint32_t].  [r_mount] gets whether there is memory for a context, [r_resolve_parent] whether the
    grandparent is wanted. *)
Record reader (C Ctx : Type) : Type := mk_reader {
  r_probe : C → Z → outcome (odfs_err * C);
  r_mount : bool → C → Z → outcome (odfs_err * option (odfs_node * Ctx) * C);
  r_readdir : ∀ T, odfs_dir_iter_fn T → Ctx → C → odfs_node → T → option Z → outcome (odfs_err * option Z * Ctx * C * T);
  r_read : Ctx → C → odfs_node → Z → list Z → Z → outcome (odfs_err * list Z * Z * C);
  r_lookup : Ctx → C → odfs_node → list Z → outcome (odfs_err * option odfs_node * Ctx * C);
  r_readlink : option (Ctx → C → odfs_node → list Z → Z → outcome (odfs_err * option (list Z) * Ctx * C));
  r_resolve_parent : Ctx → C → odfs_node → bool → outcome (odfs_err * option odfs_node * option odfs_node * Ctx * C);
  r_volume_name : Ctx → Z → odfs_err * list Z;
  r_volume_size : Ctx → Z }.
Arguments mk_reader {C Ctx}.
Arguments r_probe {C Ctx}.
Arguments r_mount {C Ctx}.
Arguments r_readdir {C Ctx}.
Arguments r_read {C Ctx}.
Arguments r_lookup {C Ctx}.
Arguments r_readlink {C Ctx}.
Arguments r_resolve_parent {C Ctx}.
Arguments r_volume_name {C Ctx}.
Arguments r_volume_size {C Ctx}.

Section ops.
Context {M K Ctx : Type} (put : Ctx → K) (get : K → option Ctx) (calloc : gmap Z K → Z).
Abbreviation W := (world M (gmap Z K)).
Context (rd : reader (odfs_cache M) Ctx).

(** A function of the reader, on the context that [ctx] points to. *)
Definition on_context {A} (w : W) (ctx : Z) (f : Ctx → odfs_cache M → outcome (A * Ctx * odfs_cache M)) : outcome (A * W) :=
  match w_heap w !! ctx ≫= get with
  | Some c => '(a, c, cache) ← f c (w_cache w); Ret (a, mk_world cache (<[ctx := put c]> (w_heap w)))
  | None => Fault
  end.
Definition mount_new (w : W) (s : Z) (root : odfs_node) (ctx : Z) : outcome (odfs_err * odfs_node * Z * W) :=
  let a := calloc (w_heap w) in
  '(err, r, cache) ← r_mount rd (negb (a =? 0)) (w_cache w) (u32 s);
  match r with
  | Some (root, c) => Ret (err, root, a, mk_world cache (<[a := put c]> (w_heap w)))
  | None => Ret (err, root, ctx, mk_world cache (w_heap w))
  end.
Definition free_context (w : W) (ctx : Z) : outcome W :=
  match w_heap w !! ctx with
  | Some _ => Ret (mk_world (w_cache w) (delete ctx (w_heap w)))
  | None => if ctx =? 0 then Ret w else Fault
  end.

Definition reader_ops (type : odfs_backend_type) (fl : Z) (unmount : W → Z → outcome W) : odfs_backend_ops W :=
  mk_backend type fl
    (λ w s, '(err, cache) ← r_probe rd (w_cache w) (u32 s); Ret (err, mk_world cache (w_heap w)))
    mount_new
    (Some unmount)
    (Some (λ T w ctx dir cb t r,
       '(err, r, t, w) ← on_context w ctx (λ c cache, '(err, r, c, cache, t) ← r_readdir rd T cb c cache dir t r; Ret (err, r, t, c, cache));
       Ret (err, r, w, t)))
    (Some (λ w ctx file offset buf len,
       '(err, buf, n, w) ← on_context w ctx (λ c cache, '(err, buf, n, cache) ← r_read rd c cache file offset buf len; Ret (err, buf, n, c, cache));
       Ret (err, buf, n, w)))
    (Some (λ w ctx dir nm, on_context w ctx (λ c cache, '(err, out, c, cache) ← r_lookup rd c cache dir nm; Ret (err, out, c, cache))))
    ((λ readlink w ctx dir nm n, on_context w ctx (λ c cache, '(err, out, c, cache) ← readlink c cache dir nm n; Ret (err, out, c, cache))) <$> r_readlink rd)
    (Some (λ w ctx dir gp, on_context w ctx (λ c cache, '(err, p, g, c, cache) ← r_resolve_parent rd c cache dir gp; Ret (err, p, g, c, cache))))
    (Some (λ w ctx n, on_context w ctx (λ c cache, Ret (r_volume_name rd c n, c, cache))))
    (Some (λ w ctx, '(n, _) ← on_context w ctx (λ c cache, Ret (r_volume_size rd c, c, cache)); Ret n)).
End ops.

(** ** What a reader promises

    [ok]: the cache is in order.  [same]: contexts that differ in node numbers only.
    [listing] and [listable] are about the volume with context [ctx0]; [stands k c i]:
    the offset [c] is that of an enumeration that has delivered [i] entries. *)
Class ReaderLaws {C Ctx} (rd : reader C Ctx) (ok : C → Prop) (mounted : odfs_node → Ctx → Prop) (same : Ctx → Ctx → Prop) : Prop := {
  rl_probe : ∀ c s, ok c → is_u32 s → after (r_probe rd c s) (λ '(_, c'), ok c');
  rl_mount : ∀ a c s, ok c → is_u32 s → after (r_mount rd a c s) (λ '(err, r, c'), ok c' ∧
    match r with Some (root, ctx) => err = ODFS_OK ∧ a = true ∧ mounted root ctx | None => err ≠ ODFS_OK end);
  rl_refl : ∀ ctx, same ctx ctx;
  rl_trans : ∀ a b c, same a b → same b c → same a c;
  rl_same : ∀ root a b, same a b → mounted root a → mounted root b }.
Class ReaderLists {C Ctx} (rd : reader C Ctx) (ok : C → Prop) (same : Ctx → Ctx → Prop) (ctx0 : Ctx)
    (listable : odfs_node → Prop) (listing : Z → Z → odfs_backend_type → list odfs_node)
    (stands : Z * Z * odfs_backend_type → Z → nat → Prop) : Prop := {
  rl_readdir : ∀ T (cb : odfs_dir_iter_fn T) ctx c dir t r0 i, ok c → same ctx0 ctx → listable dir → stands (node_key dir) (default 0 r0) i →
    ∃ L c1 ctx' c', r_readdir rd T cb ctx c dir t r0 = Ret ((run cb (drop i L) t).1, (λ _, c1) <$> r0, ctx', c', (run cb (drop i L) t).2) ∧
      ok c' ∧ same ctx ctx' ∧ map face L = listing (lba (extent dir)) (length_ (extent dir)) (backend dir) ∧ Forall node_wf L ∧
      stands (node_key dir) c1 (i + Z.to_nat (delivered cb (drop i L) t))%nat;
  rl_lookup : ∀ ctx c dir nm, ok c → same ctx0 ctx → listable dir → is_name nm →
    ∃ err out ctx' c', r_lookup rd ctx c dir nm = Ret (err, out, ctx', c') ∧ ok c' ∧ same ctx ctx' ∧
      face <$> out = listed (listing (lba (extent dir)) (length_ (extent dir)) (backend dir)) nm ∧
      err = match out with Some _ => ODFS_OK | None => ODFS_ERR_NOT_FOUND end;
  rl_stands : ∀ k, stands k 0 0%nat;
  rl_cookie : ∀ k c i, stands k c i → 0 ≤ c ∧ Z.land c ODFS_META_COOKIE_TAG = 0 ∧ (c = 0 → i = 0%nat) }.

(** ** Volumes of a reader *)
Section volume.
Context {M K Ctx : Type} (mops : odfs_media_ops M) (img : Z → list Z) (put : Ctx → K) (get : K → option Ctx) (calloc : gmap Z K → Z).
Abbreviation W := (world M (gmap Z K)).
Context (rd : reader (odfs_cache M) Ctx) (mounted : odfs_node → Ctx → Prop) (same : Ctx → Ctx → Prop).
Context {HRL : ReaderLaws rd (cache_ok img 2048) mounted same} (Hget : ∀ c, get (put c) = Some c).
Context (q : Z) (type : odfs_backend_type) (fl : Z) (others : Z → odfs_backend_ops W).
(** The table with the reader as its entry [q]. *)
Definition with_reader (p : Z) : odfs_backend_ops W :=
  if p =? q then reader_ops put get calloc rd type fl free_context else others p.
Definition shows w : Prop := cache_ok img 2048 (w_cache (H := gmap Z K) (M := M) w).
(** A tree of the reader has a live context. *)
Definition reader_mounted (p c : Z) (r : odfs_node) (w : W) : Prop :=
  shows w ∧ (p = q → ∃ ctx, w_heap w !! c ≫= get = Some ctx ∧ mounted r ctx).

#[export] Instance reader_keeps : Keeps others shows (λ _ _ _, shows) → Keeps with_reader shows reader_mounted.
Proof.
  intros Ho. split.
  - intros p w s Hw. unfold with_reader. case_test; [|by apply kp_probe]. cbn [probe reader_ops].
    eapply after_bind; [apply (rl_probe (ReaderLaws := HRL)); [exact Hw|apply u32_range]|]. intros [err c] Hc. by apply after_ret.
  - intros p w s r c Hw. unfold with_reader. case_test; b2p.
    + cbn [be_mount reader_ops]. unfold mount_new. eapply after_bind; [apply (rl_mount (ReaderLaws := HRL)); [exact Hw|apply u32_range]|]. intros [[err [[root ctx]|]] cache]; cbv beta iota zeta; intros [Hok Hr]; apply after_ret.
      * split; [done|]. intros _. split; [done|]. intros _. exists ctx. simpl. rewrite lookup_insert_eq. split; [apply Hget|apply Hr].
      * split; [done|]. by intros ->%err_ok_true.
    + eapply after_weaken; [by apply (kp_mount (be := others) (P := λ _ _ _, shows))|]. intros [[[err r1] c1] w1] [Hw1 _].
      split; [done|]. intros _. by split.
  - intros p w c f. unfold with_reader. case_test; [|by apply kp_unmount]. intros [= <-] Hw. unfold free_context.
    case_match; [by apply after_ret|]. case_test; [by apply after_ret|done].
  - intros p w c r n f Hf [Hw Hc]. revert Hf. unfold with_reader. case_test; b2p.
    + intros [= <-]. destruct (Hc E) as (ctx & Hl & Hm). unfold on_context. rewrite Hl. cbn [mbind outcome_bind]. destruct (r_volume_name rd ctx n) as [e v]. apply after_ret. split; [done|]. intros _.
      exists ctx. simpl. rewrite lookup_insert_eq. split; [apply Hget|done].
    + intros Hf. eapply after_weaken; [by eapply (kp_volume_name (be := others) (P := λ _ _ _, shows) p w c r n f Hf)|].
      intros [[e v] w'] Hw'. by split.
  - intros m w Hw. by apply (set_media_ok img 2048).
Qed.

(** *** Requests *)
Context (ctx0 : Ctx) (mnt : odfs_mount_t) (Hmaps : own_maps mnt) (Hq : mnt_ops mnt = q).
Context (listable : odfs_node → Prop) (listing : Z → Z → odfs_backend_type → list odfs_node).
Context (stands : Z * Z * odfs_backend_type → Z → nat → Prop).
Context {HRS : ReaderLists rd (cache_ok img 2048) same ctx0 listable listing stands}.
Abbreviation be := with_reader.
(** The volume's context is [ctx0], node numbers apart. *)
Definition reader_good w : Prop :=
  shows w ∧ ∃ c, w_heap w !! mnt_ctx mnt ≫= get = Some c ∧ same ctx0 c.

Lemma on_context_good {A} w (f : Ctx → odfs_cache M → outcome (A * Ctx * odfs_cache M)) (Q : A → Prop) : reader_good w →
  (∀ c cache, same ctx0 c → cache_ok img 2048 cache → yields (f c cache) (λ '(a, c', cache'), cache_ok img 2048 cache' ∧ same c c' ∧ Q a)) →
  yields (on_context put get w (mnt_ctx mnt) f) (λ '(a, w'), reader_good w' ∧ Q a).
Proof.
  intros [Hw (c & Hc & Hs)] Hf. unfold on_context. rewrite Hc. eapply yields_bind; [by apply Hf|].
  intros [[a c'] cache'] (Hok & Hs' & HQ). apply yields_ret. split; [|done]. split; [done|]. exists c'. simpl. rewrite lookup_insert_eq.
  split; [apply Hget|]. eapply (rl_trans (ReaderLaws := HRL)); [exact Hs|done].
Qed.
Lemma own_reader t p c : mount_backend_for_type be mnt t = Some (p, c) → p = q ∧ c = mnt_ctx mnt ∧ be p = reader_ops put get calloc rd type fl free_context.
Proof.
  intros H. assert (p = mnt_ops mnt ∧ c = mnt_ctx mnt) as [-> ->].
  { destruct Hmaps as (_ & _ & Hm). revert H. unfold mount_backend_for_type. repeat case_test; try done; intros [= <- <-]; [|done].
    b2p. by destruct (Hm (backend_code t)) as [?|[= -> ->]]. }
  split_and!; [done..|]. unfold with_reader. by rewrite Hq, Z.eqb_refl.
Qed.

(** What a run of the callback over the rest of a directory comes to. *)
Definition ran_from {T} (cb : odfs_dir_iter_fn T) dir t (r0 : option Z) (i : nat) (r : odfs_err * option Z * T) : Prop :=
  ∃ L c1, r = ((run cb (drop i L) t).1, (λ _, c1) <$> r0, (run cb (drop i L) t).2) ∧
    map face L = listing (lba (extent dir)) (length_ (extent dir)) (backend dir) ∧ Forall node_wf L ∧
    stands (node_key dir) c1 (i + Z.to_nat (delivered cb (drop i L) t))%nat.
Lemma op_readdir_ran {T} (cb : odfs_dir_iter_fn T) w dir t r0 i readdir :
  be_readdir (reader_ops put get calloc rd type fl free_context) = Some readdir → reader_good w → listable dir → stands (node_key dir) (default 0 r0) i →
  yields (readdir T w (mnt_ctx mnt) dir cb t r0) (λ '(e, r, w', t'), reader_good w' ∧ ran_from cb dir t r0 i (e, r, t')).
Proof.
  intros [= <-] Hw Hd Hb. eapply yields_bind; [apply (on_context_good w _ (ran_from cb dir t r0 i) Hw)|].
  - intros c cache Hs Hok. destruct (rl_readdir (ReaderLists := HRS) T cb c cache dir t r0 i Hok Hs Hd Hb) as (L & c1 & c' & cache' & -> & Hok' & Hs' & HL & Hwf & Hb').
    cbn [mbind outcome_bind]. apply yields_ret. split_and!; try done. by exists L, c1.
  - intros [[[e r] t'] w'] Hr. by apply yields_ret.
Qed.
Lemma reader_serves : Serves be reader_good listable listing mnt.
Proof.
  split.
  - intros t p c (-> & -> & ->)%own_reader. eexists. split; [done|]. intros T w dir cb t' Hw Hd.
    destruct (op_readdir_ran cb w dir t' None 0 _ eq_refl Hw Hd) as ([[[e r] w'] t''] & Hr & Hw' & L & c1 & [= -> -> ->] & HL & Hwf & _);
      [apply (rl_stands (ReaderLists := HRS))|]. rewrite drop_0 in Hr. eexists L, _, w'. split; [exact Hr|]. done.
  - intros t p c lookup w dir nm (-> & -> & Hbe)%own_reader Hl Hw Hd Hnm. rewrite Hbe in Hl. injection Hl as <-.
    eapply yields_weaken; [apply (on_context_good w _ (λ '(err, out),
      face <$> out = listed (listing (lba (extent dir)) (length_ (extent dir)) (backend dir)) nm ∧
      err = match out with Some _ => ODFS_OK | None => ODFS_ERR_NOT_FOUND end) Hw)|by intros [[err out] w']].
    intros c cache Hs Hok. destruct (rl_lookup (ReaderLists := HRS) c cache dir nm Hok Hs Hd Hnm) as (err & out & c' & cache' & -> & Hok' & Hs' & H).
    cbn [mbind outcome_bind]. by apply yields_ret.
Qed.
Lemma reader_lists_from t p c : mount_backend_for_type be mnt t = Some (p, c) → ListsFrom (be p) c reader_good listable listing stands.
Proof.
  intros (-> & -> & ->)%own_reader. split.
  - eexists. split; [done|]. intros T w dir cb t' c i Hw Hd Hb.
    destruct (op_readdir_ran cb w dir t' (Some c) i _ eq_refl Hw Hd Hb) as ([[[e r] w'] t''] & Hr & Hw' & L & c1 & [= -> -> ->] & HL & Hwf & Hb').
    exists L, c1, w'. cbv zeta. split; [exact Hr|]. done.
  - apply (rl_stands (ReaderLists := HRS)).
  - intros k c i Hb. by apply (rl_cookie (ReaderLists := HRS) k).
Qed.
(** A read of the volume is the reader's. *)
Lemma reader_read w file offset buf len err buf' n w' : reader_good w →
  odfs_read be mnt w file offset buf len = Ret (err, buf', n, w') →
  err ≠ ODFS_OK ∧ n = len ∧ buf' = buf ∧ w' = w ∨
  ∃ c cache', same ctx0 c ∧ r_read rd c (w_cache w) file offset buf len = Ret (err, buf', n, cache').
Proof.
  intros [Hw (c & Hc & Hs)]. unfold odfs_read, backend_with. case_test; [intros [= <- <- <- <-]; by left|].
  destruct (mount_backend_for_type be mnt (backend file)) as [[p ct]|] eqn:Hb; [|intros [= <- <- <- <-]; by left].
  apply own_reader in Hb as (-> & -> & ->). cbn [be_read reader_ops]. unfold on_context. rewrite Hc. cbn [mbind outcome_bind].
  destruct (r_read rd c (w_cache w) file offset buf len) as [[[[e b] k] cache]| |] eqn:Hr; [|done..]. intros [= <- <- <- <-]. right. by exists c, cache.
Qed.
End volume.

(** ** Mounted volumes *)
Section mounts.
Context {M K Ctx : Type} (mops : odfs_media_ops M) (img : Z → list Z) (put : Ctx → K) (get : K → option Ctx) (calloc : gmap Z K → Z).
Context (rd : reader (odfs_cache M) Ctx) (mounted : odfs_node → Ctx → Prop) (same : Ctx → Ctx → Prop).
Context (q : Z) (type : odfs_backend_type) (fl : Z) (others : Z → odfs_backend_ops (world M (gmap Z K))).
Abbreviation be := (with_reader put get calloc rd q type fl others).

(** The volume [mnt] is mounted by the reader from the medium [m], with context [ctx];
    the other backends leave the cache showing the disc. *)
Record mount_of (m : M) (mnt : odfs_mount_t) (w : world M (gmap Z K)) (ctx : Ctx) : Prop := {
  mo_others : Keeps others (shows img) (λ _ _ _, shows img);
  mo_mounted : ∃ malloc fuel ts ss h o, 0 ≤ cache_blocks (default odfs_mount_opts_default o) ∧
    odfs_mount mops be malloc fuel ts ss m h o = Ret (ODFS_OK, mnt, w);
  mo_backend : mnt_ops mnt = q;
  mo_context : w_heap w !! mnt_ctx mnt ≫= get = Some ctx }.
(** The directories [dirs] are listable, and so are those below them. *)
Record tree_of (listable : odfs_node → Prop) (listing : Z → Z → odfs_backend_type → list odfs_node)
    (root : odfs_node) (dirs : odfs_node → Prop) : Prop := {
  to_listable : ∀ n, dirs n → listable n;
  to_root : dirs root;
  to_entry : ∀ n m, dirs n → m ∈ listing (lba (extent n)) (length_ (extent n)) (backend n) → kind m = ODFS_NODE_DIR → dirs m;
  to_face : ∀ n, dirs (face n) → dirs n }.
End mounts.

(** *** Paths on a mounted volume *)
Section resolve.
Context {M K Ctx : Type} (mops : odfs_media_ops M) (img : Z → list Z) (put : Ctx → K) (get : K → option Ctx) (calloc : gmap Z K → Z).
Context (rd : reader (odfs_cache M) Ctx) (mounted : odfs_node → Ctx → Prop) (same : Ctx → Ctx → Prop).
Context {HRL : ReaderLaws rd (cache_ok img 2048) mounted same} (Hget : ∀ c, get (put c) = Some c).
Context (q : Z) (type : odfs_backend_type) (fl : Z) (others : Z → odfs_backend_ops (world M (gmap Z K))).
Abbreviation be := (with_reader put get calloc rd q type fl others).
Context (Hmedia : MediaReads mops img 2048) (m : M) (mnt : odfs_mount_t) (w : world M (gmap Z K)) (ctx : Ctx).
Context (Hm : mount_of mops img put get calloc rd q type fl others m mnt w ctx).

Lemma mount_of_facts : own_maps mnt ∧ own_roots mnt ∧ (∃ n, meta mnt = odfs_meta_cache_init (u32 n)) ∧ shows img w ∧ mounted (mnt_root mnt) ctx.
Proof.
  destruct Hm as [Ho (malloc & fuel & ts & ss & h & o & Hcap & Hmo) Hb Hc].
  pose proof (reader_keeps img put get calloc rd mounted same Hget q type fl others Ho) as HK.
  apply (mount_establishes mops be _ _) in Hmo as (H1 & H2 & H3 & Hcd & Hctx).
  - destruct (Hctx Hb) as (c & Hl & Hr). rewrite Hc in Hl. injection Hl as <-. by split_and!.
  - done.
  - intros n c Hn Hi. by apply (odfs_cache_init_correct mops img 2048 malloc m n c Hmedia Hn eq_refl Hi).
Qed.

Context (listable : odfs_node → Prop) (listing : Z → Z → odfs_backend_type → list odfs_node).
Context (stands : Z * Z * odfs_backend_type → Z → nat → Prop).
Context {HRS : ReaderLists rd (cache_ok img 2048) same ctx listable listing stands}.
Context (dirs : odfs_node → Prop) (Ht : tree_of listable listing (mnt_root mnt) dirs).

Lemma reader_resolves meta_malloc path : is_name path →
  ∃ err out mnt' w', odfs_resolve_path be meta_malloc mnt w path = Ret (err, out, mnt', w') ∧ same_volume mnt mnt' ∧
    reader_good img get same ctx mnt w' ∧ (err, face <$> out) = walk be listing mnt (mnt_root mnt) (components path []).
Proof.
  intros Hp. destruct mount_of_facts as (Hmaps & Hroots & [n Hmeta] & Hcd & _). destruct Ht as [H1 H2 H3 H4].
  assert (Hsv : Serves be (reader_good img get same ctx mnt) dirs listing mnt).
  { destruct (reader_serves img put get calloc rd mounted same Hget q type fl others ctx mnt Hmaps (mo_backend _ _ _ _ _ _ _ _ _ _ _ _ _ _ Hm) listable listing stands) as [S1 S2].
    split.
    - intros t p c Hb. destruct (S1 t p c Hb) as (readdir & Hr & Hlist). exists readdir. split; [done|]. intros T w1 dir cb t' Hw Hd. apply Hlist; auto.
    - intros t p c lookup w1 dir nm Hb Hl Hw Hd Hnm. eapply S2; eauto. }
  assert (Hls : Listable dirs listing mnt).
  { destruct Hroots as (_ & _ & Hr). split; [done| |done|done]. intros i r Hh Hv _. by rewrite (Hr i r Hh Hv). }
  destruct (resolve_path_ok be meta_malloc (reader_good img get same ctx mnt) dirs listing mnt w path Hsv) as (err & out & mnt' & w' & He & Hs & _ & Hg & Hwk).
  - rewrite Hmeta. apply init_ok, u32_range.
  - split; [done|]. exists ctx. split; [by eapply mo_context|apply (rl_refl (ReaderLaws := HRL))].
  - done.
  - destruct Hroots as (-> & -> & _). done.
  - done.
  - by exists err, out, mnt', w'.
Qed.
(** Reading a file that a path was resolved to is the reader's [read], with a context of
    the volume. *)
Lemma reader_reads meta_malloc path file mnt' w' offset buf len err buf' n w2 : is_name path →
  odfs_resolve_path be meta_malloc mnt w path = Ret (ODFS_OK, Some file, mnt', w') →
  odfs_read be mnt' w' file offset buf len = Ret (err, buf', n, w2) →
  walk be listing mnt (mnt_root mnt) (components path []) = (ODFS_OK, Some (face file)) ∧ shows img w' ∧
  (err ≠ ODFS_OK ∧ n = len ∨ ∃ c cache', same ctx c ∧ r_read rd c (w_cache w') file offset buf len = Ret (err, buf', n, cache')).
Proof.
  intros Hp Hres Hr. destruct (reader_resolves meta_malloc path Hp) as (err0 & out & mnt0 & w0 & He & [mc Hmc] & Hg & Hwk).
  rewrite Hres in He. injection He as <- <- <- <-. split; [by rewrite <- Hwk|]. split; [apply Hg|].
  destruct mount_of_facts as (Hmaps & _). subst mnt'.
  destruct (reader_read img put get calloc rd same q type fl others ctx (set_meta mc mnt) Hmaps
    (mo_backend _ _ _ _ _ _ _ _ _ _ _ _ _ _ Hm) w' file offset buf len err buf' n w2 Hg Hr) as [(Hne & -> & _)|Hrd]; [by left|by right].
Qed.
End resolve.
