(* ===== verification/Catalog.v ===== *)
(** * Catalogs

    HFS and HFS+ keep all directories in one B-tree sorted by the number of the
    directory a record belongs to.  Here a node is what it decodes to, and the walk over
    the records of a directory is the one both readers make: down the index nodes to
    the leaf where the records may begin, then along the leaves.  On a well-formed
    catalog it comes to running the callback over the directory's records in order. *)
From stdpp Require Import sorting.
From S2P Require Import Prelude Types.
Open Scope Z_scope.

Record cat_rec : Type := mk_cat_rec { cr_parent : Z; cr_key : list Z; cr_data : list Z }.
(** A leaf has the number of the next one, an index node pairs a key with a child. *)
Inductive cat_node : Type :=
  | CatLeaf (next : Z) (recs : list cat_rec)
  | CatIndex (entries : list (Z * Z)).
Definition of_dir (cnid : Z) (recs : list cat_rec) : list cat_rec := filter (λ r, cr_parent r = cnid) recs.

Section catalog.
Context (decode : Z → outcome cat_node) (cnid : Z).

(** ** Going down *)

Fixpoint cat_pick (entries : list (Z * Z)) (child : Z) : Z :=
  match entries with
  | [] => child
  | (key, ptr) :: entries =>
      let child := if (key <? cnid) || (child =? 0) then ptr else child in
      if cnid <=? key then child else cat_pick entries child
  end.
Fixpoint cat_descend (depth : nat) (cur : Z) : outcome (odfs_err + Z) :=
  match depth with
  | O => Ret (inr cur)
  | S depth =>
      node ← decode cur;
      match node with
      | CatLeaf _ _ => Ret (inr cur)
      | CatIndex entries =>
          if cat_pick entries 0 =? 0 then Ret (inl ODFS_ERR_NOT_FOUND) else cat_descend depth (cat_pick entries 0)
      end
  end.

(** ** Along the leaves *)

Section walk.
Context {S : Type} (callback : list Z → list Z → Z → S → outcome (odfs_err * S)).

Fixpoint run_records (recs : list cat_rec) (s : S) : outcome (odfs_err * S) :=
  match recs with
  | [] => Ret (ODFS_OK, s)
  | r :: recs =>
      '(err, s) ← callback (cr_key r) (cr_data r) (zlen (cr_data r)) s;
      if err_ok err then run_records recs s else Ret (err, s)
  end.
(** [inl] ends the walk, [inr] says whether a record of the directory was there. *)
Fixpoint cat_leaf (recs : list cat_rec) (found : bool) (s : S) : outcome ((odfs_err + bool) * S) :=
  match recs with
  | [] => Ret (inr found, s)
  | r :: recs =>
      if cr_parent r <? cnid then cat_leaf recs found s
      else if cnid <? cr_parent r then Ret (inl ODFS_OK, s)
      else
        '(err, s) ← callback (cr_key r) (cr_data r) (zlen (cr_data r)) s;
        if err_ok err then cat_leaf recs true s else Ret (inl err, s)
  end.
(** The next leaf is only gone to, once a record was there, if it begins with one. *)
Definition cat_peek (found : bool) (cur : Z) : outcome bool :=
  if found && negb (cur =? 0) then
    node ← decode cur;
    match node with
    | CatLeaf _ (r :: _) => Ret (cr_parent r =? cnid)
    | CatLeaf _ [] => Fault
    | CatIndex _ => Ret false
    end
  else Ret true.
Fixpoint cat_scan (fuel : nat) (cur : Z) (found : bool) (s : S) : outcome (odfs_err * S) :=
  if cur =? 0 then Ret (ODFS_OK, s)
  else
    match fuel with
    | O => Diverge
    | Datatypes.S fuel =>
        node ← decode cur;
        match node with
        | CatIndex _ => Ret (ODFS_OK, s)
        | CatLeaf next recs =>
            '(r, s) ← cat_leaf recs found s;
            match r with
            | inl err => Ret (err, s)
            | inr found => go_on ← cat_peek found next; if (go_on : bool) then cat_scan fuel next found s else Ret (ODFS_OK, s)
            end
        end
    end.
Definition cat_walk (fuel : nat) (root : Z) (s : S) : outcome (odfs_err * S) :=
  r ← cat_descend 20 root;
  match r with inl err => Ret (err, s) | inr leaf => cat_scan fuel leaf false s end.
End walk.
End catalog.

(** ** Well-formed catalogs *)

Section wf.
Context (decode : Z → outcome cat_node).
Abbreviation leaf := (Z * list cat_rec)%type.

Definition recs_of (seg : list leaf) : list cat_rec := concat (map snd seg).
(** The leaves below a node; a key is not before the records to its left. *)
Fixpoint cat_tree (d : nat) (n : Z) (seg : list leaf) : Prop :=
  match d with
  | O => ∃ next recs, decode n = Ret (CatLeaf next recs) ∧ seg = [(n, recs)]
  | S d => ∃ entries segs, decode n = Ret (CatIndex entries) ∧ entries ≠ [] ∧ seg = concat segs ∧
      Forall2 (λ e sg, e.2 ≠ 0 ∧ cat_tree d e.2 sg) entries segs ∧
      ∀ j k e sg, entries !! j = Some e → segs !! k = Some sg → (k < j)%nat → Forall (λ r, cr_parent r ≤ e.1) (recs_of sg)
  end.
(** Every leaf has records and the number of the next, the last has 0. *)
Fixpoint cat_linked (cur : Z) (seg : list leaf) : Prop :=
  match seg with
  | [] => cur = 0
  | (n, recs) :: seg => cur = n ∧ n ≠ 0 ∧ recs ≠ [] ∧ ∃ next, decode n = Ret (CatLeaf next recs) ∧ cat_linked next seg
  end.
Record catalog (root : Z) (leaves : list leaf) : Prop := {
  cat_depth : ∃ d, (d ≤ 20)%nat ∧ cat_tree d root leaves;
  cat_links : ∃ first, cat_linked first leaves;
  cat_sorted : StronglySorted Z.le (map cr_parent (recs_of leaves)) }.

Lemma Forall_recs (P : cat_rec → Prop) seg : Forall P (recs_of seg) ↔ ∀ lf, lf ∈ seg → Forall P lf.2.
Proof.
  induction seg as [|lf seg IH]; unfold recs_of in *; cbn [map concat]; [split; [by intros _ ? ?%not_elem_of_nil|done]|].
  rewrite Forall_app, IH. split; [|intros H; split; [apply H; left|intros lf' ?; apply H; by right]].
  intros [? ?] lf' [->|?]%elem_of_cons; auto.
Qed.
Lemma linked_drop cur a b : cat_linked cur (a ++ b) → ∃ cur', cat_linked cur' b.
Proof.
  revert cur. induction a as [|[n recs] a IH]; intros cur; [by exists cur|]. intros (_ & _ & _ & next & _ & H). by eapply IH.
Qed.

Section dir.
Context (cnid : Z).

(** The child picked is the first one, or its key is before the directory. *)
Lemma pick_later entries : ∀ child, child ≠ 0 → Forall (λ e, e.2 ≠ 0) entries →
  cat_pick cnid entries child = child ∨ ∃ j e, entries !! j = Some e ∧ cat_pick cnid entries child = e.2 ∧ e.1 < cnid.
Proof.
  induction entries as [|[key ptr] entries IH]; intros child Hc Hnz; [by left|]. cbn [cat_pick]. apply Forall_cons in Hnz as [Hp Hnz].
  rewrite (proj2 (Z.eqb_neq child 0)), orb_false_r by done. destruct (key <? cnid) eqn:E1, (cnid <=? key) eqn:E2; b2p; [lia| |by left|lia].
  destruct (IH ptr Hp Hnz) as [->|(j & e & Hj & He & Hk)]; right; [by exists 0%nat, (key, ptr)|by exists (S j), e].
Qed.
Lemma pick_spec entries : entries ≠ [] → Forall (λ e, e.2 ≠ 0) entries →
  ∃ j e, entries !! j = Some e ∧ cat_pick cnid entries 0 = e.2 ∧ (j = 0%nat ∨ e.1 < cnid).
Proof.
  destruct entries as [|[key ptr] entries]; [done|]. intros _ [Hp Hnz]%Forall_cons. cbn [cat_pick]. rewrite orb_true_r.
  destruct (cnid <=? key); [exists 0%nat, (key, ptr); split_and!; [done|done|by left]|].
  destruct (pick_later entries ptr Hp Hnz) as [->|(j & e & Hj & He & Hk)]; [exists 0%nat, (key, ptr)|exists (S j), e]; split_and!; try done; [by left|by right].
Qed.

(** All records left of the leaf are before the directory's. *)
Definition starts_at (seg : list leaf) (n : Z) : Prop :=
  ∃ a recs b, seg = a ++ (n, recs) :: b ∧ Forall (λ r, cr_parent r < cnid) (recs_of a).
Lemma descend_spec d : ∀ depth n seg, (d ≤ depth)%nat → cat_tree d n seg →
  ∃ leaf, cat_descend decode cnid depth n = Ret (inr leaf) ∧ starts_at seg leaf.
Proof.
  induction d as [|d IH]; intros depth n seg Hd Ht; cbn [cat_tree] in Ht.
  - destruct Ht as (next & recs & Hn & ->). exists n. split.
    + destruct depth; [done|]. cbn [cat_descend]. by rewrite Hn.
    + exists [], recs, []. split; [done|constructor].
  - destruct Ht as (entries & segs & Hn & Hne & -> & Hsub & Hsep). destruct depth as [|depth]; [lia|]. cbn [cat_descend]. rewrite Hn. cbn [mbind outcome_bind].
    assert (Hnz : Forall (λ e, e.2 ≠ 0) entries) by (eapply Forall2_Forall_l; [exact Hsub|]; apply Forall_forall; by intros sg _ e [? _]).
    destruct (pick_spec entries Hne Hnz) as (j & e & Hj & -> & Hle).
    destruct (Forall2_lookup_l _ _ _ _ _ Hsub Hj) as (sg & Hsg & He & Hch). rewrite (proj2 (Z.eqb_neq _ _)) by done.
    destruct (IH depth e.2 sg ltac:(lia) Hch) as (leaf & Hdesc & a & recs & b & -> & Ha). exists leaf. split; [done|].
    pose proof (take_drop_middle _ _ _ Hsg) as Hmid. exists (concat (take j segs) ++ a), recs, (b ++ concat (drop (S j) segs)). split.
    + rewrite <- Hmid at 1. rewrite concat_app. cbn [concat]. by rewrite <- !app_assoc.
    + unfold recs_of. rewrite map_app, concat_app. apply Forall_app. split; [|done].
      apply Forall_recs. intros lf (sg' & (k & Hk)%list_elem_of_In%list_elem_of_lookup & Hlf%list_elem_of_In)%list_elem_of_In%in_concat.
      apply lookup_take_Some in Hk as [Hk Hkj]. destruct Hle as [->|Hle]; [lia|].
      eapply Forall_impl; [exact (proj1 (Forall_recs _ _) (Hsep j k e sg' Hj Hk Hkj) lf Hlf)|]. intros r Hr. simpl in Hr. lia.
Qed.

(** ** The walk is the directory's records *)

Lemma of_dir_app a b : of_dir cnid (a ++ b) = of_dir cnid a ++ of_dir cnid b.
Proof. apply filter_app. Qed.
Lemma of_dir_none recs : Forall (λ r, cr_parent r ≠ cnid) recs → of_dir cnid recs = [].
Proof. intros H. unfold of_dir. induction H; [done|]. by rewrite filter_cons_False. Qed.

Section walk.
Context {S : Type} (callback : list Z → list Z → Z → S → outcome (odfs_err * S)).

Lemma leaf_spec (K : bool → S → outcome (odfs_err * S)) rest recs : ∀ found s,
  StronglySorted Z.le (map cr_parent (recs ++ rest)) →
  (found = true → Forall (λ r, cnid ≤ cr_parent r) rest) →
  (∀ found' s', (found' = true → Forall (λ r, cnid ≤ cr_parent r) rest) → K found' s' = run_records callback (of_dir cnid rest) s') →
  ('(r, s) ← cat_leaf cnid callback recs found s; match r with inl err => Ret (err, s) | inr found => K found s end)
    = run_records callback (of_dir cnid (recs ++ rest)) s.
Proof.
  induction recs as [|r recs IH]; intros found s Hs Hf HK; cbn [cat_leaf app]; [by apply HK|].
  cbn [map app] in Hs. apply StronglySorted_inv in Hs as [Hs Hr]. apply (proj1 (Forall_map _ _ _)) in Hr. case_test; b2p.
  - rewrite IH by done. unfold of_dir. rewrite (filter_cons_False _ r) by lia. done.
  - case_test; b2p.
    + rewrite of_dir_none; [done|]. constructor; [lia|]. eapply Forall_impl; [exact Hr|]. intros r' ?. simpl in *. lia.
    + unfold of_dir. rewrite filter_cons_True by lia. cbn [run_records]. destruct (callback _ _ _ s) as [[err s']| |]; [|done..].
      cbn [mbind outcome_bind]. destruct (err_ok err); [|done]. apply IH; [done| |done]. intros _.
      apply Forall_app in Hr as [_ Hr]. eapply Forall_impl; [exact Hr|]. intros r' ?. simpl in *. lia.
Qed.

(** A walk along linked leaves takes no more rounds than there are leaves. *)
Lemma scan_spec seg : ∀ fuel cur found s, cat_linked cur seg → (length seg ≤ fuel)%nat →
  StronglySorted Z.le (map cr_parent (recs_of seg)) → (found = true → Forall (λ r, cnid ≤ cr_parent r) (recs_of seg)) →
  cat_scan decode cnid callback fuel cur found s = run_records callback (of_dir cnid (recs_of seg)) s.
Proof.
  induction seg as [|[n recs] seg IH]; intros fuel cur found s Hl Hf Hs Hc; cbn [cat_linked] in Hl.
  - subst cur. by destruct fuel.
  - destruct Hl as (-> & Hn & Hne & next & Hd & Hl). destruct fuel as [|fuel]; [simpl in Hf; lia|]. cbn [cat_scan].
    rewrite (proj2 (Z.eqb_neq _ _)), Hd by done. cbn [mbind outcome_bind].
    apply (leaf_spec (λ found s, go_on ← cat_peek decode cnid found next; if (go_on : bool) then cat_scan decode cnid callback fuel next found s else Ret (ODFS_OK, s))
      (recs_of seg)); [done|intros Hfd; specialize (Hc Hfd); by apply Forall_app in Hc as [_ ?]|].
    intros found' s' Hf'. assert (Hss : StronglySorted Z.le (map cr_parent (recs_of seg))).
    { unfold recs_of in Hs. cbn [map concat] in Hs. rewrite map_app in Hs. by apply StronglySorted_app_1_r in Hs. }
    assert (Hgo : cat_scan decode cnid callback fuel next found' s' = run_records callback (of_dir cnid (recs_of seg)) s') by (apply IH; [done|simpl in Hf; lia|done..]).
    unfold cat_peek. destruct found'; [|by rewrite andb_false_l]. rewrite andb_true_l. case_test; [|done]. b2p.
    destruct seg as [|[m recs'] seg]; [done|]. destruct Hl as (-> & _ & Hne' & next' & Hd' & _). rewrite Hd'. cbn [mbind outcome_bind].
    destruct recs' as [|r recs']; [done|]. cbn [mbind outcome_bind]. case_test; [done|]. b2p. rewrite of_dir_none; [done|].
    specialize (Hf' eq_refl). cbn [recs_of map concat app] in Hf', Hss. apply Forall_cons in Hf' as [Hr _].
    apply StronglySorted_inv in Hss as [_ Hrs]. apply (proj1 (Forall_map _ _ _)) in Hrs. constructor; [done|].
    eapply Forall_impl; [exact Hrs|]. intros r' ?. simpl in *. lia.
Qed.

(** The whole walk of a catalog runs the callback over the directory's records. *)
Lemma walk_spec fuel root leaves s : catalog root leaves → (length leaves ≤ fuel)%nat →
  cat_walk decode cnid callback fuel root s = run_records callback (of_dir cnid (recs_of leaves)) s.
Proof.
  intros [(d & Hd & Ht) (first & Hl) Hs] Hf. unfold cat_walk.
  destruct (descend_spec d 20 root leaves Hd Ht) as (leaf & -> & a & recs & b & -> & Ha). cbn [mbind outcome_bind].
  destruct (linked_drop first a ((leaf, recs) :: b) Hl) as [cur Hcur]. assert (cur = leaf) as -> by (by destruct Hcur).
  unfold recs_of in *. rewrite map_app, concat_app in Hs |- *. rewrite map_app in Hs.
  rewrite length_app in Hf. rewrite (scan_spec ((leaf, recs) :: b)); [|done|lia|by apply StronglySorted_app_1_r in Hs|done].
  rewrite of_dir_app. rewrite (of_dir_none (concat (map snd a))); [done|]. eapply Forall_impl; [exact Ha|]. intros r ?. simpl in *. lia.
Qed.
End walk.
End dir.
End wf.

(** ** Walks that do not end *)

Lemma leaf_before {S} (callback : list Z → list Z → Z → S → outcome (odfs_err * S)) cnid recs found s :
  Forall (λ r, cr_parent r < cnid) recs → cat_leaf cnid callback recs found s = Ret (inr found, s).
Proof. induction 1 as [|r recs Hr _ IH]; [done|]. cbn [cat_leaf]. by rewrite (proj2 (Z.ltb_lt _ _)). Qed.
Lemma cycle_scan {S} (callback : list Z → list Z → Z → S → outcome (odfs_err * S)) decode cnid n recs fuel s :
  n ≠ 0 → decode n = Ret (CatLeaf n recs) → Forall (λ r, cr_parent r < cnid) recs → cat_scan decode cnid callback fuel n false s = Diverge.
Proof.
  intros Hn Hd Hr. induction fuel as [|fuel IH]; cbn [cat_scan]; rewrite (proj2 (Z.eqb_neq _ _)) by done; [done|].
  rewrite Hd. cbn [mbind outcome_bind]. rewrite leaf_before by done. exact IH.
Qed.
