(* ===== verification/Discs.v ===== *)
(** * Small discs

    Writing catalog volumes byte by byte, and what the examples on them share: an image
    as a disc, backends that take no disc, a heap with room for one context, trees whose
    folders are known. *)
From Stdlib Require Import Sorted.
From stdpp Require Import gmap sorting.
From S2P Require Import Prelude Types Strings Media BlockCache BlockCacheProofs BlockCacheRead BlockCacheSpec CacheApi Backend MetaCache MetaCacheProofs MetaCacheSpec.
From S2P Require Import Session Mount MountProofs MountSpec AncestrySpec IsoVolume Reader Catalog.
Open Scope Z_scope.

(** ** Bytes *)

Definition be16_bytes (x : Z) : list Z := [x / 256; x mod 256].
Definition be32_bytes (x : Z) : list Z := be16_bytes (x / 65536) ++ be16_bytes (x mod 65536).
Definition pad_to (n : nat) (l : list Z) : list Z := l ++ replicate (n - length l) 0.
(** Fields at their offsets in a block of zeros. *)
Definition fields (n : nat) (fs : list (Z * list Z)) : list Z := fold_left (λ l f, splice l f.1 f.2) fs (replicate n 0).
Fixpoint offsets (pos : Z) (recs : list (list Z)) : list Z :=
  match recs with [] => [pos] | r :: recs => pos :: offsets (pos + zlen r) recs end.
(** A B-tree node: the descriptor, the records, and their offsets from the end. *)
Definition make_node (node_size : nat) (type next : Z) (recs : list (list Z)) : list Z :=
  let body := be32_bytes next ++ be32_bytes 0 ++ [type; 1] ++ be16_bytes (zlen recs) ++ [0; 0] ++ concat recs in
  let table := concat (map be16_bytes (rev (offsets 14 recs))) in
  pad_to (node_size - length table) body ++ table.

(** ** Images *)

(** The sectors of an image, zeros behind it. *)
Definition sectors_of (image : list Z) (l : Z) : list Z := pad_to 2048 (slice image (Z.max 0 l * 2048) 2048).
Lemma sectors_of_length image l : zlen (sectors_of image l) = 2048.
Proof.
  unfold sectors_of, pad_to. rewrite length_app, length_replicate.
  assert (length (slice image (Z.max 0 l * 2048) 2048) ≤ 2048)%nat; [|lia].
  unfold slice. rewrite length_take. lia.
Qed.
Lemma sectors_of_bytes image l : forallb (λ b, (0 <=? b) && (b <? 256)) image = true → Forall is_byte (sectors_of image l).
Proof.
  intros Hf. assert (Hall : Forall is_byte image).
  { apply Forall_forall. intros b Hb. rewrite forallb_forall in Hf. apply list_elem_of_In in Hb. specialize (Hf b Hb). unfold is_byte. b2p. lia. }
  unfold sectors_of, pad_to. apply Forall_app. split; [by apply Forall_take, Forall_drop|]. apply Forall_replicate. unfold is_byte. lia.
Qed.
Lemma image_readable img n l : 0 ≤ l < n → medium_readable (image_ops img n 2048) 2048 l.
Proof. intros Hl [] buf Hb. cbn [read_sectors image_ops]. rewrite Hb, (proj2 (Z.leb_le 0 l)), (proj2 (Z.leb_le (l + 1) n)) by lia. done. Qed.

(** ** Backends and contexts *)

(** Backends that take no disc. *)
Definition no_reader {Ctx} (p : Z) : odfs_backend_ops (world unit (gmap Z Ctx)) :=
  mk_backend (demo_type p) 0 (λ w _, Ret (ODFS_ERR_BAD_FORMAT, w)) (λ w _ root ctx, Ret (ODFS_ERR_BAD_FORMAT, root, ctx, w))
    (Some (λ w _, Ret w)) None None None None None None None.
Lemma no_reader_keeps {Ctx} (img : Z → list Z) : Keeps (no_reader (Ctx := Ctx)) (shows img) (λ _ _ _, shows img).
Proof.
  split.
  - intros p w s Hw. by apply after_ret.
  - intros p w s r c Hw. by apply after_ret.
  - intros p w c f [= <-] Hw. by apply after_ret.
  - done.
  - intros m w Hw. by apply (set_media_ok img 2048).
Qed.
(** Room for one context. *)
Definition single_context {Ctx} (h : gmap Z Ctx) : Z := match h !! 1 with None => 1 | Some _ => 0 end.
Definition enough_memory (_ : nat) (_ : Z) : bool := true.

(** ** Trees *)

(** Listings in which every directory has a number of [ds]. *)
Definition closed_listings (listing : Z → outcome (list odfs_node)) (ds : list Z) : bool :=
  forallb (λ d, match listing d with
    | Ret L => (zlen L <? 2 ^ 31) && forallb (λ n, negb (bool_decide (kind n = ODFS_NODE_DIR)) || bool_decide (lba (extent n) ∈ ds)) L
    | _ => false end) ds.
Lemma closed_tree listing ds root : lba (extent root) ∈ ds → closed_listings listing ds = true →
  tree_of (λ dir, ∃ L, listing (lba (extent dir)) = Ret L ∧ zlen L < 2 ^ 31)
    (λ d _ _, match listing d with Ret L => map face L | _ => [] end) root (λ n, lba (extent n) ∈ ds).
Proof.
  intros Hr Hc. assert (Hl : ∀ d, d ∈ ds → ∃ L, listing d = Ret L ∧ zlen L < 2 ^ 31 ∧
    ∀ n, n ∈ L → kind n = ODFS_NODE_DIR → lba (extent n) ∈ ds).
  { intros d Hd%list_elem_of_In. unfold closed_listings in Hc. rewrite forallb_forall in Hc. specialize (Hc d Hd).
    destruct (listing d) as [L| |]; [|done..]. exists L. apply andb_true_iff in Hc as [H1 H2]. b2p. split_and!; [done..|].
    intros n Hn%list_elem_of_In Hk. rewrite forallb_forall in H2. specialize (H2 n Hn). rewrite (bool_decide_true _ Hk) in H2. by apply bool_decide_eq_true_1 in H2. }
  split; [| |intros n m Hn Hm Hk|done]; [intros n Hn; destruct (Hl _ Hn) as (L & HL & Hlen & _); by exists L|done|].
  destruct (Hl _ Hn) as (L & HL & _ & Hd). rewrite HL in Hm. apply list_elem_of_fmap in Hm as (x & -> & Hx). by apply (Hd x Hx).
Qed.

(** ** Catalogs of an index node and two leaves *)
Lemma two_leaves decode r2 r3 : decode 1 = Ret (CatIndex [(1, 2); (2, 3)]) → decode 2 = Ret (CatLeaf 3 r2) → decode 3 = Ret (CatLeaf 0 r3) →
  forallb (λ r, cr_parent r <=? 2) r2 = true → r2 ≠ [] → r3 ≠ [] → StronglySorted Z.le (map cr_parent (recs_of [(2, r2); (3, r3)])) →
  catalog decode 1 [(2, r2); (3, r3)].
Proof.
  intros D1 D2 D3 P2 N2 N3 Hs. split; [| |exact Hs].
  - exists 1%nat. split; [lia|]. exists [(1, 2); (2, 3)], [[(2, r2)]; [(3, r3)]]. do 3 (split; [done|]). split.
    + constructor; [split; [done|by exists 3, r2]|]. constructor; [split; [done|by exists 0, r3]|constructor].
    + intros [|[|j]] [|[|k]] e sg He Hsg Hk; try lia; try done. injection He as <-. injection Hsg as <-. cbn [recs_of map concat app snd fst].
      rewrite app_nil_r. apply Forall_forall. intros r Hr%list_elem_of_In. rewrite forallb_forall in P2. apply Z.leb_le. by apply P2.
  - exists 2. split_and!; [done|done|done|]. exists 3. split; [done|]. split_and!; [done|done|done|]. by exists 0.
Qed.
