(* ===== verification/Hfs.v ===== *)
(** * The HFS backend ([backends/hfs/])

    Directories are runs of records of the catalog, a B-tree in a file of up to three
    extents, sorted by the directory's number.  A node of the tree is copied from the
    sectors into a buffer of its own; reading outside that buffer or a sector is
    [Fault].  The links between the leaves are followed until they end, so [fuel]
    bounds the number of leaves read.  Log calls are left out; [alloc] says whether a
    node buffer can be had. *)
From stdpp Require Import strings.
From S2P Require Import Prelude Types Strings Namefix CacheApi Charset Timestamp.
Open Scope Z_scope.

(* [src: backends/hfs/hfs.h:17-41 HFS_MDB_SIG] *)
Definition HFS_MDB_SIG : Z := 0x4244.
Definition HFS_MDB_LSMOD : Z := 6.
Definition HFS_MDB_NMALBLKS : Z := 18.
Definition HFS_MDB_ALBLKSIZ : Z := 20.
Definition HFS_MDB_ALBLST : Z := 28.
Definition HFS_MDB_VOLNAMELEN : Z := 36.
Definition HFS_MDB_VOLNAME : Z := 37.
Definition HFS_MDB_CTFLSIZE : Z := 146.
Definition HFS_MDB_CTEXTREC : Z := 150.
Definition HFS_APM_SIG : Z := 0x504D.
(* [src: backends/hfs/hfs.h:43-60 HFS_NODE_LEAF] *)
Definition HFS_NODE_INDEX : Z := 0x00.
Definition HFS_NODE_HEADER : Z := 0x01.
Definition HFS_NODE_LEAF : Z := 0xFF.
Definition HFS_CAT_DIR : Z := 1.
Definition HFS_CAT_FILE : Z := 2.
Definition HFS_CAT_DTHREAD : Z := 3.
Definition HFS_CNID_ROOT_DIR : Z := 2.
(** "Apple_HFS" *)
Definition APPLE_HFS : list Z := str "Apple_HFS".

(** At offset [pos] of a buffer. *)
(* [src: backends/hfs/hfs.h:64-67 hfs_be16] *)
Definition hfs_be16 (p : list Z) (pos : Z) : outcome Z :=
  b0 ← rd p pos; b1 ← rd p (pos + 1); Ret (Z.lor (Z.shiftl b0 8) b1).
(* [src: backends/hfs/hfs.h:69-73 hfs_be32] *)
Definition hfs_be32 (p : list Z) (pos : Z) : outcome Z :=
  b0 ← rd p pos; b1 ← rd p (pos + 1); b2 ← rd p (pos + 2); b3 ← rd p (pos + 3);
  Ret (Z.lor (Z.lor (Z.lor (Z.shiftl b0 24) (Z.shiftl b1 16)) (Z.shiftl b2 8)) b3).

(* [src: backends/hfs/hfs.h:77-80 hfs_extent_t] *)
Record hfs_extent : Type := mk_hfs_extent { start_ab : Z; num_ab : Z }.
(* [src: backends/hfs/hfs.h:84-104 hfs_context_t] *)
Record hfs_context : Type := mk_hfs {
  vol_start_512 : Z; num_alloc_blocks : Z; alloc_block_size : Z; alloc_block_start : Z; volume_name : list Z;
  cat_file_size : Z; cat_extents : list hfs_extent; cat_node_size : Z; cat_root_node : Z; cat_first_leaf : Z;
  next_node_id : Z; root : odfs_node }.
Definition set_next_node_id v ctx : hfs_context :=
  mk_hfs (vol_start_512 ctx) (num_alloc_blocks ctx) (alloc_block_size ctx) (alloc_block_start ctx) (volume_name ctx)
    (cat_file_size ctx) (cat_extents ctx) (cat_node_size ctx) (cat_root_node ctx) (cat_first_leaf ctx) v (root ctx).

(** ** Helpers *)

(** No product or sum here reaches [2 ^ 64]. *)
(* [src: backends/hfs/hfs.c:31-37 hfs_ab_to_byte] *)
Definition hfs_ab_to_byte (ctx : hfs_context) (ab : Z) : Z :=
  (ab * (alloc_block_size ctx / 512) + alloc_block_start ctx + vol_start_512 ctx) * 512.
(* [src: backends/hfs/hfs.c:82-88 hfs_rec_offset] *)
Definition hfs_rec_offset (node : list Z) (node_size rec_idx : Z) : outcome Z :=
  hfs_be16 node (u32 (node_size - 2 * (rec_idx + 1))).
(** [None] is the result 0. *)
(* [src: backends/hfs/hfs.c:90-107 hfs_read_record_count] *)
Definition hfs_read_record_count (node : list Z) (node_size : Z) : outcome (option Z) :=
  if node_size <? 12 then Ret None
  else
    let max_recs := u16 (node_size / 2 - 1) in
    nrecs ← hfs_be16 node 10;
    Ret (if max_recs <? nrecs then None else Some nrecs).
(** ':' becomes '.', '/' becomes '-', control characters become '?'. *)
Definition amiga_char (c : Z) : Z :=
  if c =? 58 then 46 else if c =? 47 then 45 else if (c <? 0x20) || (c =? 0x7F) then 63 else c.
(* [src: backends/hfs/hfs.c:110-127 hfs_name_to_utf8] *)
Definition hfs_name_to_utf8 (src : list Z) (dst_size : Z) : list Z :=
  map amiga_char (c_str (default [] (odfs_mac_roman_to_utf8 src dst_size).2)).

Section hfs.
Context {C : Type} `{CacheOps C} (malloc : nat → Z → bool) (alloc : bool).

(** The bytes of a node gathered so far are [buf]; every round adds a byte at least. *)
(* [src: backends/hfs/hfs.c:61-73 hfs_read_node] *)
Fixpoint read_node_loop (fuel : nat) (c : C) (lba lba_off remain : Z) (buf : list Z) : outcome (odfs_err * list Z * C) :=
  if remain <=? 0 then Ret (ODFS_OK, buf, c)
  else
    match fuel with
    | O => Diverge
    | S fuel =>
        let '(err, sector, c) := bc_read c lba in
        if negb (err_ok err) then Ret (err, buf, c)
        else
          let chunk := if remain <? 2048 - lba_off then remain else 2048 - lba_off in
          data ← rd_range (bc_data c sector) lba_off chunk;
          read_node_loop fuel c (u32 (lba + 1)) 0 (remain - chunk) (buf ++ data)
    end.
(* [src: backends/hfs/hfs.c:48-78 hfs_read_node] *)
Fixpoint read_node_extents (ctx : hfs_context) (c : C) (exts : list hfs_extent) (node_byte_offset extent_offset : Z)
    : outcome (odfs_err * list Z * C) :=
  match exts with
  | [] => Ret (ODFS_ERR_RANGE, [], c)
  | e :: exts =>
      let ext_bytes := num_ab e * alloc_block_size ctx in
      if node_byte_offset <? extent_offset + ext_bytes then
        let phys := hfs_ab_to_byte ctx (start_ab e) + (node_byte_offset - extent_offset) in
        read_node_loop (Z.to_nat (cat_node_size ctx)) c (u32 (phys / 2048)) (phys mod 2048) (cat_node_size ctx) []
      else read_node_extents ctx c exts node_byte_offset (extent_offset + ext_bytes)
  end.
(* [src: backends/hfs/hfs.c:40-79 hfs_read_node] *)
Definition hfs_read_node (ctx : hfs_context) (c : C) (node_num : Z) : outcome (odfs_err * list Z * C) :=
  read_node_extents ctx c (cat_extents ctx) (node_num * cat_node_size ctx) 0.

(** ** Probing and mounting *)

(* [src: backends/hfs/hfs.c:133-178 hfs_probe] *)
Definition hfs_probe (c : C) (session_start : Z) : outcome (odfs_err * C) :=
  let '(err, p, c) := bc_read c session_start in
  if negb (err_ok err) then Ret (err, c)
  else
    let sector := bc_data c p in
    sig ← hfs_be16 sector 1024;
    if sig =? HFS_MDB_SIG then Ret (ODFS_OK, c)
    else
      sig ← hfs_be16 sector 512;
      if sig =? HFS_APM_SIG then
        ptype ← rd_range sector (512 + 48) 9;
        if bool_decide (ptype = APPLE_HFS) then
          pstart ← hfs_be32 sector (512 + 8);
          let mdb_byte := (pstart + 2) * 512 in
          let '(err, p, c) := bc_read c (u32 (session_start + mdb_byte / 2048)) in
          if negb (err_ok err) then Ret (err, c)
          else
            sig ← hfs_be16 (bc_data c p) (mdb_byte mod 2048);
            Ret (if sig =? HFS_MDB_SIG then ODFS_OK else ODFS_ERR_BAD_FORMAT, c)
        else Ret (ODFS_ERR_BAD_FORMAT, c)
      else Ret (ODFS_ERR_BAD_FORMAT, c).
(** Where the master directory block is: the sector, the offset in it, and the start
    of the volume. *)
(* [src: backends/hfs/hfs.c:201-226 hfs_mount] *)
Definition hfs_find_mdb (c : C) (session_start : Z) : outcome (odfs_err * Z * Z * Z * C) :=
  let '(err, p, c) := bc_read c session_start in
  if negb (err_ok err) then Ret (err, 0, 0, 0, c)
  else
    let sector := bc_data c p in
    sig ← hfs_be16 sector 1024;
    if sig =? HFS_MDB_SIG then Ret (ODFS_OK, p, 1024, u32 (session_start * 4), c)
    else
      sig ← hfs_be16 sector 512;
      if sig =? HFS_APM_SIG then
        ptype ← rd_range sector (512 + 48) 9;
        if negb (bool_decide (ptype = APPLE_HFS)) then Ret (ODFS_ERR_BAD_FORMAT, 0, 0, 0, c)
        else
          pstart ← hfs_be32 sector (512 + 8);
          let vol_start := u32 (session_start * 4 + pstart) in
          let mdb_byte := (vol_start + 2) * 512 in
          let '(err, p, c) := bc_read c (u32 (mdb_byte / 2048)) in
          if negb (err_ok err) then Ret (err, 0, 0, 0, c)
          else
            sig ← hfs_be16 (bc_data c p) (mdb_byte mod 2048);
            if negb (sig =? HFS_MDB_SIG) then Ret (ODFS_ERR_BAD_FORMAT, 0, 0, 0, c)
            else Ret (ODFS_OK, p, mdb_byte mod 2048, vol_start, c)
      else Ret (ODFS_ERR_BAD_FORMAT, 0, 0, 0, c).
(** The three extents of the catalog. *)
(* [src: backends/hfs/hfs.c:241-244 hfs_mount] *)
Fixpoint parse_extents (mdb : list Z) (n : nat) (i : Z) : outcome (list hfs_extent) :=
  match n with
  | O => Ret []
  | S n =>
      start ← hfs_be16 mdb (HFS_MDB_CTEXTREC + i * 4);
      num ← hfs_be16 mdb (HFS_MDB_CTEXTREC + i * 4 + 2);
      rest ← parse_extents mdb n (i + 1);
      Ret (mk_hfs_extent start num :: rest)
  end.
(** The context as the block gives it; a catalog node counts as 512 bytes until its
    header has been read. *)
(* [src: backends/hfs/hfs.c:226-255 hfs_mount] *)
Definition hfs_parse_mdb (mdb : list Z) (vol_start : Z) : outcome hfs_context :=
  nblks ← hfs_be16 mdb HFS_MDB_NMALBLKS;
  blksiz ← hfs_be32 mdb HFS_MDB_ALBLKSIZ;
  blst ← hfs_be16 mdb HFS_MDB_ALBLST;
  volname_raw ← rd_range mdb HFS_MDB_VOLNAME 27;
  n ← rd mdb HFS_MDB_VOLNAMELEN;
  let vnamelen := if 27 <? n then 27 else n in
  size ← hfs_be32 mdb HFS_MDB_CTFLSIZE;
  exts ← parse_extents mdb 3 0;
  Ret (mk_hfs vol_start nblks blksiz blst (hfs_name_to_utf8 (take (Z.to_nat vnamelen) volname_raw) 28) size exts 512 0 0 1 node_zero).
Definition hfs_dir_node (cnid : Z) (nm : list Z) (t : odfs_timestamp) : odfs_node :=
  mk_node 0 0 ODFS_BACKEND_HFS ODFS_NODE_DIR nm 0 t t 0 amiga_as_zero (mk_extent cnid 0) 0.
(** The block is looked at again, where it was, after the catalog's header was read. *)
(* [src: backends/hfs/hfs.c:184-297 hfs_mount] *)
Definition hfs_mount (ctx_alloc : bool) (c : C) (session_start : Z) : outcome (odfs_err * option (odfs_node * hfs_context) * C) :=
  if negb ctx_alloc then Ret (ODFS_ERR_NOMEM, None, c)
  else
    '(err, p, off, vol_start, c) ← hfs_find_mdb c session_start;
    if negb (err_ok err) then Ret (err, None, c)
    else
      ctx ← hfs_parse_mdb (mem_at (bc_data c p) off) vol_start;
      '(err, hdr, c) ← hfs_read_node ctx c 0;
      if negb (err_ok err) then Ret (err, None, c)
      else
        type ← rd hdr 8;
        if negb (type =? HFS_NODE_HEADER) then Ret (ODFS_ERR_BAD_FORMAT, None, c)
        else
          root_node ← hfs_be32 hdr 16;
          first_leaf ← hfs_be32 hdr 24;
          node_size ← hfs_be16 hdr 32;
          if (node_size <? 14) || (32768 <? node_size) then Ret (ODFS_ERR_BAD_FORMAT, None, c)
          else
            lsmod ← hfs_be32 (mem_at (bc_data c p) off) HFS_MDB_LSMOD;
            let root_out := hfs_dir_node HFS_CNID_ROOT_DIR [47] (odfs_timestamp_from_mac_time lsmod) in
            Ret (ODFS_OK, Some (root_out, mk_hfs (vol_start_512 ctx) (num_alloc_blocks ctx) (alloc_block_size ctx)
                   (alloc_block_start ctx) (volume_name ctx) (cat_file_size ctx) (cat_extents ctx) node_size root_node
                   first_leaf (next_node_id ctx) root_out), c).

(** ** Walking the catalog *)

(** The child to go to: that of the last record before the directory's first, or of
    the first record; [r] counts the records. *)
(* [src: backends/hfs/hfs.c:357-374 hfs_walk_catalog] *)
Fixpoint index_child (node : list Z) (node_size parent_cnid : Z) (n : nat) (r child : Z) : outcome Z :=
  match n with
  | O => Ret child
  | S n =>
      off ← hfs_rec_offset node node_size r;
      if node_size <=? off + 6 then Ret child
      else
        klen ← rd node off;
        if node_size <=? off + klen + 1 + 4 then Ret child
        else
          key_parent ← hfs_be32 node (off + 2);
          ptr ← hfs_be32 node (off + 1 + klen);
          let child := if (key_parent <? parent_cnid) || (child =? 0) then ptr else child in
          if parent_cnid <=? key_parent then Ret child
          else index_child node node_size parent_cnid n (r + 1) child
  end.
(** The node to begin with, or an error. *)
(* [src: backends/hfs/hfs.c:335-378 hfs_walk_catalog] *)
Fixpoint hfs_descend (ctx : hfs_context) (c : C) (parent_cnid : Z) (depth : nat) (cur_node : Z) : outcome ((odfs_err + Z) * C) :=
  match depth with
  | O => Ret (inr cur_node, c)
  | S depth =>
      '(err, node, c) ← hfs_read_node ctx c cur_node;
      if negb (err_ok err) then Ret (inl err, c)
      else
        ntype ← rd node 8;
        if ntype =? HFS_NODE_LEAF then Ret (inr cur_node, c)
        else if negb (ntype =? HFS_NODE_INDEX) then Ret (inl ODFS_ERR_CORRUPT, c)
        else
          nrecs ← hfs_read_record_count node (cat_node_size ctx);
          match nrecs with
          | None => Ret (inl ODFS_ERR_CORRUPT, c)
          | Some nrecs =>
              child ← index_child node (cat_node_size ctx) parent_cnid (Z.to_nat nrecs) 0 0;
              if child =? 0 then Ret (inl ODFS_ERR_NOT_FOUND, c)
              else hfs_descend ctx c parent_cnid depth child
          end
  end.

Section walk.
(** A callback gets a record's key, the memory at its data and their length. *)
Context {S : Type} (callback : list Z → list Z → Z → S → outcome (odfs_err * S)).

(** The records of a leaf: [inl] ends the walk, [inr] says whether one of the
    directory was there. *)
(* [src: backends/hfs/hfs.c:393-427 hfs_walk_catalog] *)
Fixpoint leaf_loop (node : list Z) (node_size parent_cnid : Z) (n : nat) (r : Z) (found : bool) (s : S)
    : outcome ((odfs_err + bool) * S) :=
  match n with
  | O => Ret (inr found, s)
  | Datatypes.S n =>
      off ← hfs_rec_offset node node_size r;
      next_off ← hfs_rec_offset node node_size (r + 1);
      if node_size <=? off + 6 then leaf_loop node node_size parent_cnid n (r + 1) found s
      else
        klen ← rd node off;
        if (klen <? 5) || (node_size <=? off + 1 + klen) then leaf_loop node node_size parent_cnid n (r + 1) found s
        else
          key_parent ← hfs_be32 node (off + 2);
          if key_parent <? parent_cnid then leaf_loop node node_size parent_cnid n (r + 1) found s
          else if parent_cnid <? key_parent then Ret (inl ODFS_OK, s)
          else
            let data_off := off + 1 + klen in
            let data_off := if Z.land data_off 1 =? 0 then data_off else data_off + 1 in
            let data_len := if data_off <? next_off then next_off - data_off else 0 in
            if (data_off <? node_size) && (0 <? data_len) then
              key ← rd_range node off (klen + 1);
              '(err, s) ← callback key (mem_at node data_off) data_len s;
              if negb (err_ok err) then Ret (inl err, s)
              else leaf_loop node node_size parent_cnid n (r + 1) true s
            else leaf_loop node node_size parent_cnid n (r + 1) true s
  end.
(** Whether the next leaf is looked at: it is when nothing was found yet, or when its
    first record may be the directory's. *)
(* [src: backends/hfs/hfs.c:429-444 hfs_walk_catalog] *)
Definition hfs_peek (ctx : hfs_context) (c : C) (parent_cnid : Z) (found : bool) (cur_node : Z) : outcome (odfs_err * bool * C) :=
  if found && negb (cur_node =? 0) then
    '(err, node, c) ← hfs_read_node ctx c cur_node;
    if negb (err_ok err) then Ret (err, false, c)
    else
      ntype ← rd node 8;
      if negb (ntype =? HFS_NODE_LEAF) then Ret (ODFS_OK, false, c)
      else
        off ← hfs_rec_offset node (cat_node_size ctx) 0;
        if off + 6 <? cat_node_size ctx then
          next_parent ← hfs_be32 node (off + 2);
          Ret (ODFS_OK, next_parent =? parent_cnid, c)
        else Ret (ODFS_OK, true, c)
  else Ret (ODFS_OK, true, c).
(* [src: backends/hfs/hfs.c:380-448 hfs_walk_catalog] *)
Fixpoint scan_leaves (fuel : nat) (ctx : hfs_context) (c : C) (parent_cnid cur_node : Z) (found : bool) (s : S)
    : outcome (odfs_err * S * C) :=
  if cur_node =? 0 then Ret (ODFS_OK, s, c)
  else
    match fuel with
    | O => Diverge
    | Datatypes.S fuel =>
        '(err, node, c) ← hfs_read_node ctx c cur_node;
        if negb (err_ok err) then Ret (err, s, c)
        else
          ntype ← rd node 8;
          if negb (ntype =? HFS_NODE_LEAF) then Ret (ODFS_OK, s, c)
          else
            nrecs ← hfs_read_record_count node (cat_node_size ctx);
            match nrecs with
            | None => Ret (ODFS_ERR_CORRUPT, s, c)
            | Some nrecs =>
                '(r, s) ← leaf_loop node (cat_node_size ctx) parent_cnid (Z.to_nat nrecs) 0 found s;
                match r with
                | inl err => Ret (err, s, c)
                | inr found =>
                    cur_node ← hfs_be32 node 0;
                    '(err, go_on, c) ← hfs_peek ctx c parent_cnid found cur_node;
                    if negb (err_ok err) then Ret (err, s, c)
                    else if (go_on : bool) then scan_leaves fuel ctx c parent_cnid cur_node found s
                    else Ret (ODFS_OK, s, c)
                end
            end
    end.
(* [src: backends/hfs/hfs.c:318-449 hfs_walk_catalog] *)
Definition hfs_walk_catalog (fuel : nat) (ctx : hfs_context) (c : C) (parent_cnid : Z) (s : S) : outcome (odfs_err * S * C) :=
  if negb alloc then Ret (ODFS_ERR_NOMEM, s, c)
  else
    '(r, c) ← hfs_descend ctx c parent_cnid 20 (cat_root_node ctx);
    match r with
    | inl err => Ret (err, s, c)
    | inr leaf => scan_leaves fuel ctx c parent_cnid leaf false s
    end.
End walk.

(** ** Enumeration *)

(** [rc_resume] is what [*resume_offset] is set to by a stop. *)
(* [src: backends/hfs/hfs.c:455-466 hfs_readdir_ctx_t] *)
Record readdir_ctx (T : Type) : Type := mk_rc {
  rc_hctx : hfs_context; rc_cb : T; rc_entry_index : Z; rc_resume : option Z; rc_last_err : odfs_err;
  rc_namefix : odfs_namefix_state }.
Arguments mk_rc {T}.
Arguments rc_hctx {T}.
Arguments rc_cb {T}.
Arguments rc_entry_index {T}.
Arguments rc_resume {T}.
Arguments rc_last_err {T}.
Arguments rc_namefix {T}.

(** The name in a key. *)
(* [src: backends/hfs/hfs.c:488-496 hfs_readdir_cb] *)
Definition hfs_key_name (key : list Z) : outcome (list Z) :=
  if 8 <=? zlen key then
    nlen ← rd key 6;
    if (0 <? nlen) && (7 + nlen <=? zlen key)
    then nm ← rd_range key 7 nlen; Ret (hfs_name_to_utf8 nm ODFS_NAME_MAX)
    else Ret []
  else Ret [].
(** What a record says of its object: kind, size, extent, time. *)
(* [src: backends/hfs/hfs.c:498-513 hfs_readdir_cb] *)
Definition hfs_record_node (rec_type : Z) (data : list Z) (data_len : Z) (node : odfs_node) : outcome odfs_node :=
  if (rec_type =? HFS_CAT_DIR) && (22 <=? data_len) then
    dir_id ← hfs_be32 data 6;
    t ← hfs_be32 data 14;
    let t := odfs_timestamp_from_mac_time t in
    Ret (set_times t t (set_extent (mk_extent dir_id 0) (set_kind ODFS_NODE_DIR node)))
  else if (rec_type =? HFS_CAT_FILE) && (52 <=? data_len) then
    sz ← hfs_be32 data 26;
    ext ← (if 78 <=? data_len then start ← hfs_be16 data 74; Ret (mk_extent start sz) else Ret (mk_extent 0 0));
    t ← hfs_be32 data 48;
    let t := odfs_timestamp_from_mac_time t in
    Ret (set_times t t (set_extent ext (set_size sz (set_kind ODFS_NODE_FILE node))))
  else Ret node.

Section readdir.
Context {T : Type} (callback : odfs_node → T → odfs_err * T) (dir : odfs_node) (skip_to : Z) (resume : option Z).
(* [src: backends/hfs/hfs.c:468-537 hfs_readdir_cb] *)
Definition hfs_readdir_cb (key data : list Z) (data_len : Z) (rc : readdir_ctx T) : outcome (odfs_err * readdir_ctx T) :=
  if data_len <? 1 then Ret (ODFS_OK, rc)
  else
    rec_type ← rd data 0;
    if negb (rec_type =? HFS_CAT_FILE) && negb (rec_type =? HFS_CAT_DIR) then Ret (ODFS_OK, rc)
    else
      let i := next_node_id (rc_hctx rc) in
      let hctx := set_next_node_id (u32 (i + 1)) (rc_hctx rc) in
      nm ← hfs_key_name key;
      node ← hfs_record_node rec_type data data_len
               (mk_node i (id dir) ODFS_BACKEND_HFS ODFS_NODE_FILE nm 0 timestamp_zero timestamp_zero 0 amiga_as_zero (mk_extent 0 0) 0);
      let '(err, namefix, nm) := odfs_namefix_apply malloc (rc_namefix rc) (name node) ODFS_NAME_MAX in
      if negb (err_ok err)
      then Ret (err, mk_rc hctx (rc_cb rc) (rc_entry_index rc) (rc_resume rc) err namefix)
      else
        let node := set_name nm node in
        let entry_index := u32 (rc_entry_index rc + 1) in
        if rc_entry_index rc <? skip_to
        then Ret (ODFS_OK, mk_rc hctx (rc_cb rc) entry_index (rc_resume rc) (rc_last_err rc) namefix)
        else
          let '(err, t) := callback node (rc_cb rc) in
          if negb (err_ok err)
          then Ret (err, mk_rc hctx t entry_index ((λ _, entry_index) <$> resume) err namefix)
          else Ret (ODFS_OK, mk_rc hctx t entry_index (rc_resume rc) err namefix).
End readdir.
(** Result: error, the new [*resume_offset], context, cache, callback state. *)
(* [src: backends/hfs/hfs.c:539-574 hfs_readdir] *)
Definition hfs_readdir {T} (fuel : nat) (callback : odfs_node → T → odfs_err * T) (ctx : hfs_context) (c : C) (dir : odfs_node) (t : T)
    (resume : option Z) : outcome (odfs_err * option Z * hfs_context * C * T) :=
  let rc := mk_rc ctx t 0 resume ODFS_OK odfs_namefix_init in
  '(err, rc, c) ← hfs_walk_catalog (hfs_readdir_cb callback dir (default 0 resume) resume) fuel ctx c (lba (extent dir)) rc;
  if negb (err_ok (rc_last_err rc)) then Ret (rc_last_err rc, rc_resume rc, rc_hctx rc, c, rc_cb rc)
  else Ret (err, (λ _, rc_entry_index rc) <$> resume, rc_hctx rc, c, rc_cb rc).

(** ** Reading and looking up *)

(** Result: error, buffer, length, cache. *)
(* [src: backends/hfs/hfs.c:580-601 hfs_read] *)
Definition hfs_read (ctx : hfs_context) (c : C) (file : odfs_node) (offset : Z) (buf : list Z) (len : Z) : odfs_err * list Z * Z * C :=
  if size file <=? offset then (ODFS_OK, buf, 0, c)
  else
    let want := if size file - offset <? len then size file - offset else len in
    bc_read_bytes c 0 (hfs_ab_to_byte ctx (u16 (lba (extent file))) + offset) buf want.
(* [src: backends/hfs/hfs.c:613-622 hfs_lookup_iter] *)
Definition hfs_lookup_iter (nm : list Z) (entry : odfs_node) (found : option odfs_node) : odfs_err * option odfs_node :=
  if odfs_strcasecmp (name entry) nm =? 0 then (ODFS_ERR_EOF, Some entry) else (ODFS_OK, found).
(* [src: backends/hfs/hfs.c:624-642 hfs_lookup] *)
Definition hfs_lookup (fuel : nat) (ctx : hfs_context) (c : C) (dir : odfs_node) (nm : list Z)
    : outcome (odfs_err * option odfs_node * hfs_context * C) :=
  '(err, _, ctx, c, found) ← hfs_readdir fuel (hfs_lookup_iter nm) ctx c dir None None;
  let err := if bool_decide (err = ODFS_ERR_EOF) && bool_decide (is_Some found) then ODFS_OK
             else if negb (err_ok err) then err
             else if bool_decide (is_Some found) then ODFS_OK else ODFS_ERR_NOT_FOUND in
  Ret (err, found, ctx, c).

(** ** Parents *)

(** The parent's number, once found. *)
(* [src: backends/hfs/hfs.c:653-668 hfs_thread_cb] *)
Definition hfs_thread_cb (key data : list Z) (data_len : Z) (info : option Z) : outcome (odfs_err * option Z) :=
  if data_len <? 14 then Ret (ODFS_OK, info)
  else
    type ← rd data 0;
    if negb (type =? HFS_CAT_DTHREAD) then Ret (ODFS_OK, info)
    else parent ← hfs_be32 data 10; Ret (ODFS_ERR_EOF, Some parent).
(* [src: backends/hfs/hfs.c:670-686 hfs_read_thread] *)
Definition hfs_read_thread (fuel : nat) (ctx : hfs_context) (c : C) (cnid : Z) : outcome (odfs_err * Z * C) :=
  '(err, info, c) ← hfs_walk_catalog hfs_thread_cb fuel ctx c cnid None;
  match info with
  | Some parent => Ret (ODFS_OK, parent, c)
  | None => Ret (if err_ok err || bool_decide (err = ODFS_ERR_EOF) then ODFS_ERR_NOT_FOUND else err, 0, c)
  end.
(* [src: backends/hfs/hfs.c:694-705 hfs_cnid_match_cb] *)
Definition hfs_cnid_match_cb (want_cnid : Z) (entry : odfs_node) (found : option odfs_node) : odfs_err * option odfs_node :=
  if bool_decide (kind entry = ODFS_NODE_DIR) && (lba (extent entry) =? want_cnid)
  then (ODFS_ERR_EOF, Some entry) else (ODFS_OK, found).
(* [src: backends/hfs/hfs.c:707-728 hfs_find_child_by_cnid] *)
Definition hfs_find_child_by_cnid (fuel : nat) (ctx : hfs_context) (c : C) (parent_dir : odfs_node) (child_cnid : Z)
    : outcome (odfs_err * option odfs_node * hfs_context * C) :=
  '(err, _, ctx, c, found) ← hfs_readdir fuel (hfs_cnid_match_cb child_cnid) ctx c parent_dir None None;
  let err := if bool_decide (is_Some found) then ODFS_OK
             else if err_ok err || bool_decide (err = ODFS_ERR_EOF) then ODFS_ERR_NOT_FOUND else err in
  Ret (err, found, ctx, c).
(* [src: backends/hfs/hfs.c:730-739 hfs_dir_stub] *)
Definition hfs_dir_stub (cnid : Z) : odfs_node := hfs_dir_node cnid [] timestamp_zero.
(** The directory with a number, to be enumerated. *)
Definition hfs_dir_at (ctx : hfs_context) (cnid : Z) : odfs_node :=
  if cnid =? HFS_CNID_ROOT_DIR then root ctx else hfs_dir_stub cnid.
(** [want_gp] says that [grandparent_out] is not NULL.  Result: error, parent, grandparent. *)
(* [src: backends/hfs/hfs.c:741-815 hfs_resolve_parent] *)
Definition hfs_resolve_parent (fuel : nat) (ctx : hfs_context) (c : C) (dir : odfs_node) (want_gp : bool)
    : outcome (odfs_err * option odfs_node * option odfs_node * hfs_context * C) :=
  if negb (bool_decide (kind dir = ODFS_NODE_DIR)) then Ret (ODFS_ERR_NOT_DIR, None, None, ctx, c)
  else if lba (extent dir) =? HFS_CNID_ROOT_DIR then Ret (ODFS_ERR_NOT_FOUND, None, None, ctx, c)
  else
    '(err, parent, c) ← hfs_read_thread fuel ctx c (lba (extent dir));
    if negb (err_ok err) then Ret (err, None, None, ctx, c)
    else if parent =? HFS_CNID_ROOT_DIR
    then Ret (ODFS_OK, Some (root ctx), if want_gp then Some (root ctx) else None, ctx, c)
    else
      '(err, gp, c) ← hfs_read_thread fuel ctx c parent;
      if negb (err_ok err) then Ret (err, None, None, ctx, c)
      else
        '(err, parent_out, ctx, c) ← hfs_find_child_by_cnid fuel ctx c (hfs_dir_at ctx gp) parent;
        if negb (err_ok err) || negb want_gp then Ret (err, parent_out, None, ctx, c)
        else if gp =? HFS_CNID_ROOT_DIR then Ret (ODFS_OK, parent_out, Some (root ctx), ctx, c)
        else
          '(err, ggp, c) ← hfs_read_thread fuel ctx c gp;
          if negb (err_ok err) then Ret (err, parent_out, None, ctx, c)
          else
            '(err, gp_out, ctx, c) ← hfs_find_child_by_cnid fuel ctx c (hfs_dir_at ctx ggp) gp;
            Ret (err, parent_out, gp_out, ctx, c).

(** ** The volume *)

(* [src: backends/hfs/hfs.c:821-830 hfs_get_volume_name] *)
Definition hfs_get_volume_name (ctx : hfs_context) (buf_size : Z) : odfs_err * list Z :=
  (ODFS_OK, take (Z.to_nat (buf_size - 1)) (volume_name ctx)).
(* [src: backends/hfs/hfs.c:836-843 hfs_get_volume_size] *)
Definition hfs_get_volume_size (ctx : hfs_context) : Z :=
  let blocks := (num_alloc_blocks ctx * alloc_block_size ctx + 2047) / 2048 in
  if UINT32_MAX <? blocks then UINT32_MAX else blocks.
End hfs.
Arguments readdir_ctx T : clear implicits.
Arguments mk_rc {T}.
Arguments rc_hctx {T}.
Arguments rc_cb {T}.
Arguments rc_entry_index {T}.
Arguments rc_resume {T}.
Arguments rc_last_err {T}.
Arguments rc_namefix {T}.
