(* ===== verification/HfsNodes.v ===== *)
(** * Nodes of an HFS catalog

    A node is the bytes of the disc at its place in the extents of the catalog file.
    [hfs_decode] is what a node says when it is well formed, [Fault] otherwise: all
    offsets of its records lie in the node, in order. *)
From S2P Require Import Prelude Types Media CacheApi Hfs Catalog.
Open Scope Z_scope.

(** ** Reading *)
Section read.
Context {C : Type} {HO : CacheOps C} (img : Z → list Z) (inv ok : C → Prop) (ptr : C → Z → Prop) (readable : Z → Prop).
Context {HL : CacheLaws C img 2048 inv ok ptr} {HR : CacheReadable C ok readable}.

(** One piece of a sector. *)
Lemma read_piece c lba off n : ok c → is_u32 lba → readable lba → 0 ≤ off → 0 ≤ n → off + n ≤ 2048 →
  ∃ p c', bc_read c lba = (ODFS_OK, p, c') ∧ ok c' ∧ rd_range (bc_data c' p) off n = Ret (disc_bytes img 2048 (lba * 2048 + off) n).
Proof.
  intros Hok Hl Hr Ho Hn Hs. destruct (cr_read c lba Hok Hl Hr) as (p & c' & He).
  destruct (cl_read_ok c lba p c' Hok Hl He) as (Hok' & _ & Hd & _). exists p, c'. split_and!; [done..|].
  rewrite Hd. unfold rd_range. rewrite (cl_sector (ok := ok)). rewrite !(proj2 (Z.leb_le _ _)) by lia. simpl.
  f_equal. apply slice_sector; try done. intros l. apply (cl_sector (ok := ok)).
Qed.

Lemma read_node_loop_exact fuel : ∀ c phys remain buf, ok c → 0 ≤ phys → 0 ≤ remain ≤ Z.of_nat fuel → phys + remain ≤ 2 ^ 43 →
  (∀ o, phys ≤ o < phys + remain → readable (o / 2048)) →
  ∃ c', read_node_loop fuel c (phys / 2048) (phys mod 2048) remain buf = Ret (ODFS_OK, buf ++ disc_bytes img 2048 phys remain, c') ∧ ok c'.
Proof.
  induction fuel as [|fuel IH]; intros c phys remain buf Hok Hp Hf Hend Hr; cbn [read_node_loop].
  { rewrite (proj2 (Z.leb_le remain 0)) by lia. replace remain with 0 by lia. exists c. by rewrite app_nil_r. }
  destruct (remain <=? 0) eqn:E; b2p. { replace remain with 0 by lia. exists c. by rewrite app_nil_r. }
  set (chunk := if remain <? 2048 - phys mod 2048 then remain else 2048 - phys mod 2048).
  pose proof (Z.mod_pos_bound phys 2048 ltac:(lia)) as Hm. pose proof (Z.div_mod phys 2048 ltac:(lia)) as Hdm.
  assert (Hc : 0 < chunk ≤ remain ∧ phys mod 2048 + chunk ≤ 2048 ∧ (chunk < remain → phys mod 2048 + chunk = 2048)) by (unfold chunk; case_test; b2p; lia).
  destruct (read_piece c (phys / 2048) (phys mod 2048) chunk) as (p & c1 & He & Hok1 & Hd); [done|unfold is_u32; dlia|apply Hr; lia|lia..|].
  rewrite He. change (negb (err_ok ODFS_OK)) with false. cbv iota. rewrite Hd. cbn [mbind outcome_bind].
  replace (phys / 2048 * 2048 + phys mod 2048) with phys by lia.
  destruct (decide (chunk = remain)) as [->|Hne].
  - exists c1. split; [|done]. rewrite Z.sub_diag. by destruct fuel.
  - assert (Hq : phys + chunk = (phys / 2048 + 1) * 2048) by lia.
    destruct (IH c1 (phys + chunk) (remain - chunk) (buf ++ disc_bytes img 2048 phys chunk) Hok1) as (c' & He' & Hok'); [lia..|intros o Ho; apply Hr; lia|].
    rewrite Hq, Z.div_mul, Z.mod_mul in He' by lia. rewrite u32_small by (unfold is_u32; dlia). exists c'. split; [|done]. rewrite He'.
    rewrite <- app_assoc. replace remain with (chunk + (remain - chunk)) at 2 by lia. rewrite disc_bytes_app by lia. by rewrite Hq.
Qed.

(** ** Where nodes are *)
Section nodes.
Context (ctx : hfs_context).

Fixpoint node_phys (exts : list hfs_extent) (node_byte_offset extent_offset : Z) : option Z :=
  match exts with
  | [] => None
  | e :: exts =>
      let ext_bytes := num_ab e * alloc_block_size ctx in
      if node_byte_offset <? extent_offset + ext_bytes
      then Some (hfs_ab_to_byte ctx (start_ab e) + (node_byte_offset - extent_offset))
      else node_phys exts node_byte_offset (extent_offset + ext_bytes)
  end.
Definition node_at (n : Z) : option Z := node_phys (cat_extents ctx) (n * cat_node_size ctx) 0.
(** A node that lies where sector numbers reach. *)
Definition node_bytes (n : Z) : option (list Z) :=
  match node_at n with
  | Some phys => if (0 <=? phys) && (phys + cat_node_size ctx <=? 2 ^ 43) then Some (disc_bytes img 2048 phys (cat_node_size ctx)) else None
  | None => None
  end.
(** The catalog's sectors can be read. *)
Definition catalog_readable : Prop :=
  ∀ n phys o, node_at n = Some phys → 0 ≤ phys → phys ≤ o < phys + cat_node_size ctx → readable (o / 2048).
Context (Hread : catalog_readable) (Hsize : 14 ≤ cat_node_size ctx ≤ 32768).

Lemma read_node_exact c n bytes : ok c → node_bytes n = Some bytes →
  zlen bytes = cat_node_size ctx ∧ ∃ c', hfs_read_node ctx c n = Ret (ODFS_OK, bytes, c') ∧ ok c'.
Proof.
  intros Hok. unfold node_bytes. destruct (node_at n) as [phys|] eqn:Hn; [|done]. case_test; [|done]. b2p. intros [= <-].
  split; [rewrite length_disc_bytes; lia|].
  assert (Hgo : ∀ exts off, node_phys exts (n * cat_node_size ctx) off = Some phys →
    read_node_extents ctx c exts (n * cat_node_size ctx) off =
      read_node_loop (Z.to_nat (cat_node_size ctx)) c (u32 (phys / 2048)) (phys mod 2048) (cat_node_size ctx) []).
  { induction exts as [|e exts IH]; intros off; cbn [node_phys read_node_extents]; [done|]. cbv zeta.
    destruct (_ <? _); [|apply IH]. by intros [= <-]. }
  unfold hfs_read_node. rewrite (Hgo _ _ Hn), u32_small by (unfold is_u32; dlia).
  destruct (read_node_loop_exact (Z.to_nat (cat_node_size ctx)) c phys (cat_node_size ctx) [] Hok) as (c' & -> & Hok'); [lia..|intros o Ho; by eapply Hread|].
  by exists c'.
Qed.
End nodes.
End read.

(** ** What a node says *)

Section decode.
Context (node : list Z) (node_size : Z).

Definition dec_record (r : Z) : outcome cat_rec :=
  off ← hfs_rec_offset node node_size r;
  next_off ← hfs_rec_offset node node_size (r + 1);
  guard_ (off + 6 <? node_size) (
    klen ← rd node off;
    guard_ ((5 <=? klen) && (off + 1 + klen <? node_size)) (
      key_parent ← hfs_be32 node (off + 2);
      let data_off := off + 1 + klen in
      let data_off := if Z.land data_off 1 =? 0 then data_off else data_off + 1 in
      guard_ ((data_off <? next_off) && (next_off <=? node_size)) (
        key ← rd_range node off (klen + 1);
        data ← rd_range node data_off (next_off - data_off);
        Ret (mk_cat_rec key_parent key data)))).
Fixpoint dec_records (n : nat) (r : Z) : outcome (list cat_rec) :=
  match n with
  | O => Ret []
  | S n => x ← dec_record r; xs ← dec_records n (r + 1); Ret (x :: xs)
  end.
Definition dec_entry (r : Z) : outcome (Z * Z) :=
  off ← hfs_rec_offset node node_size r;
  guard_ (off + 6 <? node_size) (
    klen ← rd node off;
    guard_ (off + klen + 1 + 4 <? node_size) (
      key_parent ← hfs_be32 node (off + 2); ptr ← hfs_be32 node (off + 1 + klen); Ret (key_parent, ptr))).
Fixpoint dec_entries (n : nat) (r : Z) : outcome (list (Z * Z)) :=
  match n with
  | O => Ret []
  | S n => x ← dec_entry r; xs ← dec_entries n (r + 1); Ret (x :: xs)
  end.
Definition parse_node : outcome cat_node :=
  type ← rd node 8;
  nrecs ← hfs_read_record_count node node_size;
  match nrecs with
  | None => Fault
  | Some nrecs =>
      if type =? HFS_NODE_LEAF then
        recs ← dec_records (Z.to_nat nrecs) 0; next ← hfs_be32 node 0; Ret (CatLeaf next recs)
      else if type =? HFS_NODE_INDEX then
        entries ← dec_entries (Z.to_nat nrecs) 0; Ret (CatIndex entries)
      else Fault
  end.

(** Decoding ends. *)
Lemma halts_bind {A B} (m : outcome A) (k : A → outcome B) : m ≠ Diverge → (∀ a, k a ≠ Diverge) → m ≫= k ≠ Diverge.
Proof. destruct m; simpl; auto. Qed.
Lemma halts_rd buf i : rd buf i ≠ Diverge.
Proof. unfold rd. by case_match. Qed.
Lemma halts_range buf i n : rd_range buf i n ≠ Diverge.
Proof. unfold rd_range. by case_match. Qed.
Lemma halts_guard {A} b (m : outcome A) : m ≠ Diverge → guard_ b m ≠ Diverge.
Proof. by destruct b. Qed.
Lemma halts_be16 buf i : hfs_be16 buf i ≠ Diverge.
Proof. unfold hfs_be16. repeat (apply halts_bind; [apply halts_rd|intros ?]). done. Qed.
Lemma halts_be32 buf i : hfs_be32 buf i ≠ Diverge.
Proof. unfold hfs_be32. repeat (apply halts_bind; [apply halts_rd|intros ?]). done. Qed.
Create HintDb halts.
#[local] Hint Resolve halts_bind halts_rd halts_range halts_guard halts_be16 halts_be32 : halts.
#[local] Hint Extern 0 (Ret _ ≠ Diverge) => done : halts.
Lemma parse_halts : parse_node ≠ Diverge.
Proof.
  assert (Hr : ∀ n r, dec_records n r ≠ Diverge).
  { induction n as [|n IH]; intros r; cbn [dec_records]; [done|]. unfold dec_record, hfs_rec_offset. eauto 30 with halts. }
  assert (He : ∀ n r, dec_entries n r ≠ Diverge).
  { induction n as [|n IH]; intros r; cbn [dec_entries]; [done|]. unfold dec_entry, hfs_rec_offset. eauto 30 with halts. }
  unfold parse_node. apply halts_bind; [apply halts_rd|intros t]. apply halts_bind; [unfold hfs_read_record_count; case_test; eauto with halts|].
  intros [nrecs|]; [|done]. repeat case_test; eauto with halts.
Qed.

(** The loops over a node's records go over what it decodes to. *)
Lemma index_refines cnid n : ∀ r child entries, dec_entries n r = Ret entries →
  index_child node node_size cnid n r child = Ret (cat_pick cnid entries child).
Proof.
  induction n as [|n IH]; intros r child entries; cbn [dec_entries index_child]; [by intros [= <-]|]. intros H. unbind H. injection H as <-.
  unfold dec_entry in E. unbind E. injection E as <-. b2p.
  rewrite E1. cbn [mbind outcome_bind]. rewrite (proj2 (Z.leb_gt _ _)), E3 by lia. cbn [mbind outcome_bind].
  rewrite (proj2 (Z.leb_gt _ _)), E5, E6 by lia. cbn [mbind outcome_bind cat_pick].
  destruct (cnid <=? _); [done|]. by apply IH.
Qed.

(** A callback that looks at no more than the record's data. *)
Definition looks_inside {S} (callback : list Z → list Z → Z → S → outcome (odfs_err * S)) : Prop :=
  ∀ key mem len s, 0 ≤ len ≤ zlen mem → callback key mem len s = callback key (take (Z.to_nat len) mem) len s.

Lemma leaf_refines {S} (callback : list Z → list Z → Z → S → outcome (odfs_err * S)) cnid n : looks_inside callback → zlen node = node_size →
  ∀ r found s recs, dec_records n r = Ret recs →
  leaf_loop callback node node_size cnid n r found s = cat_leaf cnid callback recs found s.
Proof.
  intros Hin Hlen. induction n as [|n IH]; intros r found s recs; cbn [dec_records leaf_loop]; [by intros [= <-]|]. intros H. unbind H. injection H as <-.
  specialize (IH (r + 1)). unfold dec_record in E. unbind E. injection E as <-. b2p. cbn [cat_leaf cr_parent cr_key cr_data].
  rewrite E1, E2. cbn [mbind outcome_bind]. rewrite (proj2 (Z.leb_gt _ _)), E4 by lia. cbn [mbind outcome_bind].
  rewrite (proj2 (Z.ltb_ge _ _)), (proj2 (Z.leb_gt _ _)), E6 by lia. cbn [mbind outcome_bind orb].
  destruct (_ <? cnid); [by apply IH|]. destruct (cnid <? _); [done|].
  set (d := if Z.land (x1 + 1 + x3) 1 =? 0 then x1 + 1 + x3 else x1 + 1 + x3 + 1) in *.
  rewrite (proj2 (Z.ltb_lt d x2)), (proj2 (Z.ltb_lt d node_size)), (proj2 (Z.ltb_lt 0 (x2 - d))), E8 by lia. cbn [andb mbind outcome_bind].
  assert (Hdata : x6 = take (Z.to_nat (x2 - d)) (mem_at node d) ∧ zlen x6 = x2 - d ∧ x2 - d ≤ zlen (mem_at node d)).
  { revert E9. unfold rd_range. case_test; [|done]. intros [= <-]. b2p. unfold mem_at. rewrite (proj2 (Z.leb_le _ _)) by lia.
    split_and!; [done|rewrite length_slice; lia|rewrite length_drop; lia]. }
  destruct Hdata as (-> & Hl & Hm). rewrite Hl. rewrite (Hin _ (mem_at node d)) by lia.
  destruct (callback _ _ _ s) as [[err s']| |]; [|done..]. cbn [mbind outcome_bind]. destruct (err_ok err); [by apply IH|done].
Qed.
End decode.

(** ** The walk over the disc is the walk over the nodes *)
Section walk.
Context {C : Type} {HO : CacheOps C} (img : Z → list Z) (inv ok : C → Prop) (ptr : C → Z → Prop) (readable : Z → Prop).
Context {HL : CacheLaws C img 2048 inv ok ptr} {HR : CacheReadable C ok readable}.
Context (ctx : hfs_context) (Hread : catalog_readable readable ctx) (Hsize : 14 ≤ cat_node_size ctx ≤ 32768).

Definition hfs_decode (n : Z) : outcome cat_node :=
  match node_bytes img ctx n with Some bytes => parse_node bytes (cat_node_size ctx) | None => Fault end.
Lemma decode_halts n : hfs_decode n ≠ Diverge.
Proof. unfold hfs_decode. destruct (node_bytes img ctx n); [apply parse_halts|done]. Qed.
(** [m'] comes to what [m] does, and leaves a cache in order; [Fault] promises nothing. *)
Definition simulates {A} (m : outcome A) (m' : outcome (A * C)) : Prop :=
  match m with Ret a => ∃ c, m' = Ret (a, c) ∧ ok c | Fault => True | Diverge => m' = Diverge end.

Lemma decode_read c n node : ok c → hfs_decode n = Ret node →
  ∃ bytes c', hfs_read_node ctx c n = Ret (ODFS_OK, bytes, c') ∧ ok c' ∧ zlen bytes = cat_node_size ctx ∧ parse_node bytes (cat_node_size ctx) = Ret node.
Proof.
  intros Hok. unfold hfs_decode. destruct (node_bytes img ctx n) as [bytes|] eqn:Hb; [|done]. intros Hp.
  destruct (read_node_exact img inv ok ptr readable ctx Hread Hsize c n bytes Hok Hb) as (Hl & c' & He & Hok'). by exists bytes, c'.
Qed.
(** The kind of a node and the number of its records. *)
Lemma parse_cases bytes ns node : parse_node bytes ns = Ret node →
  ∃ t nrecs, rd bytes 8 = Ret t ∧ hfs_read_record_count bytes ns = Ret (Some nrecs) ∧
    match node with
    | CatLeaf next recs => t = HFS_NODE_LEAF ∧ dec_records bytes ns (Z.to_nat nrecs) 0 = Ret recs ∧ hfs_be32 bytes 0 = Ret next
    | CatIndex entries => t = HFS_NODE_INDEX ∧ dec_entries bytes ns (Z.to_nat nrecs) 0 = Ret entries
    end.
Proof.
  intros H. unfold parse_node in H. unbind H. destruct x0 as [nrecs|]; [|done]. exists x, nrecs. split_and!; [done..|].
  destruct (x =? HFS_NODE_LEAF) eqn:El; b2p; [unbind H; by injection H as <-|].
  destruct (x =? HFS_NODE_INDEX) eqn:Ei; b2p; [unbind H; by injection H as <-|done].
Qed.
(** The first record of a leaf. *)
Lemma first_parent bytes ns n rec recs : dec_records bytes ns n 0 = Ret (rec :: recs) →
  ∃ off, hfs_rec_offset bytes ns 0 = Ret off ∧ off + 6 < ns ∧ hfs_be32 bytes (off + 2) = Ret (cr_parent rec).
Proof.
  destruct n as [|n]; [done|]. cbn [dec_records]. intros H. unbind H. injection H as -> <-. unfold dec_record in E. unbind E. injection E as <-.
  b2p. by eexists.
Qed.

Lemma descend_simulates cnid depth : ∀ c cur, ok c → simulates (cat_descend hfs_decode cnid depth cur) (hfs_descend ctx c cnid depth cur).
Proof.
  induction depth as [|depth IH]; intros c cur Hok; cbn [cat_descend hfs_descend]; [by exists c|].
  destruct (hfs_decode cur) as [node| |] eqn:Hd; [|done|by apply decode_halts in Hd]. cbn [mbind outcome_bind].
  destruct (decode_read c cur node Hok Hd) as (bytes & c' & -> & Hok' & Hl & Hp). cbn [mbind outcome_bind].
  change (negb (err_ok ODFS_OK)) with false. cbv iota.
  apply parse_cases in Hp as (t & nrecs & -> & Hn & Hp). cbn [mbind outcome_bind]. destruct node as [next recs|entries].
  - destruct Hp as (-> & _). by exists c'.
  - destruct Hp as (-> & He). change (HFS_NODE_INDEX =? HFS_NODE_LEAF) with false. change (negb (HFS_NODE_INDEX =? HFS_NODE_INDEX)) with false. cbv iota.
    rewrite Hn. cbn [mbind outcome_bind]. rewrite (index_refines _ _ cnid _ 0 0 entries He). cbn [mbind outcome_bind].
    destruct (_ =? 0); [by exists c'|by apply IH].
Qed.

Lemma peek_simulates cnid found c next : ok c → simulates (cat_peek hfs_decode cnid found next)
  ('(err, go_on, c) ← hfs_peek ctx c cnid found next; if err_ok err then Ret (go_on, c) else Fault).
Proof.
  intros Hok. unfold cat_peek, hfs_peek. case_test; [|by exists c].
  destruct (hfs_decode next) as [node| |] eqn:Hd; [|done|by apply decode_halts in Hd]. cbn [mbind outcome_bind].
  destruct (decode_read c next node Hok Hd) as (bytes & c' & -> & Hok' & Hl & Hp). cbn [mbind outcome_bind].
  change (negb (err_ok ODFS_OK)) with false. cbv iota.
  apply parse_cases in Hp as (t & nrecs & -> & _ & Hp). cbn [mbind outcome_bind]. destruct node as [next' [|r recs]|entries]; [done| |].
  - destruct Hp as (-> & Hr & _). apply first_parent in Hr as (off & -> & Ho & Hk). change (negb (HFS_NODE_LEAF =? HFS_NODE_LEAF)) with false.
    cbn [mbind outcome_bind]. rewrite (proj2 (Z.ltb_lt _ _)), Hk by done. by exists c'.
  - destruct Hp as (-> & _). by exists c'.
Qed.

Section callback.
Context {S : Type} (callback : list Z → list Z → Z → S → outcome (odfs_err * S)) (Hin : looks_inside callback) (cnid : Z).

Lemma scan_simulates fuel : ∀ c cur found s, ok c →
  simulates (cat_scan hfs_decode cnid callback fuel cur found s) (scan_leaves callback fuel ctx c cnid cur found s).
Proof.
  induction fuel as [|fuel IH]; intros c cur found s Hok; cbn [cat_scan scan_leaves]; (case_test; [by exists c|]); [done|].
  destruct (hfs_decode cur) as [node| |] eqn:Hd; [|done|by apply decode_halts in Hd]. cbn [mbind outcome_bind].
  destruct (decode_read c cur node Hok Hd) as (bytes & c' & -> & Hok' & Hl & Hp). cbn [mbind outcome_bind].
  change (negb (err_ok ODFS_OK)) with false. cbv iota.
  apply parse_cases in Hp as (t & nrecs & -> & Hn & Hp). cbn [mbind outcome_bind]. destruct node as [next recs|entries].
  - destruct Hp as (-> & Hr & Hx). change (negb (HFS_NODE_LEAF =? HFS_NODE_LEAF)) with false. rewrite Hn. cbn [mbind outcome_bind].
    rewrite (leaf_refines _ _ callback cnid _ Hin Hl 0 found s recs Hr).
    destruct (cat_leaf cnid callback recs found s) as [[[err|found'] s']| |]; cbn [mbind outcome_bind]; [by exists c'| |done..].
    rewrite Hx. cbn [mbind outcome_bind]. pose proof (peek_simulates cnid found' c' next Hok') as Hpk.
    destruct (cat_peek hfs_decode cnid found' next) as [go| |]; cbn [mbind outcome_bind]; [|done|].
    + destruct Hpk as (c2 & Hpk & Hok2). apply bind_Ret in Hpk as ([[err b] c3] & -> & Hpk). destruct (err_ok err) eqn:He; [|done].
      injection Hpk as -> ->. cbn [mbind outcome_bind]. rewrite He. cbn [negb]. destruct go; [by apply IH|by exists c2].
    + cbn [simulates] in *. destruct (hfs_peek ctx c' cnid found' next) as [[[err b] c3]| |]; [|done..]. cbn [mbind outcome_bind] in Hpk. by destruct (err_ok err).
  - destruct Hp as (-> & _). by exists c'.
Qed.
Lemma walk_simulates fuel c s : ok c →
  simulates (cat_walk hfs_decode cnid callback fuel (cat_root_node ctx) s) (hfs_walk_catalog true callback fuel ctx c cnid s).
Proof.
  intros Hok. unfold cat_walk, hfs_walk_catalog. pose proof (descend_simulates cnid 20 c (cat_root_node ctx) Hok) as Hd. cbn [negb].
  destruct (cat_descend _ _ _ _) as [r| |]; cbn [mbind outcome_bind]; [|done|by rewrite Hd].
  destruct Hd as (c' & -> & Hok'). cbn [mbind outcome_bind]. destruct r as [err|leaf]; [by exists c'|by apply scan_simulates].
Qed.
(** On a well-formed catalog the walk is the callback on the directory's records. *)
Lemma walk_catalog fuel c s leaves : ok c → catalog hfs_decode (cat_root_node ctx) leaves → (length leaves ≤ fuel)%nat →
  simulates (run_records callback (of_dir cnid (recs_of leaves)) s) (hfs_walk_catalog true callback fuel ctx c cnid s).
Proof. intros Hok Hc Hf. rewrite <- (walk_spec hfs_decode cnid callback fuel (cat_root_node ctx) leaves s Hc Hf). by apply walk_simulates. Qed.
End callback.
End walk.
