(* ===== verification/HfsListing.v ===== *)
(** * What an HFS directory lists

    The listing of a directory is a function of its records in the catalog.
    Enumeration runs the callback over it from the entry the resume offset counts to,
    lookup finds the first entry with the name. *)
From S2P Require Import Prelude Types Strings Namefix Media CacheApi Charset Timestamp Backend MetaCache MetaCacheProofs MetaCacheSpec.
From S2P Require Import Reader IsoListing Hfs Catalog HfsNodes.
Open Scope Z_scope.

(** ** Reading from the front of a buffer *)

Lemma rd_take n l i : 0 ≤ i < Z.of_nat n → rd (take n l) i = rd l i.
Proof. intros Hi. unfold rd, zget. rewrite (proj2 (Z.leb_le _ _)) by lia. by rewrite lookup_take_lt by lia. Qed.
Lemma be16_take n l i : 0 ≤ i → i + 2 ≤ Z.of_nat n → hfs_be16 (take n l) i = hfs_be16 l i.
Proof. intros. unfold hfs_be16. by rewrite !rd_take by lia. Qed.
Lemma be32_take n l i : 0 ≤ i → i + 4 ≤ Z.of_nat n → hfs_be32 (take n l) i = hfs_be32 l i.
Proof. intros. unfold hfs_be32. by rewrite !rd_take by lia. Qed.

(** ** Entries *)

Lemma record_node_take rec_type mem len node : 0 ≤ len →
  hfs_record_node rec_type (take (Z.to_nat len) mem) len node = hfs_record_node rec_type mem len node.
Proof.
  intros Hl. unfold hfs_record_node. case_test; b2p; [by rewrite !be32_take by lia|]. case_test; [|done]. b2p.
  rewrite !be32_take by lia. case_test; [|done]. b2p. by rewrite be16_take by lia.
Qed.
Lemma record_node_numbered rec_type data len i p n :
  hfs_record_node rec_type data len (numbered i p n) = numbered i p <$> hfs_record_node rec_type data len n.
Proof.
  unfold hfs_record_node. case_test.
  - destruct (hfs_be32 data 6); [|done..]. cbn [mbind outcome_bind]. by destruct (hfs_be32 data 14).
  - case_test; [|done]. destruct (hfs_be32 data 26); [|done..]. cbn [mbind outcome_bind]. case_test.
    + destruct (hfs_be16 data 74); [|done..]. cbn [mbind outcome_bind]. by destruct (hfs_be32 data 48).
    + cbn [mbind outcome_bind]. by destruct (hfs_be32 data 48).
Qed.

Section listing.
Context (malloc : nat → Z → bool).

(** The file or directory a record stands for; threads stand for none. *)
Definition hfs_object (r : cat_rec) : outcome (option odfs_node) :=
  if zlen (cr_data r) <? 1 then Ret None
  else
    rec_type ← rd (cr_data r) 0;
    if negb (rec_type =? HFS_CAT_FILE) && negb (rec_type =? HFS_CAT_DIR) then Ret None
    else
      nm ← hfs_key_name (cr_key r);
      Some <$> hfs_record_node rec_type (cr_data r) (zlen (cr_data r))
        (mk_node 0 0 ODFS_BACKEND_HFS ODFS_NODE_FILE nm 0 timestamp_zero timestamp_zero 0 amiga_as_zero (mk_extent 0 0) 0).
(** The entries with their final names; [Fault] when a name cannot be made unique. *)
Fixpoint hfs_entries (nf : odfs_namefix_state) (recs : list cat_rec) : outcome (list odfs_node) :=
  match recs with
  | [] => Ret []
  | r :: recs =>
      o ← hfs_object r;
      match o with
      | None => hfs_entries nf recs
      | Some n =>
          let '(err, nf, nm) := odfs_namefix_apply malloc nf (name n) ODFS_NAME_MAX in
          guard_ (err_ok err) (L ← hfs_entries nf recs; Ret (set_name nm n :: L))
      end
  end.
(** As an enumeration numbers them. *)
Fixpoint number (i p : Z) (L : list odfs_node) : list odfs_node :=
  match L with [] => [] | n :: L => numbered i p n :: number (u32 (i + 1)) p L end.
Lemma length_number i p L : length (number i p L) = length L.
Proof. revert i. induction L as [|n L IH]; intros i; [done|]. simpl. by rewrite IH. Qed.
Lemma face_number i p L : map face (number i p L) = map face L.
Proof. revert i. induction L as [|n L IH]; intros i; [done|]. simpl. by rewrite IH. Qed.

Lemma number_wf i p L : Forall node_wf L → Forall node_wf (number i p L).
Proof. intros H. revert i. induction H as [|n L Hn _ IH]; intros i; [constructor|]. by constructor. Qed.

Definition same_hfs (ctx ctx' : hfs_context) : Prop := ∃ k, ctx' = set_next_node_id k ctx.
Lemma same_hfs_trans a b c : same_hfs a b → same_hfs b c → same_hfs a c.
Proof. intros [k ->] [j ->]. by exists j. Qed.

Section readdir.
Context {T : Type} (cb : odfs_dir_iter_fn T) (dir : odfs_node) (skip : Z) (resume : option Z).
Abbreviation record_cb := (hfs_readdir_cb malloc cb dir skip resume).

Lemma readdir_cb_inside : looks_inside record_cb.
Proof.
  intros key mem len rc Hl. unfold hfs_readdir_cb. case_test; [done|]. b2p. rewrite rd_take by lia. destruct (rd mem 0); [|done..].
  cbn [mbind outcome_bind]. case_test; [done|]. destruct (hfs_key_name key); [|done..]. cbn [mbind outcome_bind]. by rewrite record_node_take by lia.
Qed.
(** One record. *)
Lemma readdir_cb_object r (rc : readdir_ctx T) :
  hfs_readdir_cb malloc cb dir skip resume (cr_key r) (cr_data r) (zlen (cr_data r)) rc =
    (o ← hfs_object r;
     match o with
     | None => Ret (ODFS_OK, rc)
     | Some n =>
         let i := next_node_id (rc_hctx rc) in
         let hctx := set_next_node_id (u32 (i + 1)) (rc_hctx rc) in
         let '(err, nf, nm) := odfs_namefix_apply malloc (rc_namefix rc) (name n) ODFS_NAME_MAX in
         if negb (err_ok err) then Ret (err, mk_rc hctx (rc_cb rc) (rc_entry_index rc) (rc_resume rc) err nf)
         else
           let e := u32 (rc_entry_index rc + 1) in
           if rc_entry_index rc <? skip then Ret (ODFS_OK, mk_rc hctx (rc_cb rc) e (rc_resume rc) (rc_last_err rc) nf)
           else
             let '(err, t) := cb (numbered i (id dir) (set_name nm n)) (rc_cb rc) in
             if negb (err_ok err) then Ret (err, mk_rc hctx t e ((λ _, e) <$> resume) err nf)
             else Ret (ODFS_OK, mk_rc hctx t e (rc_resume rc) err nf)
     end).
Proof.
  unfold hfs_readdir_cb, hfs_object. case_test; [done|]. destruct (rd (cr_data r) 0) as [ty| |]; [|done..]. cbn [mbind outcome_bind].
  case_test; [done|]. destruct (hfs_key_name (cr_key r)) as [nm| |]; [|done..]. cbn [mbind outcome_bind].
  set (n0 := mk_node 0 0 ODFS_BACKEND_HFS ODFS_NODE_FILE nm 0 timestamp_zero timestamp_zero 0 amiga_as_zero (mk_extent 0 0) 0).
  change (mk_node _ (id dir) _ _ _ _ _ _ _ _ _ _) with (numbered (next_node_id (rc_hctx rc)) (id dir) n0).
  rewrite record_node_numbered. destruct (hfs_record_node ty _ _ n0) as [n| |]; [|done..]. cbn [fmap outcome_fmap mbind outcome_bind].
  change (name (numbered _ _ n)) with (name n). by destruct (odfs_namefix_apply _ _ _ _) as [[err nf] nm'].
Qed.

(** The records of a directory deliver its entries from the offset on. *)
Lemma run_entries recs : ∀ nf L ctx t e r, hfs_entries nf recs = Ret L → 0 ≤ e → e + zlen L < 2 ^ 32 →
  let D := drop (Z.to_nat (skip - e)) (number (next_node_id ctx) (id dir) L) in
  ∃ rc, run_records record_cb recs (mk_rc ctx t e r ODFS_OK nf) = Ret ((run cb D t).1, rc) ∧
    rc_cb rc = (run cb D t).2 ∧ same_hfs ctx (rc_hctx rc) ∧ rc_last_err rc = (run cb D t).1 ∧
    if err_ok (run cb D t).1 then rc_entry_index rc = e + zlen L
    else rc_resume rc = (λ _, Z.max e skip + delivered cb D t) <$> resume.
Proof.
  induction recs as [|x recs IH]; intros nf L ctx t e r; cbn [hfs_entries run_records].
  { intros [= <-] _ _. cbn [number]. rewrite drop_nil. eexists. split_and!; try done; [by exists (next_node_id ctx); destruct ctx|simpl; lia]. }
  intros H He Hb. apply bind_Ret in H as (o & Ho & H). rewrite readdir_cb_object, Ho. cbn [mbind outcome_bind].
  destruct o as [n|]; [|cbn [mbind outcome_bind]; change (err_ok ODFS_OK) with true; by apply IH].
  cbn [rc_hctx rc_cb rc_entry_index rc_resume rc_last_err rc_namefix].
  destruct (odfs_namefix_apply malloc nf (name n) ODFS_NAME_MAX) as [[err nf'] nm]. unbind H. cbn [negb].
  injection H as <-. rename x0 into L. specialize (IH nf' L (set_next_node_id (u32 (next_node_id ctx + 1)) ctx)).
  cbn [length] in Hb. rewrite (u32_small (e + 1)) by (unfold is_u32; lia). cbn [number].
  change (next_node_id (set_next_node_id ?i ctx)) with i in IH.
  destruct (e <? skip) eqn:Hs; b2p.
  - cbn [mbind outcome_bind]. change (err_ok ODFS_OK) with true. cbv iota.
    destruct (IH t (e + 1) r E0 ltac:(lia) ltac:(lia)) as (rc & Hr & Hcb & [j Hj] & Hle & Hres).
    replace (Z.to_nat (skip - e)) with (S (Z.to_nat (skip - (e + 1)))) by lia. cbn [drop skipn].
    exists rc. split_and!; [exact Hr|exact Hcb|by exists j; rewrite Hj|exact Hle|]. revert Hres. case_match; intros Hres; rewrite Hres; [simpl; lia|].
    destruct resume; [|done]. simpl. f_equal. f_equal. lia.
  - replace (Z.to_nat (skip - e)) with 0%nat by lia. change (drop 0 ?l) with l. cbn [run delivered].
    change (set_name nm (numbered _ _ n)) with (numbered (next_node_id ctx) (id dir) (set_name nm n)).
    destruct (cb _ t) as [err' t'] eqn:Hcb. destruct (err_ok err') eqn:He'; cbn [negb mbind outcome_bind].
    + change (err_ok ODFS_OK) with true. cbv iota. pose proof (err_ok_eq _ He') as ->.
      destruct (IH t' (e + 1) r E0 ltac:(lia) ltac:(lia)) as (rc & Hr & Hcb' & [j Hj] & Hle & Hres).
      replace (Z.to_nat (skip - (e + 1))) with 0%nat in * by lia. change (drop 0 ?l) with l in *.
      exists rc. split_and!; [exact Hr|exact Hcb'|by exists j; rewrite Hj|exact Hle|]. revert Hres. case_match; intros Hres; rewrite Hres; [simpl; lia|].
      destruct resume; [|done]. simpl. f_equal. lia.
    + rewrite He'. eexists. split_and!; [done|done|by eexists|done|]. simpl. rewrite He'. destruct resume; [|done]. simpl. f_equal. lia.
Qed.
End readdir.
End listing.

(** ** On a disc *)
Section disc.
Context {C : Type} {HO : CacheOps C} (img : Z → list Z) (inv ok : C → Prop) (ptr : C → Z → Prop) (readable : Z → Prop).
Context {HL : CacheLaws C img 2048 inv ok ptr} {HR : CacheReadable C ok readable}.
Context (Hbytes : ∀ l, Forall is_byte (img l)) (malloc : nat → Z → bool).

(** A volume whose catalog is well formed and can be read, with no more leaves than
    [fuel]. *)
Record hfs_volume (fuel : nat) (ctx : hfs_context) (leaves : list (Z * list cat_rec)) : Prop := {
  hv_readable : catalog_readable readable ctx;
  hv_node_size : 14 ≤ cat_node_size ctx ≤ 32768;
  hv_catalog : catalog (hfs_decode img ctx) (cat_root_node ctx) leaves;
  hv_fuel : (length leaves ≤ fuel)%nat }.
(** What the catalog says of a directory. *)
Definition hfs_listing (leaves : list (Z * list cat_rec)) (cnid : Z) : outcome (list odfs_node) :=
  hfs_entries malloc odfs_namefix_init (of_dir cnid (recs_of leaves)).

Lemma hfs_volume_same fuel ctx ctx' leaves : same_hfs ctx ctx' → hfs_volume fuel ctx leaves → hfs_volume fuel ctx' leaves.
Proof. intros [k ->] [H1 H2 H3 H4]. by split. Qed.

Lemma hfs_readdir_run {T} (cb : odfs_dir_iter_fn T) fuel ctx leaves c dir t r0 L :
  ok c → hfs_volume fuel ctx leaves → hfs_listing leaves (lba (extent dir)) = Ret L → zlen L < 2 ^ 32 →
  let D := drop (Z.to_nat (default 0 r0)) (number (next_node_id ctx) (id dir) L) in
  ∃ ctx' c', hfs_readdir malloc true fuel cb ctx c dir t r0 =
      Ret ((run cb D t).1,
        (λ _, if err_ok (run cb D t).1 then zlen L else Z.max 0 (default 0 r0) + delivered cb D t) <$> r0, ctx', c', (run cb D t).2) ∧
    ok c' ∧ same_hfs ctx ctx'.
Proof.
  intros Hok [H1 H2 H3 H4] HLs Hb D. unfold hfs_readdir.
  pose proof (walk_catalog img inv ok ptr readable ctx H1 H2 (hfs_readdir_cb malloc cb dir (default 0 r0) r0)
    (readdir_cb_inside malloc cb dir (default 0 r0) r0) (lba (extent dir)) fuel c (mk_rc ctx t 0 r0 ODFS_OK odfs_namefix_init) leaves Hok H3 H4) as Hw.
  destruct (run_entries malloc cb dir (default 0 r0) r0 _ odfs_namefix_init L ctx t 0 r0 HLs ltac:(lia) ltac:(lia)) as (rc & Hr & Hcb & Hs & Hle & Hres).
  rewrite Z.sub_0_r in *. fold D in Hr, Hcb, Hle, Hres. rewrite Hr in Hw. destruct Hw as (c' & -> & Hok'). cbn [mbind outcome_bind].
  exists (rc_hctx rc), c'. split_and!; [|done..]. rewrite Hle, Hcb. destruct (err_ok (run cb D t).1) eqn:He; cbn [negb].
  - do 3 f_equal. rewrite Hres. by destruct r0.
  - rewrite Hres. by destruct r0.
Qed.

(** Names are C strings that fit. *)
Lemma amiga_char_name l : is_name l → is_name (map amiga_char l).
Proof.
  intros Hl. apply Forall_map. eapply Forall_impl; [exact Hl|]. intros b Hb. unfold amiga_char. simpl in *. repeat case_test; lia.
Qed.
Lemma name_to_utf8_ok src : Forall is_byte src → node_name_ok (hfs_name_to_utf8 src ODFS_NAME_MAX).
Proof.
  intros Hs. unfold hfs_name_to_utf8, odfs_mac_roman_to_utf8. change (ODFS_NAME_MAX =? 0) with false. cbv iota. cbn [snd].
  destruct (mac_roman_name src Hs) as [Hn Hl]. set (out := mac_roman_loop _ _ _) in *. change (default [] (Some out)) with out. split.
  - apply amiga_char_name. rewrite c_str_id; [done|]. eapply Forall_impl; [exact Hn|]. simpl. lia.
  - rewrite length_map. pose proof (length_c_str out). lia.
Qed.
Lemma key_name_ok key : Forall is_byte key → after (hfs_key_name key) node_name_ok.
Proof.
  intros Hk. unfold hfs_key_name. assert (Hnil : node_name_ok []) by (split; [constructor|done]).
  case_test; [|by apply after_ret]. eapply after_bind; [apply after_any|]. intros nlen _. case_test; [|by apply after_ret].
  eapply after_bind; [apply lands_after, (lands_range is_byte); exact Hk|]. intros nm [_ Hnm]. by apply after_ret, name_to_utf8_ok.
Qed.
Lemma record_node_name rec_type data len n : after (hfs_record_node rec_type data len n) (λ m, name m = name n ∧ amiga_as m = amiga_as n).
Proof.
  unfold hfs_record_node. case_test; [|case_test; [|by apply after_ret]].
  - do 2 (eapply after_bind; [apply after_any|]; intros ? _). by apply after_ret.
  - do 3 (eapply after_bind; [apply after_any|]; intros ? _). by apply after_ret.
Qed.
Lemma entries_wf recs : ∀ nf L, namefix_wf nf → Forall (λ r, Forall is_byte (cr_key r)) recs → hfs_entries malloc nf recs = Ret L → Forall node_wf L.
Proof.
  induction recs as [|r recs IH]; intros nf L Hnf Hr; cbn [hfs_entries]; [by intros [= <-]|]. apply Forall_cons in Hr as [Hk Hr].
  intros H. apply bind_Ret in H as ([n|] & Ho & H); [|by eapply IH].
  assert (Hn : node_name_ok (name n) ∧ amiga_as n = amiga_as_zero).
  { revert n Ho H. unfold hfs_object. intros n Ho _. destruct (_ <? 1); [done|]. apply bind_Ret in Ho as (ty & _ & Ho).
    destruct (_ && _); [done|]. apply bind_Ret in Ho as (nm & Hnm & Ho). apply bind_Ret in Ho as (m & Hm & [= ->]).
    apply record_node_name in Hm as [-> ->]. split; [by apply (key_name_ok _ Hk)|done]. }
  destruct Hn as [[Hn1 Hn2] Ha]. destruct (odfs_namefix_apply malloc nf (name n) ODFS_NAME_MAX) as [[err nf'] nm] eqn:Hfix. unbind H. injection H as <-.
  apply err_ok_eq in E as ->. destruct (namefix_apply_ok _ _ _ _ _ _ Hnf Hn1 Hn2 Hfix) as (Hnf' & _ & _ & Hn & Hl & _).
  constructor; [|by eapply IH]. split_and!; [done..|]. simpl. by rewrite Ha.
Qed.

(** The bytes of keys are the disc's. *)
Lemma decode_keys ctx n next recs : hfs_decode img ctx n = Ret (CatLeaf next recs) → Forall (λ r, Forall is_byte (cr_key r)) recs.
Proof.
  unfold hfs_decode, node_bytes. destruct (node_at ctx n) as [phys|]; [|done]. case_test; [|done]. set (bytes := disc_bytes _ _ _ _).
  assert (Hb : Forall is_byte bytes) by by apply disc_bytes_bytes. intros H. apply parse_cases in H as (t & nrecs & _ & _ & _ & H & _). revert H.
  generalize 0. generalize (Z.to_nat nrecs) as k. intros k. revert recs. induction k as [|k IH]; intros recs r; cbn [dec_records]; [by intros [= <-]|].
  intros H. unbind H. injection H as <-. constructor; [|by eapply IH]. unfold dec_record in E0. unbind E0. injection E0 as <-. simpl.
  match goal with H : rd_range bytes _ _ = Ret ?key |- Forall _ ?key => exact (proj2 (lands_after _ _ (lands_range is_byte bytes _ _ Hb) _ H)) end.
Qed.
Lemma linked_keys ctx leaves : ∀ cur, cat_linked (hfs_decode img ctx) cur leaves → Forall (λ r, Forall is_byte (cr_key r)) (recs_of leaves).
Proof.
  induction leaves as [|[n recs] leaves IH]; intros cur; [by constructor|]. intros (_ & _ & _ & next & Hd & Hl).
  apply Forall_app. split; [by eapply decode_keys|by eapply IH].
Qed.
Lemma listing_wf fuel ctx leaves cnid L : hfs_volume fuel ctx leaves → hfs_listing leaves cnid = Ret L → Forall node_wf L.
Proof.
  intros [_ _ [_ [first Hl] _] _]. apply entries_wf; [apply namefix_init_wf|]. apply linked_keys in Hl.
  rewrite Forall_forall in Hl |- *. intros r [_ Hr]%list_elem_of_filter. by apply Hl.
Qed.

(** Lookup finds the entry the listing has. *)
Lemma hfs_lookup_run fuel ctx leaves c dir nm L :
  ok c → hfs_volume fuel ctx leaves → hfs_listing leaves (lba (extent dir)) = Ret L → zlen L < 2 ^ 32 → is_name nm →
  ∃ err out ctx' c', hfs_lookup malloc true fuel ctx c dir nm = Ret (err, out, ctx', c') ∧ ok c' ∧ same_hfs ctx ctx' ∧
    face <$> out = listed (map face L) nm ∧ err = match out with Some _ => ODFS_OK | None => ODFS_ERR_NOT_FOUND end.
Proof.
  intros Hok Hv HLs Hb Hnm. destruct (hfs_readdir_run (hfs_lookup_iter nm) fuel ctx leaves c dir None None L Hok Hv HLs Hb) as (ctx' & c' & Hr & Hok' & Hs).
  unfold hfs_lookup. rewrite Hr. cbn [default Z.to_nat]. rewrite drop_0. change (hfs_lookup_iter nm) with (Iso9660.lookup_cb nm).
  rewrite run_lookup; [|done|by apply number_wf; eapply listing_wf]. cbn [mbind outcome_bind].
  rewrite <- (face_number (next_node_id ctx) (id dir) L), <- listed_face.
  destruct (listed _ nm) as [n|]; by eexists _, _, ctx', c'.
Qed.
End disc.
