(* ===== verification/HfsBackend.v ===== *)
(** * The HFS reader as a backend

    The operation table of [backends/hfs/hfs.c], and that it keeps the promises of
    [Reader]: probing and mounting leave the cache in order, a mounted tree has the
    catalog's root directory for its root, enumeration and lookup are those of
    [hfs_listing]. *)
From stdpp Require Import gmap.
From S2P Require Import Prelude Types Strings Namefix Media BlockCache BlockCacheSpec CacheApi Timestamp Backend MetaCache MetaCacheProofs MetaCacheSpec.
From S2P Require Import Mount MountSpec AncestrySpec IsoListing Reader Hfs Catalog HfsNodes HfsListing.
Open Scope Z_scope.

(** [nf_malloc] is for the table of names of an enumeration, [alloc] says whether a node
    buffer can be had, [fuel] bounds the leaves of a walk. *)
Definition hfs_reader {C} {HO : CacheOps C} (nf_malloc : nat → Z → bool) (alloc : bool) (fuel : nat) : reader C hfs_context :=
  mk_reader hfs_probe hfs_mount
    (λ T cb ctx c dir t r, hfs_readdir nf_malloc alloc fuel cb ctx c dir t r)
    (λ ctx c file offset buf len, Ret (hfs_read ctx c file offset buf len)) (hfs_lookup nf_malloc alloc fuel) None (hfs_resolve_parent nf_malloc alloc fuel)
    hfs_get_volume_name hfs_get_volume_size.

Section ops.
Context {M K : Type} (mops : odfs_media_ops M) (put : hfs_context → K) (get : K → option hfs_context) (calloc : gmap Z K → Z).
Context (nf_malloc : nat → Z → bool) (alloc : bool) (fuel : nat).
(* [src: backends/hfs/hfs.c:299-302 hfs_unmount] *)
Definition hfs_unmount : world M (gmap Z K) → Z → outcome (world M (gmap Z K)) := free_context.
(* [src: backends/hfs/hfs.c:849-861 hfs_backend_ops] *)
Definition hfs_backend_ops : odfs_backend_ops (world M (gmap Z K)) :=
  reader_ops put get calloc (hfs_reader (HO := block_cache_ops mops) nf_malloc alloc fuel) ODFS_BACKEND_HFS 0 hfs_unmount.
(** The table of [core/mount.c] with it, and [others] for the rest. *)
Definition hfs_backends (others : Z → odfs_backend_ops (world M (gmap Z K))) (p : Z) : odfs_backend_ops (world M (gmap Z K)) :=
  if p =? 4 then hfs_backend_ops else others p.
End ops.

(** ** The cache stays in order *)
Section keeps.
Context {C : Type} {HO : CacheOps C} (img : Z → list Z) (inv ok : C → Prop) (ptr : C → Z → Prop).
Context {HL : CacheLaws C img 2048 inv ok ptr} {HF : CacheCleanFailure C ok ptr}.

Lemma read_keeps c lba err p c' : ok c → is_u32 lba → bc_read c lba = (err, p, c') → ok c'.
Proof.
  intros Hok Hl He. destruct (decide (err = ODFS_OK)) as [->|Hne].
  - by destruct (cl_read_ok c lba p c' Hok Hl He).
  - by destruct (cl_read_failed c lba err p c' Hok Hl He Hne).
Qed.
Lemma node_loop_keeps fuel : ∀ c l off n buf, ok c → is_u32 l → after (read_node_loop fuel c l off n buf) (λ '(_, _, c'), ok c').
Proof.
  induction fuel as [|fuel IH]; intros c l off n buf Hok Hl; cbn [read_node_loop]; (case_test; [by apply after_ret|]); [done|].
  destruct (bc_read c l) as [[err p] c1] eqn:Hr. pose proof (read_keeps _ _ _ _ _ Hok Hl Hr) as Hok1. case_test; [by apply after_ret|].
  eapply after_bind; [apply after_any|]. intros d _. apply IH; [done|apply u32_range].
Qed.
Lemma read_node_keeps ctx c n : ok c → after (hfs_read_node ctx c n) (λ '(_, _, c'), ok c').
Proof.
  intros Hok. unfold hfs_read_node. generalize 0. induction (cat_extents ctx) as [|e exts IH]; intros off; cbn [read_node_extents]; [by apply after_ret|].
  cbv zeta. destruct (_ <? _); [|apply IH]. apply node_loop_keeps; [done|apply u32_range].
Qed.
Lemma probe_keeps c s : ok c → is_u32 s → after (hfs_probe c s) (λ '(_, c'), ok c').
Proof.
  intros Hok Hs. unfold hfs_probe. destruct (bc_read c s) as [[err p] c1] eqn:Hr. pose proof (read_keeps _ _ _ _ _ Hok Hs Hr) as Hok1.
  case_test; [by apply after_ret|]. eapply after_bind; [apply after_any|]. intros sig _. case_test; [by apply after_ret|].
  eapply after_bind; [apply after_any|]. intros sig2 _. case_test; [|by apply after_ret].
  eapply after_bind; [apply after_any|]. intros ty _. case_test; [|by apply after_ret].
  eapply after_bind; [apply after_any|]. intros ps _. destruct (bc_read c1 _) as [[err2 p2] c2] eqn:Hr2.
  pose proof (read_keeps _ _ _ _ _ Hok1 (u32_range _) Hr2). case_test; [by apply after_ret|].
  eapply after_bind; [apply after_any|]. intros ? _. by apply after_ret.
Qed.
Lemma find_mdb_keeps c s : ok c → is_u32 s → after (hfs_find_mdb c s) (λ '(_, _, _, _, c'), ok c').
Proof.
  intros Hok Hs. unfold hfs_find_mdb. destruct (bc_read c s) as [[err p] c1] eqn:Hr. pose proof (read_keeps _ _ _ _ _ Hok Hs Hr) as Hok1.
  case_test; [by apply after_ret|]. eapply after_bind; [apply after_any|]. intros sig _. case_test; [by apply after_ret|].
  eapply after_bind; [apply after_any|]. intros sig2 _. case_test; [|by apply after_ret].
  eapply after_bind; [apply after_any|]. intros ty _. case_test; [by apply after_ret|].
  eapply after_bind; [apply after_any|]. intros ps _. destruct (bc_read c1 _) as [[err2 p2] c2] eqn:Hr2.
  pose proof (read_keeps _ _ _ _ _ Hok1 (u32_range _) Hr2). case_test; [by apply after_ret|].
  eapply after_bind; [apply after_any|]. intros ? _. case_test; by apply after_ret.
Qed.

(** The root of a mounted volume is the catalog's root directory. *)
Definition hfs_mounted (r : odfs_node) (ctx : hfs_context) : Prop :=
  root ctx = r ∧ ∃ t, r = hfs_dir_node HFS_CNID_ROOT_DIR [47] t.
Lemma mount_keeps a c s : ok c → is_u32 s → after (hfs_mount a c s) (λ '(err, r, c'), ok c' ∧
  match r with Some (root, ctx) => err = ODFS_OK ∧ a = true ∧ hfs_mounted root ctx | None => err ≠ ODFS_OK end).
Proof.
  intros Hok Hs. unfold hfs_mount. destruct a; cbn [negb]; [|by apply after_ret].
  eapply after_bind; [by apply find_mdb_keeps|]. intros [[[[err p] off] vs] c1] Hok1.
  case_test; [apply after_ret; split; [done|]; by apply err_ok_false, negb_true_iff|].
  eapply after_bind; [apply after_any|]. intros ctx _. eapply after_bind; [by apply read_node_keeps|]. intros [[err2 hdr] c2] Hok2.
  case_test; [apply after_ret; split; [done|]; by apply err_ok_false, negb_true_iff|].
  eapply after_bind; [apply after_any|]. intros ty _. case_test; [by apply after_ret|].
  do 3 (eapply after_bind; [apply after_any|]; intros ? _). case_test; [by apply after_ret|].
  eapply after_bind; [apply after_any|]. intros ls _. apply after_ret. split_and!; try done. split; [done|]. by eexists.
Qed.
End keeps.

(** ** The promises *)
Section laws.
Context {C : Type} {HO : CacheOps C} (img : Z → list Z) (inv ok : C → Prop) (ptr : C → Z → Prop) (readable : Z → Prop).
Context {HL : CacheLaws C img 2048 inv ok ptr}.
Context (nf_malloc : nat → Z → bool) (fuel : nat).

Lemma hfs_laws {HF : CacheCleanFailure C ok ptr} alloc : ReaderLaws (hfs_reader nf_malloc alloc fuel) ok hfs_mounted same_hfs.
Proof.
  split.
  - intros c s Hok Hs. by apply (probe_keeps img inv ok ptr).
  - intros a c s Hok Hs. by apply (mount_keeps img inv ok ptr).
  - intros ctx. exists (next_node_id ctx). by destruct ctx.
  - apply same_hfs_trans.
  - intros r a b [k ->] [H1 H2]. done.
Qed.

Context {HR : CacheReadable C ok readable} (Hbytes : ∀ l, Forall is_byte (img l)).
Context (ctx0 : hfs_context) (leaves : list (Z * list cat_rec)) (Hvol : hfs_volume img readable fuel ctx0 leaves).
(** A directory whose names can be made unique, of less than [2 ^ 31] entries. *)
Definition hfs_listable (dir : odfs_node) : Prop :=
  ∃ L, hfs_listing nf_malloc leaves (lba (extent dir)) = Ret L ∧ zlen L < 2 ^ 31.
Definition hfs_faces (cnid _ : Z) (_ : odfs_backend_type) : list odfs_node :=
  match hfs_listing nf_malloc leaves cnid with Ret L => map face L | _ => [] end.
(** An offset is the number of entries delivered. *)
Definition hfs_stands (k : Z * Z * odfs_backend_type) (c : Z) (i : nat) : Prop :=
  c = Z.of_nat i ∧ c < 2 ^ 31 ∧ (i ≤ length (hfs_faces k.1.1 k.1.2 k.2))%nat.

Lemma hfs_lists : ReaderLists (hfs_reader nf_malloc true fuel) ok same_hfs ctx0 hfs_listable hfs_faces hfs_stands.
Proof.
  split.
  - intros T cb ctx c dir t r0 i Hok Hs (L & HLs & Hlen) (Hc & Hi & Hle).
    destruct (hfs_readdir_run img inv ok ptr readable nf_malloc cb fuel ctx leaves c dir t r0 L Hok (hfs_volume_same img readable _ _ _ _ Hs Hvol) HLs ltac:(lia))
      as (ctx' & c' & Hr & Hok' & Hs'). rewrite Hc, Nat2Z.id in Hr.
    set (N := number (next_node_id ctx) (id dir) L) in *. pose proof (delivered_le cb (drop i N) t) as Hd.
    assert (HN : length N = length L) by apply length_number.
    assert (Hf : hfs_faces (lba (extent dir)) (length_ (extent dir)) (backend dir) = map face L) by (unfold hfs_faces; by rewrite HLs).
    unfold hfs_stands in Hle. cbn [fst snd node_key] in Hle. rewrite Hf, length_map in Hle.
    eexists N, _, ctx', c'. split; [exact Hr|]. split_and!; [done|done|by rewrite Hf, <- (face_number (next_node_id ctx) (id dir) L)| |..].
    + apply number_wf. by eapply listing_wf.
    + unfold hfs_stands. cbn [fst snd node_key]. rewrite Hf, length_map. rewrite length_drop in Hd.
      destruct (err_ok (run cb (drop i N) t).1) eqn:He; [apply delivered_all in He; rewrite length_drop in He|]; lia.
  - intros ctx c dir nm Hok Hs (L & HLs & Hlen) Hnm.
    destruct (hfs_lookup_run img inv ok ptr readable Hbytes nf_malloc fuel ctx leaves c dir nm L Hok (hfs_volume_same img readable _ _ _ _ Hs Hvol) HLs ltac:(lia) Hnm)
      as (err & out & ctx' & c' & Hr & Hok' & Hs' & Hf & He). exists err, out, ctx', c'. split_and!; try done. unfold hfs_faces. by rewrite HLs.
  - intros k. unfold hfs_stands. split; [done|]. split; lia.
  - intros k c i (-> & Hc & _). split; [lia|]. split; [apply untagged; lia|lia].
Qed.
End laws.
