(* ===== verification/HfsParents.v ===== *)
(** * Parents on an HFS volume

    The catalog has a thread record for every directory with the number of the directory
    it is in.  The parent of a directory is the entry with that number, found among the
    entries of the directory the parent's own thread names. *)
From S2P Require Import Prelude Types Strings Namefix Media CacheApi Backend MetaCache MetaCacheProofs MetaCacheSpec.
From S2P Require Import Reader Hfs Catalog HfsNodes HfsListing.
Open Scope Z_scope.

(** The first thread among a directory's records. *)
Fixpoint thread_of (recs : list cat_rec) : outcome (option Z) :=
  match recs with
  | [] => Ret None
  | r :: recs =>
      if zlen (cr_data r) <? 14 then thread_of recs
      else
        type ← rd (cr_data r) 0;
        if negb (type =? HFS_CAT_DTHREAD) then thread_of recs else p ← hfs_be32 (cr_data r) 10; Ret (Some p)
  end.
Lemma thread_cb_inside : looks_inside hfs_thread_cb.
Proof. intros key mem len info Hl. unfold hfs_thread_cb. case_test; [done|]. b2p. by rewrite rd_take, be32_take by lia. Qed.
Lemma thread_run recs o : thread_of recs = Ret o →
  run_records hfs_thread_cb recs None = Ret (match o with Some _ => ODFS_ERR_EOF | None => ODFS_OK end, o).
Proof.
  induction recs as [|r recs IH]; cbn [thread_of run_records]; [by intros [= <-]|]. intros H.
  assert (Hcb : ∀ key data len i, hfs_thread_cb key data len i = ltac:(let t := eval unfold hfs_thread_cb in (hfs_thread_cb key data len i) in exact t)) by done.
  rewrite Hcb. clear Hcb. destruct (_ <? 14); [by apply IH|].
  apply bind_Ret in H as (ty & -> & H). cbn [mbind outcome_bind]. destruct (negb _); [by apply IH|].
  apply bind_Ret in H as (p & -> & [= <-]). done.
Qed.
Lemma run_match d L : run (hfs_cnid_match_cb d) L None = match by_number L d with Some n => (ODFS_ERR_EOF, Some n) | None => (ODFS_OK, None) end.
Proof.
  induction L as [|n L IH]; [done|]. cbn [run]. unfold hfs_cnid_match_cb at 1, by_number. cbn [List.find].
  destruct (_ && _); [done|]. exact IH.
Qed.

(** ** The search

    The HFS and the HFS+ reader go about it in the same way: [read_thread] gives the
    directory another is in, [find_child] the entry of a directory with a number. *)
Section search.
Context {C Ctx : Type} (read_thread : Ctx → C → Z → outcome (odfs_err * Z * C))
  (find_child : Ctx → C → odfs_node → Z → outcome (odfs_err * option odfs_node * Ctx * C))
  (root_of : Ctx → odfs_node) (dir_at : Ctx → Z → odfs_node).
Definition resolve_with (ctx : Ctx) (c : C) (dir : odfs_node) (want_gp : bool)
    : outcome (odfs_err * option odfs_node * option odfs_node * Ctx * C) :=
  if negb (bool_decide (kind dir = ODFS_NODE_DIR)) then Ret (ODFS_ERR_NOT_DIR, None, None, ctx, c)
  else if lba (extent dir) =? HFS_CNID_ROOT_DIR then Ret (ODFS_ERR_NOT_FOUND, None, None, ctx, c)
  else
    '(err, parent, c) ← read_thread ctx c (lba (extent dir));
    if negb (err_ok err) then Ret (err, None, None, ctx, c)
    else if parent =? HFS_CNID_ROOT_DIR
    then Ret (ODFS_OK, Some (root_of ctx), if want_gp then Some (root_of ctx) else None, ctx, c)
    else
      '(err, gp, c) ← read_thread ctx c parent;
      if negb (err_ok err) then Ret (err, None, None, ctx, c)
      else
        '(err, parent_out, ctx, c) ← find_child ctx c (dir_at ctx gp) parent;
        if negb (err_ok err) || negb want_gp then Ret (err, parent_out, None, ctx, c)
        else if gp =? HFS_CNID_ROOT_DIR then Ret (ODFS_OK, parent_out, Some (root_of ctx), ctx, c)
        else
          '(err, ggp, c) ← read_thread ctx c gp;
          if negb (err_ok err) then Ret (err, parent_out, None, ctx, c)
          else
            '(err, gp_out, ctx, c) ← find_child ctx c (dir_at ctx ggp) gp;
            Ret (err, parent_out, gp_out, ctx, c).

(** [is_in d p]: the directory [d] is in [p]; [listing] gives the entries of one. *)
Context (is_in : Z → Z → Prop) (listing : Z → outcome (list odfs_node)) (bound : Z).
(** The directory [d] as a listing shows it, or as the root. *)
Definition shown_as (root : odfs_node) (d : Z) (n : odfs_node) : Prop :=
  d = HFS_CNID_ROOT_DIR ∧ n = face root ∨
  d ≠ HFS_CNID_ROOT_DIR ∧ ∃ p L, is_in d p ∧ listing p = Ret L ∧ zlen L < bound ∧ by_number (map face L) d = Some n.

Context (ok : C → Prop) (same : Ctx → Ctx → Prop) (volume : Ctx → Prop).
Context (Hrefl : ∀ ctx, same ctx ctx) (Htrans : ∀ a b c, same a b → same b c → same a c).
Context (Hsame : ∀ a b, same a b → volume a → volume b ∧ root_of b = root_of a).
Context (Hfun : ∀ d p p', is_in d p → is_in d p' → p = p').
Context (Hat : ∀ ctx p, lba (extent (root_of ctx)) = HFS_CNID_ROOT_DIR → lba (extent (dir_at ctx p)) = p).
Context (Hthread : ∀ ctx c d p, ok c → volume ctx → is_in d p → ∃ c', read_thread ctx c d = Ret (ODFS_OK, p, c') ∧ ok c').
Context (Hchild : ∀ ctx c dir d L n, ok c → volume ctx → listing (lba (extent dir)) = Ret L → zlen L < bound →
  by_number (map face L) d = Some n →
  ∃ m ctx' c', find_child ctx c dir d = Ret (ODFS_OK, Some m, ctx', c') ∧ ok c' ∧ same ctx ctx' ∧ face m = n).

(** A directory other than the root, found through its thread. *)
Lemma find_shown ctx c d p n : ok c → volume ctx → lba (extent (root_of ctx)) = HFS_CNID_ROOT_DIR → d ≠ HFS_CNID_ROOT_DIR →
  is_in d p → shown_as (root_of ctx) d n →
  ∃ m ctx' c', find_child ctx c (dir_at ctx p) d = Ret (ODFS_OK, Some m, ctx', c') ∧ ok c' ∧ same ctx ctx' ∧ face m = n.
Proof using Hfun Hat Hchild.
  intros Hok Hv Hroot Hd Hp [[? _]|(_ & p' & L & Hp' & HLs & Hb & Hn)]; [done|]. rewrite <- (Hfun _ _ _ Hp Hp') in HLs.
  eapply Hchild; try done. by rewrite Hat.
Qed.
Lemma resolve_with_run ctx c dir want_gp p n g gn : ok c → volume ctx → lba (extent (root_of ctx)) = HFS_CNID_ROOT_DIR →
  kind dir = ODFS_NODE_DIR → lba (extent dir) ≠ HFS_CNID_ROOT_DIR →
  is_in (lba (extent dir)) p → shown_as (root_of ctx) p n →
  (if p =? HFS_CNID_ROOT_DIR then gn = face (root_of ctx) else is_in p g ∧ shown_as (root_of ctx) g gn) →
  ∃ pn gpn ctx' c', resolve_with ctx c dir want_gp = Ret (ODFS_OK, Some pn, gpn, ctx', c') ∧ ok c' ∧ same ctx ctx' ∧
    face pn = n ∧ face <$> gpn = if want_gp then Some gn else None.
Proof using Hrefl Htrans Hsame Hfun Hat Hthread Hchild.
  intros Hok Hv Hroot Hk Hd Hp Hn Hg. unfold resolve_with. rewrite bool_decide_true by done. cbn [negb]. rewrite (proj2 (Z.eqb_neq _ _)) by done.
  destruct (Hthread ctx c _ p Hok Hv Hp) as (c1 & -> & Hok1). cbn [mbind outcome_bind]. change (negb (err_ok ODFS_OK)) with false. cbv iota.
  destruct (p =? HFS_CNID_ROOT_DIR) eqn:Er; b2p.
  { destruct Hn as [[_ ->]|[? _]]; [|done]. eexists _, _, ctx, c1. split_and!; [done..|]. by destruct want_gp; [rewrite Hg|]. }
  destruct Hg as [Hpg Hg]. destruct (Hthread ctx c1 p g Hok1 Hv Hpg) as (c2 & -> & Hok2). cbn [mbind outcome_bind].
  change (negb (err_ok ODFS_OK)) with false. cbv iota.
  destruct (find_shown ctx c2 p g n Hok2 Hv Hroot Er Hpg Hn) as (m & ctx' & c3 & -> & Hok3 & Hs & Hm). cbn [mbind outcome_bind].
  change (negb (err_ok ODFS_OK)) with false. cbn [orb]. destruct want_gp; cbn [negb]; [|by exists m, None, ctx', c3].
  destruct (Hsame _ _ Hs Hv) as [Hv' Hr'].
  destruct (g =? HFS_CNID_ROOT_DIR) eqn:Eg; b2p.
  { destruct Hg as [[_ ->]|[? _]]; [|done]. exists m, (Some (root_of ctx')), ctx', c3. split_and!; [done..|]. simpl. by rewrite Hr'. }
  pose proof Hg as Hg'. destruct Hg' as [[? _]|(_ & gg & _ & Hgg & _)]; [done|].
  destruct (Hthread ctx' c3 g gg Hok3 Hv' Hgg) as (c4 & -> & Hok4). cbn [mbind outcome_bind]. change (negb (err_ok ODFS_OK)) with false. cbv iota.
  rewrite <- Hr' in Hroot, Hg. destruct (find_shown ctx' c4 g gg gn Hok4 Hv' Hroot Eg Hgg Hg) as (gm & ctx2 & c5 & -> & Hok5 & Hs2 & Hgm). cbn [mbind outcome_bind].
  exists m, (Some gm), ctx2, c5. split_and!; [done..|by eapply Htrans|done|]. simpl. by rewrite Hgm.
Qed.
End search.

Section parents.
Context {C : Type} {HO : CacheOps C} (img : Z → list Z) (inv ok : C → Prop) (ptr : C → Z → Prop) (readable : Z → Prop).
Context {HL : CacheLaws C img 2048 inv ok ptr} {HR : CacheReadable C ok readable}.
Context (malloc : nat → Z → bool) (fuel : nat) (leaves : list (Z * list cat_rec)).
Abbreviation volume ctx := (hfs_volume img readable fuel ctx leaves).

(** The directory [d] is in [p]. *)
Definition is_in (d p : Z) : Prop := thread_of (of_dir d (recs_of leaves)) = Ret (Some p).
Abbreviation shown := (shown_as is_in (hfs_listing malloc leaves) (2 ^ 32)).

Lemma read_thread_run ctx c d p : ok c → volume ctx → is_in d p →
  ∃ c', hfs_read_thread true fuel ctx c d = Ret (ODFS_OK, p, c') ∧ ok c'.
Proof.
  intros Hok [H1 H2 H3 H4] Hp. unfold hfs_read_thread.
  pose proof (walk_catalog img inv ok ptr readable ctx H1 H2 hfs_thread_cb thread_cb_inside d fuel c None leaves Hok H3 H4) as Hw.
  rewrite (thread_run _ _ Hp) in Hw. destruct Hw as (c' & -> & Hok'). by exists c'.
Qed.
Lemma find_child_run ctx c dir d L n : ok c → volume ctx → hfs_listing malloc leaves (lba (extent dir)) = Ret L → zlen L < 2 ^ 32 →
  by_number (map face L) d = Some n →
  ∃ m ctx' c', hfs_find_child_by_cnid malloc true fuel ctx c dir d = Ret (ODFS_OK, Some m, ctx', c') ∧ ok c' ∧ same_hfs ctx ctx' ∧ face m = n.
Proof.
  intros Hok Hv HLs Hb Hn. unfold hfs_find_child_by_cnid.
  destruct (hfs_readdir_run img inv ok ptr readable malloc (hfs_cnid_match_cb d) fuel ctx leaves c dir None None L Hok Hv HLs Hb) as (ctx' & c' & -> & Hok' & Hs).
  cbn [default Z.to_nat]. rewrite drop_0, run_match.
  rewrite <- (face_number (next_node_id ctx) (id dir) L), <- by_number_face in Hn. apply fmap_Some in Hn as (m & -> & ->). by exists m, ctx', c'.
Qed.

Lemma resolve_parent_run ctx c dir want_gp p n g gn : ok c → volume ctx → lba (extent (root ctx)) = HFS_CNID_ROOT_DIR →
  kind dir = ODFS_NODE_DIR → lba (extent dir) ≠ HFS_CNID_ROOT_DIR →
  is_in (lba (extent dir)) p → shown (root ctx) p n →
  (if p =? HFS_CNID_ROOT_DIR then gn = face (root ctx) else is_in p g ∧ shown (root ctx) g gn) →
  ∃ pn gpn ctx' c', hfs_resolve_parent malloc true fuel ctx c dir want_gp = Ret (ODFS_OK, Some pn, gpn, ctx', c') ∧ ok c' ∧ same_hfs ctx ctx' ∧
    face pn = n ∧ face <$> gpn = if want_gp then Some gn else None.
Proof.
  change (hfs_resolve_parent malloc true fuel) with
    (resolve_with (hfs_read_thread true fuel) (hfs_find_child_by_cnid malloc true fuel) root hfs_dir_at).
  apply (resolve_with_run _ _ _ _ _ _ _ _ _ (λ ctx, volume ctx)).
  - intros a. exists (next_node_id a). by destruct a.
  - apply same_hfs_trans.
  - intros a b Hs Hv. split; [by eapply hfs_volume_same|by destruct Hs as [k ->]].
  - unfold is_in. intros d q q' ->. by intros [= ->].
  - intros a q Hr. unfold hfs_dir_at. case_test; b2p; [by rewrite Hr; subst q|done].
  - apply read_thread_run.
  - apply find_child_run.
Qed.
End parents.
