(* ===== verification/HfsSpec.v ===== *)
(** * HFS volumes

    A small disc, and the theorems about volumes: paths and files on a mounted volume
    are those of the catalog's listings; what a file in pieces reads as; where a
    hostile catalog leads. *)
From stdpp Require Import gmap strings.
From S2P Require Import Prelude Types Strings Namefix Media BlockCache BlockCacheProofs BlockCacheRead BlockCacheSpec CacheApi Timestamp Charset.
From S2P Require Import Backend MetaCache MetaCacheProofs MetaCacheSpec Session Mount MountProofs MountSpec AncestrySpec IsoVolume.
From S2P Require Import Reader Discs Hfs Catalog HfsNodes HfsListing HfsBackend HfsParents.
Open Scope Z_scope.

(** ** Writing volumes *)

Definition even_pad (l : list Z) : list Z := if Z.even (zlen l) then l else l ++ [0].
Definition hfs_make_key (parent : Z) (nm : list Z) : list Z := even_pad ([6 + zlen nm; 0] ++ be32_bytes parent ++ zlen nm :: nm).
(** Keys of index nodes have their full length. *)
Definition hfs_make_index (parent : Z) (nm : list Z) (child : Z) : list Z :=
  [37; 0] ++ be32_bytes parent ++ zlen nm :: pad_to 31 nm ++ be32_bytes child.
Definition hfs_make_node : Z → Z → list (list Z) → list Z := make_node 512.
Definition hfs_make_thread (parent : Z) : list Z := fields 46 [(0, [HFS_CAT_DTHREAD]); (10, be32_bytes parent)].
Definition hfs_make_dir (cnid : Z) : list Z := fields 70 [(0, [HFS_CAT_DIR]); (6, be32_bytes cnid)].
Definition hfs_make_file (sz : Z) (exts : list Z) : list Z :=
  fields 102 [(0, [HFS_CAT_FILE]); (26, be32_bytes sz); (74, concat (map be16_bytes exts))].

(** A volume [Demo] with [/a.txt], [/Sub], [/Sub/Deep] and [/Sub/two], which is in two
    pieces; the catalog has two extents. *)
Definition hfs_demo_nodes : list (list Z) :=
  [ fields 512 [(8, [HFS_NODE_HEADER]); (16, be32_bytes 1); (24, be32_bytes 2); (32, be16_bytes 512)];
    hfs_make_node HFS_NODE_INDEX 0 [hfs_make_index 1 (str "Demo") 2; hfs_make_index 2 (str "Sub") 3];
    hfs_make_node HFS_NODE_LEAF 3
      [hfs_make_key 1 (str "Demo") ++ hfs_make_dir 2; hfs_make_key 2 [] ++ hfs_make_thread 1; hfs_make_key 2 (str "a.txt") ++ hfs_make_file 5 [8; 1; 0; 0; 0; 0]];
    hfs_make_node HFS_NODE_LEAF 0
      [hfs_make_key 2 (str "Sub") ++ hfs_make_dir 16; hfs_make_key 16 [] ++ hfs_make_thread 2; hfs_make_key 16 (str "Deep") ++ hfs_make_dir 17;
       hfs_make_key 16 (str "two") ++ hfs_make_file 516 [9; 1; 11; 1; 0; 0]; hfs_make_key 17 [] ++ hfs_make_thread 16] ].
Definition hfs_demo_mdb : list Z :=
  fields 512 [(0, be16_bytes HFS_MDB_SIG); (18, be16_bytes 32); (20, be32_bytes 512); (28, be16_bytes 4);
    (36, 4 :: str "Demo"); (146, be32_bytes 2048); (150, concat (map be16_bytes [0; 2; 4; 2; 0; 0]))].
(** Allocation blocks of 512 bytes begin with sector 1. *)
Definition hfs_demo_blocks : list (list Z) :=
  let n i := default [] (hfs_demo_nodes !! i) in
  [n 0%nat; n 1%nat; []; []; n 2%nat; n 3%nat; []; []; str "Hello"; replicate 512 65; replicate 512 66; replicate 512 67; []; []; []; []].
Definition hfs_demo_image : list Z := replicate 1024 0 ++ hfs_demo_mdb ++ replicate 512 0 ++ concat (map (pad_to 512) hfs_demo_blocks).
Definition hfs_demo_disc : Z → list Z := sectors_of hfs_demo_image.
Definition hfs_demo_medium : odfs_media_ops unit := image_ops hfs_demo_disc 100 2048.

(** ** Reading files *)

(** The data fork with the extents [exts]. *)
Definition fork_bytes (img : Z → list Z) (ctx : hfs_context) (exts : list hfs_extent) : list Z :=
  concat (map (λ e, disc_bytes img 2048 (hfs_ab_to_byte ctx (start_ab e)) (num_ab e * alloc_block_size ctx)) exts).
Lemma fork_first img ctx e rest off n : 0 ≤ off → 0 ≤ n → off + n ≤ num_ab e * alloc_block_size ctx →
  slice (fork_bytes img ctx (e :: rest)) off n = disc_bytes img 2048 (hfs_ab_to_byte ctx (start_ab e) + off) n.
Proof.
  intros Ho Hn Hb. unfold fork_bytes. cbn [map concat]. pose proof (length_disc_bytes img 2048 (hfs_ab_to_byte ctx (start_ab e)) (num_ab e * alloc_block_size ctx) ltac:(lia)) as Hl.
  rewrite slice_app_l by lia. by apply slice_disc_bytes.
Qed.

Section read.
Context {C : Type} {HO : CacheOps C} (img : Z → list Z) (inv ok : C → Prop) (ptr : C → Z → Prop).
Context {HL : CacheLaws C img 2048 inv ok ptr}.
(** A read gives what follows the first block of the file on the disc. *)
Lemma hfs_read_run ctx c file offset buf len err buf' n c' :
  ok c → 0 ≤ lba (extent file) < 2 ^ 16 → 0 ≤ hfs_ab_to_byte ctx (lba (extent file)) → hfs_ab_to_byte ctx (lba (extent file)) + size file ≤ 2 ^ 43 →
  0 ≤ offset → 0 ≤ len ≤ zlen buf → hfs_read ctx c file offset buf len = (err, buf', n, c') →
  0 ≤ n ≤ len ∧ (err = ODFS_OK → n = Z.max 0 (Z.min len (size file - offset)) ∧
    take (Z.to_nat n) buf' = disc_bytes img 2048 (hfs_ab_to_byte ctx (lba (extent file)) + offset) n ∧ drop (Z.to_nat n) buf' = drop (Z.to_nat n) buf).
Proof.
  intros Hok Hl H0 Hfit Ho Hlen. unfold hfs_read. unfold u16. rewrite Z.mod_small by lia.
  case_test; b2p.
  - intros [= <- <- <- <-]. split; [lia|]. intros _. split_and!; [lia|done|done].
  - set (want := if size file - offset <? len then size file - offset else len).
    assert (Hw : want = Z.min len (size file - offset)) by (unfold want; case_test; b2p; lia). intros Hr.
    destruct (cl_read_bytes (ok := ok) c 0 (hfs_ab_to_byte ctx (lba (extent file)) + offset) buf want err buf' n c' Hok ltac:(done) ltac:(lia) ltac:(lia) ltac:(dlia) Hr) as (_ & Hn & _ & _ & Hd).
    split; [lia|]. intros He. destruct (Hd He) as (_ & -> & ->). rewrite Z.mul_0_l, Z.add_0_l in *.
    pose proof (length_disc_bytes img 2048 (hfs_ab_to_byte ctx (lba (extent file)) + offset) want ltac:(lia)) as Hlb.
    split_and!; [lia|apply take_app_length'; lia|apply drop_app_length'; lia].
Qed.
End read.

(** ** Properties *)
Section properties.
Context {M K : Type} (mops : odfs_media_ops M) (img : Z → list Z) (put : hfs_context → K) (get : K → option hfs_context) (calloc : gmap Z K → Z)
  (nf_malloc : nat → Z → bool) (fuel : nat) (others : Z → odfs_backend_ops (world M (gmap Z K))).
Definition hfs_rd : reader (odfs_cache M) hfs_context := hfs_reader (HO := block_cache_ops mops) nf_malloc true fuel.
(** A volume mounted from [m] by this backend, its catalog well formed and readable;
    [dirs] are the directories of the tree. *)
Record hfs_mount_of (m : M) (mnt : odfs_mount_t) (w : world M (gmap Z K)) (ctx : hfs_context) (leaves : list (Z * list cat_rec))
    (dirs : odfs_node → Prop) : Prop := {
  hm_store : ∀ c, get (put c) = Some c;
  hm_mount : mount_of mops img put get calloc hfs_rd 4 ODFS_BACKEND_HFS 0 others m mnt w ctx;
  hm_volume : hfs_volume img (medium_readable mops 2048) fuel ctx leaves;
  hm_tree : tree_of (hfs_listable nf_malloc leaves) (hfs_faces nf_malloc leaves) (mnt_root mnt) dirs }.
End properties.

(** [C35] Resolving a path on a mounted HFS volume is walking the listings of its
    catalog: from the root directory, each name is looked up among the records of the
    directory that the B-tree holds, wherever in the leaves they lie and whatever the
    caches hold; the answer is that of the walk, error or node. *)
Theorem hfs_volume_resolves {M K} (mops : odfs_media_ops M) img put get (calloc : gmap Z K → Z) nf_malloc fuel others m mnt w ctx leaves dirs
    meta_malloc path :
  let be := hfs_backends mops put get calloc nf_malloc true fuel others in
  MediaReads mops img 2048 → CleanFailure mops → (∀ l, Forall is_byte (img l)) →
  hfs_mount_of mops img put get calloc nf_malloc fuel others m mnt w ctx leaves dirs → is_name path →
  ∃ err out mnt' w', odfs_resolve_path be meta_malloc mnt w path = Ret (err, out, mnt', w') ∧ cache_ok img 2048 (w_cache w') ∧
    (err, face <$> out) = walk be (hfs_faces nf_malloc leaves) mnt (mnt_root mnt) (components path []).
Proof.
  intros be Hmedia Hclean Hb [Hst Hm Hv Ht] Hp.
  pose proof (block_cache_laws mops img 2048 Hmedia eq_refl) as HL. pose proof (block_cache_clean mops img 2048 Hmedia Hclean) as HF.
  pose proof (block_cache_readable mops img 2048 Hmedia) as HR.
  pose proof (hfs_laws img _ _ _ nf_malloc fuel true (HL := HL)) as HRL.
  pose proof (hfs_lists img _ _ _ _ nf_malloc fuel Hb ctx leaves Hv (HL := HL)) as HRS.
  destruct (reader_resolves mops img put get calloc (hfs_rd mops nf_malloc fuel) hfs_mounted same_hfs Hst 4 ODFS_BACKEND_HFS 0 others Hmedia m mnt w ctx Hm
    _ _ _ dirs Ht meta_malloc path Hp) as (err & out & mnt' & w' & He & _ & [Hw' _] & Hwk). by exists err, out, mnt', w'.
Qed.

(** Reading a file that a path on an HFS volume was resolved to: as many bytes as were
    asked for and the file has, those that follow its first allocation block on the
    disc; as long as they lie in the first extent of the data fork they are the fork's.
    A failing read claims no more bytes than were asked for. *)
Theorem hfs_volume_reads {M K} (mops : odfs_media_ops M) img put get (calloc : gmap Z K → Z) nf_malloc fuel others m mnt w ctx leaves dirs
    meta_malloc path file mnt' w' offset buf len err buf' n w2 :
  let be := hfs_backends mops put get calloc nf_malloc true fuel others in
  MediaReads mops img 2048 → CleanFailure mops → (∀ l, Forall is_byte (img l)) →
  hfs_mount_of mops img put get calloc nf_malloc fuel others m mnt w ctx leaves dirs → is_name path →
  odfs_resolve_path be meta_malloc mnt w path = Ret (ODFS_OK, Some file, mnt', w') →
  0 ≤ lba (extent file) < 2 ^ 16 → 0 ≤ hfs_ab_to_byte ctx (lba (extent file)) → hfs_ab_to_byte ctx (lba (extent file)) + size file ≤ 2 ^ 43 →
  0 ≤ offset → 0 ≤ len ≤ zlen buf → odfs_read be mnt' w' file offset buf len = Ret (err, buf', n, w2) →
  walk be (hfs_faces nf_malloc leaves) mnt (mnt_root mnt) (components path []) = (ODFS_OK, Some (face file)) ∧ 0 ≤ n ≤ len ∧
  (err = ODFS_OK → n = Z.max 0 (Z.min len (size file - offset)) ∧
    take (Z.to_nat n) buf' = disc_bytes img 2048 (hfs_ab_to_byte ctx (lba (extent file)) + offset) n ∧ drop (Z.to_nat n) buf' = drop (Z.to_nat n) buf ∧
    ∀ e rest, start_ab e = lba (extent file) → offset + n ≤ num_ab e * alloc_block_size ctx →
      take (Z.to_nat n) buf' = slice (fork_bytes img ctx (e :: rest)) offset n).
Proof.
  intros be Hmedia Hclean Hb [Hst Hm Hv Ht] Hp Hres Hl H0 Hfit Ho Hlen Hr.
  pose proof (block_cache_laws mops img 2048 Hmedia eq_refl) as HL. pose proof (block_cache_clean mops img 2048 Hmedia Hclean) as HF.
  pose proof (block_cache_readable mops img 2048 Hmedia) as HR.
  pose proof (hfs_laws img _ _ _ nf_malloc fuel true (HL := HL)) as HRL.
  pose proof (hfs_lists img _ _ _ _ nf_malloc fuel Hb ctx leaves Hv (HL := HL)) as HRS.
  destruct (reader_reads mops img put get calloc (hfs_rd mops nf_malloc fuel) hfs_mounted same_hfs Hst 4 ODFS_BACKEND_HFS 0 others Hmedia m mnt w ctx Hm
    _ _ _ dirs Ht meta_malloc path file mnt' w' offset buf len err buf' n w2 Hp Hres Hr) as (Hwk & Hok & [[Hne ->]|(c & cache' & [k ->] & [= Hrd])]);
    (split; [exact Hwk|]); [split; [lia|done]|].
  destruct (hfs_read_run (HO := block_cache_ops mops) img _ _ _ (HL := HL) (set_next_node_id k ctx) (w_cache w') file offset buf len err buf' n cache' Hok Hl H0 Hfit Ho Hlen Hrd) as [Hn Hd].
  split; [done|]. intros Hok'. destruct (Hd Hok') as (Hn' & Hbytes & Hdrop). split_and!; [done..|].
  intros e rest He Hfork. rewrite fork_first by lia. by rewrite He.
Qed.

(** *** The disc *)
Definition hfs_demo_be : Z → odfs_backend_ops (world unit (gmap Z hfs_context)) :=
  hfs_backends hfs_demo_medium (λ c, c) Some single_context enough_memory true 2 no_reader.
Definition hfs_demo_mounted := odfs_mount hfs_demo_medium hfs_demo_be (λ _, true) 300 toc_zero blank_sector tt ∅ (Some demo_opts).
Definition hfs_demo_mnt : odfs_mount_t := match hfs_demo_mounted with Ret (_, mnt, _) => mnt | _ => mount_zero end.
Definition hfs_demo_world : world unit (gmap Z hfs_context) := match hfs_demo_mounted with Ret (_, _, w) => w | _ => mk_world (cache_zero tt) ∅ end.
Definition hfs_demo_ctx : hfs_context := Eval vm_compute in
  match w_heap hfs_demo_world !! 1 with Some c => c | _ => mk_hfs 0 0 0 0 [] 0 [] 0 0 0 0 node_zero end.
(* /Sub/two *)
Definition hfs_demo_path : list Z := str "/Sub/two".
Example hfs_demo_file :
  match hfs_demo_mounted with
  | Ret (ODFS_OK, mnt, w) =>
      match odfs_resolve_path hfs_demo_be (λ _ _, true) mnt w hfs_demo_path with
      | Ret (ODFS_OK, Some file, mnt, w) =>
          match odfs_read hfs_demo_be mnt w file 500 (replicate 20 0) 20 with
          | Ret (ODFS_OK, buf, n, _) => (Mount.volume_name mnt, name file, n, buf) =
              (str "Demo", str "two", 16, replicate 12 65 ++ replicate 4 66 ++ replicate 4 0)
          | _ => False
          end
      | _ => False
      end
  | _ => False
  end.
Proof. vm_compute. reflexivity. Qed.

Definition hfs_demo_recs (n : Z) : list cat_rec := match hfs_decode hfs_demo_disc hfs_demo_ctx n with Ret (CatLeaf _ recs) => recs | _ => [] end.
Definition hfs_demo_leaves : list (Z * list cat_rec) := Eval vm_compute in [(2, hfs_demo_recs 2); (3, hfs_demo_recs 3)].
Definition hfs_demo_dirs (n : odfs_node) : Prop := lba (extent n) ∈ [2; 16; 17].

Lemma hfs_demo_sector l : zlen (hfs_demo_disc l) = 2048.
Proof. apply sectors_of_length. Qed.
Lemma hfs_demo_bytes l : Forall is_byte (hfs_demo_disc l).
Proof. apply sectors_of_bytes. vm_compute. reflexivity. Qed.
Lemma hfs_demo_catalog_readable : catalog_readable (medium_readable hfs_demo_medium 2048) hfs_demo_ctx.
Proof.
  intros n phys o Hn H0 Ho. apply image_readable.
  assert (Hc : cat_node_size hfs_demo_ctx = 512 ∧ alloc_block_size hfs_demo_ctx = 512 ∧ alloc_block_start hfs_demo_ctx = 4 ∧ vol_start_512 hfs_demo_ctx = 0 ∧
    cat_extents hfs_demo_ctx = [mk_hfs_extent 0 2; mk_hfs_extent 4 2; mk_hfs_extent 0 0]) by (split_and!; vm_compute; reflexivity).
  destruct Hc as (C1 & C2 & C3 & C4 & C5). revert Hn Ho. unfold node_at. rewrite C1, C5. cbn [node_phys num_ab start_ab]. unfold hfs_ab_to_byte.
  rewrite C2, C3, C4. clear C1 C2 C3 C4 C5. repeat (case_test; b2p; [intros [= <-] ?; dlia|]). done.
Qed.
Lemma hfs_demo_catalog : catalog (hfs_decode hfs_demo_disc hfs_demo_ctx) (cat_root_node hfs_demo_ctx) hfs_demo_leaves.
Proof.
  assert (cat_root_node hfs_demo_ctx = 1) as -> by (vm_compute; reflexivity). apply two_leaves; [vm_compute; reflexivity..|discriminate|discriminate|repeat constructor; discriminate].
Qed.

Lemma hfs_demo_volume : hfs_volume hfs_demo_disc (medium_readable hfs_demo_medium 2048) 2 hfs_demo_ctx hfs_demo_leaves.
Proof.
  split; [apply hfs_demo_catalog_readable| |apply hfs_demo_catalog|apply Nat.le_refl].
  assert (cat_node_size hfs_demo_ctx = 512) as -> by (vm_compute; reflexivity). lia.
Qed.
Lemma hfs_closed_tree malloc leaves ds root : lba (extent root) ∈ ds → closed_listings (hfs_listing malloc leaves) ds = true →
  tree_of (hfs_listable malloc leaves) (hfs_faces malloc leaves) root (λ n, lba (extent n) ∈ ds).
Proof. exact (closed_tree (hfs_listing malloc leaves) ds root). Qed.
Lemma hfs_demo_tree : tree_of (hfs_listable enough_memory hfs_demo_leaves) (hfs_faces enough_memory hfs_demo_leaves) (mnt_root hfs_demo_mnt) hfs_demo_dirs.
Proof. apply hfs_closed_tree; [|vm_compute; reflexivity]. assert (lba (extent (mnt_root hfs_demo_mnt)) = 2) as -> by (vm_compute; reflexivity). by left. Qed.
Lemma hfs_demo_mount_of : hfs_mount_of hfs_demo_medium hfs_demo_disc (λ c, c) Some single_context enough_memory 2 no_reader
  tt hfs_demo_mnt hfs_demo_world hfs_demo_ctx hfs_demo_leaves hfs_demo_dirs.
Proof.
  split; [done| |exact hfs_demo_volume|exact hfs_demo_tree]. split.
  - apply no_reader_keeps.
  - exists (λ _, true), 300%nat, toc_zero, blank_sector, ∅, (Some demo_opts). split; [by simpl|]. vm_compute. reflexivity.
  - vm_compute. reflexivity.
  - vm_compute. reflexivity.
Qed.
Lemma hfs_demo_reads : MediaReads hfs_demo_medium hfs_demo_disc 2048.
Proof. apply image_ops_reads; [lia|apply hfs_demo_sector]. Qed.
Lemma hfs_demo_path_name : is_name hfs_demo_path.
Proof. repeat constructor; lia. Qed.

Lemma hfs_volume_resolves_witness :
  ∃ err out mnt' w', odfs_resolve_path hfs_demo_be (λ _ _, true) hfs_demo_mnt hfs_demo_world hfs_demo_path = Ret (err, out, mnt', w') ∧
    cache_ok hfs_demo_disc 2048 (w_cache w') ∧
    (err, face <$> out) = walk hfs_demo_be (hfs_faces enough_memory hfs_demo_leaves) hfs_demo_mnt (mnt_root hfs_demo_mnt) (components hfs_demo_path []).
Proof.
  apply (hfs_volume_resolves hfs_demo_medium hfs_demo_disc (λ c, c) Some single_context enough_memory 2 no_reader tt hfs_demo_mnt hfs_demo_world
    hfs_demo_ctx hfs_demo_leaves hfs_demo_dirs).
  - exact hfs_demo_reads.
  - apply image_ops_clean.
  - exact hfs_demo_bytes.
  - exact hfs_demo_mount_of.
  - exact hfs_demo_path_name.
Defined.

Definition hfs_demo_resolved := odfs_resolve_path hfs_demo_be (λ _ _, true) hfs_demo_mnt hfs_demo_world hfs_demo_path.
Definition hfs_demo_node : odfs_node := match hfs_demo_resolved with Ret (_, Some n, _, _) => n | _ => node_zero end.
Definition hfs_demo_mnt2 : odfs_mount_t := match hfs_demo_resolved with Ret (_, _, mnt, _) => mnt | _ => mount_zero end.
Definition hfs_demo_world2 : world unit (gmap Z hfs_context) := match hfs_demo_resolved with Ret (_, _, _, w) => w | _ => hfs_demo_world end.
Definition hfs_demo_world3 : world unit (gmap Z hfs_context) :=
  match odfs_read hfs_demo_be hfs_demo_mnt2 hfs_demo_world2 hfs_demo_node 508 (replicate 8 0) 4 with Ret (_, _, _, w) => w | _ => hfs_demo_world end.
Lemma hfs_demo_node_facts : lba (extent hfs_demo_node) = 9 ∧ hfs_ab_to_byte hfs_demo_ctx 9 = 6656 ∧ size hfs_demo_node = 516 ∧ alloc_block_size hfs_demo_ctx = 512.
Proof. split_and!; vm_compute; reflexivity. Qed.

(** The last bytes of the first piece. *)
Lemma hfs_volume_reads_witness :
  odfs_read hfs_demo_be hfs_demo_mnt2 hfs_demo_world2 hfs_demo_node 508 (replicate 8 0) 4 = Ret (ODFS_OK, [65; 65; 65; 65; 0; 0; 0; 0], 4, hfs_demo_world3) ∧
  [65; 65; 65; 65] = slice (fork_bytes hfs_demo_disc hfs_demo_ctx [mk_hfs_extent 9 1; mk_hfs_extent 11 1]) 508 4.
Proof.
  assert (Hread : odfs_read hfs_demo_be hfs_demo_mnt2 hfs_demo_world2 hfs_demo_node 508 (replicate 8 0) 4 =
    Ret (ODFS_OK, [65; 65; 65; 65; 0; 0; 0; 0], 4, hfs_demo_world3)) by (vm_compute; reflexivity).
  split; [exact Hread|]. destruct hfs_demo_node_facts as (F1 & F2 & F3 & F4).
  destruct (hfs_volume_reads hfs_demo_medium hfs_demo_disc (λ c, c) Some single_context enough_memory 2 no_reader tt hfs_demo_mnt hfs_demo_world
    hfs_demo_ctx hfs_demo_leaves hfs_demo_dirs (λ _ _, true) hfs_demo_path hfs_demo_node hfs_demo_mnt2 hfs_demo_world2 508 (replicate 8 0) 4 ODFS_OK
    [65; 65; 65; 65; 0; 0; 0; 0] 4 hfs_demo_world3 hfs_demo_reads (image_ops_clean hfs_demo_disc 100 2048) hfs_demo_bytes hfs_demo_mount_of hfs_demo_path_name)
    as (_ & _ & H).
  - vm_compute. reflexivity.
  - rewrite F1. lia.
  - rewrite F1, F2. lia.
  - rewrite F1, F2, F3. lia.
  - lia.
  - simpl. lia.
  - exact Hread.
  - destruct (H eq_refl) as (_ & _ & _ & Hf). apply (Hf (mk_hfs_extent 9 1)); [by rewrite F1|]. rewrite F4. simpl. lia.
Defined.

(** [C39] A catalog whose leaf points to itself is never walked to an end: enumerating a
    directory whose records would come later takes as many rounds as it is given. *)
Theorem hfs_cyclic_leaf_never_ends {C} {HO : CacheOps C} img inv ok ptr readable ctx cnid n recs :
  CacheLaws C img 2048 inv ok ptr → CacheReadable C ok readable → catalog_readable readable ctx → 14 ≤ cat_node_size ctx ≤ 32768 →
  cat_descend (hfs_decode img ctx) cnid 20 (cat_root_node ctx) = Ret (inr n) → n ≠ 0 →
  hfs_decode img ctx n = Ret (CatLeaf n recs) → Forall (λ r, cr_parent r < cnid) recs →
  ∀ fuel malloc c T (cb : odfs_dir_iter_fn T) dir t r0, ok c → lba (extent dir) = cnid →
    hfs_readdir malloc true fuel cb ctx c dir t r0 = Diverge.
Proof.
  intros HL HR Hread Hsize Hdesc Hn Hd Hrecs fuel malloc c T cb dir t r0 Hok <-. unfold hfs_readdir.
  pose proof (walk_simulates img inv ok ptr readable ctx Hread Hsize (hfs_readdir_cb malloc cb dir (default 0 r0) r0)
    (readdir_cb_inside malloc cb dir (default 0 r0) r0) (lba (extent dir)) fuel c (mk_rc ctx t 0 r0 ODFS_OK odfs_namefix_init) Hok) as Hw.
  unfold cat_walk in Hw. rewrite Hdesc in Hw. cbn [mbind outcome_bind] in Hw. rewrite (cycle_scan _ _ _ _ recs) in Hw by done.
  cbn [simulates] in Hw. by rewrite Hw.
Qed.

(** A disc whose only leaf points to itself. *)
Definition hfs_loop_nodes : list Z := replicate 512 0 ++ hfs_make_node HFS_NODE_LEAF 1 [hfs_make_key 2 [] ++ hfs_make_thread 1].
Definition hfs_loop_disc (l : Z) : list Z := pad_to 2048 (if l =? 1 then hfs_loop_nodes else []).
Definition hfs_loop_ctx : hfs_context := mk_hfs 0 32 512 4 [] 1024 [mk_hfs_extent 0 2] 512 1 1 1 node_zero.
Lemma hfs_loop_sector l : zlen (hfs_loop_disc l) = 2048.
Proof. unfold hfs_loop_disc. case_test; vm_compute; reflexivity. Qed.
Definition hfs_loop_dir : odfs_node := hfs_dir_stub 16.
Lemma hfs_cyclic_leaf_never_ends_witness :
  hfs_readdir (H := disc_cache hfs_loop_disc 2048) enough_memory true 1000 (hfs_lookup_iter [65]) hfs_loop_ctx () hfs_loop_dir None None = Diverge.
Proof.
  assert (Hr : match hfs_decode hfs_loop_disc hfs_loop_ctx 1 with Ret (CatLeaf 1 recs) => forallb (λ r, cr_parent r <? 16) recs | _ => false end = true)
    by (vm_compute; reflexivity).
  destruct (hfs_decode hfs_loop_disc hfs_loop_ctx 1) as [[next recs|]| |] eqn:Hd; try discriminate Hr.
  assert (next = 1) as -> by (destruct next as [|[]|]; discriminate Hr || reflexivity).
  apply (hfs_cyclic_leaf_never_ends (HO := disc_cache hfs_loop_disc 2048) hfs_loop_disc (λ _, True) (λ _, True) (λ _ _, True) (λ _, True) hfs_loop_ctx 16 1 recs).
  - apply disc_cache_laws, hfs_loop_sector.
  - intros [] l _ _ _. by exists l, tt.
  - intros m phys o _ _ _. exact I.
  - simpl. lia.
  - vm_compute. reflexivity.
  - discriminate.
  - exact Hd.
  - apply Forall_forall. intros r Hin%list_elem_of_In. rewrite forallb_forall in Hr. apply Z.ltb_lt. exact (Hr r Hin).
  - exact I.
  - reflexivity.
Defined.

(** The parent of a directory is the entry its thread record names: the one with that
    number among the entries of the directory the parent itself is in, or the root; and
    the grandparent likewise, when it is wanted. *)
Theorem hfs_resolve_parent_correct {C} {HO : CacheOps C} img inv ok ptr readable malloc fuel leaves ctx c dir want_gp p n g gn :
  CacheLaws C img 2048 inv ok ptr → CacheReadable C ok readable → ok c → hfs_volume img readable fuel ctx leaves →
  lba (extent (root ctx)) = HFS_CNID_ROOT_DIR → kind dir = ODFS_NODE_DIR → lba (extent dir) ≠ HFS_CNID_ROOT_DIR →
  is_in leaves (lba (extent dir)) p → shown_as (is_in leaves) (hfs_listing malloc leaves) (2 ^ 32) (root ctx) p n →
  (if p =? HFS_CNID_ROOT_DIR then gn = face (root ctx) else is_in leaves p g ∧ shown_as (is_in leaves) (hfs_listing malloc leaves) (2 ^ 32) (root ctx) g gn) →
  ∃ pn gpn ctx' c', hfs_resolve_parent malloc true fuel ctx c dir want_gp = Ret (ODFS_OK, Some pn, gpn, ctx', c') ∧ ok c' ∧ same_hfs ctx ctx' ∧
    face pn = n ∧ face <$> gpn = if want_gp then Some gn else None.
Proof. intros HL HR. by apply (resolve_parent_run img inv ok ptr readable). Qed.

(** From [/Sub/Deep] to [/Sub] and to the root. *)
Definition hfs_demo_sub : odfs_node := default node_zero (by_number (hfs_faces enough_memory hfs_demo_leaves 2 0 ODFS_BACKEND_HFS) 16).
Definition hfs_demo_root_list : list odfs_node := match hfs_listing enough_memory hfs_demo_leaves 2 with Ret L => L | _ => [] end.
Lemma hfs_resolve_parent_correct_witness :
  let HO := disc_cache hfs_demo_disc 2048 in
  name hfs_demo_sub = str "Sub" ∧
  ∃ pn gpn ctx' c', hfs_resolve_parent enough_memory true 2 hfs_demo_ctx () (hfs_dir_stub 17) true = Ret (ODFS_OK, Some pn, gpn, ctx', c') ∧ True ∧
    same_hfs hfs_demo_ctx ctx' ∧ face pn = hfs_demo_sub ∧ face <$> gpn = Some (face (root hfs_demo_ctx)).
Proof.
  intros HO. split; [vm_compute; reflexivity|].
  apply (hfs_resolve_parent_correct hfs_demo_disc (λ _, True) (λ _, True) (λ _ _, True) (medium_readable hfs_demo_medium 2048) enough_memory 2
    hfs_demo_leaves hfs_demo_ctx () (hfs_dir_stub 17) true 16 hfs_demo_sub 2).
  - apply disc_cache_laws, hfs_demo_sector.
  - intros [] l _ _ _. by exists l, tt.
  - exact I.
  - exact hfs_demo_volume.
  - vm_compute. reflexivity.
  - reflexivity.
  - discriminate.
  - vm_compute. reflexivity.
  - right. split; [discriminate|]. exists 2, hfs_demo_root_list.
    do 3 (split; [vm_compute; reflexivity|]). vm_compute. reflexivity.
  - split; [vm_compute; reflexivity|]. left. done.
Defined.

(** Enumerating a directory delivers the entries of its listing in order from the one
    the resume offset counts to, numbered as they come, until the callback stops; the
    offset then counts the entries delivered, so that going on there misses none and
    repeats none. *)
Theorem hfs_readdir_correct {C} {HO : CacheOps C} img inv ok ptr readable malloc T (cb : odfs_dir_iter_fn T) fuel ctx leaves c dir t r0 L :
  CacheLaws C img 2048 inv ok ptr → CacheReadable C ok readable → ok c → hfs_volume img readable fuel ctx leaves →
  hfs_listing malloc leaves (lba (extent dir)) = Ret L → zlen L < 2 ^ 32 → 0 ≤ default 0 r0 →
  let D := drop (Z.to_nat (default 0 r0)) (number (next_node_id ctx) (id dir) L) in
  ∃ ctx' c', hfs_readdir malloc true fuel cb ctx c dir t r0 =
      Ret ((run cb D t).1, (λ _, if err_ok (run cb D t).1 then zlen L else default 0 r0 + delivered cb D t) <$> r0, ctx', c', (run cb D t).2) ∧
    ok c' ∧ same_hfs ctx ctx'.
Proof.
  intros HL HR Hok Hv HLs Hb H0 D.
  destruct (hfs_readdir_run img inv ok ptr readable malloc cb fuel ctx leaves c dir t r0 L Hok Hv HLs Hb) as (ctx' & c' & Hr & H).
  rewrite Z.max_r in Hr by done. by exists ctx', c'.
Qed.

(** [/Sub] from its second entry on. *)
Definition hfs_demo_sub_list : list odfs_node := match hfs_listing enough_memory hfs_demo_leaves 16 with Ret L => L | _ => [] end.
Definition hfs_collect (n : odfs_node) (l : list (list Z)) : odfs_err * list (list Z) := (ODFS_OK, l ++ [name n]).
Lemma hfs_readdir_correct_witness :
  let HO := disc_cache hfs_demo_disc 2048 in
  map name hfs_demo_sub_list = [str "Deep"; str "two"] ∧
  ∃ ctx' c', hfs_readdir enough_memory true 2 hfs_collect hfs_demo_ctx () (hfs_dir_stub 16) [] (Some 1) =
    Ret (ODFS_OK, Some 2, ctx', c', [str "two"]) ∧ True ∧ same_hfs hfs_demo_ctx ctx'.
Proof.
  intros HO. split; [vm_compute; reflexivity|].
  apply (hfs_readdir_correct hfs_demo_disc (λ _, True) (λ _, True) (λ _ _, True) (medium_readable hfs_demo_medium 2048) enough_memory _ hfs_collect 2
    hfs_demo_ctx hfs_demo_leaves () (hfs_dir_stub 16) [] (Some 1) hfs_demo_sub_list).
  - apply disc_cache_laws, hfs_demo_sector.
  - intros [] l _ _ _. by exists l, tt.
  - exact I.
  - exact hfs_demo_volume.
  - vm_compute. reflexivity.
  - vm_compute. reflexivity.
  - simpl. lia.
Defined.

(** ** A hostile node

    A record's data are taken to reach to the next record's offset, wherever that is: of
    this file record, 24 bytes from the end of the node, the size is looked for beyond
    the buffer. *)
Definition hfs_hostile_node : list Z :=
  fields 512 [(8, [HFS_NODE_LEAF]); (10, be16_bytes 1); (480, [6; 0]); (482, be32_bytes 2); (488, [HFS_CAT_FILE]); (508, be16_bytes 600); (510, be16_bytes 480)].
Definition hfs_hostile_disc (l : Z) : list Z := if l =? 1 then replicate 512 0 ++ hfs_hostile_node ++ replicate 1024 0 else replicate 2048 0.
Theorem hfs_record_overruns_node :
  let HO := disc_cache hfs_hostile_disc 2048 in
  hfs_readdir enough_memory true 1 hfs_collect hfs_loop_ctx () (hfs_dir_stub 2) [] None = Fault.
Proof. vm_compute. reflexivity. Qed.
(** [/Sub/two] of the disc above is in two pieces; the bytes read after the first are those of
    the block that follows it. *)
Theorem hfs_fragmented_file_wrong :
  let HO := disc_cache hfs_demo_disc 2048 in
  (hfs_read hfs_demo_ctx () hfs_demo_node 508 (replicate 8 0) 8).1.1 = (ODFS_OK, [65; 65; 65; 65; 66; 66; 66; 66]) ∧
  slice (fork_bytes hfs_demo_disc hfs_demo_ctx [mk_hfs_extent 9 1; mk_hfs_extent 11 1]) 508 8 = [65; 65; 65; 65; 67; 67; 67; 67].
Proof. split; vm_compute; reflexivity. Qed.
