(* ===== verification/HfsPlus.v ===== *)
(** * The HFS+ backend ([backends/hfsplus/])

    As on HFS, directories are runs of records of a catalog B-tree.  Files, the catalog
    among them, are forks of up to eight extents; nodes are read through
    [hfsp_read_fork].  Reading outside a node's buffer or a sector is [Fault].  [fuel]
    bounds the number of leaves read.  Log calls are left out; [alloc] says whether a node
    buffer can be had. *)
From stdpp Require Import strings.
From S2P Require Import Prelude Types Strings Namefix CacheApi Charset Timestamp.
Open Scope Z_scope.

(* [src: backends/hfsplus/hfsplus.h:15-29 HFSPLUS_SIG] *)
Definition HFSPLUS_SIG : Z := 0x482B.
Definition HFSX_SIG : Z := 0x4858.
Definition HFSPLUS_VH_OFFSET : Z := 1024.
Definition HFSPLUS_CNID_ROOT : Z := 2.
Definition HFSPLUS_FOLDER_REC : Z := 1.
Definition HFSPLUS_FILE_REC : Z := 2.
Definition HFSPLUS_FOLDER_THREAD : Z := 3.
Definition INT_MAX : Z := 2 ^ 31 - 1.
(** A [uint32_t] read as an [int]. *)
Definition to_int (z : Z) : Z := let m := u32 z in if m <? 2 ^ 31 then m else m - 2 ^ 32.

(* [src: backends/hfsplus/hfsplus.h:32-35 hfsp_be16] *)
Definition hfsp_be16 (p : list Z) (pos : Z) : outcome Z :=
  b0 ← rd p pos; b1 ← rd p (pos + 1); Ret (Z.lor (Z.shiftl b0 8) b1).
(* [src: backends/hfsplus/hfsplus.h:37-41 hfsp_be32] *)
Definition hfsp_be32 (p : list Z) (pos : Z) : outcome Z :=
  b0 ← rd p pos; b1 ← rd p (pos + 1); b2 ← rd p (pos + 2); b3 ← rd p (pos + 3);
  Ret (Z.lor (Z.lor (Z.lor (Z.shiftl b0 24) (Z.shiftl b1 16)) (Z.shiftl b2 8)) b3).
(* [src: backends/hfsplus/hfsplus.h:43-46 hfsp_be64] *)
Definition hfsp_be64 (p : list Z) (pos : Z) : outcome Z :=
  hi ← hfsp_be32 p pos; lo ← hfsp_be32 p (pos + 4); Ret (Z.lor (Z.shiftl hi 32) lo).

(* [src: backends/hfsplus/hfsplus.h:49-52 hfsp_extent_t] *)
Record hfsp_extent : Type := mk_hfsp_extent { start_block : Z; block_count : Z }.
(* [src: backends/hfsplus/hfsplus.h:55-60 hfsp_fork_t] *)
Record hfsp_fork : Type := mk_fork { logical_size : Z; clump_size : Z; fork_blocks : Z; extents : list hfsp_extent }.
(* [src: backends/hfsplus/hfsplus.h:63-80 hfsplus_context_t] *)
Record hfsplus_context : Type := mk_hfsp {
  vol_offset : Z; block_size : Z; total_blocks : Z; volume_name : list Z;
  cat_fork : hfsp_fork; cat_node_size : Z; cat_root_node : Z; cat_first_leaf : Z; next_node_id : Z; root : odfs_node }.
Definition set_next_node_id v ctx : hfsplus_context :=
  mk_hfsp (vol_offset ctx) (block_size ctx) (total_blocks ctx) (volume_name ctx) (cat_fork ctx) (cat_node_size ctx) (cat_root_node ctx)
    (cat_first_leaf ctx) v (root ctx).

(** ** Helpers *)

(* [src: backends/hfsplus/hfsplus.c:36-39 hfsp_parse_fork] *)
Fixpoint parse_fork_extents (p : list Z) (pos : Z) (n : nat) : outcome (list hfsp_extent) :=
  match n with
  | O => Ret []
  | S n =>
      start ← hfsp_be32 p pos; count ← hfsp_be32 p (pos + 4);
      rest ← parse_fork_extents p (pos + 8) n; Ret (mk_hfsp_extent start count :: rest)
  end.
(** The fork at [pos]. *)
(* [src: backends/hfsplus/hfsplus.c:31-40 hfsp_parse_fork] *)
Definition hfsp_parse_fork (p : list Z) (pos : Z) : outcome hfsp_fork :=
  sz ← hfsp_be64 p pos; clump ← hfsp_be32 p (pos + 8); blocks ← hfsp_be32 p (pos + 12);
  exts ← parse_fork_extents p (pos + 16) 8; Ret (mk_fork sz clump blocks exts).
(* [src: backends/hfsplus/hfsplus.c:43-46 hfsp_block_to_byte] *)
Definition hfsp_block_to_byte (ctx : hfsplus_context) (block : Z) : Z := u64 (vol_offset ctx + block * block_size ctx).
(* [src: backends/hfsplus/hfsplus.c:103-108 hfsp_rec_offset] *)
Definition hfsp_rec_offset (node : list Z) (node_size rec_idx : Z) : outcome Z :=
  hfsp_be16 node (u32 (node_size - 2 * (rec_idx + 1))).
(** [None] is the result 0. *)
(* [src: backends/hfsplus/hfsplus.c:110-127 hfsp_read_record_count] *)
Definition hfsp_read_record_count (node : list Z) (node_size : Z) : outcome (option Z) :=
  if node_size <? 12 then Ret None
  else
    let max_recs := u16 (node_size / 2 - 1) in
    nrecs ← hfsp_be16 node 10;
    Ret (if max_recs <? nrecs then None else Some nrecs).
(** [uname] are the name's bytes. *)
(* [src: backends/hfsplus/hfsplus.c:130-140 hfsp_decode_name] *)
Definition hfsp_decode_name (uname : list Z) (dst_size : Z) : list Z :=
  map (λ c, if c =? 58 then 46 else c) (default [] (odfs_ucs2be_to_utf8 uname dst_size).2).
Definition is_sig (sig : Z) : bool := (sig =? HFSPLUS_SIG) || (sig =? HFSX_SIG).

Section hfsplus.
Context {C : Type} `{CacheOps C} (malloc : nat → Z → bool) (alloc : bool).

(** The bytes gathered so far are [buf]; every round adds a byte at least.  Result: error,
    bytes, the offset gone on to, cache. *)
(* [src: backends/hfsplus/hfsplus.c:66-83 hfsp_read_fork] *)
Fixpoint fork_loop (fuel : nat) (c : C) (phys off_in_ext ext_bytes len offset : Z) (buf : list Z) : outcome (odfs_err * list Z * Z * C) :=
  if (zlen buf <? len) && (off_in_ext <? ext_bytes) then
    match fuel with
    | O => Diverge
    | S fuel =>
        let '(err, sector, c) := bc_read c (u32 (phys / 2048)) in
        if negb (err_ok err) then Ret (err, buf, offset, c)
        else
          let chunk := 2048 - phys mod 2048 in
          let chunk := if len - zlen buf <? chunk then len - zlen buf else chunk in
          let chunk := if ext_bytes - off_in_ext <? chunk then ext_bytes - off_in_ext else chunk in
          data ← rd_range (bc_data c sector) (phys mod 2048) chunk;
          fork_loop fuel c (u64 (phys + chunk)) (off_in_ext + chunk) ext_bytes len (u64 (offset + chunk)) (buf ++ data)
    end
  else Ret (ODFS_OK, buf, offset, c).
(* [src: backends/hfsplus/hfsplus.c:55-88 hfsp_read_fork] *)
Fixpoint fork_extents (ctx : hfsplus_context) (c : C) (exts : list hfsp_extent) (offset ext_offset len : Z) (buf : list Z)
    : outcome (odfs_err * list Z * C) :=
  let finish := Ret (if zlen buf =? len then ODFS_OK else ODFS_ERR_IO, buf, c) in
  match exts with
  | [] => finish
  | e :: exts =>
      if zlen buf <? len then
        let ext_bytes := block_count e * block_size ctx in
        if ext_bytes =? 0 then finish
        else if offset <? ext_offset + ext_bytes then
          let off_in_ext := offset - ext_offset in
          '(err, buf, offset, c) ← fork_loop (Z.to_nat len) c (u64 (hfsp_block_to_byte ctx (start_block e) + off_in_ext)) off_in_ext ext_bytes len offset buf;
          if negb (err_ok err) then Ret (err, buf, c) else fork_extents ctx c exts offset (ext_offset + ext_bytes) len buf
        else fork_extents ctx c exts offset (ext_offset + ext_bytes) len buf
      else finish
  end.
(** [len] bytes of the fork from [offset] on. *)
(* [src: backends/hfsplus/hfsplus.c:49-89 hfsp_read_fork] *)
Definition hfsp_read_fork (ctx : hfsplus_context) (c : C) (fork : hfsp_fork) (offset len : Z) : outcome (odfs_err * list Z * C) :=
  fork_extents ctx c (extents fork) offset 0 len [].
(* [src: backends/hfsplus/hfsplus.c:92-100 hfsp_read_node] *)
Definition hfsp_read_node (ctx : hfsplus_context) (c : C) (node_num : Z) : outcome (odfs_err * list Z * C) :=
  hfsp_read_fork ctx c (cat_fork ctx) (node_num * cat_node_size ctx) (cat_node_size ctx).

(** ** Probing and mounting *)

(** The first of the offsets with a signature. *)
(* [src: backends/hfsplus/hfsplus.c:172-180 hfsp_find_vh] *)
Fixpoint sector_sig (sector : list Z) (offs : list Z) : outcome (option Z) :=
  match offs with
  | [] => Ret None
  | off :: offs => sig ← hfsp_be16 sector off; if is_sig sig then Ret (Some off) else sector_sig sector offs
  end.
(** The loop runs 128 times at most. *)
(* [src: backends/hfsplus/hfsplus.c:168-183 hfsp_find_vh] *)
Fixpoint find_vh_scan (n : nat) (c : C) (lba last : Z) : outcome (odfs_err * Z * C) :=
  match n with
  | O => Ret (ODFS_ERR_BAD_FORMAT, 0, c)
  | S n =>
      if lba <? last then
        let '(err, p, c) := bc_read c lba in
        if negb (err_ok err) then find_vh_scan n c (u32 (lba + 1)) last
        else
          found ← sector_sig (bc_data c p) [0; 512; 1024; 1536];
          match found with
          | Some off => Ret (ODFS_OK, lba * 2048 + off, c)
          | None => find_vh_scan n c (u32 (lba + 1)) last
          end
      else Ret (ODFS_ERR_BAD_FORMAT, 0, c)
  end.
(* [src: backends/hfsplus/hfsplus.c:146-184 hfsp_find_vh] *)
Definition hfsp_find_vh (c : C) (session_start : Z) : outcome (odfs_err * Z * C) :=
  let '(err, p, c) := bc_read c session_start in
  sig ← (if err_ok err then hfsp_be16 (bc_data c p) 1024 else Ret 0);
  if is_sig sig then Ret (ODFS_OK, session_start * 2048 + 1024, c)
  else find_vh_scan 128 c session_start (u32 (session_start + 128)).
(* [src: backends/hfsplus/hfsplus.c:186-196 hfsp_probe] *)
Definition hfsp_probe (c : C) (session_start : Z) : outcome (odfs_err * C) :=
  '(err, _, c) ← hfsp_find_vh c session_start; Ret (err, c).
(** The volume header, which may lie in two sectors. *)
(* [src: backends/hfsplus/hfsplus.c:222-240 hfsp_mount] *)
Definition read_vh (c : C) (vh_offset : Z) : outcome (odfs_err * list Z * C) :=
  let lba := u32 (vh_offset / 2048) in
  let off := vh_offset mod 2048 in
  let '(err, p, c) := bc_read c lba in
  if negb (err_ok err) then Ret (err, [], c)
  else
    let avail := 2048 - off in
    if 512 <=? avail then vh ← rd_range (bc_data c p) off 512; Ret (ODFS_OK, vh, c)
    else
      head ← rd_range (bc_data c p) off avail;
      let '(err, p, c) := bc_read c (u32 (lba + 1)) in
      if negb (err_ok err) then Ret (err, [], c)
      else tail ← rd_range (bc_data c p) 0 (512 - avail); Ret (ODFS_OK, head ++ tail, c).
(** The records of the first leaf: the root's thread has the volume's name. *)
(* [src: backends/hfsplus/hfsplus.c:304-326 hfsp_mount] *)
Fixpoint volume_name_loop (node : list Z) (node_size : Z) (n : nat) (r : Z) (nm : list Z) : outcome (list Z) :=
  match n with
  | O => Ret nm
  | S n =>
      roff ← hfsp_rec_offset node node_size r;
      if node_size <=? roff + 10 then volume_name_loop node node_size n (r + 1) nm
      else
        parent_cnid ← hfsp_be32 node (roff + 2);
        _ ← hfsp_be16 node (roff + 6);
        keylen ← hfsp_be16 node roff;
        let data_off := roff + 2 + keylen in
        if node_size <=? data_off + 2 then volume_name_loop node node_size n (r + 1) nm
        else
          rec_type ← hfsp_be16 node data_off;
          if (s16 rec_type =? HFSPLUS_FOLDER_THREAD) && (parent_cnid =? HFSPLUS_CNID_ROOT) && (data_off + 10 <=? node_size) then
            tnlen ← hfsp_be16 node (data_off + 8);
            let max_name_chars := (node_size - (data_off + 10)) / 2 in
            if (0 <? tnlen) && (tnlen <=? max_name_chars) then
              uname ← rd_range node (data_off + 10) (tnlen * 2);
              volume_name_loop node node_size n (r + 1) (hfsp_decode_name uname 256)
            else volume_name_loop node node_size n (r + 1) nm
          else volume_name_loop node node_size n (r + 1) nm
  end.
(** Every failure leaves the name empty. *)
(* [src: backends/hfsplus/hfsplus.c:287-332 hfsp_mount] *)
Definition read_volume_name (ctx : hfsplus_context) (c : C) : outcome (list Z * C) :=
  if negb alloc then Ret ([], c)
  else
    '(err, node, c) ← hfsp_read_node ctx c (cat_first_leaf ctx);
    if negb (err_ok err) then Ret ([], c)
    else
      type ← rd node 8;
      if negb (type =? 0xFF) then Ret ([], c)
      else
        nrecs ← hfsp_read_record_count node (cat_node_size ctx);
        match nrecs with
        | None => Ret ([], c)
        | Some nrecs => nm ← volume_name_loop node (cat_node_size ctx) (Z.to_nat nrecs) 0 []; Ret (nm, c)
        end.
Definition hfsp_dir_node (cnid : Z) (nm : list Z) (t : odfs_timestamp) : odfs_node :=
  mk_node 0 0 ODFS_BACKEND_HFSPLUS ODFS_NODE_DIR nm 0 t t 0 amiga_as_zero (mk_extent cnid 0) 0.
(* [src: backends/hfsplus/hfsplus.c:202-358 hfsp_mount] *)
Definition hfsp_mount (ctx_alloc : bool) (c : C) (session_start : Z) : outcome (odfs_err * option (odfs_node * hfsplus_context) * C) :=
  if negb ctx_alloc then Ret (ODFS_ERR_NOMEM, None, c)
  else
    '(err, vh_offset, c) ← hfsp_find_vh c session_start;
    if negb (err_ok err) then Ret (err, None, c)
    else
      '(err, vh, c) ← read_vh c vh_offset;
      if negb (err_ok err) then Ret (err, None, c)
      else
        sig ← hfsp_be16 vh 0;
        if negb (is_sig sig) then Ret (ODFS_ERR_BAD_FORMAT, None, c)
        else
          bsize ← hfsp_be32 vh 40;
          blocks ← hfsp_be32 vh 44;
          if (bsize =? 0) || (65536 <? bsize) then Ret (ODFS_ERR_BAD_FORMAT, None, c)
          else
            fork ← hfsp_parse_fork vh 272;
            let ctx := mk_hfsp (u64 (vh_offset - HFSPLUS_VH_OFFSET)) bsize blocks [] fork 0 0 0 1 node_zero in
            '(err, hdr, c) ← hfsp_read_fork ctx c fork 0 512;
            if negb (err_ok err) then Ret (err, None, c)
            else
              type ← rd hdr 8;
              if negb (type =? 0x01) then Ret (ODFS_ERR_BAD_FORMAT, None, c)
              else
                root_node ← hfsp_be32 hdr 16;
                first_leaf ← hfsp_be32 hdr 24;
                node_size ← hfsp_be16 hdr 32;
                if (node_size <? 14) || (32768 <? node_size) then Ret (ODFS_ERR_BAD_FORMAT, None, c)
                else
                  let ctx := mk_hfsp (vol_offset ctx) bsize blocks [] fork node_size root_node first_leaf 1 node_zero in
                  '(nm, c) ← read_volume_name ctx c;
                  let nm := if bool_decide (nm = []) then str "HFS+" else nm in
                  mtime ← hfsp_be32 vh 20;
                  let root_out := hfsp_dir_node HFSPLUS_CNID_ROOT [47] (odfs_timestamp_from_mac_time mtime) in
                  Ret (ODFS_OK, Some (root_out, mk_hfsp (vol_offset ctx) bsize blocks nm fork node_size root_node first_leaf 1 root_out), c).

(** ** Walking the catalog *)

(** The child to go to: that of the last record before the directory's first, or of
    the first record. *)
(* [src: backends/hfsplus/hfsplus.c:408-433 hfsp_walk_catalog] *)
Fixpoint hfsp_index_child (node : list Z) (node_size parent_cnid : Z) (n : nat) (r child : Z) : outcome Z :=
  match n with
  | O => Ret child
  | S n =>
      roff ← hfsp_rec_offset node node_size r;
      if node_size <=? roff + 6 then Ret child
      else
        key_parent ← hfsp_be32 node (roff + 2);
        keylen ← hfsp_be16 node roff;
        let ptr_off := roff + 2 + keylen in
        if node_size <? ptr_off + 4 then Ret child
        else
          ptr ← hfsp_be32 node ptr_off;
          let child := if (key_parent <? parent_cnid) || (child =? 0) then ptr else child in
          if parent_cnid <=? key_parent then Ret child
          else hfsp_index_child node node_size parent_cnid n (r + 1) child
  end.
(** The node to begin with, or an error. *)
(* [src: backends/hfsplus/hfsplus.c:388-440 hfsp_walk_catalog] *)
Fixpoint hfsp_descend (ctx : hfsplus_context) (c : C) (parent_cnid : Z) (depth : nat) (cur_node : Z) : outcome ((odfs_err + Z) * C) :=
  match depth with
  | O => Ret (inr cur_node, c)
  | S depth =>
      '(err, node, c) ← hfsp_read_node ctx c cur_node;
      if negb (err_ok err) then Ret (inl err, c)
      else
        type ← rd node 8;
        if type =? 0xFF then Ret (inr cur_node, c)
        else if negb (type =? 0x00) then Ret (inl ODFS_ERR_CORRUPT, c)
        else
          nrecs ← hfsp_read_record_count node (cat_node_size ctx);
          match nrecs with
          | None => Ret (inl ODFS_ERR_CORRUPT, c)
          | Some nrecs =>
              child ← hfsp_index_child node (cat_node_size ctx) parent_cnid (Z.to_nat nrecs) 0 0;
              if child =? 0 then Ret (inl ODFS_ERR_NOT_FOUND, c)
              else hfsp_descend ctx c parent_cnid depth child
          end
  end.

Section walk.
(** A callback gets a record's key, the memory at its data and their length. *)
Context {S : Type} (callback : list Z → list Z → Z → S → outcome (odfs_err * S)).

(** The records of a leaf: [inl] ends the walk, [inr] says whether one of the
    directory was there. *)
(* [src: backends/hfsplus/hfsplus.c:457-493 hfsp_walk_catalog] *)
Fixpoint hfsp_leaf_loop (node : list Z) (node_size parent_cnid : Z) (n : nat) (r : Z) (found : bool) (s : S)
    : outcome ((odfs_err + bool) * S) :=
  match n with
  | O => Ret (inr found, s)
  | Datatypes.S n =>
      roff ← hfsp_rec_offset node node_size r;
      next_roff ← hfsp_rec_offset node node_size (r + 1);
      if node_size <=? roff + 8 then hfsp_leaf_loop node node_size parent_cnid n (r + 1) found s
      else
        keylen ← hfsp_be16 node roff;
        if node_size - roff <? 2 + keylen then hfsp_leaf_loop node node_size parent_cnid n (r + 1) found s
        else
          key_parent ← hfsp_be32 node (roff + 2);
          if key_parent <? parent_cnid then hfsp_leaf_loop node node_size parent_cnid n (r + 1) found s
          else if parent_cnid <? key_parent then Ret (inl ODFS_OK, s)
          else
            let data_off := roff + 2 + keylen in
            let data_off := if Z.land data_off 1 =? 0 then data_off else data_off + 1 in
            let data_len := if data_off <? next_roff then next_roff - data_off else 0 in
            if (node_size <? data_off + 2) || (data_len <? 2) then hfsp_leaf_loop node node_size parent_cnid n (r + 1) true s
            else
              key ← rd_range node roff (2 + keylen);
              '(err, s) ← callback key (mem_at node data_off) data_len s;
              if negb (err_ok err) then Ret (inl err, s)
              else hfsp_leaf_loop node node_size parent_cnid n (r + 1) true s
  end.
(** Whether the next leaf is looked at: it is when nothing was found yet, or when its
    first record may be the directory's. *)
(* [src: backends/hfsplus/hfsplus.c:496-509 hfsp_walk_catalog] *)
Definition hfsp_peek (ctx : hfsplus_context) (c : C) (parent_cnid : Z) (found : bool) (cur_node : Z) : outcome (odfs_err * bool * C) :=
  if found && negb (cur_node =? 0) then
    '(err, node, c) ← hfsp_read_node ctx c cur_node;
    if negb (err_ok err) then Ret (err, false, c)
    else
      type ← rd node 8;
      if negb (type =? 0xFF) then Ret (ODFS_OK, false, c)
      else
        roff ← hfsp_rec_offset node (cat_node_size ctx) 0;
        if roff + 6 <? cat_node_size ctx then
          next_parent ← hfsp_be32 node (roff + 2);
          Ret (ODFS_OK, next_parent =? parent_cnid, c)
        else Ret (ODFS_OK, true, c)
  else Ret (ODFS_OK, true, c).
(* [src: backends/hfsplus/hfsplus.c:442-510 hfsp_walk_catalog] *)
Fixpoint hfsp_scan_leaves (fuel : nat) (ctx : hfsplus_context) (c : C) (parent_cnid cur_node : Z) (found : bool) (s : S)
    : outcome (odfs_err * S * C) :=
  if cur_node =? 0 then Ret (ODFS_OK, s, c)
  else
    match fuel with
    | O => Diverge
    | Datatypes.S fuel =>
        '(err, node, c) ← hfsp_read_node ctx c cur_node;
        if negb (err_ok err) then Ret (err, s, c)
        else
          type ← rd node 8;
          if negb (type =? 0xFF) then Ret (ODFS_OK, s, c)
          else
            nrecs ← hfsp_read_record_count node (cat_node_size ctx);
            match nrecs with
            | None => Ret (ODFS_ERR_CORRUPT, s, c)
            | Some nrecs =>
                '(r, s) ← hfsp_leaf_loop node (cat_node_size ctx) parent_cnid (Z.to_nat nrecs) 0 found s;
                match r with
                | inl err => Ret (err, s, c)
                | inr found =>
                    cur_node ← hfsp_be32 node 0;
                    '(err, go_on, c) ← hfsp_peek ctx c parent_cnid found cur_node;
                    if negb (err_ok err) then Ret (err, s, c)
                    else if (go_on : bool) then hfsp_scan_leaves fuel ctx c parent_cnid cur_node found s
                    else Ret (ODFS_OK, s, c)
                end
            end
    end.
(* [src: backends/hfsplus/hfsplus.c:373-514 hfsp_walk_catalog] *)
Definition hfsp_walk_catalog (fuel : nat) (ctx : hfsplus_context) (c : C) (parent_cnid : Z) (s : S) : outcome (odfs_err * S * C) :=
  if negb alloc then Ret (ODFS_ERR_NOMEM, s, c)
  else
    '(r, c) ← hfsp_descend ctx c parent_cnid 20 (cat_root_node ctx);
    match r with
    | inl err => Ret (err, s, c)
    | inr leaf => hfsp_scan_leaves fuel ctx c parent_cnid leaf false s
    end.
End walk.

(** ** Enumeration *)

(** Counting past [INT_MAX] is undefined. *)
Definition int_incr (i : Z) : outcome Z := if INT_MAX <=? i then Fault else Ret (i + 1).
(** [hc_resume] is what [*resume_offset] is set to by a stop. *)
(* [src: backends/hfsplus/hfsplus.c:520-530 hfsp_readdir_ctx_t] *)
Record hfsp_readdir_ctx (T : Type) : Type := mk_hc {
  hc_hctx : hfsplus_context; hc_cb : T; hc_entry_index : Z; hc_resume : option Z; hc_last_err : odfs_err;
  hc_namefix : odfs_namefix_state }.
Arguments mk_hc {T}.
Arguments hc_hctx {T}.
Arguments hc_cb {T}.
Arguments hc_entry_index {T}.
Arguments hc_resume {T}.
Arguments hc_last_err {T}.
Arguments hc_namefix {T}.

(** Whether a record is shown: files and folders with a name that, from four
    characters on, does not begin with a dot. *)
(* [src: backends/hfsplus/hfsplus.c:543-555 hfsp_readdir_record_cb] *)
Definition record_shown (key data : list Z) (data_len : Z) : outcome (option (Z * Z)) :=
  if (zlen key <? 8) || (data_len <? 2) then Ret None
  else
    t ← hfsp_be16 data 0;
    let rec_type := s16 t in
    if negb (rec_type =? HFSPLUS_FOLDER_REC) && negb (rec_type =? HFSPLUS_FILE_REC) then Ret None
    else
      key_namelen ← hfsp_be16 key 6;
      if key_namelen =? 0 then Ret None
      else
        dot ← (if (4 <=? key_namelen) && (10 <=? zlen key)
               then b8 ← rd key 8; b9 ← rd key 9; Ret ((b8 =? 0) && (b9 =? 0x2E)) else Ret false);
        Ret (if (dot : bool) then None else Some (rec_type, key_namelen)).
(* [src: backends/hfsplus/hfsplus.c:562-564 hfsp_readdir_record_cb] *)
Definition hfsp_key_name (key : list Z) (key_namelen : Z) : outcome (list Z) :=
  if key_namelen <=? (zlen key - 8) / 2
  then uname ← rd_range key 8 (key_namelen * 2); Ret (hfsp_decode_name uname ODFS_NAME_MAX)
  else Ret [].
(** What a record says of its object; [None] is a record too short. *)
(* [src: backends/hfsplus/hfsplus.c:580-601 hfsp_readdir_record_cb] *)
Definition hfsp_record_node (rec_type : Z) (data : list Z) (data_len : Z) (node : odfs_node) : outcome (option odfs_node) :=
  if rec_type =? HFSPLUS_FOLDER_REC then
    if data_len <? 24 then Ret None
    else
      cnid ← hfsp_be32 data 8;
      t ← hfsp_be32 data 16;
      let t := odfs_timestamp_from_mac_time t in
      Ret (Some (set_times t t (set_extent (mk_extent cnid 0) (set_kind ODFS_NODE_DIR node))))
  else
    if data_len <? 88 then Ret None
    else
      let node := set_kind ODFS_NODE_FILE node in
      node ← (if 168 <=? data_len then
                dfork ← hfsp_parse_fork data 88;
                Ret (set_extent (mk_extent (default 0 (start_block <$> extents dfork !! 0%nat)) (u32 (logical_size dfork)))
                       (set_size (logical_size dfork) node))
              else Ret node);
      t ← hfsp_be32 data 16;
      let t := odfs_timestamp_from_mac_time t in
      Ret (Some (set_times t t node)).

Section readdir.
Context {T : Type} (callback : odfs_node → T → odfs_err * T) (dir : odfs_node) (skip_to : Z) (resume : option Z).
(* [src: backends/hfsplus/hfsplus.c:532-613 hfsp_readdir_record_cb] *)
Definition hfsp_readdir_record_cb (key data : list Z) (data_len : Z) (rc : hfsp_readdir_ctx T) : outcome (odfs_err * hfsp_readdir_ctx T) :=
  shown ← record_shown key data data_len;
  match shown with
  | None => Ret (ODFS_OK, rc)
  | Some (rec_type, key_namelen) =>
      let i := next_node_id (hc_hctx rc) in
      let hctx := set_next_node_id (u32 (i + 1)) (hc_hctx rc) in
      nm ← hfsp_key_name key key_namelen;
      if bool_decide (nm = []) then Ret (ODFS_OK, mk_hc hctx (hc_cb rc) (hc_entry_index rc) (hc_resume rc) (hc_last_err rc) (hc_namefix rc))
      else
        let '(err, namefix, nm) := odfs_namefix_apply malloc (hc_namefix rc) nm ODFS_NAME_MAX in
        if negb (err_ok err)
        then Ret (err, mk_hc hctx (hc_cb rc) (hc_entry_index rc) (hc_resume rc) err namefix)
        else if hc_entry_index rc <? skip_to then
          entry_index ← int_incr (hc_entry_index rc);
          Ret (ODFS_OK, mk_hc hctx (hc_cb rc) entry_index (hc_resume rc) (hc_last_err rc) namefix)
        else
          node ← hfsp_record_node rec_type data data_len
                   (mk_node i (id dir) ODFS_BACKEND_HFSPLUS ODFS_NODE_FILE nm 0 timestamp_zero timestamp_zero 0 amiga_as_zero (mk_extent 0 0) 0);
          match node with
          | None => Ret (ODFS_OK, mk_hc hctx (hc_cb rc) (hc_entry_index rc) (hc_resume rc) (hc_last_err rc) namefix)
          | Some node =>
              entry_index ← int_incr (hc_entry_index rc);
              let '(err, t) := callback node (hc_cb rc) in
              if negb (err_ok err)
              then Ret (err, mk_hc hctx t entry_index ((λ _, u32 entry_index) <$> resume) err namefix)
              else Ret (ODFS_OK, mk_hc hctx t entry_index (hc_resume rc) (hc_last_err rc) namefix)
          end
  end.
End readdir.
(** Result: error, the new [*resume_offset], context, cache, callback state. *)
(* [src: backends/hfsplus/hfsplus.c:615-648 hfsp_readdir] *)
Definition hfsp_readdir {T} (fuel : nat) (callback : odfs_node → T → odfs_err * T) (ctx : hfsplus_context) (c : C) (dir : odfs_node) (t : T)
    (resume : option Z) : outcome (odfs_err * option Z * hfsplus_context * C * T) :=
  let rc := mk_hc ctx t 0 resume ODFS_OK odfs_namefix_init in
  '(err, rc, c) ← hfsp_walk_catalog (hfsp_readdir_record_cb callback dir (to_int (default 0 resume)) resume) fuel ctx c (lba (extent dir)) rc;
  if negb (err_ok (hc_last_err rc)) then Ret (hc_last_err rc, hc_resume rc, hc_hctx rc, c, hc_cb rc)
  else Ret (err, (λ _, u32 (hc_entry_index rc)) <$> resume, hc_hctx rc, c, hc_cb rc).

(** ** Reading and looking up *)

(** Result: error, buffer, length, cache. *)
(* [src: backends/hfsplus/hfsplus.c:654-675 hfsp_read] *)
Definition hfsp_read (ctx : hfsplus_context) (c : C) (file : odfs_node) (offset : Z) (buf : list Z) (len : Z) : odfs_err * list Z * Z * C :=
  if size file <=? offset then (ODFS_OK, buf, 0, c)
  else
    let want := if size file - offset <? len then size file - offset else len in
    bc_read_bytes c 0 (u64 (hfsp_block_to_byte ctx (lba (extent file)) + offset)) buf want.
(* [src: backends/hfsplus/hfsplus.c:687-696 hfsp_lookup_cb] *)
Definition hfsp_lookup_cb (nm : list Z) (entry : odfs_node) (found : option odfs_node) : odfs_err * option odfs_node :=
  if odfs_strcasecmp (name entry) nm =? 0 then (ODFS_ERR_EOF, Some entry) else (ODFS_OK, found).
(* [src: backends/hfsplus/hfsplus.c:698-712 hfsp_lookup] *)
Definition hfsp_lookup (fuel : nat) (ctx : hfsplus_context) (c : C) (dir : odfs_node) (nm : list Z)
    : outcome (odfs_err * option odfs_node * hfsplus_context * C) :=
  '(err, _, ctx, c, found) ← hfsp_readdir fuel (hfsp_lookup_cb nm) ctx c dir None None;
  let err := if bool_decide (err = ODFS_ERR_EOF) && bool_decide (is_Some found) then ODFS_OK
             else if negb (err_ok err) then err
             else if bool_decide (is_Some found) then ODFS_OK else ODFS_ERR_NOT_FOUND in
  Ret (err, found, ctx, c).

(** ** Parents *)

(** The parent's number, once found. *)
(* [src: backends/hfsplus/hfsplus.c:723-744 hfsp_thread_record_cb] *)
Definition hfsp_thread_record_cb (key data : list Z) (data_len : Z) (info : option Z) : outcome (odfs_err * option Z) :=
  if data_len <? 8 then Ret (ODFS_OK, info)
  else
    rec_type ← hfsp_be16 data 0;
    if negb (s16 rec_type =? HFSPLUS_FOLDER_THREAD) then Ret (ODFS_OK, info)
    else parent ← hfsp_be32 data 4; Ret (ODFS_ERR_EOF, Some parent).
(* [src: backends/hfsplus/hfsplus.c:746-762 hfsp_read_thread] *)
Definition hfsp_read_thread (fuel : nat) (ctx : hfsplus_context) (c : C) (cnid : Z) : outcome (odfs_err * Z * C) :=
  '(err, info, c) ← hfsp_walk_catalog hfsp_thread_record_cb fuel ctx c cnid None;
  match info with
  | Some parent => Ret (ODFS_OK, parent, c)
  | None => Ret (if err_ok err || bool_decide (err = ODFS_ERR_EOF) then ODFS_ERR_NOT_FOUND else err, 0, c)
  end.
(* [src: backends/hfsplus/hfsplus.c:770-781 hfsp_cnid_match_cb] *)
Definition hfsp_cnid_match_cb (want_cnid : Z) (entry : odfs_node) (found : option odfs_node) : odfs_err * option odfs_node :=
  if bool_decide (kind entry = ODFS_NODE_DIR) && (lba (extent entry) =? want_cnid)
  then (ODFS_ERR_EOF, Some entry) else (ODFS_OK, found).
(* [src: backends/hfsplus/hfsplus.c:783-804 hfsp_find_child_by_cnid] *)
Definition hfsp_find_child_by_cnid (fuel : nat) (ctx : hfsplus_context) (c : C) (parent_dir : odfs_node) (child_cnid : Z)
    : outcome (odfs_err * option odfs_node * hfsplus_context * C) :=
  '(err, _, ctx, c, found) ← hfsp_readdir fuel (hfsp_cnid_match_cb child_cnid) ctx c parent_dir None None;
  let err := if bool_decide (is_Some found) then ODFS_OK
             else if err_ok err || bool_decide (err = ODFS_ERR_EOF) then ODFS_ERR_NOT_FOUND else err in
  Ret (err, found, ctx, c).
(* [src: backends/hfsplus/hfsplus.c:806-815 hfsp_dir_stub] *)
Definition hfsp_dir_stub (cnid : Z) : odfs_node := hfsp_dir_node cnid [] timestamp_zero.
(** The directory with a number, to be enumerated. *)
Definition hfsp_dir_at (ctx : hfsplus_context) (cnid : Z) : odfs_node :=
  if cnid =? HFSPLUS_CNID_ROOT then root ctx else hfsp_dir_stub cnid.
(** [want_gp] says that [grandparent_out] is not NULL.  Result: error, parent, grandparent. *)
(* [src: backends/hfsplus/hfsplus.c:817-891 hfsp_resolve_parent] *)
Definition hfsp_resolve_parent (fuel : nat) (ctx : hfsplus_context) (c : C) (dir : odfs_node) (want_gp : bool)
    : outcome (odfs_err * option odfs_node * option odfs_node * hfsplus_context * C) :=
  if negb (bool_decide (kind dir = ODFS_NODE_DIR)) then Ret (ODFS_ERR_NOT_DIR, None, None, ctx, c)
  else if lba (extent dir) =? HFSPLUS_CNID_ROOT then Ret (ODFS_ERR_NOT_FOUND, None, None, ctx, c)
  else
    '(err, parent, c) ← hfsp_read_thread fuel ctx c (lba (extent dir));
    if negb (err_ok err) then Ret (err, None, None, ctx, c)
    else if parent =? HFSPLUS_CNID_ROOT
    then Ret (ODFS_OK, Some (root ctx), if want_gp then Some (root ctx) else None, ctx, c)
    else
      '(err, gp, c) ← hfsp_read_thread fuel ctx c parent;
      if negb (err_ok err) then Ret (err, None, None, ctx, c)
      else
        '(err, parent_out, ctx, c) ← hfsp_find_child_by_cnid fuel ctx c (hfsp_dir_at ctx gp) parent;
        if negb (err_ok err) || negb want_gp then Ret (err, parent_out, None, ctx, c)
        else if gp =? HFSPLUS_CNID_ROOT then Ret (ODFS_OK, parent_out, Some (root ctx), ctx, c)
        else
          '(err, ggp, c) ← hfsp_read_thread fuel ctx c gp;
          if negb (err_ok err) then Ret (err, parent_out, None, ctx, c)
          else
            '(err, gp_out, ctx, c) ← hfsp_find_child_by_cnid fuel ctx c (hfsp_dir_at ctx ggp) gp;
            Ret (err, parent_out, gp_out, ctx, c).

(** ** The volume *)

(* [src: backends/hfsplus/hfsplus.c:897-906 hfsp_get_volume_name] *)
Definition hfsp_get_volume_name (ctx : hfsplus_context) (buf_size : Z) : odfs_err * list Z :=
  (ODFS_OK, take (Z.to_nat (buf_size - 1)) (volume_name ctx)).
(* [src: backends/hfsplus/hfsplus.c:912-919 hfsp_get_volume_size] *)
Definition hfsp_get_volume_size (ctx : hfsplus_context) : Z :=
  let blocks := (total_blocks ctx * block_size ctx + 2047) / 2048 in
  if UINT32_MAX <? blocks then UINT32_MAX else blocks.
End hfsplus.
Arguments hfsp_readdir_ctx T : clear implicits.
Arguments mk_hc {T}.
Arguments hc_hctx {T}.
Arguments hc_cb {T}.
Arguments hc_entry_index {T}.
Arguments hc_resume {T}.
Arguments hc_last_err {T}.
Arguments hc_namefix {T}.
