(* ===== verification/HfsPlusNodes.v ===== *)
(** * Forks and nodes of an HFS+ volume

    A fork is the bytes of its extents one after the other; [hfsp_read_fork] reads any
    range of it exactly, across extents and sectors, and reports a range that is not
    all there.  A node is a range of the catalog's fork, [hfsp_decode] what it says when
    it is well formed; the walk over the disc is the walk over the nodes. *)
From S2P Require Import Prelude Types Media CacheApi Catalog HfsNodes HfsPlus.
Open Scope Z_scope.

Section forks.
Context {C : Type} {HO : CacheOps C} (img : Z → list Z) (inv ok : C → Prop) (ptr : C → Z → Prop) (readable : Z → Prop).
Context {HL : CacheLaws C img 2048 inv ok ptr} {HR : CacheReadable C ok readable}.

Lemma fork_loop_exact fuel : ∀ c phys off ext_bytes len offset buf, ok c → 0 ≤ phys → 0 ≤ off ≤ ext_bytes → phys + (ext_bytes - off) ≤ 2 ^ 43 →
  zlen buf ≤ len → len - zlen buf ≤ Z.of_nat fuel → 0 ≤ offset → offset + (len - zlen buf) < 2 ^ 64 →
  (∀ o, phys ≤ o < phys + (ext_bytes - off) → readable (o / 2048)) →
  let n := Z.min (len - zlen buf) (ext_bytes - off) in
  ∃ c', fork_loop fuel c phys off ext_bytes len offset buf = Ret (ODFS_OK, buf ++ disc_bytes img 2048 phys n, offset + n, c') ∧ ok c'.
Proof.
  induction fuel as [|fuel IH]; intros c phys off ext_bytes len offset buf Hok Hp Ho Hend Hb Hf Ho0 Ho64 Hrd n; cbn [fork_loop].
  { rewrite (proj2 (Z.ltb_ge _ _)) by lia. exists c. replace n with 0 by lia. by rewrite app_nil_r, Z.add_0_r. }
  destruct (_ && _) eqn:E; b2p.
  2: { exists c. replace n with 0 by lia. by rewrite app_nil_r, Z.add_0_r. }
  pose proof (Z.mod_pos_bound phys 2048 ltac:(lia)) as Hm. pose proof (Z.div_mod phys 2048 ltac:(lia)) as Hdm. cbv zeta.
  set (chunk := if ext_bytes - off <? _ then _ else _).
  assert (Hc : 0 < chunk ≤ n ∧ phys mod 2048 + chunk ≤ 2048) by (unfold chunk; repeat case_test; b2p; lia).
  rewrite u32_small by (unfold is_u32; dlia).
  destruct (read_piece img inv ok ptr readable c (phys / 2048) (phys mod 2048) chunk) as (p & c1 & He & Hok1 & Hd);
    [done|unfold is_u32; dlia|apply Hrd; lia|lia..|].
  rewrite He. change (negb (err_ok ODFS_OK)) with false. cbv iota. rewrite Hd. cbn [mbind outcome_bind].
  replace (phys / 2048 * 2048 + phys mod 2048) with phys by lia. unfold u64. rewrite !Z.mod_small by lia.
  pose proof (length_disc_bytes img 2048 phys chunk ltac:(lia)) as Hl.
  assert (Hlb : zlen (buf ++ disc_bytes img 2048 phys chunk) = zlen buf + chunk) by (rewrite length_app; lia).
  destruct (IH c1 (phys + chunk) (off + chunk) ext_bytes len (offset + chunk) (buf ++ disc_bytes img 2048 phys chunk) Hok1) as (c' & He' & Hok');
    [lia..|intros o Ho'; apply Hrd; lia|].
  exists c'. split; [|done]. rewrite He', Hlb, <- app_assoc.
  replace (Z.min (len - (zlen buf + chunk)) (ext_bytes - (off + chunk))) with (n - chunk) by lia.
  assert (Hsplit : disc_bytes img 2048 phys n = disc_bytes img 2048 phys chunk ++ disc_bytes img 2048 (phys + chunk) (n - chunk)).
  { rewrite <- disc_bytes_app by lia. f_equal. lia. }
  rewrite Hsplit. by replace (offset + chunk + (n - chunk)) with (offset + n) by lia.
Qed.

(** ** Forks *)
Section fork.
Context (ctx : hfsplus_context).
Abbreviation bytes_of e := (block_count e * block_size ctx).

(** An extent without blocks ends the fork. *)
Fixpoint fork_image (exts : list hfsp_extent) : list Z :=
  match exts with
  | [] => []
  | e :: exts => if bytes_of e =? 0 then [] else disc_bytes img 2048 (hfsp_block_to_byte ctx (start_block e)) (bytes_of e) ++ fork_image exts
  end.
(** An extent lies where sector numbers reach, and can be read. *)
Definition extent_ok (e : hfsp_extent) : Prop :=
  0 ≤ bytes_of e ∧ hfsp_block_to_byte ctx (start_block e) + bytes_of e ≤ 2 ^ 43 ∧
  ∀ o, hfsp_block_to_byte ctx (start_block e) ≤ o < hfsp_block_to_byte ctx (start_block e) + bytes_of e → readable (o / 2048).

Lemma fork_full exts c offset ext_offset buf : fork_extents ctx c exts offset ext_offset (zlen buf) buf = Ret (ODFS_OK, buf, c).
Proof. destruct exts; cbn [fork_extents]; by rewrite ?Z.ltb_irrefl, Z.eqb_refl. Qed.
Lemma fork_extents_exact exts : ∀ c offset ext_offset len buf, Forall extent_ok exts → ok c → 0 ≤ ext_offset ≤ offset → zlen buf ≤ len → offset + (len - zlen buf) < 2 ^ 64 →
  let got := buf ++ slice (fork_image exts) (offset - ext_offset) (len - zlen buf) in
  ∃ c', fork_extents ctx c exts offset ext_offset len buf = Ret (if zlen got =? len then ODFS_OK else ODFS_ERR_IO, got, c') ∧ ok c'.
Proof.
  induction exts as [|e exts IH]; intros c offset ext_offset len buf Hall Hok Ho Hb H64 got; cbn [fork_extents fork_image] in *.
  { exists c. unfold got, slice. by rewrite drop_nil, take_nil, app_nil_r. }
  apply Forall_cons in Hall as [(Hn & Hfit & Hrd) Hall]. set (n := bytes_of e) in *. set (b := hfsp_block_to_byte ctx (start_block e)) in *.
  destruct (zlen buf <? len) eqn:Elen; b2p.
  2: { exists c. unfold got, slice. replace (len - zlen buf) with 0 by lia. change (Z.to_nat 0) with 0%nat. by rewrite take_0, app_nil_r. }
  destruct (n =? 0) eqn:En; b2p.
  { exists c. unfold got, slice. by rewrite drop_nil, take_nil, app_nil_r. }
  assert (Hb0 : 0 ≤ b) by (unfold b, hfsp_block_to_byte, u64; apply Z.mod_pos_bound; lia).
  pose proof (length_disc_bytes img 2048 b n Hn) as Hlen. destruct (offset <? ext_offset + n) eqn:Eo; b2p.
  - cbv zeta. set (o := offset - ext_offset) in *.
    assert (Hphys : u64 (b + o) = b + o) by (unfold u64; apply Z.mod_small; lia). rewrite Hphys.
    destruct (fork_loop_exact (Z.to_nat len) c (b + o) o n len offset buf Hok) as (c1 & Hr & Hok1); [lia..|intros x Hx; apply Hrd; lia|].
    rewrite Hr. cbn [mbind outcome_bind]. change (negb (err_ok ODFS_OK)) with false. cbv iota.
    set (m := Z.min (len - zlen buf) (n - o)) in *. pose proof (length_disc_bytes img 2048 (b + o) m ltac:(lia)) as Hlm.
    assert (Hl1 : zlen (buf ++ disc_bytes img 2048 (b + o) m) = zlen buf + m) by (rewrite length_app; lia).
    assert (Hgot : got = (buf ++ disc_bytes img 2048 (b + o) m) ++ slice (fork_image exts) 0 (len - (zlen buf + m))).
    { unfold got. rewrite <- app_assoc. f_equal. destruct (decide (len - zlen buf ≤ n - o)) as [Hle|Hgt].
      - replace m with (len - zlen buf) by lia. rewrite slice_app_l by lia. rewrite slice_disc_bytes by lia.
        replace (len - (zlen buf + (len - zlen buf))) with 0 by lia. unfold slice at 1. change (Z.to_nat 0) with 0%nat. by rewrite take_0, app_nil_r.
      - rewrite slice_app_span by lia. rewrite Hlen, slice_disc_bytes by lia. replace m with (n - o) by lia. do 2 f_equal. lia. }
    rewrite Hgot. destruct (decide (len - zlen buf ≤ n - o)) as [Hle|Hgt].
    + assert (Hfull : zlen buf + m = len) by lia. rewrite <- Hfull, <- Hl1, fork_full, Z.sub_diag.
      exists c1. unfold slice. change (Z.to_nat 0) with 0%nat. by rewrite take_0, app_nil_r, Z.eqb_refl.
    + destruct (IH c1 (offset + m) (ext_offset + n) len (buf ++ disc_bytes img 2048 (b + o) m) Hall Hok1) as (c2 & Hr2 & Hok2); [lia..|].
      rewrite Hr2, Hl1. replace (offset + m - (ext_offset + n)) with 0 by lia. by exists c2.
  - destruct (IH c offset (ext_offset + n) len buf Hall Hok) as (c2 & Hr2 & Hok2); [lia..|]. exists c2. split; [|done]. rewrite Hr2.
    unfold got. rewrite slice_app_r by lia. by replace (offset - ext_offset - zlen (disc_bytes img 2048 b n)) with (offset - (ext_offset + n)) by lia.
Qed.
(** Any range of a fork: what of it is there, and an error if that is not all. *)
Lemma read_fork_exact fork c offset len : Forall extent_ok (extents fork) → ok c → 0 ≤ offset → 0 ≤ len → offset + len < 2 ^ 64 →
  let got := slice (fork_image (extents fork)) offset len in
  ∃ c', hfsp_read_fork ctx c fork offset len = Ret (if zlen got =? len then ODFS_OK else ODFS_ERR_IO, got, c') ∧ ok c'.
Proof.
  intros Hall Hok Ho Hl H64 got. destruct (fork_extents_exact (extents fork) c offset 0 len [] Hall Hok) as (c' & Hr & Hok'); [simpl; lia..|].
  exists c'. split; [|done]. unfold hfsp_read_fork. rewrite Hr. cbn [app]. by rewrite !Z.sub_0_r.
Qed.
End fork.
End forks.

(** ** What a node says *)
Section decode.
Context (node : list Z) (node_size : Z).

Definition hfsp_dec_record (r : Z) : outcome cat_rec :=
  roff ← hfsp_rec_offset node node_size r;
  next_roff ← hfsp_rec_offset node node_size (r + 1);
  guard_ (roff + 8 <? node_size) (
    keylen ← hfsp_be16 node roff;
    guard_ (2 + keylen <=? node_size - roff) (
      key_parent ← hfsp_be32 node (roff + 2);
      let data_off := roff + 2 + keylen in
      let data_off := if Z.land data_off 1 =? 0 then data_off else data_off + 1 in
      guard_ ((data_off + 2 <=? next_roff) && (next_roff <=? node_size)) (
        key ← rd_range node roff (2 + keylen);
        data ← rd_range node data_off (next_roff - data_off);
        Ret (mk_cat_rec key_parent key data)))).
Fixpoint hfsp_dec_records (n : nat) (r : Z) : outcome (list cat_rec) :=
  match n with
  | O => Ret []
  | S n => x ← hfsp_dec_record r; xs ← hfsp_dec_records n (r + 1); Ret (x :: xs)
  end.
Definition hfsp_dec_entry (r : Z) : outcome (Z * Z) :=
  roff ← hfsp_rec_offset node node_size r;
  guard_ (roff + 6 <? node_size) (
    key_parent ← hfsp_be32 node (roff + 2);
    keylen ← hfsp_be16 node roff;
    guard_ (roff + 2 + keylen + 4 <=? node_size) (ptr ← hfsp_be32 node (roff + 2 + keylen); Ret (key_parent, ptr))).
Fixpoint hfsp_dec_entries (n : nat) (r : Z) : outcome (list (Z * Z)) :=
  match n with
  | O => Ret []
  | S n => x ← hfsp_dec_entry r; xs ← hfsp_dec_entries n (r + 1); Ret (x :: xs)
  end.
Definition hfsp_parse_node : outcome cat_node :=
  type ← rd node 8;
  nrecs ← hfsp_read_record_count node node_size;
  match nrecs with
  | None => Fault
  | Some nrecs =>
      if type =? 0xFF then
        recs ← hfsp_dec_records (Z.to_nat nrecs) 0; next ← hfsp_be32 node 0; Ret (CatLeaf next recs)
      else if type =? 0x00 then
        entries ← hfsp_dec_entries (Z.to_nat nrecs) 0; Ret (CatIndex entries)
      else Fault
  end.

Lemma hfsp_parse_halts : hfsp_parse_node ≠ Diverge.
Proof.
  assert (H16 : ∀ i, hfsp_be16 node i ≠ Diverge) by (intros i; exact (halts_be16 node i)).
  assert (H32 : ∀ i, hfsp_be32 node i ≠ Diverge) by (intros i; exact (halts_be32 node i)).
  assert (Hret : ∀ A (a : A), Ret a ≠ Diverge) by done.
  pose proof @halts_bind as Hb. pose proof @halts_range as Hrg. pose proof @halts_guard as Hg. pose proof @halts_rd as Hrd.
  assert (Hr : ∀ n r, hfsp_dec_records n r ≠ Diverge).
  { induction n as [|n IH]; intros r; cbn [hfsp_dec_records]; [done|]. unfold hfsp_dec_record, hfsp_rec_offset. eauto 30. }
  assert (He : ∀ n r, hfsp_dec_entries n r ≠ Diverge).
  { induction n as [|n IH]; intros r; cbn [hfsp_dec_entries]; [done|]. unfold hfsp_dec_entry, hfsp_rec_offset. eauto 30. }
  unfold hfsp_parse_node. apply halts_bind; [apply halts_rd|intros t]. apply halts_bind; [unfold hfsp_read_record_count; case_test; eauto|].
  intros [nrecs|]; [|done]. repeat case_test; eauto.
Qed.

(** The loops over a node's records go over what it decodes to. *)
Lemma hfsp_index_refines cnid n : ∀ r child entries, hfsp_dec_entries n r = Ret entries →
  hfsp_index_child node node_size cnid n r child = Ret (cat_pick cnid entries child).
Proof.
  induction n as [|n IH]; intros r child entries; cbn [hfsp_dec_entries hfsp_index_child]; [by intros [= <-]|]. intros H. unbind H. injection H as <-.
  unfold hfsp_dec_entry in E. unbind E. injection E as <-. b2p.
  rewrite E1. cbn [mbind outcome_bind]. rewrite (proj2 (Z.leb_gt _ _)), E3, E4 by lia. cbn [mbind outcome_bind]. cbv zeta.
  rewrite (proj2 (Z.ltb_ge _ _)), E6 by lia. cbn [mbind outcome_bind cat_pick].
  destruct (cnid <=? _); [done|]. by apply IH.
Qed.
Lemma hfsp_leaf_refines {S} (callback : list Z → list Z → Z → S → outcome (odfs_err * S)) cnid n : looks_inside callback → zlen node = node_size →
  ∀ r found s recs, hfsp_dec_records n r = Ret recs →
  hfsp_leaf_loop callback node node_size cnid n r found s = cat_leaf cnid callback recs found s.
Proof.
  intros Hin Hlen. induction n as [|n IH]; intros r found s recs; cbn [hfsp_dec_records hfsp_leaf_loop]; [by intros [= <-]|]. intros H. unbind H. injection H as <-.
  specialize (IH (r + 1)). unfold hfsp_dec_record in E. unbind E. injection E as <-. b2p. cbn [cat_leaf cr_parent cr_key cr_data].
  rewrite E1, E2. cbn [mbind outcome_bind]. rewrite (proj2 (Z.leb_gt _ _)), E4 by lia. cbn [mbind outcome_bind].
  rewrite (proj2 (Z.ltb_ge _ _)), E6 by lia. cbn [mbind outcome_bind].
  destruct (_ <? cnid); [by apply IH|]. destruct (cnid <? _); [done|]. cbv zeta.
  set (d := if Z.land (x1 + 2 + x3) 1 =? 0 then x1 + 2 + x3 else x1 + 2 + x3 + 1) in *.
  rewrite (proj2 (Z.ltb_lt d x2)), (proj2 (Z.ltb_ge node_size (d + 2))), (proj2 (Z.ltb_ge (x2 - d) 2)), E8 by lia. cbn [orb mbind outcome_bind].
  assert (Hdata : x6 = take (Z.to_nat (x2 - d)) (mem_at node d) ∧ zlen x6 = x2 - d ∧ x2 - d ≤ zlen (mem_at node d)).
  { revert E9. unfold rd_range. case_test; [|done]. intros [= <-]. b2p. unfold mem_at. rewrite (proj2 (Z.leb_le _ _)) by lia.
    split_and!; [done|rewrite length_slice; lia|rewrite length_drop; lia]. }
  destruct Hdata as (-> & Hl & Hm). rewrite Hl. rewrite (Hin _ (mem_at node d)) by lia.
  destruct (callback _ _ _ s) as [[err s']| |]; [|done..]. cbn [mbind outcome_bind]. destruct (err_ok err); [by apply IH|done].
Qed.
End decode.

(** The kind of a node and the number of its records. *)
Lemma hfsp_parse_cases bytes ns node : hfsp_parse_node bytes ns = Ret node →
  ∃ t nrecs, rd bytes 8 = Ret t ∧ hfsp_read_record_count bytes ns = Ret (Some nrecs) ∧
    match node with
    | CatLeaf next recs => t = 0xFF ∧ hfsp_dec_records bytes ns (Z.to_nat nrecs) 0 = Ret recs ∧ hfsp_be32 bytes 0 = Ret next
    | CatIndex entries => t = 0x00 ∧ hfsp_dec_entries bytes ns (Z.to_nat nrecs) 0 = Ret entries
    end.
Proof.
  intros H. unfold hfsp_parse_node in H. unbind H. destruct x0 as [nrecs|]; [|done]. exists x, nrecs. split_and!; [done..|].
  destruct (x =? 0xFF) eqn:El; b2p; [unbind H; by injection H as <-|].
  destruct (x =? 0x00) eqn:Ei; b2p; [unbind H; by injection H as <-|done].
Qed.
Lemma hfsp_first_parent bytes ns n rec recs : hfsp_dec_records bytes ns n 0 = Ret (rec :: recs) →
  ∃ off, hfsp_rec_offset bytes ns 0 = Ret off ∧ off + 6 < ns ∧ hfsp_be32 bytes (off + 2) = Ret (cr_parent rec).
Proof.
  destruct n as [|n]; [done|]. cbn [hfsp_dec_records]. intros H. unbind H. injection H as -> <-. unfold hfsp_dec_record in E. unbind E. injection E as <-.
  b2p. eexists. split_and!; [done|lia|done].
Qed.

(** ** The walk over the disc is the walk over the nodes *)
Section walk.
Context {C : Type} {HO : CacheOps C} (img : Z → list Z) (inv ok : C → Prop) (ptr : C → Z → Prop) (readable : Z → Prop).
Context {HL : CacheLaws C img 2048 inv ok ptr} {HR : CacheReadable C ok readable}.
Context (ctx : hfsplus_context) (Hread : Forall (extent_ok readable ctx) (extents (cat_fork ctx))) (Hsize : 14 ≤ cat_node_size ctx ≤ 32768).

(** A node is a range of the catalog's fork. *)
Definition hfsp_node_bytes (n : Z) : option (list Z) :=
  let bytes := slice (fork_image img ctx (extents (cat_fork ctx))) (n * cat_node_size ctx) (cat_node_size ctx) in
  if (0 <=? n) && (n <? 2 ^ 32) && (zlen bytes =? cat_node_size ctx) then Some bytes else None.
Definition hfsp_decode (n : Z) : outcome cat_node :=
  match hfsp_node_bytes n with Some bytes => hfsp_parse_node bytes (cat_node_size ctx) | None => Fault end.
Lemma hfsp_decode_halts n : hfsp_decode n ≠ Diverge.
Proof. unfold hfsp_decode. destruct (hfsp_node_bytes n); [apply hfsp_parse_halts|done]. Qed.
Lemma hfsp_read_node_exact c n bytes : ok c → hfsp_node_bytes n = Some bytes →
  zlen bytes = cat_node_size ctx ∧ ∃ c', hfsp_read_node ctx c n = Ret (ODFS_OK, bytes, c') ∧ ok c'.
Proof.
  intros Hok. unfold hfsp_node_bytes. cbv zeta. destruct (_ && _) eqn:E; [|done]. intros [= <-]. b2p. split; [done|].
  destruct (read_fork_exact img inv ok ptr readable ctx (cat_fork ctx) c (n * cat_node_size ctx) (cat_node_size ctx) Hread Hok) as (c' & Hr & Hok'); [nia..|].
  exists c'. split; [|done]. unfold hfsp_read_node. rewrite Hr. by rewrite (proj2 (Z.eqb_eq _ _)).
Qed.
Lemma hfsp_decode_read c n node : ok c → hfsp_decode n = Ret node →
  ∃ bytes c', hfsp_read_node ctx c n = Ret (ODFS_OK, bytes, c') ∧ ok c' ∧ zlen bytes = cat_node_size ctx ∧ hfsp_parse_node bytes (cat_node_size ctx) = Ret node.
Proof.
  intros Hok. unfold hfsp_decode. destruct (hfsp_node_bytes n) as [bytes|] eqn:Hb; [|done]. intros Hp.
  destruct (hfsp_read_node_exact c n bytes Hok Hb) as (Hl & c' & He & Hok'). by exists bytes, c'.
Qed.

Lemma hfsp_descend_simulates cnid depth : ∀ c cur, ok c → simulates ok (cat_descend hfsp_decode cnid depth cur) (hfsp_descend ctx c cnid depth cur).
Proof.
  induction depth as [|depth IH]; intros c cur Hok; cbn [cat_descend hfsp_descend]; [by exists c|].
  destruct (hfsp_decode cur) as [node| |] eqn:Hd; [|done|by apply hfsp_decode_halts in Hd]. cbn [mbind outcome_bind].
  destruct (hfsp_decode_read c cur node Hok Hd) as (bytes & c' & -> & Hok' & Hl & Hp). cbn [mbind outcome_bind].
  change (negb (err_ok ODFS_OK)) with false. cbv iota.
  apply hfsp_parse_cases in Hp as (t & nrecs & -> & Hn & Hp). cbn [mbind outcome_bind]. destruct node as [next recs|entries].
  - destruct Hp as (-> & _). by exists c'.
  - destruct Hp as (-> & He). change (0x00 =? 0xFF) with false. change (negb (0x00 =? 0x00)) with false. cbv iota.
    rewrite Hn. cbn [mbind outcome_bind]. rewrite (hfsp_index_refines _ _ cnid _ 0 0 entries He). cbn [mbind outcome_bind].
    destruct (_ =? 0); [by exists c'|by apply IH].
Qed.
Lemma hfsp_peek_simulates cnid found c next : ok c → simulates ok (cat_peek hfsp_decode cnid found next)
  ('(err, go_on, c) ← hfsp_peek ctx c cnid found next; if err_ok err then Ret (go_on, c) else Fault).
Proof.
  intros Hok. unfold cat_peek, hfsp_peek. case_test; [|by exists c].
  destruct (hfsp_decode next) as [node| |] eqn:Hd; [|done|by apply hfsp_decode_halts in Hd]. cbn [mbind outcome_bind].
  destruct (hfsp_decode_read c next node Hok Hd) as (bytes & c' & -> & Hok' & Hl & Hp). cbn [mbind outcome_bind].
  change (negb (err_ok ODFS_OK)) with false. cbv iota.
  apply hfsp_parse_cases in Hp as (t & nrecs & -> & _ & Hp). cbn [mbind outcome_bind]. destruct node as [next' [|r recs]|entries]; [done| |].
  - destruct Hp as (-> & Hr & _). apply hfsp_first_parent in Hr as (off & -> & Ho & Hk). change (negb (0xFF =? 0xFF)) with false.
    cbn [mbind outcome_bind]. rewrite (proj2 (Z.ltb_lt _ _)), Hk by done. by exists c'.
  - destruct Hp as (-> & _). by exists c'.
Qed.

Section callback.
Context {S : Type} (callback : list Z → list Z → Z → S → outcome (odfs_err * S)) (Hin : looks_inside callback) (cnid : Z).

Lemma hfsp_scan_simulates fuel : ∀ c cur found s, ok c →
  simulates ok (cat_scan hfsp_decode cnid callback fuel cur found s) (hfsp_scan_leaves callback fuel ctx c cnid cur found s).
Proof.
  induction fuel as [|fuel IH]; intros c cur found s Hok; cbn [cat_scan hfsp_scan_leaves]; (case_test; [by exists c|]); [done|].
  destruct (hfsp_decode cur) as [node| |] eqn:Hd; [|done|by apply hfsp_decode_halts in Hd]. cbn [mbind outcome_bind].
  destruct (hfsp_decode_read c cur node Hok Hd) as (bytes & c' & -> & Hok' & Hl & Hp). cbn [mbind outcome_bind].
  change (negb (err_ok ODFS_OK)) with false. cbv iota.
  apply hfsp_parse_cases in Hp as (t & nrecs & -> & Hn & Hp). cbn [mbind outcome_bind]. destruct node as [next recs|entries].
  - destruct Hp as (-> & Hr & Hx). change (negb (0xFF =? 0xFF)) with false. rewrite Hn. cbn [mbind outcome_bind].
    rewrite (hfsp_leaf_refines _ _ callback cnid _ Hin Hl 0 found s recs Hr).
    destruct (cat_leaf cnid callback recs found s) as [[[err|found'] s']| |]; cbn [mbind outcome_bind]; [by exists c'| |done..].
    rewrite Hx. cbn [mbind outcome_bind]. pose proof (hfsp_peek_simulates cnid found' c' next Hok') as Hpk.
    destruct (cat_peek hfsp_decode cnid found' next) as [go| |]; cbn [mbind outcome_bind]; [|done|].
    + destruct Hpk as (c2 & Hpk & Hok2). apply bind_Ret in Hpk as ([[err b] c3] & -> & Hpk). destruct (err_ok err) eqn:He; [|done].
      injection Hpk as -> ->. cbn [mbind outcome_bind]. rewrite He. cbn [negb]. destruct go; [by apply IH|by exists c2].
    + cbn [simulates] in *. destruct (hfsp_peek ctx c' cnid found' next) as [[[err b] c3]| |]; [|done..]. cbn [mbind outcome_bind] in Hpk. by destruct (err_ok err).
  - destruct Hp as (-> & _). by exists c'.
Qed.
Lemma hfsp_walk_simulates fuel c s : ok c →
  simulates ok (cat_walk hfsp_decode cnid callback fuel (cat_root_node ctx) s) (hfsp_walk_catalog true callback fuel ctx c cnid s).
Proof.
  intros Hok. unfold cat_walk, hfsp_walk_catalog. pose proof (hfsp_descend_simulates cnid 20 c (cat_root_node ctx) Hok) as Hd. cbn [negb].
  destruct (cat_descend _ _ _ _) as [r| |]; cbn [mbind outcome_bind]; [|done|by rewrite Hd].
  destruct Hd as (c' & -> & Hok'). cbn [mbind outcome_bind]. destruct r as [err|leaf]; [by exists c'|by apply hfsp_scan_simulates].
Qed.
(** On a well-formed catalog the walk is the callback on the directory's records. *)
Lemma hfsp_walk_runs fuel c s leaves : ok c → catalog hfsp_decode (cat_root_node ctx) leaves → (length leaves ≤ fuel)%nat →
  simulates ok (run_records callback (of_dir cnid (recs_of leaves)) s) (hfsp_walk_catalog true callback fuel ctx c cnid s).
Proof. intros Hok Hc Hf. rewrite <- (walk_spec hfsp_decode cnid callback fuel (cat_root_node ctx) leaves s Hc Hf). by apply hfsp_walk_simulates. Qed.
End callback.
End walk.
