(* ===== verification/HfsPlusListing.v ===== *)
(** * What an HFS+ directory lists

    As for HFS, the listing of a directory is a function of its records in the catalog:
    files and folders, without those whose names are empty or hidden.  Enumeration runs
    the callback over it from the entry the resume offset counts to, lookup finds the
    first entry with the name. *)
From S2P Require Import Prelude Types Strings Namefix Media CacheApi Charset Timestamp Backend MetaCache MetaCacheProofs MetaCacheSpec.
From S2P Require Import IsoListing Reader Catalog HfsNodes HfsListing HfsPlus HfsPlusNodes.
Open Scope Z_scope.

(** ** Entries *)

Lemma hfsp_be16_take n l i : 0 ≤ i → i + 2 ≤ Z.of_nat n → hfsp_be16 (take n l) i = hfsp_be16 l i.
Proof. exact (be16_take n l i). Qed.
Lemma hfsp_be32_take n l i : 0 ≤ i → i + 4 ≤ Z.of_nat n → hfsp_be32 (take n l) i = hfsp_be32 l i.
Proof. exact (be32_take n l i). Qed.
Lemma fork_extents_take n l k : ∀ i, 0 ≤ i → i + 8 * Z.of_nat k ≤ Z.of_nat n → parse_fork_extents (take n l) i k = parse_fork_extents l i k.
Proof.
  induction k as [|k IH]; intros i H0 Hn; cbn [parse_fork_extents]; [done|]. rewrite !hfsp_be32_take by lia. rewrite (IH (i + 8)) by lia. done.
Qed.
Lemma parse_fork_take n l i : 0 ≤ i → i + 80 ≤ Z.of_nat n → hfsp_parse_fork (take n l) i = hfsp_parse_fork l i.
Proof.
  intros H0 Hn. unfold hfsp_parse_fork, hfsp_be64. rewrite !hfsp_be32_take by lia. rewrite (fork_extents_take n l 8) by lia. done.
Qed.
Lemma hfsp_record_node_take rec_type mem len node : 0 ≤ len →
  hfsp_record_node rec_type (take (Z.to_nat len) mem) len node = hfsp_record_node rec_type mem len node.
Proof.
  intros Hl. unfold hfsp_record_node. case_test; (case_test; [done|]); b2p; rewrite ?hfsp_be32_take by lia; [done|].
  cbv zeta. case_test; [|done]. b2p. by rewrite parse_fork_take by lia.
Qed.
Lemma record_shown_take key mem len : 0 ≤ len → record_shown key (take (Z.to_nat len) mem) len = record_shown key mem len.
Proof. intros Hl. unfold record_shown. destruct (zlen key <? 8); [done|]. case_test; [done|]. cbn [orb] in E. b2p. by rewrite hfsp_be16_take by lia. Qed.

(** A name and numbers do not matter to what a record says. *)
Definition dressed (nm : list Z) (i p : Z) (n : odfs_node) : odfs_node := set_name nm (numbered i p n).
Lemma record_node_dressed rec_type data len nm i p n :
  hfsp_record_node rec_type data len (dressed nm i p n) = option_map (dressed nm i p) <$> hfsp_record_node rec_type data len n.
Proof.
  unfold hfsp_record_node. case_test.
  - case_test; [done|]. destruct (hfsp_be32 data 8); [|done..]. cbn [mbind outcome_bind]. by destruct (hfsp_be32 data 16).
  - case_test; [done|]. cbv zeta. case_test.
    + destruct (hfsp_parse_fork data 88); [|done..]. cbn [mbind outcome_bind]. by destruct (hfsp_be32 data 16).
    + cbn [mbind outcome_bind]. by destruct (hfsp_be32 data 16).
Qed.

Section listing.
Context (malloc : nat → Z → bool).

(** The file or folder a record stands for; [Fault] is a record too short. *)
Definition hfsp_object (r : cat_rec) : outcome (option odfs_node) :=
  shown ← record_shown (cr_key r) (cr_data r) (zlen (cr_data r));
  match shown with
  | None => Ret None
  | Some (rec_type, key_namelen) =>
      nm ← hfsp_key_name (cr_key r) key_namelen;
      if bool_decide (nm = []) then Ret None
      else
        n ← hfsp_record_node rec_type (cr_data r) (zlen (cr_data r))
              (mk_node 0 0 ODFS_BACKEND_HFSPLUS ODFS_NODE_FILE nm 0 timestamp_zero timestamp_zero 0 amiga_as_zero (mk_extent 0 0) 0);
        match n with Some n => Ret (Some n) | None => Fault end
  end.
(** The entries with their final names; [Fault] when a name cannot be made unique. *)
Fixpoint hfsp_entries (nf : odfs_namefix_state) (recs : list cat_rec) : outcome (list odfs_node) :=
  match recs with
  | [] => Ret []
  | r :: recs =>
      o ← hfsp_object r;
      match o with
      | None => hfsp_entries nf recs
      | Some n =>
          let '(err, nf, nm) := odfs_namefix_apply malloc nf (name n) ODFS_NAME_MAX in
          guard_ (err_ok err) (L ← hfsp_entries nf recs; Ret (set_name nm n :: L))
      end
  end.
Definition same_hfsp (ctx ctx' : hfsplus_context) : Prop := ∃ k, ctx' = set_next_node_id k ctx.
Lemma same_hfsp_trans a b c : same_hfsp a b → same_hfsp b c → same_hfsp a c.
Proof. intros [k ->] [j ->]. by exists j. Qed.
Lemma same_hfsp_refl a : same_hfsp a a.
Proof. exists (next_node_id a). by destruct a. Qed.

Section readdir.
Context {T : Type} (cb : odfs_dir_iter_fn T) (dir : odfs_node) (skip : Z) (resume : option Z).
Abbreviation record_cb := (hfsp_readdir_record_cb malloc cb dir skip resume).

Lemma hfsp_readdir_cb_inside : looks_inside record_cb.
Proof.
  intros key mem len rc Hl. unfold hfsp_readdir_record_cb. rewrite record_shown_take by lia.
  destruct (record_shown key mem len) as [[[ty nl]|]| |]; [|done..]. cbn [mbind outcome_bind].
  destruct (hfsp_key_name key nl) as [nm| |]; [|done..]. cbn [mbind outcome_bind]. case_test; [done|].
  destruct (odfs_namefix_apply _ _ _ _) as [[err nf] nm']. case_test; [done|]. case_test; [done|]. by rewrite hfsp_record_node_take by lia.
Qed.
(** One record; the context of a skipped one may have moved on. *)
Lemma readdir_cb_skips r (rc : hfsp_readdir_ctx T) : hfsp_object r = Ret None →
  ∃ k, record_cb (cr_key r) (cr_data r) (zlen (cr_data r)) rc =
    Ret (ODFS_OK, mk_hc (set_next_node_id k (hc_hctx rc)) (hc_cb rc) (hc_entry_index rc) (hc_resume rc) (hc_last_err rc) (hc_namefix rc)).
Proof.
  unfold hfsp_object, hfsp_readdir_record_cb. destruct (record_shown _ _ _) as [[[ty nl]|]| |]; [| |done..]; cbn [mbind outcome_bind].
  - destruct (hfsp_key_name _ _) as [nm| |]; [|done..]. cbn [mbind outcome_bind]. case_test; [by eexists|].
    intros ([n|] & _ & H)%bind_Ret; done.
  - intros _. exists (next_node_id (hc_hctx rc)). by destruct rc as [[] ? ? ? ? ?].
Qed.
Lemma readdir_cb_delivers r n (rc : hfsp_readdir_ctx T) : hfsp_object r = Ret (Some n) →
  let i := next_node_id (hc_hctx rc) in
  let hctx := set_next_node_id (u32 (i + 1)) (hc_hctx rc) in
  record_cb (cr_key r) (cr_data r) (zlen (cr_data r)) rc =
    let '(err, nf, nm) := odfs_namefix_apply malloc (hc_namefix rc) (name n) ODFS_NAME_MAX in
    if negb (err_ok err) then Ret (err, mk_hc hctx (hc_cb rc) (hc_entry_index rc) (hc_resume rc) err nf)
    else if hc_entry_index rc <? skip then
      e ← int_incr (hc_entry_index rc); Ret (ODFS_OK, mk_hc hctx (hc_cb rc) e (hc_resume rc) (hc_last_err rc) nf)
    else
      e ← int_incr (hc_entry_index rc);
      let '(err, t) := cb (numbered i (id dir) (set_name nm n)) (hc_cb rc) in
      if negb (err_ok err) then Ret (err, mk_hc hctx t e ((λ _, u32 e) <$> resume) err nf)
      else Ret (ODFS_OK, mk_hc hctx t e (hc_resume rc) (hc_last_err rc) nf).
Proof.
  unfold hfsp_object, hfsp_readdir_record_cb. intros H. cbv zeta. apply bind_Ret in H as ([[ty nl]|] & -> & H); [|done]. cbn [mbind outcome_bind].
  apply bind_Ret in H as (nm & -> & H). cbn [mbind outcome_bind]. destruct (bool_decide (nm = [])); [done|].
  set (n0 := mk_node 0 0 ODFS_BACKEND_HFSPLUS ODFS_NODE_FILE nm 0 timestamp_zero timestamp_zero 0 amiga_as_zero (mk_extent 0 0) 0) in *.
  apply bind_Ret in H as ([m|] & Hm & H); [|done]. injection H as ->.
  assert (Hname : name n = nm).
  { revert Hm. clear. unfold hfsp_record_node. destruct (_ =? _); destruct (_ <? _); try done; cbv zeta; intros H.
    - unbind H. by injection H as <-.
    - destruct (168 <=? _); unbind H; injection H as <-; [unbind E; by injection E as <-|by injection E as <-]. }
  rewrite Hname. destruct (odfs_namefix_apply _ _ _ _) as [[err nf] nm']. case_test; [done|]. case_test; [done|].
  change (mk_node _ (id dir) _ _ nm' _ _ _ _ _ _ _) with (dressed nm' (next_node_id (hc_hctx rc)) (id dir) n0). rewrite record_node_dressed, Hm. done.
Qed.

(** The records of a directory deliver its entries from the offset on. *)
Lemma hfsp_run_entries recs : ∀ nf L ctx t e r, hfsp_entries nf recs = Ret L → 0 ≤ e → e + zlen L < 2 ^ 31 →
  ∃ N rc, renumbered (id dir) L N ∧ let D := drop (Z.to_nat (skip - e)) N in
    run_records record_cb recs (mk_hc ctx t e r ODFS_OK nf) = Ret ((run cb D t).1, rc) ∧
    hc_cb rc = (run cb D t).2 ∧ same_hfsp ctx (hc_hctx rc) ∧ hc_last_err rc = (run cb D t).1 ∧
    if err_ok (run cb D t).1 then hc_entry_index rc = e + zlen L
    else hc_resume rc = (λ _, Z.max e skip + delivered cb D t) <$> resume.
Proof.
  induction recs as [|x recs IH]; intros nf L ctx t e r; cbn [hfsp_entries run_records].
  { intros [= <-] _ _. exists [], (mk_hc ctx t e r ODFS_OK nf). split; [constructor|]. cbv zeta. rewrite drop_nil. split_and!; try done; [apply same_hfsp_refl|simpl; lia]. }
  intros H He Hb. apply bind_Ret in H as (o & Ho & H). destruct o as [n|].
  2: { destruct (readdir_cb_skips x (mk_hc ctx t e r ODFS_OK nf) Ho) as [k ->]. cbn [mbind outcome_bind hc_hctx hc_cb hc_entry_index hc_resume hc_last_err hc_namefix].
    change (err_ok ODFS_OK) with true. cbv iota. destruct (IH nf L (set_next_node_id k ctx) t e r H He Hb) as (N & rc & HN & Hr & Hcb & [j Hj] & Hle).
    exists N, rc. split; [done|]. split_and!; [exact Hr|exact Hcb|by exists j; rewrite Hj|apply Hle..]. }
  rewrite (readdir_cb_delivers x n _ Ho). cbn [hc_hctx hc_cb hc_entry_index hc_resume hc_last_err hc_namefix].
  destruct (odfs_namefix_apply malloc nf (name n) ODFS_NAME_MAX) as [[err nf'] nm]. unbind H. cbn [negb].
  injection H as <-. rename x0 into L. set (i := next_node_id ctx). specialize (IH nf' L (set_next_node_id (u32 (i + 1)) ctx)).
  cbn [length] in Hb. unfold int_incr, INT_MAX. rewrite (proj2 (Z.leb_gt _ _)) by lia. cbn [mbind outcome_bind].
  destruct (e <? skip) eqn:Hs; b2p.
  - cbn [mbind outcome_bind]. change (err_ok ODFS_OK) with true. cbv iota.
    destruct (IH t (e + 1) r E0 ltac:(lia) ltac:(lia)) as (N & rc & HN & Hr & Hcb & [j Hj] & Hle & Hres).
    exists (numbered i (id dir) (set_name nm n) :: N), rc. split; [constructor; [by exists i|done]|].
    replace (Z.to_nat (skip - e)) with (S (Z.to_nat (skip - (e + 1)))) by lia. cbn [drop skipn]. cbv zeta.
    split_and!; [exact Hr|exact Hcb|by exists j; rewrite Hj|exact Hle|]. revert Hres. case_match; intros Hres; rewrite Hres; [simpl; lia|].
    destruct resume; [|done]. simpl. f_equal. f_equal. lia.
  - destruct (cb (numbered i (id dir) (set_name nm n)) t) as [err' t'] eqn:Hcb. destruct (err_ok err') eqn:He'; cbn [negb mbind outcome_bind].
    + change (err_ok ODFS_OK) with true. cbv iota.
      destruct (IH t' (e + 1) r E0 ltac:(lia) ltac:(lia)) as (N & rc & HN & Hr & Hcb' & [j Hj] & Hle & Hres).
      exists (numbered i (id dir) (set_name nm n) :: N), rc. split; [constructor; [by exists i|done]|].
      replace (Z.to_nat (skip - (e + 1))) with 0%nat in * by lia. replace (Z.to_nat (skip - e)) with 0%nat by lia. change (drop 0 ?l) with l in *.
      cbv zeta. cbn [run delivered]. rewrite Hcb, He'.
      split_and!; [exact Hr|exact Hcb'|by exists j; rewrite Hj|exact Hle|]. revert Hres. case_match; intros Hres; rewrite Hres; [simpl; lia|].
      destruct resume; [|done]. simpl. f_equal. lia.
    + (* the entries behind it have numbers of no account *)
      exists (numbered i (id dir) (set_name nm n) :: map (numbered 0 (id dir)) L). eexists. split.
      { constructor; [by exists i|]. apply Forall2_fmap_r, Forall_Forall2_diag, Forall_forall. intros m _. by exists 0. }
      replace (Z.to_nat (skip - e)) with 0%nat by lia. change (drop 0 ?l) with l. cbv zeta. cbn [run delivered]. rewrite Hcb, He'.
      split_and!; [done|done|by eexists|done|]. simpl. rewrite He'. destruct resume; [|done]. simpl. f_equal. rewrite u32_small by (unfold is_u32; lia). lia.
Qed.
End readdir.
End listing.

(** ** On a disc *)
Section disc.
Context {C : Type} {HO : CacheOps C} (img : Z → list Z) (inv ok : C → Prop) (ptr : C → Z → Prop) (readable : Z → Prop).
Context {HL : CacheLaws C img 2048 inv ok ptr} {HR : CacheReadable C ok readable}.
Context (Hbytes : ∀ l, Forall is_byte (img l)) (malloc : nat → Z → bool).

(** A volume whose catalog is well formed and can be read, with no more leaves than
    [fuel]. *)
Record hfsp_volume (fuel : nat) (ctx : hfsplus_context) (leaves : list (Z * list cat_rec)) : Prop := {
  pv_readable : Forall (extent_ok readable ctx) (extents (cat_fork ctx));
  pv_node_size : 14 ≤ cat_node_size ctx ≤ 32768;
  pv_catalog : catalog (hfsp_decode img ctx) (cat_root_node ctx) leaves;
  pv_fuel : (length leaves ≤ fuel)%nat }.
(** What the catalog says of a directory. *)
Definition hfsp_listing (leaves : list (Z * list cat_rec)) (cnid : Z) : outcome (list odfs_node) :=
  hfsp_entries malloc odfs_namefix_init (of_dir cnid (recs_of leaves)).

Lemma hfsp_volume_same fuel ctx ctx' leaves : same_hfsp ctx ctx' → hfsp_volume fuel ctx leaves → hfsp_volume fuel ctx' leaves.
Proof. intros [k ->] [H1 H2 H3 H4]. by split. Qed.

Lemma hfsp_readdir_run {T} (cb : odfs_dir_iter_fn T) fuel ctx leaves c dir t r0 L :
  ok c → hfsp_volume fuel ctx leaves → hfsp_listing leaves (lba (extent dir)) = Ret L → zlen L < 2 ^ 31 → 0 ≤ default 0 r0 < 2 ^ 31 →
  ∃ N ctx' c', renumbered (id dir) L N ∧ let D := drop (Z.to_nat (default 0 r0)) N in
    hfsp_readdir malloc true fuel cb ctx c dir t r0 =
      Ret ((run cb D t).1, (λ _, if err_ok (run cb D t).1 then zlen L else default 0 r0 + delivered cb D t) <$> r0, ctx', c', (run cb D t).2) ∧
    ok c' ∧ same_hfsp ctx ctx'.
Proof.
  intros Hok [H1 H2 H3 H4] HLs Hb H0. unfold hfsp_readdir.
  assert (to_int (default 0 r0) = default 0 r0) as ->.
  { unfold to_int. rewrite u32_small by (unfold is_u32; lia). by rewrite (proj2 (Z.ltb_lt _ _)) by lia. }
  pose proof (hfsp_walk_runs img inv ok ptr readable ctx H1 H2 (hfsp_readdir_record_cb malloc cb dir (default 0 r0) r0)
    (hfsp_readdir_cb_inside malloc cb dir (default 0 r0) r0) (lba (extent dir)) fuel c (mk_hc ctx t 0 r0 ODFS_OK odfs_namefix_init) leaves Hok H3 H4) as Hw.
  destruct (hfsp_run_entries malloc cb dir (default 0 r0) r0 _ odfs_namefix_init L ctx t 0 r0 HLs ltac:(lia) ltac:(lia)) as (N & rc & HN & Hr & Hcb & Hs & Hle & Hres).
  rewrite Z.sub_0_r in *. set (D := drop (Z.to_nat (default 0 r0)) N) in *. rewrite Hr in Hw. destruct Hw as (c' & -> & Hok'). cbn [mbind outcome_bind].
  exists N, (hc_hctx rc), c'. split; [done|]. cbv zeta. split_and!; [|done..]. rewrite Hle, Hcb. destruct (err_ok (run cb D t).1) eqn:He; cbn [negb].
  - do 3 f_equal. rewrite Hres. destruct r0; [|done]. simpl. rewrite Z.add_0_l, u32_small by (unfold is_u32; lia). unfold D in He. simpl in He. by rewrite He.
  - unfold D in He. simpl in He. rewrite Hres. destruct r0; simpl in *; rewrite ?He; [|done]. by rewrite Z.max_r by lia.
Qed.

(** Names are C strings that fit. *)
Lemma hfsp_decode_name_ok uname : Forall is_byte uname → node_name_ok (hfsp_decode_name uname ODFS_NAME_MAX).
Proof.
  intros Hu. unfold hfsp_decode_name. assert (Hd : node_name_ok (default [] (odfs_ucs2be_to_utf8 uname ODFS_NAME_MAX).2)).
  { unfold odfs_ucs2be_to_utf8. change (ODFS_NAME_MAX =? 0) with false. cbv iota. case_test; cbn [snd]; [by split; [constructor|]|]. exact (ucs2be_name uname Hu). }
  revert Hd. generalize (default [] (odfs_ucs2be_to_utf8 uname ODFS_NAME_MAX).2). intros out [Hn Hl]. split; [|by rewrite length_map].
  apply Forall_map. eapply Forall_impl; [exact Hn|]. intros b Hb. simpl in *. case_test; lia.
Qed.
Lemma hfsp_key_name_ok key n : Forall is_byte key → after (hfsp_key_name key n) node_name_ok.
Proof.
  intros Hk. unfold hfsp_key_name. case_test; [|apply after_ret; by split; [constructor|]].
  eapply after_bind; [apply lands_after, (lands_range is_byte); exact Hk|]. intros nm [_ Hnm]. by apply after_ret, hfsp_decode_name_ok.
Qed.
Lemma hfsp_record_node_name rec_type data len n m : hfsp_record_node rec_type data len n = Ret (Some m) → name m = name n ∧ amiga_as m = amiga_as n.
Proof.
  unfold hfsp_record_node. case_test; (case_test; [done|]); cbv zeta; intros H.
  - unbind H. by injection H as <-.
  - destruct (168 <=? len); unbind H; injection H as <-; [unbind E1; by injection E1 as <-|by injection E1 as <-].
Qed.
Lemma hfsp_entries_wf recs : ∀ nf L, namefix_wf nf → Forall (λ r, Forall is_byte (cr_key r)) recs → hfsp_entries malloc nf recs = Ret L → Forall node_wf L.
Proof.
  induction recs as [|r recs IH]; intros nf L Hnf Hr; cbn [hfsp_entries]; [by intros [= <-]|]. apply Forall_cons in Hr as [Hk Hr].
  intros H. apply bind_Ret in H as ([n|] & Ho & H); [|by eapply IH].
  assert (Hn : node_name_ok (name n) ∧ amiga_as n = amiga_as_zero).
  { revert n Ho H. unfold hfsp_object. intros n Ho _. apply bind_Ret in Ho as ([[ty nl]|] & _ & Ho); [|done].
    apply bind_Ret in Ho as (nm & Hnm & Ho). destruct (bool_decide _); [done|]. apply bind_Ret in Ho as ([m|] & Hm & Ho); [|done].
    injection Ho as ->. apply hfsp_record_node_name in Hm as [-> ->]. split; [by apply (hfsp_key_name_ok _ _ Hk _ Hnm)|done]. }
  destruct Hn as [[Hn1 Hn2] Ha]. destruct (odfs_namefix_apply malloc nf (name n) ODFS_NAME_MAX) as [[err nf'] nm] eqn:Hfix. unbind H. injection H as <-.
  apply err_ok_eq in E as ->. destruct (namefix_apply_ok _ _ _ _ _ _ Hnf Hn1 Hn2 Hfix) as (Hnf' & _ & _ & Hn & Hl & _).
  constructor; [|by eapply IH]. split_and!; [done..|]. simpl. by rewrite Ha.
Qed.

(** The bytes of keys are the disc's. *)
Lemma fork_image_bytes ctx exts : Forall is_byte (fork_image img ctx exts).
Proof.
  induction exts as [|e exts IH]; cbn [fork_image]; [constructor|]. case_test; [constructor|]. apply Forall_app. split; [by apply disc_bytes_bytes|done].
Qed.
Lemma hfsp_decode_keys ctx n next recs : hfsp_decode img ctx n = Ret (CatLeaf next recs) → Forall (λ r, Forall is_byte (cr_key r)) recs.
Proof.
  unfold hfsp_decode, hfsp_node_bytes. cbv zeta. case_test; [|done]. set (bytes := slice _ _ _).
  assert (Hb : Forall is_byte bytes) by (apply Forall_take, Forall_drop, fork_image_bytes).
  intros H. apply hfsp_parse_cases in H as (t & nrecs & _ & _ & _ & H & _). revert H.
  generalize 0. generalize (Z.to_nat nrecs) as k. intros k. revert recs. induction k as [|k IH]; intros recs r; cbn [hfsp_dec_records]; [by intros [= <-]|].
  intros H. unbind H. injection H as <-. constructor; [|by eapply IH]. unfold hfsp_dec_record in E0. unbind E0. injection E0 as <-. simpl.
  match goal with H : rd_range bytes _ _ = Ret ?key |- Forall _ ?key => exact (proj2 (lands_after _ _ (lands_range is_byte bytes _ _ Hb) _ H)) end.
Qed.
Lemma hfsp_linked_keys ctx leaves : ∀ cur, cat_linked (hfsp_decode img ctx) cur leaves → Forall (λ r, Forall is_byte (cr_key r)) (recs_of leaves).
Proof.
  induction leaves as [|[n recs] leaves IH]; intros cur; [by constructor|]. intros (_ & _ & _ & next & Hd & Hl).
  apply Forall_app. split; [by eapply hfsp_decode_keys|by eapply IH].
Qed.
Lemma hfsp_listing_wf fuel ctx leaves cnid L : hfsp_volume fuel ctx leaves → hfsp_listing leaves cnid = Ret L → Forall node_wf L.
Proof.
  intros [_ _ [_ [first Hl] _] _]. apply hfsp_entries_wf; [apply namefix_init_wf|]. apply hfsp_linked_keys in Hl.
  rewrite Forall_forall in Hl |- *. intros r [_ Hr]%list_elem_of_filter. by apply Hl.
Qed.

(** Lookup finds the entry the listing has. *)
Lemma hfsp_lookup_run fuel ctx leaves c dir nm L :
  ok c → hfsp_volume fuel ctx leaves → hfsp_listing leaves (lba (extent dir)) = Ret L → zlen L < 2 ^ 31 → is_name nm →
  ∃ err out ctx' c', hfsp_lookup malloc true fuel ctx c dir nm = Ret (err, out, ctx', c') ∧ ok c' ∧ same_hfsp ctx ctx' ∧
    face <$> out = listed (map face L) nm ∧ err = match out with Some _ => ODFS_OK | None => ODFS_ERR_NOT_FOUND end.
Proof.
  intros Hok Hv HLs Hb Hnm. destruct (hfsp_readdir_run (hfsp_lookup_cb nm) fuel ctx leaves c dir None None L Hok Hv HLs Hb ltac:(simpl; lia)) as (N & ctx' & c' & HN & Hr & Hok' & Hs).
  unfold hfsp_lookup. rewrite Hr. cbn [default Z.to_nat]. rewrite drop_0. change (hfsp_lookup_cb nm) with (Iso9660.lookup_cb nm).
  rewrite run_lookup; [|done|by eapply renumbered_wf, hfsp_listing_wf]. cbn [mbind outcome_bind].
  rewrite <- (renumbered_face _ _ _ HN), <- listed_face.
  destruct (listed _ nm) as [n|]; by eexists _, _, ctx', c'.
Qed.
End disc.

(** * What HFS+ entries are made of

    Whatever bytes a disc has, the nodes an enumeration hands to its callback have fields
    of their C types: names that fit and are terminated, dates of the calendar or none,
    32-bit extents, 64-bit sizes. *)

Definition is_u64 (z : Z) : Prop := 0 ≤ z < 2 ^ 64.
Definition stamp_typed (t : odfs_timestamp) : Prop := t = timestamp_zero ∨ valid_civil t ∧ 1970 ≤ year t ≤ 2040 ∧ tz_offset t = 0.
(** The fields of a node are values of their types. *)
Definition node_typed (n : odfs_node) : Prop :=
  is_u32 (id n) ∧ backend n = ODFS_BACKEND_HFSPLUS ∧ (kind n = ODFS_NODE_FILE ∨ kind n = ODFS_NODE_DIR ∧ size n = 0 ∧ length_ (extent n) = 0) ∧
  node_name_ok (name n) ∧ is_u64 (size n) ∧ is_u32 (lba (extent n)) ∧ length_ (extent n) = u32 (size n) ∧
  stamp_typed (mtime n) ∧ ctime n = mtime n ∧ amiga_as n = amiga_as_zero.

(** ** Numbers *)

Lemma lor_range a b n : 0 ≤ n → 0 ≤ a < 2 ^ n → 0 ≤ b < 2 ^ n → 0 ≤ Z.lor a b < 2 ^ n.
Proof.
  intros Hn Ha Hb. assert (Hl : Z.lor a b = Z.lor a b mod 2 ^ n).
  { rewrite <- !Z.land_ones, Z.land_lor_distr_l, !Z.land_ones, !Z.mod_small by lia. done. }
  rewrite Hl. apply Z.mod_pos_bound. lia.
Qed.
Lemma shiftl_range a k n : is_byte a → 0 ≤ k → k + 8 ≤ n → 0 ≤ Z.shiftl a k < 2 ^ n.
Proof.
  intros Ha Hk Hn. unfold is_byte in *. rewrite Z.shiftl_mul_pow2 by lia. pose proof (Z.pow_le_mono_r 2 (k + 8) n).
  rewrite Z.pow_add_r in * by lia. change (2 ^ 8) with 256 in *. nia.
Qed.
Section bytes.
Context (buf : list Z) (Hb : Forall is_byte buf).
Lemma after_rd i : after (rd buf i) is_byte.
Proof using Hb. by apply lands_after, lands_rd. Qed.
Lemma be32_typed i : after (hfsp_be32 buf i) is_u32.
Proof using Hb.
  unfold hfsp_be32. do 4 (eapply after_bind; [apply after_rd|]; intros ? ?). apply after_ret.
  unfold is_u32. repeat (apply lor_range; [lia| |]); [apply shiftl_range; done || lia..|]. unfold is_byte in *. lia.
Qed.
Lemma be64_typed i : after (hfsp_be64 buf i) is_u64.
Proof using Hb.
  unfold hfsp_be64. do 2 (eapply after_bind; [apply be32_typed|]; intros ? ?). apply after_ret. unfold is_u64, is_u32 in *.
  apply lor_range; [lia|rewrite Z.shiftl_mul_pow2 by lia; lia|lia].
Qed.
Lemma parse_fork_typed i : after (hfsp_parse_fork buf i) (λ f, is_u64 (logical_size f) ∧ Forall (λ e, is_u32 (start_block e)) (extents f)).
Proof using Hb.
  unfold hfsp_parse_fork. eapply after_bind; [apply be64_typed|]. intros sz Hsz. do 2 (eapply after_bind; [apply after_any|]; intros ? _).
  eapply after_bind; [|intros exts Hex; by apply after_ret]. generalize (i + 16), 8%nat. intros j k. revert j. induction k as [|n IH]; intros j; cbn [parse_fork_extents]; [by apply after_ret|].
  eapply after_bind; [apply be32_typed|]. intros st Hst. eapply after_bind; [apply after_any|]. intros ct _.
  eapply after_bind; [apply IH|]. intros rest Hr. apply after_ret. by constructor.
Qed.
Lemma mac_time_typed i : after (hfsp_be32 buf i) (λ t, stamp_typed (odfs_timestamp_from_mac_time t)).
Proof using Hb.
  eapply after_weaken; [apply be32_typed|]. intros t Ht. destruct (timestamp_from_mac_time_exact t Ht) as [H1 H2].
  destruct (decide (t < ODFS_MAC_EPOCH)); [by left; apply H1|right]. destruct H2 as (Hv & _ & Hy); [lia|]. split; [exact Hv|]. split; [exact Hy|].
  unfold odfs_timestamp_from_mac_time. case_test; [done|]. by destruct (year_loop _ _ _), (month_loop _ _ _ _).
Qed.
End bytes.

(** A record makes a typed node of one with a name and without an extent. *)
Lemma record_node_typed rec_type data len n : Forall is_byte data →
  is_u32 (id n) → backend n = ODFS_BACKEND_HFSPLUS → node_name_ok (name n) → size n = 0 → extent n = mk_extent 0 0 → amiga_as n = amiga_as_zero →
  after (hfsp_record_node rec_type data len n) (λ m, from_option (λ m, node_typed m ∧ parent_id m = parent_id n) True m).
Proof.
  intros Hd Hi Hb Hn Hs He Ha. unfold hfsp_record_node. case_test; (case_test; [by apply after_ret|]).
  - eapply after_bind; [by apply be32_typed|]. intros cnid Hc. eapply after_bind; [by apply mac_time_typed|]. intros t Ht. apply after_ret.
    split; [|done]. unfold node_typed, is_u64. cbn. rewrite Hs. split_and!; try done; [by right|apply Hn..].
  - cbv zeta. eapply (after_bind _ _ (λ m, is_u32 (id m) ∧ backend m = ODFS_BACKEND_HFSPLUS ∧ kind m = ODFS_NODE_FILE ∧ name m = name n ∧ is_u64 (size m) ∧
      is_u32 (lba (extent m)) ∧ length_ (extent m) = u32 (size m) ∧ amiga_as m = amiga_as_zero ∧ parent_id m = parent_id n)).
    + case_test; [|apply after_ret; cbn; rewrite Hs, He; by split_and!].
      eapply after_bind; [by apply parse_fork_typed|]. intros f [Hsz Hex]. apply after_ret. cbn. split_and!; try done.
      destruct Hex as [|e l He' _]; [done|exact He'].
    + intros m (M1 & M2 & M3 & M4 & M5 & M6 & M7 & M8 & M9). eapply after_bind; [by apply mac_time_typed|]. intros t Ht. apply after_ret.
      split; [|done]. unfold node_typed. cbn. rewrite M4. split_and!; try done; [by left|apply Hn..].
Qed.

(** ** Walks *)
Section walk.
Context {C : Type} {HO : CacheOps C} (img : Z → list Z) (inv ok : C → Prop) (ptr : C → Z → Prop).
Context {HL : CacheLaws C img 2048 inv ok ptr} (Hbytes : ∀ l, Forall is_byte (img l)).
(** What was read are bytes; failures end a walk. *)
Definition got_bytes (r : odfs_err * list Z * C) : Prop := r.1.1 = ODFS_OK → Forall is_byte r.1.2 ∧ ok r.2.

Lemma fork_loop_typed fuel : ∀ c phys off n len offset buf, ok c → Forall is_byte buf →
  after (fork_loop fuel c phys off n len offset buf) (λ '(err, b, _, c'), got_bytes (err, b, c')).
Proof.
  induction fuel as [|fuel IH]; intros c phys off n len offset buf Hok Hb; cbn [fork_loop]; (case_test; [|by apply after_ret]); [done|].
  destruct (bc_read c _) as [[err p] c1] eqn:Hr. case_test; [apply after_ret; unfold got_bytes; simpl; intros ->; by discriminate E0|].
  apply negb_false_iff, err_ok_eq in E0 as ->. destruct (cl_read_ok _ _ _ _ Hok (u32_range _) Hr) as (Hok1 & _ & Hd & _).
  eapply after_bind; [apply lands_after, (lands_range is_byte); by rewrite Hd|]. intros d [_ Hdb]. apply IH; [done|]. by apply Forall_app.
Qed.
Lemma fork_extents_typed ctx exts : ∀ c offset pos len buf, ok c → Forall is_byte buf →
  after (fork_extents ctx c exts offset pos len buf) got_bytes.
Proof.
  induction exts as [|e exts IH]; intros c offset pos len buf Hok Hb; cbn [fork_extents]; cbv zeta; [by apply after_ret|].
  case_test; [|by apply after_ret]. case_test; [by apply after_ret|]. case_test; [|by apply IH].
  eapply after_bind; [by apply fork_loop_typed|]. intros [[[err b] o] c1] Hg. case_test.
  - apply after_ret. intros He. simpl in He. subst err. by discriminate E2.
  - apply negb_false_iff, err_ok_eq in E2 as ->. destruct (Hg eq_refl) as [Hb1 Hok1]. by apply IH.
Qed.
Lemma read_node_typed ctx c n : ok c → after (hfsp_read_node ctx c n) got_bytes.
Proof. intros Hok. by apply fork_extents_typed. Qed.

(** A reading step: of the node's bytes if it succeeds. *)
Lemma after_node {A} ctx c n (fail : odfs_err → list Z → C → outcome A) (k : list Z → C → outcome A) (Q : A → Prop) : ok c →
  (∀ err node c', after (fail err node c') Q) → (∀ node c', Forall is_byte node → ok c' → after (k node c') Q) →
  after ('(err, node, c) ← hfsp_read_node ctx c n; if negb (err_ok err) then fail err node c else k node c) Q.
Proof.
  intros Hok Hf Hk. eapply after_bind; [by apply read_node_typed|]. intros [[err node] c1] Hg. case_test; [apply Hf|].
  apply negb_false_iff, err_ok_eq in E as ->. destruct (Hg eq_refl). by apply Hk.
Qed.

Section callback.
Context {S : Type} (callback : list Z → list Z → Z → S → outcome (odfs_err * S)) (I : S → Prop).
Context (Hcb : ∀ key mem len s, Forall is_byte key → Forall is_byte mem → I s → after (callback key mem len s) (λ r, I r.2)).

Lemma leaf_loop_keeps node ns cnid n : Forall is_byte node → ∀ r found s, I s → after (hfsp_leaf_loop callback node ns cnid n r found s) (λ r, I r.2).
Proof using Hcb.
  intros Hn. induction n as [|n IH]; intros r found s Hs; cbn [hfsp_leaf_loop]; [by apply after_ret|].
  do 2 (eapply after_bind; [apply after_any|]; intros ? _). case_test; [by apply IH|].
  eapply after_bind; [apply after_any|]. intros keylen _. case_test; [by apply IH|]. eapply after_bind; [apply after_any|]. intros kp _.
  case_test; [by apply IH|]. case_test; [by apply after_ret|]. cbv zeta. destruct (_ || _); [by apply IH|].
  eapply after_bind; [apply lands_after, (lands_range is_byte); exact Hn|]. intros key [_ Hk].
  eapply after_bind; [apply Hcb; [exact Hk|by apply Forall_mem_at|exact Hs]|]. intros [err s'] Hs'. case_test; [by apply after_ret|by apply IH].
Qed.
Lemma descend_keeps ctx cnid depth : ∀ c cur, ok c → after (hfsp_descend ctx c cnid depth cur) (λ r, match r.1 with inr _ => ok r.2 | inl _ => True end).
Proof.
  induction depth as [|depth IH]; intros c cur Hok; cbn [hfsp_descend]; [by apply after_ret|].
  eapply after_node; [exact Hok|intros; by apply after_ret|]. intros node c' Hn Hok'. eapply after_bind; [apply after_any|]. intros ty _.
  case_test; [by apply after_ret|]. case_test; [by apply after_ret|]. eapply after_bind; [apply after_any|]. intros [nrecs|] _; [|by apply after_ret].
  eapply after_bind; [apply after_any|]. intros child _. case_test; [by apply after_ret|by apply IH].
Qed.
Lemma peek_keeps ctx c cnid found cur : ok c → after (hfsp_peek ctx c cnid found cur) (λ r, r.1.1 = ODFS_OK → ok r.2).
Proof.
  intros Hok. unfold hfsp_peek. case_test; [|by apply after_ret]. eapply after_bind; [by apply read_node_typed|]. intros [[err node] c1] Hg.
  case_test; [apply after_ret; simpl; intros ->; by discriminate E0|]. apply negb_false_iff, err_ok_eq in E0 as ->. destruct (Hg eq_refl) as [_ Hok1].
  eapply after_bind; [apply after_any|]. intros ty _. case_test; [by apply after_ret|]. eapply after_bind; [apply after_any|]. intros roff _.
  case_test; [|by apply after_ret]. eapply after_bind; [apply after_any|]. intros ? _. by apply after_ret.
Qed.
Lemma scan_keeps ctx cnid fuel : ∀ c cur found s, ok c → I s → after (hfsp_scan_leaves callback fuel ctx c cnid cur found s) (λ r, I r.1.2).
Proof using Hcb Hbytes HL.
  induction fuel as [|fuel IH]; intros c cur found s Hok Hs; cbn [hfsp_scan_leaves]; (case_test; [by apply after_ret|]); [done|].
  eapply after_node; [exact Hok|intros; by apply after_ret|]. intros node c' Hn Hok'. eapply after_bind; [apply after_any|]. intros ty _.
  case_test; [by apply after_ret|]. eapply after_bind; [apply after_any|]. intros [nrecs|] _; [|by apply after_ret].
  eapply after_bind; [by apply leaf_loop_keeps|]. intros [[err|fnd] s'] Hs'; [by apply after_ret|]. eapply after_bind; [apply after_any|]. intros nx _.
  eapply after_bind; [by apply peek_keeps|]. intros [[err go] c2] Hok2. case_test; [by apply after_ret|].
  apply negb_false_iff, err_ok_eq in E1 as ->. destruct go; [|by apply after_ret]. apply IH; [by apply Hok2|done].
Qed.
Lemma walk_keeps alloc fuel ctx c cnid s : ok c → I s → after (hfsp_walk_catalog alloc callback fuel ctx c cnid s) (λ r, I r.1.2).
Proof using Hcb Hbytes HL.
  intros Hok Hs. unfold hfsp_walk_catalog. case_test; [by apply after_ret|]. eapply after_bind; [by apply descend_keeps|].
  intros [[err|leaf] c1] Hok1; [by apply after_ret|]. by apply scan_keeps.
Qed.
End callback.

Lemma record_cb_keeps {T} (cb : odfs_node → T → odfs_err * T) (I : T → Prop) malloc dir skip r0 :
  (∀ n t, node_typed n → parent_id n = id dir → I t → I (cb n t).2) → ∀ key mem len rc, Forall is_byte key → Forall is_byte mem →
  let K rc := is_u32 (next_node_id (hc_hctx rc)) ∧ namefix_wf (hc_namefix rc) ∧ I (hc_cb rc) ∧ (∀ z, hc_resume rc = Some z → is_u32 z) in
  K rc → after (hfsp_readdir_record_cb malloc cb dir skip r0 key mem len rc) (λ r, K r.2).
Proof.
  intros Hcb key mem len rc Hk Hm K (Hi & Hw & Ht & Hr). unfold hfsp_readdir_record_cb. eapply after_bind; [apply after_any|]. intros [[ty nl]|] _; [|by apply after_ret].
  cbv zeta. set (i := next_node_id (hc_hctx rc)) in *. eapply after_bind; [by apply hfsp_key_name_ok|]. intros nm [Hn1 Hn2].
  assert (Hi' : is_u32 (next_node_id (set_next_node_id (u32 (i + 1)) (hc_hctx rc)))) by apply u32_range.
  case_test; [by apply after_ret|]. destruct (odfs_namefix_apply malloc (hc_namefix rc) nm ODFS_NAME_MAX) as [[err nf] nm'] eqn:Hfix.
  case_test.
  { apply after_ret. split_and!; try done. cbn. apply negb_true_iff, err_ok_false in E0. by destruct (namefix_apply_err _ _ _ _ _ _ _ Hfix E0) as [-> _]. }
  apply negb_false_iff, err_ok_eq in E0 as ->. destruct (namefix_apply_ok _ _ _ _ _ _ Hw Hn1 Hn2 Hfix) as (Hw' & _ & _ & Hn & Hl & _).
  case_test; [eapply after_bind; [apply after_any|]; intros e _; by apply after_ret|].
  eapply after_bind; [by apply record_node_typed|]. intros [m|] Hm'; [|by apply after_ret].
  eapply after_bind; [apply after_any|]. intros e _. destruct Hm' as [Hm1 Hm2]. pose proof (Hcb m (hc_cb rc) Hm1 Hm2 Ht) as Ht'.
  destruct (cb m (hc_cb rc)) as [err t]. case_test; apply after_ret; (split_and!; [done..|]); [|done].
  intros z. cbn. destruct r0; [|done]. intros [= <-]. apply u32_range.
Qed.
End walk.
