(* ===== verification/HfsPlusBackend.v ===== *)
(** * The HFS+ reader as a backend

    The operation table of [backends/hfsplus/hfsplus.c], and that it keeps the promises
    of [Reader]: probing and mounting leave the cache in order, a mounted tree has the
    catalog's root folder for its root, enumeration and lookup are those of
    [hfsp_listing]. *)
From stdpp Require Import gmap.
From S2P Require Import Prelude Types Strings Namefix Media BlockCache BlockCacheSpec CacheApi Timestamp Backend MetaCache MetaCacheProofs MetaCacheSpec.
From S2P Require Import Reader Mount MountSpec AncestrySpec IsoListing Catalog HfsBackend HfsPlus HfsPlusNodes HfsPlusListing.
Open Scope Z_scope.

(** [nf_malloc] is for the table of names of an enumeration, [alloc] says whether a node
    buffer can be had, [fuel] bounds the leaves of a walk. *)
Definition hfsp_reader {C} {HO : CacheOps C} (nf_malloc : nat → Z → bool) (alloc : bool) (fuel : nat) : reader C hfsplus_context :=
  mk_reader hfsp_probe (hfsp_mount alloc)
    (λ T cb ctx c dir t r, hfsp_readdir nf_malloc alloc fuel cb ctx c dir t r)
    (λ ctx c file offset buf len, Ret (hfsp_read ctx c file offset buf len)) (hfsp_lookup nf_malloc alloc fuel) None (hfsp_resolve_parent nf_malloc alloc fuel)
    hfsp_get_volume_name hfsp_get_volume_size.

Section ops.
Context {M K : Type} (mops : odfs_media_ops M) (put : hfsplus_context → K) (get : K → option hfsplus_context) (calloc : gmap Z K → Z).
Context (nf_malloc : nat → Z → bool) (alloc : bool) (fuel : nat).
(* [src: backends/hfsplus/hfsplus.c:360-363 hfsp_unmount] *)
Definition hfsp_unmount : world M (gmap Z K) → Z → outcome (world M (gmap Z K)) := free_context.
(* [src: backends/hfsplus/hfsplus.c:925-937 hfsplus_backend_ops] *)
Definition hfsplus_backend_ops : odfs_backend_ops (world M (gmap Z K)) :=
  reader_ops put get calloc (hfsp_reader (HO := block_cache_ops mops) nf_malloc alloc fuel) ODFS_BACKEND_HFSPLUS 0 hfsp_unmount.
(** The table of [core/mount.c] with it, and [others] for the rest. *)
Definition hfsp_backends (others : Z → odfs_backend_ops (world M (gmap Z K))) (p : Z) : odfs_backend_ops (world M (gmap Z K)) :=
  if p =? 5 then hfsplus_backend_ops else others p.
End ops.

(** ** The cache stays in order *)
Section keeps.
Context {C : Type} {HO : CacheOps C} (img : Z → list Z) (inv ok : C → Prop) (ptr : C → Z → Prop).
Context {HL : CacheLaws C img 2048 inv ok ptr} {HF : CacheCleanFailure C ok ptr}.
Abbreviation read_kept := (read_keeps img inv ok ptr).

Lemma fork_loop_keeps fuel : ∀ c phys off n len offset buf, ok c → after (fork_loop fuel c phys off n len offset buf) (λ '(_, _, _, c'), ok c').
Proof.
  induction fuel as [|fuel IH]; intros c phys off n len offset buf Hok; cbn [fork_loop]; (case_test; [|by apply after_ret]); [done|].
  destruct (bc_read c _) as [[err p] c1] eqn:Hr. pose proof (read_kept _ _ _ _ _ Hok (u32_range _) Hr) as Hok1. case_test; [by apply after_ret|].
  eapply after_bind; [apply after_any|]. intros d _. by apply IH.
Qed.
Lemma read_fork_keeps ctx c fork offset len : ok c → after (hfsp_read_fork ctx c fork offset len) (λ '(_, _, c'), ok c').
Proof.
  unfold hfsp_read_fork. generalize 0 (@nil Z). revert c offset. induction (extents fork) as [|e exts IH]; intros c offset pos buf Hok; cbn [fork_extents]; cbv zeta; [by apply after_ret|].
  case_test; [|by apply after_ret]. case_test; [by apply after_ret|]. case_test; [|by apply IH].
  eapply after_bind; [by apply fork_loop_keeps|]. intros [[[err b] o] c1] Hok1. case_test; [by apply after_ret|by apply IH].
Qed.
Lemma find_vh_scan_keeps n : ∀ c l last, ok c → is_u32 l → after (find_vh_scan n c l last) (λ '(_, _, c'), ok c').
Proof.
  induction n as [|n IH]; intros c l last Hok Hl; cbn [find_vh_scan]; [by apply after_ret|]. case_test; [|by apply after_ret].
  destruct (bc_read c l) as [[err p] c1] eqn:Hr. pose proof (read_kept _ _ _ _ _ Hok Hl Hr) as Hok1. case_test; [by apply IH, u32_range|].
  eapply after_bind; [apply after_any|]. intros [off|] _; [by apply after_ret|by apply IH, u32_range].
Qed.
Lemma find_vh_keeps c s : ok c → is_u32 s → after (hfsp_find_vh c s) (λ '(_, _, c'), ok c').
Proof.
  intros Hok Hs. unfold hfsp_find_vh. destruct (bc_read c s) as [[err p] c1] eqn:Hr. pose proof (read_kept _ _ _ _ _ Hok Hs Hr) as Hok1.
  eapply after_bind; [apply after_any|]. intros sig _. case_test; [by apply after_ret|by apply find_vh_scan_keeps].
Qed.
Lemma read_vh_keeps c off : ok c → after (read_vh c off) (λ '(_, _, c'), ok c').
Proof.
  intros Hok. unfold read_vh. destruct (bc_read c _) as [[err p] c1] eqn:Hr. pose proof (read_kept _ _ _ _ _ Hok (u32_range _) Hr) as Hok1.
  case_test; [by apply after_ret|]. cbv zeta. case_test; (eapply after_bind; [apply after_any|]; intros ? _); [by apply after_ret|].
  destruct (bc_read c1 _) as [[err2 p2] c2] eqn:Hr2. pose proof (read_kept _ _ _ _ _ Hok1 (u32_range _) Hr2) as Hok2.
  case_test; [by apply after_ret|]. eapply after_bind; [apply after_any|]. intros ? _. by apply after_ret.
Qed.
Lemma volume_name_keeps alloc ctx c : ok c → after (read_volume_name alloc ctx c) (λ '(_, c'), ok c').
Proof.
  intros Hok. unfold read_volume_name. case_test; [by apply after_ret|]. eapply after_bind; [by apply read_fork_keeps|]. intros [[err node] c1] Hok1.
  case_test; [by apply after_ret|]. eapply after_bind; [apply after_any|]. intros ty _. case_test; [by apply after_ret|].
  eapply after_bind; [apply after_any|]. intros [n|] _; [|by apply after_ret]. eapply after_bind; [apply after_any|]. intros nm _. by apply after_ret.
Qed.

(** The root of a mounted volume is the catalog's root folder. *)
Definition hfsp_mounted (r : odfs_node) (ctx : hfsplus_context) : Prop :=
  root ctx = r ∧ ∃ t, r = hfsp_dir_node HFSPLUS_CNID_ROOT [47] t.
Lemma hfsp_mount_keeps alloc a c s : ok c → is_u32 s → after (hfsp_mount alloc a c s) (λ '(err, r, c'), ok c' ∧
  match r with Some (root, ctx) => err = ODFS_OK ∧ a = true ∧ hfsp_mounted root ctx | None => err ≠ ODFS_OK end).
Proof.
  intros Hok Hs. unfold hfsp_mount. destruct a; cbn [negb]; [|by apply after_ret].
  eapply after_bind; [by apply find_vh_keeps|]. intros [[err off] c1] Hok1.
  case_test; [apply after_ret; split; [done|]; by apply err_ok_false, negb_true_iff|].
  eapply after_bind; [by apply read_vh_keeps|]. intros [[err2 vh] c2] Hok2.
  case_test; [apply after_ret; split; [done|]; by apply err_ok_false, negb_true_iff|].
  eapply after_bind; [apply after_any|]. intros sig _. case_test; [by apply after_ret|].
  do 2 (eapply after_bind; [apply after_any|]; intros ? _). case_test; [by apply after_ret|].
  eapply after_bind; [apply after_any|]. intros fork _. eapply after_bind; [by apply read_fork_keeps|]. intros [[err3 hdr] c3] Hok3.
  case_test; [apply after_ret; split; [done|]; by apply err_ok_false, negb_true_iff|].
  eapply after_bind; [apply after_any|]. intros ty _. case_test; [by apply after_ret|].
  do 3 (eapply after_bind; [apply after_any|]; intros ? _). case_test; [by apply after_ret|].
  eapply after_bind; [by apply volume_name_keeps|]. intros [nm c4] Hok4. eapply after_bind; [apply after_any|]. intros t _.
  apply after_ret. split_and!; try done. split; [done|]. by eexists.
Qed.
End keeps.

(** ** The promises *)
Section laws.
Context {C : Type} {HO : CacheOps C} (img : Z → list Z) (inv ok : C → Prop) (ptr : C → Z → Prop) (readable : Z → Prop).
Context {HL : CacheLaws C img 2048 inv ok ptr}.
Context (nf_malloc : nat → Z → bool) (fuel : nat).

Lemma hfsp_laws {HF : CacheCleanFailure C ok ptr} alloc : ReaderLaws (hfsp_reader nf_malloc alloc fuel) ok hfsp_mounted same_hfsp.
Proof.
  split.
  - intros c s Hok Hs. unfold hfsp_reader, hfsp_probe. cbn [r_probe]. eapply after_bind; [by apply (find_vh_keeps img inv ok ptr)|].
    intros [[err off] c'] Hc. by apply after_ret.
  - intros a c s Hok Hs. by apply (hfsp_mount_keeps img inv ok ptr).
  - apply same_hfsp_refl.
  - apply same_hfsp_trans.
  - intros r a b [k ->] [H1 H2]. done.
Qed.

Context {HR : CacheReadable C ok readable} (Hbytes : ∀ l, Forall is_byte (img l)).
Context (ctx0 : hfsplus_context) (leaves : list (Z * list cat_rec)) (Hvol : hfsp_volume img readable fuel ctx0 leaves).
(** A folder whose names can be made unique, of less than [2 ^ 31] entries. *)
Definition hfsp_listable (dir : odfs_node) : Prop :=
  ∃ L, hfsp_listing nf_malloc leaves (lba (extent dir)) = Ret L ∧ zlen L < 2 ^ 31.
Definition hfsp_faces (cnid _ : Z) (_ : odfs_backend_type) : list odfs_node :=
  match hfsp_listing nf_malloc leaves cnid with Ret L => map face L | _ => [] end.
(** An offset is the number of entries delivered. *)
Definition hfsp_stands (k : Z * Z * odfs_backend_type) (c : Z) (i : nat) : Prop :=
  c = Z.of_nat i ∧ c < 2 ^ 31 ∧ (i ≤ length (hfsp_faces k.1.1 k.1.2 k.2))%nat.

Lemma hfsp_lists : ReaderLists (hfsp_reader nf_malloc true fuel) ok same_hfsp ctx0 hfsp_listable hfsp_faces hfsp_stands.
Proof.
  split.
  - intros T cb ctx c dir t r0 i Hok Hs (L & HLs & Hlen) (Hc & Hi & Hle).
    destruct (hfsp_readdir_run img inv ok ptr readable nf_malloc cb fuel ctx leaves c dir t r0 L Hok (hfsp_volume_same img readable _ _ _ _ Hs Hvol) HLs Hlen ltac:(lia))
      as (N & ctx' & c' & HN & Hr & Hok' & Hs'). rewrite Hc, Nat2Z.id in Hr.
    pose proof (delivered_le cb (drop i N) t) as Hd. pose proof (renumbered_length _ _ _ HN) as HNl.
    assert (Hf : hfsp_faces (lba (extent dir)) (length_ (extent dir)) (backend dir) = map face L) by (unfold hfsp_faces; by rewrite HLs).
    unfold hfsp_stands in Hle. cbn [fst snd node_key] in Hle. rewrite Hf, length_map in Hle.
    eexists N, _, ctx', c'. split; [exact Hr|]. split_and!; [done|done|by rewrite Hf; apply renumbered_face in HN| |..].
    + eapply renumbered_wf; [exact HN|]. by eapply hfsp_listing_wf.
    + unfold hfsp_stands. cbn [fst snd node_key]. rewrite Hf, length_map. rewrite length_drop in Hd.
      destruct (err_ok (run cb (drop i N) t).1) eqn:He; [apply delivered_all in He; rewrite length_drop in He|]; lia.
  - intros ctx c dir nm Hok Hs (L & HLs & Hlen) Hnm.
    destruct (hfsp_lookup_run img inv ok ptr readable Hbytes nf_malloc fuel ctx leaves c dir nm L Hok (hfsp_volume_same img readable _ _ _ _ Hs Hvol) HLs Hlen Hnm)
      as (err & out & ctx' & c' & Hr & Hok' & Hs' & Hf & He). exists err, out, ctx', c'. split_and!; try done. unfold hfsp_faces. by rewrite HLs.
  - intros k. unfold hfsp_stands. split; [done|]. split; lia.
  - intros k c i (-> & Hc & _). split; [lia|]. split; [apply untagged; lia|lia].
Qed.
End laws.
