(* ===== verification/HfsPlusParents.v ===== *)
(** * Parents on an HFS+ volume

    As on HFS, by the thread records of the catalog. *)
From S2P Require Import Prelude Types Strings Namefix Media CacheApi Backend MetaCache MetaCacheProofs MetaCacheSpec.
From S2P Require Import Reader Hfs Catalog HfsNodes HfsListing HfsParents HfsPlus HfsPlusNodes HfsPlusListing.
Open Scope Z_scope.

(** The first folder thread among a folder's records. *)
Fixpoint hfsp_thread_of (recs : list cat_rec) : outcome (option Z) :=
  match recs with
  | [] => Ret None
  | r :: recs =>
      if zlen (cr_data r) <? 8 then hfsp_thread_of recs
      else
        type ← hfsp_be16 (cr_data r) 0;
        if negb (s16 type =? HFSPLUS_FOLDER_THREAD) then hfsp_thread_of recs else p ← hfsp_be32 (cr_data r) 4; Ret (Some p)
  end.

Lemma hfsp_thread_cb_inside : looks_inside hfsp_thread_record_cb.
Proof. intros key mem len info Hl. unfold hfsp_thread_record_cb. case_test; [done|]. b2p. by rewrite hfsp_be16_take, hfsp_be32_take by lia. Qed.
Lemma hfsp_thread_run recs o : hfsp_thread_of recs = Ret o →
  run_records hfsp_thread_record_cb recs None = Ret (match o with Some _ => ODFS_ERR_EOF | None => ODFS_OK end, o).
Proof.
  induction recs as [|r recs IH]; cbn [hfsp_thread_of run_records]; [by intros [= <-]|]. intros H.
  assert (Hcb : ∀ key data len i, hfsp_thread_record_cb key data len i = ltac:(let t := eval unfold hfsp_thread_record_cb in (hfsp_thread_record_cb key data len i) in exact t)) by done.
  rewrite Hcb. clear Hcb. destruct (_ <? 8); [by apply IH|].
  apply bind_Ret in H as (ty & -> & H). cbn [mbind outcome_bind]. destruct (negb _); [by apply IH|].
  apply bind_Ret in H as (p & -> & [= <-]). done.
Qed.

Section parents.
Context {C : Type} {HO : CacheOps C} (img : Z → list Z) (inv ok : C → Prop) (ptr : C → Z → Prop) (readable : Z → Prop).
Context {HL : CacheLaws C img 2048 inv ok ptr} {HR : CacheReadable C ok readable}.
Context (malloc : nat → Z → bool) (fuel : nat) (leaves : list (Z * list cat_rec)).
Abbreviation volume ctx := (hfsp_volume img readable fuel ctx leaves).

(** The folder [d] is in [p]. *)
Definition hfsp_is_in (d p : Z) : Prop := hfsp_thread_of (of_dir d (recs_of leaves)) = Ret (Some p).
Abbreviation shown := (shown_as hfsp_is_in (hfsp_listing malloc leaves) (2 ^ 31)).

Lemma hfsp_read_thread_run ctx c d p : ok c → volume ctx → hfsp_is_in d p →
  ∃ c', hfsp_read_thread true fuel ctx c d = Ret (ODFS_OK, p, c') ∧ ok c'.
Proof.
  intros Hok [H1 H2 H3 H4] Hp. unfold hfsp_read_thread.
  pose proof (hfsp_walk_runs img inv ok ptr readable ctx H1 H2 hfsp_thread_record_cb hfsp_thread_cb_inside d fuel c None leaves Hok H3 H4) as Hw.
  rewrite (hfsp_thread_run _ _ Hp) in Hw. destruct Hw as (c' & -> & Hok'). by exists c'.
Qed.
Lemma hfsp_find_child_run ctx c dir d L n : ok c → volume ctx → hfsp_listing malloc leaves (lba (extent dir)) = Ret L → zlen L < 2 ^ 31 →
  by_number (map face L) d = Some n →
  ∃ m ctx' c', hfsp_find_child_by_cnid malloc true fuel ctx c dir d = Ret (ODFS_OK, Some m, ctx', c') ∧ ok c' ∧ same_hfsp ctx ctx' ∧ face m = n.
Proof.
  intros Hok Hv HLs Hb Hn. unfold hfsp_find_child_by_cnid.
  destruct (hfsp_readdir_run img inv ok ptr readable malloc (hfsp_cnid_match_cb d) fuel ctx leaves c dir None None L Hok Hv HLs Hb ltac:(simpl; lia)) as (N & ctx' & c' & HN & -> & Hok' & Hs).
  cbn [default Z.to_nat]. rewrite drop_0. change (hfsp_cnid_match_cb d) with (hfs_cnid_match_cb d). rewrite run_match.
  rewrite <- (renumbered_face _ _ _ HN), <- by_number_face in Hn. apply fmap_Some in Hn as (m & -> & ->). by exists m, ctx', c'.
Qed.

Lemma hfsp_resolve_parent_run ctx c dir want_gp p n g gn : ok c → volume ctx → lba (extent (root ctx)) = HFSPLUS_CNID_ROOT →
  kind dir = ODFS_NODE_DIR → lba (extent dir) ≠ HFSPLUS_CNID_ROOT →
  hfsp_is_in (lba (extent dir)) p → shown (root ctx) p n →
  (if p =? HFSPLUS_CNID_ROOT then gn = face (root ctx) else hfsp_is_in p g ∧ shown (root ctx) g gn) →
  ∃ pn gpn ctx' c', hfsp_resolve_parent malloc true fuel ctx c dir want_gp = Ret (ODFS_OK, Some pn, gpn, ctx', c') ∧ ok c' ∧ same_hfsp ctx ctx' ∧
    face pn = n ∧ face <$> gpn = if want_gp then Some gn else None.
Proof.
  change (hfsp_resolve_parent malloc true fuel) with
    (resolve_with (hfsp_read_thread true fuel) (hfsp_find_child_by_cnid malloc true fuel) root hfsp_dir_at).
  apply (resolve_with_run _ _ _ _ _ _ _ _ _ (λ ctx, volume ctx)).
  - apply same_hfsp_refl.
  - apply same_hfsp_trans.
  - intros a b Hs Hv. split; [by eapply hfsp_volume_same|by destruct Hs as [k ->]].
  - unfold hfsp_is_in. intros d q q' ->. by intros [= ->].
  - intros a q Hr. unfold hfsp_dir_at. case_test; b2p; [by rewrite Hr; subst q|done].
  - apply hfsp_read_thread_run.
  - apply hfsp_find_child_run.
Qed.
End parents.
