(* ===== verification/HfsPlusSpec.v ===== *)
(** * HFS+ volumes

    A small disc, and the theorems about volumes: paths and files on a mounted volume
    are those of the catalog's listings, forks are read whole; what a file in pieces
    reads as; where volumes that are not well formed lead. *)
From stdpp Require Import gmap strings.
From S2P Require Import Prelude Types Strings Namefix Media BlockCache BlockCacheProofs BlockCacheRead BlockCacheSpec CacheApi Timestamp Charset.
From S2P Require Import Backend MetaCache MetaCacheProofs MetaCacheSpec Session Mount MountProofs MountSpec AncestrySpec IsoVolume.
From S2P Require Import Reader Discs Catalog HfsNodes HfsListing HfsParents HfsPlus HfsPlusNodes HfsPlusListing HfsPlusBackend HfsPlusParents.
Open Scope Z_scope.

(** ** Writing volumes *)

Definition utf16 (nm : list Z) : list Z := concat (map (λ c, [0; c]) nm).
Definition hfsp_make_key (parent : Z) (nm : list Z) : list Z :=
  be16_bytes (6 + 2 * zlen nm) ++ be32_bytes parent ++ be16_bytes (zlen nm) ++ utf16 nm.
Definition hfsp_make_index (parent : Z) (nm : list Z) (child : Z) : list Z := hfsp_make_key parent nm ++ be32_bytes child.
Definition hfsp_make_thread (parent : Z) (nm : list Z) : list Z :=
  be16_bytes HFSPLUS_FOLDER_THREAD ++ [0; 0] ++ be32_bytes parent ++ be16_bytes (zlen nm) ++ utf16 nm.
Definition hfsp_make_folder (cnid : Z) : list Z := fields 88 [(0, be16_bytes HFSPLUS_FOLDER_REC); (8, be32_bytes cnid)].
Definition hfsp_make_fork (sz : Z) (exts : list Z) : list Z :=
  be32_bytes 0 ++ be32_bytes sz ++ be32_bytes 0 ++ be32_bytes 0 ++ pad_to 64 (concat (map be32_bytes exts)).
Definition hfsp_make_file (sz : Z) (exts : list Z) : list Z :=
  fields 168 [(0, be16_bytes HFSPLUS_FILE_REC); (88, hfsp_make_fork sz exts)].

(** A volume [Demo] with [/a.txt], a hidden file, [/Sub], [/Sub/Deep] and [/Sub/two], which
    is in two pieces; a piece of the catalog ends in the middle of a node. *)
Definition hfsp_demo_nodes : list (list Z) :=
  [ fields 1024 [(8, [0x01]); (16, be32_bytes 1); (24, be32_bytes 2); (32, be16_bytes 1024)];
    make_node 1024 0x00 0 [hfsp_make_index 1 (str "Demo") 2; hfsp_make_index 2 (str "a.txt") 3];
    make_node 1024 0xFF 3
      [hfsp_make_key 1 (str "Demo") ++ hfsp_make_folder 2; hfsp_make_key 2 [] ++ hfsp_make_thread 1 (str "Demo");
       hfsp_make_key 2 (str ".hid") ++ hfsp_make_file 5 [20; 1]];
    make_node 1024 0xFF 0
      [hfsp_make_key 2 (str "a.txt") ++ hfsp_make_file 5 [20; 1]; hfsp_make_key 2 (str "Sub") ++ hfsp_make_folder 16;
       hfsp_make_key 16 [] ++ hfsp_make_thread 2 (str "Sub"); hfsp_make_key 16 (str "Deep") ++ hfsp_make_folder 17;
       hfsp_make_key 16 (str "two") ++ hfsp_make_file 516 [21; 1; 23; 1]; hfsp_make_key 17 [] ++ hfsp_make_thread 16 (str "Deep")] ].
Definition hfsp_demo_vh : list Z :=
  fields 512 [(0, be16_bytes HFSPLUS_SIG); (40, be32_bytes 512); (44, be32_bytes 32); (272, hfsp_make_fork 4096 [4; 3; 10; 5])].
(** Allocation blocks of 512 bytes. *)
Definition hfsp_demo_image : list Z :=
  let cat := concat hfsp_demo_nodes in
  replicate 1024 0 ++ hfsp_demo_vh ++ replicate 512 0 ++ slice cat 0 1536 ++ replicate 1536 0 ++ slice cat 1536 2560 ++ replicate 2560 0 ++
  concat (map (pad_to 512) [str "Hello"; replicate 512 65; replicate 512 66; replicate 512 67]).
Definition hfsp_demo_disc : Z → list Z := sectors_of hfsp_demo_image.
Definition hfsp_demo_medium : odfs_media_ops unit := image_ops hfsp_demo_disc 100 2048.

Definition hfsp_demo_be : Z → odfs_backend_ops (world unit (gmap Z hfsplus_context)) :=
  hfsp_backends hfsp_demo_medium (λ c, c) Some single_context enough_memory true 2 no_reader.
Definition hfsp_demo_mounted := odfs_mount hfsp_demo_medium hfsp_demo_be (λ _, true) 300 toc_zero blank_sector tt ∅ (Some demo_opts).
Definition hfsp_demo_mnt : odfs_mount_t := match hfsp_demo_mounted with Ret (_, mnt, _) => mnt | _ => mount_zero end.
Definition hfsp_demo_world : world unit (gmap Z hfsplus_context) := match hfsp_demo_mounted with Ret (_, _, w) => w | _ => mk_world (cache_zero tt) ∅ end.
Definition hfsp_demo_ctx : hfsplus_context := Eval vm_compute in
  match w_heap hfsp_demo_world !! 1 with Some c => c | _ => mk_hfsp 0 0 0 [] (mk_fork 0 0 0 []) 0 0 0 0 node_zero end.
(* /Sub/two *)
Definition hfsp_demo_path : list Z := str "/Sub/two".
Example hfsp_demo_file :
  match hfsp_demo_mounted with
  | Ret (ODFS_OK, mnt, w) =>
      match odfs_resolve_path hfsp_demo_be (λ _ _, true) mnt w hfsp_demo_path with
      | Ret (ODFS_OK, Some file, mnt, w) =>
          match odfs_read hfsp_demo_be mnt w file 500 (replicate 20 0) 20 with
          | Ret (ODFS_OK, buf, n, _) => (Mount.volume_name mnt, name file, n, buf) =
              (str "Demo", str "two", 16, replicate 12 65 ++ replicate 4 66 ++ replicate 4 0)
          | _ => False
          end
      | _ => False
      end
  | _ => False
  end.
Proof. vm_compute. reflexivity. Qed.

Definition hfsp_demo_recs (n : Z) : list cat_rec :=
  match hfsp_decode hfsp_demo_disc hfsp_demo_ctx n with Ret (CatLeaf _ recs) => recs | _ => [] end.
Definition hfsp_demo_leaves : list (Z * list cat_rec) := Eval vm_compute in [(2, hfsp_demo_recs 2); (3, hfsp_demo_recs 3)].
Definition hfsp_demo_dirs (n : odfs_node) : Prop := lba (extent n) ∈ [2; 16; 17].
Lemma hfsp_demo_sector l : zlen (hfsp_demo_disc l) = 2048.
Proof. apply sectors_of_length. Qed.
Lemma hfsp_demo_bytes l : Forall is_byte (hfsp_demo_disc l).
Proof. apply sectors_of_bytes. vm_compute. reflexivity. Qed.
Lemma hfsp_demo_reads : MediaReads hfsp_demo_medium hfsp_demo_disc 2048.
Proof. apply image_ops_reads; [lia|apply hfsp_demo_sector]. Qed.
Lemma hfsp_demo_path_name : is_name hfsp_demo_path.
Proof. repeat constructor; lia. Qed.
(** Where the volume lies and what its catalog is. *)
Lemma hfsp_demo_geometry : HfsPlus.vol_offset hfsp_demo_ctx = 0 ∧ HfsPlus.block_size hfsp_demo_ctx = 512 ∧ cat_node_size hfsp_demo_ctx = 1024 ∧
  cat_root_node hfsp_demo_ctx = 1 ∧ extents (cat_fork hfsp_demo_ctx) = [mk_hfsp_extent 4 3; mk_hfsp_extent 10 5] ++ replicate 6 (mk_hfsp_extent 0 0).
Proof. repeat split; vm_compute; reflexivity. Qed.
Lemma hfsp_demo_extent start count : 0 ≤ start → 0 ≤ count → start + count ≤ 100 → extent_ok (medium_readable hfsp_demo_medium 2048) hfsp_demo_ctx (mk_hfsp_extent start count).
Proof.
  destruct hfsp_demo_geometry as (G1 & G2 & _). intros Hs Hc Hl. unfold extent_ok, hfsp_block_to_byte. cbn [block_count start_block]. rewrite G1, G2.
  assert (u64 (0 + start * 512) = start * 512) as -> by (unfold u64; apply Z.mod_small; lia). split_and!; [lia..|].
  intros o Ho. apply image_readable. dlia.
Qed.
Lemma hfsp_demo_catalog : catalog (hfsp_decode hfsp_demo_disc hfsp_demo_ctx) (cat_root_node hfsp_demo_ctx) hfsp_demo_leaves.
Proof. apply two_leaves; [vm_compute; reflexivity..|discriminate|discriminate|repeat constructor; discriminate]. Qed.
Lemma hfsp_demo_volume : hfsp_volume hfsp_demo_disc (medium_readable hfsp_demo_medium 2048) 2 hfsp_demo_ctx hfsp_demo_leaves.
Proof.
  destruct hfsp_demo_geometry as (_ & _ & G3 & _ & G5).
  split; [rewrite G5; repeat constructor; apply hfsp_demo_extent; lia|rewrite G3; lia|apply hfsp_demo_catalog|apply Nat.le_refl].
Qed.
Lemma hfsp_closed_tree malloc leaves ds root : lba (extent root) ∈ ds → closed_listings (hfsp_listing malloc leaves) ds = true →
  tree_of (hfsp_listable malloc leaves) (hfsp_faces malloc leaves) root (λ n, lba (extent n) ∈ ds).
Proof. exact (closed_tree (hfsp_listing malloc leaves) ds root). Qed.
Lemma hfsp_demo_tree : tree_of (hfsp_listable enough_memory hfsp_demo_leaves) (hfsp_faces enough_memory hfsp_demo_leaves) (mnt_root hfsp_demo_mnt) hfsp_demo_dirs.
Proof. apply hfsp_closed_tree; [|vm_compute; reflexivity]. assert (lba (extent (mnt_root hfsp_demo_mnt)) = 2) as -> by (vm_compute; reflexivity). by left. Qed.

(** ** Reading files *)
Section read.
Context {C : Type} {HO : CacheOps C} (img : Z → list Z) (inv ok : C → Prop) (ptr : C → Z → Prop).
Context {HL : CacheLaws C img 2048 inv ok ptr}.
(** A read gives what follows the first block of the file on the disc. *)
Lemma hfsp_read_run ctx c file offset buf len err buf' n c' :
  ok c → hfsp_block_to_byte ctx (lba (extent file)) + size file ≤ 2 ^ 43 →
  0 ≤ offset → 0 ≤ len ≤ zlen buf → hfsp_read ctx c file offset buf len = (err, buf', n, c') →
  0 ≤ n ≤ len ∧ (err = ODFS_OK → n = Z.max 0 (Z.min len (size file - offset)) ∧
    take (Z.to_nat n) buf' = disc_bytes img 2048 (hfsp_block_to_byte ctx (lba (extent file)) + offset) n ∧ drop (Z.to_nat n) buf' = drop (Z.to_nat n) buf).
Proof.
  intros Hok Hfit Ho Hlen. unfold hfsp_read. set (b := hfsp_block_to_byte ctx (lba (extent file))) in *.
  assert (Hb : 0 ≤ b) by (unfold b, hfsp_block_to_byte, u64; apply Z.mod_pos_bound; lia). case_test; b2p.
  - intros [= <- <- <- <-]. split; [lia|]. intros _. split_and!; [lia|done|done].
  - set (want := if size file - offset <? len then size file - offset else len).
    assert (Hw : want = Z.min len (size file - offset)) by (unfold want; case_test; b2p; lia).
    assert (u64 (b + offset) = b + offset) as -> by (unfold u64; apply Z.mod_small; lia). intros Hr.
    destruct (cl_read_bytes (ok := ok) c 0 (b + offset) buf want err buf' n c' Hok ltac:(done) ltac:(lia) ltac:(lia) ltac:(dlia) Hr) as (_ & Hn & _ & _ & Hd).
    split; [lia|]. intros He. destruct (Hd He) as (_ & -> & ->). rewrite Z.mul_0_l, Z.add_0_l in *.
    pose proof (length_disc_bytes img 2048 (b + offset) want ltac:(lia)) as Hlb.
    split_and!; [lia|apply take_app_length'; lia|apply drop_app_length'; lia].
Qed.
(** The bytes of the fork's first extent. *)
Lemma fork_image_first ctx e rest off n : 0 ≤ off → 0 ≤ n → off + n ≤ block_count e * HfsPlus.block_size ctx → 0 < n →
  slice (fork_image img ctx (e :: rest)) off n = disc_bytes img 2048 (hfsp_block_to_byte ctx (start_block e) + off) n.
Proof.
  intros Ho Hn Hb H0. cbn [fork_image]. rewrite (proj2 (Z.eqb_neq _ _)) by lia.
  pose proof (length_disc_bytes img 2048 (hfsp_block_to_byte ctx (start_block e)) (block_count e * HfsPlus.block_size ctx) ltac:(lia)) as Hl.
  rewrite slice_app_l by lia. by apply slice_disc_bytes.
Qed.
End read.

(** ** Properties *)
Section properties.
Context {M K : Type} (mops : odfs_media_ops M) (img : Z → list Z) (put : hfsplus_context → K) (get : K → option hfsplus_context) (calloc : gmap Z K → Z)
  (nf_malloc : nat → Z → bool) (fuel : nat) (others : Z → odfs_backend_ops (world M (gmap Z K))).
Definition hfsp_rd : reader (odfs_cache M) hfsplus_context := hfsp_reader (HO := block_cache_ops mops) nf_malloc true fuel.
(** A volume mounted from [m] by this backend, its catalog well formed and readable;
    [dirs] are the folders of the tree. *)
Record hfsp_mount_of (m : M) (mnt : odfs_mount_t) (w : world M (gmap Z K)) (ctx : hfsplus_context) (leaves : list (Z * list cat_rec))
    (dirs : odfs_node → Prop) : Prop := {
  pm_store : ∀ c, get (put c) = Some c;
  pm_mount : mount_of mops img put get calloc hfsp_rd 5 ODFS_BACKEND_HFSPLUS 0 others m mnt w ctx;
  pm_volume : hfsp_volume img (medium_readable mops 2048) fuel ctx leaves;
  pm_tree : tree_of (hfsp_listable nf_malloc leaves) (hfsp_faces nf_malloc leaves) (mnt_root mnt) dirs }.
End properties.

(** Reading a range of a fork gives exactly its bytes, whatever extents and sectors
    the range runs across: the fork is its extents one after the other, up to the first
    without blocks.  If the fork ends before the range does, what is there is delivered
    with an I/O error.  In particular the loop over a fork's sectors always ends. *)
Theorem hfsp_fork_read_exact {C} {HO : CacheOps C} img inv ok ptr readable ctx fork c offset len :
  CacheLaws C img 2048 inv ok ptr → CacheReadable C ok readable → Forall (extent_ok readable ctx) (extents fork) → ok c →
  0 ≤ offset → 0 ≤ len → offset + len < 2 ^ 64 →
  let got := slice (fork_image img ctx (extents fork)) offset len in
  ∃ c', hfsp_read_fork ctx c fork offset len = Ret (if zlen got =? len then ODFS_OK else ODFS_ERR_IO, got, c') ∧ ok c'.
Proof. intros HL HR. by apply (read_fork_exact img inv ok ptr readable). Qed.

(** The fork [Hello], then the two pieces of [/Sub/two], read from the end of one extent
    over the second into the third and beyond its end. *)
Definition hfsp_demo_fork : hfsp_fork := mk_fork 1536 0 3 [mk_hfsp_extent 20 1; mk_hfsp_extent 21 1; mk_hfsp_extent 23 1; mk_hfsp_extent 0 0].
Lemma hfsp_fork_read_exact_witness :
  let HO := disc_cache hfsp_demo_disc 2048 in
  (∃ c', hfsp_read_fork hfsp_demo_ctx () hfsp_demo_fork 510 516 = Ret (ODFS_OK, [0; 0] ++ replicate 512 65 ++ [67; 67], c') ∧ True) ∧
  ∃ c', hfsp_read_fork hfsp_demo_ctx () hfsp_demo_fork 1534 8 = Ret (ODFS_ERR_IO, [67; 67], c') ∧ True.
Proof.
  intros HO. assert (HL : CacheLaws unit hfsp_demo_disc 2048 (λ _, True) (λ _, True) (λ _ _, True)) by apply disc_cache_laws, hfsp_demo_sector.
  assert (HR : CacheReadable unit (λ _, True) (medium_readable hfsp_demo_medium 2048)) by (intros [] l _ _ _; by exists l, tt).
  assert (He : Forall (extent_ok (medium_readable hfsp_demo_medium 2048) hfsp_demo_ctx) (extents hfsp_demo_fork))
    by (repeat constructor; apply hfsp_demo_extent; lia).
  assert (G1 : slice (fork_image hfsp_demo_disc hfsp_demo_ctx (extents hfsp_demo_fork)) 510 516 = [0; 0] ++ replicate 512 65 ++ [67; 67]) by (vm_compute; reflexivity).
  assert (G2 : slice (fork_image hfsp_demo_disc hfsp_demo_ctx (extents hfsp_demo_fork)) 1534 8 = [67; 67]) by (vm_compute; reflexivity).
  pose proof (hfsp_fork_read_exact hfsp_demo_disc _ _ _ _ hfsp_demo_ctx hfsp_demo_fork () 510 516 HL HR He I ltac:(lia) ltac:(lia) ltac:(lia)) as H1.
  pose proof (hfsp_fork_read_exact hfsp_demo_disc _ _ _ _ hfsp_demo_ctx hfsp_demo_fork () 1534 8 HL HR He I ltac:(lia) ltac:(lia) ltac:(lia)) as H2.
  cbv zeta in H1, H2. rewrite G1 in H1. rewrite G2 in H2. exact (conj H1 H2).
Defined.

(** [C36] Resolving a path on a mounted HFS+ volume is walking the listings of its catalog:
    from the root folder, each name is looked up among the records of the folder that
    the B-tree holds, wherever in the leaves and in which extents of the catalog they
    lie and whatever the caches hold; the answer is that of the walk, error or node. *)
Theorem hfsplus_volume_resolves {M K} (mops : odfs_media_ops M) img put get (calloc : gmap Z K → Z) nf_malloc fuel others m mnt w ctx leaves dirs
    meta_malloc path :
  let be := hfsp_backends mops put get calloc nf_malloc true fuel others in
  MediaReads mops img 2048 → CleanFailure mops → (∀ l, Forall is_byte (img l)) →
  hfsp_mount_of mops img put get calloc nf_malloc fuel others m mnt w ctx leaves dirs → is_name path →
  ∃ err out mnt' w', odfs_resolve_path be meta_malloc mnt w path = Ret (err, out, mnt', w') ∧ cache_ok img 2048 (w_cache w') ∧
    (err, face <$> out) = walk be (hfsp_faces nf_malloc leaves) mnt (mnt_root mnt) (components path []).
Proof.
  intros be Hmedia Hclean Hb [Hst Hm Hv Ht] Hp.
  pose proof (block_cache_laws mops img 2048 Hmedia eq_refl) as HL. pose proof (block_cache_clean mops img 2048 Hmedia Hclean) as HF.
  pose proof (block_cache_readable mops img 2048 Hmedia) as HR.
  pose proof (hfsp_laws img _ _ _ nf_malloc fuel true (HL := HL)) as HRL.
  pose proof (hfsp_lists img _ _ _ _ nf_malloc fuel Hb ctx leaves Hv (HL := HL)) as HRS.
  destruct (reader_resolves mops img put get calloc (hfsp_rd mops nf_malloc fuel) hfsp_mounted same_hfsp Hst 5 ODFS_BACKEND_HFSPLUS 0 others Hmedia m mnt w ctx Hm
    _ _ _ dirs Ht meta_malloc path Hp) as (err & out & mnt' & w' & He & _ & [Hw' _] & Hwk). by exists err, out, mnt', w'.
Qed.

Lemma hfsp_demo_mount_of : hfsp_mount_of hfsp_demo_medium hfsp_demo_disc (λ c, c) Some single_context enough_memory 2 no_reader
  tt hfsp_demo_mnt hfsp_demo_world hfsp_demo_ctx hfsp_demo_leaves hfsp_demo_dirs.
Proof.
  split; [done| |exact hfsp_demo_volume|exact hfsp_demo_tree]. split.
  - apply no_reader_keeps.
  - exists (λ _, true), 300%nat, toc_zero, blank_sector, ∅, (Some demo_opts). split; [by simpl|]. vm_compute. reflexivity.
  - vm_compute. reflexivity.
  - vm_compute. reflexivity.
Qed.
Lemma hfsplus_volume_resolves_witness :
  ∃ err out mnt' w', odfs_resolve_path hfsp_demo_be (λ _ _, true) hfsp_demo_mnt hfsp_demo_world hfsp_demo_path = Ret (err, out, mnt', w') ∧
    cache_ok hfsp_demo_disc 2048 (w_cache w') ∧
    (err, face <$> out) = walk hfsp_demo_be (hfsp_faces enough_memory hfsp_demo_leaves) hfsp_demo_mnt (mnt_root hfsp_demo_mnt) (components hfsp_demo_path []).
Proof.
  apply (hfsplus_volume_resolves hfsp_demo_medium hfsp_demo_disc (λ c, c) Some single_context enough_memory 2 no_reader tt hfsp_demo_mnt hfsp_demo_world
    hfsp_demo_ctx hfsp_demo_leaves hfsp_demo_dirs).
  - exact hfsp_demo_reads.
  - apply image_ops_clean.
  - exact hfsp_demo_bytes.
  - exact hfsp_demo_mount_of.
  - exact hfsp_demo_path_name.
Defined.

(** [C37] Reading a file that a path on an HFS+ volume was resolved to: as many bytes as
    were asked for and the file has, those that follow its first allocation block on the
    disc; as long as they lie in the first extent of the data fork they are the fork's.
    A failing read claims no more bytes than were asked for. *)
Theorem hfsplus_volume_reads {M K} (mops : odfs_media_ops M) img put get (calloc : gmap Z K → Z) nf_malloc fuel others m mnt w ctx leaves dirs
    meta_malloc path file mnt' w' offset buf len err buf' n w2 :
  let be := hfsp_backends mops put get calloc nf_malloc true fuel others in
  MediaReads mops img 2048 → CleanFailure mops → (∀ l, Forall is_byte (img l)) →
  hfsp_mount_of mops img put get calloc nf_malloc fuel others m mnt w ctx leaves dirs → is_name path →
  odfs_resolve_path be meta_malloc mnt w path = Ret (ODFS_OK, Some file, mnt', w') →
  hfsp_block_to_byte ctx (lba (extent file)) + size file ≤ 2 ^ 43 →
  0 ≤ offset → 0 ≤ len ≤ zlen buf → odfs_read be mnt' w' file offset buf len = Ret (err, buf', n, w2) →
  walk be (hfsp_faces nf_malloc leaves) mnt (mnt_root mnt) (components path []) = (ODFS_OK, Some (face file)) ∧ 0 ≤ n ≤ len ∧
  (err = ODFS_OK → n = Z.max 0 (Z.min len (size file - offset)) ∧
    take (Z.to_nat n) buf' = disc_bytes img 2048 (hfsp_block_to_byte ctx (lba (extent file)) + offset) n ∧ drop (Z.to_nat n) buf' = drop (Z.to_nat n) buf ∧
    ∀ e rest, start_block e = lba (extent file) → offset + n ≤ block_count e * HfsPlus.block_size ctx →
      take (Z.to_nat n) buf' = slice (fork_image img ctx (e :: rest)) offset n).
Proof.
  intros be Hmedia Hclean Hb [Hst Hm Hv Ht] Hp Hres Hfit Ho Hlen Hr.
  pose proof (block_cache_laws mops img 2048 Hmedia eq_refl) as HL. pose proof (block_cache_clean mops img 2048 Hmedia Hclean) as HF.
  pose proof (block_cache_readable mops img 2048 Hmedia) as HR.
  pose proof (hfsp_laws img _ _ _ nf_malloc fuel true (HL := HL)) as HRL.
  pose proof (hfsp_lists img _ _ _ _ nf_malloc fuel Hb ctx leaves Hv (HL := HL)) as HRS.
  destruct (reader_reads mops img put get calloc (hfsp_rd mops nf_malloc fuel) hfsp_mounted same_hfsp Hst 5 ODFS_BACKEND_HFSPLUS 0 others Hmedia m mnt w ctx Hm
    _ _ _ dirs Ht meta_malloc path file mnt' w' offset buf len err buf' n w2 Hp Hres Hr) as (Hwk & Hok & [[Hne ->]|(c & cache' & [k ->] & [= Hrd])]);
    (split; [exact Hwk|]); [split; [lia|done]|].
  destruct (hfsp_read_run (HO := block_cache_ops mops) img _ _ _ (HL := HL) (set_next_node_id k ctx) (w_cache w') file offset buf len err buf' n cache' Hok Hfit Ho Hlen Hrd) as [Hn Hd].
  split; [done|]. intros Hok'. destruct (Hd Hok') as (Hn' & Hbytes & Hdrop). split_and!; [done..|].
  intros e rest He Hfork. destruct (decide (n = 0)) as [->|Hn0]; [done|]. rewrite fork_image_first by lia. by rewrite He.
Qed.

Definition hfsp_demo_resolved := odfs_resolve_path hfsp_demo_be (λ _ _, true) hfsp_demo_mnt hfsp_demo_world hfsp_demo_path.
Definition hfsp_demo_node : odfs_node := Eval vm_compute in match hfsp_demo_resolved with Ret (_, Some n, _, _) => n | _ => node_zero end.
Definition hfsp_demo_mnt2 : odfs_mount_t := match hfsp_demo_resolved with Ret (_, _, mnt, _) => mnt | _ => mount_zero end.
Definition hfsp_demo_world2 : world unit (gmap Z hfsplus_context) := match hfsp_demo_resolved with Ret (_, _, _, w) => w | _ => hfsp_demo_world end.
Definition hfsp_demo_world3 : world unit (gmap Z hfsplus_context) :=
  match odfs_read hfsp_demo_be hfsp_demo_mnt2 hfsp_demo_world2 hfsp_demo_node 508 (replicate 8 0) 4 with Ret (_, _, _, w) => w | _ => hfsp_demo_world end.

(** The last bytes of the first piece. *)
Lemma hfsplus_volume_reads_witness :
  odfs_read hfsp_demo_be hfsp_demo_mnt2 hfsp_demo_world2 hfsp_demo_node 508 (replicate 8 0) 4 = Ret (ODFS_OK, [65; 65; 65; 65; 0; 0; 0; 0], 4, hfsp_demo_world3) ∧
  [65; 65; 65; 65] = slice (fork_image hfsp_demo_disc hfsp_demo_ctx [mk_hfsp_extent 21 1; mk_hfsp_extent 23 1]) 508 4.
Proof.
  assert (Hread : odfs_read hfsp_demo_be hfsp_demo_mnt2 hfsp_demo_world2 hfsp_demo_node 508 (replicate 8 0) 4 =
    Ret (ODFS_OK, [65; 65; 65; 65; 0; 0; 0; 0], 4, hfsp_demo_world3)) by (vm_compute; reflexivity).
  split; [exact Hread|]. destruct hfsp_demo_geometry as (_ & G2 & _).
  destruct (hfsplus_volume_reads hfsp_demo_medium hfsp_demo_disc (λ c, c) Some single_context enough_memory 2 no_reader tt hfsp_demo_mnt hfsp_demo_world
    hfsp_demo_ctx hfsp_demo_leaves hfsp_demo_dirs (λ _ _, true) hfsp_demo_path hfsp_demo_node hfsp_demo_mnt2 hfsp_demo_world2 508 (replicate 8 0) 4 ODFS_OK
    [65; 65; 65; 65; 0; 0; 0; 0] 4 hfsp_demo_world3 hfsp_demo_reads (image_ops_clean hfsp_demo_disc 100 2048) hfsp_demo_bytes hfsp_demo_mount_of hfsp_demo_path_name)
    as (_ & _ & H).
  - vm_compute. reflexivity.
  - vm_compute. discriminate.
  - lia.
  - simpl. lia.
  - exact Hread.
  - destruct (H eq_refl) as (_ & _ & _ & Hf). apply (Hf (mk_hfsp_extent 21 1)); [reflexivity|]. rewrite G2. simpl. lia.
Defined.

(** [C38] Whatever bytes a disc holds, well formed or not, enumerating an HFS+ folder hands
    only well-typed nodes to the callback: files and folders of the folder asked for, with
    terminated names that fit, sizes of 64 bits, extents of 32, dates of the calendar or
    none; so whatever well-typed nodes keep true of the callback's state holds in the
    end.  Node numbers and the resume offset stay 32-bit values. *)
Theorem hfsp_readdir_typed {C} {HO : CacheOps C} img inv ok ptr T (cb : odfs_dir_iter_fn T) (I : T → Prop) malloc alloc fuel ctx c dir t r0 :
  CacheLaws C img 2048 inv ok ptr → (∀ l, Forall is_byte (img l)) → ok c → is_u32 (next_node_id ctx) → (∀ z, r0 = Some z → is_u32 z) →
  (∀ n s, node_typed n → parent_id n = id dir → I s → I (cb n s).2) → I t →
  after (hfsp_readdir malloc alloc fuel cb ctx c dir t r0)
    (λ '(_, r, ctx', _, t'), I t' ∧ is_u32 (next_node_id ctx') ∧ ∀ z, r = Some z → is_u32 z).
Proof.
  intros HL Hb Hok Hi Hr Hcb Ht. unfold hfsp_readdir. eapply after_bind.
  - eapply (walk_keeps img inv ok ptr Hb); [by apply record_cb_keeps|exact Hok|]. by split_and!; [exact Hi|apply namefix_init_wf|..].
  - intros [[err rc] c'] (H1 & _ & H2 & H3). case_test; apply after_ret; (split; [exact H2|]); (split; [exact H1|]); [exact H3|].
    intros z. destruct r0; [|done]. intros [= <-]. apply u32_range.
Qed.

(** All nodes of [/Sub] are well typed. *)
Definition hfsp_gather (n : odfs_node) (l : list odfs_node) : odfs_err * list odfs_node := (ODFS_OK, l ++ [n]).
Definition hfsp_demo_gathered : list odfs_node := Eval vm_compute in
  match hfsp_readdir (H := disc_cache hfsp_demo_disc 2048) enough_memory true 2 hfsp_gather hfsp_demo_ctx () (hfsp_dir_stub 16) [] (Some 0) with
  | Ret (_, _, _, _, l) => l | _ => [] end.
Lemma hfsp_readdir_typed_witness :
  let HO := disc_cache hfsp_demo_disc 2048 in
  ∃ ctx', hfsp_readdir enough_memory true 2 hfsp_gather hfsp_demo_ctx () (hfsp_dir_stub 16) [] (Some 0) =
    Ret (ODFS_OK, Some 2, ctx', (), hfsp_demo_gathered) ∧
  map name hfsp_demo_gathered = [str "Deep"; str "two"] ∧ Forall node_typed hfsp_demo_gathered ∧ is_u32 (next_node_id ctx').
Proof.
  intros HO. exists (set_next_node_id 3 hfsp_demo_ctx).
  assert (Hrun : hfsp_readdir enough_memory true 2 hfsp_gather hfsp_demo_ctx () (hfsp_dir_stub 16) [] (Some 0) =
    Ret (ODFS_OK, Some 2, set_next_node_id 3 hfsp_demo_ctx, (), hfsp_demo_gathered)) by (vm_compute; reflexivity).
  split; [exact Hrun|]. split; [vm_compute; reflexivity|].
  assert (HL : CacheLaws unit hfsp_demo_disc 2048 (λ _, True) (λ _, True) (λ _ _, True)) by apply disc_cache_laws, hfsp_demo_sector.
  assert (H0 : is_u32 (next_node_id hfsp_demo_ctx)) by (split; vm_compute; [discriminate|reflexivity]).
  assert (Hr0 : ∀ z, Some 0 = Some z → is_u32 z) by (intros z [= <-]; split; [lia|reflexivity]).
  assert (Hcb : ∀ n s, node_typed n → parent_id n = id (hfsp_dir_stub 16) → Forall node_typed s → Forall node_typed (hfsp_gather n s).2)
    by (intros n s Hn _ Hs; apply Forall_app; split; [exact Hs|constructor; [exact Hn|constructor]]).
  revert Hrun. generalize (set_next_node_id 3 hfsp_demo_ctx) hfsp_demo_gathered. intros ctx' L Hrun.
  destruct (hfsp_readdir_typed hfsp_demo_disc _ _ _ _ hfsp_gather (Forall node_typed) enough_memory true 2
    hfsp_demo_ctx () (hfsp_dir_stub 16) [] (Some 0) HL hfsp_demo_bytes Logic.I H0 Hr0 Hcb (Forall_nil_2 _) _ Hrun) as (H1 & H2 & _).
  exact (conj H1 H2).
Defined.

(** ** Volumes that are not well formed *)

(** As on HFS, a leaf that points to itself is never left. *)
Theorem hfsp_cyclic_leaf_never_ends {C} {HO : CacheOps C} img inv ok ptr readable ctx cnid n recs :
  CacheLaws C img 2048 inv ok ptr → CacheReadable C ok readable → Forall (extent_ok readable ctx) (extents (cat_fork ctx)) →
  14 ≤ cat_node_size ctx ≤ 32768 → cat_descend (hfsp_decode img ctx) cnid 20 (cat_root_node ctx) = Ret (inr n) → n ≠ 0 →
  hfsp_decode img ctx n = Ret (CatLeaf n recs) → Forall (λ r, cr_parent r < cnid) recs →
  ∀ fuel malloc c T (cb : odfs_dir_iter_fn T) dir t r0, ok c → lba (extent dir) = cnid →
    hfsp_readdir malloc true fuel cb ctx c dir t r0 = Diverge.
Proof.
  intros HL HR Hread Hsize Hdesc Hn Hd Hrecs fuel malloc c T cb dir t r0 Hok <-. unfold hfsp_readdir.
  pose proof (hfsp_walk_simulates img inv ok ptr readable ctx Hread Hsize (hfsp_readdir_record_cb malloc cb dir (to_int (default 0 r0)) r0)
    (hfsp_readdir_cb_inside malloc cb dir (to_int (default 0 r0)) r0) (lba (extent dir)) fuel c (mk_hc ctx t 0 r0 ODFS_OK odfs_namefix_init) Hok) as Hw.
  unfold cat_walk in Hw. rewrite Hdesc in Hw. cbn [mbind outcome_bind] in Hw. rewrite (cycle_scan _ _ _ _ recs) in Hw by done.
  cbn [simulates] in Hw. by rewrite Hw.
Qed.

(** [/Sub/two] of the disc above is in two pieces; the bytes read after the first are those of
    the block that follows it. *)
Theorem hfsp_fragmented_file_wrong :
  let HO := disc_cache hfsp_demo_disc 2048 in
  (hfsp_read hfsp_demo_ctx () hfsp_demo_node 508 (replicate 8 0) 8).1.1 = (ODFS_OK, [65; 65; 65; 65; 66; 66; 66; 66]) ∧
  slice (fork_image hfsp_demo_disc hfsp_demo_ctx [mk_hfsp_extent 21 1; mk_hfsp_extent 23 1]) 508 8 = [65; 65; 65; 65; 67; 67; 67; 67].
Proof. split; vm_compute; reflexivity. Qed.

(** A file record too short to be one is not delivered, but counted when it is skipped: an
    enumeration that goes on after the first entry delivers it again. *)
Definition hfsp_short_nodes : list Z :=
  replicate 1024 0 ++ make_node 1024 0xFF 0
    [hfsp_make_key 2 (str "a") ++ take 80 (hfsp_make_file 5 [20; 1]); hfsp_make_key 2 (str "b") ++ hfsp_make_file 5 [20; 1];
     hfsp_make_key 2 (str "c") ++ hfsp_make_file 5 [20; 1]].
Definition hfsp_short_disc : Z → list Z := sectors_of hfsp_short_nodes.
Definition hfsp_short_ctx : hfsplus_context := mk_hfsp 0 512 32 [] (mk_fork 2048 0 4 [mk_hfsp_extent 0 4]) 1024 1 1 1 node_zero.
Definition hfsp_one (n : odfs_node) (l : list (list Z)) : odfs_err * list (list Z) := (ODFS_ERR_EOF, l ++ [name n]).
(** The new offset and the names delivered from an offset on. *)
Definition hfsp_short_from (i : Z) : outcome (option Z * list (list Z)) :=
  '(_, r, _, _, l) ← hfsp_readdir (H := disc_cache hfsp_short_disc 2048) enough_memory true 1 hfsp_one hfsp_short_ctx () (hfsp_dir_stub 2) [] (Some i); Ret (r, l).
Theorem hfsp_short_record_repeats :
  hfsp_short_from 0 = Ret (Some 1, [str "b"]) ∧ hfsp_short_from 1 = Ret (Some 2, [str "b"]) ∧ hfsp_short_from 2 = Ret (Some 3, [str "c"]).
Proof. repeat split; vm_compute; reflexivity. Qed.
