(* ===== verification/Udf.v ===== *)
(** * The UDF backend ([backends/udf/])

    Directories and files are objects: an information control block (ICB) with either
    the data itself or a run of allocation descriptors, which may go on in further
    blocks.  A directory's data are file identifier descriptors (FIDs), each with a name
    and the ICB of an object.  Reading outside a sector or a buffer is [Fault].  Log calls
    are left out; the CRC of descriptors is not looked at, as in the code. *)
From stdpp Require Import strings.
From S2P Require Import Prelude Types Strings Namefix CacheApi Charset.
Open Scope Z_scope.

(* [src: backends/udf/udf.h:17-33 UDF_TAG_PVD] *)
Definition UDF_TAG_PVD : Z := 1.
Definition UDF_TAG_AVDP : Z := 2.
Definition UDF_TAG_PD : Z := 5.
Definition UDF_TAG_LVD : Z := 6.
Definition UDF_TAG_TD : Z := 8.
Definition UDF_TAG_FSD : Z := 256.
Definition UDF_TAG_FID : Z := 257.
Definition UDF_TAG_AED : Z := 258.
Definition UDF_TAG_FE : Z := 261.
Definition UDF_TAG_EFE : Z := 266.
(* [src: backends/udf/udf.h:37-37 UDF_AVDP_LBA] *)
Definition UDF_AVDP_LBA : Z := 256.
(* [src: backends/udf/udf.h:41-50 UDF_ICB_FILETYPE_DIR] *)
Definition UDF_ICB_FILETYPE_SYMLINK : Z := 12.
Definition UDF_FID_FLAG_DIRECTORY : Z := 0x02.
Definition UDF_FID_FLAG_DELETED : Z := 0x04.
Definition UDF_FID_FLAG_PARENT : Z := 0x08.
(* [src: backends/udf/udf.h:54-65 UDF_ICB_ALLOC_SHORT] *)
Definition UDF_ICB_ALLOC_SHORT : Z := 0.
Definition UDF_ICB_ALLOC_LONG : Z := 1.
Definition UDF_ICB_ALLOC_EMBEDDED : Z := 3.
Definition UDF_EXT_RECORDED : Z := 0.
Definition UDF_EXT_CONTINUATION : Z := 3.
Definition UDF_EXT_LENGTH_MASK : Z := 0x3FFFFFFF.

(* [src: backends/udf/udf.h:69-72 udf_le16] *)
Definition udf_le16 (p : list Z) (pos : Z) : outcome Z :=
  b0 ← rd p pos; b1 ← rd p (pos + 1); Ret (le16 b0 b1).
(* [src: backends/udf/udf.h:74-78 udf_le32] *)
Definition udf_le32 (p : list Z) (pos : Z) : outcome Z :=
  b0 ← rd p pos; b1 ← rd p (pos + 1); b2 ← rd p (pos + 2); b3 ← rd p (pos + 3); Ret (le32 b0 b1 b2 b3).
(* [src: backends/udf/udf.h:80-83 udf_le64] *)
Definition udf_le64 (p : list Z) (pos : Z) : outcome Z :=
  lo ← udf_le32 p pos; hi ← udf_le32 p (pos + 4); Ret (Z.lor lo (Z.shiftl hi 32)).

(* [src: backends/udf/udf.h:87-95 udf_tag_t] *)
Record udf_tag : Type := mk_tag {
  tag_id : Z; tag_version : Z; tag_checksum : Z; tag_serial : Z; tag_crc : Z; tag_crc_length : Z; tag_location : Z }.
(* [src: backends/udf/udf.h:121-140 udf_context_t] *)
Record udf_context : Type := mk_udf {
  part_start : Z; part_length : Z; part_number : Z; lv_block_size : Z; volume_id : list Z;
  root_icb_lba : Z; root_icb_part : Z; next_node_id : Z; root : odfs_node }.
Definition set_next_node_id v ctx : udf_context :=
  mk_udf (part_start ctx) (part_length ctx) (part_number ctx) (lv_block_size ctx) (volume_id ctx) (root_icb_lba ctx) (root_icb_part ctx) v (root ctx).

(** ** Descriptors and names *)

(** The tag at the front of [data], and whether its checksum is right. *)
(* [src: backends/udf/udf.c:26-43 udf_read_tag] *)
Definition udf_read_tag (data : list Z) : outcome (udf_tag * bool) :=
  id ← udf_le16 data 0; version ← udf_le16 data 2; checksum ← rd data 4; serial ← udf_le16 data 6;
  crc ← udf_le16 data 8; crc_length ← udf_le16 data 10; location ← udf_le32 data 12;
  front ← rd_range data 0 4; back ← rd_range data 5 11;
  Ret (mk_tag id version checksum serial crc crc_length location, u8 (foldr Z.add 0 (front ++ back)) =? checksum).
(** Whether [data] begins with a good tag that is one of [ids]. *)
Definition is_tag (ids : list Z) (data : list Z) : outcome bool :=
  '(tag, good) ← udf_read_tag data; Ret ((good : bool) && bool_decide (tag_id tag ∈ ids)).

(* [src: backends/udf/udf.c:84-85 udf_decode_dstring] *)
Fixpoint trim_end (s : list Z) : list Z :=
  match s with [] => [] | ch :: s => match trim_end s with [] => if ch =? 32 then [] else [ch] | t => ch :: t end end.
(** The bytes of a name of [len] bytes, the first of which says how it is encoded. *)
(* [src: backends/udf/udf.c:100-113 udf_decode_cs0] *)
Definition cs0_bytes (src : list Z) (len dst_size : Z) : outcome (list Z) :=
  comp_id ← rd src 0;
  if comp_id =? 16 then uname ← rd_range src 1 (len - 1); Ret (default [] (odfs_ucs2be_to_utf8 uname dst_size).2)
  else rd_range src 1 (if dst_size <? len then dst_size - 1 else len - 1).
(* [src: backends/udf/udf.c:49-86 udf_decode_dstring] *)
Definition udf_decode_dstring (src : list Z) (field_len dst_size : Z) : outcome (list Z) :=
  if (field_len =? 0) || (dst_size =? 0) then Ret []
  else
    used ← rd src (field_len - 1);
    if (used =? 0) || (field_len - 1 <? used) then Ret []
    else raw ← cs0_bytes src used dst_size; Ret (c_str (trim_end raw)).
(* [src: backends/udf/udf.c:92-114 udf_decode_cs0] *)
Definition udf_decode_cs0 (src : list Z) (len dst_size : Z) : outcome (list Z) :=
  if (len =? 0) || (dst_size =? 0) then Ret [] else raw ← cs0_bytes src len dst_size; Ret (c_str raw).
(** The timestamp at [pos]. *)
(* [src: backends/udf/udf.c:120-136 udf_parse_timestamp] *)
Definition udf_parse_timestamp (ts : list Z) (pos : Z) : outcome odfs_timestamp :=
  tz ← udf_le16 ts (pos + 2); year ← udf_le16 ts (pos + 4); month ← rd ts (pos + 6); day ← rd ts (pos + 7);
  hour ← rd ts (pos + 8); minute ← rd ts (pos + 9); second ← rd ts (pos + 10);
  let tz := s16 tz in
  Ret (mk_timestamp (s16 year) month day hour minute second (if (-1440 <=? tz) && (tz <=? 1440) then tz else 0)).
(* [src: backends/udf/udf.c:142-145 udf_phys_lba] *)
Definition udf_phys_lba (ctx : udf_context) (part_lba : Z) : Z := u32 (part_start ctx + part_lba).
Definition block_size_of (ctx : udf_context) : Z := if lv_block_size ctx =? 0 then 2048 else lv_block_size ctx.

Section udf.
Context {C : Type} `{CacheOps C}.

(** ** Probing and mounting *)

(* [src: backends/udf/udf.c:151-175 udf_probe] *)
Definition udf_probe (c : C) (session_start : Z) : outcome (odfs_err * C) :=
  let '(err, p, c) := bc_read c (u32 (session_start + UDF_AVDP_LBA)) in
  if negb (err_ok err) then Ret (err, c)
  else avdp ← is_tag [UDF_TAG_AVDP] (bc_data c p); Ret (if (avdp : bool) then ODFS_OK else ODFS_ERR_BAD_FORMAT, c).

(** What the scan of the volume descriptors has found: the context, whether there was a
    partition descriptor, and where the file set descriptor is. *)
Definition vds_state : Type := udf_context * bool * option Z.
Definition set_partition start len number ctx : udf_context :=
  mk_udf start len number (lv_block_size ctx) (volume_id ctx) (root_icb_lba ctx) (root_icb_part ctx) (next_node_id ctx) (root ctx).
Definition set_volume block_size vol ctx : udf_context :=
  mk_udf (part_start ctx) (part_length ctx) (part_number ctx) block_size vol (root_icb_lba ctx) (root_icb_part ctx) (next_node_id ctx) (root ctx).
Definition set_root icb part root ctx : udf_context :=
  mk_udf (part_start ctx) (part_length ctx) (part_number ctx) (lv_block_size ctx) (volume_id ctx) icb part (next_node_id ctx) root.
(** One descriptor; [None] is the terminator. *)
(* [src: backends/udf/udf.c:227-277 udf_mount] *)
Definition vds_sector (sector : list Z) (st : vds_state) : outcome (option vds_state) :=
  let '(ctx, found_pd, fsd) := st in
  '(tag, good) ← udf_read_tag sector;
  if negb good then Ret (Some st)
  else if tag_id tag =? UDF_TAG_PVD then
    vol ← udf_decode_dstring (mem_at sector 24) 32 128; Ret (Some (set_volume (lv_block_size ctx) vol ctx, found_pd, fsd))
  else if tag_id tag =? UDF_TAG_PD then
    number ← udf_le16 sector 22; start ← udf_le32 sector 188; len ← udf_le32 sector 192;
    Ret (Some (set_partition start len number ctx, true, fsd))
  else if tag_id tag =? UDF_TAG_LVD then
    bs ← udf_le32 sector 212;
    vol ← (if bool_decide (volume_id ctx = []) then udf_decode_dstring (mem_at sector 84) 128 128 else Ret (volume_id ctx));
    _ ← udf_le32 sector 248; lba ← udf_le32 sector 252; _ ← udf_le16 sector 256;
    Ret (Some (set_volume bs vol ctx, found_pd, Some lba))
  else if tag_id tag =? UDF_TAG_TD then Ret None
  else Ret (Some st).
(** The descriptors from [lba] on, [n] sectors; unreadable ones are passed over. *)
(* [src: backends/udf/udf.c:222-279 udf_mount] *)
Fixpoint scan_vds (n : nat) (c : C) (lba : Z) (st : vds_state) : outcome (vds_state * C) :=
  match n with
  | O => Ret (st, c)
  | S n =>
      let '(err, p, c) := bc_read c lba in
      if negb (err_ok err) then scan_vds n c (u32 (lba + 1)) st
      else
        r ← vds_sector (bc_data c p) st;
        match r with None => Ret (st, c) | Some st => scan_vds n c (u32 (lba + 1)) st end
  end.
(* [src: backends/udf/udf.c:181-345 udf_mount] *)
Definition udf_mount (ctx_alloc : bool) (c : C) (session_start : Z) : outcome (odfs_err * option (odfs_node * udf_context) * C) :=
  if negb ctx_alloc then Ret (ODFS_ERR_NOMEM, None, c)
  else
    let '(err, p, c) := bc_read c (u32 (session_start + UDF_AVDP_LBA)) in
    if negb (err_ok err) then Ret (err, None, c)
    else
      avdp ← is_tag [UDF_TAG_AVDP] (bc_data c p);
      if negb avdp then Ret (ODFS_ERR_BAD_FORMAT, None, c)
      else
        mvds_lba ← udf_le32 (bc_data c p) 20;
        mvds_len ← udf_le32 (bc_data c p) 16;
        '((ctx, found_pd, fsd), c) ← scan_vds (Z.to_nat (mvds_len / 2048)) c mvds_lba (mk_udf 0 0 0 2048 [] 0 0 1 node_zero, false, None);
        match fsd with
        | Some fsd_lba =>
            if negb found_pd then Ret (ODFS_ERR_BAD_FORMAT, None, c)
            else
              let '(err, p, c) := bc_read c (udf_phys_lba ctx fsd_lba) in
              if negb (err_ok err) then Ret (err, None, c)
              else
                is_fsd ← is_tag [UDF_TAG_FSD] (bc_data c p);
                if negb is_fsd then Ret (ODFS_ERR_BAD_FORMAT, None, c)
                else
                  icb ← udf_le32 (bc_data c p) 404;
                  part ← udf_le16 (bc_data c p) 408;
                  let root_phys := udf_phys_lba ctx icb in
                  let '(err, p, c) := bc_read c root_phys in
                  if negb (err_ok err) then Ret (err, None, c)
                  else
                    is_fe ← is_tag [UDF_TAG_FE; UDF_TAG_EFE] (bc_data c p);
                    if negb is_fe then Ret (ODFS_ERR_BAD_FORMAT, None, c)
                    else
                      '(tag, _) ← udf_read_tag (bc_data c p);
                      sz ← udf_le64 (bc_data c p) 56;
                      t ← udf_parse_timestamp (bc_data c p) (if tag_id tag =? UDF_TAG_FE then 84 else 108);
                      let root_out := mk_node 0 0 ODFS_BACKEND_UDF ODFS_NODE_DIR [47] sz t t 0 amiga_as_zero (mk_extent root_phys (u32 sz)) 0 in
                      Ret (ODFS_OK, Some (root_out, set_root icb part root_out ctx), c)
        | None => Ret (ODFS_ERR_BAD_FORMAT, None, c)
        end.

(** ** Objects *)

(** What an ICB says; [icb_data_lba] is 0 for allocation types the function does not know. *)
(* [src: backends/udf/udf.c:365-372 udf_read_icb_ex] *)
Record udf_icb : Type := mk_icb {
  icb_data_size : Z; icb_data_lba : Z; icb_file_type : Z; icb_mtime : odfs_timestamp; icb_embed_off : Z }.
Definition icb_zero : udf_icb := mk_icb 0 0 0 timestamp_zero 0.
(** The fields both kinds of file entry have: allocation type, size, length of the
    attributes, length and base of the descriptors; where the time is. *)
(* [src: backends/udf/udf.c:399-419 udf_read_icb_ex] *)
Definition entry_fields (sector : list Z) (base len_off : Z) : outcome (Z * Z * Z * Z * Z) :=
  alloc ← udf_le16 sector 34; sz ← udf_le64 sector 56; ea_len ← udf_le32 sector len_off; ad_length ← udf_le32 sector (len_off + 4);
  Ret (Z.land alloc 7, sz, ea_len, ad_length, base).
(** [inl] is an error; the base tells the kinds apart. *)
(* [src: backends/udf/udf.c:384-422 udf_read_icb_ex] *)
Definition file_entry (block_size : Z) (sector : list Z) : outcome (odfs_err + Z * Z * Z * Z * Z) :=
  '(tag, good) ← udf_read_tag sector;
  if negb good then Ret (inl ODFS_ERR_CORRUPT)
  else if tag_id tag =? UDF_TAG_FE then
    if block_size <? 176 then Ret (inl ODFS_ERR_CORRUPT) else inr <$> entry_fields sector 176 168
  else if tag_id tag =? UDF_TAG_EFE then
    if block_size <? 216 then Ret (inl ODFS_ERR_CORRUPT) else inr <$> entry_fields sector 216 208
  else Ret (inl ODFS_ERR_BAD_FORMAT).
(* [src: backends/udf/udf.c:365-454 udf_read_icb_ex] *)
Definition udf_read_icb_ex (ctx : udf_context) (c : C) (icb_phys : Z) : outcome (odfs_err * udf_icb * C) :=
  let '(err, p, c) := bc_read c icb_phys in
  if negb (err_ok err) then Ret (err, icb_zero, c)
  else
    let sector := bc_data c p in
    let block_size := block_size_of ctx in
    fe ← file_entry block_size sector;
    match fe with
    | inl err => Ret (err, icb_zero, c)
    | inr (alloc_type, data_size, ea_len, ad_length, ad_base) =>
        file_type ← rd sector 27;
        mtime ← udf_parse_timestamp sector (if ad_base =? 176 then 84 else 108);
        if block_size - ad_base <? ea_len then Ret (ODFS_ERR_CORRUPT, icb_zero, c)
        else
          let ad_offset := ad_base + ea_len in
          if block_size - ad_offset <? ad_length then Ret (ODFS_ERR_CORRUPT, icb_zero, c)
          else
            let icb lba off := Ret (ODFS_OK, mk_icb data_size lba file_type mtime off, c) in
            if alloc_type =? UDF_ICB_ALLOC_EMBEDDED then icb icb_phys ad_offset
            else if alloc_type =? UDF_ICB_ALLOC_SHORT then
              if (ad_length <? 8) || (block_size - 8 <? ad_offset) then Ret (ODFS_ERR_CORRUPT, icb_zero, c)
              else pos ← udf_le32 sector (ad_offset + 4); icb (udf_phys_lba ctx pos) 0
            else if alloc_type =? UDF_ICB_ALLOC_LONG then
              if (ad_length <? 16) || (block_size - 16 <? ad_offset) then Ret (ODFS_ERR_CORRUPT, icb_zero, c)
              else lba ← udf_le32 sector (ad_offset + 4); icb (udf_phys_lba ctx lba) 0
            else icb 0 0
    end.
(* [src: backends/udf/udf.c:456-466 udf_read_icb] *)
Definition udf_read_icb (ctx : udf_context) (c : C) (icb_phys : Z) : outcome (odfs_err * udf_icb * C) := udf_read_icb_ex ctx c icb_phys.

(** A run of allocation descriptors ends the function, with an error and the length
    read, or goes on in the block [elba]. *)
Inductive ad_result : Type :=
  | AdStop (err : odfs_err) (buf : list Z) (len : Z) (c : C)
  | AdNext (elba cur_pos done : Z) (buf : list Z) (c : C).
(** [p] bytes of the run are behind; [n] rounds are enough as every one takes eight bytes
    at least. *)
(* [src: backends/udf/udf.c:567-642 udf_read_object] *)
Fixpoint ad_run (n : nat) (ctx : udf_context) (ad_size : Z) (run : list Z) (file_offset want p cur_pos done : Z) (buf : list Z) (c : C)
    : outcome ad_result :=
  if negb (done <? want) then Ret (AdStop ODFS_OK buf done c)
  else if zlen run <? p + ad_size then Ret (AdStop ODFS_OK buf done c)
  else
    match n with
    | O => Diverge
    | S n =>
        len_field ← udf_le32 run p;
        elba ← udf_le32 run (p + 4);
        let etype := Z.shiftr len_field 30 in
        let elen := Z.land len_field UDF_EXT_LENGTH_MASK in
        if etype =? UDF_EXT_CONTINUATION then Ret (AdNext elba cur_pos done buf c)
        else if elen =? 0 then Ret (AdStop ODFS_OK buf done c)
        else
          let ext_end := u64 (cur_pos + elen) in
          let start_in_file := u64 (file_offset + done) in
          if start_in_file <? ext_end then
            let skip := u32 (start_in_file - cur_pos) in
            let chunk := ext_end - start_in_file in
            let chunk := if want - done <? chunk then want - done else chunk in
            if etype =? UDF_EXT_RECORDED then
              piece ← rd_range buf done chunk;
              let '(err, piece, n_read, c) := bc_read_bytes c (udf_phys_lba ctx elba) skip piece chunk in
              let buf := splice buf done piece in
              if negb (err_ok err) then Ret (AdStop err buf done c)
              else if n_read <? chunk then Ret (AdStop ODFS_OK buf (done + n_read) c)
              else ad_run n ctx ad_size run file_offset want (p + ad_size) ext_end (done + n_read) buf c
            else
              buf ← wr_range buf done (replicate (Z.to_nat chunk) 0);
              ad_run n ctx ad_size run file_offset want (p + ad_size) ext_end (done + chunk) buf c
          else ad_run n ctx ad_size run file_offset want (p + ad_size) ext_end done buf c
    end.
Definition AED_CHAIN : nat := Z.to_nat 4096.
(** [guard] more blocks of descriptors may follow. *)
(* [src: backends/udf/udf.c:578-599 udf_read_object] *)
Fixpoint ad_chain (guard : nat) (ctx : udf_context) (ad_size : Z) (run : list Z) (file_offset want cur_pos done : Z) (buf : list Z) (c : C)
    : outcome (odfs_err * list Z * Z * C) :=
  r ← ad_run (length run) ctx ad_size run file_offset want 0 cur_pos done buf c;
  match r with
  | AdStop err buf len c => Ret (err, buf, len, c)
  | AdNext elba cur_pos done buf c =>
      match guard with
      | O => Ret (ODFS_ERR_CORRUPT, buf, 0, c)
      | S guard =>
          let '(err, p, c) := bc_read c (udf_phys_lba ctx elba) in
          if negb (err_ok err) then Ret (err, buf, 0, c)
          else
            let aed := bc_data c p in
            is_aed ← is_tag [UDF_TAG_AED] aed;
            if negb is_aed then Ret (ODFS_ERR_CORRUPT, buf, 0, c)
            else
              alen ← udf_le32 aed 20;
              if (2048 <? alen) || (block_size_of ctx <? u32 (24 + alen)) then Ret (ODFS_ERR_CORRUPT, buf, 0, c)
              else run ← rd_range aed 24 alen; ad_chain guard ctx ad_size run file_offset want cur_pos done buf c
      end
  end.
(** Result: error, buffer, length, cache; [buf] is the memory at the caller's buffer. *)
(* [src: backends/udf/udf.c:482-643 udf_read_object] *)
Definition udf_read_object (ctx : udf_context) (c : C) (icb_phys file_offset : Z) (buf : list Z) (want : Z) : outcome (odfs_err * list Z * Z * C) :=
  let '(err, p, c) := bc_read c icb_phys in
  if negb (err_ok err) then Ret (err, buf, 0, c)
  else
    let sector := bc_data c p in
    let block_size := block_size_of ctx in
    fe ← file_entry block_size sector;
    match fe with
    | inl err => Ret (err, buf, 0, c)
    | inr (alloc_type, data_size, ea_len, ad_length, ad_base) =>
        if 2048 <? block_size then Ret (ODFS_ERR_UNSUPPORTED, buf, 0, c)
        else if block_size - ad_base <? ea_len then Ret (ODFS_ERR_CORRUPT, buf, 0, c)
        else
          let ad_offset := ad_base + ea_len in
          if block_size - ad_offset <? ad_length then Ret (ODFS_ERR_CORRUPT, buf, 0, c)
          else if data_size <=? file_offset then Ret (ODFS_OK, buf, 0, c)
          else
            let want := if data_size - file_offset <? want then data_size - file_offset else want in
            if want =? 0 then Ret (ODFS_OK, buf, 0, c)
            else if alloc_type =? UDF_ICB_ALLOC_EMBEDDED then
              if block_size <? u64 (ad_offset + data_size) then Ret (ODFS_ERR_CORRUPT, buf, 0, c)
              else data ← rd_range sector (ad_offset + file_offset) want; buf ← wr_range buf 0 data; Ret (ODFS_OK, buf, want, c)
            else if negb ((alloc_type =? UDF_ICB_ALLOC_SHORT) || (alloc_type =? UDF_ICB_ALLOC_LONG))
            then Ret (ODFS_ERR_UNSUPPORTED, buf, 0, c)
            else
              run ← rd_range sector ad_offset ad_length;
              ad_chain AED_CHAIN ctx (if alloc_type =? UDF_ICB_ALLOC_SHORT then 8 else 16) run file_offset want 0 0 buf c
    end.
(** Exactly [len] bytes at [offset]. *)
(* [src: backends/udf/udf.c:646-661 udf_read_exact] *)
Definition udf_read_exact (ctx : udf_context) (c : C) (icb_phys offset len : Z) : outcome (odfs_err * list Z * C) :=
  '(err, buf, got, c) ← udf_read_object ctx c icb_phys offset (replicate (Z.to_nat len) 0) len;
  Ret (if negb (err_ok err) then err else if negb (got =? len) then ODFS_ERR_EOF else ODFS_OK, buf, c).

(* [src: backends/udf/udf.c:663-696 udf_fill_node_from_icb] *)
Definition udf_fill_node_from_icb (ctx : udf_context) (c : C) (fid_flags icb_lba : Z) (node : odfs_node) : outcome (odfs_err * odfs_node * C) :=
  let icb_phys := udf_phys_lba ctx icb_lba in
  '(err, icb, c) ← udf_read_icb ctx c icb_phys;
  if negb (err_ok err) then Ret (err, node, c)
  else
    let k := if negb (Z.land fid_flags UDF_FID_FLAG_DIRECTORY =? 0) then ODFS_NODE_DIR
             else if icb_file_type icb =? UDF_ICB_FILETYPE_SYMLINK then ODFS_NODE_SYMLINK else ODFS_NODE_FILE in
    Ret (ODFS_OK,
      mk_node (id node) (parent_id node) (backend node) k (name node) (icb_data_size icb) (icb_mtime icb) (icb_mtime icb) (mode node) (amiga_as node)
        (mk_extent icb_phys (u32 (icb_data_size icb))) (backend_data node), c).

(** ** Directories *)

(* [src: backends/udf/udf.c:698-707 udf_fid_info_t] *)
Record udf_fid_info : Type := mk_fid {
  fid_header : list Z; fid_start : Z; fid_next : Z; fid_length : Z; fid_icb_lba : Z; fid_impl_len : Z; fid_flags : Z; fid_name_len : Z }.
(* [src: backends/udf/udf.c:776-782 udf_dir_entry_t] *)
Record udf_dir_entry : Type := mk_dir_entry { de_node : odfs_node; de_start : Z; de_next : Z; de_icb_lba : Z; de_flags : Z }.
Definition HEADER : Z := 38.
(** The length of a FID, a multiple of four. *)
(* [src: backends/udf/udf.c:759-760 udf_walk_fids] *)
Definition fid_size (impl_len name_len : Z) : Z := Z.land (u32 (38 + impl_len + name_len + 3)) 0xFFFFFFFC.

(** A callback may use the cache and change the context. *)
Definition fid_fn (S : Type) : Type := udf_fid_info → udf_context → C → S → outcome (odfs_err * udf_context * C * S).
Definition dir_entry_fn (S : Type) : Type := udf_dir_entry → udf_context → C → S → outcome (odfs_err * udf_context * C * S).

Section walk.
Context {S : Type}.
(** A FID takes 40 bytes at least. *)
(* [src: backends/udf/udf.c:736-773 udf_walk_fids] *)
Fixpoint fid_loop (n : nat) (callback : fid_fn S) (dir : odfs_node) (dir_size offset : Z) (ctx : udf_context) (c : C) (s : S)
    : outcome (odfs_err * udf_context * C * S) :=
  if negb (offset <? dir_size) then Ret (ODFS_OK, ctx, c, s)
  else
    match n with
    | O => Diverge
    | Datatypes.S n =>
        let remaining := dir_size - offset in
        if remaining <? HEADER then Ret (ODFS_OK, ctx, c, s)
        else
          '(err, header, c) ← udf_read_exact ctx c (lba (extent dir)) offset HEADER;
          if negb (err_ok err) then Ret (err, ctx, c, s)
          else
            is_fid ← is_tag [UDF_TAG_FID] header;
            if negb is_fid then Ret (ODFS_OK, ctx, c, s)
            else
              flags ← rd header 18; name_len ← rd header 19; icb_lba ← udf_le32 header 24; impl_len ← udf_le16 header 36;
              let len := fid_size impl_len name_len in
              if (len <? HEADER) || (remaining <? len) then Ret (ODFS_ERR_CORRUPT, ctx, c, s)
              else
                let next := u32 (offset + len) in
                '(err, ctx, c, s) ← callback (mk_fid header offset next len icb_lba impl_len flags name_len) ctx c s;
                if negb (err_ok err) then Ret (err, ctx, c, s) else fid_loop n callback dir dir_size next ctx c s
    end.
(** Result: error, the size of the directory once it is known, context, cache, state. *)
(* [src: backends/udf/udf.c:711-774 udf_walk_fids] *)
Definition udf_walk_fids (callback : fid_fn S) (dir : odfs_node) (ctx : udf_context) (c : C) (s : S)
    : outcome (odfs_err * option Z * udf_context * C * S) :=
  '(err, icb, c) ← udf_read_icb ctx c (lba (extent dir));
  if negb (err_ok err) then Ret (err, None, ctx, c, s)
  else if UINT32_MAX <? icb_data_size icb then Ret (ODFS_ERR_CORRUPT, None, ctx, c, s)
  else
    let dir_size := icb_data_size icb in
    '(err, ctx, c, s) ← fid_loop (Datatypes.S (Z.to_nat (dir_size / HEADER))) callback dir dir_size 0 ctx c s;
    Ret (err, Some dir_size, ctx, c, s).

(** [nf_malloc] is for the table of names; [alloc start] says whether there is memory for
    the FID at [start]. *)
Context (nf_malloc : nat → Z → bool) (alloc : Z → bool).
(* [src: backends/udf/udf.c:796-852 udf_decode_dir_entry] *)
Definition udf_decode_dir_entry (callback : dir_entry_fn S) (dir : odfs_node) (fid : udf_fid_info) (ctx : udf_context) (c : C)
    (s : odfs_namefix_state * S) : outcome (odfs_err * udf_context * C * (odfs_namefix_state * S)) :=
  let '(namefix, t) := s in
  if (HEADER <? fid_length fid) && negb (alloc (fid_start fid)) then Ret (ODFS_ERR_NOMEM, ctx, c, s)
  else
    '(err, data, c) ← (if HEADER <? fid_length fid then udf_read_exact ctx c (lba (extent dir)) (fid_start fid) (fid_length fid)
                       else Ret (ODFS_OK, fid_header fid, c));
    if negb (err_ok err) then Ret (err, ctx, c, s)
    else if negb (Z.land (fid_flags fid) (Z.lor UDF_FID_FLAG_DELETED UDF_FID_FLAG_PARENT) =? 0) then Ret (ODFS_OK, ctx, c, s)
    else
      let i := next_node_id ctx in
      let ctx := set_next_node_id (u32 (i + 1)) ctx in
      let name_off := 38 + fid_impl_len fid in
      if (fid_length fid <? name_off) || (fid_length fid - name_off <? fid_name_len fid) then Ret (ODFS_ERR_CORRUPT, ctx, c, s)
      else
        nm ← (if 0 <? fid_name_len fid then udf_decode_cs0 (mem_at data name_off) (fid_name_len fid) ODFS_NAME_MAX else Ret []);
        let '(err, namefix, nm) := odfs_namefix_apply nf_malloc namefix nm ODFS_NAME_MAX in
        if negb (err_ok err) then Ret (err, ctx, c, (namefix, t))
        else
          let node := mk_node i (id dir) ODFS_BACKEND_UDF ODFS_NODE_FILE nm 0 timestamp_zero timestamp_zero 0 amiga_as_zero (mk_extent 0 0) 0 in
          '(err, ctx, c, t) ← callback (mk_dir_entry node (fid_start fid) (fid_next fid) (fid_icb_lba fid) (fid_flags fid)) ctx c t;
          Ret (err, ctx, c, (namefix, t)).
End walk.
Section entries.
Context {S : Type} (nf_malloc : nat → Z → bool) (alloc : Z → bool).
(* [src: backends/udf/udf.c:854-874 udf_walk_dir_entries] *)
Definition udf_walk_dir_entries (callback : dir_entry_fn S) (dir : odfs_node) (ctx : udf_context) (c : C) (s : S)
    : outcome (odfs_err * option Z * udf_context * C * S) :=
  '(err, dir_size, ctx, c, s) ← udf_walk_fids (udf_decode_dir_entry nf_malloc alloc callback dir) dir ctx c (odfs_namefix_init, s);
  Ret (err, dir_size, ctx, c, s.2).
End entries.

Section ops.
Context (nf_malloc : nat → Z → bool) (alloc : Z → bool).

(** ** Enumeration *)
Section readdir.
Context {T : Type} (callback : odfs_node → T → odfs_err * T) (target : Z).
(** The state is the callback's and [*resume_offset]. *)
(* [src: backends/udf/udf.c:889-908 udf_readdir_entry] *)
Definition udf_readdir_entry (entry : udf_dir_entry) (ctx : udf_context) (c : C) (s : T * option Z)
    : outcome (odfs_err * udf_context * C * (T * option Z)) :=
  let '(t, resume) := s in
  if de_start entry <? target then Ret (ODFS_OK, ctx, c, s)
  else
    '(err, node, c) ← udf_fill_node_from_icb ctx c (de_flags entry) (de_icb_lba entry) (de_node entry);
    if negb (err_ok err) then Ret (ODFS_OK, ctx, c, s)
    else
      let '(err, t) := callback node t in
      Ret (err, ctx, c, (t, if negb (err_ok err) then (λ _, de_next entry) <$> resume else resume)).
End readdir.
(* [src: backends/udf/udf.c:910-941 udf_readdir] *)
Definition udf_readdir {T} (callback : odfs_node → T → odfs_err * T) (ctx : udf_context) (c : C) (dir : odfs_node) (t : T) (resume : option Z)
    : outcome (odfs_err * option Z * udf_context * C * T) :=
  '(err, dir_size, ctx, c, s) ← udf_walk_dir_entries nf_malloc alloc (udf_readdir_entry callback (default 0 resume)) dir ctx c (t, resume);
  let '(t, resume) := s in
  if negb (err_ok err) then Ret (err, resume, ctx, c, t)
  else Ret (ODFS_OK, (λ _, default 0 dir_size) <$> (resume : option Z), ctx, c, t).

(** ** Reading and looking up *)

(* [src: backends/udf/udf.c:947-961 udf_read] *)
Definition udf_read (ctx : udf_context) (c : C) (file : odfs_node) (offset : Z) (buf : list Z) (len : Z) : outcome (odfs_err * list Z * Z * C) :=
  udf_read_object ctx c (lba (extent file)) offset buf len.
(* [src: backends/udf/udf.c:975-993 udf_lookup_entry] *)
Definition udf_lookup_entry (nm : list Z) (entry : udf_dir_entry) (ctx : udf_context) (c : C) (found : option odfs_node)
    : outcome (odfs_err * udf_context * C * option odfs_node) :=
  if negb (odfs_strcasecmp (name (de_node entry)) nm =? 0) then Ret (ODFS_OK, ctx, c, found)
  else
    '(err, node, c) ← udf_fill_node_from_icb ctx c (de_flags entry) (de_icb_lba entry) (de_node entry);
    Ret (if negb (err_ok err) then (ODFS_OK, ctx, c, found) else (ODFS_ERR_EOF, ctx, c, Some node)).
(* [src: backends/udf/udf.c:995-1021 udf_lookup] *)
Definition udf_lookup (ctx : udf_context) (c : C) (dir : odfs_node) (nm : list Z) : outcome (odfs_err * option odfs_node * udf_context * C) :=
  '(err, _, ctx, c, found) ← udf_walk_dir_entries nf_malloc alloc (udf_lookup_entry nm) dir ctx c None;
  let err := if bool_decide (is_Some found) then ODFS_OK else if negb (err_ok err) then err else ODFS_ERR_NOT_FOUND in
  Ret (err, found, ctx, c).

(** ** Symbolic links *)

(** A name appended to the path [out], with a slash between; [None] if it does not fit. *)
(* [src: backends/udf/udf.c:1107-1118 udf_readlink] *)
Definition append_component (out comp : list Z) (buf_size : Z) : option (list Z) :=
  let slash := (0 <? zlen out) && negb (bool_decide (last out = Some 47)) in
  if slash && (buf_size <=? zlen out + 1) then None
  else
    let out := if slash then out ++ [47] else out in
    if buf_size <=? zlen out + zlen comp then None else Some (out ++ comp).
(** The components in [data] from [pos] on. *)
(* [src: backends/udf/udf.c:1078-1123 udf_readlink] *)
Fixpoint component_loop (n : nat) (data : list Z) (pos buf_size : Z) (out : list Z) : outcome (odfs_err * list Z) :=
  if negb (pos + 4 <=? zlen data) then Ret (ODFS_OK, out)
  else
    match n with
    | O => Diverge
    | S n =>
        ctype ← rd data pos;
        clen ← rd data (pos + 1);
        if zlen data <? pos + 4 + clen then Ret (ODFS_OK, out)
        else
          let next out := component_loop n data (pos + 4 + clen) buf_size out in
          let append comp := match append_component out comp buf_size with
                             | None => Ret (ODFS_ERR_NAME_TOO_LONG, out) | Some out => next out end in
          if (ctype =? 1) || (ctype =? 2) then if buf_size <=? 1 then Ret (ODFS_ERR_NAME_TOO_LONG, []) else next [47]
          else if ctype =? 3 then append [46; 46]
          else if ctype =? 5 then
            comp ← udf_decode_cs0 (mem_at data (pos + 4)) clen 256;
            if bool_decide (comp = []) then next out else append comp
          else next out
    end.
(** The target of a link, from its data. *)
(* [src: backends/udf/udf.c:1070-1130 udf_readlink] *)
Definition link_target (data : list Z) (buf_size : Z) : outcome (odfs_err * option (list Z)) :=
  raw ← (if 0 <? zlen data then b ← rd data 0; Ret (5 <? b) else Ret false);
  if (raw : bool) then if buf_size <=? zlen data then Ret (ODFS_ERR_NAME_TOO_LONG, None) else Ret (ODFS_OK, Some (c_str data))
  else
    '(err, out) ← component_loop (length data) data 0 buf_size [];
    Ret (if negb (err_ok err) then (err, None) else if bool_decide (out = []) then (ODFS_ERR_UNSUPPORTED, None) else (ODFS_OK, Some out)).
(* [src: backends/udf/udf.c:1033-1130 udf_readlink] *)
Definition udf_readlink (ctx : udf_context) (c : C) (dir : odfs_node) (nm : list Z) (buf_size : Z)
    : outcome (odfs_err * option (list Z) * udf_context * C) :=
  '(err, node, ctx, c) ← udf_lookup ctx c dir nm;
  match node with
  | Some node =>
      if negb (err_ok err) then Ret (err, None, ctx, c)
      else if negb (bool_decide (kind node = ODFS_NODE_SYMLINK)) then Ret (ODFS_ERR_UNSUPPORTED, None, ctx, c)
      else if (size node =? 0) || (512 <? size node) then Ret (ODFS_ERR_UNSUPPORTED, None, ctx, c)
      else
        '(err, data, len, c) ← udf_read ctx c node 0 (replicate 512 0) (size node);
        if negb (err_ok err) then Ret (err, None, ctx, c)
        else '(err, out) ← link_target (take (Z.to_nat len) data) buf_size; Ret (err, out, ctx, c)
  | None => Ret (err, None, ctx, c)
  end.

(** ** Parents *)

(* [src: backends/udf/udf.c:1142-1154 udf_parent_fid] *)
Definition udf_parent_fid : fid_fn (option Z) := λ fid ctx c found,
  if (Z.land (fid_flags fid) UDF_FID_FLAG_DELETED =? 0) && negb (Z.land (fid_flags fid) UDF_FID_FLAG_PARENT =? 0)
  then Ret (ODFS_ERR_EOF, ctx, c, Some (udf_phys_lba ctx (fid_icb_lba fid)))
  else Ret (ODFS_OK, ctx, c, found).
(* [src: backends/udf/udf.c:1156-1174 udf_read_parent_icb] *)
Definition udf_read_parent_icb (ctx : udf_context) (c : C) (dir : odfs_node) : outcome (odfs_err * Z * C) :=
  '(err, _, _, c, found) ← udf_walk_fids udf_parent_fid dir ctx c None;
  match found with
  | Some icb => Ret (ODFS_OK, icb, c)
  | None => Ret (if negb (err_ok err) then err else ODFS_ERR_UNSUPPORTED, 0, c)
  end.
(* [src: backends/udf/udf.c:1184-1202 udf_child_icb_entry] *)
Definition udf_child_icb_entry (child_icb : Z) (entry : udf_dir_entry) (ctx : udf_context) (c : C) (found : option odfs_node)
    : outcome (odfs_err * udf_context * C * option odfs_node) :=
  if negb (udf_phys_lba ctx (de_icb_lba entry) =? child_icb) then Ret (ODFS_OK, ctx, c, found)
  else
    '(err, node, c) ← udf_fill_node_from_icb ctx c (de_flags entry) (de_icb_lba entry) (de_node entry);
    Ret (if negb (err_ok err) || negb (bool_decide (kind node = ODFS_NODE_DIR)) then (ODFS_OK, ctx, c, found) else (ODFS_ERR_EOF, ctx, c, Some node)).
(* [src: backends/udf/udf.c:1204-1230 udf_find_child_by_icb] *)
Definition udf_find_child_by_icb (ctx : udf_context) (c : C) (parent_dir : odfs_node) (child_icb : Z)
    : outcome (odfs_err * option odfs_node * udf_context * C) :=
  '(err, _, ctx, c, found) ← udf_walk_dir_entries nf_malloc alloc (udf_child_icb_entry child_icb) parent_dir ctx c None;
  let err := if bool_decide (is_Some found) then ODFS_OK else if negb (err_ok err) then err else ODFS_ERR_NOT_FOUND in
  Ret (err, found, ctx, c).
(* [src: backends/udf/udf.c:1232-1241 udf_dir_stub] *)
Definition udf_dir_stub (icb : Z) : odfs_node :=
  mk_node 0 0 ODFS_BACKEND_UDF ODFS_NODE_DIR [] 0 timestamp_zero timestamp_zero 0 amiga_as_zero (mk_extent icb 0) 0.
Definition udf_dir_at (ctx : udf_context) (icb : Z) : odfs_node := if icb =? lba (extent (root ctx)) then root ctx else udf_dir_stub icb.
(** [want_gp] says that [grandparent_out] is not NULL. *)
(* [src: backends/udf/udf.c:1243-1323 udf_resolve_parent] *)
Definition udf_resolve_parent (ctx : udf_context) (c : C) (dir : odfs_node) (want_gp : bool)
    : outcome (odfs_err * option odfs_node * option odfs_node * udf_context * C) :=
  if negb (bool_decide (kind dir = ODFS_NODE_DIR)) then Ret (ODFS_ERR_NOT_DIR, None, None, ctx, c)
  else if lba (extent dir) =? lba (extent (root ctx)) then Ret (ODFS_ERR_NOT_FOUND, None, None, ctx, c)
  else
    '(err, parent_icb, c) ← udf_read_parent_icb ctx c dir;
    if negb (err_ok err) then Ret (err, None, None, ctx, c)
    else if parent_icb =? lba (extent dir) then Ret (ODFS_ERR_NOT_FOUND, None, None, ctx, c)
    else if parent_icb =? lba (extent (root ctx))
    then Ret (ODFS_OK, Some (root ctx), if want_gp then Some (root ctx) else None, ctx, c)
    else
      '(err, gp_icb, c) ← udf_read_parent_icb ctx c (udf_dir_stub parent_icb);
      if negb (err_ok err) then Ret (err, None, None, ctx, c)
      else
        '(err, parent_out, ctx, c) ← udf_find_child_by_icb ctx c (udf_dir_at ctx gp_icb) parent_icb;
        if negb (err_ok err) || negb want_gp then Ret (err, parent_out, None, ctx, c)
        else if gp_icb =? lba (extent (root ctx)) then Ret (ODFS_OK, parent_out, Some (root ctx), ctx, c)
        else
          '(err, ggp_icb, c) ← udf_read_parent_icb ctx c (udf_dir_stub gp_icb);
          if negb (err_ok err) then Ret (err, parent_out, None, ctx, c)
          else
            '(err, gp_out, ctx, c) ← udf_find_child_by_icb ctx c (udf_dir_at ctx ggp_icb) gp_icb;
            Ret (err, parent_out, gp_out, ctx, c).
End ops.

(** ** The volume *)

(* [src: backends/udf/udf.c:1329-1338 udf_get_volume_name] *)
Definition udf_get_volume_name (ctx : udf_context) (buf_size : Z) : odfs_err * list Z :=
  (ODFS_OK, take (Z.to_nat (buf_size - 1)) (volume_id ctx)).
(* [src: backends/udf/udf.c:1344-1352 udf_get_volume_size] *)
Definition udf_get_volume_size (ctx : udf_context) : Z :=
  let blocks := (part_length ctx * block_size_of ctx + 2047) / 2048 in
  if UINT32_MAX <? blocks then UINT32_MAX else blocks.
End udf.
