(* ===== verification/UdfObjects.v ===== *)
(** * What a UDF object holds

    The bytes of an object as a function of the disc: the data in its block, or the
    extents its allocation descriptors give, through the blocks they go on in, zeros
    where an extent is not recorded.  [udf_read_object] reads any range of them. *)
From S2P Require Import Prelude Types Media CacheApi Udf.
Open Scope Z_scope.

(** ** Fields *)

Lemma udf_le16_after p pos : Forall is_byte p → after (udf_le16 p pos) (λ v, 0 ≤ v < 65536).
Proof.
  intros Hp v Hv. unfold udf_le16 in Hv. unbind Hv. injection Hv as <-.
  pose proof (lands_after _ _ (lands_rd is_byte p pos Hp) _ E). pose proof (lands_after _ _ (lands_rd is_byte p (pos + 1) Hp) _ E0).
  unfold is_byte in *. rewrite le16_add by (unfold is_byte; lia). lia.
Qed.
Lemma udf_le32_after p pos : Forall is_byte p → after (udf_le32 p pos) is_u32.
Proof.
  intros Hp v Hv. unfold udf_le32 in Hv. unbind Hv. injection Hv as <-.
  apply le32_range; [eapply (lands_after _ _ (lands_rd is_byte p _ Hp)); eassumption..].
Qed.
Lemma udf_le64_after p pos : Forall is_byte p → after (udf_le64 p pos) (λ v, 0 ≤ v < 2 ^ 64).
Proof.
  intros Hp v Hv. unfold udf_le64 in Hv. unbind Hv. injection Hv as <-.
  pose proof (udf_le32_after p pos Hp _ E) as H1. pose proof (udf_le32_after p (pos + 4) Hp _ E0) as H2. unfold is_u32 in *.
  rewrite lor_shiftl_add by lia. lia.
Qed.

Section objects.
Context (img : Z → list Z) (ctx : udf_context).

(** ** Extents *)

Record udf_ext : Type := mk_ext { ext_recorded : bool; ext_lba : Z; ext_len : Z }.
Definition ext_at (e : udf_ext) : Z := udf_phys_lba ctx (ext_lba e) * 2048.
Definition ext_bytes (e : udf_ext) : list Z :=
  if ext_recorded e then disc_bytes img 2048 (ext_at e) (ext_len e) else replicate (Z.to_nat (ext_len e)) 0.
Definition exts_bytes (es : list udf_ext) : list Z := concat (map ext_bytes es).
(** The extents of a run of descriptors from [p] on, and the block it goes on in. *)
Fixpoint run_extents (n : nat) (ad_size : Z) (run : list Z) (p : Z) : outcome (list udf_ext * option Z) :=
  if zlen run <? p + ad_size then Ret ([], None)
  else
    match n with
    | O => Diverge
    | S n =>
        len_field ← udf_le32 run p;
        elba ← udf_le32 run (p + 4);
        let etype := Z.shiftr len_field 30 in
        let elen := Z.land len_field UDF_EXT_LENGTH_MASK in
        if etype =? UDF_EXT_CONTINUATION then Ret ([], Some elba)
        else if elen =? 0 then Ret ([], None)
        else '(es, next) ← run_extents n ad_size run (p + ad_size); Ret (mk_ext (etype =? UDF_EXT_RECORDED) elba elen :: es, next)
    end.
(** All extents, and the further blocks of descriptors. *)
Fixpoint chain_extents (guard : nat) (ad_size : Z) (run : list Z) : outcome (list udf_ext * list Z) :=
  '(es, next) ← run_extents (length run) ad_size run 0;
  match next with
  | None => Ret (es, [])
  | Some elba =>
      match guard with
      | O => Fault
      | S guard =>
          let l := udf_phys_lba ctx elba in
          is_aed ← is_tag [UDF_TAG_AED] (img l);
          guard_ is_aed (
            alen ← udf_le32 (img l) 20;
            guard_ (24 + alen <=? block_size_of ctx) (
              run ← rd_range (img l) 24 alen;
              '(es', ls) ← chain_extents guard ad_size run; Ret (es ++ es', l :: ls)))
      end
  end.

(** ** Objects *)

Inductive udf_data : Type :=
  | DataHere (bytes : list Z)
  | DataIn (size : Z) (es : list udf_ext) (blocks : list Z).
Definition data_bytes (d : udf_data) : list Z :=
  match d with DataHere bytes => bytes | DataIn size es _ => take (Z.to_nat size) (exts_bytes es) end.
(** The object whose ICB is in the sector [l]; [Fault] stands for a damaged one. *)
Definition udf_object_within (guard : nat) (l : Z) : outcome udf_data :=
  let block_size := block_size_of ctx in
  fe ← file_entry block_size (img l);
  match fe with
  | inl _ => Fault
  | inr (alloc_type, data_size, ea_len, ad_length, ad_base) =>
      let ad_offset := ad_base + ea_len in
      guard_ ((block_size <=? 2048) && (ad_offset + ad_length <=? block_size)) (
        if alloc_type =? UDF_ICB_ALLOC_EMBEDDED then guard_ (ad_offset + data_size <=? block_size) (Ret (DataHere (slice (img l) ad_offset data_size)))
        else guard_ ((alloc_type =? UDF_ICB_ALLOC_SHORT) || (alloc_type =? UDF_ICB_ALLOC_LONG)) (
          run ← rd_range (img l) ad_offset ad_length;
          '(es, blocks) ← chain_extents guard (if alloc_type =? UDF_ICB_ALLOC_SHORT then 8 else 16) run;
          Ret (DataIn data_size es blocks)))
  end.
Definition udf_object : Z → outcome udf_data := udf_object_within AED_CHAIN.
Definition exts_len (es : list udf_ext) : Z := foldr (λ e n, ext_len e + n) 0 es.

Section ok.
Context (readable : Z → Prop) (spans : Z → Z → Prop).
(** An extent lies where sector numbers reach, and can be read. *)
Definition ext_ok (e : udf_ext) : Prop :=
  ext_recorded e = true → ext_at e + ext_len e ≤ 2 ^ 43 ∧ spans (ext_at e) (ext_at e + ext_len e).
Definition data_ok (d : udf_data) : Prop :=
  match d with DataHere _ => True | DataIn _ es blocks => Forall ext_ok es ∧ Forall readable blocks ∧ exts_len es < 2 ^ 63 end.
(** The sector [l] has the object [d], and the disc can be read where that is. *)
Definition object_at (l : Z) (d : udf_data) : Prop := is_u32 l ∧ readable l ∧ udf_object l = Ret d ∧ data_ok d.
End ok.
End objects.

(** * Reading UDF objects

    [udf_read_object] delivers the range asked for of [data_bytes], as far as it is
    there. *)

Section read.
Context {C : Type} {HO : CacheOps C} (img : Z → list Z) (inv ok : C → Prop) (ptr : C → Z → Prop) (readable : Z → Prop) (spans : Z → Z → Prop).
Context {HL : CacheLaws C img 2048 inv ok ptr} {HR : CacheReadable C ok readable} {HB : CacheReadsBytes C ok 2048 spans}.
Context (Hbytes : ∀ l, Forall is_byte (img l)) (ctx : udf_context).
Implicit Types c : C.
Abbreviation exts_bytes := (exts_bytes img ctx).
Abbreviation ext_ok := (ext_ok ctx spans).

Lemma phys_u32 l : is_u32 (udf_phys_lba ctx l).
Proof. apply u32_range. Qed.
(** A sector that can be read. *)
Lemma read_sector c l : ok c → is_u32 l → readable l → ∃ p c', bc_read c l = (ODFS_OK, p, c') ∧ ok c' ∧ bc_data c' p = img l.
Proof.
  intros Hok Hl Hr. destruct (cr_read (CacheReadable := HR) c l Hok Hl Hr) as (p & c' & He). exists p, c'. split; [done|].
  destruct (cl_read_ok c l p c' Hok Hl He) as (? & _ & ? & _). done.
Qed.

(** ** One piece *)

Lemma length_ext_bytes e : 0 ≤ ext_len e → zlen (ext_bytes img ctx e) = ext_len e.
Proof. intros He. unfold ext_bytes. case_test; [by rewrite length_disc_bytes|rewrite length_replicate; lia]. Qed.
Lemma slice_ext_bytes e skip n : 0 ≤ skip → 0 ≤ n → skip + n ≤ ext_len e →
  slice (ext_bytes img ctx e) skip n = if ext_recorded e then disc_bytes img 2048 (ext_at ctx e + skip) n else replicate (Z.to_nat n) 0.
Proof.
  intros. unfold ext_bytes. case_test; [by apply slice_disc_bytes|]. unfold slice. rewrite drop_replicate, take_replicate. f_equal. lia.
Qed.
(** The piece lands behind what is in the buffer. *)
Lemma read_ext c e skip n s buf0 : ok c → ext_ok e → ext_recorded e = true → 0 ≤ skip < 2 ^ 30 → 0 < n → skip + n ≤ ext_len e → zlen s + n ≤ zlen buf0 →
  let buf := s ++ drop (length s) buf0 in let t := slice (ext_bytes img ctx e) skip n in
  ∃ piece c', rd_range buf (zlen s) n = Ret piece ∧ zlen piece = n ∧
    (∃ got, bc_read_bytes c (udf_phys_lba ctx (ext_lba e)) skip piece n = (ODFS_OK, got, n, c') ∧
      splice buf (zlen s) got = (s ++ t) ++ drop (length (s ++ t)) buf0) ∧ ok c'.
Proof.
  intros Hok He Hrec Hs Hn Hsn Hb buf t. pose proof (phys_u32 (ext_lba e)) as Hp. unfold is_u32 in Hp.
  destruct (He Hrec) as [Hfit Hsp]. unfold ext_at in *. set (l := udf_phys_lba ctx (ext_lba e)) in *.
  assert (Hlb : zlen buf = zlen buf0) by (unfold buf; rewrite length_app, length_drop; lia).
  exists (slice buf (zlen s) n). assert (Hlp : zlen (slice buf (zlen s) n) = n) by (rewrite length_slice; lia).
  destruct (cb_read (CacheReadsBytes := HB) c l skip (slice buf (zlen s) n) n Hok Hp ltac:(lia) ltac:(lia)) as (got & c' & Hr).
  { dlia. }
  { eapply (cb_sub (CacheReadsBytes := HB)); [exact Hsp|lia..]. }
  exists c'. split; [by apply rd_range_ok; lia|]. split; [done|].
  apply (cl_read_bytes c l skip) in Hr as Hr'; [|done|done|lia|lia|dlia].
  destruct Hr' as (_ & _ & _ & _ & Hd). destruct (Hd eq_refl) as (Hok' & _ & ->). split; [|done]. eexists. split; [exact Hr|].
  rewrite drop_ge, app_nil_r by lia. unfold buf, t. rewrite slice_ext_bytes, Hrec by lia. unfold ext_at. fold l. apply splice_filled.
Qed.

(** ** A run of descriptors *)
Section run.
Implicit Types s : list Z.
Context (fo want : Z) (buf0 : list Z) (Hfo : 0 ≤ fo) (Hwant : want ≤ zlen buf0) (H64 : fo + want < 2 ^ 64).
Abbreviation filled s := (s ++ drop (length s) buf0).

Lemma elen_range f : 0 ≤ Z.land f UDF_EXT_LENGTH_MASK < 2 ^ 30.
Proof. change UDF_EXT_LENGTH_MASK with (Z.ones 30). rewrite Z.land_ones by lia. apply Z.mod_pos_bound. lia. Qed.
Lemma ad_run_full n ad_size run p cur s c : want ≤ zlen s → ad_run n ctx ad_size run fo want p cur (zlen s) (filled s) c = Ret (AdStop ODFS_OK (filled s) (zlen s) c).
Proof. intros Hs. destruct n; cbn [ad_run]; by rewrite (proj2 (Z.ltb_ge _ _)) by lia. Qed.
Lemma run_extents_len ad_size run n : ∀ p es next, run_extents n ad_size run p = Ret (es, next) → 0 ≤ exts_len es.
Proof.
  induction n as [|n IH]; intros p es next; cbn [run_extents]; destruct (zlen run <? _); try done; [by intros [= <- <-]..|].
  intros (f & _ & Hes)%bind_Ret. apply bind_Ret in Hes as (elba & _ & Hes). cbv zeta in Hes. destruct (_ =? UDF_EXT_CONTINUATION); [by injection Hes as <- <-|].
  destruct (_ =? 0); [by injection Hes as <- <-|]. apply bind_Ret in Hes as ([es2 n2] & Hes & (<- & <-)%Ret_pair).
  apply IH in Hes. cbn [exts_len foldr ext_len]. pose proof (elen_range f). unfold exts_len in Hes. lia.
Qed.
(** One extent that reaches beyond what is there. *)
Lemma take_ext cur s e es : 0 ≤ cur ≤ fo + zlen s → zlen s < want → 0 ≤ ext_len e → fo + zlen s < cur + ext_len e →
  let n := Z.min (cur + ext_len e - (fo + zlen s)) (want - zlen s) in
  let t := slice (ext_bytes img ctx e) (fo + zlen s - cur) n in
  s ++ slice (exts_bytes (e :: es)) (fo + zlen s - cur) (want - zlen s) =
    (s ++ t) ++ slice (exts_bytes es) (fo + zlen (s ++ t) - (cur + ext_len e)) (want - zlen (s ++ t)) ∧ zlen (s ++ t) = zlen s + n.
Proof.
  intros Hc Hs He Hlt n t. pose proof (length_ext_bytes e He) as Hl.
  assert (Ht : zlen t = n) by (unfold t; rewrite length_slice; lia).
  assert (Hst : zlen (s ++ t) = zlen s + n) by (rewrite length_app; lia). split; [|done].
  rewrite <- app_assoc. f_equal. rewrite Hst. unfold exts_bytes. cbn [map concat]. destruct (decide (want - zlen s ≤ cur + ext_len e - (fo + zlen s))) as [Hle|Hgt].
  - rewrite slice_app_l by lia. replace (want - (zlen s + n)) with 0 by lia. rewrite slice_0, app_nil_r. unfold t. f_equal. lia.
  - rewrite slice_app_span by lia. rewrite Hl. unfold t. f_equal; f_equal; lia.
Qed.
Lemma skip_ext cur s e es : cur ≤ fo + zlen s → 0 ≤ ext_len e → cur + ext_len e ≤ fo + zlen s →
  slice (exts_bytes (e :: es)) (fo + zlen s - cur) (want - zlen s) = slice (exts_bytes es) (fo + zlen s - (cur + ext_len e)) (want - zlen s).
Proof.
  intros Hc He Hle. pose proof (length_ext_bytes e He) as Hl. unfold exts_bytes. cbn [map concat]. rewrite slice_app_r by lia. f_equal. lia.
Qed.

Lemma ad_run_exact ad_size run n : ∀ p cur s c es next, run_extents n ad_size run p = Ret (es, next) → ok c → Forall ext_ok es →
  0 ≤ cur ≤ fo + zlen s → zlen s ≤ want → cur + exts_len es < 2 ^ 64 →
  let got := s ++ slice (exts_bytes es) (fo + zlen s - cur) (want - zlen s) in
  ∃ c', ok c' ∧ ad_run n ctx ad_size run fo want p cur (zlen s) (filled s) c =
    Ret (match next with
         | Some elba => if zlen got <? want then AdNext elba (cur + exts_len es) (zlen got) (filled got) c' else AdStop ODFS_OK (filled got) (zlen got) c'
         | None => AdStop ODFS_OK (filled got) (zlen got) c' end).
Proof.
  induction n as [|n IH]; intros p cur s c es next Hes Hok Hall Hc Hs Hend got.
  all: destruct (Z.ltb_spec (zlen s) want) as [Hlt|Hge].
  2, 4: exists c; split; [done|]; rewrite ad_run_full by lia;
    assert (got = s) as -> by (unfold got; replace (want - zlen s) with 0 by lia; by rewrite slice_0, app_nil_r);
    rewrite (proj2 (Z.ltb_ge _ _)) by lia; by destruct next.
  all: cbn [ad_run run_extents] in *; rewrite (proj2 (Z.ltb_lt (zlen s) want)) by lia; cbn [negb]; destruct (zlen run <? p + ad_size) eqn:Er; [|try done].
  1, 2: injection Hes as <- <-; exists c; split; [done|]; assert (got = s) as -> by (unfold got, slice; cbn; by rewrite drop_nil, take_nil, app_nil_r); done.
  apply bind_Ret in Hes as (f & -> & Hes). apply bind_Ret in Hes as (elba & -> & Hes). cbn [mbind outcome_bind]. cbv zeta in Hes |- *.
  set (elen := Z.land f UDF_EXT_LENGTH_MASK) in *. assert (Helen : 0 ≤ elen < 2 ^ 30) by apply elen_range.
  assert (Hnil : es = [] → got = s) by (intros ->; unfold got, slice; cbn; by rewrite drop_nil, take_nil, app_nil_r).
  destruct (Z.shiftr f 30 =? UDF_EXT_CONTINUATION).
  { injection Hes as <- <-. exists c. split; [done|]. rewrite Hnil by done. rewrite (proj2 (Z.ltb_lt _ _)) by lia. cbn. by rewrite Z.add_0_r. }
  destruct (elen =? 0) eqn:E0; b2p; [injection Hes as <- <-; exists c; split; [done|]; by rewrite Hnil|].
  apply bind_Ret in Hes as ([es' next'] & Hes & (<- & <-)%Ret_pair). set (e := mk_ext _ elba elen) in *. apply Forall_cons in Hall as [He Hall].
  assert (Hel : ext_len e = elen) by done. assert (Hrec : ext_recorded e = (Z.shiftr f 30 =? UDF_EXT_RECORDED)) by done. assert (Hxl : exts_len (e :: es') = elen + exts_len es') by done. rewrite Hxl in Hend |- *.
  pose proof (run_extents_len _ _ _ _ _ _ Hes) as Hn0.
  assert (Hce : u64 (cur + elen) = cur + elen) by (unfold u64; apply Z.mod_small; lia).
  assert (Hst : u64 (fo + zlen s) = fo + zlen s) by (unfold u64; apply Z.mod_small; lia). rewrite Hce, Hst.
  destruct (fo + zlen s <? cur + elen) eqn:Ein; b2p.
  2: { destruct (IH (p + ad_size) (cur + elen) s c es' next' Hes Hok Hall ltac:(lia) ltac:(lia) ltac:(lia)) as (c' & Hok' & Hrun). exists c'. split; [done|].
    rewrite Hrun. unfold got. rewrite skip_ext by lia. by rewrite Hel, Z.add_assoc. }
  destruct (take_ext cur s e es' Hc Hlt ltac:(lia) ltac:(lia)) as [Hgot Hlen]. rewrite Hel in Hgot, Hlen.
  set (chunk := if want - zlen s <? cur + elen - (fo + zlen s) then _ else _).
  assert (Hch : chunk = Z.min (cur + elen - (fo + zlen s)) (want - zlen s)) by (unfold chunk; case_test; b2p; lia). clearbody chunk. rewrite <- Hch in Hgot, Hlen.
  rewrite u32_small by (unfold is_u32; lia). set (skip := fo + zlen s - cur) in *.
  assert (Hgo : ∀ c1, ok c1 → ∃ c', ok c' ∧ ad_run n ctx ad_size run fo want (p + ad_size) (cur + elen) (zlen (s ++ slice (ext_bytes img ctx e) skip chunk))
      (filled (s ++ slice (ext_bytes img ctx e) skip chunk)) c1 =
    Ret (match next' with
         | Some elba => if zlen got <? want then AdNext elba (cur + (elen + exts_len es')) (zlen got) (filled got) c' else AdStop ODFS_OK (filled got) (zlen got) c'
         | None => AdStop ODFS_OK (filled got) (zlen got) c' end)).
  { intros c1 Hok1. unfold got. rewrite Hgot. set (s' := s ++ slice (ext_bytes img ctx e) skip chunk) in *.
    destruct (Z.ltb_spec (zlen s') want) as [Hlt'|Hge'].
    - destruct (IH (p + ad_size) (cur + elen) s' c1 es' next' Hes Hok1 Hall ltac:(lia) ltac:(lia) ltac:(lia)) as (c' & Hok' & Hrun). exists c'. split; [done|].
      by rewrite Hrun, Z.add_assoc.
    - exists c1. split; [done|]. rewrite ad_run_full by lia. replace (want - zlen s') with 0 by lia. rewrite slice_0, app_nil_r, (proj2 (Z.ltb_ge _ _)) by lia. by destruct next'. }
  destruct (Z.shiftr f 30 =? UDF_EXT_RECORDED).
  - destruct (read_ext c e skip chunk s buf0 Hok He Hrec ltac:(lia) ltac:(lia) ltac:(lia) ltac:(lia)) as (piece & c1 & -> & Hpl & (gotb & Hr & Hsp) & Hok1).
    cbn [mbind outcome_bind]. change elba with (ext_lba e). rewrite Hr. change (negb (err_ok ODFS_OK)) with false. cbv iota.
    rewrite Z.ltb_irrefl, Hsp, <- Hlen. by apply Hgo.
  - assert (Hz : slice (ext_bytes img ctx e) skip chunk = replicate (Z.to_nat chunk) 0) by (rewrite slice_ext_bytes by lia; by rewrite Hrec).
    rewrite wr_range_ok by (rewrite ?length_app, ?length_drop, ?length_replicate; lia). cbn [mbind outcome_bind]. rewrite <- Hz, splice_filled, <- Hlen. by apply Hgo.
Qed.

(** ** The chain *)
Lemma length_exts_bytes es : Forall (λ e, 0 ≤ ext_len e) es → zlen (exts_bytes es) = exts_len es.
Proof.
  induction 1 as [|e es He _ IH]; [done|]. unfold exts_bytes in *. cbn [map concat]. rewrite length_app, Nat2Z.inj_add, IH, length_ext_bytes by done. done.
Qed.
Lemma run_extents_nonneg ad_size run n : ∀ p es next, run_extents n ad_size run p = Ret (es, next) → Forall (λ e, 0 ≤ ext_len e) es.
Proof.
  induction n as [|n IH]; intros p es next; cbn [run_extents]; destruct (zlen run <? _); try done; [by intros [= <- <-]..|].
  intros (f & _ & Hes)%bind_Ret. apply bind_Ret in Hes as (elba & _ & Hes). cbv zeta in Hes. destruct (_ =? UDF_EXT_CONTINUATION); [by injection Hes as <- <-|].
  destruct (_ =? 0); [by injection Hes as <- <-|]. apply bind_Ret in Hes as ([es2 n2] & Hes & (<- & <-)%Ret_pair).
  apply IH in Hes. constructor; [|done]. apply elen_range.
Qed.
Lemma exts_bytes_app a b : exts_bytes (a ++ b) = exts_bytes a ++ exts_bytes b.
Proof. unfold exts_bytes. by rewrite map_app, concat_app. Qed.
Lemma exts_len_app a b : exts_len (a ++ b) = exts_len a + exts_len b.
Proof. unfold exts_len. induction a as [|e a IH]; simpl; [done|]. rewrite IH. lia. Qed.
Lemma chain_extents_nonneg ad_size guard : ∀ run es blocks, chain_extents img ctx guard ad_size run = Ret (es, blocks) → Forall (λ e, 0 ≤ ext_len e) es.
Proof.
  induction guard as [|guard IH]; intros run es blocks; cbn [chain_extents]; intros ([e1 next] & H1 & H)%bind_Ret;
    apply run_extents_nonneg in H1; destruct next as [elba|]; try done; try (by apply Ret_pair in H as [<- _]).
  unbind H. destruct x2 as [e2 ls]. apply Ret_pair in H as [<- _]. apply Forall_app. split; [done|]. by eapply IH.
Qed.
Lemma ad_chain_exact ad_size (Hbs : block_size_of ctx ≤ 2048) guard : ∀ run cur s c es blocks, chain_extents img ctx guard ad_size run = Ret (es, blocks) →
  ok c → Forall ext_ok es → Forall readable blocks → 0 ≤ cur ≤ fo + zlen s → zlen s ≤ want → cur + exts_len es < 2 ^ 64 →
  let got := s ++ slice (exts_bytes es) (fo + zlen s - cur) (want - zlen s) in
  ∃ c', ok c' ∧ ad_chain guard ctx ad_size run fo want cur (zlen s) (filled s) c = Ret (ODFS_OK, filled got, zlen got, c').
Proof.
  induction guard as [|guard IH]; intros run cur s c es blocks Hes Hok Hall Hbl Hc Hs Hend got; cbn [ad_chain chain_extents] in *;
    apply bind_Ret in Hes as ([e1 next] & H1 & Hes);
    pose proof (length_exts_bytes _ (run_extents_nonneg _ _ _ _ _ _ H1)) as Hl1; pose proof (run_extents_len _ _ _ _ _ _ H1) as Hn1.
  1: destruct next; [done|]; apply Ret_pair in Hes as [-> <-]; destruct (ad_run_exact ad_size run _ 0 cur s c es None H1 Hok Hall Hc Hs Hend) as (c' & Hok' & ->); by exists c'.
  destruct next as [elba|].
  2: apply Ret_pair in Hes as [-> <-]; destruct (ad_run_exact ad_size run _ 0 cur s c es None H1 Hok Hall Hc Hs Hend) as (c' & Hok' & ->); by exists c'.
  unbind Hes. destruct x2 as [e2 ls]. apply Ret_pair in Hes as [<- <-]. match goal with E : chain_extents _ _ _ _ _ = _ |- _ => rename E into H2 end.
  pose proof (chain_extents_nonneg _ _ _ _ _ H2) as Hnn2. pose proof (length_exts_bytes _ Hnn2) as Hl2.
  rewrite exts_len_app in Hend. apply Forall_app in Hall as [Ha1 Ha2]. apply Forall_cons in Hbl as [Hr Hbl].
  destruct (ad_run_exact ad_size run _ 0 cur s c e1 (Some elba) H1 Hok Ha1 Hc Hs ltac:(lia)) as (c1 & Hok1 & ->). cbn [mbind outcome_bind].
  set (g1 := s ++ slice (exts_bytes e1) (fo + zlen s - cur) (want - zlen s)) in *. unfold got. rewrite exts_bytes_app, slice_app_both by lia.
  assert (Hg1 : zlen g1 = zlen s + Z.min (want - zlen s) (Z.max 0 (exts_len e1 - (fo + zlen s - cur)))).
  { unfold g1. rewrite length_app, Nat2Z.inj_add, length_slice_min by lia. lia. }
  set (s1 := slice (exts_bytes e1) _ _) in *. assert (Hs1 : zlen g1 = zlen s + zlen s1) by (unfold g1; rewrite length_app; lia).
  rewrite app_assoc. change (s ++ s1) with g1. rewrite Hl1.
  replace (fo + zlen s - cur + zlen s1 - exts_len e1) with (fo + zlen g1 - (cur + exts_len e1)) by lia.
  replace (want - zlen s - zlen s1) with (want - zlen g1) by lia.
  destruct (zlen g1 <? want) eqn:Eg; b2p.
  2: { exists c1. split; [done|]. replace (want - zlen g1) with 0 by lia. by rewrite slice_0, app_nil_r. }
  destruct (read_sector c1 _ Hok1 (phys_u32 elba) Hr) as (p & c2 & -> & Hok2 & ->). change (negb (err_ok ODFS_OK)) with false. cbv iota.
  rewrite E. cbn [mbind outcome_bind]. destruct x; [|done]. cbn [negb]. rewrite E1. cbn [mbind outcome_bind].
  pose proof (udf_le32_after _ _ (Hbytes _) _ E1) as Hal. unfold is_u32 in Hal. b2p.
  rewrite u32_small by (unfold is_u32; lia). rewrite (proj2 (Z.ltb_ge _ _)), (proj2 (Z.ltb_ge _ _)) by lia. cbn [orb]. rewrite E3. cbn [mbind outcome_bind].
  apply IH with (blocks := ls); [done..|lia|lia|lia].
Qed.
End run.

(** ** Objects *)

(** Both kinds of file entry: the fields that tell where the data are. *)
Lemma file_entry_after block_size sector : Forall is_byte sector → after (file_entry block_size sector) (λ r,
  match r with inl _ => True | inr (_, data_size, ea_len, ad_length, ad_base) =>
    0 ≤ data_size < 2 ^ 64 ∧ is_u32 ea_len ∧ is_u32 ad_length ∧ 176 ≤ ad_base ≤ block_size end).
Proof.
  intros Hs. unfold file_entry. eapply after_bind; [apply after_any|]. intros [tag good] _. destruct good; cbn [negb]; [|by apply after_ret].
  assert (Hf : ∀ base off, 176 ≤ base ≤ block_size → after (inr (A := odfs_err) <$> entry_fields sector base off) (λ r,
    match r with inl _ => True | inr (_, data_size, ea_len, ad_length, ad_base) =>
      0 ≤ data_size < 2 ^ 64 ∧ is_u32 ea_len ∧ is_u32 ad_length ∧ 176 ≤ ad_base ≤ block_size end)).
  { intros base off Hb. unfold entry_fields. eapply (after_bind _ _ (λ '(_, ds, ea, al, b), 0 ≤ ds < 2 ^ 64 ∧ is_u32 ea ∧ is_u32 al ∧ b = base)).
    - eapply after_bind; [apply after_any|]. intros ? _. eapply after_bind; [by apply udf_le64_after|]. intros ds Hds.
      do 2 (eapply after_bind; [by apply udf_le32_after|]; intros ? ?). by apply after_ret.
    - intros [[[[? ?] ?] ?] ?] (? & ? & ? & ->). by apply after_ret. }
  repeat case_test; b2p; try (by apply after_ret); apply Hf; lia.
Qed.

Lemma sector_length l : zlen (img l) = 2048.
Proof. apply cl_sector. Qed.
(** Any range of an object: what of it is there. *)
Lemma read_object_exact l d c fo buf0 want : object_at img ctx readable spans l d → ok c → 0 ≤ fo < 2 ^ 63 → 0 ≤ want ≤ zlen buf0 → want < 2 ^ 63 →
  let got := slice (data_bytes img ctx d) fo want in
  ∃ c', ok c' ∧ udf_read_object ctx c l fo buf0 want = Ret (ODFS_OK, got ++ drop (length got) buf0, zlen got, c').
Proof.
  intros (Hl & Hr & Hobj & Hd) Hok Hfo Hw Hw63 got. unfold udf_read_object, udf_object, udf_object_within in *.
  destruct (read_sector c l Hok Hl Hr) as (p & c1 & -> & Hok1 & ->). change (negb (err_ok ODFS_OK)) with false. cbv iota. cbv zeta in *.
  apply bind_Ret in Hobj as (fe & Hfe & Hobj). rewrite Hfe. apply (file_entry_after _ _ (Hbytes l)) in Hfe. cbn [mbind outcome_bind].
  destruct fe as [|[[[[at_ ds] ea] al] base]]; [done|]. destruct Hfe as (Hds & Hea & Hal & Hb). unfold is_u32 in *. unbind Hobj. b2p.
  rewrite (proj2 (Z.ltb_ge 2048 _)), (proj2 (Z.ltb_ge (_ - base) _)), (proj2 (Z.ltb_ge (_ - (base + ea)) _)) by lia.
  set (want' := if ds - fo <? want then ds - fo else want).
  assert (Hnone : zlen (data_bytes img ctx d) ≤ ds → ds ≤ fo ∨ want' = 0 → got = []).
  { intros Hdl [Hge|Hw0]; [apply slice_end; lia|]. unfold want' in Hw0. destruct (ds - fo <? want) eqn:Ew; b2p; [apply slice_end; lia|]. unfold got. by rewrite Hw0, slice_0. }
  assert (Hdl : zlen (data_bytes img ctx d) ≤ ds).
  { revert Hobj Hd. case_test; intros Hobj; unbind Hobj; [injection Hobj as <-; intros _; cbn [data_bytes]; pose proof (length_slice_le (img l) (base + ea) ds); lia|].
    destruct x0 as [es bl]. injection Hobj as <-. intros _. cbn [data_bytes]. rewrite length_take. lia. }
  destruct (ds <=? fo) eqn:Eds; b2p; [exists c1; rewrite Hnone by (done || by left); by rewrite drop_0|].
  destruct (want' =? 0) eqn:Ew0; b2p; [exists c1; rewrite Hnone by (done || by right); by rewrite drop_0|].
  assert (Hw' : 0 < want' ≤ want ∧ fo + want' ≤ ds ∧ (want' < want → fo + want' = ds)) by (unfold want' in *; destruct (_ <? want) eqn:Ew; b2p; lia). clearbody want'.
  assert (Hgot : got = slice (data_bytes img ctx d) fo want').
  { unfold got. replace want with (want' + (want - want')) by lia. rewrite slice_add by lia. destruct (decide (want' = want)) as [->|]; [by rewrite Z.sub_diag, slice_0, app_nil_r|].
    rewrite (slice_end _ (fo + want')) by lia. by rewrite app_nil_r. }
  rewrite Hgot. destruct (at_ =? UDF_ICB_ALLOC_EMBEDDED).
  - unbind Hobj. injection Hobj as <-. b2p. rewrite (proj2 (Z.ltb_ge _ _)) by (unfold u64; rewrite Z.mod_small; lia).
    rewrite rd_range_ok by (rewrite ?sector_length; lia). cbn [mbind outcome_bind data_bytes]. rewrite slice_slice by lia. replace (base + ea + fo) with (base + ea + fo) by lia.
    set (t := slice (img l) _ want'). assert (Ht : zlen t = want') by (unfold t; rewrite length_slice by (rewrite ?sector_length; lia); lia).
    rewrite wr_range_ok by lia. cbn [mbind outcome_bind]. exists c1. split; [done|]. pose proof (splice_filled [] t buf0) as Hsp. cbn [length app] in Hsp. rewrite drop_0 in Hsp.
    change (Z.of_nat 0) with 0 in Hsp. by rewrite Hsp, Ht.
  - unbind Hobj. destruct x0 as [es bl]. injection Hobj as <-. cbn [negb]. destruct Hd as (Hext & Hbl & H63). rewrite E0. cbn [mbind outcome_bind].
    destruct (ad_chain_exact fo want' buf0 ltac:(lia) ltac:(lia) ltac:(lia) (if at_ =? UDF_ICB_ALLOC_SHORT then 8 else 16) ltac:(lia) AED_CHAIN _ 0 [] c1 es bl E1 Hok1 Hext Hbl
      ltac:(simpl; lia) ltac:(simpl; lia) ltac:(lia)) as (c2 & Hok2 & Hch).
    exists c2. split; [done|]. cbn [length app] in Hch. rewrite drop_0 in Hch. change (Z.of_nat 0) with 0 in Hch. rewrite Hch, !Z.add_0_r, !Z.sub_0_r. cbn [data_bytes].
    assert (slice (take (Z.to_nat ds) (exts_bytes es)) fo want' = slice (exts_bytes es) fo want') as ->; [|done].
    pose proof (slice_slice (exts_bytes es) 0 ds fo want') as Hss. unfold slice at 2 in Hss. rewrite drop_0 in Hss. rewrite Hss by lia. done.
Qed.
End read.
