(* ===== verification/UdfListing.v ===== *)
(** * What a UDF directory lists

    The listing of a directory is a function of its bytes and of the ICBs it names: the
    file identifiers in order, without the deleted ones and the parent, with names made
    unique, and without those whose ICB does not say what the object is.  An entry is
    told by where its identifier begins. *)
From S2P Require Import Prelude Types Strings Namefix Media CacheApi Charset Backend MetaCache MetaCacheProofs MetaCacheSpec Reader.
From S2P Require Import Udf UdfObjects.
Open Scope Z_scope.

(** Contexts that differ in node numbers only. *)
Definition same_udf (ctx ctx' : udf_context) : Prop := ∃ k, ctx' = set_next_node_id k ctx.
Lemma same_udf_refl a : same_udf a a.
Proof. exists (next_node_id a). by destruct a. Qed.
Lemma same_udf_trans a b c : same_udf a b → same_udf b c → same_udf a c.
Proof. intros [k ->] [j ->]. by exists j. Qed.
Lemma object_within_same img ctx k guard l : udf_object_within img (set_next_node_id k ctx) guard l = udf_object_within img ctx guard l.
Proof. reflexivity. Qed.
Lemma object_same img ctx ctx' l : same_udf ctx ctx' → udf_object img ctx' l = udf_object img ctx l.
Proof. intros [k ->]. apply object_within_same. Qed.
Lemma object_at_same img ctx ctx' readable spans l d : same_udf ctx ctx' → object_at img ctx readable spans l d → object_at img ctx' readable spans l d.
Proof. intros Hs (H1 & H2 & H3 & H4). split_and!; [done..|by rewrite (object_same _ _ _ _ Hs)|]. destruct Hs as [k ->], d; [done|exact H4]. Qed.
Lemma data_bytes_same img ctx ctx' d : same_udf ctx ctx' → data_bytes img ctx' d = data_bytes img ctx d.
Proof. intros [k ->]. by destruct d. Qed.

(** The node of an entry before its ICB is looked at. *)
Definition bare_node (i p : Z) (nm : list Z) : odfs_node :=
  mk_node i p ODFS_BACKEND_UDF ODFS_NODE_FILE nm 0 timestamp_zero timestamp_zero 0 amiga_as_zero (mk_extent 0 0) 0.

Section listing.
Context (img : Z → list Z) (ctx0 : udf_context) (malloc : nat → Z → bool).

(** What the ICB in a sector says. *)
Definition icb_of (l : Z) : outcome (odfs_err * udf_icb) := '(err, icb, _) ← udf_read_icb (H := disc_cache img 2048) ctx0 tt l; Ret (err, icb).
(** The identifiers in the bytes [D] of a directory, from [off] on. *)
Fixpoint fids (n : nat) (D : list Z) (off : Z) : outcome (list udf_fid_info) :=
  if negb (off <? zlen D) then Ret []
  else
    match n with
    | O => Diverge
    | S n =>
        if zlen D - off <? HEADER then Ret []
        else
          let header := slice D off HEADER in
          is_fid ← is_tag [UDF_TAG_FID] header;
          if negb is_fid then Ret []
          else
            flags ← rd header 18; name_len ← rd header 19; icb_lba ← udf_le32 header 24; impl_len ← udf_le16 header 36;
            let len := fid_size impl_len name_len in
            guard_ ((HEADER <=? len) && (off + len <=? zlen D)) (
              fs ← fids n D (off + len); Ret (mk_fid header off (off + len) len icb_lba impl_len flags name_len :: fs))
    end.
Definition fid_shown (f : udf_fid_info) : bool := Z.land (fid_flags f) (Z.lor UDF_FID_FLAG_DELETED UDF_FID_FLAG_PARENT) =? 0.
Definition fid_name (D : list Z) (f : udf_fid_info) : outcome (list Z) :=
  let name_off := 38 + fid_impl_len f in
  guard_ ((name_off <=? fid_length f) && (name_off + fid_name_len f <=? fid_length f)) (
    if 0 <? fid_name_len f then udf_decode_cs0 (mem_at (slice D (fid_start f) (fid_length f)) name_off) (fid_name_len f) ODFS_NAME_MAX else Ret []).
Definition fid_object (nm : list Z) (f : udf_fid_info) : outcome (option odfs_node) :=
  let phys := udf_phys_lba ctx0 (fid_icb_lba f) in
  '(err, icb) ← icb_of phys;
  let k := if negb (Z.land (fid_flags f) UDF_FID_FLAG_DIRECTORY =? 0) then ODFS_NODE_DIR
           else if icb_file_type icb =? UDF_ICB_FILETYPE_SYMLINK then ODFS_NODE_SYMLINK else ODFS_NODE_FILE in
  Ret (if err_ok err then Some (mk_node 0 0 ODFS_BACKEND_UDF k nm (icb_data_size icb) (icb_mtime icb) (icb_mtime icb) 0 amiga_as_zero
    (mk_extent phys (u32 (icb_data_size icb))) 0) else None).
(** An entry: where its identifier begins, where the next does, and the node. *)
Record udf_listed : Type := mk_listed { ls_start : Z; ls_next : Z; ls_node : odfs_node }.
(** [Fault] stands for a name that cannot be had or made unique. *)
Fixpoint udf_entries (D : list Z) (nf : odfs_namefix_state) (fs : list udf_fid_info) : outcome (list udf_listed) :=
  match fs with
  | [] => Ret []
  | f :: fs =>
      if negb (fid_shown f) then udf_entries D nf fs
      else
        nm ← fid_name D f;
        let '(err, nf, nm) := odfs_namefix_apply malloc nf nm ODFS_NAME_MAX in
        guard_ (err_ok err) (
          o ← fid_object nm f;
          L ← udf_entries D nf fs;
          Ret (match o with Some n => mk_listed (fid_start f) (fid_next f) n :: L | None => L end))
  end.
Definition dir_fids (D : list Z) : outcome (list udf_fid_info) := fids (S (Z.to_nat (zlen D / HEADER))) D 0.
Definition udf_dir_entries (D : list Z) : outcome (list udf_listed) := fs ← dir_fids D; udf_entries D odfs_namefix_init fs.
Abbreviation nodes L := (map ls_node L).
End listing.

(** * Walks over UDF directories

    A walk calls back on the identifiers of a directory in order; each call may use the
    cache and the context.  [fid_loop_rule] is the rule for the loop, [walk_entries_run]
    says what a walk over the entries comes to on the listing. *)

Section walk.
Context {C : Type} {HO : CacheOps C} (img : Z → list Z) (inv ok : C → Prop) (ptr : C → Z → Prop) (readable : Z → Prop) (spans : Z → Z → Prop).
Context {HL : CacheLaws C img 2048 inv ok ptr} {HR : CacheReadable C ok readable} {HB : CacheReadsBytes C ok 2048 spans}.
Context (Hbytes : ∀ l, Forall is_byte (img l)) (ctx0 : udf_context).
Implicit Types c : C.

(** ** Reading *)

Lemma read_exact_run ctx l d c off len : same_udf ctx0 ctx → object_at img ctx0 readable spans l d → ok c → 0 ≤ off → 0 ≤ len →
  off + len ≤ zlen (data_bytes img ctx0 d) → off + len < 2 ^ 63 →
  ∃ c', ok c' ∧ udf_read_exact ctx c l off len = Ret (ODFS_OK, slice (data_bytes img ctx0 d) off len, c').
Proof.
  intros Hs Hd Hok Ho Hl Hin H63. apply (object_at_same img _ _ _ _ _ _ Hs) in Hd. unfold udf_read_exact.
  destruct (read_object_exact img inv ok ptr readable spans Hbytes ctx l d c off (replicate (Z.to_nat len) 0) len Hd Hok) as (c' & Hok' & ->); [lia|rewrite length_replicate; lia|lia|].
  exists c'. split; [done|]. cbn [mbind outcome_bind]. rewrite (data_bytes_same _ _ _ _ Hs). change (negb (err_ok ODFS_OK)) with false. cbv iota.
  assert (Hls : zlen (slice (data_bytes img ctx0 d) off len) = len) by (rewrite length_slice; lia). rewrite Hls, Z.eqb_refl. cbn [negb]. do 3 f_equal.
  rewrite drop_ge; [by rewrite app_nil_r|]. rewrite length_replicate. lia.
Qed.
Lemma icb_of_same ctx l : same_udf ctx0 ctx → icb_of img ctx l = icb_of img ctx0 l.
Proof. by intros [k ->]. Qed.
Lemma read_icb_run ctx c l r : same_udf ctx0 ctx → ok c → is_u32 l → readable l → icb_of img ctx0 l = Ret r →
  ∃ c', ok c' ∧ udf_read_icb ctx c l = Ret (r, c').
Proof.
  intros Hs Hok Hl Hr. rewrite <- (icb_of_same ctx l Hs). unfold icb_of, udf_read_icb, udf_read_icb_ex.
  destruct (read_sector img inv ok ptr readable c l Hok Hl Hr) as (p & c' & -> & Hok' & ->). cbn [bc_read disc_cache bc_data].
  change (negb (err_ok ODFS_OK)) with false. cbv iota zeta. intros H. exists c'. split; [done|]. revert H.
  destruct (file_entry _ _) as [[e|[[[[a ds] ea] al] base]]| |]; try done; cbn [mbind outcome_bind]; [by intros [= <-]|].
  destruct (rd _ _); [|done..]. cbn [mbind outcome_bind]. destruct (udf_parse_timestamp _ _); [|done..]. cbn [mbind outcome_bind].
  destruct (_ <? ea); [by intros [= <-]|]. destruct (_ <? al); [by intros [= <-]|].
  destruct (a =? UDF_ICB_ALLOC_EMBEDDED); [by intros [= <-]|]. destruct (a =? UDF_ICB_ALLOC_SHORT); [|destruct (a =? UDF_ICB_ALLOC_LONG); [|by intros [= <-]]].
  all: destruct (_ || _); [by intros [= <-]|]; destruct (udf_le32 _ _); [|done..]; by intros [= <-].
Qed.
(** Filling in a node is looking up the object. *)
Lemma fill_node_run ctx c f nm i p o : same_udf ctx0 ctx → ok c → readable (udf_phys_lba ctx0 (fid_icb_lba f)) → fid_object img ctx0 nm f = Ret o →
  ∃ err n c', ok c' ∧ udf_fill_node_from_icb ctx c (fid_flags f) (fid_icb_lba f) (bare_node i p nm) = Ret (err, n, c') ∧
    if err_ok err then ∃ m, o = Some m ∧ n = numbered i p m else o = None.
Proof.
  intros Hs Hok Hr Ho. unfold fid_object in Ho. cbv zeta in Ho. apply bind_Ret in Ho as ([err icb] & Hi & Ho). unfold udf_fill_node_from_icb. cbv zeta.
  assert (Hp : udf_phys_lba ctx (fid_icb_lba f) = udf_phys_lba ctx0 (fid_icb_lba f)) by (by destruct Hs as [k ->]). rewrite Hp.
  destruct (read_icb_run ctx c _ _ Hs Hok (phys_u32 ctx0 _) Hr Hi) as (c' & Hok' & ->). cbn [mbind outcome_bind]. destruct (err_ok err) eqn:He; cbn [negb]; injection Ho as <-.
  - eexists ODFS_OK, _, c'. split; [done|]. split; [done|]. change (err_ok ODFS_OK) with true. cbv iota. by eexists.
  - exists err, (bare_node i p nm), c'. by rewrite He.
Qed.

(** ** The loop *)

(** The sector [l] has a directory with the bytes [D]. *)
Definition udf_directory (l : Z) (D : list Z) : Prop :=
  ∃ d icb, object_at img ctx0 readable spans l d ∧ data_bytes img ctx0 d = D ∧ icb_of img ctx0 l = Ret (ODFS_OK, icb) ∧
    icb_data_size icb = zlen D ∧ zlen D < 2 ^ 31.
(** [I fs ctx s] holds when [fs] are still to come, [Q] at the end. *)
Section rule.
Context {S : Type} (callback : fid_fn (C := C) S) (dir : odfs_node) (D : list Z) (Hdir : udf_directory (lba (extent dir)) D).
Context (I : list udf_fid_info → udf_context → S → Prop) (Q : odfs_err → udf_context → S → Prop).
Context (Hend : ∀ ctx s, I [] ctx s → Q ODFS_OK ctx s).
Context (Hcall : ∀ f fs ctx c s, I (f :: fs) ctx s → same_udf ctx0 ctx → ok c →
  ∃ err ctx' c' s', callback f ctx c s = Ret (err, ctx', c', s') ∧ ok c' ∧ same_udf ctx ctx' ∧ if err_ok err then I fs ctx' s' else Q err ctx' s').

Lemma fid_loop_rule n : ∀ off fs ctx c s, fids n D off = Ret fs → 0 ≤ off → I fs ctx s → same_udf ctx0 ctx → ok c →
  ∃ err ctx' c' s', fid_loop n callback dir (zlen D) off ctx c s = Ret (err, ctx', c', s') ∧ ok c' ∧ same_udf ctx ctx' ∧ Q err ctx' s'.
Proof using Hdir Hend Hcall Hbytes HR HL HB.
  destruct Hdir as (d & icb & Hd & HD & _ & _ & H31).
  induction n as [|n IH]; intros off fs ctx c s Hfs Hoff HI Hs Hok; cbn [fid_loop fids] in *; destruct (negb (off <? zlen D)) eqn:Eo; try done.
  1, 2: injection Hfs as <-; exists ODFS_OK, ctx, c, s; split_and!; [done..|apply same_udf_refl|by apply Hend].
  destruct (zlen D - off <? HEADER) eqn:Eh; [injection Hfs as <-; exists ODFS_OK, ctx, c, s; split_and!; [done..|apply same_udf_refl|by apply Hend]|]. b2p.
  unfold HEADER in Eh. pose proof H31 as H31'. rewrite <- HD in Eh, Eo, H31'. destruct (read_exact_run ctx _ _ c off HEADER Hs Hd Hok) as (c1 & Hok1 & ->); [lia|unfold HEADER; lia|unfold HEADER; lia|unfold HEADER; lia|].
  rewrite HD in *. cbn [mbind outcome_bind]. change (negb (err_ok ODFS_OK)) with false. cbv iota. cbv zeta in Hfs. set (header := slice D off HEADER) in *.
  apply bind_Ret in Hfs as (b & -> & Hfs). cbn [mbind outcome_bind]. destruct b; cbn [negb] in *.
  2: { injection Hfs as <-. exists ODFS_OK, ctx, c1, s; split_and!; [done..|apply same_udf_refl|by apply Hend]. }
  apply bind_Ret in Hfs as (flags & -> & Hfs). apply bind_Ret in Hfs as (nl & -> & Hfs). apply bind_Ret in Hfs as (icbl & -> & Hfs). apply bind_Ret in Hfs as (il & -> & Hfs).
  cbn [mbind outcome_bind]. cbv zeta in *. set (len := fid_size il nl) in *. unbind Hfs. injection Hfs as <-. b2p. unfold HEADER in *.
  rewrite (proj2 (Z.ltb_ge len _)), (proj2 (Z.ltb_ge _ len)) by lia. cbn [orb]. rewrite u32_small by (unfold is_u32; lia).
  destruct (Hcall _ _ _ c1 _ HI Hs Hok1) as (err & ctx1 & c2 & s1 & -> & Hok2 & Hs1 & Hnext). cbn [mbind outcome_bind].
  destruct (err_ok err) eqn:He; cbn [negb]; [|by exists err, ctx1, c2, s1].
  match goal with E : fids n D _ = Ret ?x |- _ => destruct (IH _ _ ctx1 c2 s1 E ltac:(lia) Hnext (same_udf_trans _ _ _ Hs Hs1) Hok2) as (err' & ctx2 & c3 & s2 & -> & Hok3 & Hs2 & HQ) end.
  exists err', ctx2, c3, s2. split_and!; [done..|by eapply same_udf_trans|done].
Qed.
Lemma walk_fids_rule fs ctx c s : dir_fids D = Ret fs → I fs ctx s → same_udf ctx0 ctx → ok c →
  ∃ err ctx' c' s', udf_walk_fids callback dir ctx c s = Ret (err, Some (zlen D), ctx', c', s') ∧ ok c' ∧ same_udf ctx ctx' ∧ Q err ctx' s'.
Proof using Hdir Hend Hcall Hbytes HR HL HB.
  intros Hfs HI Hs Hok. pose proof Hdir as (d & icb & Hd & HD & Hi & Hsz & H31). unfold udf_walk_fids.
  destruct Hd as (Hl & Hr & _). destruct (read_icb_run ctx c _ _ Hs Hok Hl Hr Hi) as (c1 & Hok1 & ->). cbn [mbind outcome_bind].
  change (negb (err_ok ODFS_OK)) with false. cbv iota. rewrite Hsz. rewrite (proj2 (Z.ltb_ge _ _)) by (unfold UINT32_MAX; lia). cbv zeta.
  destruct (fid_loop_rule _ 0 fs ctx c1 s Hfs ltac:(lia) HI Hs Hok1) as (err & ctx' & c' & s' & -> & Hok' & Hs' & HQ). by exists err, ctx', c', s'.
Qed.
End rule.

(** ** Entries *)

(** Identifiers one behind the other. *)
Fixpoint fids_from (D : list Z) (off : Z) (fs : list udf_fid_info) : Prop :=
  match fs with
  | [] => True
  | f :: fs => off ≤ fid_start f ∧ HEADER ≤ fid_length f ∧ fid_next f = fid_start f + fid_length f ∧ fid_next f ≤ zlen D ∧
      fid_header f = slice D (fid_start f) HEADER ∧ fids_from D (fid_next f) fs
  end.
Lemma fids_ordered n D : ∀ off fs, fids n D off = Ret fs → fids_from D off fs.
Proof.
  induction n as [|n IH]; intros off fs; cbn [fids]; destruct (negb (off <? zlen D)); try done; [by intros [= <-]..|].
  destruct (_ <? HEADER); [by intros [= <-]|]. cbv zeta. intros (b & _ & H)%bind_Ret. destruct (negb b); [by injection H as <-|].
  unbind H. injection H as <-. b2p. cbn [fids_from fid_start fid_length fid_next fid_header]. split_and!; [lia..|done|]. by apply IH.
Qed.

Section entries.
Context (malloc : nat → Z → bool) (alloc : Z → bool) (Halloc : ∀ x, alloc x = true).
Context {S : Type} (callback : dir_entry_fn (C := C) S) (step : Z → Z → odfs_node → S → odfs_err * S).
Context (dir : odfs_node) (D : list Z) (Hdir : udf_directory (lba (extent dir)) D).
(** The callback passes over entries without an object, and comes to [step] on others. *)
Context (Hstep : ∀ f nm o i ctx c s, ok c → same_udf ctx0 ctx → readable (udf_phys_lba ctx0 (fid_icb_lba f)) → fid_object img ctx0 nm f = Ret o →
  ∃ c', ok c' ∧ callback (mk_dir_entry (bare_node i (id dir) nm) (fid_start f) (fid_next f) (fid_icb_lba f) (fid_flags f)) ctx c s =
    Ret (match o with
         | None => (ODFS_OK, ctx, c', s)
         | Some n => let '(err, s) := step (fid_start f) (fid_next f) (numbered i (id dir) n) s in (err, ctx, c', s) end)).

Fixpoint run_listed (L : list udf_listed) (s : S) : odfs_err * S :=
  match L with
  | [] => (ODFS_OK, s)
  | x :: L => let '(err, s) := step (ls_start x) (ls_next x) (ls_node x) s in if err_ok err then run_listed L s else (err, s)
  end.
Definition numbered_entry (i p : Z) (x : udf_listed) : udf_listed := mk_listed (ls_start x) (ls_next x) (numbered i p (ls_node x)).
Definition renumbered_entries (p : Z) : list udf_listed → list udf_listed → Prop := Forall2 (λ x y, ∃ i, y = numbered_entry i p x).
Lemma renumbered_any p L : renumbered_entries p L (map (numbered_entry 0 p) L).
Proof. apply Forall2_fmap_r, Forall_Forall2_diag, Forall_forall. intros x _. by exists 0. Qed.
(** The ICBs of the entries can be looked at. *)
Definition icbs_readable (fs : list udf_fid_info) : Prop := Forall (λ f, fid_shown f = true → readable (udf_phys_lba ctx0 (fid_icb_lba f))) fs.

(** The whole identifier. *)
Lemma fid_data_run f fs off ctx c : fids_from D off (f :: fs) → 0 ≤ off → same_udf ctx0 ctx → ok c →
  ∃ c', ok c' ∧ (if HEADER <? fid_length f then udf_read_exact ctx c (lba (extent dir)) (fid_start f) (fid_length f) else Ret (ODFS_OK, fid_header f, c)) =
    Ret (ODFS_OK, slice D (fid_start f) (fid_length f), c').
Proof using Hdir Hbytes HR HL HB.
  intros (Ho & Hlen & Hn & Hfit & Hh & _) H0 Hs Hok. destruct Hdir as (d & icb & Hd & HD & _ & _ & H31). unfold HEADER in *. case_test; b2p.
  - pose proof H31 as H31'. rewrite <- HD in H31', Hfit. destruct (read_exact_run ctx _ _ c (fid_start f) (fid_length f) Hs Hd Hok) as (c' & Hok' & ->); [lia..|].
    rewrite HD. by exists c'.
  - exists c. split; [done|]. rewrite Hh. by replace (fid_length f) with 38 by lia.
Qed.
Lemma decode_entry_run f fs off nf L ctx c s : fids_from D off (f :: fs) → 0 ≤ off → icbs_readable (f :: fs) → udf_entries img ctx0 malloc D nf (f :: fs) = Ret L →
  same_udf ctx0 ctx → ok c →
  ∃ err ctx' c' nf' s', udf_decode_dir_entry malloc alloc callback dir f ctx c (nf, s) = Ret (err, ctx', c', (nf', s')) ∧ ok c' ∧ same_udf ctx ctx' ∧
    ((∃ L', udf_entries img ctx0 malloc D nf' fs = Ret L' ∧ ((err = ODFS_OK ∧ s' = s ∧ L' = L) ∨
      ∃ x i, L = x :: L' ∧ (err, s') = step (ls_start x) (ls_next x) (numbered i (id dir) (ls_node x)) s))).
Proof using Hdir Hstep Halloc Hbytes HR HL HB.
  intros Hf H0 Hrd HL' Hs Hok. unfold udf_decode_dir_entry. rewrite Halloc, andb_false_r. cbn [udf_entries] in HL'. unfold fid_shown in *.
  apply Forall_cons in Hrd as [Hr Hrd].
  destruct (fid_data_run f fs off ctx c Hf H0 Hs Hok) as (c1 & Hok1 & ->). cbn [mbind outcome_bind]. change (negb (err_ok ODFS_OK)) with false. cbv iota.
  destruct (Z.land (fid_flags f) _ =? 0) eqn:Eshown; cbn [negb] in *.
  2: { exists ODFS_OK, ctx, c1, nf, s. split_and!; [done..|apply same_udf_refl|]. exists L. split; [done|by left]. }
  apply bind_Ret in HL' as (nm & Hnm & HL'). unfold fid_name in Hnm. cbv zeta in *. set (i := next_node_id ctx). set (ctx1 := set_next_node_id _ ctx).
  unbind Hnm. b2p. rewrite (proj2 (Z.ltb_ge _ (38 + _))), (proj2 (Z.ltb_ge (_ - _) _)) by lia. cbn [orb]. rewrite Hnm. cbn [mbind outcome_bind].
  destruct (odfs_namefix_apply malloc nf nm ODFS_NAME_MAX) as [[err nf'] nm'] eqn:Hfix. unbind HL'. cbn [negb].
  assert (Hs1 : same_udf ctx ctx1) by by eexists.
  match goal with E : fid_object _ _ _ _ = Ret ?o |- _ => rename o into ob, E into Hob end.
  destruct (Hstep f nm' ob i ctx1 c1 s Hok1 (same_udf_trans _ _ _ Hs Hs1) (Hr (proj2 (Z.eqb_eq _ _) Eshown)) Hob) as (c2 & Hok2 & Hcb).
  unfold bare_node in Hcb. rewrite Hcb. clear Hcb. destruct ob as [n|].
  - destruct (step (fid_start f) (fid_next f) (numbered i (id dir) n) s) as [err2 s2] eqn:Hst. cbn [mbind outcome_bind].
    exists err2, ctx1, c2, nf', s2. split_and!; [done..|]. eexists. split; [done|]. right. injection HL' as <-. eexists _, i. split; [done|]. exact (eq_sym Hst).
  - cbn [mbind outcome_bind]. exists ODFS_OK, ctx1, c2, nf', s. split_and!; [done..|]. eexists. split; [done|]. injection HL' as <-. by left.
Qed.

(** A walk over the entries runs [step] over the listing, numbered. *)
Lemma walk_entries_run fs L ctx c s : dir_fids D = Ret fs → icbs_readable fs → udf_entries img ctx0 malloc D odfs_namefix_init fs = Ret L → same_udf ctx0 ctx → ok c →
  ∃ N ctx' c', renumbered_entries (id dir) L N ∧ ok c' ∧ same_udf ctx ctx' ∧
    udf_walk_dir_entries malloc alloc callback dir ctx c s = Ret ((run_listed N s).1, Some (zlen D), ctx', c', (run_listed N s).2).
Proof using Hdir Hstep Halloc Hbytes HR HL HB.
  intros Hfs Hrd HLs Hs Hok. unfold udf_walk_dir_entries.
  set (I := λ fs (_ : udf_context) (q : odfs_namefix_state * S), ∃ off L', 0 ≤ off ∧ fids_from D off fs ∧ icbs_readable fs ∧
    udf_entries img ctx0 malloc D q.1 fs = Ret L' ∧
    ∀ N', renumbered_entries (id dir) L' N' → ∃ N, renumbered_entries (id dir) L N ∧ run_listed N s = run_listed N' q.2).
  set (Q := λ err (_ : udf_context) (q : odfs_namefix_state * S), ∃ N, renumbered_entries (id dir) L N ∧ run_listed N s = (err, q.2)).
  destruct (walk_fids_rule (udf_decode_dir_entry malloc alloc callback dir) dir D Hdir I Q) with (fs := fs) (ctx := ctx) (c := c) (s := (odfs_namefix_init, s))
    as (err & ctx' & c' & [nf' s'] & -> & Hok' & Hs' & N & HN & Hrun); [| |done| |done|done|].
  - intros ctx1 [nf1 s1] (off & L' & _ & _ & _ & [= <-] & HI). destruct (HI [] ltac:(constructor)) as (N & HN & Hrun). exists N. by rewrite Hrun.
  - intros f fs1 ctx1 c1 [nf1 s1] (off & L1 & H0 & Hf & Hr & HL1 & HI) Hs1 Hok1.
    destruct (decode_entry_run f fs1 off nf1 L1 ctx1 c1 s1 Hf H0 Hr HL1 Hs1 Hok1) as (err & ctx2 & c2 & nf2 & s2 & -> & Hok2 & Hs2 & L2 & HL2 & Hcase).
    exists err, ctx2, c2, (nf2, s2). split_and!; [done..|]. destruct Hf as (Hof & Hlen & Hn & _ & _ & Hf). unfold HEADER in Hlen. apply Forall_cons in Hr as [_ Hr].
    destruct Hcase as [(-> & -> & ->)|(x & i & -> & Hst)].
    { change (err_ok ODFS_OK) with true. cbv iota. exists (fid_next f), L1. split_and!; [lia|done..]. }
    destruct (err_ok err) eqn:He.
    + exists (fid_next f), L2. split_and!; [lia|done..|]. intros N' HN'. destruct (HI (numbered_entry i (id dir) x :: N')) as (N & HN & Hrun).
      { constructor; [by exists i|done]. }
      exists N. split; [done|]. rewrite Hrun. cbn [run_listed numbered_entry ls_start ls_next ls_node snd]. by rewrite <- Hst, He.
    + destruct (HI (numbered_entry i (id dir) x :: map (numbered_entry 0 (id dir)) L2)) as (N & HN & Hrun).
      { constructor; [by exists i|apply renumbered_any]. }
      exists N. split; [done|]. rewrite Hrun. cbn [run_listed numbered_entry ls_start ls_next ls_node snd]. by rewrite <- Hst, He.
  - exists 0, L. split_and!; [lia|by eapply fids_ordered|done..|]. intros N' HN'. by exists N'.
  - cbn [mbind outcome_bind]. exists N, ctx', c'. split_and!; [done..|]. by rewrite Hrun.
Qed.
End entries.
End walk.
