(* ===== verification/UdfReaddir.v ===== *)
(** * Enumeration and lookup on UDF

    A run of [udf_readdir] from an offset is the callback on the entries of the listing
    that begin there or later; [udf_lookup] finds the first entry with the name. *)
From S2P Require Import Prelude Types Strings Namefix Media CacheApi Charset Backend MetaCache MetaCacheProofs MetaCacheSpec Reader IsoListing.
From S2P Require Import Udf UdfObjects UdfListing.
Open Scope Z_scope.
Abbreviation nodes L := (map ls_node L).

(** ** Offsets *)

(** Entries one behind the other, up to [hi]. *)
Fixpoint listed_from (hi off : Z) (L : list udf_listed) : Prop :=
  match L with [] => True | x :: L => off ≤ ls_start x < ls_next x ∧ ls_next x ≤ hi ∧ listed_from hi (ls_next x) L end.
(** How many entries begin before [c]. *)
Definition before (c : Z) (L : list udf_listed) : nat := length (filter (λ x, ls_start x < c) L).
Lemma before_cons c x L : before c (x :: L) = if ls_start x <? c then S (before c L) else before c L.
Proof. unfold before. rewrite filter_cons. case_decide; case_test; b2p; done || lia. Qed.
Lemma before_le c L : (before c L ≤ length L)%nat.
Proof. apply length_filter. Qed.
Lemma listed_from_mono hi a b L : a ≤ b → listed_from hi b L → listed_from hi a L.
Proof. destruct L; [done|]. simpl. intros ? (? & ? & ?). split_and!; try done; lia. Qed.
Lemma before_none hi off c L : listed_from hi off L → c ≤ off → before c L = 0%nat.
Proof.
  revert off. induction L as [|x L IH]; intros off; [done|]. intros (H1 & H2 & H3) Hc. rewrite before_cons, (proj2 (Z.ltb_ge _ _)) by lia.
  apply (IH _ H3). lia.
Qed.
Lemma before_all hi off L : listed_from hi off L → before hi L = length L.
Proof.
  revert off. induction L as [|x L IH]; intros off; [done|]. intros (H1 & H2 & H3). rewrite before_cons, (proj2 (Z.ltb_lt _ _)) by lia. by rewrite (IH _ H3).
Qed.
Lemma renumbered_before p c L N : renumbered_entries p L N → before c N = before c L.
Proof. induction 1 as [|x y L N [i ->] _ IH]; [done|]. rewrite !before_cons. by rewrite IH. Qed.
Lemma renumbered_listed p hi L N : renumbered_entries p L N → ∀ off, listed_from hi off L → listed_from hi off N.
Proof. induction 1 as [|x y L N [i ->] _ IH]; [done|]. intros off (? & ? & ?). split; [done|]. split; [done|]. by apply IH. Qed.
Lemma renumbered_nodes p L N : renumbered_entries p L N → renumbered p (nodes L) (nodes N).
Proof. induction 1 as [|x y L N [i ->] _ IH]; constructor; [by exists i|done]. Qed.

(** ** The callback of an enumeration, on the listing *)
Section step.
Context {T : Type} (cb : odfs_dir_iter_fn T) (target : Z).
Definition readdir_step (start next : Z) (n : odfs_node) (s : T * option Z) : odfs_err * (T * option Z) :=
  let '(t, r) := s in
  if start <? target then (ODFS_OK, s)
  else let '(err, t) := cb n t in (err, (t, if negb (err_ok err) then (λ _, next) <$> r else r)).
Lemma readdir_listed hi r N : ∀ off t, listed_from hi off N →
  let R := run cb (drop (before target N) (nodes N)) t in
  ∃ c1, run_listed readdir_step N (t, r) = (R.1, (R.2, if err_ok R.1 then r else (λ _, c1) <$> r)) ∧
    (err_ok R.1 = false → off < c1 ≤ hi ∧ Z.of_nat (before c1 N) = Z.of_nat (before target N) + delivered cb (drop (before target N) (nodes N)) t).
Proof.
  induction N as [|x N IH]; intros off t; cbn [listed_from run_listed map]; [intros _; exists 0; by rewrite drop_nil|].
  intros (H1 & H2 & H3). rewrite before_cons. destruct (ls_start x <? target) eqn:E; b2p.
  - unfold readdir_step at 1. rewrite (proj2 (Z.ltb_lt _ _)) by lia. cbn [drop skipn]. change (err_ok ODFS_OK) with true. cbv iota.
    destruct (IH (ls_next x) t H3) as (c1 & Hr & Hc1). exists c1. split; [exact Hr|]. intros He. destruct (Hc1 He) as [Hb Hd]. split; [lia|].
    rewrite before_cons, (proj2 (Z.ltb_lt _ _)) by lia. cbn [drop] in *. lia.
  - assert (Hb0 : before target N = 0%nat) by (eapply before_none; [exact H3|lia]). rewrite Hb0. cbn [drop skipn run delivered]. unfold readdir_step at 1. rewrite (proj2 (Z.ltb_ge _ _)) by lia.
    destruct (cb (ls_node x) t) as [err t'] eqn:Hcb. destruct (err_ok err) eqn:He; cbn [negb].
    + destruct (IH (ls_next x) t' H3) as (c1 & Hr & Hc1). rewrite Hb0 in *. change (drop 0 ?l) with l in *. exists c1. split; [exact Hr|]. intros He'. destruct (Hc1 He') as [Hb Hd]. split; [lia|].
      rewrite before_cons, (proj2 (Z.ltb_lt _ _)) by lia. lia.
    + exists (ls_next x). cbn [fst snd]. rewrite He. split; [done|]. intros _. split; [lia|]. rewrite before_cons, (proj2 (Z.ltb_lt _ _)) by lia.
      rewrite (before_none hi (ls_next x) (ls_next x)) by (done || lia). done.
Qed.
End step.
(** The callback of a lookup. *)
Definition find_step (want : odfs_node → bool) (start next : Z) (n : odfs_node) (found : option odfs_node) : odfs_err * option odfs_node :=
  if want n then (ODFS_ERR_EOF, Some n) else (ODFS_OK, found).
Lemma find_listed want N : run_listed (find_step want) N None =
  match List.find want (nodes N) with Some n => (ODFS_ERR_EOF, Some n) | None => (ODFS_OK, None) end.
Proof. induction N as [|x N IH]; [done|]. cbn [run_listed map List.find]. unfold find_step at 1. by destruct (want (ls_node x)). Qed.

(** ** Names *)

Lemma cs0_name src len : Forall is_byte src → len ≤ 255 → after (udf_decode_cs0 src len ODFS_NAME_MAX) node_name_ok.
Proof.
  intros Hs Hlen. assert (Hnil : node_name_ok []) by (by split; [constructor|]). unfold udf_decode_cs0. case_test; [by apply after_ret|]. unfold cs0_bytes.
  assert (Hc : ∀ raw, Forall is_byte raw → zlen raw < ODFS_NAME_MAX → node_name_ok (c_str raw)).
  { intros raw Hr Hl. split; [|pose proof (length_c_str raw); lia]. unfold is_name. induction Hr as [|b raw Hb Hr IH]; [constructor|]. cbn [c_str]. unfold is_byte in Hb.
    case_test; b2p; [constructor|]. constructor; [lia|]. apply IH. simpl in Hl. lia. }
  eapply (after_bind _ _ (λ raw, Forall is_byte raw ∧ zlen raw < ODFS_NAME_MAX)); [|intros raw [? ?]; apply after_ret; by apply Hc].
  eapply after_bind; [apply after_any|]. intros comp _. case_test.
  - eapply after_bind; [apply lands_after, (lands_range is_byte); exact Hs|]. intros u [_ Hu]. apply after_ret. unfold odfs_ucs2be_to_utf8. change (ODFS_NAME_MAX =? 0) with false. cbv iota.
    case_test; cbn [snd default]; [by split; [constructor|]|]. destruct (ucs2be_name u Hu) as [Hn Hl]. split; [|exact Hl].
    eapply Forall_impl; [exact Hn|]. unfold is_byte. simpl. lia.
  - eapply after_weaken; [apply lands_after, (lands_range is_byte); exact Hs|]. intros raw [Hl Hb]. split; [done|]. unfold ODFS_NAME_MAX in *. revert Hl. case_test; b2p; lia.
Qed.
Lemma data_bytes_bytes img ctx d : (∀ l, Forall is_byte (img l)) → (∀ b, d = DataHere b → Forall is_byte b) → Forall is_byte (data_bytes img ctx d).
Proof.
  intros Hb Hh. destruct d as [b|size es bl]; [by apply Hh|]. cbn [data_bytes]. apply Forall_take. clear Hh. unfold exts_bytes.
  induction es as [|e es IH]; [constructor|]. cbn [map concat]. apply Forall_app. split; [|done]. unfold ext_bytes.
  case_test; [by apply disc_bytes_bytes|]. apply Forall_replicate. unfold is_byte. lia.
Qed.
Lemma object_bytes img ctx l d : (∀ l, Forall is_byte (img l)) → udf_object img ctx l = Ret d → Forall is_byte (data_bytes img ctx d).
Proof.
  intros Hb Hd. apply data_bytes_bytes; [done|]. intros b ->. unfold udf_object, udf_object_within in Hd.
  apply bind_Ret in Hd as ([e|[[[[a ds] ea] al] base]] & _ & Hd); [done|]. cbv zeta in Hd. unbind Hd.
  destruct (a =? _).
  - unbind Hd. injection Hd as <-. by apply Forall_take, Forall_drop.
  - unbind Hd. by destruct x0.
Qed.

(** ** The listing *)
Section listing.
Context (img : Z → list Z) (ctx0 : udf_context) (malloc : nat → Z → bool) (D : list Z) (HD : Forall is_byte D).

Lemma entries_from fs : ∀ nf L off, udf_entries img ctx0 malloc D nf fs = Ret L → fids_from D off fs → listed_from (zlen D) off L.
Proof.
  induction fs as [|f fs IH]; intros nf L off; cbn [udf_entries]; [by intros [= <-]|]. intros H (H1 & H2 & H3 & H4 & _ & H5). unfold HEADER in H2.
  destruct (negb _); [eapply listed_from_mono, IH; [|exact H|exact H5]; lia|].
  apply bind_Ret in H as (nm & _ & H). destruct (odfs_namefix_apply _ _ _ _) as [[err nf'] nm']. unbind H. destruct x as [n|]; injection H as <-.
  - split; [simpl; lia|]. split; [simpl; lia|]. by eapply IH.
  - eapply listed_from_mono, IH; [|done|exact H5]. lia.
Qed.
Lemma fid_name_ok f nm : fid_name_len f ≤ 255 → fid_name D f = Ret nm → node_name_ok nm.
Proof.
  intros Hl. unfold fid_name. intros H. unbind H. destruct (0 <? fid_name_len f); [|injection H as <-; by split; [constructor|]].
  eapply (cs0_name _ _); [|exact Hl|exact H]. apply Forall_mem_at. by apply Forall_take, Forall_drop.
Qed.
Lemma fids_names n : ∀ off fs, fids n D off = Ret fs → Forall (λ f, fid_name_len f ≤ 255) fs.
Proof.
  induction n as [|n IH]; intros off fs; cbn [fids]; destruct (negb _); try done; [by intros [= <-]..|]. destruct (_ <? HEADER); [by intros [= <-]|].
  cbv zeta. intros (b & _ & H)%bind_Ret. destruct (negb b); [by injection H as <-|]. unbind H. injection H as <-. constructor; [|by eapply IH]. simpl.
  match goal with E : rd _ 19 = Ret ?x |- _ => pose proof (lands_after _ _ (lands_rd is_byte _ 19 (Forall_take _ _ _ (Forall_drop _ _ _ HD))) _ E) as Hb end. unfold is_byte in Hb. lia.
Qed.
Lemma udf_entries_wf fs : ∀ nf L, namefix_wf nf → Forall (λ f, fid_name_len f ≤ 255) fs → udf_entries img ctx0 malloc D nf fs = Ret L → Forall node_wf (nodes L).
Proof.
  induction fs as [|f fs IH]; intros nf L Hnf Hfs; cbn [udf_entries]; [by intros [= <-]|]. apply Forall_cons in Hfs as [Hf Hfs].
  destruct (negb _); [by apply IH|]. intros H. apply bind_Ret in H as (nm & Hnm & H). destruct (fid_name_ok f nm Hf Hnm) as [Hn1 Hn2].
  destruct (odfs_namefix_apply _ _ _ _) as [[err nf'] nm'] eqn:Hfix. unbind H. apply err_ok_eq in E as ->.
  destruct (namefix_apply_ok _ _ _ _ _ _ Hnf Hn1 Hn2 Hfix) as (Hnf' & _ & _ & Hn & Hl & _).
  match goal with E : udf_entries _ _ _ _ _ fs = Ret _ |- _ => pose proof (IH _ _ Hnf' Hfs E) as Hrest end.
  destruct x as [n|]; injection H as <-; [|done]. cbn [map ls_node]. constructor; [|done].
  unfold fid_object in E0. apply bind_Ret in E0 as ([e icb] & _ & Ho). destruct (err_ok e); [|done]. injection Ho as <-. split_and!; done.
Qed.
Lemma udf_listing_facts fs L : dir_fids D = Ret fs → udf_entries img ctx0 malloc D odfs_namefix_init fs = Ret L → listed_from (zlen D) 0 L ∧ Forall node_wf (nodes L).
Proof.
  intros Hfs HLs. split; [eapply entries_from; [exact HLs|by eapply fids_ordered]|]. eapply udf_entries_wf; [apply namefix_init_wf|by eapply fids_names|exact HLs].
Qed.
End listing.

(** ** On a disc *)
Section disc.
Context {C : Type} {HO : CacheOps C} (img : Z → list Z) (inv ok : C → Prop) (ptr : C → Z → Prop) (readable : Z → Prop) (spans : Z → Z → Prop).
Context {HL : CacheLaws C img 2048 inv ok ptr} {HR : CacheReadable C ok readable} {HB : CacheReadsBytes C ok 2048 spans}.
Context (Hbytes : ∀ l, Forall is_byte (img l)) (ctx0 : udf_context) (malloc : nat → Z → bool) (alloc : Z → bool) (Halloc : ∀ x, alloc x = true).
Implicit Types c : C.

(** What the disc says of the directory whose ICB is in the sector [l]. *)
Definition udf_listing (l : Z) : outcome (list udf_listed) := d ← udf_object img ctx0 l; udf_dir_entries img ctx0 malloc (data_bytes img ctx0 d).
(** A directory that can be read, of less than [2 ^ 31] bytes, whose listing is [L]. *)
Definition lists_as (l : Z) (L : list udf_listed) : Prop :=
  ∃ D fs, udf_directory img readable spans ctx0 l D ∧ dir_fids D = Ret fs ∧ icbs_readable readable ctx0 fs ∧ udf_entries img ctx0 malloc D odfs_namefix_init fs = Ret L.
Lemma lists_as_listing l L : lists_as l L → udf_listing l = Ret L.
Proof.
  intros (D & fs & (d & icb & (_ & _ & Hd & _) & HD & _) & Hfs & _ & HLs). unfold udf_listing. rewrite Hd. cbn [mbind outcome_bind]. rewrite HD. unfold udf_dir_entries. by rewrite Hfs.
Qed.
Lemma listing_facts l L : udf_listing l = Ret L → ∃ hi, listed_from hi 0 L ∧ Forall node_wf (nodes L).
Proof.
  intros H. apply bind_Ret in H as (d & Hd & H). apply bind_Ret in H as (fs & Hfs & H). exists (zlen (data_bytes img ctx0 d)).
  by apply (udf_listing_facts img ctx0 malloc _ (object_bytes img ctx0 l d Hbytes Hd) fs).
Qed.

Section walks.
Context (dir : odfs_node) (L : list udf_listed) (HLs : lists_as (lba (extent dir)) L).
Abbreviation walk := (walk_entries_run img inv ok ptr readable spans Hbytes ctx0 malloc alloc Halloc).

Lemma readdir_entry_step {T} (cb : odfs_dir_iter_fn T) target f nm o i ctx c (s : T * option Z) : ok c → same_udf ctx0 ctx →
  readable (udf_phys_lba ctx0 (fid_icb_lba f)) → fid_object img ctx0 nm f = Ret o →
  ∃ c', ok c' ∧ udf_readdir_entry cb target (mk_dir_entry (bare_node i (id dir) nm) (fid_start f) (fid_next f) (fid_icb_lba f) (fid_flags f)) ctx c s =
    Ret (match o with
         | None => (ODFS_OK, ctx, c', s)
         | Some n => let '(err, s) := readdir_step cb target (fid_start f) (fid_next f) (numbered i (id dir) n) s in (err, ctx, c', s) end).
Proof using HR HL.
  intros Hok Hs Hr Ho. destruct s as [t r]. unfold udf_readdir_entry, readdir_step. cbn [de_start de_next de_icb_lba de_flags de_node].
  destruct (fid_start f <? target); [exists c; split; [done|]; by destruct o|].
  destruct (fill_node_run img inv ok ptr readable ctx0 ctx c f nm i (id dir) o Hs Hok Hr Ho) as (err & n & c' & Hok' & Hf & He). rewrite Hf. cbn [mbind outcome_bind].
  exists c'. split; [done|]. destruct (err_ok err); cbn [negb]; [|by rewrite He]. destruct He as (m & -> & ->). by destruct (cb _ t).
Qed.
Lemma udf_readdir_run {T} (cb : odfs_dir_iter_fn T) ctx c t r0 : ok c → same_udf ctx0 ctx →
  let i := before (default 0 r0) L in
  ∃ N (c1 : Z) ctx' c', renumbered (id dir) (nodes L) N ∧
    udf_readdir malloc alloc cb ctx c dir t r0 = Ret ((run cb (drop i N) t).1, (λ _, c1) <$> r0, ctx', c', (run cb (drop i N) t).2) ∧ ok c' ∧ same_udf ctx ctx' ∧
    0 ≤ c1 < 2 ^ 31 ∧ Z.of_nat (before c1 L) = Z.of_nat i + delivered cb (drop i N) t.
Proof using HLs Halloc Hbytes HR HL HB.
  intros Hok Hs i. pose proof HLs as (D & fs & Hdir & Hfs & Hrd & HL'). assert (H31 : zlen D < 2 ^ 31) by (by destruct Hdir as (? & ? & _ & _ & _ & _ & ?)).
  destruct (walk (udf_readdir_entry cb (default 0 r0)) (readdir_step cb (default 0 r0)) dir D Hdir ltac:(apply readdir_entry_step) fs L ctx c (t, r0) Hfs Hrd HL' Hs Hok)
    as (N & ctx' & c' & HN & Hok' & Hs' & Hw).
  assert (HD : Forall is_byte D) by (destruct Hdir as (d & icb & (_ & _ & Hd & _) & <- & _); by eapply object_bytes).
  destruct (udf_listing_facts img ctx0 malloc D HD fs L Hfs HL') as [Hfrom _]. pose proof (renumbered_listed _ _ _ _ HN _ Hfrom) as HfromN.
  destruct (readdir_listed cb (default 0 r0) (zlen D) r0 N 0 t HfromN) as (c1 & Hr & Hc1).
  pose proof (renumbered_before (id dir) (default 0 r0) L N HN) as Hb. rewrite Hb in Hr, Hc1. fold i in Hr, Hc1. set (R := run cb (drop i (nodes N)) t) in *.
  exists (nodes N), (if err_ok R.1 then zlen D else c1), ctx', c'. unfold udf_readdir. rewrite Hw, Hr. cbn [mbind outcome_bind fst snd].
  split; [by apply renumbered_nodes|]. fold R. split; [destruct (err_ok R.1) eqn:He; cbn [negb]; [apply err_ok_eq in He; by rewrite He|done]|]. split; [done|]. split; [done|].
  destruct (err_ok R.1) eqn:He.
  - split; [lia|]. rewrite (before_all (zlen D) 0 L Hfrom), (delivered_all cb _ _ He), length_drop, length_map, (Forall2_length _ _ _ HN).
    pose proof (before_le (default 0 r0) N). unfold i. rewrite <- Hb. lia.
  - destruct (Hc1 eq_refl) as [Hc Hd]. split; [lia|]. by rewrite <- (renumbered_before _ _ _ _ HN).
Qed.

(** Walks for the first entry that is wanted. *)
Lemma find_walk (want : odfs_node → bool) callback ctx c : ok c → same_udf ctx0 ctx →
  (∀ f nm o i ctx c s, ok c → same_udf ctx0 ctx → readable (udf_phys_lba ctx0 (fid_icb_lba f)) → fid_object img ctx0 nm f = Ret o →
    ∃ c', ok c' ∧ callback (mk_dir_entry (bare_node i (id dir) nm) (fid_start f) (fid_next f) (fid_icb_lba f) (fid_flags f)) ctx c s =
      Ret (match o with
           | None => (ODFS_OK, ctx, c', s)
           | Some n => let '(err, s) := find_step want (fid_start f) (fid_next f) (numbered i (id dir) n) s in (err, ctx, c', s) end)) →
  ∃ N ctx' c' size, renumbered (id dir) (nodes L) N ∧ ok c' ∧ same_udf ctx ctx' ∧
    udf_walk_dir_entries malloc alloc callback dir ctx c None =
      Ret (match List.find want N with Some n => ODFS_ERR_EOF | None => ODFS_OK end, size, ctx', c', List.find want N).
Proof using HLs Halloc Hbytes HR HL HB.
  intros Hok Hs Hstep. pose proof HLs as (D & fs & Hdir & Hfs & Hrd & HL').
  destruct (walk callback (find_step want) dir D Hdir Hstep fs L ctx c None Hfs Hrd HL' Hs Hok) as (N & ctx' & c' & HN & Hok' & Hs' & Hw).
  exists (nodes N), ctx', c', (Some (zlen D)). split; [by apply renumbered_nodes|]. split; [done|]. split; [done|]. rewrite Hw, find_listed. by destruct (List.find _ _).
Qed.
Lemma find_named nm N : is_name nm → Forall node_wf N → List.find (λ n, odfs_strcasecmp (name n) nm =? 0) N = listed N nm.
Proof.
  intros Hnm. induction 1 as [|n N [Hn _] _ IH]; [done|]. unfold listed. cbn [List.find]. destruct (Z.eqb_spec (odfs_strcasecmp (name n) nm) 0) as [He|He].
  - by rewrite bool_decide_true by (by apply strcasecmp_spec).
  - rewrite bool_decide_false; [exact IH|]. intros ?. apply He. by apply strcasecmp_spec.
Qed.
Lemma fid_object_name nm f m : fid_object img ctx0 nm f = Ret (Some m) → name m = nm.
Proof. unfold fid_object. intros ([e icb] & _ & Ho)%bind_Ret. destruct (err_ok e); [by injection Ho as <-|done]. Qed.
(** Lookup finds the entry the listing has. *)
Lemma udf_lookup_run ctx c nm : ok c → same_udf ctx0 ctx → is_name nm →
  ∃ err out ctx' c', udf_lookup malloc alloc ctx c dir nm = Ret (err, out, ctx', c') ∧ ok c' ∧ same_udf ctx ctx' ∧
    face <$> out = listed (map face (nodes L)) nm ∧ err = match out with Some _ => ODFS_OK | None => ODFS_ERR_NOT_FOUND end.
Proof using HLs Halloc Hbytes HR HL HB.
  intros Hok Hs Hnm. destruct (listing_facts _ _ (lists_as_listing _ _ HLs)) as (hi & _ & Hwf).
  destruct (find_walk (λ n, odfs_strcasecmp (name n) nm =? 0) (udf_lookup_entry nm) ctx c Hok Hs) as (N & ctx' & c' & sz & HN & Hok' & Hs' & Hw).
  { intros f nm' o i ctx1 c1 s Hok1 Hs1 Hr Ho. unfold udf_lookup_entry, find_step. cbn [de_node de_flags de_icb_lba]. change (name (bare_node i (id dir) nm')) with nm'.
    destruct (odfs_strcasecmp nm' nm =? 0) eqn:Hn; cbn [negb].
    - destruct (fill_node_run img inv ok ptr readable ctx0 ctx1 c1 f nm' i (id dir) o Hs1 Hok1 Hr Ho) as (err & n & c2 & Hok2 & -> & He). cbn [mbind outcome_bind].
      exists c2. split; [done|]. destruct (err_ok err); cbn [negb]; [|by rewrite He]. destruct He as (m & -> & ->).
      change (name (numbered i (id dir) m)) with (name m). by rewrite (fid_object_name nm' f m Ho), Hn.
    - exists c1. split; [done|]. destruct o as [m|]; [|done].
      change (name (numbered i (id dir) m)) with (name m). by rewrite (fid_object_name nm' f m Ho), Hn. }
  unfold udf_lookup. rewrite Hw. cbn [mbind outcome_bind]. rewrite find_named by (done || by eapply renumbered_wf).
  rewrite <- (renumbered_face _ _ _ HN), <- listed_face. destruct (listed N nm) as [n|]; eexists _, _, ctx', c'; done.
Qed.
End walks.
End disc.
