(* ===== verification/UdfLinks.v ===== *)
(** * Symbolic links on UDF

    The data of a link are path components; [link_target] turns them into a path.  For
    components written as ECMA-167 says, the path is the one they spell; a reader that
    looks a link up, reads its object and decodes it gets there. *)
From S2P Require Import Prelude Types Strings Namefix Media CacheApi Charset Backend MetaCache MetaCacheProofs MetaCacheSpec Reader.
From S2P Require Import Udf UdfObjects UdfListing UdfReaddir.
Open Scope Z_scope.

(** ** Components *)

(** A name has its encoded bytes, and what they decode to. *)
Inductive udf_comp : Type := CompRoot | CompParent | CompHere | CompName (raw nm : list Z).
Definition comp_bytes (c : udf_comp) : list Z :=
  match c with
  | CompRoot => [2; 0; 0; 0] | CompParent => [3; 0; 0; 0] | CompHere => [4; 0; 0; 0]
  | CompName raw _ => [5; zlen raw; 0; 0] ++ raw
  end.
Definition comps_bytes (cs : list udf_comp) : list Z := concat (map comp_bytes cs).
Definition comp_ok (c : udf_comp) : Prop :=
  match c with CompName raw nm => zlen raw ≤ 255 ∧ nm ≠ [] ∧ udf_decode_cs0 raw (zlen raw) 256 = Ret nm | _ => True end.
(** A path with one more name. *)
Definition joined (out nm : list Z) : list Z := if bool_decide (out = []) || bool_decide (last out = Some 47) then out ++ nm else out ++ [47] ++ nm.
Definition comp_text (out : list Z) (c : udf_comp) : list Z :=
  match c with CompRoot => [47] | CompParent => joined out [46; 46] | CompHere => out | CompName _ nm => joined out nm end.
Definition path_text (cs : list udf_comp) : list Z := fold_left comp_text cs [].

Lemma append_joined out nm bs : zlen (joined out nm) < bs → append_component out nm bs = Some (joined out nm).
Proof.
  unfold append_component, joined. intros Hl. assert (He : (0 <? zlen out) = negb (bool_decide (out = []))).
  { destruct out as [|x out]; [done|]. rewrite bool_decide_false by done. apply Z.ltb_lt. simpl. lia. }
  rewrite He. destruct (bool_decide (out = [])); cbn [negb andb orb] in *.
  - rewrite length_app in Hl. rewrite (proj2 (Z.leb_gt _ _)) by lia. done.
  - destruct (bool_decide (last out = Some 47)); cbn [negb andb] in *; rewrite !length_app in Hl.
    + rewrite (proj2 (Z.leb_gt _ _)) by lia. done.
    + simpl in Hl. rewrite (proj2 (Z.leb_gt _ _)) by lia. rewrite length_app. simpl. rewrite (proj2 (Z.leb_gt _ _)) by lia. by rewrite <- app_assoc.
Qed.
Lemma decode_cs0_prefix raw rest n : udf_decode_cs0 (raw ++ rest) (zlen raw) n = udf_decode_cs0 raw (zlen raw) n.
Proof.
  unfold udf_decode_cs0. case_test; [done|]. apply orb_false_iff in E as [E _]. b2p. unfold cs0_bytes. rewrite rd_app_l by lia.
  assert (Hr : ∀ k, 1 + k ≤ zlen raw → rd_range (raw ++ rest) 1 k = rd_range raw 1 k).
  { intros k Hk. unfold rd_range. rewrite length_app. destruct (0 <=? k) eqn:E0; [|by rewrite !andb_false_r]. b2p.
    rewrite (proj2 (Z.leb_le (1 + k) (zlen raw))), (proj2 (Z.leb_le (1 + k) _)) by lia. by rewrite slice_app_l by lia. }
  destruct (rd raw 0) as [b| |]; [|done..]. cbn [mbind outcome_bind]. destruct (b =? 16); [by rewrite Hr by lia|]. rewrite Hr; [done|]. case_test; b2p; lia.
Qed.

Section loop.
Context (bs : Z).
Lemma component_loop_run cs : ∀ n pre out, Forall comp_ok cs → (length (comps_bytes cs) ≤ n)%nat →
  (∀ a b, cs = a ++ b → a ≠ [] → zlen (fold_left comp_text a out) < bs) →
  component_loop n (pre ++ comps_bytes cs) (zlen pre) bs out = Ret (ODFS_OK, fold_left comp_text cs out).
Proof.
  induction cs as [|c cs IH]; intros n pre out Hok Hn Hfit.
  { unfold comps_bytes. cbn [map concat]. rewrite app_nil_r. destruct n; cbn [component_loop]; by rewrite (proj2 (Z.leb_gt _ _)) by lia. }
  apply Forall_cons in Hok as [Hc Hok]. unfold comps_bytes in *. cbn [map concat] in *.
  assert (H4 : 4 ≤ zlen (comp_bytes c)) by (destruct c; cbn [comp_bytes app length]; lia). rewrite length_app in Hn.
  destruct n as [|n]; [lia|]. cbn [component_loop]. rewrite (proj2 (Z.leb_le _ _)) by (rewrite !length_app; lia). cbn [negb].
  assert (Hnext : ∀ out', (∀ a b, cs = a ++ b → a ≠ [] → zlen (fold_left comp_text a out') < bs) →
    component_loop n (pre ++ comp_bytes c ++ concat (map comp_bytes cs)) (zlen pre + zlen (comp_bytes c)) bs out' = Ret (ODFS_OK, fold_left comp_text cs out')).
  { intros out' Hf. rewrite app_assoc. replace (zlen pre + zlen (comp_bytes c)) with (zlen (pre ++ comp_bytes c)) by (rewrite length_app; lia). apply IH; [done|lia|done]. }
  pose proof (Hfit [c] cs eq_refl ltac:(done)) as Hc1. cbn [fold_left] in Hc1.
  assert (Hf : ∀ a b, cs = a ++ b → a ≠ [] → zlen (fold_left comp_text a (comp_text out c)) < bs) by (intros a b -> Ha; by apply (Hfit (c :: a) b)).
  replace (zlen pre) with (zlen pre + 0) at 1 by lia. rewrite !rd_app_r by lia.
  destruct c as [| | |raw nm]; cbn [comp_bytes app] in *; cbn [comp_text] in *; unfold rd at 1 2; cbn [zget]; cbn [mbind outcome_bind].
  1-3: change (zget _ 1) with (Some 0); change (zget (?x :: _) 0) with (Some x); cbv iota; cbn [mbind outcome_bind];
    rewrite (proj2 (Z.ltb_ge _ _)) by (rewrite length_app; cbn [length]; lia); change (zlen [_; 0; 0; 0]) with 4 in Hnext; rewrite Z.add_0_r.
  - change ((2 =? 1) || (2 =? 2)) with true. cbv iota. change (zlen [47]) with 1 in Hc1. rewrite (proj2 (Z.leb_gt _ _)) by lia. by apply Hnext.
  - change ((3 =? 1) || (3 =? 2)) with false. cbv iota. change (3 =? 3) with true. cbv iota. rewrite append_joined by done. by apply Hnext.
  - change ((4 =? 1) || (4 =? 2)) with false. change (4 =? 3) with false. change (4 =? 5) with false. cbv iota. by apply Hnext.
  - destruct Hc as (Hr & Hne & Hd). change (zget (5 :: ?r) 0) with (Some 5). change (zget (5 :: ?a :: _) 1) with (Some a). cbv iota. cbn [mbind outcome_bind].
    rewrite (proj2 (Z.ltb_ge _ _)) by (rewrite !length_app; cbn [length]; rewrite length_app; lia).
    change ((5 =? 1) || (5 =? 2)) with false. change (5 =? 3) with false. change (5 =? 5) with true. cbv iota.
    assert (Hm : mem_at (pre ++ 5 :: zlen raw :: 0 :: 0 :: raw ++ concat (map comp_bytes cs)) (zlen pre + 4) = raw ++ concat (map comp_bytes cs)).
    { unfold mem_at. rewrite (proj2 (Z.leb_le _ _)) by (rewrite !length_app; cbn [length]; rewrite length_app; lia).
      rewrite drop_app_ge by lia. replace (Z.to_nat (zlen pre + 4) - length pre)%nat with 4%nat by lia. done. }
    rewrite Hm, decode_cs0_prefix, Hd. cbn [mbind outcome_bind]. rewrite bool_decide_false by done. rewrite append_joined by done.
    replace (zlen pre + 4 + zlen raw) with (zlen pre + zlen (5 :: zlen raw :: 0 :: 0 :: raw)) by (cbn [length]; lia). by apply Hnext.
Qed.
(** The components give the path they spell. *)
Lemma link_target_comps cs : Forall comp_ok cs → (∀ a b, cs = a ++ b → zlen (path_text a) < bs) → path_text cs ≠ [] →
  link_target (comps_bytes cs) bs = Ret (ODFS_OK, Some (path_text cs)).
Proof.
  intros Hok Hfit Hne. unfold link_target.
  assert (Hraw : (if 0 <? zlen (comps_bytes cs) then b ← rd (comps_bytes cs) 0; Ret (5 <? b) else Ret false) = Ret false).
  { destruct cs as [|c cs]; [done|]. rewrite (proj2 (Z.ltb_lt _ _)) by (unfold comps_bytes; cbn [map concat]; rewrite length_app; destruct c; cbn [comp_bytes app length]; lia).
    by destruct c. }
  rewrite Hraw. cbn [mbind outcome_bind].
  pose proof (component_loop_run cs (length (comps_bytes cs)) [] [] Hok ltac:(lia) ltac:(intros a b H _; by apply (Hfit a b))) as Hrun.
  cbn [app length] in Hrun. change (Z.of_nat 0) with 0 in Hrun. rewrite Hrun. cbn [mbind outcome_bind]. change (negb (err_ok ODFS_OK)) with false. cbv iota.
  by rewrite bool_decide_false by done.
Qed.
End loop.

(** ** On a disc *)
Section disc.
Context {C : Type} {HO : CacheOps C} (img : Z → list Z) (inv ok : C → Prop) (ptr : C → Z → Prop) (readable : Z → Prop) (spans : Z → Z → Prop).
Context {HL : CacheLaws C img 2048 inv ok ptr} {HR : CacheReadable C ok readable} {HB : CacheReadsBytes C ok 2048 spans}.
Context (Hbytes : ∀ l, Forall is_byte (img l)) (ctx0 : udf_context) (malloc : nat → Z → bool) (alloc : Z → bool) (Halloc : ∀ x, alloc x = true).

(** The link [nm] of a directory is read through: looked up, read and decoded. *)
Lemma udf_readlink_run ctx c dir L nm n d cs bs : ok c → same_udf ctx0 ctx →
  lists_as img readable spans ctx0 malloc (lba (extent dir)) L → is_name nm → listed (map face (nodes L)) nm = Some n → kind n = ODFS_NODE_SYMLINK →
  object_at img ctx0 readable spans (lba (extent n)) d → data_bytes img ctx0 d = comps_bytes cs → size n = zlen (comps_bytes cs) → zlen (comps_bytes cs) ≤ 512 →
  Forall comp_ok cs → (∀ a b, cs = a ++ b → zlen (path_text a) < bs) → path_text cs ≠ [] →
  ∃ ctx' c', udf_readlink malloc alloc ctx c dir nm bs = Ret (ODFS_OK, Some (path_text cs), ctx', c') ∧ ok c' ∧ same_udf ctx ctx'.
Proof using Halloc Hbytes HR HL HB.
  intros Hok Hs HLs Hnm Hn Hk Hd Hdata Hsz H512 Hcs Hfit Hne. unfold udf_readlink.
  destruct (udf_lookup_run img inv ok ptr readable spans Hbytes ctx0 malloc alloc Halloc dir L HLs ctx c nm Hok Hs Hnm) as (err & out & ctx' & c1 & -> & Hok1 & Hs1 & Hf & ->).
  rewrite Hn in Hf. apply fmap_Some in Hf as (m & -> & ->). cbn [mbind outcome_bind]. change (negb (err_ok ODFS_OK)) with false. cbv iota.
  change (kind (face m)) with (kind m) in Hk. change (size (face m)) with (size m) in Hsz. change (lba (extent (face m))) with (lba (extent m)) in Hd.
  rewrite bool_decide_true by done. cbn [negb]. rewrite Hsz. assert (Hpos : 0 < zlen (comps_bytes cs)).
  { destruct cs as [|x cs]; [done|]. unfold comps_bytes. cbn [map concat]. rewrite length_app. destruct x; cbn [comp_bytes app length]; lia. }
  rewrite (proj2 (Z.eqb_neq _ _)), (proj2 (Z.ltb_ge _ _)) by lia. cbn [orb]. unfold udf_read.
  apply (object_at_same img _ ctx') in Hd; [|by eapply same_udf_trans].
  destruct (read_object_exact img inv ok ptr readable spans Hbytes ctx' _ d c1 0 (replicate 512 0) (zlen (comps_bytes cs)) Hd Hok1) as (c2 & Hok2 & ->); [lia|rewrite length_replicate; lia|lia|].
  rewrite (data_bytes_same img ctx0 ctx'), Hdata by (by eapply same_udf_trans). rewrite slice_all by done. cbn [mbind outcome_bind].
  change (negb (err_ok ODFS_OK)) with false. cbv iota. rewrite Nat2Z.id, take_app_length. rewrite link_target_comps by done. cbn [mbind outcome_bind]. by exists ctx', c2.
Qed.
End disc.

(** * Parents on UDF

    A directory names its parent in an identifier of its own; the node of the parent is
    looked for in the directory that is the parent's parent. *)

Section parents.
Context {C : Type} {HO : CacheOps C} (img : Z → list Z) (inv ok : C → Prop) (ptr : C → Z → Prop) (readable : Z → Prop) (spans : Z → Z → Prop).
Context {HL : CacheLaws C img 2048 inv ok ptr} {HR : CacheReadable C ok readable} {HB : CacheReadsBytes C ok 2048 spans}.
Context (Hbytes : ∀ l, Forall is_byte (img l)) (ctx0 : udf_context) (malloc : nat → Z → bool) (alloc : Z → bool) (Halloc : ∀ x, alloc x = true).
Abbreviation lists_as := (lists_as img readable spans ctx0 malloc).
Abbreviation root_lba := (lba (extent (root ctx0))).

(** The identifier of the parent. *)
Definition is_parent (f : udf_fid_info) : bool := (Z.land (fid_flags f) UDF_FID_FLAG_DELETED =? 0) && negb (Z.land (fid_flags f) UDF_FID_FLAG_PARENT =? 0).
(** The directory in the sector [d] says that it is in [p]. *)
Definition udf_is_in (d p : Z) : Prop :=
  ∃ D fs f, udf_directory img readable spans ctx0 d D ∧ dir_fids D = Ret fs ∧ List.find is_parent fs = Some f ∧ p = udf_phys_lba ctx0 (fid_icb_lba f).
(** The directory [d] as the directory it is in lists it. *)
Definition udf_shown_as (d : Z) (n : odfs_node) : Prop := ∃ p L, udf_is_in d p ∧ lists_as p L ∧ by_number (map face (nodes L)) d = Some n.

Lemma read_parent_run ctx c dir p : same_udf ctx0 ctx → ok c → udf_is_in (lba (extent dir)) p →
  ∃ c', udf_read_parent_icb ctx c dir = Ret (ODFS_OK, p, c') ∧ ok c'.
Proof using Hbytes HR HL HB.
  intros Hs Hok (D & fs & f & Hd & Hfs & Hf & ->). unfold udf_read_parent_icb.
  destruct (walk_fids_rule img inv ok ptr readable spans Hbytes ctx0 udf_parent_fid dir D Hd
    (λ fs _ s, s = None ∧ List.find is_parent fs = Some f) (λ _ _ s, s = Some (udf_phys_lba ctx0 (fid_icb_lba f)))) with (fs := fs) (ctx := ctx) (c := c) (s := @None Z)
    as (err & ctx' & c' & s' & -> & Hok' & _ & ->); [by intros ? ? [_ ?]| |done|done|done|done|by exists c'].
  intros g gs ctx1 c1 s [-> Hg] Hs1 Hok1. unfold udf_parent_fid. cbn [List.find] in Hg. fold (is_parent g). destruct (is_parent g).
  - injection Hg as ->. eexists ODFS_ERR_EOF, ctx1, c1, _. split_and!; [done..|apply same_udf_refl|]. change (err_ok ODFS_ERR_EOF) with false. cbv iota. by destruct Hs1 as [k ->].
  - exists ODFS_OK, ctx1, c1, None. split_and!; [done..|apply same_udf_refl|]. by change (err_ok ODFS_OK) with true.
Qed.
Lemma udf_find_child_run ctx c dir d L n : same_udf ctx0 ctx → ok c → lists_as (lba (extent dir)) L → by_number (map face (nodes L)) d = Some n →
  ∃ m ctx' c', udf_find_child_by_icb malloc alloc ctx c dir d = Ret (ODFS_OK, Some m, ctx', c') ∧ ok c' ∧ same_udf ctx ctx' ∧ face m = n.
Proof using Halloc Hbytes HR HL HB.
  intros Hs Hok HLs Hn.
  destruct (find_walk img inv ok ptr readable spans Hbytes ctx0 malloc alloc Halloc dir L HLs (λ n, bool_decide (kind n = ODFS_NODE_DIR) && (lba (extent n) =? d))
    (udf_child_icb_entry d) ctx c Hok Hs) as (N & ctx' & c' & sz & HN & Hok' & Hs' & Hw).
  { intros f nm o i ctx1 c1 s Hok1 Hs1 Hr Ho. unfold udf_child_icb_entry, find_step. cbn [de_node de_flags de_icb_lba].
    assert (Hp : udf_phys_lba ctx1 (fid_icb_lba f) = udf_phys_lba ctx0 (fid_icb_lba f)) by (by destruct Hs1 as [k ->]). rewrite Hp.
    assert (Hl : ∀ m, o = Some m → lba (extent m) = udf_phys_lba ctx0 (fid_icb_lba f)).
    { intros m ->. unfold fid_object in Ho. apply bind_Ret in Ho as ([e ic] & _ & Ho). destruct (err_ok e); [by injection Ho as <-|done]. }
    destruct (udf_phys_lba ctx0 (fid_icb_lba f) =? d) eqn:Ed; cbn [negb].
    - destruct (fill_node_run img inv ok ptr readable ctx0 ctx1 c1 f nm i (id dir) o Hs1 Hok1 Hr Ho) as (err & m & c2 & Hok2 & -> & He). cbn [mbind outcome_bind].
      exists c2. split; [done|]. destruct (err_ok err); cbn [negb orb]; [|by rewrite He]. destruct He as (m' & -> & ->). change (lba (extent (numbered i (id dir) m'))) with (lba (extent m')).
      rewrite (Hl m' eq_refl), Ed, andb_true_r. by destruct (bool_decide _).
    - exists c1. split; [done|]. destruct o as [m|]; [|done]. change (lba (extent (numbered i (id dir) m))) with (lba (extent m)). by rewrite (Hl m eq_refl), Ed, andb_false_r. }
  unfold udf_find_child_by_icb. rewrite Hw. cbn [mbind outcome_bind]. fold (by_number N d).
  rewrite <- (renumbered_face _ _ _ HN), <- by_number_face in Hn. apply fmap_Some in Hn as (m & -> & ->). by exists m, ctx', c'.
Qed.
Lemma dir_at_lba ctx p : same_udf ctx0 ctx → lba (extent (udf_dir_at ctx p)) = p.
Proof. intros [k ->]. unfold udf_dir_at. case_test; b2p; [by subst p|done]. Qed.
(** A directory below the root, through what it and its parent say. *)
Lemma udf_find_shown ctx c d p n : same_udf ctx0 ctx → ok c → udf_is_in d p → udf_shown_as d n → (∀ p', udf_is_in d p' → p' = p) →
  ∃ m ctx' c', udf_find_child_by_icb malloc alloc ctx c (udf_dir_at ctx p) d = Ret (ODFS_OK, Some m, ctx', c') ∧ ok c' ∧ same_udf ctx ctx' ∧ face m = n.
Proof using Halloc Hbytes HR HL HB.
  intros Hs Hok Hp (p' & L & Hp' & HLs & Hn) Hu. rewrite (Hu _ Hp') in HLs. eapply udf_find_child_run; try done. by rewrite dir_at_lba.
Qed.
Lemma is_in_unique d p p' : udf_is_in d p → udf_is_in d p' → p' = p.
Proof.
  intros (D & fs & f & (o & icb & (_ & _ & Ho & _) & HD & _) & Hfs & Hf & ->) (D' & fs' & f' & (o' & icb' & (_ & _ & Ho' & _) & HD' & _) & Hfs' & Hf' & ->).
  rewrite Ho in Ho'. injection Ho' as <-. rewrite HD in HD'. subst D'. rewrite Hfs in Hfs'. injection Hfs' as <-. rewrite Hf in Hf'. by injection Hf' as <-.
Qed.

(** The parent and the grandparent of a directory that is not the root. *)
Lemma udf_resolve_parent_run ctx c dir want_gp p n g gn : same_udf ctx0 ctx → ok c → kind dir = ODFS_NODE_DIR → lba (extent dir) ≠ root_lba →
  udf_is_in (lba (extent dir)) p → p ≠ lba (extent dir) →
  (if p =? root_lba then n = face (root ctx0) ∧ gn = face (root ctx0)
   else udf_is_in p g ∧ udf_shown_as p n ∧ if g =? root_lba then gn = face (root ctx0) else udf_shown_as g gn) →
  ∃ pn gpn ctx' c', udf_resolve_parent malloc alloc ctx c dir want_gp = Ret (ODFS_OK, Some pn, gpn, ctx', c') ∧ ok c' ∧ same_udf ctx ctx' ∧
    face pn = n ∧ face <$> gpn = if want_gp then Some gn else None.
Proof using Halloc Hbytes HR HL HB.
  intros Hs Hok Hk Hnr Hp Hself Hrest. assert (Hr : ∀ ctx', same_udf ctx0 ctx' → root ctx' = root ctx0) by (by intros ? [k ->]).
  unfold udf_resolve_parent. rewrite bool_decide_true by done. cbn [negb]. rewrite (Hr ctx Hs), (proj2 (Z.eqb_neq _ _)) by done.
  destruct (read_parent_run ctx c dir p Hs Hok Hp) as (c1 & -> & Hok1). cbn [mbind outcome_bind]. change (negb (err_ok ODFS_OK)) with false. cbv iota.
  rewrite (proj2 (Z.eqb_neq p _)) by done. destruct (p =? root_lba).
  { destruct Hrest as [-> ->]. eexists _, _, ctx, c1. split_and!; [done..|apply same_udf_refl|done|by destruct want_gp]. }
  destruct Hrest as (Hg & Hn & Hgn). destruct (read_parent_run ctx c1 (udf_dir_stub p) g Hs Hok1 Hg) as (c2 & -> & Hok2). cbn [mbind outcome_bind].
  change (negb (err_ok ODFS_OK)) with false. cbv iota.
  destruct (udf_find_shown ctx c2 p g n Hs Hok2 Hg Hn (λ p', is_in_unique p g p' Hg)) as (m & ctx1 & c3 & -> & Hok3 & Hs1 & Hm). cbn [mbind outcome_bind].
  change (negb (err_ok ODFS_OK)) with false. cbn [orb]. destruct want_gp; cbn [negb]; [|by exists m, None, ctx1, c3].
  assert (Hs01 : same_udf ctx0 ctx1) by (by eapply same_udf_trans). rewrite (Hr ctx1 Hs01). destruct (g =? root_lba).
  { exists m, (Some (root ctx0)), ctx1, c3. split_and!; [done..|by rewrite Hgn]. }
  pose proof Hgn as (gg & _ & Hgg & _). destruct (read_parent_run ctx1 c3 (udf_dir_stub g) gg Hs01 Hok3 Hgg) as (c4 & -> & Hok4). cbn [mbind outcome_bind].
  change (negb (err_ok ODFS_OK)) with false. cbv iota.
  destruct (udf_find_shown ctx1 c4 g gg gn Hs01 Hok4 Hgg Hgn (λ p', is_in_unique g gg p' Hgg)) as (gm & ctx2 & c5 & -> & Hok5 & Hs2 & Hgm). cbn [mbind outcome_bind].
  exists m, (Some gm), ctx2, c5. split_and!; [done..|by eapply same_udf_trans|done|]. simpl. by rewrite Hgm.
Qed.
End parents.
