(* ===== verification/UdfBackend.v ===== *)
(** * The UDF reader as a backend

    The operation table of [backends/udf/udf.c], and that it keeps the promises of
    [Reader]: probing and mounting leave the cache in order, enumeration and lookup are
    those of [udf_listing]. *)
From stdpp Require Import gmap.
From S2P Require Import Prelude Types Strings Namefix Media BlockCache BlockCacheSpec CacheApi Backend MetaCache MetaCacheProofs MetaCacheSpec.
From S2P Require Import Mount MountSpec AncestrySpec IsoListing Reader HfsBackend Udf UdfObjects UdfListing UdfReaddir.
Open Scope Z_scope.

(** [nf_malloc] is for the table of names of an enumeration, [alloc start] says whether
    there is memory for the identifier at [start]. *)
Definition udf_reader {C} {HO : CacheOps C} (nf_malloc : nat → Z → bool) (alloc : Z → bool) : reader C udf_context :=
  mk_reader udf_probe udf_mount (λ T cb ctx c dir t r, udf_readdir nf_malloc alloc cb ctx c dir t r) udf_read (udf_lookup nf_malloc alloc)
    (Some (udf_readlink nf_malloc alloc)) (udf_resolve_parent nf_malloc alloc) udf_get_volume_name udf_get_volume_size.

Section ops.
Context {M K : Type} (mops : odfs_media_ops M) (put : udf_context → K) (get : K → option udf_context) (calloc : gmap Z K → Z).
Context (nf_malloc : nat → Z → bool) (alloc : Z → bool).
(* [src: backends/udf/udf.c:351-354 udf_unmount] *)
Definition udf_unmount : world M (gmap Z K) → Z → outcome (world M (gmap Z K)) := free_context.
(* [src: backends/udf/udf.c:1358-1371 udf_backend_ops] *)
Definition udf_backend_ops : odfs_backend_ops (world M (gmap Z K)) :=
  reader_ops put get calloc (udf_reader (HO := block_cache_ops mops) nf_malloc alloc) ODFS_BACKEND_UDF 0 udf_unmount.
(** The table of [core/mount.c] with it, and [others] for the rest. *)
Definition udf_backends (others : Z → odfs_backend_ops (world M (gmap Z K))) (p : Z) : odfs_backend_ops (world M (gmap Z K)) :=
  if p =? 3 then udf_backend_ops else others p.
End ops.

(** ** The cache stays in order *)
Section keeps.
Context {C : Type} {HO : CacheOps C} (img : Z → list Z) (inv ok : C → Prop) (ptr : C → Z → Prop).
Context {HL : CacheLaws C img 2048 inv ok ptr} {HF : CacheCleanFailure C ok ptr} (Hbytes : ∀ l, Forall is_byte (img l)).
Abbreviation read_kept := (read_keeps img inv ok ptr).

Lemma read_shows c l err p c' : ok c → is_u32 l → bc_read c l = (err, p, c') → ok c' ∧ (err_ok err = true → bc_data c' p = img l).
Proof.
  intros Hok Hl Hr. split; [by eapply read_kept|]. intros ->%err_ok_true. by destruct (cl_read_ok c l p c' Hok Hl Hr) as (_ & _ & ? & _).
Qed.
Lemma udf_probe_keeps c s : ok c → after (udf_probe c s) (λ '(_, c'), ok c').
Proof.
  intros Hok. unfold udf_probe. destruct (bc_read c _) as [[err p] c1] eqn:Hr. pose proof (read_kept _ _ _ _ _ Hok (u32_range _) Hr) as Hok1.
  case_test; [by apply after_ret|]. eapply after_bind; [apply after_any|]. intros b _. by apply after_ret.
Qed.
Lemma scan_vds_keeps n : ∀ c l st, ok c → is_u32 l → after (scan_vds n c l st) (λ '(_, c'), ok c').
Proof.
  induction n as [|n IH]; intros c l st Hok Hl; cbn [scan_vds]; [by apply after_ret|].
  destruct (bc_read c l) as [[err p] c1] eqn:Hr. pose proof (read_kept _ _ _ _ _ Hok Hl Hr) as Hok1. case_test; [by apply IH, u32_range|].
  eapply after_bind; [apply after_any|]. intros [st'|] _; [by apply IH, u32_range|by apply after_ret].
Qed.
(** The root of a mounted volume is in its context, and is a directory. *)
Definition udf_mounted (r : odfs_node) (ctx : udf_context) : Prop := root ctx = r ∧ kind r = ODFS_NODE_DIR.
Lemma udf_mount_keeps a c s : ok c → after (udf_mount a c s) (λ '(err, r, c'), ok c' ∧
  match r with Some (root, ctx) => err = ODFS_OK ∧ a = true ∧ udf_mounted root ctx | None => err ≠ ODFS_OK end).
Proof.
  intros Hok. unfold udf_mount. destruct a; cbn [negb]; [|by apply after_ret].
  destruct (bc_read c _) as [[err p] c1] eqn:Hr. destruct (read_shows _ _ _ _ _ Hok (u32_range _) Hr) as [Hok1 Hd]. clear Hr.
  case_test; [apply after_ret; split; [done|]; by apply err_ok_false, negb_true_iff|]. apply negb_false_iff in E. rewrite (Hd E). clear Hd.
  eapply after_bind; [apply after_any|]. intros avdp _. case_test; [by apply after_ret|].
  eapply after_bind; [apply (udf_le32_after _ 20), Hbytes|]. intros vl Hvl. eapply after_bind; [apply after_any|]. intros vn _.
  eapply after_bind; [by apply scan_vds_keeps|]. intros [[[ctx pd] fsd] c2] Hok2. destruct fsd as [fsd|]; [|by apply after_ret]. case_test; [by apply after_ret|].
  destruct (bc_read c2 _) as [[err2 p2] c3] eqn:Hr. pose proof (read_kept _ _ _ _ _ Hok2 (u32_range _) Hr) as Hok3. clear Hr.
  case_test; [apply after_ret; split; [done|]; by apply err_ok_false, negb_true_iff|].
  eapply after_bind; [apply after_any|]. intros b _. case_test; [by apply after_ret|].
  do 2 (eapply after_bind; [apply after_any|]; intros ? _). cbv zeta.
  destruct (bc_read c3 _) as [[err4 p4] c4] eqn:Hr. pose proof (read_kept _ _ _ _ _ Hok3 (u32_range _) Hr) as Hok4. clear Hr.
  case_test; [apply after_ret; split; [done|]; by apply err_ok_false, negb_true_iff|].
  eapply after_bind; [apply after_any|]. intros b4 _. case_test; [by apply after_ret|].
  eapply after_bind; [apply after_any|]. intros [tag ?] _. do 2 (eapply after_bind; [apply after_any|]; intros ? _). apply after_ret. by split_and!.
Qed.
End keeps.

(** ** The promises *)
Section laws.
Context {C : Type} {HO : CacheOps C} (img : Z → list Z) (inv ok : C → Prop) (ptr : C → Z → Prop) (readable : Z → Prop) (spans : Z → Z → Prop).
Context {HL : CacheLaws C img 2048 inv ok ptr} (Hbytes : ∀ l, Forall is_byte (img l)).
Context (nf_malloc : nat → Z → bool) (alloc : Z → bool).

Lemma udf_laws {HF : CacheCleanFailure C ok ptr} : ReaderLaws (udf_reader nf_malloc alloc) ok udf_mounted same_udf.
Proof.
  split.
  - intros c s Hok Hs. by apply (udf_probe_keeps img inv ok ptr).
  - intros a c s Hok Hs. by apply (udf_mount_keeps img inv ok ptr).
  - apply same_udf_refl.
  - apply same_udf_trans.
  - intros r a b [k ->] [H1 H2]. done.
Qed.

Context {HR : CacheReadable C ok readable} {HB : CacheReadsBytes C ok 2048 spans} (Halloc : ∀ x, alloc x = true) (ctx0 : udf_context).
Definition udf_listable (dir : odfs_node) : Prop := ∃ L, lists_as img readable spans ctx0 nf_malloc (lba (extent dir)) L.
Definition udf_entries_of (l : Z) : list udf_listed := match udf_listing img ctx0 nf_malloc l with Ret L => L | _ => [] end.
Definition udf_faces (l _ : Z) (_ : odfs_backend_type) : list odfs_node := map face (nodes (udf_entries_of l)).
(** An offset is where the identifier of the next entry begins, or before that. *)
Definition udf_stands (k : Z * Z * odfs_backend_type) (c : Z) (i : nat) : Prop := 0 ≤ c < 2 ^ 31 ∧ i = before c (udf_entries_of k.1.1).
Lemma entries_of_facts l : ∃ hi, listed_from hi 0 (udf_entries_of l) ∧ Forall node_wf (nodes (udf_entries_of l)).
Proof using Hbytes.
  unfold udf_entries_of. destruct (udf_listing img ctx0 nf_malloc l) as [L| |] eqn:E; [by eapply listing_facts|exists 0; by split..].
Qed.
Lemma lists_as_of l L : lists_as img readable spans ctx0 nf_malloc l L → udf_entries_of l = L.
Proof. intros H%lists_as_listing. unfold udf_entries_of. by rewrite H. Qed.

Lemma udf_lists : ReaderLists (udf_reader nf_malloc alloc) ok same_udf ctx0 udf_listable udf_faces udf_stands.
Proof using Hbytes HR HL HB Halloc.
  split.
  - intros T cb ctx c dir t r0 i Hok Hs [L HLs] [Hc ->].
    destruct (udf_readdir_run img inv ok ptr readable spans Hbytes ctx0 nf_malloc alloc Halloc dir L HLs cb ctx c t r0 Hok Hs) as (N & c1 & ctx' & c' & HN & Hr & Hok' & Hs' & Hc1 & Hb).
    unfold udf_stands, udf_faces. cbn [node_key fst snd]. rewrite (lists_as_of _ _ HLs). exists N, c1, ctx', c'.
    split; [exact Hr|]. split; [done|]. split; [done|]. split; [by apply renumbered_face in HN|]. split.
    { eapply renumbered_wf; [exact HN|]. destruct (entries_of_facts (lba (extent dir))) as (hi & _ & Hwf). by rewrite (lists_as_of _ _ HLs) in Hwf. }
    split; [done|]. pose proof (delivered_le cb (drop (before (default 0 r0) L) N) t). lia.
  - intros ctx c dir nm Hok Hs [L HLs] Hnm. unfold udf_faces. rewrite (lists_as_of _ _ HLs).
    by apply (udf_lookup_run img inv ok ptr readable spans Hbytes ctx0 nf_malloc alloc Halloc).
  - intros k. split; [lia|]. destruct (entries_of_facts k.1.1) as (hi & Hf & _). symmetry. by eapply before_none.
  - intros k c i [Hc ->]. split; [lia|]. split; [by apply untagged|]. intros ->. destruct (entries_of_facts k.1.1) as (hi & Hf & _). by eapply before_none.
Qed.
End laws.
