(* ===== verification/UdfTotal.v ===== *)
(** * UDF operations always end

    Whatever the disc holds and the cache answers: every allocation descriptor takes
    eight bytes of its run, a chain of runs is cut off, every file identifier takes 38
    bytes of the directory, every component of a link four bytes of it. *)
From S2P Require Import Prelude Types Strings Namefix Media CacheApi Charset Udf UdfObjects UdfListing UdfReaddir.
Open Scope Z_scope.

(** [lands m (λ _, True)]: [m] does not diverge. *)
Abbreviation halts m := (lands m (λ _, True)).
Lemma halts_seq {A B} (m : outcome A) (k : A → outcome B) : halts m → (∀ a, halts (k a)) → halts (m ≫= k).
Proof. intros Hm Hk. eapply lands_bind; [exact Hm|]. intros a _ _. apply Hk. Qed.
Create HintDb halting.
Ltac halting_step :=
  match goal with
  | |- lands (Ret _) _ => apply lands_ret; exact I
  | |- lands Fault _ => exact I
  | |- lands (?m ≫= ?k) _ => apply (halts_seq m k); [|intros ?]
  | |- lands (?f <$> ?m) _ => apply (halts_seq m (λ a, Ret (f a))); [|intros ?]
  | |- lands (if ?b then _ else _) _ => destruct b
  | |- lands (let _ := _ in _) _ => cbv zeta
  | |- lands (match ?x with _ => _ end) _ => destruct x
  | |- _ => solve [eauto with halting]
  end.
Ltac halting := repeat halting_step.
Lemma rd_halts p pos : halts (rd p pos).
Proof. unfold rd. by destruct (zget p pos). Qed.
Lemma rd_range_halts p pos n : halts (rd_range p pos n).
Proof. unfold rd_range. by case_test. Qed.
Lemma wr_range_halts p pos s : halts (wr_range p pos s).
Proof. unfold wr_range. by case_test. Qed.
#[export] Hint Resolve rd_halts rd_range_halts wr_range_halts : halting.
Lemma udf_le16_halts p pos : halts (udf_le16 p pos).
Proof. unfold udf_le16. halting. Qed.
Lemma udf_le32_halts p pos : halts (udf_le32 p pos).
Proof. unfold udf_le32. halting. Qed.
#[export] Hint Resolve udf_le16_halts udf_le32_halts : halting.
Lemma udf_le64_halts p pos : halts (udf_le64 p pos).
Proof. unfold udf_le64. halting. Qed.
Lemma udf_read_tag_halts p : halts (udf_read_tag p).
Proof. unfold udf_read_tag. halting. Qed.
Lemma udf_parse_timestamp_halts p pos : halts (udf_parse_timestamp p pos).
Proof. unfold udf_parse_timestamp. halting. Qed.
Lemma cs0_bytes_halts s l d : halts (cs0_bytes s l d).
Proof. unfold cs0_bytes. halting. Qed.
#[export] Hint Resolve udf_le64_halts udf_read_tag_halts udf_parse_timestamp_halts cs0_bytes_halts : halting.
Lemma is_tag_halts ids p : halts (is_tag ids p).
Proof. unfold is_tag. halting. Qed.
Lemma udf_decode_dstring_halts s l d : halts (udf_decode_dstring s l d).
Proof. unfold udf_decode_dstring. halting. Qed.
Lemma udf_decode_cs0_halts s l d : halts (udf_decode_cs0 s l d).
Proof. unfold udf_decode_cs0. halting. Qed.
Lemma entry_fields_halts s b o : halts (entry_fields s b o).
Proof. unfold entry_fields. halting. Qed.
#[export] Hint Resolve is_tag_halts udf_decode_dstring_halts udf_decode_cs0_halts entry_fields_halts : halting.
Lemma file_entry_halts bs s : halts (file_entry bs s).
Proof. unfold file_entry. halting. Qed.
Lemma vds_sector_halts s st : halts (vds_sector s st).
Proof. unfold vds_sector. halting. Qed.
#[export] Hint Resolve file_entry_halts vds_sector_halts : halting.

Section total.
Context {C : Type} {HO : CacheOps C}.
Implicit Types c : C.

Lemma udf_probe_halts c s : halts (udf_probe c s).
Proof. unfold udf_probe. halting. Qed.
Lemma scan_vds_halts n : ∀ c l st, halts (scan_vds n c l st).
Proof. induction n as [|n IH]; intros c l st; cbn [scan_vds]; halting. Qed.
#[local] Hint Resolve scan_vds_halts : halting.
Lemma udf_mount_halts a c s : halts (udf_mount a c s).
Proof. unfold udf_mount. halting. Qed.
Lemma udf_read_icb_halts ctx c l : halts (udf_read_icb ctx c l).
Proof. unfold udf_read_icb, udf_read_icb_ex. halting. Qed.
#[local] Hint Resolve udf_read_icb_halts : halting.
Lemma ad_run_halts ctx ad_size run fo want n : ∀ p cur dn buf c, 8 ≤ ad_size → zlen run - p ≤ 8 * Z.of_nat n → halts (ad_run n ctx ad_size run fo want p cur dn buf c).
Proof.
  induction n as [|n IH]; intros p cur dn buf c Ha Hp; cbn [ad_run]; (case_test; [by apply lands_ret|]); (case_test; [by apply lands_ret|]); b2p; [lia|].
  assert (Hn : ∀ cur dn buf c, halts (ad_run n ctx ad_size run fo want (p + ad_size) cur dn buf c)) by (intros; apply IH; lia). clear IH. halting.
Qed.
Lemma ad_chain_halts ctx ad_size guard : 8 ≤ ad_size → ∀ run fo want cur dn buf c, halts (ad_chain guard ctx ad_size run fo want cur dn buf c).
Proof.
  intros Ha. induction guard as [|guard IH]; intros run fo want cur dn buf c; cbn [ad_chain];
    (apply halts_seq; [apply (ad_run_halts ctx ad_size run fo want (length run)); lia|intros r]); halting.
Qed.
Lemma udf_read_object_halts ctx c l fo buf want : halts (udf_read_object ctx c l fo buf want).
Proof.
  assert (Hc : ∀ (b : bool) run fo want cur dn buf c, halts (ad_chain AED_CHAIN ctx (if b then 8 else 16) run fo want cur dn buf c)) by (intros; apply ad_chain_halts; case_test; lia).
  unfold udf_read_object. halting.
Qed.
#[local] Hint Resolve udf_read_object_halts : halting.
Lemma udf_read_exact_halts ctx c l off n : halts (udf_read_exact ctx c l off n).
Proof. unfold udf_read_exact. halting. Qed.
Lemma udf_fill_node_halts ctx c f l n : halts (udf_fill_node_from_icb ctx c f l n).
Proof. unfold udf_fill_node_from_icb. halting. Qed.
Lemma udf_read_halts ctx c f o b l : halts (udf_read ctx c f o b l).
Proof. unfold udf_read. halting. Qed.
#[local] Hint Resolve udf_read_exact_halts udf_fill_node_halts udf_read_halts : halting.

(** ** Directories *)
Section walk.
Context {S : Type}.
Lemma fid_loop_halts (callback : fid_fn S) dir dir_size : (∀ f ctx c s, halts (callback f ctx c s)) → dir_size ≤ UINT32_MAX →
  ∀ n off ctx c s, 0 ≤ off → dir_size - off < HEADER * Z.of_nat n ∨ dir_size ≤ off → halts (fid_loop n callback dir dir_size off ctx c s).
Proof.
  intros Hcb Hsz. unfold HEADER, UINT32_MAX in *. induction n as [|n IH]; intros off ctx c s H0 Hn; cbn [fid_loop]; (case_test; [by apply lands_ret|]); b2p; [lia|]. cbv zeta.
  case_test; [by apply lands_ret|]. unfold HEADER in *. b2p. apply halts_seq; [eauto with halting|intros [[err header] c1]]. case_test; [by apply lands_ret|].
  apply halts_seq; [eauto with halting|intros b]. case_test; [by apply lands_ret|]. do 4 (apply halts_seq; [solve [eauto with halting]|intros ?]).
  destruct ((_ <? 38) || _) eqn:El; [by apply lands_ret|]. b2p. rewrite u32_small by (unfold is_u32; lia).
  apply halts_seq; [apply Hcb|intros [[[err2 ctx2] c2] s2]]. case_test; [by apply lands_ret|]. apply IH; lia.
Qed.
Lemma udf_walk_fids_halts (callback : fid_fn S) dir ctx c s : (∀ f ctx c s, halts (callback f ctx c s)) → halts (udf_walk_fids callback dir ctx c s).
Proof.
  intros Hcb. unfold udf_walk_fids. apply halts_seq; [eauto with halting|intros [[err icb] c1]]. case_test; [by apply lands_ret|]. case_test; [by apply lands_ret|]. b2p.
  cbv zeta. apply halts_seq; [|intros [[[e ctx1] c2] s1]; by apply lands_ret]. apply fid_loop_halts; [done..|]. left. unfold HEADER. dlia.
Qed.
End walk.
Section entries.
Context {S : Type} (nf_malloc : nat → Z → bool) (alloc : Z → bool).
Lemma udf_decode_dir_entry_halts (callback : dir_entry_fn S) dir f ctx c s : (∀ e ctx c s, halts (callback e ctx c s)) →
  halts (udf_decode_dir_entry nf_malloc alloc callback dir f ctx c s).
Proof.
  intros Hcb. unfold udf_decode_dir_entry. destruct s as [nf t]. case_test; [by apply lands_ret|].
  apply halts_seq; [case_test; halting|intros [[err data] c1]]. case_test; [by apply lands_ret|]. case_test; [by apply lands_ret|]. cbv zeta.
  case_test; [by apply lands_ret|]. apply halts_seq; [case_test; halting|intros nm]. destruct (odfs_namefix_apply _ _ _ _) as [[e nf'] nm'].
  case_test; [by apply lands_ret|]. apply halts_seq; [apply Hcb|intros [[[? ?] ?] ?]; by apply lands_ret].
Qed.
Lemma udf_walk_dir_entries_halts (callback : dir_entry_fn S) dir ctx c s : (∀ e ctx c s, halts (callback e ctx c s)) →
  halts (udf_walk_dir_entries nf_malloc alloc callback dir ctx c s).
Proof.
  intros Hcb. unfold udf_walk_dir_entries. apply halts_seq; [|intros [[[[? ?] ?] ?] ?]; by apply lands_ret].
  apply udf_walk_fids_halts. intros. by apply udf_decode_dir_entry_halts.
Qed.
End entries.

Section ops.
Context (nf_malloc : nat → Z → bool) (alloc : Z → bool).
Lemma udf_readdir_halts T (cb : odfs_node → T → odfs_err * T) ctx c dir t r : halts (udf_readdir nf_malloc alloc cb ctx c dir t r).
Proof.
  unfold udf_readdir. apply halts_seq; [apply udf_walk_dir_entries_halts|intros [[[[? ?] ?] ?] [? ?]]; halting].
  intros e ctx1 c1 [t1 r1]. unfold udf_readdir_entry. halting.
Qed.
Lemma udf_lookup_halts ctx c dir nm : halts (udf_lookup nf_malloc alloc ctx c dir nm).
Proof.
  unfold udf_lookup. apply halts_seq; [apply udf_walk_dir_entries_halts|intros [[[[? ?] ?] ?] ?]; halting].
  intros e ctx1 c1 f. unfold udf_lookup_entry. halting.
Qed.
Lemma component_loop_halts n data bs : ∀ pos out, 0 ≤ pos → Forall is_byte data → zlen data - pos ≤ 4 * Z.of_nat n → halts (component_loop n data pos bs out).
Proof.
  induction n as [|n IH]; intros pos out H0 Hd Hn; cbn [component_loop]; (case_test; [by apply lands_ret|]); b2p; [lia|].
  apply halts_seq; [apply rd_halts|intros ty]. eapply lands_bind; [apply (lands_rd is_byte), Hd|intros clen _ Hc]. unfold is_byte in Hc.
  assert (Hnext : ∀ out, halts (component_loop n data (pos + 4 + clen) bs out)) by (intros; apply IH; [lia|done|lia]). clear IH. halting.
Qed.
Lemma udf_read_parent_icb_halts ctx c dir : halts (udf_read_parent_icb ctx c dir).
Proof.
  unfold udf_read_parent_icb. apply halts_seq; [apply udf_walk_fids_halts|intros [[[[? ?] ?] ?] ?]; halting]. intros f ctx1 c1 s. unfold udf_parent_fid. halting.
Qed.
Lemma udf_find_child_halts ctx c dir l : halts (udf_find_child_by_icb nf_malloc alloc ctx c dir l).
Proof.
  unfold udf_find_child_by_icb. apply halts_seq; [apply udf_walk_dir_entries_halts|intros [[[[? ?] ?] ?] ?]; halting].
  intros e ctx1 c1 f. unfold udf_child_icb_entry. halting.
Qed.
#[local] Hint Resolve udf_read_parent_icb_halts udf_find_child_halts : halting.
Lemma udf_resolve_parent_halts ctx c dir gp : halts (udf_resolve_parent nf_malloc alloc ctx c dir gp).
Proof. unfold udf_resolve_parent. halting. Qed.

(** *** Links: the bytes read are bytes *)
Context (Hdata : ∀ c p, Forall is_byte (bc_data c p)).
Context (Hbytes : ∀ c l o buf n err buf' k c', Forall is_byte buf → bc_read_bytes c l o buf n = (err, buf', k, c') → Forall is_byte buf').
Lemma zeros_bytes n : Forall is_byte (replicate n 0).
Proof. apply Forall_replicate. unfold is_byte. lia. Qed.
Lemma rd_range_bytes buf off n : Forall is_byte buf → after (rd_range buf off n) (Forall is_byte).
Proof. intros Hb. eapply after_weaken; [apply lands_after, (lands_range is_byte), Hb|]. by intros s [_ ?]. Qed.
Lemma wr_range_bytes buf off s : Forall is_byte buf → Forall is_byte s → after (wr_range buf off s) (Forall is_byte).
Proof. intros Hb Hs s'. unfold wr_range. case_test; [|done]. intros [= <-]. by apply Forall_splice. Qed.
Lemma ad_run_bytes ctx ad_size run fo want n : ∀ p cur dn buf c, Forall is_byte buf →
  after (ad_run n ctx ad_size run fo want p cur dn buf c) (λ r, match r with AdStop _ buf _ _ => Forall is_byte buf | AdNext _ _ _ buf _ => Forall is_byte buf end).
Proof using Hbytes.
  induction n as [|n IH]; intros p cur dn buf c Hb; cbn [ad_run]; (case_test; [by apply after_ret|]); (case_test; [by apply after_ret|]); [done|].
  do 2 (eapply after_bind; [apply after_any|]; intros ? _). cbv zeta. case_test; [by apply after_ret|]. case_test; [by apply after_ret|].
  case_test; [|by apply IH]. destruct (_ =? UDF_EXT_RECORDED).
  - eapply after_bind; [by apply rd_range_bytes|]. intros piece Hp. destruct (bc_read_bytes _ _ _ _ _) as [[[err got] k] c1] eqn:Hr. apply Hbytes in Hr; [|done].
    assert (Forall is_byte (splice buf dn got)) by (by apply Forall_splice). case_test; [by apply after_ret|]. destruct (k <? _); [by apply after_ret|]. by apply IH.
  - eapply after_bind; [apply wr_range_bytes; [done|apply zeros_bytes]|]. intros buf' Hb'. by apply IH.
Qed.
Lemma ad_chain_bytes ctx ad_size guard : ∀ run fo want cur dn buf c, Forall is_byte buf →
  after (ad_chain guard ctx ad_size run fo want cur dn buf c) (λ '(_, buf, _, _), Forall is_byte buf).
Proof using Hbytes.
  induction guard as [|guard IH]; intros run fo want cur dn buf c Hb; cbn [ad_chain]; (eapply after_bind; [by apply ad_run_bytes|intros [err buf' len c1|elba cur' dn' buf' c1] Hb'; [by apply after_ret|]]);
    [by apply after_ret|]. destruct (bc_read _ _) as [[err p] c2]. case_test; [by apply after_ret|]. cbv zeta.
  eapply after_bind; [apply after_any|]; intros b _. case_test; [by apply after_ret|]. eapply after_bind; [apply after_any|]; intros alen _. case_test; [by apply after_ret|].
  eapply after_bind; [apply after_any|]; intros run' _. by apply IH.
Qed.
Lemma udf_read_object_bytes ctx c l fo buf want : Forall is_byte buf → after (udf_read_object ctx c l fo buf want) (λ '(_, buf, _, _), Forall is_byte buf).
Proof using Hbytes Hdata.
  intros Hb. unfold udf_read_object. destruct (bc_read c l) as [[err p] c1]. case_test; [by apply after_ret|]. cbv zeta.
  eapply after_bind; [apply after_any|]; intros [e|[[[[a ds] ea] al] base]] _; [by apply after_ret|]. do 4 (case_test; [by apply after_ret|]).
  generalize (if ds - fo <? want then ds - fo else want) as want'. intros want'. case_test; [by apply after_ret|].
  destruct (a =? _).
  - case_test; [by apply after_ret|]. eapply after_bind; [apply rd_range_bytes, Hdata|]. intros d Hd. eapply after_bind; [by apply wr_range_bytes|]. intros b Hb'. by apply after_ret.
  - case_test; [by apply after_ret|]. eapply after_bind; [apply after_any|]; intros run _. by apply ad_chain_bytes.
Qed.
Lemma link_target_halts data bs : Forall is_byte data → halts (link_target data bs).
Proof.
  intros Hd. unfold link_target. apply halts_seq; [halting|intros raw]. case_test; [case_test; by apply lands_ret|].
  apply halts_seq; [apply component_loop_halts; [lia|done|lia]|intros [? ?]; by apply lands_ret].
Qed.
Lemma udf_readlink_halts ctx c dir nm bs : halts (udf_readlink nf_malloc alloc ctx c dir nm bs).
Proof using Hbytes Hdata.
  unfold udf_readlink. apply halts_seq; [apply udf_lookup_halts|intros [[[err [node|]] ctx1] c1]; [|by apply lands_ret]].
  do 3 (case_test; [by apply lands_ret|]). eapply lands_bind; [apply udf_read_halts|]. intros [[[err2 data] len] c2] Hr _.
  unfold udf_read in Hr. apply udf_read_object_bytes in Hr; [|apply zeros_bytes]. case_test; [by apply lands_ret|].
  apply halts_seq; [apply link_target_halts; by apply Forall_take|intros [? ?]; by apply lands_ret].
Qed.
End ops.
End total.

(** * UDF operations stay inside their buffers

    With logical blocks of at most 2048 bytes and sizes of less than [2 ^ 63] bytes in
    the file entries, whatever else the disc holds, no access is outside a sector, the
    buffer asked for or a local one. *)

(** No fault, and [P] of what is returned. *)
Definition safe {A} (m : outcome A) (P : A → Prop) : Prop := match m with Ret a => P a | Fault => False | Diverge => True end.
Lemma safe_ret {A} (a : A) (P : A → Prop) : P a → safe (Ret a) P.
Proof. done. Qed.
Lemma safe_bind {A B} (m : outcome A) (k : A → outcome B) (P : A → Prop) (Q : B → Prop) : safe m P → (∀ a, P a → safe (k a) Q) → safe (m ≫= k) Q.
Proof. destruct m; simpl; auto. Qed.
Lemma safe_weaken {A} (m : outcome A) (P Q : A → Prop) : safe m P → (∀ a, P a → Q a) → safe m Q.
Proof. destruct m; simpl; auto. Qed.
Lemma safe_after {A} (m : outcome A) (P Q : A → Prop) : safe m P → after m Q → safe m (λ a, P a ∧ Q a).
Proof. destruct m; simpl; try done. intros HP HQ. split; [done|]. by apply HQ. Qed.
Lemma safe_lands {A} (m : outcome A) (P Q : A → Prop) : safe m P → lands m Q → yields m P.
Proof. destruct m; simpl; try done. intros HP _. by eexists. Qed.
Abbreviation fine m := (safe m (λ _, True)).

(** ** Fields *)

Lemma safe_rd p i : 0 ≤ i < zlen p → fine (rd p i).
Proof. intros [x ->]%(rd_ok p). done. Qed.
Lemma safe_range p off n : 0 ≤ off → 0 ≤ n → off + n ≤ zlen p → safe (rd_range p off n) (λ s, zlen s = n).
Proof. intros. rewrite rd_range_ok by done. simpl. rewrite length_slice by lia. lia. Qed.
Lemma safe_wr p off s : 0 ≤ off → off + zlen s ≤ zlen p → safe (wr_range p off s) (λ p', length p' = length p).
Proof. intros. rewrite wr_range_ok by done. by apply length_splice. Qed.
Ltac sb := eapply (safe_bind _ _ (λ _, True)); [|intros ? _].
Lemma safe_le16 p i : 0 ≤ i → i + 2 ≤ zlen p → fine (udf_le16 p i).
Proof. intros. unfold udf_le16. do 2 (sb; [apply safe_rd; lia|]). done. Qed.
Lemma safe_le32 p i : 0 ≤ i → i + 4 ≤ zlen p → fine (udf_le32 p i).
Proof. intros. unfold udf_le32. do 4 (sb; [apply safe_rd; lia|]). done. Qed.
Lemma safe_le64 p i : 0 ≤ i → i + 8 ≤ zlen p → fine (udf_le64 p i).
Proof. intros. unfold udf_le64. do 2 (sb; [apply safe_le32; lia|]). done. Qed.
Lemma safe_tag p : 16 ≤ zlen p → fine (udf_read_tag p).
Proof.
  intros. unfold udf_read_tag. do 2 (sb; [apply safe_le16; lia|]). sb; [apply safe_rd; lia|]. do 3 (sb; [apply safe_le16; lia|]). sb; [apply safe_le32; lia|].
  do 2 (sb; [eapply safe_weaken; [apply safe_range; lia|done]|]). done.
Qed.
Lemma safe_is_tag ids p : 16 ≤ zlen p → fine (is_tag ids p).
Proof. intros. unfold is_tag. eapply safe_bind; [by apply safe_tag|]. by intros [tag good] _. Qed.
Lemma safe_timestamp p i : 0 ≤ i → i + 11 ≤ zlen p → fine (udf_parse_timestamp p i).
Proof. intros. unfold udf_parse_timestamp. do 2 (sb; [apply safe_le16; lia|]). do 5 (sb; [apply safe_rd; lia|]). done. Qed.
Lemma safe_file_entry bs p : 2048 ≤ zlen p → fine (file_entry bs p).
Proof.
  intros Hp. assert (Hf : ∀ base off, 0 ≤ off ≤ 208 → fine (inr (A := odfs_err) <$> entry_fields p base off)).
  { intros base off Ho. eapply (safe_bind _ _ (λ _, True)); [|done]. unfold entry_fields. sb; [apply safe_le16; lia|]. sb; [apply safe_le64; lia|]. do 2 (sb; [apply safe_le32; lia|]). done. }
  unfold file_entry. eapply safe_bind; [apply safe_tag; lia|]. intros [tag good] _. destruct good; [|done]. repeat case_test; try done; apply Hf; lia.
Qed.
Lemma safe_cs0 src len dst : 0 ≤ len ≤ zlen src → 1 ≤ dst → fine (udf_decode_cs0 src len dst).
Proof.
  intros Hl Hd. unfold udf_decode_cs0. case_test; [done|]. apply orb_false_iff in E as [E _]. b2p. sb; [|done]. unfold cs0_bytes. sb; [apply safe_rd; lia|].
  case_test; [sb; [eapply safe_weaken; [apply safe_range; lia|by intros ? _]|done]|].
  eapply safe_weaken; [apply safe_range|by intros ? _]; try case_test; b2p; lia.
Qed.

Section safe.
Context {C : Type} {HO : CacheOps C} (img : Z → list Z) (inv ok : C → Prop) (ptr : C → Z → Prop).
Context {HL : CacheLaws C img 2048 inv ok ptr} {HF : CacheCleanFailure C ok ptr} {HX : CacheBeyond C ok 2048} (Hbytes : ∀ l, Forall is_byte (img l)).
Implicit Types (c : C) (buf : list Z).

(** Sizes that do not wrap around. *)
Definition sizes_ok : Prop := ∀ l bs a ds ea al base, file_entry bs (img l) = Ret (inr (a, ds, ea, al, base)) → ds < 2 ^ 63.
Context (Hsizes : sizes_ok).
Lemma img_length l : zlen (img l) = 2048.
Proof. apply cl_sector. Qed.
Lemma read_any c l : ok c → is_u32 l → ∃ err p c', bc_read c l = (err, p, c') ∧ ok c' ∧ (err_ok err = true → bc_data c' p = img l).
Proof using HF HL.
  intros Hok Hl. destruct (bc_read c l) as [[err p] c'] eqn:Hr. exists err, p, c'. split; [done|]. destruct (decide (err = ODFS_OK)) as [->|Hne].
  - by destruct (cl_read_ok c l p c' Hok Hl Hr) as (? & _ & ? & _).
  - destruct (cl_read_failed c l err p c' Hok Hl Hr Hne) as [? _]. split; [done|]. by intros ?%err_ok_true.
Qed.

(** ** Objects *)
Section object.
Context (ctx : udf_context) (Hblock : block_size_of ctx ≤ 2048).
Lemma icb_safe c l : ok c → is_u32 l → safe (udf_read_icb ctx c l) (λ '(_, _, c'), ok c').
Proof using HF HL Hblock Hbytes.
  intros Hok Hl. unfold udf_read_icb, udf_read_icb_ex. destruct (read_any c l Hok Hl) as (err & p & c1 & -> & Hok1 & Hd).
  case_test; [done|]. apply negb_false_iff in E. rewrite (Hd E). clear Hd E. pose proof (img_length l) as Hlen. cbv zeta.
  eapply safe_bind; [apply safe_after; [apply safe_file_entry; lia|apply file_entry_after, Hbytes]|]. intros [e|[[[[a ds] ea] al] base]]; [done|]. intros (_ & _ & Hea & Hal & Hb). unfold is_u32 in *.
  sb; [apply safe_rd; lia|]. sb; [apply safe_timestamp; case_test; lia|]. case_test; [done|]. case_test; [done|]. b2p. case_test; [done|]. case_test; [|case_test; [|done]].
  all: case_test; [done|]; apply orb_false_iff in E3 as [_ E3] || apply orb_false_iff in E4 as [_ E4]; b2p; sb; [apply safe_le32; lia|done].
Qed.
(** The buffer [buf0] with [n] of [want] bytes in it. *)
Definition got_ok (want : Z) (buf0 : list Z) (c : C) (buf : list Z) (n : Z) : Prop := ok c ∧ length buf = length buf0 ∧ Forall is_byte buf ∧ 0 ≤ n ≤ want.
Lemma read_bytes_safe c l off piece : ok c → is_u32 l → 0 ≤ off < 2 ^ 32 → 0 < zlen piece → Forall is_byte piece →
  ∃ err got n c', bc_read_bytes c l off piece (zlen piece) = (err, got, n, c') ∧ (err = ODFS_OK → got_ok (zlen piece) piece c' got n).
Proof using HX HL Hbytes.
  intros Hok Hl Ho Hp Hb. destruct (bc_read_bytes c l off piece (zlen piece)) as [[[err got] n] c'] eqn:Hr. exists err, got, n, c'. split; [done|].
  destruct (decide (l + off / 2048 < 2 ^ 32)).
  - destruct (cl_read_bytes (CacheLaws := HL) c l off piece (zlen piece) err got n c' Hok Hl ltac:(lia) ltac:(lia) ltac:(lia) Hr) as (_ & Hn & Hlen & _ & Hd).
    intros He. destruct (Hd He) as (? & _ & ->). split; [done|]. split; [done|]. split; [|done]. apply Forall_app. split; [by apply disc_bytes_bytes|by apply Forall_drop].
  - intros He. destruct (cx_beyond (CacheBeyond := HX) c l off piece (zlen piece) err got n c' Hok Hl ltac:(lia) ltac:(lia) ltac:(lia) Hr He) as (? & ? & ? & Hbb).
    split; [done|]. split; [done|]. split; [by apply Hbb|done].
Qed.
Lemma ad_run_safe ad_size run fo want buf0 n : 8 ≤ ad_size → want ≤ zlen buf0 → ∀ p cur dn buf c, 0 ≤ p → got_ok want buf0 c buf dn →
  safe (ad_run n ctx ad_size run fo want p cur dn buf c) (λ r, match r with
    | AdStop err buf dn c => err = ODFS_OK → got_ok want buf0 c buf dn
    | AdNext _ _ dn buf c => got_ok want buf0 c buf dn end).
Proof using HX HL Hbytes.
  intros Ha Hw. induction n as [|n IH]; intros p cur dn buf c Hp Hg; cbn [ad_run]; (case_test; [by apply safe_ret|]); (case_test; [by apply safe_ret|]); [done|]. b2p.
  sb; [apply safe_le32; lia|]. sb; [apply safe_le32; lia|]. cbv zeta. case_test; [by apply safe_ret|]. case_test; [by apply safe_ret|]. case_test; [|apply IH; [lia|done]]. b2p.
  set (ee := u64 (cur + _)) in *. set (st := u64 (fo + dn)) in *. set (chunk := if want - dn <? ee - st then _ else _). destruct Hg as (Hok & Hb & Hbb & Hdn).
  assert (Hch : 0 < chunk ∧ dn + chunk ≤ want) by (unfold chunk; case_test; b2p; lia). clearbody chunk. destruct (_ =? UDF_EXT_RECORDED).
  - rewrite rd_range_ok by lia. cbn [mbind outcome_bind]. set (piece := slice buf dn chunk). assert (Hpl : zlen piece = chunk) by (unfold piece; rewrite length_slice; lia). rewrite <- Hpl.
    destruct (read_bytes_safe c (udf_phys_lba ctx a0) (u32 (st - cur)) piece Hok (phys_u32 ctx a0) (u32_range _) ltac:(lia)) as (err & got & k & c1 & -> & Hd); [by apply Forall_take, Forall_drop|].
    case_test; [apply safe_ret; intros ->; done|]. apply negb_false_iff, err_ok_true in E4. destruct (Hd E4) as (Hok1 & Hlg & Hgb & Hk).
    assert (Hls : length (splice buf dn got) = length buf0) by (rewrite length_splice; lia).
    assert (Hg' : got_ok want buf0 c1 (splice buf dn got) (dn + k)) by (split; [done|]; split; [done|]; split; [by apply Forall_splice|lia]). case_test; [by apply safe_ret|]. apply IH; [lia|done].
  - rewrite wr_range_ok by (rewrite ?length_replicate; lia). cbn [mbind outcome_bind]. apply IH; [lia|]. split; [done|]. split; [rewrite length_splice; rewrite ?length_replicate; lia|].
    split; [|lia]. apply Forall_splice; [done|]. apply Forall_replicate. unfold is_byte. lia.
Qed.
Lemma ad_chain_safe ad_size fo want buf0 guard : 8 ≤ ad_size → want ≤ zlen buf0 → ∀ run cur dn buf c, got_ok want buf0 c buf dn →
  safe (ad_chain guard ctx ad_size run fo want cur dn buf c) (λ '(err, buf', n, c'), err = ODFS_OK → got_ok want buf0 c' buf' n).
Proof using HF HX HL Hblock Hbytes.
  intros Ha Hw. induction guard as [|guard IH]; intros run cur dn buf c Hg; cbn [ad_chain];
    (eapply safe_bind; [by apply (ad_run_safe ad_size run fo want buf0)|]); (intros [err buf' dn' c'|elba cur' dn' buf' c']; [intros H; exact H|]); intros (Hok' & Hlb & Hbb & Hd'); [apply safe_ret; discriminate|].
  destruct (read_any c' _ Hok' (phys_u32 ctx elba)) as (err & p & c1 & -> & Hok1 & Hd).
  case_test; [apply safe_ret; intros ->; done|]. apply negb_false_iff in E. rewrite (Hd E). pose proof (img_length (udf_phys_lba ctx elba)) as Hlen. cbv zeta.
  sb; [apply safe_is_tag; lia|]. case_test; [done|]. eapply safe_bind; [apply safe_after; [apply safe_le32; lia|apply udf_le32_after, Hbytes]|]. intros alen [_ Hal]. unfold is_u32 in Hal.
  case_test; [done|]. apply orb_false_iff in E1 as [E1 E2]. b2p. rewrite u32_small in E2 by (unfold is_u32; lia).
  eapply safe_bind; [apply safe_range; lia|]. intros run' _. by apply IH.
Qed.
Lemma read_object_safe c l fo buf want : ok c → is_u32 l → 0 ≤ fo → 0 ≤ want ≤ zlen buf → Forall is_byte buf →
  safe (udf_read_object ctx c l fo buf want) (λ '(err, buf', n, c'), err = ODFS_OK → got_ok want buf c' buf' n).
Proof using HF HX HL Hblock Hbytes Hsizes.
  intros Hok Hl Hfo Hw Hbuf. unfold udf_read_object. destruct (read_any c l Hok Hl) as (err & p & c1 & -> & Hok1 & Hd).
  case_test; [apply safe_ret; intros ->; done|]. apply negb_false_iff in E. rewrite (Hd E). clear Hd E. pose proof (img_length l) as Hlen. cbv zeta.
  eapply safe_bind; [apply safe_after; [apply safe_after; [apply safe_file_entry; lia|apply file_entry_after, Hbytes]|by intros r Hr; exact Hr]|].
  intros [e|[[[[a ds] ea] al] base]]; [intros _; apply safe_ret; intros _; split_and!; [done|done|done|lia..]|]. intros [(_ & Hds & Hea & Hal & Hb) Hfe]. apply Hsizes in Hfe. unfold is_u32 in *.
  rewrite (proj2 (Z.ltb_ge 2048 _)) by lia. case_test; [done|]. case_test; [done|]. case_test; [apply safe_ret; intros _; split_and!; [done|done|done|lia..]|]. b2p.
  set (want' := if ds - fo <? want then ds - fo else want). assert (Hw' : 0 ≤ want' ≤ want ∧ want' ≤ ds - fo) by (unfold want'; case_test; b2p; lia). clearbody want'.
  case_test; [apply safe_ret; intros _; split_and!; [done|done|done|lia..]|]. destruct (a =? _).
  - case_test; [done|]. b2p. unfold u64 in E3. rewrite Z.mod_small in E3 by lia.
    rewrite rd_range_ok by lia. cbn [mbind outcome_bind]. set (d := slice (img l) _ want'). assert (Hdl : zlen d = want') by (unfold d; rewrite length_slice; lia).
    rewrite wr_range_ok by lia. cbn [mbind outcome_bind]. apply safe_ret. intros _. split; [done|]. split; [apply length_splice; lia|]. split; [|lia].
    apply Forall_splice; [done|]. apply Forall_take, Forall_drop, Hbytes.
  - case_test; [done|]. eapply safe_bind; [apply safe_range; lia|]. intros run _.
    eapply safe_weaken; [apply (ad_chain_safe (if a =? UDF_ICB_ALLOC_SHORT then 8 else 16) fo want' buf); [case_test; lia|lia|split; [done|]; split; [done|]; split; [done|lia]]|].
    intros [[[err' b'] n'] c'] H He. destruct (H He) as (? & ? & ? & ?). split; [done|]. split; [done|]. split; [done|lia].
Qed.
Lemma read_exact_safe c l off n : ok c → is_u32 l → 0 ≤ off → 0 ≤ n → safe (udf_read_exact ctx c l off n) (λ '(err, buf, c'), err = ODFS_OK → ok c' ∧ zlen buf = n ∧ Forall is_byte buf).
Proof using HF HX HL Hblock Hbytes Hsizes.
  intros Hok Hl Ho Hn. unfold udf_read_exact. eapply safe_bind; [apply read_object_safe; [done|done|done|rewrite length_replicate; lia|apply Forall_replicate; unfold is_byte; lia]|]. intros [[[err buf] got] c'] H. apply safe_ret. intros He.
  destruct (err_ok err) eqn:E; cbn [negb] in He; [|by subst]. apply err_ok_true in E. destruct (H E) as (? & Hlb & ? & _). split; [done|]. split; [|done]. rewrite Hlb, length_replicate. lia.
Qed.
Lemma fill_node_safe c f l n : ok c → safe (udf_fill_node_from_icb ctx c f l n) (λ '(_, _, c'), ok c').
Proof using HF HL Hblock Hbytes.
  intros Hok. unfold udf_fill_node_from_icb. cbv zeta. eapply safe_bind; [apply icb_safe; [done|apply phys_u32]|]. intros [[err icb] c'] H. case_test; by apply safe_ret.
Qed.
End object.

(** ** Directories *)

Definition small_blocks (ctx : udf_context) : Prop := block_size_of ctx ≤ 2048.
Lemma small_same ctx ctx' : same_udf ctx ctx' → small_blocks ctx → small_blocks ctx'.
Proof. by intros [k ->]. Qed.
(** What a callback leaves behind. *)
Definition goes_on {S} (ctx : udf_context) (r : odfs_err * udf_context * C * S) : Prop :=
  let '(err, ctx', c', _) := r in same_udf ctx ctx' ∧ (err = ODFS_OK → ok c').
Section walk.
Context {S : Type}.
(** An identifier as the walk hands it out. *)
Definition fid_ok (f : udf_fid_info) : Prop :=
  zlen (fid_header f) = HEADER ∧ HEADER ≤ fid_length f ∧ 0 ≤ fid_start f ∧ 0 ≤ fid_impl_len f ∧ 0 ≤ fid_name_len f.
Lemma goes_on_stop ctx err c (s : S) : err ≠ ODFS_OK ∨ ok c → goes_on ctx (err, ctx, c, s).
Proof. intros H. split; [apply same_udf_refl|]. intros He. by destruct H. Qed.
Lemma fid_size_least i n : 0 ≤ i < 65536 → 0 ≤ n < 256 → 38 + i + n ≤ fid_size i n.
Proof.
  intros Hi Hn. unfold fid_size. rewrite u32_small by (unfold is_u32; lia). set (x := 38 + i + n + 3).
  assert (Hx : Z.land x 0xFFFFFFFC = x - x mod 4).
  { assert (H : Z.land x 0xFFFFFFFC = Z.shiftl (Z.shiftr x 2) 2); [|rewrite H, Z.shiftr_div_pow2, Z.shiftl_mul_pow2 by lia; dlia].
    apply Z.bits_inj'. intros k Hk. rewrite Z.land_spec, Z.shiftl_spec by lia. destruct (decide (k < 2)).
    - rewrite (Z.testbit_neg_r _ (k - 2)) by lia. assert (k = 0 ∨ k = 1) as [->| ->] by lia; by rewrite andb_false_r.
    - rewrite Z.shiftr_spec by lia. replace (k - 2 + 2) with k by lia. destruct (decide (k < 32)).
      + assert (Z.testbit 0xFFFFFFFC k = true) as ->; [|by rewrite andb_true_r].
        assert (Hks : k ∈ seqZ 2 30) by (apply elem_of_seqZ; lia). clear -Hks. revert k Hks.
        assert (Forall (λ k, Z.testbit 0xFFFFFFFC k = true) (seqZ 2 30)) as Hall by (vm_compute; repeat constructor).
        by apply Forall_forall.
      + rewrite (Z.bits_above_log2 x); [done|lia|]. apply Z.log2_lt_pow2; [lia|]. pose proof (Z.pow_le_mono_r 2 32 k). lia. }
  rewrite Hx. pose proof (Z.mod_pos_bound x 4). lia.
Qed.
Lemma fid_loop_safe (callback : fid_fn S) dir dir_size : is_u32 (lba (extent dir)) → dir_size ≤ UINT32_MAX →
  (∀ f ctx c s, fid_ok f → small_blocks ctx → ok c → safe (callback f ctx c s) (goes_on ctx)) →
  ∀ n off ctx c s, small_blocks ctx → ok c → 0 ≤ off → safe (fid_loop n callback dir dir_size off ctx c s) (goes_on ctx).
Proof using HF HX HL Hbytes Hsizes.
  intros Hd Hsz Hcb. unfold UINT32_MAX in Hsz. induction n as [|n IH]; intros off ctx c s Hs Hok H0; cbn [fid_loop]; (case_test; [apply safe_ret, goes_on_stop; by right|]); [done|]. b2p.
  case_test; [apply safe_ret, goes_on_stop; by right|]. unfold HEADER in E0. b2p.
  eapply safe_bind; [apply (read_exact_safe ctx Hs c _ off HEADER Hok Hd H0); unfold HEADER; lia|]. intros [[err header] c1] H.
  destruct (err_ok err) eqn:E1; cbn [negb]; [|apply safe_ret, goes_on_stop; left; by destruct err]. apply err_ok_true in E1. destruct (H E1) as (Hok1 & Hh & Hhb).
  unfold HEADER in Hh. sb; [apply safe_is_tag; lia|]. case_test; [apply safe_ret, goes_on_stop; by right|]. sb; [apply safe_rd; lia|].
  eapply safe_bind; [apply safe_after; [apply safe_rd; lia|apply lands_after, (lands_rd is_byte), Hhb]|]. intros nl [_ Hnl]. unfold is_byte in Hnl. sb; [apply safe_le32; lia|].
  eapply safe_bind; [apply safe_after; [apply safe_le16; lia|apply udf_le16_after, Hhb]|]. intros il [_ Hil]. cbv zeta.
  destruct ((_ <? HEADER) || _) eqn:El; [apply safe_ret, goes_on_stop; by left|]. unfold HEADER in El. b2p. rewrite u32_small by (unfold is_u32; lia).
  eapply safe_bind; [apply Hcb; [|exact Hs|exact Hok1]|].
  { unfold fid_ok, HEADER. cbn. lia. }
  intros [[[err2 ctx2] c2] s2] [Hs2 Hok2]. destruct (err_ok err2) eqn:Ee2; cbn [negb]; [|apply safe_ret; split; [done|]; intros ->; done].
  apply err_ok_true in Ee2. eapply safe_weaken; [apply IH; [by eapply small_same|by apply Hok2|lia]|]. intros [[[err3 ctx3] c3] s3] [Hs3 Hok3]. split; [by eapply same_udf_trans|done].
Qed.
Lemma walk_fids_safe (callback : fid_fn S) dir ctx c s : is_u32 (lba (extent dir)) → small_blocks ctx → ok c →
  (∀ f ctx c s, fid_ok f → small_blocks ctx → ok c → safe (callback f ctx c s) (goes_on ctx)) →
  safe (udf_walk_fids callback dir ctx c s) (λ '(err, _, ctx', c', s'), goes_on ctx (err, ctx', c', s')).
Proof using HF HX HL Hbytes Hsizes.
  intros Hd Hs Hok Hcb. unfold udf_walk_fids. eapply safe_bind; [by apply icb_safe|]. intros [[err icb] c1] Hok1. case_test; [apply safe_ret, goes_on_stop; by right|].
  case_test; [apply safe_ret, goes_on_stop; by left|]. b2p. cbv zeta. eapply safe_bind; [by apply fid_loop_safe|]. intros [[[err2 ctx2] c2] s2] H. by apply safe_ret.
Qed.
End walk.

Section entries.
Context {S : Type} (nf_malloc : nat → Z → bool) (alloc : Z → bool).
Lemma decode_entry_safe (callback : dir_entry_fn S) dir f ctx c s : is_u32 (lba (extent dir)) → fid_ok f → small_blocks ctx → ok c →
  (∀ e ctx c s, small_blocks ctx → ok c → safe (callback e ctx c s) (goes_on ctx)) →
  safe (udf_decode_dir_entry nf_malloc alloc callback dir f ctx c s) (goes_on ctx).
Proof using HF HX HL Hbytes Hsizes.
  intros Hd (Hh & Hlen & Hst & Hil & Hnl) Hs Hok Hcb. unfold udf_decode_dir_entry. destruct s as [nf t]. unfold HEADER in *. case_test; [apply safe_ret, goes_on_stop; by left|].
  eapply (safe_bind _ _ (λ '(err, data, c'), err = ODFS_OK → ok c' ∧ zlen data = fid_length f)).
  { case_test; b2p; [|apply safe_ret; intros _; split; [done|lia]]. eapply safe_weaken; [apply (read_exact_safe ctx Hs); [done|done|done|lia]|]. intros [[err data] c'] H He. by destruct (H He) as (? & ? & _). }
  intros [[err data] c1] H. destruct (err_ok err) eqn:E1; cbn [negb]; [|apply safe_ret, goes_on_stop; left; by destruct err]. apply err_ok_true in E1. destruct (H E1) as [Hok1 Hdl].
  case_test; [apply safe_ret, goes_on_stop; by right|]. cbv zeta. set (ctx1 := set_next_node_id _ ctx). assert (Hs1 : same_udf ctx ctx1) by by eexists.
  assert (Hstop : ∀ err c (s : odfs_namefix_state * S), err ≠ ODFS_OK ∨ ok c → goes_on ctx (err, ctx1, c, s)) by (intros e c' s' Hc; split; [done|]; intros He; by destruct Hc).
  destruct ((fid_length f <? _) || _) eqn:En; [apply safe_ret, Hstop; by left|]. b2p.
  sb; [case_test; b2p; [|done]; apply safe_cs0; [|unfold ODFS_NAME_MAX; lia]; unfold mem_at; rewrite (proj2 (Z.leb_le _ _)), length_drop by lia; lia|].
  destruct (odfs_namefix_apply _ _ _ _) as [[e nf'] nm']. case_test; [apply safe_ret, Hstop; left; intros ->; done|].
  eapply safe_bind; [apply Hcb; [by eapply small_same|done]|]. intros [[[err2 ctx2] c2] t2] [Hs2 Hok2]. apply safe_ret. split; [exact (same_udf_trans _ _ _ Hs1 Hs2)|done].
Qed.
Lemma walk_entries_safe (callback : dir_entry_fn S) dir ctx c s : is_u32 (lba (extent dir)) → small_blocks ctx → ok c →
  (∀ e ctx c s, small_blocks ctx → ok c → safe (callback e ctx c s) (goes_on ctx)) →
  safe (udf_walk_dir_entries nf_malloc alloc callback dir ctx c s) (λ '(err, _, ctx', c', _), same_udf ctx ctx' ∧ (err = ODFS_OK → ok c')).
Proof using HF HX HL Hbytes Hsizes.
  intros Hd Hs Hok Hcb. unfold udf_walk_dir_entries. eapply safe_bind; [apply walk_fids_safe; [done..|]; intros; by apply decode_entry_safe|].
  intros [[[[err sz] ctx1] c1] s1] H. by apply safe_ret.
Qed.
End entries.

Section ops.
Context (nf_malloc : nat → Z → bool) (alloc : Z → bool).
Lemma readdir_safe {T} (cb : odfs_node → T → odfs_err * T) ctx c dir t r : is_u32 (lba (extent dir)) → small_blocks ctx → ok c →
  safe (udf_readdir nf_malloc alloc cb ctx c dir t r) (λ '(err, _, ctx', c', _), same_udf ctx ctx' ∧ (err = ODFS_OK → ok c')).
Proof using HF HX HL Hbytes Hsizes.
  intros Hd Hs Hok. unfold udf_readdir. eapply safe_bind; [apply walk_entries_safe; [done..|]|].
  - intros e ctx1 c1 [t1 r1] Hs1 Hok1. unfold udf_readdir_entry. case_test; [apply safe_ret, goes_on_stop; by right|].
    eapply safe_bind; [by apply fill_node_safe|]. intros [[err n] c2] Hok2. case_test; [apply safe_ret, goes_on_stop; by right|].
    destruct (cb n t1) as [err2 t2]. apply safe_ret, goes_on_stop. by right.
  - intros [[[[err sz] ctx1] c1] [t1 r1]] [Hs1 Hc]. case_test; apply safe_ret; (split; [done|]); [exact Hc|]. intros _. apply Hc. apply negb_false_iff, err_ok_true in E. done.
Qed.
Lemma lookup_safe ctx c dir nm : is_u32 (lba (extent dir)) → small_blocks ctx → ok c →
  safe (udf_lookup nf_malloc alloc ctx c dir nm) (λ '(_, _, ctx', _), same_udf ctx ctx').
Proof using HF HX HL Hbytes Hsizes.
  intros Hd Hs Hok. unfold udf_lookup. eapply safe_bind; [apply walk_entries_safe; [done..|]|].
  - intros e ctx1 c1 f Hs1 Hok1. unfold udf_lookup_entry. case_test; [apply safe_ret, goes_on_stop; by right|].
    eapply safe_bind; [by apply fill_node_safe|]. intros [[err n] c2] Hok2. apply safe_ret. case_test; apply goes_on_stop; by right.
  - intros [[[[err sz] ctx1] c1] f] [Hs1 Hc]. by apply safe_ret.
Qed.
End ops.
End safe.
