(* ===== verification/UdfDisc.v ===== *)
(** * A small UDF disc

    Writing UDF structures byte by byte, and a disc the examples run on: a directory
    over an allocation descriptor, one in its ICB, a file in four pieces with a second
    block of descriptors, a symbolic link. *)
From stdpp Require Import gmap strings.
From S2P Require Import Prelude Types Strings Namefix Media BlockCache BlockCacheProofs BlockCacheRead BlockCacheSpec CacheApi.
From S2P Require Import Backend MetaCache MetaCacheProofs MetaCacheSpec Session Mount MountProofs MountSpec AncestrySpec IsoVolume.
From S2P Require Import Reader Discs Udf UdfObjects UdfListing UdfReaddir UdfBackend.
Open Scope Z_scope.

(** ** Writing structures *)

Definition le16_bytes (x : Z) : list Z := [x mod 256; x / 256].
Definition le32_bytes (x : Z) : list Z := le16_bytes (x mod 65536) ++ le16_bytes (x / 65536).
(** A tag; the sum of its bytes apart from the checksum is the checksum. *)
Definition make_tag (id : Z) : list Z := le16_bytes id ++ [2; 0; u8 (id mod 256 + id / 256 + 2); 0] ++ replicate 10 0.
Definition make_dstring (n : nat) (s : list Z) : list Z := pad_to (n - 1) (8 :: s) ++ [zlen s + 1].
Definition make_descriptor (id : Z) (fs : list (Z * list Z)) : list Z := fields 2048 ((0, make_tag id) :: fs).
(** A file identifier for the ICB at block [icb], with a name as it is encoded. *)
Definition make_fid (icb flags : Z) (nm : list Z) : list Z :=
  pad_to (Z.to_nat (fid_size 0 (zlen nm))) (fields 38 [(0, make_tag UDF_TAG_FID); (18, [flags; zlen nm]); (24, le32_bytes icb)] ++ nm).
(** File entries of both kinds, with an allocation type and what follows the fields. *)
Definition make_fe (file_type alloc sz : Z) (ads : list Z) : list Z :=
  make_descriptor UDF_TAG_FE [(27, [file_type]); (34, le16_bytes alloc); (56, le32_bytes sz); (172, le32_bytes (zlen ads)); (176, ads)].
Definition make_efe (file_type alloc sz : Z) (ads : list Z) : list Z :=
  make_descriptor UDF_TAG_EFE [(27, [file_type]); (34, le16_bytes alloc); (56, le32_bytes sz); (212, le32_bytes (zlen ads)); (216, ads)].
Definition make_short_ad (etype len lba : Z) : list Z := le32_bytes (etype * 2 ^ 30 + len) ++ le32_bytes lba.
Definition make_long_ad (etype len lba : Z) : list Z := make_short_ad etype len lba ++ replicate 8 0.
Definition make_aed (ads : list Z) : list Z := make_descriptor UDF_TAG_AED [(20, le32_bytes (zlen ads)); (24, ads)].
Definition name8 (s : string) : list Z := 8 :: str s.
Definition name16 (s : string) : list Z := 16 :: concat (map (λ c, [0; c]) (str s)).

(** ** The disc

    The partition begins at sector 260; block 1 is the ICB of the root directory. *)
Definition udf_demo_root : list Z :=
  make_fid 1 (UDF_FID_FLAG_DIRECTORY + UDF_FID_FLAG_PARENT) [] ++ make_fid 3 0 (name8 "a.txt") ++ make_fid 3 UDF_FID_FLAG_DELETED (name8 "gone") ++
  make_fid 4 UDF_FID_FLAG_DIRECTORY (name16 "Sub").
Definition udf_demo_sub : list Z :=
  make_fid 1 (UDF_FID_FLAG_DIRECTORY + UDF_FID_FLAG_PARENT) [] ++ make_fid 6 0 (name16 "two") ++ make_fid 7 0 (name8 "link") ++ make_fid 8 UDF_FID_FLAG_DIRECTORY (name8 "Deep").
Definition udf_demo_deep : list Z := make_fid 4 (UDF_FID_FLAG_DIRECTORY + UDF_FID_FLAG_PARENT) [].
Definition udf_demo_link : list Z := [3; 0; 0; 0] ++ [5; 6; 0; 0] ++ name8 "a.txt".
Definition udf_demo_table : list (Z * list Z) :=
  [ (256, make_descriptor UDF_TAG_AVDP [(16, le32_bytes 6144); (20, le32_bytes 257)]);
    (257, make_descriptor UDF_TAG_PVD [(24, make_dstring 32 (str "Demo"))]);
    (258, make_descriptor UDF_TAG_PD [(188, le32_bytes 260); (192, le32_bytes 40)]);
    (259, make_descriptor UDF_TAG_LVD [(84, make_dstring 128 (str "Other")); (212, le32_bytes 2048); (248, le32_bytes 2048)]);
    (260, make_descriptor UDF_TAG_FSD [(404, le32_bytes 1)]);
    (261, make_fe 4 UDF_ICB_ALLOC_SHORT (zlen udf_demo_root) (make_short_ad 0 (zlen udf_demo_root) 2));
    (262, udf_demo_root);
    (263, make_fe 5 UDF_ICB_ALLOC_EMBEDDED 5 (str "Hello"));
    (264, make_efe 4 UDF_ICB_ALLOC_EMBEDDED (zlen udf_demo_sub) udf_demo_sub);
    (266, make_efe 5 UDF_ICB_ALLOC_LONG 4200 (make_long_ad 0 2048 10 ++ make_long_ad 2 2048 0 ++ make_long_ad 3 2048 9));
    (267, make_fe UDF_ICB_FILETYPE_SYMLINK UDF_ICB_ALLOC_EMBEDDED (zlen udf_demo_link) udf_demo_link);
    (268, make_fe 4 UDF_ICB_ALLOC_EMBEDDED (zlen udf_demo_deep) udf_demo_deep);
    (269, make_aed (make_long_ad 0 4 12 ++ make_long_ad 0 2048 14));
    (270, replicate 2048 65);
    (272, str "tail");
    (274, replicate 2048 66) ].
Fixpoint table_get (t : list (Z * list Z)) (l : Z) : list Z :=
  match t with [] => [] | (k, s) :: t => if k =? l then s else table_get t l end.
Definition table_disc (t : list (Z * list Z)) (l : Z) : list Z := pad_to 2048 (take 2048 (table_get t l)).
Definition udf_demo_disc : Z → list Z := table_disc udf_demo_table.
Definition udf_demo_medium : odfs_media_ops unit := image_ops udf_demo_disc 300 2048.
Definition udf_demo_be : Z → odfs_backend_ops (world unit (gmap Z udf_context)) :=
  udf_backends udf_demo_medium (λ c, c) Some single_context enough_memory (λ _, true) no_reader.
Definition udf_demo_mounted := odfs_mount udf_demo_medium udf_demo_be (λ _, true) 300 toc_zero blank_sector tt ∅ (Some demo_opts).
Definition udf_demo_mnt : odfs_mount_t := match udf_demo_mounted with Ret (_, mnt, _) => mnt | _ => mount_zero end.
Definition udf_demo_world : world unit (gmap Z udf_context) := match udf_demo_mounted with Ret (_, _, w) => w | _ => mk_world (cache_zero tt) ∅ end.
Definition udf_demo_path : list Z := str "/Sub/two".
Example udf_demo_file :
  match udf_demo_mounted with
  | Ret (ODFS_OK, mnt, w) =>
      match odfs_resolve_path udf_demo_be (λ _ _, true) mnt w udf_demo_path with
      | Ret (ODFS_OK, Some file, mnt, w) =>
          match odfs_read udf_demo_be mnt w file 2046 (replicate 10 1) 4 with
          | Ret (ODFS_OK, buf, n, _) => (Mount.volume_name mnt, name file, size file, n, buf) =
              (str "Demo", str "two", 4200, 4, [65; 65; 0; 0; 1; 1; 1; 1; 1; 1])
          | _ => False
          end
      | _ => False
      end
  | _ => False
  end.
Proof. vm_compute. reflexivity. Qed.

(** ** What is on it *)

Lemma image_spans img n a b : 0 ≤ a → b ≤ n * 2048 → n ≤ 2 ^ 32 → medium_spans (image_ops img n 2048) 2048 a b.
Proof.
  intros Ha Hb Hn. split; [lia|]. intros [] l count buf Hc Hl He Hlen. cbn [read_sectors image_ops].
  rewrite (proj2 (Z.leb_le 0 l)), (proj2 (Z.leb_le (l + count) n)), (proj2 (Z.eqb_eq _ _)) by lia. done.
Qed.
Lemma table_disc_length t l : zlen (table_disc t l) = 2048.
Proof. unfold table_disc, pad_to. rewrite length_app, length_replicate, length_take. lia. Qed.
Lemma table_disc_bytes t : forallb (λ e, forallb (λ b, (0 <=? b) && (b <? 256)) e.2) t = true → ∀ l, Forall is_byte (table_disc t l).
Proof.
  intros Hf l. assert (Hg : Forall is_byte (table_get t l)).
  { rewrite forallb_forall in Hf. induction t as [|[k s] t IH]; [constructor|]. cbn [table_get]. case_test; [|apply IH; intros e He; apply Hf; by right].
    specialize (Hf (k, s) ltac:(by left)). rewrite forallb_forall in Hf. apply Forall_forall. intros b Hb. apply list_elem_of_In in Hb. specialize (Hf b Hb). simpl in Hf. unfold is_byte. b2p. lia. }
  apply Forall_app. split; [by apply Forall_take|]. apply Forall_replicate. unfold is_byte. lia.
Qed.
Lemma udf_demo_sector l : zlen (udf_demo_disc l) = 2048.
Proof. apply table_disc_length. Qed.
Lemma udf_demo_bytes l : Forall is_byte (udf_demo_disc l).
Proof. apply table_disc_bytes. vm_compute. reflexivity. Qed.
Lemma udf_demo_reads : MediaReads udf_demo_medium udf_demo_disc 2048.
Proof. apply image_ops_reads; [lia|apply udf_demo_sector]. Qed.
Lemma udf_demo_path_name : is_name udf_demo_path.
Proof. repeat constructor; lia. Qed.
Definition udf_demo_ctx : udf_context := Eval vm_compute in
  match w_heap udf_demo_world !! 1 with Some c => c | _ => mk_udf 0 0 0 0 [] 0 0 0 node_zero end.
Abbreviation demo_readable := (medium_readable udf_demo_medium 2048).
Abbreviation demo_spans := (medium_spans udf_demo_medium 2048).

(** An object that is what the disc says, within its 300 sectors. *)
Definition data_inside (ctx : udf_context) (d : udf_data) : bool :=
  match d with
  | DataHere _ => true
  | DataIn _ es blocks => forallb (λ e, negb (ext_recorded e) || (ext_at ctx e + ext_len e <=? 300 * 2048)) es && forallb (λ l, (0 <=? l) && (l <? 300)) blocks && (exts_len es <? 2 ^ 63)
  end.
Lemma demo_object_at l d : 0 ≤ l < 300 → udf_object udf_demo_disc udf_demo_ctx l = Ret d → data_inside udf_demo_ctx d = true →
  object_at udf_demo_disc udf_demo_ctx demo_readable demo_spans l d.
Proof.
  intros Hl Hd Hin. split; [unfold is_u32; lia|]. split; [by apply image_readable|]. split; [exact Hd|]. destruct d as [b|sz es bl]; [exact I|].
  cbn [data_inside] in Hin. apply andb_true_iff in Hin as [Hin H3]. apply andb_true_iff in Hin as [H1 H2]. b2p. split; [|split; [|exact H3]].
  - apply Forall_forall. intros e He. rewrite forallb_forall in H1. apply list_elem_of_In in He. specialize (H1 e He). intros Hr. rewrite Hr in H1. cbn [negb orb] in H1. b2p.
    split; [lia|]. apply image_spans; [unfold ext_at|lia..]. pose proof (phys_u32 udf_demo_ctx (ext_lba e)) as Hp. unfold is_u32 in Hp. lia.
  - apply Forall_forall. intros k Hk. rewrite forallb_forall in H2. apply list_elem_of_In in Hk. specialize (H2 k Hk). b2p. by apply image_readable.
Qed.
Definition demo_data (l : Z) : udf_data := match udf_object udf_demo_disc udf_demo_ctx l with Ret d => d | _ => DataHere [] end.
Definition demo_icb (l : Z) : odfs_err * udf_icb := match icb_of udf_demo_disc udf_demo_ctx l with Ret r => r | _ => (ODFS_ERR_IO, icb_zero) end.
(** What makes the object in the sector [l] a directory with a listing. *)
Definition demo_lists (malloc : nat → Z → bool) (l : Z) : bool :=
  let D := data_bytes udf_demo_disc udf_demo_ctx (demo_data l) in
  match udf_object udf_demo_disc udf_demo_ctx l, icb_of udf_demo_disc udf_demo_ctx l, dir_fids D with
  | Ret d, Ret (ODFS_OK, icb), Ret fs =>
      data_inside udf_demo_ctx d && (icb_data_size icb =? zlen D) && (zlen D <? 2 ^ 31) &&
      forallb (λ f, negb (fid_shown f) || (udf_phys_lba udf_demo_ctx (fid_icb_lba f) <? 300)) fs &&
      match udf_entries udf_demo_disc udf_demo_ctx malloc D odfs_namefix_init fs with Ret _ => true | _ => false end
  | _, _, _ => false
  end.
Lemma demo_lists_as malloc l : 0 ≤ l < 300 → demo_lists malloc l = true →
  lists_as udf_demo_disc demo_readable demo_spans udf_demo_ctx malloc l (udf_entries_of udf_demo_disc malloc udf_demo_ctx l).
Proof.
  intros Hl. unfold demo_lists, demo_data. destruct (udf_object _ _ l) as [d| |] eqn:Hd; try done. cbv zeta. set (D := data_bytes _ _ d).
  destruct (icb_of _ _ l) as [[[] icb]| |] eqn:Hi; try done. destruct (dir_fids D) as [fs| |] eqn:Hfs; try done.
  intros H. apply andb_true_iff in H as [H HE]. apply andb_true_iff in H as [H HR]. apply andb_true_iff in H as [H H31]. apply andb_true_iff in H as [Hin Hsz]. b2p.
  destruct (udf_entries _ _ _ D _ fs) as [L| |] eqn:HL; try done.
  assert (HLs : lists_as udf_demo_disc demo_readable demo_spans udf_demo_ctx malloc l L).
  { exists D, fs. split; [exists d, icb; split; [by apply demo_object_at|]; by split_and!|]. split; [exact Hfs|]. split; [|exact HL].
    apply Forall_forall. intros f Hf Hsh. rewrite forallb_forall in HR. apply list_elem_of_In in Hf. specialize (HR f Hf). rewrite Hsh in HR. cbn [negb orb] in HR. b2p.
    pose proof (phys_u32 udf_demo_ctx (fid_icb_lba f)) as Hp. unfold is_u32 in Hp. apply image_readable. lia. }
  by rewrite (lists_as_of _ _ _ _ _ _ _ HLs).
Qed.
Definition udf_demo_dirs (n : odfs_node) : Prop := lba (extent n) ∈ [261; 264; 268].
Lemma udf_demo_tree : tree_of (udf_listable udf_demo_disc demo_readable demo_spans enough_memory udf_demo_ctx)
  (udf_faces udf_demo_disc enough_memory udf_demo_ctx) (mnt_root udf_demo_mnt) udf_demo_dirs.
Proof.
  split.
  - intros n Hn. unfold udf_demo_dirs in Hn. unfold udf_listable. rewrite !elem_of_cons in Hn.
    destruct Hn as [->|[->|[->|[]%not_elem_of_nil]]]; (eexists; apply demo_lists_as; [lia|vm_compute; reflexivity]).
  - unfold udf_demo_dirs. assert (lba (extent (mnt_root udf_demo_mnt)) = 261) as -> by (vm_compute; reflexivity). by left.
  - intros n m Hn Hm Hk. unfold udf_demo_dirs in *.
    assert (H : ∀ d, d ∈ [261; 264; 268] → forallb (λ m, negb (bool_decide (kind m = ODFS_NODE_DIR)) || bool_decide (lba (extent m) ∈ [261; 264; 268]))
      (udf_faces udf_demo_disc enough_memory udf_demo_ctx d 0 ODFS_BACKEND_UDF) = true).
    { intros d Hd. rewrite !elem_of_cons in Hd. destruct Hd as [->|[->|[->|[]%not_elem_of_nil]]]; vm_compute; reflexivity. }
    specialize (H _ Hn). rewrite forallb_forall in H. apply list_elem_of_In in Hm. specialize (H m Hm). rewrite (bool_decide_true _ Hk) in H. by apply bool_decide_eq_true_1 in H.
  - done.
Qed.
(** The ideal cache of the disc. *)
Lemma demo_cache_laws : CacheLaws unit (H := disc_cache udf_demo_disc 2048) udf_demo_disc 2048 (λ _, True) (λ _, True) (λ _ _, True).
Proof. apply disc_cache_laws, udf_demo_sector. Qed.
Lemma demo_cache_readable : CacheReadable unit (H := disc_cache udf_demo_disc 2048) (λ _, True) demo_readable.
Proof. intros [] l _ _ _. by exists l, tt. Qed.
Lemma demo_cache_bytes : CacheReadsBytes unit (H := disc_cache udf_demo_disc 2048) (λ _, True) 2048 demo_spans.
Proof.
  split.
  - intros a b a' b' Hs Ha Hb. exact (cb_sub (CacheReadsBytes := block_cache_bytes udf_demo_medium udf_demo_disc 2048 udf_demo_reads ltac:(lia)) a b a' b' Hs Ha Hb).
  - intros [] start offset buf len _ _ _ _ _ _. by eexists _, tt.
Qed.
