(* ===== verification/UdfSpec.v ===== *)
(** * UDF volumes

    The theorems about UDF: objects are read exactly, paths and files on a mounted volume
    are those of the listings, an enumeration goes on where it stopped, links are read as
    they are spelled, and the parent of a directory is the directory that lists it. *)
From stdpp Require Import gmap strings.
From S2P Require Import Prelude Types Strings Namefix Media BlockCache BlockCacheProofs BlockCacheRead BlockCacheSpec CacheApi Charset.
From S2P Require Import Backend MetaCache MetaCacheProofs MetaCacheSpec Session Mount MountProofs MountSpec AncestrySpec IsoVolume Reader.
From S2P Require Import Reader Discs Udf UdfObjects UdfListing UdfReaddir UdfLinks UdfBackend UdfDisc.
Open Scope Z_scope.

(** ** Objects *)

(** [C4] Reading any range of a UDF object gives exactly its bytes, as far as they are
    there: the data in the file entry, or the extents of the allocation descriptors one
    after the other, through the blocks in which the descriptors go on, with zeros for
    extents that are not recorded; the rest of the buffer is not touched. *)
Theorem udf_object_read_exact {C} {HO : CacheOps C} img inv ok ptr readable spans ctx l d c offset buf want :
  CacheLaws C img 2048 inv ok ptr → CacheReadable C ok readable → CacheReadsBytes C ok 2048 spans → (∀ l, Forall is_byte (img l)) →
  object_at img ctx readable spans l d → ok c → 0 ≤ offset < 2 ^ 63 → 0 ≤ want ≤ zlen buf → want < 2 ^ 63 →
  let got := slice (data_bytes img ctx d) offset want in
  ∃ c', udf_read_object ctx c l offset buf want = Ret (ODFS_OK, got ++ drop (length got) buf, zlen got, c') ∧ ok c'.
Proof.
  intros HL HR HB Hb Hd Hok Ho Hw H63 got. destruct (read_object_exact img inv ok ptr readable spans Hb ctx l d c offset buf want Hd Hok Ho Hw H63) as (c' & Hok' & He).
  by exists c'.
Qed.

(** [/Sub/two] from the recorded extent over the hole into the one the second block of
    descriptors gives, and its end. *)
Lemma udf_object_read_exact_witness :
  let HO := disc_cache udf_demo_disc 2048 in
  (∃ c', udf_read_object udf_demo_ctx () 266 2046 (replicate 2060 9) 2055 =
    Ret (ODFS_OK, [65; 65] ++ replicate 2048 0 ++ str "tail" ++ [66] ++ replicate 5 9, 2055, c') ∧ True) ∧
  ∃ c', udf_read_object udf_demo_ctx () 266 4198 (replicate 4 9) 4 = Ret (ODFS_OK, [66; 66; 9; 9], 2, c') ∧ True.
Proof.
  intros HO.
  assert (Hd : object_at udf_demo_disc udf_demo_ctx demo_readable demo_spans 266 (demo_data 266)) by (apply demo_object_at; [lia|vm_compute; reflexivity|vm_compute; reflexivity]).
  assert (G1 : slice (data_bytes udf_demo_disc udf_demo_ctx (demo_data 266)) 2046 2055 = [65; 65] ++ replicate 2048 0 ++ str "tail" ++ [66]) by (vm_compute; reflexivity).
  assert (G2 : slice (data_bytes udf_demo_disc udf_demo_ctx (demo_data 266)) 4198 4 = [66; 66]) by (vm_compute; reflexivity).
  assert (L1 : zlen (replicate 2060 9) = 2060) by (vm_compute; reflexivity).
  revert Hd G1 G2 L1. generalize (demo_data 266). intros d Hd G1 G2 L1. split.
  - destruct (udf_object_read_exact udf_demo_disc _ _ _ _ _ udf_demo_ctx 266 d () 2046 (replicate 2060 9) 2055 demo_cache_laws demo_cache_readable demo_cache_bytes
      udf_demo_bytes Hd I ltac:(lia) ltac:(lia) ltac:(lia)) as (c' & He & Hok').
    cbv zeta in He. rewrite G1 in He. exists c'. split; [|exact Hok']. etransitivity; [exact He|]. vm_compute. reflexivity.
  - destruct (udf_object_read_exact udf_demo_disc _ _ _ _ _ udf_demo_ctx 266 d () 4198 (replicate 4 9) 4 demo_cache_laws demo_cache_readable demo_cache_bytes
      udf_demo_bytes Hd I ltac:(lia) ltac:(simpl; lia) ltac:(lia)) as (c' & He & Hok').
    cbv zeta in He. rewrite G2 in He. exists c'. split; [|exact Hok']. exact He.
Defined.

(** ** Mounted volumes *)
Section properties.
Context {M K : Type} (mops : odfs_media_ops M) (img : Z → list Z) (put : udf_context → K) (get : K → option udf_context) (calloc : gmap Z K → Z)
  (nf_malloc : nat → Z → bool) (others : Z → odfs_backend_ops (world M (gmap Z K))).
Definition udf_rd : reader (odfs_cache M) udf_context := udf_reader (HO := block_cache_ops mops) nf_malloc (λ _, true).
(** A volume mounted from [m] by this backend; [dirs] are the directories of the tree, all
    of them readable. *)
Record udf_mount_of (m : M) (mnt : odfs_mount_t) (w : world M (gmap Z K)) (ctx : udf_context) (dirs : odfs_node → Prop) : Prop := {
  um_store : ∀ c, get (put c) = Some c;
  um_mount : mount_of mops img put get calloc udf_rd 3 ODFS_BACKEND_UDF 0 others m mnt w ctx;
  um_tree : tree_of (udf_listable img (medium_readable mops 2048) (medium_spans mops 2048) nf_malloc ctx) (udf_faces img nf_malloc ctx) (mnt_root mnt) dirs }.
End properties.

(** [C3] Resolving a path on a mounted UDF volume is walking the listings of its
    directories: from the root, each name is looked up among the file identifiers of the
    directory, whose bytes may be in its file entry or in any number of extents; the
    answer is that of the walk, error or node, whatever the caches hold. *)
Theorem udf_volume_resolves {M K} (mops : odfs_media_ops M) img put get (calloc : gmap Z K → Z) nf_malloc others m mnt w ctx dirs meta_malloc path :
  let be := udf_backends mops put get calloc nf_malloc (λ _, true) others in
  MediaReads mops img 2048 → CleanFailure mops → (∀ l, Forall is_byte (img l)) →
  udf_mount_of mops img put get calloc nf_malloc others m mnt w ctx dirs → is_name path →
  ∃ err out mnt' w', odfs_resolve_path be meta_malloc mnt w path = Ret (err, out, mnt', w') ∧ cache_ok img 2048 (w_cache w') ∧
    (err, face <$> out) = walk be (udf_faces img nf_malloc ctx) mnt (mnt_root mnt) (components path []).
Proof.
  intros be Hmedia Hclean Hb [Hst Hm Ht] Hp.
  pose proof (block_cache_laws mops img 2048 Hmedia eq_refl) as HL. pose proof (block_cache_clean mops img 2048 Hmedia Hclean) as HF.
  pose proof (block_cache_readable mops img 2048 Hmedia) as HR. pose proof (block_cache_bytes mops img 2048 Hmedia eq_refl) as HB.
  pose proof (udf_laws img _ _ _ Hb nf_malloc (λ _, true) (HL := HL)) as HRL.
  pose proof (udf_lists img _ _ _ _ _ Hb nf_malloc (λ _, true) (λ _, eq_refl) ctx (HL := HL)) as HRS.
  destruct (reader_resolves mops img put get calloc (udf_rd mops nf_malloc) udf_mounted same_udf Hst 3 ODFS_BACKEND_UDF 0 others Hmedia m mnt w ctx Hm
    _ _ _ dirs Ht meta_malloc path Hp) as (err & out & mnt' & w' & He & _ & [Hw' _] & Hwk). by exists err, out, mnt', w'.
Qed.

Lemma udf_demo_mount_of : udf_mount_of udf_demo_medium udf_demo_disc (λ c, c) Some single_context enough_memory no_reader
  tt udf_demo_mnt udf_demo_world udf_demo_ctx udf_demo_dirs.
Proof.
  split; [done| |exact udf_demo_tree]. split.
  - apply no_reader_keeps.
  - exists (λ _, true), 300%nat, toc_zero, blank_sector, ∅, (Some demo_opts). split; [by simpl|]. vm_compute. reflexivity.
  - vm_compute. reflexivity.
  - vm_compute. reflexivity.
Qed.
Lemma udf_volume_resolves_witness :
  ∃ err out mnt' w', odfs_resolve_path udf_demo_be (λ _ _, true) udf_demo_mnt udf_demo_world udf_demo_path = Ret (err, out, mnt', w') ∧
    cache_ok udf_demo_disc 2048 (w_cache w') ∧
    (err, face <$> out) = walk udf_demo_be (udf_faces udf_demo_disc enough_memory udf_demo_ctx) udf_demo_mnt (mnt_root udf_demo_mnt) (components udf_demo_path []).
Proof.
  apply (udf_volume_resolves udf_demo_medium udf_demo_disc (λ c, c) Some single_context enough_memory no_reader tt udf_demo_mnt udf_demo_world
    udf_demo_ctx udf_demo_dirs).
  - exact udf_demo_reads.
  - apply image_ops_clean.
  - exact udf_demo_bytes.
  - exact udf_demo_mount_of.
  - exact udf_demo_path_name.
Defined.

(** [C5] Reading a file that a path on a UDF volume was resolved to gives exactly the bytes
    of the object its directory entry names, from the offset on, as many as were asked
    for and are there; the rest of the buffer is not touched. *)
Theorem udf_volume_reads {M K} (mops : odfs_media_ops M) img put get (calloc : gmap Z K → Z) nf_malloc others m mnt w ctx dirs
    meta_malloc path file mnt' w' d offset buf len err buf' n w2 :
  let be := udf_backends mops put get calloc nf_malloc (λ _, true) others in
  MediaReads mops img 2048 → CleanFailure mops → (∀ l, Forall is_byte (img l)) →
  udf_mount_of mops img put get calloc nf_malloc others m mnt w ctx dirs → is_name path →
  odfs_resolve_path be meta_malloc mnt w path = Ret (ODFS_OK, Some file, mnt', w') →
  object_at img ctx (medium_readable mops 2048) (medium_spans mops 2048) (lba (extent file)) d →
  0 ≤ offset < 2 ^ 63 → 0 ≤ len ≤ zlen buf → len < 2 ^ 63 → odfs_read be mnt' w' file offset buf len = Ret (err, buf', n, w2) →
  walk be (udf_faces img nf_malloc ctx) mnt (mnt_root mnt) (components path []) = (ODFS_OK, Some (face file)) ∧ 0 ≤ n ≤ len ∧
  (err = ODFS_OK → let got := slice (data_bytes img ctx d) offset len in buf' = got ++ drop (length got) buf ∧ n = zlen got).
Proof.
  intros be Hmedia Hclean Hb [Hst Hm Ht] Hp Hres Hd Ho Hlen H63 Hr.
  pose proof (block_cache_laws mops img 2048 Hmedia eq_refl) as HL. pose proof (block_cache_clean mops img 2048 Hmedia Hclean) as HF.
  pose proof (block_cache_readable mops img 2048 Hmedia) as HR. pose proof (block_cache_bytes mops img 2048 Hmedia eq_refl) as HB.
  pose proof (udf_laws img _ _ _ Hb nf_malloc (λ _, true) (HL := HL)) as HRL.
  pose proof (udf_lists img _ _ _ _ _ Hb nf_malloc (λ _, true) (λ _, eq_refl) ctx (HL := HL)) as HRS.
  destruct (reader_reads mops img put get calloc (udf_rd mops nf_malloc) udf_mounted same_udf Hst 3 ODFS_BACKEND_UDF 0 others Hmedia m mnt w ctx Hm
    _ _ _ dirs Ht meta_malloc path file mnt' w' offset buf len err buf' n w2 Hp Hres Hr) as (Hwk & Hok & [[Hne ->]|(c & cache' & Hs & Hrd)]);
    (split; [exact Hwk|]); [split; [lia|done]|].
  apply (object_at_same img ctx c) in Hd; [|done].
  destruct (read_object_exact (HO := block_cache_ops mops) img _ _ _ _ _ Hb c (lba (extent file)) d (w_cache w') offset buf len Hd Hok Ho Hlen H63 (HL := HL)) as (c' & _ & He).
  change (r_read (udf_rd mops nf_malloc) c (w_cache w') file offset buf len) with
    (udf_read_object (H := block_cache_ops mops) c (w_cache w') (lba (extent file)) offset buf len) in Hrd.
  rewrite He in Hrd. injection Hrd as <- <- <- _. rewrite (data_bytes_same img ctx c) by done.
  pose proof (length_slice_le (data_bytes img ctx d) offset len). split; [lia|]. intros _. done.
Qed.

Definition udf_demo_resolved := odfs_resolve_path udf_demo_be (λ _ _, true) udf_demo_mnt udf_demo_world udf_demo_path.
Definition udf_demo_node : odfs_node := Eval vm_compute in match udf_demo_resolved with Ret (_, Some n, _, _) => n | _ => node_zero end.
Definition udf_demo_mnt2 : odfs_mount_t := match udf_demo_resolved with Ret (_, _, mnt, _) => mnt | _ => mount_zero end.
Definition udf_demo_world2 : world unit (gmap Z udf_context) := match udf_demo_resolved with Ret (_, _, _, w) => w | _ => udf_demo_world end.
Definition udf_demo_world3 : world unit (gmap Z udf_context) :=
  match odfs_read udf_demo_be udf_demo_mnt2 udf_demo_world2 udf_demo_node 4094 (replicate 8 9) 4 with Ret (_, _, _, w) => w | _ => udf_demo_world end.
(** The end of the hole and the piece behind it. *)
Lemma udf_volume_reads_witness :
  odfs_read udf_demo_be udf_demo_mnt2 udf_demo_world2 udf_demo_node 4094 (replicate 8 9) 4 = Ret (ODFS_OK, [0; 0; 116; 97; 9; 9; 9; 9], 4, udf_demo_world3) ∧
  slice (data_bytes udf_demo_disc udf_demo_ctx (demo_data 266)) 4094 4 ++ [9; 9; 9; 9] = [0; 0; 116; 97; 9; 9; 9; 9].
Proof.
  assert (Hread : odfs_read udf_demo_be udf_demo_mnt2 udf_demo_world2 udf_demo_node 4094 (replicate 8 9) 4 =
    Ret (ODFS_OK, [0; 0; 116; 97; 9; 9; 9; 9], 4, udf_demo_world3)) by (vm_compute; reflexivity).
  split; [exact Hread|].
  assert (Hd : object_at udf_demo_disc udf_demo_ctx demo_readable demo_spans (lba (extent udf_demo_node)) (demo_data 266)).
  { assert (lba (extent udf_demo_node) = 266) as -> by reflexivity. apply demo_object_at; [lia|vm_compute; reflexivity|vm_compute; reflexivity]. }
  assert (L1 : length (slice (data_bytes udf_demo_disc udf_demo_ctx (demo_data 266)) 4094 4) = 4%nat) by (vm_compute; reflexivity).
  revert Hd L1. generalize (demo_data 266). intros d Hd L1.
  destruct (udf_volume_reads udf_demo_medium udf_demo_disc (λ c, c) Some single_context enough_memory no_reader tt udf_demo_mnt udf_demo_world
    udf_demo_ctx udf_demo_dirs (λ _ _, true) udf_demo_path udf_demo_node udf_demo_mnt2 udf_demo_world2 d 4094 (replicate 8 9) 4 ODFS_OK
    [0; 0; 116; 97; 9; 9; 9; 9] 4 udf_demo_world3 udf_demo_reads (image_ops_clean udf_demo_disc 300 2048) udf_demo_bytes udf_demo_mount_of udf_demo_path_name)
    as (_ & _ & H).
  - vm_compute. reflexivity.
  - exact Hd.
  - lia.
  - simpl. lia.
  - lia.
  - exact Hread.
  - destruct (H eq_refl) as [Hb _]. rewrite L1 in Hb. symmetry. exact Hb.
Defined.

(** ** Directories *)

(** [C25] An enumeration that stops, at an entry the callback refuses or at the end, and a
    second one from the offset the first returned, whatever callback it has: the first
    calls back on the entries of the listing from its own offset on, the second on exactly
    those behind the last entry the first delivered. *)
Theorem udf_readdir_resumes {C} {HO : CacheOps C} img inv ok ptr readable spans ctx malloc alloc dir L {T T'} (cb : odfs_dir_iter_fn T) (cb' : odfs_dir_iter_fn T') t t' r0 c :
  CacheLaws C img 2048 inv ok ptr → CacheReadable C ok readable → CacheReadsBytes C ok 2048 spans → (∀ l, Forall is_byte (img l)) → (∀ x, alloc x = true) →
  lists_as img readable spans ctx malloc (lba (extent dir)) L → ok c →
  let i := before (default 0 r0) L in
  ∃ N N' r1 r2 ctx1 ctx2 c1 c2, map face N = map face (nodes L) ∧ map face N' = map face (nodes L) ∧
    udf_readdir malloc alloc cb ctx c dir t r0 = Ret ((run cb (drop i N) t).1, (λ _, r1) <$> r0, ctx1, c1, (run cb (drop i N) t).2) ∧
    let rest := drop (i + Z.to_nat (delivered cb (drop i N) t)) N' in
    udf_readdir malloc alloc cb' ctx1 c1 dir t' (Some r1) = Ret ((run cb' rest t').1, Some r2, ctx2, c2, (run cb' rest t').2) ∧ ok c2.
Proof.
  intros HL HR HB Hb Ha HLs Hok i.
  destruct (udf_readdir_run img inv ok ptr readable spans Hb ctx malloc alloc Ha dir L HLs cb ctx c t r0 Hok (same_udf_refl _))
    as (N & r1 & ctx1 & c1 & HN & He & Hok1 & Hs1 & Hr1 & Hb1).
  destruct (udf_readdir_run img inv ok ptr readable spans Hb ctx malloc alloc Ha dir L HLs cb' ctx1 c1 t' (Some r1) Hok1 Hs1)
    as (N' & r2 & ctx2 & c2 & HN' & He' & Hok2 & _).
  exists N, N', r1, r2, ctx1, ctx2, c1, c2. split; [by eapply renumbered_face|]. split; [by eapply renumbered_face|]. split; [exact He|]. cbv zeta.
  change (default 0 (Some r1)) with r1 in He'. replace (before r1 L) with (i + Z.to_nat (delivered cb (drop i N) t))%nat in He'; [split; [exact He'|exact Hok2]|].
  fold i in Hb1. pose proof (delivered_le cb (drop i N) t). lia.
Qed.

(** [/Sub] in two portions, with its node, and the second with a bigger number to start from. *)
Definition udf_demo_sub_node : odfs_node := udf_dir_stub 264.
Definition one_name (n : odfs_node) (t : list (list Z)) : odfs_err * list (list Z) := (ODFS_ERR_EOF, t ++ [name n]).
Definition all_names (n : odfs_node) (t : list (list Z)) : odfs_err * list (list Z) := (ODFS_OK, t ++ [name n]).
Lemma one_name_run N x y z : map name (map face N) = [x; y; z] → run one_name (drop 0 N) [] = (ODFS_ERR_EOF, [x]) ∧ delivered one_name (drop 0 N) [] = 1.
Proof. destruct N as [|a N]; [done|]. by intros [= <- _]. Qed.
Lemma all_names_run N x y z : map name (map face N) = [x; y; z] → run all_names (drop (0 + Z.to_nat 1) N) [] = (ODFS_OK, [y; z]).
Proof. destruct N as [|a [|b [|c [|]]]]; try done. by intros [= _ <- <-]. Qed.
Lemma demo_lists_sub : lists_as udf_demo_disc demo_readable demo_spans udf_demo_ctx enough_memory (lba (extent udf_demo_sub_node))
  (udf_entries_of udf_demo_disc enough_memory udf_demo_ctx 264).
Proof. apply demo_lists_as; [simpl; lia|vm_compute; reflexivity]. Qed.
Lemma udf_readdir_resumes_witness :
  let HO := disc_cache udf_demo_disc 2048 in
  ∃ r1 r2 ctx1 ctx2 c1 c2,
    udf_readdir enough_memory (λ _, true) one_name udf_demo_ctx () udf_demo_sub_node [] (Some 0) = Ret (ODFS_ERR_EOF, Some r1, ctx1, c1, [str "two"]) ∧
    udf_readdir enough_memory (λ _, true) all_names ctx1 c1 udf_demo_sub_node [] (Some r1) = Ret (ODFS_OK, Some r2, ctx2, c2, [str "link"; str "Deep"]).
Proof.
  intros HO. pose proof demo_lists_sub as HLs. set (L := udf_entries_of _ _ _ 264) in *.
  assert (Hn : map name (map face (nodes L)) = [str "two"; str "link"; str "Deep"]) by (vm_compute; reflexivity).
  assert (H0 : before 0 L = 0%nat) by (vm_compute; reflexivity). clearbody L.
  destruct (udf_readdir_resumes udf_demo_disc _ _ _ _ _ udf_demo_ctx enough_memory (λ _, true) udf_demo_sub_node L one_name all_names [] [] (Some 0) ()
    demo_cache_laws demo_cache_readable demo_cache_bytes udf_demo_bytes (λ _, eq_refl) HLs I) as (N & N' & r1 & r2 & ctx1 & ctx2 & c1 & c2 & HN & HN' & He & He' & _).
  change (default 0 (Some 0)) with 0 in He, He'. rewrite H0 in He, He'. rewrite <- HN in Hn. assert (Hn' := Hn). rewrite HN, <- HN' in Hn'.
  destruct (one_name_run N _ _ _ Hn) as [R1 R2]. rewrite R1 in He. rewrite R2, (all_names_run N' _ _ _ Hn') in He'. exists r1, r2, ctx1, ctx2, c1, c2. split; [exact He|exact He'].
Defined.

(** [C26] A symbolic link whose data are path components, of up to 512 bytes, reads as the
    path they spell: the root, [..], and names, with slashes between them, whatever the
    caches hold, if every part of the path fits the buffer. *)
Theorem udf_link_spelled {C} {HO : CacheOps C} img inv ok ptr readable spans ctx malloc alloc dir L nm n d cs bs c :
  CacheLaws C img 2048 inv ok ptr → CacheReadable C ok readable → CacheReadsBytes C ok 2048 spans → (∀ l, Forall is_byte (img l)) → (∀ x, alloc x = true) →
  lists_as img readable spans ctx malloc (lba (extent dir)) L → ok c → is_name nm → listed (map face (nodes L)) nm = Some n → kind n = ODFS_NODE_SYMLINK →
  object_at img ctx readable spans (lba (extent n)) d → data_bytes img ctx d = comps_bytes cs → size n = zlen (comps_bytes cs) → zlen (comps_bytes cs) ≤ 512 →
  Forall comp_ok cs → (∀ a b, cs = a ++ b → zlen (path_text a) < bs) → path_text cs ≠ [] →
  ∃ ctx' c', udf_readlink malloc alloc ctx c dir nm bs = Ret (ODFS_OK, Some (path_text cs), ctx', c') ∧ ok c'.
Proof.
  intros HL HR HB Hb Ha HLs Hok Hnm Hn Hk Hd Hdata Hsz H512 Hcs Hfit Hne.
  destruct (udf_readlink_run img inv ok ptr readable spans Hb ctx malloc alloc Ha ctx c dir L nm n d cs bs Hok (same_udf_refl _) HLs Hnm Hn Hk Hd Hdata Hsz H512 Hcs
    Hfit Hne) as (ctx' & c' & He & Hok' & _). by exists ctx', c'.
Qed.

(** [/Sub/link] is [../a.txt], also with a buffer it just fits. *)
Definition demo_link_comps : list udf_comp := [CompParent; CompName (name8 "a.txt") (str "a.txt")].
Lemma udf_link_spelled_witness :
  let HO := disc_cache udf_demo_disc 2048 in
  ∃ ctx' c', udf_readlink enough_memory (λ _, true) udf_demo_ctx () udf_demo_sub_node (str "LINK") 9 = Ret (ODFS_OK, Some (str "../a.txt"), ctx', c') ∧ True.
Proof.
  intros HO. pose proof demo_lists_sub as HLs. set (L := udf_entries_of _ _ _ 264) in *. destruct (listed (map face (nodes L)) (str "LINK")) as [n|] eqn:Hn; [|exfalso; vm_compute in Hn; discriminate].
  assert (Hnode : kind n = ODFS_NODE_SYMLINK ∧ lba (extent n) = 267 ∧ size n = 14) by (vm_compute in Hn; injection Hn as <-; by split_and!). clearbody L. destruct Hnode as (Hk & Hlba & Hsz).
  assert (Hd : object_at udf_demo_disc udf_demo_ctx demo_readable demo_spans (lba (extent n)) (demo_data 267)).
  { rewrite Hlba. apply demo_object_at; [lia|vm_compute; reflexivity|vm_compute; reflexivity]. }
  assert (Hdata : data_bytes udf_demo_disc udf_demo_ctx (demo_data 267) = comps_bytes demo_link_comps) by (vm_compute; reflexivity).
  revert Hd Hdata. generalize (demo_data 267). intros d Hd Hdata.
  apply (udf_link_spelled udf_demo_disc _ _ _ _ _ udf_demo_ctx enough_memory (λ _, true) udf_demo_sub_node L (str "LINK") n d demo_link_comps 9 ()
    demo_cache_laws demo_cache_readable demo_cache_bytes udf_demo_bytes (λ _, eq_refl) HLs I); try assumption.
  - repeat constructor; lia.
  - vm_compute. discriminate.
  - constructor; [exact I|]. constructor; [|constructor]. split; [vm_compute; discriminate|]. split; [discriminate|vm_compute; reflexivity].
  - intros a b Hab. destruct a as [|? [|? [|? a]]]; try discriminate; [|injection Hab as <- _|injection Hab as <- <- _]; vm_compute; reflexivity.
  - vm_compute. discriminate.
Defined.

(** ** Parents *)

(** What the directories of the disc say of the one in the sector [d]: its parent is
    listed as [n] where that is, and the parent's parent as [gn]; the parent of a
    directory of the root is the root, and so is then the parent's parent. *)
Section parents.
Context (img : Z → list Z) (readable : Z → Prop) (spans : Z → Z → Prop) (ctx : udf_context) (malloc : nat → Z → bool).
Definition udf_parents (d : Z) (n gn : odfs_node) : Prop :=
  ∃ p, udf_is_in img readable spans ctx d p ∧ p ≠ d ∧
    if p =? lba (extent (root ctx)) then n = face (root ctx) ∧ gn = face (root ctx)
    else ∃ g, udf_is_in img readable spans ctx p g ∧ udf_shown_as img readable spans ctx malloc p n ∧
      if g =? lba (extent (root ctx)) then gn = face (root ctx) else udf_shown_as img readable spans ctx malloc g gn.
End parents.

(** [C27] The parent of a directory below the root is found, and its grandparent when it is
    asked for: the nodes are those that the directories above list, found through the
    parent identifiers of the directories and the ICBs they name. *)
Theorem udf_resolve_parent_correct {C} {HO : CacheOps C} img inv ok ptr readable spans ctx malloc alloc dir want_gp n gn c :
  CacheLaws C img 2048 inv ok ptr → CacheReadable C ok readable → CacheReadsBytes C ok 2048 spans → (∀ l, Forall is_byte (img l)) → (∀ x, alloc x = true) →
  ok c → kind dir = ODFS_NODE_DIR → lba (extent dir) ≠ lba (extent (root ctx)) → udf_parents img readable spans ctx malloc (lba (extent dir)) n gn →
  ∃ pn gpn ctx' c', udf_resolve_parent malloc alloc ctx c dir want_gp = Ret (ODFS_OK, Some pn, gpn, ctx', c') ∧ ok c' ∧
    face pn = n ∧ face <$> gpn = if want_gp then Some gn else None.
Proof.
  intros HL HR HB Hb Ha Hok Hk Hr (p & Hp & Hne & Hrest).
  assert (∃ g, if p =? lba (extent (root ctx)) then n = face (root ctx) ∧ gn = face (root ctx)
    else udf_is_in img readable spans ctx p g ∧ udf_shown_as img readable spans ctx malloc p n ∧
      if g =? lba (extent (root ctx)) then gn = face (root ctx) else udf_shown_as img readable spans ctx malloc g gn) as [g Hg].
  { destruct (p =? _); [by exists 0|exact Hrest]. }
  destruct (udf_resolve_parent_run img inv ok ptr readable spans Hb ctx malloc alloc Ha ctx c dir want_gp p n g gn (same_udf_refl _) Hok Hk Hr Hp Hne Hg)
    as (pn & gpn & ctx' & c' & He & Hok' & _ & Hn & Hgn). by exists pn, gpn, ctx', c'.
Qed.

(** The parent a listed directory names. *)
Definition named_parent (img : Z → list Z) (ctx : udf_context) (l : Z) : option Z :=
  match udf_object img ctx l with
  | Ret d => match dir_fids (data_bytes img ctx d) with
             | Ret fs => (λ f, udf_phys_lba ctx (fid_icb_lba f)) <$> List.find is_parent fs
             | _ => None
             end
  | _ => None
  end.
Lemma named_is_in img readable spans ctx malloc l L p : lists_as img readable spans ctx malloc l L → named_parent img ctx l = Some p → udf_is_in img readable spans ctx l p.
Proof.
  intros (D & fs & HD & Hfs & _) Hp. pose proof HD as (d & icb & (_ & _ & Hd & _) & HDd & _).
  unfold named_parent in Hp. rewrite Hd, HDd, Hfs in Hp. apply fmap_Some in Hp as (f & Hf & ->). by exists D, fs, f.
Qed.
Lemma demo_is_in l p : 0 ≤ l < 300 → demo_lists enough_memory l = true → named_parent udf_demo_disc udf_demo_ctx l = Some p → udf_is_in udf_demo_disc demo_readable demo_spans udf_demo_ctx l p.
Proof. intros Hl HLs Hp. exact (named_is_in _ _ _ _ _ _ _ p (demo_lists_as enough_memory l Hl HLs) Hp). Qed.
(** The parent of [/Sub/Deep] is [Sub], which is in the root. *)
Lemma udf_resolve_parent_correct_witness :
  let HO := disc_cache udf_demo_disc 2048 in
  ∃ pn gpn ctx' c', udf_resolve_parent enough_memory (λ _, true) udf_demo_ctx () (udf_dir_stub 268) true = Ret (ODFS_OK, Some pn, Some gpn, ctx', c') ∧
    name pn = str "Sub" ∧ lba (extent pn) = 264 ∧ name gpn = str "/".
Proof.
  intros HO. destruct (by_number (map face (nodes (udf_entries_of udf_demo_disc enough_memory udf_demo_ctx 261))) 264) as [n|] eqn:Hn; [|exfalso; vm_compute in Hn; discriminate].
  assert (Hname : name n = str "Sub" ∧ lba (extent n) = 264) by (vm_compute in Hn; injection Hn as <-; by split). destruct Hname as [Hname Hlba].
  destruct (udf_resolve_parent_correct udf_demo_disc _ _ _ _ _ udf_demo_ctx enough_memory (λ _, true) (udf_dir_stub 268) true n (face (root udf_demo_ctx)) ()
    demo_cache_laws demo_cache_readable demo_cache_bytes udf_demo_bytes (λ _, eq_refl) I eq_refl) as (pn & gpn & ctx' & c' & He & _ & Hpn & Hg).
  - vm_compute. discriminate.
  - exists 264. split; [apply demo_is_in; [simpl; lia|vm_compute; reflexivity|vm_compute; reflexivity]|]. split; [discriminate|].
    assert ((264 =? lba (extent (root udf_demo_ctx))) = false) as -> by reflexivity. exists 261.
    split; [apply demo_is_in; [lia|vm_compute; reflexivity|vm_compute; reflexivity]|].
    assert ((261 =? lba (extent (root udf_demo_ctx))) = true) as -> by reflexivity. split; [|reflexivity].
    exists 261, (udf_entries_of udf_demo_disc enough_memory udf_demo_ctx 261).
    split; [apply demo_is_in; [lia|vm_compute; reflexivity|vm_compute; reflexivity]|]. split; [|exact Hn].
    apply demo_lists_as; [lia|vm_compute; reflexivity].
  - destruct gpn as [gp|]; [|discriminate]. exists pn, gp, ctx', c'. split; [exact He|]. rewrite <- Hpn in Hname, Hlba. split; [exact Hname|]. split; [exact Hlba|].
    assert (face gp = face (root udf_demo_ctx)) as Hgp by exact (Some_inj _ _ Hg). change (name gp) with (name (face gp)). rewrite Hgp. reflexivity.
Defined.
