(* ===== verification/UdfBounds.v ===== *)
(** * UDF operations end, and where they stay

    Every operation ends, whatever the disc holds and the cache answers; on discs with
    blocks of at most 2048 bytes and sizes that do not wrap around, none accesses memory
    outside its objects; and what the code does on the other discs, with times and with
    names. *)
From stdpp Require Import gmap strings.
From S2P Require Import Prelude Types Strings Namefix Media CacheApi Charset Backend MetaCache Reader.
From S2P Require Import Discs Udf UdfObjects UdfListing UdfReaddir UdfTotal UdfDisc.
Open Scope Z_scope.

(** ** Ending *)

Lemma halts_not {A} (m : outcome A) : halts m → m ≠ Diverge.
Proof. by intros H ->. Qed.

(** [C29] No operation on a UDF volume runs for ever: whatever the medium holds and the
    cache answers, and whatever the callback does, probing, mounting, reading,
    enumerating, looking up and the search for a parent end; so does the reading of a
    link, if what the cache delivers are bytes. *)
Theorem udf_never_hangs {C} {HO : CacheOps C} malloc alloc ctx (c : C) dir :
  (∀ start, udf_probe c start ≠ Diverge) ∧ (∀ a start, udf_mount a c start ≠ Diverge) ∧
  (∀ offset buf len, udf_read ctx c dir offset buf len ≠ Diverge) ∧
  (∀ T (cb : odfs_dir_iter_fn T) t r, udf_readdir malloc alloc cb ctx c dir t r ≠ Diverge) ∧
  (∀ nm, udf_lookup malloc alloc ctx c dir nm ≠ Diverge) ∧ (∀ gp, udf_resolve_parent malloc alloc ctx c dir gp ≠ Diverge) ∧
  ((∀ c p, Forall is_byte (bc_data c p)) →
   (∀ c l o buf n err buf' k c', Forall is_byte buf → bc_read_bytes c l o buf n = (err, buf', k, c') → Forall is_byte buf') →
   ∀ nm bs, udf_readlink malloc alloc ctx c dir nm bs ≠ Diverge).
Proof.
  split; [|split; [|split; [|split; [|split; [|split]]]]]; intros.
  - apply halts_not, udf_probe_halts.
  - apply halts_not, udf_mount_halts.
  - apply halts_not, udf_read_halts.
  - apply halts_not, udf_readdir_halts.
  - apply halts_not, udf_lookup_halts.
  - apply halts_not, udf_resolve_parent_halts.
  - by apply halts_not, udf_readlink_halts.
Qed.

(** A disc whose blocks of descriptors go on at themselves. *)
Definition udf_loop_table : list (Z * list Z) := [(261, make_fe 5 UDF_ICB_ALLOC_LONG 100 (make_long_ad 3 2048 9)); (269, make_aed (make_long_ad 3 2048 9))].
Definition udf_loop_disc : Z → list Z := table_disc udf_loop_table.
Lemma udf_loop_bytes l : Forall is_byte (udf_loop_disc l).
Proof. apply table_disc_bytes. vm_compute. reflexivity. Qed.
Lemma disc_cache_bytes img : (∀ l, Forall is_byte (img l)) →
  let HO := disc_cache img 2048 in
  (∀ (c : unit) p, Forall is_byte (bc_data c p)) ∧
  (∀ (c : unit) l o buf n err buf' k c', Forall is_byte buf → bc_read_bytes c l o buf n = (err, buf', k, c') → Forall is_byte buf').
Proof.
  intros Hb HO. split; [intros c p; apply Hb|]. intros c l o buf n err buf' k c' Hbuf [= _ <- _]. apply Forall_app. split; [by apply disc_bytes_bytes|by apply Forall_drop].
Qed.
Lemma udf_never_hangs_witness :
  let HO := disc_cache udf_loop_disc 2048 in
  (udf_read udf_demo_ctx () (udf_dir_stub 261) 0 (replicate 4 0) 4 ≠ Diverge) ∧
  udf_readlink enough_memory (λ _, true) udf_demo_ctx () (udf_dir_stub 261) (str "x") 10 ≠ Diverge.
Proof.
  intros HO. destruct (udf_never_hangs enough_memory (λ _, true) udf_demo_ctx () (udf_dir_stub 261)) as (_ & _ & H & _ & _ & _ & Hl).
  destruct (disc_cache_bytes udf_loop_disc udf_loop_bytes) as [H1 H2]. split; [apply H|exact (Hl H1 H2 (str "x") 10)].
Defined.
(** The read on that disc is given up after 4096 blocks. *)
Example udf_loop_cut : let HO := disc_cache udf_loop_disc 2048 in
  udf_read udf_demo_ctx () (udf_dir_stub 261) 0 (replicate 4 0) 4 = Ret (ODFS_ERR_CORRUPT, [0; 0; 0; 0], 0, ()).
Proof. vm_compute. reflexivity. Qed.

(** ** Staying inside *)

Section bounds.
Context {C : Type} {HO : CacheOps C} (img : Z → list Z) (inv ok : C → Prop) (ptr : C → Z → Prop).
Context {HL : CacheLaws C img 2048 inv ok ptr} {HF : CacheCleanFailure C ok ptr}.
Lemma safe_dstring src n dst : 1 ≤ n ≤ zlen src → Forall is_byte src → 1 ≤ dst → fine (udf_decode_dstring src n dst).
Proof.
  intros Hn Hb Hd. unfold udf_decode_dstring. case_test; [done|].
  eapply safe_bind; [apply safe_after; [apply safe_rd; lia|apply lands_after, (lands_rd is_byte), Hb]|]. intros used [_ Hu]. unfold is_byte in Hu.
  destruct ((used =? 0) || _) eqn:E1; [done|]. b2p. eapply (safe_bind _ _ (λ _, True)); [|done]. unfold cs0_bytes. eapply safe_bind; [apply safe_rd; lia|intros id _].
  case_test; [eapply (safe_bind _ _ (λ _, True)); [eapply safe_weaken; [apply safe_range; lia|by intros ? _]|done]|].
  eapply safe_weaken; [apply safe_range|by intros ? _]; try case_test; b2p; lia.
Qed.
Lemma vds_sector_safe s st : zlen s = 2048 → Forall is_byte s → fine (vds_sector s st).
Proof.
  intros Hs Hb. assert (Hm : ∀ n, 0 ≤ n ≤ 100 → zlen (mem_at s n) = 2048 - n ∧ Forall is_byte (mem_at s n)).
  { intros n Hn. unfold mem_at. rewrite (proj2 (Z.leb_le _ _)), length_drop by lia. split; [lia|by apply Forall_drop]. }
  unfold vds_sector. destruct st as [[ctx pd] fsd]. eapply safe_bind; [apply safe_tag; lia|]. intros [tag good] _. case_test; [done|].
  case_test; [eapply safe_bind; [apply safe_dstring; [rewrite (proj1 (Hm 24 ltac:(lia))); lia|apply Hm; lia|lia]|done]|].
  case_test; [eapply safe_bind; [apply safe_le16; lia|intros ? _]; eapply safe_bind; [apply safe_le32; lia|intros ? _]; eapply safe_bind; [apply safe_le32; lia|done]|].
  case_test; [|by case_test]. eapply safe_bind; [apply safe_le32; lia|intros ? _].
  eapply safe_bind; [case_test; [apply safe_dstring; [rewrite (proj1 (Hm 84 ltac:(lia))); lia|apply Hm; lia|lia]|done]|intros ? _].
  eapply safe_bind; [apply safe_le32; lia|intros ? _]. eapply safe_bind; [apply safe_le32; lia|intros ? _]. eapply safe_bind; [apply safe_le16; lia|done].
Qed.
Context (Hbytes : ∀ l, Forall is_byte (img l)).
Lemma scan_vds_safe n : ∀ c l st, ok c → is_u32 l → safe (scan_vds n c l st) (λ '(_, c'), ok c').
Proof using HL HF Hbytes.
  induction n as [|n IH]; intros c l st Hok Hl; cbn [scan_vds]; [done|].
  destruct (read_any img inv ok ptr c l Hok Hl) as (err & p & c1 & -> & Hok1 & Hd). case_test; [by apply IH, u32_range|]. apply negb_false_iff in E. rewrite (Hd E).
  eapply safe_bind; [apply vds_sector_safe; [apply cl_sector|apply Hbytes]|]. intros [st'|] _; [by apply IH, u32_range|done].
Qed.
Lemma probe_safe c s : ok c → fine (udf_probe c s).
Proof using HL HF.
  intros Hok. unfold udf_probe. destruct (read_any img inv ok ptr c _ Hok (u32_range (s + UDF_AVDP_LBA))) as (err & p & c1 & -> & Hok1 & Hd).
  case_test; [done|]. apply negb_false_iff in E. rewrite (Hd E). sb; [apply safe_is_tag; rewrite cl_sector; lia|done].
Qed.
Lemma mount_safe a c s : ok c → fine (udf_mount a c s).
Proof using HL HF Hbytes.
  intros Hok. unfold udf_mount. case_test; [done|]. destruct (read_any img inv ok ptr c _ Hok (u32_range (s + UDF_AVDP_LBA))) as (err & p & c1 & -> & Hok1 & Hd).
  case_test; [done|]. apply negb_false_iff in E0. rewrite (Hd E0). clear Hd E0. pose proof (cl_sector (CacheLaws := HL)) as Hlen.
  sb; [apply safe_is_tag; rewrite Hlen; lia|]. case_test; [done|].
  eapply safe_bind; [apply safe_after; [apply safe_le32; rewrite ?Hlen; lia|apply udf_le32_after, Hbytes]|]. intros vl [_ Hvl]. sb; [apply safe_le32; rewrite ?Hlen; lia|].
  eapply safe_bind; [by apply scan_vds_safe|]. intros [[[ctx pd] [fsd|]] c2] Hok2; [|done]. case_test; [done|].
  destruct (read_any img inv ok ptr c2 _ Hok2 (phys_u32 ctx fsd)) as (err2 & p2 & c3 & -> & Hok3 & Hd2). case_test; [done|]. apply negb_false_iff in E2. rewrite (Hd2 E2). clear Hd2 E2.
  sb; [apply safe_is_tag; rewrite Hlen; lia|]. case_test; [done|]. sb; [apply safe_le32; rewrite ?Hlen; lia|]. sb; [apply safe_le16; rewrite ?Hlen; lia|]. cbv zeta.
  destruct (read_any img inv ok ptr c3 _ Hok3 (phys_u32 ctx a3)) as (err4 & p4 & c4 & -> & Hok4 & Hd4). case_test; [done|]. apply negb_false_iff in E3. rewrite (Hd4 E3). clear Hd4 E3.
  sb; [apply safe_is_tag; rewrite Hlen; lia|]. case_test; [done|]. eapply safe_bind; [apply safe_tag; rewrite Hlen; lia|]. intros [tag good] _.
  sb; [apply safe_le64; rewrite ?Hlen; lia|]. sb; [apply safe_timestamp; case_test; rewrite ?Hlen; lia|done].
Qed.
End bounds.

(** [C28] On a disc whose file entries do not claim [2 ^ 63] bytes or more, and a volume with
    blocks of at most 2048 bytes, no operation accesses memory outside a sector, the
    buffer it is given or its own: probing, mounting, reading, enumerating and looking up
    return, whatever else the disc holds; a read leaves the buffer its length. *)
Theorem udf_stays_in_bounds {C} {HO : CacheOps C} img inv ok ptr malloc alloc ctx (c : C) node :
  CacheLaws C img 2048 inv ok ptr → CacheCleanFailure C ok ptr → CacheBeyond C ok 2048 → (∀ l, Forall is_byte (img l)) →
  sizes_ok img → small_blocks ctx → is_u32 (lba (extent node)) → ok c →
  (∀ start, ∃ r, udf_probe c start = Ret r) ∧ (∀ a start, ∃ r, udf_mount a c start = Ret r) ∧
  (∀ offset buf len, 0 ≤ offset → 0 ≤ len ≤ zlen buf → Forall is_byte buf →
    ∃ err buf' n c', udf_read ctx c node offset buf len = Ret (err, buf', n, c') ∧ (err = ODFS_OK → ok c' ∧ length buf' = length buf ∧ 0 ≤ n ≤ len)) ∧
  (∀ T (cb : odfs_dir_iter_fn T) t r, ∃ r', udf_readdir malloc alloc cb ctx c node t r = Ret r') ∧
  (∀ nm, ∃ r, udf_lookup malloc alloc ctx c node nm = Ret r).
Proof.
  intros HL HF HX Hb Hsz Hs Hn Hok. split; [|split; [|split; [|split]]]; intros.
  - destruct (safe_lands _ _ _ (probe_safe img inv ok ptr c start Hok) (udf_probe_halts c start)) as (r & ? & _). by exists r.
  - destruct (safe_lands _ _ _ (mount_safe img inv ok ptr Hb a c start Hok) (udf_mount_halts a c start)) as (r & ? & _). by exists r.
  - destruct (safe_lands _ _ _ (read_object_safe img inv ok ptr Hb Hsz ctx Hs c (lba (extent node)) offset buf len Hok Hn H H0 H1)
      (udf_read_halts ctx c node offset buf len)) as ([[[err buf'] n] c'] & He & Hr).
    exists err, buf', n, c'. split; [exact He|]. intros E. destruct (Hr E) as (? & ? & _ & ?). done.
  - destruct (safe_lands _ _ _ (readdir_safe img inv ok ptr Hb Hsz malloc alloc cb ctx c node t r Hn Hs Hok) (udf_readdir_halts malloc alloc T cb ctx c node t r)) as (r' & ? & _).
    by exists r'.
  - destruct (safe_lands _ _ _ (lookup_safe img inv ok ptr Hb Hsz malloc alloc ctx c node nm Hn Hs Hok) (udf_lookup_halts malloc alloc ctx c node nm)) as (r & ? & _).
    by exists r.
Qed.

(** The disc of [UdfDisc] is such a disc. *)
Lemma file_entry_size bs p a ds ea al base : file_entry bs p = Ret (inr (a, ds, ea, al, base)) → udf_le64 p 56 = Ret ds.
Proof.
  assert (Hf : ∀ b o, (inr (A := odfs_err) <$> entry_fields p b o) = Ret (inr (a, ds, ea, al, base)) → udf_le64 p 56 = Ret ds).
  { intros b o. unfold entry_fields. destruct (udf_le16 p 34); try done. destruct (udf_le64 p 56); try done. destruct (udf_le32 p o); try done.
    destruct (udf_le32 p (o + 4)); try done. cbn. by intros [= _ -> _ _ _]. }
  unfold file_entry. intros ([tag good] & _ & H)%bind_Ret. revert H. repeat case_test; try done; apply Hf.
Qed.
Lemma table_sizes t : forallb (λ e, match udf_le64 (pad_to 2048 (take 2048 e.2)) 56 with Ret ds => ds <? 2 ^ 63 | _ => true end) ((0, []) :: t) = true → sizes_ok (table_disc t).
Proof.
  intros H l bs a ds ea al base Hf%file_entry_size. unfold table_disc in Hf.
  assert (Hg : match udf_le64 (pad_to 2048 (take 2048 (table_get t l))) 56 with Ret ds => ds <? 2 ^ 63 | _ => true end = true); [|rewrite Hf in Hg; by apply Z.ltb_lt].
  rewrite forallb_forall in H. clear Hf. induction t as [|[k s] t IH]; cbn [table_get]; [exact (H (0, []) ltac:(by left))|].
  case_test; [apply (H (k, s)); right; by left|]. apply IH. intros e [He|He]; apply H; [by left|by do 2 right].
Qed.
Lemma udf_stays_in_bounds_witness :
  let HO := disc_cache udf_demo_disc 2048 in
  (∃ err buf' n c', udf_read udf_demo_ctx () (udf_dir_stub 266) 4000 (replicate 300 7) 300 = Ret (err, buf', n, c') ∧
    (err = ODFS_OK → True ∧ length buf' = 300%nat ∧ 0 ≤ n ≤ 300)) ∧
  ∃ r, udf_lookup enough_memory (λ _, true) udf_demo_ctx () (udf_dir_stub 270) (str "x") = Ret r.
Proof.
  intros HO.
  pose proof (λ n Hn, udf_stays_in_bounds udf_demo_disc _ _ _ enough_memory (λ _, true) udf_demo_ctx () n demo_cache_laws (disc_cache_clean _ _)
    (disc_cache_beyond udf_demo_disc 2048 udf_demo_bytes) udf_demo_bytes (table_sizes udf_demo_table ltac:(vm_compute; reflexivity)) ltac:(vm_compute; discriminate) Hn I) as H.
  split.
  - destruct (H (udf_dir_stub 266) ltac:(unfold is_u32; simpl; lia)) as (_ & _ & Hr & _).
    destruct (Hr 4000 (replicate 300 7) 300 ltac:(lia) ltac:(simpl; lia) ltac:(apply Forall_replicate; unfold is_byte; lia)) as (err & buf' & n & c' & He & Hx).
    exists err, buf', n, c'. split; [exact He|exact Hx].
  - destruct (H (udf_dir_stub 270) ltac:(unfold is_u32; simpl; lia)) as (_ & _ & _ & _ & Hl). apply Hl.
Defined.

(** ** The other discs, times and names *)

Definition one_fe (fields : list (Z * list Z)) : Z → list Z := table_disc [(261, make_descriptor UDF_TAG_FE fields)].
(** Data in the file entry, with a size that wraps around when the offset of the data is
    added: the copy begins at the offset asked for, far outside the sector. *)
Definition udf_wrap_disc : Z → list Z := one_fe [(27, [5]); (34, le16_bytes UDF_ICB_ALLOC_EMBEDDED); (56, replicate 8 255)].
Theorem udf_embedded_size_wraps :
  let HO := disc_cache udf_wrap_disc 2048 in
  udf_read udf_demo_ctx () (udf_dir_stub 261) 4096 (replicate 16 0) 16 = Fault.
Proof. vm_compute. reflexivity. Qed.
(** A volume with blocks of 4096 bytes: the descriptor of a file entry with as many
    attributes as these hold is looked for outside the sector. *)
Definition udf_big_disc : Z → list Z := one_fe [(27, [5]); (34, le16_bytes UDF_ICB_ALLOC_SHORT); (168, le32_bytes 2000); (172, le32_bytes 8)].
Theorem udf_big_block_faults :
  let HO := disc_cache udf_big_disc 2048 in
  udf_read_icb (set_volume 4096 [] udf_demo_ctx) () 261 = Fault.
Proof. vm_compute. reflexivity. Qed.
(** The 5th of March 2024, 12:30:45, as ECMA-167 has it: type and time zone, year, month,
    day, hour, minute, second. *)
Definition ecma_time : list Z := [16 + 15; 0x10] ++ le16_bytes 2024 ++ [3; 5; 12; 30; 45; 0; 0; 0].
Theorem udf_times_are_shifted : udf_parse_timestamp ecma_time 0 = Ret (mk_timestamp 1283 12 30 45 0 0 0).
Proof. vm_compute. reflexivity. Qed.
(** A name of 8-bit characters with an e acute: the bytes stay as they are, which are not
    UTF-8. *)
Theorem udf_latin_name_raw : udf_decode_cs0 [8; 99; 97; 102; 233] 5 256 = Ret [99; 97; 102; 233].
Proof. vm_compute. reflexivity. Qed.
