(* ===== verification/Printf.v ===== *)
(** * The formatter of the handler ([platform/amiga/printf_local.c])

    Text is put into a buffer as far as it fits, and counted.  Arguments have the widths
    of the machine: 32 bits for [int], [word] bits for [long], sizes and pointers.  Reading
    an argument of another type, signed overflow and accesses outside an array are
    [Fault]. *)
From stdpp Require Import strings.
From S2P Require Import Prelude Types Strings.
Open Scope Z_scope.

(* [src: platform/amiga/printf_local.c:14-22 FMT_ALT] *)
Definition FMT_ALT : Z := 1.
Definition FMT_ZERO_PAD : Z := 2.
Definition FMT_LEFT : Z := 4.
Definition FMT_PLUS : Z := 8.
Definition FMT_SPACE : Z := 16.
Definition FMT_UPPER : Z := 32.
Definition FMT_NEGATIVE : Z := 64.
Definition has (flags f : Z) : bool := negb (Z.land flags f =? 0).
(* [src: platform/amiga/printf_local.c:24-31 fmt_length] *)
Inductive fmt_length : Type := FMT_LEN_DEFAULT | FMT_LEN_SHORT | FMT_LEN_LONG | FMT_LEN_LLONG | FMT_LEN_SIZE | FMT_LEN_PTRDIFF.
(** The memory at the buffer, the positions in it, and the count that goes along. *)
(* [src: platform/amiga/printf_local.c:33-36 fmt_buf_t] *)
Record fmt_buf : Type := mk_fmt { fb_mem : list Z; fb_cur : Z; fb_end : Z; fb_count : Z }.

(** A value of type [int], of [w] bits, signed and unsigned. *)
Definition int (x : Z) : outcome Z := if (- 2 ^ 31 <=? x) && (x <? 2 ^ 31) then Ret x else Fault.
Definition unsigned_of (w x : Z) : Z := x mod 2 ^ w.
Definition signed_of (w x : Z) : Z := let m := unsigned_of w x in if m <? 2 ^ (w - 1) then m else m - 2 ^ w.

(** [n] bits of [word] are still to come. *)
(* [src: platform/amiga/printf_local.c:46-52 udiv64_32] *)
Fixpoint udiv_bits (n : nat) (word base rem q : Z) : Z * Z :=
  match n with
  | O => (rem, q)
  | S i =>
      let rem := Z.lor (u32 (Z.shiftl rem 1)) (Z.land (Z.shiftr word (Z.of_nat i)) 1) in
      if base <=? rem then udiv_bits i word base (rem - base) (Z.lor q (Z.shiftl 1 (Z.of_nat i))) else udiv_bits i word base rem q
  end.
(* [src: platform/amiga/printf_local.c:38-66 udiv64_32] *)
Definition udiv64_32 (value base : Z) : Z * Z :=
  let high := u32 (Z.shiftr value 32) in
  let low := u32 value in
  let '(rem, q_high) := udiv_bits 32 high base 0 0 in
  let '(rem, q_low) := udiv_bits 32 low base rem 0 in
  (Z.lor (Z.shiftl q_high 32) q_low, rem).

(** ** Putting characters *)

(* [src: platform/amiga/printf_local.c:68-73 fmt_putc] *)
Definition fmt_putc (buf : fmt_buf) (ch : Z) : outcome fmt_buf :=
  '(mem, cur) ← (if fb_cur buf <? fb_end buf then mem ← wr (fb_mem buf) (fb_cur buf) ch; Ret (mem, fb_cur buf + 1) else Ret (fb_mem buf, fb_cur buf));
  count ← int (fb_count buf + 1);
  Ret (mk_fmt mem cur (fb_end buf) count).
Fixpoint fmt_puts (buf : fmt_buf) (s : list Z) : outcome fmt_buf :=
  match s with [] => Ret buf | ch :: s => buf ← fmt_putc buf ch; fmt_puts buf s end.
(* [src: platform/amiga/printf_local.c:75-79 fmt_pad] *)
Definition fmt_pad (buf : fmt_buf) (ch width : Z) : outcome fmt_buf := fmt_puts buf (replicate (Z.to_nat width) ch).
(** A string is what is in front of its NUL. *)
(* [src: platform/amiga/printf_local.c:81-111 fmt_string] *)
Definition fmt_string (buf : fmt_buf) (s : option (list Z)) (flags width precision : Z) : outcome fmt_buf :=
  let s := default (str "(null)") s in
  let len := zlen s in
  let len := if (0 <=? precision) && (precision <? len) then precision else len in
  pad ← int (width - signed_of 32 len);
  buf ← (if negb (has flags FMT_LEFT) then fmt_pad buf 32 pad else Ret buf);
  buf ← fmt_puts buf (take (Z.to_nat len) s);
  if has flags FMT_LEFT then fmt_pad buf 32 pad else Ret buf.
(** The digits, the last first; [n] places are left in the array. *)
(* [src: platform/amiga/printf_local.c:141-145 fmt_unsigned] *)
Fixpoint digit_loop (n : nat) (value base : Z) (alphabet : list Z) : outcome (list Z) :=
  match n with
  | O => Fault
  | S n =>
      let '(q, rem) := udiv64_32 value base in
      d ← rd alphabet rem;
      if negb (q =? 0) then ds ← digit_loop n q base alphabet; Ret (d :: ds) else Ret [d]
  end.
Definition lower_digits : list Z := str "0123456789abcdef".
Definition upper_digits : list Z := str "0123456789ABCDEF".
(** The prefix is empty when the pointer is NULL. *)
(* [src: platform/amiga/printf_local.c:113-174 fmt_unsigned] *)
Definition fmt_unsigned (buf : fmt_buf) (value base flags width precision : Z) (prefix : list Z) : outcome fmt_buf :=
  digits ← (if value =? 0 then Ret (if negb (precision =? 0) then [48] else [])
            else digit_loop 32 value base (if has flags FMT_UPPER then upper_digits else lower_digits));
  let ndigits := zlen digits in
  let zeroes := if precision - ndigits <? 0 then 0 else precision - ndigits in
  total ← int (zlen prefix + zeroes + ndigits);
  let pad := if (Z.land flags (Z.lor FMT_ZERO_PAD FMT_LEFT) =? FMT_ZERO_PAD) && (precision <? 0) then 48 else 32 in
  buf ← (if negb (has flags FMT_LEFT) && (pad =? 32) then fmt_pad buf 32 (width - total) else Ret buf);
  buf ← fmt_puts buf prefix;
  buf ← (if negb (has flags FMT_LEFT) && (pad =? 48) then fmt_pad buf 48 (width - total) else Ret buf);
  buf ← fmt_pad buf 48 zeroes;
  buf ← fmt_puts buf (rev digits);
  if has flags FMT_LEFT then fmt_pad buf 32 (width - total) else Ret buf.
(* [src: platform/amiga/printf_local.c:176-207 fmt_signed] *)
Definition fmt_signed (buf : fmt_buf) (value flags width precision : Z) : outcome fmt_buf :=
  if value <? 0 then fmt_unsigned buf (u64 (u64 (- (value + 1)) + 1)) 10 (Z.lor flags FMT_NEGATIVE) width precision [45]
  else fmt_unsigned buf value 10 flags width precision (if has flags FMT_PLUS then [43] else if has flags FMT_SPACE then [32] else []).

(** ** Arguments *)

(** As they are passed: a [short] as an [int]. *)
Inductive va : Type := VInt (x : Z) | VLong (x : Z) | VLLong (x : Z) | VSize (x : Z) | VPtrdiff (x : Z) | VPtr (x : Z) | VStr (s : option (list Z)).
Definition va_arg {A} (get : va → option A) (ap : list va) : outcome (A * list va) :=
  match ap with a :: ap => match get a with Some x => Ret (x, ap) | None => Fault end | [] => Fault end.
Definition get_int (a : va) : option Z := match a with VInt x => Some x | _ => None end.
Definition get_str (a : va) : option (option (list Z)) := match a with VStr s => Some s | _ => None end.
Definition get_ptr (a : va) : option Z := match a with VPtr x => Some x | _ => None end.

Section printf.
Context (word : Z).
(** The bits an integer argument of a length has, and where it is. *)
Definition length_bits (length : fmt_length) : Z := match length with FMT_LEN_LLONG => 64 | FMT_LEN_SHORT => 16 | FMT_LEN_DEFAULT => 32 | _ => word end.
Definition get_length (length : fmt_length) (a : va) : option Z :=
  match length, a with
  | FMT_LEN_LLONG, VLLong x | FMT_LEN_LONG, VLong x | FMT_LEN_SIZE, VSize x | FMT_LEN_PTRDIFF, VPtrdiff x | FMT_LEN_SHORT, VInt x | FMT_LEN_DEFAULT, VInt x => Some x
  | _, _ => None
  end.
(** One conversion; [va_arg] of an unsigned type takes the bits as they are, apart from a
    [ptrdiff_t], which is widened with its sign. *)
(* [src: platform/amiga/printf_local.c:297-392 kvsnprintf] *)
Definition fmt_conv (buf : fmt_buf) (conv flags : Z) (length : fmt_length) (width precision : Z) (ap : list va) : outcome (fmt_buf * list va) :=
  if conv =? 99 (* c *) then
    '(ch, ap) ← va_arg get_int ap;
    buf ← (if negb (has flags FMT_LEFT) then fmt_pad buf 32 (width - 1) else Ret buf);
    buf ← fmt_putc buf (u8 ch);
    buf ← (if has flags FMT_LEFT then fmt_pad buf 32 (width - 1) else Ret buf);
    Ret (buf, ap)
  else if conv =? 115 (* s *) then
    '(s, ap) ← va_arg get_str ap; buf ← fmt_string buf s flags width precision; Ret (buf, ap)
  else if (conv =? 100) || (conv =? 105) (* d i *) then
    '(x, ap) ← va_arg (get_length length) ap; buf ← fmt_signed buf (signed_of (length_bits length) x) flags width precision; Ret (buf, ap)
  else if (conv =? 117) || (conv =? 111) || (conv =? 120) || (conv =? 88) (* u o x X *) then
    let base := if conv =? 111 then 8 else if conv =? 117 then 10 else 16 in
    let flags := if conv =? 88 then Z.lor flags FMT_UPPER else flags in
    '(x, ap) ← va_arg (get_length length) ap;
    let value := match length with FMT_LEN_PTRDIFF => u64 (signed_of word x) | _ => unsigned_of (length_bits length) x end in
    let prefix := if has flags FMT_ALT && negb (value =? 0)
                  then if conv =? 111 then [48] else if conv =? 120 then [48; 120] else if conv =? 88 then [48; 88] else [] else [] in
    buf ← fmt_unsigned buf value base flags width precision prefix; Ret (buf, ap)
  else if conv =? 112 (* p *) then
    '(x, ap) ← va_arg get_ptr ap; buf ← fmt_unsigned buf (unsigned_of word x) 16 flags width precision [48; 120]; Ret (buf, ap)
  else buf ← fmt_putc buf 37; buf ← fmt_putc buf conv; Ret (buf, ap).

(** ** Directives *)

(* [src: platform/amiga/printf_local.c:231-241 kvsnprintf] *)
Fixpoint parse_flags (fmt : list Z) (flags : Z) : Z * list Z :=
  match fmt with
  | ch :: rest =>
      if ch =? 35 then parse_flags rest (Z.lor flags FMT_ALT)
      else if ch =? 48 then parse_flags rest (Z.lor flags FMT_ZERO_PAD)
      else if ch =? 45 then parse_flags rest (Z.lor flags FMT_LEFT)
      else if ch =? 43 then parse_flags rest (Z.lor flags FMT_PLUS)
      else if ch =? 32 then parse_flags rest (Z.lor flags FMT_SPACE)
      else (flags, fmt)
  | [] => (flags, fmt)
  end.
(* [src: platform/amiga/printf_local.c:251-254 kvsnprintf] *)
Fixpoint parse_number (fmt : list Z) (acc : Z) : outcome (Z * list Z) :=
  match fmt with
  | ch :: rest => if (48 <=? ch) && (ch <=? 57) then acc ← int (acc * 10); acc ← int (acc + (ch - 48)); parse_number rest acc else Ret (acc, fmt)
  | [] => Ret (acc, fmt)
  end.
(** Flags, width and the rest. *)
(* [src: platform/amiga/printf_local.c:243-255 kvsnprintf] *)
Definition parse_width (fmt : list Z) (flags : Z) (ap : list va) : outcome (Z * Z * list Z * list va) :=
  match fmt with
  | 42 :: rest =>
      '(x, ap) ← va_arg get_int ap;
      let width := signed_of 32 x in
      if width <? 0 then width ← int (- width); Ret (Z.lor flags FMT_LEFT, width, rest, ap) else Ret (flags, width, rest, ap)
  | _ => '(width, rest) ← parse_number fmt 0; Ret (flags, width, rest, ap)
  end.
(* [src: platform/amiga/printf_local.c:257-271 kvsnprintf] *)
Definition parse_precision (fmt : list Z) (ap : list va) : outcome (Z * list Z * list va) :=
  match fmt with
  | 46 :: 42 :: rest =>
      '(x, ap) ← va_arg get_int ap; let precision := signed_of 32 x in Ret (if precision <? 0 then -1 else precision, rest, ap)
  | 46 :: rest => '(precision, rest) ← parse_number rest 0; Ret (precision, rest, ap)
  | _ => Ret (-1, fmt, ap)
  end.
(* [src: platform/amiga/printf_local.c:273-290 kvsnprintf] *)
Definition parse_length (fmt : list Z) : fmt_length * list Z :=
  match fmt with
  | 104 :: rest => (FMT_LEN_SHORT, rest)
  | 108 :: 108 :: rest => (FMT_LEN_LLONG, rest)
  | 108 :: rest => (FMT_LEN_LONG, rest)
  | 122 :: rest => (FMT_LEN_SIZE, rest)
  | 116 :: rest => (FMT_LEN_PTRDIFF, rest)
  | _ => (FMT_LEN_DEFAULT, fmt)
  end.
(** What a directive says; [None] for the conversion at the end of the format. *)
Record directive : Type := mk_dir { d_flags : Z; d_length : fmt_length; d_width : Z; d_precision : Z; d_conv : option Z; d_rest : list Z; d_ap : list va }.
(* [src: platform/amiga/printf_local.c:214-295 kvsnprintf] *)
Definition parse_directive (fmt : list Z) (ap : list va) : outcome directive :=
  let '(flags, fmt) := parse_flags fmt 0 in
  '(flags, width, fmt, ap) ← parse_width fmt flags ap;
  '(precision, fmt, ap) ← parse_precision fmt ap;
  let '(length, fmt) := parse_length fmt in
  Ret (match fmt with
       | [] => mk_dir flags length width precision None [] ap
       | conv :: fmt => mk_dir flags length width precision (Some conv) fmt ap
       end).
(** A round takes a character of the format at least. *)
(* [src: platform/amiga/printf_local.c:209-396 kvsnprintf] *)
Fixpoint kvsnprintf (n : nat) (buf : fmt_buf) (fmt : list Z) (ap : list va) : outcome fmt_buf :=
  match fmt with
  | [] => Ret buf
  | ch :: rest =>
      match n with
      | O => Diverge
      | S n =>
          if negb (ch =? 37) then buf ← fmt_putc buf ch; kvsnprintf n buf rest ap
          else
            match rest with
            | 37 :: rest => buf ← fmt_putc buf 37; kvsnprintf n buf rest ap
            | _ =>
                d ← parse_directive rest ap;
                match d_conv d with
                | None => Ret buf
                | Some conv =>
                    '(buf, ap) ← fmt_conv buf conv (d_flags d) (d_length d) (d_width d) (d_precision d) (d_ap d);
                    kvsnprintf n buf (d_rest d) ap
                end
            end
      end
  end.
(** [mem] is the memory at [buf], [None] for NULL; the result is the count and the memory. *)
(* [src: platform/amiga/printf_local.c:398-411 odfs_vsnprintf] *)
Definition odfs_vsnprintf (mem : option (list Z)) (size : Z) (fmt : list Z) (ap : list va) : outcome (Z * list Z) :=
  let fits := bool_decide (is_Some mem) && negb (size =? 0) in
  out ← kvsnprintf (length fmt) (mk_fmt (default [] mem) 0 (if fits then size - 1 else 0) 0) fmt ap;
  mem ← (if fits then wr (fb_mem out) (fb_cur out) 0 else Ret (fb_mem out));
  Ret (fb_count out, mem).
(* [src: platform/amiga/printf_local.c:413-423 odfs_snprintf] *)
Definition odfs_snprintf (mem : option (list Z)) (size : Z) (fmt : list Z) (args : list va) : outcome (Z * list Z) := odfs_vsnprintf mem size fmt args.
End printf.

Example printf_demo :
  odfs_snprintf 32 (Some (replicate 40 7)) 30 (str "%-6s|%05d|%#x|%+lld %c%%") [VStr (Some (str "ab")); VInt (-42); VInt 255; VLLong (2 ^ 63 - 1); VInt 33] =
  Ret (41, str "ab    |-0042|0xff|+9223372036" ++ [0] ++ replicate 10 7).
Proof. vm_compute. reflexivity. Qed.
