(* ===== verification/PrintfSpec.v ===== *)
(** * What the formatter writes

    The text a format and its arguments stand for, with numbers by division and padding
    around them; the formatter counts this text and leaves the part that fits in the
    buffer. *)
From stdpp Require Import strings.
From S2P Require Import Prelude Types Strings Printf.
Open Scope Z_scope.

(** ** Long division *)

Lemma udiv_bits_spec base n : ∀ word rem k, 0 < base ≤ 2 ^ 31 → 0 ≤ rem < base → 0 ≤ k →
  let v := rem * 2 ^ Z.of_nat n + word mod 2 ^ Z.of_nat n in
  udiv_bits n word base rem (k * 2 ^ Z.of_nat n) = (v mod base, k * 2 ^ Z.of_nat n + v / base).
Proof.
  induction n as [|n IH]; intros word rem k Hb Hr Hk; cbn [udiv_bits].
  - cbv zeta. change (2 ^ Z.of_nat 0) with 1. rewrite Z.mod_1_r, !Z.mul_1_r, Z.add_0_r, Z.mod_small, Z.div_small, Z.add_0_r by lia. done.
  - set (b := word / 2 ^ Z.of_nat n mod 2). assert (Hp : 0 < 2 ^ Z.of_nat n) by (apply Z.pow_pos_nonneg; lia).
    assert (Hbit : Z.lor (u32 (Z.shiftl rem 1)) (Z.land (Z.shiftr word (Z.of_nat n)) 1) = 2 * rem + b).
    { rewrite u32_small by (unfold is_u32; rewrite Z.shiftl_mul_pow2 by lia; lia). rewrite Z.lor_comm. pose proof (Z.land_ones (Z.shiftr word (Z.of_nat n)) 1 ltac:(lia)) as Hl. change (Z.ones 1) with 1 in Hl. rewrite Hl, Z.shiftr_div_pow2 by lia.
      rewrite lor_shiftl_add; change (2 ^ 1) with 2; unfold b; dlia. }
    rewrite Hbit. assert (Hw : word mod 2 ^ Z.of_nat (S n) = b * 2 ^ Z.of_nat n + word mod 2 ^ Z.of_nat n).
    { rewrite Nat2Z.inj_succ, Z.pow_succ_r, Z.mul_comm, Z.rem_mul_r by lia. unfold b. lia. }
    assert (Hb01 : 0 ≤ b < 2) by (unfold b; apply Z.mod_pos_bound; lia).
    assert (Hs : 2 ^ Z.of_nat (S n) = 2 * 2 ^ Z.of_nat n) by (rewrite Nat2Z.inj_succ, Z.pow_succ_r; lia). rewrite Hw, Hs. clearbody b. set (w := word mod 2 ^ Z.of_nat n) in *.
    assert (Hv : rem * (2 * 2 ^ Z.of_nat n) + (b * 2 ^ Z.of_nat n + w) = (2 * rem + b) * 2 ^ Z.of_nat n + w) by ring. cbv zeta. rewrite Hv.
    destruct (base <=? 2 * rem + b) eqn:E; b2p.
    + replace (Z.lor (k * (2 * 2 ^ Z.of_nat n)) (Z.shiftl 1 (Z.of_nat n))) with ((2 * k + 1) * 2 ^ Z.of_nat n).
      * rewrite IH by lia. cbv zeta. fold w.
        replace ((2 * rem + b) * 2 ^ Z.of_nat n + w) with ((2 * rem + b - base) * 2 ^ Z.of_nat n + w + 2 ^ Z.of_nat n * base) by ring. rewrite Z.mod_add, Z.div_add by lia. f_equal. ring.
      * rewrite Z.lor_comm, Z.shiftl_1_l. replace (k * (2 * 2 ^ Z.of_nat n)) with (Z.shiftl k (Z.of_nat (S n))) by (rewrite Z.shiftl_mul_pow2 by lia; lia).
        rewrite lor_shiftl_add by lia. lia.
    + replace (k * (2 * 2 ^ Z.of_nat n)) with (2 * k * 2 ^ Z.of_nat n) by ring. rewrite IH by lia. cbv zeta. by fold w.
Qed.
Lemma udiv_spec value base : 0 ≤ value < 2 ^ 64 → 0 < base ≤ 2 ^ 31 → udiv64_32 value base = (value / base, value mod base).
Proof.
  intros Hv Hb. unfold udiv64_32. set (high := u32 (Z.shiftr value 32)). set (low := u32 value).
  assert (Hh : high = value / 2 ^ 32) by (unfold high; rewrite Z.shiftr_div_pow2 by lia; rewrite u32_small; [done|unfold is_u32; dlia]).
  assert (Hl : low = value mod 2 ^ 32) by done. assert (Hval : value = high * 2 ^ 32 + low) by (rewrite Hh, Hl; dlia).
  pose proof (udiv_bits_spec base 32 high 0 0 Hb ltac:(lia) ltac:(lia)) as H1. change (0 * 2 ^ Z.of_nat 32) with 0 in H1. cbv zeta in H1. change (2 ^ Z.of_nat 32) with (2 ^ 32) in H1.
  rewrite (Z.mod_small high) in H1 by (rewrite Hh; dlia). rewrite !Z.add_0_l in H1. rewrite H1.
  pose proof (udiv_bits_spec base 32 low (high mod base) 0 Hb ltac:(apply Z.mod_pos_bound; lia) ltac:(lia)) as H2. change (0 * 2 ^ Z.of_nat 32) with 0 in H2. cbv zeta in H2.
  change (2 ^ Z.of_nat 32) with (2 ^ 32) in H2. rewrite (Z.mod_small low), Z.add_0_l in H2 by (rewrite Hl; apply Z.mod_pos_bound; lia). rewrite H2.
  set (r := high mod base) in *. set (qh := high / base) in *. assert (Hhq : high = base * qh + r) by (unfold qh, r; apply Z.div_mod; lia).
  assert (Hr : 0 ≤ r < base) by (apply Z.mod_pos_bound; lia). assert (Hlr : 0 ≤ low < 2 ^ 32) by (rewrite Hl; apply Z.mod_pos_bound; lia).
  assert (Hvq : value = (r * 2 ^ 32 + low) + qh * 2 ^ 32 * base) by (rewrite Hval, Hhq; ring).
  rewrite Hvq, Z.mod_add, Z.div_add by lia. f_equal. rewrite Z.lor_comm, lor_shiftl_add; [lia| |unfold qh; apply Z.div_pos; lia|lia].
  split; [apply Z.div_pos; lia|]. apply Z.div_lt_upper_bound; [lia|]. nia.
Qed.

(** ** The text *)

(** The digits of a number, the last first; the alphabet gives the characters. *)
Fixpoint ref_digits (n : nat) (v base : Z) (alphabet : list Z) : list Z :=
  match n with
  | O => []
  | S n => default 0 (zget alphabet (v mod base)) :: (if v / base =? 0 then [] else ref_digits n (v / base) base alphabet)
  end.
Definition number (v base : Z) (alphabet : list Z) : list Z := rev (ref_digits 32 v base alphabet).
Definition blanks (n : Z) : list Z := replicate (Z.to_nat n) 32.
Definition zeros (n : Z) : list Z := replicate (Z.to_nat n) 48.
Definition text_number (v base flags width precision : Z) (prefix : list Z) : list Z :=
  let digits := if (v =? 0) && (precision =? 0) then [] else number v base (if has flags FMT_UPPER then upper_digits else lower_digits) in
  let body := zeros (precision - zlen digits) ++ digits in
  let room := width - zlen (prefix ++ body) in
  if has flags FMT_LEFT then prefix ++ body ++ blanks room
  else if has flags FMT_ZERO_PAD && (precision <? 0) then prefix ++ zeros room ++ body
  else blanks room ++ prefix ++ body.
Definition text_string (s : option (list Z)) (flags width precision : Z) : list Z :=
  let s := default (str "(null)") s in
  let s := if 0 <=? precision then take (Z.to_nat precision) s else s in
  if has flags FMT_LEFT then s ++ blanks (width - zlen s) else blanks (width - zlen s) ++ s.
Definition text_signed (x flags width precision : Z) : list Z :=
  text_number (Z.abs x) 10 flags width precision (if x <? 0 then [45] else if has flags FMT_PLUS then [43] else if has flags FMT_SPACE then [32] else []).

Section text.
Context (word : Z).
Definition text_conv (conv flags : Z) (len : fmt_length) (width precision : Z) (ap : list va) : outcome (list Z * list va) :=
  let room := blanks (width - 1) in
  if conv =? 99 then '(ch, ap) ← va_arg get_int ap; Ret (if has flags FMT_LEFT then u8 ch :: room else room ++ [u8 ch], ap)
  else if conv =? 115 then '(s, ap) ← va_arg get_str ap; Ret (text_string s flags width precision, ap)
  else if (conv =? 100) || (conv =? 105) then
    '(x, ap) ← va_arg (get_length len) ap; Ret (text_signed (signed_of (length_bits word len) x) flags width precision, ap)
  else if (conv =? 117) || (conv =? 111) || (conv =? 120) || (conv =? 88) then
    '(x, ap) ← va_arg (get_length len) ap;
    let v := match len with FMT_LEN_PTRDIFF => u64 (signed_of word x) | _ => unsigned_of (length_bits word len) x end in
    let alt := if has flags FMT_ALT && negb (v =? 0) then if conv =? 111 then [48] else if conv =? 120 then [48; 120] else if conv =? 88 then [48; 88] else [] else [] in
    Ret (text_number v (if conv =? 111 then 8 else if conv =? 117 then 10 else 16) (if conv =? 88 then Z.lor flags FMT_UPPER else flags) width precision alt, ap)
  else if conv =? 112 then '(x, ap) ← va_arg get_ptr ap; Ret (text_number (unsigned_of word x) 16 flags width precision [48; 120], ap)
  else Ret ([37; conv], ap).
(** The text of a format: its characters, and for every directive what it converts. *)
Fixpoint format_text (n : nat) (fmt : list Z) (ap : list va) : outcome (list Z) :=
  match fmt with
  | [] => Ret []
  | ch :: rest =>
      match n with
      | O => Diverge
      | S n =>
          if negb (ch =? 37) then cons ch <$> format_text n rest ap
          else
            match rest with
            | 37 :: rest => cons 37 <$> format_text n rest ap
            | _ =>
                d ← parse_directive rest ap;
                match d_conv d with
                | None => Ret []
                | Some conv => '(s, ap) ← text_conv conv (d_flags d) (d_length d) (d_width d) (d_precision d) (d_ap d); app s <$> format_text n (d_rest d) ap
                end
            end
      end
  end.
End text.

(** ** Directives *)

Lemma parse_flags_length fmt : ∀ flags, (length (parse_flags fmt flags).2 ≤ length fmt)%nat.
Proof. induction fmt as [|ch fmt IH]; intros flags; cbn [parse_flags]; [simpl; lia|]. repeat (case_test; [etransitivity; [apply IH|simpl; lia]|]). done. Qed.
Lemma parse_number_range fmt : ∀ acc r, 0 ≤ acc < 2 ^ 31 → parse_number fmt acc = Ret r → 0 ≤ r.1 < 2 ^ 31 ∧ (length r.2 ≤ length fmt)%nat.
Proof.
  induction fmt as [|ch fmt IH]; intros acc r Ha; cbn [parse_number]; [by intros [= <-]|]. case_test; [|by intros [= <-]]. b2p.
  intros (x & Hx & Hp)%bind_Ret. apply bind_Ret in Hp as (y & Hy & Hp). unfold int in Hx, Hy. revert Hx Hy. repeat case_test; try done. intros [= <-] [= <-]. b2p.
  destruct (IH (acc * 10 + (ch - 48)) r ltac:(lia) Hp) as [? ?]. split; [done|simpl; lia].
Qed.
Lemma signed32 x : - 2 ^ 31 ≤ signed_of 32 x < 2 ^ 31.
Proof. unfold signed_of, unsigned_of. pose proof (Z.mod_pos_bound x (2 ^ 32) ltac:(lia)). cbv zeta. case_test; b2p; lia. Qed.
Lemma parse_width_range fmt flags ap r : parse_width fmt flags ap = Ret r → 0 ≤ r.1.1.2 < 2 ^ 31 ∧ (length r.1.2 ≤ length fmt)%nat.
Proof.
  assert (Hn : ('(width, rest) ← parse_number fmt 0; Ret (flags, width, rest, ap)) = Ret r → 0 ≤ r.1.1.2 < 2 ^ 31 ∧ (length r.1.2 ≤ length fmt)%nat).
  { intros ([w l] & Hp & H)%bind_Ret. injection H as <-. exact (parse_number_range fmt 0 _ ltac:(lia) Hp). }
  unfold parse_width. destruct fmt as [|ch fmt]; [exact Hn|]. destruct (decide (ch = 42)) as [->|Hne].
  - intros ([x ap1] & _ & H)%bind_Ret. pose proof (signed32 x) as Hx. revert H. case_test; b2p.
    + intros (w & Hw & Hr)%bind_Ret. unfold int in Hw. revert Hw. case_test; [|done]. intros [= <-]. injection Hr as <-. b2p. simpl. split; lia.
    + intros [= <-]. simpl. split; lia.
  - destruct ch as [|p|p]; try exact Hn; repeat (destruct p; try exact Hn; try done).
Qed.
Lemma parse_precision_length fmt ap r : parse_precision fmt ap = Ret r → (length r.1.2 ≤ length fmt)%nat.
Proof.
  assert (Hn : ∀ rest, (length rest ≤ length fmt)%nat → ('(precision, rest) ← parse_number rest 0; Ret (precision, rest, ap)) = Ret r → (length r.1.2 ≤ length fmt)%nat).
  { intros rest Hl ([w l] & Hp & H)%bind_Ret. injection H as <-. destruct (parse_number_range rest 0 _ ltac:(lia) Hp). simpl in *. lia. }
  assert (H0 : Ret (-1, fmt, ap) = Ret r → (length r.1.2 ≤ length fmt)%nat) by (by intros [= <-]).
  unfold parse_precision. destruct fmt as [|ch fmt]; [exact H0|]. destruct (decide (ch = 46)) as [->|Hne]; [|destruct ch as [|p|p]; try exact H0; repeat (destruct p; try exact H0; try done)].
  assert (Hd := Hn fmt ltac:(simpl; lia)). destruct fmt as [|c2 fmt]; [exact Hd|]. destruct (decide (c2 = 42)) as [->|Hne2]; [|destruct c2 as [|p|p]; try exact Hd; repeat (destruct p; try exact Hd; try done)].
  intros ([x ap1] & _ & H)%bind_Ret. injection H as <-. simpl. lia.
Qed.
Lemma parse_length_length fmt : (length (parse_length fmt).2 ≤ length fmt)%nat.
Proof.
  unfold parse_length. destruct fmt as [|ch fmt]; [done|]. destruct ch as [|p|p]; try done; repeat (destruct p; try done; try (simpl; lia)).
  destruct fmt as [|c2 fmt]; [simpl; lia|]. destruct c2 as [|p|p]; try (simpl; lia); repeat (destruct p; try (simpl; lia)).
Qed.
(** A directive has a width in range, and leaves less of the format. *)
Lemma parse_range fmt ap d : parse_directive fmt ap = Ret d → 0 ≤ d_width d < 2 ^ 31 ∧ (is_Some (d_conv d) → (length (d_rest d) < length fmt)%nat).
Proof.
  unfold parse_directive. pose proof (parse_flags_length fmt 0) as Hf. destruct (parse_flags fmt 0) as [flags l1].
  intros ([[[flags2 width] l2] ap2] & Hw & H)%bind_Ret. apply parse_width_range in Hw as [Hw Hl2]. apply bind_Ret in H as ([[prec l3] ap3] & Hp & H).
  apply parse_precision_length in Hp. pose proof (parse_length_length l3) as Hl. destruct (parse_length l3) as [len l4]. injection H as <-. simpl in *.
  destruct l4 as [|conv l4]; (split; [exact Hw|]); simpl in *; [by intros []|lia].
Qed.

(** ** Widths *)

Lemma bits_ok word len : word = 32 ∨ word = 64 → 1 ≤ length_bits word len ≤ 64.
Proof. destruct len; cbn; lia. Qed.
Lemma unsigned_ok w x : 0 ≤ w ≤ 64 → 0 ≤ unsigned_of w x < 2 ^ 64.
Proof. intros Hw. unfold unsigned_of. pose proof (Z.mod_pos_bound x (2 ^ w) ltac:(apply Z.pow_pos_nonneg; lia)). pose proof (Z.pow_le_mono_r 2 w 64 ltac:(lia) ltac:(lia)). lia. Qed.
Lemma signed_ok w x : 1 ≤ w ≤ 64 → - 2 ^ (w - 1) ≤ signed_of w x < 2 ^ (w - 1).
Proof.
  intros Hw. unfold signed_of, unsigned_of. assert (H2 : 2 ^ w = 2 * 2 ^ (w - 1)) by (replace w with (Z.succ (w - 1)) at 1 by lia; rewrite Z.pow_succ_r; lia).
  assert (0 < 2 ^ (w - 1)) by (apply Z.pow_pos_nonneg; lia). pose proof (Z.mod_pos_bound x (2 ^ w) ltac:(lia)). cbv zeta. case_test; b2p; lia.
Qed.

(** ** Writing *)
Section writing.
Context (mem0 : list Z) (e : Z) (He : 0 ≤ e ≤ zlen mem0).
(** The buffer after the text [t]. *)
Definition holds (t : list Z) (b : fmt_buf) : Prop :=
  let w := Z.to_nat (Z.min (zlen t) e) in fb_mem b = take w t ++ drop w mem0 ∧ fb_cur b = Z.min (zlen t) e ∧ fb_end b = e ∧ fb_count b = zlen t.
(** [f] adds [s] to the text. *)
Definition puts {R} (f : fmt_buf → outcome R) (s : list Z) (r : fmt_buf → R) : Prop :=
  ∀ t b, holds t b → zlen (t ++ s) < 2 ^ 31 → ∃ b', f b = Ret (r b') ∧ holds (t ++ s) b'.
Lemma int_ok x : - 2 ^ 31 ≤ x < 2 ^ 31 → int x = Ret x.
Proof. intros. unfold int. by rewrite (proj2 (Z.leb_le _ _)), (proj2 (Z.ltb_lt _ _)) by lia. Qed.
Lemma puts_ret : puts Ret [] (λ b, b).
Proof. intros t b Hb _. exists b. by rewrite app_nil_r. Qed.
Lemma puts_then {R} f (g : fmt_buf → outcome R) s s' r : puts f s (λ b, b) → puts g s' r → puts (λ b, f b ≫= g) (s ++ s') r.
Proof.
  intros Hf Hg t b Hb Hl. rewrite !app_assoc, !length_app in Hl. destruct (Hf t b Hb) as (b1 & -> & Hb1); [rewrite length_app; lia|].
  destruct (Hg _ _ Hb1) as (b2 & He2 & Hb2); [rewrite !length_app; lia|]. exists b2. by rewrite app_assoc.
Qed.
Lemma puts_char ch : puts (λ b, fmt_putc b ch) [ch] (λ b, b).
Proof using He.
  intros t b (Hm & Hc & Hend & Hn) Hl. rewrite length_app in Hl. simpl in Hl. unfold fmt_putc. rewrite Hend, Hc, Hn, (int_ok (zlen t + 1)) by lia. unfold holds. rewrite length_app. simpl length.
  destruct (Z.min (zlen t) e <? e) eqn:E; b2p.
  - assert (Hlt : zlen t < e) by lia. rewrite Z.min_l in Hm |- * by lia. rewrite Z.min_l, Hm, !Nat2Z.id, firstn_all by lia.
    rewrite wr_ok by (rewrite length_app, length_drop; lia). cbn [mbind outcome_bind]. eexists. split; [reflexivity|]. cbn. split; [|split; [lia|split; [done|lia]]].
    unfold zset. rewrite (proj2 (Z.leb_le _ _)), Nat2Z.id by lia. replace (length t + 1)%nat with (S (length t)) by lia.
    rewrite take_ge by (rewrite length_app; simpl; lia). rewrite insert_app_r_alt, Nat.sub_diag by lia.
    destruct (drop (length t) mem0) as [|x l] eqn:Ed; [apply (f_equal length) in Ed; rewrite length_drop in Ed; simpl in Ed; lia|].
    cbn. rewrite <- app_assoc. do 2 f_equal. cbn. f_equal. change (S (length t)) with (1 + length t)%nat. rewrite Nat.add_comm, <- drop_drop, Ed. done.
  - assert (Hge : e ≤ zlen t) by lia. rewrite Z.min_r in Hm |- * by lia. rewrite Z.min_r by lia. cbn [mbind outcome_bind]. eexists. split; [reflexivity|]. cbn.
    split; [|split; [lia|split; [done|lia]]]. rewrite Hm. f_equal. by rewrite take_app_le by lia.
Qed.
Lemma puts_list s : puts (λ b, fmt_puts b s) s (λ b, b).
Proof using He. induction s as [|ch s IH]; [apply puts_ret|]. exact (puts_then _ (λ b, fmt_puts b s) [ch] s _ (puts_char ch) IH). Qed.
Lemma puts_pad ch n : puts (λ b, fmt_pad b ch n) (replicate (Z.to_nat n) ch) (λ b, b).
Proof using He. apply puts_list. Qed.
Lemma puts_if (c : bool) f s : puts f s (λ b, b) → puts (λ b, if c then f b else Ret b) (if c then s else []) (λ b, b).
Proof. destruct c; [done|]. intros _. apply puts_ret. Qed.
(** The text bounds everything in it. *)
Lemma puts_weaken {R} (f g : fmt_buf → outcome R) s r : (zlen s < 2 ^ 31 → ∀ b, f b = g b) → puts g s r → puts f s r.
Proof. intros Hfg Hg t b Hb Hl. rewrite Hfg by (rewrite length_app in Hl; lia). by apply Hg. Qed.
Lemma puts_bind_ret {R} (f : fmt_buf → outcome fmt_buf) s (r : fmt_buf → R) : puts f s (λ b, b) → puts (λ b, b ← f b; Ret (r b)) s r.
Proof. intros Hf t b Hb Hl. destruct (Hf t b Hb Hl) as (b' & -> & Hb'). by exists b'. Qed.

(** *** Numbers and strings *)
Lemma digit_loop_ref alphabet base n : ∀ v, 2 ≤ base ≤ zlen alphabet → base ≤ 2 ^ 31 → 0 ≤ v < 2 ^ 64 → v < base ^ Z.of_nat n → (0 < n)%nat →
  digit_loop n v base alphabet = Ret (ref_digits n v base alphabet).
Proof.
  induction n as [|n IH]; intros v Hb H31 Hv Hn Hpos; [lia|]. cbn [digit_loop ref_digits]. rewrite udiv_spec by lia. pose proof (Z.mod_pos_bound v base ltac:(lia)) as Hm.
  assert (exists d, zget alphabet (v mod base) = Some d) as [d Hd] by (apply zget_is_Some; lia). unfold rd. rewrite Hd. cbn [mbind outcome_bind].
  destruct (v / base =? 0) eqn:E; cbn [negb]; [done|]. b2p. rewrite Nat2Z.inj_succ, Z.pow_succ_r in Hn by lia. pose proof (Z.div_pos v base ltac:(lia) ltac:(lia)).
  rewrite IH; [done|done|done| | |].
  - split; [lia|]. apply Z.div_lt_upper_bound; [lia|]. nia.
  - apply Z.div_lt_upper_bound; lia.
  - destruct n; [|lia]. change (base ^ Z.of_nat 0) with 1 in Hn. assert (v / base = 0) by (apply Z.div_small; lia). lia.
Qed.
Lemma alphabet_length flags : zlen (if has flags FMT_UPPER then upper_digits else lower_digits) = 16.
Proof. by destruct (has _ _). Qed.
Lemma zero_left flags precision : (Z.land flags (Z.lor FMT_ZERO_PAD FMT_LEFT) =? FMT_ZERO_PAD) && (precision <? 0) =
  negb (has flags FMT_LEFT) && (has flags FMT_ZERO_PAD && (precision <? 0)).
Proof.
  unfold has, FMT_LEFT, FMT_ZERO_PAD. change (Z.lor 2 4) with 6. rewrite andb_assoc. f_equal.
  assert (H : ∀ k, 0 ≤ k → Z.land flags (2 ^ k) = if Z.testbit flags k then 2 ^ k else 0).
  { intros k Hk. apply Z.bits_inj'. intros i Hi. rewrite Z.land_spec, Z.pow2_bits_eqb by lia. destruct (Z.eqb_spec k i) as [->|].
    - rewrite andb_true_r. destruct (Z.testbit flags i); [by rewrite Z.pow2_bits_true|by rewrite Z.bits_0].
    - rewrite andb_false_r. destruct (Z.testbit flags k); [by rewrite Z.pow2_bits_false|by rewrite Z.bits_0]. }
  pose proof (H 1 ltac:(lia)) as H1. pose proof (H 2 ltac:(lia)) as H2. change (2 ^ 1) with 2 in H1. change (2 ^ 2) with 4 in H2.
  assert (H6 : Z.land flags 6 = Z.land flags 2 + Z.land flags 4).
  { change 6 with (Z.lor 2 4). rewrite Z.land_lor_distr_r, H1, H2. by destruct (Z.testbit flags 1), (Z.testbit flags 2). }
  rewrite H6, H1, H2. by destruct (Z.testbit flags 1), (Z.testbit flags 2).
Qed.
Lemma length_number_text v base alphabet : zlen (number v base alphabet) ≤ 32.
Proof.
  unfold number. rewrite length_rev. assert (H : ∀ n v, (length (ref_digits n v base alphabet) ≤ n)%nat); [|specialize (H 32%nat v); lia].
  induction n as [|n IH]; intros w; cbn [ref_digits length]; [lia|]. case_test; cbn [length]; [lia|]. specialize (IH (w / base)). lia.
Qed.
Lemma puts_number v base flags width precision prefix : (base = 8 ∨ base = 10 ∨ base = 16) → 0 ≤ v < 2 ^ 64 →
  puts (λ b, fmt_unsigned b v base flags width precision prefix) (text_number v base flags width precision prefix) (λ b, b).
Proof using He.
  intros Hbase Hv. set (al := if has flags FMT_UPPER then upper_digits else lower_digits).
  set (ds := rev (if (v =? 0) && (precision =? 0) then [] else number v base al)).
  assert (Hds : (if v =? 0 then Ret (if negb (precision =? 0) then [48] else []) else digit_loop 32 v base al) = Ret ds).
  { unfold ds. destruct (v =? 0) eqn:E0; cbn [andb].
    - b2p. subst v. destruct (precision =? 0); [done|]. unfold number. rewrite rev_involutive. unfold al. by destruct Hbase as [->|[->| ->]], (has flags FMT_UPPER).
    - unfold number. rewrite rev_involutive. pose proof (alphabet_length flags). fold al in H. apply digit_loop_ref; [lia|lia|done| |lia].
      destruct Hbase as [->|[->| ->]]; cbn; lia. }
  assert (Hlen : zlen (rev ds) ≤ 32) by (unfold ds; rewrite rev_involutive; case_test; [simpl; lia|apply length_number_text]).
  unfold text_number. fold al. change (if (v =? 0) && (precision =? 0) then [] else number v base al) with (if (v =? 0) && (precision =? 0) then [] else number v base al).
  replace (if (v =? 0) && (precision =? 0) then [] else number v base al) with (rev ds) by apply rev_involutive. set (z := precision - zlen (rev ds)).
  set (body := zeros z ++ rev ds). set (room := width - zlen (prefix ++ body)). unfold fmt_unsigned. fold al.
  apply puts_weaken with (g := λ b, b ← (if negb (has flags FMT_LEFT) && negb (has flags FMT_ZERO_PAD && (precision <? 0)) then fmt_pad b 32 room else Ret b);
    b ← fmt_puts b prefix; b ← (if negb (has flags FMT_LEFT) && (has flags FMT_ZERO_PAD && (precision <? 0)) then fmt_pad b 48 room else Ret b);
    b ← fmt_puts b (zeros z); b ← fmt_puts b (rev ds); if has flags FMT_LEFT then fmt_pad b 32 room else Ret b).
  - intros Hl b. rewrite Hds. cbn [mbind outcome_bind]. rewrite zero_left. rewrite length_rev in *.
    assert (Hz : (if precision - zlen ds <? 0 then 0 else precision - zlen ds) = Z.of_nat (length (zeros z))).
    { unfold z, zeros. rewrite length_replicate, length_rev. case_test; b2p; lia. }
    assert (Hbody : zlen (prefix ++ body) < 2 ^ 31).
    { assert (zlen (prefix ++ body) ≤ Z.of_nat (length (if has flags FMT_LEFT then prefix ++ body ++ blanks room else
        if has flags FMT_ZERO_PAD && (precision <? 0) then prefix ++ zeros room ++ body else blanks room ++ prefix ++ body))); [|lia].
      repeat case_test; rewrite !length_app; lia. }
    assert (Htot : zlen prefix + Z.of_nat (length (zeros z)) + zlen ds = zlen (prefix ++ body)) by (unfold body; rewrite !length_app, length_rev; lia).
    rewrite Hz, Htot, int_ok by lia. cbn [mbind outcome_bind]. fold room.
    assert (Hpad : ∀ b, fmt_pad b 48 (Z.of_nat (length (zeros z))) = fmt_puts b (zeros z)) by (intros b'; unfold fmt_pad, zeros; by rewrite length_replicate, Nat2Z.id).
    destruct (has flags FMT_LEFT); cbn [negb andb]; [|destruct (has flags FMT_ZERO_PAD && (precision <? 0)); cbn [negb]; change (48 =? 32) with false; change (48 =? 48) with true;
      change (32 =? 32) with true; change (32 =? 48) with false; cbv iota]; cbn [mbind outcome_bind].
    all: repeat (first [rewrite Hpad | reflexivity | match goal with |- ?m ≫= _ = ?m ≫= _ => destruct m; [|done|done]; cbn [mbind outcome_bind] end]).
  - unfold body. destruct (has flags FMT_LEFT); cbn [negb andb].
    + apply (puts_then Ret _ []); [apply puts_ret|]. apply puts_then; [apply puts_list|]. apply (puts_then Ret _ []); [apply puts_ret|]. change (puts (λ b, fmt_puts b (zeros z) ≫= λ b, fmt_puts b (rev ds) ≫= λ b, fmt_pad b 32 room) ((zeros z ++ rev ds) ++ blanks room) (λ b, b)). rewrite <- app_assoc.
      apply puts_then; [apply puts_list|]. apply puts_then; [apply puts_list|]. apply puts_pad.
    + assert (Hrest : puts (λ b, b ← fmt_puts b (zeros z); b ← fmt_puts b (rev ds); Ret b) (zeros z ++ rev ds) (λ b, b)).
      { apply puts_then; [apply puts_list|]. pose proof (puts_then _ Ret (rev ds) [] _ (puts_list (rev ds)) puts_ret) as H. by rewrite app_nil_r in H. }
      destruct (has flags FMT_ZERO_PAD && (precision <? 0)); cbn [negb].
      * apply (puts_then Ret _ []); [apply puts_ret|]. apply puts_then; [apply puts_list|]. apply puts_then; [apply puts_pad|exact Hrest].
      * apply puts_then; [apply puts_pad|]. apply puts_then; [apply puts_list|]. apply (puts_then Ret _ []); [apply puts_ret|exact Hrest].
Qed.
Lemma puts_string s flags width precision : 0 ≤ width < 2 ^ 31 →
  puts (λ b, fmt_string b s flags width precision) (text_string s flags width precision) (λ b, b).
Proof using He.
  intros Hw. unfold text_string. set (s0 := default (str "(null)") s). set (s1 := if 0 <=? precision then take (Z.to_nat precision) s0 else s0).
  apply puts_weaken with (g := λ b, b ← (if negb (has flags FMT_LEFT) then fmt_pad b 32 (width - zlen s1) else Ret b);
    b ← fmt_puts b s1; if has flags FMT_LEFT then fmt_pad b 32 (width - zlen s1) else Ret b).
  - intros Hl b. assert (Hl1 : zlen s1 < 2 ^ 31) by (revert Hl; case_test; rewrite length_app; lia). unfold fmt_string. fold s0.
    assert (Hlen : (if (0 <=? precision) && (precision <? zlen s0) then precision else zlen s0) = zlen s1).
    { unfold s1. destruct (0 <=? precision) eqn:E; cbn [andb]; [|done]. b2p. rewrite length_take. case_test; b2p; lia. }
    assert (Htake : take (Z.to_nat (zlen s1)) s0 = s1).
    { rewrite Nat2Z.id. unfold s1. case_test; [|apply firstn_all]. rewrite length_take. destruct (decide (Z.to_nat precision ≤ length s0)%nat); [by rewrite Nat.min_l by lia|].
      rewrite Nat.min_r, !take_ge by lia. done. }
    rewrite Hlen, Htake. unfold signed_of, unsigned_of. rewrite Z.mod_small, (proj2 (Z.ltb_lt _ _)) by lia. by rewrite int_ok by lia.
  - destruct (has flags FMT_LEFT); cbn [negb].
    + apply (puts_then Ret _ []); [apply puts_ret|]. apply puts_then; [apply puts_list|apply puts_pad].
    + apply puts_then; [apply puts_pad|]. pose proof (puts_then _ Ret s1 [] _ (puts_list s1) puts_ret) as H. by rewrite app_nil_r in H.
Qed.
Lemma text_negative v base flags width precision prefix : text_number v base (Z.lor flags FMT_NEGATIVE) width precision prefix = text_number v base flags width precision prefix.
Proof.
  assert (H : ∀ f, Z.land FMT_NEGATIVE f = 0 → has (Z.lor flags FMT_NEGATIVE) f = has flags f) by (intros f Hf; unfold has; by rewrite Z.land_lor_distr_l, Hf, Z.lor_0_r).
  unfold text_number. by rewrite !H.
Qed.
Lemma puts_signed x flags width precision : - 2 ^ 63 ≤ x < 2 ^ 63 → puts (λ b, fmt_signed b x flags width precision) (text_signed x flags width precision) (λ b, b).
Proof using He.
  intros Hx. unfold fmt_signed, text_signed. destruct (x <? 0) eqn:E; b2p.
  - unfold u64. rewrite (Z.mod_small (- (x + 1))), Z.mod_small by lia. replace (- (x + 1) + 1) with (Z.abs x) by lia. rewrite <- text_negative. apply puts_number; [lia|lia].
  - rewrite Z.abs_eq by lia. apply puts_number; lia.
Qed.
Section conv.
Context (word : Z) (Hword : word = 32 ∨ word = 64).
Lemma puts_arg {A} (f : fmt_buf → A → outcome fmt_buf) (get : va → option A) (txt : A → list Z) ap s ap' :
  ('(x, ap) ← va_arg get ap; Ret (txt x, ap)) = Ret (s, ap') → (∀ x, puts (λ b, f b x) (txt x) (λ b, b)) →
  puts (λ b, '(x, ap) ← va_arg get ap; b ← f b x; Ret (b, ap)) s (λ b, (b, ap')).
Proof.
  intros H Hf. apply bind_Ret in H as ([x ap1] & Hv & H). apply Ret_pair in H as [<- <-]. intros t b Hb Hl. rewrite Hv. cbn [mbind outcome_bind].
  destruct (Hf x t b Hb Hl) as (b' & -> & Hb'). by exists b'.
Qed.
Lemma bind_bind {A B D} (m : outcome A) (f : A → outcome B) (g : B → outcome D) : (m ≫= f) ≫= g = m ≫= (λ x, f x ≫= g).
Proof. by destruct m. Qed.
Lemma puts_conv conv flags len width precision ap s ap' : 0 ≤ width < 2 ^ 31 → text_conv word conv flags len width precision ap = Ret (s, ap') →
  puts (λ b, fmt_conv word b conv flags len width precision ap) s (λ b, (b, ap')).
Proof using He Hword.
  intros Hw. unfold text_conv, fmt_conv. cbv zeta.
  destruct (conv =? 99).
  { intros H. set (one := λ b ch, b ← (if negb (has flags FMT_LEFT) then fmt_pad b 32 (width - 1) else Ret b); b ← fmt_putc b (u8 ch);
      if has flags FMT_LEFT then fmt_pad b 32 (width - 1) else Ret b).
    eapply puts_weaken; [|apply (puts_arg one get_int _ ap s ap' H)].
    - intros _ b. destruct (va_arg get_int ap) as [[ch ap1]| |]; [|done|done]. unfold one. cbn [mbind outcome_bind]. rewrite bind_bind. destruct (if negb _ then _ else _) as [b1| |]; cbn [mbind outcome_bind]; [|done|done].
      by destruct (fmt_putc b1 _).
    - intros ch. unfold one. destruct (has flags FMT_LEFT); cbn [negb].
      + apply (puts_then Ret _ []); [apply puts_ret|]. exact (puts_then _ (λ b, fmt_pad b 32 (width - 1)) [u8 ch] _ _ (puts_char (u8 ch)) (puts_pad 32 (width - 1))).
      + apply puts_then; [apply puts_pad|]. exact (puts_then _ Ret [u8 ch] [] _ (puts_char (u8 ch)) puts_ret). }
  destruct (conv =? 115); [intros H; apply (puts_arg (λ b x, fmt_string b x flags width precision) get_str _ ap s ap' H); intros; by apply puts_string|].
  destruct (_ || _); [intros H; apply (puts_arg (λ b x, fmt_signed b (signed_of (length_bits word len) x) flags width precision) (get_length len) _ ap s ap' H)|].
  { intros x. apply puts_signed. pose proof (bits_ok word len Hword). pose proof (signed_ok (length_bits word len) x ltac:(lia)).
    pose proof (Z.pow_le_mono_r 2 (length_bits word len - 1) 63 ltac:(lia) ltac:(lia)). lia. }
  destruct (_ || _).
  { intros H. set (value := λ x, match len with FMT_LEN_PTRDIFF => u64 (signed_of word x) | _ => unsigned_of (length_bits word len) x end).
    set (alt := λ x, if has flags FMT_ALT && negb (value x =? 0) then if conv =? 111 then [48] else if conv =? 120 then [48; 120] else if conv =? 88 then [48; 88] else [] else []).
    set (fl := if conv =? 88 then Z.lor flags FMT_UPPER else flags).
    assert (Halt : has fl FMT_ALT = has flags FMT_ALT) by (unfold fl, has; case_test; [by rewrite Z.land_lor_distr_l, Z.lor_0_r|done]). rewrite Halt.
    apply (puts_arg (λ b x, fmt_unsigned b (value x) (if conv =? 111 then 8 else if conv =? 117 then 10 else 16) fl width precision (alt x)) (get_length len) _ ap s ap' H).
    intros x. apply puts_number; [repeat case_test; lia|].
    unfold value. pose proof (bits_ok word len Hword). destruct len; try (apply unsigned_ok; lia). }
  destruct (conv =? 112).
  { intros H. apply (puts_arg (λ b x, fmt_unsigned b (unsigned_of word x) 16 flags width precision [48; 120]) get_ptr _ ap s ap' H). intros x. apply puts_number; [lia|]. apply unsigned_ok. lia. }
  intros H. apply Ret_pair in H as [<- <-]. exact (puts_then _ (λ b, b ← fmt_putc b conv; Ret (b, ap)) [37] [conv] _ (puts_char 37) (puts_bind_ret _ _ (λ b, (b, ap)) (puts_char conv))).
Qed.
(** *** Formats *)
Lemma kv_puts n : ∀ fmt ap s, format_text word n fmt ap = Ret s → puts (λ b, kvsnprintf word n b fmt ap) s (λ b, b).
Proof using He Hword.
  induction n as [|n IH]; intros [|ch rest] ap s; cbn [format_text kvsnprintf]; try (intros [= <-]; apply puts_ret).
  assert (Hchar : ∀ ch rest, (cons ch <$> format_text word n rest ap) = Ret s → puts (λ b, b ← fmt_putc b ch; kvsnprintf word n b rest ap) s (λ b, b)).
  { intros k l H. destruct (format_text word n l ap) as [t| |] eqn:Ht; try done. injection H as <-. exact (puts_then _ (λ b, kvsnprintf word n b l ap) [k] t _ (puts_char k) (IH _ _ _ Ht)). }
  destruct (negb _); [apply Hchar|].
  assert (Hdir : (d ← parse_directive rest ap;
    match d_conv d with
    | None => Ret []
    | Some conv => '(s, ap) ← text_conv word conv (d_flags d) (d_length d) (d_width d) (d_precision d) (d_ap d); app s <$> format_text word n (d_rest d) ap
    end) = Ret s → puts (λ b, d ← parse_directive rest ap;
      match d_conv d with
      | None => Ret b
      | Some conv => '(b, ap) ← fmt_conv word b conv (d_flags d) (d_length d) (d_width d) (d_precision d) (d_ap d); kvsnprintf word n b (d_rest d) ap
      end) s (λ b, b)).
  { intros H. apply bind_Ret in H as (d & Hd & H). rewrite Hd. destruct (parse_range rest ap d Hd) as [Hw _]. cbn [mbind outcome_bind].
    destruct (d_conv d) as [conv|]; [|injection H as <-; apply puts_ret]. apply bind_Ret in H as ([s1 ap1] & Hc & H).
    destruct (format_text word n (d_rest d) ap1) as [t| |] eqn:Ht; try done. injection H as <-.
    intros t0 b Hb Hl. rewrite app_assoc, length_app in Hl. destruct (puts_conv _ _ _ _ _ _ _ _ Hw Hc t0 b Hb) as (b1 & -> & Hb1); [lia|]. cbn [mbind outcome_bind].
    destruct (IH _ _ _ Ht _ b1 Hb1) as (b2 & -> & Hb2); [rewrite length_app; lia|]. exists b2. by rewrite app_assoc. }
  destruct rest as [|ch2 rest]; [exact Hdir|]. destruct (decide (ch2 = 37)) as [->|Hne]; [apply Hchar|]. by destruct ch2 as [|p|p]; try exact Hdir; repeat (destruct p; try exact Hdir; try done).
Qed.
End conv.
End writing.

(** ** The text comes to an end *)

Lemma va_arg_halts {A} (get : va → option A) ap : va_arg get ap ≠ Diverge.
Proof. unfold va_arg. destruct ap as [|a ap]; [done|]. by destruct (get a). Qed.
Lemma halts_then {A B} (m : outcome A) (k : A → outcome B) : m ≠ Diverge → (∀ a, m = Ret a → k a ≠ Diverge) → m ≫= k ≠ Diverge.
Proof. destruct m; simpl; auto. Qed.
Lemma text_conv_halts word conv flags len width precision ap : text_conv word conv flags len width precision ap ≠ Diverge.
Proof. unfold text_conv. cbv zeta. repeat (case_test; [apply halts_then; [apply va_arg_halts|by intros [] _]|]). done. Qed.
Lemma int_halts x : int x ≠ Diverge.
Proof. unfold int. by case_test. Qed.
Lemma parse_number_halts fmt : ∀ acc, parse_number fmt acc ≠ Diverge.
Proof. induction fmt as [|ch fmt IH]; intros acc; cbn [parse_number]; [done|]. case_test; [|done]. do 2 (apply halts_then; [apply int_halts|intros ? _]). apply IH. Qed.
Lemma parse_directive_halts fmt ap : parse_directive fmt ap ≠ Diverge.
Proof.
  unfold parse_directive. destruct (parse_flags fmt 0) as [flags l]. apply halts_then.
  - assert (Hn : ('(width, rest) ← parse_number l 0; Ret (flags, width, rest, ap)) ≠ Diverge) by (apply halts_then; [apply parse_number_halts|by intros [] _]).
    unfold parse_width. destruct l as [|[|p|p] l]; try exact Hn. repeat (destruct p; try exact Hn). apply halts_then; [apply va_arg_halts|]. intros [x ap1] _. case_test; [|done]. apply halts_then; [apply int_halts|done].
  - intros [[[fl w] l2] ap2] _. apply halts_then.
    + assert (Hn : ∀ l, ('(precision, rest) ← parse_number l 0; Ret (precision, rest, ap2)) ≠ Diverge) by (intros k; apply halts_then; [apply parse_number_halts|by intros [] _]).
      unfold parse_precision. destruct l2 as [|[|p|p] l2]; try done. repeat (destruct p; try done). destruct l2 as [|[|p|p] l2]; try exact (Hn _). repeat (destruct p; try exact (Hn _)).
      apply halts_then; [apply va_arg_halts|by intros [] _].
    + intros [[prec l3] ap3] _. destruct (parse_length l3) as [len l4]. done.
Qed.
Lemma format_text_halts word n : ∀ fmt ap, (length fmt ≤ n)%nat → format_text word n fmt ap ≠ Diverge.
Proof.
  induction n as [|n IH]; intros [|ch rest] ap Hl; cbn [format_text length] in *; try done; [lia|].
  assert (Hc : ∀ k l, (length l ≤ n)%nat → (cons k <$> format_text word n l ap) ≠ Diverge) by (intros k l Hk; specialize (IH l ap Hk); by destruct (format_text _ _ _ _)).
  case_test; [apply Hc; lia|].
  assert (Hd : (d ← parse_directive rest ap;
    match d_conv d with
    | None => Ret []
    | Some conv => '(s, ap) ← text_conv word conv (d_flags d) (d_length d) (d_width d) (d_precision d) (d_ap d); app s <$> format_text word n (d_rest d) ap
    end) ≠ Diverge).
  { apply halts_then; [apply parse_directive_halts|]. intros d Hd. destruct (parse_range _ _ _ Hd) as [_ Hr]. destruct (d_conv d) as [conv|]; [|done].
    apply halts_then; [apply text_conv_halts|]. intros [s ap1] _. specialize (IH (d_rest d) ap1 ltac:(specialize (Hr ltac:(by eexists)); lia)). by destruct (format_text _ _ _ _). }
  destruct rest as [|[|p|p] rest]; try exact Hd. repeat (destruct p; try exact Hd). apply Hc. simpl in Hl. lia.
Qed.

Lemma snprintf_settled word mem size fmt args text : word = 32 ∨ word = 64 → 0 ≤ size ≤ zlen mem →
  format_text word (length fmt) fmt args ≠ Diverge ∧
  (format_text word (length fmt) fmt args = Ret text → zlen text < 2 ^ 31 →
   odfs_snprintf word None size fmt args = Ret (zlen text, []) ∧
   odfs_snprintf word (Some mem) size fmt args =
     Ret (zlen text, if size =? 0 then mem else let shown := take (Z.to_nat (size - 1)) text in shown ++ [0] ++ drop (S (length shown)) mem)).
Proof.
  intros Hw Hs. split; [by apply format_text_halts|]. intros Ht Hl.
  assert (H : ∀ mem e, 0 ≤ e ≤ zlen mem → ∃ b, kvsnprintf word (length fmt) (mk_fmt mem 0 e 0) fmt args = Ret b ∧ holds mem e text b).
  { intros m e He. apply (kv_puts m e He word Hw _ _ _ _ Ht [] (mk_fmt m 0 e 0)); [|done]. split; [by rewrite Z.min_l by (simpl; lia)|]. simpl. split_and!; [lia|done|done]. }
  unfold odfs_snprintf, odfs_vsnprintf. rewrite bool_decide_false by (by intros []). rewrite bool_decide_true by done. cbn [andb negb default]. change (Datatypes.id mem) with mem. split.
  - destruct (H [] 0 ltac:(simpl; lia)) as (b & -> & Hm & _ & _ & Hn). cbn [mbind outcome_bind]. rewrite Hn, Hm. rewrite Z.min_r by lia. done.
  - destruct (size =? 0) eqn:E; cbn [negb]; cbv iota; b2p.
    + destruct (H mem 0 ltac:(lia)) as (b & -> & Hm & _ & _ & Hn). cbn [mbind outcome_bind]. rewrite Hn, Hm. rewrite Z.min_r by lia. done.
    + destruct (H mem (size - 1) ltac:(lia)) as (b & -> & Hm & Hc & _ & Hn). cbn [mbind outcome_bind]. rewrite Hn, Hm, Hc. cbv zeta.
      set (w := Z.to_nat (Z.min (zlen text) (size - 1))). assert (Hlen : length (take w text) = w) by (rewrite length_take; lia).
      assert (Htk : take w text = take (Z.to_nat (size - 1)) text).
      { destruct (decide (zlen text ≤ size - 1)); [rewrite !take_ge by lia; done|]. unfold w. by rewrite Z.min_r by lia. }
      rewrite wr_ok by (rewrite length_app, Hlen, length_drop; lia). cbn [mbind outcome_bind]. do 2 f_equal. rewrite <- Htk, Hlen.
      unfold zset. rewrite (proj2 (Z.leb_le _ _)) by lia. fold w. rewrite insert_app_r_alt, Hlen, Nat.sub_diag by lia. f_equal.
      destruct (drop w mem) as [|x l] eqn:Ed; [apply (f_equal length) in Ed; rewrite length_drop in Ed; simpl in Ed; lia|].
      cbn. f_equal. change (S w) with (1 + w)%nat. by rewrite Nat.add_comm, <- drop_drop, Ed.
Qed.


(** ** The properties *)

(** [C19] Formatting writes what the format says: the count is the length of the whole text,
    and the buffer has the front of the text that fits, with a NUL behind it and the rest
    as it was; with no room nothing is written.  Whether there is a text for the
    arguments is always settled, and numbers in it are those of plain division. *)
Theorem odfs_snprintf_text word mem size fmt args text : word = 32 ∨ word = 64 → 0 ≤ size ≤ zlen mem →
  format_text word (length fmt) fmt args ≠ Diverge ∧
  (format_text word (length fmt) fmt args = Ret text → zlen text < 2 ^ 31 →
   odfs_snprintf word None size fmt args = Ret (zlen text, []) ∧
   odfs_snprintf word (Some mem) size fmt args =
     Ret (zlen text, if size =? 0 then mem else let shown := take (Z.to_nat (size - 1)) text in shown ++ [0] ++ drop (S (length shown)) mem)).
Proof. apply snprintf_settled. Qed.

(** A narrow field, a string cut off by its precision, and a buffer of eight bytes. *)
Lemma odfs_snprintf_text_witness :
  format_text 32 11 (str "%04d %.2s %X") [VInt (-7); VStr (Some (str "abc")); VInt 48879] = Ret (str "-007 ab BEEF") ∧
  odfs_snprintf 32 (Some (replicate 10 1)) 8 (str "%04d %.2s %X") [VInt (-7); VStr (Some (str "abc")); VInt 48879] = Ret (12, str "-007 ab" ++ [0; 1; 1]).
Proof.
  destruct (odfs_snprintf_text 32 (replicate 10 1) 8 (str "%04d %.2s %X") [VInt (-7); VStr (Some (str "abc")); VInt 48879] (str "-007 ab BEEF")
    (or_introl eq_refl) ltac:(simpl; lia)) as [_ H].
  assert (Ht : format_text 32 11 (str "%04d %.2s %X") [VInt (-7); VStr (Some (str "abc")); VInt 48879] = Ret (str "-007 ab BEEF")) by (vm_compute; reflexivity).
  split; [exact Ht|]. destruct (H Ht) as [_ He]; [simpl; lia|]. exact He.
Defined.

(** Reading a decimal number back. *)
Definition read_decimal (s : list Z) : Z := fold_left (λ v ch, v * 10 + (ch - 48)) s 0.
Definition read_signed (s : list Z) : Z := match s with 45 :: s => - read_decimal s | _ => read_decimal s end.
Lemma decimal_digit d : 0 ≤ d < 10 → default 0 (zget lower_digits d) = 48 + d.
Proof.
  intros H. assert (Hs : d ∈ seqZ 0 10) by (apply elem_of_seqZ; lia).
  assert (Hall : Forall (λ d, default 0 (zget lower_digits d) = 48 + d) (seqZ 0 10)) by (vm_compute; repeat constructor). rewrite Forall_forall in Hall. by apply Hall.
Qed.
Lemma ref_digits_value n : ∀ v, 0 ≤ v < 10 ^ Z.of_nat n → fold_right (λ ch v, v * 10 + (ch - 48)) 0 (ref_digits n v 10 lower_digits) = v.
Proof.
  induction n as [|n IH]; intros v Hv; [simpl in *; lia|]. cbn [ref_digits fold_right]. rewrite decimal_digit by (apply Z.mod_pos_bound; lia).
  rewrite Nat2Z.inj_succ, Z.pow_succ_r in Hv by lia. case_test; b2p; cbn [fold_right]; [|rewrite IH by dlia]; dlia.
Qed.
Lemma ref_digits_shape n : ∀ v, 0 ≤ v → Forall (λ ch, 48 ≤ ch ≤ 57) (ref_digits n v 10 lower_digits).
Proof.
  induction n as [|n IH]; intros v Hv; cbn [ref_digits]; constructor; [rewrite decimal_digit; dlia|]. case_test; [constructor|apply IH; dlia].
Qed.
Lemma ref_digits_length k : ∀ n v, 0 ≤ v < 10 ^ Z.of_nat (S k) → (length (ref_digits n v 10 lower_digits) ≤ S k)%nat.
Proof.
  induction k as [|k IH]; intros [|n] v Hv; cbn [ref_digits length]; try lia.
  - change (10 ^ Z.of_nat 1) with 10 in Hv. rewrite (proj2 (Z.eqb_eq _ _)) by dlia. simpl. lia.
  - rewrite Nat2Z.inj_succ, Z.pow_succ_r in Hv by lia. case_test; [simpl; lia|]. specialize (IH n (v / 10) ltac:(dlia)). lia.
Qed.
(** A 64-bit number that was formatted in decimal, into any buffer of 22 bytes or more,
    reads back as the number it was; the text is one string in the buffer. *)
Theorem printf_decimal_roundtrip word mem size x : word = 32 ∨ word = 64 → 22 ≤ size ≤ zlen mem → - 2 ^ 63 ≤ x < 2 ^ 63 →
  ∃ n mem', odfs_snprintf word (Some mem) size (str "%lld") [VLLong x] = Ret (n, mem') ∧ zlen (c_str mem') = n ∧ read_signed (c_str mem') = x.
Proof.
  intros Hw Hs Hx. set (text := text_signed x 0 0 (-1)).
  assert (Hsg : signed_of 64 x = x).
  { unfold signed_of, unsigned_of. destruct (decide (0 ≤ x)); [rewrite Z.mod_small, (proj2 (Z.ltb_lt _ _)) by lia; done|].
    replace (x mod 2 ^ 64) with (x + 2 ^ 64) by (rewrite <- (Z_mod_plus_full x 1), Z.mod_small by lia; lia). cbv zeta. rewrite (proj2 (Z.ltb_ge _ _)) by lia. lia. }
  assert (Ht : format_text word (length (str "%lld")) (str "%lld") [VLLong x] = Ret text).
  { transitivity (Ret (text_signed (signed_of 64 x) 0 0 (-1) ++ [])); [reflexivity|]. by rewrite Hsg, app_nil_r. }
  set (ds := number (Z.abs x) 10 lower_digits).
  assert (Htext : text = (if x <? 0 then [45] else []) ++ ds).
  { unfold text, text_signed, text_number. change (has 0 FMT_PLUS) with false. change (has 0 FMT_SPACE) with false. change (has 0 FMT_UPPER) with false. change (has 0 FMT_LEFT) with false.
    change (has 0 FMT_ZERO_PAD) with false. change (-1 =? 0) with false. rewrite andb_false_r. fold ds. cbv iota. unfold zeros, blanks. rewrite !(Z2Nat.nonpos (_ - _)) by lia. done. }
  assert (Hds : Forall (λ ch, 48 ≤ ch ≤ 57) ds) by (apply Forall_rev, ref_digits_shape; lia).
  assert (Hlen : zlen ds ≤ 20) by (unfold ds, number; rewrite length_rev; pose proof (ref_digits_length 19 32 (Z.abs x) ltac:(simpl; lia)); lia).
  assert (Hval : read_decimal ds = Z.abs x).
  { unfold read_decimal, ds, number. rewrite <- fold_left_rev_right, rev_involutive. apply ref_digits_value. simpl. lia. }
  assert (Hl : zlen text ≤ 21) by (rewrite Htext, length_app; case_test; simpl; lia).
  assert (Hnn : Forall (λ ch, ch ≠ 0) text).
  { rewrite Htext. apply Forall_app. split; [case_test; repeat constructor; lia|]. eapply Forall_impl; [exact Hds|]. intros ch Hc. cbv beta in Hc. lia. }
  destruct (snprintf_settled word mem size (str "%lld") [VLLong x] text Hw ltac:(lia)) as [_ H]. destruct (H Ht ltac:(lia)) as [_ He].
  rewrite (proj2 (Z.eqb_neq _ _)) in He by lia. cbv zeta in He. rewrite take_ge in He by lia. exists (zlen text), (text ++ 0 :: drop (S (length text)) mem). split; [exact He|].
  rewrite c_str_app_nul by done. split; [done|]. rewrite Htext. destruct (x <? 0) eqn:E; b2p; cbn [app].
  - unfold read_signed. rewrite Hval. lia.
  - rewrite <- (Z.abs_eq x) at 1 by lia. rewrite <- Hval. unfold read_signed. destruct ds as [|ch ds']; [done|]. apply Forall_cons in Hds as [Hc _]. cbv beta in Hc.
    destruct ch as [|p|p]; try done. do 6 (destruct p as [p|p|]; try done; try lia).
Qed.
Lemma printf_decimal_roundtrip_witness : ∃ n mem', odfs_snprintf 64 (Some (replicate 30 9)) 22 (str "%lld") [VLLong (- 2 ^ 63)] = Ret (n, mem') ∧
  zlen (c_str mem') = n ∧ read_signed (c_str mem') = - 2 ^ 63.
Proof. apply (printf_decimal_roundtrip 64 (replicate 30 9) 22 (- 2 ^ 63)); [by right|simpl; lia|lia]. Defined.
