(* ===== verification/Freestanding.v ===== *)
(** * Memory and string functions of the handler ([platform/amiga/common/freestanding.c])

    Memory is a finite map from addresses to bytes; an access to an address that is not
    mapped is a [Fault].  [W] is the size of a machine word, [big] its byte order;
    addresses are below [2 ^ (8 * W)].  [CopyMem] is the copy of the exec library. *)
From stdpp Require Import gmap.
From S2P Require Import Prelude.
Open Scope Z_scope.

Abbreviation ram := (gmap Z Z) (only parsing).

(** ** Accesses *)

Definition ld (m : ram) (a : Z) : outcome Z := match m !! a with Some b => Ret b | None => Fault end.
Definition st (m : ram) (a b : Z) : outcome ram := match m !! a with Some _ => Ret (<[a := b]> m) | None => Fault end.
Fixpoint ld_bytes (m : ram) (a : Z) (n : nat) : outcome (list Z) :=
  match n with O => Ret [] | S n => b ← ld m a; l ← ld_bytes m (a + 1) n; Ret (b :: l) end.
Fixpoint st_bytes (m : ram) (a : Z) (l : list Z) : outcome ram :=
  match l with [] => Ret m | b :: l => m ← st m a b; st_bytes m (a + 1) l end.
(** The value of a word, and its bytes, the low one first. *)
Fixpoint le_val (l : list Z) : Z := match l with [] => 0 | b :: l => b + 256 * le_val l end.
Fixpoint le_bytes (n : nat) (v : Z) : list Z := match n with O => [] | S n => v mod 256 :: le_bytes n (v / 256) end.

Section freestanding.
Context (W : Z) (big : bool) (CopyMem : ram → Z → Z → Z → outcome ram).

(** [size_t] and [word_t]. *)
Definition usz (x : Z) : Z := x mod 2 ^ (8 * W).
Definition in_order (l : list Z) : list Z := if big then rev l else l.
(** A word is at a multiple of its size. *)
Definition ld_word (m : ram) (a : Z) : outcome Z :=
  if a mod W =? 0 then l ← ld_bytes m a (Z.to_nat W); Ret (le_val (in_order l)) else Fault.
Definition st_word (m : ram) (a w : Z) : outcome ram :=
  if a mod W =? 0 then st_bytes m a (in_order (le_bytes (Z.to_nat W) w)) else Fault.

(* [src: platform/amiga/common/freestanding.c:25-28 WSIZE] *)
Definition WSIZE : Z := W.
Definition WMASK : Z := WSIZE - 1.
Definition ONES : Z := usz (Z.lnot 0) / 255.
Definition HIGHS : Z := usz (Z.shiftl ONES 7).
(* [src: platform/amiga/common/freestanding.c:29-29 HAS_ZERO] *)
Definition HAS_ZERO (w : Z) : bool := negb (Z.land (Z.land (usz (w - ONES)) (usz (Z.lnot w))) HIGHS =? 0).
Definition COPYMEM_MIN : Z := 64.

(* [src: platform/amiga/common/freestanding.c:37-40 co_aligned] *)
Definition co_aligned (a b : Z) : bool := Z.land (Z.lxor a b) WMASK =? 0.

(** ** Copying *)

Definition copy_byte (m : ram) (d s : Z) : outcome ram := b ← ld m s; st m d b.
Definition copy_word (m : ram) (d s : Z) : outcome ram := w ← ld_word m s; st_word m d w.
(** The memory, the two pointers and the bytes left. *)
Abbreviation cursor := (ram * Z * Z * Z)%type.
(* [src: platform/amiga/common/freestanding.c:45-48 copy_fwd] *)
Fixpoint fwd_align (n : nat) (m : ram) (d s len : Z) : outcome cursor :=
  match n with
  | O => Diverge
  | S n => if negb (Z.land d WMASK =? 0) then m ← copy_byte m d s; fwd_align n m (d + 1) (s + 1) (usz (len - 1)) else Ret (m, d, s, len)
  end.
(* [src: platform/amiga/common/freestanding.c:49-57 copy_fwd] *)
Fixpoint fwd_quads (n : nat) (m : ram) (d s len : Z) : outcome cursor :=
  match n with
  | O => Diverge
  | S n =>
      if 4 * WSIZE <=? len then
        m ← copy_word m d s;
        m ← copy_word m (d + WSIZE) (s + WSIZE);
        m ← copy_word m (d + 2 * WSIZE) (s + 2 * WSIZE);
        m ← copy_word m (d + 3 * WSIZE) (s + 3 * WSIZE);
        fwd_quads n m (d + 4 * WSIZE) (s + 4 * WSIZE) (usz (len - 4 * WSIZE))
      else Ret (m, d, s, len)
  end.
(* [src: platform/amiga/common/freestanding.c:58-63 copy_fwd] *)
Fixpoint fwd_words (n : nat) (m : ram) (d s len : Z) : outcome cursor :=
  match n with
  | O => Diverge
  | S n => if WSIZE <=? len then m ← copy_word m d s; fwd_words n m (d + WSIZE) (s + WSIZE) (usz (len - WSIZE)) else Ret (m, d, s, len)
  end.
(* [src: platform/amiga/common/freestanding.c:65-66 copy_fwd] *)
Fixpoint fwd_bytes (n : nat) (m : ram) (d s len : Z) : outcome ram :=
  match n with
  | O => Diverge
  | S n => if negb (len =? 0) then m ← copy_byte m d s; fwd_bytes n m (d + 1) (s + 1) (usz (len - 1)) else Ret m
  end.
(* [src: platform/amiga/common/freestanding.c:42-67 copy_fwd] *)
Definition copy_fwd (m : ram) (d s n : Z) : outcome ram :=
  let fuel := S (Z.to_nat n) in
  '(m, d, s, n) ← (if (WSIZE <=? n) && co_aligned d s then
                     '(m, d, s, n) ← fwd_align fuel m d s n; '(m, d, s, n) ← fwd_quads fuel m d s n; fwd_words fuel m d s n
                   else Ret (m, d, s, n));
  fwd_bytes fuel m d s n.
(* [src: platform/amiga/common/freestanding.c:73-76 copy_bwd] *)
Fixpoint bwd_align (n : nat) (m : ram) (d s len : Z) : outcome cursor :=
  match n with
  | O => Diverge
  | S n => if negb (Z.land d WMASK =? 0) then m ← copy_byte m (d - 1) (s - 1); bwd_align n m (d - 1) (s - 1) (usz (len - 1)) else Ret (m, d, s, len)
  end.
(* [src: platform/amiga/common/freestanding.c:77-82 copy_bwd] *)
Fixpoint bwd_words (n : nat) (m : ram) (d s len : Z) : outcome cursor :=
  match n with
  | O => Diverge
  | S n => if WSIZE <=? len then m ← copy_word m (d - WSIZE) (s - WSIZE); bwd_words n m (d - WSIZE) (s - WSIZE) (usz (len - WSIZE)) else Ret (m, d, s, len)
  end.
(* [src: platform/amiga/common/freestanding.c:84-85 copy_bwd] *)
Fixpoint bwd_bytes (n : nat) (m : ram) (d s len : Z) : outcome ram :=
  match n with
  | O => Diverge
  | S n => if negb (len =? 0) then m ← copy_byte m (d - 1) (s - 1); bwd_bytes n m (d - 1) (s - 1) (usz (len - 1)) else Ret m
  end.
(** [d] and [s] are one past the ends. *)
(* [src: platform/amiga/common/freestanding.c:70-86 copy_bwd] *)
Definition copy_bwd (m : ram) (d s n : Z) : outcome ram :=
  let fuel := S (Z.to_nat n) in
  '(m, d, s, n) ← (if (WSIZE <=? n) && co_aligned d s then
                     '(m, d, s, n) ← bwd_align fuel m d s n; bwd_words fuel m d s n
                   else Ret (m, d, s, n));
  bwd_bytes fuel m d s n.
(* [src: platform/amiga/common/freestanding.c:88-98 memcpy] *)
Definition memcpy (m : ram) (dst src n : Z) : outcome ram :=
  if dst =? src then Ret m else if COPYMEM_MIN <=? n then CopyMem m src dst n else copy_fwd m dst src n.
(* [src: platform/amiga/common/freestanding.c:104-121 memmove] *)
Definition memmove (m : ram) (dst src n : Z) : outcome ram :=
  let d := dst in let s := src in
  if d =? s then Ret m
  else if n <=? usz (d - s) then
    if n <=? usz (s - d) then memcpy m dst src n else copy_fwd m d s n
  else copy_bwd m (d + n) (s + n) n.

(** ** Filling *)

(* [src: platform/amiga/common/freestanding.c:131-134 memset] *)
Fixpoint set_align (n : nat) (m : ram) (d b len : Z) : outcome (ram * Z * Z) :=
  match n with
  | O => Diverge
  | S n => if negb (Z.land d WMASK =? 0) then m ← st m d b; set_align n m (d + 1) b (usz (len - 1)) else Ret (m, d, len)
  end.
(* [src: platform/amiga/common/freestanding.c:135-142 memset] *)
Fixpoint set_quads (n : nat) (m : ram) (d w len : Z) : outcome (ram * Z * Z) :=
  match n with
  | O => Diverge
  | S n =>
      if 4 * WSIZE <=? len then
        m ← st_word m d w; m ← st_word m (d + WSIZE) w; m ← st_word m (d + 2 * WSIZE) w; m ← st_word m (d + 3 * WSIZE) w;
        set_quads n m (d + 4 * WSIZE) w (usz (len - 4 * WSIZE))
      else Ret (m, d, len)
  end.
(* [src: platform/amiga/common/freestanding.c:143-147 memset] *)
Fixpoint set_words (n : nat) (m : ram) (d w len : Z) : outcome (ram * Z * Z) :=
  match n with
  | O => Diverge
  | S n => if WSIZE <=? len then m ← st_word m d w; set_words n m (d + WSIZE) w (usz (len - WSIZE)) else Ret (m, d, len)
  end.
(* [src: platform/amiga/common/freestanding.c:149-150 memset] *)
Fixpoint set_bytes (n : nat) (m : ram) (d b len : Z) : outcome ram :=
  match n with
  | O => Diverge
  | S n => if negb (len =? 0) then m ← st m d b; set_bytes n m (d + 1) b (usz (len - 1)) else Ret m
  end.
(* [src: platform/amiga/common/freestanding.c:123-152 memset] *)
Definition memset (m : ram) (dst c n : Z) : outcome ram :=
  let fuel := S (Z.to_nat n) in
  let b := u8 c in
  '(m, d, n) ← (if 2 * WSIZE <=? n then
                  let w := usz (ONES * b) in
                  '(m, d, n) ← set_align fuel m dst b n; '(m, d, n) ← set_quads fuel m d w n; set_words fuel m d w n
                else Ret (m, dst, n));
  set_bytes fuel m d b n.

(** ** Comparing *)

(** A loop goes on with its variables, or the function returns. *)
(* [src: platform/amiga/common/freestanding.c:161-167 memcmp] *)
Fixpoint cmp_align (n : nat) (m : ram) (pa pb len : Z) : outcome (Z + Z * Z * Z) :=
  match n with
  | O => Diverge
  | S n =>
      if negb (Z.land pa WMASK =? 0) then
        a ← ld m pa; b ← ld m pb;
        if negb (a =? b) then Ret (inl (a - b)) else cmp_align n m (pa + 1) (pb + 1) (usz (len - 1))
      else Ret (inr (pa, pb, len))
  end.
(* [src: platform/amiga/common/freestanding.c:168-172 memcmp] *)
Fixpoint cmp_words (n : nat) (m : ram) (pa pb len : Z) : outcome (Z * Z * Z) :=
  match n with
  | O => Diverge
  | S n =>
      if WSIZE <=? len then
        a ← ld_word m pa; b ← ld_word m pb;
        if a =? b then cmp_words n m (pa + WSIZE) (pb + WSIZE) (usz (len - WSIZE)) else Ret (pa, pb, len)
      else Ret (pa, pb, len)
  end.
(* [src: platform/amiga/common/freestanding.c:174-180 memcmp] *)
Fixpoint cmp_bytes (n : nat) (m : ram) (pa pb len : Z) : outcome Z :=
  match n with
  | O => Diverge
  | S n =>
      if negb (len =? 0) then
        a ← ld m pa; b ← ld m pb;
        if negb (a =? b) then Ret (a - b) else cmp_bytes n m (pa + 1) (pb + 1) (usz (len - 1))
      else Ret 0
  end.
(* [src: platform/amiga/common/freestanding.c:154-181 memcmp] *)
Definition memcmp (m : ram) (pa pb n : Z) : outcome Z :=
  let fuel := S (Z.to_nat n) in
  r ← (if (WSIZE <=? n) && co_aligned pa pb then
         r ← cmp_align fuel m pa pb n;
         match r with
         | inl v => Ret (inl v)
         | inr (pa, pb, n) => p ← cmp_words fuel m pa pb n; Ret (inr p)
         end
       else Ret (inr (pa, pb, n)));
  match r with inl v => Ret v | inr (pa, pb, n) => cmp_bytes fuel m pa pb n end.

(** ** Strings

    The loops end at the NUL; their fuel is an argument. *)

(* [src: platform/amiga/common/freestanding.c:188-192 strlen] *)
Fixpoint len_align (n : nat) (m : ram) (s p : Z) : outcome (Z + Z) :=
  match n with
  | O => Diverge
  | S n => if negb (Z.land p WMASK =? 0) then b ← ld m p; if b =? 0 then Ret (inl (p - s)) else len_align n m s (p + 1) else Ret (inr p)
  end.
(* [src: platform/amiga/common/freestanding.c:195-196 strlen] *)
Fixpoint len_words (n : nat) (m : ram) (w : Z) : outcome Z :=
  match n with O => Diverge | S n => x ← ld_word m w; if negb (HAS_ZERO x) then len_words n m (w + WSIZE) else Ret w end.
(* [src: platform/amiga/common/freestanding.c:197-198 strlen] *)
Fixpoint len_bytes (n : nat) (m : ram) (p : Z) : outcome Z :=
  match n with O => Diverge | S n => b ← ld m p; if negb (b =? 0) then len_bytes n m (p + 1) else Ret p end.
(* [src: platform/amiga/common/freestanding.c:183-200 strlen] *)
Definition strlen (n : nat) (m : ram) (s : Z) : outcome Z :=
  r ← len_align n m s s;
  match r with inl k => Ret k | inr p => w ← len_words n m p; p ← len_bytes n m w; Ret (p - s) end.
(* [src: platform/amiga/common/freestanding.c:202-209 strcmp] *)
Fixpoint strcmp (n : nat) (m : ram) (a b : Z) : outcome Z :=
  match n with
  | O => Diverge
  | S n =>
      x ← ld m a;
      if negb (x =? 0) then y ← ld m b; if x =? y then strcmp n m (a + 1) (b + 1) else Ret (x - y)
      else y ← ld m b; Ret (x - y)
  end.
(** [None] is the null pointer. *)
(* [src: platform/amiga/common/freestanding.c:211-221 strchr] *)
Fixpoint strchr (n : nat) (m : ram) (s c : Z) : outcome (option Z) :=
  match n with
  | O => Diverge
  | S n => let ch := u8 c in b ← ld m s; if b =? ch then Ret (Some s) else if b =? 0 then Ret None else strchr n m (s + 1) c
  end.
(* [src: platform/amiga/common/freestanding.c:227-230 strncpy] *)
Fixpoint ncpy_loop (fuel : nat) (m : ram) (d src n : Z) : outcome (ram * Z * Z) :=
  match fuel with
  | O => Diverge
  | S fuel =>
      if negb (n =? 0) then
        b ← ld m src;
        if negb (b =? 0) then m ← st m d b; ncpy_loop fuel m (d + 1) (src + 1) (usz (n - 1)) else Ret (m, d, n)
      else Ret (m, d, n)
  end.
(* [src: platform/amiga/common/freestanding.c:223-233 strncpy] *)
Definition strncpy (m : ram) (dst src n : Z) : outcome ram :=
  '(m, d, n) ← ncpy_loop (S (Z.to_nat n)) m dst src n;
  memset m d 0 n.
End freestanding.
