(* ===== verification/FreestandingSpec.v ===== *)
(** * What the memory and string functions do

    Copies by words in either direction, fills, comparisons and searches by words are
    those by bytes, for all alignments and overlaps. *)
From stdpp Require Import gmap.
From S2P Require Import Prelude Freestanding.
Open Scope Z_scope.

(** ** Bytes in memory *)

(** The memory with a list of bytes at [a]. *)
Fixpoint put (m : ram) (a : Z) (l : list Z) : ram := match l with [] => m | b :: l => <[a := b]> (put m (a + 1) l) end.
Definition holds (m : ram) (a : Z) (l : list Z) : Prop := ∀ i b, l !! i = Some b → m !! (a + Z.of_nat i) = Some b.
Definition mapped (m : ram) (a n : Z) : Prop := ∀ i, 0 ≤ i < n → is_Some (m !! (a + i)).

Lemma put_out m a l x : x < a ∨ a + zlen l ≤ x → put m a l !! x = m !! x.
Proof. revert a. induction l as [|b l IH]; intros a Hx; simpl in *; [done|]. rewrite lookup_insert_ne by lia. apply IH. lia. Qed.
Lemma put_in m a l x : a ≤ x < a + zlen l → put m a l !! x = l !! Z.to_nat (x - a).
Proof.
  revert a. induction l as [|b l IH]; intros a Hx; simpl in *; [lia|]. destruct (decide (x = a)) as [->|Hne].
  - rewrite lookup_insert_eq. by rewrite Z.sub_diag.
  - rewrite lookup_insert_ne, IH by lia. by replace (Z.to_nat (x - a)) with (S (Z.to_nat (x - (a + 1)))) by lia.
Qed.
Lemma put_app m a l l' : put m a (l ++ l') = put (put m a l) (a + zlen l) l'.
Proof.
  apply map_eq. intros x. destruct (decide (a ≤ x < a + zlen (l ++ l'))) as [Hx|Hx].
  - rewrite put_in by done. rewrite length_app in Hx. destruct (decide (x < a + zlen l)).
    + rewrite put_out, put_in, lookup_app_l by lia. done.
    + rewrite put_in, lookup_app_r by lia. f_equal. lia.
  - rewrite length_app in Hx. rewrite !put_out by (rewrite ?length_app; lia). done.
Qed.
(** The other order. *)
Lemma put_app_back m a l l' : put m a (l ++ l') = put (put m (a + zlen l) l') a l.
Proof.
  apply map_eq. intros x. destruct (decide (a ≤ x < a + zlen (l ++ l'))) as [Hx|Hx].
  - rewrite put_in by done. rewrite length_app in Hx. destruct (decide (x < a + zlen l)).
    + rewrite put_in, lookup_app_l by lia. done.
    + rewrite put_out, put_in, lookup_app_r by lia. f_equal. lia.
  - rewrite length_app in Hx. rewrite !put_out by (rewrite ?length_app; lia). done.
Qed.
Lemma put_holds m a l : holds m a l → put m a l = m.
Proof.
  intros H. apply map_eq. intros x. destruct (decide (a ≤ x < a + zlen l)) as [Hx|Hx]; [|apply put_out; lia].
  rewrite put_in by done. destruct (lookup_lt_is_Some_2 l (Z.to_nat (x - a)) ltac:(lia)) as [b Hb]. rewrite Hb. apply H in Hb. rewrite <- Hb. f_equal. lia.
Qed.
Lemma mapped_put m a l d n : mapped m d n → mapped (put m a l) d n.
Proof.
  intros H i Hi. destruct (decide (a ≤ d + i < a + zlen l)); [|rewrite put_out by lia; by apply H]. rewrite put_in by done. apply lookup_lt_is_Some_2. lia.
Qed.
Lemma mapped_sub m d n d' n' : mapped m d n → d ≤ d' → d' + n' ≤ d + n → mapped m d' n'.
Proof. intros H ? ? i Hi. replace (d' + i) with (d + (d' - d + i)) by lia. apply H. lia. Qed.
Lemma holds_mapped m a l : holds m a l → mapped m a (zlen l).
Proof. intros H i Hi. destruct (lookup_lt_is_Some_2 l (Z.to_nat i) ltac:(lia)) as [b Hb]. apply H in Hb. rewrite Z2Nat.id in Hb by lia. by rewrite Hb. Qed.
Lemma holds_piece m a l k j : holds m a l → holds m (a + Z.of_nat k) (take j (drop k l)).
Proof.
  intros H i b Hb. destruct (decide (i < j)%nat); [|rewrite lookup_take_ge in Hb by lia; done].
  rewrite lookup_take_lt in Hb by done. rewrite lookup_drop in Hb. apply H in Hb. rewrite <- Hb. f_equal. lia.
Qed.
Lemma holds_drop m a l k : holds m a l → holds m (a + Z.of_nat k) (drop k l).
Proof. intros H i b Hb. rewrite lookup_drop in Hb. apply H in Hb. rewrite <- Hb. f_equal. lia. Qed.
(** What is read outside the bytes that were written. *)
Lemma holds_put m a l x l' : holds m x l' → x + zlen l' ≤ a ∨ a + zlen l ≤ x → holds (put m a l) x l'.
Proof. intros H Hd i b Hb. pose proof (lookup_lt_Some _ _ _ Hb). rewrite put_out by lia. by apply H. Qed.

Lemma ld_bytes_holds m l : ∀ a, holds m a l → ld_bytes m a (length l) = Ret l.
Proof.
  induction l as [|b l IH]; intros a H; simpl; [done|]. unfold ld. pose proof (H 0%nat b eq_refl) as Hb. rewrite Z.add_0_r in Hb. rewrite Hb. cbn [mbind outcome_bind].
  rewrite IH; [done|]. intros i c Hc. rewrite <- (H (S i) c Hc). f_equal. lia.
Qed.
Lemma st_bytes_put l : ∀ m a, mapped m a (zlen l) → st_bytes m a l = Ret (put m a l).
Proof.
  induction l as [|b l IH]; intros m a H; simpl in *; [done|]. unfold st. destruct (H 0 ltac:(lia)) as [x Hx]. rewrite Z.add_0_r in Hx. rewrite Hx. cbn [mbind outcome_bind].
  change (<[a:=b]> m) with (put m a [b]). rewrite IH.
  - change (a + 1) with (a + zlen [b]). by rewrite <- put_app.
  - apply mapped_put. eapply mapped_sub; [exact H|lia|lia].
Qed.

(** ** Words *)

Lemma le_val_range l : Forall is_byte l → 0 ≤ le_val l < 2 ^ (8 * zlen l).
Proof.
  induction 1 as [|b l Hb _ IH]; cbn [length le_val]; [done|]. unfold is_byte in Hb. rewrite Nat2Z.inj_succ. replace (8 * Z.succ (zlen l)) with (8 + 8 * zlen l) by lia.
  rewrite Z.pow_add_r by lia. change (2 ^ 8) with 256. set (x := 2 ^ (8 * zlen l)) in *. lia.
Qed.
Lemma le_bytes_val l : Forall is_byte l → le_bytes (length l) (le_val l) = l.
Proof.
  induction 1 as [|b l Hb _ IH]; cbn [length le_val le_bytes]; [done|]. unfold is_byte in Hb. rewrite (Z.mul_comm 256). rewrite Z.mod_add, Z.div_add, Z.mod_small, Z.div_small by lia. f_equal. exact IH.
Qed.
Lemma le_val_inj l l' : Forall is_byte l → Forall is_byte l' → length l = length l' → le_val l = le_val l' → l = l'.
Proof. intros Hl Hl' Hn Hv. by rewrite <- (le_bytes_val l), <- (le_bytes_val l'), Hn, Hv. Qed.
Lemma length_le_bytes n : ∀ v, length (le_bytes n v) = n.
Proof. induction n; intros; simpl; auto. Qed.
Lemma le_bytes_replicate n b : is_byte b → le_bytes n (le_val (replicate n b)) = replicate n b.
Proof. intros H. rewrite <- (length_replicate n b) at 1. apply le_bytes_val, Forall_replicate, H. Qed.
Lemma rev_replicate {A} n (x : A) : rev (replicate n x) = replicate n x.
Proof. induction n as [|n IH]; [done|]. simpl rev. rewrite IH. symmetry. apply replicate_cons_app. Qed.

Section words.
Context (W : Z) (big : bool) (HW : W = 4 ∨ W = 8).

Lemma W_pos : 0 < W. Proof. clear - HW. lia. Qed.
Lemma usz_small x : 0 ≤ x < 2 ^ (8 * W) → usz W x = x.
Proof. apply Z.mod_small. Qed.
Lemma land_mask a : Z.land a (WMASK W) = a mod W.
Proof. clear - HW. unfold WMASK, WSIZE. destruct HW as [-> | ->]; [apply (Z.land_ones a 2)|apply (Z.land_ones a 3)]; lia. Qed.
Lemma co_aligned_spec a b : co_aligned W a b = true ↔ a mod W = b mod W.
Proof.
  unfold co_aligned. rewrite Z.eqb_eq. replace (Z.land (Z.lxor a b) (WMASK W)) with (Z.lxor (Z.land a (WMASK W)) (Z.land b (WMASK W))).
  - rewrite !land_mask. split; [apply Z.lxor_eq|intros ->; apply Z.lxor_nilpotent].
  - apply Z.bits_inj'. intros n Hn. rewrite Z.lxor_spec, !Z.land_spec, Z.lxor_spec. by destruct (Z.testbit a n), (Z.testbit b n), (Z.testbit (WMASK W) n).
Qed.
Lemma in_order_length l : length (in_order big l) = length l.
Proof. unfold in_order. destruct big; [apply length_rev|done]. Qed.
Lemma in_order_twice l : in_order big (in_order big l) = l.
Proof. unfold in_order. destruct big; [apply rev_involutive|done]. Qed.
Lemma in_order_bytes l : Forall is_byte l → Forall is_byte (in_order big l).
Proof. unfold in_order. destruct big; [apply Forall_rev|done]. Qed.

Lemma ld_word_holds m a l : a mod W = 0 → zlen l = W → holds m a l → ld_word W big m a = Ret (le_val (in_order big l)).
Proof. intros Ha Hl H. unfold ld_word. rewrite Ha, <- Hl, Nat2Z.id. cbn [Z.eqb]. by rewrite ld_bytes_holds. Qed.
Lemma st_word_put m a l : a mod W = 0 → zlen l = W → Forall is_byte l → mapped m a W → st_word W big m a (le_val (in_order big l)) = Ret (put m a l).
Proof.
  intros Ha Hl Hb Hm. unfold st_word. rewrite Ha. cbn [Z.eqb]. replace (Z.to_nat W) with (length (in_order big l)) by (rewrite in_order_length; lia).
  rewrite le_bytes_val, in_order_twice by by apply in_order_bytes. apply st_bytes_put. by rewrite Hl.
Qed.
Lemma copy_word_put m d s l : d mod W = 0 → s mod W = 0 → zlen l = W → Forall is_byte l → holds m s l → mapped m d W → copy_word W big m d s = Ret (put m d l).
Proof. intros. unfold copy_word. rewrite (ld_word_holds m s l) by done. cbn [mbind outcome_bind]. by apply st_word_put. Qed.
Lemma copy_byte_put m d s b : holds m s [b] → mapped m d 1 → copy_byte m d s = Ret (put m d [b]).
Proof.
  intros H Hm. unfold copy_byte, ld. pose proof (H 0%nat b eq_refl) as Hb. rewrite Z.add_0_r in Hb. rewrite Hb. cbn [mbind outcome_bind]. unfold st. destruct (Hm 0 ltac:(lia)) as [x Hx]. rewrite Z.add_0_r in Hx. by rewrite Hx.
Qed.
(** The bytes to the next word. *)
Lemma to_align d : d mod W ≠ 0 → (- (d + 1)) mod W = (- d) mod W - 1 ∧ 0 < (- d) mod W.
Proof. clear - HW. intros. destruct HW as [-> | ->]; dlia. Qed.
Lemma to_align_down d : d mod W ≠ 0 → (d - 1) mod W = d mod W - 1 ∧ 0 < d mod W.
Proof. clear - HW. intros. destruct HW as [-> | ->]; dlia. Qed.
Lemma same_mod a b k : a mod W = b mod W → (a + k) mod W = (b + k) mod W.
Proof. clear. intros H. by rewrite Zplus_mod, H, <- Zplus_mod. Qed.
Lemma mod_next a : (a + W) mod W = a mod W.
Proof. pose proof W_pos. rewrite <- (Z.mul_1_l W) at 1. by rewrite Z.mod_add by lia. Qed.
End words.

(** ** Copies *)

Section copies.
Context (W : Z) (big : bool) (HW : W = 4 ∨ W = 8) (m0 : ram) (d0 s0 : Z) (l : list Z).
Context (Hb : Forall is_byte l) (Hs : holds m0 s0 l) (Hd : mapped m0 d0 (zlen l)) (Hlen : zlen l < 2 ^ (8 * W)).

(** [k] bytes are copied from the front. *)
Definition fwd_at (k : nat) (c : ram * Z * Z * Z) : Prop :=
  (k ≤ length l)%nat ∧ c = (put m0 d0 (take k l), d0 + Z.of_nat k, s0 + Z.of_nat k, zlen l - Z.of_nat k).
Context (Hfwd : d0 ≤ s0 ∨ s0 + zlen l ≤ d0).
Lemma fwd_step k j : (k + j ≤ length l)%nat →
  holds (put m0 d0 (take k l)) (s0 + Z.of_nat k) (take j (drop k l)) ∧ mapped (put m0 d0 (take k l)) (d0 + Z.of_nat k) (Z.of_nat j) ∧
  put (put m0 d0 (take k l)) (d0 + Z.of_nat k) (take j (drop k l)) = put m0 d0 (take (k + j) l).
Proof.
  intros Hk. assert (Hl : length (take j (drop k l)) = j) by (rewrite length_take, length_drop; lia). assert (Hlk : length (take k l) = k) by (rewrite length_take; lia). split_and!.
  - apply holds_put; [by apply holds_piece|]. rewrite Hl, Hlk. lia.
  - apply mapped_put. eapply mapped_sub; [exact Hd|lia|lia].
  - rewrite <- Hlk at 2. rewrite <- put_app. by rewrite take_take_drop.
Qed.
Lemma fwd_byte k : (k < length l)%nat → copy_byte (put m0 d0 (take k l)) (d0 + Z.of_nat k) (s0 + Z.of_nat k) = Ret (put m0 d0 (take (S k) l)).
Proof.
  intros Hk. destruct (fwd_step k 1 ltac:(lia)) as (Hh & Hm & Hp). destruct (lookup_lt_is_Some_2 l k Hk) as [b Hbk].
  rewrite (drop_S _ _ _ Hbk) in Hh, Hp. change (take 1 (b :: drop (S k) l)) with [b] in Hh, Hp. rewrite (copy_byte_put _ _ _ b) by done. rewrite Hp. by rewrite Nat.add_1_r.
Qed.
Lemma fwd_word k : Z.of_nat k + W ≤ zlen l → (d0 + Z.of_nat k) mod W = 0 → (s0 + Z.of_nat k) mod W = 0 →
  copy_word W big (put m0 d0 (take k l)) (d0 + Z.of_nat k) (s0 + Z.of_nat k) = Ret (put m0 d0 (take (k + Z.to_nat W) l)).
Proof.
  intros Hk Ha1 Ha2. pose proof (W_pos W HW). destruct (fwd_step k (Z.to_nat W) ltac:(lia)) as (Hh & Hm & Hp). rewrite Z2Nat.id in Hm by lia.
  rewrite (copy_word_put W big HW _ _ _ (take (Z.to_nat W) (drop k l))); [by rewrite Hp|done|done|rewrite length_take, length_drop; lia|by apply Forall_take, Forall_drop|done|done].
Qed.
Abbreviation aligned a := (a mod W = 0).
Lemma fwd_align_spec n : ∀ k, (- (d0 + Z.of_nat k)) mod W < Z.of_nat n → (- (d0 + Z.of_nat k)) mod W ≤ zlen l - Z.of_nat k →
  d0 mod W = s0 mod W →
  yields (fwd_align W n (put m0 d0 (take k l)) (d0 + Z.of_nat k) (s0 + Z.of_nat k) (zlen l - Z.of_nat k)) (λ c, ∃ k', fwd_at k' c ∧ aligned (d0 + Z.of_nat k') ∧ aligned (s0 + Z.of_nat k')).
Proof.
  pose proof (W_pos W HW) as HWp. induction n as [|n IH]; intros k Hn Hr Hco; [pose proof (Z.mod_pos_bound (- (d0 + Z.of_nat k)) W); lia|]. cbn [fwd_align]. rewrite land_mask by done.
  destruct ((d0 + Z.of_nat k) mod W =? 0) eqn:E; cbn [negb]; cbv iota; b2p.
  - apply yields_ret. exists k. split; [split; [pose proof (Z.mod_pos_bound (- (d0 + Z.of_nat k)) W); lia|done]|]. split; [done|]. rewrite <- E. symmetry. by apply same_mod.
  - destruct (to_align W HW _ E) as [Hn1 Hn2]. rewrite fwd_byte by lia. cbn [mbind outcome_bind]. rewrite usz_small by lia.
    replace (zlen l - Z.of_nat k - 1) with (zlen l - Z.of_nat (S k)) by lia. rewrite <- !Z.add_assoc. replace (Z.of_nat k + 1) with (Z.of_nat (S k)) by lia. apply IH; [| |done]; replace (d0 + Z.of_nat (S k)) with (d0 + Z.of_nat k + 1) by lia; lia.
Qed.
Lemma fwd_quads_spec n : ∀ k, (k ≤ length l)%nat → zlen l - Z.of_nat k < Z.of_nat n → aligned (d0 + Z.of_nat k) → aligned (s0 + Z.of_nat k) →
  yields (fwd_quads W big n (put m0 d0 (take k l)) (d0 + Z.of_nat k) (s0 + Z.of_nat k) (zlen l - Z.of_nat k)) (λ c, ∃ k', fwd_at k' c ∧ aligned (d0 + Z.of_nat k') ∧ aligned (s0 + Z.of_nat k')).
Proof.
  pose proof (W_pos W HW) as HWp. induction n as [|n IH]; intros k Hk Hn Ha1 Ha2; [lia|]. cbn [fwd_quads]. unfold WSIZE. case_test; b2p; [|apply yields_ret; exists k; by repeat split].
  assert (Hstep : ∀ i : nat, Z.of_nat i + 1 ≤ 4 → copy_word W big (put m0 d0 (take (k + i * Z.to_nat W) l)) (d0 + Z.of_nat k + Z.of_nat i * W) (s0 + Z.of_nat k + Z.of_nat i * W) = Ret (put m0 d0 (take (k + S i * Z.to_nat W) l))).
  { intros i Hi. pose proof (fwd_word (k + i * Z.to_nat W)) as Hw. rewrite Nat2Z.inj_add, Nat2Z.inj_mul, Z2Nat.id, !Z.add_assoc in Hw by lia.
    rewrite Hw; [do 3 f_equal; lia|nia|by rewrite Z.mod_add by lia|by rewrite Z.mod_add by lia]. }
  pose proof (Hstep 0%nat ltac:(lia)) as H0. pose proof (Hstep 1%nat ltac:(lia)) as H1. pose proof (Hstep 2%nat ltac:(lia)) as H2. pose proof (Hstep 3%nat ltac:(lia)) as H3.
  change (Z.of_nat 0 * W) with 0 in H0. rewrite Nat.mul_0_l, Nat.add_0_r, !Z.add_0_r in H0. rewrite H0. cbn [mbind outcome_bind]. change (Z.of_nat 1 * W) with (1 * W) in H1. rewrite Z.mul_1_l in H1. rewrite H1. cbn [mbind outcome_bind].
  change (Z.of_nat 2 * W) with (2 * W) in H2. change (Z.of_nat 3 * W) with (3 * W) in H3. rewrite H2. cbn [mbind outcome_bind]. rewrite H3. cbn [mbind outcome_bind]. rewrite usz_small by lia. specialize (IH (k + 4 * Z.to_nat W)%nat). rewrite Nat2Z.inj_add, Nat2Z.inj_mul, Z2Nat.id, !Z.add_assoc in IH by lia.
  change (Z.of_nat 4) with 4 in IH. replace (zlen l - Z.of_nat k - 4 * W) with (zlen l - (Z.of_nat k + 4 * W)) by lia. apply IH; [lia|lia|by rewrite Z.mod_add by lia|by rewrite Z.mod_add by lia].
Qed.
Lemma fwd_words_spec n : ∀ k, (k ≤ length l)%nat → zlen l - Z.of_nat k < Z.of_nat n → aligned (d0 + Z.of_nat k) → aligned (s0 + Z.of_nat k) →
  yields (fwd_words W big n (put m0 d0 (take k l)) (d0 + Z.of_nat k) (s0 + Z.of_nat k) (zlen l - Z.of_nat k)) (λ c, ∃ k', fwd_at k' c).
Proof.
  pose proof (W_pos W HW) as HWp. induction n as [|n IH]; intros k Hk Hn Ha1 Ha2; [lia|]. cbn [fwd_words]. unfold WSIZE. case_test; b2p; [|apply yields_ret; exists k; by repeat split].
  rewrite fwd_word by (done || lia). cbn [mbind outcome_bind]. rewrite usz_small by lia. specialize (IH (k + Z.to_nat W)%nat). rewrite Nat2Z.inj_add, Z2Nat.id, !Z.add_assoc in IH by lia.
  replace (zlen l - Z.of_nat k - W) with (zlen l - (Z.of_nat k + W)) by lia. apply IH; [lia|lia|by rewrite mod_next|by rewrite mod_next].
Qed.
Lemma fwd_bytes_spec n : ∀ k, (k ≤ length l)%nat → zlen l - Z.of_nat k < Z.of_nat n →
  fwd_bytes W n (put m0 d0 (take k l)) (d0 + Z.of_nat k) (s0 + Z.of_nat k) (zlen l - Z.of_nat k) = Ret (put m0 d0 l).
Proof.
  induction n as [|n IH]; intros k Hk Hn; [lia|]. cbn [fwd_bytes]. destruct (_ =? 0) eqn:E; cbn [negb]; cbv iota; b2p.
  - by rewrite take_ge by lia.
  - rewrite fwd_byte by lia. cbn [mbind outcome_bind]. rewrite usz_small by lia. replace (zlen l - Z.of_nat k - 1) with (zlen l - Z.of_nat (S k)) by lia. rewrite <- !Z.add_assoc. replace (Z.of_nat k + 1) with (Z.of_nat (S k)) by lia. apply IH; lia.
Qed.
Lemma copy_fwd_put : copy_fwd W big m0 d0 s0 (zlen l) = Ret (put m0 d0 l).
Proof.
  pose proof (W_pos W HW) as HWp. unfold copy_fwd. set (fuel := S (Z.to_nat (zlen l))).
  assert (H : yields (if (WSIZE W <=? zlen l) && co_aligned W d0 s0 then
      '(m, d, s, n) ← fwd_align W fuel m0 d0 s0 (zlen l); '(m, d, s, n) ← fwd_quads W big fuel m d s n; fwd_words W big fuel m d s n
    else Ret (m0, d0, s0, zlen l)) (λ c, ∃ k, fwd_at k c)).
  { destruct (_ && _) eqn:E.
    - apply andb_true_iff in E as [Hw Hc]. apply co_aligned_spec in Hc; [|done]. unfold WSIZE in Hw. b2p. pose proof (Z.mod_pos_bound (- d0) W HWp).
      pose proof (fwd_align_spec fuel 0 ltac:(rewrite Z.add_0_r; unfold fuel; lia) ltac:(rewrite Z.add_0_r; lia) Hc) as Ha. rewrite !Z.add_0_r, Z.sub_0_r in Ha. eapply yields_bind; [exact Ha|].
      intros c (k & (Hk & ->) & Ha1 & Ha2). eapply yields_bind; [apply fwd_quads_spec; [done|unfold fuel; lia|done|done]|]. intros c (k' & (Hk' & ->) & Ha1' & Ha2'). apply fwd_words_spec; [done|unfold fuel; lia|done|done].
    - apply yields_ret. exists 0%nat. split; [lia|]. by rewrite !Z.add_0_r, Z.sub_0_r. }
  destruct H as (c & -> & k & Hk & ->). cbn [mbind outcome_bind]. apply fwd_bytes_spec; [done|unfold fuel; lia].
Qed.
End copies.

Section back.
Context (W : Z) (big : bool) (HW : W = 4 ∨ W = 8) (m0 : ram) (d0 s0 : Z) (l : list Z).
Context (Hb : Forall is_byte l) (Hs : holds m0 s0 l) (Hd : mapped m0 d0 (zlen l)) (Hlen : zlen l < 2 ^ (8 * W)).

(** [k] bytes are to be copied yet, from the front. *)
Definition bwd_at (k : nat) (c : ram * Z * Z * Z) : Prop :=
  (k ≤ length l)%nat ∧ c = (put m0 (d0 + Z.of_nat k) (drop k l), d0 + Z.of_nat k, s0 + Z.of_nat k, Z.of_nat k).
Context (Hbwd : s0 ≤ d0 ∨ d0 + zlen l ≤ s0).
Lemma bwd_step k j : (k + j ≤ length l)%nat →
  holds (put m0 (d0 + Z.of_nat (k + j)) (drop (k + j) l)) (s0 + Z.of_nat k) (take j (drop k l)) ∧
  mapped (put m0 (d0 + Z.of_nat (k + j)) (drop (k + j) l)) (d0 + Z.of_nat k) (Z.of_nat j) ∧
  put (put m0 (d0 + Z.of_nat (k + j)) (drop (k + j) l)) (d0 + Z.of_nat k) (take j (drop k l)) = put m0 (d0 + Z.of_nat k) (drop k l).
Proof.
  intros Hk. assert (Hl : length (take j (drop k l)) = j) by (rewrite length_take, length_drop; lia). split_and!.
  - apply holds_put; [by apply holds_piece|]. rewrite Hl, length_drop. lia.
  - apply mapped_put. eapply mapped_sub; [exact Hd|lia|lia].
  - rewrite <- (take_drop j (drop k l)) at 2. rewrite put_app_back, Hl, drop_drop. do 2 f_equal. lia.
Qed.
Lemma bwd_byte k : (k < length l)%nat →
  copy_byte (put m0 (d0 + Z.of_nat (S k)) (drop (S k) l)) (d0 + Z.of_nat (S k) - 1) (s0 + Z.of_nat (S k) - 1) = Ret (put m0 (d0 + Z.of_nat k) (drop k l)).
Proof.
  intros Hk. destruct (bwd_step k 1 ltac:(lia)) as (Hh & Hm & Hp). rewrite Nat.add_1_r in Hh, Hm, Hp. destruct (lookup_lt_is_Some_2 l k Hk) as [b Hbk].
  rewrite (drop_S _ _ _ Hbk) in Hh, Hp. change (take 1 (b :: drop (S k) l)) with [b] in Hh, Hp.
  replace (d0 + Z.of_nat (S k) - 1) with (d0 + Z.of_nat k) by lia. replace (s0 + Z.of_nat (S k) - 1) with (s0 + Z.of_nat k) by lia. rewrite (copy_byte_put _ _ _ b) by done. rewrite Hp. by rewrite (drop_S _ _ _ Hbk).
Qed.
Lemma bwd_word k : Z.of_nat k + W ≤ zlen l → (d0 + Z.of_nat k) mod W = 0 → (s0 + Z.of_nat k) mod W = 0 →
  copy_word W big (put m0 (d0 + Z.of_nat (k + Z.to_nat W)) (drop (k + Z.to_nat W) l)) (d0 + Z.of_nat k) (s0 + Z.of_nat k) = Ret (put m0 (d0 + Z.of_nat k) (drop k l)).
Proof.
  intros Hk Ha1 Ha2. pose proof (W_pos W HW). destruct (bwd_step k (Z.to_nat W) ltac:(lia)) as (Hh & Hm & Hp). rewrite (Z2Nat.id W) in Hm by lia.
  rewrite (copy_word_put W big HW _ _ _ (take (Z.to_nat W) (drop k l))); [by rewrite Hp|done|done|rewrite length_take, length_drop; lia|by apply Forall_take, Forall_drop|done|done].
Qed.
Abbreviation aligned a := (a mod W = 0).
Abbreviation bmem k := (put m0 (d0 + Z.of_nat k) (drop k l)).
Lemma bwd_align_spec n : ∀ k, (k ≤ length l)%nat → (d0 + Z.of_nat k) mod W < Z.of_nat n → (d0 + Z.of_nat k) mod W ≤ Z.of_nat k →
  (d0 + Z.of_nat k) mod W = (s0 + Z.of_nat k) mod W →
  yields (bwd_align W n (bmem k) (d0 + Z.of_nat k) (s0 + Z.of_nat k) (Z.of_nat k)) (λ c, ∃ k', bwd_at k' c ∧ aligned (d0 + Z.of_nat k') ∧ aligned (s0 + Z.of_nat k')).
Proof.
  pose proof (W_pos W HW) as HWp. induction n as [|n IH]; intros k Hk Hn Hr Hco; [pose proof (Z.mod_pos_bound (d0 + Z.of_nat k) W); lia|]. cbn [bwd_align]. rewrite land_mask by done.
  destruct ((d0 + Z.of_nat k) mod W =? 0) eqn:E; cbn [negb]; cbv iota; b2p.
  - apply yields_ret. exists k. split; [by split|]. split; [done|]. by rewrite <- Hco.
  - destruct (to_align_down W HW _ E) as [Hn1 Hn2]. destruct k as [|k]; [lia|]. rewrite bwd_byte by lia. cbn [mbind outcome_bind]. rewrite usz_small by lia.
    replace (d0 + Z.of_nat (S k) - 1) with (d0 + Z.of_nat k) in * by lia. replace (s0 + Z.of_nat (S k) - 1) with (s0 + Z.of_nat k) by lia. replace (Z.of_nat (S k) - 1) with (Z.of_nat k) by lia.
    apply IH; [lia|lia|lia|]. replace (d0 + Z.of_nat k) with (d0 + Z.of_nat (S k) + - 1) by lia. replace (s0 + Z.of_nat k) with (s0 + Z.of_nat (S k) + - 1) by lia. by apply same_mod.
Qed.
Lemma bwd_words_spec n : ∀ k, (k ≤ length l)%nat → Z.of_nat k < Z.of_nat n → aligned (d0 + Z.of_nat k) → aligned (s0 + Z.of_nat k) →
  yields (bwd_words W big n (bmem k) (d0 + Z.of_nat k) (s0 + Z.of_nat k) (Z.of_nat k)) (λ c, ∃ k', bwd_at k' c).
Proof.
  pose proof (W_pos W HW) as HWp. induction n as [|n IH]; intros k Hk Hn Ha1 Ha2; [lia|]. cbn [bwd_words]. unfold WSIZE. case_test; b2p; [|apply yields_ret; exists k; by repeat split].
  set (j := (k - Z.to_nat W)%nat). assert (Hj : k = (j + Z.to_nat W)%nat) by lia. assert (Hzj : Z.of_nat k = Z.of_nat j + W) by lia. clearbody j. subst k.
  replace (d0 + Z.of_nat (j + Z.to_nat W) - W) with (d0 + Z.of_nat j) by lia. replace (s0 + Z.of_nat (j + Z.to_nat W) - W) with (s0 + Z.of_nat j) by lia.
  rewrite Hzj, Z.add_assoc, mod_next in Ha1, Ha2 by done. rewrite bwd_word by (done || lia). cbn [mbind outcome_bind]. rewrite usz_small by lia. replace (Z.of_nat (j + Z.to_nat W) - W) with (Z.of_nat j) by lia. apply IH; [lia|lia|done|done].
Qed.
Lemma bwd_bytes_spec n : ∀ k, (k ≤ length l)%nat → Z.of_nat k < Z.of_nat n → bwd_bytes W n (bmem k) (d0 + Z.of_nat k) (s0 + Z.of_nat k) (Z.of_nat k) = Ret (put m0 d0 l).
Proof.
  induction n as [|n IH]; intros k Hk Hn; [lia|]. cbn [bwd_bytes]. destruct k as [|k].
  - cbn. by rewrite Z.add_0_r, drop_0.
  - rewrite (proj2 (Z.eqb_neq _ _)) by lia. cbn [negb]. cbv iota. rewrite bwd_byte by lia. cbn [mbind outcome_bind]. rewrite usz_small by lia.
    replace (d0 + Z.of_nat (S k) - 1) with (d0 + Z.of_nat k) by lia. replace (s0 + Z.of_nat (S k) - 1) with (s0 + Z.of_nat k) by lia. replace (Z.of_nat (S k) - 1) with (Z.of_nat k) by lia. apply IH; lia.
Qed.
Lemma copy_bwd_put : copy_bwd W big m0 (d0 + zlen l) (s0 + zlen l) (zlen l) = Ret (put m0 d0 l).
Proof.
  pose proof (W_pos W HW) as HWp. unfold copy_bwd. set (fuel := S (Z.to_nat (zlen l))).
  assert (H0 : bwd_at (length l) (m0, d0 + zlen l, s0 + zlen l, zlen l)) by (split; [lia|by rewrite drop_ge by lia]).
  assert (H : yields (if (WSIZE W <=? zlen l) && co_aligned W (d0 + zlen l) (s0 + zlen l) then
      '(m, d, s, n) ← bwd_align W fuel m0 (d0 + zlen l) (s0 + zlen l) (zlen l); bwd_words W big fuel m d s n
    else Ret (m0, d0 + zlen l, s0 + zlen l, zlen l)) (λ c, ∃ k, bwd_at k c)).
  { destruct (_ && _) eqn:E; [|apply yields_ret; by exists (length l)]. apply andb_true_iff in E as [Hw Hc]. apply co_aligned_spec in Hc; [|done]. unfold WSIZE in Hw. b2p.
    pose proof (Z.mod_pos_bound (d0 + zlen l) W HWp). pose proof (bwd_align_spec fuel (length l) ltac:(lia) ltac:(unfold fuel; lia) ltac:(lia) Hc) as Ha. rewrite drop_ge in Ha by lia. cbn [put] in Ha.
    eapply yields_bind; [exact Ha|]. intros c (k & (Hk & ->) & Ha1 & Ha2). apply bwd_words_spec; [done|unfold fuel; lia|done|done]. }
  destruct H as (c & -> & k & Hk & ->). cbn [mbind outcome_bind]. apply bwd_bytes_spec; [done|unfold fuel; lia].
Qed.
End back.

Section moves.
Context (W : Z) (big : bool) (HW : W = 4 ∨ W = 8) (CopyMem : ram → Z → Z → Z → outcome ram).
(** What the documentation of exec promises: a copy, when source and destination do not
    overlap. *)
Definition copies_apart : Prop := ∀ m s d l, holds m s l → mapped m d (zlen l) → d + zlen l ≤ s ∨ s + zlen l ≤ d → CopyMem m s d (zlen l) = Ret (put m d l).
Context (Hcopy : copies_apart).

Lemma memcpy_put m d s l : Forall is_byte l → holds m s l → mapped m d (zlen l) → zlen l < 2 ^ (8 * W) → d = s ∨ d + zlen l ≤ s ∨ s + zlen l ≤ d →
  memcpy W big CopyMem m d s (zlen l) = Ret (put m d l).
Proof.
  intros Hb Hs Hd Hl Ho. unfold memcpy. destruct (d =? s) eqn:E; b2p; [subst; by rewrite put_holds|]. case_test; [apply Hcopy; [done|done|lia]|]. apply copy_fwd_put; try done. lia.
Qed.
Lemma memmove_put m d s l : Forall is_byte l → holds m s l → mapped m d (zlen l) → 0 ≤ d → d + zlen l ≤ 2 ^ (8 * W) → 0 ≤ s → s + zlen l ≤ 2 ^ (8 * W) → zlen l < 2 ^ (8 * W) →
  memmove W big CopyMem m d s (zlen l) = Ret (put m d l).
Proof.
  intros Hb Hs Hd ? ? ? ? Hl. unfold memmove. cbv zeta. destruct (d =? s) eqn:E; b2p; [subst; by rewrite put_holds|]. destruct (decide (l = [])) as [->|Hne].
  { pose proof (copy_fwd_put W big HW m d s [] Hb Hs Hd Hl ltac:(simpl; lia)) as Hf. pose proof (memcpy_put m d s [] Hb Hs Hd Hl ltac:(simpl; lia)) as Hm.
    rewrite (proj2 (Z.leb_le _ (usz W (d - s)))) by (unfold usz; simpl; apply Z.mod_pos_bound; lia). by case_test. }
  assert (Hn : 0 < zlen l) by (destruct l; [done|simpl; lia]). set (X := 2 ^ (8 * W)) in *.
  assert (Hu : ∀ x, 0 ≤ x < X → usz W x = x) by (intros; by apply usz_small).
  assert (Hv : ∀ x, - X ≤ x < 0 → usz W x = X + x).
  { intros x Hx. unfold usz. fold X. rewrite <- (Z_mod_plus_full x 1), Z.mod_small by lia. lia. }
  destruct (decide (s < d)).
  - rewrite (Hu (d - s)), (Hv (s - d)) by lia. case_test; b2p; [|apply copy_bwd_put; try done; lia]. rewrite (proj2 (Z.leb_le _ _)) by lia. apply memcpy_put; try done. lia.
  - rewrite (Hv (d - s)), (Hu (s - d)) by lia. rewrite (proj2 (Z.leb_le _ _)) by lia. case_test; b2p; [apply memcpy_put; try done; lia|apply copy_fwd_put; try done; lia].
Qed.
End moves.

(** ** Fills *)

Lemma put_replicate m d i j b : put (put m d (replicate i b)) (d + Z.of_nat i) (replicate j b) = put m d (replicate (i + j) b).
Proof. rewrite replicate_add, put_app, length_replicate. done. Qed.

Section fill.
Context (W : Z) (big : bool) (HW : W = 4 ∨ W = 8) (m0 : ram) (d0 b n0 : Z).
Context (Hb : is_byte b) (Hn0 : 0 ≤ n0 < 2 ^ (8 * W)) (Hd : mapped m0 d0 n0).
Abbreviation fmem k := (put m0 d0 (replicate k b)).
Definition set_at (k : nat) (c : ram * Z * Z) : Prop := Z.of_nat k ≤ n0 ∧ c = (fmem k, d0 + Z.of_nat k, n0 - Z.of_nat k).

(** A word of equal bytes. *)
Lemma ones_val : usz W (ONES W * b) = le_val (in_order big (replicate (Z.to_nat W) b)).
Proof.
  assert (Hi : in_order big (replicate (Z.to_nat W) b) = replicate (Z.to_nat W) b) by (unfold in_order; destruct big; [apply rev_replicate|done]). rewrite Hi.
  assert (Ho : ONES W * b = le_val (replicate (Z.to_nat W) b)).
  { clear - HW. destruct HW as [-> | ->]; [change (ONES 4) with 16843009; change (Z.to_nat 4) with 4%nat|change (ONES 8) with 72340172838076673; change (Z.to_nat 8) with 8%nat]; cbn [replicate le_val]; lia. }
  rewrite Ho. apply usz_small. pose proof (W_pos W HW). pose proof (le_val_range (replicate (Z.to_nat W) b) (Forall_replicate _ _ _ Hb)) as Hr. rewrite length_replicate, Z2Nat.id in Hr by lia. exact Hr.
Qed.
Lemma set_byte k : Z.of_nat k < n0 → st (fmem k) (d0 + Z.of_nat k) b = Ret (fmem (S k)).
Proof.
  intros Hk. unfold st. destruct (mapped_put m0 d0 (replicate k b) d0 n0 Hd (Z.of_nat k) ltac:(lia)) as [x Hx]. rewrite Hx. f_equal.
  change (<[?a := b]> ?m) with (put m a (replicate 1 b)). rewrite put_replicate. by rewrite Nat.add_1_r.
Qed.
Lemma set_word k : Z.of_nat k + W ≤ n0 → (d0 + Z.of_nat k) mod W = 0 →
  st_word W big (fmem k) (d0 + Z.of_nat k) (usz W (ONES W * b)) = Ret (fmem (k + Z.to_nat W)).
Proof.
  intros Hk Ha. pose proof (W_pos W HW). rewrite ones_val. rewrite st_word_put; [|done|done|by rewrite length_replicate, Z2Nat.id by lia|by apply Forall_replicate|].
  - f_equal. apply put_replicate.
  - apply mapped_put. eapply mapped_sub; [exact Hd|lia|lia].
Qed.
Abbreviation aligned a := (a mod W = 0).
Lemma set_align_spec n : ∀ k, (- (d0 + Z.of_nat k)) mod W < Z.of_nat n → (- (d0 + Z.of_nat k)) mod W ≤ n0 - Z.of_nat k →
  yields (set_align W n (fmem k) (d0 + Z.of_nat k) b (n0 - Z.of_nat k)) (λ c, ∃ k', set_at k' c ∧ aligned (d0 + Z.of_nat k')).
Proof.
  pose proof (W_pos W HW) as HWp. induction n as [|n IH]; intros k Hn Hr; [pose proof (Z.mod_pos_bound (- (d0 + Z.of_nat k)) W); lia|]. cbn [set_align]. rewrite land_mask by done.
  destruct ((d0 + Z.of_nat k) mod W =? 0) eqn:E; cbn [negb]; cbv iota; b2p.
  - apply yields_ret. exists k. split; [|done]. split; [pose proof (Z.mod_pos_bound (- (d0 + Z.of_nat k)) W); lia|done].
  - destruct (to_align W HW _ E) as [Hn1 Hn2]. rewrite set_byte by lia. cbn [mbind outcome_bind]. rewrite usz_small by lia.
    replace (n0 - Z.of_nat k - 1) with (n0 - Z.of_nat (S k)) by lia. rewrite <- !Z.add_assoc. replace (Z.of_nat k + 1) with (Z.of_nat (S k)) by lia. apply IH; replace (d0 + Z.of_nat (S k)) with (d0 + Z.of_nat k + 1) by lia; lia.
Qed.
Lemma set_quads_spec n : ∀ k, Z.of_nat k ≤ n0 → n0 - Z.of_nat k < Z.of_nat n → aligned (d0 + Z.of_nat k) →
  yields (set_quads W big n (fmem k) (d0 + Z.of_nat k) (usz W (ONES W * b)) (n0 - Z.of_nat k)) (λ c, ∃ k', set_at k' c ∧ aligned (d0 + Z.of_nat k')).
Proof.
  pose proof (W_pos W HW) as HWp. induction n as [|n IH]; intros k Hk Hn Ha; [lia|]. cbn [set_quads]. unfold WSIZE. case_test; b2p; [|apply yields_ret; exists k; by repeat split].
  assert (Hstep : ∀ i : nat, Z.of_nat i + 1 ≤ 4 → st_word W big (fmem (k + i * Z.to_nat W)) (d0 + Z.of_nat k + Z.of_nat i * W) (usz W (ONES W * b)) = Ret (fmem (k + S i * Z.to_nat W))).
  { intros i Hi. pose proof (set_word (k + i * Z.to_nat W)) as Hw. rewrite Nat2Z.inj_add, Nat2Z.inj_mul, Z2Nat.id, !Z.add_assoc in Hw by lia. rewrite Hw; [do 3 f_equal; lia|nia|by rewrite Z.mod_add by lia]. }
  pose proof (Hstep 0%nat ltac:(lia)) as H0. pose proof (Hstep 1%nat ltac:(lia)) as H1. pose proof (Hstep 2%nat ltac:(lia)) as H2. pose proof (Hstep 3%nat ltac:(lia)) as H3.
  change (Z.of_nat 0 * W) with 0 in H0. change (Z.of_nat 1 * W) with (1 * W) in H1. change (Z.of_nat 2 * W) with (2 * W) in H2. change (Z.of_nat 3 * W) with (3 * W) in H3. rewrite Nat.mul_0_l, Nat.add_0_r, !Z.add_0_r in H0. rewrite Z.mul_1_l in H1.
  rewrite H0. cbn [mbind outcome_bind]. rewrite H1. cbn [mbind outcome_bind]. rewrite H2. cbn [mbind outcome_bind]. rewrite H3. cbn [mbind outcome_bind]. rewrite (usz_small W (n0 - Z.of_nat k - 4 * W)) by lia.
  specialize (IH (k + 4 * Z.to_nat W)%nat). rewrite Nat2Z.inj_add, Nat2Z.inj_mul, Z2Nat.id, !Z.add_assoc in IH by lia. change (Z.of_nat 4) with 4 in IH. replace (n0 - Z.of_nat k - 4 * W) with (n0 - (Z.of_nat k + 4 * W)) by lia. apply IH; [lia|lia|by rewrite Z.mod_add by lia].
Qed.
Lemma set_words_spec n : ∀ k, Z.of_nat k ≤ n0 → n0 - Z.of_nat k < Z.of_nat n → aligned (d0 + Z.of_nat k) →
  yields (set_words W big n (fmem k) (d0 + Z.of_nat k) (usz W (ONES W * b)) (n0 - Z.of_nat k)) (λ c, ∃ k', set_at k' c).
Proof.
  pose proof (W_pos W HW) as HWp. induction n as [|n IH]; intros k Hk Hn Ha; [lia|]. cbn [set_words]. unfold WSIZE. case_test; b2p; [|apply yields_ret; exists k; by repeat split].
  rewrite set_word by (done || lia). cbn [mbind outcome_bind]. rewrite (usz_small W (n0 - Z.of_nat k - W)) by lia. specialize (IH (k + Z.to_nat W)%nat). rewrite Nat2Z.inj_add, Z2Nat.id, !Z.add_assoc in IH by lia.
  replace (n0 - Z.of_nat k - W) with (n0 - (Z.of_nat k + W)) by lia. apply IH; [lia|lia|by rewrite mod_next].
Qed.
Lemma set_bytes_spec n : ∀ k, Z.of_nat k ≤ n0 → n0 - Z.of_nat k < Z.of_nat n → set_bytes W n (fmem k) (d0 + Z.of_nat k) b (n0 - Z.of_nat k) = Ret (fmem (Z.to_nat n0)).
Proof.
  induction n as [|n IH]; intros k Hk Hn; [lia|]. cbn [set_bytes]. destruct (_ =? 0) eqn:E; cbn [negb]; cbv iota; b2p.
  - by replace (Z.to_nat n0) with k by lia.
  - rewrite set_byte by lia. cbn [mbind outcome_bind]. rewrite usz_small by lia. replace (n0 - Z.of_nat k - 1) with (n0 - Z.of_nat (S k)) by lia. rewrite <- !Z.add_assoc. replace (Z.of_nat k + 1) with (Z.of_nat (S k)) by lia. apply IH; lia.
Qed.
End fill.
Lemma memset_put W big m d c n : W = 4 ∨ W = 8 → 0 ≤ n < 2 ^ (8 * W) → mapped m d n → memset W big m d c n = Ret (put m d (replicate (Z.to_nat n) (u8 c))).
Proof.
  intros HW Hn Hd. pose proof (W_pos W HW) as HWp. unfold memset. cbv zeta. set (fuel := S (Z.to_nat n)). pose proof (u8_range c) as Hb. set (b := u8 c) in *. clearbody b.
  assert (H : yields (if 2 * WSIZE W <=? n then
      '(m, d, n) ← set_align W fuel m d b n; '(m, d, n) ← set_quads W big fuel m d (usz W (ONES W * b)) n; set_words W big fuel m d (usz W (ONES W * b)) n
    else Ret (m, d, n)) (λ c, ∃ k, set_at m d b n k c)).
  { unfold WSIZE at 1. case_test; b2p.
    - pose proof (Z.mod_pos_bound (- d) W HWp). pose proof (set_align_spec W HW m d b n Hn Hd fuel 0 ltac:(rewrite Z.add_0_r; unfold fuel; lia) ltac:(rewrite Z.add_0_r; lia)) as Ha. rewrite !Z.add_0_r, Z.sub_0_r in Ha.
      eapply yields_bind; [exact Ha|]. intros x (k & (Hk & ->) & Ha1). eapply yields_bind; [apply set_quads_spec; try done; unfold fuel; lia|]. intros x (k' & (Hk' & ->) & Ha2). apply set_words_spec; try done. unfold fuel. lia.
    - apply yields_ret. exists 0%nat. split; [lia|]. by rewrite !Z.add_0_r, Z.sub_0_r. }
  destruct H as (x & -> & k & Hk & ->). cbn [mbind outcome_bind]. apply set_bytes_spec; try done. unfold fuel. lia.
Qed.

(** ** A zero byte in a word *)

Lemma land_bytes a c p q : is_byte a → is_byte c → Z.land (a + 256 * p) (c + 256 * q) = Z.land a c + 256 * Z.land p q.
Proof.
  unfold is_byte. intros Ha Hc. set (X := a + 256 * p). set (Y := c + 256 * q).
  assert (HX : X / 2 ^ 8 = p ∧ X mod 2 ^ 8 = a) by (unfold X; change (2 ^ 8) with 256; dlia). assert (HY : Y / 2 ^ 8 = q ∧ Y mod 2 ^ 8 = c) by (unfold Y; change (2 ^ 8) with 256; dlia).
  destruct HX as [Hp Hx], HY as [Hq Hy]. rewrite (Z.div_mod (Z.land X Y) (2 ^ 8)) by lia.
  assert (Hd : Z.land X Y / 2 ^ 8 = Z.land p q) by (rewrite <- Z.shiftr_div_pow2, Z.shiftr_land, !Z.shiftr_div_pow2, Hp, Hq by lia; done).
  assert (Hm : Z.land X Y mod 2 ^ 8 = Z.land a c).
  { rewrite <- Hx, <- Hy, <- !Z.land_ones by lia. apply Z.bits_inj'. intros n Hn. rewrite !Z.land_spec. by destruct (Z.testbit X n), (Z.testbit Y n), (Z.testbit (Z.ones 8) n). }
  rewrite Hd, Hm. change (2 ^ 8) with 256. lia.
Qed.
Definition zero_test (l : list Z) : Z :=
  Z.land (Z.land (le_val l - le_val (replicate (length l) 1)) (Z.lnot (le_val l))) (le_val (replicate (length l) 128)).
Lemma le_val_nonneg l : Forall is_byte l → 0 ≤ le_val l.
Proof. intros. by apply le_val_range. Qed.
Lemma byte_test b : 1 ≤ b < 256 → Z.land (Z.land (b - 1) (255 - b)) 128 = 0.
Proof.
  intros Hb. assert (Hall : forallb (λ b, Z.land (Z.land (b - 1) (255 - b)) 128 =? 0) (seqZ 1 255) = true) by (vm_compute; reflexivity).
  rewrite forallb_forall in Hall. apply Z.eqb_eq, Hall. apply list_elem_of_In, elem_of_seqZ. lia.
Qed.
Lemma zero_test_spec l : Forall is_byte l → 0 ≤ zero_test l ∧ (zero_test l = 0 ↔ 0 ∉ l).
Proof.
  assert (Hnn : ∀ n x, 0 ≤ Z.land x (le_val (replicate n 128))) by (intros n x; apply Z.land_nonneg; right; apply le_val_nonneg, Forall_replicate; unfold is_byte; lia).
  induction 1 as [|b l Hb Hl IH]; [by split; [|set_solver]|]. split; [apply Hnn|]. unfold zero_test in *. cbn [length replicate le_val]. unfold is_byte in Hb.
  set (x := le_val l) in *. set (y := le_val (replicate (length l) 1)) in *. set (h := le_val (replicate (length l) 128)) in *.
  replace (Z.lnot (b + 256 * x)) with ((255 - b) + 256 * Z.lnot x) by (rewrite !(Z.add_lnot_diag, Z.opp_lnot) || (unfold Z.lnot; lia)).
  destruct (decide (b = 0)) as [->|Hne].
  - replace (0 + 256 * x - (1 + 256 * y)) with (255 + 256 * (x - y - 1)) by lia. rewrite land_bytes by (unfold is_byte; lia). change (Z.land 255 (255 - 0)) with 255. rewrite land_bytes by (unfold is_byte; lia). change (Z.land 255 128) with 128.
    pose proof (Hnn (length l) (Z.land (x - y - 1) (Z.lnot x))) as Hp. fold h in Hp. split; [lia|]. intros Hin. destruct Hin. set_solver.
  - replace (b + 256 * x - (1 + 256 * y)) with ((b - 1) + 256 * (x - y)) by lia. rewrite land_bytes by (unfold is_byte; lia).
    assert (Hr : is_byte (Z.land (b - 1) (255 - b))).
    { unfold is_byte. split; [apply Z.land_nonneg; lia|]. pose proof (Z.land_ones (Z.land (b - 1) (255 - b)) 8 ltac:(lia)) as Ho. rewrite <- Z.land_assoc in Ho. rewrite (Z.land_ones (255 - b)), Z.mod_small in Ho by lia. rewrite Ho. apply Z.mod_pos_bound. lia. }
    rewrite land_bytes by (done || unfold is_byte; lia). rewrite byte_test, Z.add_0_l by lia. destruct IH as [_ IH]. rewrite not_elem_of_cons. split; [intros H; split; [done|]; apply IH; lia|intros [_ H]; apply IH in H; lia].
Qed.
Lemma HAS_ZERO_spec W l : W = 4 ∨ W = 8 → zlen l = W → Forall is_byte l → HAS_ZERO W (le_val l) = true ↔ 0 ∈ l.
Proof.
  intros HW Hl Hb. unfold HAS_ZERO. rewrite negb_true_iff, Z.eqb_neq.
  assert (Ho : ONES W = le_val (replicate (length l) 1) ∧ HIGHS W = le_val (replicate (length l) 128)) by (destruct HW as [-> | ->]; [replace (length l) with 4%nat by lia|replace (length l) with 8%nat by lia]; split; reflexivity).
  destruct Ho as [-> Hh]. pose proof (le_val_range (replicate (length l) 128) ltac:(apply Forall_replicate; unfold is_byte; lia)) as Hr. rewrite length_replicate, Hl in Hr.
  assert (He : ∀ x y, Z.land (Z.land (usz W x) (usz W y)) (HIGHS W) = Z.land (Z.land x y) (HIGHS W)).
  { intros x y. rewrite Hh. set (h := le_val (replicate (length l) 128)) in *. assert (Hk : h = Z.land h (Z.ones (8 * W))) by (rewrite Z.land_ones, Z.mod_small by lia; done).
    rewrite Hk. unfold usz. rewrite <- !Z.land_ones by lia. apply Z.bits_inj'. intros n Hn. rewrite !Z.land_spec. by destruct (Z.testbit x n), (Z.testbit y n), (Z.testbit h n), (Z.testbit (Z.ones (8 * W)) n). }
  rewrite He, Hh. pose proof (zero_test_spec l Hb) as [_ Ht]. fold (zero_test l). rewrite Ht. split; [by apply dec_stable|intros H Hn; contradiction].
Qed.

(** ** Comparisons and searches *)

(** The difference of the first bytes that differ. *)
Fixpoint first_difference (l1 l2 : list Z) : Z :=
  match l1, l2 with a :: l1, b :: l2 => if a =? b then first_difference l1 l2 else a - b | _, _ => 0 end.
Lemma first_difference_same l l1 l2 : first_difference (l ++ l1) (l ++ l2) = first_difference l1 l2.
Proof. induction l as [|b l IH]; [done|]. simpl. by rewrite Z.eqb_refl. Qed.

Section compare.
Context (W : Z) (big : bool) (HW : W = 4 ∨ W = 8) (m : ram) (pa pb : Z) (l1 l2 : list Z).
Context (H1 : holds m pa l1) (H2 : holds m pb l2) (Hl : length l1 = length l2) (Hb1 : Forall is_byte l1) (Hb2 : Forall is_byte l2) (Hlen : zlen l1 < 2 ^ (8 * W)).
Definition cmp_at (k : nat) (c : Z * Z * Z) : Prop :=
  (k ≤ length l1)%nat ∧ c = (pa + Z.of_nat k, pb + Z.of_nat k, zlen l1 - Z.of_nat k) ∧ take k l1 = take k l2.
Lemma cmp_byte k : (k < length l1)%nat → take k l1 = take k l2 → ∃ a b, ld m (pa + Z.of_nat k) = Ret a ∧ ld m (pb + Z.of_nat k) = Ret b ∧
  (a = b → take (S k) l1 = take (S k) l2) ∧ (a ≠ b → first_difference l1 l2 = a - b).
Proof.
  intros Hk Ht. destruct (lookup_lt_is_Some_2 l1 k Hk) as [a Ha], (lookup_lt_is_Some_2 l2 k ltac:(lia)) as [b Hb]. exists a, b. unfold ld. rewrite (H1 k a Ha), (H2 k b Hb). split_and!; try done.
  - intros <-. by rewrite (take_S_r _ _ _ Ha), (take_S_r _ _ _ Hb), Ht.
  - intros Hne. rewrite <- (take_drop_middle l1 k a Ha), <- (take_drop_middle l2 k b Hb), Ht, first_difference_same. simpl. by rewrite (proj2 (Z.eqb_neq _ _)).
Qed.
Lemma cmp_word k : Z.of_nat k + W ≤ zlen l1 → (pa + Z.of_nat k) mod W = 0 → (pb + Z.of_nat k) mod W = 0 → take k l1 = take k l2 →
  ∃ a b, ld_word W big m (pa + Z.of_nat k) = Ret a ∧ ld_word W big m (pb + Z.of_nat k) = Ret b ∧ (a = b → take (k + Z.to_nat W) l1 = take (k + Z.to_nat W) l2).
Proof.
  intros Hk Ha Hb Ht. pose proof (W_pos W HW). set (w1 := take (Z.to_nat W) (drop k l1)). set (w2 := take (Z.to_nat W) (drop k l2)).
  assert (Hl1 : length w1 = Z.to_nat W) by (unfold w1; rewrite length_take, length_drop; lia). assert (Hl2 : length w2 = Z.to_nat W) by (unfold w2; rewrite length_take, length_drop; lia).
  exists (le_val (in_order big w1)), (le_val (in_order big w2)). split_and!; [apply ld_word_holds; [done|lia|by apply holds_piece]|apply ld_word_holds; [done|lia|by apply holds_piece]|].
  intros He. apply le_val_inj in He; [|by apply in_order_bytes, Forall_take, Forall_drop|by apply in_order_bytes, Forall_take, Forall_drop|by rewrite !in_order_length, Hl1, Hl2].
  apply (f_equal (in_order big)) in He. rewrite !in_order_twice in He. rewrite <- !take_take_drop. fold w1 w2. by rewrite Ht, He.
Qed.
Abbreviation aligned a := (a mod W = 0).
Lemma cmp_align_spec n : ∀ k, (- (pa + Z.of_nat k)) mod W < Z.of_nat n → (- (pa + Z.of_nat k)) mod W ≤ zlen l1 - Z.of_nat k → take k l1 = take k l2 → pa mod W = pb mod W →
  yields (cmp_align W n m (pa + Z.of_nat k) (pb + Z.of_nat k) (zlen l1 - Z.of_nat k))
    (λ r, match r with inl v => v = first_difference l1 l2 | inr c => ∃ k', cmp_at k' c ∧ aligned (pa + Z.of_nat k') ∧ aligned (pb + Z.of_nat k') end).
Proof.
  pose proof (W_pos W HW) as HWp. induction n as [|n IH]; intros k Hn Hr Ht Hco; [pose proof (Z.mod_pos_bound (- (pa + Z.of_nat k)) W); lia|]. cbn [cmp_align]. rewrite land_mask by done.
  destruct ((pa + Z.of_nat k) mod W =? 0) eqn:E; cbn [negb]; cbv iota; b2p.
  - apply yields_ret. exists k. split; [split; [pose proof (Z.mod_pos_bound (- (pa + Z.of_nat k)) W); lia|done]|]. split; [done|]. rewrite <- E. symmetry. by apply same_mod.
  - destruct (to_align W HW _ E) as [Hn1 Hn2]. destruct (cmp_byte k ltac:(lia) Ht) as (a & b & -> & -> & He & Hd). cbn [mbind outcome_bind]. destruct (a =? b) eqn:Eab; cbn [negb]; cbv iota; b2p; [|apply yields_ret; symmetry; by apply Hd].
    rewrite usz_small by lia. replace (zlen l1 - Z.of_nat k - 1) with (zlen l1 - Z.of_nat (S k)) by lia. rewrite <- !Z.add_assoc. replace (Z.of_nat k + 1) with (Z.of_nat (S k)) by lia.
    apply IH; [| |by apply He|done]; replace (pa + Z.of_nat (S k)) with (pa + Z.of_nat k + 1) by lia; lia.
Qed.
Lemma cmp_words_spec n : ∀ k, (k ≤ length l1)%nat → zlen l1 - Z.of_nat k < Z.of_nat n → aligned (pa + Z.of_nat k) → aligned (pb + Z.of_nat k) → take k l1 = take k l2 →
  yields (cmp_words W big n m (pa + Z.of_nat k) (pb + Z.of_nat k) (zlen l1 - Z.of_nat k)) (λ c, ∃ k', cmp_at k' c).
Proof.
  pose proof (W_pos W HW) as HWp. induction n as [|n IH]; intros k Hk Hn Ha Hb Ht; [lia|]. cbn [cmp_words]. unfold WSIZE. assert (Hhere : cmp_at k (pa + Z.of_nat k, pb + Z.of_nat k, zlen l1 - Z.of_nat k)) by by repeat split.
  case_test; b2p; [|apply yields_ret; by exists k]. destruct (cmp_word k ltac:(lia) Ha Hb Ht) as (a & b & -> & -> & He). cbn [mbind outcome_bind]. case_test; b2p; [|apply yields_ret; by exists k].
  rewrite usz_small by lia. specialize (IH (k + Z.to_nat W)%nat). rewrite Nat2Z.inj_add, Z2Nat.id, !Z.add_assoc in IH by lia. replace (zlen l1 - Z.of_nat k - W) with (zlen l1 - (Z.of_nat k + W)) by lia.
  apply IH; [lia|lia|by rewrite mod_next|by rewrite mod_next|by apply He].
Qed.
Lemma cmp_bytes_spec n : ∀ k, (k ≤ length l1)%nat → zlen l1 - Z.of_nat k < Z.of_nat n → take k l1 = take k l2 →
  cmp_bytes W n m (pa + Z.of_nat k) (pb + Z.of_nat k) (zlen l1 - Z.of_nat k) = Ret (first_difference l1 l2).
Proof.
  induction n as [|n IH]; intros k Hk Hn Ht; [lia|]. cbn [cmp_bytes]. destruct (_ =? 0) eqn:E; cbn [negb]; cbv iota; b2p.
  - rewrite !take_ge in Ht by lia. rewrite Ht. by rewrite <- (app_nil_r l2), first_difference_same.
  - destruct (cmp_byte k ltac:(lia) Ht) as (a & b & -> & -> & He & Hd). cbn [mbind outcome_bind]. destruct (a =? b) eqn:Eab; cbn [negb]; cbv iota; b2p; [|by rewrite Hd].
    rewrite usz_small by lia. replace (zlen l1 - Z.of_nat k - 1) with (zlen l1 - Z.of_nat (S k)) by lia. rewrite <- !Z.add_assoc. replace (Z.of_nat k + 1) with (Z.of_nat (S k)) by lia. apply IH; [lia|lia|by apply He].
Qed.
Lemma memcmp_first_difference : memcmp W big m pa pb (zlen l1) = Ret (first_difference l1 l2).
Proof.
  pose proof (W_pos W HW) as HWp. unfold memcmp. cbv zeta. set (fuel := S (Z.to_nat (zlen l1))).
  assert (Hstart : cmp_at 0 (pa, pb, zlen l1)) by (split; [lia|split; [by rewrite !Z.add_0_r, Z.sub_0_r|done]]).
  assert (Hend : ∀ c, (∃ k, cmp_at k c) → (let '(pa, pb, n) := c in cmp_bytes W fuel m pa pb n) = Ret (first_difference l1 l2)).
  { intros c (k & Hk & -> & Ht). apply cmp_bytes_spec; [done|unfold fuel; lia|done]. }
  destruct (_ && _) eqn:E; [|exact (Hend _ (ex_intro _ 0%nat Hstart))]. apply andb_true_iff in E as [Hw Hc]. apply co_aligned_spec in Hc; [|done]. unfold WSIZE in Hw. b2p. pose proof (Z.mod_pos_bound (- pa) W HWp).
  pose proof (cmp_align_spec fuel 0 ltac:(rewrite Z.add_0_r; unfold fuel; lia) ltac:(rewrite Z.add_0_r; lia) eq_refl Hc) as Ha. rewrite !Z.add_0_r, Z.sub_0_r in Ha.
  destruct Ha as ([v|c] & -> & Hv); cbn [mbind outcome_bind]; [by rewrite Hv|]. destruct Hv as (k & (Hk & -> & Ht) & Ha1 & Ha2).
  destruct (cmp_words_spec fuel k Hk ltac:(unfold fuel; lia) Ha1 Ha2 Ht) as (c & -> & Hc'). exact (Hend c Hc').
Qed.
End compare.

(** Memory that comes in whole words, as it does on pages. *)
Definition paged (W : Z) (m : ram) : Prop := ∀ a b, m !! a = Some b → is_byte b ∧ mapped m (a - a mod W) W.
(** A string: bytes other than zero, and a zero. *)
Definition is_text (l : list Z) : Prop := Forall (λ b, 0 < b < 256) l.
Lemma text_bytes l : is_text l → Forall is_byte (l ++ [0]).
Proof. intros H. apply Forall_app. split; [eapply Forall_impl; [exact H|]; unfold is_byte; intros; simpl in *; lia|repeat constructor; done]. Qed.
Lemma text_lookup l k : is_text l → (k ≤ length l)%nat → ∃ b, (l ++ [0]) !! k = Some b ∧ (b = 0 ↔ k = length l).
Proof.
  intros Ht Hk. destruct (decide (k = length l)) as [->|Hne]; [exists 0; by rewrite lookup_app_r, Nat.sub_diag by lia|].
  destruct (lookup_lt_is_Some_2 l k ltac:(lia)) as [b Hb]. exists b. rewrite lookup_app_l by lia. split; [done|]. pose proof (Forall_lookup_1 _ _ _ _ Ht Hb) as Hr. cbv beta in Hr. split; [lia|done].
Qed.
(** Mapped memory holds some bytes. *)
Lemma mapped_holds m a n : mapped m a (Z.of_nat n) → ∃ l, length l = n ∧ holds m a l.
Proof.
  revert a. induction n as [|n IH]; intros a H; [by exists []|]. destruct (H 0 ltac:(lia)) as [b Hb]. rewrite Z.add_0_r in Hb. destruct (IH (a + 1)) as (l & Hl & Hh); [eapply mapped_sub; [exact H|lia|lia]|].
  exists (b :: l). split; [by simpl; rewrite Hl|]. intros [|i] c Hc; simpl in Hc; [injection Hc as <-; by rewrite Z.add_0_r|]. rewrite <- (Hh i c Hc). f_equal. lia.
Qed.

Section search.
Context (W : Z) (big : bool) (HW : W = 4 ∨ W = 8) (m : ram) (s : Z) (l : list Z).
Context (Hm : paged W m) (Hs : holds m s (l ++ [0])) (Ht : is_text l).
Lemma text_byte k : (k ≤ length l)%nat → ∃ b, ld m (s + Z.of_nat k) = Ret b ∧ (b = 0 ↔ k = length l).
Proof. intros Hk. destruct (text_lookup l k Ht Hk) as (b & Hb & Hz). exists b. unfold ld. by rewrite (Hs k b Hb). Qed.
Lemma text_word k : (k ≤ length l)%nat → (s + Z.of_nat k) mod W = 0 → ∃ w, ld_word W big m (s + Z.of_nat k) = Ret w ∧ (HAS_ZERO W w = false → Z.of_nat k + W ≤ zlen l).
Proof.
  intros Hk Ha. pose proof (W_pos W HW). destruct (text_lookup l k Ht Hk) as (b & Hb & _). pose proof (Hs k b Hb) as Hmb. destruct (Hm _ _ Hmb) as [_ Hmap]. rewrite Ha, Z.sub_0_r in Hmap.
  rewrite <- (Z2Nat.id W) in Hmap at 1 by lia. destruct (mapped_holds _ _ _ Hmap) as (x & Hx & Hh). exists (le_val (in_order big x)). split; [by apply ld_word_holds; [|lia|]|].
  assert (Hxb : Forall is_byte x). { apply Forall_lookup. intros i c Hc. apply Hh in Hc. by apply Hm in Hc as [? _]. }
  intros Hz. destruct (decide (Z.of_nat k + W ≤ zlen l)); [done|]. exfalso. assert (HAS_ZERO W (le_val (in_order big x)) = true); [|congruence].
  apply HAS_ZERO_spec; [done|by rewrite in_order_length, Hx, Z2Nat.id by lia|by apply in_order_bytes|].
  assert (Hin : 0 ∈ x).
  { set (i := (length l - k)%nat). destruct (lookup_lt_is_Some_2 x i ltac:(unfold i; lia)) as [c Hc]. pose proof (Hh i c Hc) as Hv. destruct (text_lookup l (length l) Ht ltac:(lia)) as (z & Hz' & Hz0). destruct Hz0 as [_ Hz0]. rewrite (Hz0 eq_refl) in Hz'. pose proof (Hs _ _ Hz') as Hv'.
    replace (s + Z.of_nat k + Z.of_nat i) with (s + zlen l) in Hv by (unfold i; lia). rewrite Hv' in Hv. injection Hv as <-. by eapply list_elem_of_lookup_2. }
  unfold in_order. destruct big; [|done]. apply list_elem_of_In, in_rev. rewrite rev_involutive. by apply list_elem_of_In.
Qed.
Lemma len_align_spec n : ∀ k, (k ≤ length l)%nat → zlen l - Z.of_nat k < Z.of_nat n →
  yields (len_align W n m s (s + Z.of_nat k)) (λ r, match r with inl v => v = zlen l | inr p => ∃ k', (k' ≤ length l)%nat ∧ p = s + Z.of_nat k' ∧ p mod W = 0 end).
Proof.
  induction n as [|n IH]; intros k Hk Hn; [lia|]. cbn [len_align]. rewrite land_mask by done. destruct (_ =? 0) eqn:E; cbn [negb]; cbv iota; b2p; [apply yields_ret; by exists k|].
  destruct (text_byte k Hk) as (b & -> & Hz). cbn [mbind outcome_bind]. case_test; b2p; [apply yields_ret; rewrite Hz in *; lia|]. rewrite <- Z.add_assoc. replace (Z.of_nat k + 1) with (Z.of_nat (S k)) by lia.
  assert (k ≠ length l) by (intros He; apply Hz in He; done). apply IH; lia.
Qed.
Lemma len_words_spec n : ∀ k, (k ≤ length l)%nat → zlen l - Z.of_nat k < Z.of_nat n → (s + Z.of_nat k) mod W = 0 →
  yields (len_words W big n m (s + Z.of_nat k)) (λ p, ∃ k', (k' ≤ length l)%nat ∧ p = s + Z.of_nat k').
Proof.
  pose proof (W_pos W HW) as HWp. induction n as [|n IH]; intros k Hk Hn Ha; [lia|]. cbn [len_words]. destruct (text_word k Hk Ha) as (w & -> & Hz). cbn [mbind outcome_bind]. destruct (HAS_ZERO W w); cbn [negb]; cbv iota; [apply yields_ret; by exists k|].
  specialize (Hz eq_refl). unfold WSIZE. specialize (IH (k + Z.to_nat W)%nat). rewrite Nat2Z.inj_add, Z2Nat.id, !Z.add_assoc in IH by lia. apply IH; [lia|lia|by rewrite mod_next].
Qed.
Lemma len_bytes_spec n : ∀ k, (k ≤ length l)%nat → zlen l - Z.of_nat k < Z.of_nat n → len_bytes n m (s + Z.of_nat k) = Ret (s + zlen l).
Proof.
  induction n as [|n IH]; intros k Hk Hn; [lia|]. cbn [len_bytes]. destruct (text_byte k Hk) as (b & -> & Hz). cbn [mbind outcome_bind]. destruct (b =? 0) eqn:E; cbn [negb]; cbv iota; b2p.
  - rewrite Hz in E. by rewrite E.
  - rewrite <- Z.add_assoc. replace (Z.of_nat k + 1) with (Z.of_nat (S k)) by lia. assert (k ≠ length l) by (intros He; apply Hz in He; done). apply IH; lia.
Qed.
Lemma strlen_text n : (length l < n)%nat → strlen W big n m s = Ret (zlen l).
Proof.
  intros Hn. unfold strlen. pose proof (len_align_spec n 0 ltac:(lia) ltac:(lia)) as Ha. rewrite Z.add_0_r in Ha. destruct Ha as ([v|p] & -> & Hv); cbn [mbind outcome_bind]; [by rewrite Hv|].
  destruct Hv as (k & Hk & -> & Hp). destruct (len_words_spec n k Hk ltac:(lia) Hp) as (w & -> & k' & Hk' & ->). cbn [mbind outcome_bind]. rewrite len_bytes_spec by lia. cbn [mbind outcome_bind]. f_equal. lia.
Qed.
End search.

Lemma strcmp_text m a b l1 l2 : holds m a (l1 ++ [0]) → holds m b (l2 ++ [0]) → is_text l1 → is_text l2 → ∀ n, (length l1 < n)%nat → strcmp n m a b = Ret (first_difference (l1 ++ [0]) (l2 ++ [0])).
Proof.
  revert a b l2. induction l1 as [|x l1 IH]; intros a b l2 Ha Hb H1 H2 [|n] Hn; try (simpl in Hn; lia); cbn [strcmp]; unfold ld.
  - pose proof (Ha 0%nat 0 eq_refl) as E. rewrite Z.add_0_r in E. rewrite E. cbn. destruct l2 as [|y l2]; [pose proof (Hb 0%nat 0 eq_refl) as E2|pose proof (Hb 0%nat y eq_refl) as E2]; rewrite Z.add_0_r in E2; rewrite E2; [done|]. apply Forall_cons in H2 as [Hy _]. cbn [mbind outcome_bind]. simpl. destruct y; [lia|done|lia].
  - pose proof (Ha 0%nat x eq_refl) as E. rewrite Z.add_0_r in E. rewrite E. apply Forall_cons in H1 as [Hx H1]. cbn [mbind outcome_bind]. rewrite (proj2 (Z.eqb_neq x 0)) by lia. cbn [negb]. cbv iota.
    destruct l2 as [|y l2]; [pose proof (Hb 0%nat 0 eq_refl) as E2|pose proof (Hb 0%nat y eq_refl) as E2]; rewrite Z.add_0_r in E2; rewrite E2; cbn [mbind outcome_bind app first_difference].
    + by rewrite (proj2 (Z.eqb_neq x 0)) by lia.
    + case_test; [|done]. apply Forall_cons in H2 as [_ H2]. apply IH; [| |done|done|simpl in Hn; lia]; intros i c Hc; [rewrite <- (Ha (S i) c Hc)|rewrite <- (Hb (S i) c Hc)]; f_equal; lia.
Qed.
(** The first place of a character in a string; the NUL is one of its characters. *)
Fixpoint find_char (a c : Z) (l : list Z) : option Z := match l with [] => None | b :: l => if b =? c then Some a else find_char (a + 1) c l end.
Lemma strchr_text m c l : is_text l → ∀ a n, holds m a (l ++ [0]) → (length l < n)%nat → strchr n m a c = Ret (find_char a (u8 c) (l ++ [0])).
Proof.
  induction 1 as [|b l Hb _ IH]; intros a [|n] Ha Hn; simpl in Hn; try lia; cbn [strchr app find_char]; unfold ld; [pose proof (Ha 0%nat 0 eq_refl) as E|pose proof (Ha 0%nat b eq_refl) as E]; rewrite Z.add_0_r in E; rewrite E; cbn [mbind outcome_bind]; case_test; try done.
  rewrite (proj2 (Z.eqb_neq b 0)) by lia. apply IH; [|lia]. intros i x Hx. rewrite <- (Ha (S i) x Hx). f_equal. lia.
Qed.
(** [strncpy] leaves the front of the string, filled up with zeros. *)
Lemma ncpy_loop_text W s l m0 d : 0 ≤ W → is_text l → ∀ fuel k n, holds m0 s (l ++ [0]) → mapped m0 d n → n < 2 ^ (8 * W) → s + zlen l < d ∨ d + n ≤ s →
  (k ≤ length l)%nat → Z.of_nat k ≤ n → n - Z.of_nat k < Z.of_nat fuel →
  let j := Z.min (zlen l) n in ncpy_loop W fuel (put m0 d (take k l)) (d + Z.of_nat k) (s + Z.of_nat k) (n - Z.of_nat k) = Ret (put m0 d (take (Z.to_nat j) l), d + j, n - j).
Proof.
  intros HW Ht. induction fuel as [|fuel IH]; intros k n Hs Hd Hn Ho Hk Hkn Hf j; [lia|]. cbn [ncpy_loop]. assert (Hlk : length (take k l) = k) by (rewrite length_take; lia).
  destruct (_ =? 0) eqn:E; cbn [negb]; cbv iota; b2p; [replace j with (Z.of_nat k) by (unfold j; lia); rewrite Nat2Z.id; do 2 f_equal; lia|].
  destruct (text_lookup l k Ht Hk) as (b & Hb & Hz). unfold ld. rewrite put_out by (rewrite Hlk; lia). rewrite (Hs k b Hb). cbn [mbind outcome_bind]. destruct (b =? 0) eqn:Eb; cbn [negb]; cbv iota; b2p.
  { apply Hz in Eb. replace j with (Z.of_nat k) by (unfold j; lia). by rewrite Nat2Z.id. }
  assert (Hkl : (k < length l)%nat) by (destruct (decide (k = length l)) as [He|]; [apply Hz in He; done|lia]). rewrite lookup_app_l in Hb by done.
  unfold st. destruct (mapped_put m0 d (take k l) d n Hd (Z.of_nat k) ltac:(lia)) as [x ->]. cbn [mbind outcome_bind]. rewrite usz_small by lia.
  change (<[?a := b]> ?m) with (put m a [b]). replace (put (put m0 d (take k l)) (d + Z.of_nat k) [b]) with (put m0 d (take (S k) l)) by (rewrite (take_S_r _ _ _ Hb), put_app; by rewrite Hlk).
  replace (n - Z.of_nat k - 1) with (n - Z.of_nat (S k)) by lia. rewrite <- !Z.add_assoc. replace (Z.of_nat k + 1) with (Z.of_nat (S k)) by lia. apply IH; try done; lia.
Qed.
Lemma strncpy_text W big m d s l n : W = 4 ∨ W = 8 → is_text l → holds m s (l ++ [0]) → mapped m d n → 0 ≤ n < 2 ^ (8 * W) → s + zlen l < d ∨ d + n ≤ s →
  strncpy W big m d s n = Ret (put m d (take (Z.to_nat n) (l ++ replicate (Z.to_nat n) 0))).
Proof.
  intros HW Ht Hs Hd Hn Ho. unfold strncpy. pose proof (ncpy_loop_text W s l m d ltac:(lia) Ht (S (Z.to_nat n)) 0 n Hs Hd ltac:(lia) Ho ltac:(lia) ltac:(lia) ltac:(lia)) as H. cbv zeta in H. rewrite !Z.add_0_r, Z.sub_0_r, take_0 in H. cbn [put] in H. rewrite H. cbn [mbind outcome_bind].
  set (j := Z.min (zlen l) n). rewrite memset_put; [|done|lia|].
  - change (u8 0) with 0. assert (Hlj : zlen (take (Z.to_nat j) l) = j) by (rewrite length_take; lia). rewrite <- Hlj at 2. rewrite <- put_app. do 2 f_equal. destruct (decide (zlen l ≤ n)).
    + replace (Z.to_nat j) with (length l) by lia. rewrite firstn_all, take_app_ge by lia. f_equal. rewrite take_replicate. f_equal. lia.
    + rewrite take_app_le by lia. replace (Z.to_nat j) with (Z.to_nat n) by lia. replace (n - j) with 0 by lia. by rewrite app_nil_r.
  - apply mapped_put. eapply mapped_sub; [exact Hd|lia|lia].
Qed.

(** ** The properties *)

(** [C18] Whatever the alignments, the word size and the byte order, [memmove] puts the bytes
    of the source at the destination as they were before the call, however the two overlap,
    and touches nothing else; [memcpy] does so for an object copied onto itself or to a
    place apart.  [CopyMem] is relied on for pieces that do not overlap only. *)
Theorem memmove_moves W big CopyMem m d s l : W = 4 ∨ W = 8 → copies_apart CopyMem →
  Forall is_byte l → holds m s l → mapped m d (zlen l) → 0 ≤ d → d + zlen l < 2 ^ (8 * W) → 0 ≤ s → s + zlen l < 2 ^ (8 * W) →
  ∃ m', memmove W big CopyMem m d s (zlen l) = Ret m' ∧ holds m' d l ∧ (∀ x, x < d ∨ d + zlen l ≤ x → m' !! x = m !! x) ∧
    (d = s ∨ d + zlen l ≤ s ∨ s + zlen l ≤ d → memcpy W big CopyMem m d s (zlen l) = Ret m').
Proof.
  intros HW Hc Hb Hs Hd ? ? ? ?. exists (put m d l). split_and!.
  - apply memmove_put; try done; lia.
  - intros i b Hi. pose proof (lookup_lt_Some _ _ _ Hi). rewrite put_in by lia. rewrite <- Hi. f_equal. lia.
  - intros x Hx. by apply put_out.
  - intros Ho. apply memcpy_put; try done. lia.
Qed.

(** A copy as exec makes it, and memory to try it on. *)
Definition copy_all (m : ram) (s d n : Z) : outcome ram := l ← ld_bytes m s (Z.to_nat n); st_bytes m d l.
Lemma copy_all_apart : copies_apart copy_all.
Proof. intros m s d l Hs Hd _. unfold copy_all. rewrite Nat2Z.id, ld_bytes_holds by done. cbn [mbind outcome_bind]. by apply st_bytes_put. Qed.
Definition some_ram (a : Z) (l : list Z) : ram := put ∅ a l.
Lemma some_ram_holds a l : holds (some_ram a l) a l.
Proof. intros i b Hi. pose proof (lookup_lt_Some _ _ _ Hi). unfold some_ram. rewrite put_in by lia. rewrite <- Hi. f_equal. lia. Qed.
(** Seventy bytes move up by three. *)
Lemma memmove_moves_witness : let m := some_ram 100 (seqZ 1 80) in
  ∃ m', memmove 4 true copy_all m 103 100 70 = Ret m' ∧ holds m' 103 (seqZ 1 70) ∧ (∀ x, x < 103 ∨ 173 ≤ x → m' !! x = m !! x).
Proof.
  cbv zeta. destruct (memmove_moves 4 true copy_all (some_ram 100 (seqZ 1 80)) 103 100 (seqZ 1 70) (or_introl eq_refl) copy_all_apart) as (m' & H1 & H2 & H3 & _).
  - apply Forall_forall. intros b [? ?]%elem_of_seqZ. unfold is_byte. lia.
  - exact (holds_piece _ _ _ 0 70 (some_ram_holds 100 (seqZ 1 80))).
  - eapply mapped_sub; [exact (holds_mapped _ _ _ (some_ram_holds 100 (seqZ 1 80)))|simpl; lia|simpl; lia].
  - lia.
  - simpl. lia.
  - lia.
  - simpl. lia.
  - exists m'. split; [exact H1|]. split; [exact H2|exact H3].
Defined.

(** [C22] Looking at memory by words sees what looking by bytes does: [memcmp] gives the
    difference of the first two bytes that differ, for all alignments; [strlen] finds the
    NUL of a string, and its reads beyond it stay in words that have a byte of the string,
    so it never leaves memory that is mapped in whole words. *)
Theorem word_scans_exact W big m : W = 4 ∨ W = 8 →
  (∀ a b l1 l2, holds m a l1 → holds m b l2 → length l1 = length l2 → Forall is_byte l1 → Forall is_byte l2 → zlen l1 < 2 ^ (8 * W) →
     memcmp W big m a b (zlen l1) = Ret (first_difference l1 l2)) ∧
  (paged W m → ∀ s l n, holds m s (l ++ [0]) → is_text l → (length l < n)%nat → strlen W big n m s = Ret (zlen l)).
Proof. intros HW. split; intros; [by apply memcmp_first_difference|by apply strlen_text]. Qed.
Lemma some_ram_paged W a l : W = 4 ∨ W = 8 → a mod W = 0 → zlen l mod W = 0 → Forall is_byte l → paged W (some_ram a l).
Proof.
  intros HW Ha Hl Hb x b Hx. unfold some_ram in *. assert (Hin : a ≤ x < a + zlen l) by (destruct (decide (a ≤ x < a + zlen l)); [done|rewrite put_out in Hx by lia; done]).
  rewrite put_in in Hx by done. split; [exact (Forall_lookup_1 _ _ _ _ Hb Hx)|]. eapply mapped_sub; [exact (holds_mapped _ _ _ (some_ram_holds a l))|destruct HW as [-> | ->]; dlia|destruct HW as [-> | ->]; dlia].
Qed.
Definition two_texts : list Z := seqZ 1 20 ++ seqZ 1 7 ++ [50; 51; 52; 0; 0].
(** Texts that differ in the eighth byte, and a length from the middle of a word. *)
Lemma word_scans_exact_witness : memcmp 4 false (some_ram 8 two_texts) 8 28 8 = Ret (-42) ∧ strlen 4 false 30 (some_ram 8 two_texts) 11 = Ret 27.
Proof.
  pose proof (some_ram_holds 8 two_texts) as H. destruct (word_scans_exact 4 false (some_ram 8 two_texts) (or_introl eq_refl)) as [H1 H2].
  assert (Hb : ∀ n l, forallb (λ b, (0 <=? b) && (b <? 256)) (take n l) = true → Forall is_byte (take n l)).
  { intros n l Hf. rewrite forallb_forall in Hf. apply Forall_forall. intros b Hin. apply list_elem_of_In, Hf in Hin. unfold is_byte. b2p. lia. }
  split.
  - exact (H1 8 28 (take 8 (drop 0 two_texts)) (take 8 (drop 20 two_texts)) (holds_piece _ _ _ 0 8 H) (holds_piece _ _ _ 20 8 H) eq_refl (Hb 8%nat (drop 0 two_texts) eq_refl) (Hb 8%nat (drop 20 two_texts) eq_refl) eq_refl).
  - apply (H2 (some_ram_paged 4 8 two_texts (or_introl eq_refl) eq_refl eq_refl (Hb 32%nat two_texts eq_refl)) 11 (take 27 (drop 3 two_texts)) 30%nat (holds_piece _ _ _ 3 28 H)); [|simpl; lia].
    repeat constructor.
Defined.
