(* ===== verification/AmigaMedia.v ===== *)
(** * The drive of the Amiga handler as a medium ([platform/amiga/handler_main.c])

    Exec's [DoIO] is a parameter: the device has a state of type [D], takes a request and
    answers it.  A read gives the bytes the device transferred, whatever its result.  The
    handler is built for classic AmigaOS: buffers have addresses of [word] bits, the lists
    of memory regions and [TypeOfMem] are parameters, too.  The I/O request of the handler
    exists; calls of the log are left out. *)
From S2P Require Import Prelude Types Media.
Open Scope Z_scope.

(** ** Requests *)

Inductive io_command : Type := CMD_READ | TD_READ64 | NSCMD_TD_READ64.
(** A read has a byte offset, whose high half the 64-bit commands take from [io_Actual];
    a SCSI command has its bytes and the length of the data. *)
Inductive io_request : Type :=
  | IoStd (command : io_command) (offset actual length : Z)
  | IoScsi (cdb : list Z) (length : Z) (write : list Z).
(** The result of [DoIO], the fields of the request and of the SCSI command behind it. *)
Record io_reply : Type := mk_reply {
  r_rc : Z; r_error : Z; r_actual : Z; r_data : list Z; r_status : Z; r_scsi_actual : Z; r_sense : list Z }.
Definition IOERR_NOCMD : Z := -3.
Definition ODFS_READ64_UNPROBED : Z := 0.
Definition ODFS_READ64_TD64 : Z := 1.
Definition ODFS_READ64_NSD : Z := 2.
Definition ODFS_READ64_SCSI : Z := 3.
Definition ODFS_READ64_NONE : Z := -1.

(** What is fixed when a volume is mounted: the geometry, the limits of the device, and
    whether data is read with SCSI commands. *)
Record amiga_conf : Type := mk_conf {
  sector_size : Z; max_transfer : Z; max_transfer_blocks : Z; dma_buf_size : Z; de_Mask : Z; direct_mem_need : Z; scsi_reads : bool }.
(** The fields of [handler_global_t] that reads of the medium change. *)
(* [src: platform/amiga/handler.h:116-146 handler_global_t] *)
Record amiga_state (D : Type) : Type := mk_amiga {
  device : D; dma_mem : list Z; read64_mode : Z; toc_passthrough : Z; last_session_passthrough : Z; read_cd_audio : Z; cdtext_passthrough : Z;
  direct_mem_lo : Z; direct_mem_hi : Z; direct_read_buf : Z; direct_read_len : Z }.
Arguments mk_amiga {D}.
Arguments device {D}.
Arguments dma_mem {D}.
Arguments read64_mode {D}.
Arguments toc_passthrough {D}.
Arguments last_session_passthrough {D}.
Arguments read_cd_audio {D}.
Arguments cdtext_passthrough {D}.
Arguments direct_mem_lo {D}.
Arguments direct_mem_hi {D}.
Arguments direct_read_buf {D}.
Arguments direct_read_len {D}.

(** [struct MemHeader]: a region and its attributes. *)
Record mem_header : Type := mk_header { mh_Lower : Z; mh_Upper : Z; mh_Attributes : Z }.

(** The bytes a device writes to a buffer. *)
Definition store (buf : list Z) (off : Z) (src : list Z) : list Z := take (length buf) (splice buf off src).
(** A list as an array of [n] bytes. *)
Definition array (n : Z) (l : list Z) : list Z := take (Z.to_nat n) (l ++ replicate (Z.to_nat n) 0).

(* [src: platform/amiga/handler_main.c:176-182 scsi_is_unsupported_command] *)
Definition scsi_is_unsupported_command (sense : list Z) : bool :=
  (Z.land (default 0 (zget sense 2)) 0x0f =? 0x05) && (default 0 (zget sense 12) =? 0x20).
(** The limits in sectors and in bytes, from the environment's [de_MaxTransfer]. *)
(* [src: platform/amiga/handler_main.c:188-210 amiga_init_max_transfer] *)
Definition amiga_init_max_transfer (de_MaxTransfer sector_size : Z) : Z * Z :=
  let max := if UINT32_MAX <? de_MaxTransfer then UINT32_MAX else u32 de_MaxTransfer in
  let max := if max =? 0 then 0xffffffff else max in
  let blocks := max / sector_size in
  let blocks := if blocks =? 0 then 1 else blocks in
  (blocks, u32 (blocks * sector_size)).

(** READ(10) of [blocks] blocks from [lba] on. *)
(* [src: platform/amiga/handler_main.c:413-429 scsi_read10] *)
Definition read10_cdb (lba blocks : Z) : list Z :=
  [0x28; 0; u8 (Z.shiftr lba 24); u8 (Z.shiftr lba 16); u8 (Z.shiftr lba 8); u8 lba; 0; u8 (Z.shiftr blocks 8); u8 blocks; 0].
(** The bytes of the command prepared at mount: the opcode, and zeros. *)
(* [src: platform/amiga/handler_main.c:647-651 probe_scsi_reads] *)
Definition prepared_cdb : list Z := [0x28; 0; 0; 0; 0; 0; 0; 0; 0; 0].
(** [read_cdb[1] = scsi_lba_be(lba)]: four bytes in the order of the wire. *)
(* [src: platform/amiga/handler_main.c:540-547 scsi_lba_be] *)
Definition lba_be (lba : Z) : list Z := [u8 (Z.shiftr lba 24); u8 (Z.shiftr lba 16); u8 (Z.shiftr lba 8); u8 lba].

Section amiga.
Context {D : Type} (DoIO : D → io_request → io_reply * D) (word : Z) (conf : amiga_conf).
Context (MemList : list mem_header) (TypeOfMem : Z → Z).
Abbreviation state := (amiga_state D) (only parsing).
Implicit Types (s : state).

Definition set_device (d : D) (s : amiga_state D) : amiga_state D := mk_amiga d (dma_mem s) (read64_mode s) (toc_passthrough s) (last_session_passthrough s) (read_cd_audio s)
  (cdtext_passthrough s) (direct_mem_lo s) (direct_mem_hi s) (direct_read_buf s) (direct_read_len s).
Definition set_dma b (s : amiga_state D) : amiga_state D := mk_amiga (device s) b (read64_mode s) (toc_passthrough s) (last_session_passthrough s) (read_cd_audio s)
  (cdtext_passthrough s) (direct_mem_lo s) (direct_mem_hi s) (direct_read_buf s) (direct_read_len s).
Definition set_mode v (s : amiga_state D) : amiga_state D := mk_amiga (device s) (dma_mem s) v (toc_passthrough s) (last_session_passthrough s) (read_cd_audio s)
  (cdtext_passthrough s) (direct_mem_lo s) (direct_mem_hi s) (direct_read_buf s) (direct_read_len s).
Definition set_toc v (s : amiga_state D) : amiga_state D := mk_amiga (device s) (dma_mem s) (read64_mode s) v (last_session_passthrough s) (read_cd_audio s)
  (cdtext_passthrough s) (direct_mem_lo s) (direct_mem_hi s) (direct_read_buf s) (direct_read_len s).
Definition set_last_session v (s : amiga_state D) : amiga_state D := mk_amiga (device s) (dma_mem s) (read64_mode s) (toc_passthrough s) v (read_cd_audio s)
  (cdtext_passthrough s) (direct_mem_lo s) (direct_mem_hi s) (direct_read_buf s) (direct_read_len s).
Definition set_audio v (s : amiga_state D) : amiga_state D := mk_amiga (device s) (dma_mem s) (read64_mode s) (toc_passthrough s) (last_session_passthrough s) v
  (cdtext_passthrough s) (direct_mem_lo s) (direct_mem_hi s) (direct_read_buf s) (direct_read_len s).
Definition set_cdtext v (s : amiga_state D) : amiga_state D := mk_amiga (device s) (dma_mem s) (read64_mode s) (toc_passthrough s) (last_session_passthrough s) (read_cd_audio s)
  v (direct_mem_lo s) (direct_mem_hi s) (direct_read_buf s) (direct_read_len s).
Definition set_mem lo hi (s : amiga_state D) : amiga_state D := mk_amiga (device s) (dma_mem s) (read64_mode s) (toc_passthrough s) (last_session_passthrough s) (read_cd_audio s)
  (cdtext_passthrough s) lo hi (direct_read_buf s) (direct_read_len s).
Definition set_window b n (s : amiga_state D) : amiga_state D := mk_amiga (device s) (dma_mem s) (read64_mode s) (toc_passthrough s) (last_session_passthrough s) (read_cd_audio s)
  (cdtext_passthrough s) (direct_mem_lo s) (direct_mem_hi s) b n.
(** The bounce buffer. *)
Definition dma_buf s : list Z := array (dma_buf_size conf) (dma_mem s).
(** [uintptr_t]. *)
Definition uptr (x : Z) : Z := x mod 2 ^ word.

(** ** Buffers the device may write to *)

(* [src: platform/amiga/handler_main.c:213-233 amiga_direct_read_window_ok] *)
Definition amiga_direct_read_window_ok s (buf len : Z) : bool :=
  if (direct_read_buf s =? 0) || (direct_read_len s =? 0) || (len =? 0) then false
  else
    let start := buf in
    let end_ := uptr (start + len - 1) in
    let win_start := direct_read_buf s in
    let win_end := uptr (win_start + direct_read_len s - 1) in
    if (end_ <? start) || (win_end <? win_start) then false else (win_start <=? start) && (end_ <=? win_end).
(** The region [start] is in, and whether it has all of the buffer and the attributes. *)
(* [src: platform/amiga/handler_main.c:259-271 amiga_direct_memtype_ok] *)
Fixpoint find_region (l : list mem_header) (need start end_ : Z) : option mem_header :=
  match l with
  | [] => None
  | mh :: l =>
      if (mh_Lower mh <=? start) && (start <? mh_Upper mh)
      then if (end_ <? mh_Upper mh) && (Z.land (mh_Attributes mh) need =? need) then Some mh else None
      else find_region l need start end_
  end.
(* [src: platform/amiga/handler_main.c:244-278 amiga_direct_memtype_ok] *)
Definition amiga_direct_memtype_ok s (buf len : Z) : bool * state :=
  let need := direct_mem_need conf in
  let start := buf in
  let end_ := uptr (start + len - 1) in
  if need =? 0 then (true, s)
  else if (direct_mem_lo s <=? start) && (end_ <? direct_mem_hi s) then (true, s)
  else
    match find_region MemList need start end_ with
    | Some mh => (true, set_mem (mh_Lower mh) (mh_Upper mh) s)
    | None => ((Z.land (TypeOfMem start) need =? need) && (Z.land (TypeOfMem end_) need =? need), s)
    end.
(* [src: platform/amiga/handler_main.c:281-318 amiga_can_read_direct] *)
Definition amiga_can_read_direct s (buf len sectors : Z) : bool * state :=
  if (buf =? 0) || (len =? 0) then (false, s)
  else if (sectors <? 2) || negb (amiga_direct_read_window_ok s buf len) then (false, s)
  else
    let start := buf in
    let end_ := uptr (start + len - 1) in
    if end_ <? start then (false, s)
    else
      let blocked := uptr (Z.lnot (de_Mask conf)) in
      if negb (Z.land start blocked =? 0) then (false, s) else amiga_direct_memtype_ok s buf len.

(** ** Reads

    A read writes to the front of [buf]. *)

Definition do_io s (r : io_request) : io_reply * state := let '(r, d) := DoIO (device s) r in (r, set_device d s).
(** The result, [io_Error], the buffer. *)
(* [src: platform/amiga/handler_main.c:403-444 scsi_read10] *)
Definition scsi_read10 s (lba bytes : Z) (buf : list Z) : odfs_err * Z * list Z * state :=
  let blocks := bytes / 2048 in
  let '(r, s) := do_io s (IoScsi (read10_cdb lba blocks) bytes []) in
  let buf := store buf 0 (take (Z.to_nat bytes) (r_data r)) in
  if negb (r_rc r =? 0) || negb (r_error r =? 0) || negb (r_status r =? 0) || negb (r_scsi_actual r =? bytes)
  then (ODFS_ERR_IO, r_error r, buf, s) else (ODFS_OK, r_error r, buf, s).
(** [n] methods can be tried yet. *)
(* [src: platform/amiga/handler_main.c:473-536 amiga_read_hi] *)
Fixpoint read_hi_loop (n : nat) s (mode : Z) (probing : bool) (lba bytes : Z) (buf : list Z) (io_error : Z) : outcome (odfs_err * list Z * state) :=
  match n with
  | O => Diverge
  | S n =>
      let '(err, io_error, buf, s) :=
        if (mode =? ODFS_READ64_TD64) || (mode =? ODFS_READ64_NSD) then
          let '(r, s) := do_io s (IoStd (if mode =? ODFS_READ64_TD64 then TD_READ64 else NSCMD_TD_READ64) (u32 (Z.shiftl lba 11)) (Z.shiftr lba 21) bytes) in
          let buf := store buf 0 (take (Z.to_nat bytes) (r_data r)) in
          if (r_rc r =? 0) && (r_error r =? 0) && (r_actual r =? bytes) then (ODFS_OK, io_error, buf, s) else (ODFS_ERR_IO, r_error r, buf, s)
        else scsi_read10 s lba bytes buf in
      if err_ok err then Ret (ODFS_OK, buf, if probing then set_mode mode s else s)
      else if probing && (io_error =? IOERR_NOCMD) && negb (mode =? ODFS_READ64_SCSI) then read_hi_loop n s (mode + 1) probing lba bytes buf io_error
      else if probing && (mode =? ODFS_READ64_SCSI) && (io_error =? IOERR_NOCMD) then Ret (ODFS_ERR_UNSUPPORTED, buf, set_mode ODFS_READ64_NONE s)
      else Ret (ODFS_ERR_IO, buf, s)
  end.
(* [src: platform/amiga/handler_main.c:460-537 amiga_read_hi] *)
Definition amiga_read_hi s (lba bytes : Z) (buf : list Z) : outcome (odfs_err * list Z * state) :=
  let mode := read64_mode s in
  let probing := mode =? ODFS_READ64_UNPROBED in
  if mode =? ODFS_READ64_NONE then Ret (ODFS_ERR_UNSUPPORTED, buf, s)
  else read_hi_loop 3 s (if probing then ODFS_READ64_TD64 else mode) probing lba bytes buf 0.
(* [src: platform/amiga/handler_main.c:556-581 scsi_read10_data] *)
Definition scsi_read10_data s (lba bytes : Z) (buf : list Z) : odfs_err * list Z * state :=
  let blocks := Z.shiftr bytes 11 in
  let cdb := splice prepared_cdb 2 (lba_be lba) in
  let cdb := zset (zset cdb 7 (u8 (Z.shiftr blocks 8))) 8 (u8 blocks) in
  let '(r, s) := do_io s (IoScsi cdb bytes []) in
  let buf := store buf 0 (take (Z.to_nat bytes) (r_data r)) in
  if negb (r_rc r =? 0) || negb (r_status r =? 0) || negb (r_scsi_actual r =? bytes) then (ODFS_ERR_IO, buf, s) else (ODFS_OK, buf, s).
(* [src: platform/amiga/handler_main.c:591-613 amiga_read_lo] *)
Definition amiga_read_lo (scsi : bool) s (lba bytes : Z) (buf : list Z) : odfs_err * list Z * state :=
  let '(err, buf, s) := if scsi && (bytes <=? 0xffff * 2048) then scsi_read10_data s lba bytes buf else (ODFS_ERR_IO, buf, s) in
  if err_ok err then (ODFS_OK, buf, s)
  else
    let offset := if sector_size conf =? 2048 then u32 (Z.shiftl lba 11) else u32 (lba * sector_size conf) in
    let '(r, s) := do_io s (IoStd CMD_READ offset 0 bytes) in
    let buf := store buf 0 (take (Z.to_nat bytes) (r_data r)) in
    if negb (r_rc r =? 0) || negb (r_error r =? 0) || negb (r_actual r =? bytes) then (ODFS_ERR_IO, buf, s) else (ODFS_OK, buf, s).
(** Either of the two, by where the sector is. *)
Definition read_part s (lba bytes : Z) (buf : list Z) : outcome (odfs_err * list Z * state) :=
  if (sector_size conf =? 2048) && negb (Z.shiftr lba 21 =? 0) then amiga_read_hi s lba bytes buf else Ret (amiga_read_lo (scsi_reads conf) s lba bytes buf).
(** The part of the buffer from [off] on is read in place. *)
(* [src: platform/amiga/handler_main.c:332-375 amiga_read_direct] *)
Fixpoint amiga_read_direct (n : nat) s (lba bytes : Z) (buf : list Z) (off : Z) : outcome (odfs_err * list Z * state) :=
  match n with
  | O => Diverge
  | S n =>
      if 0 <? bytes then
        let chunk := if bytes <? max_transfer conf then bytes else max_transfer conf in
        '(err, part, s) ← read_part s lba chunk (slice buf off chunk);
        let buf := splice buf off part in
        if negb (err_ok err) then Ret (ODFS_ERR_IO, buf, s)
        else amiga_read_direct n s (u32 (lba + max_transfer_blocks conf)) (u32 (bytes - chunk)) buf (off + chunk)
      else Ret (ODFS_OK, buf, s)
  end.
(* [src: platform/amiga/handler_main.c:890-928 amiga_read_sectors] *)
Fixpoint read_bounce (n : nat) s (lba total done : Z) (buf : list Z) : outcome (odfs_err * list Z * state) :=
  match n with
  | O => Diverge
  | S n =>
      if done <? total then
        let chunk := u32 (total - done) in
        let chunk := if dma_buf_size conf <? chunk then dma_buf_size conf else chunk in
        let chunk := if max_transfer conf <? chunk then max_transfer conf else chunk in
        let cur_lba := u32 (lba + done / sector_size conf) in
        '(err, dma, s) ← read_part s cur_lba chunk (dma_buf s);
        let s := set_dma dma s in
        if negb (err_ok err) then Ret (ODFS_ERR_IO, buf, s)
        else read_bounce n s lba total (u32 (done + chunk)) (store buf done (slice (dma_buf s) 0 chunk))
      else Ret (ODFS_OK, buf, s)
  end.
(** The buffer is at the address [addr]. *)
(* [src: platform/amiga/handler_main.c:864-932 amiga_read_sectors] *)
Definition amiga_read_sectors (addr : Z) s (lba count : Z) (buf : list Z) : outcome (odfs_err * list Z * state) :=
  let total_bytes := u32 (count * sector_size conf) in
  let fuel := S (Z.to_nat total_bytes) in
  let '(direct, s) := amiga_can_read_direct s addr total_bytes count in
  if direct then amiga_read_direct fuel s lba total_bytes buf 0
  else read_bounce fuel s lba total_bytes 0 buf.
(** Data reads use SCSI commands when sector 16 reads the same with and without them. *)
(* [src: platform/amiga/handler_main.c:623-660 probe_scsi_reads] *)
Definition probe_scsi_reads s : bool * state :=
  if negb (sector_size conf =? 2048) || (dma_buf_size conf <? 4096) then (false, s)
  else
    let '(err, a, s) := amiga_read_lo false s 16 2048 (slice (dma_buf s) 0 2048) in
    let s := set_dma (splice (dma_buf s) 0 a) s in
    if negb (err_ok err) then (false, s)
    else
      let '(err, _, b, s) := scsi_read10 s 16 2048 (replicate 2048 0) in
      let s := set_dma (splice (dma_buf s) 2048 b) s in
      if negb (err_ok err) then (false, s)
      else if negb (bool_decide (a = b)) then (false, s)
      else
        let '(err, a, s) := scsi_read10_data s 16 2048 (replicate 2048 0) in
        let s := set_dma (splice (dma_buf s) 0 a) s in
        if negb (err_ok err) || negb (bool_decide (a = b)) then (false, s) else (true, s).

(** ** The table of contents, sessions, audio and CD-Text *)

(** What is looked at of the reply to a SCSI command, and the buffers. *)
Definition SENSE_ZERO : list Z := replicate 32 0.
(* [src: platform/amiga/handler_main.c:845-862 scsi_do] *)
Definition scsi_do s (cdb : list Z) (data : list Z) : io_reply * list Z * state :=
  let '(r, s) := do_io s (IoScsi cdb (zlen data) []) in
  (r, store data 0 (r_data r), s).
Definition failed (r : io_reply) : bool := negb (r_rc r =? 0) || negb (r_error r =? 0) || negb (r_status r =? 0).
Definition be32 (b0 b1 b2 b3 : Z) : Z := Z.lor (Z.lor (Z.lor (Z.shiftl b0 24) (Z.shiftl b1 16)) (Z.shiftl b2 8)) b3.
Definition at_ (buf : list Z) (i : Z) : Z := default 0 (zget buf i).
(* [src: platform/amiga/handler_main.c:946-1023 amiga_read_last_session_lba] *)
Definition amiga_read_last_session_lba s (lba_out : Z) : odfs_err * Z * state :=
  let lba_out := 0 in
  if last_session_passthrough s =? 0 then (ODFS_ERR_UNSUPPORTED, lba_out, s)
  else
    let '(r, buf, s) := scsi_do s [0x43; 0; 0x01; 0; 0; 0; 0; 0; 12; 0] (replicate 12 0) in
    let up s := if last_session_passthrough s <? 1 then set_last_session 1 s else s in
    if failed r then
      if scsi_is_unsupported_command (r_sense r) then (ODFS_ERR_UNSUPPORTED, lba_out, set_last_session 0 s) else (ODFS_ERR_IO, lba_out, s)
    else if r_scsi_actual r <? 12 then (ODFS_ERR_BAD_FORMAT, lba_out, s)
    else if Z.land (at_ buf 5) 0x04 =? 0 then (ODFS_OK, lba_out, up s)
    else (ODFS_OK, be32 (at_ buf 8) (at_ buf 9) (at_ buf 10) (at_ buf 11), up s).
(* [src: platform/amiga/handler_main.c:1033-1101 amiga_read_audio] *)
Definition amiga_read_audio s (lba count : Z) (buf : list Z) : odfs_err * list Z * state :=
  if read_cd_audio s =? 0 then (ODFS_ERR_UNSUPPORTED, buf, s)
  else
    let length := u32 (count * 2352) in
    let '(r, s) := do_io s (IoScsi ([0xBE; Z.shiftl 0x01 2] ++ lba_be lba ++ [u8 (Z.shiftr count 16); u8 (Z.shiftr count 8); u8 count; 0x10; 0; 0]) length []) in
    let buf := store buf 0 (take (Z.to_nat length) (r_data r)) in
    if failed r || negb (r_scsi_actual r =? length) then
      if scsi_is_unsupported_command (r_sense r) then (ODFS_ERR_UNSUPPORTED, buf, set_audio 0 s) else (ODFS_ERR_IO, buf, s)
    else (ODFS_OK, buf, if read_cd_audio s <? 1 then set_audio 1 s else s).
(** The descriptors from the [i]-th on, what is collected of tracks and the lead-out. *)
(* [src: platform/amiga/handler_main.c:1217-1240 amiga_read_toc] *)
Fixpoint toc_descriptors (n : nat) (i : Z) (buf : list Z) (tracks : list odfs_session) (leadout : Z) : list odfs_session * Z :=
  match n with
  | O => (tracks, leadout)
  | S n =>
      let desc k := at_ buf (4 + i * 8 + k) in
      let track := desc 2 in
      let control := Z.land (desc 1) 0x0f in
      let lba := be32 (desc 4) (desc 5) (desc 6) (desc 7) in
      if track =? 0xAA then toc_descriptors n (i + 1) buf tracks lba
      else toc_descriptors n (i + 1) buf (if zlen tracks <? 99 then tracks ++ [mk_session track control lba 0] else tracks) leadout
  end.
(** Every track ends where the next one starts, the last one at the lead-out. *)
(* [src: platform/amiga/handler_main.c:1242-1253 amiga_read_toc] *)
Fixpoint toc_lengths (tracks : list odfs_session) (leadout : Z) : list odfs_session :=
  match tracks with
  | [] => []
  | t :: rest =>
      let end_ := match rest with next :: _ => s_start_lba next | [] => leadout end in
      (if s_start_lba t <? end_ then mk_session (s_number t) (s_control t) (s_start_lba t) (end_ - s_start_lba t) else t) :: toc_lengths rest leadout
  end.
(** [4 + (99 + 1) * 8] bytes. *)
Definition TOC_SIZE : Z := 804.
(* [src: platform/amiga/handler_main.c:1115-1269 amiga_read_toc] *)
Definition amiga_read_toc s (toc : odfs_toc) : odfs_err * odfs_toc * state :=
  let toc := toc_zero in
  if toc_passthrough s =? 0 then (ODFS_ERR_UNSUPPORTED, toc, s)
  else if dma_buf_size conf <? TOC_SIZE then (ODFS_ERR_NOMEM, toc, s)
  else
    let '(r, buf, s) := scsi_do s [0x43; 0; 0; 0; 0; 0; 0x01; u8 (Z.shiftr TOC_SIZE 8); u8 TOC_SIZE; 0] (replicate (Z.to_nat TOC_SIZE) 0) in
    let s := set_dma (splice (dma_buf s) 0 buf) s in
    if failed r then (ODFS_ERR_UNSUPPORTED, toc, if scsi_is_unsupported_command (r_sense r) then set_toc 0 s else s)
    else
      let toc_len := Z.lor (Z.shiftl (at_ buf 0) 8) (at_ buf 1) in
      let last_track := at_ buf 3 in
      if toc_len <? 2 then (ODFS_ERR_BAD_FORMAT, toc, s)
      else if TOC_SIZE <? toc_len + 2 then (ODFS_ERR_BAD_FORMAT, toc, s)
      else if negb (r_scsi_actual r =? 0) && (r_scsi_actual r <? toc_len + 2) then (ODFS_ERR_BAD_FORMAT, toc, s)
      else
        let ndesc := (toc_len + 2 - 4) / 8 in
        let '(tracks, leadout) := toc_descriptors (Z.to_nat ndesc) 0 buf [] 0 in
        let tracks := toc_lengths tracks leadout in
        let toc := mk_toc 1 last_track (zlen tracks) leadout (splice (sessions toc_zero) 0 tracks) in
        if zlen tracks =? 0 then (ODFS_ERR_BAD_FORMAT, toc, s)
        else (ODFS_OK, toc, if toc_passthrough s <? 1 then set_toc 1 s else s).
(** [alloc] says whether the memory for the packs can be had. *)
(* [src: platform/amiga/handler_main.c:1272-1387 amiga_read_cdtext] *)
Definition amiga_read_cdtext (alloc : bool) s : odfs_err * list Z * state :=
  if cdtext_passthrough s =? 0 then (ODFS_ERR_UNSUPPORTED, [], s)
  else
    let refuse r s := (ODFS_ERR_UNSUPPORTED, @nil Z, if scsi_is_unsupported_command (r_sense r) then set_cdtext 0 s else s) in
    let '(r, hdr, s) := scsi_do s [0x43; 0; 0x05; 0; 0; 0; 0; 0; 4; 0] (replicate 4 0) in
    if failed r then refuse r s
    else
      let data_len := Z.lor (Z.shiftl (at_ hdr 0) 8) (at_ hdr 1) in
      let total_len := data_len + 2 in
      if total_len <=? 4 then (ODFS_ERR_BAD_FORMAT, [], s)
      else if 65535 <? total_len then (ODFS_ERR_BAD_FORMAT, [], s)
      else if negb alloc then (ODFS_ERR_NOMEM, [], s)
      else
        let '(r, buf, s) := scsi_do s [0x43; 0; 0x05; 0; 0; 0; 0; u8 (Z.shiftr total_len 8); u8 total_len; 0] (replicate (Z.to_nat total_len) 0) in
        if failed r || (r_scsi_actual r <? 4) then refuse r s
        else (ODFS_OK, take (Z.to_nat (r_scsi_actual r)) buf, if cdtext_passthrough s <? 1 then set_cdtext 1 s else s).
(** Whether the drive took the block length. *)
(* [src: platform/amiga/handler_main.c:1406-1453 scsi_mode_select] *)
Definition scsi_mode_select s (block_length : Z) : bool * state :=
  let mode_data := [0; 0; 0; 8; 0; 0; 0; 0; 0; u8 (Z.shiftr block_length 16); u8 (Z.shiftr block_length 8); u8 block_length] in
  let '(r, s) := do_io s (IoScsi [0x15; 0x10; 0; 0; 12; 0] 12 mode_data) in
  (negb (failed r), s).

(** A read that has not ended has no result; the table calls it an error. *)
Definition settle {A} (m : outcome A) (a : A) : A := match m with Ret a => a | _ => a end.
(** [where_] gives the address of the buffer of a read, which the callers do not tell. *)
(* [src: platform/amiga/handler_main.c:1455-1468 amiga_media_ops] *)
Definition amiga_media_ops (where_ : state → Z → Z → Z) (alloc : bool) : odfs_media_ops state :=
  mk_media_ops state
    (λ s lba count buf, settle (amiga_read_sectors (where_ s lba count) s lba count buf) (ODFS_ERR_IO, buf, s))
    (λ _, sector_size conf) (λ _, 0) (Some amiga_read_toc) (Some amiga_read_last_session_lba) (Some amiga_read_audio) (Some (amiga_read_cdtext alloc)) (Some (λ s, s)).
End amiga.
