(* ===== verification/AmigaMediaSpec.v ===== *)
(** * The Amiga drive shows the disc

    Whatever path a read takes (the bounce buffer or the caller's, 32-bit, 64-bit or SCSI
    commands, in one request or several), the bytes are those of the disc.  What the
    drivers document is [Drive]. *)
From S2P Require Import Prelude Types Media BlockCache BlockCacheProofs BlockCacheRead BlockCacheSpec AmigaMedia.
Open Scope Z_scope.

(** ** What a driver promises *)

(** The byte offset of a read: 32 bits, or 64. *)
Definition byte_offset (command : io_command) (offset actual : Z) : Z :=
  match command with CMD_READ => offset | _ => actual * 2 ^ 32 + offset end.
(** A read that a driver reports as whole has transferred the bytes from the offset on;
    READ(10), on a disc of 2048-byte blocks, the blocks it names, of which there are 2 ^ 16
    at most. *)
Class Drive {D} (DoIO : D → io_request → io_reply * D) (img : Z → list Z) (ss : Z) : Prop := {
  dr_length : ∀ l, zlen (img l) = ss;
  dr_size : 0 < ss < 2 ^ 32;
  dr_read : ∀ d command offset actual n r d', DoIO d (IoStd command offset actual n) = (r, d') → 0 ≤ offset < 2 ^ 32 → 0 ≤ actual < 2 ^ 32 → 0 ≤ n →
    r_rc r = 0 → r_error r = 0 → r_actual r = n → take (Z.to_nat n) (r_data r) = disc_bytes img ss (byte_offset command offset actual) n;
  dr_read10 : ∀ d lba blocks n r d', DoIO d (IoScsi (read10_cdb lba blocks) n []) = (r, d') → ss = 2048 → 0 ≤ lba < 2 ^ 32 → 0 ≤ blocks →
    r_rc r = 0 → r_status r = 0 → r_scsi_actual r ≤ (blocks mod 2 ^ 16) * 2048 ∧
      (r_scsi_actual r = n → take (Z.to_nat n) (r_data r) = disc_bytes img ss (lba * 2048) n) }.
(** A drive without errors, that knows the 64-bit command. *)
Definition healthy {D} (DoIO : D → io_request → io_reply * D) : Prop :=
  ∀ d command offset actual n, command ≠ NSCMD_TD_READ64 → let r := (DoIO d (IoStd command offset actual n)).1 in r_rc r = 0 ∧ r_error r = 0 ∧ r_actual r = n.
(** The limits are whole sectors, as [amiga_init_max_transfer] and the allocation of the
    bounce buffer make them. *)
Record conf_ok (conf : amiga_conf) : Prop := {
  co_size : 0 < sector_size conf;
  co_dma : ∃ k, 0 < k ∧ dma_buf_size conf = k * sector_size conf;
  co_blocks : 0 < max_transfer_blocks conf;
  co_max : max_transfer conf = max_transfer_blocks conf * sector_size conf;
  co_scsi : scsi_reads conf = true → sector_size conf = 2048 }.
Lemma init_max_transfer_ok m ss : 0 ≤ m → 0 < ss < 2 ^ 32 → let '(blocks, max) := amiga_init_max_transfer m ss in
  0 < blocks ∧ max = blocks * ss ∧ max < 2 ^ 32 ∧ (0 < m → ss ≤ m → max ≤ m).
Proof.
  intros Hm Hs. unfold amiga_init_max_transfer, UINT32_MAX. set (x := if 2 ^ 32 - 1 <? m then 2 ^ 32 - 1 else u32 m). assert (Hx : 0 ≤ x < 2 ^ 32 ∧ x ≤ m) by (unfold x; case_test; b2p; [lia|]; rewrite u32_small by (unfold is_u32; lia); lia).
  set (y := if x =? 0 then 0xffffffff else x). assert (Hy : 0 < y < 2 ^ 32 ∧ (0 < m → y ≤ m)).
  { unfold y. case_test; b2p; [|lia]. split; [lia|]. intros ?. unfold x in *. destruct (2 ^ 32 - 1 <? m) eqn:E'; b2p; [lia|]. rewrite u32_small in E by (unfold is_u32; lia). lia. }
  cbv zeta. fold x. fold y. destruct (y / ss =? 0) eqn:E; b2p.
  - apply Z.div_small_iff in E; [|lia]. assert (y < ss) by lia. rewrite Z.mul_1_l, u32_small by (unfold is_u32; lia). repeat split; lia.
  - pose proof (Z.div_pos y ss ltac:(lia) ltac:(lia)). pose proof (Z.mul_div_le y ss ltac:(lia)).  rewrite u32_small by (unfold is_u32; nia). repeat split; try lia.
Qed.

(** ** Buffers *)

Lemma length_device_store buf off src : 0 ≤ off → length (store buf off src) = length buf.
Proof. intros. unfold store. rewrite length_take. unfold splice. rewrite !length_app, length_take, length_drop. lia. Qed.
Lemma store_front buf src : zlen src ≤ zlen buf → store buf 0 src = src ++ drop (length src) buf.
Proof. intros. unfold store, splice. change (Z.to_nat 0) with 0%nat. rewrite take_0, Nat.add_0_l. cbn [app]. apply take_ge. rewrite length_app, length_drop. lia. Qed.
Lemma slice_store buf src n : zlen src = n → n ≤ zlen buf → slice (store buf 0 src) 0 n = src.
Proof. intros <- ?. rewrite store_front by done. rewrite slice_app_l by lia. by apply slice_all. Qed.
Lemma length_array n l : 0 ≤ n → zlen (array n l) = n.
Proof. intros. unfold array. rewrite length_take, length_app, length_replicate. lia. Qed.
Lemma length_splice_slice {A} (buf part : list A) off n : 0 ≤ off → length part = length (slice buf off n) → length (splice buf off part) = length buf.
Proof. intros Ho Hp. unfold slice in Hp. rewrite length_take, length_drop in Hp. unfold splice. rewrite !length_app, length_take, length_drop. lia. Qed.
Lemma splice_twice {A} (buf a b : list A) off : 0 ≤ off → off + zlen a + zlen b ≤ zlen buf → splice (splice buf off a) (off + zlen a) b = splice buf off (a ++ b).
Proof.
  intros Ho Hl. unfold splice at 1. rewrite Z2Nat.inj_add, Nat2Z.id by lia. rewrite take_splice by lia. unfold splice. rewrite <- !app_assoc. do 3 f_equal.
  rewrite !length_app, app_assoc, drop_app_ge; rewrite length_app, length_take; [|lia]. rewrite drop_drop. f_equal. lia.
Qed.
Lemma splice_nil {A} (buf : list A) off : 0 ≤ off → splice buf off [] = buf.
Proof. intros. unfold splice. cbn [app length]. rewrite Nat.add_0_r. apply take_drop. Qed.

Section reads.
Context {D : Type} (DoIO : D → io_request → io_reply * D) (word : Z) (conf : amiga_conf) (MemList : list mem_header) (TypeOfMem : Z → Z).
Abbreviation state := (amiga_state D) (only parsing).
Abbreviation read_lo := (amiga_read_lo DoIO conf).
Abbreviation read_hi := (amiga_read_hi DoIO).
Abbreviation part := (read_part DoIO conf).

(** *** Lengths *)
Lemma read10_length s lba bytes buf e x b s' : scsi_read10 DoIO s lba bytes buf = (e, x, b, s') → length b = length buf.
Proof. unfold scsi_read10. destruct (do_io _ _ _) as [r s1]. case_test; intros [= <- <- <- <-]; by apply length_device_store. Qed.
Lemma read10_data_length s lba bytes buf e b s' : scsi_read10_data DoIO s lba bytes buf = (e, b, s') → length b = length buf.
Proof. unfold scsi_read10_data. destruct (do_io _ _ _) as [r s1]. case_test; intros [= <- <- <-]; by apply length_device_store. Qed.
Lemma read_lo_length sc s lba bytes buf e b s' : read_lo sc s lba bytes buf = (e, b, s') → length b = length buf.
Proof.
  unfold amiga_read_lo. set (first := if sc && (bytes <=? 65535 * 2048) then _ else _). assert (Hf : length first.1.2 = length buf).
  { unfold first. case_test; [|done]. destruct (scsi_read10_data _ _ _ _ _) as [[e1 b1] s1] eqn:E1. simpl. by eapply read10_data_length. }
  destruct first as [[e1 b1] s1]. simpl in Hf. case_test; [by intros [= <- <- <-]|]. destruct (do_io _ _ _) as [r s2]. case_test; intros [= <- <- <-]; by rewrite length_device_store.
Qed.
Lemma read_hi_loop_length n : ∀ s mode probing lba bytes buf x e b s', read_hi_loop DoIO n s mode probing lba bytes buf x = Ret (e, b, s') → length b = length buf.
Proof.
  induction n as [|n IH]; intros s mode probing lba bytes buf x e b s'; [done|]. cbn [read_hi_loop].
  set (first := if (mode =? ODFS_READ64_TD64) || (mode =? ODFS_READ64_NSD) then _ else _). assert (Hf : length first.1.2 = length buf).
  { unfold first. case_test.
    - destruct (do_io _ _ _) as [r s1]. case_test; simpl; by rewrite length_device_store.
    - destruct (scsi_read10 _ _ _ _ _) as [[[e1 x1] b1] s1] eqn:E1. simpl. by eapply read10_length. }
  destruct first as [[[e1 x1] b1] s1]. simpl in Hf. rewrite <- Hf. case_test; [by intros [= <- <- <-]|]. case_test; [apply IH|]. case_test; by intros [= <- <- <-].
Qed.
Lemma read_part_length s lba bytes buf e b s' : part s lba bytes buf = Ret (e, b, s') → length b = length buf.
Proof.
  unfold read_part. case_test; [|by intros [= H]; eapply read_lo_length].
  unfold amiga_read_hi. case_test; [by intros [= <- <- <-]|apply read_hi_loop_length].
Qed.
Lemma read_direct_length n : ∀ s lba bytes buf off e b s', 0 ≤ off → 0 ≤ max_transfer conf → amiga_read_direct DoIO conf n s lba bytes buf off = Ret (e, b, s') → length b = length buf.
Proof.
  induction n as [|n IH]; intros s lba bytes buf off e b s' Ho Hm; [done|]. cbn [amiga_read_direct]. destruct (0 <? bytes) eqn:Eb; [|by intros [= <- <- <-]]. b2p. set (chunk := if bytes <? max_transfer conf then bytes else max_transfer conf).
  assert (Hch : 0 ≤ chunk) by (unfold chunk; case_test; lia). destruct (part _ _ _ _) as [[[e1 b1] s1]| |] eqn:E1; [|done..]. cbn [mbind outcome_bind]. apply read_part_length in E1.
  assert (Hl : length (splice buf off b1) = length buf) by by eapply length_splice_slice. case_test; [by intros [= <- <- <-]|]. intros H. apply IH in H; [by rewrite H|lia|done].
Qed.
Lemma read_bounce_length n : ∀ s lba total done buf e b s', 0 ≤ done → read_bounce DoIO conf n s lba total done buf = Ret (e, b, s') → length b = length buf.
Proof.
  induction n as [|n IH]; intros s lba total dn buf e b s' Ho; [done|]. cbn [read_bounce]. case_test; [|by intros [= <- <- <-]].
  destruct (part _ _ _ _) as [[[e1 b1] s1]| |]; [|done..]. cbn [mbind outcome_bind]. case_test; [by intros [= <- <- <-]|]. intros H. apply IH in H; [by rewrite H, length_device_store|]. apply u32_range.
Qed.
Lemma read_sectors_length addr s lba count buf e b s' : 0 ≤ max_transfer conf → amiga_read_sectors DoIO word conf MemList TypeOfMem addr s lba count buf = Ret (e, b, s') → length b = length buf.
Proof. intros Hm. unfold amiga_read_sectors. destruct (amiga_can_read_direct _ _ _ _ _ _ _) as [[] s1]; intros Hx; [eapply read_direct_length in Hx|eapply read_bounce_length in Hx]; done. Qed.

(** *** Contents *)
Context (img : Z → list Z) `{!Drive DoIO img (sector_size conf)} (Hconf : conf_ok conf).
Abbreviation ss := (sector_size conf).
Lemma prepared_is_read10 lba blocks : zset (zset (splice prepared_cdb 2 (lba_be lba)) 7 (u8 (Z.shiftr blocks 8))) 8 (u8 blocks) = read10_cdb lba blocks.
Proof. done. Qed.
(** Where the bytes of [lba] are, and which sectors can be addressed. *)
Definition addressable (lba : Z) : Prop := ss = 2048 ∨ lba * ss < 2 ^ 32.
(** A whole number of sectors, in a buffer. *)
Record request (lba bytes : Z) (buf : list Z) : Prop := {
  rq_lba : 0 ≤ lba < 2 ^ 32; rq_bytes : 0 < bytes < 2 ^ 32; rq_whole : bytes mod ss = 0; rq_fits : bytes ≤ zlen buf; rq_reach : addressable lba }.
Definition reads (lba bytes : Z) (buf b : list Z) : Prop := slice b 0 bytes = disc_bytes img ss (lba * ss) bytes.
Lemma std_reads command lba bytes buf d r d' offset actual : request lba bytes buf → DoIO d (IoStd command offset actual bytes) = (r, d') → byte_offset command offset actual = lba * ss → 0 ≤ offset < 2 ^ 32 → 0 ≤ actual < 2 ^ 32 →
  r_rc r = 0 → r_error r = 0 → r_actual r = bytes → reads lba bytes buf (store buf 0 (take (Z.to_nat bytes) (r_data r))).
Proof.
  intros [Hl Hb Hw Hf Hre] HD Ho ? ? ? ? ?. unfold reads. rewrite (dr_read (Drive := _) _ _ _ _ _ _ _ HD) by (done || lia). rewrite Ho. apply slice_store; [rewrite length_disc_bytes; lia|lia].
Qed.
Lemma read10_reads lba bytes buf d r d' : request lba bytes buf → ss = 2048 → DoIO d (IoScsi (read10_cdb lba (bytes / 2048)) bytes []) = (r, d') → r_rc r = 0 → r_status r = 0 → r_scsi_actual r = bytes →
  reads lba bytes buf (store buf 0 (take (Z.to_nat bytes) (r_data r))).
Proof.
  intros [Hl Hb Hw Hf Hre] Hss HD Hrc Hst Ha. destruct (dr_read10 (Drive := _) _ _ _ _ _ _ HD Hss Hl ltac:(dlia) Hrc Hst) as [_ Hd]. unfold reads. rewrite (Hd Ha), Hss. apply slice_store; [rewrite length_disc_bytes; lia|lia].
Qed.
Lemma negb_or3 a b c : negb a || negb b || negb c = false → a = true ∧ b = true ∧ c = true.
Proof. by destruct a, b, c. Qed.
Lemma read_lo_reads sc s lba bytes buf e b s' : request lba bytes buf → (ss = 2048 → lba < 2 ^ 21) → (sc = true → ss = 2048) → read_lo sc s lba bytes buf = (e, b, s') →
  (e = ODFS_OK → reads lba bytes buf b) ∧ (healthy DoIO → e = ODFS_OK).
Proof.
  intros Hr Hlo Hsc. unfold amiga_read_lo. set (first := if sc && (bytes <=? 65535 * 2048) then _ else _).
  assert (Hf : length first.1.2 = length buf ∧ (first.1.1 = ODFS_OK → reads lba bytes buf first.1.2)).
  { unfold first. destruct (sc && _) eqn:Esc; [|done]. apply andb_true_iff in Esc as [Esc Eb]. b2p. destruct (scsi_read10_data _ _ _ _ _) as [[e1 b1] s1] eqn:E1. simpl. split; [by eapply read10_data_length|].
    unfold scsi_read10_data in E1. rewrite prepared_is_read10 in E1. destruct (do_io DoIO s _) as [r s2] eqn:Ed. unfold do_io in Ed. destruct (DoIO (device s) _) as [r0 d'] eqn:HD. injection Ed as -> <-. destruct (negb _ || _ || _) eqn:Et; [by injection E1 as <- <- <-|].
    apply negb_or3 in Et as (? & ? & ?). b2p. injection E1 as <- <- <-. intros _. rewrite Z.shiftr_div_pow2 in HD by lia. change (2 ^ 11) with 2048 in HD. by eapply read10_reads; eauto. }
  destruct first as [[e1 b1] s1]. simpl in Hf. destruct Hf as [Hl Hf]. destruct (err_ok e1) eqn:Ee; [intros [= <- <- <-]; split; [|done]; apply err_ok_true in Ee; auto|].
  set (offset := if ss =? 2048 then _ else _). assert (Ho : offset = lba * ss ∧ 0 ≤ lba * ss < 2 ^ 32).
  { pose proof (rq_lba _ _ _ Hr). pose proof (co_size _ Hconf). unfold offset. destruct (ss =? 2048) eqn:Es; b2p.
    - rewrite Es, Z.shiftl_mul_pow2 by lia. specialize (Hlo Es). rewrite u32_small by (unfold is_u32; lia). lia.
    - destruct (rq_reach _ _ _ Hr) as [?|?]; [done|]. rewrite u32_small by (unfold is_u32; nia). nia. }
  destruct (do_io DoIO s1 _) as [r s2] eqn:Ed. unfold do_io in Ed. destruct (DoIO (device s1) _) as [r0 d'] eqn:HD. injection Ed as -> <-. assert (Hr1 : request lba bytes b1) by (destruct Hr; split; try done; by rewrite Hl).
  destruct (negb _ || _ || _) eqn:Et; intros [= <- <- <-].
  - split; [done|]. intros Hh. specialize (Hh (device s1) CMD_READ offset 0 bytes ltac:(done)). rewrite HD in Hh. simpl in Hh. destruct Hh as (Hh1 & Hh2 & Hh3). by rewrite Hh1, Hh2, Hh3, !Z.eqb_refl in Et.
  - apply negb_or3 in Et as (? & ? & ?). b2p. split; [|done]. intros _. unfold reads. rewrite <- (std_reads CMD_READ lba bytes b1 _ _ _ _ _ Hr1 HD); [done|simpl; lia|lia|lia|done|done|done].
Qed.
Lemma read_hi_loop_reads n : ∀ s mode probing lba bytes buf x, (mode = 1 ∧ n = 3%nat ∨ mode = 2 ∧ n = 2%nat ∨ mode = 3 ∧ n = 1%nat ∨ probing = false ∧ 0 < Z.of_nat n) → ss = 2048 → request lba bytes buf →
  yields (read_hi_loop DoIO n s mode probing lba bytes buf x) (λ '(e, b, s'), (e = ODFS_OK → reads lba bytes buf b) ∧ (healthy DoIO → mode = 1 → e = ODFS_OK ∧ read64_mode s' = if probing then mode else read64_mode s)).
Proof.
  induction n as [|n IH]; intros s mode probing lba bytes buf x Hmode Hss Hr; [lia|]. cbn [read_hi_loop].
  set (first := if (mode =? ODFS_READ64_TD64) || (mode =? ODFS_READ64_NSD) then _ else _).
  assert (Hf : length first.1.2 = length buf ∧ (first.1.1.1 = ODFS_OK → reads lba bytes buf first.1.2) ∧ (healthy DoIO → mode = 1 → first.1.1.1 = ODFS_OK ∧ read64_mode first.2 = read64_mode s)).
  { pose proof (rq_lba _ _ _ Hr) as Hlba. unfold first, ODFS_READ64_TD64, ODFS_READ64_NSD. destruct ((mode =? 1) || (mode =? 2)) eqn:Em.
    - destruct (do_io DoIO s _) as [r s1] eqn:Ed. unfold do_io in Ed. destruct (DoIO (device s) _) as [r0 d'] eqn:HD. injection Ed as -> <-. split; [case_test; simpl; by apply length_device_store|].
      assert (Hoff : byte_offset (if mode =? 1 then TD_READ64 else NSCMD_TD_READ64) (u32 (Z.shiftl lba 11)) (Z.shiftr lba 21) = lba * ss).
      { transitivity (Z.shiftr lba 21 * 2 ^ 32 + u32 (Z.shiftl lba 11)); [by case_test|]. rewrite Hss. unfold u32. rewrite Z.shiftl_mul_pow2, Z.shiftr_div_pow2 by lia. dlia. }
      split.
      + destruct (_ && _ && _) eqn:Et; [|done]. b2p. intros _. simpl. eapply std_reads; [done|exact HD|done| |rewrite Z.shiftr_div_pow2 by lia; dlia|done|done|done]. apply u32_range.
      + intros Hh Hm. replace (if mode =? ODFS_READ64_TD64 then TD_READ64 else NSCMD_TD_READ64) with TD_READ64 in HD by (by rewrite Hm). specialize (Hh (device s) TD_READ64 (u32 (Z.shiftl lba 11)) (Z.shiftr lba 21) bytes ltac:(done)). rewrite HD in Hh. simpl in Hh. destruct Hh as (-> & -> & ->). by rewrite !Z.eqb_refl.
    - destruct (scsi_read10 _ _ _ _ _) as [[[e1 x1] b1] s1] eqn:E1. split; [simpl; by eapply read10_length|]. split; [|intros _ ->; done]. simpl. unfold scsi_read10 in E1.
      destruct (do_io DoIO s _) as [r s2] eqn:Ed. unfold do_io in Ed. destruct (DoIO (device s) _) as [r0 d'] eqn:HD. injection Ed as -> <-. destruct (negb _ || _ || _ || _) eqn:Et; [by injection E1 as <- <- <- <-|].
      apply orb_false_iff in Et as [Et Ha]. apply negb_or3 in Et as (? & ? & ?). b2p. injection E1 as <- <- <- <-. intros _. by eapply read10_reads. }
  destruct first as [[[e1 x1] b1] s1]. simpl in Hf. destruct Hf as (Hl & Hf & Hh). destruct (err_ok e1) eqn:Ee; [apply err_ok_true in Ee; apply yields_ret; split; [auto|intros Hx1 Hx2; destruct (Hh Hx1 Hx2) as [_ Hx3]; split; [done|by case_test]]|].
  assert (Hnh : healthy DoIO → mode = 1 → False) by (intros Hx1 Hx2; destruct (Hh Hx1 Hx2) as [Hx3 _]; rewrite Hx3 in Ee; done).
  destruct (probing && _ && _) eqn:Ec.
  - b2p. eapply yields_weaken; [apply (IH s1 (mode + 1) probing lba bytes b1 x1); [|done|destruct Hr; split; try done; by rewrite Hl]|].
    + unfold ODFS_READ64_SCSI in *. destruct Hmode as [[-> ?]|[[-> ?]|[[-> ?]|[? ?]]]]; [right; left; lia|right; right; left; lia|done|congruence].
    + intros [[e b] s'] [Hx1 _]. split; [exact Hx1|]. intros Hhe Hm. by destruct (Hnh Hhe Hm).
  - case_test; apply yields_ret; (split; [done|]); intros Hhe Hm; by destruct (Hnh Hhe Hm).
Qed.
Lemma read_lo_mode sc s lba bytes buf : read64_mode (read_lo sc s lba bytes buf).2 = read64_mode s.
Proof.
  assert (Hdo : ∀ s r, read64_mode (do_io DoIO s r).2 = read64_mode s) by (intros s1 r; unfold do_io; by destruct (DoIO _ _)).
  unfold amiga_read_lo. set (first := if sc && (bytes <=? 65535 * 2048) then _ else _). assert (Hf : read64_mode first.2 = read64_mode s).
  { unfold first. case_test; [|done]. unfold scsi_read10_data. set (rq := IoScsi _ _ _). specialize (Hdo s rq). destruct (do_io DoIO s rq) as [r s1]. by case_test. }
  destruct first as [[e1 b1] s1]. simpl in Hf. case_test; [done|]. set (rq := IoStd _ _ _ _). specialize (Hdo s1 rq). destruct (do_io DoIO s1 rq) as [r s2]. simpl in Hdo. case_test; simpl; congruence.
Qed.
(** The 64-bit command is known to work, or not tried yet. *)
Definition mode_good (s : amiga_state D) : Prop := read64_mode s = 0 ∨ read64_mode s = 1.
Lemma read_part_reads s lba bytes buf : request lba bytes buf →
  yields (part s lba bytes buf) (λ '(e, b, s'), (e = ODFS_OK → reads lba bytes buf b) ∧ (healthy DoIO → mode_good s → e = ODFS_OK ∧ mode_good s')).
Proof.
  intros Hr. pose proof (rq_lba _ _ _ Hr) as Hlba. unfold read_part, mode_good. destruct (_ && _) eqn:E.
  - b2p. unfold amiga_read_hi, ODFS_READ64_NONE, ODFS_READ64_UNPROBED, ODFS_READ64_TD64. destruct (read64_mode s =? -1) eqn:En; b2p; [apply yields_ret; split; [done|intros _ [?|?]; lia]|].
    eapply yields_weaken; [apply (read_hi_loop_reads 3); [|done|done]|].
    + destruct (read64_mode s =? 0) eqn:E0; b2p; [left; lia|]. right; right; right. split; [done|lia].
    + intros [[e b] s'] [Hx1 Hx2]. split; [done|]. intros Hh Hmode. destruct (Hx2 Hh) as [He Hs']; [case_test; b2p; lia|]. split; [done|]. rewrite Hs'. destruct (read64_mode s =? 0) eqn:E0; [by right|b2p; lia].
  - pose proof (read_lo_mode (scsi_reads conf) s lba bytes buf) as Hmd. destruct (read_lo _ _ _ _ _) as [[e b] s'] eqn:El. simpl in Hmd. apply yields_ret.
    destruct (read_lo_reads _ _ _ _ _ _ _ _ Hr ltac:(intros Hs; rewrite Hs, Z.shiftr_div_pow2 in E by lia; change (2048 =? 2048) with true in E; destruct (lba / 2 ^ 21 =? 0) eqn:Ez; [b2p; dlia|done]) (co_scsi _ Hconf) El) as [Hx1 Hx2].
    split; [done|]. intros Hh Hg. rewrite Hmd. split; [by apply Hx2|done].
Qed.
(** [bytes] from sector [lba] on lie on a disc of [2 ^ 32] sectors, where they can be reached. *)
Definition range_ok (lba bytes : Z) : Prop := 0 ≤ lba ∧ 0 ≤ bytes < 2 ^ 32 ∧ bytes mod ss = 0 ∧ lba * ss + bytes ≤ 2 ^ 32 * ss ∧ (ss = 2048 ∨ lba * ss + bytes ≤ 2 ^ 32).
Lemma range_first lba bytes n buf : range_ok lba bytes → 0 < n ≤ bytes → n mod ss = 0 → n ≤ zlen buf → request lba n buf.
Proof.
  intros (Hl & Hb & Hm & Hd & Hr) Hn Hnm Hf. pose proof (co_size _ Hconf). split; try done; [nia|lia|]. destruct Hr as [?|?]; [by left|right; lia].
Qed.
Lemma range_rest lba bytes n : range_ok lba bytes → 0 ≤ n < bytes → n mod ss = 0 → range_ok (lba + n / ss) (bytes - n) ∧ (lba + n / ss) * ss = lba * ss + n ∧ u32 (lba + n / ss) = lba + n / ss.
Proof.
  intros (Hl & Hb & Hm & Hd & Hr) Hn Hnm. pose proof (co_size _ Hconf). assert (Hn' : n = ss * (n / ss)) by (rewrite (Z.div_mod n ss) at 1 by lia; lia). pose proof (Z.div_pos n ss ltac:(lia) ltac:(lia)). assert (Hq : (lba + n / ss) * ss = lba * ss + n) by nia.
  split; [|split; [done|apply u32_small; unfold is_u32; nia]]. split; [lia|]. split; [lia|]. split; [rewrite Zminus_mod, Hm, Hnm; by rewrite Z.mod_0_l by lia|]. rewrite Hq. split; [lia|]. destruct Hr; [by left|right; lia].
Qed.
Lemma read_direct_reads n : ∀ s lba bytes buf off, range_ok lba bytes → 0 ≤ off → off + bytes ≤ zlen buf → bytes < Z.of_nat n →
  yields (amiga_read_direct DoIO conf n s lba bytes buf off) (λ '(e, b, s'),
    (e = ODFS_OK → b = splice buf off (disc_bytes img ss (lba * ss) bytes)) ∧ (healthy DoIO → mode_good s → e = ODFS_OK ∧ mode_good s')).
Proof.
  induction n as [|n IH]; intros s lba bytes buf off Hr Ho Hf Hn; [destruct Hr as (_ & ? & _); lia|]. cbn [amiga_read_direct]. pose proof (co_size _ Hconf) as Hss. pose proof (co_blocks _ Hconf) as Hblk. pose proof (co_max _ Hconf) as Hmax.
  destruct (0 <? bytes) eqn:Eb; b2p; [|apply yields_ret; assert (bytes = 0) as -> by (destruct Hr as (_ & ? & _); lia); split; [intros _; change (disc_bytes img ss (lba * ss) 0) with (@nil Z); by rewrite splice_nil|done]].
  set (chunk := if bytes <? max_transfer conf then bytes else max_transfer conf).
  assert (Hc : 0 < chunk ≤ bytes ∧ chunk mod ss = 0 ∧ (chunk < bytes → chunk = max_transfer_blocks conf * ss)).
  { unfold chunk. destruct (bytes <? max_transfer conf) eqn:E; b2p; [destruct Hr as (_ & _ & ? & _); repeat split; try done; lia|]. split; [nia|]. split; [rewrite Hmax; by rewrite Z.mod_mul by lia|done]. }
  destruct Hc as (Hc & Hcm & Hcl). assert (Hsl : zlen (slice buf off chunk) = chunk) by (rewrite length_slice by lia; lia).
  pose proof (range_first lba bytes chunk (slice buf off chunk) Hr Hc Hcm ltac:(lia)) as Hrq. destruct (read_part_reads s lba chunk (slice buf off chunk) Hrq) as ([[e b] s1] & E1 & Hok & Hh). rewrite E1. cbn [mbind outcome_bind]. apply read_part_length in E1.
  destruct (err_ok e) eqn:Ee; cbn [negb]; cbv iota; [|apply yields_ret; split; [done|]; intros Hx1 Hx2; destruct (Hh Hx1 Hx2) as [-> _]; done].
  apply err_ok_true in Ee. specialize (Hok Ee). assert (Hlb : zlen b = chunk) by lia. unfold reads in Hok. rewrite slice_all in Hok by lia. subst b. pose proof (length_disc_bytes img ss (lba * ss) chunk ltac:(lia)) as Hld.
  destruct (decide (chunk = bytes)) as [Hcb|Hcb].
  - rewrite Hcb, Z.sub_diag. destruct n as [|n]; [lia|]. cbn [amiga_read_direct]. change (0 <? u32 0) with false. cbv iota. apply yields_ret. split; [done|]. intros Hx1 Hx2. split; [done|]. by apply Hh.
  - destruct (range_rest lba bytes chunk Hr ltac:(lia) Hcm) as (Hr' & Hq & Hu). rewrite Hcl, Z.div_mul in Hr', Hq, Hu by lia. rewrite Hu. rewrite (u32_small (bytes - chunk)) by (destruct Hr as (_ & ? & _); unfold is_u32; lia). rewrite <- Hcl in Hr' at 1 by lia.
    replace (bytes - max_transfer_blocks conf * ss) with (bytes - chunk) in Hr' by lia.
    eapply yields_weaken; [apply IH; [exact Hr'|lia|rewrite length_splice; lia|lia]|]. intros [[e' b'] s'] [Hx1 Hx2]. split.
    + intros He. rewrite (Hx1 He), Hq. rewrite <- Hcl by lia. replace (off + chunk) with (off + zlen (disc_bytes img ss (lba * ss) chunk)) by lia. rewrite splice_twice; [|lia|rewrite Hld, length_disc_bytes; lia]. rewrite <- disc_bytes_app by lia. do 2 f_equal. lia.
    + intros Hy1 Hy2. apply Hx2; [done|]. by apply Hh.
Qed.
Lemma range_at lba total dn : range_ok lba total → 0 ≤ dn < total → dn mod ss = 0 → range_ok (lba + dn / ss) (total - dn) ∧ (lba + dn / ss) * ss = lba * ss + dn ∧ u32 (lba + dn / ss) = lba + dn / ss.
Proof. apply range_rest. Qed.
Lemma store_splice buf off src : 0 ≤ off → off + zlen src ≤ zlen buf → store buf off src = splice buf off src.
Proof. intros. unfold store. apply take_ge. rewrite length_splice by lia. lia. Qed.
Lemma read_bounce_reads n : ∀ s lba total dn buf, range_ok lba total → 0 ≤ dn ≤ total → dn mod ss = 0 → total ≤ zlen buf → total - dn < Z.of_nat n →
  yields (read_bounce DoIO conf n s lba total dn buf) (λ '(e, b, s'),
    (e = ODFS_OK → b = splice buf dn (disc_bytes img ss (lba * ss + dn) (total - dn))) ∧ (healthy DoIO → mode_good s → e = ODFS_OK ∧ mode_good s')).
Proof.
  induction n as [|n IH]; intros s lba total dn buf Hr Hd Hdm Hf Hn; [lia|]. cbn [read_bounce]. pose proof (co_size _ Hconf) as Hss. pose proof (co_blocks _ Hconf) as Hblk. pose proof (co_max _ Hconf) as Hmax. destruct (co_dma _ Hconf) as (dk & Hdk & Hdma).
  assert (Ht : 0 ≤ total < 2 ^ 32 ∧ total mod ss = 0) by (destruct Hr as (_ & ? & ? & _); done). destruct Ht as [Ht Htm].
  destruct (dn <? total) eqn:Eb; b2p; [|apply yields_ret; assert (dn = total) as -> by lia; split; [intros _; rewrite Z.sub_diag; change (disc_bytes img ss (lba * ss + total) 0) with (@nil Z); by rewrite splice_nil by lia|done]].
  destruct (range_at lba total dn Hr ltac:(lia) Hdm) as (Hr' & Hq & Hu). rewrite Hu. rewrite (u32_small (total - dn)) by (unfold is_u32; lia).
  set (c1 := if dma_buf_size conf <? total - dn then dma_buf_size conf else total - dn). set (chunk := if max_transfer conf <? c1 then max_transfer conf else c1).
  assert (Htd : (total - dn) mod ss = 0) by (rewrite Zminus_mod, Htm, Hdm; by rewrite Z.mod_0_l by lia).
  assert (Hc1 : 0 < c1 ≤ total - dn ∧ c1 ≤ dma_buf_size conf ∧ c1 mod ss = 0) by (unfold c1; destruct (dma_buf_size conf <? total - dn) eqn:Ec; b2p; repeat split; try done; try nia; try lia; rewrite Hdma; by rewrite Z.mod_mul by lia).
  assert (Hc : 0 < chunk ≤ total - dn ∧ chunk ≤ dma_buf_size conf ∧ chunk mod ss = 0) by (unfold chunk; destruct (max_transfer conf <? c1) eqn:Ec; b2p; repeat split; try lia; try nia; rewrite Hmax; by rewrite Z.mod_mul by lia).
  destruct Hc as (Hc & Hcd & Hcm). assert (Hdl : zlen (dma_buf conf s) = dma_buf_size conf) by (unfold dma_buf; rewrite length_array; lia).
  pose proof (range_first _ _ chunk (dma_buf conf s) Hr' Hc Hcm ltac:(lia)) as Hrq. destruct (read_part_reads s _ chunk (dma_buf conf s) Hrq) as ([[e b] s1] & E1 & Hok & Hh). rewrite E1. cbn [mbind outcome_bind]. apply read_part_length in E1.
  assert (Hg : ∀ b s, mode_good (set_dma b s) ↔ mode_good s) by done.
  destruct (err_ok e) eqn:Ee; cbn [negb]; cbv iota; [|apply yields_ret; split; [done|]; intros Hx1 Hx2; destruct (Hh Hx1 Hx2) as [-> _]; done].
  apply err_ok_true in Ee. specialize (Hok Ee). unfold reads in Hok. rewrite Hq in Hok. pose proof (length_disc_bytes img ss (lba * ss + dn) chunk ltac:(lia)) as Hld.
  assert (Hpiece : slice (dma_buf conf (set_dma b s1)) 0 chunk = disc_bytes img ss (lba * ss + dn) chunk).
  { unfold dma_buf, set_dma, dma_mem, array. rewrite take_app_le, take_ge by lia. exact Hok. }
  rewrite Hpiece. rewrite (u32_small (dn + chunk)) by (unfold is_u32; lia). rewrite store_splice by lia.
  assert (Hdm' : (dn + chunk) mod ss = 0) by (rewrite Zplus_mod, Hdm, Hcm; by rewrite Z.mod_0_l by lia).
  assert (Hfit : total ≤ zlen (splice buf dn (disc_bytes img ss (lba * ss + dn) chunk))) by (rewrite length_splice; lia).
  eapply yields_weaken; [exact (IH (set_dma b s1) lba total (dn + chunk) _ Hr ltac:(lia) Hdm' Hfit ltac:(lia))|]. intros [[e' b'] s'] [Hx1 Hx2]. split.
  - intros He. rewrite (Hx1 He). replace (dn + chunk) with (dn + zlen (disc_bytes img ss (lba * ss + dn) chunk)) at 1 by lia. rewrite splice_twice; [|lia|rewrite Hld, length_disc_bytes; lia].
    replace (lba * ss + (dn + chunk)) with (lba * ss + dn + chunk) by lia. rewrite <- disc_bytes_app by lia. do 2 f_equal. lia.
  - intros Hy1 Hy2. apply Hx2; [done|]. apply Hg. by apply Hh.
Qed.
Lemma can_read_direct_mode (s : amiga_state D) buf len n : read64_mode (amiga_can_read_direct word conf MemList TypeOfMem s buf len n).2 = read64_mode s.
Proof. unfold amiga_can_read_direct, amiga_direct_memtype_ok. repeat (case_match; try done). Qed.
Lemma read_sectors_reads addr s lba count buf : range_ok lba (count * ss) → 0 ≤ count → zlen buf = count * ss →
  yields (amiga_read_sectors DoIO word conf MemList TypeOfMem addr s lba count buf) (λ '(e, b, s'),
    length b = length buf ∧ (e = ODFS_OK → b = disc_sectors img lba count) ∧ (healthy DoIO → mode_good s → e = ODFS_OK ∧ mode_good s')).
Proof.
  intros Hr Hc Hl. pose proof (co_size _ Hconf) as Hss. pose proof (co_blocks _ Hconf) as Hblk. pose proof (co_max _ Hconf) as Hmax. unfold amiga_read_sectors. assert (Ht : 0 ≤ count * ss < 2 ^ 32) by (destruct Hr as (_ & ? & _); done).
  rewrite (u32_small (count * ss)) by done. pose proof (can_read_direct_mode s addr (count * ss) count) as Hmd. destruct (amiga_can_read_direct _ _ _ _ _ _ _ _) as [direct s1] eqn:Ed. simpl in Hmd.
  assert (Hwhole : ∀ b, b = splice buf 0 (disc_bytes img ss (lba * ss) (count * ss)) → b = disc_sectors img lba count).
  { intros b ->. rewrite (disc_sectors_bytes img ss) by (lia || apply (dr_length (Drive := _))). unfold splice. change (Z.to_nat 0) with 0%nat. rewrite take_0. cbn [app]. rewrite drop_ge, app_nil_r; [done|]. pose proof (length_disc_bytes img ss (lba * ss) (count * ss)). lia. }
  assert (Hg : mode_good s → mode_good s1) by (unfold mode_good; by rewrite Hmd).
  destruct direct.
  - destruct (read_direct_reads (S (Z.to_nat (count * ss))) s1 lba (count * ss) buf 0 Hr ltac:(lia) ltac:(lia) ltac:(lia)) as ([[e b] s'] & E & Hok & Hh). exists (e, b, s'). split; [exact E|]. apply read_direct_length in E; [|lia|nia]. split; [done|]. split; auto.
  - destruct (read_bounce_reads (S (Z.to_nat (count * ss))) s1 lba (count * ss) 0 buf Hr ltac:(lia) ltac:(by rewrite Z.mod_0_l by lia) ltac:(lia) ltac:(lia)) as ([[e b] s'] & E & Hok & Hh). exists (e, b, s'). split; [exact E|]. apply read_bounce_length in E; [|lia]. split; [done|]. rewrite Z.add_0_r, Z.sub_0_r in Hok. split; auto.
Qed.
End reads.

(** ** The medium *)

Lemma u8_mod x : u8 x = x mod 2 ^ 8. Proof. done. Qed.
Lemma be32_bytes x : 0 ≤ x < 2 ^ 32 → be32 (u8 (Z.shiftr x 24)) (u8 (Z.shiftr x 16)) (u8 (Z.shiftr x 8)) (u8 x) = x.
Proof.
  intros Hx. unfold be32. rewrite !u8_mod, !Z.shiftr_div_pow2 by lia. set (b3 := x mod 2 ^ 8). set (b2 := x / 2 ^ 8 mod 2 ^ 8). set (b1 := x / 2 ^ 16 mod 2 ^ 8). set (b0 := x / 2 ^ 24 mod 2 ^ 8).
  assert (Hb : 0 ≤ b0 < 256 ∧ 0 ≤ b1 < 256 ∧ 0 ≤ b2 < 256 ∧ 0 ≤ b3 < 256) by (unfold b0, b1, b2, b3; repeat split; apply Z.mod_pos_bound; lia).
  rewrite <- !Z.lor_assoc. rewrite (Z.lor_comm (Z.shiftl b0 24)), (Z.lor_comm (Z.shiftl b1 16)), (Z.lor_comm (Z.shiftl b2 8)).
  rewrite (lor_shiftl_add b3 b2 8) by lia. rewrite (lor_shiftl_add _ b1 16) by lia. rewrite (lor_shiftl_add _ b0 24) by lia. unfold b0, b1, b2, b3. dlia.
Qed.

(** A medium whose reads are refused outside a domain. *)
Definition within {M} (dom : Z → Z → bool) (ops : odfs_media_ops M) : odfs_media_ops M :=
  mk_media_ops M (λ m lba count buf, if dom lba count then read_sectors ops m lba count buf else (ODFS_ERR_RANGE, buf, m))
    (sector_size_op ops) (sector_count_op ops) (read_toc ops) (read_last_session_lba ops) (read_audio ops) (read_cdtext ops) (media_close ops).
(** Reads of less than 4 GiB; with sectors of other sizes than 2048, in the first 4 GiB. *)
Definition reachable (ss lba count : Z) : bool := (count * ss <? 2 ^ 32) && ((ss =? 2048) || (lba * ss + count * ss <=? 2 ^ 32)).

Lemma amiga_media_reads {D} (DoIO : D → io_request → io_reply * D) word conf MemList TypeOfMem where_ alloc img :
  conf_ok conf → Drive DoIO img (sector_size conf) →
  MediaReads (within (reachable (sector_size conf)) (amiga_media_ops DoIO word conf MemList TypeOfMem where_ alloc)) img (sector_size conf).
Proof.
  intros Hc Hd. pose proof (co_size _ Hc) as Hss. pose proof (co_blocks _ Hc). pose proof (co_max _ Hc). split; [done|apply (dr_length (Drive := Hd))|done| |].
  - intros s lba count buf err buf' s'. simpl. case_test; [|by intros [= <- <- <-]]. destruct (amiga_read_sectors _ _ _ _ _ _ _ _ _ _) as [[[e b] s1]| |] eqn:Er; simpl; intros [= <- <- <-]; try done. eapply read_sectors_length; [|exact Er]. nia.
  - intros s lba count buf buf' s' Hl Hn Hm Hb. simpl. case_test; [|done]. unfold reachable in E. b2p.
    assert (Hr : range_ok conf lba (count * sector_size conf)).
    { split; [done|]. split; [nia|]. split; [by rewrite Z.mod_mul by lia|]. split; [nia|]. destruct H2; b2p; [by left|by right]. }
    destruct (read_sectors_reads DoIO word conf MemList TypeOfMem img Hc (where_ s lba count) s lba count buf Hr Hn Hb) as ([[e b] s1] & Er & _ & Hok & _). rewrite Er. simpl. intros [= -> <- <-]. by apply Hok.
Qed.

(** Within the domain, the cache does the same over both. *)
Section cached.
Context {M : Type} (dom : Z → Z → bool) (ops : odfs_media_ops M).
Context (Hdom : ∀ lba count, 0 ≤ lba → 1 ≤ count ≤ ODFS_CACHE_READAHEAD → dom lba count = true).
Lemma within_read m lba count buf : dom lba count = true → odfs_media_read (within dom ops) m lba count buf = odfs_media_read ops m lba count buf.
Proof. intros H. unfold odfs_media_read. simpl. by rewrite H. Qed.
Lemma readahead_run_bound fuel c lba : ∀ run, 1 ≤ run ≤ ODFS_CACHE_READAHEAD → 1 ≤ readahead_run (M := M) fuel c lba run ≤ ODFS_CACHE_READAHEAD.
Proof. induction fuel as [|fuel IH]; intros run Hr; cbn [readahead_run]; [done|]. case_test; [|done]. b2p. apply IH. lia. Qed.
Lemma within_cache_read c lba : 0 ≤ lba → odfs_cache_read (within dom ops) c lba = odfs_cache_read ops c lba.
Proof.
  intros Hl. unfold odfs_cache_read. destruct (no_entries c); [done|]. cbv zeta. destruct (0 <=? _); [done|]. assert (Hcl : ∀ c, cache_read_cluster (within dom ops) c lba = cache_read_cluster ops c lba).
  { intros c1. unfold cache_read_cluster. destruct (stream_buf c1); [|done]. destruct (lba =? _); [|done]. cbv zeta. destruct (1 <? _); [|done]. rewrite within_read; [done|]. apply Hdom; [done|]. apply readahead_run_bound. unfold ODFS_CACHE_READAHEAD. lia. }
  assert (Hsg : ∀ c, cache_read_single (within dom ops) c lba = cache_read_single ops c lba).
  { intros c1. unfold cache_read_single. cbv zeta. destruct (_ <? 0); [done|]. rewrite within_read; [done|]. apply Hdom; [done|unfold ODFS_CACHE_READAHEAD; lia]. }
  rewrite Hcl. destruct (cache_read_cluster _ _ _) as [[]]; by rewrite ?Hsg.
Qed.
End cached.

(** A drive for the examples: it shows an image, and knows some of the 64-bit commands. *)
Definition image_drive (knows : io_command → bool) (img : Z → list Z) (_ : unit) (rq : io_request) : io_reply * unit :=
  match rq with
  | IoStd c o a n => if knows c then (mk_reply 0 0 n (disc_bytes img 2048 (byte_offset c o a) n) 0 0 SENSE_ZERO, ()) else (mk_reply (-1) IOERR_NOCMD 0 [] 0 0 SENSE_ZERO, ())
  | IoScsi cdb n _ =>
      if at_ cdb 0 =? 0x28 then
        let got := Z.min n (Z.lor (Z.shiftl (at_ cdb 7) 8) (at_ cdb 8) * 2048) in
        (mk_reply 0 0 0 (disc_bytes img 2048 (be32 (at_ cdb 2) (at_ cdb 3) (at_ cdb 4) (at_ cdb 5) * 2048) got) 0 got SENSE_ZERO, ())
      else (mk_reply (-1) IOERR_NOCMD 0 [] 0 0 SENSE_ZERO, ())
  end.
Lemma word_bytes x : Z.lor (Z.shiftl (u8 (Z.shiftr x 8)) 8) (u8 x) = x mod 2 ^ 16.
Proof.
  rewrite !u8_mod, Z.shiftr_div_pow2 by lia. set (a := x mod 2 ^ 8). set (b := x / 2 ^ 8 mod 2 ^ 8). assert (Hb : 0 ≤ a < 256 ∧ 0 ≤ b < 256) by (unfold a, b; split; apply Z.mod_pos_bound; lia).
  rewrite Z.lor_comm, lor_shiftl_add by lia. unfold a, b. dlia.
Qed.
Lemma image_drive_lawful knows img : (∀ l, zlen (img l) = 2048) → Drive (image_drive knows img) img 2048.
Proof.
  intros Hl. split; [done|done| |].
  - intros d c o a n r d'. simpl. destruct (knows c); intros [= <- <-] Ho Ha Hn; cbn [r_rc r_error r_actual r_data]; [intros _ _ _|intros; lia]. apply take_ge. pose proof (length_disc_bytes img 2048 (byte_offset c o a) n Hn). lia.
  - intros d lba blocks n r d' Hd _ Hlba Hb. unfold image_drive in Hd. change (at_ (read10_cdb lba blocks) 0) with 0x28 in Hd. cbv beta iota zeta in Hd. change (40 =? 40) with true in Hd. cbv iota in Hd.
    change (at_ (read10_cdb lba blocks) 7) with (u8 (Z.shiftr blocks 8)) in Hd. change (at_ (read10_cdb lba blocks) 8) with (u8 blocks) in Hd. rewrite word_bytes in Hd.
    change (at_ (read10_cdb lba blocks) 2) with (u8 (Z.shiftr lba 24)) in Hd. change (at_ (read10_cdb lba blocks) 3) with (u8 (Z.shiftr lba 16)) in Hd. change (at_ (read10_cdb lba blocks) 4) with (u8 (Z.shiftr lba 8)) in Hd. change (at_ (read10_cdb lba blocks) 5) with (u8 lba) in Hd.
    rewrite be32_bytes in Hd by done. apply (f_equal fst) in Hd. cbn [fst] in Hd. subst r. cbn [r_rc r_status r_scsi_actual r_data]. intros _ _. split; [lia|]. intros ->. apply take_ge.
    destruct (decide (0 ≤ n)) as [Hn|Hn]; [pose proof (length_disc_bytes img 2048 (lba * 2048) n Hn); lia|]. unfold disc_bytes. rewrite length_map, length_seqZ. lia.
Qed.
Definition plain_conf : amiga_conf := mk_conf 2048 131072 64 32768 (2 ^ 32 - 2) 0 true.
Lemma plain_conf_ok : conf_ok plain_conf.
Proof. split; simpl; try lia. exists 16. lia. Qed.
Definition striped (l : Z) : list Z := replicate 2048 (l mod 256).
Lemma striped_length l : zlen (striped l) = 2048.
Proof. unfold striped. rewrite length_replicate. lia. Qed.
Definition fresh {D} (d : D) : amiga_state D := mk_amiga d [] 0 (-1) (-1) (-1) (-1) 0 0 0 0.

(** [C17] The drive of the handler is a medium that shows the disc: a read of less than 4 GiB
    ends, writes inside its buffer, and when it succeeds the buffer has the sectors of the
    disc, whether it went through the bounce buffer or not, with 32-bit, 64-bit or SCSI
    commands, in any number of requests, and wherever the buffer is; on a drive without
    errors it succeeds.  The block cache over it reads the sectors of the disc. *)
Theorem amiga_medium_reads {D} (DoIO : D → io_request → io_reply * D) word conf MemList TypeOfMem where_ alloc img :
  conf_ok conf → Drive DoIO img (sector_size conf) →
  let ops := amiga_media_ops DoIO word conf MemList TypeOfMem where_ alloc in
  MediaReads (within (reachable (sector_size conf)) ops) img (sector_size conf) ∧
  (∀ s lba count buf, 0 ≤ lba → 0 ≤ count → lba + count ≤ 2 ^ 32 → reachable (sector_size conf) lba count = true → zlen buf = count * sector_size conf →
     ∃ err b s', read_sectors ops s lba count buf = (err, b, s') ∧ length b = length buf ∧ (err = ODFS_OK → b = disc_sectors img lba count) ∧
       (healthy DoIO → mode_good s → err = ODFS_OK ∧ mode_good s')) ∧
  (sector_size conf = 2048 → ∀ c lba p c', cache_ok img 2048 c → is_u32 lba → odfs_cache_read ops c lba = (ODFS_OK, p, c') →
     cache_ok img 2048 c' ∧ cache_data c' p = img lba).
Proof.
  intros Hc Hd ops. pose proof (amiga_media_reads DoIO word conf MemList TypeOfMem where_ alloc img Hc Hd) as Hm. fold ops in Hm. split; [done|]. pose proof (co_size _ Hc) as Hss. split.
  - intros s lba count buf Hl Hn Hmx E Hb. unfold reachable in E. apply andb_true_iff in E as [E1 E2]. apply Z.ltb_lt in E1.
    assert (Hr : range_ok conf lba (count * sector_size conf)).
    { split; [done|]. split; [nia|]. split; [by rewrite Z.mod_mul by lia|]. split; [nia|]. apply orb_true_iff in E2 as [E2|E2]; b2p; [by left|by right]. }
    destruct (read_sectors_reads DoIO word conf MemList TypeOfMem img Hc (where_ s lba count) s lba count buf Hr Hn Hb) as ([[e b] s1] & Er & Hlen & Hok & Hh). exists e, b, s1. simpl. rewrite Er. done.
  - intros Hs c lba p c' Hok Hl Hr. rewrite Hs in Hm. rewrite <- (within_cache_read (reachable 2048)) in Hr; [|intros l n Hl0 Hn; unfold reachable, ODFS_CACHE_READAHEAD in *; change (2048 =? 2048) with true; rewrite orb_true_l, andb_true_r; apply Z.ltb_lt; lia|apply Hl].
    destruct (read_evolves (within (reachable 2048) ops) img 2048 Hm c lba p c' Hok Hl Hr) as (H1 & H2 & _). done.
Qed.
(** Three sectors beyond 4 GiB. *)
Lemma amiga_medium_reads_witness : ∃ s',
  read_sectors (amiga_media_ops (image_drive (λ _, true) striped) 32 plain_conf [] (λ _, 0) (λ _ _ _, 4096) true) (fresh tt) (2 ^ 21 + 5) 3 (replicate (Z.to_nat 6144) 0) = (ODFS_OK, disc_sectors striped (2 ^ 21 + 5) 3, s').
Proof.
  destruct (amiga_medium_reads (image_drive (λ _, true) striped) 32 plain_conf [] (λ _, 0) (λ _ _ _, 4096) true striped plain_conf_ok (image_drive_lawful (λ _, true) striped striped_length)) as (_ & H & _).
  destruct (H (fresh tt) (2 ^ 21 + 5) 3 (replicate (Z.to_nat 6144) 0) ltac:(lia) ltac:(lia) ltac:(lia) eq_refl ltac:(rewrite length_replicate; cbn [sector_size plain_conf]; lia)) as (err & b & s' & Hr & _ & Hok & Hh).
  destruct (Hh ltac:(intros d c o a n _; simpl; auto) (or_introl eq_refl)) as [He _]. exists s'. rewrite <- (Hok He), <- He. exact Hr.
Defined.

(** ** Reads beyond 4 GiB *)

(** The request of a method for a read, and what its reply says. *)
Definition method_request (mode lba bytes : Z) : io_request :=
  if mode =? ODFS_READ64_TD64 then IoStd TD_READ64 (u32 (Z.shiftl lba 11)) (Z.shiftr lba 21) bytes
  else if mode =? ODFS_READ64_NSD then IoStd NSCMD_TD_READ64 (u32 (Z.shiftl lba 11)) (Z.shiftr lba 21) bytes
  else IoScsi (read10_cdb lba (bytes / 2048)) bytes [].
Definition replied (mode bytes : Z) (r : io_reply) : bool :=
  (r_rc r =? 0) && (r_error r =? 0) && (if mode =? ODFS_READ64_SCSI then (r_status r =? 0) && (r_scsi_actual r =? bytes) else r_actual r =? bytes).
Section probing.
Context {D : Type} (DoIO : D → io_request → io_reply * D).
Definition works (lba bytes mode : Z) : Prop := ∀ d, replied mode bytes (DoIO d (method_request mode lba bytes)).1 = true.
Definition refuses (lba bytes mode : Z) : Prop := ∀ d, let r := (DoIO d (method_request mode lba bytes)).1 in r_rc r ≠ 0 ∧ r_error r = IOERR_NOCMD.

(** One attempt. *)
Lemma hi_attempt n s mode probing lba bytes buf x : 1 ≤ mode ≤ 3 →
  let r := (DoIO (device s) (method_request mode lba bytes)).1 in let s1 := set_device (DoIO (device s) (method_request mode lba bytes)).2 s in
  ∃ b, read_hi_loop DoIO (S n) s mode probing lba bytes buf x =
    if replied mode bytes r then Ret (ODFS_OK, b, if probing then set_mode mode s1 else s1)
    else
      let x' := if mode =? ODFS_READ64_SCSI then r_error r else if (r_rc r =? 0) && (r_error r =? 0) && (r_actual r =? bytes) then x else r_error r in
      if probing && (x' =? IOERR_NOCMD) && negb (mode =? ODFS_READ64_SCSI) then read_hi_loop DoIO n s1 (mode + 1) probing lba bytes b x'
      else if probing && (mode =? ODFS_READ64_SCSI) && (x' =? IOERR_NOCMD) then Ret (ODFS_ERR_UNSUPPORTED, b, set_mode ODFS_READ64_NONE s1) else Ret (ODFS_ERR_IO, b, s1).
Proof.
  intros Hm. unfold replied, method_request, ODFS_READ64_TD64, ODFS_READ64_NSD, ODFS_READ64_SCSI. cbn [read_hi_loop]. unfold ODFS_READ64_TD64, ODFS_READ64_NSD, ODFS_READ64_SCSI.
  assert (Hc : mode = 1 ∨ mode = 2 ∨ mode = 3) by lia. destruct Hc as [-> |[-> | ->]].
  - change (1 =? 1) with true. change (1 =? 3) with false. cbn [orb negb]. cbv iota zeta. unfold do_io. destruct (DoIO (device s) _) as [r d']. cbn [fst snd]. eexists. destruct (_ && _ && _); [reflexivity|]. change (err_ok ODFS_ERR_IO) with false. cbv iota. reflexivity.
  - change (2 =? 1) with false. change (2 =? 2) with true. change (2 =? 3) with false. cbn [orb negb]. cbv iota zeta. unfold do_io. destruct (DoIO (device s) _) as [r d']. cbn [fst snd]. eexists. destruct (_ && _ && _); [reflexivity|]. change (err_ok ODFS_ERR_IO) with false. cbv iota. reflexivity.
  - change (3 =? 1) with false. change (3 =? 2) with false. change (3 =? 3) with true. cbn [orb negb]. cbv iota zeta. unfold scsi_read10, do_io. destruct (DoIO (device s) _) as [r d']. cbn [fst snd]. eexists.
    destruct (r_rc r =? 0), (r_error r =? 0), (r_status r =? 0), (r_scsi_actual r =? bytes); cbn [negb orb andb]; reflexivity.
Qed.

Lemma hi_works n s mode probing lba bytes buf x : 1 ≤ mode ≤ 3 → works lba bytes mode →
  ∃ b, read_hi_loop DoIO (S n) s mode probing lba bytes buf x = Ret (ODFS_OK, b, let s1 := set_device (DoIO (device s) (method_request mode lba bytes)).2 s in if probing then set_mode mode s1 else s1).
Proof. intros Hm Hw. destruct (hi_attempt n s mode probing lba bytes buf x Hm) as [b Hb]. cbv zeta in Hb. rewrite Hw in Hb. by exists b. Qed.
Lemma hi_refused n s mode lba bytes buf x : 1 ≤ mode ≤ 3 → refuses lba bytes mode →
  ∃ b d, read_hi_loop DoIO (S n) s mode true lba bytes buf x =
    if mode =? 3 then Ret (ODFS_ERR_UNSUPPORTED, b, set_mode ODFS_READ64_NONE (set_device d s)) else read_hi_loop DoIO n (set_device d s) (mode + 1) true lba bytes b IOERR_NOCMD.
Proof.
  intros Hm Hw. destruct (hi_attempt n s mode true lba bytes buf x Hm) as [b Hb]. destruct (Hw (device s)) as [H1 H2]. cbv zeta in Hb. set (r := (DoIO (device s) (method_request mode lba bytes)).1) in *. set (d := (DoIO (device s) (method_request mode lba bytes)).2) in *.
  exists b, d. unfold replied in Hb. rewrite H2, (proj2 (Z.eqb_neq (r_rc r) 0)) in Hb by done. cbn [andb] in Hb. unfold ODFS_READ64_SCSI in Hb. rewrite Hb. by case_test.
Qed.
End probing.

(** [C21] How sectors beyond 4 GiB are read is found out once: the first of the three methods
    that the device does not refuse is used and kept; when all are refused, this and every
    later such read fails, the later ones without a request.  Once a method is kept, a read
    is one request by it, and a failure is an I/O error. *)
Theorem amiga_read64_probing {D} (DoIO : D → io_request → io_reply * D) s lba bytes buf :
  (read64_mode s = ODFS_READ64_UNPROBED →
     (∀ m, 1 ≤ m ≤ 3 → works DoIO lba bytes m → (∀ k, 1 ≤ k < m → refuses DoIO lba bytes k) →
        ∃ b s', amiga_read_hi DoIO s lba bytes buf = Ret (ODFS_OK, b, s') ∧ read64_mode s' = m) ∧
     ((∀ k, 1 ≤ k ≤ 3 → refuses DoIO lba bytes k) →
        ∃ b s', amiga_read_hi DoIO s lba bytes buf = Ret (ODFS_ERR_UNSUPPORTED, b, s') ∧ read64_mode s' = ODFS_READ64_NONE)) ∧
  (read64_mode s = ODFS_READ64_NONE → amiga_read_hi DoIO s lba bytes buf = Ret (ODFS_ERR_UNSUPPORTED, buf, s)) ∧
  (1 ≤ read64_mode s ≤ 3 →
     let '(r, d) := DoIO (device s) (method_request (read64_mode s) lba bytes) in
     ∃ b, amiga_read_hi DoIO s lba bytes buf = Ret (if replied (read64_mode s) bytes r then ODFS_OK else ODFS_ERR_IO, b, set_device d s)).
Proof.
  unfold amiga_read_hi, ODFS_READ64_UNPROBED, ODFS_READ64_NONE, ODFS_READ64_TD64. split_and!.
  - intros ->. change (0 =? -1) with false. change (0 =? 0) with true. cbv iota. split.
    + intros m Hm Hw Hr. assert (Hc : m = 1 ∨ m = 2 ∨ m = 3) by lia. destruct Hc as [-> |[-> | ->]].
      * destruct (hi_works DoIO 2 s 1 true lba bytes buf 0 ltac:(lia) Hw) as [b ->]. by eexists _, _.
      * destruct (hi_refused DoIO 2 s 1 lba bytes buf 0 ltac:(lia) (Hr 1 ltac:(lia))) as (b & d & ->). change (1 =? 3) with false. cbv iota. change (1 + 1) with 2.
        destruct (hi_works DoIO 1 (set_device d s) 2 true lba bytes b IOERR_NOCMD ltac:(lia) Hw) as [b' ->]. by eexists _, _.
      * destruct (hi_refused DoIO 2 s 1 lba bytes buf 0 ltac:(lia) (Hr 1 ltac:(lia))) as (b & d & ->). change (1 =? 3) with false. cbv iota. change (1 + 1) with 2.
        destruct (hi_refused DoIO 1 (set_device d s) 2 lba bytes b IOERR_NOCMD ltac:(lia) (Hr 2 ltac:(lia))) as (b' & d' & ->). change (2 =? 3) with false. cbv iota. change (2 + 1) with 3.
        destruct (hi_works DoIO 0 (set_device d' (set_device d s)) 3 true lba bytes b' IOERR_NOCMD ltac:(lia) Hw) as [b'' ->]. by eexists _, _.
    + intros Hr. destruct (hi_refused DoIO 2 s 1 lba bytes buf 0 ltac:(lia) (Hr 1 ltac:(lia))) as (b & d & ->). change (1 =? 3) with false. cbv iota. change (1 + 1) with 2.
      destruct (hi_refused DoIO 1 (set_device d s) 2 lba bytes b IOERR_NOCMD ltac:(lia) (Hr 2 ltac:(lia))) as (b' & d' & ->). change (2 =? 3) with false. cbv iota. change (2 + 1) with 3.
      destruct (hi_refused DoIO 0 (set_device d' (set_device d s)) 3 lba bytes b' IOERR_NOCMD ltac:(lia) (Hr 3 ltac:(lia))) as (b'' & d'' & ->). by eexists _, _.
  - by intros ->.
  - intros Hm. rewrite (proj2 (Z.eqb_neq (read64_mode s) (-1))), (proj2 (Z.eqb_neq (read64_mode s) 0)) by lia. destruct (hi_attempt DoIO 2 s (read64_mode s) false lba bytes buf 0 Hm) as [b Hb]. cbv zeta in Hb. destruct (DoIO (device s) _) as [r d]. cbn [fst snd andb] in Hb. exists b. rewrite Hb. by case_test.
Qed.
(** A drive without 64-bit commands is read with SCSI commands. *)
Lemma amiga_read64_probing_witness : ∃ b s', amiga_read_hi (image_drive (λ _, false) striped) (fresh tt) (2 ^ 21) 2048 [] = Ret (ODFS_OK, b, s') ∧ read64_mode s' = 3.
Proof.
  destruct (amiga_read64_probing (image_drive (λ _, false) striped) (fresh tt) (2 ^ 21) 2048 []) as (H & _ & _). destruct (H eq_refl) as [H' _].
  apply (H' 3); [lia|intros d; reflexivity|]. intros k Hk d. assert (Hc : k = 1 ∨ k = 2) by lia. destruct Hc as [-> | ->]; (split; [discriminate|reflexivity]).
Defined.
(** A request of 65536 blocks names none: READ(10) has 16 bits for them. *)
Lemma long_read10_fails {D} (DoIO : D → io_request → io_reply * D) img s lba buf : Drive DoIO img 2048 → 0 ≤ lba < 2 ^ 32 → (scsi_read10 DoIO s lba (65536 * 2048) buf).1.1.1 ≠ ODFS_OK.
Proof.
  intros Hd Hl. unfold scsi_read10, do_io. change (65536 * 2048 / 2048) with 65536. destruct (DoIO (device s) _) as [r d] eqn:E. destruct (negb _ || _ || _ || _) eqn:Et; [done|]. apply orb_false_iff in Et as [Et Ha]. apply negb_or3 in Et as (H1 & _ & H3). b2p.
  destruct (dr_read10 (Drive := Hd) _ _ _ _ _ _ E eq_refl Hl ltac:(lia) H1 H3) as [H _]. change (65536 mod 2 ^ 16 * 2048) with 0 in H. lia.
Qed.

(** ** The table of contents *)

(** The response of a drive: the length, the first and the last track, and a descriptor of
    every track and of the lead-out. *)
Definition toc_descriptor (number control start : Z) : list Z := [0; Z.lor 0x10 control; number; 0] ++ lba_be start.
Definition toc_response (tracks : list odfs_session) (last leadout : Z) : list Z :=
  let n := 2 + 8 * (zlen tracks + 1) in
  [u8 (Z.shiftr n 8); u8 n; 1; last] ++ concat (map (λ t, toc_descriptor (s_number t) (s_control t) (s_start_lba t)) tracks ++ [toc_descriptor 0xAA 4 leadout]).
Definition track_ok (t : odfs_session) : Prop := 0 ≤ s_number t < 256 ∧ s_number t ≠ 0xAA ∧ 0 ≤ s_control t < 16 ∧ 0 ≤ s_start_lba t < 2 ^ 32 ∧ s_length t = 0.
Definition toc_request : io_request := IoScsi [0x43; 0; 0; 0; 0; 0; 0x01; u8 (Z.shiftr TOC_SIZE 8); u8 TOC_SIZE; 0] TOC_SIZE [].
(** A track goes on to the next one, the last one to the lead-out. *)
Definition track_length (tracks : list odfs_session) (leadout : Z) (i : nat) : Z :=
  match tracks !! i with
  | Some t => Z.max 0 (match tracks !! S i with Some next => s_start_lba next | None => leadout end - s_start_lba t)
  | None => 0
  end.

Lemma concat_lookup {A} (n : nat) (ls : list (list A)) : Forall (λ l, length l = n) ls → ∀ i k, (k < n)%nat → concat ls !! (i * n + k)%nat = ls !! i ≫= λ l, l !! k.
Proof.
  induction 1 as [|l ls Hl _ IH]; intros i k Hk; [done|]. cbn [concat]. destruct i as [|i].
  - by rewrite lookup_app_l by (rewrite Hl; lia).
  - rewrite lookup_app_r by (rewrite Hl; simpl; lia). replace (S i * n + k - length l)%nat with (i * n + k)%nat by (rewrite Hl; simpl; lia). exact (IH i k Hk).
Qed.
Lemma toc_lengths_lookup tracks leadout : Forall track_ok tracks → ∀ i, toc_lengths tracks leadout !! i = (λ t, mk_session (s_number t) (s_control t) (s_start_lba t) (track_length tracks leadout i)) <$> tracks !! i.
Proof.
  induction 1 as [|t rest Ht Hrest IH]; intros [|i]; try done; cbn [toc_lengths].
  - change (track_length (t :: rest) leadout 0) with (Z.max 0 (match rest !! 0%nat with Some next => s_start_lba next | None => leadout end - s_start_lba t)). destruct Ht as (_ & _ & _ & _ & Hz).
    assert (Hr : (match rest with next :: _ => s_start_lba next | [] => leadout end) = match rest !! 0%nat with Some next => s_start_lba next | None => leadout end) by by destruct rest.
    rewrite Hr. set (e := match rest !! 0%nat with Some _ => _ | None => _ end). clearbody e. cbn. destruct (s_start_lba t <? e) eqn:E; b2p; f_equal; [by rewrite Z.max_r by lia|]. rewrite Z.max_l by lia. rewrite <- Hz. by destruct t.
  - cbn. rewrite IH. unfold track_length. by cbn.
Qed.
Lemma length_toc_lengths tracks leadout : length (toc_lengths tracks leadout) = length tracks.
Proof. induction tracks as [|t rest IH]; [done|]. cbn [toc_lengths length]. by rewrite IH. Qed.

Section toc.
Context (tracks : list odfs_session) (last leadout : Z) (Htr : Forall track_ok tracks) (Hn : 1 ≤ zlen tracks ≤ 99) (Hlead : 0 ≤ leadout < 2 ^ 32).
Abbreviation descs := (map (λ t, toc_descriptor (s_number t) (s_control t) (s_start_lba t)) tracks ++ [toc_descriptor 0xAA 4 leadout]).
Lemma descs_8 : Forall (λ l, length l = 8%nat) descs.
Proof. apply Forall_app. split; [apply Forall_map, Forall_true; done|by constructor]. Qed.
Lemma response_length : zlen (toc_response tracks last leadout) = 4 + 8 * (zlen tracks + 1).
Proof.
  unfold toc_response. cbv zeta. rewrite length_app. rewrite (length_concat descs). assert (H : ∀ ls : list (list Z), Forall (λ l, length l = 8%nat) ls → sum_list (length <$> ls) = (8 * length ls)%nat) by (induction 1 as [|l ls Hl _ IH]; [done|]; cbn; rewrite IH, Hl; lia).
  rewrite H by apply descs_8. rewrite length_app, length_map. cbn [length]. lia.
Qed.
Lemma response_at d i k pad : descs !! i = Some d → 0 ≤ k < 8 → at_ (toc_response tracks last leadout ++ pad) (4 + Z.of_nat i * 8 + k) = default 0 (d !! Z.to_nat k).
Proof.
  intros Hd Hk. unfold at_, zget. rewrite (proj2 (Z.leb_le _ _)) by lia. pose proof (lookup_lt_Some _ _ _ Hd) as Hi. rewrite length_app, length_map in Hi. cbn [length] in Hi. pose proof response_length. rewrite lookup_app_l by lia.
  unfold toc_response. cbv zeta. rewrite lookup_app_r by (cbn [length]; lia). replace (Z.to_nat (4 + Z.of_nat i * 8 + k) - length [_; _; _; _])%nat with (i * 8 + Z.to_nat k)%nat by (cbn [length]; lia).
  rewrite (concat_lookup 8) by (apply descs_8 || lia). by rewrite Hd.
Qed.
Lemma toc_descriptors_response pad n : ∀ i acc, (i + n = length tracks)%nat → acc = take i tracks →
  toc_descriptors (S n) (Z.of_nat i) (toc_response tracks last leadout ++ pad) acc 0 = (tracks, leadout).
Proof.
  assert (Hdesc : ∀ i d, descs !! i = Some d → ∀ k, 0 ≤ k < 8 → at_ (toc_response tracks last leadout ++ pad) (4 + Z.of_nat i * 8 + k) = default 0 (d !! Z.to_nat k)) by (intros; by apply response_at).
  set (buf := toc_response tracks last leadout ++ pad) in *. clearbody buf. induction n as [|n IH]; intros i acc Hi ->.
  - cbn [toc_descriptors]. assert (Hd : descs !! i = Some (toc_descriptor 0xAA 4 leadout)) by (rewrite lookup_app_r by (rewrite length_map; lia); rewrite length_map; by replace (i - length tracks)%nat with 0%nat by lia).
    rewrite !(Hdesc i _ Hd) by lia. change (default 0 (toc_descriptor 170 4 leadout !! Z.to_nat 2)) with 170. change (170 =? 170) with true. cbv iota.
    change (be32 (default 0 (toc_descriptor 170 4 leadout !! Z.to_nat 4)) _ _ _) with (be32 (u8 (Z.shiftr leadout 24)) (u8 (Z.shiftr leadout 16)) (u8 (Z.shiftr leadout 8)) (u8 leadout)). rewrite be32_bytes by done. by rewrite take_ge by lia.
  - destruct (lookup_lt_is_Some_2 tracks i ltac:(lia)) as [t Ht]. assert (Hd : descs !! i = Some (toc_descriptor (s_number t) (s_control t) (s_start_lba t))) by (rewrite lookup_app_l by (rewrite length_map; lia); by rewrite list_lookup_fmap, Ht).
    destruct (Forall_lookup_1 _ _ _ _ Htr Ht) as (Hnum & Haa & Hctl & Hst & Hz). cbn [toc_descriptors]. rewrite !(Hdesc i _ Hd) by lia.
    change (default 0 (toc_descriptor (s_number t) (s_control t) (s_start_lba t) !! Z.to_nat 2)) with (s_number t). change (default 0 (toc_descriptor (s_number t) (s_control t) (s_start_lba t) !! Z.to_nat 1)) with (Z.lor 0x10 (s_control t)).
    change (be32 (default 0 (toc_descriptor (s_number t) (s_control t) (s_start_lba t) !! Z.to_nat 4)) _ _ _) with (be32 (u8 (Z.shiftr (s_start_lba t) 24)) (u8 (Z.shiftr (s_start_lba t) 16)) (u8 (Z.shiftr (s_start_lba t) 8)) (u8 (s_start_lba t))).
    rewrite (proj2 (Z.eqb_neq (s_number t) 170)) by done. rewrite be32_bytes by done. rewrite (proj2 (Z.ltb_lt (zlen (take i tracks)) 99)) by (rewrite length_take; lia).
    assert (Hland : Z.land (Z.lor 16 (s_control t)) 15 = s_control t) by (rewrite Z.land_lor_distr_l; change (Z.land 16 15) with 0; rewrite Z.lor_0_l; pose proof (Z.land_ones (s_control t) 4 ltac:(lia)) as Ho; change (Z.ones 4) with 15 in Ho; rewrite Ho; apply Z.mod_small; lia).
    rewrite Hland. replace (Z.of_nat i + 1) with (Z.of_nat (S i)) by lia. apply IH; [lia|]. rewrite (take_S_r _ _ _ Ht). do 2 f_equal. rewrite <- Hz. by destruct t.
Qed.
End toc.

(** [C20] A table of contents that a drive sends for up to 99 tracks is understood: the tracks
    with their numbers, kinds and starts, each as long as to the next one or the lead-out. *)
Theorem amiga_toc_roundtrip {D} (DoIO : D → io_request → io_reply * D) conf s toc tracks last leadout r d :
  Forall track_ok tracks → 1 ≤ zlen tracks ≤ 99 → 0 ≤ leadout < 2 ^ 32 → toc_passthrough s ≠ 0 → TOC_SIZE ≤ dma_buf_size conf →
  DoIO (device s) toc_request = (r, d) → failed r = false → r_data r = toc_response tracks last leadout → r_scsi_actual r = 0 ∨ r_scsi_actual r = zlen (r_data r) →
  ∃ toc' s', amiga_read_toc DoIO conf s toc = (ODFS_OK, toc', s') ∧ session_count toc' = zlen tracks ∧ last_session toc' = last ∧ leadout_lba toc' = leadout ∧
    ∀ i t, tracks !! i = Some t → sessions toc' !! i = Some (mk_session (s_number t) (s_control t) (s_start_lba t) (track_length tracks leadout i)).
Proof.
  intros Htr Hn Hlead Hp Hd HD Hf Hdata Ha. unfold amiga_read_toc. rewrite (proj2 (Z.eqb_neq _ _)) by done. rewrite (proj2 (Z.ltb_ge _ _)) by done.
  unfold scsi_do, do_io. change (IoScsi _ _ []) with toc_request. rewrite HD. cbv iota beta. rewrite Hf, Hdata.
  pose proof (response_length tracks last leadout) as Hl. set (res := toc_response tracks last leadout) in *. assert (Hst : store (replicate (Z.to_nat TOC_SIZE) 0) 0 res = res ++ drop (length res) (replicate (Z.to_nat TOC_SIZE) 0)) by (apply store_front; rewrite length_replicate; unfold TOC_SIZE; lia).
  rewrite Hst. set (pad := drop (length res) (replicate (Z.to_nat TOC_SIZE) 0)). set (n := 2 + 8 * (zlen tracks + 1)).
  assert (H01 : Z.lor (Z.shiftl (at_ (res ++ pad) 0) 8) (at_ (res ++ pad) 1) = n) by (change (at_ (res ++ pad) 0) with (u8 (Z.shiftr n 8)); change (at_ (res ++ pad) 1) with (u8 n); rewrite word_bytes; apply Z.mod_small; unfold n; lia).
  rewrite H01. change (at_ (res ++ pad) 3) with last. rewrite (proj2 (Z.ltb_ge n 2)) by (unfold n; lia). rewrite (proj2 (Z.ltb_ge TOC_SIZE (n + 2))) by (unfold n, TOC_SIZE; lia).
  assert (Hact : negb (r_scsi_actual r =? 0) && (r_scsi_actual r <? n + 2) = false) by (destruct Ha as [-> | ->]; [done|]; rewrite Hdata, Hl; apply andb_false_iff; right; apply Z.ltb_ge; unfold n; lia).
  rewrite Hact. replace (Z.to_nat ((n + 2 - 4) / 8)) with (S (length tracks)) by (unfold n; replace (2 + 8 * (zlen tracks + 1) + 2 - 4) with ((zlen tracks + 1) * 8) by lia; rewrite Z.div_mul by lia; lia).
  pose proof (toc_descriptors_response tracks last leadout Htr Hn Hlead pad (length tracks) 0 [] ltac:(lia) eq_refl) as Htd. change (Z.of_nat 0) with 0 in Htd. fold res in Htd. rewrite Htd. rewrite length_toc_lengths. rewrite (proj2 (Z.eqb_neq (zlen tracks) 0)) by lia.
  eexists _, _. split; [reflexivity|]. cbn [session_count last_session leadout_lba sessions toc_zero]. split; [done|]. split; [done|]. split; [done|].
  intros i t Ht. unfold splice. rewrite take_0. cbn [app]. rewrite lookup_app_l by (rewrite length_toc_lengths; by eapply lookup_lt_Some). by rewrite toc_lengths_lookup, Ht.
Qed.
(** A disc of a data track and two audio tracks. *)
Definition three_tracks : list odfs_session := [mk_session 1 4 0 0; mk_session 2 0 4500 0; mk_session 3 0 9000 0].
Definition toc_drive (_ : unit) (rq : io_request) : io_reply * unit :=
  match rq with IoScsi (67 :: _) _ _ => (mk_reply 0 0 0 (toc_response three_tracks 3 15000) 0 36 SENSE_ZERO, tt) | _ => (mk_reply (-1) IOERR_NOCMD 0 [] 0 0 SENSE_ZERO, tt) end.
Lemma amiga_toc_roundtrip_witness : ∃ toc' s', amiga_read_toc toc_drive plain_conf (fresh tt) toc_zero = (ODFS_OK, toc', s') ∧ session_count toc' = 3 ∧ sessions toc' !! 1%nat = Some (mk_session 2 0 4500 4500).
Proof.
  destruct (amiga_toc_roundtrip toc_drive plain_conf (fresh tt) toc_zero three_tracks 3 15000 (mk_reply 0 0 0 (toc_response three_tracks 3 15000) 0 36 SENSE_ZERO) tt) as (toc' & s' & H1 & H2 & _ & _ & H3).
  - repeat constructor; simpl; lia.
  - simpl. lia.
  - lia.
  - simpl. lia.
  - unfold TOC_SIZE. simpl. lia.
  - reflexivity.
  - reflexivity.
  - reflexivity.
  - right. reflexivity.
  - exists toc', s'. split; [exact H1|]. split; [exact H2|]. exact (H3 1%nat (mk_session 2 0 4500 0) eq_refl).
Defined.
